(* ===== verification/_CoqProject ===== *)
-Q . S2P
Prelude.v
Wp.v
Replay.v
RocIndex.v
RtpHeader.v
Direction.v
Inbound.v
Outbound.v
Cipher.v
CipherProofs.v
SrtpBytes.v
Keys.v
SrtpWitness.v
Slab.v
Pool.v
Model.v
Maps.v
Routes.v
Rewrite.v
RewriteProofs.v
RtcpWire.v
Ice.v
IceProofs.v
ShardIo.v
Shard.v
ShardRtcp.v
Commands.v
Ingress.v
ShardLoop.v
ShardInv.v
ShardSteps.v
RtcpSafe.v
ForwardSafe.v
IngressSafe.v
CommandSafe.v
RemoveSafe.v
ShardSafe.v
ShardTheorems.v
Crdt.v
GCounter.v
LwwReg.v
Orswot.v
OrswotProofs.v
GossipWire.v
GossipProofs.v
DistributedState.v
DistributedProofs.v
DistributedEffects.v
Membership.v
MembershipProofs.v
Swim.v
SwimProofs.v
SwimTheorems.v
SwimCluster.v
SwimEffects.v
SwimDetect.v
Handshake.v
Transports.v
HandshakeProofs.v
SdpParams.v
SdpText.v
SdpModel.v
SdpParser.v
SdpSafe.v
SdpRound.v
SdpAnswers.v
SdpDocument.v
SdpTheorems.v
ControlPlane.v
OrchestratorState.v
Negotiation.v
Orchestrator.v
PlaneProofs.v
OrchestratorInv.v
NegotiationProofs.v
AnswerProofs.v
OrchestratorProofs.v
OrchestratorTheorems.v
OrchestratorScenario.v
