(* ===== verification/Prelude.v ===== *)
(** * Nexus SFU: a verification of its data plane, control plane and cluster state

    The program. A selective forwarding unit receives encrypted media (SRTP)
    of the publishers of a conference and forwards it to the subscribers.
    The data plane ([crates/nexus-dataplane]) is a set of shards, one thread
    each: a shard receives datagrams, tells STUN, DTLS, SRTP and SRTCP apart,
    finds the session by the source address, unprotects the packet, rewrites
    its header for every subscriber of the track and protects it again. The
    control plane gives a shard commands (create a session, install keys, add
    tracks and subscriptions) through a queue and gets events back. The
    orchestrator ([src/orchestrator]) is that control plane: it keeps rooms,
    participants and tracks, answers signaling messages, negotiates by SDP
    ([crates/nexus-webrtc]) and drives the DTLS handshakes. The nodes
    of a cluster replicate rooms, participants and tracks ([crates/nexus-state])
    and find each other's failures by a SWIM gossip protocol.

    Conventions.
    - An unsigned integer of width [w] is a [Z] in [0 <= x < 2^w]; the
      wrap-around of the source ([wrapping_add], [wrapping_sub], [as u16])
      is written out with [wrapping_add w], [wrapping_sub w] and [wrap w].
    - [usize] values (indices and lengths) are [nat].
    - A byte string is a [list Z] whose elements are bytes.
    - Code that can panic (indexing, slicing, [assert!], [expect]) runs in
      [outcome E A]: [Ok a], [Err e] for an error (or [None]) of the source,
      and [Panic]. Stateful code is [st S E A], a state-passing version of
      it; [Wp.v] has its weakest-precondition rules and the tactic [wp].
    - What is not under [src] is a parameter with named laws: the ciphers and
      hashes (classes [Crypto], [StunCrypto]), the socket ([DatagramIo]), the
      DTLS engine ([DtlsEngine]), the clock, random numbers, queues and
      hash-map orders of the gossip thread and of the orchestrator ([World]).
    - Loops are structural or run on a fuel the source itself has (budgets per
      iteration, a bounded number of attempts, a length of the input); where
      fuel is an argument a lemma shows that it is enough.

    SRTP ([crates/nexus-transport/src/srtp]).
    - [Replay.v], [RocIndex.v]: the replay window as the set of indices
      accepted; the rollover counter follows the sender's index.
    - [Cipher.v], [CipherProofs.v], [Keys.v]: packet formats of AES-GCM and
      AES-CM/HMAC, nonces, key derivation; what is protected is recovered when
      it is within [MAX_PACKET_SIZE] and refused otherwise; nonces distinct.
    - [Direction.v], [Inbound.v], [Outbound.v], [SrtpBytes.v]: the
      contexts of a session against the interface [SrtpCipher]. Every packet
      that leaves is the output of the cipher at an SSRC and an index no other
      packet of the context was protected with, every packet delivered is
      authentic under one no other was, a refused packet changes nothing.
      [SrtpWitness.v] instantiates the parameters.

    Packets ([crates/nexus-media], [crates/nexus-dataplane]).
    - [RtpHeader.v]: the scalar and the SIMD parsers agree, lengths stay in
      bounds; the writer fills any buffer with the header that was parsed.
    - [RtcpWire.v]: RTCP headers, compounds, the packets the shard reads, and
      the writers of the data plane.
    - [Rewrite.v], [RewriteProofs.v]: the header rewrite, its
      offsets, the exact size test, and how a reordered first packet can
      stall a subscription.
    - [Ice.v], [IceProofs.v]: the binding requests of ICE-lite and the answer.

    The shard ([crates/nexus-dataplane/src/shard]).
    - [Slab.v], [Pool.v], [Model.v], [Maps.v], [Routes.v]: storage, data and
      the consistency of the routing tables. [Slab.v] refines a partial map.
    - [ShardIo.v], [Shard.v], [ShardRtcp.v], [Commands.v], [Ingress.v],
      [ShardLoop.v]: the state and every handler; the in-memory I/O
      of [ShardIo.v] keeps the contract the theorems assume of a socket.
    - [ShardInv.v], [ShardSteps.v], [RtcpSafe.v], [ForwardSafe.v],
      [IngressSafe.v], [CommandSafe.v], [RemoveSafe.v], [ShardSafe.v]: the
      invariant, handler by handler.
    - [ShardTheorems.v]: whatever arrives, a shard does not
      panic, the queued commands are handled in order, 64 in an iteration,
      and closing a session leaves nothing. The configuration is a validated
      one with 31 times [max_sessions] below 2^32.

    The replicated state ([crates/nexus-state]).
    - [Crdt.v], [GCounter.v], [LwwReg.v], [Orswot.v], [OrswotProofs.v]: the
      replicated data types, their laws, and where merging does not converge.
    - [DistributedState.v], [DistributedProofs.v], [DistributedEffects.v]: the
      operations under any interleaving of their critical sections.
    - [GossipWire.v], [GossipProofs.v]: the wire format, safe to decode
      and read back.
    - [Membership.v], [MembershipProofs.v], [Swim.v], [SwimProofs.v],
      [SwimTheorems.v], [SwimCluster.v], [SwimEffects.v], [SwimDetect.v]: the
      membership list and the gossip thread of [src/node.rs]: while the system
      has random numbers ([getrandom] is expected to succeed) nothing
      makes it panic, beliefs only move forward, a silent peer is declared
      dead, and in a cluster a suspicion is never refuted.

    SDP ([crates/nexus-webrtc/src/sdp]).
    - [SdpText.v], [SdpModel.v], [SdpParser.v]: [str] operations on bytes with
      their UTF-8 boundaries, the description with its attributes and its
      printer, the line parser with the validation, and the negotiator.
    - [SdpSafe.v], [SdpRound.v], [SdpAnswers.v], [SdpDocument.v],
      [SdpTheorems.v]: no text makes the parser panic and what it accepts is
      within every capacity; printed documents are read back unless an m-line
      has no payload type, and then they are refused; answers match
      offers; offers never reuse a payload type that is taken.

    The control plane ([src/orchestrator]).
    - [Handshake.v], [Transports.v], [HandshakeProofs.v]: the DTLS handshake of
      a session against the interface of the engine, the ids, the transports,
      the outbound SSRCs, the track registry.
    - [SdpParams.v], [ControlPlane.v], [PlaneProofs.v]: the parameters of an
      answer, the sessions and commands of the shards, events and timers.
    - [OrchestratorState.v], [Negotiation.v], [Orchestrator.v]: rooms,
      m-lines, offers and answers, subscriptions, the dispatcher, clean-up.
      They call the parser and the negotiator of [SdpParser.v].
    - [OrchestratorInv.v], [NegotiationProofs.v], [AnswerProofs.v],
      [OrchestratorProofs.v], [OrchestratorTheorems.v],
      [OrchestratorScenario.v]: the invariant of all tables, handler by
      handler, its theorems (no panic, rooms kept apart, tables that agree,
      departures complete, settling terminates) and a call as an example.

    Not modelled: the system calls behind [DatagramIo] and the thread that
    runs a shard (operating-system glue), the OpenSSL wrapper behind
    [DtlsEngine], the RTCP packets the shard does not read, the asynchronous
    servers for signaling, REST and metrics (third-party frameworks), the
    floating-point bandwidth estimators, the load generator (a test client),
    and the older SRTP context [srtp/context.rs], which the data plane does
    not use. *)

From Stdlib Require Export ZArith Lia.
From stdpp Require Export base numbers option gmap tactics list.

#[global] Open Scope Z_scope.
#[global] Unset Printing Use Implicit Types.

(** ** Outcomes *)

Inductive outcome (E A : Type) : Type :=
| Ok (a : A)
| Err (e : E)
| Panic.

Arguments Ok {E A} a.
Arguments Err {E A} e.
Arguments Panic {E A}.

#[export] Instance outcome_ret E : MRet (outcome E) := @Ok E.

#[export] Instance outcome_bind E : MBind (outcome E) :=
  fun A B f m => match m with Ok a => f a | Err e => Err e | Panic => Panic end.

#[export] Instance outcome_fmap E : FMap (outcome E) :=
  fun A B f m => match m with Ok a => Ok (f a) | Err e => Err e | Panic => Panic end.

(** The outcome is a value or an error, not a panic. *)
Definition no_panic {E A} (m : outcome E A) : Prop := m ≠ Panic.

(** [assert!(b)] *)
Definition assert_ {E} (b : bool) : outcome E () := if b then Ok () else Panic.

(** [return Err(e)] when [b] holds *)
Definition fail_if {E} (b : bool) (e : E) : outcome E () := if b then Err e else Ok ().

(** [.map_err(|_| e)] and [.ok()] *)
Definition map_err {E F A} (f : E → F) (m : outcome E A) : outcome F A :=
  match m with Ok a => Ok a | Err e => Err (f e) | Panic => Panic end.

(** An [Option] of the source, [None] being an error *)
Definition of_option {E A} (e : E) (o : option A) : outcome E A :=
  match o with Some a => Ok a | None => Err e end.

(** An [Option] that the code [expect]s to be [Some] *)
Definition expect {E A} (o : option A) : outcome E A :=
  match o with Some a => Ok a | None => Panic end.

(** [.is_some()] *)
Definition is_some {A} (o : option A) : bool := match o with Some _ => true | None => false end.

(** Turns a fallible result into the [Option] a caller inspects. *)
Definition ok {E F A} (m : outcome E A) : outcome F (option A) :=
  match m with Ok a => Ok (Some a) | Err _ => Ok None | Panic => Panic end.

Section outcome_lemmas.
  Context {E A B : Type}.
  Implicit Types (m : outcome E A) (f : A → outcome E B).

Lemma bind_ok m f b : m ≫= f = Ok b ↔ ∃ a, m = Ok a ∧ f a = Ok b.
Proof.
  destruct m as [a|e|]; cbn; split; [by eauto| | | | |]; try done;
    intros (a' & Ha & Hf); congruence.
Qed.

Lemma no_panic_bind m f :
    no_panic m → (∀ a, m = Ok a → no_panic (f a)) → no_panic (m ≫= f).
Proof. destruct m; unfold no_panic; naive_solver. Qed.

Lemma map_err_bind {F} (g : E → F) m f :
    map_err g (m ≫= f) = map_err g m ≫= fun a => map_err g (f a).
Proof. by destruct m. Qed.

Lemma bind_ext m f (g : A → outcome E B) : (∀ a, m = Ok a → f a = g a) → m ≫= f = m ≫= g.
Proof. destruct m; cbn; auto. Qed.

Lemma map_err_fail_if {F} (g : E → F) b e : map_err g (fail_if b e) = fail_if b (g e).
Proof. by destruct b. Qed.

Lemma map_err_expect {F} (g : E → F) (o : option A) : map_err g (expect o) = expect o.
Proof. by destruct o. Qed.

Lemma assert_ok b : assert_ (E:=E) b = Ok () ↔ b = true.
Proof. destruct b; naive_solver. Qed.

Lemma expect_ok (o : option A) a : expect (E:=E) o = Ok a ↔ o = Some a.
Proof. destruct o; naive_solver. Qed.

Lemma of_option_ok e (o : option A) a : of_option (E:=E) e o = Ok a ↔ o = Some a.
Proof. destruct o; naive_solver. Qed.
End outcome_lemmas.

(** Inverts hypotheses [... = Ok _] built from binds. *)
Ltac inv_ok :=
  repeat match goal with
  | H : mbind _ _ = Ok _ |- _ => apply bind_ok in H as (? & ? & H)
  | H : Ok _ = Ok _ |- _ => injection H as H
  | H : assert_ _ = Ok _ |- _ => apply assert_ok in H
  | H : expect _ = Ok _ |- _ => apply expect_ok in H
  | H : of_option _ _ = Ok _ |- _ => apply of_option_ok in H
  | H : Err _ = Ok _ |- _ => discriminate H
  | H : Panic = Ok _ |- _ => discriminate H
  | H : @eq () _ _ |- _ => clear H
  | x : () |- _ => destruct x
  | H : (_, _) = (_, _) |- _ => injection H as H
  | H : fail_if ?b _ = Ok _ |- _ => destruct b eqn:?; cbn in H
  end; subst.

(** ** State-passing code

    [st S E A] is code that mutates a state [S], returns [A] or fails with
    [E]; a failing call keeps the mutations made before it failed, as [?]
    does in the source. *)

Definition st (S E A : Type) : Type := S → outcome (E * S) (A * S).

#[export] Instance st_ret S E : MRet (st S E) := fun A a s => Ok (a, s).

#[export] Instance st_bind S E : MBind (st S E) :=
  fun A B f m s =>
    match m s with
    | Ok (a, s') => f a s'
    | Err (e, s') => Err (e, s')
    | Panic => Panic
    end.

Definition get {S E} : st S E S := fun s => Ok (s, s).
Definition gets {S E A} (f : S → A) : st S E A := fun s => Ok (f s, s).
Definition put {S E} (s : S) : st S E () := fun _ => Ok ((), s).
Definition modify {S E} (f : S → S) : st S E () := fun s => Ok ((), f s).
Definition throw {S E A} (e : E) : st S E A := fun s => Err (e, s).

(** Code that reads no state *)
Definition lift {S E A} (m : outcome E A) : st S E A :=
  fun s => match m with Ok a => Ok (a, s) | Err e => Err (e, s) | Panic => Panic end.

(** The caller inspects the result: [Some] for [Ok], [None] for an error. *)
Definition try_ {S E F A} (m : st S E A) : st S F (option A) :=
  fun s =>
    match m s with
    | Ok (a, s') => Ok (Some a, s')
    | Err (_, s') => Ok (None, s')
    | Panic => Panic
    end.

(** Runs code on a part of the state, reached by [f] and written by [g]. *)
Definition zoom {S T E A} (f : S → T) (g : T → S → S) (m : st T E A) : st S E A :=
  fun s =>
    match m (f s) with
    | Ok (a, t) => Ok (a, g t s)
    | Err (e, t) => Err (e, g t s)
    | Panic => Panic
    end.

(** [.ok()?]: any error becomes [None]. *)
Definition quiet {S E A} (m : st S E A) : st S () A :=
  fun s =>
    match m s with
    | Ok r => Ok r
    | Err (_, s') => Err ((), s')
    | Panic => Panic
    end.

(** Runs code on the [i]-th element of an array. *)
Definition at_slot {T E A} (i : nat) (m : st T E A) : st (list T) E A :=
  fun l =>
    match l !! i with
    | None => Panic
    | Some x =>
      match m x with
      | Ok (a, x') => Ok (a, <[i := x']> l)
      | Err (e, x') => Err (e, <[i := x']> l)
      | Panic => Panic
      end
    end.

(** [iter().position(p)] *)
Fixpoint position {A} (p : A → bool) (l : list A) : option nat :=
  match l with
  | [] => None
  | x :: l => if p x then Some 0%nat else S <$> position p l
  end.

(** [iter().filter(p).count()] *)
Definition count {A} (p : A → bool) (l : list A) : nat := length (filter (fun x => p x = true) l).
#[global] Arguments count : simpl never.

(** Unfolds the monad's combinators around a known state. *)
Ltac run_st :=
  cbv beta iota zeta delta [mbind st_bind outcome_bind mret st_ret outcome_ret get gets put
    modify throw lift assert_ fail_if].
Tactic Notation "run_st" "in" hyp(H) :=
  cbv beta iota zeta delta [mbind st_bind outcome_bind mret st_ret outcome_ret get gets put
    modify throw lift assert_ fail_if] in H.

(** The state after the run, whatever the result. *)
Definition state_of {S E A} (s0 : S) (r : outcome (E * S) (A * S)) : S :=
  match r with Ok (_, s) => s | Err (_, s) => s | Panic => s0 end.

(** ** Integers of a fixed width *)

Definition wrap (w x : Z) : Z := x mod 2 ^ w.
Definition wrapping_add (w a b : Z) : Z := wrap w (a + b).
Definition wrapping_sub (w a b : Z) : Z := wrap w (a - b).
Definition wrapping_mul (w a b : Z) : Z := wrap w (a * b).
Definition saturating_sub (a b : Z) : Z := Z.max 0 (a - b).
Definition saturating_add (w a b : Z) : Z := Z.min (2 ^ w - 1) (a + b).
Definition saturating_mul (w a b : Z) : Z := Z.min (2 ^ w - 1) (a * b).

(** [x as i16] of a [u16] *)
Definition as_i16 (x : Z) : Z := if x <? 32768 then x else x - 65536.

Definition in_range (w x : Z) : Prop := 0 ≤ x < 2 ^ w.
Abbreviation is_u8 := (in_range 8).
Abbreviation is_u16 := (in_range 16).
Abbreviation is_u32 := (in_range 32).
Abbreviation is_u64 := (in_range 64).
Abbreviation bytes := (Forall is_u8).

#[export] Instance in_range_dec w x : Decision (in_range w x).
Proof. unfold in_range. apply _. Defined.

Lemma wrap_range w x : 0 ≤ w → in_range w (wrap w x).
Proof. intros. apply Z.mod_pos_bound. lia. Qed.

Lemma wrap_small w x : in_range w x → wrap w x = x.
Proof. apply Z.mod_small. Qed.

Lemma range_land_ones w x : 0 ≤ w → in_range w x ↔ Z.land x (Z.ones w) = x.
Proof.
  intros. rewrite Z.land_ones by done. split; [apply Z.mod_small|].
  intros <-. by apply wrap_range.
Qed.

Lemma range_lor w a b : 0 ≤ w → in_range w a → in_range w b → in_range w (Z.lor a b).
Proof. intros Hw. rewrite !range_land_ones, Z.land_lor_distr_l by done. by intros -> ->. Qed.

Lemma range_lxor w a b : 0 ≤ w → in_range w a → in_range w b → in_range w (Z.lxor a b).
Proof.
  intros Hw. rewrite !range_land_ones by done. intros Ha Hb.
  apply Z.bits_inj'. intros n _. rewrite <- Ha, <- Hb at 2.
  rewrite !Z.land_spec, !Z.lxor_spec, !Z.land_spec.
  by destruct (Z.testbit a n), (Z.testbit b n), (Z.testbit (Z.ones w) n).
Qed.

(** Addition of an offset is undone by subtracting it, at any width. *)
Lemma wrapping_add_sub w a b : 0 ≤ w → in_range w a →
  wrapping_sub w (wrapping_add w a b) b = a.
Proof.
  intros Hw Ha. unfold wrapping_add, wrapping_sub, wrap.
  rewrite Zminus_mod_idemp_l. replace (a + b - b) with a by lia. by apply Z.mod_small.
Qed.

Lemma wrapping_sub_add w a b : 0 ≤ w → in_range w a →
  wrapping_add w (wrapping_sub w a b) b = a.
Proof.
  intros Hw Ha. unfold wrapping_add, wrapping_sub, wrap.
  rewrite Zplus_mod_idemp_l. replace (a - b + b) with a by lia. by apply Z.mod_small.
Qed.

(** Differences of wrapped sums do not depend on the common offset. *)
Lemma wrapping_sub_offset w a b o : 0 ≤ w →
  wrapping_sub w (wrapping_add w a o) (wrapping_add w b o) = wrapping_sub w a b.
Proof.
  intros Hw. unfold wrapping_add, wrapping_sub, wrap.
  rewrite Zminus_mod_idemp_l, Zminus_mod_idemp_r. f_equal. lia.
Qed.

(** ** Big-endian integers *)

(** [x.to_be_bytes()] of a [8 * n]-bit integer *)
Fixpoint to_be (n : nat) (x : Z) : list Z :=
  match n with
  | O => []
  | S n => to_be n (x / 256) ++ [x mod 256]
  end.

(** [from_be_bytes] *)
Definition of_be (l : list Z) : Z := fold_left (fun acc b => acc * 256 + b) l 0.

Lemma length_to_be n x : length (to_be n x) = n.
Proof. revert x; induction n as [|n IH]; intros; [done|]. cbn. rewrite length_app, IH. cbn. lia. Qed.

Lemma bytes_to_be n x : bytes (to_be n x).
Proof.
  revert x; induction n as [|n IH]; intros; cbn; [constructor|].
  apply Forall_app; split; [done|]. constructor; [|done]. apply Z.mod_pos_bound. lia.
Qed.

Lemma of_be_app l b : of_be (l ++ [b]) = of_be l * 256 + b.
Proof. unfold of_be. by rewrite fold_left_app. Qed.

Lemma pow_8_S (n : nat) : 2 ^ (8 * Z.of_nat (S n)) = 256 * 2 ^ (8 * Z.of_nat n).
Proof. rewrite Nat2Z.inj_succ, Z.mul_succ_r, Z.pow_add_r by lia. change (2 ^ 8) with 256. lia. Qed.

Lemma of_be_to_be (n : nat) x : in_range (8 * Z.of_nat n) x → of_be (to_be n x) = x.
Proof.
  revert x; induction n as [|n IH]; intros x Hx.
  - unfold in_range in Hx. cbn in *. lia.
  - cbn [to_be]. rewrite of_be_app, IH.
    + pose proof (Z.div_mod x 256). lia.
    + unfold in_range in *. rewrite pow_8_S in Hx. split; [apply Z.div_pos; lia|].
      apply Z.div_lt_upper_bound; lia.
Qed.

Lemma of_be_range l : bytes l → in_range (8 * Z.of_nat (length l)) (of_be l).
Proof.
  induction l as [|b l IH] using rev_ind; intros Hl; [by unfold in_range, of_be; cbn|].
  apply Forall_app in Hl as [Hl Hb]. apply Forall_inv in Hb.
  specialize (IH Hl). rewrite of_be_app, length_app. cbn [length]. rewrite Nat.add_1_r.
  unfold in_range in *. rewrite pow_8_S. generalize dependent (2 ^ (8 * Z.of_nat (length l))).
  change (2 ^ 8) with 256 in *. intros. lia.
Qed.

Lemma to_be_of_be l : bytes l → to_be (length l) (of_be l) = l.
Proof.
  induction l as [|b l IH] using rev_ind; intros Hl; [done|].
  apply Forall_app in Hl as [Hl Hb]. apply Forall_inv in Hb.
  unfold in_range in Hb. change (2 ^ 8) with 256 in Hb.
  rewrite length_app, Nat.add_1_r, of_be_app. cbn [to_be].
  replace ((of_be l * 256 + b) / 256) with (of_be l) by (apply Z.div_unique with b; lia).
  replace ((of_be l * 256 + b) mod 256) with b
    by (apply Z.mod_unique with (of_be l); lia).
  by rewrite IH.
Qed.

(** ** Slices *)

(** [l[i]] *)
Definition idx {E A} (l : list A) (i : nat) : outcome E A := expect (l !! i).

(** [&l[a..b]] as a list; [slice] panics where the source does. *)
Definition sub_list {A} (a b : nat) (l : list A) : list A := take (b - a) (drop a l).

Definition slice {E A} (a b : nat) (l : list A) : outcome E (list A) :=
  if decide (a ≤ b ∧ b ≤ length l)%nat then Ok (sub_list a b l) else Panic.

(** [l.get(a..b)] *)
Definition get_slice {A} (a b : nat) (l : list A) : option (list A) :=
  if decide (a ≤ b ∧ b ≤ length l)%nat then Some (sub_list a b l) else None.

(** [dst[at..at + src.len()].copy_from_slice(src)], the write itself *)
Definition splice {A} (at_ : nat) (src dst : list A) : list A :=
  take at_ dst ++ src ++ drop (at_ + length src) dst.

Definition copy_at {E A} (at_ : nat) (src dst : list A) : outcome E (list A) :=
  if decide (at_ + length src ≤ length dst)%nat then Ok (splice at_ src dst) else Panic.

(** [l[i] = x] *)
Definition set_at {E A} (i : nat) (x : A) (l : list A) : outcome E (list A) :=
  if decide (i < length l)%nat then Ok (<[i := x]> l) else Panic.

(** [a.div_ceil(4) * 4] *)
Definition round_up4 (n : nat) : nat := ((n + 3) / 4 * 4)%nat.

Section slices.
  Context {A : Type}.
  Implicit Types (l src dst : list A).

Lemma length_sub_list a b l : (b ≤ length l)%nat → length (sub_list a b l) = (b - a)%nat.
Proof. intros. unfold sub_list. rewrite length_take, length_drop. lia. Qed.

Lemma sub_list_full l : sub_list 0 (length l) l = l.
Proof. unfold sub_list. by rewrite Nat.sub_0_r, drop_0, firstn_all. Qed.

Lemma sub_list_0 n l : sub_list 0 n l = take n l.
Proof. unfold sub_list. by rewrite drop_0, Nat.sub_0_r. Qed.

Lemma lookup_sub_list a b l i :
    sub_list a b l !! i = if decide (i < b - a)%nat then l !! (a + i)%nat else None.
Proof.
  unfold sub_list. case_decide.
  - by rewrite lookup_take_lt, lookup_drop by done.
  - apply lookup_take_ge. lia.
Qed.

Lemma length_splice at_ src dst :
    (at_ + length src ≤ length dst)%nat → length (splice at_ src dst) = length dst.
Proof. intros. unfold splice. rewrite !length_app, length_take, length_drop. lia. Qed.

  (** Reading back what was just written. *)
Lemma sub_list_splice_eq at_ src dst :
    (at_ + length src ≤ length dst)%nat →
    sub_list at_ (at_ + length src) (splice at_ src dst) = src.
Proof.
  intros. unfold sub_list, splice. rewrite drop_app_length' by (rewrite length_take; lia).
  rewrite take_app_length'; [done|lia].
Qed.

Lemma lookup_splice at_ src dst i :
    (at_ + length src ≤ length dst)%nat →
    splice at_ src dst !! i =
      if decide (at_ ≤ i < at_ + length src)%nat then src !! (i - at_)%nat else dst !! i.
Proof.
  intros Hle. unfold splice. case_decide as Hi.
  - rewrite lookup_app_r by (rewrite length_take; lia).
    rewrite length_take, Nat.min_l by lia. rewrite lookup_app_l by lia. done.
  - destruct (decide (i < at_)%nat).
    + rewrite lookup_app_l by (rewrite length_take; lia). by rewrite lookup_take_lt.
    + rewrite lookup_app_r by (rewrite length_take; lia).
      rewrite length_take, Nat.min_l by lia. rewrite lookup_app_r by lia.
      rewrite lookup_drop. f_equal. lia.
Qed.

  (** A write leaves the bytes outside its range alone. *)
Lemma sub_list_splice_ne a b at_ src dst :
    (at_ + length src ≤ length dst)%nat → (b ≤ at_ ∨ at_ + length src ≤ a)%nat →
    sub_list a b (splice at_ src dst) = sub_list a b dst.
Proof.
  intros Hle Hd. apply list_eq. intros i. rewrite !lookup_sub_list.
  case_decide; [|done]. rewrite lookup_splice by done. case_decide; [lia|done].
Qed.

Lemma sub_list_app a b c l : (a ≤ b)%nat → (b ≤ c)%nat →
    sub_list a c l = sub_list a b l ++ sub_list b c l.
Proof.
  intros. unfold sub_list. rewrite <- (take_drop (b - a) (take (c - a) (drop a l))).
  rewrite take_take, Nat.min_l by lia. f_equal.
  rewrite skipn_firstn_comm, drop_drop. f_equal; [lia|]. f_equal. lia.
Qed.

Lemma sub_list_sub_list a b c d l : (d ≤ b - a)%nat →
    sub_list c d (sub_list a b l) = sub_list (a + c) (a + d) l.
Proof.
  intros. apply list_eq. intros i. rewrite !lookup_sub_list.
  repeat case_decide; try lia; try done. by rewrite Nat.add_assoc.
Qed.

Lemma sub_list_middle a b (x y z : list A) : length x = a → (a + length y = b)%nat →
    sub_list a b (x ++ y ++ z) = y.
Proof.
  intros Hx Hb. unfold sub_list. rewrite drop_app_length' by done.
  rewrite take_app_length'; [done|lia].
Qed.

Lemma slice_ok {E} a b l r :
    slice (E:=E) a b l = Ok r ↔ (a ≤ b ∧ b ≤ length l)%nat ∧ r = sub_list a b l.
Proof. unfold slice. case_decide; naive_solver. Qed.

Lemma idx_lt {E} l i : (i < length l)%nat → ∃ x, idx (E:=E) l i = Ok x ∧ l !! i = Some x.
Proof.
  intros Hi. destruct (lookup_lt_is_Some_2 l i Hi) as [x Hx].
  exists x. unfold idx. by rewrite Hx.
Qed.
End slices.

Lemma bytes_sub_list a b l : bytes l → bytes (sub_list a b l).
Proof. intros. unfold sub_list. by apply Forall_take, Forall_drop. Qed.

Lemma bytes_splice at_ src dst : bytes src → bytes dst → bytes (splice at_ src dst).
Proof. intros. unfold splice. apply Forall_app. split; [by apply Forall_take|]. apply Forall_app. split; [done|by apply Forall_drop]. Qed.

Lemma round_up4_spec n : (n ≤ round_up4 n < n + 4)%nat ∧ (round_up4 n mod 4 = 0)%nat.
Proof.
  unfold round_up4. split.
  - pose proof (Nat.div_mod_eq (n + 3) 4). pose proof (Nat.mod_upper_bound (n + 3) 4). lia.
  - by rewrite Nat.Div0.mod_mul.
Qed.

(** Reads a big-endian integer of [n] bytes at [at_], as
    [from_be_bytes([l[at], l[at + 1], ...])] does. *)
Definition read_be {E} (n at_ : nat) (l : list Z) : outcome E Z :=
  b ← slice at_ (at_ + n) l; Ok (of_be b).

Lemma read_be_ok {E} n at_ l :
  (at_ + n ≤ length l)%nat → read_be (E:=E) n at_ l = Ok (of_be (sub_list at_ (at_ + n) l)).
Proof. intros. unfold read_be, slice. by rewrite decide_True by lia. Qed.

Lemma read_be_at {E} n a (x y z : list Z) : length x = a → length y = n →
  read_be (E:=E) n a (x ++ y ++ z) = Ok (of_be y).
Proof.
  intros Hx Hy. rewrite read_be_ok by (rewrite !length_app; lia). by rewrite sub_list_middle by lia.
Qed.

(** Code that writes into a buffer; its failures are [None]. *)
Abbreviation writer := (st (list Z) ()).

(** [dst[at..at + src.len()].copy_from_slice(src)] *)
Definition copy {E} (at_ : nat) (src : list Z) : st (list Z) E () :=
  d ← get; d ← lift (copy_at at_ src d); put d.

(** Writing right behind a prefix. *)
Lemma copy_next {E} p x r : (length x ≤ length r)%nat →
  copy (E:=E) (length p) x (p ++ r) = Ok ((), (p ++ x) ++ drop (length x) r).
Proof.
  intros Hl. unfold copy. run_st. unfold copy_at. rewrite decide_True by (rewrite length_app; lia).
  do 2 f_equal. unfold splice. rewrite take_app_length, <- app_assoc. do 2 f_equal.
  rewrite <- drop_drop. by rewrite drop_app_length.
Qed.

Lemma copy_at_end {E} n p x r : length p = n → (length x ≤ length r)%nat →
  copy (E:=E) n x (p ++ r) = Ok ((), (p ++ x) ++ drop (length x) r).
Proof. intros <-. apply copy_next. Qed.

(** Facts about one byte, by enumeration. *)
Lemma byte_forall (P : Z → bool) :
  forallb P (seqZ 0 256) = true → ∀ b, is_u8 b → P b = true.
Proof.
  intros H b Hb. rewrite forallb_forall in H. apply H, list_elem_of_In, elem_of_seqZ.
  unfold in_range in Hb. change (2 ^ 8) with 256 in Hb. lia.
Qed.

Lemma byte_at l i b : bytes l → l !! i = Some b → is_u8 b.
Proof. intros Hl Hi. by eapply Forall_lookup_1. Qed.

(** ** Searching arrays *)

Lemma list_lookup_alter_Some {A} (f : A → A) (l : list A) i j y :
  alter f i l !! j = Some y ↔ (i = j ∧ ∃ x, l !! i = Some x ∧ y = f x) ∨ (i ≠ j ∧ l !! j = Some y).
Proof.
  rewrite list_lookup_alter. case_decide as Hij; [subst j|].
  - rewrite fmap_Some. naive_solver.
  - naive_solver.
Qed.

Section search.
  Context {A : Type}.
  Implicit Types (p : A → bool) (l : list A).

Lemma position_Some p l i :
    position p l = Some i ↔
    (∃ x, l !! i = Some x ∧ p x = true) ∧ (∀ j x, (j < i)%nat → l !! j = Some x → p x = false).
Proof.
  revert i; induction l as [|y l IH]; intros i; cbn.
  { split; [done|]. intros [(x & ? & _) _]. done. }
  destruct (p y) eqn:Hy.
  - split.
    + intros [= <-]. split; [by exists y|]. intros j x Hj. lia.
    + intros [_ Hall]. destruct i as [|i]; [done|].
      specialize (Hall 0%nat y ltac:(lia) eq_refl). congruence.
  - rewrite fmap_Some. split.
    + intros (k & Hk & ->). apply IH in Hk as [(x & Hx & Hp) Hall].
      split; [by exists x|]. intros [|j] z Hj Hz; [by simplify_eq/=|].
      apply (Hall j z); [lia|done].
    + intros [(x & Hx & Hp) Hall]. destruct i as [|i]; [simplify_eq/=; congruence|].
      exists i. split; [|done]. apply IH. split; [by exists x|].
      intros j z Hj Hz. apply (Hall (S j) z); [lia|done].
Qed.

Lemma position_None p l : position p l = None ↔ (∀ i x, l !! i = Some x → p x = false).
Proof.
  induction l as [|y l IH]; cbn.
  { split; [|done]. intros _ i x Hi. done. }
  destruct (p y) eqn:Hy.
  - split; [done|]. intros H. specialize (H 0%nat y eq_refl). congruence.
  - rewrite fmap_None, IH. split.
    + intros H [|i] x Hx; [by simplify_eq/=|by apply (H i)].
    + intros H i x Hx. by apply (H (S i)).
Qed.

  (** An update that the test does not see keeps the position. *)
Lemma position_insert p l i x y : l !! i = Some x → p y = p x → position p (<[i := y]> l) = position p l.
Proof.
  revert i; induction l as [|z l IH]; intros [|i] H Hp; try done; cbn in *.
  - simplify_eq. by rewrite Hp.
  - by rewrite IH.
Qed.

Lemma count_app p l1 l2 : count p (l1 ++ l2) = (count p l1 + count p l2)%nat.
Proof. unfold count. by rewrite filter_app, length_app. Qed.

Lemma count_cons p x l : count p (x :: l) = ((if p x then 1 else 0) + count p l)%nat.
Proof. unfold count. rewrite filter_cons. by destruct (p x). Qed.

  (** An update changes the count by the difference at that position. *)
Lemma count_insert p l i x y : l !! i = Some x →
    (count p (<[i := y]> l) + (if p x then 1 else 0) =
     count p l + (if p y then 1 else 0))%nat.
Proof.
  revert i; induction l as [|z l IH]; intros [|i] H; try done.
  - cbn in *. simplify_eq. rewrite !count_cons. destruct (p x), (p y); lia.
  - cbn in H. change (<[S i := y]> (z :: l)) with (z :: <[i := y]> l).
    rewrite !count_cons. specialize (IH _ H). lia.
Qed.

Lemma count_zero p l : (∀ i x, l !! i = Some x → p x = false) → count p l = 0%nat.
Proof.
  induction l as [|y l IH]; intros H; [done|]. rewrite count_cons, (H 0%nat y eq_refl), IH; [done|].
  intros i x Hx. by apply (H (S i)).
Qed.

Lemma count_all p l : (∀ x, x ∈ l → p x = true) → count p l = length l.
Proof.
  induction l as [|x l IH]; intros Hp; [done|]. rewrite count_cons, Hp, IH by set_solver. done.
Qed.

Lemma count_le p l : (count p l ≤ length l)%nat.
Proof. apply length_filter. Qed.
End search.

(** ** Absence of panics, structurally *)

Section no_panic.
  Context {E A : Type}.

Lemma no_panic_ok (a : A) : no_panic (E:=E) (Ok a).
Proof. done. Qed.
Lemma no_panic_err (e : E) : no_panic (A:=A) (Err e).
Proof. done. Qed.
Lemma no_panic_fail_if b (e : E) : no_panic (fail_if b e).
Proof. by destruct b. Qed.
Lemma no_panic_of_option (e : E) (o : option A) : no_panic (of_option e o).
Proof. by destruct o. Qed.
Lemma no_panic_idx (l : list A) i : (i < length l)%nat → no_panic (idx (E:=E) l i).
Proof. intros Hi. destruct (idx_lt (E:=E) l i Hi) as (x & -> & _). done. Qed.
Lemma no_panic_slice (l : list A) a b : (a ≤ b)%nat → (b ≤ length l)%nat →
    no_panic (slice (E:=E) a b l).
Proof. intros. unfold slice. by rewrite decide_True. Qed.
Lemma no_panic_copy_at at_ (src dst : list A) : (at_ + length src ≤ length dst)%nat →
    no_panic (copy_at (E:=E) at_ src dst).
Proof. intros. unfold copy_at. by rewrite decide_True. Qed.
Lemma no_panic_set_at i (x : A) l : (i < length l)%nat → no_panic (set_at (E:=E) i x l).
Proof. intros. unfold set_at. by rewrite decide_True. Qed.
Lemma fail_if_ok b (e : E) u : fail_if b e = Ok u → b = false.
Proof. by destruct b. Qed.
Lemma copy_at_ok at_ (src dst r : list A) :
    copy_at (E:=E) at_ src dst = Ok r → (at_ + length src ≤ length dst)%nat ∧ r = splice at_ src dst.
Proof. unfold copy_at. case_decide; naive_solver. Qed.
Lemma set_at_ok i (x : A) l r :
    set_at (E:=E) i x l = Ok r → (i < length l)%nat ∧ r = <[i := x]> l.
Proof. unfold set_at. case_decide; naive_solver. Qed.
Lemma idx_ok (l : list A) i x : idx (E:=E) l i = Ok x ↔ l !! i = Some x.
Proof. unfold idx. apply expect_ok. Qed.
End no_panic.

Lemma map_err_idx {E F A} (g : E → F) (l : list A) i : map_err g (idx l i) = idx l i.
Proof. apply map_err_expect. Qed.

Lemma map_err_read_be {E F} (g : E → F) n a l : map_err g (read_be n a l) = read_be n a l.
Proof. unfold read_be, slice. by case_decide. Qed.

Lemma no_panic_read_be {E} n at_ l : (at_ + n ≤ length l)%nat → no_panic (read_be (E:=E) n at_ l).
Proof. intros. by rewrite read_be_ok. Qed.

(** Turns the boolean facts left by the code's tests into propositions. *)
Ltac simplify_tests :=
  repeat match goal with
  | H : negb ?b = false |- _ => apply negb_false_iff in H
  | H : negb ?b = true |- _ => apply negb_true_iff in H
  | H : ?a || ?b = false |- _ => apply orb_false_iff in H as [? ?]
  | H : ?a && ?b = true |- _ => apply andb_true_iff in H as [? ?]
  | H : bool_decide _ = false |- _ => apply bool_decide_eq_false in H
  | H : bool_decide _ = true |- _ => apply bool_decide_eq_true in H
  | H : (_ =? _) = true |- _ => apply Z.eqb_eq in H
  | H : (_ =? _) = false |- _ => apply Z.eqb_neq in H
  | H : (_ <? _) = true |- _ => apply Z.ltb_lt in H
  | H : (_ <? _) = false |- _ => apply Z.ltb_ge in H
  | H : (_ <=? _) = true |- _ => apply Z.leb_le in H
  | H : (_ <=? _) = false |- _ => apply Z.leb_gt in H
  | H : fail_if _ _ = Ok _ |- _ => apply fail_if_ok in H
  | H : assert_ _ = Ok _ |- _ => apply assert_ok in H
  | H : copy_at _ _ _ = Ok _ |- _ => apply copy_at_ok in H as [? H]
  | H : set_at _ _ _ = Ok _ |- _ => apply set_at_ok in H as [? H]
  | H : slice _ _ _ = Ok _ |- _ => apply slice_ok in H as [? H]
  | H : idx _ _ = Ok _ |- _ => apply idx_ok in H
  end.

Ltac np_step :=
  match goal with
  | |- no_panic (mbind _ _) =>
      apply no_panic_bind; [|let a := fresh "a" in let H := fresh "Hok" in
                             intros a H; simplify_tests; try subst a]
  | |- no_panic (Ok _) => apply no_panic_ok
  | |- no_panic (Err _) => apply no_panic_err
  | |- no_panic (fail_if _ _) => apply no_panic_fail_if
  | |- no_panic (of_option _ _) => apply no_panic_of_option
  | |- no_panic (idx _ _) => apply no_panic_idx
  | |- no_panic (slice _ _ _) => apply no_panic_slice
  | |- no_panic (read_be _ _ _) => apply no_panic_read_be
  | |- no_panic (copy_at _ _ _) => apply no_panic_copy_at
  | |- no_panic (set_at _ _ _) => apply no_panic_set_at
  | |- no_panic (if ?b then _ else _) => let H := fresh "Hb" in destruct b eqn:H; simplify_tests
  | |- no_panic (match ?p with (_, _) => _ end) => destruct p
  | |- no_panic (let _ := _ in _) => cbv zeta
  end.

Create HintDb nexus discriminated.
Create Rewrite HintDb nexus_len.
#[export] Hint Resolve bytes_to_be bytes_sub_list bytes_splice of_be_range : nexus.
#[export] Hint Rewrite @length_sub_list @length_splice @length_to_be @length_insert
  @length_app @length_take @length_drop using lia : nexus_len.

Ltac simplify_len := autorewrite with nexus_len; cbn [length].

(** Closes [no_panic] goals of straight-line parsing code. *)
Ltac np := repeat np_step; try (simplify_len; lia).
