(* ===== verification/Wp.v ===== *)
(** * Weakest preconditions of state-passing code

    [run_to bad m s Q X]: run from [s], a result [a] of the code and the state
    after it satisfy [Q], an error and the state it leaves satisfy [X], and it
    panics only if [bad] holds: [wp] excludes panics, [wlp] allows them.
    The rules follow the combinators of [st]; the tactic [wp] walks through
    them and stops at the calls a component has a lemma for. *)

From S2P Require Import Prelude.

Definition run_to (bad : Prop) {S E A} (m : st S E A) (s : S) (Q : A → S → Prop) (X : E → S → Prop) : Prop :=
  match m s with
  | Ok (a, s') => Q a s'
  | Err (e, s') => X e s'
  | Panic => bad
  end.

Abbreviation wp := (run_to False).
Abbreviation wlp := (run_to True).

Section rules.
Context {S E : Type} {bad : Prop}.
Implicit Types (s : S).

Lemma wp_bind {A B} (m : st S E A) (f : A → st S E B) s Q X :
  run_to bad m s (fun a s' => run_to bad (f a) s' Q X) X → run_to bad (m ≫= f) s Q X.
Proof. unfold run_to, mbind, st_bind. by destruct (m s) as [[]|[]|]. Qed.

Lemma wp_conseq {A} (m : st S E A) s (Q Q' : A → S → Prop) (X X' : E → S → Prop) :
  run_to bad m s Q X → (∀ a s', Q a s' → Q' a s') → (∀ e s', X e s' → X' e s') → run_to bad m s Q' X'.
Proof. unfold run_to. destruct (m s) as [[]|[]|]; auto. Qed.

Lemma wp_mono {A} (m : st S E A) s (Q Q' : A → S → Prop) X :
  run_to bad m s Q X → (∀ a s', Q a s' → Q' a s') → run_to bad m s Q' X.
Proof. intros. by eapply wp_conseq. Qed.

Lemma wp_ret {A} (a : A) s (Q : A → S → Prop) X : Q a s → run_to bad (mret a : st S E A) s Q X.
Proof. done. Qed.

Lemma wp_get s Q X : Q s s → run_to bad (get : st S E S) s Q X.
Proof. done. Qed.

Lemma wp_put s s' (Q : () → S → Prop) X : Q () s' → run_to bad (put s' : st S E ()) s Q X.
Proof. done. Qed.

Lemma wp_modify f s (Q : () → S → Prop) X : Q () (f s) → run_to bad (modify f : st S E ()) s Q X.
Proof. done. Qed.

Lemma wp_throw {A} e s (Q : A → S → Prop) X : X e s → run_to bad (throw e : st S E A) s Q X.
Proof. done. Qed.

Lemma wp_lift {A} (o : outcome E A) s (Q : A → S → Prop) X :
  match o with Ok a => Q a s | Err e => X e s | Panic => False end → run_to bad (lift o) s Q X.
Proof. unfold run_to, lift. by destruct o. Qed.

Lemma wp_lift_ok {A} (o : outcome E A) a s (Q : A → S → Prop) X : o = Ok a → Q a s → run_to bad (lift o) s Q X.
Proof. by intros ->. Qed.

Lemma wp_assert b s (Q : () → S → Prop) X : b = true → Q () s → run_to bad (lift (assert_ b) : st S E ()) s Q X.
Proof. by intros ->. Qed.

Lemma wp_expect {A} (o : option A) a s (Q : A → S → Prop) X :
  o = Some a → Q a s → run_to bad (lift (expect o) : st S E A) s Q X.
Proof. by intros ->. Qed.

Lemma wp_of_option {A} e (o : option A) s (Q : A → S → Prop) X :
  match o with Some a => Q a s | None => X e s end → run_to bad (lift (of_option e o) : st S E A) s Q X.
Proof. by destruct o. Qed.

Lemma wp_zoom {T A} (f : S → T) (g : T → S → S) (m : st T E A) s Q X :
  run_to bad m (f s) (fun a t => Q a (g t s)) (fun e t => X e (g t s)) → run_to bad (zoom f g m) s Q X.
Proof. unfold run_to, zoom. by destruct (m (f s)) as [[]|[]|]. Qed.

(** Code that cannot panic, where a panic would be allowed. *)
Lemma wp_any {A} (m : st S E A) s Q X : run_to False m s Q X → run_to bad m s Q X.
Proof. unfold run_to. by destruct (m s) as [[]|[]|]. Qed.

Lemma wp_try {F A} (m : st S F A) s Q (X : E → S → Prop) :
  run_to bad m s (fun a => Q (Some a)) (fun _ => Q None) → run_to bad (try_ m) s Q X.
Proof. unfold run_to, try_. by destruct (m s) as [[]|[]|]. Qed.

Lemma wp_quiet {F A} (m : st S F A) s Q (X : () → S → Prop) :
  run_to bad m s Q (fun _ => X ()) → run_to bad (quiet m) s Q X.
Proof. unfold run_to, quiet. by destruct (m s) as [[]|[]|]. Qed.

(** A run that is known. *)
Lemma wp_ok {A} (m : st S E A) s a s' Q X : m s = Ok (a, s') → Q a s' → run_to bad m s Q X.
Proof. unfold run_to. by intros ->. Qed.

Lemma wp_err {A} (m : st S E A) s e s' (Q : A → S → Prop) X : m s = Err (e, s') → X e s' → run_to bad m s Q X.
Proof. unfold run_to. by intros ->. Qed.


End rules.

Lemma wp_run {S E A} (m : st S E A) s Q X : wp m s Q X → (∀ e s', X e s' → False) →
  ∃ a s', m s = Ok (a, s') ∧ Q a s'.
Proof. unfold run_to. destruct (m s) as [[]|[]|]; naive_solver. Qed.

(** Code that does not panic does what it does when it does not panic. *)
Lemma wp_of_wlp {S E A} (m : st S E A) s Q X : m s ≠ Panic → wlp m s Q X → wp m s Q X.
Proof. unfold run_to. by destruct (m s) as [[]|[]|]. Qed.

Lemma wlp_and {S E A} bad (m : st S E A) s (Q Q' : A → S → Prop) (X X' : E → S → Prop) :
  run_to bad m s Q X → wlp m s Q' X' →
  run_to bad m s (fun a s' => Q a s' ∧ Q' a s') (fun e s' => X e s' ∧ X' e s').
Proof. unfold run_to. by destruct (m s) as [[]|[]|]. Qed.

Lemma wlp_lift {S E A} (o : outcome E A) (s : S) (Q : A → S → Prop) X :
  (∀ a, o = Ok a → Q a s) → (∀ e, o = Err e → X e s) → wlp (lift o) s Q X.
Proof. unfold run_to, lift. destruct o; auto. Qed.

Lemma wlp_assert {S E} b (s : S) (Q : () → S → Prop) (X : E → S → Prop) :
  (b = true → Q () s) → wlp (lift (assert_ b)) s Q X.
Proof. unfold run_to. destruct b; cbn; auto. Qed.

(** Walks through the combinators. *)
Ltac wp_step :=
  lazymatch goal with
  | |- run_to _ (mbind _ _) _ _ _ => apply wp_bind
  | |- run_to _ (mret _) _ _ _ => apply wp_ret
  | |- run_to _ get _ _ _ => apply wp_get
  | |- run_to _ (put _) _ _ _ => apply wp_put
  | |- run_to _ (modify _) _ _ _ => apply wp_modify
  | |- run_to _ (throw _) _ _ _ => apply wp_throw
  | |- run_to _ (lift (of_option _ _)) _ _ _ => apply wp_of_option
  | |- run_to _ (let _ := _ in _) _ _ _ => cbv zeta
  end; cbv beta.
Ltac wp := repeat wp_step.
