(* ===== verification/Replay.v ===== *)
(** * Replay protection

    [crates/nexus-transport/src/srtp/replay.rs], the 64-packet sliding window.

    The window is related to the set of indices accepted so far ([Rep]): a
    check succeeds exactly for indices that are newer than every accepted
    one, or inside the window and not yet accepted. *)

From Stdlib Require Import Sorted.
From S2P Require Import Prelude.

Inductive SrtpError :=
| PacketTooShort | PacketTooLarge | InvalidRtpHeader | InvalidRtcpHeader
| AuthenticationFailed | EncryptionFailed | DecryptionFailed | ReplayDetected
| KeyDerivationFailed | InvalidKeyMaterial | NotInitialized | BufferTooSmall
| InvalidSsrc | RocOverflow | SrtcpIndexOverflow | UnsupportedCipherSuite
| InvalidProfile | SessionLimitReached | DuplicateSession | InvalidBufferLength
| NonceGenerationFailed.

#[export] Instance SrtpError_eq_dec : EqDecision SrtpError.
Proof. solve_decision. Defined.

Definition REPLAY_WINDOW_SIZE : Z := 64.

Module Replay.

Record ReplayProtection := mkReplay {
  highest : Z;
  window : Z;
  window_size : Z;
  enabled : bool;
  packets_checked : Z;
  replays_detected : Z;
}.

Definition new : ReplayProtection := mkReplay 0 0 REPLAY_WINDOW_SIZE true 0 0.

Definition with_window_size (size : Z) : ReplayProtection :=
  let size := if size >? 64 then 64 else size in
  mkReplay 0 0 size true 0 0.

Definition disabled : ReplayProtection := mkReplay 0 0 REPLAY_WINDOW_SIZE false 0 0.

Definition set_window (h w : Z) (r : ReplayProtection) : ReplayProtection :=
  mkReplay h w (window_size r) (enabled r) (packets_checked r) (replays_detected r).

Definition count_check (r : ReplayProtection) : ReplayProtection :=
  mkReplay (highest r) (window r) (window_size r) (enabled r)
    (wrapping_add 64 (packets_checked r) 1) (replays_detected r).

Definition count_replay (r : ReplayProtection) : ReplayProtection :=
  mkReplay (highest r) (window r) (window_size r) (enabled r)
    (packets_checked r) (wrapping_add 64 (replays_detected r) 1).

Definition is_first_packet (r : ReplayProtection) : bool :=
  (highest r =? 0) && (window r =? 0).

Definition check_window_bit (delta : Z) : st ReplayProtection SrtpError () :=
  lift (assert_ (delta <? 64));;
  r ← get;
  let bit := Z.shiftl 1 delta in
  if negb (Z.land (window r) bit =? 0)
  then modify count_replay;; throw ReplayDetected
  else mret ().

Definition validate_index (index : Z) : st ReplayProtection SrtpError () :=
  r ← get;
  if index >? highest r then mret ()
  else
    let delta := highest r - index in
    if delta >=? window_size r then modify count_replay;; throw ReplayDetected
    else check_window_bit delta.

Definition check (index : Z) : st ReplayProtection SrtpError () :=
  modify count_check;;
  r ← get;
  if negb (enabled r) then mret ()
  else if is_first_packet r then mret ()
  else validate_index index.

Definition accept_first_packet (index : Z) (r : ReplayProtection) : outcome () ReplayProtection :=
  assert_ ((highest r =? 0) && (window r =? 0));;
  Ok (set_window index 1 r).

Definition accept_newer_packet (index : Z) (r : ReplayProtection) : outcome () ReplayProtection :=
  assert_ (index >? highest r);;
  let shift := index - highest r in
  let w := if shift >=? 64 then 1
           else Z.lor (wrap 64 (Z.shiftl (window r) shift)) 1 in
  Ok (set_window index w r).

Definition accept_older_packet (index : Z) (r : ReplayProtection) : outcome () ReplayProtection :=
  assert_ (index <=? highest r);;
  let delta := highest r - index in
  Ok (if delta <? 64
      then set_window (highest r) (Z.lor (window r) (Z.shiftl 1 delta)) r
      else r).

Definition accept (index : Z) (r : ReplayProtection) : outcome () ReplayProtection :=
  if negb (enabled r) then Ok r
  else if is_first_packet r then accept_first_packet index r
  else if index >? highest r then accept_newer_packet index r
  else accept_older_packet index r.

Definition check_and_accept (index : Z) : st ReplayProtection SrtpError () :=
  check index;;
  r ← get;
  match accept index r with
  | Ok r' => put r'
  | _ => fun _ => Panic
  end.

Definition reset (r : ReplayProtection) : ReplayProtection :=
  mkReplay 0 0 (window_size r) (enabled r) 0 0.

(** Runs the combined check over a stream of indices; the accepted ones, in
    order. *)
Fixpoint run (l : list Z) (r : ReplayProtection) : outcome () (list Z * ReplayProtection) :=
  match l with
  | [] => Ok ([], r)
  | i :: l =>
    match check_and_accept i r with
    | Ok (_, r') => '(acc, r'') ← run l r'; Ok (i :: acc, r'')
    | Err (_, r') => run l r'
    | Panic => Panic
    end
  end.

(** ** The window represents a set of accepted indices *)

Record Rep (r : ReplayProtection) (hist : list Z) : Prop := {
  rep_enabled : enabled r = true;
  rep_size : 0 < window_size r ≤ 64;
  rep_nonneg : Forall (Z.le 0) hist;
  rep_first : hist = [] → highest r = 0 ∧ window r = 0;
  rep_highest : hist ≠ [] → highest r ∈ hist;
  rep_max : ∀ i, i ∈ hist → i ≤ highest r;
  rep_bits : hist ≠ [] → ∀ d, 0 ≤ d < 64 →
    Z.testbit (window r) d = true ↔ highest r - d ∈ hist;
  rep_range : in_range 64 (window r);
}.

(** What a check should decide, on the set of accepted indices. *)
Definition fresh (size : Z) (hist : list Z) (h index : Z) : Prop :=
  hist = [] ∨ h < index ∨ (h - index < size ∧ index ∉ hist).

Lemma Rep_new : Rep new [].
Proof.
  split; cbn; try done; try lia; set_solver.
Qed.

Lemma Rep_count_check r hist : Rep r hist → Rep (count_check r) hist.
Proof. by intros []. Qed.

Lemma Rep_count_replay r hist : Rep r hist → Rep (count_replay r) hist.
Proof. by intros []. Qed.

Lemma Rep_is_first r hist : Rep r hist → is_first_packet r = bool_decide (hist = []).
Proof.
  intros H. unfold is_first_packet. case_bool_decide as Hh.
  - destruct (rep_first _ _ H Hh) as [-> ->]. done.
  - destruct (Z.eqb_spec (window r) 0) as [Hw|]; [|by rewrite andb_false_r].
    pose proof (proj2 (rep_bits _ _ H Hh 0 ltac:(lia))) as Hb.
    rewrite Z.sub_0_r, Hw, Z.testbit_0_l in Hb. by specialize (Hb (rep_highest _ _ H Hh)).
Qed.

Lemma land_bit w d : 0 ≤ d → (Z.land w (Z.shiftl 1 d) =? 0) = negb (Z.testbit w d).
Proof.
  intros Hd. rewrite Z.shiftl_1_l. destruct (Z.testbit w d) eqn:Hb; cbn.
  - apply Z.eqb_neq. intros H0. apply (f_equal (fun x => Z.testbit x d)) in H0.
    rewrite Z.land_spec, Hb, Z.pow2_bits_true, Z.bits_0 in H0 by done. done.
  - apply Z.eqb_eq, Z.bits_inj'. intros n Hn. rewrite Z.land_spec, Z.bits_0.
    destruct (decide (n = d)) as [->|]; [by rewrite Hb|].
    by rewrite Z.pow2_bits_false, andb_false_r by lia.
Qed.

Lemma check_spec r hist index : Rep r hist →
  ∃ r', Rep r' hist ∧ highest r' = highest r ∧
    ((fresh (window_size r) hist (highest r) index ∧ check index r = Ok ((), r')) ∨
     (¬ fresh (window_size r) hist (highest r) index ∧
      check index r = Err (ReplayDetected, r'))).
Proof.
  intros H. apply Rep_count_check in H. set (rc := count_check r) in *.
  change (highest r) with (highest rc). change (window_size r) with (window_size rc).
  assert (Hc : check index r = (if is_first_packet rc then mret () else validate_index index) rc).
  { unfold check. run_st. fold rc.
    by rewrite (rep_enabled _ _ H). }
  rewrite Hc, (Rep_is_first _ _ H). unfold fresh. clear Hc.
  case_bool_decide as Hh; [exists rc; naive_solver|].
  unfold validate_index, check_window_bit. run_st.
  destruct (Z.gtb_spec index (highest rc)); [exists rc; naive_solver|].
  rewrite Z.geb_leb. destruct (Z.leb_spec (window_size rc) (highest rc - index)).
  { exists (count_replay rc). split; [by apply Rep_count_replay|]. split; [done|].
    right. split; [|done]. naive_solver lia. }
  pose proof (rep_size _ _ H) as Hs.
  destruct (Z.ltb_spec (highest rc - index) 64); [|lia].
  rewrite land_bit, negb_involutive by lia.
  pose proof (rep_bits _ _ H Hh (highest rc - index) ltac:(lia)) as Hb.
  replace (highest rc - (highest rc - index)) with index in Hb by lia.
  destruct (Z.testbit _ _).
  - exists (count_replay rc). split; [by apply Rep_count_replay|]. split; [done|].
    right. split; [|done]. naive_solver lia.
  - exists rc. split; [done|]. split; [done|]. left. split; [|done]. right; right.
    split; [lia|]. intros Hin. naive_solver.
Qed.

Lemma testbit_wrap w n x d : 0 ≤ w → 0 ≤ n → 0 ≤ d →
  Z.testbit (wrap w (Z.shiftl x n)) d = (d <? w) && (n <=? d) && Z.testbit x (d - n).
Proof.
  intros. unfold wrap. destruct (Z.ltb_spec d w).
  - rewrite Z.mod_pow2_bits_low, Z.shiftl_spec by lia. destruct (Z.leb_spec n d); [done|].
    by rewrite Z.testbit_neg_r by lia.
  - by rewrite Z.mod_pow2_bits_high by lia.
Qed.

Lemma Rep_newer r hist index : Rep r hist → hist ≠ [] → highest r < index →
  Rep (set_window index
        (if index - highest r >=? 64 then 1
         else Z.lor (wrap 64 (Z.shiftl (window r) (index - highest r))) 1) r)
    (index :: hist).
Proof.
  intros H Hh Hlt. pose proof (rep_highest _ _ H Hh) as Hin. pose proof (rep_max _ _ H) as Hmax.
  pose proof (proj1 (Forall_forall _ _) (rep_nonneg _ _ H) _ Hin) as Hpos. cbn in Hpos.
  split; cbn; try done; try apply H.
  - constructor; [lia|apply H].
  - intros _. set_solver.
  - intros i [->|Hi]%elem_of_cons; [lia|]. apply Hmax in Hi. lia.
  - intros _ d Hd. rewrite elem_of_cons, Z.geb_leb.
    assert (H1 : Z.testbit 1 d = bool_decide (d = 0)).
    { case_bool_decide; [by subst|]. apply Z.bits_above_log2; cbn; lia. }
    destruct (Z.leb_spec 64 (index - highest r)).
    + rewrite H1, bool_decide_eq_true. split; [lia|]. intros [|Hi]; [lia|]. apply Hmax in Hi. lia.
    + rewrite Z.lor_spec, H1, testbit_wrap by lia.
      rewrite (proj2 (Z.ltb_lt d 64)) by lia. cbn [andb].
      rewrite orb_true_iff, andb_true_iff, bool_decide_eq_true, Z.leb_le. split.
      * intros [[Hle Hb]|]; [|lia]. right. apply (rep_bits _ _ H Hh) in Hb; [|lia].
        by replace (index - d) with (highest r - (d - (index - highest r))) by lia.
      * intros [|Hi]; [lia|]. left. pose proof (Hmax _ Hi). split; [lia|].
        apply (rep_bits _ _ H Hh); [lia|].
        by replace (highest r - (d - (index - highest r))) with (index - d) by lia.
  - destruct (_ >=? _); [done|]. apply range_lor; [done|by apply wrap_range|done].
Qed.

Lemma Rep_older r hist index : Rep r hist → hist ≠ [] → 0 ≤ index → index ≤ highest r →
  Rep (if highest r - index <? 64
       then set_window (highest r) (Z.lor (window r) (Z.shiftl 1 (highest r - index))) r
       else r) (index :: hist).
Proof.
  intros H Hh Hpos Hle. pose proof (rep_highest _ _ H Hh) as Hin. pose proof (rep_max _ _ H) as Hmax.
  destruct (Z.ltb_spec (highest r - index) 64); split; cbn; try done; try apply H.
  all: try (constructor; [lia|apply H]).
  all: try (intros _; set_solver).
  all: try (intros i [->|Hi]%elem_of_cons; [lia|]; apply Hmax in Hi; lia).
  - intros _ d Hd. rewrite Z.lor_spec, orb_true_iff, elem_of_cons, (rep_bits _ _ H Hh) by lia.
    rewrite Z.shiftl_1_l, Z.pow2_bits_eqb, Z.eqb_eq by lia. intuition lia.
  - apply range_lor; [done|apply H|]. rewrite Z.shiftl_1_l. unfold in_range. split; [lia|].
    apply Z.pow_lt_mono_r; lia.
  - intros _ d Hd. rewrite (rep_bits _ _ H Hh), elem_of_cons by lia. intuition lia.
Qed.

(** Accepting [index] turns the representation of [hist] into that of
    [index :: hist]. *)
Lemma accept_spec r hist index : Rep r hist → 0 ≤ index →
  ∃ r', accept index r = Ok r' ∧ Rep r' (index :: hist) ∧ window_size r' = window_size r.
Proof.
  intros H Hi. unfold accept. rewrite (rep_enabled _ _ H). cbn [negb].
  rewrite (Rep_is_first _ _ H). case_bool_decide as Hh.
  - subst hist. destruct (rep_first _ _ H eq_refl) as [H1 H2].
    unfold accept_first_packet. rewrite H1, H2. eexists; split; [done|]. split; [|done].
    split; cbn; try done; try apply H.
    + constructor; [done|constructor].
    + set_solver.
    + intros i Hin. apply list_elem_of_singleton in Hin. lia.
    + intros _ d Hd. rewrite list_elem_of_singleton.
      destruct (decide (d = 0)) as [->|]; [cbn; lia|].
      rewrite (Z.bits_above_log2 1) by (cbn; lia). split; [done|lia].
  - pose proof (rep_highest _ _ H Hh) as Hin. pose proof (rep_max _ _ H) as Hmax.
    destruct (Z.gtb_spec index (highest r)) as [Hgt|Hle].
    + unfold accept_newer_packet. rewrite (proj2 (Z.gtb_gt _ _)) by lia. cbn [assert_].
      eexists; split; [done|]. split; [|done]. apply Rep_newer; auto.
    + unfold accept_older_packet. rewrite (proj2 (Z.leb_le _ _)) by lia. cbn [assert_].
      eexists; split; [done|]. split; [by apply Rep_older|].
      by destruct (_ <? _).
Qed.

(** Equal but for the statistics. *)
Definition same_window (r r' : ReplayProtection) : Prop :=
  highest r' = highest r ∧ window r' = window r ∧ window_size r' = window_size r ∧
  enabled r' = enabled r.

Lemma Rep_same_window r r' hist : Rep r hist → same_window r r' → Rep r' hist.
Proof.
  intros [? ? ? ? ? ? ? ?] (Hh & Hw & Hs & He). split; rewrite ?Hh, ?Hw, ?Hs, ?He; done.
Qed.

(** A check only counts. *)
Lemma check_same_window r index : same_window r (state_of r (check index r)).
Proof.
  unfold check, validate_index, check_window_bit. run_st.
  repeat (case_match; simplify_eq/=; try done).
Qed.

Lemma fresh_not_seen r hist index :
  Rep r hist → fresh (window_size r) hist (highest r) index → index ∉ hist.
Proof.
  intros H [->|[Hlt|[_ ?]]] Hin; [set_solver| |done].
  apply (rep_max _ _ H) in Hin. lia.
Qed.

(** Both hold of every set of indices the window represents. *)
Lemma check_not_seen r r' hist index :
  Rep r hist → check index r = Ok ((), r') → index ∉ hist.
Proof.
  intros H Hc. destruct (check_spec r hist index H) as (? & _ & _ & [[Hf _]|[_ Hc']]).
  - by eapply fresh_not_seen.
  - congruence.
Qed.

Lemma accept_Rep r r' hist index :
  0 ≤ index → accept index r = Ok r' → Rep r hist → Rep r' (index :: hist).
Proof.
  intros Hi Ha H. destruct (accept_spec r hist index H Hi) as (r2 & Ha' & H2 & _). congruence.
Qed.

Lemma check_and_accept_spec r hist index : Rep r hist → 0 ≤ index →
  (index ∉ hist ∧ (∃ r', check_and_accept index r = Ok ((), r') ∧ Rep r' (index :: hist))) ∨
  (¬ fresh (window_size r) hist (highest r) index ∧
   (∃ r', check_and_accept index r = Err (ReplayDetected, r') ∧ Rep r' hist)).
Proof.
  intros H Hi. destruct (check_spec r hist index H) as (r1 & H1 & Hh & [[Hf Hc]|[Hf Hc]]);
    unfold check_and_accept, mbind, st_bind; rewrite Hc.
  - left. split; [exact (fresh_not_seen r hist index H Hf)|].
    destruct (accept_spec r1 hist index H1 Hi) as (r2 & Ha & H2 & _).
    unfold get. rewrite Ha. by exists r2.
  - right. eauto.
Qed.

Lemma run_spec l : ∀ r hist, Rep r hist → Forall (Z.le 0) l →
  ∃ acc r', run l r = Ok (acc, r') ∧ Rep r' (reverse acc ++ hist) ∧
    NoDup acc ∧ (∀ i, i ∈ acc → i ∉ hist) ∧ acc `sublist_of` l.
Proof.
  induction l as [|i l IH]; intros r hist H Hl.
  { exists [], r. split; [done|]. split; [done|]. split; [constructor|].
    split; [set_solver|constructor]. }
  apply Forall_cons in Hl as [Hi Hl]. cbn [run].
  destruct (check_and_accept_spec r hist i H Hi)
    as [[Hn (r1 & -> & H1)]|[_ (r1 & -> & H1)]].
  - destruct (IH r1 (i :: hist) H1 Hl) as (acc & r2 & -> & H2 & Hnd & Hout & Hsub).
    exists (i :: acc), r2. split; [done|]. split.
    { rewrite reverse_cons, <- app_assoc. done. }
    split; [constructor; [|done]; intros Hi'; apply (Hout _ Hi'); set_solver|].
    split; [|by constructor]. intros j [->|Hj]%elem_of_cons; [done|].
    intros Hj'. apply (Hout _ Hj). set_solver.
  - destruct (IH r1 hist H1 Hl) as (acc & r2 & -> & H2 & Hnd & Hout & Hsub).
    exists acc, r2. split_and!; try done. by constructor.
Qed.

Lemma run_increasing l : ∀ r hist, Rep r hist → Forall (Z.le 0) l → StronglySorted Z.lt l →
  (hist ≠ [] → Forall (Z.lt (highest r)) l) → ∃ r', run l r = Ok (l, r').
Proof.
  induction l as [|i l IH]; intros r hist H Hl Hs Hh; [by exists r|].
  apply Forall_cons in Hl as [Hi Hl]. apply StronglySorted_inv in Hs as [Hs Hlt].
  cbn [run]. destruct (check_and_accept_spec r hist i H Hi)
    as [[Hn (r1 & -> & H1)]|[Hnf _]].
  - destruct (IH r1 _ H1 Hl Hs) as [r2 ->]; [|by exists r2].
    intros _. pose proof (rep_highest _ _ H1 ltac:(done)) as [->|Hin]%elem_of_cons; [done|].
    assert (highest r1 ≤ highest r) by (by apply (rep_max _ _ H)).
    assert (i ≤ highest r1) by (apply (rep_max _ _ H1); set_solver).
    destruct (decide (hist = [])) as [->|Hne]; [set_solver|].
    specialize (Hh Hne). apply Forall_cons in Hh as [? _]. lia.
  - exfalso. apply Hnf. destruct (decide (hist = [])) as [->|Hne]; [by left|].
    right; left. specialize (Hh Hne). by apply Forall_cons in Hh as [? _].
Qed.

(** C14: the replay window is exact. After any history of accepted indices,
    [check] succeeds if the index is newer than every accepted one, or lies
    inside the window and was not accepted before, and is refused as a replay
    otherwise; either way the window, its highest index, its size and the
    history it represents are as they were, only the statistics move. *)
Theorem check_exact r hist index :
  Rep r hist →
  ∃ r', same_window r r' ∧ Rep r' hist ∧
    ((fresh (window_size r) hist (highest r) index ∧ check index r = Ok ((), r')) ∨
     (¬ fresh (window_size r) hist (highest r) index ∧ check index r = Err (ReplayDetected, r'))).
Proof.
  intros H. destruct (check_spec r hist index H) as (r1 & H1 & _ & Hc). exists r1.
  pose proof (check_same_window r index) as Hw.
  destruct Hc as [[Hf Hc]|[Hf Hc]]; rewrite Hc in Hw; auto.
Qed.

(** The window after 100, 90 and 20 (the last too old to be taken), with 90
    refused, 91 taken and 30 outside the window. *)
Definition seen : ReplayProtection :=
  match run [100; 90; 20] new with Ok (_, r) => r | _ => new end.

Lemma Rep_seen : Rep seen [90; 100].
Proof.
  destruct (run_spec [100; 90; 20] new [] Rep_new) as (acc & r & Hr & HR & _).
  { repeat constructor; lia. }
  assert (Hc : run [100; 90; 20] new = Ok ([100; 90], seen)) by (vm_compute; reflexivity).
  rewrite Hc in Hr. injection Hr as <- <-. exact HR.
Qed.

Lemma check_exact_witness :
  let outcome_of index := ∃ r', same_window seen r' ∧ Rep r' [90; 100] ∧
    ((fresh 64 [90; 100] 100 index ∧ check index seen = Ok ((), r')) ∨
     (¬ fresh 64 [90; 100] 100 index ∧ check index seen = Err (ReplayDetected, r'))) in
  outcome_of 90 ∧ outcome_of 91 ∧ outcome_of 30 ∧ outcome_of 101 ∧
  map_err fst (fst <$> check 90 seen) = Err ReplayDetected ∧ map_err fst (fst <$> check 91 seen) = Ok () ∧
  map_err fst (fst <$> check 30 seen) = Err ReplayDetected.
Proof.
  split_and!; try (vm_compute; reflexivity);
    exact (check_exact seen [90; 100] _ Rep_seen).
Defined.

(** C15: no index is accepted twice. Whatever stream of packet indices goes
    through [check_and_accept], the accepted ones are pairwise distinct, the
    code never panics, and an increasing stream is accepted whole. *)
Theorem accepted_once l :
  Forall (Z.le 0) l →
  ∃ acc r, run l new = Ok (acc, r) ∧ NoDup acc ∧ acc `sublist_of` l ∧
    (StronglySorted Z.lt l → acc = l).
Proof.
  intros Hl. destruct (run_spec l new [] Rep_new Hl) as (acc & r & Hr & _ & Hnd & _ & Hs).
  exists acc, r. split_and!; try done. intros Hsort.
  destruct (run_increasing l new [] Rep_new Hl Hsort) as [r' Hr']; [done|]. congruence.
Qed.

Lemma accepted_once_witness :
  ∃ acc r, run [10; 15; 10; 100; 30; 50; 50] new = Ok (acc, r) ∧ NoDup acc ∧
    acc `sublist_of` [10; 15; 10; 100; 30; 50; 50] ∧
    (StronglySorted Z.lt [10; 15; 10; 100; 30; 50; 50] → acc = [10; 15; 10; 100; 30; 50; 50]).
Proof. apply accepted_once. repeat constructor; lia. Defined.

Example run_example :
  fst <$> run [10; 15; 10; 100; 30; 50; 50] new = Ok [10; 15; 100; 50].
Proof. vm_compute. reflexivity. Qed.

End Replay.
