(* ===== verification/RocIndex.v ===== *)
(** * Packet index estimation (RFC 3711, Appendix A)

    [RocState] of [crates/nexus-transport/src/srtp/index.rs] and
    [PacketIndex] of [srtp/types.rs]: the sender transmits only the low 16
    bits of the packet index; both sides keep the rollover counter. *)

From S2P Require Import Prelude Replay.

Module PacketIndex.

(** [PacketIndex(u64)]; the wrapper is the value itself. *)
Definition new (roc seq : Z) : Z := Z.lor (Z.shiftl roc 16) seq.
Definition roc (index : Z) : Z := wrap 32 (Z.shiftr index 16).
Definition seq (index : Z) : Z := wrap 16 index.

Lemma new_add roc seq : 0 ≤ roc → is_u16 seq → new roc seq = roc * 65536 + seq.
Proof.
  intros Hr Hs. unfold new. rewrite Z.shiftl_mul_pow2 by lia. change (2 ^ 16) with 65536.
  rewrite <- Z.lxor_lor, <- Z.add_nocarry_lxor; try done.
  all: apply Z.bits_inj'; intros n Hn; rewrite Z.land_spec, Z.bits_0;
    change 65536 with (2 ^ 16); destruct (Z.ltb_spec n 16);
    [rewrite Z.mul_pow2_bits_low by lia; done|];
    unfold in_range in Hs; rewrite <- (Z.mod_small seq (2 ^ 16)) by done;
    rewrite (Z.mod_pow2_bits_high seq 16 n), andb_false_r by lia; done.
Qed.

Lemma roc_new r s : is_u32 r → is_u16 s → roc (new r s) = r.
Proof.
  intros Hr Hs. rewrite new_add by (unfold in_range in *; lia).
  unfold roc. rewrite Z.shiftr_div_pow2 by lia. change (2 ^ 16) with 65536.
  replace ((r * 65536 + s) / 65536) with r; [by apply wrap_small|].
  apply Z.div_unique with s; [|lia]. unfold in_range in Hs. change (2 ^ 16) with 65536 in Hs. lia.
Qed.

Lemma seq_new r s : 0 ≤ r → is_u16 s → seq (new r s) = s.
Proof.
  intros Hr Hs. rewrite new_add by done. unfold seq, wrap. change (2 ^ 16) with 65536.
  symmetry. apply Z.mod_unique with r; [|lia].
  unfold in_range in Hs. change (2 ^ 16) with 65536 in Hs. lia.
Qed.

End PacketIndex.

Module RocIndex.

Record RocState := mkRoc {
  roc : Z;
  highest_seq : Z;
  initialized : bool;
}.

Definition new : RocState := mkRoc 0 0 false.

Definition estimate_index (st : RocState) (seq : Z) : outcome SrtpError Z :=
  if negb (initialized st) then Ok (PacketIndex.new 0 seq)
  else
    let s_l := highest_seq st in
    if s_l <? 32768 then
      if (seq >? s_l) && (seq - s_l >? 32768)
      then Ok (PacketIndex.new (saturating_sub (roc st) 1) seq)
      else Ok (PacketIndex.new (roc st) seq)
    else if s_l - 32768 >? seq then
      if roc st =? 2 ^ 32 - 1 then Err RocOverflow
      else Ok (PacketIndex.new (roc st + 1) seq)
    else Ok (PacketIndex.new (roc st) seq).

Definition update (st : RocState) (seq : Z) : outcome SrtpError RocState :=
  if negb (initialized st) then Ok (mkRoc (roc st) seq true)
  else
    let s_l := highest_seq st in
    if s_l <? 32768 then
      if (wrapping_sub 16 seq s_l <=? 32768) && (seq >? s_l)
      then Ok (mkRoc (roc st) seq true) else Ok st
    else if s_l - 32768 >? seq then
      if roc st =? 2 ^ 32 - 1 then Err RocOverflow
      else Ok (mkRoc (roc st + 1) seq true)
    else if seq >? s_l then Ok (mkRoc (roc st) seq true)
    else Ok st.

(** The counter and the highest sequence number have their widths. *)
Definition wf (st : RocState) : Prop := is_u32 (roc st) ∧ is_u16 (highest_seq st).

(** The highest index seen. *)
Definition current (st : RocState) : Z := roc st * 65536 + highest_seq st.

(** [i] is within half the sequence space of the highest index. *)
Definition near (st : RocState) (i : Z) : Prop :=
  if initialized st then 0 ≤ i < 2 ^ 48 ∧ Z.abs (i - current st) < 32768
  else 0 ≤ i < 65536 ∧ roc st = 0.

Ltac roc_arith :=
  unfold near, current, wf, in_range, saturating_sub, wrapping_sub, wrap in *;
  change (2 ^ 16) with 65536 in *; change (2 ^ 32) with 4294967296 in *;
  change (2 ^ 48) with 281474976710656 in *.

(** The estimate of a sequence number is the index it was cut from, and the
    update moves to the larger of the two indices. *)
Lemma estimate_update st i : wf st → near st i →
  estimate_index st (i mod 65536) = Ok i ∧
  ∃ st', update st (i mod 65536) = Ok st' ∧ wf st' ∧ initialized st' = true ∧
    current st' = if initialized st then Z.max (current st) i else i.
Proof.
  intros Hwf Hn. pose proof (Z.mod_pos_bound i 65536 ltac:(lia)) as Hm.
  pose proof (Z.div_mod i 65536 ltac:(lia)) as Hd.
  assert (Hnew : ∀ r, r = i / 65536 → 0 ≤ r → PacketIndex.new r (i mod 65536) = i).
  { intros r -> Hr. rewrite PacketIndex.new_add; [lia|done|].
    unfold in_range. change (2 ^ 16) with 65536. lia. }
  destruct st as [r s init]. unfold estimate_index, update. cbn [initialized roc highest_seq] in *.
  destruct init; cbn [negb].
  - assert (r = i / 65536 ∨ r = i / 65536 + 1 ∨ r = i / 65536 - 1) as Hr.
    { roc_arith. cbn in *. lia. }
    assert (Hw : wrapping_sub 16 (i mod 65536) s =
                 if i mod 65536 <? s then i mod 65536 - s + 65536 else i mod 65536 - s).
    { roc_arith. cbn in *. destruct (Z.ltb_spec (i mod 65536) s).
      - symmetry. apply Z.mod_unique with (-1); lia.
      - apply Z.mod_small. lia. }
    rewrite Hw. clear Hw. roc_arith. cbn in *.
    repeat match goal with
    | |- context [?a <? ?b] => destruct (Z.ltb_spec a b)
    | |- context [?a <=? ?b] => destruct (Z.leb_spec a b)
    | |- context [?a >? ?b] => rewrite (Z.gtb_ltb a b)
    | |- context [?a =? ?b] => destruct (Z.eqb_spec a b)
    end; cbn [andb]; try lia;
    (split; [f_equal; apply Hnew; lia|]);
    (eexists; split; [reflexivity|]); cbn; repeat split; lia.
  - roc_arith. cbn in *. split; [f_equal; apply Hnew; lia|].
    eexists; split; [reflexivity|]. cbn. repeat split; lia.
Qed.

Lemma estimate_no_panic st seq : no_panic (estimate_index st seq).
Proof. unfold estimate_index. np. Qed.

(** Whatever the sequence number, an estimate that succeeds has 48 bits and
    the update after it succeeds. *)
Lemma estimate_ok st seq i : wf st → is_u16 seq → estimate_index st seq = Ok i →
  0 ≤ i < 2 ^ 48 ∧ ∃ st', update st seq = Ok st' ∧ wf st'.
Proof.
  intros Hwf Hs. destruct st as [r h b]. unfold estimate_index, update.
  cbn [initialized roc highest_seq] in *.
  assert (Hnew : ∀ r, is_u32 r → 0 ≤ PacketIndex.new r seq < 2 ^ 48).
  { intros r' Hr'. roc_arith. rewrite PacketIndex.new_add; unfold in_range; lia. }
  assert (Hsat : is_u32 (saturating_sub r 1)) by (destruct Hwf; roc_arith; cbn in *; lia).
  repeat match goal with
  | |- context [if ?c then _ else _] => destruct c eqn:?
  end; intros [=]; subst;
  (split; [apply Hnew; simplify_tests; destruct Hwf; roc_arith; cbn in *; lia|]);
  (eexists; split; [reflexivity|]); simplify_tests; destruct Hwf; roc_arith; cbn in *; lia.
Qed.

(** One packet on the receive or send side: estimate, then update. *)
Definition track (st : RocState) (seq : Z) : outcome SrtpError (Z * RocState) :=
  i ← estimate_index st seq; st' ← update st seq; Ok (i, st').

Fixpoint track_all (st : RocState) (seqs : list Z) : outcome SrtpError (list Z * RocState) :=
  match seqs with
  | [] => Ok ([], st)
  | s :: seqs =>
    '(i, st') ← track st s; '(l, st'') ← track_all st' seqs; Ok (i :: l, st'')
  end.

(** Every index is within half the sequence space of the highest before it. *)
Fixpoint paced (h : Z) (l : list Z) : Prop :=
  match l with
  | [] => True
  | i :: l => 0 ≤ i < 2 ^ 48 ∧ Z.abs (i - h) < 32768 ∧ paced (Z.max h i) l
  end.

Lemma track_all_paced l : ∀ st, wf st → initialized st = true → paced (current st) l →
  ∃ st', track_all st (map (fun i => i mod 65536) l) = Ok (l, st').
Proof.
  induction l as [|i l IH]; intros st Hwf Hi Hp; [by exists st|].
  destruct Hp as (Hr & Hd & Hp).
  destruct (estimate_update st i Hwf) as [He (st' & Hu & Hwf' & Hi' & Hc)].
  { unfold near. by rewrite Hi. }
  rewrite Hi in Hc. rewrite <- Hc in Hp. destruct (IH st' Hwf' Hi' Hp) as [st'' Hst].
  exists st''. cbn [map track_all]. unfold track. rewrite He. run_st.
  rewrite Hu, Hst. done.
Qed.

(** C16: rollover tracking. From a fresh state, if the first index is below
    2^16 and every later one is within 2^15 of the highest before it, the
    16-bit sequence numbers alone give back exactly the 48-bit indices, in any
    order of arrival, across any number of rollovers. *)
Theorem roc_tracks i l :
  0 ≤ i < 65536 → paced i l →
  ∃ st', track_all new (map (fun i => i mod 65536) (i :: l)) = Ok (i :: l, st').
Proof.
  intros Hi Hp.
  destruct (estimate_update new i) as [He (st' & Hu & Hwf' & Hi' & Hc)].
  { done. } { done. }
  cbn [initialized new] in Hc. rewrite <- Hc in Hp.
  destruct (track_all_paced l st' Hwf' Hi' Hp) as [st'' Hst].
  exists st''. cbn [map track_all]. unfold track. rewrite He. run_st. rewrite Hu, Hst. done.
Qed.

Lemma roc_tracks_witness :
  ∃ st', track_all new (map (fun i => i mod 65536) [65534; 65536; 65535; 65538; 65537]) =
    Ok ([65534; 65536; 65535; 65538; 65537], st').
Proof. apply roc_tracks; [lia|cbn; lia]. Defined.

(** the update after a successful estimate cannot fail, and both fail
    exactly when the rollover counter is exhausted: the highest sequence
    number is in the upper half, the new one more than 2^15 below it, and the
    counter is [u32::MAX]. *)
Theorem roc_overflow st seq :
  (estimate_index st seq = Err RocOverflow ↔
     initialized st = true ∧ 32768 ≤ highest_seq st ∧ seq < highest_seq st - 32768 ∧
     roc st = 2 ^ 32 - 1) ∧
  (estimate_index st seq = Err RocOverflow ↔ update st seq = Err RocOverflow) ∧
  (∀ i, estimate_index st seq = Ok i → ∃ st', update st seq = Ok st').
Proof.
  destruct st as [r s init]. unfold estimate_index, update. cbn [initialized roc highest_seq].
  destruct init; cbn [negb]; [|naive_solver].
  repeat match goal with
  | |- context [?a <? ?b] => destruct (Z.ltb_spec a b)
  | |- context [?a >? ?b] => rewrite (Z.gtb_ltb a b)
  | |- context [?a =? ?b] => destruct (Z.eqb_spec a b)
  | |- context [?a <=? ?b] => destruct (Z.leb_spec a b)
  end; cbn [andb]; split_and!; try (naive_solver lia).
Qed.

(** Before the first rollover, a packet from before the first one received
    is given an index ahead of it, and the state does not move. *)
Lemma estimate_before_first st seq :
  wf st → initialized st = true → roc st = 0 → is_u16 seq →
  highest_seq st < 32768 → highest_seq st + 32768 < seq →
  estimate_index st seq = Ok seq ∧ update st seq = Ok st.
Proof.
  intros [_ Hs] Hi Hr Hq Hlt Hgt. unfold estimate_index, update. rewrite Hi, Hr. cbn [negb].
  assert (Hw : wrapping_sub 16 seq (highest_seq st) = seq - highest_seq st).
  { unfold wrapping_sub. apply wrap_small. unfold in_range in *. lia. }
  rewrite Hw.
  repeat match goal with
  | |- context [?a <? ?b] => destruct (Z.ltb_spec a b)
  | |- context [?a >? ?b] => rewrite (Z.gtb_ltb a b)
  | |- context [?a <=? ?b] => destruct (Z.leb_spec a b)
  end; cbn [andb]; try lia.
  by split.
Qed.

End RocIndex.
