(* ===== verification/RtpHeader.v ===== *)
(** * RTP header parsing

    [crates/nexus-media/src/rtp/header.rs]: the scalar parser the shard uses,
    the two SIMD parsers, and the 12-byte writer. The SIMD code is modelled on
    the 16-byte vector register as a list of lanes; [get_unchecked] is an
    index that must be in bounds ([Panic] stands for the undefined read). *)

From S2P Require Import Prelude.

Inductive RtpError :=
| TooShort (actual_bytes min_bytes : nat)
| InvalidVersion (version : Z)
| InvalidCsrcCount (count : Z) (available_bytes : nat)
| InvalidExtension
| InvalidPadding (padding_len : Z) (available_bytes : nat).

Module RtpHeader.

Definition RTP_HEADER_MIN_SIZE_BYTES : nat := 12.
Definition RTP_CSRC_SIZE_BYTES : nat := 4.
Definition RTP_VERSION : Z := 2.
Definition MAX_HEADER_LEN_BYTES : nat := Z.to_nat 65535.

Record RtpHeader := mkHeader {
  version : Z;
  padding : bool;
  extension : bool;
  csrc_count : Z;
  marker : bool;
  payload_type : Z;
  sequence_number : Z;
  timestamp : Z;
  ssrc : Z;
  header_len_bytes : Z;
  padding_len : Z;
}.

(** The length of the header with its extension block, if any. *)
Definition ext_len {E} (bad : E) (data : list Z) (header_after_csrc : nat) (extension : bool)
    : outcome E nat :=
  if extension then
    let ext_header_start := header_after_csrc in
    fail_if (bool_decide (length data < ext_header_start + 4)%nat) bad;;
    ext_len_words ← read_be 2 (ext_header_start + 2) data;
    let ext_len_bytes := (Z.to_nat ext_len_words * 4)%nat in
    let total_ext_size := (4 + ext_len_bytes)%nat in
    let header_len_bytes := (header_after_csrc + total_ext_size)%nat in
    fail_if (bool_decide (MAX_HEADER_LEN_BYTES < header_len_bytes)%nat) bad;;
    fail_if (bool_decide (length data < header_len_bytes)%nat) bad;;
    Ok header_len_bytes
  else Ok header_after_csrc.

(** The padding count in the last byte (RFC 3550 5.1). *)
Definition pad_len {E} (bad : Z → nat → E) (data : list Z) (header_len_bytes : nat)
    (padding : bool) : outcome E Z :=
  if padding then
    fail_if (bool_decide (length data ≤ header_len_bytes)%nat)
      (bad 0 (length data - header_len_bytes)%nat);;
    pad ← idx data (length data - 1);
    let payload_plus_padding := (length data - header_len_bytes)%nat in
    fail_if ((pad =? 0) || bool_decide (payload_plus_padding < Z.to_nat pad)%nat)
      (bad pad payload_plus_padding);;
    Ok pad
  else Ok 0.

Definition parse (data : list Z) : outcome RtpError RtpHeader :=
  fail_if (bool_decide (length data < RTP_HEADER_MIN_SIZE_BYTES)%nat)
    (TooShort (length data) RTP_HEADER_MIN_SIZE_BYTES);;
  first_byte ← idx data 0;
  let version := Z.land (Z.shiftr first_byte 6) 0x03 in
  let padding := negb (Z.land (Z.shiftr first_byte 5) 0x01 =? 0) in
  let extension := negb (Z.land (Z.shiftr first_byte 4) 0x01 =? 0) in
  let csrc_count := Z.land first_byte 0x0F in
  fail_if (negb (version =? RTP_VERSION)) (InvalidVersion version);;
  second_byte ← idx data 1;
  let marker := negb (Z.land (Z.shiftr second_byte 7) 0x01 =? 0) in
  let payload_type := Z.land second_byte 0x7F in
  sequence_number ← read_be 2 2 data;
  timestamp ← read_be 4 4 data;
  ssrc ← read_be 4 8 data;
  let csrc_size_bytes := (Z.to_nat csrc_count * RTP_CSRC_SIZE_BYTES)%nat in
  let header_after_csrc := (RTP_HEADER_MIN_SIZE_BYTES + csrc_size_bytes)%nat in
  fail_if (bool_decide (length data < header_after_csrc)%nat)
    (InvalidCsrcCount csrc_count (length data - RTP_HEADER_MIN_SIZE_BYTES)%nat);;
  header_len_bytes ← ext_len InvalidExtension data header_after_csrc extension;
  padding_len ← pad_len InvalidPadding data header_len_bytes padding;
  Ok (mkHeader version padding extension csrc_count marker payload_type sequence_number
        timestamp ssrc (wrap 16 (Z.of_nat header_len_bytes)) padding_len).

Definition b2z (b : bool) : Z := if b then 1 else 0.

Definition serialize (h : RtpHeader) (buffer : list Z) : outcome () (nat * list Z) :=
  assert_ (bool_decide (RTP_HEADER_MIN_SIZE_BYTES ≤ length buffer)%nat);;
  buffer ← set_at 0 (Z.lor (Z.lor (Z.lor (wrap 8 (Z.shiftl (version h) 6))
                     (Z.shiftl (b2z (padding h)) 5)) (Z.shiftl (b2z (extension h)) 4))
                     (Z.land (csrc_count h) 0x0F)) buffer;
  buffer ← set_at 1 (Z.lor (Z.shiftl (b2z (marker h)) 7) (Z.land (payload_type h) 0x7F)) buffer;
  buffer ← copy_at 2 (to_be 2 (sequence_number h)) buffer;
  buffer ← copy_at 4 (to_be 4 (timestamp h)) buffer;
  buffer ← copy_at 8 (to_be 4 (ssrc h)) buffer;
  Ok (RTP_HEADER_MIN_SIZE_BYTES, buffer).

Definition payload_len (h : RtpHeader) (packet_len : nat) : nat :=
  (packet_len - Z.to_nat (header_len_bytes h) - Z.to_nat (padding_len h))%nat.

(** ** The SIMD parsers *)

(** [_mm_loadu_si128] / [vld1q_u8] of the packet, or of a zero-filled copy
    when it is shorter than the register. *)
Definition load16 (data : list Z) : outcome () (list Z) :=
  if bool_decide (16 ≤ length data)%nat then slice 0 16 data
  else copy_at 0 data (replicate 16 0).

(** Lane reads; multi-byte lanes are little-endian. *)
Definition extract_epi8 (v : list Z) (i : nat) : outcome () Z := idx v i.
Definition extract_epi16 (v : list Z) (i : nat) : outcome () Z :=
  b ← slice (2 * i) (2 * i + 2) v; Ok (of_be (reverse b)).
Definition extract_epi32 (v : list Z) (i : nat) : outcome () Z :=
  b ← slice (4 * i) (4 * i + 4) v; Ok (of_be (reverse b)).

(** [u16::swap_bytes], [u32::swap_bytes] *)
Definition swap_bytes (n : nat) (x : Z) : Z := of_be (reverse (to_be n x)).

(** The rest of the header after the fixed part, common to both. *)
Definition simd_tail (data : list Z) (version : Z) (padding extension : bool) (csrc_count : Z)
    (marker : bool) (payload_type sequence_number timestamp ssrc : Z) : outcome () RtpHeader :=
  let csrc_size_bytes := (Z.to_nat csrc_count * RTP_CSRC_SIZE_BYTES)%nat in
  let header_after_csrc := (RTP_HEADER_MIN_SIZE_BYTES + csrc_size_bytes)%nat in
  fail_if (bool_decide (length data < header_after_csrc)%nat) ();;
  header_len_bytes ← ext_len () data header_after_csrc extension;
  padding_len ← pad_len (fun _ _ => ()) data header_len_bytes padding;
  Ok (mkHeader version padding extension csrc_count marker payload_type sequence_number
        timestamp ssrc (wrap 16 (Z.of_nat header_len_bytes)) padding_len).

Definition parse_simd_x86 (data : list Z) : outcome () RtpHeader :=
  header_bytes ← load16 data;
  first_byte ← extract_epi8 header_bytes 0;
  let version := Z.land (Z.shiftr first_byte 6) 0x03 in
  let padding := negb (Z.land (Z.shiftr first_byte 5) 0x01 =? 0) in
  let extension := negb (Z.land (Z.shiftr first_byte 4) 0x01 =? 0) in
  let csrc_count := Z.land first_byte 0x0F in
  fail_if (negb (version =? RTP_VERSION)) ();;
  second_byte ← extract_epi8 header_bytes 1;
  let marker := negb (Z.land (Z.shiftr second_byte 7) 0x01 =? 0) in
  let payload_type := Z.land second_byte 0x7F in
  seq_le ← extract_epi16 header_bytes 1;
  ts_le ← extract_epi32 header_bytes 1;
  ssrc_le ← extract_epi32 header_bytes 2;
  simd_tail data version padding extension csrc_count marker payload_type
    (swap_bytes 2 seq_le) (swap_bytes 4 ts_le) (swap_bytes 4 ssrc_le).

Definition parse_simd_neon (data : list Z) : outcome () RtpHeader :=
  header_bytes ← load16 data;
  first_byte ← extract_epi8 header_bytes 0;
  let version := Z.land (Z.shiftr first_byte 6) 0x03 in
  let padding := negb (Z.land (Z.shiftr first_byte 5) 0x01 =? 0) in
  let extension := negb (Z.land (Z.shiftr first_byte 4) 0x01 =? 0) in
  let csrc_count := Z.land first_byte 0x0F in
  fail_if (negb (version =? RTP_VERSION)) ();;
  second_byte ← extract_epi8 header_bytes 1;
  let marker := negb (Z.land (Z.shiftr second_byte 7) 0x01 =? 0) in
  let payload_type := Z.land second_byte 0x7F in
  sequence_number ← read_be 2 2 header_bytes;
  timestamp ← read_be 4 4 header_bytes;
  ssrc ← read_be 4 8 header_bytes;
  simd_tail data version padding extension csrc_count marker payload_type
    sequence_number timestamp ssrc.

(** The instruction set [parse_simd] was compiled for and finds at run time. *)
Inductive simd_target := X86_SSE41 | Aarch64 | NoSimd.

Definition parse_simd (t : simd_target) (data : list Z) : outcome () RtpHeader :=
  fail_if (bool_decide (length data < RTP_HEADER_MIN_SIZE_BYTES)%nat) ();;
  match t with
  | X86_SSE41 => parse_simd_x86 data
  | Aarch64 => parse_simd_neon data
  | NoSimd => map_err (fun _ => ()) (parse data)
  end.

(** ** Lemmas *)

Lemma ext_len_no_panic {E} (bad : E) data n x : no_panic (ext_len bad data n x).
Proof. unfold ext_len. np. Qed.

Lemma pad_len_no_panic {E} (bad : Z → nat → E) data n p : no_panic (pad_len bad data n p).
Proof. unfold pad_len. np. Qed.

#[local] Hint Resolve ext_len_no_panic pad_len_no_panic : nexus.

Lemma ext_len_ok {E} (bad : E) data n x m :
  (n ≤ length data)%nat → (n ≤ MAX_HEADER_LEN_BYTES)%nat → ext_len bad data n x = Ok m →
  (n ≤ m ≤ length data)%nat ∧ (m ≤ MAX_HEADER_LEN_BYTES)%nat ∧ (x = true → n + 4 ≤ m)%nat.
Proof.
  intros Hn Hm. unfold ext_len. destruct x; [|naive_solver].
  intros H. inv_ok. simplify_tests. lia.
Qed.

Lemma pad_len_ok {E} (bad : Z → nat → E) data n p k :
  bytes data → (n ≤ length data)%nat → pad_len bad data n p = Ok k →
  is_u8 k ∧ (n + Z.to_nat k ≤ length data)%nat ∧ (k = 0 ↔ p = false).
Proof.
  intros Hb Hn. unfold pad_len. destruct p.
  - intros H. inv_ok. simplify_tests. split; [by eapply byte_at|]. split; [lia|]. naive_solver.
  - intros H. inv_ok. split; [done|]. split; [lia|done].
Qed.

Lemma parse_never_panics data : no_panic (parse data).
Proof.
  unfold parse, RTP_HEADER_MIN_SIZE_BYTES.
  repeat first [solve [auto with nexus] | np_step]; lia.
Qed.

(** the scalar parser never panics, on any datagram. *)
Theorem parse_no_panic data : no_panic (parse data).
Proof. apply parse_never_panics. Qed.

(** What a successful parse read. *)
Lemma parse_inv data h : parse data = Ok h →
  ∃ b0 b1 n k, data !! 0%nat = Some b0 ∧ data !! 1%nat = Some b1 ∧
    Z.land (Z.shiftr b0 6) 3 = 2 ∧ (12 + Z.to_nat (Z.land b0 15) * 4 ≤ length data)%nat ∧
    ext_len InvalidExtension data (12 + Z.to_nat (Z.land b0 15) * 4) (extension h) = Ok n ∧
    pad_len InvalidPadding data n (padding h) = Ok k ∧
    h = mkHeader 2 (negb (Z.land (Z.shiftr b0 5) 1 =? 0)) (negb (Z.land (Z.shiftr b0 4) 1 =? 0))
          (Z.land b0 15) (negb (Z.land (Z.shiftr b1 7) 1 =? 0)) (Z.land b1 127)
          (of_be (sub_list 2 4 data)) (of_be (sub_list 4 8 data)) (of_be (sub_list 8 12 data))
          (wrap 16 (Z.of_nat n)) k.
Proof.
  unfold parse. intros H. inv_ok. simplify_tests.
  unfold RTP_HEADER_MIN_SIZE_BYTES, RTP_CSRC_SIZE_BYTES, RTP_VERSION in *.
  repeat match goal with H : read_be _ _ _ = Ok _ |- _ => rewrite read_be_ok in H by lia; inv_ok end.
  do 4 eexists. split_and!; try done; try lia. cbn [extension padding]. by f_equal.
Qed.

(** A packet with these parts parses. *)
Lemma parse_of data b0 b1 n k :
  data !! 0%nat = Some b0 → data !! 1%nat = Some b1 →
  Z.land (Z.shiftr b0 6) 3 = 2 → (12 + Z.to_nat (Z.land b0 15) * 4 ≤ length data)%nat →
  ext_len InvalidExtension data (12 + Z.to_nat (Z.land b0 15) * 4) (negb (Z.land (Z.shiftr b0 4) 1 =? 0)) = Ok n →
  pad_len InvalidPadding data n (negb (Z.land (Z.shiftr b0 5) 1 =? 0)) = Ok k →
  parse data =
    Ok (mkHeader 2 (negb (Z.land (Z.shiftr b0 5) 1 =? 0)) (negb (Z.land (Z.shiftr b0 4) 1 =? 0))
          (Z.land b0 15) (negb (Z.land (Z.shiftr b1 7) 1 =? 0)) (Z.land b1 127)
          (of_be (sub_list 2 4 data)) (of_be (sub_list 4 8 data)) (of_be (sub_list 8 12 data))
          (wrap 16 (Z.of_nat n)) k).
Proof.
  intros H0 H1 Hv Hc He Hk. unfold parse, RTP_HEADER_MIN_SIZE_BYTES, RTP_CSRC_SIZE_BYTES, RTP_VERSION, idx.
  rewrite H0, H1. rewrite !read_be_ok by lia. run_st. cbn [expect]. rewrite bool_decide_eq_false_2 by lia.
  rewrite Hv. cbn [Z.eqb negb Pos.eqb]. rewrite bool_decide_eq_false_2 by lia. rewrite He, Hk. done.
Qed.

Lemma land15_range b : is_u8 b → 0 ≤ Z.land b 15 < 16.
Proof. intros. change 15 with (Z.ones 4). rewrite Z.land_ones by lia. apply Z.mod_pos_bound. lia. Qed.

Lemma of_be_sub_list a b data : bytes data → (b ≤ length data)%nat →
  in_range (8 * Z.of_nat (b - a)) (of_be (sub_list a b data)).
Proof.
  intros Hd Hb. rewrite <- (length_sub_list a b data) by done.
  by apply of_be_range, bytes_sub_list.
Qed.

(** The extents and widths of a parsed header. *)
Lemma parse_ok data h :
  bytes data → parse data = Ok h →
  let n := Z.to_nat (header_len_bytes h) in
  (12 + 4 * Z.to_nat (csrc_count h) ≤ n ≤ length data)%nat ∧
  (n + payload_len h (length data) + Z.to_nat (padding_len h) = length data)%nat ∧
  version h = 2 ∧ 0 ≤ csrc_count h < 16 ∧ 0 ≤ payload_type h < 128 ∧
  is_u16 (sequence_number h) ∧ is_u32 (timestamp h) ∧ is_u32 (ssrc h) ∧
  is_u16 (header_len_bytes h) ∧ (extension h = true → 12 + 4 * Z.to_nat (csrc_count h) + 4 ≤ n)%nat.
Proof.
  intros Hd Hp. apply parse_inv in Hp as (b0 & b1 & n & k & H0 & H1 & Hv & Hc & He & Hk & Hh).
  pose proof (byte_at _ _ _ Hd H0) as Hb0. pose proof (land15_range _ Hb0).
  apply ext_len_ok in He as (Hn & Hmax & Hx); [|lia|].
  2: { unfold MAX_HEADER_LEN_BYTES. lia. }
  apply (pad_len_ok _ _ _ _ _ Hd) in Hk as (Hk & Hkn & _); [|lia].
  assert (Hw : wrap 16 (Z.of_nat n) = Z.of_nat n).
  { apply wrap_small. unfold in_range, MAX_HEADER_LEN_BYTES in *. change (2 ^ 16) with 65536. lia. }
  rewrite Hh in *. unfold payload_len.
  cbn [version csrc_count payload_type sequence_number timestamp ssrc header_len_bytes
       padding_len extension] in *.
  rewrite Hw, Nat2Z.id. unfold in_range in Hk. split; [lia|]. split; [lia|]. split; [done|].
  split; [lia|]. split.
  { change 127 with (Z.ones 7). rewrite Z.land_ones by lia. apply Z.mod_pos_bound. lia. }
  split; [by apply (of_be_sub_list 2 4); [|lia]|]. split; [by apply (of_be_sub_list 4 8); [|lia]|].
  split; [by apply (of_be_sub_list 8 12); [|lia]|]. split; [|intros Hxt; specialize (Hx Hxt); lia].
  unfold in_range, MAX_HEADER_LEN_BYTES in *. change (2 ^ 16) with 65536. lia.
Qed.

(** What a successful parse guarantees. The header, its CSRCs and its
    extension block lie inside the packet, header, payload and padding add up
    to the packet length, and every field fits its width. *)
Theorem parse_bounds data h :
  bytes data → parse data = Ok h →
  let n := Z.to_nat (header_len_bytes h) in
  (12 + 4 * Z.to_nat (csrc_count h) ≤ n ≤ length data)%nat ∧
  (n + payload_len h (length data) + Z.to_nat (padding_len h) = length data)%nat ∧
  version h = 2 ∧ 0 ≤ csrc_count h < 16 ∧ 0 ≤ payload_type h < 128 ∧
  is_u16 (sequence_number h) ∧ is_u32 (timestamp h) ∧ is_u32 (ssrc h) ∧
  is_u16 (header_len_bytes h) ∧ (extension h = true → 12 + 4 * Z.to_nat (csrc_count h) + 4 ≤ n)%nat.
Proof. apply parse_ok. Qed.

(** An audio packet with one CSRC, a one-byte extension block and two bytes
    of padding. *)
Definition sample : list Z :=
  [0xB1; 0xEF; 0x12; 0x34; 0; 0; 0x10; 0; 0xAB; 0xCD; 0; 1; 1; 2; 3; 4;
   0xBE; 0xDE; 0; 1; 0x10; 0x30; 0; 0; 9; 9; 9; 0; 2].

Example sample_parse :
  parse sample = Ok (mkHeader 2 true true 1 true 111 0x1234 0x1000 0xABCD0001 24 2).
Proof. vm_compute. reflexivity. Qed.

Lemma parse_bounds_witness :
  let h := mkHeader 2 true true 1 true 111 0x1234 0x1000 0xABCD0001 24 2 in
  let n := Z.to_nat (header_len_bytes h) in
  (12 + 4 * Z.to_nat (csrc_count h) ≤ n ≤ length sample)%nat ∧
  (n + payload_len h (length sample) + Z.to_nat (padding_len h) = length sample)%nat ∧
  version h = 2 ∧ 0 ≤ csrc_count h < 16 ∧ 0 ≤ payload_type h < 128 ∧
  is_u16 (sequence_number h) ∧ is_u32 (timestamp h) ∧ is_u32 (ssrc h) ∧
  is_u16 (header_len_bytes h) ∧ (extension h = true → 12 + 4 * Z.to_nat (csrc_count h) + 4 ≤ n)%nat.
Proof.
  apply (parse_bounds sample); [|vm_compute; reflexivity].
  repeat constructor; done.
Defined.

(** The two flag bytes are determined by the fields read from them. *)
Lemma first_byte_fields b : is_u8 b → Z.land (Z.shiftr b 6) 3 = 2 →
  Z.lor (Z.lor (Z.lor (wrap 8 (Z.shiftl 2 6))
    (Z.shiftl (b2z (negb (Z.land (Z.shiftr b 5) 1 =? 0))) 5))
    (Z.shiftl (b2z (negb (Z.land (Z.shiftr b 4) 1 =? 0))) 4)) (Z.land (Z.land b 15) 15) = b.
Proof.
  intros Hb Hv. apply Z.eqb_eq.
  pose (P b := implb (Z.land (Z.shiftr b 6) 3 =? 2) (Z.lor (Z.lor (Z.lor (wrap 8 (Z.shiftl 2 6))
    (Z.shiftl (b2z (negb (Z.land (Z.shiftr b 5) 1 =? 0))) 5))
    (Z.shiftl (b2z (negb (Z.land (Z.shiftr b 4) 1 =? 0))) 4)) (Z.land (Z.land b 15) 15) =? b)).
  assert (HP : P b = true) by (by apply (byte_forall P)). unfold P in HP. by rewrite Hv in HP.
Qed.

Lemma second_byte_fields b : is_u8 b →
  Z.lor (Z.shiftl (b2z (negb (Z.land (Z.shiftr b 7) 1 =? 0))) 7) (Z.land (Z.land b 127) 127) = b.
Proof.
  intros Hb. apply Z.eqb_eq.
  by apply (byte_forall (fun b => Z.lor (Z.shiftl (b2z (negb (Z.land (Z.shiftr b 7) 1 =? 0))) 7)
    (Z.land (Z.land b 127) 127) =? b)).
Qed.

(** The twelve bytes of the fixed header. *)
Definition fixed_bytes (h : RtpHeader) : list Z :=
  [Z.lor (Z.lor (Z.lor (wrap 8 (Z.shiftl (version h) 6))
     (Z.shiftl (b2z (padding h)) 5)) (Z.shiftl (b2z (extension h)) 4)) (Z.land (csrc_count h) 0x0F);
   Z.lor (Z.shiftl (b2z (marker h)) 7) (Z.land (payload_type h) 0x7F)] ++
  to_be 2 (sequence_number h) ++ to_be 4 (timestamp h) ++ to_be 4 (ssrc h).

(** Whatever the buffer held, [serialize] overwrites its first twelve bytes
    with those of the header and leaves the rest. *)
Lemma serialize_bytes h buf : (12 ≤ length buf)%nat →
  serialize h buf = Ok (12%nat, fixed_bytes h ++ drop 12 buf).
Proof.
  intros Hl. unfold serialize, fixed_bytes, RTP_HEADER_MIN_SIZE_BYTES.
  rewrite bool_decide_true by done. pose proof (length_to_be 2 (sequence_number h)) as Hs.
  pose proof (length_to_be 4 (timestamp h)) as Ht. pose proof (length_to_be 4 (ssrc h)) as Hx.
  destruct (to_be 2 (sequence_number h)) as [|s0 [|s1 [|]]]; try done.
  destruct (to_be 4 (timestamp h)) as [|t0 [|t1 [|t2 [|t3 [|]]]]]; try done.
  destruct (to_be 4 (ssrc h)) as [|x0 [|x1 [|x2 [|x3 [|]]]]]; try done.
  do 12 (destruct buf as [|? buf]; [cbn in Hl; lia|]).
  unfold set_at, copy_at, splice. run_st. cbn [length].
  repeat (rewrite decide_True by (cbn; lia); cbn [app take drop insert list_insert length Nat.add]). done.
Qed.

(** A header with nothing but the fixed part, its fields within their widths. *)
Definition plain_header (h : RtpHeader) : Prop :=
  h = mkHeader 2 false false 0 (marker h) (payload_type h) (sequence_number h) (timestamp h) (ssrc h) 12 0 ∧
  0 ≤ payload_type h < 128 ∧ is_u16 (sequence_number h) ∧ is_u32 (timestamp h) ∧ is_u32 (ssrc h).

Lemma second_byte_back m pt : 0 ≤ pt < 128 →
  let b := Z.lor (Z.shiftl (b2z m) 7) (Z.land pt 127) in
  negb (Z.land (Z.shiftr b 7) 1 =? 0) = m ∧ Z.land b 127 = pt.
Proof.
  intros Hpt b. rewrite <- Z.eqb_eq, <- eqb_true_iff, <- andb_true_iff.
  pose (P pt := implb (pt <? 128) (forallb (fun m => let b := Z.lor (Z.shiftl (b2z m) 7) (Z.land pt 127) in
    eqb (negb (Z.land (Z.shiftr b 7) 1 =? 0)) m && (Z.land b 127 =? pt)) [true; false])).
  assert (HP : P pt = true) by (apply (byte_forall P); [by vm_compute|unfold in_range; lia]).
  unfold P in HP. rewrite (proj2 (Z.ltb_lt _ _)) in HP by lia. cbn [implb forallb] in HP.
  rewrite !andb_true_iff in HP. rewrite andb_true_iff. subst b. destruct m; tauto.
Qed.

Lemma parse_plain h rest : plain_header h → parse (fixed_bytes h ++ rest) = Ok h.
Proof.
  intros (Hh & Hpt & Hs & Ht & Hx). destruct (second_byte_back (marker h) (payload_type h) Hpt) as [Hm Hp].
  set (b1 := Z.lor (Z.shiftl (b2z (marker h)) 7) (Z.land (payload_type h) 127)) in *.
  assert (Hf : fixed_bytes h = [0x80; b1] ++ to_be 2 (sequence_number h) ++ to_be 4 (timestamp h) ++ to_be 4 (ssrc h))
    by (unfold fixed_bytes; rewrite Hh; done).
  rewrite Hf. clear Hf. set (p := ([0x80; b1] ++ _) ++ rest).
  assert (Hl : (12 ≤ length p)%nat) by (unfold p; rewrite !length_app, !length_to_be; cbn; lia).
  rewrite (parse_of p 0x80 b1 12 0); [|done|done|done|replace (Z.to_nat (Z.land 0x80 15)) with 0%nat by done; lia|done|done].
  assert (H2 : sub_list 2 4 p = to_be 2 (sequence_number h)).
  { unfold p. rewrite <- !app_assoc. apply sub_list_middle; rewrite ?length_to_be; done. }
  assert (H4 : sub_list 4 8 p = to_be 4 (timestamp h)).
  { unfold p. rewrite <- !app_assoc, (app_assoc [_; _]). apply sub_list_middle; rewrite ?length_app, ?length_to_be; done. }
  assert (H8 : sub_list 8 12 p = to_be 4 (ssrc h)).
  { unfold p. rewrite <- !app_assoc, (app_assoc [_; _]), (app_assoc (_ ++ _)).
    apply sub_list_middle; rewrite ?length_app, ?length_to_be; done. }
  rewrite H2, H4, H8, !of_be_to_be by done. rewrite Hm, Hp. f_equal. symmetry. exact Hh.
Qed.

(** C17: the header writer and the parser agree, whatever the buffer written
    to held before. Serializing the header of a parsed packet puts the first
    twelve bytes of that packet at the head of the buffer and keeps the rest
    of it, so parsing loses nothing of the fixed header; and serializing a
    header without CSRCs, extension and padding whose fields fit their widths
    gives, in any buffer of at least twelve bytes, a packet that parses to
    that header. *)
Theorem serialize_parse buf :
  (12 ≤ length buf)%nat →
  (∀ data h, bytes data → parse data = Ok h →
     serialize h buf = Ok (12%nat, take 12 data ++ drop 12 buf)) ∧
  (∀ h, plain_header h → ∃ out, serialize h buf = Ok (12%nat, out) ∧
     drop 12 out = drop 12 buf ∧ parse out = Ok h).
Proof.
  intros Hl. split.
  - intros data h Hd Hp. rewrite serialize_bytes by done.
    apply parse_inv in Hp as (b0 & b1 & n & k & H0 & H1 & Hv & Hc & _ & _ & ->).
    unfold fixed_bytes. cbn [version padding extension csrc_count marker payload_type sequence_number timestamp ssrc].
    rewrite first_byte_fields, second_byte_fields by (done || by eapply byte_at).
    assert (Hbe : ∀ m a b : nat, (a + m = b)%nat → (b ≤ length data)%nat →
      to_be m (of_be (sub_list a b data)) = sub_list a b data).
    { intros m a b Hab Hb. replace m with (length (sub_list a b data)) by (rewrite length_sub_list by done; lia).
      apply to_be_of_be. by apply bytes_sub_list. }
    rewrite !Hbe by lia. do 3 f_equal. rewrite <- !sub_list_app by lia.
    destruct data as [|? [|? data]]; try done. cbn in H0, H1. simplify_eq. done.
  - intros h Hh. eexists. split; [by apply serialize_bytes|]. split; [|by apply parse_plain].
    unfold fixed_bytes. by rewrite drop_app_length' by (rewrite !length_app, !length_to_be; done).
Qed.

(** The sample's header into a buffer of other bytes, and a header of its own. *)
Lemma serialize_parse_witness :
  serialize (mkHeader 2 true true 1 true 111 0x1234 0x1000 0xABCD0001 24 2) (replicate 14 0xEE) =
    Ok (12%nat, take 12 sample ++ [0xEE; 0xEE]) ∧
  ∃ out, serialize (mkHeader 2 false false 0 true 96 7 90000 0xABCD0001 12 0) (replicate 14 0xEE) = Ok (12%nat, out) ∧
    drop 12 out = [0xEE; 0xEE] ∧ parse out = Ok (mkHeader 2 false false 0 true 96 7 90000 0xABCD0001 12 0).
Proof.
  destruct (serialize_parse (replicate 14 0xEE)) as [H1 H2]; [cbn; lia|]. split.
  - apply (H1 sample); [repeat constructor; done|vm_compute; reflexivity].
  - apply H2. repeat split; cbn; lia.
Defined.

(** ** Equivalence of the SIMD parsers with the scalar one *)

Lemma load16_prefix data : (12 ≤ length data)%nat →
  ∃ v, load16 data = Ok v ∧ length v = 16%nat ∧
    ∀ a b, (b ≤ 12)%nat → sub_list a b v = sub_list a b data.
Proof.
  intros Hl. unfold load16. case_bool_decide.
  - unfold slice. rewrite decide_True by lia. eexists; split; [done|]. split.
    + by rewrite length_sub_list by lia.
    + intros a b Hb. destruct (decide (a ≤ b)%nat).
      * rewrite sub_list_sub_list by lia. done.
      * unfold sub_list. by replace (b - a)%nat with 0%nat by lia.
  - unfold copy_at. rewrite length_replicate, decide_True by lia. eexists; split; [done|].
    split; [by rewrite length_splice by (rewrite length_replicate; lia)|].
    intros a b Hb. apply list_eq. intros i. rewrite !lookup_sub_list. case_decide; [|done].
    rewrite lookup_splice by (rewrite length_replicate; lia).
    rewrite decide_True by lia. f_equal. lia.
Qed.

Lemma idx_sub_list {E} (v : list Z) i : (i < length v)%nat →
  idx (E:=E) v i = (b ← slice i (i + 1) v; idx b 0).
Proof.
  intros Hi. unfold slice. rewrite decide_True by lia. cbn.
  unfold idx. rewrite lookup_sub_list. rewrite decide_True by lia. by rewrite Nat.add_0_r.
Qed.

Lemma swap_bytes_le n l : bytes l → length l = n → swap_bytes n (of_be (reverse l)) = of_be l.
Proof.
  intros Hl <-. unfold swap_bytes. rewrite <- length_reverse, to_be_of_be.
  - by rewrite reverse_involutive.
  - by apply Forall_reverse.
Qed.

Section simd.
  Context (data v : list Z).
  Context (Hd : bytes data) (Hl : (12 ≤ length data)%nat) (Hv : length v = 16%nat).
  Context (Hs : ∀ a b, (b ≤ 12)%nat → sub_list a b v = sub_list a b data).

Lemma simd_slice {E} a b : (a ≤ b)%nat → (b ≤ 12)%nat → slice (E:=E) a b v = slice a b data.
Proof. intros. unfold slice. rewrite !decide_True by lia. by rewrite Hs. Qed.

Lemma simd_idx i : (i < 12)%nat → extract_epi8 v i = idx data i.
Proof. intros. unfold extract_epi8. rewrite !idx_sub_list, simd_slice by lia. done. Qed.

Lemma simd_read n at_ : (at_ + n ≤ 12)%nat → read_be (E:=()) n at_ v = read_be n at_ data.
Proof. intros. unfold read_be. by rewrite simd_slice by lia. Qed.
End simd.

Lemma map_err_ext_len {E F} (g : E → F) bad data n x :
  map_err g (ext_len bad data n x) = ext_len (g bad) data n x.
Proof.
  unfold ext_len. destruct x; [|done].
  by repeat (rewrite map_err_bind, ?map_err_fail_if, ?map_err_read_be; apply bind_ext; intros ? _).
Qed.

Lemma map_err_pad_len {E F} (g : E → F) bad data n p :
  map_err g (pad_len bad data n p) = pad_len (fun a b => g (bad a b)) data n p.
Proof.
  unfold pad_len. destruct p; [|done].
  by repeat (rewrite map_err_bind, ?map_err_fail_if, ?map_err_idx; apply bind_ext; intros ? _).
Qed.

Lemma outcome_bind_assoc {E A B C} (m : outcome E A) (f : A → outcome E B) (g : B → outcome E C) :
  (m ≫= f) ≫= g = m ≫= fun a => f a ≫= g.
Proof. by destruct m. Qed.

Lemma simd_tail_correct data version padding extension cc marker pt seq ts ssrc :
  simd_tail data version padding extension cc marker pt seq ts ssrc =
  map_err (fun _ => ())
    (fail_if (bool_decide (length data < 12 + Z.to_nat cc * RTP_CSRC_SIZE_BYTES)%nat)
       (InvalidCsrcCount cc (length data - 12));;
     n ← ext_len InvalidExtension data (12 + Z.to_nat cc * RTP_CSRC_SIZE_BYTES) extension;
     k ← pad_len InvalidPadding data n padding;
     Ok (mkHeader version padding extension cc marker pt seq ts ssrc (wrap 16 (Z.of_nat n)) k)).
Proof.
  unfold simd_tail, RTP_HEADER_MIN_SIZE_BYTES. rewrite map_err_bind, map_err_fail_if.
  apply bind_ext. intros ? _. rewrite map_err_bind, map_err_ext_len. apply bind_ext. intros n _.
  by rewrite map_err_bind, map_err_pad_len.
Qed.

(** C18: on every datagram and every target, the SIMD parser returns the
    header the scalar parser returns, and [None] exactly when it fails; its
    unchecked reads stay inside the packet. *)
Theorem parse_simd_correct t data :
  bytes data → parse_simd t data = map_err (fun _ => ()) (parse data).
Proof.
  intros Hd. destruct (decide (length data < 12)%nat) as [Hs|Hl].
  { unfold parse_simd, parse, RTP_HEADER_MIN_SIZE_BYTES. by rewrite bool_decide_true by done. }
  unfold parse_simd, RTP_HEADER_MIN_SIZE_BYTES. rewrite bool_decide_false by lia.
  cbn [fail_if mbind outcome_bind]. destruct (load16_prefix data ltac:(lia)) as (v & Hv & Hlen & Hs).
  destruct t; [| |done]; unfold parse_simd_x86, parse_simd_neon, parse, RTP_HEADER_MIN_SIZE_BYTES;
    rewrite bool_decide_false, Hv by lia; cbn [fail_if mbind outcome_bind].
  all: rewrite !map_err_bind, (simd_idx data v ltac:(lia) Hlen Hs 0%nat), map_err_idx by (done || lia);
    apply bind_ext; intros b0 _; rewrite map_err_bind, map_err_fail_if;
    apply bind_ext; intros ? _;
    rewrite !map_err_bind, (simd_idx data v ltac:(lia) Hlen Hs 1%nat), map_err_idx by (done || lia);
    apply bind_ext; intros b1 _; rewrite !map_err_bind, !map_err_read_be.
  - unfold extract_epi16, extract_epi32.
    rewrite !(simd_slice data v ltac:(lia) Hlen Hs) by lia.
    rewrite !read_be_ok by lia. unfold slice. rewrite !decide_True by lia.
    cbn [mbind outcome_bind Nat.mul Nat.add].
    rewrite !swap_bytes_le by (by apply bytes_sub_list || (rewrite length_sub_list by lia; lia)).
    apply simd_tail_correct.
  - rewrite !(simd_read data v ltac:(lia) Hlen Hs) by lia.
    rewrite !read_be_ok by lia. cbn [mbind outcome_bind]. apply simd_tail_correct.
Qed.

Lemma parse_simd_correct_witness :
  parse_simd X86_SSE41 sample = map_err (fun _ => ()) (parse sample).
Proof. apply parse_simd_correct. repeat constructor; done. Defined.

End RtpHeader.
