(* ===== verification/Direction.v ===== *)
(** * SRTP contexts per direction

    [crates/nexus-transport/src/srtp/direction.rs]: [SrtpInbound] unprotects
    what one peer sends, [SrtpOutbound] protects what is sent to it. Both are
    written against the interface [SrtpCipher] of the packet cipher
    ([srtp/crypto.rs], modelled in [Cipher.v]), so their theorems hold for
    every cipher. *)

From S2P Require Import Prelude Replay RocIndex.

(** The packet cipher as the contexts use it. A packet operation works on the
    caller's buffer, which keeps whatever the cipher left in it on failure. *)
Class SrtpCipher (C : Type) := {
  tag_len : C → nat;
  is_aead : C → bool;
  cipher_protect_rtp : C → nat → Z → st (list Z) SrtpError nat;
  cipher_unprotect_rtp : C → nat → Z → st (list Z) SrtpError nat;
  cipher_protect_rtcp : C → nat → Z → st (list Z) SrtpError nat;
  cipher_unprotect_rtcp : C → nat → st (list Z) SrtpError (nat * Z);
}.

(** What the contexts rely on: operations within the buffer's bounds do not
    panic and keep its length; the output lengths are those the contexts
    assert. [cipher_wf] holds of the ciphers the constructors build. *)
Class SrtpCipherLaws (C : Type) `{SrtpCipher C} := {
  cipher_wf : C → Prop;
  protect_rtp_law c len index buf : cipher_wf c → (12 ≤ len ≤ length buf)%nat →
    match cipher_protect_rtp c len index buf with
    | Ok (n, buf') => n = (len + tag_len c)%nat ∧ length buf' = length buf ∧ (n ≤ length buf)%nat
    | Err (_, buf') => length buf' = length buf
    | Panic => False
    end;
  unprotect_rtp_law c len index buf : cipher_wf c → (12 ≤ len ≤ length buf)%nat →
    match cipher_unprotect_rtp c len index buf with
    | Ok (n, buf') => (12 ≤ n < len)%nat ∧ length buf' = length buf
    | Err (_, buf') => length buf' = length buf
    | Panic => False
    end;
  protect_rtcp_law c len index buf : cipher_wf c → (8 ≤ len ≤ length buf)%nat → 0 ≤ index < 2 ^ 31 →
    match cipher_protect_rtcp c len index buf with
    | Ok (n, buf') => n = (len + 4 + tag_len c)%nat ∧ length buf' = length buf ∧ (n ≤ length buf)%nat
    | Err (_, buf') => length buf' = length buf
    | Panic => False
    end;
  unprotect_rtcp_law c len buf : cipher_wf c → (8 ≤ len ≤ length buf)%nat →
    match cipher_unprotect_rtcp c len buf with
    | Ok (n, i, buf') =>
        (8 ≤ n < len)%nat ∧ length buf' = length buf ∧
        ∃ at_, (if is_aead c then Some 4 else Some (tag_len c + 4))%nat = Some at_ ∧
          (at_ ≤ len)%nat ∧
          Ok i = (e ← read_be (E:=()) 4 (len - at_) buf; Ok (Z.land e 0x7FFFFFFF))
    | Err (_, buf') => length buf' = length buf
    | Panic => False
    end;
}.

Definition RTP_HEADER_SIZE : nat := 12.
Definition RTCP_HEADER_SIZE : nat := 8.
Definition SRTCP_E_FLAG : Z := 0x80000000.
Definition SRTCP_INDEX_MASK : Z := 0x7FFFFFFF.
Definition INBOUND_SSRC_SLOTS : nat := 16.
Definition INBOUND_PINNED_MAX : nat := 12.
Definition OUTBOUND_SSRC_SLOTS : nat := 32.
Definition INBOUND_IDLE_EVICT_S : Z := 30.
Definition MAX_SSRC_OFFSET : Z := 2 ^ 31 - 1.

Definition be_u32 {E} (buf : list Z) (at_ : nat) : outcome E Z := read_be 4 at_ buf.

(** Offset of the E+index word of an SRTCP packet of [len] bytes. *)
Definition srtcp_trailer_offset `{SrtpCipher C} (cipher : C) (len : nat) : option nat :=
  let trailer := if is_aead cipher then 4%nat else (tag_len cipher + 4)%nat in
  if bool_decide (len < trailer)%nat then None
  else let at_ := (len - trailer)%nat in
       if bool_decide (RTCP_HEADER_SIZE ≤ at_)%nat then Some at_ else None.
