(* ===== verification/Inbound.v ===== *)
(** * The receive direction: [SrtpInbound]

    [crates/nexus-transport/src/srtp/direction.rs], lines 130-340: one slot per
    SSRC of the peer, with its rollover counter and replay windows; pinned
    slots (announced tracks) are never evicted. *)

From S2P Require Import Prelude Wp Replay RocIndex Direction.

Module Inbound.

Record SsrcIn := mkSsrcIn {
  ssrc : Z;
  live : bool;
  pinned : bool;
  roc : RocIndex.RocState;
  rtp_replay : Replay.ReplayProtection;
  rtcp_replay : Replay.ReplayProtection;
  last_seen_s : Z;
}.

Definition EMPTY : SsrcIn := mkSsrcIn 0 false false RocIndex.new Replay.new Replay.new 0.

Definition fresh (ssrc now_s : Z) : SsrcIn :=
  mkSsrcIn ssrc true false RocIndex.new Replay.new Replay.new now_s.

Definition set_pinned (b : bool) (s : SsrcIn) : SsrcIn :=
  mkSsrcIn (ssrc s) (live s) b (roc s) (rtp_replay s) (rtcp_replay s) (last_seen_s s).
Definition set_live (b : bool) (s : SsrcIn) : SsrcIn :=
  mkSsrcIn (ssrc s) b (pinned s) (roc s) (rtp_replay s) (rtcp_replay s) (last_seen_s s).
Definition set_roc (r : RocIndex.RocState) (s : SsrcIn) : SsrcIn :=
  mkSsrcIn (ssrc s) (live s) (pinned s) r (rtp_replay s) (rtcp_replay s) (last_seen_s s).
Definition set_rtp_replay (r : Replay.ReplayProtection) (s : SsrcIn) : SsrcIn :=
  mkSsrcIn (ssrc s) (live s) (pinned s) (roc s) r (rtcp_replay s) (last_seen_s s).
Definition set_rtcp_replay (r : Replay.ReplayProtection) (s : SsrcIn) : SsrcIn :=
  mkSsrcIn (ssrc s) (live s) (pinned s) (roc s) (rtp_replay s) r (last_seen_s s).
Definition set_last_seen_s (t : Z) (s : SsrcIn) : SsrcIn :=
  mkSsrcIn (ssrc s) (live s) (pinned s) (roc s) (rtp_replay s) (rtcp_replay s) t.

Section inbound.
Context {C : Type} `{SrtpCipher C}.

Record SrtpInbound := mkInbound {
  cipher : C;
  slots : list SsrcIn;
}.

Definition set_slots (l : list SsrcIn) (s : SrtpInbound) : SrtpInbound := mkInbound (cipher s) l.

(** [from_keys], once the cipher is built *)
Definition from_cipher (c : C) : SrtpInbound :=
  mkInbound c (replicate INBOUND_SSRC_SLOTS EMPTY).

Definition ssrc_count (s : SrtpInbound) : nat := count live (slots s).
Definition pinned_count (s : SrtpInbound) : nat := count (fun s => live s && pinned s) (slots s).

Definition is_slot_of (x : Z) (s : SsrcIn) : bool := live s && (ssrc s =? x).

(** [min_by_key(last_seen_s)] over the unpinned slots: the first minimum. *)
Fixpoint oldest_unpinned (i : nat) (best : option (nat * Z)) (l : list SsrcIn) : option (nat * Z) :=
  match l with
  | [] => best
  | s :: l =>
    let best' :=
      if pinned s then best
      else match best with
           | Some (_, t) => if last_seen_s s <? t then Some (i, last_seen_s s) else best
           | None => Some (i, last_seen_s s)
           end in
    oldest_unpinned (S i) best' l
  end.

Definition slot_to_replace (s : SrtpInbound) : option nat :=
  let free := position (fun s => negb (live s)) (slots s) in
  let oldest := fst <$> oldest_unpinned 0 None (slots s) in
  match free with Some i => Some i | None => oldest end.

(** The checks of debug builds: live SSRCs are distinct, pinned slots live. *)
Fixpoint distinct_live (l : list SsrcIn) : bool :=
  match l with
  | [] => true
  | a :: l => (if live a then forallb (fun b => negb (is_slot_of (ssrc a) b)) l else true)
              && distinct_live l
  end.

Definition debug_check (s : SrtpInbound) : bool :=
  distinct_live (slots s) && forallb (fun s => live s || negb (pinned s)) (slots s).

Definition pin (x : Z) : st SrtpInbound SrtpError () :=
  self ← get;
  let existing := position (is_slot_of x) (slots self) in
  already ← lift (match existing with
                  | Some i => pinned <$> idx (slots self) i
                  | None => Ok false end);
  if already : bool then mret ()
  else if bool_decide (INBOUND_PINNED_MAX ≤ pinned_count self)%nat
  then throw SessionLimitReached
  else
    slot ← match existing with
           | Some i => mret i
           | None =>
             i ← lift (of_option SessionLimitReached (slot_to_replace self));
             zoom slots set_slots (at_slot i (put (fresh x 0)));;
             mret i
           end;
    zoom slots set_slots (at_slot slot (modify (set_pinned true)));;
    self ← get;
    lift (assert_ (bool_decide (pinned_count self ≤ INBOUND_PINNED_MAX)%nat));;
    lift (assert_ (debug_check self)).

Definition unpin (x : Z) (self : SrtpInbound) : SrtpInbound :=
  match position (is_slot_of x) (slots self) with
  | Some i => set_slots (alter (set_pinned false) i (slots self)) self
  | None => self
  end.

(** The slot holding the SSRC, else a free one, else the unpinned one idle
    longest if idle over [INBOUND_IDLE_EVICT_S]. *)
Fixpoint slot_for_from (x now_s : Z) (i : nat) (free : option nat) (idlest : option (nat * Z))
    (l : list SsrcIn) : option nat :=
  match l with
  | [] =>
    match free with
    | Some f => Some f
    | None =>
      match idlest with
      | Some (j, idle) => if idle >? INBOUND_IDLE_EVICT_S then Some j else None
      | None => None
      end
    end
  | state :: l =>
    if negb (live state) then
      slot_for_from x now_s (S i) (match free with Some _ => free | None => Some i end) idlest l
    else if ssrc state =? x then Some i
    else if pinned state then slot_for_from x now_s (S i) free idlest l
    else
      let idle := saturating_sub now_s (last_seen_s state) in
      let idlest' := match idlest with
                     | Some (_, most) => if idle >? most then Some (i, idle) else idlest
                     | None => Some (i, idle)
                     end in
      slot_for_from x now_s (S i) free idlest' l
  end.

Definition slot_for (self : SrtpInbound) (x now_s : Z) : option nat :=
  slot_for_from x now_s 0 None None (slots self).

(** Runs code on one slot of the context held beside the packet buffer. *)
Definition on_slot {E A} (i : nat) (m : st SsrcIn E A) : st (SrtpInbound * list Z) E A :=
  zoom (fun s => slots s.1) (fun l s => (set_slots l s.1, s.2)) (at_slot i m).

Definition on_buf {E A} (m : st (list Z) E A) : st (SrtpInbound * list Z) E A :=
  zoom snd (fun b s => (s.1, b)) m.

(** [rtp_replay.check], [rtcp_replay.check] *)
Definition check_rtp_replay (index : Z) : st SsrcIn SrtpError () :=
  zoom rtp_replay set_rtp_replay (Replay.check index).
Definition check_rtcp_replay (index : Z) : st SsrcIn SrtpError () :=
  zoom rtcp_replay set_rtcp_replay (Replay.check index).

(** Bookkeeping of an authenticated RTP packet. *)
Definition accept_rtp (known : bool) (x now_s index seq : Z) : st SsrcIn () () :=
  (if known then mret () else put (fresh x now_s));;
  s ← get;
  r ← lift (Replay.accept index (rtp_replay s));
  modify (set_rtp_replay r);;
  (match RocIndex.update (roc s) seq with
   | Ok roc' => modify (set_roc roc')
   | _ => fun _ => Panic (* debug_assert!(updated.is_ok()) *)
   end);;
  modify (set_last_seen_s now_s).

Definition accept_rtcp (known : bool) (x now_s index : Z) : st SsrcIn () () :=
  (if known then mret () else put (fresh x now_s));;
  s ← get;
  r ← lift (Replay.accept index (rtcp_replay s));
  modify (set_rtcp_replay r);;
  modify (set_last_seen_s now_s).

Definition unprotect_rtp (len : nat) (now_s : Z) : st (SrtpInbound * list Z) () nat :=
  '(self, buf) ← get;
  if bool_decide (len < RTP_HEADER_SIZE ∨ length buf < len)%nat then throw () else
  seq ← lift (read_be 2 2 buf);
  x ← lift (be_u32 buf 8);
  slot ← lift (of_option () (slot_for self x now_s));
  state ← lift (idx (slots self) slot);
  let known := is_slot_of x state in
  index ← (if known then
             index ← lift (map_err (fun _ => ()) (RocIndex.estimate_index (roc state) seq));
             on_slot slot (quiet (check_rtp_replay index));;
             mret index
           else mret (PacketIndex.new 0 seq));
  out ← on_buf (quiet (cipher_unprotect_rtp (cipher self) len index));
  on_slot slot (accept_rtp known x now_s index seq);;
  '(self, _) ← get;
  lift (assert_ (bool_decide (out < len ∧ RTP_HEADER_SIZE ≤ out)%nat));;
  lift (assert_ (debug_check self));;
  mret out.

Definition unprotect_rtcp (len : nat) (now_s : Z) : st (SrtpInbound * list Z) () nat :=
  '(self, buf) ← get;
  if bool_decide (len < RTCP_HEADER_SIZE ∨ length buf < len)%nat then throw () else
  at_ ← lift (of_option () (srtcp_trailer_offset (cipher self) len));
  e_index ← lift (be_u32 buf at_);
  if Z.land e_index SRTCP_E_FLAG =? 0 then throw () else
  let index := Z.land e_index SRTCP_INDEX_MASK in
  x ← lift (be_u32 buf 4);
  slot ← lift (of_option () (slot_for self x now_s));
  state ← lift (idx (slots self) slot);
  let known := is_slot_of x state in
  (if known then on_slot slot (quiet (check_rtcp_replay index)) else mret ());;
  '(out, authenticated_index) ← on_buf (quiet (cipher_unprotect_rtcp (cipher self) len));
  lift (assert_ (authenticated_index =? index));;
  on_slot slot (accept_rtcp known x now_s index);;
  '(self, _) ← get;
  lift (assert_ (bool_decide (RTCP_HEADER_SIZE ≤ out ∧ out < len)%nat));;
  lift (assert_ (debug_check self));;
  mret out.

(** Frees every unpinned slot idle longer than [idle_s]; returns how many. *)
Definition evictable (now_s idle_s : Z) (s : SsrcIn) : bool :=
  live s && negb (pinned s) && (saturating_sub now_s (last_seen_s s) >? idle_s).

Definition evict_idle (now_s idle_s : Z) (self : SrtpInbound) : nat * SrtpInbound :=
  (count (evictable now_s idle_s) (slots self),
   set_slots ((fun s => if evictable now_s idle_s s then set_live false s else s) <$> slots self)
     self).

(** ** Runs of a context *)

Inductive op :=
| Pin (x : Z)
| Unpin (x : Z)
| UnprotectRtp (buf : list Z) (len : nat) (now_s : Z)
| UnprotectRtcp (buf : list Z) (len : nat) (now_s : Z)
| EvictIdle (now_s idle_s : Z).

Definition op_wf (o : op) : Prop :=
  match o with
  | UnprotectRtp buf _ _ | UnprotectRtcp buf _ _ => bytes buf
  | _ => True
  end.

(** A packet delivered to the caller: the bytes that were received and what
    they were unprotected to. *)
Inductive packet :=
| RtpPacket (wire : list Z) (len : nat) (out : nat) (plain : list Z)
| RtcpPacket (wire : list Z) (len : nat) (out : nat) (plain : list Z).

(** One call; the packets it delivered. *)
Definition step (o : op) (self : SrtpInbound) : outcome () (list packet * SrtpInbound) :=
  match o with
  | Pin x =>
    match pin x self with
    | Ok (_, s) | Err (_, s) => Ok ([], s)
    | Panic => Panic
    end
  | Unpin x => Ok ([], unpin x self)
  | EvictIdle now_s idle_s => Ok ([], (evict_idle now_s idle_s self).2)
  | UnprotectRtp buf len now_s =>
    match unprotect_rtp len now_s (self, buf) with
    | Ok (n, (s, plain)) => Ok ([RtpPacket buf len n plain], s)
    | Err (_, (s, _)) => Ok ([], s)
    | Panic => Panic
    end
  | UnprotectRtcp buf len now_s =>
    match unprotect_rtcp len now_s (self, buf) with
    | Ok (n, (s, plain)) => Ok ([RtcpPacket buf len n plain], s)
    | Err (_, (s, _)) => Ok ([], s)
    | Panic => Panic
    end
  end.

Fixpoint run (ops : list op) (self : SrtpInbound) : outcome () (list packet * SrtpInbound) :=
  match ops with
  | [] => Ok ([], self)
  | o :: ops => '(p, s) ← step o self; '(ps, s') ← run ops s; Ok (p ++ ps, s')
  end.

(** What a delivered packet is known by: its stream, SSRC and packet index. *)
Inductive use := UseRtp (x index : Z) | UseRtcp (x index : Z).

#[global] Instance use_eq_dec : EqDecision use.
Proof. solve_decision. Defined.

Definition use_ssrc (u : use) : Z := match u with UseRtp x _ | UseRtcp x _ => x end.

(** The cipher [c] authenticated the packet [p] under the SSRC it carries and
    the index of [u]: the index an RTP packet was opened with, the index the
    cipher found in an RTCP packet. *)
Definition authentic_under (c : C) (p : packet) (u : use) : Prop :=
  match p, u with
  | RtpPacket wire len out plain, UseRtp x index =>
    be_u32 (E:=()) wire 8 = Ok x ∧ 0 ≤ index < 2 ^ 48 ∧
    cipher_unprotect_rtp c len index wire = Ok (out, plain)
  | RtcpPacket wire len out plain, UseRtcp x index =>
    be_u32 (E:=()) wire 4 = Ok x ∧ cipher_unprotect_rtcp c len wire = Ok (out, index, plain)
  | _, _ => False
  end.

(** ** The invariant *)

Context `{!SrtpCipherLaws C}.

Record slot_ok (s : SsrcIn) : Prop := {
  slot_pinned : pinned s = true → live s = true;
  slot_roc : RocIndex.wf (roc s);
  slot_rtp : ∃ hist, Replay.Rep (rtp_replay s) hist;
  slot_rtcp : ∃ hist, Replay.Rep (rtcp_replay s) hist;
}.

Record Inv (o : SrtpInbound) : Prop := {
  inv_cipher : cipher_wf (cipher o);
  inv_len : length (slots o) = INBOUND_SSRC_SLOTS;
  inv_slots : ∀ i s, slots o !! i = Some s → slot_ok s;
  inv_distinct : ∀ i j s t, slots o !! i = Some s → slots o !! j = Some t →
    live s = true → live t = true → ssrc s = ssrc t → i = j;
  inv_pinned : (pinned_count o ≤ INBOUND_PINNED_MAX)%nat;
}.

Lemma slot_ok_fresh x t b : slot_ok (set_pinned b (fresh x t)).
Proof. split; cbn; try done; exists []; apply Replay.Rep_new. Qed.

Lemma inbound_inv_initial c : cipher_wf c → Inv (from_cipher c).
Proof.
  intros Hc. split; cbn -[replicate]; try done.
  - intros i s [-> _]%lookup_replicate. split; cbn; try done; exists []; apply Replay.Rep_new.
  - intros i j s t [-> _]%lookup_replicate. done.
  - vm_compute. lia.
Qed.

Lemma distinct_live_true l :
  (∀ i j s t, l !! i = Some s → l !! j = Some t → live s = true → live t = true →
     ssrc s = ssrc t → i = j) → distinct_live l = true.
Proof.
  induction l as [|a l IH]; intros H1; [done|]. cbn. apply andb_true_intro. split.
  - destruct (live a) eqn:La; [|done]. apply forallb_forall. intros b Hb%list_elem_of_In.
    apply list_elem_of_lookup in Hb as [j Hj]. unfold is_slot_of.
    destruct (live b) eqn:Lb; [|done]. cbn. destruct (Z.eqb_spec (ssrc b) (ssrc a)) as [Heq|]; [|done].
    by specialize (H1 0%nat (S j) a b eq_refl Hj La Lb (eq_sym Heq)).
  - apply IH. intros i j s t Hs Ht Ls Lt Heq.
    by injection (H1 (S i) (S j) s t Hs Ht Ls Lt Heq).
Qed.

Lemma inv_debug_check o : Inv o → debug_check o = true.
Proof.
  intros HI. unfold debug_check. rewrite distinct_live_true by apply HI.
  apply forallb_forall. intros s [i Hi]%list_elem_of_In%list_elem_of_lookup.
  destruct (pinned s) eqn:Hp; [|by rewrite orb_true_r].
  by rewrite (slot_pinned _ (inv_slots _ HI _ _ Hi) Hp).
Qed.

(** Replaces the state of one slot by that of a live SSRC no other slot has. *)
Lemma inbound_inv_update o i s s' : Inv o → slots o !! i = Some s → slot_ok s' → live s' = true →
  (pinned s' = true → pinned s = false → (pinned_count o < INBOUND_PINNED_MAX)%nat) →
  (∀ j t, j ≠ i → slots o !! j = Some t → live t = true → ssrc t ≠ ssrc s') →
  Inv (set_slots (<[i := s']> (slots o)) o).
Proof.
  intros HI Hs Hok Ll Hp Hd. split; cbn.
  - apply HI.
  - rewrite length_insert. apply HI.
  - intros j t [[<- [<- _]]|[? Ht]]%list_lookup_insert_Some; [done|by eapply (inv_slots _ HI)].
  - intros j k a b [[<- [<- _]]|[? Ha]]%list_lookup_insert_Some
      [[<- [<- _]]|[? Hb]]%list_lookup_insert_Some La Lb Hab; try done.
    + by destruct (Hd k b).
    + by destruct (Hd j a).
    + by eapply (inv_distinct _ HI).
  - pose proof (inv_pinned _ HI). unfold pinned_count in *. cbn.
    pose proof (count_insert (fun s => live s && pinned s) (slots o) i s s' Hs) as Hc.
    pose proof (slot_pinned _ (inv_slots _ HI _ _ Hs)).
    cbn in Hc. rewrite Ll in Hc. destruct (pinned s'), (pinned s), (live s); cbn in *; naive_solver lia.
Qed.

(** ** Slot selection *)

Definition absent (x : Z) (l : list SsrcIn) : Prop :=
  ∀ j t, l !! j = Some t → live t = true → ssrc t ≠ x.

Lemma absent_snoc x l t : absent x l → (live t = true → ssrc t ≠ x) → absent x (l ++ [t]).
Proof.
  intros Ha Ht j u [Hj|[? Hj]]%lookup_app_Some; [by apply (Ha j)|].
  apply list_lookup_singleton_Some in Hj as [_ <-]. done.
Qed.

Lemma slot_for_from_spec x now l : ∀ pre free idlest i, absent x pre →
  (∀ f, free = Some f → ∃ s, pre !! f = Some s ∧ live s = false) →
  (∀ j n, idlest = Some (j, n) → ∃ s, pre !! j = Some s ∧ live s = true ∧ pinned s = false) →
  slot_for_from x now (length pre) free idlest l = Some i →
  ∃ s, (pre ++ l) !! i = Some s ∧
    (is_slot_of x s = true ∨
     is_slot_of x s = false ∧ absent x (pre ++ l) ∧ (live s = true → pinned s = false)).
Proof.
  induction l as [|t l IH]; intros pre free idlest i Ha Hf Hi Hres; cbn [slot_for_from] in Hres.
  - rewrite app_nil_r. assert (∃ s, pre !! i = Some s ∧ (live s = true → pinned s = false))
      as (s & Hs & Hps).
    { destruct free as [f|]; [simplify_eq|destruct idlest as [[j n]|]; [|done]].
      - destruct (Hf i eq_refl) as (s & Hs & Hl). exists s. split; [done|]. congruence.
      - destruct (_ >? _); [|done]. simplify_eq. destruct (Hi i n eq_refl) as (s & Hs & _ & Hp).
        eauto. }
    exists s. split; [done|]. right. split; [|done]. unfold is_slot_of.
    destruct (live s) eqn:Hl; [|done]. cbn. apply Z.eqb_neq. by apply (Ha i s).
  - replace (pre ++ t :: l) with ((pre ++ [t]) ++ l) by (by rewrite <- app_assoc).
    replace (S (length pre)) with (length (pre ++ [t])) in Hres by (rewrite length_app; cbn; lia).
    assert (Ht : (pre ++ [t]) !! length pre = Some t) by (by apply list_lookup_middle).
    assert (Hf' : ∀ f, free = Some f → ∃ s, (pre ++ [t]) !! f = Some s ∧ live s = false).
    { intros f Hf1. destruct (Hf f Hf1) as (s & Hs & ?). exists s. split; [|done].
      by apply lookup_app_l_Some. }
    assert (Hi' : ∀ j n, idlest = Some (j, n) →
              ∃ s, (pre ++ [t]) !! j = Some s ∧ live s = true ∧ pinned s = false).
    { intros j n Hj. destruct (Hi j n Hj) as (s & Hs & ?). exists s. split; [|done].
      by apply lookup_app_l_Some. }
    destruct (live t) eqn:Lt; cbn [negb] in Hres.
    + destruct (Z.eqb_spec (ssrc t) x) as [Hx|Hx].
      { simplify_eq. exists t. split; [by apply lookup_app_l_Some|]. left.
        unfold is_slot_of. by rewrite Lt, Z.eqb_refl. }
      destruct (pinned t) eqn:Pt.
      * by eapply IH; [apply absent_snoc|..].
      * eapply IH; [by apply absent_snoc|exact Hf'| |exact Hres].
        intros j n Hj. destruct idlest as [[k m]|]; [destruct (_ >? _)|]; naive_solver.
    + eapply IH; [apply absent_snoc; [done|congruence]| |exact Hi'|exact Hres].
      intros f Hf1. destruct free as [g|]; naive_solver.
Qed.

Lemma slot_for_spec o x now i : slot_for o x now = Some i →
  ∃ s, slots o !! i = Some s ∧
    (is_slot_of x s = true ∨
     is_slot_of x s = false ∧ absent x (slots o) ∧ (live s = true → pinned s = false)).
Proof.
  intros H1. apply (slot_for_from_spec x now (slots o) [] None None i); try done.
Qed.

(** ** Delivery and rejection of packets *)

(** The slot's windows have seen every index delivered in [log]. *)
Definition tracked (s : SsrcIn) (log : list use) : Prop :=
  (∃ h, Replay.Rep (rtp_replay s) h ∧ ∀ k, UseRtp (ssrc s) k ∈ log → k ∈ h) ∧
  (∃ h, Replay.Rep (rtcp_replay s) h ∧ ∀ k, UseRtcp (ssrc s) k ∈ log → k ∈ h).

(** Equal but for the statistics of the replay windows. *)
Definition same_slot (s s' : SsrcIn) : Prop :=
  ssrc s' = ssrc s ∧ live s' = live s ∧ pinned s' = pinned s ∧ roc s' = roc s ∧
  last_seen_s s' = last_seen_s s ∧
  Replay.same_window (rtp_replay s) (rtp_replay s') ∧
  Replay.same_window (rtcp_replay s) (rtcp_replay s').

Definition unchanged (o o' : SrtpInbound) : Prop :=
  o' = o ∨ ∃ i s s', slots o !! i = Some s ∧ live s = true ∧ same_slot s s' ∧
    o' = set_slots (<[i := s']> (slots o)) o.

(** [o'] is [o] after the delivery of [u]: its SSRC's slot had not seen it, or
    the SSRC took over a slot that was free or unpinned. *)
Definition delivers (o : SrtpInbound) (u : use) (o' : SrtpInbound) : Prop :=
  ∃ i s s', slots o !! i = Some s ∧ o' = set_slots (<[i := s']> (slots o)) o ∧
    ssrc s' = use_ssrc u ∧ live s' = true ∧ slot_ok s' ∧
    ((is_slot_of (use_ssrc u) s = true ∧ pinned s' = pinned s ∧
      (∀ log, tracked s log → u ∉ log ∧ tracked s' (u :: log))) ∨
     (absent (use_ssrc u) (slots o) ∧ (live s = true → pinned s = false) ∧ pinned s' = false)).

Lemma same_slot_refl s : same_slot s s.
Proof. by repeat split. Qed.

Lemma same_slot_ok s s' : slot_ok s → same_slot s s' → slot_ok s'.
Proof.
  intros [Hp Hr [h1 H1] [h2 H2]] (_ & Hl & Hpin & Hroc & _ & Hw1 & Hw2).
  split; [by rewrite Hpin, Hl|by rewrite Hroc|exists h1|exists h2]; by eapply Replay.Rep_same_window.
Qed.

Lemma same_slot_tracked s s' log : same_slot s s' → tracked s log → tracked s' log.
Proof.
  intros (Hx & _ & _ & _ & _ & Hw1 & Hw2) [(h1 & H1 & ?) (h2 & H2 & ?)]. unfold tracked. rewrite Hx.
  split; [exists h1|exists h2]; (split; [by eapply Replay.Rep_same_window|done]).
Qed.

Lemma slot_ok_tracked s : slot_ok s → tracked s [].
Proof.
  intros [_ _ [h1 ?] [h2 ?]]. split; [exists h1|exists h2]; (split; [done|]); intros k Hk;
    by apply not_elem_of_nil in Hk.
Qed.

Lemma is_slot_of_spec x s : is_slot_of x s = true ↔ live s = true ∧ ssrc s = x.
Proof. unfold is_slot_of. rewrite andb_true_iff, Z.eqb_eq. done. Qed.

Lemma inv_unchanged o o' : Inv o → unchanged o o' → Inv o'.
Proof.
  intros HI [->|(i & s & s' & Hs & Ls & Hss & ->)]; [done|].
  destruct (Hss) as (Hx & Hl & Hp & _). apply inbound_inv_update with s; try done.
  - by eapply same_slot_ok; [eapply (inv_slots _ HI)|].
  - by rewrite Hl.
  - rewrite Hp. congruence.
  - intros j t Hj Ht Lt. rewrite Hx. intros Heq. apply Hj. by eapply (inv_distinct _ HI).
Qed.

Lemma inv_delivers o u o' : Inv o → delivers o u o' → Inv o'.
Proof.
  intros HI (i & s & s' & Hs & -> & Hx & Hl & Hok & Hcase). apply inbound_inv_update with s; try done.
  - destruct Hcase as [(_ & -> & _)|(_ & _ & ->)]; congruence.
  - intros j t Hj Ht Lt Heq. rewrite Hx in Heq.
    destruct Hcase as [([Ls Hsx]%is_slot_of_spec & _)|(Ha & _)].
    + apply Hj. eapply (inv_distinct _ HI); try done. congruence.
    + by destruct (Ha j t).
Qed.

(** The bookkeeping after authentication. *)
Lemma accept_rtp_spec (known : bool) x now index seq s h st' :
  Replay.Rep (rtp_replay (if known then s else fresh x now)) h → 0 ≤ index →
  RocIndex.update (roc (if known then s else fresh x now)) seq = Ok st' →
  ∃ r, (∀ h, Replay.Rep (rtp_replay (if known then s else fresh x now)) h → Replay.Rep r (index :: h)) ∧
    accept_rtp known x now index seq s =
      Ok ((), set_last_seen_s now (set_roc st' (set_rtp_replay r (if known then s else fresh x now)))).
Proof.
  intros Hrep Hi Hup. destruct (Replay.accept_spec _ _ index Hrep Hi) as (r & Hacc & Hr & _).
  exists r. split; [by intros; eapply Replay.accept_Rep|]. unfold accept_rtp. destruct known; run_st; rewrite Hacc, Hup; done.
Qed.

Lemma accept_rtcp_spec (known : bool) x now index s h :
  Replay.Rep (rtcp_replay (if known then s else fresh x now)) h → 0 ≤ index →
  ∃ r, (∀ h, Replay.Rep (rtcp_replay (if known then s else fresh x now)) h → Replay.Rep r (index :: h)) ∧
    accept_rtcp known x now index s =
      Ok ((), set_last_seen_s now (set_rtcp_replay r (if known then s else fresh x now))).
Proof.
  intros Hrep Hi. destruct (Replay.accept_spec _ _ index Hrep Hi) as (r & Hacc & Hr & _).
  exists r. split; [by intros; eapply Replay.accept_Rep|]. unfold accept_rtcp. destruct known; run_st; rewrite Hacc; done.
Qed.

(** What a packet operation does: the packet it delivers was authenticated
    under some use, and the context is the one after the delivery of that. *)
Definition rtp_result (o : SrtpInbound) (mk : nat → list Z → packet)
    (r : outcome (() * (SrtpInbound * list Z)) (nat * (SrtpInbound * list Z))) : Prop :=
  match r with
  | Ok (n, (o', plain)) => ∃ u, authentic_under (cipher o) (mk n plain) u ∧ delivers o u o'
  | Err (_, (o', _)) => unchanged o o'
  | Panic => False
  end.

(** The replay check of a known SSRC counts, and refuses what was seen. *)
Lemma check_rtp_replay_spec s index h : Replay.Rep (rtp_replay s) h →
  ∃ r, Replay.same_window (rtp_replay s) r ∧
    ((check_rtp_replay index s = Ok ((), set_rtp_replay r s) ∧
      ∀ h, Replay.Rep (rtp_replay s) h → index ∉ h) ∨
     (∃ e, check_rtp_replay index s = Err (e, set_rtp_replay r s))).
Proof.
  intros Hrep. destruct (Replay.check_spec _ _ index Hrep) as (r & _ & _ & Hc).
  pose proof (Replay.check_same_window (rtp_replay s) index) as Hw.
  exists r. unfold check_rtp_replay, zoom. destruct Hc as [[Hf Hc]|[Hf Hc]]; rewrite Hc in Hw |- *;
    (split; [done|]); [left|right; by eexists].
  split; [done|]. intros. by eapply Replay.check_not_seen.
Qed.

Lemma check_rtcp_replay_spec s index h : Replay.Rep (rtcp_replay s) h →
  ∃ r, Replay.same_window (rtcp_replay s) r ∧
    ((check_rtcp_replay index s = Ok ((), set_rtcp_replay r s) ∧
      ∀ h, Replay.Rep (rtcp_replay s) h → index ∉ h) ∨
     (∃ e, check_rtcp_replay index s = Err (e, set_rtcp_replay r s))).
Proof.
  intros Hrep. destruct (Replay.check_spec _ _ index Hrep) as (r & _ & _ & Hc).
  pose proof (Replay.check_same_window (rtcp_replay s) index) as Hw.
  exists r. unfold check_rtcp_replay, zoom. destruct Hc as [[Hf Hc]|[Hf Hc]]; rewrite Hc in Hw |- *;
    (split; [done|]); [left|right; by eexists].
  split; [done|]. intros. by eapply Replay.check_not_seen.
Qed.

(** Authentication and bookkeeping of an RTP packet, in the state [s1] the
    replay check left of slot [i]. *)
Lemma deliver_rtp o i s s1 x (known : bool) now index seq st' :
  Inv o → slots o !! i = Some s → is_slot_of x s = known → same_slot s s1 →
  (known = false → absent x (slots o) ∧ (live s = true → pinned s = false)) →
  0 ≤ index → RocIndex.update (roc (if known then s else fresh x now)) seq = Ok st' →
  RocIndex.wf st' →
  (known = true → ∀ h, Replay.Rep (rtp_replay s) h → index ∉ h) →
  ∃ s2, accept_rtp known x now index seq s1 = Ok ((), s2) ∧
    delivers o (UseRtp x index) (set_slots (<[i := s2]> (slots o)) o).
Proof.
  intros HI Hs Hk Hsame Habs Hidx Hup Hwf Hnew.
  assert (Hok : slot_ok s1) by (by eapply same_slot_ok; [eapply (inv_slots _ HI)|]).
  assert (Hok' : slot_ok (if known then s1 else fresh x now)).
  { destruct known; [done|]. apply (slot_ok_fresh x now false). }
  destruct (slot_rtp _ Hok') as [h Hrep].
  pose proof Hsame as (Hx & Hl & Hp & Hroc & _ & Hw1 & Hw2).
  destruct (accept_rtp_spec known x now index seq s1 h st' Hrep Hidx) as (r & Hr & Hacc).
  { destruct known; [by rewrite Hroc|done]. }
  eexists. split; [exact Hacc|]. exists i, s. eexists. split; [done|]. split; [reflexivity|].
  cbn [use_ssrc]. destruct known.
  - apply is_slot_of_spec in Hk as [Ls <-]. cbn. rewrite Hx, Hl. split; [done|]. split; [done|].
    split; [|left; split; [by apply is_slot_of_spec|split; [done|]]].
    + destruct Hok. split; cbn; try done. exists (index :: h). by apply Hr.
    + intros log [(h1 & H1 & Hlog1) (h2 & H2 & Hlog2)]. split.
      { intros Hin%Hlog1. by destruct (Hnew eq_refl h1). }
      unfold tracked. cbn. rewrite Hx. split.
      * exists (index :: h1). split; [by apply Hr; eapply Replay.Rep_same_window|].
        intros k [[= ->]|Hin]%elem_of_cons; [set_solver|]. apply list_elem_of_further, Hlog1, Hin.
      * exists h2. split; [by eapply Replay.Rep_same_window|].
        intros k [|Hin]%elem_of_cons; [done|]. by apply Hlog2.
  - destruct (Habs eq_refl) as [Ha Hpin]. split; [done|]. split; [done|].
    split; [|by right]. destruct Hok'. split; cbn; try done. exists (index :: h). by apply Hr.
Qed.

Lemma deliver_rtcp o i s s1 x (known : bool) now index :
  Inv o → slots o !! i = Some s → is_slot_of x s = known → same_slot s s1 →
  (known = false → absent x (slots o) ∧ (live s = true → pinned s = false)) → 0 ≤ index →
  (known = true → ∀ h, Replay.Rep (rtcp_replay s) h → index ∉ h) →
  ∃ s2, accept_rtcp known x now index s1 = Ok ((), s2) ∧
    delivers o (UseRtcp x index) (set_slots (<[i := s2]> (slots o)) o).
Proof.
  intros HI Hs Hk Hsame Habs Hidx Hnew.
  assert (Hok : slot_ok s1) by (by eapply same_slot_ok; [eapply (inv_slots _ HI)|]).
  assert (Hok' : slot_ok (if known then s1 else fresh x now)).
  { destruct known; [done|]. apply (slot_ok_fresh x now false). }
  destruct (slot_rtcp _ Hok') as [h Hrep].
  pose proof Hsame as (Hx & Hl & Hp & Hroc & _ & Hw1 & Hw2).
  destruct (accept_rtcp_spec known x now index s1 h Hrep Hidx) as (r & Hr & Hacc).
  eexists. split; [exact Hacc|]. exists i, s. eexists. split; [done|]. split; [reflexivity|].
  cbn [use_ssrc]. destruct known.
  - apply is_slot_of_spec in Hk as [Ls <-]. cbn. rewrite Hx, Hl. split; [done|]. split; [done|].
    split; [|left; split; [by apply is_slot_of_spec|split; [done|]]].
    + destruct Hok. split; cbn; try done. exists (index :: h). by apply Hr.
    + intros log [(h1 & H1 & Hlog1) (h2 & H2 & Hlog2)]. split.
      { intros Hin%Hlog2. by destruct (Hnew eq_refl h2). }
      unfold tracked. cbn. rewrite Hx. split.
      * exists h1. split; [by eapply Replay.Rep_same_window|].
        intros k [|Hin]%elem_of_cons; [done|]. by apply Hlog1.
      * exists (index :: h2). split; [by apply Hr; eapply Replay.Rep_same_window|].
        intros k [[= ->]|Hin]%elem_of_cons; [set_solver|]. apply list_elem_of_further, Hlog2, Hin.
  - destruct (Habs eq_refl) as [Ha Hpin]. split; [done|]. split; [done|].
    split; [|by right]. destruct Hok'. split; cbn; try done. exists (index :: h). by apply Hr.
Qed.

Lemma set_slots_twice l l' o : set_slots l (set_slots l' o) = set_slots l o.
Proof. done. Qed.

(** The part of [unprotect_rtp] after the replay check. *)
Lemma rtp_tail o i s s1 x (known : bool) now index seq st' len buf :
  Inv o → slots o !! i = Some s → is_slot_of x s = known → same_slot s s1 →
  (known = false → absent x (slots o) ∧ (live s = true → pinned s = false)) →
  (known = true → ∀ h, Replay.Rep (rtp_replay s) h → index ∉ h) →
  0 ≤ index < 2 ^ 48 → RocIndex.update (roc (if known then s else fresh x now)) seq = Ok st' →
  RocIndex.wf st' → be_u32 (E:=()) buf 8 = Ok x → (12 ≤ len ≤ length buf)%nat →
  (known = false → s1 = s) →
  rtp_result o (RtpPacket buf len)
    ((out ← on_buf (quiet (cipher_unprotect_rtp (cipher o) len index));
      on_slot i (accept_rtp known x now index seq);;
      '(self, _) ← get;
      lift (assert_ (bool_decide (out < len ∧ RTP_HEADER_SIZE ≤ out)%nat));;
      lift (assert_ (debug_check self));;
      mret out) (set_slots (<[i := s1]> (slots o)) o, buf)).
Proof.
  intros HI Hs Hk Hsame Habs Hnew Hidx Hup Hwf Hx Hlen Hs1.
  destruct (deliver_rtp o i s s1 x known now index seq st') as (s2 & Hacc & Hdel); try done; [lia|].
  run_st. unfold on_buf, zoom at 1, quiet. cbn [fst snd].
  pose proof (unprotect_rtp_law (cipher o) len index buf (inv_cipher _ HI) Hlen) as Hlaw.
  destruct (cipher_unprotect_rtp _ _ _ _) as [[n buf']|[e buf']|] eqn:Hcall; [| |done].
  - unfold on_slot, zoom, at_slot. cbn [fst snd slots set_slots].
    rewrite list_lookup_insert_eq by (by eapply lookup_lt_Some). rewrite Hacc.
    cbn [fst snd]. rewrite set_slots_twice, list_insert_insert_eq.
    rewrite bool_decide_eq_true_2 by (unfold RTP_HEADER_SIZE; lia).
    pose proof (inv_delivers _ _ _ HI Hdel) as HI'.
    rewrite (inv_debug_check _ HI'). by exists (UseRtp x index).
  - unfold rtp_result. destruct known.
    + right. exists i, s, s1. apply is_slot_of_spec in Hk as [? ?]. done.
    + left. rewrite Hs1 by done. rewrite list_insert_id by done. by destruct o.
Qed.

Lemma unprotect_rtp_result o buf len now : Inv o → bytes buf →
  rtp_result o (RtpPacket buf len) (unprotect_rtp len now (o, buf)).
Proof.
  intros HI Hb. unfold unprotect_rtp. unfold mbind, st_bind at 1, get at 1.
  case_bool_decide as Hlen; [by left|].
  unfold RTP_HEADER_SIZE in Hlen. unfold be_u32. rewrite !read_be_ok by lia.
  unfold st_bind at 1, lift at 1. unfold st_bind at 1, lift at 1.
  set (seq := of_be (sub_list 2 _ buf)). set (x := of_be (sub_list 8 _ buf)).
  assert (Hx : be_u32 (E:=()) buf 8 = Ok x) by (apply read_be_ok; lia).
  assert (Hseq : is_u16 seq).
  { unfold seq. pose proof (of_be_range (sub_list 2 4 buf) ltac:(auto with nexus)) as Hr.
    rewrite length_sub_list in Hr by lia. exact Hr. }
  unfold st_bind at 1, lift at 1.
  destruct (slot_for o x now) as [i|] eqn:Hslot; cbn [of_option]; [|by left].
  destruct (slot_for_spec _ _ _ _ Hslot) as (s & Hs & Hcase).
  unfold st_bind at 1, lift at 1. unfold idx. rewrite Hs. cbn [expect].
  pose proof (inv_slots _ HI _ _ Hs) as Hok. unfold st_bind at 1.
  destruct Hcase as [Hk|(Hk & Ha & Hp)]; rewrite Hk.
  - unfold st_bind at 1, lift at 1.
    destruct (RocIndex.estimate_index (roc s) seq) as [index|e|] eqn:Hest; cbn [map_err]; [|by left|].
    2: { by destruct (RocIndex.estimate_no_panic (roc s) seq). }
    destruct (RocIndex.estimate_ok _ _ _ (slot_roc _ Hok) Hseq Hest) as (Hidx & st' & Hup & Hwf).
    destruct (slot_rtp _ Hok) as [h Hrep].
    destruct (check_rtp_replay_spec s index h Hrep) as (r & Hw & Hc).
    assert (Hsame : same_slot s (set_rtp_replay r s)) by (by repeat split; try apply Hw).
    unfold on_slot at 1, zoom at 1, at_slot at 1, quiet at 1, st_bind at 1. cbn [fst snd]. rewrite Hs.
    destruct Hc as [[Hc Hnew]|[e Hc]]; rewrite Hc.
    + unfold mret, st_ret. eapply rtp_tail; try done; lia.
    + right. exists i, s, (set_rtp_replay r s). apply is_slot_of_spec in Hk as [? ?]. done.
  - unfold mret, st_ret at 1.
    pose proof (rtp_tail o i s s x false now (PacketIndex.new 0 seq) seq (RocIndex.mkRoc 0 seq true)
      len buf HI Hs Hk (same_slot_refl s) ltac:(auto) ltac:(done)) as Ht.
    rewrite list_insert_id in Ht by done. replace (set_slots (slots o) o) with o in Ht by (by destruct o).
    apply Ht; try done; try lia. rewrite PacketIndex.new_add; try done. unfold in_range in *. lia.
Qed.

(** The part of [unprotect_rtcp] after the replay check. *)
Lemma rtcp_tail o i s s1 x (known : bool) now index len buf at_ e :
  Inv o → slots o !! i = Some s → is_slot_of x s = known → same_slot s s1 →
  (known = false → absent x (slots o) ∧ (live s = true → pinned s = false)) →
  (known = true → ∀ h, Replay.Rep (rtcp_replay s) h → index ∉ h) →
  be_u32 (E:=()) buf 4 = Ok x → (8 ≤ len ≤ length buf)%nat →
  srtcp_trailer_offset (cipher o) len = Some at_ → read_be (E:=()) 4 at_ buf = Ok e →
  index = Z.land e SRTCP_INDEX_MASK → 0 ≤ e →
  (known = false → s1 = s) →
  rtp_result o (RtcpPacket buf len)
    (('(out, authenticated_index) ← on_buf (quiet (cipher_unprotect_rtcp (cipher o) len));
      lift (assert_ (authenticated_index =? index));;
      on_slot i (accept_rtcp known x now index);;
      '(self, _) ← get;
      lift (assert_ (bool_decide (RTCP_HEADER_SIZE ≤ out ∧ out < len)%nat));;
      lift (assert_ (debug_check self));;
      mret out) (set_slots (<[i := s1]> (slots o)) o, buf)).
Proof.
  intros HI Hs Hk Hsame Habs Hnew Hx Hlen Hat He Hindex Hpos Hs1.
  assert (Hidx : 0 ≤ index) by (rewrite Hindex; apply Z.land_nonneg; auto).
  destruct (deliver_rtcp o i s s1 x known now index) as (s2 & Hacc & Hdel); try done.
  run_st. unfold on_buf, zoom at 1, quiet. cbn [fst snd].
  pose proof (unprotect_rtcp_law (cipher o) len buf (inv_cipher _ HI) Hlen) as Hlaw.
  destruct (cipher_unprotect_rtcp _ _ _) as [[[n k] buf']|[er buf']|] eqn:Hcall; [| |done].
  - destruct Hlaw as (Hn & _ & at' & Hat' & Hle & Hk').
    assert (k = index) as ->.
    { unfold srtcp_trailer_offset in Hat. assert (at_ = len - at')%nat as ->.
      { destruct (is_aead (cipher o)); simplify_eq/=; repeat case_bool_decide; naive_solver lia. }
      rewrite He in Hk'. cbn in Hk'. by simplify_eq. }
    rewrite Z.eqb_refl.
    unfold on_slot, zoom, at_slot. cbn [fst snd slots set_slots].
    rewrite list_lookup_insert_eq by (by eapply lookup_lt_Some). rewrite Hacc.
    cbn [fst snd]. rewrite set_slots_twice, list_insert_insert_eq.
    rewrite bool_decide_eq_true_2 by (unfold RTCP_HEADER_SIZE; lia).
    pose proof (inv_delivers _ _ _ HI Hdel) as HI'.
    rewrite (inv_debug_check _ HI'). by exists (UseRtcp x index).
  - unfold rtp_result. destruct known.
    + right. exists i, s, s1. apply is_slot_of_spec in Hk as [? ?]. done.
    + left. rewrite Hs1 by done. rewrite list_insert_id by done. by destruct o.
Qed.

Lemma unprotect_rtcp_result o buf len now : Inv o → bytes buf →
  rtp_result o (RtcpPacket buf len) (unprotect_rtcp len now (o, buf)).
Proof.
  intros HI Hb. unfold unprotect_rtcp. unfold mbind, st_bind at 1, get at 1.
  case_bool_decide as Hlen; [by left|].
  unfold RTCP_HEADER_SIZE in Hlen. unfold st_bind at 1, lift at 1.
  destruct (srtcp_trailer_offset (cipher o) len) as [at_|] eqn:Hat; cbn [of_option]; [|by left].
  assert (Hat4 : (at_ + 4 ≤ len)%nat).
  { unfold srtcp_trailer_offset in Hat. repeat case_bool_decide; simplify_eq.
    destruct (is_aead (cipher o)); lia. }
  unfold be_u32.
  unfold st_bind at 1, lift at 1. rewrite !read_be_ok by lia.
  set (e := of_be (sub_list at_ _ buf)). set (x := of_be (sub_list 4 _ buf)).
  assert (Hpos : 0 ≤ e) by (apply of_be_range; auto with nexus).
  assert (Hx : be_u32 (E:=()) buf 4 = Ok x) by (apply read_be_ok; lia).
  destruct (Z.land e SRTCP_E_FLAG =? 0); [by left|].
  unfold st_bind at 1, lift at 1. unfold st_bind at 1, lift at 1.
  destruct (slot_for o x now) as [i|] eqn:Hslot; cbn [of_option]; [|by left].
  destruct (slot_for_spec _ _ _ _ Hslot) as (s & Hs & Hcase).
  unfold st_bind at 1, lift at 1. unfold idx. rewrite Hs. cbn [expect].
  pose proof (inv_slots _ HI _ _ Hs) as Hok. unfold st_bind at 1.
  assert (Hread : read_be (E:=()) 4 at_ buf = Ok e) by (apply read_be_ok; lia).
  set (index := Z.land e SRTCP_INDEX_MASK).
  destruct Hcase as [Hk|(Hk & Ha & Hp)]; rewrite Hk.
  - destruct (slot_rtcp _ Hok) as [h Hrep].
    destruct (check_rtcp_replay_spec s index h Hrep) as (r & Hw & Hc).
    assert (Hsame : same_slot s (set_rtcp_replay r s)) by (by repeat split; try apply Hw).
    unfold on_slot at 1, zoom at 1, at_slot at 1, quiet at 1. cbn [fst snd]. rewrite Hs.
    destruct Hc as [[Hc Hnew]|[er Hc]]; rewrite Hc.
    + eapply rtcp_tail; try done; lia.
    + right. exists i, s, (set_rtcp_replay r s). apply is_slot_of_spec in Hk as [? ?]. done.
  - unfold mret, st_ret at 1.
    pose proof (rtcp_tail o i s s x false now index len buf at_ e
      HI Hs Hk (same_slot_refl s) ltac:(auto) ltac:(done)) as Ht.
    rewrite list_insert_id in Ht by done. replace (set_slots (slots o) o) with o in Ht by (by destruct o).
    apply Ht; try done; try lia.
Qed.

(** ** The control operations *)

Lemma at_slot_frame (i : nat) (m : SsrcIn → SsrcIn) o :
  wlp (zoom slots set_slots (at_slot i (modify m)) : st SrtpInbound SrtpError ()) o
    (fun _ o' => ∃ s, slots o !! i = Some s ∧ o' = set_slots (<[i := m s]> (slots o)) o) (fun _ _ => False).
Proof. unfold run_to, zoom, at_slot. destruct (slots o !! i) as [s|] eqn:Hs; cbn; eauto. Qed.

Lemma pin_keeps_cipher x o :
  wlp (pin x) o (fun _ o' => cipher o' = cipher o) (fun _ _ => True).
Proof.
  unfold pin. wp. apply wlp_lift; [intros already Ha|done].
  destruct already; wp; [done|]. case_bool_decide; wp; [done|].
  apply (wp_mono _ _ (fun _ o1 => cipher o1 = cipher o)).
  - destruct (position _ _) as [i|]; wp; [done|]. destruct (slot_to_replace o) as [i|]; wp; [|done].
    eapply wp_conseq; [apply (at_slot_frame i (fun _ => fresh x 0))| |done].
    intros _ o1 (s & Hs & ->). by wp.
  - intros i o1 <-. wp. eapply wp_conseq; [apply at_slot_frame| |done].
    intros _ o2 (t & Ht & ->). wp. by do 2 (apply wlp_assert; intros _; wp).
Qed.

Definition is_pinned (x : Z) (o : SrtpInbound) : bool :=
  existsb (fun s => is_slot_of x s && pinned s) (slots o).

(** [x] is pinned and its windows have seen what was delivered of it. *)
Definition tracks (x : Z) (log : list use) (o : SrtpInbound) : Prop :=
  ∃ i s, slots o !! i = Some s ∧ is_slot_of x s = true ∧ pinned s = true ∧ tracked s log.

Lemma is_pinned_tracks x o : Inv o → is_pinned x o = true ↔ tracks x [] o.
Proof.
  intros HI. unfold is_pinned. rewrite existsb_exists. split.
  - intros (s & [i Hi]%list_elem_of_In%list_elem_of_lookup & Hp). simplify_tests.
    exists i, s. repeat split; try done; eapply slot_ok_tracked, (inv_slots _ HI _ _ Hi).
  - intros (i & s & Hs & Hx & Hp & _). exists s.
    split; [by eapply list_elem_of_In, list_elem_of_lookup_2|]. by rewrite Hx, Hp.
Qed.

Lemma slot_to_replace_spec o i : slot_to_replace o = Some i → Inv o →
  ∃ s, slots o !! i = Some s ∧ pinned s = false.
Proof.
  intros Hr HI. unfold slot_to_replace in Hr.
  destruct (position _ _) as [j|] eqn:Hpos; simplify_eq.
  - apply position_Some in Hpos as [(s & Hs & Hd) _]. simplify_tests. exists s. split; [done|].
    pose proof (slot_pinned _ (inv_slots _ HI _ _ Hs)). destruct (pinned s); naive_solver.
  - clear HI Hpos. apply fmap_Some in Hr as ([j t] & Hr & ->). cbn.
    assert (Hgen : ∀ l pre best, (∀ k u, best = Some (k, u) →
                ∃ s, pre !! k = Some s ∧ pinned s = false) →
              oldest_unpinned (length pre) best l = Some (j, t) →
              ∃ s, (pre ++ l) !! j = Some s ∧ pinned s = false).
    { induction l as [|a l IH]; intros pre best Hb Hres.
      { rewrite app_nil_r. by eapply Hb. }
      replace (pre ++ a :: l) with ((pre ++ [a]) ++ l) by (by rewrite <- app_assoc).
      cbn [oldest_unpinned] in Hres.
      replace (S (length pre)) with (length (pre ++ [a])) in Hres by (rewrite length_app; cbn; lia).
      eapply IH; [|exact Hres]. intros k u Hk.
      assert (best = Some (k, u) ∨ (k = length pre ∧ pinned a = false)) as [Hold|[-> ?]].
      { repeat case_match; simplify_eq; auto. }
      - destruct (Hb _ _ Hold) as (s & Hs & ?). exists s. split; [by apply lookup_app_l_Some|done].
      - exists a. split; [by apply list_lookup_middle|done]. }
    by apply (Hgen (slots o) [] None).
Qed.

(** Operations that keep the pinned slots keep what they track. *)
Lemma tracks_insert x log o i s s' : tracks x log o → slots o !! i = Some s → Inv o →
  (pinned s = true → is_slot_of x s = true →
   is_slot_of x s' = true ∧ pinned s' = true ∧ (tracked s log → tracked s' log)) →
  tracks x log (set_slots (<[i := s']> (slots o)) o).
Proof.
  intros (j & t & Ht & Hx & Hp & Htr) Hs HI Hkeep. destruct (decide (i = j)) as [<-|Hij].
  - simplify_eq. destruct (Hkeep Hp Hx) as (? & ? & ?). exists i, s'. cbn.
    rewrite list_lookup_insert_eq by (by eapply lookup_lt_Some). auto.
  - exists j, t. cbn. rewrite list_lookup_insert_ne by done. auto.
Qed.

Lemma tracks_nil x log o : Inv o → tracks x log o → tracks x [] o.
Proof.
  intros HI (i & s & Hs & ? & ? & _). exists i, s. repeat split; try done;
    eapply slot_ok_tracked, (inv_slots _ HI _ _ Hs).
Qed.

Lemma absent_position x l : position (is_slot_of x) l = None → absent x l.
Proof.
  rewrite position_None. intros Hn j t Ht Lt Hx. specialize (Hn j t Ht).
  assert (is_slot_of x t = true) by (by apply is_slot_of_spec). congruence.
Qed.

(** Pinning the chosen slot in the state [s1] it was given. *)
Lemma pin_slot o x i s s1 : Inv o → slots o !! i = Some s → slot_ok s1 → live s1 = true →
  ssrc s1 = x → pinned s = false → (pinned_count o < INBOUND_PINNED_MAX)%nat →
  (∀ j t, j ≠ i → slots o !! j = Some t → live t = true → ssrc t ≠ x) →
  ∃ o', zoom slots set_slots (at_slot i (modify (set_pinned true)))
          (set_slots (<[i := s1]> (slots o)) o) = Ok ((), o') (E:=SrtpError * _) ∧
    Inv o' ∧ tracks x [] o' ∧ (∀ y log, tracks y log o → tracks y log o').
Proof.
  intros HI Hs Hok Hl Hx Hp Hcnt Hd. assert (Hlt := lookup_lt_Some _ _ _ Hs).
  unfold zoom, at_slot. cbn [slots set_slots]. rewrite list_lookup_insert_eq by done.
  cbn [modify]. unfold modify. rewrite set_slots_twice, list_insert_insert_eq.
  assert (Hok' : slot_ok (set_pinned true s1)) by (destruct Hok; split; cbn; done).
  eexists. split; [reflexivity|]. split; [|split].
  - apply inbound_inv_update with s; try done. cbn. by rewrite Hx.
  - exists i, (set_pinned true s1). cbn. rewrite list_lookup_insert_eq by done.
    split; [done|]. split; [by apply is_slot_of_spec|]. split; [done|]. by apply slot_ok_tracked.
  - intros y log Ht. eapply tracks_insert; try done. congruence.
Qed.

(** A successful pin pins; a refused one changes nothing; neither touches what
    is tracked of the SSRCs pinned before. *)
Lemma pin_spec o x : Inv o →
  match pin x o with
  | Ok (_, o') => Inv o' ∧ tracks x [] o' ∧ (∀ y log, tracks y log o → tracks y log o')
  | Err (e, o') => o' = o ∧ e = SessionLimitReached
  | Panic => False
  end.
Proof.
  intros HI. unfold pin. unfold mbind, st_bind at 1, get at 1. unfold st_bind at 1.
  assert (Hfin : ∀ o', Inv o' → tracks x [] o' → (∀ y log, tracks y log o → tracks y log o') →
    match (self ← get; lift (assert_ (bool_decide (pinned_count self ≤ INBOUND_PINNED_MAX)%nat));;
           lift (E:=SrtpError) (assert_ (debug_check self))) o' with
    | Ok (_, o') => Inv o' ∧ tracks x [] o' ∧ (∀ y log, tracks y log o → tracks y log o')
    | Err (e, o') => o' = o ∧ e = SessionLimitReached
    | Panic => False
    end).
  { intros o' HI' Ht Hy. run_st. rewrite bool_decide_eq_true_2 by apply HI'.
    by rewrite (inv_debug_check _ HI'). }
  destruct (position (is_slot_of x) (slots o)) as [i|] eqn:Hpos.
  - apply position_Some in Hpos as [(s & Hs & Hx) _]. unfold idx, lift at 1. rewrite Hs. cbn [expect fmap outcome_fmap].
    destruct (pinned s) eqn:Hp.
    { cbn. split; [done|]. split; [|done]. exists i, s. repeat split; try done;
        eapply slot_ok_tracked, (inv_slots _ HI _ _ Hs). }
    case_bool_decide as Hcnt; [done|]. unfold st_bind at 1, mret at 1, st_ret at 1.
    apply is_slot_of_spec in Hx as [Ls Hx].
    destruct (pin_slot o x i s s) as (o' & Hz & HI' & Ht & Hy); try done; [by eapply (inv_slots _ HI)|lia| |].
    { intros j t Hj Ht Lt Heq. apply Hj. eapply (inv_distinct _ HI); try done. congruence. }
    rewrite list_insert_id in Hz by done. replace (set_slots (slots o) o) with o in Hz by (by destruct o).
    unfold st_bind at 1. rewrite Hz. by apply Hfin.
  - unfold lift at 1. case_bool_decide as Hcnt; [done|].
    unfold st_bind at 1. unfold st_bind at 1. unfold lift at 1.
    destruct (slot_to_replace o) as [i|] eqn:Hr; cbn [of_option]; [|done].
    destruct (slot_to_replace_spec _ _ Hr HI) as (s & Hs & Hp).
    unfold st_bind at 1. unfold zoom at 1, at_slot at 1. rewrite Hs. unfold put at 1.
    unfold mret at 1, st_ret at 1.
    destruct (pin_slot o x i s (fresh x 0)) as (o' & Hz & HI' & Ht & Hy); try done;
      [apply (slot_ok_fresh x 0 false)|lia| |].
    { intros j t Hj Ht. by apply (absent_position _ _ Hpos j t). }
    unfold st_bind at 1. rewrite Hz. by apply Hfin.
Qed.

Lemma unpin_spec o x : Inv o →
  Inv (unpin x o) ∧ (∀ y log, y ≠ x → tracks y log o → tracks y log (unpin x o)).
Proof.
  intros HI. unfold unpin. destruct (position _ _) as [i|] eqn:Hpos; [|done].
  apply position_Some in Hpos as [(s & Hs & [Ls Hx]%is_slot_of_spec) _].
  replace (alter (set_pinned false) i (slots o)) with (<[i := set_pinned false s]> (slots o)).
  2: { apply list_eq. intros j. rewrite list_lookup_alter. case_decide as Hij.
       - subst j. rewrite list_lookup_insert_eq by (by eapply lookup_lt_Some). by rewrite Hs.
       - by rewrite list_lookup_insert_ne. }
  pose proof (inv_slots _ HI _ _ Hs) as Hok. split.
  - apply inbound_inv_update with s; try done; [destruct Hok; by split|].
    intros j t Hj Ht Lt Heq. apply Hj. by eapply (inv_distinct _ HI).
  - intros y log Hy Ht. eapply tracks_insert; try done. intros _ [_ ?]%is_slot_of_spec. congruence.
Qed.

Lemma evict_spec o now idle : Inv o →
  Inv (evict_idle now idle o).2 ∧ (∀ y log, tracks y log o → tracks y log (evict_idle now idle o).2).
Proof.
  intros HI. cbn. set (f := fun s => if evictable now idle s then set_live false s else s).
  assert (Hf : ∀ s, ssrc (f s) = ssrc s ∧ pinned (f s) = pinned s ∧ roc (f s) = roc s ∧
                 rtp_replay (f s) = rtp_replay s ∧ rtcp_replay (f s) = rtcp_replay s ∧
                 (live (f s) = true → live s = true) ∧ (pinned s = true → f s = s)).
  { intros s. unfold f, evictable. destruct (live s) eqn:?, (pinned s) eqn:?, (_ >? _);
      cbn; repeat split; intros; congruence. }
  split; [split; cbn|].
  - apply HI.
  - rewrite length_fmap. apply HI.
  - intros i s (t & -> & Ht)%list_lookup_fmap_Some. destruct (inv_slots _ HI _ _ Ht).
    destruct (Hf t) as (_ & Hp & Hr & H1 & H2 & _ & Hsame). split; rewrite ?Hp, ?Hr, ?H1, ?H2; auto.
    intros Hpt. rewrite Hsame by done. auto.
  - intros i j s t (s' & -> & Hs)%list_lookup_fmap_Some (t' & -> & Ht)%list_lookup_fmap_Some Ls Lt.
    destruct (Hf s') as (-> & _ & _ & _ & _ & ? & _). destruct (Hf t') as (-> & _ & _ & _ & _ & ? & _).
    eapply (inv_distinct _ HI); eauto.
  - etrans; [|apply (inv_pinned _ HI)]. unfold pinned_count. cbn. induction (slots o) as [|s l IH]; [done|].
    rewrite fmap_cons, !count_cons. destruct (Hf s) as (_ & -> & _ & _ & _ & Hl & _).
    destruct (live (f s)); [rewrite Hl by done|]; destruct (pinned s), (live s); cbn; lia.
  - intros y log (i & s & Hs & Hy & Hp & Ht). exists i, s. cbn. rewrite list_lookup_fmap, Hs. cbn.
    destruct (Hf s) as (_ & _ & _ & _ & _ & _ & ->); done.
Qed.

(** ** Steps and runs *)

(** The deliveries of one SSRC. *)
Definition uses_of (x : Z) (us : list use) : list use := filter (fun u => use_ssrc u = x) us.

Lemma unchanged_tracks x log o o' : Inv o → unchanged o o' → tracks x log o → tracks x log o'.
Proof.
  intros HI [->|(i & s & s' & Hs & Ls & Hss & ->)] Ht; [done|].
  eapply tracks_insert; try done. intros Hp [_ Hx]%is_slot_of_spec.
  split; [|split; [by destruct Hss as (_ & _ & -> & _)|by apply same_slot_tracked]].
  apply is_slot_of_spec. destruct Hss as (-> & -> & _). done.
Qed.

Lemma delivers_tracks x log o u o' : Inv o → delivers o u o' → tracks x log o →
  (use_ssrc u = x → u ∉ log) ∧
  tracks x (if decide (use_ssrc u = x) then u :: log else log) o'.
Proof.
  intros HI (i & s & s' & Hs & -> & Hx & Hl & Hok & Hcase) (j & t & Ht & Hxt & Hpt & Htr).
  apply is_slot_of_spec in Hxt as [Lt Hxt]. cbn [slots set_slots].
  destruct Hcase as [([Ls Hxs]%is_slot_of_spec & Hp & Htrk)|(Ha & Hfree & Hp')].
  - case_decide as Hux.
    + assert (i = j) as <- by (eapply (inv_distinct _ HI); try done; congruence).
      simplify_eq. destruct (Htrk log Htr) as [Hn Htr']. split; [done|].
      exists i, s'. cbn. rewrite list_lookup_insert_eq by (by eapply lookup_lt_Some).
      split; [done|]. split; [apply is_slot_of_spec; split; congruence|]. split; [congruence|done].
    + split; [done|]. exists j, t. cbn. rewrite list_lookup_insert_ne by (intros ->; congruence).
      repeat split; try done; [by apply is_slot_of_spec|apply Htr|apply Htr].
  - rewrite decide_False by (intros Hu; rewrite Hu in Ha; by destruct (Ha j t)).
    split; [intros Hu; rewrite Hu in Ha; by destruct (Ha j t)|].
    exists j, t. cbn. rewrite list_lookup_insert_ne; [|intros Hij; assert (s = t) by congruence; subst s; rewrite Hfree in Hpt; done].
    repeat split; try done; [by apply is_slot_of_spec|apply Htr|apply Htr].
Qed.

Lemma cipher_delivers o u o' : delivers o u o' → cipher o' = cipher o.
Proof. by intros (i & s & s' & _ & -> & _). Qed.

Lemma cipher_unchanged o o' : unchanged o o' → cipher o' = cipher o.
Proof. by intros [->|(i & s & s' & _ & _ & _ & ->)]. Qed.

(** The context after packets delivered under the uses [us], for an SSRC that
    stays pinned. *)
Definition keeps_track (o o' : SrtpInbound) (us : list use) (x : Z) : Prop :=
  ∀ log, tracks x log o → NoDup log →
    NoDup (reverse (uses_of x us) ++ log) ∧ tracks x (reverse (uses_of x us) ++ log) o'.

Lemma keeps_track_delivers o u o' x : Inv o → delivers o u o' → keeps_track o o' [u] x.
Proof.
  intros HI Hdel log Ht Hnd. destruct (delivers_tracks x log o u o' HI Hdel Ht) as [Hn Ht'].
  unfold uses_of. rewrite filter_cons, filter_nil. case_decide; cbn; [|done].
  split; [|done]. constructor; auto.
Qed.

Lemma step_spec o p : Inv o → op_wf p →
  ∃ ps us o', step p o = Ok (ps, o') ∧ Inv o' ∧ cipher o' = cipher o ∧
    Forall2 (authentic_under (cipher o)) ps us ∧ ∀ x, p ≠ Unpin x → keeps_track o o' us x.
Proof.
  intros HI Hp.
  assert (Hres : ∀ mk r, rtp_result o mk r →
    ∃ ps us o', match r with Ok (n, (s, plain)) => Ok ([mk n plain], s) | Err (_, (s, _)) => Ok ([], s)
              | Panic => Panic end = Ok (E:=()) (ps, o') ∧ Inv o' ∧ cipher o' = cipher o ∧
      Forall2 (authentic_under (cipher o)) ps us ∧ ∀ x, keeps_track o o' us x).
  { intros mk r Hr. destruct r as [[n [o' plain]]|[e [o' ?]]|]; cbn -[authentic_under] in Hr; [| |done].
    - destruct Hr as (u & Hu & Hdel). exists [mk n plain], [u], o'. split; [done|].
      split; [by eapply inv_delivers|]. split; [by eapply cipher_delivers|].
      rewrite Forall2_cons, Forall2_nil. split; [done|]. intros x. by apply keeps_track_delivers.
    - exists [], [], o'. split; [done|]. split; [by eapply inv_unchanged|]. split; [by apply cipher_unchanged|].
      split; [constructor|]. intros x log Ht Hnd. split; [done|]. by eapply unchanged_tracks. }
  assert (Hnone : ∀ o', Inv o' → cipher o' = cipher o →
      (∀ x log, p ≠ Unpin x → tracks x log o → tracks x log o') →
      ∃ ps us o'', Ok (E:=()) (@nil packet, o') = Ok (ps, o'') ∧ Inv o'' ∧ cipher o'' = cipher o ∧
        Forall2 (authentic_under (cipher o)) ps us ∧ ∀ x, p ≠ Unpin x → keeps_track o o'' us x).
  { intros o' HI' Hc Hk. exists [], [], o'. do 3 (split; [done|]). split; [constructor|].
    intros x Hx log Ht Hnd. split; [done|]. by apply Hk. }
  destruct p as [x|x|buf len now|buf len now|now idle]; cbn [step op_wf] in *.
  - pose proof (pin_spec o x HI) as Hpin. pose proof (pin_keeps_cipher x o) as Hc. unfold run_to in Hc.
    destruct (pin x o) as [[? o']|[? o']|]; [| |done].
    + destruct Hpin as (HI' & _ & Hk). apply Hnone; auto.
    + destruct Hpin as [-> _]. apply Hnone; auto.
  - destruct (unpin_spec o x HI) as [HI' Hk]. apply Hnone; [done|unfold unpin; by destruct (position _ _)|].
    intros y log Hy. apply Hk. congruence.
  - destruct (Hres _ _ (unprotect_rtp_result o buf len now HI Hp)) as (ps & us & o' & -> & Hr). naive_solver.
  - destruct (Hres _ _ (unprotect_rtcp_result o buf len now HI Hp)) as (ps & us & o' & -> & Hr). naive_solver.
  - destruct (evict_spec o now idle HI) as [HI' Hk]. apply Hnone; auto.
Qed.

Lemma inbound_run_spec ops : ∀ o, Inv o → Forall op_wf ops →
  ∃ ps us o', run ops o = Ok (ps, o') ∧ Inv o' ∧ cipher o' = cipher o ∧
    Forall2 (authentic_under (cipher o)) ps us ∧ ∀ x, Unpin x ∉ ops → keeps_track o o' us x.
Proof.
  induction ops as [|p ops IH]; intros o HI Hops; [by exists [], [], o|].
  apply Forall_cons in Hops as [Hp Hops].
  destruct (step_spec o p HI Hp) as (ps & us & o1 & Hs & HI1 & Hc1 & Hu & H1).
  destruct (IH o1 HI1 Hops) as (ps' & us' & o2 & Hr & HI2 & Hc2 & Hu' & H2).
  exists (ps ++ ps'), (us ++ us'), o2. cbn [run]. rewrite Hs. cbn. rewrite Hr. cbn. rewrite Hc1 in *.
  do 3 (split; [done|]). split; [by apply Forall2_app|].
  intros x Hx%not_elem_of_cons log Ht Hnd. destruct (H1 x) with log as [Hnd1 Ht1]; try done.
  { intros ->. naive_solver. }
  unfold uses_of. rewrite filter_app, reverse_app, <- app_assoc. apply H2; naive_solver.
Qed.

(** C19: Whatever a peer sends, in any order with the control calls: no call
    panics, every packet delivered was authenticated by the session's cipher
    under the SSRC it carries and some packet index (the index the cipher was
    called with for RTP, the one it returned for RTCP), and while an SSRC stays
    pinned no two packets of it were authenticated under the same stream and
    index, nor is its state given away (it is still pinned at the end), even
    when forged or foreign packets compete for slots. *)
Theorem pinned_no_replay c before ps0 o0 x ops :
  cipher_wf c → Forall op_wf (before ++ ops) → run before (from_cipher c) = Ok (ps0, o0) →
  is_pinned x o0 = true → Unpin x ∉ ops →
  ∃ ps o', run ops o0 = Ok (ps, o') ∧ is_pinned x o' = true ∧
    ∃ us, Forall2 (authentic_under c) ps us ∧ NoDup (uses_of x us).
Proof.
  intros Hc [Hw0 Hw]%Forall_app Hr0 Hpin Hun.
  destruct (inbound_run_spec before _ (inbound_inv_initial c Hc) Hw0)
    as (ps0' & us0 & o0' & Hr & HI0 & Hc0 & _).
  rewrite Hr in Hr0. injection Hr0 as -> ->. cbn in Hc0.
  destruct (inbound_run_spec ops o0 HI0 Hw) as (ps & us & o' & Hr' & HI' & _ & Hu & Hk).
  destruct (Hk x Hun []) as [Hnd Ht]; [by apply is_pinned_tracks|constructor|].
  rewrite Hc0 in Hu. rewrite app_nil_r in Hnd. exists ps, o'. split; [done|].
  split; [apply is_pinned_tracks; [done|]; by eapply tracks_nil|].
  exists us. split; [done|]. by rewrite reverse_Permutation in Hnd.
Qed.

(** C20: A packet that is refused (malformed, replayed, not authentic, or
    with no slot for its SSRC) changes nothing of a reachable context but
    the statistics of a replay window: it takes no slot, evicts nobody and
    moves no window or rollover counter. *)
Theorem refused_changes_nothing c before ps o buf len now e o' buf' :
  cipher_wf c → Forall op_wf before → run before (from_cipher c) = Ok (ps, o) → bytes buf →
  unprotect_rtp len now (o, buf) = Err (e, (o', buf')) ∨
  unprotect_rtcp len now (o, buf) = Err (e, (o', buf')) →
  cipher o' = cipher o ∧ Forall2 same_slot (slots o) (slots o').
Proof.
  intros Hc Hw Hr Hb Herr. destruct (inbound_run_spec before _ (inbound_inv_initial c Hc) Hw) as (ps' & us' & o1 & Hr' & HI & _).
  rewrite Hr' in Hr. injection Hr as -> ->. assert (Hun : unchanged o o').
  { destruct Herr as [Herr|Herr];
      [pose proof (unprotect_rtp_result o buf len now HI Hb) as Hres
      |pose proof (unprotect_rtcp_result o buf len now HI Hb) as Hres];
      by rewrite Herr in Hres. }
  assert (Hrefl : Forall2 same_slot (slots o) (slots o)) by (apply Forall_Forall2_diag, Forall_true, same_slot_refl).
  destruct Hun as [->|(i & s & s' & Hs & _ & Hss & ->)]; [done|]. split; [done|]. cbn.
  rewrite <- (list_insert_id (slots o) i s Hs) at 1. by apply Forall2_insert.
Qed.

End inbound.

Arguments SrtpInbound C : clear implicits.
End Inbound.

(** * Which SSRCs of a receive context are pinned

    A session pins exactly the SSRCs of its tracks. The operations of
    [Inbound.v] change the pinned set only as they should, and pinning one
    more SSRC succeeds while fewer than [INBOUND_PINNED_MAX] are pinned. *)


Module Pins.
Import Inbound.

Section pins.
Context {C : Type} `{SrtpCipherLaws C}.
Implicit Types (o : SrtpInbound C).

Lemma is_pinned_iff x o : is_pinned x o = true ↔
  ∃ i s, slots o !! i = Some s ∧ is_slot_of x s = true ∧ pinned s = true.
Proof.
  unfold is_pinned. rewrite existsb_exists. split.
  - intros (s & [i Hi]%list_elem_of_In%list_elem_of_lookup & [? ?]%andb_true_iff). eauto.
  - intros (i & s & Hi & Hx & Hp). exists s. rewrite Hx, Hp.
    split; [|done]. by eapply list_elem_of_In, list_elem_of_lookup_2.
Qed.

(** As many slots are pinned as there are pinned SSRCs. *)
Lemma pinned_count_le o l : Inv o → (∀ x, is_pinned x o = true → x ∈ l) → (pinned_count o ≤ length l)%nat.
Proof.
  intros HI Hl. unfold pinned_count, count. rewrite <- (length_fmap ssrc).
  apply submseteq_length, NoDup_submseteq.
  - pose proof (inv_distinct _ HI) as Hd. revert Hd. clear Hl HI. generalize (slots o) as sl. clear o.
    induction sl as [|s sl IH]; intros Hd; [constructor|].
    rewrite filter_cons. assert (NoDup (ssrc <$> filter (fun s => live s && pinned s = true) sl)) as Hnd.
    { apply IH. intros i j a b Ha Hb La Lb Hab. apply (Hd (S i) (S j) a b) in Hab; auto. }
    case_decide as Hs; [|done]. apply andb_true_iff in Hs as [Ls _]. constructor; [|done].
    intros (t & Ht & [[Lt _]%andb_true_iff [j Hj]%list_elem_of_lookup]%list_elem_of_filter)%list_elem_of_fmap.
    by specialize (Hd 0%nat (S j) s t eq_refl Hj Ls Lt Ht).
  - intros x (s & -> & [[Ls Ps]%andb_true_iff [i Hi]%list_elem_of_lookup]%list_elem_of_filter)%list_elem_of_fmap.
    apply Hl, is_pinned_iff. exists i, s. split; [done|]. split; [|done].
    unfold is_slot_of. by rewrite Ls, Z.eqb_refl.
Qed.

Lemma oldest_exists l : ∀ i best, (∃ s, s ∈ l ∧ pinned s = false) ∨ is_Some best →
  is_Some (oldest_unpinned i best l).
Proof.
  induction l as [|s l IH]; intros i best Hs; cbn.
  - destruct Hs as [(s & Hs & _)|]; [by apply not_elem_of_nil in Hs|done].
  - apply IH. destruct Hs as [(t & [->|Ht]%elem_of_cons & Hp)|[[j t] ->]].
    + right. rewrite Hp. destruct best as [[j t']|]; [case_match|]; eauto.
    + left. eauto.
    + right. repeat case_match; eauto.
Qed.

(** There is a slot to replace while not all slots are pinned. *)
Lemma replace_exists o : Inv o → (pinned_count o < INBOUND_SSRC_SLOTS)%nat → is_Some (slot_to_replace o).
Proof.
  intros HI Hc. unfold slot_to_replace. destruct (position _ _) as [i|] eqn:Hpos; [eauto|].
  rewrite position_None in Hpos. apply fmap_is_Some, oldest_exists. left.
  destruct (decide (Exists (fun s => pinned s = false) (slots o))) as [(s & ? & ?)%Exists_exists|Hn]; [eauto|].
  exfalso. rewrite <- (inv_len _ HI) in Hc. unfold pinned_count in Hc. rewrite count_all in Hc; [lia|].
  intros s Hs. rewrite <- Forall_Exists_neg, Forall_forall in Hn. specialize (Hn s Hs).
  apply list_elem_of_lookup in Hs as [i Hi]. specialize (Hpos _ _ Hi).
  destruct (live s), (pinned s); naive_solver.
Qed.

Lemma pinned_insert y o i s s' : slots o !! i = Some s → is_pinned y (set_slots (<[i := s']> (slots o)) o) = true →
  (is_slot_of y s' = true ∧ pinned s' = true) ∨ is_pinned y o = true.
Proof.
  intros Hs (j & t & Hj & Ht & Hp)%is_pinned_iff. cbn in Hj.
  apply list_lookup_insert_Some in Hj as [(? & ? & _)|[_ Hj]]; [subst; by left|]. right. apply is_pinned_iff. eauto.
Qed.

(** ** Pinning and unpinning *)

Lemma pin_frame x o :
  wlp (pin x) o
    (fun _ o' => cipher o' = cipher o ∧ ∀ y, is_pinned y o' = true → y = x ∨ is_pinned y o = true)
    (fun _ _ => (INBOUND_PINNED_MAX ≤ pinned_count o)%nat ∨ slot_to_replace o = None).
Proof.
  unfold pin. wp. apply wlp_lift; [intros already Ha|].
  2: { intros e. destruct (position _ _) as [i|]; [|done]. unfold idx. by destruct (slots o !! i). }
  destruct already; wp; [by auto|]. case_bool_decide; wp; [by left|].
  apply (wp_mono _ _ (fun i o1 => ∃ s s1, slots o !! i = Some s ∧ is_slot_of x s1 = true ∧
    o1 = set_slots (<[i := s1]> (slots o)) o)).
  - destruct (position (is_slot_of x) (slots o)) as [i|] eqn:Hpos; wp.
    + apply position_Some in Hpos as [(s & Hs & Hx) _]. exists s, s. rewrite list_insert_id by done.
      by destruct o.
    + destruct (slot_to_replace o) as [i|] eqn:Hr; wp; [|by right].
      eapply wp_conseq; [apply (at_slot_frame i (fun _ => fresh x 0))| |done].
      intros _ o1 (s & Hs & ->). wp. exists s, (fresh x 0). split; [done|]. split; [|done].
      unfold is_slot_of. cbn. apply Z.eqb_refl.
  - intros i o1 (s & s1 & Hs & Hx & ->). wp. eapply wp_conseq; [apply at_slot_frame| |done].
    cbn. intros _ o2 (t & Ht & ->). wp. do 2 (apply wlp_assert; intros _; wp).
    split; [done|]. intros y (j & u & Hj & Hu & Hp)%is_pinned_iff. cbn in Hj.
    rewrite list_lookup_insert_eq in Ht by (by eapply lookup_lt_Some). simplify_eq.
    rewrite list_insert_insert_eq in Hj.
    apply list_lookup_insert_Some in Hj as [(? & ? & _)|[_ Hj]]; [subst; left|right; apply is_pinned_iff; eauto].
    apply is_slot_of_spec in Hx as [_ <-]. by apply is_slot_of_spec in Hu as [_ <-].
Qed.

Lemma pin_ok x o : Inv o → (pinned_count o < INBOUND_PINNED_MAX)%nat →
  ∃ o', pin x o = Ok ((), o') ∧ Inv o' ∧ cipher o' = cipher o ∧
    ∀ y, is_pinned y o' = true ↔ y = x ∨ is_pinned y o = true.
Proof.
  intros HI Hc. pose proof (pin_spec o x HI) as Hs. pose proof (pin_frame x o) as Hf.
  unfold run_to in Hf. destruct (pin x o) as [[[] o']|[e o']|]; [| |done].
  - destruct Hs as (HI' & Hx & Hy), Hf as [Hcip Hsub]. exists o'. split; [done|]. split; [done|]. split; [done|].
    intros y. split; [apply Hsub|]. rewrite !is_pinned_tracks by done. intros [->|?]; auto.
  - exfalso. destruct Hf as [Hf|Hf]; [lia|].
    destruct (replace_exists o HI) as [i Hi]; [unfold INBOUND_PINNED_MAX, INBOUND_SSRC_SLOTS in *; lia|congruence].
Qed.

(** Pinning that may be refused: the context is as it was. *)
Lemma pin_any x o : Inv o →
  wp (pin x) o (fun _ o' => Inv o' ∧ cipher o' = cipher o ∧
                  ∀ y, is_pinned y o' = true ↔ y = x ∨ is_pinned y o = true) (fun _ o' => o' = o).
Proof.
  intros HI. pose proof (pin_spec o x HI) as Hs. pose proof (pin_frame x o) as Hf.
  unfold run_to in *. destruct (pin x o) as [[[] o']|[e o']|]; [|by destruct Hs|done].
  destruct Hs as (HI' & Hx & Hy), Hf as [Hcip Hsub]. split; [done|]. split; [done|].
  intros y. split; [apply Hsub|]. rewrite !is_pinned_tracks by done. intros [->|?]; auto.
Qed.

Lemma unpin_ok x o : Inv o →
  Inv (unpin x o) ∧ cipher (unpin x o) = cipher o ∧
  ∀ y, is_pinned y (unpin x o) = true ↔ y ≠ x ∧ is_pinned y o = true.
Proof.
  intros HI. destruct (unpin_spec o x HI) as [HI' Hk]. split; [done|].
  split; [unfold unpin; by destruct (position _ _)|]. intros y. split.
  2: { intros [Hy Hp]. apply is_pinned_tracks; [done|]. apply Hk; [done|]. by apply is_pinned_tracks. }
  unfold unpin. destruct (position (is_slot_of x) (slots o)) as [i|] eqn:Hpos.
  - apply position_Some in Hpos as [(s & Hs & Hx) _].
    intros (j & t & Hj & Ht & Hp)%is_pinned_iff. cbn in Hj.
    apply list_lookup_alter_Some in Hj as [(-> & t' & _ & ->)|[Hne Hj]]; [done|]. split.
    + intros ->. apply Hne. apply is_slot_of_spec in Ht as [Lt Ht], Hx as [Ls Hx].
      eapply (inv_distinct _ HI); try done. congruence.
    + apply is_pinned_iff. eauto.
  - intros (j & t & Hj & Ht & Hp)%is_pinned_iff. split; [|apply is_pinned_iff; eauto].
    intros ->. rewrite position_None in Hpos. specialize (Hpos _ _ Hj). congruence.
Qed.

Lemma evict_ok now idle o : Inv o →
  Inv (evict_idle now idle o).2 ∧ cipher (evict_idle now idle o).2 = cipher o ∧
  ∀ y, is_pinned y (evict_idle now idle o).2 = true ↔ is_pinned y o = true.
Proof.
  intros HI. destruct (evict_spec o now idle HI) as [HI' Hk]. split; [done|]. split; [done|].
  intros y. split.
  - intros (j & t & Hj & Ht & Hp)%is_pinned_iff. cbn in Hj.
    apply list_lookup_fmap_Some in Hj as (s & -> & Hj). apply is_pinned_iff. exists j, s.
    split; [done|]. case_match eqn:He; [|done]. unfold is_slot_of in Ht. done.
  - intros Hp. apply is_pinned_tracks; [done|]. by apply Hk, is_pinned_tracks.
Qed.

(** Packets change no pin. *)
Lemma unprotect_ok o mk (r : outcome (() * (SrtpInbound C * list Z)) (nat * (SrtpInbound C * list Z))) :
  Inv o → rtp_result o mk r →
  match r with
  | Ok (_, (o', _)) | Err (_, (o', _)) => Inv o' ∧ ∀ y, is_pinned y o' = true ↔ is_pinned y o = true
  | Panic => False
  end.
Proof.
  intros HI Hr. destruct r as [[a [o' b]]|[e [o' b]]|]; cbn in Hr; [| |done].
  - destruct Hr as (u & _ & Hd). split; [by eapply inv_delivers|].
    destruct Hd as (i & s & s' & Hs & -> & Hx & Hl & Hok & Hcase). intros y. split.
    + intros [[Hy Hp]|Hy]%(pinned_insert _ _ _ s); [|done|done].
      destruct Hcase as [(Hsl & Hps & _)|(_ & _ & Hps)]; [|congruence].
      apply is_pinned_iff. exists i, s. split; [done|]. split; [|congruence].
      apply is_slot_of_spec in Hy as [_ <-]. by rewrite Hx.
    + intros (j & t & Hj & Ht & Hp)%is_pinned_iff. apply is_pinned_iff. cbn.
      destruct (decide (j = i)) as [->|Hne]; [|exists j, t; rewrite list_lookup_insert_ne; auto].
      simplify_eq. exists i, s'. rewrite list_lookup_insert_eq by (by eapply lookup_lt_Some).
      split; [done|]. destruct Hcase as [(Hsl & Hps & _)|(_ & Hun & _)].
      * split; [|congruence]. apply is_slot_of_spec. split; [done|].
        apply is_slot_of_spec in Ht as [_ <-], Hsl as [_ ->]. done.
      * apply is_slot_of_spec in Ht as [Lt _]. rewrite Hun in Hp by done. done.
  - split; [by eapply inv_unchanged|]. destruct Hr as [->|(i & s & s' & Hs & Ls & Hsame & ->)]; [done|].
    destruct Hsame as (Hx & Hl & Hp & _). intros y. split.
    + intros [[Hy Hp']|Hy]%(pinned_insert _ _ _ s); [|done|done]. apply is_pinned_iff. exists i, s.
      split; [done|]. split; [|congruence]. apply is_slot_of_spec in Hy as [? ?]. apply is_slot_of_spec. split; congruence.
    + intros (j & t & Hj & Ht & Hp')%is_pinned_iff. apply is_pinned_iff. cbn.
      destruct (decide (j = i)) as [->|Hne]; [|exists j, t; rewrite list_lookup_insert_ne; auto].
      simplify_eq. exists i, s'. rewrite list_lookup_insert_eq by (by eapply lookup_lt_Some).
      split; [done|]. apply is_slot_of_spec in Ht as [? ?]. split; [apply is_slot_of_spec; split|]; congruence.
Qed.

End pins.
End Pins.
