(* ===== verification/Outbound.v ===== *)
(** * The send direction: [SrtpOutbound]

    [crates/nexus-transport/src/srtp/direction.rs], lines 340-480: one slot per
    registered SSRC, with the indices sent; an SSRC is registered at most
    once in the life of the key. *)

From S2P Require Import Prelude Replay RocIndex Direction.

Module Outbound.

Record SsrcOut := mkSsrcOut {
  ssrc : Z;
  live : bool;
  roc : RocIndex.RocState;
  sent : Replay.ReplayProtection;
  srtcp_index : Z;
}.

Definition EMPTY : SsrcOut := mkSsrcOut 0 false RocIndex.new Replay.new 0.

Definition fresh (x : Z) : SsrcOut := mkSsrcOut x true RocIndex.new Replay.new 0.

Definition set_live (b : bool) (s : SsrcOut) : SsrcOut :=
  mkSsrcOut (ssrc s) b (roc s) (sent s) (srtcp_index s).
Definition set_roc (r : RocIndex.RocState) (s : SsrcOut) : SsrcOut :=
  mkSsrcOut (ssrc s) (live s) r (sent s) (srtcp_index s).
Definition set_sent (r : Replay.ReplayProtection) (s : SsrcOut) : SsrcOut :=
  mkSsrcOut (ssrc s) (live s) (roc s) r (srtcp_index s).
Definition set_srtcp_index (i : Z) (s : SsrcOut) : SsrcOut :=
  mkSsrcOut (ssrc s) (live s) (roc s) (sent s) i.

Definition is_slot_of (x : Z) (s : SsrcOut) : bool := live s && (ssrc s =? x).

Section outbound.
Context {C : Type} `{SrtpCipher C}.

Record SrtpOutbound := mkOutbound {
  cipher : C;
  slots : list SsrcOut;
  ssrc_base : Z;
  next_offset : Z;
}.

Definition set_slots (l : list SsrcOut) (s : SrtpOutbound) : SrtpOutbound :=
  mkOutbound (cipher s) l (ssrc_base s) (next_offset s).

(** [from_keys], once the cipher is built *)
Definition from_cipher (c : C) (base : Z) : SrtpOutbound :=
  mkOutbound c (replicate OUTBOUND_SSRC_SLOTS EMPTY) base 0.

Definition ssrc_count (s : SrtpOutbound) : nat := count live (slots s).

Definition slot_of (self : SrtpOutbound) (x : Z) : option nat := position (is_slot_of x) (slots self).

Definition register (x : Z) : st SrtpOutbound SrtpError () :=
  self ← get;
  let offset := wrapping_sub 32 x (ssrc_base self) in
  if (offset <? next_offset self) || (offset >? MAX_SSRC_OFFSET) then throw InvalidSsrc else
  slot ← lift (of_option SessionLimitReached (position (fun s => negb (live s)) (slots self)));
  zoom slots set_slots (at_slot slot (put (fresh x)));;
  modify (fun s => mkOutbound (cipher s) (slots s) (ssrc_base s) (offset + 1));;
  self ← get;
  lift (assert_ (bool_decide (count (is_slot_of x) (slots self) = 1%nat))).

Definition on_slot {E A} (i : nat) (m : st SsrcOut E A) : st (SrtpOutbound * list Z) E A :=
  zoom (fun s => slots s.1) (fun l s => (set_slots l s.1, s.2)) (at_slot i m).

Definition on_buf {E A} (m : st (list Z) E A) : st (SrtpOutbound * list Z) E A :=
  zoom snd (fun b s => (s.1, b)) m.

Definition check_sent (index : Z) : st SsrcOut SrtpError () :=
  zoom sent set_sent (Replay.check index).

Definition accept_sent (index seq : Z) : st SsrcOut () () :=
  s ← get;
  r ← lift (Replay.accept index (sent s));
  modify (set_sent r);;
  match RocIndex.update (roc s) seq with
  | Ok roc' => modify (set_roc roc')
  | _ => fun _ => Panic (* debug_assert!(updated.is_ok()) *)
  end.

Definition protect_rtp (len : nat) : st (SrtpOutbound * list Z) () nat :=
  '(self, buf) ← get;
  if bool_decide (len < RTP_HEADER_SIZE ∨ length buf < len)%nat then throw () else
  seq ← lift (read_be 2 2 buf);
  x ← lift (be_u32 buf 8);
  slot ← lift (of_option () (slot_of self x));
  state ← lift (idx (slots self) slot);
  index ← lift (map_err (fun _ => ()) (RocIndex.estimate_index (roc state) seq));
  on_slot slot (quiet (check_sent index));;
  out ← on_buf (quiet (cipher_protect_rtp (cipher self) len index));
  on_slot slot (accept_sent index seq);;
  lift (assert_ (bool_decide (out = len + tag_len (cipher self))%nat));;
  mret out.

Definition protect_rtcp (len : nat) : st (SrtpOutbound * list Z) () nat :=
  '(self, buf) ← get;
  if bool_decide (len < RTCP_HEADER_SIZE ∨ length buf < len)%nat then throw () else
  x ← lift (be_u32 buf 4);
  slot ← lift (of_option () (slot_of self x));
  state ← lift (idx (slots self) slot);
  let index := srtcp_index state in
  if index >=? SRTCP_INDEX_MASK then throw () else
  out ← on_buf (quiet (cipher_protect_rtcp (cipher self) len index));
  on_slot slot (modify (set_srtcp_index (index + 1)));;
  lift (assert_ (bool_decide (out = len + 4 + tag_len (cipher self))%nat));;
  mret out.

Definition retire (x : Z) (self : SrtpOutbound) : outcome () SrtpOutbound :=
  let self' := match slot_of self x with
               | Some i => set_slots (alter (set_live false) i (slots self)) self
               | None => self
               end in
  assert_ (bool_decide (slot_of self' x = None));; (* debug_assert! *)
  Ok self'.

(** ** Runs of a context

    A run is any sequence of calls the control path and the packet path make,
    with the packets it produced: the plain packet given to the context and
    the bytes that came out. *)

Inductive op :=
| Register (x : Z)
| Retire (x : Z)
| ProtectRtp (buf : list Z) (len : nat)
| ProtectRtcp (buf : list Z) (len : nat).

Inductive packet :=
| RtpPacket (plain : list Z) (len : nat) (out : nat) (wire : list Z)
| RtcpPacket (plain : list Z) (len : nat) (out : nat) (wire : list Z).

(** One call, with the packet it produced, if any. *)
Definition step (o : op) (self : SrtpOutbound) : outcome () (list packet * SrtpOutbound) :=
  match o with
  | Register x =>
    match register x self with
    | Ok (_, s) | Err (_, s) => Ok ([], s)
    | Panic => Panic
    end
  | Retire x => s ← retire x self; Ok ([], s)
  | ProtectRtp buf len =>
    match protect_rtp len (self, buf) with
    | Ok (n, (s, wire)) => Ok ([RtpPacket buf len n wire], s)
    | Err (_, (s, _)) => Ok ([], s)
    | Panic => Panic
    end
  | ProtectRtcp buf len =>
    match protect_rtcp len (self, buf) with
    | Ok (n, (s, wire)) => Ok ([RtcpPacket buf len n wire], s)
    | Err (_, (s, _)) => Ok ([], s)
    | Panic => Panic
    end
  end.

Fixpoint run (ops : list op) (self : SrtpOutbound) : outcome () (list packet * SrtpOutbound) :=
  match ops with
  | [] => Ok ([], self)
  | o :: ops => '(p, s) ← step o self; '(ps, s') ← run ops s; Ok (p ++ ps, s')
  end.

(** The keystream and the AEAD nonce of a packet come from its stream (RTP and
    RTCP have different keys), its SSRC and its packet index. *)
Inductive use := UseRtp (x index : Z) | UseRtcp (x index : Z).

(** The bytes of packet [p] are what the cipher [c] makes of its plain packet
    at the SSRC the packet carries and the index of [u]. *)
Definition protected_under (c : C) (p : packet) (u : use) : Prop :=
  match p, u with
  | RtpPacket plain len out wire, UseRtp x index =>
    be_u32 (E:=()) plain 8 = Ok x ∧ 0 ≤ index < 2 ^ 48 ∧
    cipher_protect_rtp c len index plain = Ok (out, wire)
  | RtcpPacket plain len out wire, UseRtcp x index =>
    be_u32 (E:=()) plain 4 = Ok x ∧ 0 ≤ index < SRTCP_INDEX_MASK ∧
    cipher_protect_rtcp c len index plain = Ok (out, wire)
  | _, _ => False
  end.

(** Calls with buffers of bytes and SSRCs of 32 bits. *)
Definition op_wf (o : op) : Prop :=
  match o with
  | Register x | Retire x => is_u32 x
  | ProtectRtp buf _ | ProtectRtcp buf _ => bytes buf
  end.

Definition use_ssrc (u : use) : Z := match u with UseRtp x _ | UseRtcp x _ => x end.

Context `{!SrtpCipherLaws C}.

(** ** The invariant that relates a context to the uses made so far *)

Record slot_ok (log : list use) (base next : Z) (s : SsrcOut) : Prop := {
  slot_u32 : is_u32 (ssrc s);
  slot_offset : wrapping_sub 32 (ssrc s) base < next;
  slot_roc : RocIndex.wf (roc s);
  slot_sent : ∃ hist, Replay.Rep (sent s) hist ∧ ∀ i, i ∈ hist ↔ UseRtp (ssrc s) i ∈ log;
  slot_index : 0 ≤ srtcp_index s ≤ SRTCP_INDEX_MASK;
  slot_srtcp : ∀ i, UseRtcp (ssrc s) i ∈ log → i < srtcp_index s;
}.

Record Inv (o : SrtpOutbound) (log : list use) : Prop := {
  inv_cipher : cipher_wf (cipher o);
  inv_len : length (slots o) = OUTBOUND_SSRC_SLOTS;
  inv_next : 0 ≤ next_offset o ≤ 2 ^ 31;
  inv_distinct : ∀ i j s t, slots o !! i = Some s → slots o !! j = Some t →
    live s = true → live t = true → ssrc s = ssrc t → i = j;
  inv_slots : ∀ i s, slots o !! i = Some s → live s = true →
    slot_ok log (ssrc_base o) (next_offset o) s;
  inv_log : ∀ u, u ∈ log → wrapping_sub 32 (use_ssrc u) (ssrc_base o) < next_offset o;
  inv_nodup : NoDup log;
}.

Lemma outbound_inv_initial c base : cipher_wf c → Inv (from_cipher c base) [].
Proof.
  intros Hc.
  split; cbn -[replicate]; try done.
  - intros i j s t [-> _]%lookup_replicate. done.
  - intros i s [-> _]%lookup_replicate. done.
  - set_solver.
  - constructor.
Qed.

Lemma slot_of_Some o x i : slot_of o x = Some i →
  ∃ s, slots o !! i = Some s ∧ live s = true ∧ ssrc s = x.
Proof.
  intros [(s & Hs & Hp) _]%position_Some. unfold is_slot_of in Hp. simplify_tests. eauto.
Qed.

(** A slot's facts survive uses of other SSRCs and a larger next offset. *)
Lemma slot_ok_mono log u base next next' s : slot_ok log base next s → next ≤ next' →
  (∀ v, v ∈ u → use_ssrc v ≠ ssrc s) → slot_ok (log ++ u) base next' s.
Proof.
  intros [? ? ? (hist & Hrep & Hh) ? Hi] Hle Hu. split; try done; [lia| |].
  - exists hist. split; [done|]. intros i. rewrite Hh, elem_of_app. split; [auto|].
    intros [?|Hin]; [done|]. by destruct (Hu _ Hin).
  - intros i [Hin|Hin]%elem_of_app; [by apply Hi|]. by destruct (Hu _ Hin).
Qed.

(** Replaces the state of one live slot, after uses under its SSRC. *)
Lemma outbound_inv_update o log u i s s' : Inv o log → slots o !! i = Some s → live s = true →
  live s' = true → ssrc s' = ssrc s →
  slot_ok (log ++ u) (ssrc_base o) (next_offset o) s' →
  (∀ v, v ∈ u → use_ssrc v = ssrc s) → NoDup (log ++ u) →
  Inv (set_slots (<[i := s']> (slots o)) o) (log ++ u).
Proof.
  intros HI Hs Hl Hl' Heq Hok Hu Hnd. assert (Hlt := lookup_lt_Some _ _ _ Hs).
  split; cbn; try apply HI; try done.
  - rewrite length_insert. apply HI.
  - intros j k a b [[<- [<- _]]|[? Ha]]%list_lookup_insert_Some
      [[<- [<- _]]|[? Hb]]%list_lookup_insert_Some La Lb Hab; try done;
      [rewrite Heq in Hab|rewrite Heq in Hab|]; by eapply (inv_distinct _ _ HI).
  - intros j a [[<- [<- _]]|[? Ha]]%list_lookup_insert_Some La; [done|].
    apply slot_ok_mono with (next_offset o); [by eapply (inv_slots _ _ HI)|lia|].
    intros v Hv Hva. rewrite (Hu _ Hv) in Hva.
    by pose proof (inv_distinct _ _ HI _ _ _ _ Hs Ha Hl La Hva).
  - intros v [Hv|Hv]%elem_of_app; [by apply (inv_log _ _ HI)|]. rewrite (Hu _ Hv).
    by eapply (slot_offset _ _ _ _ (inv_slots _ _ HI _ _ Hs Hl)).
Qed.

Lemma register_inv o log x : Inv o log → is_u32 x →
  match register x o with
  | Ok (_, o') | Err (_, o') => cipher o' = cipher o ∧ Inv o' log
  | Panic => False
  end.
Proof.
  intros HI Hx. unfold register. run_st. destruct (_ || _) eqn:Hoff; [done|]. simplify_tests.
  rewrite Z.gtb_ltb in *. simplify_tests. unfold MAX_SSRC_OFFSET in *.
  destruct (position _ _) as [i|] eqn:Hpos; cbn [of_option]; [|done].
  apply position_Some in Hpos as [(s & Hs & Hd) _]. simplify_tests.
  assert (Hlt := lookup_lt_Some _ _ _ Hs).
  unfold zoom, at_slot. rewrite Hs. cbn.
  set (off := wrapping_sub 32 x (ssrc_base o)) in *.
  assert (Hfresh : ∀ j t, slots o !! j = Some t → live t = true → ssrc t ≠ x).
  { intros j t Ht Lt Heq. pose proof (slot_offset _ _ _ _ (inv_slots _ _ HI _ _ Ht Lt)) as Ho.
    rewrite Heq in Ho. fold off in Ho. lia. }
  assert (Hcount : count (is_slot_of x) (<[i := fresh x]> (slots o)) = 1%nat).
  { pose proof (count_insert (is_slot_of x) (slots o) i s (fresh x) Hs) as Hc.
    assert (count (is_slot_of x) (slots o) = 0%nat) as Hz.
    { apply count_zero. intros j t Ht. unfold is_slot_of. destruct (live t) eqn:Lt; [|done].
      apply Z.eqb_neq. by eapply Hfresh. }
    rewrite Hz in Hc. replace (is_slot_of x s) with false in Hc by (unfold is_slot_of; by rewrite Hd).
    replace (is_slot_of x (fresh x)) with true in Hc by (cbn; by rewrite Z.eqb_refl). lia. }
  rewrite Hcount. rewrite bool_decide_eq_true_2 by done.
  assert (Hnew : 0 ≤ off ≤ 2 ^ 31 - 1).
  { split; [|done]. apply (wrap_range 32). lia. }
  split; [done|]. split; cbn; try apply HI.
  - rewrite length_insert. apply HI.
  - lia.
  - intros j k a b [[<- [<- _]]|[? Ha]]%list_lookup_insert_Some
      [[<- [<- _]]|[? Hb]]%list_lookup_insert_Some La Lb Hab; cbn in *; try done.
    + by destruct (Hfresh _ _ Hb Lb).
    + by destruct (Hfresh _ _ Ha La).
    + by eapply (inv_distinct _ _ HI).
  - assert (Hnl : ∀ u, u ∈ log → use_ssrc u ≠ x).
    { intros u Hu Heq. pose proof (inv_log _ _ HI u Hu) as Ho. rewrite Heq in Ho. fold off in Ho. lia. }
    intros j a [[<- [<- _]]|[? Ha]]%list_lookup_insert_Some La.
    + split; cbn; try done; try lia.
      * exists []. split; [apply Replay.Rep_new|]. intros k. split; [set_solver|].
        intros Hin. by destruct (Hnl _ Hin).
      * intros k Hin. by destruct (Hnl _ Hin).
    + rewrite <- (app_nil_r log). apply slot_ok_mono with (next_offset o); [|lia|set_solver].
      by eapply (inv_slots _ _ HI).
  - intros u Hu. pose proof (inv_log _ _ HI u Hu). lia.
Qed.

Lemma retire_inv o log x : Inv o log → ∃ o', retire x o = Ok o' ∧ cipher o' = cipher o ∧ Inv o' log.
Proof.
  intros HI. unfold retire. destruct (slot_of o x) as [i|] eqn:Hpos.
  - destruct (slot_of_Some _ _ _ Hpos) as (s & Hs & Ls & <-).
    rewrite bool_decide_eq_true_2.
    + eexists. split; [reflexivity|]. split; [done|]. split; cbn; try apply HI.
      * rewrite length_alter. apply HI.
      * intros j k a b. rewrite !list_lookup_alter_Some.
        intros [(-> & a' & Ha & ->)|[? Ha]] [(-> & b' & Hb & ->)|[? Hb]] La Lb Hab; try done.
        by eapply (inv_distinct _ _ HI).
      * intros j a. rewrite list_lookup_alter_Some. intros [(-> & a' & Ha & ->)|[? Ha]] La; [done|].
        by eapply (inv_slots _ _ HI).
    + apply position_None. cbn. intros j a. rewrite list_lookup_alter_Some.
      intros [(-> & a' & Ha & ->)|[Hne Ha]]; [done|]. unfold is_slot_of.
      destruct (live a) eqn:La; [|done]. cbn. apply Z.eqb_neq. intros Heq. apply Hne.
      by eapply (inv_distinct _ _ HI).
  - rewrite Hpos, bool_decide_eq_true_2 by done. by exists o.
Qed.

(** What a packet operation leaves behind: the cipher is the one it was, the
    packet it produced is the cipher's at some use, and the invariant holds of
    the uses with that one added. *)
Definition after (o : SrtpOutbound) (log : list use) (mk : nat → list Z → packet)
    (r : outcome (() * (SrtpOutbound * list Z)) (nat * (SrtpOutbound * list Z))) : Prop :=
  match r with
  | Ok (n, (o', wire)) => cipher o' = cipher o ∧
      ∃ u, protected_under (cipher o) (mk n wire) u ∧ Inv o' (log ++ [u])
  | Err (_, (o', _)) => cipher o' = cipher o ∧ Inv o' log
  | Panic => False
  end.

(** The protection of a packet, once the index is known to be unused. *)
Lemma protect_rtp_inv o log buf len : Inv o log → bytes buf →
  after o log (RtpPacket buf len) (protect_rtp len (o, buf)).
Proof.
  intros HI Hb. unfold protect_rtp. run_st. case_bool_decide as Hlen; [done|].
  unfold RTP_HEADER_SIZE in Hlen. unfold be_u32. rewrite !read_be_ok by lia.
  set (seq := of_be (sub_list 2 _ buf)). set (x := of_be (sub_list 8 _ buf)).
  assert (Hseq : is_u16 seq).
  { unfold seq. pose proof (of_be_range (sub_list 2 4 buf) ltac:(auto with nexus)) as Hr.
    rewrite length_sub_list in Hr by lia. exact Hr. }
  destruct (slot_of o x) as [i|] eqn:Hpos; cbn [of_option]; [|done].
  destruct (slot_of_Some _ _ _ Hpos) as (s & Hs & Ls & Hx).
  unfold idx. rewrite Hs. cbn [expect].
  pose proof (inv_slots _ _ HI _ _ Hs Ls) as Hok.
  destruct (RocIndex.estimate_index (roc s) seq) as [index|e|] eqn:Hest; cbn [map_err]; [|done|].
  2: { by destruct (RocIndex.estimate_no_panic (roc s) seq). }
  destruct (RocIndex.estimate_ok _ _ _ (slot_roc _ _ _ _ Hok) Hseq Hest) as (Hidx & st' & Hup & Hwf).
  destruct (slot_sent _ _ _ _ Hok) as (hist & Hrep & Hh).
  destruct (Replay.check_spec _ _ index Hrep) as (r1 & Hrep1 & Hhi & Hcase).
  assert (HI1 : ∀ v, v = set_sent r1 s → Inv (set_slots (<[i := v]> (slots o)) o) log).
  { intros v ->. rewrite <- (app_nil_r log). apply outbound_inv_update with s; auto; [|set_solver|].
    - rewrite app_nil_r. destruct Hok. split; try done. by exists hist.
    - rewrite app_nil_r. apply HI. }
  unfold on_slot at 1, zoom at 1, at_slot at 1, quiet at 1, check_sent, zoom at 1. cbn [fst snd].
  rewrite Hs. destruct Hcase as [[Hf Hc]|[Hf Hc]]; rewrite Hc; [|split; [done|by apply HI1]].
  specialize (HI1 _ eq_refl).
  pose proof (protect_rtp_law (cipher o) len index buf (inv_cipher _ _ HI) ltac:(lia)) as Hlaw.
  unfold on_buf, zoom at 1, quiet. cbn [fst snd cipher set_slots].
  destruct (cipher_protect_rtp _ _ _ _) as [[n buf']|[e buf']|] eqn:Hcall; [|done|done].
  destruct Hlaw as (Hn & _ & _).
  assert (Hlt := lookup_lt_Some _ _ _ Hs).
  unfold on_slot, zoom, at_slot. cbn [fst snd slots set_slots].
  rewrite list_lookup_insert_eq by done. unfold accept_sent. run_st. cbn [sent set_sent].
  destruct (Replay.accept_spec _ _ index Hrep1 ltac:(lia)) as (r2 & Hacc & Hrep2 & _).
  unfold lift. rewrite Hacc. cbn [roc set_sent]. rewrite Hup. unfold modify. cbn.
  rewrite bool_decide_eq_true_2 by done. cbn. rewrite list_insert_insert_eq.
  pose proof (Replay.fresh_not_seen _ _ _ Hrep Hf) as Hnew. rewrite Hh, Hx in Hnew.
  split; [done|]. exists (UseRtp x index). split.
  { cbn. unfold be_u32. rewrite read_be_ok by lia. by repeat split; try lia. }
  apply (outbound_inv_update o log [UseRtp x index] i s); try done.
  - destruct Hok. split; cbn; try done.
    + exists (index :: hist). split; [done|]. intros k. rewrite elem_of_cons, elem_of_app, Hh, Hx.
      rewrite list_elem_of_singleton. naive_solver.
    + intros k [?|?%list_elem_of_singleton]%elem_of_app; [auto|done].
  - intros v ->%list_elem_of_singleton. done.
  - apply NoDup_app. split; [apply HI|]. split; [|apply NoDup_singleton].
    intros v Hv ->%list_elem_of_singleton. done.
Qed.

Lemma protect_rtcp_inv o log buf len : Inv o log → bytes buf →
  after o log (RtcpPacket buf len) (protect_rtcp len (o, buf)).
Proof.
  intros HI Hb. unfold protect_rtcp. run_st. case_bool_decide as Hlen; [done|].
  unfold RTCP_HEADER_SIZE in Hlen. unfold be_u32. rewrite !read_be_ok by lia.
  set (x := of_be (sub_list 4 _ buf)).
  destruct (slot_of o x) as [i|] eqn:Hpos; cbn [of_option]; [|done].
  destruct (slot_of_Some _ _ _ Hpos) as (s & Hs & Ls & Hx).
  unfold idx. rewrite Hs. cbn [expect].
  pose proof (inv_slots _ _ HI _ _ Hs Ls) as Hok.
  rewrite Z.geb_leb. destruct (Z.leb_spec SRTCP_INDEX_MASK (srtcp_index s)) as [|Hi]; [done|].
  pose proof (slot_index _ _ _ _ Hok) as Hpos0. unfold SRTCP_INDEX_MASK in *.
  pose proof (protect_rtcp_law (cipher o) len (srtcp_index s) buf (inv_cipher _ _ HI) ltac:(lia) ltac:(lia)) as Hlaw.
  unfold on_buf, zoom at 1, quiet. cbn [fst snd].
  destruct (cipher_protect_rtcp _ _ _ _) as [[n buf']|[e buf']|] eqn:Hcall; [|done|done].
  destruct Hlaw as (Hn & _ & _).
  unfold on_slot, zoom, at_slot. cbn [fst snd]. rewrite Hs. unfold modify.
  rewrite bool_decide_eq_true_2 by done.
  pose proof (slot_srtcp _ _ _ _ Hok) as Hlast.
  split; [done|]. exists (UseRtcp x (srtcp_index s)). split.
  { cbn. unfold be_u32. rewrite read_be_ok by lia. by repeat split; try lia. }
  apply (outbound_inv_update o log [UseRtcp x (srtcp_index s)] i s); try done.
  - destruct Hok as [? ? ? (hist & Hrep & Hh) ? ?]. split; cbn; try done; try (unfold SRTCP_INDEX_MASK; lia).
    + exists hist. split; [done|]. intros k. rewrite Hh, elem_of_app, list_elem_of_singleton.
      naive_solver.
    + intros k [Hin|Hin%list_elem_of_singleton]%elem_of_app; [apply Hlast in Hin; lia|].
      simplify_eq. lia.
  - intros v ->%list_elem_of_singleton. done.
  - apply NoDup_app. split; [apply HI|]. split; [|apply NoDup_singleton].
    intros v Hv ->%list_elem_of_singleton. rewrite <- Hx in Hv. apply Hlast in Hv. lia.
Qed.

Lemma step_inv o log p : Inv o log → op_wf p →
  ∃ ps us o', step p o = Ok (ps, o') ∧ cipher o' = cipher o ∧
    Forall2 (protected_under (cipher o)) ps us ∧ Inv o' (log ++ us).
Proof.
  intros HI Hp. destruct p as [x|x|buf len|buf len]; cbn [step op_wf] in *.
  - pose proof (register_inv o log x HI Hp) as Hr.
    destruct (register x o) as [[? o']|[? o']|]; [| |done]; destruct Hr as [Hc Hr];
      exists [], [], o'; by rewrite app_nil_r.
  - destruct (retire_inv o log x HI) as (o' & -> & Hc & HI'). exists [], [], o'. by rewrite app_nil_r.
  - pose proof (protect_rtp_inv o log buf len HI Hp) as Hr.
    destruct (protect_rtp len (o, buf)) as [[? [o' ?]]|[? [o' ?]]|]; cbn -[protected_under] in Hr; [| |done].
    + destruct Hr as (Hc & u & Hu & HI'). exists [RtpPacket buf len n l], [u], o'.
      rewrite Forall2_cons, Forall2_nil. done.
    + destruct Hr as [Hc HI']. exists [], [], o'. by rewrite app_nil_r.
  - pose proof (protect_rtcp_inv o log buf len HI Hp) as Hr.
    destruct (protect_rtcp len (o, buf)) as [[? [o' ?]]|[? [o' ?]]|]; cbn -[protected_under] in Hr; [| |done].
    + destruct Hr as (Hc & u & Hu & HI'). exists [RtcpPacket buf len n l], [u], o'.
      rewrite Forall2_cons, Forall2_nil. done.
    + destruct Hr as [Hc HI']. exists [], [], o'. by rewrite app_nil_r.
Qed.

Lemma run_inv ops : ∀ o log, Inv o log → Forall op_wf ops →
  ∃ ps us o', run ops o = Ok (ps, o') ∧ Forall2 (protected_under (cipher o)) ps us ∧
    Inv o' (log ++ us).
Proof.
  induction ops as [|p ops IH]; intros o log HI Hops.
  { exists [], [], o. by rewrite app_nil_r. }
  apply Forall_cons in Hops as [Hp Hops].
  destruct (step_inv o log p HI Hp) as (ps & us & o1 & Hs & Hc & Hu & HI1).
  destruct (IH o1 (log ++ us) HI1 Hops) as (ps' & us' & o2 & Hr & Hu' & HI2).
  exists (ps ++ ps'), (us ++ us'), o2. cbn [run]. rewrite Hs. cbn. rewrite Hr. cbn.
  rewrite Hc in Hu'. rewrite app_assoc. auto using Forall2_app.
Qed.

(** C2: No sequence of registrations, retirements and protections panics, and
    no two packets it produces were protected under the same stream, SSRC and
    packet index: each packet that comes out is the cipher's output for the
    plain packet, the SSRC it carries and some index of 48 (RTP) or 31 (RTCP)
    bits, and these (stream, SSRC, index) triples are pairwise distinct. So no
    keystream or AEAD nonce of the session key is ever repeated: not for
    duplicated or reordered packets, not across wrap-arounds, and not after an
    SSRC was retired. Holds for every cipher that keeps the length contract,
    whatever it makes of the index it is called with. *)
Theorem nonce_never_reused c base ops :
  cipher_wf c → Forall op_wf ops →
  ∃ ps o', run ops (from_cipher c base) = Ok (ps, o') ∧
    ∃ us, Forall2 (protected_under c) ps us ∧ NoDup us.
Proof.
  intros Hc Hops.
  destruct (run_inv ops _ [] (outbound_inv_initial c base Hc) Hops) as (ps & us & o' & Hr & Hu & HI).
  exists ps, o'. split; [done|]. exists us. split; [done|]. apply (inv_nodup _ _ HI).
Qed.

End outbound.

Arguments SrtpOutbound C : clear implicits.
End Outbound.
