(* ===== verification/Cipher.v ===== *)
(** * SRTP packet ciphers

    [crates/nexus-transport/src/srtp/crypto.rs] (AES-GCM of RFC 7714 and
    AES-CM with HMAC-SHA1 of RFC 3711), with the RTP header parser of
    [srtp/types.rs]. The primitives of the crates [ring], [aes-gcm], [aes],
    [ctr] and [hmac] are the parameters of the class [Crypto]; what the code
    relies on is [CryptoLaws]. *)

From S2P Require Import Prelude Replay RocIndex Direction.

(** Third-party primitives. A sealing or opening call works in place: it
    returns the new contents of the buffer, whatever its result. *)
Class Crypto := {
  ring_key_ok : list Z → bool;                                (* UnboundKey::new(&AES_128_GCM, _) *)
  ring_seal : list Z → list Z → list Z → list Z → option (list Z) * list Z;
  ring_open : list Z → list Z → list Z → list Z → bool * list Z;
  aes256_seal : list Z → list Z → list Z → list Z → option (list Z) * list Z;
  aes256_open : list Z → list Z → list Z → list Z → list Z → bool * list Z;
  aes_ctr : list Z → list Z → list Z → list Z;                (* Ctr128BE<Aes128> *)
  hmac_key_ok : list Z → bool;
  hmac_sha1 : list Z → list Z → list Z;
}.

Class CryptoLaws `{Crypto} := {
  ring_seal_len k n a d : length (ring_seal k n a d).2 = length d;
  ring_seal_tag k n a d t : (ring_seal k n a d).1 = Some t → length t = 16%nat;
  ring_open_len k n a d : length (ring_open k n a d).2 = length d;
  ring_open_seal k n a d t : (ring_seal k n a d).1 = Some t →
    (ring_open k n a ((ring_seal k n a d).2 ++ t)).1 = true ∧
    take (length d) (ring_open k n a ((ring_seal k n a d).2 ++ t)).2 = d;
  aes256_seal_len k n a d : length (aes256_seal k n a d).2 = length d;
  aes256_seal_tag k n a d t : (aes256_seal k n a d).1 = Some t → length t = 16%nat;
  aes256_open_len k n a d t : length (aes256_open k n a d t).2 = length d;
  aes256_open_seal k n a d t : (aes256_seal k n a d).1 = Some t →
    aes256_open k n a (aes256_seal k n a d).2 t = (true, d);
  aes_ctr_len k iv d : length (aes_ctr k iv d) = length d;
  aes_ctr_twice k iv d : aes_ctr k iv (aes_ctr k iv d) = d;
  hmac_len k d : length (hmac_sha1 k d) = 20%nat;
}.

Definition SRTP_AUTH_TAG_SIZE : nat := 16.
Definition MAX_PACKET_SIZE : nat := Z.to_nat 8192.

(** ** The RTP header of the SRTP layer *)
Module SrtpHeader.

Record RtpHeader := mkHeader {
  version : Z;
  padding : bool;
  extension : bool;
  csrc_count : Z;
  marker : bool;
  payload_type : Z;
  sequence_number : Z;
  timestamp : Z;
  ssrc : Z;
  header_len : nat;
}.

(** The header's length with its CSRCs and extension. *)
Definition full_len (data : list Z) (extension : bool) (csrc_count : Z) : outcome () nat :=
  let header_len := (RTP_HEADER_SIZE + Z.to_nat csrc_count * 4)%nat in
  header_len ← (if extension then
                  fail_if (bool_decide (length data < header_len + 4)%nat) ();;
                  ext_len ← read_be 2 (header_len + 2) data;
                  Ok (header_len + (4 + Z.to_nat ext_len * 4))%nat
                else Ok header_len);
  if bool_decide (length data < header_len)%nat then Err () else Ok header_len.

Definition parse (data : list Z) : outcome () RtpHeader :=
  if bool_decide (length data < RTP_HEADER_SIZE)%nat then Err () else
  first ← idx data 0;
  let version := Z.land (Z.shiftr first 6) 3 in
  if negb (version =? 2) then Err () else
  let padding := negb (Z.land first 0x20 =? 0) in
  let extension := negb (Z.land first 0x10 =? 0) in
  let csrc_count := Z.land first 0x0F in
  second ← idx data 1;
  let marker := negb (Z.land second 0x80 =? 0) in
  let payload_type := Z.land second 0x7F in
  sequence_number ← read_be 2 2 data;
  timestamp ← read_be 4 4 data;
  ssrc ← read_be 4 8 data;
  header_len ← full_len data extension csrc_count;
  Ok (mkHeader version padding extension csrc_count marker payload_type
        sequence_number timestamp ssrc header_len).

Lemma full_len_bounds data x cc n : full_len data x cc = Ok n →
  (12 + Z.to_nat cc * 4 + (if x then 4 else 0) ≤ n ≤ length data)%nat.
Proof.
  unfold full_len, RTP_HEADER_SIZE. intros H. inv_ok. case_bool_decide; [done|].
  destruct x; inv_ok; lia.
Qed.

Lemma srtp_parse_no_panic data : no_panic (parse data).
Proof.
  unfold parse, full_len. unfold RTP_HEADER_SIZE. case_bool_decide; [done|].
  repeat (np_step; try lia); try done.
Qed.

(** A header fits its packet, is at least the fixed part, and carries the SSRC
    at bytes 8 to 11. *)
Lemma srtp_parse_bounds data h : parse data = Ok h →
  (12 ≤ header_len h ≤ length data)%nat ∧ read_be (E:=()) 4 8 data = Ok (ssrc h).
Proof.
  unfold parse, RTP_HEADER_SIZE. case_bool_decide; [done|]. intros Hp. inv_ok.
  destruct (negb _); [done|]. inv_ok. cbn. split; [|done].
  match goal with H : full_len _ _ _ = _ |- _ => apply full_len_bounds in H end. lia.
Qed.

(** The header depends only on its own bytes. *)
Section prefix.
  Context (data data' : list Z) (n : nat).
  Context (Hn : (n ≤ length data)%nat) (Heq : take n data' = take n data).

Lemma prefix_len : (n ≤ length data')%nat.
Proof. pose proof (f_equal length Heq) as H. rewrite !length_take in H. lia. Qed.

Lemma prefix_lookup i : (i < n)%nat → data' !! i = data !! i.
Proof.
  intros. rewrite <- (lookup_take_lt data n), <- (lookup_take_lt data' n) by done. by rewrite Heq.
Qed.

Lemma prefix_read {E} k a : (a + k ≤ n)%nat → read_be (E:=E) k a data' = read_be k a data.
Proof.
  intros. pose proof prefix_len. rewrite !read_be_ok by lia. do 2 f_equal. apply list_eq.
  intros i. rewrite !lookup_sub_list. case_decide; [|done]. apply prefix_lookup. lia.
Qed.

Lemma full_len_prefix x cc : full_len data x cc = Ok n → full_len data' x cc = Ok n.
Proof.
  intros H. pose proof (full_len_bounds _ _ _ _ H) as Hb. pose proof prefix_len.
  unfold full_len, RTP_HEADER_SIZE in *. destruct x.
  - rewrite bool_decide_eq_false_2 by lia. rewrite bool_decide_eq_false_2 in H by lia. cbn in *.
    rewrite prefix_read by lia. destruct (read_be _ _ _) as [e| |]; cbn in *; try done.
    case_bool_decide; [done|]. injection H as H. by rewrite H, bool_decide_eq_false_2 by lia.
  - cbn in *. case_bool_decide; [done|]. inv_ok. by rewrite bool_decide_eq_false_2 by lia.
Qed.
End prefix.

Lemma parse_prefix data data' h : parse data = Ok h →
  take (header_len h) data' = take (header_len h) data → parse data' = Ok h.
Proof.
  intros Hp Heq. destruct (srtp_parse_bounds _ _ Hp) as [[Hb Hb'] _].
  pose proof (prefix_len _ _ _ Hb' Heq). rewrite <- Hp.
  unfold parse in Hp |- *. unfold RTP_HEADER_SIZE in *. rewrite !bool_decide_false by lia.
  rewrite bool_decide_false in Hp by lia. unfold idx in *.
  rewrite !(prefix_lookup _ _ _ Heq), !(prefix_read _ _ _ Hb' Heq) by lia.
  destruct (data !! 0%nat) as [first|]; cbn [expect mbind outcome_bind] in *; [|done].
  destruct (negb _); [done|]. inv_ok.
  repeat (apply bind_ext; intros ? ?). f_equal.
  cbn [header_len] in *. etrans; [by eapply full_len_prefix|done].
Qed.

End SrtpHeader.

(** [dst[off + i] ^= src[i]] for every [i] *)
Definition xor_into (off : nat) (src dst : list Z) : list Z :=
  splice off (zip_with Z.lxor (sub_list off (off + length src) dst) src) dst.

(** Bytes 5 to 0 of an index, as [(idx >> 40) as u8], ..., [idx as u8]. *)
Definition index_bytes (idx : Z) : list Z :=
  [wrap 8 (Z.shiftr idx 40); wrap 8 (Z.shiftr idx 32); wrap 8 (Z.shiftr idx 24);
   wrap 8 (Z.shiftr idx 16); wrap 8 (Z.shiftr idx 8); wrap 8 idx].

(** Runs code on [&mut packet[a..b]]. *)
Definition on_range {E A} (a b : nat) (m : st (list Z) E A) : st (list Z) E A := fun packet =>
  match slice (E:=E) a b packet with
  | Ok d =>
    match m d with
    | Ok (r, d') => Ok (r, splice a d' packet)
    | Err (e, d') => Err (e, splice a d' packet)
    | Panic => Panic
    end
  | _ => Panic
  end.

(** [packet[at..at + src.len()].copy_from_slice(src)] *)
Definition write {E} (at_ : nat) (src : list Z) : st (list Z) E () := fun packet =>
  match copy_at (E:=E) at_ src packet with Ok p => Ok ((), p) | _ => Panic end.

(** ** AES-GCM *)
Module Gcm.
Section gcm.
Context `{Crypto}.

(** A key: AES-128 on [ring], AES-256 on [aes-gcm]. *)
Inductive GcmKey := Aes128 (k : list Z) | Aes256 (k : list Z).

Definition new_128 (key : list Z) : outcome SrtpError GcmKey :=
  assert_ (bool_decide (length key = 16%nat));;
  fail_if (negb (ring_key_ok key)) InvalidKeyMaterial;;
  Ok (Aes128 key).

Definition new_256 (key : list Z) : outcome SrtpError GcmKey :=
  assert_ (bool_decide (length key = 32%nat));;
  Ok (Aes256 key).

(** Encrypts the data in place; the detached tag. *)
Definition seal (k : GcmKey) (nonce aad : list Z) : st (list Z) SrtpError (list Z) := fun data =>
  let '(tag, data') := match k with
                       | Aes128 k => ring_seal k nonce aad data
                       | Aes256 k => aes256_seal k nonce aad data
                       end in
  match tag with Some t => Ok (t, data') | None => Err (EncryptionFailed, data') end.

(** Authenticates and decrypts ciphertext and tag in place; the plaintext's
    length. *)
Definition open (k : GcmKey) (nonce aad : list Z) : st (list Z) SrtpError nat := fun data_and_tag =>
  if bool_decide (length data_and_tag < SRTP_AUTH_TAG_SIZE)%nat then Err (PacketTooShort, data_and_tag)
  else
    let n := (length data_and_tag - SRTP_AUTH_TAG_SIZE)%nat in
    let '(good, data') :=
      match k with
      | Aes128 k => ring_open k nonce aad data_and_tag
      | Aes256 k =>
        let '(good, data) := aes256_open k nonce aad (take n data_and_tag) (drop n data_and_tag) in
        (good, data ++ drop n data_and_tag)
      end in
    if good : bool then Ok (n, data') else Err (AuthenticationFailed, data').

Record AesGcmCipher := mkGcm {
  rtp_cipher : GcmKey;
  rtp_salt : list Z;
  rtcp_cipher : GcmKey;
  rtcp_salt : list Z;
}.

Definition build_rtp_nonce (c : AesGcmCipher) (ssrc index : Z) : list Z :=
  xor_into 6 (index_bytes index) (xor_into 2 (to_be 4 ssrc) (rtp_salt c)).

Definition build_rtcp_nonce (c : AesGcmCipher) (ssrc srtcp_index : Z) : outcome SrtpError (list Z) :=
  assert_ (Z.land srtcp_index SRTCP_E_FLAG =? 0);; (* debug_assert! *)
  Ok (xor_into 8 (to_be 4 srtcp_index) (xor_into 2 (to_be 4 ssrc) (rtcp_salt c))).

Definition parse_rtp_header_for_protect (packet : list Z) (packet_len : nat)
  : outcome SrtpError SrtpHeader.RtpHeader :=
  assert_ (bool_decide (packet_len ≤ length packet)%nat);;
  map_err (fun _ => InvalidRtpHeader) (SrtpHeader.parse (take packet_len packet)).

Definition encrypt_rtp_payload (c : AesGcmCipher) (packet_len : nat) (header : SrtpHeader.RtpHeader)
    (index : Z) : st (list Z) SrtpError nat :=
  packet ← get;
  let header_len := SrtpHeader.header_len header in
  lift (assert_ (bool_decide (header_len ≤ packet_len)%nat));;
  lift (assert_ (bool_decide (packet_len + SRTP_AUTH_TAG_SIZE ≤ length packet)%nat));;
  let nonce := build_rtp_nonce c (SrtpHeader.ssrc header) index in
  let head := take header_len packet in
  tag ← on_range header_len packet_len (seal (rtp_cipher c) nonce head);
  write packet_len tag;;
  mret (packet_len + SRTP_AUTH_TAG_SIZE)%nat.

Definition protect_rtp (c : AesGcmCipher) (packet_len : nat) (index : Z) : st (list Z) SrtpError nat :=
  packet ← get;
  lift (assert_ (bool_decide (packet_len ≤ length packet)%nat));;
  lift (fail_if (bool_decide (packet_len < RTP_HEADER_SIZE)%nat) PacketTooShort);;
  lift (fail_if (bool_decide (MAX_PACKET_SIZE < packet_len)%nat) PacketTooLarge);;
  header ← lift (parse_rtp_header_for_protect packet packet_len);
  let output_len := (packet_len + SRTP_AUTH_TAG_SIZE)%nat in
  lift (fail_if (bool_decide (length packet < output_len)%nat) BufferTooSmall);;
  encrypt_rtp_payload c packet_len header index.

Definition parse_rtp_header_for_unprotect (packet : list Z) (packet_len : nat)
  : outcome SrtpError SrtpHeader.RtpHeader :=
  assert_ (bool_decide (packet_len ≤ length packet)%nat);;
  header ← map_err (fun _ => InvalidRtpHeader) (SrtpHeader.parse (take packet_len packet));
  fail_if (bool_decide (packet_len < SrtpHeader.header_len header + SRTP_AUTH_TAG_SIZE)%nat) PacketTooShort;;
  Ok header.

Definition decrypt_rtp_payload (c : AesGcmCipher) (packet_len : nat) (header : SrtpHeader.RtpHeader)
    (index : Z) : st (list Z) SrtpError nat :=
  packet ← get;
  let header_len := SrtpHeader.header_len header in
  lift (assert_ (bool_decide (header_len ≤ packet_len)%nat));;
  lift (assert_ (bool_decide (header_len + SRTP_AUTH_TAG_SIZE ≤ packet_len)%nat));;
  let nonce := build_rtp_nonce c (SrtpHeader.ssrc header) index in
  let head := take header_len packet in
  plain_len ← on_range header_len packet_len (open (rtp_cipher c) nonce head);
  mret (header_len + plain_len)%nat.

Definition unprotect_rtp (c : AesGcmCipher) (packet_len : nat) (index : Z) : st (list Z) SrtpError nat :=
  packet ← get;
  lift (assert_ (bool_decide (packet_len ≤ length packet)%nat));;
  lift (fail_if (bool_decide (packet_len < RTP_HEADER_SIZE + SRTP_AUTH_TAG_SIZE)%nat) PacketTooShort);;
  lift (fail_if (bool_decide (MAX_PACKET_SIZE < packet_len)%nat) PacketTooLarge);;
  header ← lift (parse_rtp_header_for_unprotect packet packet_len);
  decrypt_rtp_payload c packet_len header index.

Definition encrypt_rtcp_payload (c : AesGcmCipher) (packet_len : nat) (srtcp_index : Z)
  : st (list Z) SrtpError nat :=
  packet ← get;
  lift (assert_ (bool_decide (RTCP_HEADER_SIZE ≤ packet_len)%nat));;
  lift (assert_ (bool_decide (packet_len + 4 + SRTP_AUTH_TAG_SIZE ≤ length packet)%nat));;
  ssrc ← lift (read_be 4 4 packet);
  nonce ← lift (build_rtcp_nonce c ssrc srtcp_index);
  let index_with_e := Z.lor srtcp_index SRTCP_E_FLAG in
  header ← lift (slice 0 RTCP_HEADER_SIZE packet);
  let aad := header ++ to_be 4 index_with_e in
  tag ← on_range RTCP_HEADER_SIZE packet_len (seal (rtcp_cipher c) nonce aad);
  let index_offset := (packet_len + SRTP_AUTH_TAG_SIZE)%nat in
  write packet_len tag;;
  write index_offset (to_be 4 index_with_e);;
  mret (index_offset + 4)%nat.

Definition protect_rtcp (c : AesGcmCipher) (packet_len : nat) (srtcp_index : Z)
  : st (list Z) SrtpError nat :=
  packet ← get;
  lift (assert_ (bool_decide (packet_len ≤ length packet)%nat));;
  lift (assert_ (srtcp_index <=? SRTCP_INDEX_MASK));;
  lift (fail_if (bool_decide (packet_len < RTCP_HEADER_SIZE)%nat) PacketTooShort);;
  lift (fail_if (bool_decide (MAX_PACKET_SIZE < packet_len)%nat) PacketTooLarge);;
  let output_len := (packet_len + 4 + SRTP_AUTH_TAG_SIZE)%nat in
  lift (fail_if (bool_decide (length packet < output_len)%nat) BufferTooSmall);;
  encrypt_rtcp_payload c packet_len srtcp_index.

Definition extract_srtcp_index (packet : list Z) (packet_len : nat) : outcome SrtpError (Z * bool) :=
  assert_ (bool_decide (RTCP_HEADER_SIZE + SRTP_AUTH_TAG_SIZE + 4 ≤ packet_len)%nat);;
  index_with_e ← read_be 4 (packet_len - 4) packet;
  Ok (Z.land index_with_e SRTCP_INDEX_MASK, negb (Z.land index_with_e SRTCP_E_FLAG =? 0)).

Definition decrypt_rtcp_payload (c : AesGcmCipher) (packet_len : nat) (srtcp_index : Z)
  : st (list Z) SrtpError (nat * Z) :=
  packet ← get;
  lift (assert_ (bool_decide (RTCP_HEADER_SIZE + SRTP_AUTH_TAG_SIZE + 4 ≤ packet_len)%nat));;
  let index_offset := (packet_len - 4)%nat in
  let tag_offset := (index_offset - SRTP_AUTH_TAG_SIZE)%nat in
  ssrc ← lift (read_be 4 4 packet);
  nonce ← lift (build_rtcp_nonce c ssrc srtcp_index);
  header ← lift (slice 0 RTCP_HEADER_SIZE packet);
  trailer ← lift (slice index_offset packet_len packet);
  let aad := header ++ trailer in
  plain_len ← on_range RTCP_HEADER_SIZE index_offset (open (rtcp_cipher c) nonce aad);
  lift (assert_ (bool_decide (RTCP_HEADER_SIZE + plain_len = tag_offset)%nat));;
  mret ((RTCP_HEADER_SIZE + plain_len)%nat, srtcp_index).

Definition unprotect_rtcp (c : AesGcmCipher) (packet_len : nat) : st (list Z) SrtpError (nat * Z) :=
  packet ← get;
  lift (assert_ (bool_decide (packet_len ≤ length packet)%nat));;
  lift (fail_if (bool_decide (packet_len < RTCP_HEADER_SIZE + 4 + SRTP_AUTH_TAG_SIZE)%nat) PacketTooShort);;
  lift (fail_if (bool_decide (MAX_PACKET_SIZE < packet_len)%nat) PacketTooLarge);;
  '(srtcp_index, _) ← lift (extract_srtcp_index packet packet_len);
  decrypt_rtcp_payload c packet_len srtcp_index.

(** The salts are 12-byte arrays. *)
Definition wf (c : AesGcmCipher) : Prop := length (rtp_salt c) = 12%nat ∧ length (rtcp_salt c) = 12%nat.

End gcm.
End Gcm.

(** ** AES-CM with HMAC-SHA1 *)
Module CmHmac.

(** [a.len() == b.len()] is asserted; the difference of all bytes is 0. *)
Definition constant_time_eq {E} (a b : list Z) : outcome E bool :=
  assert_ (bool_decide (length a = length b));;
  Ok (fold_left Z.lor (zip_with Z.lxor a b) 0 =? 0).

Section cm.
Context `{Crypto}.

(** Key schedules and keyed MAC states are those of their keys. *)
Record AesCmHmacCipher := mkCm {
  rtp_aes : list Z;
  rtp_salt : list Z;
  rtp_mac : list Z;
  rtcp_aes : list Z;
  rtcp_salt : list Z;
  rtcp_mac : list Z;
  tag_len : nat;
}.

Definition aes_cm_encrypt (aes iv : list Z) : st (list Z) SrtpError () :=
  modify (aes_ctr aes iv).

Definition build_rtp_iv (salt : list Z) (ssrc index : Z) : list Z :=
  xor_into 8 (index_bytes index) (xor_into 4 (to_be 4 ssrc) (splice 0 salt (replicate 16 0))).

Definition build_rtcp_iv (salt : list Z) (ssrc srtcp_index : Z) : outcome SrtpError (list Z) :=
  assert_ (Z.land srtcp_index SRTCP_E_FLAG =? 0);; (* debug_assert! *)
  Ok (xor_into 10 (to_be 4 srtcp_index) (xor_into 4 (to_be 4 ssrc) (splice 0 salt (replicate 16 0)))).

Definition compute_auth_tag (keyed data : list Z) (roc : Z) (tag_len : nat) : outcome SrtpError (list Z) :=
  assert_ (bool_decide (tag_len ≤ 20)%nat);;
  Ok (hmac_sha1 keyed (data ++ to_be 4 roc)).

Definition protect_rtp (c : AesCmHmacCipher) (packet_len : nat) (index : Z) : st (list Z) SrtpError nat :=
  packet ← get;
  lift (assert_ (bool_decide (packet_len ≤ length packet)%nat));;
  lift (fail_if (bool_decide (packet_len < RTP_HEADER_SIZE)%nat) PacketTooShort);;
  lift (fail_if (bool_decide (MAX_PACKET_SIZE < packet_len)%nat) PacketTooLarge);;
  header ← lift (map_err (fun _ => InvalidRtpHeader) (SrtpHeader.parse (take packet_len packet)));
  let output_len := (packet_len + tag_len c)%nat in
  lift (fail_if (bool_decide (length packet < output_len)%nat) BufferTooSmall);;
  let iv := build_rtp_iv (rtp_salt c) (SrtpHeader.ssrc header) index in
  on_range (SrtpHeader.header_len header) packet_len (aes_cm_encrypt (rtp_aes c) iv);;
  packet ← get;
  tag ← lift (compute_auth_tag (rtp_mac c) (take packet_len packet) (PacketIndex.roc index) (tag_len c));
  write packet_len (take (tag_len c) tag);;
  mret output_len.

Definition unprotect_rtp (c : AesCmHmacCipher) (packet_len : nat) (index : Z) : st (list Z) SrtpError nat :=
  packet ← get;
  lift (assert_ (bool_decide (packet_len ≤ length packet)%nat));;
  lift (fail_if (bool_decide (packet_len < RTP_HEADER_SIZE + tag_len c)%nat) PacketTooShort);;
  lift (fail_if (bool_decide (MAX_PACKET_SIZE < packet_len)%nat) PacketTooLarge);;
  header ← lift (map_err (fun _ => InvalidRtpHeader) (SrtpHeader.parse (take packet_len packet)));
  lift (fail_if (bool_decide (packet_len < SrtpHeader.header_len header + tag_len c)%nat) PacketTooShort);;
  let ciphertext_end := (packet_len - tag_len c)%nat in
  expected_tag ← lift (compute_auth_tag (rtp_mac c) (take ciphertext_end packet)
                         (PacketIndex.roc index) (tag_len c));
  received_tag ← lift (slice ciphertext_end packet_len packet);
  eq ← lift (constant_time_eq (take (tag_len c) expected_tag) received_tag);
  lift (fail_if (negb eq) AuthenticationFailed);;
  let iv := build_rtp_iv (rtp_salt c) (SrtpHeader.ssrc header) index in
  on_range (SrtpHeader.header_len header) ciphertext_end (aes_cm_encrypt (rtp_aes c) iv);;
  mret ciphertext_end.

Definition protect_rtcp (c : AesCmHmacCipher) (packet_len : nat) (srtcp_index : Z)
  : st (list Z) SrtpError nat :=
  packet ← get;
  lift (assert_ (bool_decide (packet_len ≤ length packet)%nat));;
  lift (assert_ (srtcp_index <=? SRTCP_INDEX_MASK));;
  lift (fail_if (bool_decide (packet_len < RTCP_HEADER_SIZE)%nat) PacketTooShort);;
  lift (fail_if (bool_decide (MAX_PACKET_SIZE < packet_len)%nat) PacketTooLarge);;
  let output_len := (packet_len + 4 + tag_len c)%nat in
  lift (fail_if (bool_decide (length packet < output_len)%nat) BufferTooSmall);;
  ssrc ← lift (read_be 4 4 packet);
  iv ← lift (build_rtcp_iv (rtcp_salt c) ssrc srtcp_index);
  on_range RTCP_HEADER_SIZE packet_len (aes_cm_encrypt (rtcp_aes c) iv);;
  let index_with_e := Z.lor srtcp_index SRTCP_E_FLAG in
  write packet_len (to_be 4 index_with_e);;
  let auth_end := (packet_len + 4)%nat in
  packet ← get;
  data ← lift (slice 0 auth_end packet);
  let result := hmac_sha1 (rtcp_mac c) data in
  write auth_end (take (tag_len c) result);;
  mret (auth_end + tag_len c)%nat.

Definition unprotect_rtcp (c : AesCmHmacCipher) (packet_len : nat) : st (list Z) SrtpError (nat * Z) :=
  packet ← get;
  lift (assert_ (bool_decide (packet_len ≤ length packet)%nat));;
  lift (fail_if (bool_decide (packet_len < RTCP_HEADER_SIZE + 4 + tag_len c)%nat) PacketTooShort);;
  lift (fail_if (bool_decide (MAX_PACKET_SIZE < packet_len)%nat) PacketTooLarge);;
  let tag_offset := (packet_len - tag_len c)%nat in
  let index_offset := (tag_offset - 4)%nat in
  let expected := hmac_sha1 (rtcp_mac c) (take tag_offset packet) in
  received ← lift (slice tag_offset packet_len packet);
  eq ← lift (constant_time_eq (take (tag_len c) expected) received);
  lift (fail_if (negb eq) AuthenticationFailed);;
  index_with_e ← lift (read_be 4 index_offset packet);
  let srtcp_index := Z.land index_with_e SRTCP_INDEX_MASK in
  let encrypted := negb (Z.land index_with_e SRTCP_E_FLAG =? 0) in
  if negb encrypted then mret (index_offset, srtcp_index) else
  ssrc ← lift (read_be 4 4 packet);
  iv ← lift (build_rtcp_iv (rtcp_salt c) ssrc srtcp_index);
  on_range RTCP_HEADER_SIZE index_offset (aes_cm_encrypt (rtcp_aes c) iv);;
  mret (index_offset, srtcp_index).

(** The salts are 14-byte arrays, the tag has 10 or 4 bytes. *)
Definition wf (c : AesCmHmacCipher) : Prop :=
  length (rtp_salt c) = 14%nat ∧ length (rtcp_salt c) = 14%nat ∧
  (tag_len c = 10 ∨ tag_len c = 4)%nat.

End cm.
End CmHmac.

(** ** The unified cipher *)
Module Unified.
Section unified.
Context `{Crypto}.

Inductive SrtpCipher :=
| AesGcm (c : Gcm.AesGcmCipher)
| AesCmHmac (c : CmHmac.AesCmHmacCipher).

Definition tag_len (c : SrtpCipher) : nat :=
  match c with AesGcm _ => SRTP_AUTH_TAG_SIZE | AesCmHmac c => CmHmac.tag_len c end.

(** [matches!(self, AesGcm(_))] *)
Definition is_aead (c : SrtpCipher) : bool :=
  match c with AesGcm _ => true | AesCmHmac _ => false end.

Definition protect_rtp (c : SrtpCipher) (packet_len : nat) (index : Z) : st (list Z) SrtpError nat :=
  match c with
  | AesGcm c => Gcm.protect_rtp c packet_len index
  | AesCmHmac c => CmHmac.protect_rtp c packet_len index
  end.

Definition unprotect_rtp (c : SrtpCipher) (packet_len : nat) (index : Z) : st (list Z) SrtpError nat :=
  match c with
  | AesGcm c => Gcm.unprotect_rtp c packet_len index
  | AesCmHmac c => CmHmac.unprotect_rtp c packet_len index
  end.

Definition protect_rtcp (c : SrtpCipher) (packet_len : nat) (srtcp_index : Z) : st (list Z) SrtpError nat :=
  match c with
  | AesGcm c => Gcm.protect_rtcp c packet_len srtcp_index
  | AesCmHmac c => CmHmac.protect_rtcp c packet_len srtcp_index
  end.

Definition unprotect_rtcp (c : SrtpCipher) (packet_len : nat) : st (list Z) SrtpError (nat * Z) :=
  match c with
  | AesGcm c => Gcm.unprotect_rtcp c packet_len
  | AesCmHmac c => CmHmac.unprotect_rtcp c packet_len
  end.

Definition wf (c : SrtpCipher) : Prop :=
  match c with AesGcm c => Gcm.wf c | AesCmHmac c => CmHmac.wf c end.

#[global] Instance srtp_cipher : Direction.SrtpCipher SrtpCipher := {|
  Direction.tag_len := tag_len;
  Direction.is_aead := is_aead;
  cipher_protect_rtp := protect_rtp;
  cipher_unprotect_rtp := unprotect_rtp;
  cipher_protect_rtcp := protect_rtcp;
  cipher_unprotect_rtcp := unprotect_rtcp;
|}.

End unified.
End Unified.
