(* ===== verification/CipherProofs.v ===== *)
(** * Theorems about the SRTP packet ciphers

    The ciphers of [Cipher.v] keep the contract [SrtpCipherLaws] that the
    contexts of [Inbound.v] and [Outbound.v] rely on; unprotecting undoes
    protecting; different (SSRC, index) pairs get different nonces. *)

From S2P Require Import Prelude Replay RocIndex Direction Cipher.

Lemma on_range_run {E A} a b (m : st (list Z) E A) p : (a ≤ b)%nat → (b ≤ length p)%nat →
  on_range a b m p =
    match m (sub_list a b p) with
    | Ok (r, d) => Ok (r, splice a d p)
    | Err (e, d) => Err (e, splice a d p)
    | Panic => Panic
    end.
Proof. intros. unfold on_range, slice. by rewrite decide_True. Qed.

Lemma write_run {E} at_ src p : (at_ + length src ≤ length p)%nat →
  write (E:=E) at_ src p = Ok ((), splice at_ src p).
Proof. intros. unfold write, copy_at. by rewrite decide_True. Qed.

(** Bytes below a write, and a write at the end of a prefix. *)
Lemma take_splice_below n at_ src (p : list Z) :
  (n ≤ at_)%nat → (at_ + length src ≤ length p)%nat → take n (splice at_ src p) = take n p.
Proof.
  intros. apply list_eq. intros i. destruct (decide (i < n)%nat).
  - rewrite !lookup_take_lt, lookup_splice by lia. case_decide; [lia|done].
  - by rewrite !lookup_take_ge by lia.
Qed.

Lemma take_splice_end at_ src (p : list Z) : (at_ + length src ≤ length p)%nat →
  take (at_ + length src) (splice at_ src p) = take at_ p ++ src.
Proof.
  intros. unfold splice. rewrite app_assoc. apply take_app_length'.
  rewrite length_app, length_take. lia.
Qed.

Section laws.
Context `{CryptoLaws}.

(** ** GCM *)

Lemma seal_len k nonce aad d :
  match Gcm.seal k nonce aad d with
  | Ok (t, ct) => length ct = length d ∧ length t = 16%nat
  | Err (_, ct) => length ct = length d
  | Panic => False
  end.
Proof.
  unfold Gcm.seal. destruct k as [k|k].
  - pose proof (ring_seal_len k nonce aad d). pose proof (ring_seal_tag k nonce aad d) as Ht.
    destruct (ring_seal _ _ _ _) as [[t|] ct]; cbn in *; auto.
  - pose proof (aes256_seal_len k nonce aad d). pose proof (aes256_seal_tag k nonce aad d) as Ht.
    destruct (aes256_seal _ _ _ _) as [[t|] ct]; cbn in *; auto.
Qed.

Lemma open_len k nonce aad d :
  match Gcm.open k nonce aad d with
  | Ok (n, p) => (n + 16 = length d)%nat ∧ length p = length d
  | Err (_, p) => length p = length d
  | Panic => False
  end.
Proof.
  unfold Gcm.open, SRTP_AUTH_TAG_SIZE. case_bool_decide as Hl; [done|]. destruct k as [k|k].
  - pose proof (ring_open_len k nonce aad d). destruct (ring_open _ _ _ _) as [[] p]; cbn in *; lia.
  - pose proof (aes256_open_len k nonce aad (take (length d - 16) d) (drop (length d - 16) d)) as Ho.
    destruct (aes256_open _ _ _ _ _) as [[] p]; cbn in *;
      rewrite length_app, length_drop, Ho, length_take; lia.
Qed.

Lemma open_seal k nonce aad d t ct : Gcm.seal k nonce aad d = Ok (t, ct) →
  ∃ p, Gcm.open k nonce aad (ct ++ t) = Ok (length d, p) ∧ take (length d) p = d ∧
    length p = (length d + 16)%nat.
Proof.
  intros Hs. pose proof (seal_len k nonce aad d) as Hl. rewrite Hs in Hl. destruct Hl as [Hct Ht].
  pose proof (open_len k nonce aad (ct ++ t)) as Ho. revert Ho Hs.
  unfold Gcm.open, Gcm.seal, SRTP_AUTH_TAG_SIZE. rewrite length_app, bool_decide_eq_false_2 by lia.
  replace (length ct + length t - 16)%nat with (length d) by lia.
  rewrite take_app_length', drop_app_length' by done.
  destruct k as [k|k].
  - pose proof (ring_open_seal k nonce aad d) as Hr.
    destruct (ring_seal _ _ _ _) as [[t'|] ct'] eqn:Hseal; [|done]. intros Ho [= -> ->].
    destruct (Hr t eq_refl) as [Hg Hp]. cbn [snd] in *.
    destruct (ring_open k nonce aad (ct ++ t)) as [good p] eqn:Hopen. cbn in *. subst good.
    exists p. split; [done|]. split; [done|]. lia.
  - pose proof (aes256_open_seal k nonce aad d) as Hr.
    destruct (aes256_seal _ _ _ _) as [[t'|] ct'] eqn:Hseal; [|done]. intros Ho [= -> ->].
    specialize (Hr t eq_refl). cbn in *. rewrite Hr in *. cbn in *.
    eexists. split; [done|]. rewrite take_app_length, length_app. split; [done|lia].
Qed.

Ltac guards :=
  unfold SRTP_AUTH_TAG_SIZE, RTP_HEADER_SIZE, RTCP_HEADER_SIZE in *;
  repeat match goal with
  | |- context [bool_decide ?P] =>
      first [rewrite (bool_decide_eq_true_2 P) by lia | rewrite (bool_decide_eq_false_2 P) by lia]
  end.

Lemma gcm_protect_rtp_eq c len index p : (12 ≤ len ≤ length p)%nat →
  Gcm.protect_rtp c len index p =
    (if bool_decide (MAX_PACKET_SIZE < len)%nat then Err (PacketTooLarge, p) else
     match SrtpHeader.parse (take len p) with
     | Ok h =>
       if bool_decide (length p < len + 16)%nat then Err (BufferTooSmall, p) else
       match Gcm.seal (Gcm.rtp_cipher c) (Gcm.build_rtp_nonce c (SrtpHeader.ssrc h) index)
               (take (SrtpHeader.header_len h) p) (sub_list (SrtpHeader.header_len h) len p) with
       | Ok (t, ct) => Ok ((len + 16)%nat, splice len t (splice (SrtpHeader.header_len h) ct p))
       | Err (e, ct) => Err (e, splice (SrtpHeader.header_len h) ct p)
       | Panic => Panic
       end
     | _ => Err (InvalidRtpHeader, p)
     end).
Proof.
  intros Hl. unfold Gcm.protect_rtp, Gcm.parse_rtp_header_for_protect. run_st. guards.
  destruct (bool_decide (MAX_PACKET_SIZE < len)%nat); [done|].
  pose proof (SrtpHeader.srtp_parse_no_panic (take len p)) as Hnp.
  destruct (SrtpHeader.parse (take len p)) as [h|e|] eqn:Hh; [|done|done]. cbn [map_err].
  apply SrtpHeader.srtp_parse_bounds in Hh as [Hh _]. rewrite length_take in Hh.
  case_bool_decide; [done|]. unfold Gcm.encrypt_rtp_payload. run_st. guards.
  rewrite on_range_run by lia.
  pose proof (seal_len (Gcm.rtp_cipher c) (Gcm.build_rtp_nonce c (SrtpHeader.ssrc h) index)
    (take (SrtpHeader.header_len h) p) (sub_list (SrtpHeader.header_len h) len p)) as Hs.
  destruct (Gcm.seal _ _ _ _) as [[t ct]|[e ct]|]; [|done|done].
  rewrite length_sub_list in Hs by lia. rewrite write_run; [done|].
  rewrite length_splice; lia.
Qed.

Lemma gcm_protect_rtp_law c len index p : (12 ≤ len ≤ length p)%nat →
  match Gcm.protect_rtp c len index p with
  | Ok (n, p') => n = (len + 16)%nat ∧ length p' = length p ∧ (n ≤ length p)%nat
  | Err (_, p') => length p' = length p
  | Panic => False
  end.
Proof.
  intros Hl. rewrite gcm_protect_rtp_eq by done. case_bool_decide; [done|].
  destruct (SrtpHeader.parse (take len p)) as [h|e|] eqn:Hh; [|done|done].
  apply SrtpHeader.srtp_parse_bounds in Hh as [Hh _]. rewrite length_take in Hh.
  case_bool_decide; [done|].
  pose proof (seal_len (Gcm.rtp_cipher c) (Gcm.build_rtp_nonce c (SrtpHeader.ssrc h) index)
    (take (SrtpHeader.header_len h) p) (sub_list (SrtpHeader.header_len h) len p)) as Hs.
  rewrite length_sub_list in Hs by lia.
  destruct (Gcm.seal _ _ _ _) as [[t ct]|[e ct]|]; [|by rewrite length_splice by lia|done].
  rewrite length_splice by (rewrite length_splice; lia). rewrite length_splice by lia. lia.
Qed.

Lemma gcm_unprotect_rtp_eq c len index p : (len ≤ length p)%nat →
  Gcm.unprotect_rtp c len index p =
    (if bool_decide (len < 28)%nat then Err (PacketTooShort, p) else
     if bool_decide (MAX_PACKET_SIZE < len)%nat then Err (PacketTooLarge, p) else
     match SrtpHeader.parse (take len p) with
     | Ok h =>
       let hl := SrtpHeader.header_len h in
       if bool_decide (len < hl + 16)%nat then Err (PacketTooShort, p) else
       match Gcm.open (Gcm.rtp_cipher c) (Gcm.build_rtp_nonce c (SrtpHeader.ssrc h) index)
               (take hl p) (sub_list hl len p) with
       | Ok (n, d) => Ok ((hl + n)%nat, splice hl d p)
       | Err (e, d) => Err (e, splice hl d p)
       | Panic => Panic
       end
     | _ => Err (InvalidRtpHeader, p)
     end).
Proof.
  intros Hl. unfold Gcm.unprotect_rtp, Gcm.parse_rtp_header_for_unprotect. run_st. guards.
  change (12 + 16)%nat with 28%nat.
  case_bool_decide as H28; [done|]. case_bool_decide; [done|].
  pose proof (SrtpHeader.srtp_parse_no_panic (take len p)) as Hnp.
  destruct (SrtpHeader.parse (take len p)) as [h|e|] eqn:Hh; [|done|done]. cbn [map_err].
  apply SrtpHeader.srtp_parse_bounds in Hh as [Hh _]. rewrite length_take in Hh.
  case_bool_decide; [done|]. unfold Gcm.decrypt_rtp_payload. run_st. guards.
  rewrite on_range_run by lia. by destruct (Gcm.open _ _ _ _) as [[n d]|[e d]|].
Qed.

Lemma gcm_unprotect_rtp_law c len index p : (len ≤ length p)%nat →
  match Gcm.unprotect_rtp c len index p with
  | Ok (n, p') => (12 ≤ n < len)%nat ∧ length p' = length p
  | Err (_, p') => length p' = length p
  | Panic => False
  end.
Proof.
  intros Hl. rewrite gcm_unprotect_rtp_eq by done. do 2 (case_bool_decide; [done|]).
  destruct (SrtpHeader.parse (take len p)) as [h|e|] eqn:Hh; [|done|done].
  apply SrtpHeader.srtp_parse_bounds in Hh as [Hh _]. rewrite length_take in Hh. cbv zeta.
  case_bool_decide; [done|].
  pose proof (open_len (Gcm.rtp_cipher c) (Gcm.build_rtp_nonce c (SrtpHeader.ssrc h) index)
    (take (SrtpHeader.header_len h) p) (sub_list (SrtpHeader.header_len h) len p)) as Hs.
  rewrite length_sub_list in Hs by lia.
  destruct (Gcm.open _ _ _ _) as [[n d]|[e d]|]; [|by rewrite length_splice by lia|done].
  rewrite length_splice by lia. lia.
Qed.

(** What a decryption that returns the plaintext leaves in front of the tag. *)
Lemma take_splice_plain a b d plain (p q : list Z) : (a ≤ b ≤ length p)%nat →
  plain = sub_list a b q → take a p = take a q → (b ≤ length q)%nat →
  take (b - a) d = plain → (a + length d ≤ length p)%nat →
  take b (splice a d p) = take b q.
Proof.
  intros Hab -> Hpre Hq Hd Hl. apply list_eq. intros i.
  assert (Hdl : (b - a ≤ length d)%nat).
  { apply (f_equal length) in Hd. rewrite length_take, length_sub_list in Hd by lia. lia. }
  destruct (decide (i < b)%nat); [|by rewrite !lookup_take_ge by lia].
  rewrite !lookup_take_lt, lookup_splice by lia. case_decide as Hi.
  - rewrite <- (lookup_take_lt d (b - a)), Hd, lookup_sub_list by lia. case_decide; [|lia]. f_equal. lia.
  - rewrite <- (lookup_take_lt p a), Hpre, lookup_take_lt by lia. done.
Qed.

Lemma gcm_rtp_roundtrip c len index p n p' :
  (12 ≤ len ≤ length p)%nat → (len + 16 ≤ MAX_PACKET_SIZE)%nat →
  Gcm.protect_rtp c len index p = Ok (n, p') →
  ∃ p'', Gcm.unprotect_rtp c n index p' = Ok (len, p'') ∧ take len p'' = take len p.
Proof.
  intros Hl Hmax Hp. pose proof (gcm_protect_rtp_law c len index p Hl) as Hlaw. rewrite Hp in Hlaw.
  destruct Hlaw as (-> & Hlp' & Hlen). rewrite gcm_protect_rtp_eq in Hp by done.
  rewrite bool_decide_eq_false_2 in Hp by lia.
  destruct (SrtpHeader.parse (take len p)) as [h|e|] eqn:Hh; [|done|done].
  pose proof (SrtpHeader.srtp_parse_bounds _ _ Hh) as [Hb _]. rewrite length_take in Hb.
  rewrite bool_decide_eq_false_2 in Hp by lia.
  set (hl := SrtpHeader.header_len h) in *. set (nonce := Gcm.build_rtp_nonce _ _ _) in *.
  destruct (Gcm.seal _ _ _ _) as [[t ct]|[e ct]|] eqn:Hs; [|done|done]. injection Hp as <-.
  pose proof (seal_len (Gcm.rtp_cipher c) nonce (take hl p) (sub_list hl len p)) as Hsl.
  rewrite Hs, length_sub_list in Hsl by lia. destruct Hsl as [Hct Ht].
  destruct (open_seal _ _ _ _ _ _ Hs) as (d & Hopen & Hd & Hdl).
  rewrite length_sub_list in Hopen, Hd, Hdl by lia.
  set (q := splice hl ct p) in *. assert (Hlq : length q = length p) by (apply length_splice; lia).
  set (p' := splice len t q) in *.
  assert (Hhead : take hl p' = take hl p).
  { unfold p', q. rewrite !take_splice_below; rewrite ?length_splice; try lia; done. }
  rewrite gcm_unprotect_rtp_eq by lia. guards.
  rewrite (SrtpHeader.parse_prefix _ (take (len + 16) p') h Hh).
  2: { rewrite !take_take, !Nat.min_l by lia. done. }
  cbv zeta. fold hl nonce. guards. rewrite Hhead.
  replace (sub_list hl (len + 16) p') with (ct ++ t).
  2: { rewrite (sub_list_app hl len) by lia. f_equal.
       - unfold p'. rewrite sub_list_splice_ne by lia. unfold q.
         replace len with (hl + length ct)%nat by lia. by rewrite sub_list_splice_eq by lia.
       - unfold p'. rewrite <- Ht. by rewrite sub_list_splice_eq by lia. }
  rewrite Hopen. eexists. split; [f_equal; f_equal; lia|].
  eapply take_splice_plain; try done; lia.
Qed.

(** ** The E flag and the 31-bit index *)

Lemma land_mask x : Z.land x SRTCP_INDEX_MASK = x mod 2 ^ 31.
Proof. change SRTCP_INDEX_MASK with (Z.ones 31). by rewrite Z.land_ones. Qed.

Lemma index_no_flag i : 0 ≤ i < 2 ^ 31 → Z.land i SRTCP_E_FLAG = 0.
Proof.
  intros Hi. change SRTCP_E_FLAG with (Z.shiftl 1 31). apply Z.bits_inj'. intros k Hk.
  rewrite Z.land_spec, Z.bits_0. destruct (decide (31 ≤ k)).
  - rewrite <- (Z.mod_small i (2 ^ 31)), Z.mod_pow2_bits_high by lia. done.
  - rewrite Z.shiftl_spec_low by lia. by rewrite andb_false_r.
Qed.

Lemma index_with_flag i : 0 ≤ i < 2 ^ 31 →
  Z.land (Z.lor i SRTCP_E_FLAG) SRTCP_INDEX_MASK = i ∧
  Z.land (Z.lor i SRTCP_E_FLAG) SRTCP_E_FLAG = SRTCP_E_FLAG ∧
  in_range 32 (Z.lor i SRTCP_E_FLAG).
Proof.
  intros Hi. split; [|split].
  - rewrite Z.land_lor_distr_l, land_mask, Z.mod_small by lia. cbn. by rewrite Z.lor_0_r.
  - rewrite Z.land_lor_distr_l, index_no_flag by done. done.
  - apply range_lor; unfold in_range; [lia| |unfold SRTCP_E_FLAG]; lia.
Qed.

Lemma masked_index_range x : 0 ≤ Z.land x SRTCP_INDEX_MASK < 2 ^ 31.
Proof. rewrite land_mask. apply Z.mod_pos_bound. lia. Qed.

Lemma read_be_splice {E} n at_ x (p : list Z) : (at_ + n ≤ length p)%nat →
  in_range (8 * Z.of_nat n) x → read_be (E:=E) n at_ (splice at_ (to_be n x) p) = Ok x.
Proof.
  intros Hl Hx. rewrite read_be_ok by (rewrite length_splice; rewrite ?length_to_be; lia).
  pose proof (sub_list_splice_eq at_ (to_be n x) p) as Hs. rewrite length_to_be in Hs.
  rewrite Hs by done. by rewrite of_be_to_be.
Qed.

Lemma read_be_same {E} n at_ (p q : list Z) m : (at_ + n ≤ m)%nat → (m ≤ length p)%nat →
  take m q = take m p → read_be (E:=E) n at_ q = read_be n at_ p.
Proof. intros. eapply SrtpHeader.prefix_read; done. Qed.

Lemma gcm_rtcp_nonce c ssrc index : 0 ≤ index < 2 ^ 31 →
  Gcm.build_rtcp_nonce c ssrc index =
    Ok (xor_into 8 (to_be 4 index) (xor_into 2 (to_be 4 ssrc) (Gcm.rtcp_salt c))).
Proof. intros Hi. unfold Gcm.build_rtcp_nonce. by rewrite index_no_flag. Qed.

Definition gcm_rtcp_aad (p : list Z) (e : list Z) : list Z := take 8 p ++ e.

Lemma gcm_protect_rtcp_eq c len index p : (8 ≤ len ≤ length p)%nat → 0 ≤ index < 2 ^ 31 →
  Gcm.protect_rtcp c len index p =
    (if bool_decide (MAX_PACKET_SIZE < len)%nat then Err (PacketTooLarge, p) else
     if bool_decide (length p < len + 4 + 16)%nat then Err (BufferTooSmall, p) else
     let ssrc := of_be (sub_list 4 8 p) in
     let e := to_be 4 (Z.lor index SRTCP_E_FLAG) in
     match Gcm.seal (Gcm.rtcp_cipher c)
             (xor_into 8 (to_be 4 index) (xor_into 2 (to_be 4 ssrc) (Gcm.rtcp_salt c)))
             (gcm_rtcp_aad p e) (sub_list 8 len p) with
     | Ok (t, ct) => Ok ((len + 16 + 4)%nat, splice (len + 16) e (splice len t (splice 8 ct p)))
     | Err (er, ct) => Err (er, splice 8 ct p)
     | Panic => Panic
     end).
Proof.
  intros Hl Hi. unfold Gcm.protect_rtcp. run_st. guards.
  destruct (Z.leb_spec index SRTCP_INDEX_MASK) as [_|Hm]; [|unfold SRTCP_INDEX_MASK in Hm; lia].
  case_bool_decide; [done|]. case_bool_decide; [done|].
  unfold Gcm.encrypt_rtcp_payload. run_st. guards.
  rewrite read_be_ok by lia. change (4 + 4)%nat with 8%nat. rewrite gcm_rtcp_nonce by done.
  unfold slice. rewrite decide_True by lia. rewrite on_range_run by lia.
  unfold gcm_rtcp_aad. replace (sub_list 0 8 p) with (take 8 p) by done. cbv zeta.
  match goal with |- context [Gcm.seal ?k ?n ?a ?d] => pose proof (seal_len k n a d) as Hs end.
  rewrite length_sub_list in Hs by lia.
  destruct (Gcm.seal _ _ _ _) as [[t ct]|[e ct]|]; [|done|done].
  rewrite write_run by (rewrite length_splice; lia).
  rewrite write_run; [done|]. rewrite length_to_be, !length_splice; rewrite ?length_splice; lia.
Qed.

Lemma gcm_unprotect_rtcp_eq c len p : (len ≤ length p)%nat →
  Gcm.unprotect_rtcp c len p =
    (if bool_decide (len < 28)%nat then Err (PacketTooShort, p) else
     if bool_decide (MAX_PACKET_SIZE < len)%nat then Err (PacketTooLarge, p) else
     let e := sub_list (len - 4) len p in
     let index := Z.land (of_be e) SRTCP_INDEX_MASK in
     let ssrc := of_be (sub_list 4 8 p) in
     match Gcm.open (Gcm.rtcp_cipher c)
             (xor_into 8 (to_be 4 index) (xor_into 2 (to_be 4 ssrc) (Gcm.rtcp_salt c)))
             (gcm_rtcp_aad p e) (sub_list 8 (len - 4) p) with
     | Ok (n, d) => Ok ((8 + n)%nat, index, splice 8 d p)
     | Err (er, d) => Err (er, splice 8 d p)
     | Panic => Panic
     end).
Proof.
  intros Hl. unfold Gcm.unprotect_rtcp, Gcm.extract_srtcp_index. run_st. guards.
  change (8 + 4 + 16)%nat with 28%nat. case_bool_decide as H28; [done|].
  case_bool_decide; [done|]. rewrite (bool_decide_eq_true_2 (8 + 16 + 4 ≤ len)%nat) by lia.
  rewrite read_be_ok by lia. replace (len - 4 + 4)%nat with len by lia.
  unfold Gcm.decrypt_rtcp_payload. run_st. guards.
  rewrite read_be_ok by lia. change (4 + 4)%nat with 8%nat.
  rewrite gcm_rtcp_nonce by apply masked_index_range.
  unfold slice. rewrite !decide_True by lia. rewrite on_range_run by lia.
  unfold gcm_rtcp_aad. replace (sub_list 0 8 p) with (take 8 p) by done. cbv zeta.
  match goal with |- context [Gcm.open ?k ?n ?a ?d] => pose proof (open_len k n a d) as Hs end.
  rewrite length_sub_list in Hs by lia.
  destruct (Gcm.open _ _ _ _) as [[n d]|[e d]|]; [|done|done].
  rewrite bool_decide_eq_true_2 by lia. done.
Qed.

Lemma gcm_protect_rtcp_law c len index p : (8 ≤ len ≤ length p)%nat → 0 ≤ index < 2 ^ 31 →
  match Gcm.protect_rtcp c len index p with
  | Ok (n, p') => n = (len + 4 + 16)%nat ∧ length p' = length p ∧ (n ≤ length p)%nat
  | Err (_, p') => length p' = length p
  | Panic => False
  end.
Proof.
  intros Hl Hi. rewrite gcm_protect_rtcp_eq by done. do 2 (case_bool_decide; [done|]). cbv zeta.
  match goal with |- context [Gcm.seal ?k ?n ?a ?d] => pose proof (seal_len k n a d) as Hs end.
  rewrite length_sub_list in Hs by lia.
  destruct (Gcm.seal _ _ _ _) as [[t ct]|[e ct]|]; [|by rewrite length_splice by lia|done].
  rewrite !length_splice; rewrite ?length_splice; rewrite ?length_to_be; try lia.
  all: rewrite ?length_splice; lia.
Qed.

Lemma gcm_unprotect_rtcp_law c len p : (8 ≤ len ≤ length p)%nat →
  match Gcm.unprotect_rtcp c len p with
  | Ok (n, i, p') => (8 ≤ n < len)%nat ∧ length p' = length p ∧ (4 ≤ len)%nat ∧
      Ok i = (e ← read_be (E:=()) 4 (len - 4) p; Ok (Z.land e 0x7FFFFFFF))
  | Err (_, p') => length p' = length p
  | Panic => False
  end.
Proof.
  intros Hl. rewrite gcm_unprotect_rtcp_eq by lia. do 2 (case_bool_decide; [done|]). cbv zeta.
  match goal with |- context [Gcm.open ?k ?n ?a ?d] => pose proof (open_len k n a d) as Hs end.
  rewrite length_sub_list in Hs by lia.
  destruct (Gcm.open _ _ _ _) as [[n d]|[e d]|]; [|by rewrite length_splice by lia|done].
  rewrite length_splice by lia. split; [lia|]. split; [done|]. split; [lia|].
  rewrite read_be_ok by lia. replace (len - 4 + 4)%nat with len by lia. done.
Qed.

Lemma gcm_rtcp_roundtrip c len index p n p' :
  (8 ≤ len ≤ length p)%nat → 0 ≤ index < 2 ^ 31 → (len + 20 ≤ MAX_PACKET_SIZE)%nat →
  Gcm.protect_rtcp c len index p = Ok (n, p') →
  ∃ p'', Gcm.unprotect_rtcp c n p' = Ok (len, index, p'') ∧ take len p'' = take len p.
Proof.
  intros Hl Hi Hmax Hp. pose proof (gcm_protect_rtcp_law c len index p Hl Hi) as Hlaw. rewrite Hp in Hlaw.
  destruct Hlaw as (-> & Hlp' & Hlen). rewrite gcm_protect_rtcp_eq in Hp by done.
  rewrite !bool_decide_eq_false_2 in Hp by lia. cbv zeta in Hp.
  set (ssrc := of_be (sub_list 4 8 p)) in *. set (e := to_be 4 (Z.lor index SRTCP_E_FLAG)) in *.
  assert (He : length e = 4%nat) by apply length_to_be.
  set (nonce := xor_into 8 (to_be 4 index) _) in *.
  destruct (Gcm.seal _ _ _ _) as [[t ct]|[er ct]|] eqn:Hs; [|done|done]. injection Hp as _ <-.
  match type of Hs with Gcm.seal ?k ?n ?a ?d = _ => pose proof (seal_len k n a d) as Hsl end.
  rewrite Hs, length_sub_list in Hsl by lia. destruct Hsl as [Hct Ht].
  destruct (open_seal _ _ _ _ _ _ Hs) as (d & Hopen & Hd & Hdl).
  rewrite length_sub_list in Hopen, Hd, Hdl by lia.
  set (q := splice 8 ct p) in *. assert (Hlq : length q = length p) by (apply length_splice; lia).
  set (r := splice len t q) in *. assert (Hlr : length r = length p) by (unfold r; rewrite length_splice; lia).
  set (p' := splice (len + 16) e r) in *.
  assert (Hhead : take 8 p' = take 8 p).
  { unfold p', r, q. rewrite !take_splice_below; fold q; fold r; try lia; done. }
  assert (Htr : sub_list (len + 4 + 16 - 4) (len + 4 + 16) p' = e).
  { unfold p'. replace (len + 4 + 16 - 4)%nat with (len + 16)%nat by lia.
    replace (len + 4 + 16)%nat with (len + 16 + length e)%nat by lia.
    by rewrite sub_list_splice_eq by lia. }
  destruct (index_with_flag index Hi) as (Hmask & _ & Hrange).
  rewrite gcm_unprotect_rtcp_eq by lia. guards. rewrite Htr. cbv zeta.
  replace (Z.land (of_be e) SRTCP_INDEX_MASK) with index by (unfold e; by rewrite of_be_to_be).
  assert (Hss : of_be (sub_list 4 8 p') = ssrc).
  { pose proof (read_be_same (E:=()) 4 4 p p' 8 ltac:(lia) ltac:(lia) Hhead) as Hr.
    rewrite !read_be_ok in Hr by lia. by injection Hr. }
  rewrite Hss. fold nonce. unfold gcm_rtcp_aad in *. rewrite Hhead.
  replace (sub_list 8 (len + 4 + 16 - 4) p') with (ct ++ t).
  2: { replace (len + 4 + 16 - 4)%nat with (len + 16)%nat by lia.
       rewrite (sub_list_app 8 len) by lia. unfold p'. rewrite !sub_list_splice_ne by lia. f_equal.
       - unfold r. rewrite sub_list_splice_ne by lia. unfold q.
         replace len with (8 + length ct)%nat by lia. by rewrite sub_list_splice_eq by lia.
       - unfold r. rewrite <- Ht. by rewrite sub_list_splice_eq by lia. }
  rewrite Hopen. eexists. split; [do 3 f_equal; lia|].
  eapply take_splice_plain; try done; lia.
Qed.

(** ** AES-CM with HMAC-SHA1 *)

Lemma fold_lor_zero l acc : fold_left Z.lor l acc = 0 ↔ acc = 0 ∧ Forall (eq 0) l.
Proof.
  revert acc; induction l as [|x l IH]; intros acc; cbn.
  - split; [|by intros [? _]]. done.
  - rewrite IH, Z.lor_eq_0_iff, Forall_cons. naive_solver.
Qed.

Lemma xor_diff_zero a b : length a = length b →
  (fold_left Z.lor (zip_with Z.lxor a b) 0 =? 0) = bool_decide (a = b).
Proof.
  intros Hl. apply Bool.eq_iff_eq_true. rewrite Z.eqb_eq, bool_decide_eq_true, fold_lor_zero.
  revert b Hl; induction a as [|x a IH]; intros [|y b] Hl; try done.
  specialize (IH b ltac:(cbn in Hl; lia)). cbn. rewrite Forall_cons. split.
  - intros (_ & Hx & Hf). symmetry in Hx. apply Z.lxor_eq in Hx as ->. f_equal. by apply IH.
  - intros [= -> ->]. rewrite Z.lxor_nilpotent. split; [done|]. split; [done|]. by apply IH.
Qed.

Lemma constant_time_eq_spec {E} a b : length a = length b →
  CmHmac.constant_time_eq (E:=E) a b = Ok (bool_decide (a = b)).
Proof.
  intros Hl. unfold CmHmac.constant_time_eq. rewrite bool_decide_eq_true_2 by done. cbn. f_equal.
  by apply xor_diff_zero.
Qed.

Section cm.
Context (c : CmHmac.AesCmHmacCipher) (Hwf : CmHmac.wf c).

Lemma tag_bounds : (0 < CmHmac.tag_len c ≤ 20)%nat.
Proof. destruct Hwf as (_ & _ & [-> | ->]); lia. Qed.

Lemma length_tag k d : length (take (CmHmac.tag_len c) (hmac_sha1 k d)) = CmHmac.tag_len c.
Proof. pose proof tag_bounds. rewrite length_take, hmac_len. lia. Qed.

(** Lengths after nested writes. *)
Ltac len_solve :=
  repeat first [rewrite length_to_be | rewrite length_tag | rewrite length_splice by len_solve]; lia.

Lemma cm_protect_rtp_eq len index p : (12 ≤ len ≤ length p)%nat →
  CmHmac.protect_rtp c len index p =
    (if bool_decide (MAX_PACKET_SIZE < len)%nat then Err (PacketTooLarge, p) else
     match SrtpHeader.parse (take len p) with
     | Ok h =>
       if bool_decide (length p < len + CmHmac.tag_len c)%nat then Err (BufferTooSmall, p) else
       let hl := SrtpHeader.header_len h in
       let q := splice hl (aes_ctr (CmHmac.rtp_aes c)
                  (CmHmac.build_rtp_iv (CmHmac.rtp_salt c) (SrtpHeader.ssrc h) index)
                  (sub_list hl len p)) p in
       let tag := hmac_sha1 (CmHmac.rtp_mac c) (take len q ++ to_be 4 (PacketIndex.roc index)) in
       Ok ((len + CmHmac.tag_len c)%nat, splice len (take (CmHmac.tag_len c) tag) q)
     | _ => Err (InvalidRtpHeader, p)
     end).
Proof.
  intros Hl. pose proof tag_bounds. unfold CmHmac.protect_rtp. run_st. guards.
  case_bool_decide; [done|].
  pose proof (SrtpHeader.srtp_parse_no_panic (take len p)) as Hnp.
  destruct (SrtpHeader.parse (take len p)) as [h|e|] eqn:Hh; [|done|done]. cbn [map_err].
  apply SrtpHeader.srtp_parse_bounds in Hh as [Hh _]. rewrite length_take in Hh.
  case_bool_decide; [done|]. rewrite on_range_run by lia.
  unfold CmHmac.aes_cm_encrypt, modify, CmHmac.compute_auth_tag. run_st. guards.
  rewrite write_run; [done|]. rewrite length_tag, length_splice; [lia|].
  rewrite aes_ctr_len, length_sub_list; lia.
Qed.

Lemma cm_unprotect_rtp_eq len index p : (len ≤ length p)%nat →
  CmHmac.unprotect_rtp c len index p =
    (if bool_decide (len < 12 + CmHmac.tag_len c)%nat then Err (PacketTooShort, p) else
     if bool_decide (MAX_PACKET_SIZE < len)%nat then Err (PacketTooLarge, p) else
     match SrtpHeader.parse (take len p) with
     | Ok h =>
       let hl := SrtpHeader.header_len h in
       let end_ := (len - CmHmac.tag_len c)%nat in
       if bool_decide (len < hl + CmHmac.tag_len c)%nat then Err (PacketTooShort, p) else
       if bool_decide (take (CmHmac.tag_len c)
            (hmac_sha1 (CmHmac.rtp_mac c) (take end_ p ++ to_be 4 (PacketIndex.roc index)))
            = sub_list end_ len p) then
         Ok (end_, splice hl (aes_ctr (CmHmac.rtp_aes c)
                     (CmHmac.build_rtp_iv (CmHmac.rtp_salt c) (SrtpHeader.ssrc h) index)
                     (sub_list hl end_ p)) p)
       else Err (AuthenticationFailed, p)
     | _ => Err (InvalidRtpHeader, p)
     end).
Proof.
  intros Hl. pose proof tag_bounds. unfold CmHmac.unprotect_rtp. run_st. guards.
  case_bool_decide; [done|]. case_bool_decide; [done|].
  pose proof (SrtpHeader.srtp_parse_no_panic (take len p)) as Hnp.
  destruct (SrtpHeader.parse (take len p)) as [h|e|] eqn:Hh; [|done|done]. cbn [map_err].
  apply SrtpHeader.srtp_parse_bounds in Hh as [Hh _]. rewrite length_take in Hh. cbv zeta.
  case_bool_decide; [done|]. unfold CmHmac.compute_auth_tag. run_st. guards.
  unfold slice. rewrite decide_True by lia.
  rewrite constant_time_eq_spec by (rewrite length_tag, length_sub_list; lia).
  case_bool_decide; cbn [negb]; [|done]. rewrite on_range_run by lia. done.
Qed.

Lemma cm_protect_rtp_law len index p : (12 ≤ len ≤ length p)%nat →
  match CmHmac.protect_rtp c len index p with
  | Ok (n, p') => n = (len + CmHmac.tag_len c)%nat ∧ length p' = length p ∧ (n ≤ length p)%nat
  | Err (_, p') => length p' = length p
  | Panic => False
  end.
Proof.
  intros Hl. rewrite cm_protect_rtp_eq by done. case_bool_decide; [done|].
  destruct (SrtpHeader.parse (take len p)) as [h|e|] eqn:Hh; [|done|done].
  apply SrtpHeader.srtp_parse_bounds in Hh as [Hh _]. rewrite length_take in Hh.
  case_bool_decide; [done|]. cbv beta iota zeta.
  rewrite length_splice; rewrite ?length_tag, ?length_splice;
    rewrite ?aes_ctr_len, ?length_sub_list by lia; lia.
Qed.

Lemma cm_unprotect_rtp_law len index p : (len ≤ length p)%nat →
  match CmHmac.unprotect_rtp c len index p with
  | Ok (n, p') => (12 ≤ n < len)%nat ∧ length p' = length p
  | Err (_, p') => length p' = length p
  | Panic => False
  end.
Proof.
  intros Hl. pose proof tag_bounds. rewrite cm_unprotect_rtp_eq by done. do 2 (case_bool_decide; [done|]).
  destruct (SrtpHeader.parse (take len p)) as [h|e|] eqn:Hh; [|done|done].
  apply SrtpHeader.srtp_parse_bounds in Hh as [Hh _]. rewrite length_take in Hh. cbv zeta.
  case_bool_decide; [done|]. case_bool_decide; [|done].
  rewrite length_splice by (rewrite aes_ctr_len, length_sub_list; lia). lia.
Qed.

Lemma cm_rtp_roundtrip len index p n p' :
  (12 ≤ len ≤ length p)%nat → (len + CmHmac.tag_len c ≤ MAX_PACKET_SIZE)%nat →
  CmHmac.protect_rtp c len index p = Ok (n, p') →
  ∃ p'', CmHmac.unprotect_rtp c n index p' = Ok (len, p'') ∧ take len p'' = take len p.
Proof.
  intros Hl Hmax Hp. pose proof tag_bounds as Htb.
  pose proof (cm_protect_rtp_law len index p Hl) as Hlaw. rewrite Hp in Hlaw.
  destruct Hlaw as (-> & Hlp' & Hlen). rewrite cm_protect_rtp_eq in Hp by done.
  rewrite bool_decide_eq_false_2 in Hp by lia.
  destruct (SrtpHeader.parse (take len p)) as [h|e|] eqn:Hh; [|done|done].
  pose proof (SrtpHeader.srtp_parse_bounds _ _ Hh) as [Hb _]. rewrite length_take in Hb.
  rewrite bool_decide_eq_false_2 in Hp by lia. cbv zeta in Hp.
  set (hl := SrtpHeader.header_len h) in *. set (iv := CmHmac.build_rtp_iv _ _ _) in *.
  set (ct := aes_ctr (CmHmac.rtp_aes c) iv (sub_list hl len p)) in *.
  assert (Hct : length ct = (len - hl)%nat) by (unfold ct; rewrite aes_ctr_len, length_sub_list; lia).
  set (q := splice hl ct p) in *. assert (Hlq : length q = length p) by (apply length_splice; lia).
  set (t := take (CmHmac.tag_len c) (hmac_sha1 _ _)) in *.
  assert (Ht : length t = CmHmac.tag_len c) by apply length_tag.
  injection Hp as Hp'.
  assert (Hpre : take len p' = take len q) by (rewrite <- Hp', take_splice_below; lia || done).
  assert (Hhead : take hl p' = take hl p).
  { rewrite <- (Nat.min_l hl len), <- take_take, Hpre, take_take, Nat.min_l by lia.
    unfold q. by rewrite take_splice_below by lia. }
  rewrite cm_unprotect_rtp_eq by lia. guards.
  rewrite (SrtpHeader.parse_prefix _ (take (len + CmHmac.tag_len c) p') h Hh).
  2: { rewrite !take_take, !Nat.min_l by lia. done. }
  cbv zeta. fold hl. guards. replace (len + CmHmac.tag_len c - CmHmac.tag_len c)%nat with len by lia.
  rewrite Hpre. fold t iv. rewrite bool_decide_eq_true_2.
  2: { rewrite <- Hp', <- Ht. by rewrite sub_list_splice_eq by lia. }
  eexists. split; [reflexivity|].
  assert (Hsub : sub_list hl len p' = ct).
  { rewrite <- Hp', sub_list_splice_ne by lia. unfold q. replace len with (hl + length ct)%nat by lia.
    by rewrite sub_list_splice_eq by lia. }
  rewrite Hsub. eapply take_splice_plain; [lia|done|done|lia| |rewrite aes_ctr_len; lia].
  unfold ct. rewrite aes_ctr_twice. rewrite firstn_all2; [done|]. rewrite length_sub_list; lia.
Qed.

Lemma cm_rtcp_iv salt ssrc index : 0 ≤ index < 2 ^ 31 →
  CmHmac.build_rtcp_iv salt ssrc index =
    Ok (xor_into 10 (to_be 4 index) (xor_into 4 (to_be 4 ssrc) (splice 0 salt (replicate 16 0)))).
Proof. intros Hi. unfold CmHmac.build_rtcp_iv. by rewrite index_no_flag. Qed.

(** The encryption of an RTCP payload under a 31-bit index. *)
Definition cm_rtcp_crypt (ssrc index : Z) (d : list Z) : list Z :=
  aes_ctr (CmHmac.rtcp_aes c)
    (xor_into 10 (to_be 4 index)
       (xor_into 4 (to_be 4 ssrc) (splice 0 (CmHmac.rtcp_salt c) (replicate 16 0)))) d.

Lemma cm_protect_rtcp_eq len index p : (8 ≤ len ≤ length p)%nat → 0 ≤ index < 2 ^ 31 →
  CmHmac.protect_rtcp c len index p =
    (if bool_decide (MAX_PACKET_SIZE < len)%nat then Err (PacketTooLarge, p) else
     if bool_decide (length p < len + 4 + CmHmac.tag_len c)%nat then Err (BufferTooSmall, p) else
     let q := splice len (to_be 4 (Z.lor index SRTCP_E_FLAG))
                (splice 8 (cm_rtcp_crypt (of_be (sub_list 4 8 p)) index (sub_list 8 len p)) p) in
     Ok ((len + 4 + CmHmac.tag_len c)%nat,
         splice (len + 4) (take (CmHmac.tag_len c) (hmac_sha1 (CmHmac.rtcp_mac c) (take (len + 4) q))) q)).
Proof.
  intros Hl Hi. pose proof tag_bounds. unfold CmHmac.protect_rtcp. run_st. guards.
  destruct (Z.leb_spec index SRTCP_INDEX_MASK) as [_|Hm]; [|unfold SRTCP_INDEX_MASK in Hm; lia].
  case_bool_decide; [done|]. case_bool_decide; [done|].
  rewrite read_be_ok by lia. change (4 + 4)%nat with 8%nat. rewrite cm_rtcp_iv by done.
  rewrite on_range_run by lia. unfold CmHmac.aes_cm_encrypt, modify. cbv zeta.
  fold (cm_rtcp_crypt (of_be (sub_list 4 8 p)) index (sub_list 8 len p)).
  assert (Hct : length (cm_rtcp_crypt (of_be (sub_list 4 8 p)) index (sub_list 8 len p)) = (len - 8)%nat).
  { unfold cm_rtcp_crypt. rewrite aes_ctr_len, length_sub_list; lia. }
  rewrite write_run by (rewrite length_splice, ?length_to_be; lia).
  unfold slice. rewrite decide_True by (rewrite !length_splice; rewrite ?length_splice, ?length_to_be; lia).
  rewrite (sub_list_0 (len + 4)). rewrite write_run; [done|]. rewrite length_tag.
  rewrite !length_splice; rewrite ?length_splice, ?length_to_be; lia.
Qed.

Lemma cm_unprotect_rtcp_eq len p : (len ≤ length p)%nat →
  CmHmac.unprotect_rtcp c len p =
    (if bool_decide (len < 8 + 4 + CmHmac.tag_len c)%nat then Err (PacketTooShort, p) else
     if bool_decide (MAX_PACKET_SIZE < len)%nat then Err (PacketTooLarge, p) else
     let tag_offset := (len - CmHmac.tag_len c)%nat in
     if bool_decide (take (CmHmac.tag_len c) (hmac_sha1 (CmHmac.rtcp_mac c) (take tag_offset p))
                     = sub_list tag_offset len p) then
       let e := of_be (sub_list (tag_offset - 4) tag_offset p) in
       let index := Z.land e SRTCP_INDEX_MASK in
       Ok ((tag_offset - 4)%nat, index,
           if Z.land e SRTCP_E_FLAG =? 0 then p
           else splice 8 (cm_rtcp_crypt (of_be (sub_list 4 8 p)) index (sub_list 8 (tag_offset - 4) p)) p)
     else Err (AuthenticationFailed, p)).
Proof.
  intros Hl. pose proof tag_bounds. unfold CmHmac.unprotect_rtcp. run_st. guards.
  case_bool_decide; [done|]. case_bool_decide; [done|].
  unfold slice. rewrite decide_True by lia.
  rewrite constant_time_eq_spec by (rewrite length_tag, length_sub_list; lia). cbv zeta.
  case_bool_decide; cbn [negb]; [|done]. rewrite read_be_ok by lia.
  replace (len - CmHmac.tag_len c - 4 + 4)%nat with (len - CmHmac.tag_len c)%nat by lia.
  destruct (_ =? 0); cbn [negb]; [done|]. rewrite read_be_ok by lia. change (4 + 4)%nat with 8%nat.
  rewrite cm_rtcp_iv by apply masked_index_range. rewrite on_range_run by lia. done.
Qed.

Lemma cm_protect_rtcp_law len index p : (8 ≤ len ≤ length p)%nat → 0 ≤ index < 2 ^ 31 →
  match CmHmac.protect_rtcp c len index p with
  | Ok (n, p') => n = (len + 4 + CmHmac.tag_len c)%nat ∧ length p' = length p ∧ (n ≤ length p)%nat
  | Err (_, p') => length p' = length p
  | Panic => False
  end.
Proof.
  intros Hl Hi. rewrite cm_protect_rtcp_eq by done. do 2 (case_bool_decide; [done|]). cbv beta iota zeta.
  set (ct := cm_rtcp_crypt _ _ _).
  assert (Hct : length ct = (len - 8)%nat) by (unfold ct, cm_rtcp_crypt; rewrite aes_ctr_len, length_sub_list; lia).
  split; [done|]. split; [len_solve|lia].
Qed.

Lemma cm_unprotect_rtcp_law len p : (8 ≤ len ≤ length p)%nat →
  match CmHmac.unprotect_rtcp c len p with
  | Ok (n, i, p') => (8 ≤ n < len)%nat ∧ length p' = length p ∧ (CmHmac.tag_len c + 4 ≤ len)%nat ∧
      Ok i = (e ← read_be (E:=()) 4 (len - (CmHmac.tag_len c + 4)) p; Ok (Z.land e 0x7FFFFFFF))
  | Err (_, p') => length p' = length p
  | Panic => False
  end.
Proof.
  intros Hl. pose proof tag_bounds. rewrite cm_unprotect_rtcp_eq by lia. do 2 (case_bool_decide; [done|]).
  cbv zeta. case_bool_decide; [|done]. split; [lia|]. split; [|split; [lia|]].
  - destruct (_ =? 0); [done|]. rewrite length_splice; [done|].
    unfold cm_rtcp_crypt. rewrite aes_ctr_len, length_sub_list; lia.
  - rewrite read_be_ok by lia. cbn. do 4 f_equal; lia.
Qed.

Lemma cm_rtcp_roundtrip len index p n p' :
  (8 ≤ len ≤ length p)%nat → 0 ≤ index < 2 ^ 31 → (len + 4 + CmHmac.tag_len c ≤ MAX_PACKET_SIZE)%nat →
  CmHmac.protect_rtcp c len index p = Ok (n, p') →
  ∃ p'', CmHmac.unprotect_rtcp c n p' = Ok (len, index, p'') ∧ take len p'' = take len p.
Proof.
  intros Hl Hi Hmax Hp. pose proof tag_bounds as Htb.
  pose proof (cm_protect_rtcp_law len index p Hl Hi) as Hlaw. rewrite Hp in Hlaw.
  destruct Hlaw as (-> & Hlp' & Hlen). rewrite cm_protect_rtcp_eq in Hp by done.
  rewrite !bool_decide_eq_false_2 in Hp by lia. cbv zeta in Hp.
  set (ssrc := of_be (sub_list 4 8 p)) in *. set (e := Z.lor index SRTCP_E_FLAG) in *.
  set (ct := cm_rtcp_crypt ssrc index (sub_list 8 len p)) in *.
  assert (Hct : length ct = (len - 8)%nat) by (unfold ct, cm_rtcp_crypt; rewrite aes_ctr_len, length_sub_list; lia).
  set (r := splice 8 ct p) in *. assert (Hlr : length r = length p) by (unfold r; len_solve).
  set (q := splice len (to_be 4 e) r) in *. assert (Hlq : length q = length p) by (unfold q; len_solve).
  set (t := take (CmHmac.tag_len c) (hmac_sha1 _ _)) in *.
  assert (Ht : length t = CmHmac.tag_len c) by apply length_tag.
  injection Hp as Hp'.
  assert (Hpre : take (len + 4) p' = take (len + 4) q) by (rewrite <- Hp', take_splice_below; lia || done).
  assert (Hlow : take len p' = take len r).
  { rewrite <- (Nat.min_l len (len + 4)), <- take_take, Hpre, take_take, Nat.min_l by lia.
    unfold q. rewrite take_splice_below by len_solve. done. }
  assert (Hhead : take 8 p' = take 8 p).
  { rewrite <- (Nat.min_l 8 len), <- take_take, Hlow, take_take, Nat.min_l by lia.
    unfold r. by rewrite take_splice_below by lia. }
  destruct (index_with_flag index Hi) as (Hmask & Hflag & Hrange).
  rewrite cm_unprotect_rtcp_eq by lia. guards. cbv zeta.
  replace (len + 4 + CmHmac.tag_len c - CmHmac.tag_len c)%nat with (len + 4)%nat by lia.
  rewrite Hpre. fold t. rewrite bool_decide_eq_true_2.
  2: { rewrite <- Hp', <- Ht. by rewrite sub_list_splice_eq by lia. }
  replace (len + 4 - 4)%nat with len by lia.
  assert (Hsub : ∀ a b, (a ≤ b ≤ len + 4)%nat → sub_list a b p' = sub_list a b q).
  { intros a b Hab. rewrite <- Hp'. apply sub_list_splice_ne; lia. }
  assert (He : sub_list len (len + 4) p' = to_be 4 e).
  { rewrite Hsub by lia. unfold q. rewrite <- (length_to_be 4 e) at 1.
    rewrite sub_list_splice_eq by len_solve. done. }
  assert (Hss : of_be (sub_list 4 8 p') = ssrc).
  { pose proof (read_be_same (E:=()) 4 4 p p' 8 ltac:(lia) ltac:(lia) Hhead) as Hr.
    rewrite !read_be_ok in Hr by lia. by injection Hr. }
  assert (Hpay : sub_list 8 len p' = ct).
  { rewrite Hsub by lia. unfold q. rewrite sub_list_splice_ne by len_solve. unfold r.
    replace len with (8 + length ct)%nat by lia. by rewrite sub_list_splice_eq by lia. }
  rewrite He, of_be_to_be, Hss, Hpay by done. unfold e at 1 2 3. rewrite Hmask, Hflag. cbn [Z.eqb].
  eexists. split; [reflexivity|].
  eapply take_splice_plain; [lia|done|done|lia| |unfold cm_rtcp_crypt; rewrite aes_ctr_len; lia].
  unfold ct, cm_rtcp_crypt. rewrite aes_ctr_twice. rewrite firstn_all2; [done|].
  rewrite length_sub_list; lia.
Qed.

End cm.

(** ** The unified cipher *)

#[global] Instance unified_laws : SrtpCipherLaws Unified.SrtpCipher.
Proof.
  refine {| cipher_wf := Unified.wf |}.
  - intros [c|c] len index buf Hwf Hl; [by apply gcm_protect_rtp_law|by apply cm_protect_rtp_law].
  - intros [c|c] len index buf Hwf Hl; [apply gcm_unprotect_rtp_law|apply cm_unprotect_rtp_law; [done|]]; lia.
  - intros [c|c] len index buf Hwf Hl Hi; [by apply gcm_protect_rtcp_law|by apply cm_protect_rtcp_law].
  - intros [c|c] len buf Hwf Hl; cbn.
    + pose proof (gcm_unprotect_rtcp_law c len buf Hl) as Hlaw.
      destruct (Gcm.unprotect_rtcp _ _ _) as [[[n i] p']|[? ?]|]; [|done|done].
      destruct Hlaw as (? & ? & ? & ?). eauto 10.
    + pose proof (cm_unprotect_rtcp_law c Hwf len buf Hl) as Hlaw.
      destruct (CmHmac.unprotect_rtcp _ _ _) as [[[n i] p']|[? ?]|]; [|done|done].
      destruct Hlaw as (? & ? & ? & ?). eauto 10.
Defined.

(** What a successful protection says of its arguments: the guards of the code. *)
Ltac guards_passed :=
  run_st; unfold assert_, fail_if;
  repeat (case_bool_decide; try discriminate);
  try match goal with |- context [?i <=? SRTCP_INDEX_MASK] => destruct (Z.leb_spec i SRTCP_INDEX_MASK); try discriminate end;
  repeat (case_bool_decide; try discriminate).

Lemma protect_rtp_guards (c : Unified.SrtpCipher) len index p r :
  Unified.protect_rtp c len index p = Ok r → (12 ≤ len ≤ length p)%nat.
Proof.
  destruct c as [c|c]; cbn; unfold Gcm.protect_rtp, CmHmac.protect_rtp; guards_passed;
    unfold RTP_HEADER_SIZE in *; lia.
Qed.

Lemma protect_rtcp_guards (c : Unified.SrtpCipher) len index p r :
  Unified.protect_rtcp c len index p = Ok r → (8 ≤ len ≤ length p)%nat ∧ index < 2 ^ 31.
Proof.
  destruct c as [c|c]; cbn; unfold Gcm.protect_rtcp, CmHmac.protect_rtcp; guards_passed;
    unfold RTCP_HEADER_SIZE, SRTCP_INDEX_MASK in *; lia.
Qed.

(** A packet over the limit is refused before anything of it is read. *)
Lemma unprotect_too_large (c : Unified.SrtpCipher) n index p : Unified.wf c → (MAX_PACKET_SIZE < n ≤ length p)%nat →
  Unified.unprotect_rtp c n index p = Err (PacketTooLarge, p) ∧
  Unified.unprotect_rtcp c n p = Err (PacketTooLarge, p).
Proof.
  intros Hwf Hn. assert (Hmax : Z.of_nat MAX_PACKET_SIZE = 8192) by done.
  destruct c as [c|c]; cbn; [|destruct Hwf as (_ & _ & Ht)];
    unfold Gcm.unprotect_rtp, Gcm.unprotect_rtcp, CmHmac.unprotect_rtp, CmHmac.unprotect_rtcp; run_st; guards;
    unfold assert_, fail_if; done.
Qed.

(** C21: What one side protects the other recovers, for both cipher suites and
    both packet kinds. Whenever protecting a packet succeeds (for RTCP, at any
    index that is not negative, as the code's [u32] is), unprotecting the
    result under the same index gives back the packet's length and bytes, and
    an RTCP packet's index, if the protected packet has at most
    [MAX_PACKET_SIZE] (8192) bytes; a larger one, which the protecting side
    does produce for plain packets within a tag of the limit, is refused as
    too large and left as it was. *)
Theorem unprotect_protect (c : Unified.SrtpCipher) len index p n p' :
  Unified.wf c →
  (Unified.protect_rtp c len index p = Ok (n, p') →
   ((n ≤ MAX_PACKET_SIZE)%nat →
     ∃ p'', Unified.unprotect_rtp c n index p' = Ok (len, p'') ∧ take len p'' = take len p) ∧
   ((MAX_PACKET_SIZE < n)%nat → Unified.unprotect_rtp c n index p' = Err (PacketTooLarge, p'))) ∧
  (0 ≤ index → Unified.protect_rtcp c len index p = Ok (n, p') →
   ((n ≤ MAX_PACKET_SIZE)%nat →
     ∃ p'', Unified.unprotect_rtcp c n p' = Ok (len, index, p'') ∧ take len p'' = take len p) ∧
   ((MAX_PACKET_SIZE < n)%nat → Unified.unprotect_rtcp c n p' = Err (PacketTooLarge, p'))).
Proof.
  intros Hwf. split.
  - intros Hp. pose proof (protect_rtp_guards _ _ _ _ _ Hp) as Hl.
    pose proof (protect_rtp_law (C:=Unified.SrtpCipher) c len index p Hwf Hl) as Hlaw.
    cbn in Hlaw. rewrite Hp in Hlaw. destruct Hlaw as (Hn & Hlp & Hfit).
    split; intros Hmax; [|apply unprotect_too_large; [done|lia]].
    destruct c as [c|c]; [eapply gcm_rtp_roundtrip|eapply cm_rtp_roundtrip]; try done; cbn in Hn;
      unfold SRTP_AUTH_TAG_SIZE in Hn; lia.
  - intros Hi Hp. destruct (protect_rtcp_guards _ _ _ _ _ Hp) as [Hl Hi'].
    pose proof (protect_rtcp_law (C:=Unified.SrtpCipher) c len index p Hwf Hl ltac:(lia)) as Hlaw.
    cbn in Hlaw. rewrite Hp in Hlaw. destruct Hlaw as (Hn & Hlp & Hfit).
    split; intros Hmax; [|apply (unprotect_too_large c n 0); [done|lia]].
    destruct c as [c|c]; [eapply gcm_rtcp_roundtrip|eapply cm_rtcp_roundtrip]; try done; cbn in Hn;
      unfold SRTP_AUTH_TAG_SIZE in Hn; lia.
Qed.

End laws.

(** ** Nonces *)

Lemma Ok_inj {E A} (a b : A) : Ok (E:=E) a = Ok b → a = b.
Proof. by intros [=]. Qed.

Lemma zip_lxor_inj (a s s' : list Z) : length s = length a → length s' = length a →
  zip_with Z.lxor a s = zip_with Z.lxor a s' → s = s'.
Proof.
  revert s s'; induction a as [|x a IH]; intros [|y s] [|y' s'] Hs Hs'; try done.
  cbn. intros [= Hx Ht]. f_equal.
  - apply (f_equal (Z.lxor x)) in Hx. by rewrite <- !Z.lxor_assoc, Z.lxor_nilpotent, !Z.lxor_0_l in Hx.
  - apply IH; cbn in *; lia || done.
Qed.

Lemma length_xor_into off src dst : (off + length src ≤ length dst)%nat →
  length (xor_into off src dst) = length dst.
Proof.
  intros. unfold xor_into. apply length_splice. rewrite length_zip_with, length_sub_list; lia.
Qed.

(** The xor of [src] at [off] can be read back; other bytes are kept. *)
Lemma xor_into_inj off s s' d d' : length s = length s' → length d = length d' →
  (off + length s ≤ length d)%nat → sub_list off (off + length s) d = sub_list off (off + length s) d' →
  sub_list off (off + length s) (xor_into off s d) = sub_list off (off + length s) (xor_into off s' d') →
  s = s'.
Proof.
  intros Hs Hd Hl Hsub Heq. unfold xor_into in Heq.
  assert (Hz : ∀ u w, length u = length s → length w = length d →
    sub_list off (off + length s) (splice off (zip_with Z.lxor (sub_list off (off + length u) w) u) w)
    = zip_with Z.lxor (sub_list off (off + length u) w) u).
  { intros u w Hu Hw. set (z := zip_with _ _ _).
    assert (Hlz : length z = length s) by (unfold z; rewrite length_zip_with, length_sub_list; lia).
    rewrite <- Hlz. apply sub_list_splice_eq. lia. }
  rewrite !Hz in Heq by lia. rewrite <- Hs, Hsub in Heq.
  eapply zip_lxor_inj; [| |exact Heq]; rewrite length_sub_list; lia.
Qed.

Lemma xor_into_other off s d a b : (off + length s ≤ length d)%nat → (b ≤ off ∨ off + length s ≤ a)%nat →
  sub_list a b (xor_into off s d) = sub_list a b d.
Proof.
  intros Hl Hab. unfold xor_into. apply sub_list_splice_ne; rewrite length_zip_with, length_sub_list; lia.
Qed.

Lemma index_bytes_eq i : index_bytes i = to_be 6 i.
Proof.
  unfold index_bytes, wrap. cbn [to_be app]. rewrite !Z.shiftr_div_pow2 by lia.
  rewrite !Z.div_div by lia. done.
Qed.

Lemma to_be_inj n x y : in_range (8 * Z.of_nat n) x → in_range (8 * Z.of_nat n) y →
  to_be n x = to_be n y → x = y.
Proof. intros Hx Hy Heq. rewrite <- (of_be_to_be n x), <- (of_be_to_be n y) by done. by rewrite Heq. Qed.

(** Two xors at disjoint places determine both arguments. *)
Lemma two_xors_inj o1 o2 (n2 : nat) s1 s1' s2 s2' salt :
  length s1 = 4%nat → length s1' = 4%nat → length s2 = n2 → length s2' = n2 →
  (o1 + 4 ≤ o2)%nat → (o2 + n2 ≤ length salt)%nat →
  xor_into o2 s2 (xor_into o1 s1 salt) = xor_into o2 s2' (xor_into o1 s1' salt) →
  s1 = s1' ∧ s2 = s2'.
Proof.
  intros H1 H1' H2 H2' Ho Hl Heq.
  assert (Hlen : length (xor_into o1 s1 salt) = length salt ∧ length (xor_into o1 s1' salt) = length salt).
  { split; apply length_xor_into; lia. }
  split.
  - apply (xor_into_inj o1 s1 s1' salt salt); try (done || lia).
    apply (f_equal (sub_list o1 (o1 + length s1))) in Heq.
    rewrite (xor_into_other o2 s2), (xor_into_other o2 s2') in Heq by lia. done.
  - apply (xor_into_inj o2 s2 s2' (xor_into o1 s1 salt) (xor_into o1 s1' salt)); try lia;
      [|by rewrite Heq]. by rewrite !xor_into_other by lia.
Qed.

(** Packets get different nonces: the GCM nonces and the AES-CM counter
    blocks of two (SSRC, index) pairs are equal only if the pairs are, for
    RTP (48-bit index) and for RTCP (31-bit index), and an AES-CM counter
    block starts at block counter 0, so the key streams of two packets of at
    most 2^16 blocks do not overlap. *)
Theorem nonces_distinct (g : Gcm.AesGcmCipher) (salt : list Z) x i y j :
  Gcm.wf g → length salt = 14%nat → is_u32 x → is_u32 y →
  (in_range 48 i → in_range 48 j → (x, i) ≠ (y, j) →
   Gcm.build_rtp_nonce g x i ≠ Gcm.build_rtp_nonce g y j ∧
   CmHmac.build_rtp_iv salt x i ≠ CmHmac.build_rtp_iv salt y j ∧
   drop 14 (CmHmac.build_rtp_iv salt x i) = [0; 0]) ∧
  (in_range 31 i → in_range 31 j → (x, i) ≠ (y, j) →
   Gcm.build_rtcp_nonce g x i ≠ Gcm.build_rtcp_nonce g y j ∧
   CmHmac.build_rtcp_iv salt x i ≠ CmHmac.build_rtcp_iv salt y j).
Proof.
  intros [Hg Hg'] Hs Hx Hy.
  assert (Hpair : ∀ n, in_range (8 * Z.of_nat n) i → in_range (8 * Z.of_nat n) j → (x, i) ≠ (y, j) →
            ¬ (to_be 4 x = to_be 4 y ∧ to_be n i = to_be n j)).
  { intros n Hi Hj Hne [H1 H2]. apply Hne. f_equal; [by eapply (to_be_inj 4)|by eapply to_be_inj]. }
  assert (Hsalt : length (splice 0 salt (replicate 16 0)) = 16%nat) by (rewrite length_splice; cbn; lia).
  split; intros Hi Hj Hne.
  - split; [|split].
    + unfold Gcm.build_rtp_nonce. rewrite !index_bytes_eq. intros Heq.
      apply (Hpair 6%nat); try done. eapply (two_xors_inj 2 6 6); try done; lia.
    + unfold CmHmac.build_rtp_iv. rewrite !index_bytes_eq. intros Heq.
      apply (Hpair 6%nat); try done. eapply (two_xors_inj 4 8 6); try done; lia.
    + unfold CmHmac.build_rtp_iv. rewrite index_bytes_eq.
      set (d := xor_into 4 _ _). assert (Hd : length d = 16%nat).
      { unfold d. rewrite length_xor_into; rewrite ?length_to_be; lia. }
      replace (drop 14 (xor_into 8 (to_be 6 i) d)) with (sub_list 14 16 (xor_into 8 (to_be 6 i) d)).
      2: { unfold sub_list. apply firstn_all2. rewrite length_drop, length_xor_into; rewrite ?length_to_be; lia. }
      rewrite xor_into_other by (rewrite length_to_be; lia). unfold d.
      rewrite xor_into_other by (rewrite length_to_be; lia).
      rewrite sub_list_splice_ne by (cbn; lia). done.
  - assert (Hi' : 0 ≤ i < 2 ^ 31) by exact Hi. assert (Hj' : 0 ≤ j < 2 ^ 31) by exact Hj.
    assert (Hi32 : in_range (8 * Z.of_nat 4) i) by (unfold in_range; change (8 * Z.of_nat 4) with 32; lia).
    assert (Hj32 : in_range (8 * Z.of_nat 4) j) by (unfold in_range; change (8 * Z.of_nat 4) with 32; lia).
    split.
    + rewrite !gcm_rtcp_nonce by done. intros Heq%Ok_inj.
      apply (Hpair 4%nat); try done.
      eapply (two_xors_inj 2 8 4); try done; lia.
    + rewrite !cm_rtcp_iv by done. intros Heq%Ok_inj.
      apply (Hpair 4%nat); try done.
      eapply (two_xors_inj 4 10 4); try done; lia.
Qed.
