(* ===== verification/SrtpBytes.v ===== *)
(** * What the SRTP contexts do to the packet buffer

    The shard hands its pool buffers to the contexts of [Inbound.v] and
    [Outbound.v]. The buffer keeps its length and stays a string of bytes,
    the cipher and the SSRC base of a context never change, and the lengths
    returned lie in the buffer. The classes state that the primitives, and
    so the ciphers, produce bytes. *)

From S2P Require Import Prelude Wp Replay RocIndex Direction Inbound Outbound Cipher CipherProofs.

Class CryptoBytes `{Crypto} := {
  ring_seal_bytes k n a d : bytes d → bytes (ring_seal k n a d).2;
  ring_tag_bytes k n a d t : (ring_seal k n a d).1 = Some t → bytes t;
  ring_open_bytes k n a d : bytes d → bytes (ring_open k n a d).2;
  aes256_seal_bytes k n a d : bytes d → bytes (aes256_seal k n a d).2;
  aes256_tag_bytes k n a d t : (aes256_seal k n a d).1 = Some t → bytes t;
  aes256_open_bytes k n a d t : bytes d → bytes (aes256_open k n a d t).2;
  aes_ctr_bytes k iv d : bytes d → bytes (aes_ctr k iv d);
  hmac_bytes k d : bytes (hmac_sha1 k d);
}.

(** The buffer after the call is a string of bytes, whatever the result. *)
Definition leaves_bytes {E A} (r : outcome (E * list Z) (A * list Z)) : Prop :=
  match r with Ok (_, b) | Err (_, b) => bytes b | Panic => True end.

Class CipherBytes (C : Type) `{SrtpCipherLaws C} := {
  protect_rtp_bytes c len index buf : cipher_wf c → (12 ≤ len ≤ length buf)%nat → bytes buf →
    leaves_bytes (cipher_protect_rtp c len index buf);
  unprotect_rtp_bytes c len index buf : cipher_wf c → (12 ≤ len ≤ length buf)%nat → bytes buf →
    leaves_bytes (cipher_unprotect_rtp c len index buf);
  protect_rtcp_bytes c len index buf : cipher_wf c → (8 ≤ len ≤ length buf)%nat → 0 ≤ index < 2 ^ 31 →
    bytes buf → leaves_bytes (cipher_protect_rtcp c len index buf);
  unprotect_rtcp_bytes c len buf : cipher_wf c → (8 ≤ len ≤ length buf)%nat → bytes buf →
    leaves_bytes (cipher_unprotect_rtcp c len buf);
}.

(** ** The ciphers *)

Section ciphers.
Context `{Crypto} `{!CryptoLaws} `{!CryptoBytes}.

Lemma seal_bytes k n a d : bytes d →
  match Gcm.seal k n a d with
  | Ok (t, d') => bytes t ∧ bytes d'
  | Err (_, d') => bytes d'
  | Panic => True
  end.
Proof.
  intros Hd. unfold Gcm.seal. destruct k as [key|key].
  - pose proof (ring_seal_bytes key n a d Hd). pose proof (ring_tag_bytes key n a d).
    destruct (ring_seal key n a d) as [[t|] d']; cbn in *; auto.
  - pose proof (aes256_seal_bytes key n a d Hd). pose proof (aes256_tag_bytes key n a d).
    destruct (aes256_seal key n a d) as [[t|] d']; cbn in *; auto.
Qed.

Lemma open_bytes k n a d : bytes d → leaves_bytes (Gcm.open k n a d).
Proof.
  intros Hd. unfold Gcm.open, leaves_bytes. case_bool_decide; [done|]. destruct k as [key|key].
  - pose proof (ring_open_bytes key n a d Hd). by destruct (ring_open key n a d) as [[] d'].
  - set (m := (length d - _)%nat).
    pose proof (aes256_open_bytes key n a (take m d) (drop m d) (Forall_take _ _ _ Hd)) as Hb.
    destruct (aes256_open _ _ _ _ _) as [[] d']; cbn in *; apply Forall_app; auto using Forall_drop.
Qed.

Local Ltac destruct_seal :=
  let Hs := fresh in
  match goal with |- context [Gcm.seal ?k ?n ?a ?d] => pose proof (seal_bytes k n a d) as Hs end;
  destruct (Gcm.seal _ _ _ _) as [[]|[]|]; unfold leaves_bytes; [destruct Hs| |done]; auto 6 with nexus.
Local Ltac destruct_open :=
  let Hs := fresh in
  match goal with |- context [Gcm.open ?k ?n ?a ?d] => pose proof (open_bytes k n a d) as Hs end;
  destruct (Gcm.open _ _ _ _) as [[]|[]|]; unfold leaves_bytes in *; [| |done]; auto 6 with nexus.

Lemma gcm_bytes (c : Gcm.AesGcmCipher) len buf : bytes buf →
  (∀ index, (12 ≤ len ≤ length buf)%nat → leaves_bytes (Gcm.protect_rtp c len index buf)) ∧
  (∀ index, (12 ≤ len ≤ length buf)%nat → leaves_bytes (Gcm.unprotect_rtp c len index buf)) ∧
  (∀ index, (8 ≤ len ≤ length buf)%nat → 0 ≤ index < 2 ^ 31 → leaves_bytes (Gcm.protect_rtcp c len index buf)) ∧
  ((8 ≤ len ≤ length buf)%nat → leaves_bytes (Gcm.unprotect_rtcp c len buf)).
Proof.
  intros Hb. split_and!; intros; [rewrite gcm_protect_rtp_eq by done|rewrite gcm_unprotect_rtp_eq by lia
    |rewrite gcm_protect_rtcp_eq by done|rewrite gcm_unprotect_rtcp_eq by lia];
    repeat (case_bool_decide; [done|]); cbv zeta.
  all: try (destruct (SrtpHeader.parse _) as [h|e|]; [|done|done]; case_bool_decide; [done|]).
  - destruct_seal.
  - destruct_open.
  - destruct_seal.
  - destruct_open.
Qed.

Lemma cm_bytes (c : CmHmac.AesCmHmacCipher) len buf : CmHmac.wf c → bytes buf →
  (∀ index, (12 ≤ len ≤ length buf)%nat → leaves_bytes (CmHmac.protect_rtp c len index buf)) ∧
  (∀ index, (12 ≤ len ≤ length buf)%nat → leaves_bytes (CmHmac.unprotect_rtp c len index buf)) ∧
  (∀ index, (8 ≤ len ≤ length buf)%nat → 0 ≤ index < 2 ^ 31 → leaves_bytes (CmHmac.protect_rtcp c len index buf)) ∧
  ((8 ≤ len ≤ length buf)%nat → leaves_bytes (CmHmac.unprotect_rtcp c len buf)).
Proof.
  intros Hc Hb. pose proof hmac_bytes. pose proof aes_ctr_bytes.
  split_and!; intros; [rewrite cm_protect_rtp_eq by done|rewrite cm_unprotect_rtp_eq by (done || lia)
    |rewrite cm_protect_rtcp_eq by done|rewrite cm_unprotect_rtcp_eq by (done || lia)];
    repeat (case_bool_decide; [done|]); cbv zeta.
  all: try (destruct (SrtpHeader.parse _) as [h|e|]; [|done|done]).
  all: repeat case_bool_decide; unfold leaves_bytes, cm_rtcp_crypt; repeat case_match;
    auto 10 using Forall_take with nexus.
Qed.

#[global] Instance unified_bytes : CipherBytes Unified.SrtpCipher.
Proof.
  split; intros [c|c] len.
  - intros index buf _ Hl Hb. destruct (gcm_bytes c len buf Hb) as (Hr & _). by apply Hr.
  - intros index buf Hc Hl Hb. destruct (cm_bytes c len buf Hc Hb) as (Hr & _). by apply Hr.
  - intros index buf _ Hl Hb. destruct (gcm_bytes c len buf Hb) as (_ & Hr & _). by apply Hr.
  - intros index buf Hc Hl Hb. destruct (cm_bytes c len buf Hc Hb) as (_ & Hr & _). by apply Hr.
  - intros index buf _ Hl Hi Hb. destruct (gcm_bytes c len buf Hb) as (_ & _ & Hr & _). by apply Hr.
  - intros index buf Hc Hl Hi Hb. destruct (cm_bytes c len buf Hc Hb) as (_ & _ & Hr & _). by apply Hr.
  - intros buf _ Hl Hb. destruct (gcm_bytes c len buf Hb) as (_ & _ & _ & Hr). by apply Hr.
  - intros buf Hc Hl Hb. destruct (cm_bytes c len buf Hc Hb) as (_ & _ & _ & Hr). by apply Hr.
Qed.

End ciphers.

(** ** The contexts *)

Definition buf_kept (b b' : list Z) : Prop := length b' = length b ∧ bytes b'.

Section contexts.
Context {C : Type} `{CipherBytes C}.

Definition out_frame (o : Outbound.SrtpOutbound C) (buf : list Z) (s : Outbound.SrtpOutbound C * list Z) : Prop :=
  Outbound.cipher s.1 = Outbound.cipher o ∧ Outbound.ssrc_base s.1 = Outbound.ssrc_base o ∧
  Outbound.next_offset s.1 = Outbound.next_offset o ∧ buf_kept buf s.2.

Definition in_frame (o : Inbound.SrtpInbound C) (buf : list Z) (s : Inbound.SrtpInbound C * list Z) : Prop :=
  Inbound.cipher s.1 = Inbound.cipher o ∧ buf_kept buf s.2.

(** Writing a slot changes neither the cipher nor the buffer. *)
Lemma out_on_slot {E A} i (m : st Outbound.SsrcOut E A) (s : Outbound.SrtpOutbound C * list Z) :
  wlp (Outbound.on_slot i m) s
    (fun _ s' => s'.2 = s.2 ∧ ∃ l, s'.1 = Outbound.set_slots l s.1)
    (fun _ s' => s'.2 = s.2 ∧ ∃ l, s'.1 = Outbound.set_slots l s.1).
Proof.
  apply wp_zoom. unfold run_to. destruct (at_slot i m _) as [[]|[]|]; cbn; eauto.
Qed.

Lemma in_on_slot {E A} i (m : st Inbound.SsrcIn E A) (s : Inbound.SrtpInbound C * list Z) :
  wlp (Inbound.on_slot i m) s
    (fun _ s' => s'.2 = s.2 ∧ ∃ l, s'.1 = Inbound.set_slots l s.1)
    (fun _ s' => s'.2 = s.2 ∧ ∃ l, s'.1 = Inbound.set_slots l s.1).
Proof.
  apply wp_zoom. unfold run_to. destruct (at_slot i m _) as [[]|[]|]; cbn; eauto.
Qed.

Lemma protect_rtp_frame len o buf : cipher_wf (Outbound.cipher o) → bytes buf →
  wlp (Outbound.protect_rtp len) (o, buf)
    (fun n s => out_frame o buf s ∧ (n ≤ length buf)%nat) (fun _ s => out_frame o buf s).
Proof.
  intros Hc Hb. assert (Hself : out_frame o buf (o, buf)) by done.
  unfold Outbound.protect_rtp. wp. case_bool_decide as Hlen; wp; [done|].
  unfold RTP_HEADER_SIZE in *.
  apply wlp_lift; [intros seq _|done]. wp. apply wlp_lift; [intros x _|done]. wp.
  destruct (Outbound.slot_of o x) as [i|]; [|done]. wp.
  apply wlp_lift; [intros s _|done]. wp. apply wlp_lift; [intros index _|done]. wp.
  eapply wp_conseq; [apply out_on_slot| |]; cbn; intros _ [o1 b1]; cbn; intros [-> [l ->]]; [|done].
  wp. apply wp_zoom. cbn. apply wp_quiet.
  pose proof (protect_rtp_law (Outbound.cipher o) len index buf Hc ltac:(lia)) as Hlaw.
  pose proof (protect_rtp_bytes (Outbound.cipher o) len index buf Hc ltac:(lia) Hb) as Hbytes.
  unfold run_to at 1. destruct (cipher_protect_rtp _ _ _ _) as [[n b2]|[e b2]|]; cbn in *; [destruct_and! Hlaw|by split_and!|done].
  wp. eapply wp_conseq; [apply out_on_slot| |]; cbn; intros _ [o3 b3]; cbn; intros [-> [l' ->]]; [|by split_and!].
  wp. apply wlp_lift; [intros|by intros; split_and!]. wp. split; [by split_and!|]. lia.
Qed.

Lemma protect_rtcp_frame len o log buf : Outbound.Inv o log → bytes buf →
  wlp (Outbound.protect_rtcp len) (o, buf)
    (fun n s => out_frame o buf s ∧ (n ≤ length buf)%nat) (fun _ s => out_frame o buf s).
Proof.
  intros HI Hb. pose proof (Outbound.inv_cipher _ _ HI) as Hc.
  assert (Hself : out_frame o buf (o, buf)) by done.
  unfold Outbound.protect_rtcp. wp. case_bool_decide as Hlen; wp; [done|].
  unfold RTCP_HEADER_SIZE in *.
  apply wlp_lift; [intros x Hx|done]. wp.
  destruct (Outbound.slot_of o x) as [i|] eqn:Hi; [|done]. wp.
  destruct (Outbound.slot_of_Some _ _ _ Hi) as (s & Hs & Hl & _).
  apply wlp_lift; [intros s' Hs'|done]. unfold idx in Hs'. rewrite Hs in Hs'. cbn in Hs'. simplify_eq. wp.
  pose proof (Outbound.slot_index _ _ _ _ (Outbound.inv_slots _ _ HI _ _ Hs Hl)) as Hidx.
  rewrite Z.geb_leb. destruct (Z.leb_spec SRTCP_INDEX_MASK (Outbound.srtcp_index s')) as [|Hlt]; wp; [done|].
  unfold SRTCP_INDEX_MASK in *. apply wp_zoom. cbn. apply wp_quiet.
  pose proof (protect_rtcp_law (Outbound.cipher o) len (Outbound.srtcp_index s') buf Hc ltac:(lia) ltac:(lia)) as Hlaw.
  pose proof (protect_rtcp_bytes (Outbound.cipher o) len (Outbound.srtcp_index s') buf Hc ltac:(lia) ltac:(lia) Hb) as Hbytes.
  unfold run_to at 1. destruct (cipher_protect_rtcp _ _ _ _) as [[n b2]|[e b2]|]; cbn in *; [destruct_and! Hlaw|by split_and!|done].
  wp. eapply wp_conseq; [apply out_on_slot| |]; cbn; intros _ [o3 b3]; cbn; intros [-> [l' ->]]; [|by split_and!].
  wp. apply wlp_lift; [intros|by intros; split_and!]. wp. split; [by split_and!|]. lia.
Qed.

Lemma unprotect_rtp_frame len now o buf : cipher_wf (Inbound.cipher o) → bytes buf →
  wlp (Inbound.unprotect_rtp len now) (o, buf)
    (fun n s => in_frame o buf s ∧ (12 ≤ n ≤ length buf)%nat) (fun _ s => in_frame o buf s).
Proof.
  intros Hc Hb. assert (Hself : in_frame o buf (o, buf)) by done.
  unfold Inbound.unprotect_rtp. wp. case_bool_decide as Hlen; wp; [done|].
  unfold RTP_HEADER_SIZE in *.
  apply wlp_lift; [intros seq _|done]. wp. apply wlp_lift; [intros x _|done]. wp.
  destruct (Inbound.slot_for o x now) as [i|]; [|done]. wp.
  apply wlp_lift; [intros s _|done]. wp.
  apply (wp_mono _ _ (fun _ s' => s'.2 = buf ∧ ∃ l, s'.1 = Inbound.set_slots l o)).
  { destruct (Inbound.is_slot_of x s); wp; [|split; [done|]; exists (Inbound.slots o); by destruct o].
    apply wlp_lift; [intros index _|done]. wp.
    eapply wp_conseq; [apply in_on_slot| |]; cbn; intros _ [o1 b1]; cbn; intros [-> [l ->]]; [wp; eauto|done]. }
  intros index [o1 b1]; cbn; intros [-> [l ->]]. wp. apply wp_zoom. cbn. apply wp_quiet.
  pose proof (unprotect_rtp_law (Inbound.cipher o) len index buf Hc ltac:(lia)) as Hlaw.
  pose proof (unprotect_rtp_bytes (Inbound.cipher o) len index buf Hc ltac:(lia) Hb) as Hbytes.
  unfold run_to at 1. destruct (cipher_unprotect_rtp _ _ _ _) as [[n b2]|[e b2]|]; cbn in *; [destruct_and! Hlaw|by split_and!|done].
  wp. eapply wp_conseq; [apply in_on_slot| |]; cbn; intros _ [o3 b3]; cbn; intros [-> [l' ->]]; [|by split_and!].
  wp. do 2 (apply wlp_lift; [intros|by intros; split_and!]; wp). split; [by split_and!|]. lia.
Qed.

Lemma unprotect_rtcp_frame len now o buf : cipher_wf (Inbound.cipher o) → bytes buf →
  wlp (Inbound.unprotect_rtcp len now) (o, buf)
    (fun n s => in_frame o buf s ∧ (8 ≤ n ≤ length buf)%nat) (fun _ s => in_frame o buf s).
Proof.
  intros Hc Hb. assert (Hself : in_frame o buf (o, buf)) by done.
  unfold Inbound.unprotect_rtcp. wp. case_bool_decide as Hlen; wp; [done|].
  unfold RTCP_HEADER_SIZE in *.
  destruct (srtcp_trailer_offset _ _) as [at_|]; [|done]. wp.
  apply wlp_lift; [intros e _|done]. wp. case_match; wp; [done|].
  apply wlp_lift; [intros x _|done]. wp.
  destruct (Inbound.slot_for o x now) as [i|]; [|done]. wp.
  apply wlp_lift; [intros s _|done]. wp.
  apply (wp_mono _ _ (fun _ s' => s'.2 = buf ∧ ∃ l, s'.1 = Inbound.set_slots l o)).
  { destruct (Inbound.is_slot_of x s); wp; [|split; [done|]; exists (Inbound.slots o); by destruct o].
    eapply wp_conseq; [apply in_on_slot| |]; cbn; intros _ [o1 b1]; cbn; intros [-> [l ->]]; [eauto|done]. }
  intros _ [o1 b1]; cbn; intros [-> [l ->]]. wp. apply wp_zoom. cbn. apply wp_quiet.
  pose proof (unprotect_rtcp_law (Inbound.cipher o) len buf Hc ltac:(lia)) as Hlaw.
  pose proof (unprotect_rtcp_bytes (Inbound.cipher o) len buf Hc ltac:(lia) Hb) as Hbytes.
  unfold run_to at 1. destruct (cipher_unprotect_rtcp _ _ _) as [[[n k] b2]|[e' b2]|]; cbn in *; [destruct_and! Hlaw|by split_and!|done].
  wp. apply wlp_lift; [intros|by intros; split_and!]. wp.
  eapply wp_conseq; [apply in_on_slot| |]; cbn; intros _ [o3 b3]; cbn; intros [-> [l' ->]]; [|by split_and!].
  wp. do 2 (apply wlp_lift; [intros|by intros; split_and!]; wp). split; [by split_and!|]. lia.
Qed.

End contexts.
