(* ===== verification/Keys.v ===== *)
(** * SRTP key material, key derivation and cipher construction

    [crates/nexus-transport/src/srtp/keys.rs], [ProtectionProfile] of
    [srtp/types.rs] and the constructors of [srtp/crypto.rs] and
    [srtp/direction.rs]: from the bytes DTLS exports to the two contexts of a
    session. The AES block function is a parameter. *)

From S2P Require Import Prelude Replay RocIndex Direction Inbound Outbound Cipher CipherProofs.

Module Keys.

Inductive ProtectionProfile :=
| AeadAes128Gcm | AeadAes256Gcm | Aes128CmHmacSha1_80 | Aes128CmHmacSha1_32.

Definition key_len (p : ProtectionProfile) : nat :=
  match p with AeadAes128Gcm => 16 | AeadAes256Gcm => 32 | _ => 16 end.
Definition salt_len (p : ProtectionProfile) : nat :=
  match p with AeadAes128Gcm | AeadAes256Gcm => 12 | _ => 14 end.
Definition profile_tag_len (p : ProtectionProfile) : nat :=
  match p with
  | AeadAes128Gcm | AeadAes256Gcm => 16 | Aes128CmHmacSha1_80 => 10 | Aes128CmHmacSha1_32 => 4
  end.
Definition profile_is_aead (p : ProtectionProfile) : bool :=
  match p with AeadAes128Gcm | AeadAes256Gcm => true | _ => false end.

Definition from_u16 (value : Z) : option ProtectionProfile :=
  if value =? 0x0007 then Some AeadAes128Gcm
  else if value =? 0x0008 then Some AeadAes256Gcm
  else if value =? 0x0001 then Some Aes128CmHmacSha1_80
  else if value =? 0x0002 then Some Aes128CmHmacSha1_32
  else None.

Record KeyMaterial := mkMaterial {
  master_key : list Z;       (* [u8; 32] *)
  master_key_len : nat;
  master_salt : list Z;      (* [u8; 14] *)
  master_salt_len : nat;
  profile : ProtectionProfile;
}.

Definition from_aes128_gcm (key salt : list Z) : outcome SrtpError KeyMaterial :=
  fail_if (negb (bool_decide (length key = 16%nat))) InvalidKeyMaterial;;
  fail_if (negb (bool_decide (length salt = 12%nat))) InvalidKeyMaterial;;
  k ← copy_at 0 key (replicate 32 0);
  s ← copy_at 0 salt (replicate 14 0);
  Ok (mkMaterial k 16 s 12 AeadAes128Gcm).

Definition from_aes256_gcm (key salt : list Z) : outcome SrtpError KeyMaterial :=
  fail_if (negb (bool_decide (length key = 32%nat))) InvalidKeyMaterial;;
  fail_if (negb (bool_decide (length salt = 12%nat))) InvalidKeyMaterial;;
  k ← copy_at 0 key (replicate 32 0);
  s ← copy_at 0 salt (replicate 14 0);
  Ok (mkMaterial k 32 s 12 AeadAes256Gcm).

Definition from_dtls_export (material : list Z) (p : ProtectionProfile) : outcome SrtpError KeyMaterial :=
  let kl := key_len p in
  let sl := salt_len p in
  fail_if (bool_decide (length material < kl + sl)%nat) InvalidKeyMaterial;;
  key ← slice 0 kl material;
  k ← copy_at 0 key (replicate 32 0);
  salt ← slice kl (kl + sl) material;
  s ← copy_at 0 salt (replicate 14 0);
  Ok (mkMaterial k kl s sl p).

Definition key (m : KeyMaterial) : outcome SrtpError (list Z) := slice 0 (master_key_len m) (master_key m).
Definition salt (m : KeyMaterial) : outcome SrtpError (list Z) := slice 0 (master_salt_len m) (master_salt m).

(** [PartialEq]: the profile and the used bytes. *)
Definition material_eq (a b : KeyMaterial) : outcome SrtpError bool :=
  ka ← key a; kb ← key b; sa ← salt a; sb ← salt b;
  Ok (match profile a, profile b with
      | AeadAes128Gcm, AeadAes128Gcm | AeadAes256Gcm, AeadAes256Gcm
      | Aes128CmHmacSha1_80, Aes128CmHmacSha1_80 | Aes128CmHmacSha1_32, Aes128CmHmacSha1_32 => true
      | _, _ => false
      end && bool_decide (ka = kb) && bool_decide (sa = sb)).

Record SrtpKeys := mkKeys {
  rtp_key : list Z; rtp_key_len : nat;
  rtp_salt : list Z; rtp_salt_len : nat;
  rtp_auth : list Z; rtp_auth_len : nat;
  rtcp_key : list Z; rtcp_key_len : nat;
  rtcp_salt : list Z; rtcp_salt_len : nat;
  rtcp_auth : list Z; rtcp_auth_len : nat;
  keys_profile : ProtectionProfile;
}.

Definition LABEL_RTP_ENCRYPTION : Z := 0x00.
Definition LABEL_RTP_AUTH : Z := 0x01.
Definition LABEL_RTP_SALT : Z := 0x02.
Definition LABEL_RTCP_ENCRYPTION : Z := 0x03.
Definition LABEL_RTCP_AUTH : Z := 0x04.
Definition LABEL_RTCP_SALT : Z := 0x05.

Section derivation.
(** [Aes128::new(k).encrypt_block] and [Aes256::new(k).encrypt_block]: 16 bytes. *)
Context (aes_block : list Z → list Z → list Z).
Context (aes_block_len : ∀ k b, length (aes_block k b) = 16%nat).

(** The loop of [aes_cm_generate]: one block per 16 bytes of output, the
    block counter in bytes 14 and 15 of the IV. [fuel] bounds the blocks. *)
Fixpoint generate_blocks (fuel : nat) (k iv : list Z) (counter : Z) (offset : nat) (output : list Z)
  : outcome SrtpError (list Z) :=
  if bool_decide (offset < length output)%nat then
    match fuel with
    | O => Panic
    | S fuel =>
      let block_iv := <[15%nat := wrap 8 counter]> (<[14%nat := wrap 8 (Z.shiftr counter 8)]> iv) in
      let block := aes_block k block_iv in
      let copy_len := Nat.min (length output - offset) 16 in
      b ← slice 0 copy_len block;
      output ← copy_at offset b output;
      generate_blocks fuel k iv (counter + 1) (offset + 16) output
    end
  else Ok output.

Definition aes_cm_generate (mk iv : list Z) (output : list Z) : outcome SrtpError (list Z) :=
  assert_ (bool_decide (16 ≤ length mk)%nat);;
  k ← (if bool_decide (32 ≤ length mk)%nat then slice 0 32 mk else slice 0 16 mk);
  generate_blocks (length output) k iv 0 0 output.

(** The KDF's input block: the salt with the label xored into byte 7. *)
Definition kdf_iv (ms : list Z) (label : Z) : list Z :=
  alter (fun b => Z.lxor b label) 7%nat (splice 0 ms (replicate 16 0)).

Definition derive_key_aead (mk ms : list Z) (label : Z) (output : list Z) : outcome SrtpError (list Z) :=
  assert_ (bool_decide (16 ≤ length mk)%nat);;
  assert_ (bool_decide (length output ≤ 32)%nat);;
  assert_ (bool_decide (length ms ≤ 14)%nat);;
  aes_cm_generate mk (kdf_iv ms label) output.

Definition derive_key_prf (mk ms : list Z) (label index : Z) (output : list Z) : outcome SrtpError (list Z) :=
  assert_ (bool_decide (16 ≤ length mk)%nat);;
  assert_ (bool_decide (length output ≤ 32)%nat);;
  let x := if index =? 0 then 0 else index in
  let salt_len := Nat.min (length ms) 14 in
  let iv := kdf_iv (take salt_len ms) label in
  let iv := if x =? 0 then iv else xor_into 8 (drop 2 (to_be 8 x)) iv in
  aes_cm_generate mk iv output.

(** Derives into the first [n] bytes of a field. *)
Definition derive_into (f : list Z → outcome SrtpError (list Z)) (n : nat) (field : list Z)
  : outcome SrtpError (list Z) :=
  s ← slice 0 n field; d ← f s; copy_at 0 d field.

Definition derive_aead_keys (m : KeyMaterial) (keys : SrtpKeys) : outcome SrtpError SrtpKeys :=
  assert_ (profile_is_aead (profile m));;
  mk ← key m; ms ← salt m;
  rk ← derive_into (derive_key_aead mk ms LABEL_RTP_ENCRYPTION) (rtp_key_len keys) (rtp_key keys);
  rs ← derive_into (derive_key_aead mk ms LABEL_RTP_SALT) (rtp_salt_len keys) (rtp_salt keys);
  ck ← derive_into (derive_key_aead mk ms LABEL_RTCP_ENCRYPTION) (rtcp_key_len keys) (rtcp_key keys);
  cs ← derive_into (derive_key_aead mk ms LABEL_RTCP_SALT) (rtcp_salt_len keys) (rtcp_salt keys);
  Ok (mkKeys rk (rtp_key_len keys) rs (rtp_salt_len keys) (rtp_auth keys) (rtp_auth_len keys)
        ck (rtcp_key_len keys) cs (rtcp_salt_len keys) (rtcp_auth keys) (rtcp_auth_len keys)
        (keys_profile keys)).

Definition derive_prf_keys (m : KeyMaterial) (keys : SrtpKeys) : outcome SrtpError SrtpKeys :=
  assert_ (negb (profile_is_aead (profile m)));;
  mk ← key m; ms ← salt m;
  rk ← derive_into (derive_key_prf mk ms LABEL_RTP_ENCRYPTION 0) (rtp_key_len keys) (rtp_key keys);
  rs ← derive_into (derive_key_prf mk ms LABEL_RTP_SALT 0) (rtp_salt_len keys) (rtp_salt keys);
  ra ← derive_key_prf mk ms LABEL_RTP_AUTH 0 (rtp_auth keys);
  ck ← derive_into (derive_key_prf mk ms LABEL_RTCP_ENCRYPTION 0) (rtcp_key_len keys) (rtcp_key keys);
  cs ← derive_into (derive_key_prf mk ms LABEL_RTCP_SALT 0) (rtcp_salt_len keys) (rtcp_salt keys);
  ca ← derive_key_prf mk ms LABEL_RTCP_AUTH 0 (rtcp_auth keys);
  Ok (mkKeys rk (rtp_key_len keys) rs (rtp_salt_len keys) ra 20
        ck (rtcp_key_len keys) cs (rtcp_salt_len keys) ca 20 (keys_profile keys)).

Definition derive_keys (m : KeyMaterial) : outcome SrtpError SrtpKeys :=
  assert_ (bool_decide (0 < master_key_len m)%nat);;
  assert_ (bool_decide (0 < master_salt_len m)%nat);;
  let p := profile m in
  let keys := mkKeys (replicate 32 0) (key_len p) (replicate 14 0) (salt_len p) (replicate 20 0) 0
                (replicate 32 0) (key_len p) (replicate 14 0) (salt_len p) (replicate 20 0) 0 p in
  if profile_is_aead p then derive_aead_keys m keys else derive_prf_keys m keys.

Context `{Crypto}.

Definition gcm_new (keys : SrtpKeys) : outcome SrtpError Gcm.AesGcmCipher :=
  fail_if (negb (profile_is_aead (keys_profile keys))) UnsupportedCipherSuite;;
  rk ← slice 0 (rtp_key_len keys) (rtp_key keys);
  ck ← slice 0 (rtcp_key_len keys) (rtcp_key keys);
  '(r, c) ← match keys_profile keys with
            | AeadAes128Gcm =>
              assert_ (bool_decide (rtp_key_len keys = 16%nat));;
              r ← Gcm.new_128 rk; c ← Gcm.new_128 ck; Ok (r, c)
            | AeadAes256Gcm =>
              assert_ (bool_decide (rtp_key_len keys = 32%nat));;
              r ← Gcm.new_256 rk; c ← Gcm.new_256 ck; Ok (r, c)
            | _ => Err UnsupportedCipherSuite
            end;
  rs ← slice 0 (rtp_salt_len keys) (rtp_salt keys);
  cs ← slice 0 (rtcp_salt_len keys) (rtcp_salt keys);
  (* copy_from_slice into [u8; 12] *)
  assert_ (bool_decide (length rs = 12%nat));;
  assert_ (bool_decide (length cs = 12%nat));;
  Ok (Gcm.mkGcm r rs c cs).

Definition cm_new (keys : SrtpKeys) : outcome SrtpError CmHmac.AesCmHmacCipher :=
  assert_ (negb (profile_is_aead (keys_profile keys)));;
  assert_ (bool_decide (rtp_key_len keys = 16%nat));;
  let tag_len := profile_tag_len (keys_profile keys) in
  assert_ (bool_decide (tag_len = 10%nat ∨ tag_len = 4%nat));;
  rs ← slice 0 (rtp_salt_len keys) (rtp_salt keys);
  cs ← slice 0 (rtcp_salt_len keys) (rtcp_salt keys);
  (* copy_from_slice into [u8; 14] *)
  assert_ (bool_decide (length rs = 14%nat));;
  assert_ (bool_decide (length cs = 14%nat));;
  ra ← slice 0 (rtp_auth_len keys) (rtp_auth keys);
  fail_if (negb (hmac_key_ok ra)) InvalidKeyMaterial;;
  ca ← slice 0 (rtcp_auth_len keys) (rtcp_auth keys);
  fail_if (negb (hmac_key_ok ca)) InvalidKeyMaterial;;
  rk ← slice 0 (rtp_key_len keys) (rtp_key keys);
  ck ← slice 0 (rtcp_key_len keys) (rtcp_key keys);
  Ok (CmHmac.mkCm rk rs ra ck cs ca tag_len).

Definition cipher_new (keys : SrtpKeys) : outcome SrtpError Unified.SrtpCipher :=
  if profile_is_aead (keys_profile keys)
  then Unified.AesGcm <$> gcm_new keys
  else Unified.AesCmHmac <$> cm_new keys.

Definition inbound_new (m : KeyMaterial) : outcome SrtpError (Inbound.SrtpInbound Unified.SrtpCipher) :=
  keys ← derive_keys m; Inbound.from_cipher <$> cipher_new keys.

Definition outbound_new (m : KeyMaterial) (ssrc_base : Z)
  : outcome SrtpError (Outbound.SrtpOutbound Unified.SrtpCipher) :=
  keys ← derive_keys m; (fun c => Outbound.from_cipher c ssrc_base) <$> cipher_new keys.

(** ** Theorems *)

(** The AES-CM key stream from a block counter on, as RFC 3711 defines it. *)
Fixpoint key_stream (n : nat) (k iv : list Z) (counter : Z) : list Z :=
  match n with
  | O => []
  | S n => aes_block k (<[15%nat := wrap 8 counter]> (<[14%nat := wrap 8 (Z.shiftr counter 8)]> iv))
           ++ key_stream n k iv (counter + 1)
  end.

Lemma length_key_stream n k iv counter : length (key_stream n k iv counter) = (16 * n)%nat.
Proof.
  revert counter; induction n as [|n IH]; intros; [done|]. cbn. rewrite length_app, IH, aes_block_len. lia.
Qed.

Lemma generate_blocks_spec fuel k iv : ∀ counter offset output,
  (offset ≤ length output ≤ offset + 16 * fuel)%nat →
  generate_blocks fuel k iv counter offset output =
    Ok (take offset output ++ take (length output - offset) (key_stream fuel k iv counter)).
Proof.
  induction fuel as [|fuel IH]; intros counter offset output Hl.
  { cbn. rewrite bool_decide_eq_false_2 by lia. f_equal.
    rewrite firstn_nil, app_nil_r. by rewrite firstn_all2 by lia. }
  cbn [generate_blocks]. case_bool_decide as Ho.
  2: { f_equal. replace (length output - offset)%nat with 0%nat by lia.
       by rewrite app_nil_r, firstn_all2 by lia. }
  cbn [key_stream]. set (b := aes_block _ _). assert (Hb : length b = 16%nat) by apply aes_block_len.
  unfold slice. rewrite decide_True by lia. rewrite sub_list_0. cbn [mbind outcome_bind].
  unfold copy_at. rewrite decide_True by (rewrite length_take; lia). cbn [mbind outcome_bind].
  set (o := splice offset _ output).
  assert (Hlo : length o = length output) by (apply length_splice; rewrite length_take; lia).
  destruct (decide (length output ≤ offset + 16)%nat) as [Hlast|Hmore].
  - assert (Hdone : generate_blocks fuel k iv (counter + 1) (offset + 16) o = Ok o).
    { destruct fuel; cbn; by rewrite bool_decide_eq_false_2 by lia. }
    rewrite Hdone. f_equal. unfold o, splice. rewrite Nat.min_l by lia.
    rewrite (drop_ge output) by (rewrite length_take; lia). rewrite app_nil_r. f_equal.
    rewrite take_app_le by lia. done.
  - rewrite IH by lia. f_equal. rewrite Hlo. unfold o, splice. rewrite Nat.min_r by lia.
    rewrite (firstn_all2 (n:=16) b) by lia. rewrite app_assoc, take_app_length'.
    2: { rewrite length_app, length_take. lia. }
    rewrite <- app_assoc. f_equal. rewrite take_app_ge by lia. do 2 f_equal. lia.
Qed.

Lemma aes_cm_generate_spec mk iv output : (16 ≤ length mk)%nat →
  aes_cm_generate mk iv output =
    Ok (take (length output)
          (key_stream (length output) (take (if bool_decide (32 ≤ length mk)%nat then 32 else 16) mk) iv 0)).
Proof.
  intros Hm. unfold aes_cm_generate. rewrite (bool_decide_eq_true_2 (16 ≤ length mk)%nat) by done. cbn [assert_ mbind outcome_bind].
  unfold slice. case_bool_decide; rewrite decide_True by lia; cbn [mbind outcome_bind]; rewrite sub_list_0;
    rewrite generate_blocks_spec by lia; by rewrite Nat.sub_0_r.
Qed.

Lemma derive_aead_ok mk ms label output : (16 ≤ length mk)%nat → (length output ≤ 32)%nat →
  (length ms ≤ 14)%nat →
  derive_key_aead mk ms label output = aes_cm_generate mk (kdf_iv ms label) output.
Proof. intros. unfold derive_key_aead. by rewrite !bool_decide_eq_true_2. Qed.

Lemma derive_prf_ok mk ms label output : (16 ≤ length mk)%nat → (length output ≤ 32)%nat →
  (length ms ≤ 14)%nat →
  derive_key_prf mk ms label 0 output = aes_cm_generate mk (kdf_iv ms label) output.
Proof.
  intros. unfold derive_key_prf. rewrite !bool_decide_eq_true_2 by done. cbn.
  by rewrite firstn_all2 by lia.
Qed.

(** A session key or salt: [n] bytes of the key stream of its label. *)
Definition derived (mk ms : list Z) (label : Z) (n : nat) : list Z :=
  take n (key_stream n (take (if bool_decide (32 ≤ length mk)%nat then 32 else 16) mk) (kdf_iv ms label) 0).

Lemma length_derived mk ms label n : length (derived mk ms label n) = n.
Proof. unfold derived. rewrite length_take, length_key_stream. lia. Qed.

Lemma derive_into_ok f n field d : (n ≤ length field)%nat → f (take n field) = Ok d → length d = n →
  derive_into f n field = Ok (splice 0 d field).
Proof.
  intros Hn Hf Hd. unfold derive_into, slice. rewrite decide_True by lia. cbn [mbind outcome_bind].
  rewrite sub_list_0, Hf. cbn [mbind outcome_bind]. unfold copy_at. by rewrite decide_True by lia.
Qed.

(** The used bytes of a field after derivation. *)
Lemma slice_derived {E} d (field : list Z) n : length d = n → (n ≤ length field)%nat →
  slice (E:=E) 0 n (splice 0 d field) = Ok d.
Proof.
  intros Hd Hn. unfold slice. rewrite decide_True by (rewrite length_splice; lia).
  rewrite sub_list_0. unfold splice. change (take 0 field) with (@nil Z). cbn [app]. f_equal. apply take_app_length'. lia.
Qed.

(** The master key and salt that an exported block holds. *)
Definition export_key (material : list Z) (p : ProtectionProfile) : list Z := take (key_len p) material.
Definition export_salt (material : list Z) (p : ProtectionProfile) : list Z :=
  sub_list (key_len p) (key_len p + salt_len p) material.

Lemma from_dtls_export_ok material p : (key_len p + salt_len p ≤ length material)%nat →
  ∃ m, from_dtls_export material p = Ok m ∧ profile m = p ∧
    master_key_len m = key_len p ∧ master_salt_len m = salt_len p ∧
    key m = Ok (export_key material p) ∧ salt m = Ok (export_salt material p).
Proof.
  intros Hl. unfold from_dtls_export. rewrite bool_decide_eq_false_2 by lia. cbn [fail_if mbind outcome_bind].
  assert (Hk : (key_len p ≤ 32)%nat ∧ (salt_len p ≤ 14)%nat) by (destruct p; cbn; lia).
  unfold slice. rewrite !decide_True by lia. cbn [mbind outcome_bind]. rewrite sub_list_0.
  unfold copy_at. rewrite !decide_True; cbn [mbind outcome_bind];
    rewrite ?length_take, ?length_sub_list, ?length_replicate by lia; try lia.
  eexists. split; [reflexivity|]. repeat (split; [done|]).
  unfold key, salt, export_key, export_salt. cbn [master_key master_key_len master_salt master_salt_len]. split.
  - apply slice_derived; [rewrite length_take; lia|rewrite length_replicate; lia].
  - apply slice_derived; [rewrite length_sub_list; lia|rewrite length_replicate; lia].
Qed.

(** The session keys derived from a master key and salt of a profile. *)
Lemma derive_keys_ok m mk ms : key m = Ok mk → salt m = Ok ms →
  master_key_len m = key_len (profile m) → master_salt_len m = salt_len (profile m) →
  length mk = key_len (profile m) → length ms = salt_len (profile m) →
  ∃ ks, derive_keys m = Ok ks ∧ keys_profile ks = profile m ∧
    rtp_key_len ks = key_len (profile m) ∧ rtcp_key_len ks = key_len (profile m) ∧
    rtp_salt_len ks = salt_len (profile m) ∧ rtcp_salt_len ks = salt_len (profile m) ∧
    (∀ E, slice (E:=E) 0 (rtp_key_len ks) (rtp_key ks) =
       Ok (derived mk ms LABEL_RTP_ENCRYPTION (key_len (profile m)))) ∧
    (∀ E, slice (E:=E) 0 (rtp_salt_len ks) (rtp_salt ks) =
       Ok (derived mk ms LABEL_RTP_SALT (salt_len (profile m)))) ∧
    (∀ E, slice (E:=E) 0 (rtcp_key_len ks) (rtcp_key ks) =
       Ok (derived mk ms LABEL_RTCP_ENCRYPTION (key_len (profile m)))) ∧
    (∀ E, slice (E:=E) 0 (rtcp_salt_len ks) (rtcp_salt ks) =
       Ok (derived mk ms LABEL_RTCP_SALT (salt_len (profile m)))) ∧
    (profile_is_aead (profile m) = false →
     rtp_auth_len ks = 20%nat ∧ rtcp_auth_len ks = 20%nat ∧
     rtp_auth ks = derived mk ms LABEL_RTP_AUTH 20 ∧ rtcp_auth ks = derived mk ms LABEL_RTCP_AUTH 20).
Proof.
  intros Hk Hs Hkl Hsl Hmk Hms. set (p := profile m) in *.
  assert (Hb : (16 ≤ key_len p ≤ 32)%nat ∧ (12 ≤ salt_len p ≤ 14)%nat) by (destruct p; cbn; lia).
  unfold derive_keys. rewrite !bool_decide_eq_true_2 by lia. cbn [assert_ mbind outcome_bind]. fold p.
  assert (Hinto : ∀ label n field, (n ≤ length field)%nat → (n ≤ 32)%nat →
    derive_into (derive_key_aead mk ms label) n field = Ok (splice 0 (derived mk ms label n) field) ∧
    derive_into (derive_key_prf mk ms label 0) n field = Ok (splice 0 (derived mk ms label n) field)).
  { intros label n field Hn H32. split; (apply derive_into_ok; [done| |by apply length_derived]).
    - rewrite derive_aead_ok, aes_cm_generate_spec by (rewrite ?length_take; lia).
      unfold derived. by rewrite length_take, Nat.min_l by lia.
    - rewrite derive_prf_ok, aes_cm_generate_spec by (rewrite ?length_take; lia).
      unfold derived. by rewrite length_take, Nat.min_l by lia. }
  assert (Hslice : ∀ E label n field, (n ≤ length field)%nat →
    slice (E:=E) 0 n (splice 0 (derived mk ms label n) field) = Ok (derived mk ms label n)).
  { intros. apply slice_derived; [apply length_derived|done]. }
  destruct (profile_is_aead p) eqn:Haead.
  - unfold derive_aead_keys. fold p. rewrite Haead, Hk, Hs. cbn [assert_ mbind outcome_bind].
    cbn [rtp_key_len rtp_key rtp_salt_len rtp_salt rtcp_key_len rtcp_key rtcp_salt_len rtcp_salt].
    rewrite !(fun l n f H1 H2 => proj1 (Hinto l n f H1 H2)) by (rewrite ?length_replicate; lia).
    cbn [mbind outcome_bind]. eexists. split; [reflexivity|].
    cbn [keys_profile rtp_key_len rtp_key rtp_salt_len rtp_salt rtcp_key_len rtcp_key rtcp_salt_len rtcp_salt].
    repeat (split; [done|]). repeat (split; [intros; apply Hslice; rewrite length_replicate; lia|]). done.
  - unfold derive_prf_keys. fold p. rewrite Haead, Hk, Hs. cbn [negb assert_ mbind outcome_bind].
    cbn [rtp_key_len rtp_key rtp_salt_len rtp_salt rtcp_key_len rtcp_key rtcp_salt_len rtcp_salt rtp_auth rtcp_auth].
    rewrite !(fun l n f H1 H2 => proj2 (Hinto l n f H1 H2)) by (rewrite ?length_replicate; lia).
    rewrite !derive_prf_ok, !aes_cm_generate_spec by (rewrite ?length_replicate; lia).
    cbn [mbind outcome_bind]. eexists. split; [reflexivity|].
    cbn [keys_profile rtp_key_len rtp_key rtp_salt_len rtp_salt rtcp_key_len rtcp_key rtcp_salt_len rtcp_salt
         rtp_auth_len rtcp_auth_len rtp_auth rtcp_auth].
    repeat (split; [done|]). repeat (split; [intros; apply Hslice; rewrite length_replicate; lia|]).
    intros _. unfold derived. rewrite !length_replicate. done.
Qed.

Lemma cipher_new_ok ks mk ms p : (∀ k, length k = 16%nat → ring_key_ok k = true) → (∀ k, hmac_key_ok k = true) →
  keys_profile ks = p → rtp_key_len ks = key_len p → rtcp_key_len ks = key_len p →
  rtp_salt_len ks = salt_len p → rtcp_salt_len ks = salt_len p →
  (∀ E, slice (E:=E) 0 (rtp_key_len ks) (rtp_key ks) = Ok (derived mk ms LABEL_RTP_ENCRYPTION (key_len p))) →
  (∀ E, slice (E:=E) 0 (rtp_salt_len ks) (rtp_salt ks) = Ok (derived mk ms LABEL_RTP_SALT (salt_len p))) →
  (∀ E, slice (E:=E) 0 (rtcp_key_len ks) (rtcp_key ks) = Ok (derived mk ms LABEL_RTCP_ENCRYPTION (key_len p))) →
  (∀ E, slice (E:=E) 0 (rtcp_salt_len ks) (rtcp_salt ks) = Ok (derived mk ms LABEL_RTCP_SALT (salt_len p))) →
  (profile_is_aead p = false →
     rtp_auth_len ks = 20%nat ∧ rtcp_auth_len ks = 20%nat ∧
     rtp_auth ks = derived mk ms LABEL_RTP_AUTH 20 ∧ rtcp_auth ks = derived mk ms LABEL_RTCP_AUTH 20) →
  ∃ c, cipher_new ks = Ok c ∧ Unified.wf c ∧ Unified.tag_len c = profile_tag_len p ∧
    Unified.is_aead c = profile_is_aead p.
Proof.
  intros Hring Hhmac Hp Hrk Hck Hrs Hcs H1 H2 H3 H4 Hauth.
  unfold cipher_new. rewrite Hp. destruct (profile_is_aead p) eqn:Haead.
  - assert (Hgcm : ∃ c, gcm_new ks = Ok c ∧ Gcm.wf c).
    { unfold gcm_new. rewrite Hp, Haead, H1, H3, H2, H4. cbn [negb fail_if mbind outcome_bind].
      unfold Gcm.new_128, Gcm.new_256. rewrite Hrk.
      destruct p; try done; cbn [key_len salt_len]; rewrite !length_derived; cbn -[derived];
        rewrite ?Hring by apply length_derived; cbn -[derived];
        rewrite ?length_derived; cbn -[derived]; eexists; (split; [reflexivity|]); split;
        cbn -[derived]; apply length_derived. }
    destruct Hgcm as (c & -> & Hw). exists (Unified.AesGcm c). cbn. split; [done|]. split; [done|].
    destruct p; done.
  - destruct (Hauth eq_refl) as (Hal & Hcl & Ha & Hc).
    assert (Hcm : ∃ c, cm_new ks = Ok c ∧ CmHmac.wf c ∧ CmHmac.tag_len c = profile_tag_len p).
    { unfold cm_new. rewrite Hp, Haead, H1, H3, H2, H4, Hal, Hcl, Ha, Hc, Hrk.
      cbn [negb assert_ fail_if mbind outcome_bind].
      unfold slice. rewrite !decide_True by (rewrite length_derived; lia). rewrite !length_derived.
      destruct p; try done; cbn -[derived]; rewrite !Hhmac; cbn -[derived];
        eexists; (split; [reflexivity|]); cbn -[derived];
        (split; [|done]); repeat split; cbn -[derived]; rewrite ?length_derived; auto. }
    destruct Hcm as (c & -> & Hw & Ht). exists (Unified.AesCmHmac c). cbn. auto.
Qed.

(** What the constructors of key material guarantee. *)
Record material_ok (m : KeyMaterial) : Prop := {
  material_key_len : master_key_len m = key_len (profile m);
  material_salt_len : master_salt_len m = salt_len (profile m);
  material_key : length (master_key m) = 32%nat;
  material_salt : length (master_salt m) = 14%nat;
}.

Lemma from_dtls_material material p m : from_dtls_export material p = Ok m → material_ok m ∧ profile m = p.
Proof.
  unfold from_dtls_export. intros Hm. inv_ok.
  repeat match goal with H : slice _ _ _ = Ok _ |- _ => apply slice_ok in H as (? & ? & ->) end.
  repeat match goal with H : copy_at _ _ _ = Ok _ |- _ => apply copy_at_ok in H as [? ->] end.
  rewrite length_replicate in *. split; [|done]. split; cbn [master_key_len master_salt_len master_key master_salt profile];
    [done|done| |]; rewrite length_splice by (by rewrite length_replicate); apply length_replicate.
Qed.

(** Both contexts of a session from one key material. *)
Lemma contexts_of_material m base : material_ok m →
  (∀ k, length k = 16%nat → ring_key_ok k = true) → (∀ k, hmac_key_ok k = true) →
  ∃ c, inbound_new m = Ok (Inbound.from_cipher c) ∧ outbound_new m base = Ok (Outbound.from_cipher c base) ∧
    Unified.wf c ∧ Unified.tag_len c = profile_tag_len (profile m) ∧ Unified.is_aead c = profile_is_aead (profile m).
Proof.
  intros [Hkl Hsl Hk Hs] Hring Hhmac.
  assert (Hk' : key m = Ok (take (key_len (profile m)) (master_key m))).
  { unfold key, slice. rewrite Hkl, decide_True by (rewrite Hk; destruct (profile m); cbn; lia). by rewrite sub_list_0. }
  assert (Hs' : salt m = Ok (take (salt_len (profile m)) (master_salt m))).
  { unfold salt, slice. rewrite Hsl, decide_True by (rewrite Hs; destruct (profile m); cbn; lia). by rewrite sub_list_0. }
  destruct (derive_keys_ok m _ _ Hk' Hs' Hkl Hsl) as (ks & Hd & Hkp & H1 & H2 & H3 & H4 & H5 & H6 & H7 & H8 & H9).
  { rewrite length_take, Hk. destruct (profile m); cbn; lia. }
  { rewrite length_take, Hs. destruct (profile m); cbn; lia. }
  destruct (cipher_new_ok ks _ _ _ Hring Hhmac Hkp H1 H2 H3 H4 H5 H6 H7 H8 H9) as (c & Hc & Hw & Ht & Ha).
  exists c. unfold inbound_new, outbound_new. rewrite Hd. cbn [mbind outcome_bind]. rewrite Hc. done.
Qed.

(** From the bytes DTLS exports to the contexts of a session: an export
    that is too short is refused as invalid key material, and any other
    yields, without a panic and for every profile, an inbound and an outbound
    context on a well-formed cipher with the profile's tag length;
    both directions of a key get the same cipher. *)
Theorem contexts_from_dtls material p base :
  (∀ k, length k = 16%nat → ring_key_ok k = true) → (∀ k, hmac_key_ok k = true) →
  if bool_decide (length material < key_len p + salt_len p)%nat
  then from_dtls_export material p = Err InvalidKeyMaterial
  else ∃ m c, from_dtls_export material p = Ok m ∧
         inbound_new m = Ok (Inbound.from_cipher c) ∧
         outbound_new m base = Ok (Outbound.from_cipher c base) ∧
         Unified.wf c ∧ Unified.tag_len c = profile_tag_len p ∧ Unified.is_aead c = profile_is_aead p.
Proof.
  intros Hring Hhmac. case_bool_decide as Hl.
  { unfold from_dtls_export. by rewrite bool_decide_eq_true_2. }
  destruct (from_dtls_export_ok material p ltac:(lia)) as (m & Hm & _).
  destruct (from_dtls_material _ _ _ Hm) as [Hok <-].
  destruct (contexts_of_material m base Hok Hring Hhmac) as (c & Hc). by exists m, c.
Qed.

(** Different labels derive from different key streams: their IVs differ. *)
Lemma kdf_iv_inj ms l l' : (length ms ≤ 14)%nat → kdf_iv ms l = kdf_iv ms l' → l = l'.
Proof.
  intros Hms Heq. unfold kdf_iv in Heq. set (b := splice 0 ms (replicate 16 0)) in *.
  assert (Hb : length b = 16%nat) by (unfold b; rewrite length_splice; rewrite ?length_replicate; lia).
  destruct (lookup_lt_is_Some_2 b 7%nat ltac:(lia)) as [x Hx].
  apply (f_equal (fun l => l !! 7%nat)) in Heq. cbv beta in Heq. rewrite !list_lookup_alter_eq, Hx in Heq.
  injection Heq as Heq. apply (f_equal (Z.lxor x)) in Heq.
  by rewrite <- !Z.lxor_assoc, Z.lxor_nilpotent, !Z.lxor_0_l in Heq.
Qed.

End derivation.
End Keys.
