(* ===== verification/SrtpWitness.v ===== *)
(** * Instances of the SRTP theorems

    A concrete [Crypto] (a xor cipher with a tag that repeats the nonce), on
    which the hypotheses of the theorems about the SRTP contexts hold. *)

From S2P Require Import Prelude Replay RocIndex Direction Inbound Outbound Cipher CipherProofs SrtpBytes Keys.

Definition mask (d : list Z) : list Z := Z.lxor 90 <$> d.
Definition low_bytes (d : list Z) : list Z := (fun b => b mod 256) <$> d.
Definition toy_tag (nonce : list Z) : list Z := low_bytes (take 16 (nonce ++ replicate 16 0)).
Definition toy_hmac (d : list Z) : list Z := low_bytes (take 20 (d ++ replicate 20 0)).

#[global] Instance toy : Crypto := {|
  ring_key_ok _ := true;
  ring_seal _ n _ d := (Some (toy_tag n), mask d);
  ring_open _ n _ d :=
    (bool_decide (drop (length d - 16) d = toy_tag n),
     mask (take (length d - 16) d) ++ drop (length d - 16) d);
  aes256_seal _ n _ d := (Some (toy_tag n), mask d);
  aes256_open _ n _ d t := (bool_decide (t = toy_tag n), mask d);
  aes_ctr _ _ d := mask d;
  hmac_key_ok _ := true;
  hmac_sha1 _ d := toy_hmac d;
|}.

Lemma mask_mask d : mask (mask d) = d.
Proof.
  unfold mask. rewrite <- list_fmap_compose. rewrite <- (list_fmap_id d) at 2.
  apply list_fmap_ext. intros i x _. cbn. by rewrite <- Z.lxor_assoc, Z.lxor_nilpotent, Z.lxor_0_l.
Qed.

Lemma length_toy_tag n : length (toy_tag n) = 16%nat.
Proof. unfold toy_tag, low_bytes. rewrite length_fmap, length_take, length_app, length_replicate. lia. Qed.

Lemma length_toy_hmac d : length (toy_hmac d) = 20%nat.
Proof. unfold toy_hmac, low_bytes. rewrite length_fmap, length_take, length_app, length_replicate. lia. Qed.

#[global] Instance toy_laws : CryptoLaws.
Proof.
  assert (Hm : ∀ d, length (mask d) = length d) by (intros; apply length_fmap).
  split; cbn; intros; simplify_eq; try apply Hm; try apply mask_mask; try apply length_toy_tag.
  - rewrite length_app, Hm, length_take, length_drop. lia.
  - rewrite length_app, Hm, length_toy_tag.
    replace (length d + 16 - 16)%nat with (length (mask d)) by (rewrite Hm; lia).
    rewrite drop_app_length, take_app_length, mask_mask. split; [by apply bool_decide_eq_true_2|].
    apply take_app_length.
  - rewrite mask_mask. by rewrite bool_decide_eq_true_2.
  - apply length_toy_hmac.
Qed.

Lemma bytes_low d : bytes (low_bytes d).
Proof. apply Forall_fmap, Forall_true. intros x. apply Z.mod_pos_bound. lia. Qed.

Lemma bytes_mask d : bytes d → bytes (mask d).
Proof.
  intros Hd. apply Forall_fmap. eapply Forall_impl; [exact Hd|]. cbn. unfold in_range. intros x Hx.
  assert (Hn : 0 ≤ Z.lxor 90 x) by (apply Z.lxor_nonneg; lia). split; [done|].
  destruct (Z.eq_dec (Z.lxor 90 x) 0) as [->|]; [lia|]. apply Z.log2_lt_pow2 with (b := 8); [lia|].
  pose proof (Z.log2_lxor 90 x ltac:(lia) ltac:(lia)).
  assert (Z.log2 x < 8) by (destruct (Z.eq_dec x 0) as [->|]; [done|apply Z.log2_lt_pow2; lia]).
  assert (Z.log2 90 < 8) by done. lia.
Qed.

#[global] Instance toy_bytes : CryptoBytes.
Proof.
  split; cbn; intros; simplify_eq; try apply bytes_low; try by apply bytes_mask.
  apply Forall_app. split; [by apply bytes_mask, Forall_take|by apply Forall_drop].
Qed.

(** An AES-GCM cipher and an RTP packet under it. *)
Definition toy_cipher : Unified.SrtpCipher :=
  Unified.AesGcm (Gcm.mkGcm (Gcm.Aes128 (replicate 16 1)) (replicate 12 3)
                            (Gcm.Aes128 (replicate 16 2)) (replicate 12 4)).

Definition packet (ssrc seq : Z) : list Z :=
  [0x80; 96] ++ to_be 2 seq ++ to_be 4 7777 ++ to_be 4 ssrc ++ [1; 2; 3; 4] ++ replicate 24 0.

Definition report (ssrc : Z) : list Z := [0x81; 206] ++ to_be 2 2 ++ to_be 4 ssrc ++ [5; 6; 7; 8] ++ replicate 24 0.

(** Two streams, a duplicate, a reordered packet, a retirement and an attempt
    to send on the retired SSRC and to register it again. *)
Definition send_ops : list Outbound.op :=
  [Outbound.Register 1000; Outbound.Register 1001;
   Outbound.ProtectRtp (packet 1000 10) 16; Outbound.ProtectRtp (packet 1000 10) 16;
   Outbound.ProtectRtp (packet 1000 9) 16; Outbound.ProtectRtp (packet 1001 10) 16;
   Outbound.ProtectRtcp (report 1000) 12; Outbound.ProtectRtcp (report 1000) 12;
   Outbound.Retire 1000; Outbound.ProtectRtp (packet 1000 11) 16; Outbound.Register 1000;
   Outbound.ProtectRtp (packet 1000 10) 16].

(** Checks the packets of a run, once computed, one by one. *)
Ltac check_packets l :=
  let x := eval vm_compute in l in replace l with x by (vm_compute; reflexivity);
  repeat apply Forall2_cons_2; [..|constructor];
  split_and!; try (vm_compute; reflexivity); lia.

(** The packets of the run, and the uses they were protected under. *)
Definition sent : list (Outbound.packet) :=
  match Outbound.run send_ops (Outbound.from_cipher toy_cipher 1000) with Ok (ps, _) => ps | _ => [] end.

Example send_uses : Forall2 (Outbound.protected_under toy_cipher) sent
  [Outbound.UseRtp 1000 10; Outbound.UseRtp 1000 9; Outbound.UseRtp 1001 10;
   Outbound.UseRtcp 1000 0; Outbound.UseRtcp 1000 1].
Proof. check_packets sent. Qed.

Lemma nonce_never_reused_witness :
  ∃ ps o', Outbound.run send_ops (Outbound.from_cipher toy_cipher 1000) = Ok (ps, o') ∧
    ∃ us, Forall2 (Outbound.protected_under toy_cipher) ps us ∧ NoDup us.
Proof.
  apply (Outbound.nonce_never_reused (C:=Unified.SrtpCipher) toy_cipher 1000 send_ops).
  - by vm_compute.
  - repeat constructor; vm_compute; done.
Defined.

(** The packet as the peer receives it. *)
Definition sealed (ssrc seq : Z) : list Z :=
  match Unified.protect_rtp toy_cipher 16 seq (packet ssrc seq) with
  | Ok (_, p) => p | _ => [] end.

Definition receive_before : list Inbound.op := [Inbound.Pin 1000].
Definition receive_ops : list Inbound.op :=
  [Inbound.UnprotectRtp (sealed 1000 10) 32 1; Inbound.UnprotectRtp (sealed 1000 10) 32 2;
   Inbound.UnprotectRtp (packet 1000 11) 32 3; Inbound.UnprotectRtp (sealed 1001 10) 32 3;
   Inbound.EvictIdle 100 30; Inbound.UnprotectRtp (sealed 1000 12) 32 101].

Definition receiver : Inbound.SrtpInbound Unified.SrtpCipher :=
  match Inbound.run receive_before (Inbound.from_cipher toy_cipher) with
  | Ok (_, o) => o | _ => Inbound.from_cipher toy_cipher end.

Lemma pinned_no_replay_witness :
  Inbound.is_pinned 1000 receiver = true ∧
  ∃ ps o', Inbound.run receive_ops receiver = Ok (ps, o') ∧ Inbound.is_pinned 1000 o' = true ∧
    ∃ us, Forall2 (Inbound.authentic_under toy_cipher) ps us ∧ NoDup (Inbound.uses_of 1000 us).
Proof.
  split; [by vm_compute|].
  apply (Inbound.pinned_no_replay (C:=Unified.SrtpCipher) toy_cipher receive_before []
           receiver 1000 receive_ops).
  - by vm_compute.
  - repeat constructor; vm_compute; done.
  - by vm_compute.
  - by vm_compute.
  - intros Hin. repeat (apply elem_of_cons in Hin as [Hin|Hin]; [discriminate|]). by apply not_elem_of_nil in Hin.
Defined.

Definition delivered : list (Inbound.packet) :=
  match Inbound.run receive_ops receiver with Ok (ps, _) => ps | _ => [] end.

Example received : Forall2 (Inbound.authentic_under toy_cipher) delivered
  [Inbound.UseRtp 1000 10; Inbound.UseRtp 1001 10; Inbound.UseRtp 1000 12].
Proof. check_packets delivered. Qed.

Lemma refused_changes_nothing_witness :
  Inbound.cipher (state_of (receiver, []) (Inbound.unprotect_rtp 32 3 (receiver, packet 1000 11))).1
    = Inbound.cipher receiver ∧
  Forall2 Inbound.same_slot (Inbound.slots receiver)
    (Inbound.slots (state_of (receiver, []) (Inbound.unprotect_rtp 32 3 (receiver, packet 1000 11))).1).
Proof.
  apply (Inbound.refused_changes_nothing (C:=Unified.SrtpCipher) toy_cipher receive_before [] receiver
           (packet 1000 11) 32 3 ()
           (state_of (receiver, []) (Inbound.unprotect_rtp 32 3 (receiver, packet 1000 11))).1
           (state_of (receiver, []) (Inbound.unprotect_rtp 32 3 (receiver, packet 1000 11))).2).
  - by vm_compute.
  - repeat constructor; vm_compute; done.
  - by vm_compute.
  - repeat constructor; vm_compute; done.
  - left. by vm_compute.
Defined.

(** A packet of 8188 bytes, and what protecting it gives: 16 bytes more. *)
Definition big : list Z := [0x80; 96] ++ to_be 2 10 ++ to_be 4 7777 ++ to_be 4 1000 ++ replicate (Z.to_nat 8192) 7.
Definition big_sealed : list Z :=
  match Unified.protect_rtp toy_cipher (Z.to_nat 8188) 10 big with Ok (_, p) => p | _ => [] end.

Lemma unprotect_protect_witness :
  (∃ p'', Unified.unprotect_rtp toy_cipher 32 10 (sealed 1000 10) = Ok (16%nat, p'') ∧
    take 16 p'' = take 16 (packet 1000 10)) ∧
  Unified.protect_rtp toy_cipher (Z.to_nat 8188) 10 big = Ok (Z.to_nat 8204, big_sealed) ∧
  Unified.unprotect_rtp toy_cipher (Z.to_nat 8204) 10 big_sealed = Err (PacketTooLarge, big_sealed).
Proof.
  assert (Hwf : Unified.wf toy_cipher) by by vm_compute.
  assert (Hbig : Unified.protect_rtp toy_cipher (Z.to_nat 8188) 10 big = Ok (Z.to_nat 8204, big_sealed))
    by (vm_compute; reflexivity).
  assert (Hsmall : Unified.protect_rtp toy_cipher 16 10 (packet 1000 10) = Ok (32%nat, sealed 1000 10))
    by (vm_compute; reflexivity).
  assert (Hfits : (32 ≤ MAX_PACKET_SIZE)%nat) by (apply Nat.leb_le; by vm_compute).
  assert (Hover : (MAX_PACKET_SIZE < Z.to_nat 8204)%nat) by (apply Nat.ltb_lt; by vm_compute).
  split; [|split; [exact Hbig|]].
  - destruct (unprotect_protect toy_cipher 16 10 (packet 1000 10) 32 (sealed 1000 10) Hwf) as [Ht _].
    destruct (Ht Hsmall) as [Hback _]. exact (Hback Hfits).
  - destruct (unprotect_protect toy_cipher (Z.to_nat 8188) 10 big (Z.to_nat 8204) big_sealed Hwf) as [Ht _].
    destruct (Ht Hbig) as [_ Hlarge]. exact (Hlarge Hover).
Defined.

Definition toy_gcm : Gcm.AesGcmCipher :=
  Gcm.mkGcm (Gcm.Aes128 (replicate 16 1)) (replicate 12 3) (Gcm.Aes128 (replicate 16 2)) (replicate 12 4).

Lemma nonces_distinct_witness :
  Gcm.build_rtp_nonce toy_gcm 1000 10 ≠ Gcm.build_rtp_nonce toy_gcm 1000 11.
Proof.
  apply (nonces_distinct toy_gcm (replicate 14 5) 1000 10 1000 11);
    first [by vm_compute | (unfold in_range; lia) | done].
Defined.

Definition toy_block (k b : list Z) : list Z := take 16 (mask b ++ replicate 16 0).

Lemma toy_block_len k b : length (toy_block k b) = 16%nat.
Proof. unfold toy_block. rewrite length_take, length_app, length_replicate. lia. Qed.

Lemma contexts_from_dtls_witness :
  ∃ m c, Keys.from_dtls_export (replicate 30 9) Keys.Aes128CmHmacSha1_80 = Ok m ∧
    Keys.inbound_new toy_block m = Ok (Inbound.from_cipher c) ∧
    Keys.outbound_new toy_block m 1000 = Ok (Outbound.from_cipher c 1000) ∧
    Unified.wf c ∧ Unified.tag_len c = 10%nat ∧ Unified.is_aead c = false.
Proof.
  apply (Keys.contexts_from_dtls toy_block toy_block_len (replicate 30 9) Keys.Aes128CmHmacSha1_80 1000);
    done.
Defined.
