(* ===== verification/Slab.v ===== *)
(** * Slab storage

    [crates/nexus-dataplane/src/slab.rs]: a vector of slots with generations
    and a free list. A key names an entry; the slab refines a partial map
    from keys to entries ([find]), and each operation is specified on that
    map. Debug assertions are modelled as panics. *)

From S2P Require Import Prelude.

Module Slab.

Record Key := mkKey {
  index : nat;
  gen : Z;
}.

#[global] Instance Key_eq_dec : EqDecision Key.
Proof. solve_decision. Defined.

#[global] Instance Key_countable : Countable Key.
Proof.
  refine (inj_countable' (fun k => (index k, gen k)) (fun p => mkKey p.1 p.2) _). by intros [].
Defined.

Section slab.
Context {T : Type}.

Record Slot := mkSlot {
  slot_gen : Z;
  value : option T;
}.

Record Slab := mkSlab {
  slots : list Slot;
  free : list nat;  (* the top of the stack first *)
  len : nat;
}.

Definition new : Slab := mkSlab [] [] 0.

Definition slot_count (s : Slab) : nat := length (slots s).

Definition key_at (s : Slab) (i : nat) : option Key :=
  slot ← slots s !! i;
  _ ← value slot;
  Some (mkKey i (slot_gen slot)).

Definition insert {E} (v : T) : st Slab E Key := fun s =>
  match free s with
  | i :: free' =>
    match slots s !! i with
    | None => Panic
    | Some slot =>
      match value slot with
      | Some _ => Panic (* assert!(slot.value.is_none()) *)
      | None =>
        let g := wrapping_add 32 (slot_gen slot) 1 in
        Ok (mkKey i g, mkSlab (<[i := mkSlot g (Some v)]> (slots s)) free' (S (len s)))
      end
    end
  | [] =>
    let i := length (slots s) in
    if Z.of_nat i <? 2 ^ 32 then
      Ok (mkKey i 0, mkSlab (slots s ++ [mkSlot 0 (Some v)]) [] (S (len s)))
    else Panic (* expect("slab index fits u32") *)
  end.

Definition remove {E} (k : Key) : st Slab E T := fun s =>
  match slots s !! index k with
  | None => Panic
  | Some slot =>
    if slot_gen slot =? gen k then
      match value slot with
      | None => Panic
      | Some v =>
        match len s with
        | O => Panic (* underflow *)
        | S n => Ok (v, mkSlab (<[index k := mkSlot (slot_gen slot) None]> (slots s))
                          (index k :: free s) n)
        end
      end
    else Panic
  end.

Definition get {E} (k : Key) (s : Slab) : outcome E T :=
  match slots s !! index k with
  | None => Panic
  | Some slot => if slot_gen slot =? gen k then expect (value slot) else Panic
  end.

(** Code on the entry of a key, through [get_mut]. *)
Definition with_mut {E A} (k : Key) (m : st T E A) : st Slab E A := fun s =>
  match slots s !! index k with
  | None => Panic
  | Some slot =>
    if slot_gen slot =? gen k then
      match value slot with
      | None => Panic
      | Some v =>
        match m v with
        | Ok (a, v') => Ok (a, mkSlab (<[index k := mkSlot (slot_gen slot) (Some v')]> (slots s)) (free s) (len s))
        | Err (e, v') => Err (e, mkSlab (<[index k := mkSlot (slot_gen slot) (Some v')]> (slots s)) (free s) (len s))
        | Panic => Panic
        end
      end
    else Panic
  end.

(** ** The map a slab represents *)

Definition find (s : Slab) (k : Key) : option T :=
  slot ← slots s !! index k;
  if slot_gen slot =? gen k then value slot else None.

Definition occupied (slot : Slot) : bool := match value slot with Some _ => true | None => false end.

Record wf (s : Slab) : Prop := {
  wf_gen : ∀ i slot, slots s !! i = Some slot → is_u32 (slot_gen slot);
  wf_free : ∀ i, i ∈ free s ↔ ∃ slot, slots s !! i = Some slot ∧ value slot = None;
  wf_nodup : NoDup (free s);
  wf_len : len s = count occupied (slots s);
}.

Lemma wf_new : wf new.
Proof.
  split; cbn; [done| |constructor|done].
  intros i. split; [intros ?%not_elem_of_nil; done|]. intros (slot & ? & _). done.
Qed.

Lemma get_find {E} k s v : get (E:=E) k s = Ok v ↔ find s k = Some v.
Proof.
  unfold get, find. destruct (slots s !! index k) as [slot|]; cbn; [|done].
  destruct (_ =? _); [|done]. apply expect_ok.
Qed.

Lemma get_ok {E} k s v : find s k = Some v → get (E:=E) k s = Ok v.
Proof. apply get_find. Qed.

Lemma find_Some s k v :
  find s k = Some v ↔ ∃ slot, slots s !! index k = Some slot ∧ slot_gen slot = gen k ∧ value slot = Some v.
Proof.
  unfold find. destruct (slots s !! index k) as [slot|]; cbn; [|naive_solver].
  destruct (Z.eqb_spec (slot_gen slot) (gen k)); naive_solver.
Qed.

Lemma key_at_find s i k : key_at s i = Some k ↔ index k = i ∧ is_Some (find s k).
Proof.
  unfold key_at, find. destruct k as [j g]. cbn. split.
  - intros (slot & Hs & (v & Hv & [= <- <-])%bind_Some)%bind_Some. rewrite Hs. cbn.
    rewrite Z.eqb_refl. eauto.
  - intros [-> [v Hv]]. destruct (slots s !! i) as [slot|]; cbn in *; [|done].
    destruct (Z.eqb_spec (slot_gen slot) g); [|done]. subst. by rewrite Hv.
Qed.

(** Writing one slot changes the map at that slot's index only. *)
Lemma find_insert_slot s i slot fr n k : (i < length (slots s))%nat →
  find (mkSlab (<[i := slot]> (slots s)) fr n) k =
    if decide (index k = i) then (if slot_gen slot =? gen k then value slot else None) else find s k.
Proof.
  intros Hi. unfold find. cbn. case_decide as Hk; [subst i|].
  - by rewrite list_lookup_insert_eq.
  - by rewrite list_lookup_insert_ne.
Qed.

(** Entries with the same index are the same entry. *)
Lemma find_same_index s k k' v v' :
  find s k = Some v → find s k' = Some v' → index k = index k' → k = k'.
Proof.
  rewrite !find_Some. intros (slot & Hs & Hg & _) (slot' & Hs' & Hg' & _) Hi.
  destruct k, k'; cbn in *. subst. simplify_eq. by f_equal.
Qed.

(** An insertion adds one entry under a key that was not in use. *)
Lemma insert_spec {E} s v : wf s → Z.of_nat (length (slots s)) < 2 ^ 32 →
  ∃ k s', insert (E:=E) v s = Ok (k, s') ∧ wf s' ∧ find s k = None ∧
    (∀ k', find s' k' = if decide (k' = k) then Some v else find s k') ∧ len s' = S (len s) ∧
    (length (slots s') = if bool_decide (free s = []) then S (length (slots s)) else length (slots s)).
Proof.
  intros [Hgen Hfree Hnd Hlen] Hmax. unfold insert. destruct (free s) as [|i fr] eqn:Hf.
  - destruct (Z.ltb_spec (Z.of_nat (length (slots s))) (2 ^ 32)); [|lia].
    eexists _, _. split; [reflexivity|]. split; [split; cbn|]; [| | | |split; [|split; [|split]]].
    + intros i slot [Hi|[_ Hi]]%lookup_app_Some; [eauto|].
      apply list_lookup_singleton_Some in Hi as [_ <-]. by unfold in_range.
    + intros i. split; [intros ?%not_elem_of_nil; done|].
      intros (slot & [Hi|[_ Hi]]%lookup_app_Some & Hv).
      * assert (i ∈ (@nil nat)) by (apply Hfree; eauto). by apply not_elem_of_nil in H0.
      * by apply list_lookup_singleton_Some in Hi as [_ <-].
    + constructor.
    + rewrite count_app, count_cons, Hlen. change (count occupied []) with 0%nat. cbn. lia.
    + unfold find. cbn. by rewrite lookup_ge_None_2 by lia.
    + intros [i g]. unfold find. cbn. rewrite lookup_app. case_decide as Hk.
      * simplify_eq. by rewrite lookup_ge_None_2, Nat.sub_diag by lia.
      * destruct (slots s !! i) as [slot|] eqn:Hi; [done|]. cbn.
        destruct (decide (i = length (slots s))) as [->|Hne].
        { rewrite Nat.sub_diag. cbn. by destruct g. }
        apply lookup_ge_None_1 in Hi. rewrite lookup_ge_None_2; [done|]. cbn. lia.
    + done.
    + rewrite bool_decide_eq_true_2 by done. cbn [slots]. rewrite length_app. cbn. lia.
  - destruct (proj1 (Hfree i)) as (slot & Hs & Hv); [set_solver|]. rewrite Hs, Hv.
    assert (Hi : (i < length (slots s))%nat) by (by eapply lookup_lt_Some).
    apply NoDup_cons in Hnd as [Hni Hnd].
    eexists _, _. split; [reflexivity|]. split; [split; cbn|]; [| | | |split; [|split; [|split]]].
    + intros j slot' [[<- [<- _]]|[? Hj]]%list_lookup_insert_Some; [by apply wrap_range|eauto].
    + intros j. destruct (decide (i = j)) as [<-|Hne].
      * split; [done|]. intros (slot' & Hj & Hv'). rewrite list_lookup_insert_eq in Hj by done.
        by simplify_eq.
      * rewrite list_lookup_insert_ne by done. rewrite <- Hfree. set_solver.
    + done.
    + pose proof (count_insert occupied (slots s) i slot
        (mkSlot (wrapping_add 32 (slot_gen slot) 1) (Some v)) Hs) as Hc.
      replace (occupied slot) with false in Hc by (unfold occupied; by rewrite Hv). cbn in Hc. lia.
    + unfold find. cbn. rewrite Hs. cbn. by destruct (_ =? _).
    + intros [j g]. rewrite find_insert_slot by done. cbn. unfold find. cbn.
      destruct (decide (j = i)) as [->|Hne].
      * rewrite Hs. cbn. rewrite Hv. case_decide as Hk; [simplify_eq; by rewrite Z.eqb_refl|].
        destruct (Z.eqb_spec (wrapping_add 32 (slot_gen slot) 1) g); [congruence|]. by destruct (_ =? _).
      * rewrite decide_False by congruence. done.
    + done.
    + rewrite bool_decide_eq_false_2 by done. cbn [slots]. by rewrite length_insert.
Qed.

(** A removal of a live key gives its entry and leaves the others. *)
Lemma remove_spec {E} s k v : wf s → find s k = Some v →
  ∃ s', remove (E:=E) k s = Ok (v, s') ∧ wf s' ∧
    (∀ k', find s' k' = if decide (k' = k) then None else find s k') ∧ len s = S (len s') ∧
    length (slots s') = length (slots s).
Proof.
  intros [Hgen Hfree Hnd Hlen] Hk. pose proof Hk as (slot & Hs & Hg & Hv)%find_Some.
  assert (Hi : (index k < length (slots s))%nat) by (by eapply lookup_lt_Some).
  unfold remove. rewrite Hs, Hg, Z.eqb_refl, Hv.
  pose proof (count_insert occupied (slots s) (index k) slot (mkSlot (gen k) None) Hs) as Hc.
  replace (occupied slot) with true in Hc by (unfold occupied; by rewrite Hv). cbn in Hc.
  destruct (len s) as [|n] eqn:Hn; [lia|].
  eexists. split; [reflexivity|]. split; [split; cbn|]; [| | | |split; [|split]].
  - intros j slot' [[<- [<- _]]|[? Hj]]%list_lookup_insert_Some; [cbn; rewrite <- Hg; by eapply Hgen|by eapply Hgen].
  - intros j. rewrite elem_of_cons, Hfree. destruct (decide (index k = j)) as [<-|Hne].
    + rewrite list_lookup_insert_eq by done. naive_solver.
    + rewrite list_lookup_insert_ne by done. naive_solver.
  - constructor; [|done]. intros (slot' & Hs' & Hv')%Hfree. congruence.
  - lia.
  - intros k'. rewrite find_insert_slot by done. cbn. case_decide as Hix.
    + case_decide as Hkk; [by destruct (_ =? _)|]. unfold find. rewrite Hix, Hs. cbn.
      rewrite Hg. destruct (Z.eqb_spec (gen k) (gen k')); [|done]. destruct k, k'; cbn in *; congruence.
    + rewrite decide_False by congruence. done.
  - done.
  - apply length_insert.
Qed.

(** Code on an entry changes that entry only. *)
Lemma with_mut_spec {E A} (m : st T E A) s k v : wf s → find s k = Some v →
  match m v with
  | Ok (a, v') => ∃ s', with_mut k m s = Ok (a, s') ∧ wf s' ∧ len s' = len s ∧
      length (slots s') = length (slots s) ∧
      (∀ k', find s' k' = if decide (k' = k) then Some v' else find s k')
  | Err (e, v') => ∃ s', with_mut k m s = Err (e, s') ∧ wf s' ∧ len s' = len s ∧
      length (slots s') = length (slots s) ∧
      (∀ k', find s' k' = if decide (k' = k) then Some v' else find s k')
  | Panic => with_mut k m s = Panic
  end.
Proof.
  intros [Hgen Hfree Hnd Hlen] Hk. pose proof Hk as (slot & Hs & Hg & Hv)%find_Some.
  assert (Hi : (index k < length (slots s))%nat) by (by eapply lookup_lt_Some).
  assert (Hset : ∀ v', let s' := mkSlab (<[index k := mkSlot (gen k) (Some v')]> (slots s)) (free s) (len s) in
    wf s' ∧ len s' = len s ∧ length (slots s') = length (slots s) ∧
    (∀ k', find s' k' = if decide (k' = k) then Some v' else find s k')).
  { intros v'. split; [split; cbn|split; [done|split; [apply length_insert|]]].
    - intros j slot' [[<- [<- _]]|[? Hj]]%list_lookup_insert_Some; [cbn; rewrite <- Hg; by eapply Hgen|by eapply Hgen].
    - intros j. rewrite Hfree. destruct (decide (index k = j)) as [<-|Hne].
      + rewrite list_lookup_insert_eq by done. naive_solver.
      + by rewrite list_lookup_insert_ne.
    - done.
    - pose proof (count_insert occupied (slots s) (index k) slot (mkSlot (gen k) (Some v')) Hs) as Hc.
      replace (occupied slot) with true in Hc by (unfold occupied; by rewrite Hv). cbn in Hc. lia.
    - intros k'. rewrite find_insert_slot by done. cbn. case_decide as Hix.
      + unfold find. rewrite Hix, Hs. cbn. rewrite Hg.
        destruct (Z.eqb_spec (gen k) (gen k')).
        * rewrite decide_True; [done|]. destruct k, k'; cbn in *; congruence.
        * rewrite decide_False by congruence. done.
      + rewrite decide_False by congruence. done. }
  unfold with_mut. rewrite Hs, Hg, Z.eqb_refl, Hv.
  destruct (m v) as [[a v']|[e v']|]; [| |done]; eexists; (split; [reflexivity|]); apply Hset.
Qed.

End slab.

Arguments Slot T : clear implicits.
Arguments Slab T : clear implicits.

(** ** The slab as a map, over runs *)

Section runs.
Context {T : Type}.

Inductive op := Insert (v : T) | Remove (k : Key) | Update (k : Key) (v : T).

(** The reference: a finite map from keys to entries, and the keys an
    insertion may choose. *)
Inductive ref_step : gmap Key T → op → option Key → gmap Key T → Prop :=
| ref_insert m v k : m !! k = None → ref_step m (Insert v) (Some k) (<[k := v]> m)
| ref_remove m k v : m !! k = Some v → ref_step m (Remove k) None (delete k m)
| ref_update m k v v' : m !! k = Some v → ref_step m (Update k v') None (<[k := v']> m).

Definition slab_step (o : op) (s : Slab T) : outcome () (option Key * Slab T) :=
  match o with
  | Insert v => match insert (E:=()) v s with Ok (k, s') => Ok (Some k, s') | Err _ => Err () | Panic => Panic end
  | Remove k => match remove (E:=()) k s with Ok (_, s') => Ok (None, s') | Err _ => Err () | Panic => Panic end
  | Update k v => match with_mut (E:=()) k (put v) s with Ok (_, s') => Ok (None, s') | Err _ => Err () | Panic => Panic end
  end.

Definition represents (s : Slab T) (m : gmap Key T) : Prop :=
  wf s ∧ (∀ k, find s k = m !! k) ∧ len s = size m.

(** The key's slot was reused with the next generation: a key that was
    removed does not name the entry that took its slot. *)
Definition key_ok (m : gmap Key T) (o : op) : Prop :=
  match o with Insert _ => True | Remove k | Update k _ => is_Some (m !! k) end.

(** C22: The slab refines a finite map: from any representation, an
    operation on a live key (or an insertion while the index fits 32 bits)
    does not panic and takes a step of the map, in which an insertion gets a
    key that was not live; the length stays the number of live entries. *)
Theorem slab_refines s m o :
  represents s m → key_ok m o → Z.of_nat (slot_count s) < 2 ^ 32 →
  ∃ k s' m', slab_step o s = Ok (k, s') ∧ ref_step m o k m' ∧ represents s' m'.
Proof.
  intros (Hwf & Hfind & Hlen) Hkey Hmax. destruct o as [v|k|k v]; cbn [slab_step key_ok] in *.
  - destruct (insert_spec (E:=()) s v Hwf Hmax) as (k & s' & -> & Hwf' & Hnone & Hf & Hl & _).
    rewrite Hfind in Hnone. exists (Some k), s', (<[k := v]> m). split; [done|]. split; [by constructor|].
    split; [done|]. split.
    + intros k'. rewrite Hf. case_decide; [subst; by rewrite lookup_insert_eq|].
      by rewrite lookup_insert_ne.
    + rewrite Hl, Hlen. by rewrite map_size_insert_None.
  - destruct Hkey as [v Hv]. rewrite <- Hfind in Hv.
    destruct (remove_spec (E:=()) s k v Hwf Hv) as (s' & -> & Hwf' & Hf & Hl & _).
    rewrite Hfind in Hv. exists None, s', (delete k m). split; [done|]. split; [by econstructor|].
    split; [done|]. split.
    + intros k'. rewrite Hf. case_decide; [subst; by rewrite lookup_delete_eq|].
      by rewrite lookup_delete_ne.
    + rewrite map_size_delete_Some by eauto. lia.
  - destruct Hkey as [v0 Hv]. rewrite <- Hfind in Hv.
    pose proof (with_mut_spec (E:=()) (put v) s k v0 Hwf Hv) as Hm. cbn in Hm.
    destruct Hm as (s' & -> & Hwf' & Hl & _ & Hf). rewrite Hfind in Hv.
    exists None, s', (<[k := v]> m). split; [done|]. split; [by econstructor|]. split; [done|]. split.
    + intros k'. rewrite Hf. case_decide; [subst; by rewrite lookup_insert_eq|].
      by rewrite lookup_insert_ne.
    + rewrite map_size_insert_Some by eauto. congruence.
Qed.

(** A key kept after its entry was removed is caught: on a slab whose
    slots have 32-bit generations, neither the removed key nor, once the slot
    was reused, the old key reads or removes anything (debug builds panic). *)
Theorem stale_key_caught (s : Slab T) k v v' :
  wf s → find s k = Some v →
  ∃ s1 k2 s2, remove (E:=()) k s = Ok (v, s1) ∧ get (E:=()) k s1 = Panic ∧
    insert (E:=()) v' s1 = Ok (k2, s2) ∧ index k2 = index k ∧ k2 ≠ k ∧
    get (E:=()) k2 s2 = Ok v' ∧ get (E:=()) k s2 = Panic ∧ remove (E:=()) k s2 = Panic.
Proof.
  intros Hwf Hk. pose proof Hk as (slot & Hs & Hg & Hv)%find_Some.
  assert (Hi : (index k < length (slots s))%nat) by (by eapply lookup_lt_Some).
  destruct (remove_spec (E:=()) s k v Hwf Hk) as (s1 & Hr & Hwf1 & Hf1 & _).
  assert (Hs1 : slots s1 !! index k = Some (mkSlot (gen k) None) ∧ free s1 = index k :: free s).
  { unfold remove in Hr. rewrite Hs, Hg, Z.eqb_refl, Hv in Hr. destruct (len s); [done|].
    injection Hr as <-. cbn. by rewrite list_lookup_insert_eq. }
  destruct Hs1 as [Hs1 Hfr1]. pose proof (wf_gen _ Hwf _ _ Hs) as Hgr. rewrite Hg in Hgr.
  assert (Hne : wrapping_add 32 (gen k) 1 ≠ gen k).
  { unfold wrapping_add, wrap. unfold in_range in Hgr.
    destruct (decide (gen k = 2 ^ 32 - 1)) as [->|]; [by vm_compute|]. rewrite Z.mod_small; lia. }
  exists s1. unfold insert. rewrite Hfr1, Hs1. cbn. eexists _, _. split; [done|].
  split; [unfold get; rewrite Hs1; cbn; by rewrite Z.eqb_refl|]. split; [reflexivity|].
  assert (Hlk : ∀ x, <[index k := x]> (slots s1) !! index k = Some x).
  { intros x. apply list_lookup_insert_eq. by eapply lookup_lt_Some. }
  split; [done|]. split; [intros Heq; apply Hne; by apply (f_equal gen) in Heq|].
  unfold get, remove. cbn. rewrite !Hlk. cbn. rewrite Z.eqb_refl.
  destruct (Z.eqb_spec (wrapping_add 32 (gen k) 1) (gen k)); [done|]. done.
Qed.

End runs.

(** ** The map of a slab as a finite map *)

Section map_of.
Context {T : Type}.
Implicit Types (s : Slab T).

Definition entries s : list (Key * T) :=
  omap (fun p => (fun v => (mkKey p.1 (slot_gen p.2), v)) <$> value p.2) (imap pair (slots s)).

Definition to_map s : gmap Key T := list_to_map (entries s).

Lemma entries_elem s k v : (k, v) ∈ entries s ↔ find s k = Some v.
Proof.
  unfold entries. rewrite list_elem_of_omap, find_Some. split.
  - intros ([i slot] & (j & Hj)%list_elem_of_lookup & (w & Hw & [= -> ->])%fmap_Some).
    rewrite list_lookup_imap in Hj. apply fmap_Some in Hj as (? & ? & [= -> ->]). cbn in *. eauto.
  - intros (slot & Hs & Hg & Hv). exists (index k, slot). split.
    + apply (list_elem_of_lookup_2 _ (index k)). by rewrite list_lookup_imap, Hs.
    + cbn. rewrite Hv, Hg. by destruct k.
Qed.

Lemma entries_from (l : list (Slot T)) : ∀ f : nat → nat, (∀ i j, f i = f j → i = j) →
  NoDup (omap (fun p => (fun v => (mkKey p.1 (slot_gen p.2), v)) <$> value p.2)
           (imap (fun i x => (f i, x)) l)).*1 ∧
  length (omap (fun p => (fun v => (mkKey p.1 (slot_gen p.2), v)) <$> value p.2)
           (imap (fun i x => (f i, x)) l)) = count occupied l.
Proof.
  induction l as [|slot l IH]; intros f Hf; cbn [imap omap list_omap]; [by repeat constructor|].
  destruct (IH (fun i => f (S i))) as [Hnd Hlen]; [intros i j Hij%Hf; lia|].
  rewrite count_cons. cbn [fst snd]. unfold occupied at 1. destruct (value slot) as [v|]; cbn; [|split; [exact Hnd|exact Hlen]].
  split; [|f_equal; exact Hlen]. constructor; [|exact Hnd].
  intros ([k w] & Hk & Hin)%list_elem_of_fmap. cbn in Hk. subst k.
  apply list_elem_of_omap in Hin as ([i sl] & (j & Hj)%list_elem_of_lookup & (? & ? & [= Hi _])%fmap_Some).
  rewrite list_lookup_imap in Hj. apply fmap_Some in Hj as (? & _ & [= -> <-]). cbn in Hi.
  apply Hf in Hi. done.
Qed.

Lemma entries_nodup s : NoDup (entries s).*1.
Proof. by apply (entries_from (slots s) id). Qed.

Lemma lookup_to_map s k : to_map s !! k = find s k.
Proof.
  apply option_eq. intros v. unfold to_map.
  rewrite <- elem_of_list_to_map by apply entries_nodup. apply entries_elem.
Qed.

Lemma size_to_map s : wf s → size (to_map s) = len s.
Proof.
  intros Hwf. rewrite (wf_len s Hwf). unfold to_map.
  rewrite map_size_list_to_map by apply entries_nodup. by apply (entries_from (slots s) id).
Qed.

(** The slab after one entry was written. *)
Record updated s (k : Key) (v : T) s' : Prop := {
  updated_wf : wf s';
  updated_map : to_map s' = <[k := v]> (to_map s);
  updated_slots : slot_count s' = slot_count s;
}.

Lemma get_to_map {E} s k v : to_map s !! k = Some v → get (E:=E) k s = Ok v.
Proof. rewrite lookup_to_map. apply get_ok. Qed.

Lemma with_mut_to_map {E A} (m : st T E A) s k v : wf s → to_map s !! k = Some v →
  match m v with
  | Ok (a, v') => ∃ s', with_mut k m s = Ok (a, s') ∧ updated s k v' s'
  | Err (e, v') => ∃ s', with_mut k m s = Err (e, s') ∧ updated s k v' s'
  | Panic => True
  end.
Proof.
  intros Hwf Hk. rewrite lookup_to_map in Hk. pose proof (with_mut_spec m s k v Hwf Hk) as Hm.
  destruct (m v) as [[a v']|[e v']|]; [| |done]; destruct Hm as (s' & Hr & Hwf' & _ & Hs & Hf);
    exists s'; split; try done; split; try done; apply map_eq; intros j; rewrite lookup_to_map, Hf;
    (case_decide; [subst; by rewrite lookup_insert_eq|by rewrite lookup_insert_ne, lookup_to_map]).
Qed.

Lemma insert_to_map {E} s v : wf s → Z.of_nat (slot_count s) < 2 ^ 32 →
  ∃ k s', insert (E:=E) v s = Ok (k, s') ∧ wf s' ∧ to_map s !! k = None ∧
    to_map s' = <[k := v]> (to_map s) ∧
    (slot_count s' = slot_count s ∨ (slot_count s' = S (slot_count s) ∧ slot_count s = len s)).
Proof.
  intros Hwf Hmax. destruct (insert_spec (E:=E) s v Hwf Hmax) as (k & s' & Hr & Hwf' & Hn & Hf & _ & Hs).
  exists k, s'. rewrite lookup_to_map. split; [done|]. split; [done|]. split; [done|]. split.
  - apply map_eq. intros j. rewrite lookup_to_map, Hf.
    case_decide; [subst; by rewrite lookup_insert_eq|by rewrite lookup_insert_ne, lookup_to_map].
  - unfold slot_count. case_bool_decide as Hfree; [|by left]. right. split; [done|].
    rewrite (wf_len s Hwf). symmetry. apply count_all.
    intros slot Hin. apply list_elem_of_lookup in Hin as [i Hi].
    unfold occupied. destruct (value slot) eqn:Hv; [done|].
    exfalso. assert (i ∈ free s) as Hi'; [apply Hwf; eauto|]. rewrite Hfree in Hi'. by apply not_elem_of_nil in Hi'.
Qed.

Lemma remove_to_map {E} s k v : wf s → to_map s !! k = Some v →
  ∃ s', remove (E:=E) k s = Ok (v, s') ∧ wf s' ∧ to_map s' = delete k (to_map s) ∧ slot_count s' = slot_count s.
Proof.
  intros Hwf Hk. rewrite lookup_to_map in Hk.
  destruct (remove_spec (E:=E) s k v Hwf Hk) as (s' & Hr & Hwf' & Hf & _ & Hs). exists s'.
  split; [done|]. split; [done|]. split; [|done]. apply map_eq. intros j. rewrite lookup_to_map, Hf.
  case_decide; [subst; by rewrite lookup_delete_eq|by rewrite lookup_delete_ne, lookup_to_map].
Qed.

Lemma key_at_to_map s i k : key_at s i = Some k → is_Some (to_map s !! k).
Proof. rewrite key_at_find, lookup_to_map. tauto. Qed.

Lemma to_map_new : to_map new = ∅.
Proof. done. Qed.

End map_of.

#[global] Arguments to_map : simpl never.

Definition sample : Slab Z :=
  mkSlab [mkSlot 0 (Some 10); mkSlot 3 (Some 20); mkSlot 1 None] [2%nat] 2.

Lemma sample_wf : wf sample.
Proof.
  split.
  - intros [|[|[|i]]] slot [= <-]; by vm_compute.
  - intros i. split.
    + intros [->|Hn]%elem_of_cons; [by eexists|by apply not_elem_of_nil in Hn].
    + intros (slot & Hs & Hv). destruct i as [|[|[|i]]]; cbn in Hs; simplify_eq; cbn in *; try done. set_solver.
  - repeat constructor; set_solver.
  - done.
Qed.

Lemma stale_key_caught_witness :
  ∃ s1 k2 s2, remove (E:=()) (mkKey 1 3) sample = Ok (20, s1) ∧ get (E:=()) (mkKey 1 3) s1 = Panic ∧
    insert (E:=()) 30 s1 = Ok (k2, s2) ∧ index k2 = 1%nat ∧ k2 ≠ mkKey 1 3 ∧
    get (E:=()) k2 s2 = Ok 30 ∧ get (E:=()) (mkKey 1 3) s2 = Panic ∧ remove (E:=()) (mkKey 1 3) s2 = Panic.
Proof. apply (stale_key_caught sample (mkKey 1 3) 20 30); [exact sample_wf|reflexivity]. Defined.

Lemma slab_refines_witness :
  ∃ k s' m', slab_step (Remove (mkKey 0 0)) sample = Ok (k, s') ∧
    ref_step (<[mkKey 0 0 := 10]> {[mkKey 1 3 := 20]}) (Remove (mkKey 0 0)) k m' ∧ represents s' m'.
Proof.
  apply (slab_refines sample (<[mkKey 0 0 := 10]> {[mkKey 1 3 := 20]}) (Remove (mkKey 0 0))).
  - split; [exact sample_wf|]. split; [|by vm_compute].
    intros [i g]. destruct i as [|[|[|i]]]; cbn.
    + destruct g; by vm_compute.
    + destruct (decide (g = 3)) as [->|Hne]; [by vm_compute|].
      rewrite lookup_insert_ne by done. rewrite lookup_singleton_ne by congruence.
      transitivity (if 3 =? g then Some 20 else None); [done|]. destruct (Z.eqb_spec 3 g); congruence.
    + rewrite lookup_insert_ne, lookup_singleton_ne by done.
      transitivity (if 1 =? g then @None Z else None); [done|]. by destruct (_ =? _).
    + by rewrite lookup_insert_ne, lookup_singleton_ne by done.
  - by eexists.
  - by vm_compute.
Defined.

End Slab.
