(* ===== verification/Pool.v ===== *)
(** * The shard's buffer pool

    [crates/nexus-dataplane/src/pool.rs]: one flat allocation, a free stack
    of indices and, in debug builds, the flags of the buffers handed out. The
    pool represents a set of buffers in use ([holds]): a buffer is handed out
    at most once, and a write to one buffer leaves the others alone. *)

From S2P Require Import Prelude Cipher CipherProofs.

Module Pool.

Definition BUF_SIZE : nat := Z.to_nat 2048.
#[global] Opaque BUF_SIZE.

Record BufRef := mkBuf {
  shard : Z;
  index : nat;
}.

#[global] Instance BufRef_eq_dec : EqDecision BufRef.
Proof. solve_decision. Defined.

Record BufferPool := mkPool {
  pool_shard : Z;
  memory : list Z;
  free : list nat;     (* the top of the stack first *)
  taken : list bool;
}.

Definition capacity (p : BufferPool) : nat := (length (memory p) / BUF_SIZE)%nat.
Definition available (p : BufferPool) : nat := length (free p).

Definition new {E} (sh : Z) (count : nat) : outcome E BufferPool :=
  assert_ (bool_decide (0 < count)%nat);;
  let pool := mkPool sh (replicate (count * BUF_SIZE) 0) (seq 0 count) (replicate count false) in
  assert_ (bool_decide (available pool = count));;
  Ok pool.

Definition take {E} : st BufferPool E (option BufRef) := fun p =>
  match free p with
  | [] => Ok (None, p)
  | i :: fr =>
    match taken p !! i with
    | Some false => Ok (Some (mkBuf (pool_shard p) i),
                        mkPool (pool_shard p) (memory p) fr (<[i := true]> (taken p)))
    | _ => Panic
    end
  end.

Definition put {E} (b : BufRef) : st BufferPool E () := fun p =>
  if negb (shard b =? pool_shard p) then Panic (* debug_assert! *)
  else if bool_decide (capacity p ≤ index b)%nat then Panic (* debug_assert! *)
  else match taken p !! index b with
       | Some true =>
         if bool_decide (length (free p) < capacity p)%nat
         then Ok ((), mkPool (pool_shard p) (memory p) (index b :: free p) (<[index b := false]> (taken p)))
         else Panic (* assert! *)
       | _ => Panic
       end.

Definition buf {E} (b : BufRef) (p : BufferPool) : outcome E (list Z) :=
  let start := (index b * BUF_SIZE)%nat in
  slice start (start + BUF_SIZE) (memory p).

Definition set_memory (m : list Z) (p : BufferPool) : BufferPool :=
  mkPool (pool_shard p) m (free p) (taken p).

(** Code on [buf_mut]. *)
Definition buf_mut {E A} (b : BufRef) (m : st (list Z) E A) : st BufferPool E A :=
  let start := (index b * BUF_SIZE)%nat in
  zoom memory set_memory (on_range start (start + BUF_SIZE) m).

(** Code on [pair_mut(read, write)]: reads one buffer, writes another. *)
Definition pair_mut {E A} (read write : BufRef) (m : list Z → st (list Z) E A) : st BufferPool E A := fun p =>
  let r := index read in
  let w := index write in
  if bool_decide (r = w) then Panic (* assert! *)
  else if bool_decide (r < w)%nat then
    let at_ := (w * BUF_SIZE)%nat in
    if bool_decide (length (memory p) < at_)%nat then Panic (* split_at_mut *) else
    let low := firstn at_ (memory p) in
    let high := drop at_ (memory p) in
    match slice (E:=E) (r * BUF_SIZE) ((r + 1) * BUF_SIZE) low with
    | Ok src =>
      match on_range 0 BUF_SIZE (m src) high with
      | Ok (a, high') => Ok (a, set_memory (low ++ high') p)
      | Err (e, high') => Err (e, set_memory (low ++ high') p)
      | Panic => Panic
      end
    | _ => Panic
    end
  else
    let at_ := (r * BUF_SIZE)%nat in
    if bool_decide (length (memory p) < at_)%nat then Panic (* split_at_mut *) else
    let low := firstn at_ (memory p) in
    let high := drop at_ (memory p) in
    match slice (E:=E) 0 BUF_SIZE high with
    | Ok src =>
      match on_range (w * BUF_SIZE) ((w + 1) * BUF_SIZE) (m src) low with
      | Ok (a, low') => Ok (a, set_memory (low' ++ high) p)
      | Err (e, low') => Err (e, set_memory (low' ++ high) p)
      | Panic => Panic
      end
    | _ => Panic
    end.

(** ** The invariant: the buffers in use *)

Lemma BUF_SIZE_pos : (0 < BUF_SIZE)%nat.
Proof. with_strategy transparent [BUF_SIZE] unfold BUF_SIZE. lia. Qed.

Record holds (cap : nat) (used : list nat) (p : BufferPool) : Prop := {
  holds_memory : length (memory p) = (cap * BUF_SIZE)%nat;
  holds_taken : length (taken p) = cap;
  holds_free : ∀ i, i ∈ free p ↔ taken p !! i = Some false;
  holds_used : ∀ i, i ∈ used ↔ taken p !! i = Some true;
  holds_nodup : NoDup (free p) ∧ NoDup used;
}.

Lemma holds_capacity cap used p : holds cap used p → capacity p = cap.
Proof.
  intros [Hm _ _ _ _]. unfold capacity. rewrite Hm. pose proof BUF_SIZE_pos. apply Nat.div_mul. lia.
Qed.

(** No buffer is lost: those in use and those free are all of them. *)
Lemma holds_count cap used p : holds cap used p → (length used + available p)%nat = cap.
Proof.
  intros [_ Ht Hf Hu [Hnf Hnu]]. unfold available. rewrite <- length_app, <- Ht.
  rewrite <- (length_seq (length (taken p)) 0). apply Permutation_length, NoDup_Permutation.
  - apply NoDup_app. split; [done|]. split; [|done]. intros i ?%Hu ?%Hf. congruence.
  - apply NoDup_seq.
  - intros i. rewrite elem_of_app, Hu, Hf, elem_of_seq. split.
    + intros [Hi|Hi]; apply lookup_lt_Some in Hi; lia.
    + intros Hi. destruct (lookup_lt_is_Some_2 (taken p) i) as [[] Hb]; [lia|auto|auto].
Qed.

Lemma new_spec {E} sh count : (0 < count)%nat →
  ∃ p, new (E:=E) sh count = Ok p ∧ pool_shard p = sh ∧ holds count [] p.
Proof.
  intros Hc. unfold new. rewrite (bool_decide_eq_true_2 (0 < count)%nat) by done. cbn [assert_ mbind outcome_bind].
  unfold available. cbn [free]. rewrite length_seq, bool_decide_eq_true_2 by done.
  eexists. split; [reflexivity|]. split; [done|]. split; cbn [memory taken free].
  - apply length_replicate.
  - apply length_replicate.
  - intros i. rewrite elem_of_seq, lookup_replicate. split; [intros; split; [done|lia]|lia].
  - intros i. rewrite lookup_replicate. split; [by intros ?%not_elem_of_nil|by intros [? _]].
  - split; [apply NoDup_seq|constructor].
Qed.

Lemma take_spec {E} cap used p : holds cap used p →
  (free p = [] ∧ length used = cap ∧ take (E:=E) p = Ok (None, p)) ∨
  (∃ i p', take (E:=E) p = Ok (Some (mkBuf (pool_shard p) i), p') ∧ i ∉ used ∧ (i < cap)%nat ∧
     holds cap (i :: used) p' ∧ pool_shard p' = pool_shard p ∧ memory p' = memory p).
Proof.
  intros Hh. pose proof (holds_count _ _ _ Hh) as Hcount. unfold available in Hcount.
  destruct Hh as [Hm Ht Hf Hu [Hnf Hnu]]. unfold take. destruct (free p) as [|i fr] eqn:Hfr.
  - left. cbn in Hcount. repeat split; lia || done.
  - right. assert (Hi : taken p !! i = Some false) by (apply Hf; set_solver). rewrite Hi.
    apply NoDup_cons in Hnf as [Hni Hnf].
    assert (Hlt : (i < length (taken p))%nat) by (by eapply lookup_lt_Some).
    assert (Hnu' : i ∉ used) by (intros ?%Hu; congruence).
    exists i. eexists. split; [reflexivity|]. split; [done|]. split; [lia|].
    split; [|done]. split; cbn; try done.
    + by rewrite length_insert.
    + intros j. destruct (decide (i = j)) as [<-|Hne].
      * rewrite list_lookup_insert_eq by done. naive_solver.
      * rewrite list_lookup_insert_ne by done. rewrite <- Hf. set_solver.
    + intros j. destruct (decide (i = j)) as [<-|Hne].
      * rewrite list_lookup_insert_eq by done. set_solver.
      * rewrite list_lookup_insert_ne by done. rewrite <- Hu. set_solver.
    + split; [done|]. by constructor.
Qed.

Lemma put_spec {E} cap used p i : holds cap (i :: used) p →
  ∃ p', put (E:=E) (mkBuf (pool_shard p) i) p = Ok ((), p') ∧ holds cap used p' ∧
    pool_shard p' = pool_shard p ∧ memory p' = memory p.
Proof.
  intros Hh. pose proof (holds_count _ _ _ Hh) as Hcount. pose proof (holds_capacity _ _ _ Hh) as Hcap.
  unfold available in Hcount. destruct Hh as [Hm Ht Hf Hu [Hnf Hnu]]. unfold put. cbn [shard index].
  rewrite Z.eqb_refl. cbn [negb].
  assert (Hi : taken p !! i = Some true) by (apply Hu; set_solver).
  assert (Hlt : (i < length (taken p))%nat) by (by eapply lookup_lt_Some).
  rewrite bool_decide_eq_false_2 by lia. rewrite Hi. cbn in Hcount.
  rewrite bool_decide_eq_true_2 by lia. apply NoDup_cons in Hnu as [Hni Hnu].
  eexists. split; [reflexivity|]. split; [|done]. split; cbn; try done.
  - by rewrite length_insert.
  - intros j. destruct (decide (i = j)) as [<-|Hne].
    + rewrite list_lookup_insert_eq by done. set_solver.
    + rewrite list_lookup_insert_ne by done. rewrite <- Hf. set_solver.
  - intros j. destruct (decide (i = j)) as [<-|Hne].
    + rewrite list_lookup_insert_eq by done. naive_solver.
    + rewrite list_lookup_insert_ne by done. rewrite <- Hu. set_solver.
  - split; [|done]. constructor; [|done]. intros Hin%Hf. congruence.
Qed.

(** The bytes of buffer [i]. *)
Definition bytes_of (p : BufferPool) (i : nat) : list Z :=
  sub_list (i * BUF_SIZE) (i * BUF_SIZE + BUF_SIZE) (memory p).

Lemma region cap used p i : holds cap used p → (i < cap)%nat →
  (i * BUF_SIZE + BUF_SIZE ≤ length (memory p))%nat.
Proof. intros [-> _ _ _ _] Hi. nia. Qed.

Lemma length_bytes_of cap used p i : holds cap used p → (i < cap)%nat → length (bytes_of p i) = BUF_SIZE.
Proof. intros Hh Hi. unfold bytes_of. rewrite length_sub_list by (by eapply region). lia. Qed.

Lemma buf_spec {E} cap used p b : holds cap used p → (index b < cap)%nat →
  buf (E:=E) b p = Ok (bytes_of p (index b)).
Proof.
  intros Hh Hi. unfold buf, slice. rewrite decide_True; [done|].
  pose proof (region _ _ _ _ Hh Hi). lia.
Qed.

(** Writing one whole buffer. *)
Lemma write_region cap used p i d : holds cap used p → (i < cap)%nat → length d = BUF_SIZE →
  let p' := set_memory (splice (i * BUF_SIZE) d (memory p)) p in
  holds cap used p' ∧ bytes_of p' i = d ∧ (∀ j, (j < cap)%nat → j ≠ i → bytes_of p' j = bytes_of p j).
Proof.
  intros Hh Hi Hd p'. pose proof (region _ _ _ _ Hh Hi) as Hr. split; [|split].
  - destruct Hh. split; cbn; try done. by rewrite length_splice by lia.
  - unfold bytes_of, p'. cbn.
    pose proof (sub_list_splice_eq (i * BUF_SIZE) d (memory p)) as Hs. rewrite Hd in Hs. apply Hs. lia.
  - intros j Hj Hne. unfold bytes_of, p'. cbn. apply sub_list_splice_ne; [lia|].
    destruct (decide (j < i)%nat); [left|right]; nia.
Qed.

(** The code on a buffer sees its bytes; the other buffers are unchanged. *)
Definition writes {E A} (cap : nat) (used : list nat) (p : BufferPool) (i : nat)
    (r : outcome (E * list Z) (A * list Z)) (out : outcome (E * BufferPool) (A * BufferPool)) : Prop :=
  match r with
  | Ok (a, d) => ∃ p', out = Ok (a, p') ∧ holds cap used p' ∧ bytes_of p' i = d ∧
      pool_shard p' = pool_shard p ∧ free p' = free p ∧
      (∀ j, (j < cap)%nat → j ≠ i → bytes_of p' j = bytes_of p j)
  | Err (e, d) => ∃ p', out = Err (e, p') ∧ holds cap used p' ∧ bytes_of p' i = d ∧
      pool_shard p' = pool_shard p ∧ free p' = free p ∧
      (∀ j, (j < cap)%nat → j ≠ i → bytes_of p' j = bytes_of p j)
  | Panic => out = Panic
  end.

(** The code keeps the length of the buffer it is given. *)
Definition keeps_len {E A} (d : list Z) (r : outcome (E * list Z) (A * list Z)) : Prop :=
  match r with Ok (_, d') | Err (_, d') => length d' = length d | Panic => True end.

Lemma buf_mut_spec {E A} (m : st (list Z) E A) cap used p b : holds cap used p → (index b < cap)%nat →
  keeps_len (bytes_of p (index b)) (m (bytes_of p (index b))) →
  writes cap used p (index b) (m (bytes_of p (index b))) (buf_mut b m p).
Proof.
  intros Hh Hi Hk. pose proof (region _ _ _ _ Hh Hi) as Hr.
  unfold buf_mut, zoom. rewrite on_range_run by lia. fold (bytes_of p (index b)).
  unfold keeps_len in Hk. rewrite (length_bytes_of _ _ _ _ Hh Hi) in Hk.
  destruct (m (bytes_of p (index b))) as [[a d]|[e d]|]; cbn; [| |done];
    destruct (write_region cap used p (index b) d Hh Hi Hk) as (? & ? & ?); eauto 10.
Qed.

Lemma pair_mut_spec {E A} (m : list Z → st (list Z) E A) cap used p r w : holds cap used p →
  (index r < cap)%nat → (index w < cap)%nat → index r ≠ index w →
  keeps_len (bytes_of p (index w)) (m (bytes_of p (index r)) (bytes_of p (index w))) →
  writes cap used p (index w) (m (bytes_of p (index r)) (bytes_of p (index w))) (pair_mut r w m p).
Proof.
  intros Hh Hr Hw Hne Hk. pose proof (region _ _ _ _ Hh Hr) as Hrr. pose proof (region _ _ _ _ Hh Hw) as Hrw.
  unfold keeps_len in Hk. rewrite (length_bytes_of _ _ _ _ Hh Hw) in Hk.
  set (i := index r) in *. set (j := index w) in *. pose proof BUF_SIZE_pos as HB.
  assert (Hsp : ∀ d, length d = BUF_SIZE → (∀ l h, memory p = l ++ h →
     (length l = j * BUF_SIZE)%nat → l ++ splice 0 d h = splice (j * BUF_SIZE) d (memory p)) ∧
     (∀ l h, memory p = l ++ h → (j * BUF_SIZE + BUF_SIZE ≤ length l)%nat →
        splice (j * BUF_SIZE) d l ++ h = splice (j * BUF_SIZE) d (memory p))).
  { intros d Hd. split; intros l h Hlh Hl; rewrite Hlh; unfold splice; cbn [firstn].
    - rewrite take_app_length', <- Hl by done. change (firstn 0 h) with (@nil Z). cbn [app].
      rewrite Nat.add_0_l. do 2 f_equal. rewrite drop_app_ge by lia. f_equal. lia.
    - rewrite take_app_le, drop_app_le by lia. by rewrite <- !app_assoc. }
  unfold pair_mut. fold i j. rewrite bool_decide_eq_false_2 by done. case_bool_decide as Hlt.
  - rewrite bool_decide_eq_false_2 by nia. set (at_ := (j * BUF_SIZE)%nat) in *.
    pose proof (take_drop at_ (memory p)) as Htd.
    assert (Hll : length (firstn at_ (memory p)) = at_) by (rewrite length_take; lia).
    unfold slice. rewrite decide_True by (rewrite Hll; unfold at_; nia).
    replace (sub_list (i * BUF_SIZE) ((i + 1) * BUF_SIZE) (firstn at_ (memory p))) with (bytes_of p i).
    2: { unfold bytes_of. apply list_eq. intros k. rewrite !lookup_sub_list.
         replace ((i + 1) * BUF_SIZE)%nat with (i * BUF_SIZE + BUF_SIZE)%nat by lia.
         case_decide; [|done]. rewrite lookup_take_lt; [done|unfold at_; nia]. }
    rewrite on_range_run by (rewrite ?length_drop; lia).
    replace (sub_list 0 BUF_SIZE (drop at_ (memory p))) with (bytes_of p j).
    2: { unfold bytes_of, sub_list. rewrite drop_0. fold at_. f_equal. lia. }
    destruct (m (bytes_of p i) (bytes_of p j)) as [[a d]|[e d]|]; cbn; [| |done];
      destruct (write_region cap used p j d Hh Hw Hk) as (? & ? & ?);
      destruct (Hsp d Hk) as [Hs _]; rewrite (Hs _ _ (eq_sym Htd) Hll); eauto 10.
  - set (at_ := (i * BUF_SIZE)%nat) in *. rewrite bool_decide_eq_false_2 by lia.
    pose proof (take_drop at_ (memory p)) as Htd.
    assert (Hll : length (firstn at_ (memory p)) = at_) by (rewrite length_take; lia).
    assert (Hji : (j * BUF_SIZE + BUF_SIZE ≤ at_)%nat) by (unfold at_; nia).
    unfold slice. rewrite decide_True by (rewrite length_drop; lia).
    replace (sub_list 0 BUF_SIZE (drop at_ (memory p))) with (bytes_of p i).
    2: { unfold bytes_of, sub_list. rewrite drop_0. fold at_. f_equal. lia. }
    rewrite on_range_run by (rewrite ?Hll; lia).
    replace (sub_list (j * BUF_SIZE) ((j + 1) * BUF_SIZE) (firstn at_ (memory p))) with (bytes_of p j).
    2: { unfold bytes_of. apply list_eq. intros k. rewrite !lookup_sub_list.
         replace ((j + 1) * BUF_SIZE)%nat with (j * BUF_SIZE + BUF_SIZE)%nat by lia.
         case_decide; [|done]. rewrite lookup_take_lt; [done|lia]. }
    destruct (m (bytes_of p i) (bytes_of p j)) as [[a d]|[e d]|]; cbn; [| |done];
      destruct (write_region cap used p j d Hh Hw Hk) as (? & ? & ?);
      destruct (Hsp d Hk) as [_ Hs]; rewrite (Hs _ _ (eq_sym Htd) ltac:(lia)); eauto 10.
Qed.

(** ** Runs *)

(** Takes a buffer, or returns the [n]-th buffer in use. *)
Inductive op := Take | Put (n : nat).

Fixpoint run (ops : list op) (held : list BufRef) (p : BufferPool) : outcome () (list BufRef * BufferPool) :=
  match ops with
  | [] => Ok (held, p)
  | Take :: ops =>
    match take (E:=()) p with
    | Ok (Some b, p') => run ops (b :: held) p'
    | Ok (None, p') => run ops held p'
    | _ => Panic
    end
  | Put n :: ops =>
    match held !! n with
    | None => run ops held p
    | Some b =>
      match put (E:=()) b p with
      | Ok (_, p') => run ops (delete n held) p'
      | _ => Panic
      end
    end
  end.

Lemma holds_permutation cap used used' p : used ≡ₚ used' → holds cap used p → holds cap used' p.
Proof.
  intros Hp [? ? ? Hu [? ?]]. split; try done; [|by rewrite <- Hp].
  intros i. by rewrite <- Hp, Hu.
Qed.

#[global] Instance holds_proper cap : Proper ((≡ₚ) ==> eq ==> iff) (holds cap).
Proof. intros u u' Hu p _ <-. split; apply holds_permutation; by rewrite Hu. Qed.

Lemma pool_run_spec ops : ∀ cap held p, holds cap (index <$> held) p → Forall (fun b => shard b = pool_shard p) held →
  ∃ held' p', run ops held p = Ok (held', p') ∧ holds cap (index <$> held') p'.
Proof.
  induction ops as [|[|n] ops IH]; intros cap held p Hh Hs; cbn [run]; [eauto| |].
  - destruct (take_spec (E:=()) cap _ p Hh) as [(_ & _ & ->)|(i & p' & -> & _ & _ & Hh' & Hsh & _)]; [eauto|].
    apply (IH cap (mkBuf (pool_shard p) i :: held)); [done|].
    rewrite Hsh. by constructor.
  - destruct (held !! n) as [[sh i]|] eqn:Hn; [|eauto].
    pose proof (Forall_lookup_1 _ _ _ _ Hs Hn) as Hsh. cbn in Hsh. subst sh.
    pose proof (delete_Permutation held n _ Hn) as Hperm.
    destruct (put_spec (E:=()) cap (index <$> delete n held) p i) as (p' & -> & Hh' & Hsh & _).
    { eapply holds_permutation; [|exact Hh]. rewrite Hperm at 1. done. }
    apply IH; [done|]. rewrite Hsh. by apply Forall_delete.
Qed.

(** C23: The pool conserves its buffers: whatever buffers are taken and
    returned in whatever order, no call panics, no two buffers in use are
    the same, and buffers in use plus free buffers are the whole pool. *)
Theorem pool_conserves sh count ops :
  (0 < count)%nat →
  ∃ p0 held p, new (E:=()) sh count = Ok p0 ∧ run ops [] p0 = Ok (held, p) ∧
    NoDup (index <$> held) ∧ (length held + available p)%nat = count.
Proof.
  intros Hc. destruct (new_spec (E:=()) sh count Hc) as (p0 & Hn & _ & Hh).
  destruct (pool_run_spec ops count [] p0 Hh ltac:(constructor)) as (held & p & Hr & Hh').
  exists p0, held, p. split; [done|]. split; [done|]. split; [apply Hh'|].
  pose proof (holds_count _ _ _ Hh') as Hl. by rewrite length_fmap in Hl.
Qed.

(** The split of [pair_mut] is right for either order of the buffers:
    the code given the pair reads exactly the bytes of the one and writes
    exactly those of the other, and no other buffer changes. *)
Theorem pair_mut_disjoint {E A} (m : list Z → st (list Z) E A) cap used p r w a d :
  holds cap used p → (index r < cap)%nat → (index w < cap)%nat → index r ≠ index w →
  m (bytes_of p (index r)) (bytes_of p (index w)) = Ok (a, d) → length d = BUF_SIZE →
  ∃ p', pair_mut r w m p = Ok (a, p') ∧ bytes_of p' (index w) = d ∧
    (∀ j, (j < cap)%nat → j ≠ index w → bytes_of p' j = bytes_of p j).
Proof.
  intros Hh Hr Hw Hne Hm Hd.
  pose proof (pair_mut_spec m cap used p r w Hh Hr Hw Hne) as Hs. rewrite Hm in Hs. cbn in Hs.
  destruct Hs as (p' & ? & _ & ? & _ & _ & ?); [|eauto].
  by rewrite (length_bytes_of _ _ _ _ Hh Hw).
Qed.

Lemma pool_conserves_witness :
  (0 < 3)%nat ∧ ∃ p0 held p, new (E:=()) 0 3 = Ok p0 ∧
    run [Take; Take; Take; Take; Put 1; Take; Put 0; Put 7] [] p0 = Ok (held, p) ∧
    NoDup (index <$> held) ∧ (length held + available p)%nat = 3%nat.
Proof.
  split; [lia|]. apply (pool_conserves 0 3 [Take; Take; Take; Take; Put 1; Take; Put 0; Put 7]). lia.
Defined.

Definition sample : BufferPool :=
  match new (E:=()) 0 3 with Ok p => p | _ => mkPool 0 [] [] [] end.

Lemma sample_holds : holds 3 [] sample.
Proof.
  unfold sample. destruct (new_spec (E:=()) 0 3 ltac:(lia)) as (p & -> & _ & Hh). done.
Qed.

Lemma pair_mut_disjoint_witness :
  ∃ p', pair_mut (E:=()) (mkBuf 0 0) (mkBuf 0 2) (fun src => Prelude.put src;; mret 7) sample = Ok (7, p') ∧
    bytes_of p' 2 = bytes_of sample 0 ∧
    (∀ j, (j < 3)%nat → j ≠ 2%nat → bytes_of p' j = bytes_of sample j).
Proof.
  apply (pair_mut_disjoint (fun src => Prelude.put src;; mret 7) 3 [] sample (mkBuf 0 0) (mkBuf 0 2) 7
           (bytes_of sample 0)).
  - exact sample_holds.
  - cbn. lia.
  - cbn. lia.
  - cbn. lia.
  - reflexivity.
  - apply (length_bytes_of 3 []); [exact sample_holds|lia].
Defined.

End Pool.
