(* ===== verification/Model.v ===== *)
(** * The data model of the data plane

    Identifiers ([ids.rs]), the control interface ([command.rs]), sessions
    ([session.rs]), tracks ([track.rs]), subscriptions ([subscription.rs]),
    the random numbers ([rng.rs]), the shard settings ([config.rs]) and the
    shard counters ([shard/stats.rs]) of [crates/nexus-dataplane/src].

    An [Instant] is a number of nanoseconds since some origin. A [FixedVec]
    is the list of its items, a hash map a [gmap]: the code never depends on
    the order of a map. *)

From S2P Require Import Prelude Replay Direction Inbound Outbound Cipher Keys Slab.

(** ** Addresses and identifiers *)

Inductive SocketAddr :=
| V4 (ip port : Z)
| V6 (ip port flowinfo scope_id : Z).

#[export] Instance SocketAddr_eq_dec : EqDecision SocketAddr.
Proof. solve_decision. Defined.

#[export] Instance SocketAddr_countable : Countable SocketAddr.
Proof.
  refine (inj_countable'
    (fun a => match a with V4 i p => inl (i, p) | V6 i p f s => inr (i, p, f, s) end)
    (fun x => match x with inl (i, p) => V4 i p | inr (i, p, f, s) => V6 i p f s end) _).
  by intros [].
Defined.

(** [normalize_source]: an IPv4 peer of a dual-stack socket becomes [V4]. *)
Definition to_ipv4_mapped (ip : Z) : option Z :=
  if Z.shiftr ip 32 =? 0xFFFF then Some (wrap 32 ip) else None.

Definition normalize_source (a : SocketAddr) : SocketAddr :=
  match a with
  | V6 ip port _ _ => match to_ipv4_mapped ip with Some v4 => V4 v4 port | None => a end
  | V4 _ _ => a
  end.

Definition socket_destination (a : SocketAddr) (socket_is_v6 : bool) : SocketAddr :=
  match a with
  | V4 ip port => if socket_is_v6 then V6 (Z.lor (Z.shiftl 0xFFFF 32) ip) port 0 0 else a
  | V6 _ _ _ _ => a
  end.

Abbreviation SessionId := Z.
Abbreviation TrackId := Z.
Abbreviation SubscriptionId := Z.
Abbreviation ShardId := Z.
Abbreviation Instant := Z.

(** A wrapped control-plane counter; 0 is never a valid id. *)
Definition id_new {E} (value : Z) : outcome E Z := assert_ (negb (value =? 0));; Ok value.

Definition MAX_SHARDS : Z := 64.
Definition shard_id_new {E} (index : Z) : outcome E ShardId := assert_ (index <? MAX_SHARDS);; Ok index.

Record TrackRef := mkTrackRef { ref_shard : ShardId; ref_track : TrackId }.

(** [MidValue] and [CnameValue]: their bytes. *)
Definition MID_CAPACITY : nat := 16.
Definition CNAME_CAPACITY : nat := 255.

Definition short_bytes_new (cap : nat) (value : list Z) : option (list Z) :=
  if bool_decide (value = [] ∨ cap < length value)%nat then None else Some value.

(** ** Durations, in nanoseconds *)
Definition millis (n : Z) : Z := n * 1000000.
Definition secs (n : Z) : Z := n * 1000000000.
Definition as_millis (d : Z) : Z := d / 1000000.
Definition as_secs (d : Z) : Z := d / 1000000000.

(** ** Lists of fixed capacity *)

(** [push]: false when full. *)
Definition fixed_push {A} (cap : nat) (x : A) (l : list A) : bool * list A :=
  if bool_decide (length l = cap) then (false, l) else (true, l ++ [x]).

(** Removes the first item matching, putting the last one in its place. *)
Definition swap_remove {A} (i : nat) (l : list A) : list A :=
  match last l with
  | Some x => take (length l - 1) (<[i := x]> l)
  | None => l
  end.

Definition swap_remove_where {A} (p : A → bool) (l : list A) : option A * list A :=
  match position p l with
  | None => (None, l)
  | Some i => (l !! i, swap_remove i l)
  end.

(** ** The control interface *)

Inductive MediaKind := Audio | Video.

Record IceParams := mkIce { local_ufrag : list Z; local_pwd : list Z }.
Record CodecParams := mkCodec { pt : Z; codec_clock_rate : Z }.
Record ExtIds := mkExtIds { ext_mid : Z; audio_level : Z; video_orientation : Z }.

Record TrackSpec := mkTrackSpec {
  kind : MediaKind;
  track_mid : list Z;
  spec_ssrc : option Z;
  codec : CodecParams;
  ext : ExtIds;
  cname : list Z;
}.

(** Publisher payload type to subscriber payload type, at most two pairs. *)
Module PtMap.

Definition CAPACITY : nat := 2.

Definition lookup (m : list (Z * Z)) (pt : Z) : option Z :=
  snd <$> (position (fun p => p.1 =? pt) m ≫= fun i => m !! i).

Fixpoint add_all (pairs m : list (Z * Z)) : option (list (Z * Z)) :=
  match pairs with
  | [] => Some m
  | (from, to) :: pairs =>
    if (from >? 127) || (to >? 127) || match lookup m from with Some _ => true | None => false end
    then None
    else add_all pairs (m ++ [(from, to)])
  end.

Definition new (pairs : list (Z * Z)) : option (list (Z * Z)) :=
  if bool_decide (CAPACITY < length pairs)%nat then None else add_all pairs [].

End PtMap.

(** Publisher extension id (index) to subscriber id, 0 to drop. *)
Record ExtMap := mkExtMap { ext_ids : list Z; map_mid : Z }.

Record SubSpec := mkSubSpec {
  spec_out_ssrc : Z;
  sub_spec_mid : list Z;
  spec_pt_map : list (Z * Z);
  spec_ext_map : ExtMap;
  source : TrackRef;
}.

Record SrtpInstall := mkInstall { local_key : Keys.KeyMaterial; remote_key : Keys.KeyMaterial }.

Inductive Command :=
| CreateSession (id : SessionId) (ice : IceParams) (out_ssrc_base : Z)
| SendDatagram (id : SessionId) (bytes : list Z)
| InstallSrtp (id : SessionId) (keys : SrtpInstall)
| AddTrack (id : SessionId) (track : TrackId) (spec : TrackSpec)
| RemoveTrack (track : TrackId)
| Subscribe (id : SessionId) (sub : SubscriptionId) (track : TrackId) (spec : SubSpec)
| Unsubscribe (sub : SubscriptionId)
| CloseSession (id : SessionId).

Inductive SelectReason := Nominated | Rebound.

Inductive RejectReason :=
| UnknownSession | UnknownTrack | UnknownSubscription | DuplicateId | SessionLimit | TrackLimit
| SubscriptionLimit | SrtpAlreadyInstalled | SrtpSetup | OutSsrcNotMonotonic | SsrcInUse
| WrongShard | InvalidSpec.

Inductive Event :=
| DtlsDatagram (id : SessionId) (bytes : list Z)
| AddressSelected (id : SessionId) (addr : SocketAddr) (reason : SelectReason)
| PeerSrtpVerified (id : SessionId)
| ConsentLost (id : SessionId)
| CommandRejected (id : option SessionId) (reason : RejectReason).

#[export] Instance SelectReason_eq_dec : EqDecision SelectReason.
Proof. solve_decision. Defined.
#[export] Instance RejectReason_eq_dec : EqDecision RejectReason.
Proof. solve_decision. Defined.
#[export] Instance Event_eq_dec : EqDecision Event.
Proof. solve_decision. Defined.

(** Where a shard puts its events; a refused event is handed back. *)
Inductive refusal := Delivered | Full | Closed.

Class EventSink (S : Type) := {
  try_send : Event → S → refusal * S;
}.

(** The sink of the tests: a vector that takes everything. *)
#[export] Instance vec_sink : EventSink (list Event) := {|
  try_send e l := (Delivered, l ++ [e]);
|}.


(** ** Random numbers: SplitMix64 *)
Module Rng.

Definition next_u64 (s : Z) : Z * Z :=
  let s := wrapping_add 64 s 0x9E3779B97F4A7C15 in
  let z := s in
  let z := wrapping_mul 64 (Z.lxor z (Z.shiftr z 30)) 0xBF58476D1CE4E5B9 in
  let z := wrapping_mul 64 (Z.lxor z (Z.shiftr z 27)) 0x94D049BB133111EB in
  (Z.lxor z (Z.shiftr z 31), s).

End Rng.

(** ** Sender reports *)
Record SrInfo := mkSrInfo { ntp : Z; sr_rtp : Z }.

(** ** Sessions *)
Module Session.

Definition MAX_TRACKS_PER_SESSION : nat := 10.
Definition MAX_SUBS_PER_SESSION : nat := 31.
Definition MAX_OUT_SSRC_OFFSET : Z := 2 ^ 31 - 1.
Definition DTLS_BUDGET_PER_SWEEP : Z := 32.
Definition RECENT_TRANSACTIONS : nat := 16.

Section session.
Context {C : Type} `{SrtpCipher C}.

Record Session := mkSession {
  id : SessionId;
  addr : option SocketAddr;
  prev_addr : option SocketAddr;
  last_rx_selected : Instant;
  ice : IceParams;
  srtp_in : option (Inbound.SrtpInbound C);
  srtp_out : option (Outbound.SrtpOutbound C);
  srtp_verified : bool;
  consent_lost : bool;
  dtls_budget : Z;
  last_switch : option Instant;
  pending_nomination : option SocketAddr;
  switch_listed : bool;
  unreported_switch : option SelectReason;
  recent_transactions : list (list Z);
  recent_len : nat;
  next_transaction : nat;
  out_ssrc_base : Z;
  last_out_ssrc_offset : Z;
  published : list (Z * Slab.Key);
  unbound : list Slab.Key;
  subs : list Slab.Key;
}.

Definition set_addr (v : option SocketAddr) (r : Session) : Session :=
  mkSession (id r) v (prev_addr r) (last_rx_selected r) (ice r) (srtp_in r) (srtp_out r)
    (srtp_verified r) (consent_lost r) (dtls_budget r) (last_switch r) (pending_nomination r)
    (switch_listed r) (unreported_switch r) (recent_transactions r) (recent_len r)
    (next_transaction r) (out_ssrc_base r) (last_out_ssrc_offset r) (published r) (unbound r)
    (subs r).
Definition set_prev_addr (v : option SocketAddr) (r : Session) : Session :=
  mkSession (id r) (addr r) v (last_rx_selected r) (ice r) (srtp_in r) (srtp_out r)
    (srtp_verified r) (consent_lost r) (dtls_budget r) (last_switch r) (pending_nomination r)
    (switch_listed r) (unreported_switch r) (recent_transactions r) (recent_len r)
    (next_transaction r) (out_ssrc_base r) (last_out_ssrc_offset r) (published r) (unbound r)
    (subs r).
Definition set_last_rx_selected (v : Instant) (r : Session) : Session :=
  mkSession (id r) (addr r) (prev_addr r) v (ice r) (srtp_in r) (srtp_out r) (srtp_verified r)
    (consent_lost r) (dtls_budget r) (last_switch r) (pending_nomination r) (switch_listed r)
    (unreported_switch r) (recent_transactions r) (recent_len r) (next_transaction r)
    (out_ssrc_base r) (last_out_ssrc_offset r) (published r) (unbound r) (subs r).
Definition set_srtp_in (v : option (Inbound.SrtpInbound C)) (r : Session) : Session :=
  mkSession (id r) (addr r) (prev_addr r) (last_rx_selected r) (ice r) v (srtp_out r)
    (srtp_verified r) (consent_lost r) (dtls_budget r) (last_switch r) (pending_nomination r)
    (switch_listed r) (unreported_switch r) (recent_transactions r) (recent_len r)
    (next_transaction r) (out_ssrc_base r) (last_out_ssrc_offset r) (published r) (unbound r)
    (subs r).
Definition set_srtp_out (v : option (Outbound.SrtpOutbound C)) (r : Session) : Session :=
  mkSession (id r) (addr r) (prev_addr r) (last_rx_selected r) (ice r) (srtp_in r) v
    (srtp_verified r) (consent_lost r) (dtls_budget r) (last_switch r) (pending_nomination r)
    (switch_listed r) (unreported_switch r) (recent_transactions r) (recent_len r)
    (next_transaction r) (out_ssrc_base r) (last_out_ssrc_offset r) (published r) (unbound r)
    (subs r).
Definition set_srtp_verified (v : bool) (r : Session) : Session :=
  mkSession (id r) (addr r) (prev_addr r) (last_rx_selected r) (ice r) (srtp_in r) (srtp_out r) v
    (consent_lost r) (dtls_budget r) (last_switch r) (pending_nomination r) (switch_listed r)
    (unreported_switch r) (recent_transactions r) (recent_len r) (next_transaction r)
    (out_ssrc_base r) (last_out_ssrc_offset r) (published r) (unbound r) (subs r).
Definition set_consent_lost (v : bool) (r : Session) : Session :=
  mkSession (id r) (addr r) (prev_addr r) (last_rx_selected r) (ice r) (srtp_in r) (srtp_out r)
    (srtp_verified r) v (dtls_budget r) (last_switch r) (pending_nomination r) (switch_listed r)
    (unreported_switch r) (recent_transactions r) (recent_len r) (next_transaction r)
    (out_ssrc_base r) (last_out_ssrc_offset r) (published r) (unbound r) (subs r).
Definition set_dtls_budget (v : Z) (r : Session) : Session :=
  mkSession (id r) (addr r) (prev_addr r) (last_rx_selected r) (ice r) (srtp_in r) (srtp_out r)
    (srtp_verified r) (consent_lost r) v (last_switch r) (pending_nomination r) (switch_listed r)
    (unreported_switch r) (recent_transactions r) (recent_len r) (next_transaction r)
    (out_ssrc_base r) (last_out_ssrc_offset r) (published r) (unbound r) (subs r).
Definition set_last_switch (v : option Instant) (r : Session) : Session :=
  mkSession (id r) (addr r) (prev_addr r) (last_rx_selected r) (ice r) (srtp_in r) (srtp_out r)
    (srtp_verified r) (consent_lost r) (dtls_budget r) v (pending_nomination r) (switch_listed r)
    (unreported_switch r) (recent_transactions r) (recent_len r) (next_transaction r)
    (out_ssrc_base r) (last_out_ssrc_offset r) (published r) (unbound r) (subs r).
Definition set_pending_nomination (v : option SocketAddr) (r : Session) : Session :=
  mkSession (id r) (addr r) (prev_addr r) (last_rx_selected r) (ice r) (srtp_in r) (srtp_out r)
    (srtp_verified r) (consent_lost r) (dtls_budget r) (last_switch r) v (switch_listed r)
    (unreported_switch r) (recent_transactions r) (recent_len r) (next_transaction r)
    (out_ssrc_base r) (last_out_ssrc_offset r) (published r) (unbound r) (subs r).
Definition set_switch_listed (v : bool) (r : Session) : Session :=
  mkSession (id r) (addr r) (prev_addr r) (last_rx_selected r) (ice r) (srtp_in r) (srtp_out r)
    (srtp_verified r) (consent_lost r) (dtls_budget r) (last_switch r) (pending_nomination r) v
    (unreported_switch r) (recent_transactions r) (recent_len r) (next_transaction r)
    (out_ssrc_base r) (last_out_ssrc_offset r) (published r) (unbound r) (subs r).
Definition set_unreported_switch (v : option SelectReason) (r : Session) : Session :=
  mkSession (id r) (addr r) (prev_addr r) (last_rx_selected r) (ice r) (srtp_in r) (srtp_out r)
    (srtp_verified r) (consent_lost r) (dtls_budget r) (last_switch r) (pending_nomination r)
    (switch_listed r) v (recent_transactions r) (recent_len r) (next_transaction r)
    (out_ssrc_base r) (last_out_ssrc_offset r) (published r) (unbound r) (subs r).
Definition set_last_out_ssrc_offset (v : Z) (r : Session) : Session :=
  mkSession (id r) (addr r) (prev_addr r) (last_rx_selected r) (ice r) (srtp_in r) (srtp_out r)
    (srtp_verified r) (consent_lost r) (dtls_budget r) (last_switch r) (pending_nomination r)
    (switch_listed r) (unreported_switch r) (recent_transactions r) (recent_len r)
    (next_transaction r) (out_ssrc_base r) v (published r) (unbound r) (subs r).
Definition set_published (v : list (Z * Slab.Key)) (r : Session) : Session :=
  mkSession (id r) (addr r) (prev_addr r) (last_rx_selected r) (ice r) (srtp_in r) (srtp_out r)
    (srtp_verified r) (consent_lost r) (dtls_budget r) (last_switch r) (pending_nomination r)
    (switch_listed r) (unreported_switch r) (recent_transactions r) (recent_len r)
    (next_transaction r) (out_ssrc_base r) (last_out_ssrc_offset r) v (unbound r) (subs r).
Definition set_unbound (v : list Slab.Key) (r : Session) : Session :=
  mkSession (id r) (addr r) (prev_addr r) (last_rx_selected r) (ice r) (srtp_in r) (srtp_out r)
    (srtp_verified r) (consent_lost r) (dtls_budget r) (last_switch r) (pending_nomination r)
    (switch_listed r) (unreported_switch r) (recent_transactions r) (recent_len r)
    (next_transaction r) (out_ssrc_base r) (last_out_ssrc_offset r) (published r) v (subs r).
Definition set_subs (v : list Slab.Key) (r : Session) : Session :=
  mkSession (id r) (addr r) (prev_addr r) (last_rx_selected r) (ice r) (srtp_in r) (srtp_out r)
    (srtp_verified r) (consent_lost r) (dtls_budget r) (last_switch r) (pending_nomination r)
    (switch_listed r) (unreported_switch r) (recent_transactions r) (recent_len r)
    (next_transaction r) (out_ssrc_base r) (last_out_ssrc_offset r) (published r) (unbound r) v.

Definition set_recent (t : list (list Z)) (n next : nat) (r : Session) : Session :=
  mkSession (id r) (addr r) (prev_addr r) (last_rx_selected r) (ice r) (srtp_in r) (srtp_out r)
    (srtp_verified r) (consent_lost r) (dtls_budget r) (last_switch r) (pending_nomination r)
    (switch_listed r) (unreported_switch r) t n next (out_ssrc_base r) (last_out_ssrc_offset r)
    (published r) (unbound r) (subs r).

Definition new (id : SessionId) (ice : IceParams) (out_ssrc_base : Z) (now : Instant) : Session :=
  mkSession id None None now ice None None false false DTLS_BUDGET_PER_SWEEP None None false None
    (replicate RECENT_TRANSACTIONS (replicate 12 0)) 0 0 out_ssrc_base 0 [] [] [].

Definition rtcp_ssrc (s : Session) : Z := out_ssrc_base s.
Definition track_count (s : Session) : nat := (length (published s) + length (unbound s))%nat.

Definition track_of_ssrc (s : Session) (x : Z) : option Slab.Key :=
  snd <$> (position (fun p => p.1 =? x) (published s) ≫= fun i => published s !! i).

(** Records a transaction id; true if it was seen recently. *)
Definition note_transaction {E} (t : list Z) : st Session E bool :=
  s ← get;
  seen ← lift (slice 0 (recent_len s) (recent_transactions s));
  if bool_decide (t ∈ seen) then mret true
  else
    rt ← lift (set_at (next_transaction s) t (recent_transactions s));
    modify (set_recent rt (Nat.min (recent_len s + 1) RECENT_TRANSACTIONS)
              ((next_transaction s + 1) mod RECENT_TRANSACTIONS)%nat);;
    mret false.

Definition out_ssrc_offset (s : Session) (x : Z) : Z := wrapping_sub 32 x (out_ssrc_base s).

End session.
Arguments Session C : clear implicits.
End Session.

(** ** Tracks *)
Module Track.

Record Layer := mkLayer { ssrc : option Z; last_sr : option SrInfo }.

Record PublishedTrack := mkTrack {
  id : TrackId;
  session : Slab.Key;
  spec : TrackSpec;
  layer0 : Layer;
  subscribers : list Slab.Key;
  last_pli : option Instant;
}.

Definition set_layer0 (v : Layer) (r : PublishedTrack) : PublishedTrack :=
  mkTrack (id r) (session r) (spec r) v (subscribers r) (last_pli r).
Definition set_subscribers (v : list Slab.Key) (r : PublishedTrack) : PublishedTrack :=
  mkTrack (id r) (session r) (spec r) (layer0 r) v (last_pli r).
Definition set_last_pli (v : option Instant) (r : PublishedTrack) : PublishedTrack :=
  mkTrack (id r) (session r) (spec r) (layer0 r) (subscribers r) v.

Definition new (id : TrackId) (session : Slab.Key) (spec : TrackSpec) : PublishedTrack :=
  mkTrack id session spec (mkLayer (spec_ssrc spec) None) [] None.

End Track.

(** ** Subscriptions *)
Module Sub.

Record RewriteState := mkRewrite {
  out_ssrc : Z;
  seq_offset : Z;
  ts_offset : Z;
  started : bool;
  last_out_seq : Z;
  last_out_ts : Z;
  last_out_at : option Instant;
  last_in_seq : Z;
  layer : Z;
}.


Definition rewrite_new (out_ssrc : Z) : RewriteState := mkRewrite out_ssrc 0 0 false 0 0 None 0 0.

Record Subscription := mkSub {
  id : SubscriptionId;
  session : Slab.Key;
  track : Slab.Key;
  rewrite : RewriteState;
  ext_map : ExtMap;
  pub_mid : Z;
  clock_rate : Z;
  pt_map : list (Z * Z);
  mid : list Z;
  sent_packets : Z;
  sent_octets : Z;
}.

Definition set_rewrite (v : RewriteState) (r : Subscription) : Subscription :=
  mkSub (id r) (session r) (track r) v (ext_map r) (pub_mid r) (clock_rate r) (pt_map r) (mid r)
    (sent_packets r) (sent_octets r).
Definition set_sent_packets (v : Z) (r : Subscription) : Subscription :=
  mkSub (id r) (session r) (track r) (rewrite r) (ext_map r) (pub_mid r) (clock_rate r) (pt_map r)
    (mid r) v (sent_octets r).
Definition set_sent_octets (v : Z) (r : Subscription) : Subscription :=
  mkSub (id r) (session r) (track r) (rewrite r) (ext_map r) (pub_mid r) (clock_rate r) (pt_map r)
    (mid r) (sent_packets r) v.

End Sub.

(** ** Settings *)
Module Config.

Definition RECV_BATCH : nat := 64.
Definition SEND_BATCH : nat := 256.
Definition MAX_POOL_BUFFERS : Z := 2 ^ 20.

Record ShardConfig := mkConfig {
  shard : ShardId;
  pool_buffers : Z;
  max_sessions : Z;
  consent_timeout : Z;
  rebind_silence : Z;
  rng_seed : Z;
  dtls_budget_per_sweep : Z;
}.


Definition default : ShardConfig :=
  mkConfig 0 1024 1000 (secs 30) (secs 2) 0x6E657875735F7366 1024.

Inductive ConfigError :=
| PoolTooSmall | PoolTooLarge | NoSessions | ZeroTimeout | NoDtlsBudget | RebindNotBelowConsent.

Definition validate (c : ShardConfig) : outcome ConfigError () :=
  fail_if (pool_buffers c <? Z.of_nat (RECV_BATCH + SEND_BATCH)) PoolTooSmall;;
  fail_if (pool_buffers c >? MAX_POOL_BUFFERS) PoolTooLarge;;
  fail_if (max_sessions c =? 0) NoSessions;;
  fail_if ((consent_timeout c =? 0) || (rebind_silence c =? 0)) ZeroTimeout;;
  fail_if (dtls_budget_per_sweep c =? 0) NoDtlsBudget;;
  fail_if (rebind_silence c >=? consent_timeout c) RebindNotBelowConsent.

End Config.
