(* ===== verification/Maps.v ===== *)
(** * Finite maps and lists the shard's tables use

    Sizes of maps whose entries are owned by the entries of another map, and
    the removals of [Vec] and [FixedVec] as permutations. *)

From S2P Require Import Prelude Replay RocIndex RtpHeader Direction Inbound Outbound Cipher CipherProofs Keys Slab Pool Model.

(** Every entry of [m] is in the list of its owner in [o], and no list is
    longer than [n]. *)
Lemma size_owned `{Countable K, Countable L} {A B} (m : gmap K A) (o : gmap L B)
    (own : A → L) (l : B → list K) (n : nat) :
  (∀ k a, m !! k = Some a → ∃ b, o !! own a = Some b ∧ k ∈ l b) →
  (∀ j b, o !! j = Some b → (length (l b) ≤ n)%nat) → (size m ≤ n * size o)%nat.
Proof.
  revert m. induction o as [|j b o Hj IH] using map_ind; intros m Hm Hl.
  - destruct (decide (m = ∅)) as [->|(k & a & Hk)%map_choose]; [rewrite map_size_empty; lia|].
    destruct (Hm _ _ Hk) as (b & Hb & _). by rewrite lookup_empty in Hb.
  - rewrite map_size_insert_None by done.
    rewrite <- (map_filter_union_complement (fun p => own p.2 = j) m), map_size_disj_union
      by apply map_disjoint_filter_complement.
    assert (size (filter (fun p : K * A => own p.2 = j) m) ≤ length (l b))%nat.
    { rewrite <- length_map_to_list, <- (length_fmap fst).
      apply submseteq_length, NoDup_submseteq; [apply NoDup_fst_map_to_list|].
      intros k ([k' a] & -> & [Hk Ho]%elem_of_map_to_list%map_lookup_filter_Some)%list_elem_of_fmap. cbn in *.
      destruct (Hm _ _ Hk) as (b' & Hb & Hin). rewrite Ho, lookup_insert_eq in Hb. by simplify_eq. }
    assert (length (l b) ≤ n)%nat by (apply (Hl j); by rewrite lookup_insert_eq).
    assert (size (filter (fun p : K * A => own p.2 ≠ j) m) ≤ n * size o)%nat; [|lia].
    apply IH.
    + intros k a [Hk Ho]%map_lookup_filter_Some. cbn in Ho.
      destruct (Hm _ _ Hk) as (b' & Hb & Hin). rewrite lookup_insert_ne in Hb by done. eauto.
    + intros i c Hi. apply (Hl i). rewrite lookup_insert_ne by congruence. done.
Qed.

(** An index from a field of the entries has as many entries. *)
Lemma size_index `{Countable K, Countable L} {B} (idx : gmap K L) (m : gmap L B) (f : B → K) :
  (∀ k j, idx !! k = Some j ↔ ∃ b, m !! j = Some b ∧ f b = k) → size idx = size m.
Proof.
  intros Hi. apply Nat.le_antisymm.
  - rewrite <- (Nat.mul_1_l (size m)). apply (size_owned idx m id (fun b => [f b])); [|done].
    intros k j (b & Hb & <-)%Hi. exists b. set_solver.
  - rewrite <- (Nat.mul_1_l (size idx)). apply (size_owned m idx f (fun j => [j])); [|done].
    intros j b Hb. exists j. rewrite Hi. set_solver.
Qed.

(** ** Removals *)

Lemma swap_remove_perm {A} i (l : list A) x : l !! i = Some x → l ≡ₚ x :: swap_remove i l.
Proof.
  intros Hi. assert (Hlt := lookup_lt_Some _ _ _ Hi). unfold swap_remove.
  destruct l as [|y l _] using rev_ind; [done|]. rewrite last_snoc.
  rewrite length_app in *. cbn [length] in *. replace (length l + 1 - 1)%nat with (length l) by lia.
  destruct (decide (i = length l)) as [->|Hne].
  - rewrite lookup_app_r, Nat.sub_diag in Hi by lia. cbn in Hi. simplify_eq.
    rewrite insert_app_r_alt, Nat.sub_diag, take_app_length by lia. by rewrite Permutation_app_comm.
  - rewrite lookup_app_l in Hi by lia. rewrite insert_app_l, take_app_length' by (rewrite ?length_insert; lia).
    rewrite insert_take_drop by lia. rewrite <- (take_drop_middle l i x Hi) at 1.
    rewrite <- app_assoc. cbn. rewrite <- Permutation_middle. do 2 f_equiv.
    by rewrite (Permutation_app_comm _ [y]).
Qed.

Lemma swap_remove_where_spec {A} (p : A → bool) (l : list A) :
  match swap_remove_where p l with
  | (Some x, l') => p x = true ∧ l ≡ₚ x :: l'
  | (None, l') => l' = l ∧ ∀ x, x ∈ l → p x = false
  end.
Proof.
  unfold swap_remove_where. destruct (position p l) as [i|] eqn:Hp.
  - apply position_Some in Hp as [(x & Hx & Hpx) _]. rewrite Hx. split; [done|]. by apply swap_remove_perm.
  - split; [done|]. intros x (i & Hi)%list_elem_of_lookup. by eapply position_None.
Qed.

(** Removal of the one entry for which the test holds. *)
Lemma swap_remove_where_eq `{EqDecision A} (x : A) (l : list A) : x ∈ l →
  ∃ l', swap_remove_where (fun y => bool_decide (y = x)) l = (Some x, l') ∧ l ≡ₚ x :: l'.
Proof.
  intros Hx. pose proof (swap_remove_where_spec (fun y => bool_decide (y = x)) l) as Hs.
  destruct (swap_remove_where _ l) as [[y|] l'].
  - destruct Hs as [Hy%bool_decide_eq_true Hl]. subst. eauto.
  - destruct Hs as [_ Hn]. specialize (Hn x Hx). by rewrite bool_decide_eq_true_2 in Hn.
Qed.

Lemma position_elem `{EqDecision A} (x : A) (l : list A) : x ∈ l →
  ∃ i, position (fun y => bool_decide (y = x)) l = Some i ∧ l !! i = Some x.
Proof.
  intros (j & Hj)%list_elem_of_lookup. destruct (position _ l) as [i|] eqn:Hp.
  - exists i. split; [done|]. apply position_Some in Hp as [(y & Hy & ->%bool_decide_eq_true) _]. done.
  - rewrite position_None in Hp. specialize (Hp _ _ Hj). by rewrite bool_decide_eq_true_2 in Hp.
Qed.

(** ** Indexes

    [idx] maps each name an entry of [m] has to the entry's key. *)

Section indexed.
Context `{Countable K, Countable L} {B : Type} (names : B → list K).
Implicit Types (idx : gmap K L) (m : gmap L B).

Definition indexed idx m : Prop := ∀ a k, idx !! a = Some k ↔ ∃ b, m !! k = Some b ∧ a ∈ names b.

Lemma indexed_empty : indexed ∅ ∅.
Proof. intros a k. rewrite lookup_empty. split; [done|]. intros (b & Hb & _). by rewrite lookup_empty in Hb. Qed.

Lemma indexed_same idx m k b b' : indexed idx m → m !! k = Some b → names b' = names b →
  indexed idx (<[k := b']> m).
Proof.
  intros Hi Hb Hn a j. rewrite (Hi a j). destruct (decide (j = k)) as [->|Hne].
  - rewrite lookup_insert_eq. split; intros (c & Hc & Ha); simplify_eq; [exists b'|exists b]; by rewrite Hn in *.
  - by rewrite lookup_insert_ne.
Qed.

(** A name belongs to one entry. *)
Lemma indexed_unique idx m k j b c a : indexed idx m → m !! k = Some b → m !! j = Some c →
  a ∈ names b → a ∈ names c → k = j.
Proof.
  intros Hi Hb Hc Ha Ha'. assert (idx !! a = Some k) by (apply Hi; eauto).
  assert (idx !! a = Some j) by (apply Hi; eauto). congruence.
Qed.

Lemma indexed_insert idx m k b a : indexed idx m → m !! k = None → idx !! a = None → names b = [a] →
  indexed (<[a := k]> idx) (<[k := b]> m).
Proof.
  intros Hi Hk Ha Hn x j. rewrite lookup_insert_Some. rewrite (Hi x j). split.
  - intros [[<- <-]|[Hne (c & Hc & Hx)]].
    + exists b. rewrite lookup_insert_eq, Hn. set_solver.
    + exists c. rewrite lookup_insert_ne by congruence. done.
  - intros (c & Hc & Hx). apply lookup_insert_Some in Hc as [[<- <-]|[Hne Hc]].
    + rewrite Hn in Hx. apply list_elem_of_singleton in Hx. auto.
    + right. split; [|eauto]. intros ->. assert (idx !! x = Some j) by (apply Hi; eauto). congruence.
Qed.

Lemma indexed_delete idx m k b a : indexed idx m → m !! k = Some b → names b = [a] →
  indexed (delete a idx) (delete k m).
Proof.
  intros Hi Hk Hn x j. rewrite lookup_delete_Some, (Hi x j). split.
  - intros (Hne & c & Hc & Hx). exists c. rewrite lookup_delete_ne; [done|]. intros ->. simplify_eq.
    rewrite Hn in Hx. set_solver.
  - intros (c & [Hne Hc]%lookup_delete_Some & Hx). split; [|eauto]. intros ->. apply Hne.
    eapply (indexed_unique idx m); try done. rewrite Hn. set_solver.
Qed.

Lemma indexed_size_le idx m n : indexed idx m → (∀ k b, m !! k = Some b → (length (names b) ≤ n)%nat) →
  (size idx ≤ n * size m)%nat.
Proof.
  intros Hi Hn. apply (size_owned idx m id names); [|done]. intros a k (b & Hb & Ha)%Hi. eauto.
Qed.

End indexed.

Lemma indexed_size `{Countable K, Countable L} {B} (f : B → K) (idx : gmap K L) (m : gmap L B) :
  indexed (fun b => [f b]) idx m → size idx = size m.
Proof.
  intros Hi. apply (size_index idx m f). intros k j. rewrite (Hi k j). set_solver.
Qed.

(** ** Ownership

    Every entry of [n] belongs to an entry of [m], which lists it. *)

Section owns.
Context `{Countable L, Countable M} {B C : Type} (lst : B → list M) (own : C → L).
Implicit Types (m : gmap L B) (n : gmap M C).

Record owns m n : Prop := {
  owns_list : ∀ j b x, m !! j = Some b → x ∈ lst b ↔ ∃ c, n !! x = Some c ∧ own c = j;
  owns_live : ∀ x c, n !! x = Some c → is_Some (m !! own c);
}.

Lemma owns_empty : owns ∅ ∅.
Proof. split; [intros j b x|intros x c]; by rewrite lookup_empty. Qed.

Lemma owns_owner m n j b b' : owns m n → m !! j = Some b → (∀ x, x ∈ lst b' ↔ x ∈ lst b) →
  owns (<[j := b']> m) n.
Proof.
  intros [Hl Hv] Hb Hx. split.
  - intros i c x [[<- <-]|[_ Hc]]%lookup_insert_Some; [rewrite Hx|]; by apply Hl.
  - intros x c Hc. apply lookup_insert_is_Some'. right. eauto.
Qed.

Lemma owns_member m n x c c' : owns m n → n !! x = Some c → own c' = own c → owns m (<[x := c']> n).
Proof.
  intros [Hl Hv] Hc Ho. split.
  - intros j b y Hb. rewrite (Hl j b y Hb). split; intros (d & Hd & Hj); destruct (decide (y = x)) as [->|].
    + exists c'. rewrite lookup_insert_eq. split; [done|]. congruence.
    + exists d. by rewrite lookup_insert_ne.
    + rewrite lookup_insert_eq in Hd. simplify_eq. exists c. split; [done|]. congruence.
    + rewrite lookup_insert_ne in Hd by done. eauto.
  - intros y d [[<- <-]|[_ Hd]]%lookup_insert_Some; [rewrite Ho|]; eauto.
Qed.

Lemma owns_new_owner m n j b : owns m n → m !! j = None → lst b = [] → owns (<[j := b]> m) n.
Proof.
  intros [Hl Hv] Hj Hb. split.
  - intros i c x [[<- <-]|[_ Hc]]%lookup_insert_Some; [|by apply Hl]. rewrite Hb. split; [set_solver|].
    intros (c & Hc & <-). destruct (Hv _ _ Hc). congruence.
  - intros x c Hc. apply lookup_insert_is_Some'. right. eauto.
Qed.

Lemma owns_delete_owner m n j b : owns m n → m !! j = Some b → lst b = [] → owns (delete j m) n.
Proof.
  intros [Hl Hv] Hj Hb. split.
  - intros i c x [Hne Hc]%lookup_delete_Some. by apply Hl.
  - intros x c Hc. rewrite lookup_delete_ne; [eauto|]. intros Hi.
    assert (Hx : x ∈ lst b) by (apply (Hl j b x Hj); eauto). rewrite Hb in Hx. set_solver.
Qed.

Lemma owns_add m n j b b' x c : owns m n → m !! j = Some b → n !! x = None → own c = j →
  (∀ y, y ∈ lst b' ↔ y = x ∨ y ∈ lst b) → owns (<[j := b']> m) (<[x := c]> n).
Proof.
  intros [Hl Hv] Hb Hx Ho Hy. split.
  - intros i d y [[<- <-]|[Hne Hd]]%lookup_insert_Some.
    + rewrite Hy, (Hl j b y Hb). split.
      * intros [->|(e & He & Hi)]; [exists c; by rewrite lookup_insert_eq|].
        exists e. rewrite lookup_insert_ne by congruence. done.
      * intros (e & [[<- <-]|[_ He]]%lookup_insert_Some & Hi); eauto.
    + rewrite (Hl i d y Hd). split; intros (e & He & Hi).
      * exists e. rewrite lookup_insert_ne by congruence. done.
      * apply lookup_insert_Some in He as [[<- <-]|[_ He]]; [congruence|eauto].
  - intros y d [[<- <-]|[_ Hd]]%lookup_insert_Some; apply lookup_insert_is_Some'; [left; congruence|right; eauto].
Qed.

Lemma owns_remove m n j b b' x c : owns m n → m !! j = Some b → n !! x = Some c → own c = j →
  (∀ y, y ∈ lst b' ↔ y ≠ x ∧ y ∈ lst b) → owns (<[j := b']> m) (delete x n).
Proof.
  intros [Hl Hv] Hb Hx Ho Hy. split.
  - intros i d y [[<- <-]|[Hne Hd]]%lookup_insert_Some.
    + rewrite Hy, (Hl j b y Hb). split.
      * intros (Hxy & e & He & Hi). exists e. by rewrite lookup_delete_ne.
      * intros (e & [? He]%lookup_delete_Some & Hi). eauto.
    + rewrite (Hl i d y Hd). split; intros (e & He & Hi).
      * exists e. rewrite lookup_delete_ne; [done|]. intros <-. congruence.
      * apply lookup_delete_Some in He as [? He]. eauto.
  - intros y d [? Hd]%lookup_delete_Some. apply lookup_insert_is_Some'. right. eauto.
Qed.

(** The owner's list names its members. *)
Lemma owns_elem m n x c : owns m n → n !! x = Some c → ∃ b, m !! own c = Some b ∧ x ∈ lst b.
Proof. intros [Hl Hv] Hx. destruct (Hv _ _ Hx) as [b Hb]. exists b. split; [done|]. apply (Hl _ _ _ Hb). eauto. Qed.

Lemma owns_size m n k : owns m n → (∀ j b, m !! j = Some b → (length (lst b) ≤ k)%nat) → (size n ≤ k * size m)%nat.
Proof. intros Ho Hk. apply (size_owned n m own lst); [|done]. intros x c Hx. by eapply owns_elem. Qed.

End owns.
