(* ===== verification/Routes.v ===== *)
(** * The routing tables of a shard

    What the entries of a shard's slabs and maps say about each other: which
    session publishes a track, which subscriptions a track and a session
    have, which addresses, names and ids lead to which session. [Routes] is
    that part of the shard's state, [Routed] the consistency every handler
    keeps. The changes the handlers make are the functions below; each is
    shown to keep [Routed]. *)

From S2P Require Import Prelude Replay RocIndex RtpHeader Direction Inbound Outbound Cipher CipherProofs Keys Slab Pool Model Maps.

Module Routes.

Abbreviation Key := Slab.Key.

Record SLink := mkS {
  l_id : SessionId;
  l_ufrag : list Z;
  l_addr : option SocketAddr;
  l_prev : option SocketAddr;
  l_pub : list (Z * Key);
  l_unb : list Key;
  l_subs : list Key;
  l_listed : bool;
}.

Record TLink := mkT { t_id : TrackId; t_sess : Key; t_subs : list Key }.
Record BLink := mkB { b_id : SubscriptionId; b_sess : Key; b_track : Key }.

Record Routes := mkR {
  rs : gmap Key SLink;
  rt : gmap Key TLink;
  rb : gmap Key BLink;
  r_sid : gmap SessionId Key;
  r_tid : gmap TrackId Key;
  r_bid : gmap SubscriptionId Key;
  r_addr : gmap SocketAddr Key;
  r_ufrag : gmap (list Z) Key;
  r_sw : list Key;
}.

Definition no_routes : Routes := mkR ∅ ∅ ∅ ∅ ∅ ∅ ∅ ∅ [].

Definition l_tracks (s : SLink) : list Key := (l_pub s).*2 ++ l_unb s.
Definition l_addrs (s : SLink) : list SocketAddr := option_list (l_addr s) ++ option_list (l_prev s).

Record slink_ok (s : SLink) : Prop := {
  so_tracks : NoDup (l_tracks s);
  so_ssrcs : NoDup (l_pub s).*1;
  so_count : (length (l_tracks s) ≤ Session.MAX_TRACKS_PER_SESSION)%nat;
  so_subs : NoDup (l_subs s);
  so_nsubs : (length (l_subs s) ≤ Session.MAX_SUBS_PER_SESSION)%nat;
  so_addr : NoDup (l_addrs s);
}.

Record Routed (r : Routes) : Prop := {
  rd_sid : indexed (fun s => [l_id s]) (r_sid r) (rs r);
  rd_ufrag : indexed (fun s => [l_ufrag s]) (r_ufrag r) (rs r);
  rd_tid : indexed (fun t => [t_id t]) (r_tid r) (rt r);
  rd_bid : indexed (fun b => [b_id b]) (r_bid r) (rb r);
  rd_addr : indexed l_addrs (r_addr r) (rs r);
  rd_tracks : owns l_tracks t_sess (rs r) (rt r);
  rd_subs : owns l_subs b_sess (rs r) (rb r);
  rd_subscribers : owns t_subs b_track (rt r) (rb r);
  rd_slink : ∀ k s, rs r !! k = Some s → slink_ok s;
  rd_tlink : ∀ k t, rt r !! k = Some t → NoDup (t_subs t);
  rd_sw : NoDup (r_sw r);
  rd_listed : ∀ k, k ∈ r_sw r ↔ ∃ s, rs r !! k = Some s ∧ l_listed s = true;
}.

Lemma routed_empty : Routed no_routes.
Proof.
  split; cbn; try apply indexed_empty; try apply owns_empty; try (by intros); [constructor|].
  intros k. split; [set_solver|]. by intros (s & Hs & _).
Qed.

(** ** Changes *)

Definition set_rs f r := mkR (f (rs r)) (rt r) (rb r) (r_sid r) (r_tid r) (r_bid r) (r_addr r) (r_ufrag r) (r_sw r).

Definition put_s k s (r : Routes) : Routes := set_rs <[k := s]> r.

Definition create id u k (r : Routes) : Routes :=
  mkR (<[k := mkS id u None None [] [] [] false]> (rs r)) (rt r) (rb r) (<[id := k]> (r_sid r)) (r_tid r) (r_bid r)
    (r_addr r) (<[u := k]> (r_ufrag r)) (r_sw r).

(** Track [t], named [id], is added to session [k], whose entry becomes [s]. *)
Definition add_track k s t id (r : Routes) : Routes :=
  mkR (<[k := s]> (rs r)) (<[t := mkT id k []]> (rt r)) (rb r) (r_sid r) (<[id := t]> (r_tid r)) (r_bid r)
    (r_addr r) (r_ufrag r) (r_sw r).

Definition del_track k s t id (r : Routes) : Routes :=
  mkR (<[k := s]> (rs r)) (delete t (rt r)) (rb r) (r_sid r) (delete id (r_tid r)) (r_bid r)
    (r_addr r) (r_ufrag r) (r_sw r).

(** Subscription [b] of session [k] to track [t]. *)
Definition add_sub k s t tl b id (r : Routes) : Routes :=
  mkR (<[k := s]> (rs r)) (<[t := tl]> (rt r)) (<[b := mkB id k t]> (rb r)) (r_sid r) (r_tid r) (<[id := b]> (r_bid r))
    (r_addr r) (r_ufrag r) (r_sw r).

Definition del_sub k s t tl b id (r : Routes) : Routes :=
  mkR (<[k := s]> (rs r)) (<[t := tl]> (rt r)) (delete b (rb r)) (r_sid r) (r_tid r) (delete id (r_bid r))
    (r_addr r) (r_ufrag r) (r_sw r).

Definition set_subs l s := mkS (l_id s) (l_ufrag s) (l_addr s) (l_prev s) (l_pub s) (l_unb s) l (l_listed s).
Definition set_tracks p u s := mkS (l_id s) (l_ufrag s) (l_addr s) (l_prev s) p u (l_subs s) (l_listed s).
Definition set_addrs a p s := mkS (l_id s) (l_ufrag s) a p (l_pub s) (l_unb s) (l_subs s) (l_listed s).
Definition set_listed b s := mkS (l_id s) (l_ufrag s) (l_addr s) (l_prev s) (l_pub s) (l_unb s) (l_subs s) b.

Lemma routed_create id u k r : Routed r → rs r !! k = None → r_sid r !! id = None → r_ufrag r !! u = None →
  Routed (create id u k r).
Proof.
  intros HR Hk Hid Hu. destruct HR. split; cbn; try done.
  - by apply indexed_insert.
  - by apply indexed_insert.
  - intros a j. rewrite (rd_addr0 a j). split; intros (s & Hs & Ha).
    + exists s. rewrite lookup_insert_ne by congruence. done.
    + apply lookup_insert_Some in Hs as [[<- <-]|[_ Hs]]; [set_solver|eauto].
  - by apply owns_new_owner.
  - by apply owns_new_owner.
  - intros j s [[<- <-]|[_ Hs]]%lookup_insert_Some; [|eauto]. split; cbn; try constructor; lia.
  - intros j. rewrite rd_listed0. split; intros (s & Hs & Hl).
    + exists s. rewrite lookup_insert_ne by congruence. done.
    + apply lookup_insert_Some in Hs as [[<- <-]|[_ Hs]]; [done|eauto].
Qed.

(** A session's entry is replaced; what names and lists it has stays. *)
Lemma listed_same r k s s' : Routed r → rs r !! k = Some s → l_listed s' = l_listed s →
  ∀ j, j ∈ r_sw r ↔ ∃ s, <[k := s']> (rs r) !! j = Some s ∧ l_listed s = true.
Proof.
  intros HR Hs Hl j. rewrite (rd_listed _ HR j). split; intros (c & Hc & Hlc).
  - destruct (decide (j = k)) as [->|]; [exists s'; rewrite lookup_insert_eq|exists c; by rewrite lookup_insert_ne].
    split; [done|]. congruence.
  - apply lookup_insert_Some in Hc as [[<- <-]|[_ Hc]]; [exists s|eauto]. split; [done|]. congruence.
Qed.

Lemma slinks_insert r k s : Routed r → slink_ok s → ∀ j t, <[k := s]> (rs r) !! j = Some t → slink_ok t.
Proof. intros HR Hs j t [[<- <-]|[_ Ht]]%lookup_insert_Some; [done|by eapply (rd_slink _ HR)]. Qed.

Lemma tlinks_insert r k t : Routed r → NoDup (t_subs t) → ∀ j u, <[k := t]> (rt r) !! j = Some u → NoDup (t_subs u).
Proof. intros HR Hs j u [[<- <-]|[_ Hu]]%lookup_insert_Some; [done|by eapply (rd_tlink _ HR)]. Qed.

Lemma routed_add_track r k s t id p u : Routed r → rs r !! k = Some s → rt r !! t = None → r_tid r !! id = None →
  let s' := set_tracks p u s in
  l_tracks s' ≡ₚ t :: l_tracks s → NoDup p.*1 → (length (l_tracks s') ≤ Session.MAX_TRACKS_PER_SESSION)%nat →
  Routed (add_track k s' t id r).
Proof.
  intros HR Hk Ht Hid s' Hp Hnd Hlen. split; cbn; try apply HR.
  - by apply indexed_same with s; [apply HR| |].
  - by apply indexed_same with s; [apply HR| |].
  - by apply indexed_insert; [apply HR| | |].
  - by apply indexed_same with s; [apply HR| |].
  - apply owns_add with s; [apply HR|done..|]. intros y. by rewrite Hp, elem_of_cons.
  - by apply owns_owner with s; [apply HR| |].
  - by apply owns_new_owner; [apply HR| |].
  - apply slinks_insert; [done|]. destruct (rd_slink _ HR _ _ Hk). split; try done.
    rewrite Hp. constructor; [|done]. intros Hin. apply (owns_list _ _ _ _ (rd_tracks _ HR) _ _ _ Hk) in Hin.
    destruct Hin as (c & Hc & _). congruence.
  - apply (tlinks_insert r); [done|constructor].
  - by apply listed_same with s.
Qed.

Lemma routed_del_track r k s t tl p u : Routed r → rs r !! k = Some s → rt r !! t = Some tl → t_sess tl = k →
  t_subs tl = [] → let s' := set_tracks p u s in
  l_tracks s ≡ₚ t :: l_tracks s' → NoDup p.*1 → Routed (del_track k s' t (t_id tl) r).
Proof.
  intros HR Hk Ht Hs Hsub s' Hp Hnd. pose proof (rd_slink _ HR _ _ Hk) as Hok.
  pose proof (so_tracks _ Hok) as Hnt. rewrite Hp in Hnt. apply NoDup_cons in Hnt as [Hni Hnt].
  split; cbn; try apply HR.
  - by apply indexed_same with s; [apply HR| |].
  - by apply indexed_same with s; [apply HR| |].
  - by apply indexed_delete with tl; [apply HR| |].
  - by apply indexed_same with s; [apply HR| |].
  - apply owns_remove with s tl; [apply HR|done..|]. intros y. rewrite Hp, elem_of_cons.
    split; [|naive_solver]. intros Hy. split; [congruence|auto].
  - by apply owns_owner with s; [apply HR| |].
  - by apply owns_delete_owner with tl; [apply HR| |].
  - apply slinks_insert; [done|]. pose proof (so_count _ Hok) as Hc. destruct Hok. split; try done.
    apply Permutation_length in Hp. cbn [length] in Hp. lia.
  - intros j t' [_ Hj]%lookup_delete_Some. by eapply (rd_tlink _ HR).
  - by apply listed_same with s.
Qed.

Lemma routed_add_sub r k s t tl b id : Routed r → rs r !! k = Some s → rt r !! t = Some tl → rb r !! b = None →
  r_bid r !! id = None → (length (l_subs s) < Session.MAX_SUBS_PER_SESSION)%nat →
  Routed (add_sub k (set_subs (l_subs s ++ [b]) s) t (mkT (t_id tl) (t_sess tl) (t_subs tl ++ [b])) b id r).
Proof.
  intros HR Hk Ht Hb Hid Hlen. split; cbn; try apply HR.
  - by apply indexed_same with s; [apply HR| |].
  - by apply indexed_same with s; [apply HR| |].
  - by apply indexed_same with tl; [apply HR| |].
  - by apply indexed_insert; [apply HR| | |].
  - by apply indexed_same with s; [apply HR| |].
  - apply owns_member with tl; [|done|done]. by apply owns_owner with s; [apply HR| |].
  - apply owns_add with s; [apply HR|done..|]. intros y. cbn. set_solver.
  - apply owns_add with tl; [apply HR|done..|]. intros y. cbn. set_solver.
  - apply slinks_insert; [done|]. destruct (rd_slink _ HR _ _ Hk). split; try done; cbn.
    + apply NoDup_app. split; [done|]. split; [|apply NoDup_singleton]. intros x Hx ->%list_elem_of_singleton.
      apply (owns_list _ _ _ _ (rd_subs _ HR) _ _ _ Hk) in Hx as (c & Hc & _). congruence.
    + rewrite length_app. cbn. lia.
  - apply (tlinks_insert r); [done|]. cbn. apply NoDup_app. split; [by eapply (rd_tlink _ HR)|].
    split; [|apply NoDup_singleton]. intros x Hx ->%list_elem_of_singleton.
    apply (owns_list _ _ _ _ (rd_subscribers _ HR) _ _ _ Ht) in Hx as (c & Hc & _). congruence.
  - by apply listed_same with s.
Qed.

Lemma perm_remove {A} (x : A) l l' : NoDup l → l ≡ₚ x :: l' → ∀ y, y ∈ l' ↔ y ≠ x ∧ y ∈ l.
Proof.
  intros Hnd Hp y. rewrite Hp in Hnd. apply NoDup_cons in Hnd as [Hx _]. rewrite Hp, elem_of_cons.
  split; [|naive_solver]. intros Hy. split; [congruence|auto].
Qed.

Lemma perm_nodup {A} (x : A) l l' : NoDup l → l ≡ₚ x :: l' → NoDup l'.
Proof. intros Hnd Hp. rewrite Hp in Hnd. by apply NoDup_cons in Hnd as [_ ?]. Qed.

Lemma routed_del_sub r k s t tl b bl l l' : Routed r → rb r !! b = Some bl → b_sess bl = k → b_track bl = t →
  rs r !! k = Some s → rt r !! t = Some tl → l_subs s ≡ₚ b :: l → t_subs tl ≡ₚ b :: l' →
  Routed (del_sub k (set_subs l s) t (mkT (t_id tl) (t_sess tl) l') b (b_id bl) r).
Proof.
  intros HR Hb Hbk Hbt Hk Ht Hl Hl'. pose proof (rd_slink _ HR _ _ Hk) as Hok.
  pose proof (perm_nodup _ _ _ (so_subs _ Hok) Hl) as Hnd.
  pose proof (perm_nodup _ _ _ (rd_tlink _ HR _ _ Ht) Hl') as Hnd'.
  split; cbn; try apply HR.
  - by apply indexed_same with s; [apply HR| |].
  - by apply indexed_same with s; [apply HR| |].
  - by apply indexed_same with tl; [apply HR| |].
  - by apply indexed_delete with bl; [apply HR| |].
  - by apply indexed_same with s; [apply HR| |].
  - apply owns_member with tl; [|done|done]. by apply owns_owner with s; [apply HR| |].
  - apply owns_remove with s bl; [apply HR|done..|]. apply perm_remove; [apply Hok|done].
  - apply owns_remove with tl bl; [apply HR|done..|]. apply perm_remove; [by eapply (rd_tlink _ HR)|done].
  - apply slinks_insert; [done|]. pose proof (so_nsubs _ Hok) as Hn. destruct Hok. split; try done.
    cbn [set_subs l_subs]. apply Permutation_length in Hl. cbn [length] in Hl. lia.
  - by apply (tlinks_insert r).
  - by apply listed_same with s.
Qed.

(** Two sessions that differ at most in their addresses. *)
Definition same_but_addrs (s s' : SLink) : Prop := s' = set_addrs (l_addr s') (l_prev s') s.

Definition set_addr_table m idx (r : Routes) : Routes :=
  mkR m (rt r) (rb r) (r_sid r) (r_tid r) (r_bid r) idx (r_ufrag r) (r_sw r).

Section related.
Context (m m' : gmap Key SLink) (P : SLink → SLink → Prop).
Context (Hrel : ∀ k, option_Forall2 P (m !! k) (m' !! k)).

Lemma related_fwd k s : m !! k = Some s → ∃ s', m' !! k = Some s' ∧ P s s'.
Proof. intros Hs. specialize (Hrel k). rewrite Hs in Hrel. inversion Hrel. eauto. Qed.

Lemma related_bwd k s' : m' !! k = Some s' → ∃ s, m !! k = Some s ∧ P s s'.
Proof. intros Hs. specialize (Hrel k). rewrite Hs in Hrel. inversion Hrel. eauto. Qed.

Lemma related_indexed `{Countable K} (f : SLink → list K) (idx : gmap K Key) :
  (∀ s s', P s s' → f s' = f s) → indexed f idx m → indexed f idx m'.
Proof.
  intros Hf Hi a k. rewrite (Hi a k). split.
  - intros (s & (s' & Hs' & HP)%related_fwd & Ha). exists s'. rewrite (Hf _ _ HP). done.
  - intros (s' & (s & Hs & HP)%related_bwd & Ha). exists s. rewrite <- (Hf _ _ HP). done.
Qed.

Lemma related_owns {C} (f : SLink → list Key) (own : C → Key) (n : gmap Key C) :
  (∀ s s', P s s' → f s' = f s) → owns f own m n → owns f own m' n.
Proof.
  intros Hf [Hl Hv]. split.
  - intros j s' x (s & Hs & HP)%related_bwd. rewrite (Hf _ _ HP). by apply Hl.
  - intros x c [s (s' & Hs' & _)%related_fwd]%Hv. eauto.
Qed.

End related.

Lemma routed_addrs r m' idx' : Routed r → indexed l_addrs idx' m' →
  (∀ k, option_Forall2 (fun s s' => same_but_addrs s s' ∧ NoDup (l_addrs s')) (rs r !! k) (m' !! k)) →
  Routed (set_addr_table m' idx' r).
Proof.
  intros HR Hi Hrel. split; cbn; try apply HR; try done.
  - eapply related_indexed, (rd_sid _ HR); [done|]. intros ? ? [-> _]; done.
  - eapply related_indexed, (rd_ufrag _ HR); [done|]. intros ? ? [-> _]; done.
  - eapply related_owns, (rd_tracks _ HR); [done|]. intros ? ? [-> _]; done.
  - eapply related_owns, (rd_subs _ HR); [done|]. intros ? ? [-> _]; done.
  - intros k s' (s & Hs & Hsame & Hnd)%(related_bwd _ _ _ Hrel). destruct (rd_slink _ HR _ _ Hs).
    split; [..|done]; by rewrite Hsame.
  - intros k. rewrite (rd_listed _ HR k). split.
    + intros (s & (s' & Hs' & Hsame & _)%(related_fwd _ _ _ Hrel) & Hl). exists s'. split; [done|]. by rewrite Hsame.
    + intros (s' & (s & Hs & Hsame & _)%(related_bwd _ _ _ Hrel) & Hl). exists s. split; [done|].
      by rewrite Hsame in Hl.
Qed.

Lemma related_refl r k : Routed r →
  option_Forall2 (fun s s' => same_but_addrs s s' ∧ NoDup (l_addrs s')) (rs r !! k) (rs r !! k).
Proof.
  intros HR. destruct (rs r !! k) as [s|] eqn:Hs; constructor. split; [by destruct s|].
  apply (rd_slink _ HR _ _ Hs).
Qed.

Lemma related_insert r k s s' (m' : gmap Key SLink) j : Routed r → rs r !! k = Some s → same_but_addrs s s' → NoDup (l_addrs s') →
  (∀ i, option_Forall2 (fun s s' => same_but_addrs s s' ∧ NoDup (l_addrs s')) (rs r !! i) (m' !! i)) →
  option_Forall2 (fun s s' => same_but_addrs s s' ∧ NoDup (l_addrs s')) (rs r !! j) (<[k := s']> m' !! j).
Proof.
  intros HR Hs Hsame Hnd Hm. destruct (decide (j = k)) as [->|]; [|by rewrite lookup_insert_ne].
  rewrite lookup_insert_eq, Hs. by constructor.
Qed.

(** The names of one entry of an index change; the others keep theirs. *)
Lemma elem_addrs a s : a ∈ l_addrs s ↔ l_addr s = Some a ∨ l_prev s = Some a.
Proof.
  unfold l_addrs. rewrite elem_of_app. destruct (l_addr s), (l_prev s); cbn;
    rewrite ?list_elem_of_singleton, ?elem_of_nil; naive_solver.
Qed.

(** ** Address changes *)

Lemma routed_drop_prev r k s : Routed r → rs r !! k = Some s →
  Routed (set_addr_table (<[k := set_addrs (l_addr s) None s]> (rs r))
            (match l_prev s with Some p => delete p (r_addr r) | None => r_addr r end) r).
Proof.
  intros HR Hk. pose proof (so_addr _ (rd_slink _ HR _ _ Hk)) as Hnd.
  apply routed_addrs; [done| |].
  - pose proof (rd_addr _ HR) as Hi. intros a j.
    assert (Hd : match l_prev s with Some p => delete p (r_addr r) | None => r_addr r end !! a = Some j ↔
                 l_prev s ≠ Some a ∧ r_addr r !! a = Some j).
    { destruct (l_prev s) as [p|]; [rewrite lookup_delete_Some|]; naive_solver. }
    rewrite Hd, (Hi a j). clear Hd. split.
    + intros (Hp & c & Hc & Ha%elem_addrs). destruct (decide (j = k)) as [->|].
      * simplify_eq. eexists. rewrite lookup_insert_eq. split; [done|]. apply elem_addrs. cbn. naive_solver.
      * exists c. rewrite lookup_insert_ne by done. split; [done|]. by apply elem_addrs.
    + intros (c & [[<- <-]|[Hne Hc]]%lookup_insert_Some & Ha%elem_addrs); cbn in *.
      * destruct Ha as [Ha|]; [|done]. split.
        -- intros Hp. unfold l_addrs in Hnd. rewrite Ha, Hp in Hnd. cbn in Hnd.
           apply NoDup_cons in Hnd as [Hn _]. set_solver.
        -- exists s. split; [done|]. apply elem_addrs. by left.
      * split; [|exists c; split; [done|by apply elem_addrs]]. intros Hp. apply Hne.
        eapply (indexed_unique _ _ _ _ _ _ _ a Hi Hk Hc); by apply elem_addrs; auto.
  - intros j. apply related_insert with s; [done..|by destruct s| |by intros; apply related_refl].
    unfold l_addrs in *. cbn. apply NoDup_app in Hnd as [Hnd _]. by rewrite app_nil_r.
Qed.

Definition forget a (s : SLink) : SLink :=
  set_addrs (if bool_decide (l_addr s = Some a) then None else l_addr s)
    (if bool_decide (l_prev s = Some a) then None else l_prev s) s.

Lemma elem_forget a b s : b ∈ l_addrs (forget a s) ↔ b ≠ a ∧ b ∈ l_addrs s.
Proof. rewrite !elem_addrs. unfold forget. cbn. repeat case_bool_decide; naive_solver. Qed.

Lemma nodup_forget a s : NoDup (l_addrs s) → NoDup (l_addrs (forget a s)).
Proof.
  unfold l_addrs, forget. cbn. intros Hnd. repeat case_bool_decide; destruct (l_addr s), (l_prev s); cbn in *;
    try done; try apply NoDup_singleton; try constructor.
Qed.

(** The switch of session [k] to an address that is new to every session. *)
Lemma routed_move r k s a : Routed r → rs r !! k = Some s → l_prev s = None → r_addr r !! a = None →
  Routed (set_addr_table (<[k := set_addrs (Some a) (l_addr s) s]> (rs r)) (<[a := k]> (r_addr r)) r).
Proof.
  intros HR Hk Hp Ha. pose proof (rd_addr _ HR) as Hi.
  apply routed_addrs; [done| |].
  - intros b j. rewrite lookup_insert_Some, (Hi b j). split.
    + intros [[<- <-]|[Hne (c & Hc & Hb%elem_addrs)]].
      * eexists. rewrite lookup_insert_eq. split; [done|]. apply elem_addrs. by left.
      * destruct (decide (j = k)) as [->|].
        -- simplify_eq. eexists. rewrite lookup_insert_eq. split; [done|]. apply elem_addrs. cbn. naive_solver.
        -- exists c. rewrite lookup_insert_ne by done. split; [done|]. by apply elem_addrs.
    + intros (c & [[<- <-]|[Hne Hc]]%lookup_insert_Some & Hb%elem_addrs); cbn in *.
      * destruct (decide (a = b)); [by left|right]. split; [done|]. exists s. split; [done|].
        apply elem_addrs. naive_solver.
      * right. assert (r_addr r !! b = Some j) by (apply Hi; exists c; split; [done|by apply elem_addrs]).
        split; [congruence|]. exists c. split; [done|by apply elem_addrs].
  - intros j. apply related_insert with s; [done..|by destruct s| |by intros; apply related_refl].
    unfold l_addrs. cbn. destruct (l_addr s) as [b|] eqn:Hb; cbn; [|apply NoDup_singleton].
    apply NoDup_cons. split; [|apply NoDup_singleton]. intros ->%list_elem_of_singleton.
    assert (r_addr r !! b = Some k); [|congruence]. apply Hi. exists s. split; [done|]. apply elem_addrs. by left.
Qed.

(** Session [o] gives up the address. *)
Lemma routed_forget r o s a : Routed r → rs r !! o = Some s → r_addr r !! a = Some o →
  Routed (set_addr_table (<[o := forget a s]> (rs r)) (delete a (r_addr r)) r).
Proof.
  intros HR Ho Ha. pose proof (rd_addr _ HR) as Hi.
  apply routed_addrs; [done| |].
  - intros b j. rewrite lookup_delete_Some, (Hi b j). split.
    + intros (Hne & c & Hc & Hb). destruct (decide (j = o)) as [->|].
      * simplify_eq. eexists. rewrite lookup_insert_eq. split; [done|]. by rewrite elem_forget.
      * exists c. by rewrite lookup_insert_ne.
    + intros (c & [[<- <-]|[Hne Hc]]%lookup_insert_Some & Hb).
      * apply elem_forget in Hb as [Hb ?]. eauto.
      * split; [|eauto]. intros <-. assert (r_addr r !! a = Some j) by (apply Hi; eauto). congruence.
  - intros j. apply related_insert with s; [done..|by destruct s| |by intros; apply related_refl].
    apply nodup_forget, (rd_slink _ HR _ _ Ho).
Qed.

Definition unprev (s : SLink) (idx : gmap SocketAddr Key) : gmap SocketAddr Key :=
  match l_prev s with Some p => delete p idx | None => idx end.

(** The whole switch: the previous address is dropped, a session that had the
    new address loses it. *)
Lemma routed_switch r k s a : Routed r → rs r !! k = Some s → l_addr s ≠ Some a →
  let s' := set_addrs (Some a) (l_addr s) s in
  match unprev s (r_addr r) !! a with
  | None => Routed (set_addr_table (<[k := s']> (rs r)) (<[a := k]> (unprev s (r_addr r))) r)
  | Some o => o ≠ k ∧ ∃ so, rs r !! o = Some so ∧
      Routed (set_addr_table (<[o := forget a so]> (<[k := s']> (rs r))) (<[a := k]> (unprev s (r_addr r))) r)
  end.
Proof.
  intros HR Hk Hne s'. pose proof (routed_drop_prev r k s HR Hk) as H1. fold (unprev s (r_addr r)) in H1.
  set (s1 := set_addrs (l_addr s) None s) in *. destruct (unprev s (r_addr r) !! a) as [o|] eqn:Ho.
  - pose proof (proj1 (rd_addr _ H1 a o) Ho) as (so & Hso & Ha). cbn in Hso.
    assert (Hok : o ≠ k).
    { intros ->. rewrite lookup_insert_eq in Hso. simplify_eq. apply elem_addrs in Ha as [Ha|Ha]; cbn in Ha; congruence. }
    split; [done|]. rewrite lookup_insert_ne in Hso by done. exists so. split; [done|].
    assert (H2 : Routed _) by (eapply (routed_forget _ o so a H1); [cbn; by rewrite lookup_insert_ne|exact Ho]).
    eapply (routed_move _ k s1 a) in H2; [|cbn; rewrite lookup_insert_ne by done; by rewrite lookup_insert_eq|done|
      cbn; by rewrite lookup_delete_eq].
    unfold set_addr_table in *. cbn in H2. rewrite (insert_insert_ne (rs r)), insert_insert_eq in H2 by done.
    rewrite insert_insert_ne by done. by rewrite insert_delete_eq in H2.
  - eapply (routed_move _ k s1 a) in H1; [|cbn; by rewrite lookup_insert_eq|done..].
    unfold set_addr_table in *. cbn in H1. by rewrite insert_insert_eq in H1.
Qed.

(** ** The list of deferred switches *)

Definition set_listing m l (r : Routes) : Routes :=
  mkR m (rt r) (rb r) (r_sid r) (r_tid r) (r_bid r) (r_addr r) (r_ufrag r) l.

Lemma routed_listing r k s b l : Routed r → rs r !! k = Some s → NoDup l →
  (∀ j, j ∈ l ↔ if decide (j = k) then b = true else j ∈ r_sw r) →
  Routed (set_listing (<[k := set_listed b s]> (rs r)) l r).
Proof.
  intros HR Hk Hnd Hl. split; cbn; try apply HR; try done.
  - by apply indexed_same with s; [apply HR| |].
  - by apply indexed_same with s; [apply HR| |].
  - by apply indexed_same with s; [apply HR| |].
  - by apply owns_owner with s; [apply HR| |].
  - by apply owns_owner with s; [apply HR| |].
  - apply slinks_insert; [done|]. by destruct (rd_slink _ HR _ _ Hk).
  - intros j. rewrite (Hl j). case_decide as Hj.
    + subst. rewrite lookup_insert_eq. split; [intros ->; by eexists|]. by intros (? & [= <-] & ?).
    + rewrite lookup_insert_ne by done. apply HR.
Qed.

(** A track moves from the unbound to the published ones. *)
Lemma routed_retrack r k s p u : Routed r → rs r !! k = Some s → p.*2 ++ u ≡ₚ l_tracks s → NoDup p.*1 →
  Routed (put_s k (set_tracks p u s) r).
Proof.
  intros HR Hk Hp Hnd. split; cbn; try apply HR; try done.
  - by apply indexed_same with s; [apply HR| |].
  - by apply indexed_same with s; [apply HR| |].
  - by apply indexed_same with s; [apply HR| |].
  - apply owns_owner with s; [apply HR|done|]. intros x. unfold l_tracks at 1. cbn. by rewrite Hp.
  - by apply owns_owner with s; [apply HR| |].
  - apply slinks_insert; [done|]. destruct (rd_slink _ HR _ _ Hk). split; try done; unfold l_tracks; cbn; by rewrite Hp.
  - by apply listed_same with s.
Qed.

Lemma indexed_remove `{Countable K} (names : SLink → list K) (idx idx' : gmap K Key) m k b :
  indexed names idx m → m !! k = Some b → (∀ a j, idx' !! a = Some j ↔ a ∉ names b ∧ idx !! a = Some j) →
  indexed names idx' (delete k m).
Proof.
  intros Hi Hk Hd a j. rewrite (Hd a j), (Hi a j). split.
  - intros (Hn & c & Hc & Ha). exists c. split; [|done]. rewrite lookup_delete_ne; [done|]. intros <-. congruence.
  - intros (c & [Hne Hc]%lookup_delete_Some & Ha). split; [|eauto]. intros Hb. apply Hne.
    by eapply (indexed_unique names idx m).
Qed.

Definition close k s addrs (r : Routes) : Routes :=
  mkR (delete k (rs r)) (rt r) (rb r) (delete (l_id s) (r_sid r)) (r_tid r) (r_bid r) addrs
    (delete (l_ufrag s) (r_ufrag r)) (filter (fun j => j ≠ k) (r_sw r)).

Lemma routed_close r k s addrs : Routed r → rs r !! k = Some s → l_tracks s = [] → l_subs s = [] →
  (∀ a j, addrs !! a = Some j ↔ a ∉ l_addrs s ∧ r_addr r !! a = Some j) → Routed (close k s addrs r).
Proof.
  intros HR Hk Ht Hs Ha. split; cbn; try apply HR.
  - by apply indexed_delete with s; [apply HR| |].
  - by apply indexed_delete with s; [apply HR| |].
  - by apply (indexed_remove _ (r_addr r) _ _ _ s); [apply HR| |].
  - by apply owns_delete_owner with s; [apply HR| |].
  - by apply owns_delete_owner with s; [apply HR| |].
  - intros j t [_ Hj]%lookup_delete_Some. by eapply (rd_slink _ HR).
  - apply NoDup_filter, HR.
  - intros j. rewrite list_elem_of_filter, (rd_listed _ HR j). split.
    + intros (Hj & t & Htj & Hl). exists t. by rewrite lookup_delete_ne.
    + intros (t & [Hj Htj]%lookup_delete_Some & Hl). eauto.
Qed.

End Routes.
