(* ===== verification/Rewrite.v ===== *)
(** * Header extensions and the packet rewrite

    [crates/nexus-dataplane/src/ext.rs] (the element iterator) and
    [crates/nexus-dataplane/src/rewrite.rs] (the rewrite of a publisher's
    packet for a subscriber and its sequence/timestamp offsets). *)

From S2P Require Import Prelude RtpHeader Slab Model.

Module Ext.

Definition MAX_ELEMENTS : nat := 16.
Definition MAX_ONE_BYTE_LEN : nat := 16.

Record Element := mkElement { id : Z; data : list Z }.

Inductive form := OneByte | TwoByte.

(** The extension block of a packet and its form; nothing when X is clear or
    the profile is neither form. *)
Definition block {E} (packet : list Z) (header : RtpHeader.RtpHeader) : outcome E (list Z * form) :=
  if negb (RtpHeader.extension header) then Ok ([], OneByte) else
  let start := (12 + 4 * Z.to_nat (RtpHeader.csrc_count header))%nat in
  let end_ := Z.to_nat (RtpHeader.header_len_bytes header) in
  if bool_decide (end_ < start + 4 ∨ length packet < end_)%nat then Ok ([], OneByte) else
  profile ← read_be 2 start packet;
  b ← slice (start + 4) end_ packet;
  if profile =? 0xBEDE then Ok (b, OneByte)
  else if Z.land profile 0xFFF0 =? 0x1000 then Ok (b, TwoByte)
  else Ok ([], OneByte).

(** Padding between elements: any byte with ID 0 in the one-byte form. *)
Definition is_padding (f : form) (byte : Z) : bool :=
  match f with TwoByte => byte =? 0 | OneByte => Z.shiftr byte 4 =? 0 end.

Fixpoint skip_padding (f : form) (rest : list Z) : list Z :=
  match rest with
  | [] => []
  | byte :: tail => if is_padding f byte then skip_padding f tail else rest
  end.

(** [next]: the element at the head of the rest, and the bytes after it. *)
Definition next_element (f : form) (rest : list Z) : option (Element * list Z) :=
  match skip_padding f rest with
  | [] => None
  | first :: tail =>
    match f with
    | TwoByte =>
      match tail with
      | [] => None
      | len :: tail =>
        d ← get_slice 0 (Z.to_nat len) tail;
        Some (mkElement first d, drop (Z.to_nat len) tail)
      end
    | OneByte =>
      if Z.shiftr first 4 =? 15 then None
      else
        let len := (Z.to_nat (Z.land first 0x0F) + 1)%nat in
        d ← get_slice 0 len tail;
        Some (mkElement (Z.shiftr first 4) d, drop len tail)
    end
  end.

(** At most [fuel] elements ([MAX_ELEMENTS] for the iterator). *)
Fixpoint collect (fuel : nat) (f : form) (rest : list Z) : list Element :=
  match fuel with
  | O => []
  | S fuel =>
    match next_element f rest with
    | None => []
    | Some (e, rest) => e :: collect fuel f rest
    end
  end.

Definition elements {E} (packet : list Z) (header : RtpHeader.RtpHeader) : outcome E (list Element) :=
  '(b, f) ← block packet header; Ok (collect MAX_ELEMENTS f b).

(** The data of the first element with this id. *)
Definition find {E} (packet : list Z) (header : RtpHeader.RtpHeader) (x : Z) : outcome E (option (list Z)) :=
  if x =? 0 then Ok None else
  es ← elements packet header;
  Ok (data <$> (position (fun e => id e =? x) es ≫= fun i => es !! i)).

End Ext.

Module Rewrite.

Definition REBASE_GAP : Z := 2 ^ 14.
Definition REORDER_LIMIT : Z := 64.
Definition REBASE_IDLE : Z := secs 5.

Inductive RewriteError := UnmappedPt | TooLarge.

Record Advance := mkAdvance {
  adv_seq_offset : Z;
  adv_ts_offset : Z;
  in_seq : Z;
  out_seq : Z;
  out_ts : Z;
  rebased : bool;
}.

(** One element in the one-byte form at [at_]; its end. *)
Definition write_element (at_ : nat) (id : Z) (data : list Z) : st (list Z) RewriteError nat :=
  lift (assert_ ((1 <=? id) && (id <=? 14) &&
                 bool_decide (1 ≤ length data ∧ length data ≤ Ext.MAX_ONE_BYTE_LEN)%nat));; (* debug_assert! *)
  let end_ := (at_ + 1 + length data)%nat in
  dst ← get;
  if bool_decide (length dst < end_)%nat then throw TooLarge else
  dst ← lift (set_at at_ (Z.lor (wrap 8 (Z.shiftl id 4)) (wrap 8 (Z.of_nat (length data)) - 1)) dst);
  dst ← lift (copy_at (at_ + 1) data dst);
  put dst;;
  mret end_.

(** The id the element is written with, if it is. *)
Definition mapped_id (sub : Sub.Subscription) (e : Ext.Element) : option Z :=
  if (Ext.id e =? Sub.pub_mid sub)
     || bool_decide (length (ext_ids (Sub.ext_map sub)) ≤ Z.to_nat (Ext.id e))%nat
     || bool_decide (Ext.MAX_ONE_BYTE_LEN < length (Ext.data e))%nat then None
  else match ext_ids (Sub.ext_map sub) !! Z.to_nat (Ext.id e) with
       | None => None
       | Some to => if (to =? 0) || bool_decide (length (Ext.data e) = 0%nat) then None else Some to
       end.

Fixpoint write_elements (sub : Sub.Subscription) (es : list Ext.Element) (end_ : nat)
  : st (list Z) RewriteError nat :=
  match es with
  | [] => mret end_
  | e :: es =>
    match mapped_id sub e with
    | None => write_elements sub es end_
    | Some to => end_ ← write_element end_ to (Ext.data e); write_elements sub es end_
    end
  end.

(** [dst[a..b].fill(0)] *)
Definition fill (a b : nat) : st (list Z) RewriteError () := fun dst =>
  match slice (E:=()) a b dst with
  | Ok _ => Ok ((), splice a (replicate (b - a) 0) dst)
  | _ => Panic
  end.

Definition write_at (at_ : nat) (src : list Z) : st (list Z) RewriteError () :=
  dst ← get; dst ← lift (copy_at at_ src dst); put dst.

(** Pads the block and writes its header; nothing when it has no element. *)
Definition finish_block (at_ end_ : nat) : st (list Z) RewriteError nat :=
  let block := (at_ + 4)%nat in
  if bool_decide (end_ = block) then mret at_ else
  let padded := (block + round_up4 (end_ - block))%nat in
  dst ← get;
  if bool_decide (length dst < padded)%nat then throw TooLarge else
  fill end_ padded;;
  write_at at_ (to_be 2 0xBEDE);;
  write_at (at_ + 2) (to_be 2 (wrap 16 (Z.of_nat ((padded - block) / 4)%nat)));;
  mret padded.

Definition write_extensions (src : list Z) (hdr : RtpHeader.RtpHeader) (sub : Sub.Subscription) (at_ : nat)
  : st (list Z) RewriteError nat :=
  let block := (at_ + 4)%nat in
  es ← lift (Ext.elements src hdr);
  end_ ← write_elements sub es block;
  end_ ← (if map_mid (Sub.ext_map sub) =? 0 then mret end_
          else write_element end_ (map_mid (Sub.ext_map sub)) (Sub.mid sub));
  finish_block at_ end_.

(** The offsets for a packet: random for the first, rebased after a gap or a
    pause, else the current ones. Returns the generator's next state. *)
Definition offsets (state : Sub.RewriteState) (hdr : RtpHeader.RtpHeader) (clock_rate rng now : Z)
  : Z * Z * bool * Z :=
  if negb (Sub.started state) then
    let '(r, rng) := Rng.next_u64 rng in
    let seq_offset := wrapping_sub 16 (wrap 16 r) (RtpHeader.sequence_number hdr) in
    let ts_offset := wrapping_sub 32 (wrap 32 (Z.shiftr r 32)) (RtpHeader.timestamp hdr) in
    (seq_offset, ts_offset, false, rng)
  else
    let delta := as_i16 (wrapping_sub 16 (RtpHeader.sequence_number hdr) (Sub.last_in_seq state)) in
    let idle := match Sub.last_out_at state with
                | Some at_ => saturating_sub now at_ >=? REBASE_IDLE
                | None => false
                end in
    let in_step := (- REORDER_LIMIT <=? delta) && (delta <=? REBASE_GAP) in
    if in_step && negb idle then (Sub.seq_offset state, Sub.ts_offset state, false, rng)
    else
      let elapsed := match Sub.last_out_at state with
                     | Some at_ => as_millis (saturating_sub now at_)
                     | None => 0
                     end in
      let step := saturating_mul 64 (wrap 64 elapsed) clock_rate / 1000 in
      let seq_offset := wrapping_sub 16 (wrapping_add 16 (Sub.last_out_seq state) 1)
                          (RtpHeader.sequence_number hdr) in
      let ts_offset := wrapping_sub 32 (wrapping_add 32 (Sub.last_out_ts state) (wrap 32 (Z.max step 1)))
                         (RtpHeader.timestamp hdr) in
      (seq_offset, ts_offset, true, rng).

(** Rewrites [src] for [sub] into the buffer; the length and the state to
    commit. The state is the generator and the buffer. *)
Definition rewrite (src : list Z) (hdr : RtpHeader.RtpHeader) (sub : Sub.Subscription) (now : Z)
  : st (Z * list Z) RewriteError (nat * Advance) :=
  let on_dst {A} (m : st (list Z) RewriteError A) : st (Z * list Z) RewriteError A :=
    zoom snd (fun d s => (s.1, d)) m in
  lift (assert_ (bool_decide (Z.to_nat (RtpHeader.header_len_bytes hdr) ≤ length src)%nat));; (* debug_assert! *)
  pt ← lift (of_option UnmappedPt (PtMap.lookup (Sub.pt_map sub) (RtpHeader.payload_type hdr)));
  let csrc_end := (12 + 4 * Z.to_nat (RtpHeader.csrc_count hdr))%nat in
  '(_, dst) ← get;
  if bool_decide (length dst < csrc_end)%nat then throw TooLarge else
  csrcs ← lift (slice 12 csrc_end src);
  on_dst (write_at 12 csrcs);;
  header_end ← on_dst (write_extensions src hdr sub csrc_end);
  payload ← lift (slice (Z.to_nat (RtpHeader.header_len_bytes hdr)) (length src) src);
  let out_len := (header_end + length payload)%nat in
  '(_, dst) ← get;
  if bool_decide (length dst < out_len)%nat then throw TooLarge else
  on_dst (write_at header_end payload);;
  '(rng, dst) ← get;
  let '(seq_offset, ts_offset, rebased, rng) :=
    offsets (Sub.rewrite sub) hdr (Sub.clock_rate sub) rng now in
  put (rng, dst);;
  let seq := wrapping_add 16 (RtpHeader.sequence_number hdr) seq_offset in
  let ts := wrapping_add 32 (RtpHeader.timestamp hdr) ts_offset in
  let x := if bool_decide (csrc_end < header_end)%nat then 0x10 else 0 in
  src0 ← lift (idx src 0);
  src1 ← lift (idx src 1);
  dst ← lift (set_at 0 (Z.lor (Z.lor (Z.lor 0x80 (Z.land src0 0x20)) x) (RtpHeader.csrc_count hdr)) dst);
  dst ← lift (set_at 1 (Z.lor (Z.land src1 0x80) pt) dst);
  put (rng, dst);;
  on_dst (write_at 2 (to_be 2 seq));;
  on_dst (write_at 4 (to_be 4 ts));;
  on_dst (write_at 8 (to_be 4 (Sub.out_ssrc (Sub.rewrite sub))));;
  mret (out_len, mkAdvance seq_offset ts_offset (RtpHeader.sequence_number hdr) seq ts rebased).

(** Applies the state of a packet that was protected and queued. *)
Definition commit {E} (state : Sub.RewriteState) (a : Advance) (now : Z) : outcome E Sub.RewriteState :=
  let newer := negb (Sub.started state) || rebased a
               || (as_i16 (wrapping_sub 16 (out_seq a) (Sub.last_out_seq state)) >? 0) in
  let state' :=
    if newer
    then Sub.mkRewrite (Sub.out_ssrc state) (adv_seq_offset a) (adv_ts_offset a) true (out_seq a) (out_ts a)
           (Some now) (in_seq a) (Sub.layer state)
    else Sub.mkRewrite (Sub.out_ssrc state) (adv_seq_offset a) (adv_ts_offset a) true
           (Sub.last_out_seq state) (Sub.last_out_ts state) (Sub.last_out_at state)
           (Sub.last_in_seq state) (Sub.layer state) in
  assert_ (match Sub.last_out_at state' with Some _ => true | None => false end);; (* debug_assert! *)
  Ok state'.

End Rewrite.
