(* ===== verification/RewriteProofs.v ===== *)
(** * Theorems about the packet rewrite

    The rewrite never panics; the packet it writes parses to the header it
    should have, with the publisher's payload, CSRCs, marker and padding, the
    subscriber's payload type and SSRC, and the mapped extension elements;
    the offsets keep sequence numbers continuous. *)

From S2P Require Import Prelude Replay RocIndex RtpHeader Direction Outbound Cipher CipherProofs Keys SrtpWitness Slab Model Rewrite.

(** ** Writes next to each other *)

Lemma splice_after (a : nat) (x y p : list Z) : (a + length x + length y ≤ length p)%nat →
  splice (a + length x) y (splice a x p) = splice a (x ++ y) p.
Proof.
  intros Hl. apply list_eq. intros i. rewrite !lookup_splice; rewrite ?length_splice, ?length_app; try lia.
  repeat case_decide; try lia; try done.
  - rewrite lookup_app_r by lia. f_equal. lia.
  - rewrite lookup_app_l by lia. done.
Qed.

Lemma splice_before (a : nat) (x y p : list Z) : (a + length x + length y ≤ length p)%nat →
  splice a x (splice (a + length x) y p) = splice a (x ++ y) p.
Proof.
  intros Hl. apply list_eq. intros i. rewrite !lookup_splice; rewrite ?length_splice, ?length_app; try lia.
  repeat case_decide; try lia; try done.
  - rewrite lookup_app_l by lia. done.
  - rewrite lookup_app_r by lia. f_equal. lia.
Qed.

Lemma splice_nil (a : nat) (p : list Z) : splice a [] p = p.
Proof. unfold splice. cbn. rewrite Nat.add_0_r. apply take_drop. Qed.

Module RewriteProofs.
Import Rewrite.

(** ** The bytes of the extension block *)

Definition encode (to : Z) (d : list Z) : list Z :=
  Z.lor (wrap 8 (Z.shiftl to 4)) (wrap 8 (Z.of_nat (length d)) - 1) :: d.

Definition element_ok (to : Z) (d : list Z) : Prop :=
  1 ≤ to ≤ 14 ∧ (1 ≤ length d ≤ 16)%nat ∧ bytes d.

Lemma length_encode to d : length (encode to d) = (1 + length d)%nat.
Proof. done. Qed.

Lemma write_element_spec at_ to d dst : element_ok to d → 
  write_element at_ to d dst =
    if bool_decide (length dst < at_ + length (encode to d))%nat then Err (TooLarge, dst)
    else Ok ((at_ + length (encode to d))%nat, splice at_ (encode to d) dst).
Proof.
  intros (Hto & Hd & _). unfold write_element. run_st. unfold Ext.MAX_ONE_BYTE_LEN.
  replace ((1 <=? to) && (to <=? 14) && bool_decide (1 ≤ length d ∧ length d ≤ 16)%nat) with true.
  2: { rewrite bool_decide_eq_true_2 by lia. destruct (Z.leb_spec 1 to), (Z.leb_spec to 14); cbn; lia. }
  rewrite length_encode. replace (at_ + 1 + length d)%nat with (at_ + (1 + length d))%nat by lia.
  case_bool_decide; [done|]. unfold set_at. rewrite decide_True by lia.
  unfold copy_at. rewrite decide_True by (rewrite length_insert; lia).
  do 2 f_equal. unfold encode. set (b := Z.lor _ _).
  replace (<[at_ := b]> dst) with (splice at_ [b] dst).
  - rewrite (splice_after at_ [b]) by (cbn; lia). done.
  - apply list_eq. intros i. rewrite lookup_splice by (cbn; lia). cbn [length].
    destruct (decide (i = at_)) as [->|Hne].
    + rewrite decide_True by lia. rewrite list_lookup_insert_eq by lia. by rewrite Nat.sub_diag.
    + rewrite decide_False by lia. by rewrite list_lookup_insert_ne.
Qed.

(** The elements written for a subscription, with their new ids. *)
Definition mapped (sub : Sub.Subscription) (es : list Ext.Element) : list (Z * list Z) :=
  omap (fun e => (fun to => (to, Ext.data e)) <$> mapped_id sub e) es.

Lemma mapped_cons sub e es :
  mapped sub (e :: es) =
    match mapped_id sub e with Some to => (to, Ext.data e) :: mapped sub es | None => mapped sub es end.
Proof. unfold mapped. cbn. by destruct (mapped_id sub e). Qed.

Definition encode_all (l : list (Z * list Z)) : list Z := l ≫= fun p => encode p.1 p.2.

(** Elements either all fit behind [at_], or the write fails. *)
Definition fits (at_ : nat) (l : list (Z * list Z)) (dst : list Z) : Prop :=
  l = [] ∨ (at_ + length (encode_all l) ≤ length dst)%nat.

#[export] Instance fits_dec at_ l dst : Decision (fits at_ l dst).
Proof.
  destruct l as [|p l]; [left; by left|].
  destruct (decide (at_ + length (encode_all (p :: l)) ≤ length dst)%nat); [left; by right|right].
  by intros [?|?].
Defined.

Lemma encode_all_cons p l : encode_all (p :: l) = encode p.1 p.2 ++ encode_all l.
Proof. done. Qed.

Lemma write_elements_spec sub es : ∀ at_ dst,
  Forall (fun p => element_ok p.1 p.2) (mapped sub es) →
  if decide (fits at_ (mapped sub es) dst)
  then write_elements sub es at_ dst =
         Ok ((at_ + length (encode_all (mapped sub es)))%nat, splice at_ (encode_all (mapped sub es)) dst)
  else ∃ dst', write_elements sub es at_ dst = Err (TooLarge, dst') ∧ length dst' = length dst.
Proof.
  induction es as [|e es IH]; intros at_ dst Hok.
  { rewrite decide_True by (by left). cbn. by rewrite splice_nil, Nat.add_0_r. }
  cbn [write_elements]. rewrite mapped_cons in *.
  destruct (mapped_id sub e) as [to|]; [|by apply IH].
  apply Forall_cons in Hok as [He Hok]. cbn [fst snd] in He.
  unfold mbind, st_bind. rewrite write_element_spec by done. rewrite encode_all_cons, length_app. cbn [fst snd].
  set (x := encode to (Ext.data e)) in *.
  destruct (decide (length dst < at_ + length x)%nat) as [Hbig|Hfit].
  - rewrite bool_decide_eq_true_2 by done. rewrite decide_False; [eauto|].
    intros [?|Hf]; [done|]. rewrite encode_all_cons, length_app in Hf. cbn [fst snd] in Hf. fold x in Hf. lia.
  - rewrite (bool_decide_eq_false_2 (length dst < at_ + length x)%nat) by done.
    specialize (IH (at_ + length x)%nat (splice at_ x dst) Hok).
    destruct (decide (fits (at_ + length x) (mapped sub es) (splice at_ x dst))) as [Hf|Hf].
    + rewrite decide_True.
      * rewrite IH, Nat.add_assoc. destruct Hf as [->|Hf]; [by rewrite splice_nil, app_nil_r|].
        rewrite length_splice in Hf by lia. by rewrite splice_after by lia.
      * right. rewrite encode_all_cons, length_app. cbn [fst snd]. fold x. destruct Hf as [->|Hf].
        { change (encode_all []) with (@nil Z). cbn [length]. lia. }
        rewrite length_splice in Hf by lia. lia.
    + rewrite decide_False.
      * destruct IH as (dst' & -> & Hl). exists dst'. by rewrite Hl, length_splice by lia.
      * intros [?|Hf']; [done|]. rewrite encode_all_cons, length_app in Hf'. cbn [fst snd] in Hf'. fold x in Hf'.
        apply Hf. right. rewrite length_splice by lia. lia.
Qed.

Definition out_elements (sub : Sub.Subscription) (es : list Ext.Element) : list (Z * list Z) :=
  mapped sub es ++
  (if map_mid (Sub.ext_map sub) =? 0 then [] else [(map_mid (Sub.ext_map sub), Sub.mid sub)]).

(** The extension block of the output. *)
Definition ext_block (l : list (Z * list Z)) : list Z :=
  match l with
  | [] => []
  | _ => let b := encode_all l in
         to_be 2 0xBEDE ++ to_be 2 (wrap 16 (Z.of_nat (round_up4 (length b) / 4)%nat)) ++
         b ++ replicate (round_up4 (length b) - length b) 0
  end.

Lemma encode_all_app l l' : encode_all (l ++ l') = encode_all l ++ encode_all l'.
Proof. apply bind_app. Qed.

Lemma encode_all_nil l : length (encode_all l) = 0%nat → l = [].
Proof. destruct l as [|p l]; [done|]. cbn. lia. Qed.

Lemma length_ext_block l : l ≠ [] → length (ext_block l) = (4 + round_up4 (length (encode_all l)))%nat.
Proof.
  intros Hl. destruct l as [|p l]; [done|]. unfold ext_block. cbv zeta.
  set (b := encode_all _). rewrite !length_app, !length_to_be, length_replicate.
  pose proof (round_up4_spec (length b)). lia.
Qed.

Lemma fill_run a b dst : (a ≤ b)%nat → (b ≤ length dst)%nat →
  fill a b dst = Ok ((), splice a (replicate (b - a) 0) dst).
Proof. intros. unfold fill, slice. by rewrite decide_True. Qed.

Lemma write_at_run at_ src dst : (at_ + length src ≤ length dst)%nat →
  write_at at_ src dst = Ok ((), splice at_ src dst).
Proof. intros. unfold write_at. run_st. unfold copy_at. by rewrite decide_True. Qed.

(** The elements and the [mid] element, before padding. *)
Lemma write_all_elements_spec sub es at_ dst :
  Forall (fun p => element_ok p.1 p.2) (out_elements sub es) →
  if decide (fits at_ (out_elements sub es) dst)
  then (end_ ← write_elements sub es at_;
        (if map_mid (Sub.ext_map sub) =? 0 then mret end_
         else write_element end_ (map_mid (Sub.ext_map sub)) (Sub.mid sub))) dst =
         Ok ((at_ + length (encode_all (out_elements sub es)))%nat,
             splice at_ (encode_all (out_elements sub es)) dst)
  else ∃ dst', (end_ ← write_elements sub es at_;
        (if map_mid (Sub.ext_map sub) =? 0 then mret end_
         else write_element end_ (map_mid (Sub.ext_map sub)) (Sub.mid sub))) dst =
         Err (TooLarge, dst') ∧ length dst' = length dst.
Proof.
  unfold out_elements. intros [Hm Hmid]%Forall_app.
  pose proof (write_elements_spec sub es at_ dst Hm) as Hw. unfold mbind, st_bind.
  set (l := mapped sub es) in *. destruct (Z.eqb_spec (map_mid (Sub.ext_map sub)) 0) as [Hz|Hz].
  - rewrite app_nil_r. destruct (decide (fits at_ l dst)); [by rewrite Hw|].
    destruct Hw as (dst' & -> & ?). eauto.
  - apply Forall_inv in Hmid. cbn [fst snd] in Hmid. set (x := encode (map_mid (Sub.ext_map sub)) (Sub.mid sub)).
    assert (Hx : encode_all (l ++ [(map_mid (Sub.ext_map sub), Sub.mid sub)]) = encode_all l ++ x).
    { rewrite encode_all_app. unfold encode_all at 2. cbn. by rewrite app_nil_r. }
    destruct (decide (fits at_ l dst)) as [Hf|Hf].
    + rewrite Hw, write_element_spec by done. fold x.
      assert (Hls : length (splice at_ (encode_all l) dst) = length dst).
      { destruct Hf as [->|Hf]; [by rewrite splice_nil|by rewrite length_splice]. }
      rewrite Hls. case_bool_decide as Hb.
      * rewrite decide_False; [eauto|]. intros [Hn|Hf']; [by destruct l|].
        rewrite Hx, length_app in Hf'. lia.
      * rewrite decide_True.
        -- rewrite Hx, length_app, Nat.add_assoc. by rewrite splice_after by lia.
        -- right. rewrite Hx, length_app. lia.
    + destruct Hw as (dst' & -> & Hl). rewrite decide_False; [eauto|].
      intros [Hn|Hf']; [by destruct l|]. apply Hf. right. rewrite Hx, length_app in Hf'. lia.
Qed.

Definition block_fits (at_ : nat) (l : list (Z * list Z)) (dst : list Z) : Prop :=
  l = [] ∨ (at_ + length (ext_block l) ≤ length dst)%nat.

#[export] Instance block_fits_dec at_ l dst : Decision (block_fits at_ l dst).
Proof.
  destruct l as [|p l]; [left; by left|].
  destruct (decide (at_ + length (ext_block (p :: l)) ≤ length dst)%nat); [left; by right|right].
  by intros [?|?].
Defined.

Lemma finish_block_spec at_ dst l :
  let b := encode_all l in
  fits (at_ + 4) l dst →
  if decide (block_fits at_ l dst)
  then finish_block at_ (at_ + 4 + length b) (splice (at_ + 4) b dst) =
         Ok ((at_ + length (ext_block l))%nat, splice at_ (ext_block l) dst)
  else ∃ dst', finish_block at_ (at_ + 4 + length b) (splice (at_ + 4) b dst) = Err (TooLarge, dst') ∧
         length dst' = length dst.
Proof.
  intros b Hf. unfold finish_block. destruct (decide (l = [])) as [Hl0|Hl0].
  { unfold b. rewrite decide_True by (by left). rewrite Hl0. cbn [encode_all length mbind list_bind ext_block].
    rewrite bool_decide_eq_true_2 by (cbn; lia). unfold mret, st_ret. by rewrite !splice_nil, Nat.add_0_r. }
  destruct Hf as [?|Hf]; [done|]. fold b in Hf.
  assert (Hbpos : (0 < length b)%nat).
  { destruct (decide (length b = 0)%nat) as [Hz|]; [|lia]. by apply encode_all_nil in Hz. }
  rewrite bool_decide_eq_false_2 by lia. replace (at_ + 4 + length b - (at_ + 4))%nat with (length b) by lia.
  pose proof (round_up4_spec (length b)) as [Hr _]. unfold mbind, st_bind, get. rewrite length_splice by lia.
  pose proof (length_ext_block l Hl0) as Hlb. fold b in Hlb.
  case_bool_decide as Hbig.
  { rewrite decide_False; [eexists; split; [done|by rewrite length_splice by lia]|].
    intros [?|Hbf]; [done|lia]. }
  rewrite decide_True by (right; lia).
  rewrite fill_run by (rewrite ?length_splice; lia).
  rewrite splice_after by (rewrite length_replicate; lia).
  replace (at_ + 4 + round_up4 (length b) - (at_ + 4 + length b))%nat
    with (round_up4 (length b) - length b)%nat by lia.
  replace (at_ + 4 + round_up4 (length b) - (at_ + 4))%nat with (round_up4 (length b)) by lia.
  set (pad := replicate _ 0). assert (Hpad : length pad = (round_up4 (length b) - length b)%nat).
  { apply length_replicate. }
  set (h1 := to_be 2 0xBEDE). set (h2 := to_be 2 (wrap 16 _)).
  assert (Hh1 : length h1 = 2%nat) by apply length_to_be. assert (Hh2 : length h2 = 2%nat) by apply length_to_be.
  assert (Hbp : length (b ++ pad) = round_up4 (length b)) by (rewrite length_app; lia).
  rewrite write_at_run by (rewrite length_splice; lia).
  rewrite write_at_run by (rewrite !length_splice; rewrite ?length_splice; lia).
  unfold mret, st_ret. f_equal. f_equal; [lia|].
  replace (at_ + 2)%nat with (at_ + length h1)%nat by lia.
  rewrite splice_after by (rewrite length_splice; lia).
  replace (at_ + 4)%nat with (at_ + length (h1 ++ h2))%nat by (rewrite length_app; lia).
  rewrite splice_before by (rewrite length_app; lia). rewrite <- app_assoc. f_equal.
  unfold ext_block. destruct l; done.
Qed.

Lemma block_fits_fits at_ l dst : block_fits at_ l dst → fits (at_ + 4) l dst.
Proof.
  intros [->|Hb]; [by left|]. destruct (decide (l = [])) as [->|Hl]; [by left|]. right.
  rewrite length_ext_block in Hb by done. pose proof (round_up4_spec (length (encode_all l))). lia.
Qed.

Lemma write_extensions_spec src hdr sub at_ dst es :
  Ext.elements (E:=RewriteError) src hdr = Ok es →
  Forall (fun p => element_ok p.1 p.2) (out_elements sub es) →
  if decide (block_fits at_ (out_elements sub es) dst)
  then write_extensions src hdr sub at_ dst =
         Ok ((at_ + length (ext_block (out_elements sub es)))%nat,
             splice at_ (ext_block (out_elements sub es)) dst)
  else ∃ dst', write_extensions src hdr sub at_ dst = Err (TooLarge, dst') ∧ length dst' = length dst.
Proof.
  intros Hes Hok.
  assert (Heq : write_extensions src hdr sub at_ dst =
    match (end_ ← write_elements sub es (at_ + 4);
           (if map_mid (Sub.ext_map sub) =? 0 then mret end_
            else write_element end_ (map_mid (Sub.ext_map sub)) (Sub.mid sub))) dst with
    | Ok (e, d) => finish_block at_ e d
    | Err x => Err x
    | Panic => Panic
    end).
  { unfold write_extensions. unfold mbind, st_bind, lift. rewrite Hes.
    destruct (write_elements sub es (at_ + 4) dst) as [[e1 d1]|[e1 d1]|]; [|done|done].
    destruct (_ =? 0); [done|]. by destruct (write_element _ _ _ _) as [[? ?]|[? ?]|]. }
  rewrite Heq. clear Heq.
  pose proof (write_all_elements_spec sub es (at_ + 4) dst Hok) as Hw.
  destruct (decide (fits (at_ + 4) (out_elements sub es) dst)) as [Hf|Hf].
  - rewrite Hw. apply (finish_block_spec at_ dst (out_elements sub es) Hf).
  - destruct Hw as (d & -> & Hl). rewrite decide_False; [eauto|].
    intros Hb. by apply Hf, block_fits_fits.
Qed.

(** Lengths of buffers after writes. *)
Ltac len :=
  repeat first [rewrite length_insert | rewrite length_to_be | rewrite length_splice by len]; lia.

(** ** The packet that is written *)

Definition csrc_end (hdr : RtpHeader.RtpHeader) : nat := (12 + 4 * Z.to_nat (RtpHeader.csrc_count hdr))%nat.
Definition payload (src : list Z) (hdr : RtpHeader.RtpHeader) : list Z :=
  drop (Z.to_nat (RtpHeader.header_len_bytes hdr)) src.

Definition advance_of (sub : Sub.Subscription) (hdr : RtpHeader.RtpHeader) (rng now : Z) : Advance :=
  let '(so, to, rb, _) := offsets (Sub.rewrite sub) hdr (Sub.clock_rate sub) rng now in
  mkAdvance so to (RtpHeader.sequence_number hdr)
    (wrapping_add 16 (RtpHeader.sequence_number hdr) so) (wrapping_add 32 (RtpHeader.timestamp hdr) to) rb.

Definition rng_after (sub : Sub.Subscription) (hdr : RtpHeader.RtpHeader) (rng now : Z) : Z :=
  (offsets (Sub.rewrite sub) hdr (Sub.clock_rate sub) rng now).2.

Definition fixed_header (src0 src1 x cc pt : Z) (a : Advance) (ssrc : Z) : list Z :=
  [Z.lor (Z.lor (Z.lor 0x80 (Z.land src0 0x20)) x) cc; Z.lor (Z.land src1 0x80) pt] ++
  to_be 2 (out_seq a) ++ to_be 4 (out_ts a) ++ to_be 4 ssrc.

Definition out_packet (src : list Z) (hdr : RtpHeader.RtpHeader) (sub : Sub.Subscription)
    (es : list Ext.Element) (src0 src1 pt : Z) (a : Advance) : list Z :=
  let l := out_elements sub es in
  fixed_header src0 src1 (if bool_decide (l = []) then 0 else 0x10) (RtpHeader.csrc_count hdr) pt a
    (Sub.out_ssrc (Sub.rewrite sub)) ++
  sub_list 12 (csrc_end hdr) src ++ ext_block l ++ payload src hdr.

Lemma insert_splice (i : nat) (b : Z) (dst : list Z) : (i < length dst)%nat →
  <[i := b]> dst = splice i [b] dst.
Proof.
  intros Hi. apply list_eq. intros j. rewrite lookup_splice by (cbn; lia). cbn [length].
  destruct (decide (j = i)) as [->|Hne].
  - rewrite decide_True by lia. rewrite list_lookup_insert_eq by lia. by rewrite Nat.sub_diag.
  - rewrite decide_False by lia. by rewrite list_lookup_insert_ne.
Qed.

(** The fixed header, field by field, over the rest of the packet. *)
Lemma fixed_writes b0 b1 s t x (d : list Z) : (12 ≤ length d)%nat →
  length s = 2%nat → length t = 4%nat → length x = 4%nat →
  splice 8 x (splice 4 t (splice 2 s (<[1%nat := b1]> (<[0%nat := b0]> d)))) =
  splice 0 ([b0; b1] ++ s ++ t ++ x) d.
Proof.
  intros Hd Hs Ht Hx. rewrite !insert_splice by (rewrite ?length_insert; lia).
  assert (Hafter : ∀ n y z, length y = n → (n + length z ≤ length d)%nat →
            splice n z (splice 0 y d) = splice 0 (y ++ z) d).
  { intros n y z <- Hl. by apply (splice_after 0). }
  rewrite (Hafter 1%nat [b0]) by (cbn; lia). rewrite (Hafter 2%nat) by (cbn; lia).
  rewrite (Hafter 4%nat) by (rewrite ?length_app; cbn; lia).
  rewrite (Hafter 8%nat) by (rewrite ?length_app; cbn; lia).
  by rewrite <- !app_assoc.
Qed.

Lemma rewrite_spec src hdr sub now rng dst es pt src0 src1 :
  (csrc_end hdr ≤ Z.to_nat (RtpHeader.header_len_bytes hdr) ≤ length src)%nat →
  src !! 0%nat = Some src0 → src !! 1%nat = Some src1 →
  Ext.elements (E:=RewriteError) src hdr = Ok es →
  Forall (fun p => element_ok p.1 p.2) (out_elements sub es) →
  PtMap.lookup (Sub.pt_map sub) (RtpHeader.payload_type hdr) = Some pt →
  let a := advance_of sub hdr rng now in
  let packet := out_packet src hdr sub es src0 src1 pt a in
  if decide (length packet ≤ length dst)%nat
  then rewrite src hdr sub now (rng, dst) =
         Ok ((length packet, a), (rng_after sub hdr rng now, splice 0 packet dst))
  else ∃ dst', rewrite src hdr sub now (rng, dst) = Err (TooLarge, (rng, dst')) ∧ length dst' = length dst.
Proof.
  intros Hh H0 H1 Hes Hok Hpt a packet. set (l := out_elements sub es) in *.
  set (cs := sub_list 12 (csrc_end hdr) src).
  assert (Hcs : length cs = (csrc_end hdr - 12)%nat) by (apply length_sub_list; lia).
  assert (Hce : (12 ≤ csrc_end hdr)%nat) by (unfold csrc_end; lia).
  assert (Hplen : length packet = (csrc_end hdr + length (ext_block l) + length (payload src hdr))%nat).
  { unfold packet, out_packet, fixed_header. fold l cs. rewrite !length_app, !length_to_be, Hcs. cbn [length]. lia. }
  assert (Hpay : slice (E:=RewriteError) (Z.to_nat (RtpHeader.header_len_bytes hdr)) (length src) src
                 = Ok (payload src hdr)).
  { unfold slice. rewrite decide_True by lia. f_equal. unfold sub_list, payload.
    apply firstn_all2. rewrite length_drop. lia. }
  set (good := Ok ((length packet, a), (rng_after sub hdr rng now, splice 0 packet dst))).
  set (P := fun r => if decide (length packet ≤ length dst)%nat then r = good
    else ∃ dst', r = Err (TooLarge, (rng, dst')) ∧ length dst' = length dst).
  assert (Hbad : ∀ d, (length dst < length packet)%nat → length d = length dst → P (Err (TooLarge, (rng, d)))).
  { intros d Hlt Hd. unfold P. rewrite decide_False by lia. eauto. }
  change (P (rewrite src hdr sub now (rng, dst))).
  unfold rewrite. fold (csrc_end hdr). run_st. rewrite bool_decide_eq_true_2 by lia. rewrite Hpt.
  cbn [of_option]. case_bool_decide as Hroom; [apply Hbad; lia|].
  unfold slice at 1. rewrite decide_True by lia. fold cs. unfold zoom at 1. cbn [snd fst].
  rewrite write_at_run by lia. unfold zoom at 1. cbn [snd fst].
  set (d1 := splice 12 cs dst). assert (Hd1 : length d1 = length dst) by (apply length_splice; lia).
  pose proof (write_extensions_spec src hdr sub (csrc_end hdr) d1 es Hes Hok) as Hw. fold l in Hw.
  destruct (decide (block_fits (csrc_end hdr) l d1)) as [Hbf|Hbf].
  2: { destruct Hw as (d & -> & Hd). apply Hbad; [|lia].
       destruct (decide (length packet ≤ length dst)%nat); [|lia]. destruct Hbf. right. rewrite Hd1. lia. }
  rewrite Hw, Hpay. cbn [snd fst]. set (d2 := splice (csrc_end hdr) (ext_block l) d1).
  assert (Hfit : (csrc_end hdr + length (ext_block l) ≤ length dst)%nat).
  { destruct Hbf as [Hl|Hbf]; [rewrite Hl; cbn [ext_block length]; lia|by rewrite Hd1 in Hbf]. }
  assert (Hd2 : length d2 = length dst) by (unfold d2; rewrite length_splice; lia).
  rewrite Hd2. case_bool_decide as Hbig; [apply Hbad; lia|]. unfold zoom at 1. cbn [snd fst]. rewrite write_at_run by lia. cbn [snd fst].
  set (d3 := splice _ (payload src hdr) d2). assert (Hd3 : length d3 = length dst).
  { unfold d3. rewrite length_splice; lia. }
  assert (Hd3' : d3 = splice 12 (cs ++ ext_block l ++ payload src hdr) dst).
  { unfold d3, d2, d1. replace (csrc_end hdr) with (12 + length cs)%nat by lia.
    rewrite (splice_after 12 cs) by lia. replace (12 + length cs + length (ext_block l))%nat
      with (12 + length (cs ++ ext_block l))%nat by (rewrite length_app; lia).
    rewrite splice_after by (rewrite length_app; lia). by rewrite <- app_assoc. }
  unfold a, advance_of, rng_after in *.
  destruct (offsets _ _ _ _ _) as [[[so to] rb] rng'] eqn:Hoff. cbn [snd fst] in *.
  unfold idx. rewrite H0, H1. cbn [expect]. unfold set_at.
  rewrite !decide_True by (rewrite ?length_insert; lia). unfold zoom. cbn [snd fst].
  do 3 (rewrite write_at_run by len; cbn [snd fst]).
  rewrite fixed_writes by (rewrite ?length_to_be; lia).
  replace (bool_decide (csrc_end hdr < csrc_end hdr + length (ext_block l))%nat) with (negb (bool_decide (l = []))).
  2: { destruct (decide (l = [])) as [->|Hl]; [cbn; symmetry; apply bool_decide_eq_false_2; lia|].
       rewrite (bool_decide_eq_false_2 (l = [])) by done. cbn. symmetry. apply bool_decide_eq_true_2.
       rewrite length_ext_block by done. lia. }
  unfold P. rewrite decide_True by lia. unfold good.
  f_equal. f_equal; [f_equal; lia|]. f_equal. unfold packet, out_packet, fixed_header. cbn [out_seq out_ts].
  fold l cs. set (fx := [_; _] ++ _). rewrite Hd3'.
  assert (Hfx : length fx = 12%nat) by (unfold fx; rewrite !length_app, !length_to_be; done).
  rewrite <- Hfx at 1. rewrite (splice_before 0) by (rewrite !length_app; lia).
  f_equal. f_equal. unfold fx. destruct (bool_decide (l = [])); done.
Qed.

(** ** Reading the packet back *)

Lemma read_be_app_l {E} n a (x y : list Z) : (a + n ≤ length x)%nat →
  read_be (E:=E) n a (x ++ y) = read_be n a x.
Proof.
  intros Hl. rewrite !read_be_ok by (rewrite ?length_app; lia). do 2 f_equal. apply list_eq. intros i.
  rewrite !lookup_sub_list. case_decide; [|done]. by rewrite lookup_app_l by lia.
Qed.

Lemma read_be_app_r {E} n a (x y : list Z) : (length x ≤ a)%nat → (a + n ≤ length (x ++ y))%nat →
  read_be (E:=E) n a (x ++ y) = read_be n (a - length x) y.
Proof.
  intros Hx Hl. rewrite length_app in Hl. rewrite !read_be_ok by (rewrite ?length_app; lia).
  do 2 f_equal. apply list_eq. intros i.
  rewrite !lookup_sub_list. replace (a - length x + n - (a - length x))%nat with (a + n - a)%nat by lia.
  case_decide; [|done]. rewrite lookup_app_r by lia. f_equal. lia.
Qed.

Lemma read_be_to_be {E} n x y : in_range (8 * Z.of_nat n) x → read_be (E:=E) n 0 (to_be n x ++ y) = Ok x.
Proof.
  intros Hx. rewrite read_be_app_l by (rewrite length_to_be; lia). rewrite read_be_ok by (rewrite length_to_be; lia).
  cbn [Nat.add]. rewrite <- (length_to_be n x) at 1. by rewrite sub_list_full, of_be_to_be.
Qed.

Lemma first_byte_out b x : is_u8 b → x = 0 ∨ x = 0x10 →
  let b0 := Z.lor (Z.lor (Z.lor 0x80 (Z.land b 0x20)) x) (Z.land b 15) in
  Z.land (Z.shiftr b0 6) 3 = 2 ∧ Z.land b0 15 = Z.land b 15 ∧
  Z.land (Z.shiftr b0 5) 1 = Z.land (Z.shiftr b 5) 1 ∧ Z.land (Z.shiftr b0 4) 1 = (if x =? 0 then 0 else 1).
Proof.
  intros Hb Hx b0.
  assert (H : forallb (fun x => forallb (fun b =>
      let b0 := Z.lor (Z.lor (Z.lor 0x80 (Z.land b 0x20)) x) (Z.land b 15) in
      (Z.land (Z.shiftr b0 6) 3 =? 2) && (Z.land b0 15 =? Z.land b 15) &&
      (Z.land (Z.shiftr b0 5) 1 =? Z.land (Z.shiftr b 5) 1) &&
      (Z.land (Z.shiftr b0 4) 1 =? (if x =? 0 then 0 else 1))) (seqZ 0 256)) [0; 0x10] = true)
    by (vm_compute; reflexivity).
  rewrite forallb_forall in H. specialize (H x ltac:(destruct Hx; subst; cbn; auto)).
  pose proof (byte_forall _ H b Hb) as Hf. cbv beta zeta in Hf. fold b0 in Hf. simplify_tests. split_and!; done.
Qed.

Lemma second_byte_out b p : is_u8 b → 0 ≤ p < 128 →
  let b1 := Z.lor (Z.land b 0x80) p in
  Z.land b1 127 = p ∧ Z.land (Z.shiftr b1 7) 1 = Z.land (Z.shiftr b 7) 1.
Proof.
  intros Hb Hp b1.
  assert (H : forallb (fun p => implb (p <? 128) (forallb (fun b =>
      let b1 := Z.lor (Z.land b 0x80) p in
      (Z.land b1 127 =? p) && (Z.land (Z.shiftr b1 7) 1 =? Z.land (Z.shiftr b 7) 1)) (seqZ 0 256)))
      (seqZ 0 256) = true) by (vm_compute; reflexivity).
  pose proof (byte_forall _ H p) as Hf. cbv beta in Hf.
  assert (Hp8 : is_u8 p) by (unfold in_range; lia). specialize (Hf Hp8).
  replace (p <? 128) with true in Hf by (symmetry; apply Z.ltb_lt; lia). cbn [implb] in Hf.
  pose proof (byte_forall _ Hf b Hb) as Hg. cbv beta zeta in Hg. fold b1 in Hg. simplify_tests. split_and!; done.
Qed.

(** The header the rewritten packet should have. *)
Definition out_header (hdr : RtpHeader.RtpHeader) (sub : Sub.Subscription) (es : list Ext.Element)
    (pt : Z) (a : Advance) : RtpHeader.RtpHeader :=
  let l := out_elements sub es in
  RtpHeader.mkHeader 2 (RtpHeader.padding hdr) (negb (bool_decide (l = []))) (RtpHeader.csrc_count hdr)
    (RtpHeader.marker hdr) pt (out_seq a) (out_ts a) (Sub.out_ssrc (Sub.rewrite sub))
    (Z.of_nat (csrc_end hdr + length (ext_block l))) (RtpHeader.padding_len hdr).

Lemma ext_block_read l y : l ≠ [] → Z.of_nat (length (ext_block l)) < 65536 →
  read_be (E:=RtpError) 2 2 (ext_block l ++ y) = Ok (Z.of_nat ((length (ext_block l) - 4) / 4)%nat).
Proof.
  intros Hl Hb. rewrite (length_ext_block l Hl) in *. destruct l as [|p l]; [done|]. unfold ext_block. cbv zeta.
  set (b := encode_all _) in *. rewrite <- !app_assoc.
  rewrite read_be_app_r by (rewrite ?length_app, !length_to_be; lia). rewrite length_to_be.
  replace (2 - 2)%nat with 0%nat by lia.
  assert (Hr : in_range 16 (Z.of_nat (round_up4 (length b) / 4)%nat)).
  { unfold in_range. pose proof (Nat.Div0.div_le_mono (round_up4 (length b)) (4 * (round_up4 (length b))) 4). rewrite (Nat.mul_comm 4), Nat.div_mul in * by lia. lia. }
  rewrite read_be_to_be by (apply wrap_range; lia). f_equal. rewrite wrap_small by done.
  do 2 f_equal. lia.
Qed.

(** The extension and padding lengths of the rewritten packet. *)
Lemma ext_len_out (fx cs y : list Z) (l : list (Z * list Z)) :
  Z.of_nat (length (fx ++ cs ++ ext_block l ++ y)) < 65536 →
  RtpHeader.ext_len InvalidExtension (fx ++ cs ++ ext_block l ++ y) (length fx + length cs)
    (negb (bool_decide (l = []))) = Ok (length fx + length cs + length (ext_block l))%nat.
Proof.
  intros Hlen. unfold RtpHeader.ext_len. destruct (decide (l = [])) as [->|Hl].
  { rewrite bool_decide_eq_true_2 by done. cbn. f_equal. lia. }
  rewrite (bool_decide_eq_false_2 (l = [])) by done. cbn [negb].
  assert (H4 : length (ext_block l) = (4 + round_up4 (length (encode_all l)))%nat) by by apply length_ext_block.
  pose proof (round_up4_spec (length (encode_all l))) as [_ Hmod].
  rewrite !length_app in *. rewrite bool_decide_eq_false_2 by lia. run_st.
  rewrite (app_assoc fx cs). rewrite read_be_app_r by (rewrite !length_app; lia).
  rewrite length_app. replace (length fx + length cs + 2 - (length fx + length cs))%nat with 2%nat by lia.
  rewrite ext_block_read by (done || lia). rewrite Nat2Z.id, H4.
  replace (4 + round_up4 (length (encode_all l)) - 4)%nat with (round_up4 (length (encode_all l))) by lia.
  pose proof (Nat.div_mod_eq (round_up4 (length (encode_all l))) 4) as Hdm.
  replace (round_up4 (length (encode_all l)) / 4 * 4)%nat with (round_up4 (length (encode_all l))) by lia.
  unfold RtpHeader.MAX_HEADER_LEN_BYTES. rewrite !bool_decide_eq_false_2 by lia. done.
Qed.

(** The padding count is kept: the payload is copied with its padding. *)
Lemma pad_len_out (h src : list Z) n p k : (n ≤ length src)%nat →
  RtpHeader.pad_len InvalidPadding src n p = Ok k →
  RtpHeader.pad_len InvalidPadding (h ++ drop n src) (length h) p = Ok k.
Proof.
  intros Hn. unfold RtpHeader.pad_len. destruct p; [|done]. run_st.
  rewrite length_app, length_drop. replace (length h + (length src - n) - length h)%nat with (length src - n)%nat by lia.
  case_bool_decide as Hle; [done|]. rewrite bool_decide_eq_false_2 by lia.
  unfold idx. rewrite lookup_app_r, lookup_drop by lia.
  replace (n + (length h + (length src - n) - 1 - length h))%nat with (length src - 1)%nat by lia. done.
Qed.

Lemma out_packet_parse src hdr sub es src0 src1 pt a : bytes src →
  RtpHeader.parse src = Ok hdr → src !! 0%nat = Some src0 → src !! 1%nat = Some src1 →
  0 ≤ pt < 128 → is_u16 (out_seq a) → is_u32 (out_ts a) → is_u32 (Sub.out_ssrc (Sub.rewrite sub)) →
  Z.of_nat (length (out_packet src hdr sub es src0 src1 pt a)) < 65536 →
  RtpHeader.parse (out_packet src hdr sub es src0 src1 pt a) = Ok (out_header hdr sub es pt a).
Proof.
  intros Hb Hp H0 H1 Hpt Hseq Hts Hssrc Hlen.
  pose proof (RtpHeader.parse_ok _ _ Hb Hp) as (Hn & _).
  pose proof (RtpHeader.parse_inv _ _ Hp) as (b0 & b1 & n & k & Hb0 & Hb1 & Hv & Hcc & Hext & Hpad & Hh).
  rewrite H0 in Hb0. rewrite H1 in Hb1. injection Hb0 as <-. injection Hb1 as <-.
  pose proof (byte_at _ _ _ Hb H0) as Hs0. pose proof (byte_at _ _ _ Hb H1) as Hs1.
  set (l := out_elements sub es). set (x := if bool_decide (l = []) then 0 else 0x10).
  assert (Hx : x = 0 ∨ x = 0x10) by (unfold x; case_bool_decide; auto).
  pose proof (first_byte_out _ _ Hs0 Hx) as (Ev & Ecc & Epad & Eext).
  pose proof (second_byte_out _ _ Hs1 Hpt) as (Ept & Emark).
  assert (Hcch : RtpHeader.csrc_count hdr = Z.land src0 15) by (by rewrite Hh).
  assert (Hnn : Z.to_nat (RtpHeader.header_len_bytes hdr) = n).
  { apply RtpHeader.ext_len_ok in Hext as (? & ? & _); [|lia|].
    - rewrite Hh. cbn. unfold RtpHeader.MAX_HEADER_LEN_BYTES in *. rewrite wrap_small; [lia|]. unfold in_range. lia.
    - unfold RtpHeader.MAX_HEADER_LEN_BYTES. pose proof (RtpHeader.land15_range _ Hs0). lia. }
  unfold out_packet. fold l x. unfold payload, csrc_end in *. rewrite Hnn, Hcch in *.
  set (fx := fixed_header _ _ _ _ _ _ _). set (cs := sub_list _ _ src).
  assert (Hfx : length fx = 12%nat) by (unfold fx, fixed_header; rewrite !length_app, !length_to_be; done).
  assert (Hcs : length cs = (4 * Z.to_nat (Z.land src0 15))%nat).
  { unfold cs. rewrite length_sub_list; lia. }
  set (eb := ext_block l). set (q := fx ++ cs ++ eb ++ drop n src) in *.
  assert (Hq : Z.of_nat (length q) < 65536).
  { revert Hlen. unfold out_packet. rewrite Hcch. unfold csrc_end, payload. rewrite Hcch, Hnn. done. }
  assert (Hee : negb (bool_decide (l = [])) = negb ((if x =? 0 then 0 else 1) =? 0)).
  { unfold x. case_bool_decide; done. }
  assert (Hqr : ∃ r, q = [Z.lor (Z.lor (Z.lor 0x80 (Z.land src0 0x20)) x) (Z.land src0 15);
                          Z.lor (Z.land src1 0x80) pt] ++ to_be 2 (out_seq a) ++ to_be 4 (out_ts a) ++
                         to_be 4 (Sub.out_ssrc (Sub.rewrite sub)) ++ r).
  { eexists. unfold q, fx, fixed_header. by rewrite <- !app_assoc. }
  erewrite (RtpHeader.parse_of q _ _ (12 + length cs + length eb) k).
  - unfold out_header. fold l. rewrite Ecc, Ept, Epad, Eext, Emark. destruct Hqr as [r Hqr]. rewrite Hqr.
    rewrite sub_list_middle by (rewrite ?length_to_be; done).
    rewrite (app_assoc [_; _]). rewrite sub_list_middle by (rewrite ?length_app, ?length_to_be; done).
    rewrite (app_assoc _ (to_be 4 (out_ts a))). rewrite sub_list_middle by (rewrite ?length_app, ?length_to_be; done).
    rewrite !of_be_to_be by done. f_equal. unfold csrc_end. rewrite Hcch. rewrite Hh. cbn [RtpHeader.padding RtpHeader.marker RtpHeader.padding_len].
    f_equal; [done|]. rewrite wrap_small; [fold eb; f_equal; lia|].
    unfold q in Hq. rewrite !length_app in Hq. unfold in_range. fold eb in Hq. lia.
  - destruct Hqr as [r ->]. done.
  - destruct Hqr as [r ->]. done.
  - done.
  - rewrite Ecc. unfold q. rewrite !length_app. lia.
  - rewrite Ecc, Eext, <- Hee. replace (12 + Z.to_nat (Z.land src0 15) * 4)%nat with (length fx + length cs)%nat by lia.
    unfold q. rewrite <- Hfx. by apply ext_len_out.
  - rewrite Epad. unfold q. rewrite 2!app_assoc.
    replace (12 + length cs + length eb)%nat with (length ((fx ++ cs) ++ eb)) by (rewrite !length_app; lia).
    apply pad_len_out; [lia|]. by rewrite Hh in Hpad.
Qed.

(** ** Elements read from a packet *)

Lemma skip_padding_suffix f l : ∃ n, Ext.skip_padding f l = drop n l.
Proof.
  induction l as [|b l [n IH]]; cbn; [by exists 0%nat|].
  destruct (Ext.is_padding f b); [by exists (S n)|by exists 0%nat].
Qed.

Lemma next_element_bytes f l e r : bytes l → Ext.next_element f l = Some (e, r) →
  is_u8 (Ext.id e) ∧ bytes (Ext.data e) ∧ bytes r.
Proof.
  intros Hl. unfold Ext.next_element. destruct (skip_padding_suffix f l) as [n ->].
  assert (Hd : bytes (drop n l)) by by apply Forall_drop. destruct (drop n l) as [|b t]; [done|].
  apply Forall_cons in Hd as [Hb Ht]. unfold get_slice. destruct f.
  - destruct (_ =? 15); [done|]. case_decide; cbn; [|done]. intros [= <- <-]. cbn.
    split; [|split; [by apply bytes_sub_list|by apply Forall_drop]].
    unfold in_range in *. rewrite Z.shiftr_div_pow2 by lia. change (2 ^ 4) with 16. change (2 ^ 8) with 256 in *.
    split; [apply Z.div_pos; lia|]. apply Z.div_lt_upper_bound; lia.
  - destruct t as [|len t]; [done|]. apply Forall_cons in Ht as [_ Ht]. case_decide; cbn; [|done].
    intros [= <- <-]. cbn. split; [done|]. split; [by apply bytes_sub_list|by apply Forall_drop].
Qed.

Lemma collect_bytes fuel f : ∀ l, bytes l →
  Forall (fun e => is_u8 (Ext.id e) ∧ bytes (Ext.data e)) (Ext.collect fuel f l).
Proof.
  induction fuel as [|fuel IH]; intros l Hl; cbn; [constructor|].
  destruct (Ext.next_element f l) as [[e r]|] eqn:He; [|constructor].
  apply next_element_bytes in He as (? & ? & ?); [|done]. constructor; eauto.
Qed.

Lemma elements_ok {E} src hdr : bytes src → RtpHeader.parse src = Ok hdr →
  ∃ es, Ext.elements (E:=E) src hdr = Ok es ∧ Forall (fun e => is_u8 (Ext.id e) ∧ bytes (Ext.data e)) es.
Proof.
  intros Hb Hp. pose proof (RtpHeader.parse_ok _ _ Hb Hp) as (Hn & _ & _ & _ & _ & _ & _ & _ & _ & Hx).
  unfold Ext.elements, Ext.block. destruct (RtpHeader.extension hdr).
  2: { cbn [negb mbind outcome_bind]. eexists. split; [done|]. by apply collect_bytes. }
  specialize (Hx eq_refl). cbn [negb]. rewrite bool_decide_eq_false_2 by lia.
  rewrite read_be_ok by lia. unfold slice. rewrite decide_True by lia. run_st.
  destruct (_ =? 0xBEDE); [|destruct (_ =? 0x1000)];
    (eexists; split; [done|]; apply collect_bytes); auto using bytes_sub_list.
Qed.

(** What the shard guarantees of a subscription: ids of the one-byte form
    ([ext_map_is_valid]), a [mid] that fits an element, 7-bit payload types. *)
Record sub_ok (sub : Sub.Subscription) : Prop := {
  ok_ids : Forall (fun i => 0 ≤ i ≤ 14) (ext_ids (Sub.ext_map sub));
  ok_map_mid : 0 ≤ map_mid (Sub.ext_map sub) ≤ 14;
  ok_mid : (1 ≤ length (Sub.mid sub) ≤ 16)%nat ∧ bytes (Sub.mid sub);
  ok_pts : Forall (fun p => 0 ≤ p.2 < 128) (Sub.pt_map sub);
  ok_ssrc : is_u32 (Sub.out_ssrc (Sub.rewrite sub));
}.

Lemma mapped_id_ok sub e to : sub_ok sub → bytes (Ext.data e) → mapped_id sub e = Some to →
  element_ok to (Ext.data e).
Proof.
  intros Hs Hb. unfold mapped_id, Ext.MAX_ONE_BYTE_LEN.
  case_match eqn:Hg; [done|]. case_match eqn:Hi; [|done]. case_match eqn:Hz; [done|]. intros [= <-].
  apply (Forall_lookup_1 _ _ _ _ (ok_ids _ Hs)) in Hi. simplify_tests. split; [lia|]. split; [lia|done].
Qed.

Lemma out_elements_ok sub es : sub_ok sub →
  Forall (fun e => is_u8 (Ext.id e) ∧ bytes (Ext.data e)) es →
  Forall (fun p => element_ok p.1 p.2) (out_elements sub es).
Proof.
  intros Hs Hes. unfold out_elements. apply Forall_app. split.
  - apply Forall_forall. intros p (e & He & (to & Hm & ->)%fmap_Some)%list_elem_of_omap.
    rewrite Forall_forall in Hes. apply (mapped_id_ok sub e to Hs); [|done]. by apply Hes.
  - destruct (Z.eqb_spec (map_mid (Sub.ext_map sub)) 0); constructor; [|done].
    pose proof (ok_map_mid _ Hs). destruct (ok_mid _ Hs). cbn. split; [lia|done].
Qed.

Lemma lookup_pt_ok sub x pt : sub_ok sub → PtMap.lookup (Sub.pt_map sub) x = Some pt → 0 ≤ pt < 128.
Proof.
  intros Hs. unfold PtMap.lookup. destruct (position _ _) as [i|]; [|done]. cbn.
  destruct (Sub.pt_map sub !! i) as [p|] eqn:Hp; [|done]. intros [= <-].
  exact (Forall_lookup_1 _ _ _ _ (ok_pts _ Hs) Hp).
Qed.

(** ** Decoding what was encoded *)

Lemma encode_head to d : element_ok to d →
  let b := Z.lor (wrap 8 (Z.shiftl to 4)) (wrap 8 (Z.of_nat (length d)) - 1) in
  Z.shiftr b 4 = to ∧ Z.land b 15 + 1 = Z.of_nat (length d).
Proof.
  intros (Hto & Hd & _) b.
  assert (H : forallb (fun to => forallb (fun n =>
      let b := Z.lor (wrap 8 (Z.shiftl to 4)) (wrap 8 n - 1) in
      (Z.shiftr b 4 =? to) && (Z.land b 15 + 1 =? n)) (seqZ 1 16)) (seqZ 1 14) = true)
    by (vm_compute; reflexivity).
  rewrite forallb_forall in H. specialize (H to ltac:(apply list_elem_of_In, elem_of_seqZ; lia)).
  rewrite forallb_forall in H. specialize (H (Z.of_nat (length d)) ltac:(apply list_elem_of_In, elem_of_seqZ; lia)).
  cbv beta zeta in H. fold b in H. simplify_tests. split; [done|lia].
Qed.

Lemma skip_padding_zeros n : Ext.skip_padding Ext.OneByte (replicate n 0) = [].
Proof. by induction n. Qed.

Lemma collect_encode fuel l n : Forall (fun p => element_ok p.1 p.2) l →
  Ext.collect fuel Ext.OneByte (encode_all l ++ replicate n 0) =
  take fuel ((fun p => Ext.mkElement p.1 p.2) <$> l).
Proof.
  revert l; induction fuel as [|fuel IH]; intros l Hl; [done|]. destruct l as [|[to d] l].
  { cbn [encode_all mbind list_bind app]. cbn. unfold Ext.next_element. by rewrite skip_padding_zeros. }
  apply Forall_cons in Hl as [He Hl]. cbn [fst snd] in He.
  cbn [Ext.collect]. rewrite encode_all_cons, <- app_assoc. cbn [fst snd]. unfold encode. cbn [app].
  pose proof (encode_head to d He) as [H1 H2]. set (b := Z.lor _ _) in *. destruct He as (Hto & Hd & _).
  unfold Ext.next_element. cbn [Ext.skip_padding Ext.is_padding]. rewrite H1.
  destruct (Z.eqb_spec to 0); [lia|]. rewrite H1. destruct (Z.eqb_spec to 15); [lia|].
  replace (Z.to_nat (Z.land b 15) + 1)%nat with (length d) by lia.
  unfold get_slice. rewrite decide_True by (rewrite length_app; lia). cbn [mbind option_bind].
  rewrite sub_list_0, take_app_length, drop_app_length. cbn [fmap list_fmap firstn]. f_equal. by apply IH.
Qed.

(** The extension block of the output carries the mapped elements. *)
Lemma elements_out {E} src hdr sub es src0 src1 pt a : bytes src →
  RtpHeader.parse src = Ok hdr →
  Forall (fun p => element_ok p.1 p.2) (out_elements sub es) →
  Ext.elements (E:=E) (out_packet src hdr sub es src0 src1 pt a) (out_header hdr sub es pt a) =
  Ok (take Ext.MAX_ELEMENTS ((fun p => Ext.mkElement p.1 p.2) <$> out_elements sub es)).
Proof.
  intros Hb Hp Hok. pose proof (RtpHeader.parse_ok _ _ Hb Hp) as (Hn & _).
  set (l := out_elements sub es) in *. unfold Ext.elements, Ext.block, out_header. fold l.
  cbn [RtpHeader.extension RtpHeader.csrc_count RtpHeader.header_len_bytes]. rewrite negb_involutive.
  destruct (decide (l = [])) as [Hl|Hl].
  { rewrite bool_decide_eq_true_2 by done. rewrite Hl. done. }
  rewrite bool_decide_eq_false_2 by done. rewrite Nat2Z.id. fold (csrc_end hdr).
  unfold out_packet. fold l. set (fx := fixed_header _ _ _ _ _ _ _). set (cs := sub_list _ _ src).
  assert (Hfx : length fx = 12%nat) by (unfold fx, fixed_header; rewrite !length_app, !length_to_be; done).
  assert (Hcs : length (fx ++ cs) = csrc_end hdr).
  { rewrite length_app, Hfx. unfold cs, csrc_end. rewrite length_sub_list; lia. }
  pose proof (length_ext_block l Hl) as Hlb. rewrite (app_assoc fx).
  rewrite bool_decide_eq_false_2 by (rewrite length_app, Hcs, length_app; lia).
  rewrite read_be_app_r by (rewrite ?length_app in *; lia).
  rewrite Hcs, Nat.sub_diag. unfold slice. rewrite decide_True by (rewrite length_app, Hcs, length_app; lia).
  destruct l as [|p l'] eqn:Hll; [done|]. rewrite <- Hll in *.
  assert (Heb : ext_block l = to_be 2 0xBEDE ++ to_be 2 (wrap 16 (Z.of_nat (round_up4 (length (encode_all l)) / 4))) ++
     encode_all l ++ replicate (round_up4 (length (encode_all l)) - length (encode_all l)) 0) by by rewrite Hll.
  assert (Hpr : ∀ y, read_be (E:=E) 2 0 (ext_block l ++ y) = Ok 0xBEDE).
  { intros y. rewrite Heb, <- app_assoc. apply read_be_to_be. by vm_compute. }
  rewrite Hpr. run_st. cbn [Z.eqb Pos.eqb].
  rewrite <- collect_encode with (n := (round_up4 (length (encode_all l)) - length (encode_all l))%nat) by done.
  do 2 f_equal. set (z := replicate _ 0) in *. set (w := to_be 2 (wrap 16 _)) in *.
  assert (Hsplit : ∀ y, (fx ++ cs) ++ ext_block l ++ y =
            ((fx ++ cs) ++ to_be 2 0xBEDE ++ w) ++ (encode_all l ++ z) ++ y).
  { intros y. rewrite Heb. by rewrite <- !app_assoc. }
  rewrite Hsplit. apply sub_list_middle.
  - rewrite length_app, Hcs, length_app. unfold w. rewrite !length_to_be. lia.
  - pose proof (round_up4_spec (length (encode_all l))). rewrite length_app. unfold z. rewrite length_replicate. lia.
Qed.

Lemma advance_of_ranges sub hdr rng now :
  is_u16 (out_seq (advance_of sub hdr rng now)) ∧ is_u32 (out_ts (advance_of sub hdr rng now)).
Proof.
  unfold advance_of. destruct (offsets _ _ _ _ _) as [[[? ?] ?] ?]. cbn. split; by apply wrap_range.
Qed.

(** What the rewritten packet [out] must be: it parses to the subscriber's
    header, and carries the publisher's CSRCs, payload and padding and the
    mapped extension elements. *)
Definition packet_for (src : list Z) (hdr : RtpHeader.RtpHeader) (sub : Sub.Subscription) (a : Advance)
    (out : list Z) : Prop :=
  ∃ es pt, Ext.elements (E:=RewriteError) src hdr = Ok es ∧
    PtMap.lookup (Sub.pt_map sub) (RtpHeader.payload_type hdr) = Some pt ∧
    let h := out_header hdr sub es pt a in
    RtpHeader.parse out = Ok h ∧
    sub_list 12 (csrc_end hdr) out = sub_list 12 (csrc_end hdr) src ∧
    payload out h = payload src hdr ∧
    Ext.elements (E:=RewriteError) out h =
      Ok (take Ext.MAX_ELEMENTS ((fun p => Ext.mkElement p.1 p.2) <$> out_elements sub es)).

(** The size of an extension block: its header, then one byte and the data of
    each element, padded to a word; nothing without elements. *)
Definition ext_size (l : list (Z * list Z)) : nat :=
  match l with
  | [] => 0
  | _ => 4 + round_up4 (sum_list ((fun p => 1 + length p.2) <$> l))
  end%nat.

(** The length of the packet for the subscriber: fixed header and CSRCs, the
    block of the elements it gets, and the payload with its padding. *)
Definition rewritten_len (src : list Z) (hdr : RtpHeader.RtpHeader) (sub : Sub.Subscription)
    (es : list Ext.Element) : nat :=
  (12 + 4 * Z.to_nat (RtpHeader.csrc_count hdr) + ext_size (out_elements sub es) +
   (length src - Z.to_nat (RtpHeader.header_len_bytes hdr)))%nat.

Lemma length_encode_all l : length (encode_all l) = sum_list ((fun p => 1 + length p.2)%nat <$> l).
Proof.
  induction l as [|p l IH]; [done|]. rewrite encode_all_cons, length_app, length_encode, IH. done.
Qed.

Lemma ext_size_block l : length (ext_block l) = ext_size l.
Proof.
  destruct l as [|p l]; [done|]. rewrite length_ext_block, length_encode_all by done. done.
Qed.

Lemma length_out_packet src hdr sub es src0 src1 pt a :
  (csrc_end hdr ≤ Z.to_nat (RtpHeader.header_len_bytes hdr) ≤ length src)%nat →
  length (out_packet src hdr sub es src0 src1 pt a) = rewritten_len src hdr sub es.
Proof.
  intros Hh. unfold out_packet, fixed_header, rewritten_len, payload, csrc_end in *.
  rewrite !length_app, !length_to_be, length_sub_list, length_drop, ext_size_block by lia. cbn [length]. lia.
Qed.

(** C24: the rewrite never panics. It refuses a packet whose payload type is
    not mapped, leaving generator and buffer alone; a mapped packet is refused
    as too large exactly when the packet meant for the subscriber (fixed
    header and CSRCs, the extension block of the elements it gets, payload and
    padding) is longer than the buffer, and then the generator is untouched;
    otherwise the rewrite writes that packet, of exactly that length, at the
    front of the buffer and nowhere else, with the sequence number and
    timestamp of the returned advance. For a packet the parser took, a
    subscription within its widths and a buffer below 64 KiB. *)
Theorem rewrite_packet src hdr sub now rng dst :
  bytes src → RtpHeader.parse src = Ok hdr → sub_ok sub → Z.of_nat (length dst) < 65536 →
  match rewrite src hdr sub now (rng, dst) with
  | Panic => False
  | Err (UnmappedPt, s) =>
      PtMap.lookup (Sub.pt_map sub) (RtpHeader.payload_type hdr) = None ∧ s = (rng, dst)
  | Err (TooLarge, (rng', dst')) => rng' = rng ∧ length dst' = length dst ∧
      PtMap.lookup (Sub.pt_map sub) (RtpHeader.payload_type hdr) ≠ None ∧
      ∃ es, Ext.elements (E:=RewriteError) src hdr = Ok es ∧ (length dst < rewritten_len src hdr sub es)%nat
  | Ok ((n, a), (rng', dst')) =>
      (n ≤ length dst)%nat ∧ length dst' = length dst ∧ drop n dst' = drop n dst ∧
      a = advance_of sub hdr rng now ∧ rng' = rng_after sub hdr rng now ∧
      packet_for src hdr sub a (take n dst') ∧
      ∃ es, Ext.elements (E:=RewriteError) src hdr = Ok es ∧ n = rewritten_len src hdr sub es
  end.
Proof.
  intros Hb Hp Hs Hlen. pose proof (RtpHeader.parse_ok _ _ Hb Hp) as (Hn & _).
  destruct (elements_ok (E:=RewriteError) src hdr Hb Hp) as (es & Hes & Hesb).
  pose proof (out_elements_ok sub es Hs Hesb) as Hok.
  destruct (PtMap.lookup (Sub.pt_map sub) (RtpHeader.payload_type hdr)) as [pt|] eqn:Hpt.
  2: { unfold rewrite. run_st. rewrite bool_decide_eq_true_2 by lia. rewrite Hpt. done. }
  pose proof (RtpHeader.parse_inv _ _ Hp) as (src0 & src1 & _ & _ & H0 & H1 & _).
  pose proof (rewrite_spec src hdr sub now rng dst es pt src0 src1 ltac:(unfold csrc_end; lia) H0 H1 Hes Hok Hpt) as Hr.
  cbv zeta in Hr. set (a := advance_of sub hdr rng now) in *. set (q := out_packet src hdr sub es src0 src1 pt a) in *.
  assert (Hq : length q = rewritten_len src hdr sub es) by (apply length_out_packet; unfold csrc_end; lia).
  destruct (decide (length q ≤ length dst)%nat) as [Hfit|Hfit].
  2: { destruct Hr as (dst' & -> & Hl). split; [done|]. split; [done|]. split; [done|]. exists es. split; [done|lia]. }
  rewrite Hr. split; [done|]. split; [by rewrite length_splice by lia|].
  assert (Hsp : splice 0 q dst = q ++ drop (length q) dst) by done.
  split; [rewrite Hsp; apply drop_app_length|]. split; [done|]. split; [done|].
  assert (Htake : take (length q) (splice 0 q dst) = q) by (rewrite Hsp; apply take_app_length).
  rewrite Htake. split; [|by exists es]. exists es, pt. split; [done|]. split; [done|]. cbv zeta.
  destruct (advance_of_ranges sub hdr rng now) as [Hseq Hts].
  split; [apply (out_packet_parse src); auto; [by eapply lookup_pt_ok|apply ok_ssrc; auto|fold q; lia]|].
  split; [|split; [|by apply elements_out]].
  - unfold q, out_packet, fixed_header. rewrite sub_list_middle; [done|by rewrite !length_app, !length_to_be|].
    unfold csrc_end in *. rewrite length_sub_list; lia.
  - unfold q, out_packet, payload at 1, out_header. cbn [RtpHeader.header_len_bytes]. rewrite Nat2Z.id, 2!app_assoc.
    apply drop_app_length'. rewrite !length_app. unfold fixed_header. rewrite !length_app, !length_to_be.
    unfold csrc_end. rewrite length_sub_list by lia. cbn [length]. lia.
Qed.

(** ** The sequence numbers of a subscription *)

(** The rewrite states reached by committing advances. *)
Inductive reachable : Sub.RewriteState → Prop :=
| reach_new x : reachable (Sub.rewrite_new x)
| reach_commit sub hdr rng now s' :
    reachable (Sub.rewrite sub) → is_u16 (RtpHeader.sequence_number hdr) →
    commit (E:=()) (Sub.rewrite sub) (advance_of sub hdr rng now) now = Ok s' → reachable s'.

(** Once started, the last packets in and out differ by the offset. *)
Definition aligned (s : Sub.RewriteState) : Prop :=
  Sub.started s = true →
  is_u16 (Sub.last_in_seq s) ∧ is_u16 (Sub.last_out_seq s) ∧ Sub.last_out_at s ≠ None ∧
  Sub.last_out_seq s = wrapping_add 16 (Sub.last_in_seq s) (Sub.seq_offset s).

Lemma advance_unstarted_or sub hdr rng now : Sub.started (Sub.rewrite sub) = true →
  rebased (advance_of sub hdr rng now) = false →
  adv_seq_offset (advance_of sub hdr rng now) = Sub.seq_offset (Sub.rewrite sub) ∧
  adv_ts_offset (advance_of sub hdr rng now) = Sub.ts_offset (Sub.rewrite sub) ∧
  - REORDER_LIMIT ≤ as_i16 (wrapping_sub 16 (RtpHeader.sequence_number hdr) (Sub.last_in_seq (Sub.rewrite sub)))
    ≤ REBASE_GAP.
Proof.
  intros Hst. unfold advance_of, offsets. rewrite Hst. cbn [negb].
  set (d := as_i16 _). destruct ((_ <=? d) && (d <=? _)) eqn:Hin; cbn [andb].
  - destruct (match Sub.last_out_at _ with Some _ => _ | None => _ end); cbn; [done|]. intros _.
    simplify_tests. done.
  - cbn. done.
Qed.

Lemma out_seq_eq sub hdr rng now :
  out_seq (advance_of sub hdr rng now) =
  wrapping_add 16 (RtpHeader.sequence_number hdr) (adv_seq_offset (advance_of sub hdr rng now)) ∧
  in_seq (advance_of sub hdr rng now) = RtpHeader.sequence_number hdr.
Proof. unfold advance_of. by destruct (offsets _ _ _ _ _) as [[[? ?] ?] ?]. Qed.

Lemma reachable_aligned s : reachable s → aligned s.
Proof.
  induction 1 as [x|sub hdr rng now s' Hr IH Hseq Hc]; [done|]. intros _.
  unfold commit in Hc. inv_ok. set (a := advance_of sub hdr rng now) in *.
  pose proof (out_seq_eq sub hdr rng now) as [Ho Hi]. fold a in Ho, Hi.
  pose proof (advance_of_ranges sub hdr rng now) as [Hso _]. fold a in Hso.
  destruct (negb (Sub.started (Sub.rewrite sub)) || rebased a || _) eqn:Hn.
  - cbn. rewrite Hi. split; [done|]. split; [done|]. split; [done|]. congruence.
  - simplify_tests. destruct (IH ltac:(done)) as (? & ? & ? & ?). cbn.
    destruct (advance_unstarted_or sub hdr rng now) as (Ha & _ & _); [done|done|]. fold a in Ha. by rewrite Ha.
Qed.

Lemma offset_diff x last off : is_u16 x → is_u16 last →
  wrapping_sub 16 (wrapping_add 16 x off) (wrapping_add 16 last off) = wrapping_sub 16 x last.
Proof. intros. by apply wrapping_sub_offset. Qed.

(** The step from the newest packet sent to the next one. *)
Lemma next_seq_spec sub hdr rng now :
  reachable (Sub.rewrite sub) → Sub.started (Sub.rewrite sub) = true →
  is_u16 (RtpHeader.sequence_number hdr) →
  let s := Sub.rewrite sub in
  let a := advance_of sub hdr rng now in
  let step := as_i16 (wrapping_sub 16 (out_seq a) (Sub.last_out_seq s)) in
  - REORDER_LIMIT ≤ step ≤ REBASE_GAP ∧
  (if rebased a then step = 1
   else step = as_i16 (wrapping_sub 16 (RtpHeader.sequence_number hdr) (Sub.last_in_seq s)) ∧
        out_ts a = wrapping_add 32 (RtpHeader.timestamp hdr) (Sub.ts_offset s)) ∧
  ∃ s', commit (E:=()) s a now = Ok s' ∧
    Sub.last_out_seq s' = if step >? 0 then out_seq a else Sub.last_out_seq s.
Proof.
  intros Hr Hst Hseq s a step. destruct (reachable_aligned _ Hr Hst) as (Hi & Ho & Hat & Hal).
  pose proof (out_seq_eq sub hdr rng now) as [Hos His]. fold a in Hos, His.
  assert (Hstep : - REORDER_LIMIT ≤ step ≤ REBASE_GAP ∧
    if rebased a then step = 1
    else step = as_i16 (wrapping_sub 16 (RtpHeader.sequence_number hdr) (Sub.last_in_seq s)) ∧
         out_ts a = wrapping_add 32 (RtpHeader.timestamp hdr) (Sub.ts_offset s)).
  { destruct (rebased a) eqn:Hreb.
    - assert (Hn : out_seq a = wrapping_add 16 (Sub.last_out_seq s) 1).
      { unfold a, advance_of, offsets in Hreb |- *. rewrite Hst in *. cbn [negb] in *.
        set (i := match Sub.last_out_at _ with Some _ => _ >=? _ | None => false end) in *.
        destruct (_ && _ && negb i) eqn:Hc; cbn in Hreb |- *; [done|].
        unfold wrapping_add at 1, wrapping_sub. unfold wrap. rewrite Zplus_mod_idemp_r.
        replace (_ + (_ - _)) with (wrapping_add 16 (Sub.last_out_seq (Sub.rewrite sub)) 1) by lia.
        apply wrap_small, wrap_range. lia. }
      assert (Hs1 : step = 1).
      { unfold step. rewrite Hn. unfold wrapping_sub, wrapping_add, wrap. rewrite Zminus_mod_idemp_l.
        by replace (Sub.last_out_seq s + 1 - Sub.last_out_seq s) with 1 by lia. }
      rewrite Hs1. by vm_compute.
    - destruct (advance_unstarted_or sub hdr rng now Hst Hreb) as (Eo & Et & Hrange). fold a s in Eo, Et, Hrange.
      assert (Hs1 : step = as_i16 (wrapping_sub 16 (RtpHeader.sequence_number hdr) (Sub.last_in_seq s))).
      { unfold step. rewrite Hos, Eo. fold s in Hal. rewrite Hal. by rewrite offset_diff. }
      rewrite Hs1. split; [done|]. split; [done|]. rewrite <- Et. unfold a, advance_of.
      by destruct (offsets _ _ _ _ _) as [[[? ?] ?] ?]. }
  destruct Hstep as [Hb Hcase]. split; [done|]. split; [done|]. unfold commit. fold s in Hst. rewrite Hst. cbn [negb orb].
  fold step. destruct (Z.gtb_spec step 0) as [Hgt|Hle].
  - rewrite orb_true_r. eexists. split; [done|done].
  - destruct (rebased a); [lia|]. cbn [orb]. fold s in Hat.
    destruct (Sub.last_out_at s) eqn:Hl; [|done]. eexists. split; [done|done].
Qed.

(** On every state a subscription can reach, the packet it sends next is
    a bounded step away from the newest one it sent. In step (64 behind to
    2^14 ahead, no pause of 5 s) the output moves by exactly the input's
    step; otherwise the offsets are rebased and the output continues at the
    next sequence number. *)
Theorem next_seq_bounded sub hdr rng now :
  reachable (Sub.rewrite sub) → Sub.started (Sub.rewrite sub) = true →
  is_u16 (RtpHeader.sequence_number hdr) →
  let s := Sub.rewrite sub in
  let a := advance_of sub hdr rng now in
  let step := as_i16 (wrapping_sub 16 (out_seq a) (Sub.last_out_seq s)) in
  - REORDER_LIMIT ≤ step ≤ REBASE_GAP ∧
  (if rebased a then step = 1
   else step = as_i16 (wrapping_sub 16 (RtpHeader.sequence_number hdr) (Sub.last_in_seq s)) ∧
        out_ts a = wrapping_add 32 (RtpHeader.timestamp hdr) (Sub.ts_offset s)) ∧
  ∃ s', commit (E:=()) s a now = Ok s' ∧
    Sub.last_out_seq s' = if step >? 0 then out_seq a else Sub.last_out_seq s.
Proof. apply next_seq_spec. Qed.

(** ** Instances *)

Definition fresh_sub : Sub.Subscription :=
  Sub.mkSub 1 (Slab.mkKey 0 0) (Slab.mkKey 0 0) (Sub.rewrite_new 1000)
    (mkExtMap [0; 5; 0; 0; 0; 0; 0; 0; 0; 0; 0; 0; 0; 0; 0] 3) 0 48000 [(111, 96)] [48] 0 0.

Definition header (seq : Z) : RtpHeader.RtpHeader :=
  RtpHeader.mkHeader 2 false false 0 false 111 seq 5000 0xABCD 12 0.

Definition commit_to (sub : Sub.Subscription) (hdr : RtpHeader.RtpHeader) (rng now : Z) : Sub.Subscription :=
  match commit (E:=()) (Sub.rewrite sub) (advance_of sub hdr rng now) now with
  | Ok s => Sub.set_rewrite s sub
  | _ => sub
  end.

(** Packets 500 and then 490 of the publisher, with a generator whose first
    number starts the subscription at sequence number 3. *)
Definition seed : Z := 28949.
Definition first := advance_of fresh_sub (header 500) seed 0.
Definition sub1 := commit_to fresh_sub (header 500) seed 0.
Definition second := advance_of sub1 (header 490) seed 0.
Definition sub2 := commit_to sub1 (header 490) seed 0.

Example starts_at_3 : out_seq first = 3 ∧ out_seq second = 65529.
Proof. split; vm_compute; reflexivity. Qed.

Lemma sub2_reachable : reachable (Sub.rewrite sub2).
Proof.
  apply (reach_commit sub1 (header 490) seed 0); [|done|vm_compute; reflexivity].
  apply (reach_commit fresh_sub (header 500) seed 0); [|done|vm_compute; reflexivity]. constructor.
Qed.

Lemma fresh_sub_ok : sub_ok fresh_sub.
Proof. split; cbn; repeat constructor; done. Qed.

Definition sample_header := RtpHeader.mkHeader 2 true true 1 true 111 0x1234 0x1000 0xABCD0001 24 2.

(** The sample packet of [RtpHeader.v], for a subscriber that has extension
    id 1 as 5 and its own mid under id 3: 29 bytes, refused by a buffer of 28. *)
Lemma rewrite_packet_witness :
  match rewrite RtpHeader.sample sample_header fresh_sub 0 (seed, replicate 29 7) with
  | Ok ((n, a), (rng', dst')) => n = 29%nat ∧ a = advance_of fresh_sub sample_header seed 0 ∧
      packet_for RtpHeader.sample sample_header fresh_sub a (take n dst')
  | _ => False
  end ∧
  match rewrite RtpHeader.sample sample_header fresh_sub 0 (seed, replicate 28 7) with
  | Err (TooLarge, (rng', _)) => rng' = seed ∧
      ∃ es, Ext.elements (E:=RewriteError) RtpHeader.sample sample_header = Ok es ∧
        (28 < rewritten_len RtpHeader.sample sample_header fresh_sub es)%nat
  | _ => False
  end.
Proof.
  assert (Hb : bytes RtpHeader.sample) by (repeat constructor; done).
  assert (Hp : RtpHeader.parse RtpHeader.sample = Ok sample_header) by (vm_compute; reflexivity).
  split.
  - pose proof (rewrite_packet RtpHeader.sample sample_header fresh_sub 0 seed (replicate 29 7) Hb Hp fresh_sub_ok
      ltac:(done)) as Hw.
    assert (Hn : match rewrite RtpHeader.sample sample_header fresh_sub 0 (seed, replicate 29 7) with
      | Ok ((n, _), _) => n = 29%nat | _ => False end) by (vm_compute; reflexivity).
    destruct (rewrite _ _ _ _ _) as [[[n a] [rng' dst']]|[[] [? ?]]|]; [|done|done|done].
    destruct Hw as (_ & _ & _ & Ha & _ & Hq & _). done.
  - pose proof (rewrite_packet RtpHeader.sample sample_header fresh_sub 0 seed (replicate 28 7) Hb Hp fresh_sub_ok
      ltac:(done)) as Hw.
    assert (Hn : match rewrite RtpHeader.sample sample_header fresh_sub 0 (seed, replicate 28 7) with
      | Err (TooLarge, _) => True | _ => False end) by (vm_compute; exact I).
    destruct (rewrite _ _ _ _ _) as [[[n a] [rng' dst']]|[[] [? ?]]|]; [done|done| |done].
    destruct Hw as (-> & _ & _ & Hq). split; [done|exact Hq].
Defined.

Lemma next_seq_bounded_witness :
  let a := advance_of sub2 (header 502) seed 0 in
  let step := as_i16 (wrapping_sub 16 (out_seq a) (Sub.last_out_seq (Sub.rewrite sub2))) in
  out_seq a = 5 ∧ - REORDER_LIMIT ≤ step ≤ REBASE_GAP ∧
  (if rebased a then step = 1
   else step = as_i16 (wrapping_sub 16 502 (Sub.last_in_seq (Sub.rewrite sub2))) ∧
        out_ts a = wrapping_add 32 5000 (Sub.ts_offset (Sub.rewrite sub2))) ∧
  ∃ s', commit (E:=()) (Sub.rewrite sub2) a 0 = Ok s' ∧
    Sub.last_out_seq s' = if step >? 0 then out_seq a else Sub.last_out_seq (Sub.rewrite sub2).
Proof.
  split; [by vm_compute|]. apply (next_seq_bounded sub2 (header 502) seed 0); [apply sub2_reachable|done|done].
Defined.

End RewriteProofs.

(** * A reordered first packet can stall a subscription

    The rewrite ([rewrite.rs]) starts a subscription at a random 16-bit
    sequence number and lets packets up to 64 behind the first one through.
    When the start is below 64, such a packet wraps to a sequence number near
    65535 under rollover counter 0: the sender's index estimate
    ([srtp/index.rs]) clamps the counter at 0 and takes it for index 65535, so
    the window of sent indices ([srtp/direction.rs]) jumps a whole cycle
    ahead. From then on every packet that would advance the stream is refused,
    and since a refused packet is not committed, rebasing after a pause
    continues at the same refused sequence number. *)

Import Rewrite RewriteProofs.

(** The state after such a start: the rollover counter still 0, the newest
    packet of the stream far below the newest index sent. *)
Definition stuck {C} (sub : Sub.Subscription) (o : Outbound.SrtpOutbound C) : Prop :=
  let h := Sub.last_out_seq (Sub.rewrite sub) in
  ∃ i s, Outbound.slot_of o (Sub.out_ssrc (Sub.rewrite sub)) = Some i ∧ Outbound.slots o !! i = Some s ∧
    Outbound.roc s = RocIndex.mkRoc 0 h true ∧ h < 64 ∧
    Replay.enabled (Outbound.sent s) = true ∧ Replay.window_size (Outbound.sent s) = 64 ∧
    65472 ≤ Replay.highest (Outbound.sent s).

Lemma estimate_low h seq : 0 ≤ h < 64 → 0 ≤ seq < 32768 →
  RocIndex.estimate_index (RocIndex.mkRoc 0 h true) seq = Ok seq.
Proof.
  intros Hh Hs. unfold RocIndex.estimate_index. cbn [RocIndex.initialized RocIndex.highest_seq RocIndex.roc negb].
  destruct (Z.ltb_spec h 32768); [|lia].
  replace ((seq >? h) && (seq - h >? 32768)) with false.
  - unfold PacketIndex.new. by rewrite Z.shiftl_0_l, Z.lor_0_l.
  - rewrite (Z.gtb_ltb (seq - h)). destruct (Z.ltb_spec 32768 (seq - h)); [lia|]. by rewrite andb_false_r.
Qed.

Lemma check_refuses r index : Replay.enabled r = true → Replay.window_size r = 64 → 65472 ≤ Replay.highest r →
  index ≤ 65408 → Replay.check index r = Err (ReplayDetected, Replay.count_replay (Replay.count_check r)).
Proof.
  intros He Hw Hh Hi. unfold Replay.check. run_st. cbn [Replay.enabled Replay.count_check]. rewrite He. cbn [negb].
  assert (Hf : Replay.is_first_packet (Replay.count_check r) = false).
  { unfold Replay.is_first_packet. cbn. destruct (Z.eqb_spec (Replay.highest r) 0); [lia|done]. }
  rewrite Hf. unfold Replay.validate_index. run_st. cbn. rewrite Hw, Z.gtb_ltb, Z.geb_leb.
  destruct (Z.ltb_spec (Replay.highest r) index); [lia|].
  destruct (Z.leb_spec 64 (Replay.highest r - index)); [done|lia].
Qed.

Section stall.
Context {C : Type} `{SrtpCipher C}.

Lemma stuck_refuses sub (o : Outbound.SrtpOutbound C) buf len seq :
  stuck sub o → 0 ≤ Sub.last_out_seq (Sub.rewrite sub) → 0 ≤ seq < 32768 →
  read_be (E:=()) 2 2 buf = Ok seq →
  be_u32 (E:=()) buf 8 = Ok (Sub.out_ssrc (Sub.rewrite sub)) →
  ∃ o', Outbound.protect_rtp len (o, buf) = Err ((), (o', buf)) ∧ stuck sub o'.
Proof.
  intros (i & s & Hi & Hs & Hroc & Hh & He & Hw & Htop) H0 Hseq Hrs Hrx.
  unfold Outbound.protect_rtp. run_st. case_bool_decide; [exists o; split; [done|]; by exists i, s|].
  rewrite Hrs, Hrx, Hi. cbn [of_option]. unfold idx. rewrite Hs. cbn [expect]. rewrite Hroc, estimate_low by lia.
  cbn [map_err]. unfold Outbound.on_slot at 1, zoom at 1, at_slot. cbn [fst snd]. rewrite Hs.
  unfold quiet, Outbound.check_sent, zoom. rewrite check_refuses by (done || lia). eexists. split; [done|].
  exists i. eexists. cbn [Outbound.slots Outbound.set_slots]. unfold Outbound.slot_of. cbn [Outbound.slots].
  assert (Hlt := lookup_lt_Some _ _ _ Hs).
  split; [|split; [by apply list_lookup_insert_eq|done]]. rewrite <- Hi. by apply position_insert with s.
Qed.

(** C25: a subscription in that state never advances again. Every packet the
    rewrite would move it forward with, whatever the packet, the time and the
    random numbers, is refused by the SRTP context, which stays in that state;
    nothing is committed, so this repeats for every later packet. *)
Theorem stalled_for_good sub (o : Outbound.SrtpOutbound C) hdr rng now buf len :
  reachable (Sub.rewrite sub) → Sub.started (Sub.rewrite sub) = true →
  is_u16 (RtpHeader.sequence_number hdr) → stuck sub o →
  let a := advance_of sub hdr rng now in
  as_i16 (wrapping_sub 16 (out_seq a) (Sub.last_out_seq (Sub.rewrite sub))) > 0 →
  read_be (E:=()) 2 2 buf = Ok (out_seq a) →
  be_u32 (E:=()) buf 8 = Ok (Sub.out_ssrc (Sub.rewrite sub)) →
  ∃ o', Outbound.protect_rtp len (o, buf) = Err ((), (o', buf)) ∧ stuck sub o'.
Proof.
  intros Hr Hst Hseq Hstuck a Hpos Hrs Hrx.
  destruct (next_seq_spec sub hdr rng now Hr Hst Hseq) as [Hstep _]. fold a in Hstep.
  destruct (reachable_aligned _ Hr Hst) as (_ & Ho & _).
  pose proof (advance_of_ranges sub hdr rng now) as [Ha _]. fold a in Ha.
  set (l := Sub.last_out_seq (Sub.rewrite sub)) in *.
  assert (Hl : l < 64) by (destruct Hstuck as (? & ? & ? & ? & ? & ? & _); done).
  apply (stuck_refuses sub o buf len (out_seq a)); try done.
  - apply Ho.
  - unfold in_range, REBASE_GAP in *. unfold wrapping_sub, wrap, as_i16 in *.
    split; [lia|]. destruct (Z.le_gt_cases l (out_seq a)).
    + rewrite Z.mod_small in * by lia. destruct (Z.ltb_spec (out_seq a - l) 32768); lia.
    + lia.
Qed.

End stall.

(** ** How it is reached: the two packets of [sub2] sent *)

Definition sent_both : Outbound.SrtpOutbound Unified.SrtpCipher :=
  match Outbound.run [Outbound.Register 1000; Outbound.ProtectRtp (packet 1000 3) 16;
                      Outbound.ProtectRtp (packet 1000 65529) 16] (Outbound.from_cipher toy_cipher 1000) with
  | Ok (_, o) => o
  | _ => Outbound.from_cipher toy_cipher 1000
  end.

Lemma sub2_stuck : stuck sub2 sent_both.
Proof.
  exists 0%nat. eexists. split; [by vm_compute|]. split; [vm_compute; reflexivity|].
  split_and!; by vm_compute.
Qed.

(** The next packets, 501 and (after a pause, rebased) 9000, would go out as 4. *)
Lemma stalled_for_good_witness :
  (∃ o', Outbound.protect_rtp 16 (sent_both, packet 1000 4) = Err ((), (o', packet 1000 4)) ∧ stuck sub2 o') ∧
  (∃ o', Outbound.protect_rtp 16 (sent_both, packet 1000 4) = Err ((), (o', packet 1000 4)) ∧ stuck sub2 o').
Proof.
  split.
  - apply (stalled_for_good sub2 sent_both (header 501) seed 0); [apply sub2_reachable|done|done|apply sub2_stuck|..];
      by vm_compute.
  - apply (stalled_for_good sub2 sent_both (header 9000) seed (secs 6)); [apply sub2_reachable|done|done|apply sub2_stuck|..];
      by vm_compute.
Defined.
