(* ===== verification/RtcpWire.v ===== *)
(** * RTCP on the wire

    [crates/nexus-media/src/rtcp/header.rs], [compound.rs] and the sender
    report, report block and PLI of [packet.rs], and the allocation-free
    writers and the FIR reader of [crates/nexus-dataplane/src/rtcp.rs]. *)

From S2P Require Import Prelude RtpHeader Model.

Inductive RtcpError :=
| RtcpTooShort (actual_bytes min_bytes : nat)
| RtcpInvalidVersion (version : Z)
| InvalidPacketType (packet_type : Z)
| InvalidReportCount (count : Z) (available_bytes : nat).

Module Rtcp.

Definition RTCP_HEADER_MIN_SIZE_BYTES : nat := 8.
Definition RTCP_VERSION : Z := 2.
Definition MAX_COMPOUND_PACKETS : nat := 16.

Inductive RtcpType :=
| SenderReport_ | ReceiverReport_ | SourceDescription | Goodbye | ApplicationDefined
| TransportFeedback | PayloadFeedback | ExtendedReports | Unknown (pt : Z).

Definition from_byte (pt : Z) : RtcpType :=
  if pt =? 200 then SenderReport_ else if pt =? 201 then ReceiverReport_
  else if pt =? 202 then SourceDescription else if pt =? 203 then Goodbye
  else if pt =? 204 then ApplicationDefined else if pt =? 205 then TransportFeedback
  else if pt =? 206 then PayloadFeedback else if pt =? 207 then ExtendedReports
  else Unknown pt.

Definition to_byte (t : RtcpType) : Z :=
  match t with
  | SenderReport_ => 200 | ReceiverReport_ => 201 | SourceDescription => 202 | Goodbye => 203
  | ApplicationDefined => 204 | TransportFeedback => 205 | PayloadFeedback => 206
  | ExtendedReports => 207 | Unknown pt => pt
  end.

Record RtcpHeader := mkHeader {
  version : Z;
  padding : bool;
  rc : Z;
  packet_type : RtcpType;
  length_words : Z;
  ssrc : Z;
}.

Definition parse_header (data : list Z) : outcome RtcpError RtcpHeader :=
  fail_if (bool_decide (length data < RTCP_HEADER_MIN_SIZE_BYTES)%nat)
    (RtcpTooShort (length data) RTCP_HEADER_MIN_SIZE_BYTES);;
  first_byte ← idx data 0;
  let version := Z.land (Z.shiftr first_byte 6) 0x03 in
  let padding := negb (Z.land (Z.shiftr first_byte 5) 0x01 =? 0) in
  let count := Z.land first_byte 0x1F in
  fail_if (negb (version =? RTCP_VERSION)) (RtcpInvalidVersion version);;
  pt_byte ← idx data 1;
  let packet_type := from_byte pt_byte in
  length_words ← read_be 2 2 data;
  ssrc ← read_be 4 4 data;
  Ok (mkHeader version padding count packet_type length_words ssrc).

Definition packet_len_bytes (h : RtcpHeader) : nat := ((Z.to_nat (length_words h) + 1) * 4)%nat.

Record CompoundEntry := mkEntry { header : RtcpHeader; data : list Z }.

(** The sub-packets from [offset] on, at most [fuel] of them. *)
Fixpoint demux_from (fuel : nat) (d : list Z) (offset : nat) : outcome RtcpError (list CompoundEntry) :=
  match fuel with
  | O => Ok []
  | S fuel =>
    if bool_decide (offset + RTCP_HEADER_MIN_SIZE_BYTES ≤ length d)%nat then
      b ← idx d offset;
      let version := Z.land (Z.shiftr b 6) 0x03 in
      fail_if (negb (version =? RTCP_VERSION)) (RtcpInvalidVersion version);;
      rest ← slice offset (length d) d;
      h ← parse_header rest;
      let packet_len := packet_len_bytes h in
      fail_if (bool_decide (packet_len < 4 ∨ length d < offset + packet_len)%nat)
        (RtcpTooShort (length d - offset) packet_len);;
      packet_data ← slice offset (offset + packet_len) d;
      entries ← demux_from fuel d (offset + packet_len);
      Ok (mkEntry h packet_data :: entries)
    else Ok []
  end.

Definition demux_compound (d : list Z) : outcome RtcpError (list CompoundEntry) :=
  demux_from MAX_COMPOUND_PACKETS d 0.

(** ** Sender reports *)

Definition SENDER_REPORT_MIN_SIZE_BYTES : nat := 28.

Record SenderReport := mkSr {
  sr_ssrc : Z;
  ntp_timestamp : Z;
  rtp_timestamp : Z;
  packet_count : Z;
  octet_count : Z;
}.

Definition parse_sr (d : list Z) : outcome RtcpError SenderReport :=
  fail_if (bool_decide (length d < SENDER_REPORT_MIN_SIZE_BYTES)%nat)
    (RtcpTooShort (length d) SENDER_REPORT_MIN_SIZE_BYTES);;
  b0 ← idx d 0;
  let version := Z.land (Z.shiftr b0 6) 0x03 in
  fail_if (negb (version =? RTCP_VERSION)) (RtcpInvalidVersion version);;
  pt ← idx d 1;
  fail_if (negb (pt =? 200)) (InvalidPacketType pt);;
  x ← read_be 4 4 d;
  ntp ← read_be 8 8 d;
  rtp ← read_be 4 16 d;
  pc ← read_be 4 20 d;
  oc ← read_be 4 24 d;
  Ok (mkSr x ntp rtp pc oc).

(** ** Report blocks *)

Definition RECEIVER_REPORT_BLOCK_SIZE_BYTES : nat := 24.

Record ReceiverReportBlock := mkBlock {
  block_ssrc : Z;
  fraction_lost : Z;
  cumulative_lost : Z;
  block_highest_seq : Z;
  jitter : Z;
  last_sr : Z;
  delay_since_sr : Z;
}.

(** [i32::from_be_bytes] *)
Definition as_i32 (x : Z) : Z := if x <? 2 ^ 31 then x else x - 2 ^ 32.

Definition parse_block (d : list Z) : outcome RtcpError ReceiverReportBlock :=
  fail_if (bool_decide (length d < RECEIVER_REPORT_BLOCK_SIZE_BYTES)%nat)
    (RtcpTooShort (length d) RECEIVER_REPORT_BLOCK_SIZE_BYTES);;
  x ← read_be 4 0 d;
  fl ← idx d 4;
  b5 ← idx d 5;
  b6 ← idx d 6;
  b7 ← idx d 7;
  let cl := if negb (Z.land b5 0x80 =? 0) then as_i32 (of_be [0xFF; b5; b6; b7])
            else as_i32 (of_be [0x00; b5; b6; b7]) in
  hs ← read_be 4 8 d;
  j ← read_be 4 12 d;
  ls ← read_be 4 16 d;
  ds ← read_be 4 20 d;
  Ok (mkBlock x fl cl hs j ls ds).

(** ** Picture loss indications *)

Record PliPacket := mkPli { sender_ssrc : Z; media_ssrc : Z }.

Definition RTCP_PSFB_PT : Z := 206.

Definition parse_pli (d : list Z) : outcome RtcpError PliPacket :=
  fail_if (bool_decide (length d < 12)%nat) (RtcpTooShort (length d) 12);;
  b0 ← idx d 0;
  let version := Z.land (Z.shiftr b0 6) 0x03 in
  fail_if (negb (version =? RTCP_VERSION)) (RtcpInvalidVersion version);;
  packet_type ← idx d 1;
  fail_if (negb (packet_type =? RTCP_PSFB_PT)) (InvalidPacketType packet_type);;
  let fmt := Z.land b0 0x1F in
  fail_if (negb (fmt =? 1)) (InvalidPacketType fmt);;
  s ← read_be 4 4 d;
  m ← read_be 4 8 d;
  Ok (mkPli s m).

Definition build_pli (p : PliPacket) : list Z :=
  [Z.lor (wrap 8 (Z.shiftl RTCP_VERSION 6)) 1; RTCP_PSFB_PT; 0; 2] ++ to_be 4 (sender_ssrc p) ++ to_be 4 (media_ssrc p).

(** ** The shard's writers *)

Definition PT_SR : Z := 200.
Definition PT_SDES : Z := 202.
Definition PT_PSFB : Z := 206.
Definition FMT_PLI : Z := 1.
Definition FMT_FIR : Z := 4.
Definition SR_LEN : nat := 28.
Definition PLI_LEN : nat := 12.
Definition MAX_FIR_ENTRIES : nat := 16.

Definition write_header (count pt : Z) (len : nat) : writer () :=
  lift (assert_ (bool_decide (len mod 4 = 0 ∧ 4 ≤ len)%nat));; (* debug_assert! *)
  copy 0 [Z.lor 0x80 count];;
  copy 1 [pt];;
  copy 2 (to_be 2 (wrap 16 (Z.of_nat (len / 4 - 1)%nat))).

(** [dst.get_mut(..len)?] and the writes into it *)
Definition in_prefix {A} (len : nat) (m : writer A) : writer A :=
  d ← get;
  if bool_decide (length d < len)%nat then throw () else
  zoom (take len) (fun p d => p ++ drop len d) m.

Definition write_sr (x : Z) (sr : SrInfo) (packets octets : Z) : writer nat :=
  in_prefix SR_LEN (
    write_header 0 PT_SR SR_LEN;;
    copy 4 (to_be 4 x);;
    copy 8 (to_be 8 (ntp sr));;
    copy 16 (to_be 4 (sr_rtp sr));;
    copy 20 (to_be 4 packets);;
    copy 24 (to_be 4 octets);;
    mret SR_LEN).

Definition write_sdes_cname (x : Z) (name : list Z) : writer nat :=
  let len := round_up4 (4 + 4 + 2 + length name + 1) in
  in_prefix len (
    write_header 1 PT_SDES len;;
    copy 4 (to_be 4 x);;
    copy 8 [1];;
    copy 9 [wrap 8 (Z.of_nat (length name))];;
    copy 10 name;;
    copy (10 + length name) (replicate (len - (10 + length name)) 0);;
    mret len).

Definition write_pli (sender media : Z) : writer nat :=
  in_prefix PLI_LEN (
    write_header FMT_PLI PT_PSFB PLI_LEN;;
    copy 4 (to_be 4 sender);;
    copy 8 (to_be 4 media);;
    mret PLI_LEN).

(** [chunks_exact(8).take(n)], the first word of each chunk *)
Fixpoint fir_entries (n : nat) (fci : list Z) : list Z :=
  match n with
  | O => []
  | S n => if bool_decide (length fci < 8)%nat then []
           else of_be (take 4 fci) :: fir_entries n (drop 8 fci)
  end.

Definition fir_targets (packet : list Z) : list Z := fir_entries MAX_FIR_ENTRIES (drop 12 packet).

(** The report sent to a subscriber: SR, then SDES in what follows it. *)
Definition write_report (x : Z) (sr : SrInfo) (packets octets : Z) (name : list Z) : writer nat :=
  n ← write_sr x sr packets octets;
  m ← zoom (drop n) (fun t d => take n d ++ t) (write_sdes_cname x name);
  mret (n + m)%nat.

(** ** Parsing compounds *)

Lemma parse_header_no_panic d : no_panic (parse_header d).
Proof. unfold parse_header, RTCP_HEADER_MIN_SIZE_BYTES. np. Qed.

Lemma demux_no_panic fuel : ∀ d offset, no_panic (demux_from fuel d offset).
Proof.
  induction fuel as [|fuel IH]; intros d offset; cbn [demux_from]; [done|].
  unfold RTCP_HEADER_MIN_SIZE_BYTES. case_bool_decide; [|done].
  repeat first [apply parse_header_no_panic | apply IH | np_step]; try (simplify_len; lia).
Qed.

Lemma demux_from_spec fuel : ∀ d offset es, (offset ≤ length d)%nat → demux_from fuel d offset = Ok es →
  (length es ≤ fuel)%nat ∧
  Forall (fun e => length (data e) = packet_len_bytes (header e) ∧ version (header e) = 2) es ∧
  ∃ rest, drop offset d = concat (data <$> es) ++ rest ∧ (length es = fuel ∨ length rest < 8)%nat.
Proof.
  induction fuel as [|fuel IH]; intros d offset es Hoff; cbn [demux_from].
  { intros [= <-]. split; [done|]. split; [constructor|]. exists (drop offset d). by split; [|left]. }
  unfold RTCP_HEADER_MIN_SIZE_BYTES. case_bool_decide as Hroom.
  2: { intros [= <-]. split; [cbn; lia|]. split; [constructor|]. exists (drop offset d). split; [done|].
       right. rewrite length_drop. lia. }
  intros H. inv_ok. simplify_tests.
  match goal with H : demux_from _ _ _ = Ok _ |- _ => apply IH in H as (Hl & Hf & rest & Hr & Hend); [|lia] end.
  subst. split; [cbn; lia|]. split.
  - constructor; [|done]. cbn [data header]. split; [rewrite length_sub_list; lia|].
    match goal with H : parse_header _ = Ok ?h |- version ?h = 2 => unfold parse_header in H; inv_ok; simplify_tests; done end.
  - exists rest. cbn [fmap list_fmap concat data]. split; [|cbn; lia]. rewrite <- app_assoc, <- Hr.
    unfold sub_list. rewrite <- drop_drop. match goal with |- context [firstn ?n _] => replace n with (packet_len_bytes x2) by lia end.
    by rewrite take_drop.
Qed.

(** Splitting a compound never panics. The sub-packets are consecutive
    pieces of the datagram, each as long as its header says and of version 2;
    at most 16 are returned, and what is left over is shorter than a header
    unless that limit was reached. *)
Theorem demux_partition d :
  match demux_compound d with
  | Panic => False
  | Err _ => True
  | Ok es => (length es ≤ MAX_COMPOUND_PACKETS)%nat ∧
      Forall (fun e => length (data e) = packet_len_bytes (header e) ∧ version (header e) = 2) es ∧
      ∃ rest, d = concat (data <$> es) ++ rest ∧ (length es = MAX_COMPOUND_PACKETS ∨ length rest < 8)%nat
  end.
Proof.
  unfold demux_compound. pose proof (demux_no_panic MAX_COMPOUND_PACKETS d 0) as Hn.
  destruct (demux_from _ d 0) as [es|e|] eqn:Hd; [|done|done].
  by apply demux_from_spec in Hd; [|lia].
Qed.

(** ** The writers *)

Definition header_bytes (count pt : Z) (len : nat) : list Z :=
  [Z.lor 0x80 count; pt] ++ to_be 2 (wrap 16 (Z.of_nat (len / 4 - 1)%nat)).

Lemma length_header_bytes count pt len : length (header_bytes count pt len) = 4%nat.
Proof. unfold header_bytes. by rewrite length_app, length_to_be. Qed.

Lemma write_header_run count pt len d : (len mod 4 = 0)%nat → (4 ≤ len)%nat → (4 ≤ length d)%nat →
  write_header count pt len d = Ok ((), header_bytes count pt len ++ drop 4 d).
Proof.
  intros Hm Hl Hd. unfold write_header. run_st. rewrite bool_decide_eq_true_2 by lia.
  change d with ([] ++ d) at 1. rewrite copy_at_end by (cbn; lia). rewrite (app_nil_l [_]).
  rewrite copy_at_end by (rewrite ?length_drop; cbn; lia).
  rewrite copy_at_end by (rewrite ?length_drop, ?length_to_be; cbn; lia).
  rewrite !drop_drop, length_to_be. done.
Qed.

Lemma in_prefix_run {A} len (m : writer A) d a p : (len ≤ length d)%nat → m (take len d) = Ok (a, p) →
  in_prefix len m d = Ok (a, p ++ drop len d).
Proof.
  intros Hl Hm. unfold in_prefix. run_st. rewrite bool_decide_eq_false_2 by lia. unfold zoom. by rewrite Hm.
Qed.

(** Runs a sequence of adjacent copies behind a header. *)
Ltac run_copies :=
  rewrite write_header_run by (simplify_len; done || lia);
  repeat (rewrite copy_at_end by (rewrite ?length_app, ?length_drop, ?length_to_be, ?length_replicate; cbn; lia));
  rewrite !drop_drop, ?length_to_be.

Definition sr_bytes (x : Z) (sr : SrInfo) (packets octets : Z) : list Z :=
  header_bytes 0 PT_SR SR_LEN ++ to_be 4 x ++ to_be 8 (ntp sr) ++ to_be 4 (sr_rtp sr) ++
  to_be 4 packets ++ to_be 4 octets.

Lemma write_sr_run x sr packets octets d :
  write_sr x sr packets octets d =
    if bool_decide (length d < SR_LEN)%nat then Err ((), d)
    else Ok (SR_LEN, sr_bytes x sr packets octets ++ drop SR_LEN d).
Proof.
  case_bool_decide as Hl; unfold SR_LEN in *.
  { unfold write_sr, in_prefix. run_st. unfold SR_LEN. by rewrite bool_decide_eq_true_2. }
  unfold write_sr. apply in_prefix_run; [unfold SR_LEN; lia|]. run_st.
  assert (Ht : length (take 28 d) = 28%nat) by (rewrite length_take; lia).
  unfold SR_LEN, PT_SR. run_copies. cbn [Nat.add]. rewrite drop_ge by lia.
  unfold sr_bytes. by rewrite app_nil_r, <- !app_assoc.
Qed.

Definition sdes_len (name : list Z) : nat := round_up4 (4 + 4 + 2 + length name + 1).

Definition sdes_bytes (x : Z) (name : list Z) : list Z :=
  header_bytes 1 PT_SDES (sdes_len name) ++ to_be 4 x ++ [1] ++ [wrap 8 (Z.of_nat (length name))] ++ name ++
  replicate (sdes_len name - (10 + length name)) 0.

Lemma sdes_len_bounds name : (11 + length name ≤ sdes_len name < 15 + length name)%nat ∧ (sdes_len name mod 4 = 0)%nat.
Proof. unfold sdes_len. pose proof (round_up4_spec (4 + 4 + 2 + length name + 1)). lia. Qed.

Lemma write_sdes_run x name d :
  write_sdes_cname x name d =
    if bool_decide (length d < sdes_len name)%nat then Err ((), d)
    else Ok (sdes_len name, sdes_bytes x name ++ drop (sdes_len name) d).
Proof.
  pose proof (sdes_len_bounds name) as [Hb Hm]. unfold write_sdes_cname. fold (sdes_len name).
  case_bool_decide as Hl.
  { unfold in_prefix. run_st. by rewrite bool_decide_eq_true_2. }
  apply in_prefix_run; [lia|]. run_st. set (n := sdes_len name) in *.
  assert (Ht : length (take n d) = n) by (rewrite length_take; lia). set (t := take n d) in *.
  rewrite write_header_run by lia.
  repeat (rewrite copy_at_end by (rewrite ?length_app, ?length_drop, ?length_header_bytes, ?length_to_be, ?length_replicate;
            cbn [length]; lia)).
  rewrite !drop_drop, ?length_to_be, length_replicate. rewrite drop_ge by (cbn [length]; lia).
  unfold sdes_bytes. fold n. by rewrite app_nil_r, <- !app_assoc.
Qed.

Definition pli_bytes (sender media : Z) : list Z :=
  header_bytes FMT_PLI PT_PSFB PLI_LEN ++ to_be 4 sender ++ to_be 4 media.

Lemma write_pli_run sender media d :
  write_pli sender media d =
    if bool_decide (length d < PLI_LEN)%nat then Err ((), d)
    else Ok (PLI_LEN, pli_bytes sender media ++ drop PLI_LEN d).
Proof.
  case_bool_decide as Hl; unfold PLI_LEN in *.
  { unfold write_pli, in_prefix. run_st. unfold PLI_LEN. by rewrite bool_decide_eq_true_2. }
  unfold write_pli. apply in_prefix_run; [unfold PLI_LEN; lia|]. run_st.
  assert (Ht : length (take 12 d) = 12%nat) by (rewrite length_take; lia).
  unfold PLI_LEN, PT_PSFB. run_copies. cbn [Nat.add]. rewrite drop_ge by lia.
  unfold pli_bytes. by rewrite app_nil_r, <- !app_assoc.
Qed.

(** ** Reading back what was written *)

Lemma first_byte_read c : 0 ≤ c < 32 →
  let b := Z.lor 0x80 c in
  Z.land (Z.shiftr b 6) 3 = 2 ∧ Z.land (Z.shiftr b 5) 1 = 0 ∧ Z.land b 31 = c.
Proof.
  intros Hc b.
  assert (H : forallb (fun c => let b := Z.lor 0x80 c in
      (Z.land (Z.shiftr b 6) 3 =? 2) && (Z.land (Z.shiftr b 5) 1 =? 0) && (Z.land b 31 =? c)) (seqZ 0 32) = true)
    by (vm_compute; reflexivity).
  rewrite forallb_forall in H. specialize (H c ltac:(apply list_elem_of_In, elem_of_seqZ; lia)).
  cbv beta zeta in H. fold b in H. simplify_tests. done.
Qed.

Lemma parse_header_of c pt n (x : list Z) z : 0 ≤ c < 32 → 0 ≤ Z.of_nat (n / 4 - 1) < 65536 → length x = 4%nat →
  parse_header (header_bytes c pt n ++ x ++ z) =
    Ok (mkHeader 2 false c (from_byte pt) (Z.of_nat (n / 4 - 1)) (of_be x)).
Proof.
  intros Hc Hn Hx. unfold parse_header, RTCP_HEADER_MIN_SIZE_BYTES, RTCP_VERSION. run_st.
  rewrite !length_app, length_header_bytes. rewrite bool_decide_eq_false_2 by lia.
  unfold header_bytes at 1 2. unfold idx. cbn [app lookup list_lookup expect].
  destruct (first_byte_read c Hc) as (-> & -> & ->). cbn [Z.eqb Pos.eqb negb].
  rewrite (read_be_at 4 4 _ x z) by (done || apply length_header_bytes).
  unfold header_bytes. rewrite <- (app_assoc [_; _]). rewrite read_be_at by (rewrite ?length_to_be; done).
  rewrite wrap_small by done. rewrite of_be_to_be by done. done.
Qed.

(** One more sub-packet of a compound. *)
Lemma demux_step fuel (pre : list Z) c pt n (x z post : list Z) :
  0 ≤ c < 32 → 0 ≤ Z.of_nat (n / 4 - 1) < 65536 → length x = 4%nat → (n mod 4 = 0)%nat →
  length (header_bytes c pt n ++ x ++ z) = n →
  let e := header_bytes c pt n ++ x ++ z in
  demux_from (S fuel) (pre ++ e ++ post) (length pre) =
    (es ← demux_from fuel ((pre ++ e) ++ post) (length (pre ++ e));
     Ok (mkEntry (mkHeader 2 false c (from_byte pt) (Z.of_nat (n / 4 - 1)) (of_be x)) e :: es)).
Proof.
  intros Hc Hn Hx Hm Hlen e. fold e in Hlen.
  assert (Hn8 : (8 ≤ n)%nat).
  { rewrite <- Hlen. unfold e. rewrite !length_app, length_header_bytes. lia. }
  cbn [demux_from]. unfold RTCP_HEADER_MIN_SIZE_BYTES, RTCP_VERSION.
  rewrite bool_decide_eq_true_2 by (rewrite !length_app; lia).
  assert (H0 : (pre ++ e ++ post) !! length pre = Some (Z.lor 0x80 c)).
  { rewrite lookup_app_r by lia. by rewrite Nat.sub_diag. }
  unfold idx. rewrite H0. run_st. cbn [expect].
  destruct (first_byte_read c Hc) as (-> & _ & _). cbn [Z.eqb Pos.eqb negb].
  unfold slice at 1. rewrite decide_True by (rewrite !length_app; lia).
  assert (Hrest : sub_list (length pre) (length (pre ++ e ++ post)) (pre ++ e ++ post) = e ++ post).
  { unfold sub_list. rewrite drop_app_length. apply firstn_all2. rewrite !length_app. lia. }
  rewrite Hrest. unfold e at 1. rewrite <- !app_assoc, parse_header_of by done.
  assert (Hpl : packet_len_bytes (mkHeader 2 false c (from_byte pt) (Z.of_nat (n / 4 - 1)) (of_be x)) = n).
  { unfold packet_len_bytes. cbn [length_words]. rewrite Nat2Z.id. pose proof (Nat.div_mod_eq n 4). lia. }
  rewrite Hpl. rewrite bool_decide_eq_false_2 by (rewrite !length_app; lia).
  unfold slice. rewrite decide_True by (rewrite !length_app; lia).
  rewrite sub_list_middle by lia. rewrite length_app, Hlen. done.
Qed.

Lemma demux_done fuel (d : list Z) : demux_from fuel d (length d) = Ok [].
Proof.
  destruct fuel; [done|]. cbn [demux_from]. unfold RTCP_HEADER_MIN_SIZE_BYTES.
  by rewrite bool_decide_eq_false_2 by lia.
Qed.

Lemma length_sr_bytes x sr p o : length (sr_bytes x sr p o) = 28%nat.
Proof. unfold sr_bytes. by rewrite !length_app, length_header_bytes, !length_to_be. Qed.

Lemma length_sdes_bytes x name : length (sdes_bytes x name) = sdes_len name.
Proof.
  unfold sdes_bytes. rewrite !length_app, length_header_bytes, length_to_be, length_replicate. cbn [length].
  pose proof (sdes_len_bounds name). lia.
Qed.

Lemma write_report_run x sr p o name d :
  (28 + sdes_len name ≤ length d)%nat →
  write_report x sr p o name d =
    Ok ((28 + sdes_len name)%nat, (sr_bytes x sr p o ++ sdes_bytes x name) ++ drop (28 + sdes_len name) d).
Proof.
  intros Hl. unfold write_report. run_st. rewrite write_sr_run. unfold SR_LEN.
  rewrite bool_decide_eq_false_2 by lia. unfold zoom. rewrite drop_app_length' by (by rewrite length_sr_bytes).
  rewrite write_sdes_run. rewrite length_drop. rewrite bool_decide_eq_false_2 by lia.
  rewrite take_app_length' by (by rewrite length_sr_bytes). by rewrite drop_drop, app_assoc.
Qed.

Lemma parse_sr_bytes x sr p o : is_u32 x → is_u64 (ntp sr) → is_u32 (sr_rtp sr) → is_u32 p → is_u32 o →
  parse_sr (sr_bytes x sr p o) = Ok (mkSr x (ntp sr) (sr_rtp sr) p o).
Proof.
  intros Hx Hn Hr Hp Ho. unfold parse_sr, SENDER_REPORT_MIN_SIZE_BYTES. rewrite length_sr_bytes.
  rewrite bool_decide_eq_false_2 by lia. run_st.
  assert (H0 : sr_bytes x sr p o !! 0%nat = Some 0x80) by done.
  assert (H1 : sr_bytes x sr p o !! 1%nat = Some 200) by done.
  unfold idx. rewrite H0, H1. cbn [expect]. cbn [Z.shiftr Z.land Z.shiftl Pos.land Pos.div2 Pos.iter Z.div2 Z.eqb Pos.eqb negb RTCP_VERSION Pos.Ndouble Z.of_N Pos.pred_double N.double].
  assert (Hr' : ∀ n a (u v w : list Z), sr_bytes x sr p o = u ++ v ++ w → length u = a → length v = n →
    read_be (E:=RtcpError) n a (sr_bytes x sr p o) = Ok (of_be v)).
  { intros n a u v w -> ??. by apply read_be_at. }
  unfold sr_bytes in Hr' |- *. set (h := header_bytes 0 PT_SR SR_LEN) in *.
  assert (Hh : length h = 4%nat) by apply length_header_bytes.
  erewrite (Hr' 4%nat 4%nat h (to_be 4 x)) by (done || apply length_to_be).
  erewrite (Hr' 8%nat 8%nat (h ++ to_be 4 x) (to_be 8 (ntp sr)))
    by (rewrite ?length_app, ?length_to_be; by rewrite <- ?app_assoc).
  erewrite (Hr' 4%nat 16%nat (h ++ to_be 4 x ++ to_be 8 (ntp sr)) (to_be 4 (sr_rtp sr)))
    by (rewrite ?length_app, ?length_to_be; by rewrite <- ?app_assoc).
  erewrite (Hr' 4%nat 20%nat (h ++ to_be 4 x ++ to_be 8 (ntp sr) ++ to_be 4 (sr_rtp sr)) (to_be 4 p))
    by (rewrite ?length_app, ?length_to_be; by rewrite <- ?app_assoc).
  erewrite (Hr' 4%nat 24%nat (h ++ to_be 4 x ++ to_be 8 (ntp sr) ++ to_be 4 (sr_rtp sr) ++ to_be 4 p) (to_be 4 o) [])
    by (rewrite ?length_app, ?length_to_be, ?app_nil_r; by rewrite <- ?app_assoc).
  rewrite !of_be_to_be by done. done.
Qed.

(** the report written for a subscriber is read back as written. For any
    32-bit counters, 64-bit NTP time and a CNAME of at most 255 bytes, in a
    buffer with room for it, the compound splits into exactly an SR and an
    SDES from that SSRC, the SR parses to the values given, the SDES carries
    the CNAME, and the rest of the buffer is untouched. *)
Theorem report_roundtrip x sr p o name d :
  is_u32 x → is_u64 (ntp sr) → is_u32 (sr_rtp sr) → is_u32 p → is_u32 o →
  (length name ≤ 255)%nat → (300 ≤ length d)%nat →
  ∃ n d' h1 h2 b1 b2, write_report x sr p o name d = Ok (n, d') ∧
    length d' = length d ∧ drop n d' = drop n d ∧
    demux_compound (take n d') = Ok [mkEntry h1 b1; mkEntry h2 b2] ∧
    packet_type h1 = SenderReport_ ∧ packet_type h2 = SourceDescription ∧ ssrc h1 = x ∧ ssrc h2 = x ∧
    parse_sr b1 = Ok (mkSr x (ntp sr) (sr_rtp sr) p o) ∧
    sub_list 8 10 b2 = [1; Z.of_nat (length name)] ∧ sub_list 10 (10 + length name) b2 = name.
Proof.
  intros Hx Hn Hr Hp Ho Hname Hd. pose proof (sdes_len_bounds name) as [Hb Hm].
  rewrite write_report_run by lia.
  set (b1 := sr_bytes x sr p o). set (b2 := sdes_bytes x name).
  pose proof (length_sr_bytes x sr p o : length b1 = 28%nat) as Hl1.
  pose proof (length_sdes_bytes x name : length b2 = sdes_len name) as Hl2.
  assert (Hl : length (b1 ++ b2) = (28 + sdes_len name)%nat) by (rewrite length_app; lia).
  do 2 eexists. exists (mkHeader 2 false 0 SenderReport_ 6 x).
  exists (mkHeader 2 false 1 SourceDescription (Z.of_nat (sdes_len name / 4 - 1)) x), b1, b2.
  split; [done|]. split; [rewrite length_app, length_drop; lia|]. split; [by apply drop_app_length'|].
  split; [|split_and!; try done].
  - rewrite take_app_length' by done. unfold demux_compound, MAX_COMPOUND_PACKETS.
    change (demux_from 16 (b1 ++ b2) 0) with (demux_from (S 15) ([] ++ b1 ++ b2) (length (@nil Z))).
    unfold b1 at 1, sr_bytes. rewrite demux_step by (done || by rewrite ?length_to_be, ?length_app, ?length_header_bytes, ?length_to_be).
    fold (sr_bytes x sr p o). fold b1. rewrite app_nil_l. rewrite <- (app_nil_r (b1 ++ b2)), <- app_assoc.
    unfold b2 at 1, sdes_bytes. rewrite demux_step; [|done| |by rewrite length_to_be|done|].
    + fold (sdes_bytes x name). fold b2. rewrite (app_nil_r (b1 ++ b2)), demux_done. run_st.
      rewrite !of_be_to_be by done. done.
    + pose proof (Nat.div_mod_eq (sdes_len name) 4). lia.
    + exact Hl2.
  - by apply parse_sr_bytes.
  - unfold b2, sdes_bytes. rewrite app_assoc, (app_assoc [1]).
    rewrite sub_list_middle by (rewrite ?length_app, ?length_header_bytes, ?length_to_be; cbn; lia).
    rewrite wrap_small; [done|]. unfold in_range. lia.
  - unfold b2, sdes_bytes. rewrite 3!app_assoc.
    by rewrite sub_list_middle by (rewrite ?length_app, ?length_header_bytes, ?length_to_be; cbn; lia).
Qed.

Lemma report_roundtrip_witness :
  ∃ n d' h1 h2 b1 b2, write_report 7 (mkSrInfo 0xE0000000_00000001 90000) 3 4000 [0x61; 0x62; 0x63] (replicate 300 9) = Ok (n, d') ∧
    length d' = length (replicate 300 9) ∧ drop n d' = drop n (replicate 300 9) ∧
    demux_compound (take n d') = Ok [mkEntry h1 b1; mkEntry h2 b2] ∧
    packet_type h1 = SenderReport_ ∧ packet_type h2 = SourceDescription ∧ ssrc h1 = 7 ∧ ssrc h2 = 7 ∧
    parse_sr b1 = Ok (mkSr 7 0xE0000000_00000001 90000 3 4000) ∧
    sub_list 8 10 b2 = [1; 3] ∧ sub_list 10 (10 + 3) b2 = [0x61; 0x62; 0x63].
Proof.
  apply (report_roundtrip 7 (mkSrInfo 0xE0000000_00000001 90000) 3 4000 [0x61; 0x62; 0x63] (replicate 300 9));
    try (by vm_compute); cbn; lia.
Defined.

(** a keyframe request written by the shard is the packet the media
    library builds, and parses to the two SSRCs. *)
Theorem pli_roundtrip sender media d : is_u32 sender → is_u32 media → (12 ≤ length d)%nat →
  write_pli sender media d = Ok (12%nat, build_pli (mkPli sender media) ++ drop 12 d) ∧
  parse_pli (build_pli (mkPli sender media)) = Ok (mkPli sender media).
Proof.
  intros Hs Hm Hd. split.
  - rewrite write_pli_run. unfold PLI_LEN. by rewrite bool_decide_eq_false_2 by lia.
  - unfold build_pli. cbn [sender_ssrc media_ssrc]. set (h := [_; _; _; _]).
    assert (Hl : length (h ++ to_be 4 sender ++ to_be 4 media) = 12%nat) by (by rewrite !length_app, !length_to_be).
    unfold parse_pli. rewrite Hl. run_st. rewrite bool_decide_eq_false_2 by lia.
    rewrite (read_be_at 4 4 h) by (done || apply length_to_be).
    assert (Hr : read_be (E:=RtcpError) 4 8 (h ++ to_be 4 sender ++ to_be 4 media) = Ok (of_be (to_be 4 media))).
    { rewrite app_assoc, <- (app_nil_r (to_be 4 media)) at 1. apply read_be_at; [|apply length_to_be].
      by rewrite length_app, length_to_be. }
    rewrite Hr, !of_be_to_be by done. done.
Qed.

Lemma pli_roundtrip_witness :
  write_pli 1 2 (replicate 20 9) = Ok (12%nat, build_pli (mkPli 1 2) ++ replicate 8 9) ∧
  parse_pli (build_pli (mkPli 1 2)) = Ok (mkPli 1 2).
Proof. apply (pli_roundtrip 1 2 (replicate 20 9)); first [by vm_compute | cbn; lia]. Defined.

End Rtcp.
