(* ===== verification/Ice.v ===== *)
(** * ICE-lite binding requests

    [crates/nexus-dataplane/src/ice.rs] (scan, verify, answer) and what it
    uses of [crates/nexus-transport/src/ice/stun]: [integrity.rs]
    (MESSAGE-INTEGRITY and FINGERPRINT) and the XOR-MAPPED-ADDRESS attribute
    of [attributes.rs].

    HMAC-SHA1 and CRC-32 come from the [hmac], [sha1] and [crc32fast] crates:
    they are the parameters [stun_hmac] and [crc32]. *)

From S2P Require Import Prelude RtpHeader Direction Cipher CipherProofs Model RtcpWire.

Class StunCrypto := {
  stun_hmac : list Z → list Z → list Z;
  crc32 : list Z → Z;
}.

(** A digest has 20 bytes; a checksum 32 bits. *)
Class StunCryptoLaws `{StunCrypto} := {
  stun_hmac_law key data : length (stun_hmac key data) = 20%nat ∧ bytes (stun_hmac key data);
  crc32_law data : is_u32 (crc32 data);
}.

(** ** [std::str::from_utf8] *)

Definition cont (b : Z) : bool := (0x80 <=? b) && (b <=? 0xBF).
Definition within (lo hi b : Z) : bool := (lo <=? b) && (b <=? hi).

Fixpoint utf8_ok (l : list Z) : bool :=
  match l with
  | [] => true
  | b :: r =>
    if b <=? 0x7F then utf8_ok r
    else match r with
    | c1 :: r1 =>
      if within 0xC2 0xDF b then cont c1 && utf8_ok r1
      else match r1 with
      | c2 :: r2 =>
        if (b =? 0xE0) && within 0xA0 0xBF c1 || (within 0xE1 0xEC b || within 0xEE 0xEF b) && cont c1
           || (b =? 0xED) && within 0x80 0x9F c1
        then cont c2 && utf8_ok r2
        else match r2 with
        | c3 :: r3 =>
          ((b =? 0xF0) && within 0x90 0xBF c1 || within 0xF1 0xF3 b && cont c1
           || (b =? 0xF4) && within 0x80 0x8F c1) && cont c2 && cont c3 && utf8_ok r3
        | [] => false
        end
      | [] => false
      end
    | [] => false
    end
  end.

Module Ice.

Definition UFRAG_LEN : nat := 16.
Definition MAX_ATTRIBUTES : nat := 32.
Definition STUN_HEADER_SIZE : nat := 20.
Definition RESPONSE_MAX_LEN : nat := (STUN_HEADER_SIZE + 24 + 24 + 8)%nat.
Definition STUN_MAGIC_COOKIE : Z := 0x2112A442.
Definition STUN_FINGERPRINT_XOR : Z := 0x5354554E.
Definition BINDING_REQUEST : Z := 0x0001.
Definition BINDING_SUCCESS : Z := 0x0101.
Definition ATTR_USERNAME : Z := 0x0006.
Definition ATTR_MESSAGE_INTEGRITY : Z := 0x0008.
Definition ATTR_XOR_MAPPED_ADDRESS : Z := 0x0020.
Definition ATTR_USE_CANDIDATE : Z := 0x0025.
Definition ATTR_FINGERPRINT : Z := 0x8028.

Record BindingRequest := mkRequest {
  transaction_id : list Z;
  local_ufrag : list Z;
  use_candidate : bool;
  integrity_offset : nat;
  integrity : list Z;
  fingerprint_offset : nat;
  fingerprint : Z;
}.

Record Offsets := mkOffsets {
  o_username : option (nat * nat);
  o_use_candidate : bool;
  o_integrity : option nat;
  o_fingerprint : option nat;
}.

Definition no_offsets : Offsets := mkOffsets None false None None.

Definition be16 {E} (data : list Z) (at_ : nat) : outcome E Z := read_be 2 at_ data.

(** What one attribute adds to the offsets found. *)
Definition note_attribute (found : Offsets) (at_ : nat) (kind : Z) (len : nat) : option Offsets :=
  if (kind =? ATTR_USERNAME) && negb (is_some (o_username found))
  then Some (mkOffsets (Some ((at_ + 4)%nat, len)) (o_use_candidate found) (o_integrity found) (o_fingerprint found))
  else if kind =? ATTR_USE_CANDIDATE
  then Some (mkOffsets (o_username found) true (o_integrity found) (o_fingerprint found))
  else if kind =? ATTR_MESSAGE_INTEGRITY
  then if bool_decide (len = 20%nat)
       then Some (mkOffsets (o_username found) (o_use_candidate found) (Some at_) (o_fingerprint found)) else None
  else if kind =? ATTR_FINGERPRINT
  then if bool_decide (len = 4%nat)
       then Some (mkOffsets (o_username found) (o_use_candidate found) (o_integrity found) (Some at_)) else None
  else Some found.

(** The pass over the attributes from [at_] on, at most [fuel] of them; an
    [Err] is the [None] of the source. *)
Fixpoint scan_from (fuel : nat) (data : list Z) (at_ : nat) (found : Offsets) : outcome () Offsets :=
  match fuel with
  | O => if bool_decide (at_ = length data) then Ok found else Err ()
  | S fuel =>
    if bool_decide (at_ = length data) then Ok found else
    if bool_decide (length data < at_ + 4)%nat || is_some (o_fingerprint found) then Err () else
    kind ← be16 data at_;
    len ← be16 data (at_ + 2);
    let next := (at_ + 4 + round_up4 (Z.to_nat len))%nat in
    if bool_decide (length data < next)%nat then Err () else
    if is_some (o_integrity found) && negb (kind =? ATTR_FINGERPRINT) then Err () else
    found ← of_option () (note_attribute found at_ kind (Z.to_nat len));
    scan_from fuel data next found
  end.

Definition scan_attributes (data : list Z) : outcome () Offsets :=
  scan_from MAX_ATTRIBUTES data STUN_HEADER_SIZE no_offsets.

Definition scan (data : list Z) : outcome () BindingRequest :=
  if bool_decide (length data < STUN_HEADER_SIZE)%nat then Err () else
  ty ← be16 data 0;
  if negb (ty =? BINDING_REQUEST) then Err () else
  cookie ← slice 4 8 data;
  if bool_decide (cookie ≠ to_be 4 STUN_MAGIC_COOKIE) then Err () else
  body ← be16 data 2;
  if negb (body mod 4 =? 0) || bool_decide (STUN_HEADER_SIZE + Z.to_nat body ≠ length data)%nat then Err () else
  found ← scan_attributes data;
  '(user_at, user_len) ← of_option () (o_username found);
  username ← slice user_at (user_at + user_len) data;
  if negb (utf8_ok username) || bool_decide (username !! UFRAG_LEN ≠ Some 58) then Err () else
  mi_at ← of_option () (o_integrity found);
  fp_at ← of_option () (o_fingerprint found);
  fp ← slice (fp_at + 4) (fp_at + 8) data;
  tid ← slice 8 20 data;
  ufrag ← slice 0 UFRAG_LEN username;
  mi ← slice (mi_at + 4) (mi_at + 24) data;
  Ok (mkRequest tid ufrag (o_use_candidate found) mi_at mi fp_at (of_be fp)).

Section crypto.
Context `{StunCrypto}.

(** The bytes MESSAGE-INTEGRITY and FINGERPRINT are computed over: the header
    with its length field set to [adjusted_len], and the attributes before. *)
Definition covered {E} (data : list Z) (offset : nat) (adjusted_len : nat) : outcome E (list Z) :=
  a ← slice 0 2 data;
  b ← slice 4 STUN_HEADER_SIZE data;
  c ← slice STUN_HEADER_SIZE offset data;
  Ok (a ++ to_be 2 (wrap 16 (Z.of_nat adjusted_len)) ++ b ++ c).

Definition compute_message_integrity {E} (data : list Z) (integrity_offset : nat) (key : list Z) : outcome E (list Z) :=
  assert_ (bool_decide (STUN_HEADER_SIZE ≤ length data)%nat);;
  assert_ (bool_decide (STUN_HEADER_SIZE ≤ integrity_offset)%nat);;
  assert_ (bool_decide (key ≠ [] ∧ (length key ≤ 256)%nat));;
  let adjusted_len := (integrity_offset - STUN_HEADER_SIZE + 24)%nat in
  assert_ (bool_decide (adjusted_len ≤ length data + 24)%nat);;
  c ← covered data integrity_offset adjusted_len;
  Ok (stun_hmac key c).

Definition verify_message_integrity {E} (data : list Z) (integrity_offset : nat) (expected key : list Z) : outcome E bool :=
  assert_ (bool_decide (length expected = 20%nat));;
  if bool_decide (length data < STUN_HEADER_SIZE ∨ integrity_offset < STUN_HEADER_SIZE ∨
                  length data < integrity_offset ∨ key = [] ∨ 256 < length key)%nat then Ok false else
  computed ← compute_message_integrity data integrity_offset key;
  Ok (fold_left Z.lor (zip_with Z.lxor computed expected) 0 =? 0).

Definition compute_fingerprint {E} (data : list Z) (fingerprint_offset : nat) : outcome E Z :=
  assert_ (bool_decide (STUN_HEADER_SIZE ≤ length data)%nat);;
  assert_ (bool_decide (STUN_HEADER_SIZE ≤ fingerprint_offset)%nat);;
  let adjusted_len := (fingerprint_offset - STUN_HEADER_SIZE + 8)%nat in
  assert_ (bool_decide (8 ≤ adjusted_len ∧ adjusted_len ≤ length data + 8)%nat);;
  c ← covered data fingerprint_offset adjusted_len;
  Ok (Z.lxor (crc32 c) STUN_FINGERPRINT_XOR).

Definition verify_fingerprint {E} (data : list Z) (fingerprint_offset : nat) (expected_fp : Z) : outcome E bool :=
  if bool_decide (length data < STUN_HEADER_SIZE ∨ fingerprint_offset < STUN_HEADER_SIZE ∨
                  length data < fingerprint_offset)%nat then Ok false else
  computed ← compute_fingerprint data fingerprint_offset;
  Ok (computed =? expected_fp).

Definition verify {E} (data : list Z) (request : BindingRequest) (password : list Z) : outcome E bool :=
  assert_ (bool_decide (password ≠ []));; (* debug_assert! *)
  ok_fp ← verify_fingerprint (E:=E) data (fingerprint_offset request) (fingerprint request);
  if (ok_fp : bool) then verify_message_integrity data (integrity_offset request) (integrity request) password
  else Ok false.

(** ** The answer *)

Abbreviation writer := (st (list Z) ()).

Definition xor_port (port : Z) : Z := Z.lxor port (wrap 16 (Z.shiftr STUN_MAGIC_COOKIE 16)).

Definition encode_xor_address (addr : SocketAddr) (tid : list Z) : writer nat :=
  copy 0 [0];;
  match addr with
  | V4 ip port =>
    copy 1 [0x01];;
    copy 2 (to_be 2 (xor_port port));;
    copy 4 (zip_with Z.lxor (to_be 4 ip) (to_be 4 STUN_MAGIC_COOKIE));;
    mret 8%nat
  | V6 ip port _ _ =>
    copy 1 [0x02];;
    copy 2 (to_be 2 (xor_port port));;
    copy 4 (zip_with Z.lxor (to_be 16 ip) (to_be 4 STUN_MAGIC_COOKIE ++ tid));;
    mret 20%nat
  end.

(** [StunAttribute::XorMappedAddress(addr).encode] *)
Definition encode_xor_mapped (addr : SocketAddr) (tid : list Z) : writer nat :=
  buf ← get;
  lift (assert_ (bool_decide (24 ≤ length buf)%nat));;
  value_len ← zoom (drop 4) (fun t d => take 4 d ++ t) (encode_xor_address addr tid);
  copy 0 (to_be 2 ATTR_XOR_MAPPED_ADDRESS);;
  copy 2 (to_be 2 (wrap 16 (Z.of_nat value_len)));;
  let total := (4 + value_len)%nat in
  let padded := round_up4 total in
  copy total (replicate (padded - total) 0);;
  lift (assert_ (bool_decide (padded mod 4 = 0)%nat));;
  mret padded.

Definition add_message_integrity (msg_len : nat) (key : list Z) : writer nat :=
  buf ← get;
  lift (assert_ (bool_decide (msg_len + 24 ≤ length buf)%nat));;
  lift (assert_ (bool_decide (STUN_HEADER_SIZE ≤ msg_len)%nat));;
  let new_msg_len := (msg_len + 24)%nat in
  copy 2 (to_be 2 (wrap 16 (Z.of_nat (new_msg_len - STUN_HEADER_SIZE)%nat)));;
  buf ← get;
  hmac ← lift (compute_message_integrity buf msg_len key);
  copy msg_len (to_be 2 0x0008);;
  copy (msg_len + 2) (to_be 2 0x0014);;
  copy (msg_len + 4) hmac;;
  mret new_msg_len.

Definition add_fingerprint (msg_len : nat) : writer nat :=
  buf ← get;
  lift (assert_ (bool_decide (msg_len + 8 ≤ length buf)%nat));;
  lift (assert_ (bool_decide (STUN_HEADER_SIZE ≤ msg_len)%nat));;
  let new_msg_len := (msg_len + 8)%nat in
  copy 2 (to_be 2 (wrap 16 (Z.of_nat (new_msg_len - STUN_HEADER_SIZE)%nat)));;
  buf ← get;
  fp ← lift (compute_fingerprint buf msg_len);
  copy msg_len (to_be 2 0x8028);;
  copy (msg_len + 2) (to_be 2 0x0004);;
  copy (msg_len + 4) (to_be 4 fp);;
  mret new_msg_len.

Definition sign_message (msg_len : nat) (key : list Z) : writer nat :=
  len_after_integrity ← add_message_integrity msg_len key;
  add_fingerprint len_after_integrity.

Definition write_success (request : BindingRequest) (source : SocketAddr) (password : list Z) : writer nat :=
  dst ← get;
  if bool_decide (length dst < RESPONSE_MAX_LEN ∨ password = [])%nat then throw () else
  copy 0 (to_be 2 BINDING_SUCCESS);;
  copy 4 (to_be 4 STUN_MAGIC_COOKIE);;
  copy 8 (transaction_id request);;
  attr ← zoom (drop STUN_HEADER_SIZE) (fun t d => take STUN_HEADER_SIZE d ++ t)
           (encode_xor_mapped source (transaction_id request));
  let body_len := (STUN_HEADER_SIZE + attr)%nat in
  copy 2 (to_be 2 (wrap 16 (Z.of_nat attr)));;
  len ← sign_message body_len password;
  lift (assert_ (bool_decide (len ≤ RESPONSE_MAX_LEN)%nat));; (* debug_assert! *)
  mret len.

End crypto.

(** The reader of the peer: [parse_xor_address]. *)
Definition parse_xor_address (data tid : list Z) : outcome () SocketAddr :=
  if bool_decide (length data < 4)%nat then Err () else
  family ← idx data 1;
  xp ← read_be 2 2 data;
  let port := Z.lxor xp (wrap 16 (Z.shiftr STUN_MAGIC_COOKIE 16)) in
  if family =? 0x01 then
    if bool_decide (length data < 8)%nat then Err () else
    b ← slice 4 8 data;
    Ok (V4 (of_be (zip_with Z.lxor b (to_be 4 STUN_MAGIC_COOKIE))) port)
  else if family =? 0x02 then
    if bool_decide (length data < 20)%nat then Err () else
    b ← slice 4 20 data;
    Ok (V6 (of_be (zip_with Z.lxor b (to_be 4 STUN_MAGIC_COOKIE ++ tid))) port 0 0)
  else Err ().

End Ice.
