(* ===== verification/IceProofs.v ===== *)
(** * Theorems about ICE-lite binding requests

    A scanned request has MESSAGE-INTEGRITY and FINGERPRINT as its last two
    attributes, so a verified one is authenticated in full; the answer
    verifies under the same password and carries the peer's address. *)

From S2P Require Import Prelude RtpHeader Direction Cipher CipherProofs Model RtcpWire Ice.

Module IceProofs.
Import Ice.

(** ** The scan *)

(** The offsets found when the pass has reached [at_]. *)
Record found_ok (data : list Z) (at_ : nat) (f : Offsets) : Prop := {
  f_at : (STUN_HEADER_SIZE ≤ at_ ≤ length data)%nat;
  f_user : ∀ u l, o_username f = Some (u, l) → (u + l ≤ length data)%nat;
  f_last : match o_integrity f, o_fingerprint f with
           | Some m, Some g => (STUN_HEADER_SIZE ≤ m ∧ m + 24 = g ∧ g + 8 = at_)%nat
           | Some m, None => (STUN_HEADER_SIZE ≤ m ∧ m + 24 = at_)%nat
           | None, Some g => (g + 8 = at_)%nat
           | None, None => True
           end;
}.

Lemma note_attribute_ok data at_ f kind len f' :
  found_ok data at_ f → o_fingerprint f = None →
  (is_some (o_integrity f) && negb (kind =? ATTR_FINGERPRINT) = false) →
  (at_ + 4 + round_up4 len ≤ length data)%nat →
  note_attribute f at_ kind len = Some f' → found_ok data (at_ + 4 + round_up4 len) f'.
Proof.
  intros [Hat Hu Hl] Hfp Hmi Hn Hf. pose proof (round_up4_spec len) as [Hr _].
  rewrite Hfp in Hl. unfold note_attribute in Hf.
  destruct (_ && negb (is_some (o_username f))) eqn:Ek1.
  { simplify_eq. simplify_tests. split; cbn [o_username o_integrity o_fingerprint]; [lia|intros ?? [= <- <-]; lia|].
    destruct (o_integrity f); cbn in Hmi; [|by rewrite Hfp]. subst kind. done. }
  destruct (kind =? ATTR_USE_CANDIDATE) eqn:Ek2.
  { simplify_eq. simplify_tests. split; cbn [o_username o_integrity o_fingerprint]; [lia|done|].
    destruct (o_integrity f); cbn in Hmi; [|by rewrite Hfp]. subst kind. done. }
  destruct (kind =? ATTR_MESSAGE_INTEGRITY) eqn:Ek3.
  { case_bool_decide as H20; simplify_eq. simplify_tests. split; cbn [o_username o_integrity o_fingerprint]; [lia|done|]. rewrite Hfp.
    split; [lia|]. change (round_up4 20) with 20%nat. lia. }
  destruct (kind =? ATTR_FINGERPRINT) eqn:Ek4.
  { case_bool_decide as H4; simplify_eq. split; cbn [o_username o_integrity o_fingerprint]; [lia|done|]. change (round_up4 4) with 4%nat in *.
    destruct (o_integrity f); lia. }
  simplify_eq. split; cbn [o_username o_integrity o_fingerprint]; [lia|done|]. rewrite Hfp. destruct (o_integrity f'); [|done]. done.
Qed.

Lemma scan_from_ok fuel : ∀ data at_ f, found_ok data at_ f →
  match scan_from fuel data at_ f with
  | Ok f' => found_ok data (length data) f'
  | Err _ => True
  | Panic => False
  end.
Proof.
  induction fuel as [|fuel IH]; intros data at_ f Hf; cbn [scan_from].
  { case_bool_decide; [by subst|done]. }
  case_bool_decide; [by subst|]. destruct (_ || _) eqn:Hg; [done|]. simplify_tests.
  unfold be16. rewrite !read_be_ok by lia. run_st. case_bool_decide as Hnext; [done|].
  set (kind := of_be (sub_list at_ _ data)). set (len := Z.to_nat _) in *.
  destruct (is_some (o_integrity f) && negb (kind =? ATTR_FINGERPRINT)) eqn:Hmi; [done|].
  destruct (note_attribute f at_ kind len) as [f'|] eqn:Hn; cbn [of_option]; [|done].
  apply IH. apply (note_attribute_ok data at_ f kind len f'); try done; [|lia].
  by destruct (o_fingerprint f).
Qed.

(** What a successful scan guarantees. *)
Lemma scan_ok data :
  match scan data with
  | Panic => False
  | Err _ => True
  | Ok r =>
      (52 ≤ length data)%nat ∧ (integrity_offset r = length data - 32)%nat ∧
      (fingerprint_offset r = length data - 8)%nat ∧
      integrity r = sub_list (length data - 28) (length data - 8) data ∧
      fingerprint r = of_be (sub_list (length data - 4) (length data) data) ∧
      transaction_id r = sub_list 8 20 data ∧ length (local_ufrag r) = UFRAG_LEN ∧
      read_be (E:=()) 2 0 data = Ok BINDING_REQUEST
  end.
Proof.
  unfold scan. case_bool_decide as Hlen; [done|]. unfold STUN_HEADER_SIZE in Hlen.
  unfold be16. rewrite !read_be_ok by lia. run_st. destruct (Z.eqb_spec (of_be (sub_list 0 (0 + 2) data)) BINDING_REQUEST) as [Hty|]; [|done].
  cbn [negb]. unfold slice at 1. rewrite decide_True by lia. case_bool_decide; [done|].
  destruct (_ || _); [done|]. unfold scan_attributes.
  pose proof (scan_from_ok MAX_ATTRIBUTES data STUN_HEADER_SIZE no_offsets) as Hs.
  destruct (scan_from _ _ _ _) as [f|e|]; [|done|].
  2: { apply Hs. split; cbn; [unfold STUN_HEADER_SIZE; lia|done|done]. }
  destruct Hs as [Hat Hu Hl]; [split; cbn; [unfold STUN_HEADER_SIZE; lia|done|done]|].
  destruct (o_username f) as [[u l]|] eqn:Huser; cbn [of_option]; [|done]. specialize (Hu _ _ eq_refl).
  unfold slice at 1. rewrite decide_True by lia. destruct (negb (utf8_ok _) || _) eqn:Hut; [done|].
  apply orb_false_iff in Hut as [_ Hcol]. apply bool_decide_eq_false, dec_stable in Hcol.
  destruct (o_integrity f) as [m|]; cbn [of_option]; [|done].
  destruct (o_fingerprint f) as [g|]; cbn [of_option]; [|done].
  unfold STUN_HEADER_SIZE, UFRAG_LEN in *. assert (Hul := lookup_lt_Some _ _ _ Hcol).
  unfold slice. rewrite !decide_True by lia.
  cbn [integrity_offset fingerprint_offset integrity fingerprint transaction_id local_ufrag].
  replace (length data - 28)%nat with (m + 4)%nat by lia. replace (length data - 8)%nat with (m + 24)%nat by lia.
  replace (length data - 4)%nat with (g + 4)%nat by lia. replace (g + 8)%nat with (length data) by lia.
  split_and!; try lia; try done.
  - by rewrite length_sub_list by lia.
  - by rewrite <- Hty.
Qed.

(** Scanning a datagram never panics, and an accepted binding request
    ends with MESSAGE-INTEGRITY and FINGERPRINT, in this order and with
    nothing after them; the fields returned are the bytes at those places. *)
Theorem scan_exact data :
  match scan data with
  | Panic => False
  | Err _ => True
  | Ok r =>
      (52 ≤ length data)%nat ∧ (integrity_offset r = length data - 32)%nat ∧
      (fingerprint_offset r = length data - 8)%nat ∧
      integrity r = sub_list (length data - 28) (length data - 8) data ∧
      fingerprint r = of_be (sub_list (length data - 4) (length data) data) ∧
      transaction_id r = sub_list 8 20 data ∧ length (local_ufrag r) = UFRAG_LEN ∧
      read_be (E:=()) 2 0 data = Ok BINDING_REQUEST
  end.
Proof. apply scan_ok. Qed.

Section crypto.
Context `{StunCryptoLaws}.

Lemma covered_ok {E} data offset adj : (20 ≤ offset ≤ length data)%nat →
  covered (E:=E) data offset adj =
    Ok (take 2 data ++ to_be 2 (wrap 16 (Z.of_nat adj)) ++ sub_list 4 offset data).
Proof.
  intros Ho. unfold covered, STUN_HEADER_SIZE, slice. rewrite !decide_True by lia. run_st.
  rewrite sub_list_0. rewrite (sub_list_app 4 20 offset) by lia. done.
Qed.

Lemma compute_fingerprint_ok {E} data at_ : (20 ≤ at_ ≤ length data)%nat →
  compute_fingerprint (E:=E) data at_ =
    Ok (Z.lxor (crc32 (take 2 data ++ to_be 2 (wrap 16 (Z.of_nat (at_ - 20 + 8))) ++ sub_list 4 at_ data))
          STUN_FINGERPRINT_XOR).
Proof.
  intros Ha. unfold compute_fingerprint, STUN_HEADER_SIZE. rewrite !bool_decide_eq_true_2 by lia.
  run_st. rewrite covered_ok by lia. done.
Qed.

Lemma compute_integrity_ok {E} data at_ key : (20 ≤ at_ ≤ length data)%nat → key ≠ [] → (length key ≤ 256)%nat →
  compute_message_integrity (E:=E) data at_ key =
    Ok (stun_hmac key (take 2 data ++ to_be 2 (wrap 16 (Z.of_nat (at_ - 20 + 24))) ++ sub_list 4 at_ data)).
Proof.
  intros Ha Hk Hk'. unfold compute_message_integrity, STUN_HEADER_SIZE. rewrite !bool_decide_eq_true_2 by (done || lia).
  run_st. rewrite covered_ok by lia. done.
Qed.

Lemma verify_fingerprint_ok {E} data at_ fp : (20 ≤ at_ ≤ length data)%nat →
  verify_fingerprint (E:=E) data at_ fp =
    Ok (bool_decide (fp = Z.lxor (crc32 (take 2 data ++ to_be 2 (wrap 16 (Z.of_nat (at_ - 20 + 8))) ++
                                          sub_list 4 at_ data)) STUN_FINGERPRINT_XOR)).
Proof.
  intros Ha. unfold verify_fingerprint, STUN_HEADER_SIZE. rewrite bool_decide_eq_false_2 by lia.
  rewrite compute_fingerprint_ok by done. run_st. f_equal. apply Bool.eq_iff_eq_true.
  rewrite Z.eqb_eq, bool_decide_eq_true. naive_solver.
Qed.

Lemma verify_integrity_ok {E} data at_ mi key : (20 ≤ at_ ≤ length data)%nat → length mi = 20%nat →
  key ≠ [] → (length key ≤ 256)%nat →
  verify_message_integrity (E:=E) data at_ mi key =
    Ok (bool_decide (mi = stun_hmac key (take 2 data ++ to_be 2 (wrap 16 (Z.of_nat (at_ - 20 + 24))) ++
                                          sub_list 4 at_ data))).
Proof.
  intros Ha Hmi Hk Hk'. unfold verify_message_integrity, STUN_HEADER_SIZE.
  rewrite (bool_decide_eq_true_2 (length mi = 20%nat)) by done. run_st.
  rewrite bool_decide_eq_false_2; [|intros [?|[?|[?|[?|?]]]]; (done || lia)].
  rewrite compute_integrity_ok by done. run_st. rewrite xor_diff_zero.
  - f_equal. apply bool_decide_ext. naive_solver.
  - rewrite Hmi. apply stun_hmac_law.
Qed.

(** C26: verification of a scanned request never panics and succeeds exactly
    when the checksum and the keyed digest are right. The digest covers the
    whole request up to the digest itself (with the length field as RFC 5389
    prescribes), so an accepted request was made, byte for byte, by a holder
    of the session's password. *)
Theorem verified_in_full data r password :
  scan data = Ok r → password ≠ [] → (length password ≤ 256)%nat →
  let n := length data in
  verify (E:=()) data r password =
    Ok (bool_decide (
      of_be (sub_list (n - 4) n data) =
        Z.lxor (crc32 (take 2 data ++ to_be 2 (wrap 16 (Z.of_nat (n - 20))) ++ sub_list 4 (n - 8) data))
          STUN_FINGERPRINT_XOR ∧
      sub_list (n - 28) (n - 8) data =
        stun_hmac password (take 2 data ++ to_be 2 (wrap 16 (Z.of_nat (n - 28))) ++ sub_list 4 (n - 32) data))).
Proof.
  intros Hs Hp Hp' n. pose proof (scan_ok data) as Hok. rewrite Hs in Hok.
  destruct Hok as (Hn & Hmi & Hfp & Emi & Efp & _). unfold verify. rewrite bool_decide_eq_true_2 by done.
  rewrite Hmi, Hfp, Emi, Efp. fold n. fold n in Hn. run_st. rewrite verify_fingerprint_ok by lia.
  replace (n - 8 - 20 + 8)%nat with (n - 20)%nat by lia. case_bool_decide as Hf.
  - rewrite verify_integrity_ok by (rewrite ?length_sub_list; done || lia).
    replace (n - 32 - 20 + 24)%nat with (n - 28)%nat by lia. f_equal. apply bool_decide_ext. naive_solver.
  - rewrite bool_decide_eq_false_2; [done|]. naive_solver.
Qed.

(** ** The answer *)

(** Overwriting a field between a prefix and the rest. *)
Lemma copy_over {E} n p x y r : length p = n → length x = length y →
  copy (E:=E) n x (p ++ y ++ r) = Ok ((), p ++ x ++ r).
Proof.
  intros <- Hl. rewrite copy_next by (rewrite length_app; lia). rewrite Hl, drop_app_length.
  by rewrite <- app_assoc.
Qed.

Lemma copy_first {E} x y r : length x = length y → copy (E:=E) 0 x (y ++ r) = Ok ((), x ++ r).
Proof. apply (copy_over 0 []). done. Qed.

Definition xor_value (addr : SocketAddr) (tid : list Z) : list Z :=
  match addr with
  | V4 ip port => [0; 1] ++ to_be 2 (xor_port port) ++ zip_with Z.lxor (to_be 4 ip) (to_be 4 STUN_MAGIC_COOKIE)
  | V6 ip port _ _ =>
      [0; 2] ++ to_be 2 (xor_port port) ++ zip_with Z.lxor (to_be 16 ip) (to_be 4 STUN_MAGIC_COOKIE ++ tid)
  end.

Lemma length_xor_value addr tid : length tid = 12%nat →
  length (xor_value addr tid) = match addr with V4 _ _ => 8%nat | V6 _ _ _ _ => 20%nat end.
Proof.
  intros Ht. destruct addr; unfold xor_value;
    by rewrite !length_app, length_zip_with, ?length_app, !length_to_be, ?Ht.
Qed.

Lemma encode_xor_address_run addr tid d : length tid = 12%nat → (20 ≤ length d)%nat →
  encode_xor_address addr tid d =
    Ok (length (xor_value addr tid), xor_value addr tid ++ drop (length (xor_value addr tid)) d).
Proof.
  intros Ht Hd. rewrite length_xor_value by done. unfold encode_xor_address. run_st.
  change d with ([] ++ d) at 1. rewrite copy_at_end by (cbn; lia). rewrite (app_nil_l [_]).
  destruct addr;
    repeat (rewrite copy_at_end by (rewrite ?length_app, ?length_drop, ?length_zip_with, ?length_app, ?length_to_be, ?Ht; cbn [length]; lia));
    rewrite !drop_drop, ?length_zip_with, ?length_app, ?length_to_be, ?Ht; cbn [length Nat.add Nat.min];
    unfold xor_value; by rewrite <- !app_assoc.
Qed.

Definition attr_bytes (addr : SocketAddr) (tid : list Z) : list Z :=
  to_be 2 ATTR_XOR_MAPPED_ADDRESS ++ to_be 2 (wrap 16 (Z.of_nat (length (xor_value addr tid)))) ++ xor_value addr tid.

Lemma encode_xor_mapped_run addr tid d : length tid = 12%nat → (24 ≤ length d)%nat →
  encode_xor_mapped addr tid d =
    Ok (length (attr_bytes addr tid), attr_bytes addr tid ++ drop (length (attr_bytes addr tid)) d).
Proof.
  intros Ht Hd. unfold encode_xor_mapped. run_st. rewrite bool_decide_eq_true_2 by lia.
  unfold zoom. rewrite encode_xor_address_run by (rewrite ?length_drop; done || lia).
  set (v := xor_value addr tid). rewrite drop_drop.
  assert (Hv : length v = 8%nat ∨ length v = 20%nat).
  { unfold v. rewrite length_xor_value by done. destruct addr; auto. }
  assert (Hr : round_up4 (4 + length v) = (4 + length v)%nat) by (by destruct Hv as [-> | ->]).
  assert (Ht4 : take 4 d = take 2 d ++ sub_list 2 4 d).
  { rewrite <- (sub_list_0 2 d), <- sub_list_app by lia. by rewrite sub_list_0. }
  rewrite Ht4, <- app_assoc. rewrite copy_first by (rewrite length_to_be, length_take; lia).
  rewrite copy_over by (rewrite ?length_to_be, ?length_sub_list by lia; cbn [length]; lia). rewrite Hr, Nat.sub_diag.
  cbn [replicate]. set (e := drop (4 + length v) d).
  assert (Hb : (to_be 2 ATTR_XOR_MAPPED_ADDRESS ++ to_be 2 (wrap 16 (Z.of_nat (length v))) ++ v ++ e) =
               attr_bytes addr tid ++ [] ++ e).
  { unfold attr_bytes. fold v. by rewrite <- !app_assoc. }
  assert (Hl : length (attr_bytes addr tid) = (4 + length v)%nat).
  { unfold attr_bytes. fold v. rewrite !length_app, !length_to_be. lia. }
  rewrite Hb, copy_over by done. rewrite bool_decide_eq_true_2 by (by destruct Hv as [-> | ->]).
  rewrite Hl. done.
Qed.

(** A message: type, length field, the rest of the header, attributes. *)
Lemma covered_message (ty l h at_ rest : list Z) offset : length ty = 2%nat → length l = 2%nat → length h = 16%nat →
  offset = (20 + length at_)%nat →
  take 2 (ty ++ l ++ h ++ at_ ++ rest) = ty ∧ sub_list 4 offset (ty ++ l ++ h ++ at_ ++ rest) = h ++ at_.
Proof.
  intros Hty Hl Hh ->. split; [by apply take_app_length'|].
  rewrite (app_assoc ty l), (app_assoc h at_). apply sub_list_middle; rewrite ?length_app; lia.
Qed.

Definition mi_of (key ty h at_ : list Z) : list Z :=
  stun_hmac key (ty ++ to_be 2 (wrap 16 (Z.of_nat (length at_ + 24))) ++ h ++ at_).

Lemma add_integrity_run key (ty l h at_ m rest : list Z) :
  length ty = 2%nat → length l = 2%nat → length h = 16%nat → length m = 24%nat →
  key ≠ [] → (length key ≤ 256)%nat →
  add_message_integrity (20 + length at_) key (ty ++ l ++ h ++ at_ ++ m ++ rest) =
    Ok ((44 + length at_)%nat,
        ty ++ to_be 2 (wrap 16 (Z.of_nat (length at_ + 24))) ++ h ++
        (at_ ++ to_be 2 0x0008 ++ to_be 2 0x0014 ++ mi_of key ty h at_) ++ rest).
Proof.
  intros Hty Hl Hh Hm Hk Hk'. unfold add_message_integrity, STUN_HEADER_SIZE. run_st.
  rewrite !bool_decide_eq_true_2 by (rewrite ?length_app; lia).
  rewrite copy_over by (rewrite ?length_to_be; done).
  replace (20 + length at_ + 24 - 20)%nat with (length at_ + 24)%nat by lia.
  set (l1 := to_be 2 (wrap 16 (Z.of_nat (length at_ + 24)))). assert (Hl1 : length l1 = 2%nat) by apply length_to_be.
  rewrite compute_integrity_ok by (rewrite ?length_app; done || lia).
  destruct (covered_message ty l1 h at_ (m ++ rest) (20 + length at_)) as [-> ->]; try done.
  replace (20 + length at_ - 20 + 24)%nat with (length at_ + 24)%nat by lia. fold l1.
  set (mi := stun_hmac _ _). assert (Hmi : length mi = 20%nat) by apply stun_hmac_law.
  assert (Hmm : m = take 2 m ++ sub_list 2 4 m ++ sub_list 4 24 m).
  { rewrite <- (sub_list_0 2), <- !sub_list_app by lia. rewrite <- Hm. by rewrite sub_list_full. }
  rewrite Hmm at 1. rewrite <- !(app_assoc (take 2 m)), <- (app_assoc (sub_list 2 4 m)).
  rewrite (app_assoc h at_), (app_assoc l1), (app_assoc ty). set (pre := ty ++ l1 ++ h ++ at_).
  assert (Hpre : length pre = (20 + length at_)%nat) by (unfold pre; rewrite !length_app; lia).
  rewrite copy_over by (rewrite ?length_to_be, ?length_take; lia).
  rewrite (app_assoc pre). rewrite copy_over by (rewrite ?length_app, ?length_to_be, ?length_sub_list; lia).
  rewrite (app_assoc (pre ++ _)). rewrite copy_over by (rewrite ?length_app, ?length_to_be, ?length_sub_list; lia).
  f_equal. f_equal; [lia|]. unfold pre, mi_of. fold l1. fold mi. by rewrite <- !app_assoc.
Qed.

Definition fp_of (ty h at_ : list Z) : Z :=
  Z.lxor (crc32 (ty ++ to_be 2 (wrap 16 (Z.of_nat (length at_ + 8))) ++ h ++ at_)) STUN_FINGERPRINT_XOR.

Lemma add_fingerprint_run (ty l h at_ m rest : list Z) :
  length ty = 2%nat → length l = 2%nat → length h = 16%nat → length m = 8%nat →
  add_fingerprint (20 + length at_) (ty ++ l ++ h ++ at_ ++ m ++ rest) =
    Ok ((28 + length at_)%nat,
        ty ++ to_be 2 (wrap 16 (Z.of_nat (length at_ + 8))) ++ h ++
        (at_ ++ to_be 2 0x8028 ++ to_be 2 0x0004 ++ to_be 4 (fp_of ty h at_)) ++ rest).
Proof.
  intros Hty Hl Hh Hm. unfold add_fingerprint, STUN_HEADER_SIZE. run_st.
  rewrite !bool_decide_eq_true_2 by (rewrite ?length_app; lia).
  rewrite copy_over by (rewrite ?length_to_be; done).
  replace (20 + length at_ + 8 - 20)%nat with (length at_ + 8)%nat by lia.
  set (l1 := to_be 2 (wrap 16 (Z.of_nat (length at_ + 8)))). assert (Hl1 : length l1 = 2%nat) by apply length_to_be.
  rewrite compute_fingerprint_ok by (rewrite ?length_app; done || lia).
  destruct (covered_message ty l1 h at_ (m ++ rest) (20 + length at_)) as [-> ->]; try done.
  replace (20 + length at_ - 20 + 8)%nat with (length at_ + 8)%nat by lia. fold l1.
  set (fp := Z.lxor _ _).
  assert (Hmm : m = take 2 m ++ sub_list 2 4 m ++ sub_list 4 8 m).
  { rewrite <- (sub_list_0 2), <- !sub_list_app by lia. rewrite <- Hm. by rewrite sub_list_full. }
  rewrite Hmm at 1. rewrite <- !(app_assoc (take 2 m)), <- (app_assoc (sub_list 2 4 m)).
  rewrite (app_assoc h at_), (app_assoc l1), (app_assoc ty). set (pre := ty ++ l1 ++ h ++ at_).
  assert (Hpre : length pre = (20 + length at_)%nat) by (unfold pre; rewrite !length_app; lia).
  rewrite copy_over by (rewrite ?length_to_be, ?length_take; lia).
  rewrite (app_assoc pre). rewrite copy_over by (rewrite ?length_app, ?length_to_be, ?length_sub_list; lia).
  rewrite (app_assoc (pre ++ _)). rewrite copy_over by (rewrite ?length_app, ?length_to_be, ?length_sub_list; lia).
  f_equal. f_equal; [lia|]. unfold pre, fp_of. fold l1. fold fp. by rewrite <- !app_assoc.
Qed.

(** The whole answer. *)
Definition answer (tid : list Z) (source : SocketAddr) (key : list Z) : list Z :=
  let ty := to_be 2 BINDING_SUCCESS in
  let h := to_be 4 STUN_MAGIC_COOKIE ++ tid in
  let at0 := attr_bytes source tid in
  let at1 := at0 ++ to_be 2 0x0008 ++ to_be 2 0x0014 ++ mi_of key ty h at0 in
  ty ++ to_be 2 (wrap 16 (Z.of_nat (length at1 + 8))) ++ h ++
  at1 ++ to_be 2 0x8028 ++ to_be 2 0x0004 ++ to_be 4 (fp_of ty h at1).

Lemma length_attr_bytes addr tid : length tid = 12%nat →
  length (attr_bytes addr tid) = match addr with V4 _ _ => 12%nat | V6 _ _ _ _ => 24%nat end.
Proof.
  intros Ht. unfold attr_bytes. rewrite !length_app, !length_to_be, length_xor_value by done. by destruct addr.
Qed.

Lemma length_mi_of key ty h at_ : length (mi_of key ty h at_) = 20%nat.
Proof. apply stun_hmac_law. Qed.

Lemma length_answer tid source key : length tid = 12%nat →
  length (answer tid source key) = (52 + length (attr_bytes source tid))%nat.
Proof.
  intros Ht. unfold answer. rewrite !length_app, !length_to_be, length_mi_of, Ht. lia.
Qed.

Lemma write_success_run r source key dst :
  length (transaction_id r) = 12%nat → (RESPONSE_MAX_LEN ≤ length dst)%nat → key ≠ [] → (length key ≤ 256)%nat →
  let out := answer (transaction_id r) source key in
  write_success r source key dst = Ok (length out, out ++ drop (length out) dst).
Proof.
  intros Ht Hd Hk Hk' out. set (tid := transaction_id r) in *. unfold RESPONSE_MAX_LEN, STUN_HEADER_SIZE in Hd.
  pose proof (length_answer tid source key Ht) as Hout. fold out in Hout.
  set (at0 := attr_bytes source tid) in *.
  assert (Hat : length at0 = 12%nat ∨ length at0 = 24%nat).
  { unfold at0. rewrite length_attr_bytes by done. destruct source; auto. }
  unfold write_success. run_st. fold tid.
  rewrite bool_decide_eq_false_2 by (unfold RESPONSE_MAX_LEN, STUN_HEADER_SIZE; intros [?|?]; (done || lia)).
  assert (Hsplit : dst = take 2 dst ++ sub_list 2 4 dst ++ sub_list 4 8 dst ++ sub_list 8 20 dst ++ drop 20 dst).
  { rewrite <- (take_drop 20 dst) at 1. rewrite !app_assoc. f_equal. rewrite <- (sub_list_0 2), <- (sub_list_0 20).
    by rewrite <- !sub_list_app by lia. }
  rewrite Hsplit at 1. set (l0 := sub_list 2 4 dst). assert (Hl0 : length l0 = 2%nat) by (apply length_sub_list; lia).
  set (ty := to_be 2 BINDING_SUCCESS). assert (Hty : length ty = 2%nat) by apply length_to_be.
  rewrite copy_first by (rewrite length_take; lia).
  rewrite (app_assoc ty). rewrite copy_over by (rewrite ?length_app, ?length_to_be, ?length_sub_list by lia; lia).
  rewrite (app_assoc (ty ++ l0)). rewrite copy_over by (rewrite ?length_app, ?length_to_be, ?length_sub_list by lia; lia).
  unfold zoom, STUN_HEADER_SIZE. rewrite (app_assoc _ tid).
  set (h := to_be 4 STUN_MAGIC_COOKIE ++ tid). assert (Hh : length h = 16%nat) by (unfold h; rewrite length_app, length_to_be; lia).
  replace (((ty ++ l0) ++ to_be 4 STUN_MAGIC_COOKIE) ++ tid) with (ty ++ l0 ++ h) by (unfold h; by rewrite <- !app_assoc).
  rewrite drop_app_length', take_app_length' by (rewrite !length_app; lia).
  rewrite encode_xor_mapped_run by (rewrite ?length_drop; done || lia). fold at0. rewrite drop_drop.
  rewrite <- (app_assoc ty), <- (app_assoc l0). rewrite copy_over by (rewrite ?length_to_be; done).
  assert (Hm : drop (20 + length at0) dst = sub_list (20 + length at0) (44 + length at0) dst ++
                 sub_list (44 + length at0) (52 + length at0) dst ++ drop (52 + length at0) dst).
  { rewrite app_assoc, <- sub_list_app by lia. unfold sub_list.
    rewrite <- (take_drop (52 + length at0 - (20 + length at0)) (drop (20 + length at0) dst)) at 1.
    rewrite drop_drop. f_equal. f_equal. lia. }
  rewrite Hm. unfold sign_message. run_st.
  rewrite add_integrity_run by (rewrite ?length_to_be, ?length_sub_list; done || lia).
  set (at1 := at0 ++ _ ++ _ ++ mi_of key ty h at0).
  assert (Hat1 : length at1 = (24 + length at0)%nat).
  { unfold at1. rewrite !length_app, !length_to_be, length_mi_of. lia. }
  replace (44 + length at0)%nat with (20 + length at1)%nat by lia.
  rewrite add_fingerprint_run by (rewrite ?length_to_be, ?length_sub_list; done || lia).
  unfold RESPONSE_MAX_LEN, STUN_HEADER_SIZE. rewrite bool_decide_eq_true_2 by lia.
  f_equal. f_equal; [lia|]. rewrite Hout. unfold out, answer. fold ty h at0 at1. by rewrite <- !app_assoc.
Qed.

Lemma sub_list_tail a b (x y : list Z) : length x = a → length (x ++ y) = b → sub_list a b (x ++ y) = y.
Proof.
  intros Hx Hb. rewrite <- (app_nil_r y) at 1. apply sub_list_middle; [done|]. rewrite length_app in Hb. lia.
Qed.

Lemma zip_lxor_twice (a k : list Z) : (length a ≤ length k)%nat →
  zip_with Z.lxor (zip_with Z.lxor a k) k = a.
Proof.
  revert k; induction a as [|x a IH]; intros [|y k] Hl; cbn in *; try done; [lia|].
  rewrite Z.lxor_assoc, Z.lxor_nilpotent, Z.lxor_0_r, IH by lia. done.
Qed.

(** Addresses of the width of their kind. *)
Definition addr_ok (a : SocketAddr) : Prop :=
  match a with
  | V4 ip port => is_u32 ip ∧ is_u16 port
  | V6 ip port _ _ => in_range 128 ip ∧ is_u16 port
  end.

(** An address without the flow and scope of IPv6, which STUN does not carry. *)
Definition bare (a : SocketAddr) : SocketAddr :=
  match a with V4 _ _ => a | V6 ip port _ _ => V6 ip port 0 0 end.

Lemma parse_xor_value addr tid : length tid = 12%nat → addr_ok addr →
  parse_xor_address (xor_value addr tid) tid = Ok (bare addr).
Proof.
  intros Ht Ha. unfold parse_xor_address. rewrite length_xor_value by done.
  rewrite bool_decide_eq_false_2 by (destruct addr; lia).
  assert (Hport : ∀ p, is_u16 p → is_u16 (xor_port p) ∧ Z.lxor (xor_port p) (wrap 16 (Z.shiftr STUN_MAGIC_COOKIE 16)) = p).
  { intros p Hp. unfold xor_port. split; [by apply range_lxor; [|done|apply wrap_range]|].
    by rewrite Z.lxor_assoc, Z.lxor_nilpotent, Z.lxor_0_r. }
  destruct addr as [ip port|ip port fl sc]; destruct Ha as [Hip [Hxp Hp]%Hport]; unfold xor_value, idx;
    cbn [lookup list_lookup app expect]; run_st;
    change (0 :: ?x :: ?l) with ([0; x] ++ l);
    rewrite read_be_at, of_be_to_be by (rewrite ?length_to_be; done); cbn [Z.eqb Pos.eqb];
    rewrite Hp; (rewrite bool_decide_eq_false_2 by lia); unfold slice;
    (rewrite decide_True by (rewrite !length_app, length_to_be, length_zip_with, ?length_app, !length_to_be, ?Ht; cbn [length]; lia));
    rewrite app_assoc;
    (rewrite sub_list_tail by (rewrite ?length_app, ?length_zip_with, ?length_app, ?length_to_be, ?Ht; done));
    (rewrite zip_lxor_twice by (rewrite ?length_app, !length_to_be, ?Ht; lia)); by rewrite of_be_to_be.
Qed.

(** C27: the answer to a request fits the space reserved for it and is what
    the peer expects. It is a binding success with the request's transaction
    id, its length field is right, its XOR-MAPPED-ADDRESS decodes to the
    address the request came from, and its MESSAGE-INTEGRITY and FINGERPRINT
    verify under the session's password; nothing after it is touched. *)
Theorem answer_verifies r source key dst :
  length (transaction_id r) = 12%nat → addr_ok source → (RESPONSE_MAX_LEN ≤ length dst)%nat →
  key ≠ [] → (length key ≤ 256)%nat →
  ∃ n out, write_success r source key dst = Ok (n, out ++ drop n dst) ∧
    length out = n ∧ (n ≤ RESPONSE_MAX_LEN)%nat ∧
    read_be (E:=()) 2 0 out = Ok BINDING_SUCCESS ∧
    read_be (E:=()) 2 2 out = Ok (Z.of_nat (n - STUN_HEADER_SIZE)) ∧
    sub_list 8 20 out = transaction_id r ∧
    parse_xor_address (sub_list 24 (n - 32) out) (transaction_id r) = Ok (bare source) ∧
    verify_message_integrity (E:=()) out (n - 32) (sub_list (n - 28) (n - 8) out) key = Ok true ∧
    verify_fingerprint (E:=()) out (n - 8) (of_be (sub_list (n - 4) n out)) = Ok true.
Proof.
  intros Ht Ha Hd Hk Hk'. set (tid := transaction_id r) in *. rewrite write_success_run by done. fold tid.
  set (out := answer tid source key). exists (length out), out. split; [done|]. split; [done|].
  pose proof (length_answer tid source key Ht) as Hout. fold out in Hout.
  unfold RESPONSE_MAX_LEN, STUN_HEADER_SIZE in *. set (ty := to_be 2 BINDING_SUCCESS).
  assert (Hty : length ty = 2%nat) by apply length_to_be.
  set (h := to_be 4 STUN_MAGIC_COOKIE ++ tid). assert (Hh : length h = 16%nat) by (unfold h; rewrite length_app, length_to_be; lia).
  set (at0 := attr_bytes source tid) in *. set (mi := mi_of key ty h at0).
  set (at1 := at0 ++ to_be 2 0x0008 ++ to_be 2 0x0014 ++ mi).
  set (fp := fp_of ty h at1). set (l := to_be 2 (wrap 16 (Z.of_nat (length at1 + 8)))).
  assert (Hl : length l = 2%nat) by apply length_to_be. assert (Hmi : length mi = 20%nat) by apply length_mi_of.
  assert (Hat : length at0 = 12%nat ∨ length at0 = 24%nat).
  { unfold at0. rewrite length_attr_bytes by done. destruct source; auto. }
  assert (Hat1 : length at1 = (24 + length at0)%nat) by (unfold at1; rewrite !length_app, !length_to_be; lia).
  assert (Eout : out = ty ++ l ++ h ++ at1 ++ to_be 2 0x8028 ++ to_be 2 0x0004 ++ to_be 4 fp) by done.
  assert (Eout0 : out = ty ++ l ++ h ++ at0 ++ to_be 2 0x0008 ++ to_be 2 0x0014 ++ mi ++ to_be 2 0x8028 ++ to_be 2 0x0004 ++ to_be 4 fp).
  { rewrite Eout. unfold at1. by rewrite <- !app_assoc. }
  split; [destruct Hat; lia|]. split_and!.
  - rewrite Eout. rewrite <- (app_nil_l (ty ++ _)). rewrite read_be_at by done. unfold ty. by rewrite of_be_to_be.
  - rewrite Eout at 1. rewrite read_be_at by done. unfold l. rewrite wrap_small by (unfold in_range; lia).
    rewrite of_be_to_be by (unfold in_range; lia). do 2 f_equal. lia.
  - assert (Et : out = (ty ++ l ++ to_be 4 STUN_MAGIC_COOKIE) ++ tid ++
        at1 ++ to_be 2 0x8028 ++ to_be 2 0x0004 ++ to_be 4 fp) by (rewrite Eout; unfold h; by rewrite <- !app_assoc).
    rewrite Et. by rewrite sub_list_middle by (rewrite ?length_app, ?length_to_be; lia).
  - set (v := xor_value source tid). set (a1 := to_be 2 ATTR_XOR_MAPPED_ADDRESS).
    set (a2 := to_be 2 (wrap 16 (Z.of_nat (length v)))).
    assert (Eat : at0 = a1 ++ a2 ++ v) by done.
    assert (Ev : out = (ty ++ l ++ h ++ a1 ++ a2) ++ v ++ to_be 2 0x0008 ++ to_be 2 0x0014 ++ mi ++ to_be 2 0x8028 ++
                       to_be 2 0x0004 ++ to_be 4 fp) by (rewrite Eout0, Eat; by rewrite <- !app_assoc).
    assert (Hv : length at0 = (4 + length v)%nat) by (rewrite Eat, !length_app; unfold a1, a2; rewrite !length_to_be; lia).
    replace (sub_list 24 (length out - 32) out) with v; [by apply parse_xor_value|]. symmetry.
    rewrite Ev at 2. apply sub_list_middle; [rewrite !length_app; unfold a1, a2; rewrite !length_to_be; lia|lia].
  - destruct (covered_message ty l h at0 (to_be 2 0x0008 ++ to_be 2 0x0014 ++ mi ++ to_be 2 0x8028 ++ to_be 2 0x0004 ++ to_be 4 fp)
      (length out - 32)) as [E1 E2]; try done; [lia|]. rewrite <- Eout0 in E1, E2.
    assert (Esub : sub_list (length out - 28) (length out - 8) out = mi).
    { assert (Em : out = (ty ++ l ++ h ++ at0 ++ to_be 2 0x0008 ++ to_be 2 0x0014) ++ mi ++
          to_be 2 0x8028 ++ to_be 2 0x0004 ++ to_be 4 fp) by (rewrite Eout0; by rewrite <- !app_assoc).
      rewrite Em at 3. apply sub_list_middle; [rewrite !length_app, !length_to_be; lia|lia]. }
    rewrite Esub, verify_integrity_ok by (done || lia). rewrite E1, E2.
    replace (length out - 32 - 20 + 24)%nat with (length at0 + 24)%nat by lia.
    by rewrite bool_decide_eq_true_2.
  - destruct (covered_message ty l h at1 (to_be 2 0x8028 ++ to_be 2 0x0004 ++ to_be 4 fp) (length out - 8)) as [E1 E2];
      try done; [lia|]. rewrite <- Eout in E1, E2.
    assert (Esub : of_be (sub_list (length out - 4) (length out) out) = fp).
    { assert (Hfp : is_u32 fp) by (apply range_lxor; [done|apply crc32_law|done]).
      transitivity (of_be (to_be 4 fp)); [f_equal|by apply of_be_to_be].
      assert (Ef : out = (ty ++ l ++ h ++ at1 ++ to_be 2 0x8028 ++ to_be 2 0x0004) ++ to_be 4 fp)
        by (rewrite Eout; by rewrite <- !app_assoc).
      rewrite Ef at 3. apply sub_list_tail; [rewrite !length_app, !length_to_be; lia|by rewrite <- Ef]. }
    rewrite Esub, verify_fingerprint_ok by lia. rewrite E1, E2.
    replace (length out - 8 - 20 + 8)%nat with (length at1 + 8)%nat by lia.
    by rewrite bool_decide_eq_true_2.
Qed.

End crypto.

(** ** Instances, with a digest that repeats its input and a sum as checksum *)

Definition toy_digest (key d : list Z) : list Z :=
  (fun b => b mod 256) <$> take 20 (key ++ drop 2 d ++ replicate 20 0).

#[local] Instance toy_stun : StunCrypto := {|
  stun_hmac := toy_digest;
  crc32 d := fold_left Z.add d 0 mod 2 ^ 32;
|}.

#[local] Instance toy_stun_laws : StunCryptoLaws.
Proof.
  split.
  - intros key d. cbn [stun_hmac toy_stun]. unfold toy_digest. rewrite length_fmap, length_take, !length_app, (length_replicate 20). split; [lia|].
    apply Forall_fmap, Forall_true. intros x. apply Z.mod_pos_bound. lia.
  - intros d. cbn -[Z.pow]. apply Z.mod_pos_bound. lia.
Qed.

Definition sample_password : list Z := replicate 22 0x70.

Definition sample_request : list Z :=
  match sign_message 44 sample_password
    (to_be 2 BINDING_REQUEST ++ [0; 0] ++ to_be 4 STUN_MAGIC_COOKIE ++ replicate 12 7 ++
     to_be 2 ATTR_USERNAME ++ to_be 2 20 ++ replicate 16 0x61 ++ [0x3A; 0x62; 0x62; 0x62] ++ replicate 32 0) with
  | Ok (_, d) => d
  | _ => []
  end.

Definition scanned : BindingRequest :=
  match scan sample_request with Ok r => r | _ => mkRequest [] [] false 0 [] 0 0 end.

Lemma verified_in_full_witness :
  scan sample_request = Ok scanned ∧ verify (E:=()) sample_request scanned sample_password = Ok true.
Proof.
  assert (Hs : scan sample_request = Ok scanned) by (vm_compute; reflexivity). split; [done|].
  rewrite (verified_in_full sample_request scanned sample_password Hs);
    [vm_compute; reflexivity|done|cbn; lia].
Defined.

Lemma answer_verifies_witness :
  let source := V6 0x20010db8_00000000_00000000_00000001 8080 3 4 in
  ∃ n out, write_success scanned source sample_password (replicate 100 9) = Ok (n, out ++ drop n (replicate 100 9)) ∧
    length out = n ∧ (n ≤ RESPONSE_MAX_LEN)%nat ∧
    read_be (E:=()) 2 0 out = Ok BINDING_SUCCESS ∧
    read_be (E:=()) 2 2 out = Ok (Z.of_nat (n - STUN_HEADER_SIZE)) ∧
    sub_list 8 20 out = transaction_id scanned ∧
    parse_xor_address (sub_list 24 (n - 32) out) (transaction_id scanned) = Ok (bare source) ∧
    verify_message_integrity (E:=()) out (n - 32) (sub_list (n - 28) (n - 8) out) sample_password = Ok true ∧
    verify_fingerprint (E:=()) out (n - 8) (of_be (sub_list (n - 4) n out)) = Ok true.
Proof.
  apply (answer_verifies scanned (V6 0x20010db8_00000000_00000000_00000001 8080 3 4) sample_password (replicate 100 9));
    [by vm_compute|by vm_compute| |done|]; vm_compute; lia.
Defined.

End IceProofs.
