(* ===== verification/ShardIo.v ===== *)
(** * Datagram I/O of a shard

    [crates/nexus-dataplane/src/shard/io.rs]: datagrams in pool buffers, the
    receive and send batches, the [DatagramIo] trait and its in-memory
    implementation [MemIo]. A batch is the list of its datagrams. *)

From S2P Require Import Prelude Wp Cipher CipherProofs Pool Model.

Module Io.

Record Datagram := mkDatagram {
  dbuf : Pool.BufRef;
  dlen : nat;
  daddr : SocketAddr;
}.

Definition is_full (cap : nat) (batch : list Datagram) : bool := bool_decide (length batch = cap).

(** [push]: the batch must not be full. *)
Definition push {E} (cap : nat) (d : Datagram) : st (list Datagram) E () :=
  batch ← get;
  lift (assert_ (negb (is_full cap batch)));;
  lift (assert_ (bool_decide (dlen d ≤ Pool.BUF_SIZE)%nat));; (* debug_assert! *)
  put (batch ++ [d]).

Record RecvResult := mkRecv {
  received : nat;
  would_block : bool;
  truncated : nat;
  unreadable : nat;
}.

Definition no_recv : RecvResult := mkRecv 0 false 0 0.
Definition taken (r : RecvResult) : nat := (received r + truncated r + unreadable r)%nat.

Record Sent := mkSent { sent_datagrams : nat; sent_bytes : nat }.

(** What the shard calls. An [Err] of [recv_batch] is an [io::Error]. *)
Class DatagramIo (I : Type) := {
  recv_batch : st (I * list Datagram * Pool.BufferPool) () RecvResult;
  flush : st (I * list Datagram * Pool.BufferPool) () Sent;
}.

(** What the shard relies on: received datagrams are in distinct buffers taken
    from the pool, with lengths that fit; a flush empties the batch and
    returns its buffers. Neither panics. [io_ok] is what holds of the I/O's
    own state, such as that what it queues are bytes. *)
Class DatagramIoLaws (I : Type) `{DatagramIo I} := {
  io_ok : I → Prop;
  recv_law cap used io rx pool :
    Pool.holds cap ((Pool.index ∘ dbuf <$> rx) ++ used) pool →
    Forall (fun d => (dlen d ≤ Pool.BUF_SIZE)%nat ∧ Pool.shard (dbuf d) = Pool.pool_shard pool) rx →
    (length rx ≤ Config.RECV_BATCH)%nat → bytes (Pool.memory pool) → io_ok io →
    match recv_batch (io, rx, pool) with
    | Panic => False
    | Err (_, (io', rx', pool')) => rx' = rx ∧ pool' = pool ∧ io_ok io'
    | Ok (r, (io', rx', pool')) =>
        io_ok io' ∧ ∃ new, rx' = rx ++ new ∧ received r = length new ∧ (length rx' ≤ Config.RECV_BATCH)%nat ∧
        Pool.holds cap ((Pool.index ∘ dbuf <$> rx') ++ used) pool' ∧
        Forall (fun d => (dlen d ≤ Pool.BUF_SIZE)%nat ∧ Pool.shard (dbuf d) = Pool.pool_shard pool) rx' ∧
        Pool.pool_shard pool' = Pool.pool_shard pool ∧ bytes (Pool.memory pool')
    end;
  flush_law cap used io tx pool :
    Pool.holds cap ((Pool.index ∘ dbuf <$> tx) ++ used) pool →
    Forall (fun d => (dlen d ≤ Pool.BUF_SIZE)%nat ∧ Pool.shard (dbuf d) = Pool.pool_shard pool) tx → io_ok io →
    match flush (io, tx, pool) with
    | Ok (s, (io', tx', pool')) =>
        io_ok io' ∧ tx' = [] ∧ (sent_datagrams s ≤ length tx)%nat ∧ Pool.holds cap used pool' ∧
        Pool.memory pool' = Pool.memory pool ∧ Pool.pool_shard pool' = Pool.pool_shard pool
    | _ => False
    end;
}.

(** ** [MemIo] *)

Record Captured := mkCaptured { cap_addr : SocketAddr; start : nat; cap_len : nat }.

Record MemIo := mkMem {
  inbound : list (SocketAddr * list Z);
  out_bytes : list Z;
  out : list Captured;
  dropped_oversize : nat;
}.

Definition mem_new : MemIo := mkMem [] [] [] 0.

Definition push_inbound (from : SocketAddr) (b : list Z) (m : MemIo) : MemIo :=
  mkMem (inbound m ++ [(from, b)]) (out_bytes m) (out m) (dropped_oversize m).

(** The captured datagrams, in send order. *)
Definition outbound (m : MemIo) : list (SocketAddr * list Z) :=
  (fun c => (cap_addr c, sub_list (start c) (start c + cap_len c) (out_bytes m))) <$> out m.

(** The receive loop over the queued datagrams: what stays queued, how many
    were too large, how many were received. *)
Fixpoint mem_recv {E} (inb : list (SocketAddr * list Z)) (dropped recvd : nat)
  : st (list Datagram * Pool.BufferPool) E (list (SocketAddr * list Z) * nat * nat) :=
  match inb with
  | [] => mret ([], dropped, recvd)
  | (addr, b) :: rest =>
    '(rx, _) ← get;
    if is_full Config.RECV_BATCH rx then mret (inb, dropped, recvd)
    else if bool_decide (Pool.BUF_SIZE < length b)%nat then mem_recv rest (S dropped) recvd
    else
      o ← zoom snd (fun p s => (s.1, p)) Pool.take;
      match o with
      | None => mret (inb, dropped, recvd)
      | Some buf =>
        zoom snd (fun p s => (s.1, p)) (Pool.buf_mut buf (d ← get; d ← lift (copy_at 0 b d); put d));;
        zoom fst (fun l s => (l, s.2)) (push Config.RECV_BATCH (mkDatagram buf (length b) addr));;
        mem_recv rest dropped (S recvd)
      end
  end.

Definition mem_recv_batch : st (MemIo * list Datagram * Pool.BufferPool) () RecvResult :=
  '(io, _, _) ← get;
  '(inb, dropped, recvd) ← zoom (fun s => (s.1.2, s.2)) (fun t s => (s.1.1, t.1, t.2))
                             (mem_recv (inbound io) (dropped_oversize io) 0);
  modify (fun s => (mkMem inb (out_bytes io) (out io) dropped, s.1.2, s.2));;
  mret (mkRecv recvd (bool_decide (inb = [])) (dropped - dropped_oversize io) 0).

(** Captures the datagrams and returns their buffers. *)
Fixpoint mem_send {E} (tx : list Datagram) : st (MemIo * Pool.BufferPool) E () :=
  match tx with
  | [] => mret ()
  | d :: tx =>
    '(io, pool) ← get;
    b ← lift (Pool.buf (dbuf d) pool);
    b ← lift (slice 0 (dlen d) b);
    put (mkMem (inbound io) (out_bytes io ++ b) (out io ++ [mkCaptured (daddr d) (length (out_bytes io)) (dlen d)])
           (dropped_oversize io), pool);;
    zoom snd (fun p s => (s.1, p)) (Pool.put (dbuf d));;
    mem_send tx
  end.

Definition mem_flush : st (MemIo * list Datagram * Pool.BufferPool) () Sent :=
  '(_, tx, _) ← get;
  let sent := mkSent (length tx) (sum_list (dlen <$> tx)) in
  zoom (fun s => (s.1.1, s.2)) (fun t s => (t.1, s.1.2, t.2)) (mem_send tx);;
  modify (fun s => (s.1.1, [], s.2));;
  mret sent.

#[global] Instance mem_io : DatagramIo MemIo := {|
  recv_batch := mem_recv_batch;
  flush := mem_flush;
|}.

End Io.

(** * The in-memory I/O keeps the contract of a shard's I/O

    [MemIo] of [ShardIo.v] receives into fresh buffers and returns the buffers
    of what it sends: it satisfies [Io.DatagramIoLaws]. *)


Module MemIoProofs.
Import Io.

Abbreviation idxs l := (Pool.index ∘ dbuf <$> l).

(** A datagram in a buffer of the pool of shard [x]. *)
Definition fits (x : Z) (d : Datagram) : Prop := (dlen d ≤ Pool.BUF_SIZE)%nat ∧ Pool.shard (dbuf d) = x.

Definition inbound_ok (l : list (SocketAddr * list Z)) : Prop := Forall (fun p => bytes p.2) l.

(** Writing the bytes of a datagram into a buffer. *)
Lemma copy_buffer {E} cap used p i b (Q : () → Pool.BufferPool → Prop) (X : E → Pool.BufferPool → Prop) :
  Pool.holds cap used p → i ∈ used → (length b ≤ Pool.BUF_SIZE)%nat → bytes b → bytes (Pool.memory p) →
  (∀ p', Pool.holds cap used p' → Pool.pool_shard p' = Pool.pool_shard p → bytes (Pool.memory p') → Q () p') →
  wp (Pool.buf_mut (Pool.mkBuf (Pool.pool_shard p) i) (d ← get; d ← lift (copy_at 0 b d); put d)) p Q X.
Proof.
  intros Hh Hi Hl Hb Hm HQ. assert (Hlt : (i < cap)%nat).
  { rewrite <- (Pool.holds_taken _ _ _ Hh). by eapply lookup_lt_Some, (Pool.holds_used _ _ _ Hh). }
  pose proof (Pool.region _ _ _ _ Hh Hlt) as Hr. unfold Pool.buf_mut. apply wp_zoom. cbn.
  unfold run_to. rewrite on_range_run by lia. run_st.
  set (d := sub_list _ _ (Pool.memory p)). assert (Hd : length d = Pool.BUF_SIZE) by (unfold d; rewrite length_sub_list; lia).
  unfold copy_at. rewrite decide_True by lia. assert (Hd' : length (splice 0 b d) = Pool.BUF_SIZE) by (rewrite length_splice; lia).
  destruct (Pool.write_region cap used p i (splice 0 b d) Hh Hlt Hd') as (Hh' & _ & _).
  apply HQ; [exact Hh'|done|]. cbn. apply bytes_splice; [|done]. apply bytes_splice; [done|]. by apply bytes_sub_list.
Qed.

Lemma mem_recv_ok {E} cap used x inb : ∀ dropped recvd rx p, inbound_ok inb →
  Pool.holds cap (idxs rx ++ used) p → Forall (fits x) rx → Pool.pool_shard p = x →
  (length rx ≤ Config.RECV_BATCH)%nat → bytes (Pool.memory p) →
  wp (mem_recv inb dropped recvd : st _ E _) (rx, p)
    (fun r s => ∃ new, s.1 = rx ++ new ∧ (r.2 = recvd + length new)%nat ∧ (length s.1 ≤ Config.RECV_BATCH)%nat ∧
       Pool.holds cap (idxs s.1 ++ used) s.2 ∧ Forall (fits x) s.1 ∧ Pool.pool_shard s.2 = x ∧ bytes (Pool.memory s.2) ∧ inbound_ok r.1.1)
    (fun _ _ => False).
Proof.
  induction inb as [|[addr b] inb IH]; intros dropped recvd rx p Hin Hh Hrx Hp Hl Hm; cbn [mem_recv]; wp.
  { exists []. rewrite app_nil_r. cbn. by split_and!. }
  assert (Hstop : ∃ new, rx = rx ++ new ∧ (recvd = recvd + length new)%nat).
  { exists []. rewrite app_nil_r. cbn. split; [done|lia]. }
  pose proof Hin as Hall. apply Forall_cons in Hin as [Hb Hin]. cbn in Hb. unfold is_full. case_bool_decide as Hfull; wp.
  { destruct Hstop as (new & H1 & H2). exists new. split_and!; done. }
  case_bool_decide as Hbig; [by apply IH|]. wp. apply wp_zoom. cbn.
  destruct (Pool.take_spec (E:=E) _ _ _ Hh) as [(_ & _ & Heq)|(i & p1 & Heq & Hi & Hlt & Hh1 & Hp1 & Hm1)].
  { eapply wp_ok; [exact Heq|]. wp. destruct Hstop as (new & H1 & H2). exists new. split_and!; done. }
  eapply wp_ok; [exact Heq|]. cbv beta iota. wp. apply wp_zoom. cbn.
  rewrite <- Hp1. eapply (copy_buffer cap); [exact Hh1|left|lia|done|by rewrite Hm1|]. intros p2 Hh2 Hp2 Hm2. wp.
  apply wp_zoom. cbn. unfold push. wp. apply wp_assert; [unfold is_full; by rewrite bool_decide_eq_false_2|]. wp.
  apply wp_assert; [apply bool_decide_eq_true; cbn; lia|]. wp.
  eapply wp_conseq; [apply IH| |done]; [done| | |congruence| |done|].
  - rewrite fmap_app, <- app_assoc. cbn. by rewrite <- Permutation_middle.
  - apply Forall_app. split; [done|]. constructor; [|constructor]. split; cbn; [lia|congruence].
  - rewrite length_app. cbn. lia.
  - intros r [rx' p'] (new & H1 & H2 & H3 & H4 & H5 & H6 & H7 & H8). cbn in *. eexists. rewrite <- app_assoc in H1. split; [exact H1|].
    split_and!; try done. cbn. lia.
Qed.

(** What was captured, and the buffers that came back. *)
Definition contents (p : Pool.BufferPool) (d : Datagram) : SocketAddr * list Z :=
  (daddr d, firstn (dlen d) (Pool.bytes_of p (Pool.index (dbuf d)))).

(** The captured ranges lie in the captured bytes. *)
Definition captured_ok (m : MemIo) : Prop :=
  Forall (fun c => (start c + cap_len c ≤ length (out_bytes m))%nat) (out m).

Lemma outbound_snoc m inb dropped addr b : captured_ok m →
  let m' := mkMem inb (out_bytes m ++ b) (out m ++ [mkCaptured addr (length (out_bytes m)) (length b)]) dropped in
  captured_ok m' ∧ outbound m' = outbound m ++ [(addr, b)].
Proof.
  intros Hok m'. unfold captured_ok, outbound, m' in *. cbn. split.
  - apply Forall_app. split; [|constructor; [cbn; rewrite length_app; lia|constructor]].
    eapply Forall_impl; [exact Hok|]. cbn. intros c Hc. rewrite length_app. lia.
  - rewrite fmap_app. cbn. f_equal; [|f_equal; f_equal].
    + apply list_fmap_ext. intros i c Hc. f_equal. apply (Forall_lookup_1 _ _ _ _ Hok) in Hc. cbn in Hc.
      apply list_eq. intros j. rewrite !lookup_sub_list. case_decide; [|done]. rewrite lookup_app_l by lia. done.
    + rewrite <- (app_nil_r (out_bytes m ++ b)), <- app_assoc. apply sub_list_middle; done.
Qed.

Lemma mem_send_ok {E} cap used x tx : ∀ m p, Pool.holds cap (idxs tx ++ used) p → Forall (fits x) tx →
  Pool.pool_shard p = x → captured_ok m →
  wp (mem_send tx : st _ E _) (m, p)
    (fun _ s => inbound s.1 = inbound m ∧ captured_ok s.1 ∧ outbound s.1 = outbound m ++ (contents p <$> tx) ∧
       Pool.holds cap used s.2 ∧ Pool.memory s.2 = Pool.memory p ∧ Pool.pool_shard s.2 = x) (fun _ _ => False).
Proof.
  induction tx as [|d tx IH]; intros m p Hh Htx Hp Hm; cbn [mem_send]; wp; [by rewrite app_nil_r|].
  apply Forall_cons in Htx as [[Hd Hsh] Htx]. assert (Hlt : (Pool.index (dbuf d) < cap)%nat).
  { rewrite <- (Pool.holds_taken _ _ _ Hh). eapply lookup_lt_Some, (Pool.holds_used _ _ _ Hh). left. }
  eapply wp_lift_ok; [by eapply Pool.buf_spec|]. wp. pose proof (Pool.length_bytes_of _ _ _ _ Hh Hlt) as Hl.
  eapply wp_lift_ok; [unfold slice; rewrite decide_True by lia; by rewrite sub_list_0|]. wp.
  set (b := firstn (dlen d) _). assert (Hb : length b = dlen d) by (unfold b; rewrite length_take; lia).
  destruct (outbound_snoc m (inbound m) (dropped_oversize m) (daddr d) b Hm) as [Hm' Hout]. rewrite Hb in Hm', Hout.
  apply wp_zoom. cbn [fst snd]. destruct d as [[bs i] len addr]. cbn [dbuf dlen daddr Pool.index Pool.shard compose] in *. subst bs.
  destruct (Pool.put_spec (E:=E) _ _ _ _ Hh) as (p' & Heq & Hh' & Hps & Hmem). rewrite Hp in Heq, Hps.
  eapply wp_ok; [exact Heq|]. cbn [fst snd].
  eapply wp_conseq; [apply (IH _ p'); [done|done|done|exact Hm']| |done].
  intros [] [m2 p2] (H1 & H2 & H3 & H4 & H5 & H6). cbn [fst snd inbound] in *. split_and!; [done|done| |done|congruence|done].
  rewrite H3, Hout, <- app_assoc. cbn. do 2 f_equal. apply list_fmap_ext. intros j d _. unfold contents, Pool.bytes_of.
  by rewrite Hmem.
Qed.

Definition mem_ok (m : MemIo) : Prop := inbound_ok (inbound m) ∧ captured_ok m.

Lemma mem_flush_ok cap used m tx p : Pool.holds cap (idxs tx ++ used) p → Forall (fits (Pool.pool_shard p)) tx → mem_ok m →
  ∃ m' p', mem_flush (m, tx, p) = Ok (mkSent (length tx) (sum_list (dlen <$> tx)), (m', [], p')) ∧
    mem_ok m' ∧ outbound m' = outbound m ++ (contents p <$> tx) ∧ inbound m' = inbound m ∧
    Pool.holds cap used p' ∧ Pool.memory p' = Pool.memory p ∧ Pool.pool_shard p' = Pool.pool_shard p.
Proof.
  intros Hh Htx [Hin Hm]. pose proof (mem_send_ok (E:=()) cap used _ tx m p Hh Htx eq_refl Hm) as Hs.
  unfold run_to in Hs. unfold mem_flush. run_st. unfold zoom. cbn [fst snd].
  destruct (mem_send tx (m, p)) as [[[] [m' p']]|[]|]; [|done..]. cbn [fst snd] in *. destruct Hs as (H1 & H2 & H3 & H4 & H5 & H6).
  exists m', p'. split; [done|]. unfold mem_ok. rewrite H1. done.
Qed.

Lemma mem_recv_batch_ok cap used m rx p : Pool.holds cap (idxs rx ++ used) p → Forall (fits (Pool.pool_shard p)) rx →
  (length rx ≤ Config.RECV_BATCH)%nat → bytes (Pool.memory p) → mem_ok m →
  ∃ r m' rx' p' new, mem_recv_batch (m, rx, p) = Ok (r, (m', rx', p')) ∧ mem_ok m' ∧ rx' = rx ++ new ∧
    received r = length new ∧ (length rx' ≤ Config.RECV_BATCH)%nat ∧ Pool.holds cap (idxs rx' ++ used) p' ∧
    Forall (fits (Pool.pool_shard p)) rx' ∧ Pool.pool_shard p' = Pool.pool_shard p ∧ bytes (Pool.memory p').
Proof.
  intros Hh Hrx Hl Hb [Hin Hm].
  pose proof (mem_recv_ok (E:=()) cap used _ (inbound m) (dropped_oversize m) 0 rx p Hin Hh Hrx eq_refl Hl Hb) as Hs.
  unfold run_to in Hs. unfold mem_recv_batch. run_st. unfold zoom. cbn [fst snd].
  destruct (mem_recv _ _ _ (rx, p)) as [[[[inb dr] n] [rx' p']]|[]|]; [|done..]. cbn [fst snd] in *.
  destruct Hs as (new & H1 & H2 & H3 & H4 & H5 & H6 & H7 & H8). do 5 eexists. split; [reflexivity|]. by split_and!.
Qed.

#[global] Instance mem_io_laws : DatagramIoLaws MemIo.
Proof.
  refine {| io_ok := mem_ok |}.
  - intros cap used m rx p Hh Hrx Hl Hb Hm.
    destruct (mem_recv_batch_ok cap used m rx p Hh Hrx Hl Hb Hm) as (r & m' & rx' & p' & new & Heq & H). cbn [recv_batch mem_io].
    rewrite Heq. destruct H as (H0 & H). split; [done|]. by exists new.
  - intros cap used m tx p Hh Htx Hm.
    destruct (mem_flush_ok cap used m tx p Hh Htx Hm) as (m' & p' & Heq & H). cbn [flush mem_io]. rewrite Heq.
    destruct H as (? & ? & ? & ? & ? & ?). cbn. by split_and!.
Defined.

(** What a shard sends through the in-memory I/O is captured: a flush
    succeeds, records every datagram of the batch in order with its address
    and its bytes, empties the batch, returns exactly its buffers to the pool
    and changes no buffer; what is waiting to be received stays. *)
Theorem mem_flush_captures cap used m tx p :
  Pool.holds cap (idxs tx ++ used) p → Forall (fits (Pool.pool_shard p)) tx → mem_ok m →
  ∃ m' p', mem_flush (m, tx, p) = Ok (mkSent (length tx) (sum_list (dlen <$> tx)), (m', [], p')) ∧
    outbound m' = outbound m ++ (contents p <$> tx) ∧ inbound m' = inbound m ∧ mem_ok m' ∧
    Pool.holds cap used p' ∧ Pool.memory p' = Pool.memory p.
Proof.
  intros Hh Htx Hm. destruct (mem_flush_ok cap used m tx p Hh Htx Hm) as (m' & p' & Heq & H1 & H2 & H3 & H4 & H5 & _).
  exists m', p'. by split_and!.
Qed.

(** Two datagrams in the first two of four buffers. *)
Definition flushed_batch : list Datagram :=
  [mkDatagram (Pool.mkBuf 7 1) 3 (V4 1 10); mkDatagram (Pool.mkBuf 7 0) 1 (V4 2 20)].

Definition flushed_pool : Pool.BufferPool :=
  Pool.mkPool 7 (replicate (4 * Pool.BUF_SIZE) 0) [2%nat; 3%nat] [true; true; false; false].

Lemma flushed_holds : Pool.holds 4 (idxs flushed_batch ++ []) flushed_pool.
Proof.
  split; cbn -[replicate Nat.mul].
  - apply length_replicate.
  - done.
  - intros [|[|[|[|i]]]]; cbn; rewrite ?elem_of_cons, ?elem_of_nil; intuition (done || lia).
  - intros [|[|[|[|i]]]]; cbn; rewrite ?elem_of_cons, ?elem_of_nil; intuition (done || lia).
  - split; repeat (constructor; [rewrite ?elem_of_cons, ?elem_of_nil; intuition (done || lia)|]); constructor.
Qed.

Lemma mem_flush_captures_witness :
  ∃ m' p', mem_flush (mem_new, flushed_batch, flushed_pool) = Ok (mkSent 2 4, (m', [], p')) ∧
    outbound m' = [] ++ [contents flushed_pool (mkDatagram (Pool.mkBuf 7 1) 3 (V4 1 10));
                         contents flushed_pool (mkDatagram (Pool.mkBuf 7 0) 1 (V4 2 20))] ∧
    inbound m' = [] ∧ mem_ok m' ∧ Pool.holds 4 [] p' ∧ Pool.memory p' = Pool.memory flushed_pool.
Proof.
  apply (mem_flush_captures 4 [] mem_new flushed_batch flushed_pool); [exact flushed_holds| |].
  - assert (3 ≤ Pool.BUF_SIZE)%nat by (with_strategy transparent [Pool.BUF_SIZE] unfold Pool.BUF_SIZE; lia).
    constructor; [split; cbn; [lia|done]|]. constructor; [split; cbn; [lia|done]|]. constructor.
  - split; constructor.
Defined.

End MemIoProofs.
