(* ===== verification/Shard.v ===== *)
(** * The shard: its state, event delivery and sending

    [crates/nexus-dataplane/src/shard/mod.rs] and the counters of
    [shard/stats.rs]. The command queue is the list of queued commands; the
    counters are a function from their names (the constructors of [counter],
    prefixed [n_]) to unbounded integers. *)

From S2P Require Import Prelude Replay RocIndex RtpHeader Direction Inbound Outbound Cipher CipherProofs Keys Slab Pool Model Rewrite RtcpWire Ice ShardIo.

(** ** Counters *)

Inductive counter :=
| n_iterations | n_parks | n_rx_datagrams | n_rx_bytes | n_rx_truncated | n_rx_errors |
n_rx_unreadable | n_tx_datagrams | n_tx_bytes | n_drop_send_failed | n_tx_full_flushes |
n_drop_unclassified | n_drop_stun | n_drop_stun_auth | n_drop_unknown_addr | n_drop_dtls_unselected
| n_drop_dtls_verified | n_drop_dtls_budget | n_drop_dtls_shard_budget | n_drop_no_srtp |
n_drop_srtp_auth | n_drop_malformed | n_drop_no_route | n_drop_unmapped_pt | n_drop_too_large |
n_drop_srtp_protect | n_drop_pool_empty | n_drop_event_full | n_drop_event_closed |
n_drop_after_consent | n_drop_send_datagram | n_drop_rtcp_malformed | n_stun_answered |
n_nominations | n_rebinds | n_switch_throttled | n_stun_repeated | n_rebased | n_ssrcs_learned |
n_rtcp_received | n_rtcp_ignored | n_sr_translated | n_keyframe_requests | n_keyframe_throttled |
n_consent_lost | n_commands | n_commands_rejected.

#[export] Instance counter_eq_dec : EqDecision counter.
Proof. solve_decision. Defined.

Record Gauges := mkGauges { g_sessions : Z; g_tracks : Z; g_subscriptions : Z; g_rx_pps : Z }.

Module Shard.

Definition COMMAND_BUDGET : nat := 64.
Definition EVENT_RETENTION : nat := 256.
Definition HOUSEKEEPING_INTERVAL : Z := secs 1.
Definition MIN_SWITCH_INTERVAL : Z := millis 100.
Definition PREV_ADDR_GRACE : Z := secs 1.
Definition PARK_RETRY_INTERVAL : Z := millis 10.

Abbreviation Session := (Session.Session Unified.SrtpCipher).

Section shard.
Context {Cr : Crypto} {I S : Type} {Hio : Io.DatagramIo I} {Hsink : EventSink S}.

Record Shard := mkShard {
  config : Config.ShardConfig;
  epoch : Instant;
  io : I;
  events : S;
  commands : list Command;
  pool : Pool.BufferPool;
  rx : list Io.Datagram;
  tx : list Io.Datagram;
  sessions : Slab.Slab Session;
  tracks : Slab.Slab Track.PublishedTrack;
  subs : Slab.Slab Sub.Subscription;
  session_ids : gmap SessionId Slab.Key;
  track_ids : gmap TrackId Slab.Key;
  sub_ids : gmap SubscriptionId Slab.Key;
  by_addr : gmap SocketAddr Slab.Key;
  by_ufrag : gmap (list Z) Slab.Key;
  rng : Z;
  counters : counter → Z;
  published_stats : option ((counter → Z) * Gauges);
  pending_switches : list Slab.Key;
  pending : list Event;
  next_housekeeping : Instant;
  dtls_budget : Z;
  last_sweep : Z * Instant;
  rx_pps : Z;
}.

Definition set_io (v : I) (r : Shard) : Shard :=
  mkShard (config r) (epoch r) v (events r) (commands r) (pool r) (rx r) (tx r) (sessions r) (tracks
    r) (subs r) (session_ids r) (track_ids r) (sub_ids r) (by_addr r) (by_ufrag r) (rng r) (counters
    r) (published_stats r) (pending_switches r) (pending r) (next_housekeeping r) (dtls_budget r)
    (last_sweep r) (rx_pps r).
Definition set_events (v : S) (r : Shard) : Shard :=
  mkShard (config r) (epoch r) (io r) v (commands r) (pool r) (rx r) (tx r) (sessions r) (tracks r)
    (subs r) (session_ids r) (track_ids r) (sub_ids r) (by_addr r) (by_ufrag r) (rng r) (counters r)
    (published_stats r) (pending_switches r) (pending r) (next_housekeeping r) (dtls_budget r)
    (last_sweep r) (rx_pps r).
Definition set_commands (v : list Command) (r : Shard) : Shard :=
  mkShard (config r) (epoch r) (io r) (events r) v (pool r) (rx r) (tx r) (sessions r) (tracks r)
    (subs r) (session_ids r) (track_ids r) (sub_ids r) (by_addr r) (by_ufrag r) (rng r) (counters r)
    (published_stats r) (pending_switches r) (pending r) (next_housekeeping r) (dtls_budget r)
    (last_sweep r) (rx_pps r).
Definition set_pool (v : Pool.BufferPool) (r : Shard) : Shard :=
  mkShard (config r) (epoch r) (io r) (events r) (commands r) v (rx r) (tx r) (sessions r) (tracks
    r) (subs r) (session_ids r) (track_ids r) (sub_ids r) (by_addr r) (by_ufrag r) (rng r) (counters
    r) (published_stats r) (pending_switches r) (pending r) (next_housekeeping r) (dtls_budget r)
    (last_sweep r) (rx_pps r).
Definition set_rx (v : list Io.Datagram) (r : Shard) : Shard :=
  mkShard (config r) (epoch r) (io r) (events r) (commands r) (pool r) v (tx r) (sessions r) (tracks
    r) (subs r) (session_ids r) (track_ids r) (sub_ids r) (by_addr r) (by_ufrag r) (rng r) (counters
    r) (published_stats r) (pending_switches r) (pending r) (next_housekeeping r) (dtls_budget r)
    (last_sweep r) (rx_pps r).
Definition set_tx (v : list Io.Datagram) (r : Shard) : Shard :=
  mkShard (config r) (epoch r) (io r) (events r) (commands r) (pool r) (rx r) v (sessions r) (tracks
    r) (subs r) (session_ids r) (track_ids r) (sub_ids r) (by_addr r) (by_ufrag r) (rng r) (counters
    r) (published_stats r) (pending_switches r) (pending r) (next_housekeeping r) (dtls_budget r)
    (last_sweep r) (rx_pps r).
Definition set_sessions (v : Slab.Slab Session) (r : Shard) : Shard :=
  mkShard (config r) (epoch r) (io r) (events r) (commands r) (pool r) (rx r) (tx r) v (tracks r)
    (subs r) (session_ids r) (track_ids r) (sub_ids r) (by_addr r) (by_ufrag r) (rng r) (counters r)
    (published_stats r) (pending_switches r) (pending r) (next_housekeeping r) (dtls_budget r)
    (last_sweep r) (rx_pps r).
Definition set_tracks (v : Slab.Slab Track.PublishedTrack) (r : Shard) : Shard :=
  mkShard (config r) (epoch r) (io r) (events r) (commands r) (pool r) (rx r) (tx r) (sessions r) v
    (subs r) (session_ids r) (track_ids r) (sub_ids r) (by_addr r) (by_ufrag r) (rng r) (counters r)
    (published_stats r) (pending_switches r) (pending r) (next_housekeeping r) (dtls_budget r)
    (last_sweep r) (rx_pps r).
Definition set_subs (v : Slab.Slab Sub.Subscription) (r : Shard) : Shard :=
  mkShard (config r) (epoch r) (io r) (events r) (commands r) (pool r) (rx r) (tx r) (sessions r)
    (tracks r) v (session_ids r) (track_ids r) (sub_ids r) (by_addr r) (by_ufrag r) (rng r)
    (counters r) (published_stats r) (pending_switches r) (pending r) (next_housekeeping r)
    (dtls_budget r) (last_sweep r) (rx_pps r).
Definition set_session_ids (v : gmap SessionId Slab.Key) (r : Shard) : Shard :=
  mkShard (config r) (epoch r) (io r) (events r) (commands r) (pool r) (rx r) (tx r) (sessions r)
    (tracks r) (subs r) v (track_ids r) (sub_ids r) (by_addr r) (by_ufrag r) (rng r) (counters r)
    (published_stats r) (pending_switches r) (pending r) (next_housekeeping r) (dtls_budget r)
    (last_sweep r) (rx_pps r).
Definition set_track_ids (v : gmap TrackId Slab.Key) (r : Shard) : Shard :=
  mkShard (config r) (epoch r) (io r) (events r) (commands r) (pool r) (rx r) (tx r) (sessions r)
    (tracks r) (subs r) (session_ids r) v (sub_ids r) (by_addr r) (by_ufrag r) (rng r) (counters r)
    (published_stats r) (pending_switches r) (pending r) (next_housekeeping r) (dtls_budget r)
    (last_sweep r) (rx_pps r).
Definition set_sub_ids (v : gmap SubscriptionId Slab.Key) (r : Shard) : Shard :=
  mkShard (config r) (epoch r) (io r) (events r) (commands r) (pool r) (rx r) (tx r) (sessions r)
    (tracks r) (subs r) (session_ids r) (track_ids r) v (by_addr r) (by_ufrag r) (rng r) (counters
    r) (published_stats r) (pending_switches r) (pending r) (next_housekeeping r) (dtls_budget r)
    (last_sweep r) (rx_pps r).
Definition set_by_addr (v : gmap SocketAddr Slab.Key) (r : Shard) : Shard :=
  mkShard (config r) (epoch r) (io r) (events r) (commands r) (pool r) (rx r) (tx r) (sessions r)
    (tracks r) (subs r) (session_ids r) (track_ids r) (sub_ids r) v (by_ufrag r) (rng r) (counters
    r) (published_stats r) (pending_switches r) (pending r) (next_housekeeping r) (dtls_budget r)
    (last_sweep r) (rx_pps r).
Definition set_by_ufrag (v : gmap (list Z) Slab.Key) (r : Shard) : Shard :=
  mkShard (config r) (epoch r) (io r) (events r) (commands r) (pool r) (rx r) (tx r) (sessions r)
    (tracks r) (subs r) (session_ids r) (track_ids r) (sub_ids r) (by_addr r) v (rng r) (counters r)
    (published_stats r) (pending_switches r) (pending r) (next_housekeeping r) (dtls_budget r)
    (last_sweep r) (rx_pps r).
Definition set_rng (v : Z) (r : Shard) : Shard :=
  mkShard (config r) (epoch r) (io r) (events r) (commands r) (pool r) (rx r) (tx r) (sessions r)
    (tracks r) (subs r) (session_ids r) (track_ids r) (sub_ids r) (by_addr r) (by_ufrag r) v
    (counters r) (published_stats r) (pending_switches r) (pending r) (next_housekeeping r)
    (dtls_budget r) (last_sweep r) (rx_pps r).
Definition set_counters (v : counter → Z) (r : Shard) : Shard :=
  mkShard (config r) (epoch r) (io r) (events r) (commands r) (pool r) (rx r) (tx r) (sessions r)
    (tracks r) (subs r) (session_ids r) (track_ids r) (sub_ids r) (by_addr r) (by_ufrag r) (rng r) v
    (published_stats r) (pending_switches r) (pending r) (next_housekeeping r) (dtls_budget r)
    (last_sweep r) (rx_pps r).
Definition set_published_stats (v : option ((counter → Z) * Gauges)) (r : Shard) : Shard :=
  mkShard (config r) (epoch r) (io r) (events r) (commands r) (pool r) (rx r) (tx r) (sessions r)
    (tracks r) (subs r) (session_ids r) (track_ids r) (sub_ids r) (by_addr r) (by_ufrag r) (rng r)
    (counters r) v (pending_switches r) (pending r) (next_housekeeping r) (dtls_budget r)
    (last_sweep r) (rx_pps r).
Definition set_pending_switches (v : list Slab.Key) (r : Shard) : Shard :=
  mkShard (config r) (epoch r) (io r) (events r) (commands r) (pool r) (rx r) (tx r) (sessions r)
    (tracks r) (subs r) (session_ids r) (track_ids r) (sub_ids r) (by_addr r) (by_ufrag r) (rng r)
    (counters r) (published_stats r) v (pending r) (next_housekeeping r) (dtls_budget r) (last_sweep
    r) (rx_pps r).
Definition set_pending (v : list Event) (r : Shard) : Shard :=
  mkShard (config r) (epoch r) (io r) (events r) (commands r) (pool r) (rx r) (tx r) (sessions r)
    (tracks r) (subs r) (session_ids r) (track_ids r) (sub_ids r) (by_addr r) (by_ufrag r) (rng r)
    (counters r) (published_stats r) (pending_switches r) v (next_housekeeping r) (dtls_budget r)
    (last_sweep r) (rx_pps r).
Definition set_next_housekeeping (v : Instant) (r : Shard) : Shard :=
  mkShard (config r) (epoch r) (io r) (events r) (commands r) (pool r) (rx r) (tx r) (sessions r)
    (tracks r) (subs r) (session_ids r) (track_ids r) (sub_ids r) (by_addr r) (by_ufrag r) (rng r)
    (counters r) (published_stats r) (pending_switches r) (pending r) v (dtls_budget r) (last_sweep
    r) (rx_pps r).
Definition set_dtls_budget (v : Z) (r : Shard) : Shard :=
  mkShard (config r) (epoch r) (io r) (events r) (commands r) (pool r) (rx r) (tx r) (sessions r)
    (tracks r) (subs r) (session_ids r) (track_ids r) (sub_ids r) (by_addr r) (by_ufrag r) (rng r)
    (counters r) (published_stats r) (pending_switches r) (pending r) (next_housekeeping r) v
    (last_sweep r) (rx_pps r).
Definition set_last_sweep (v : Z * Instant) (r : Shard) : Shard :=
  mkShard (config r) (epoch r) (io r) (events r) (commands r) (pool r) (rx r) (tx r) (sessions r)
    (tracks r) (subs r) (session_ids r) (track_ids r) (sub_ids r) (by_addr r) (by_ufrag r) (rng r)
    (counters r) (published_stats r) (pending_switches r) (pending r) (next_housekeeping r)
    (dtls_budget r) v (rx_pps r).
Definition set_rx_pps (v : Z) (r : Shard) : Shard :=
  mkShard (config r) (epoch r) (io r) (events r) (commands r) (pool r) (rx r) (tx r) (sessions r)
    (tracks r) (subs r) (session_ids r) (track_ids r) (sub_ids r) (by_addr r) (by_ufrag r) (rng r)
    (counters r) (published_stats r) (pending_switches r) (pending r) (next_housekeeping r)
    (dtls_budget r) (last_sweep r) v.

(** ** Parts of the state *)

(** [counters.c += n] *)
Definition add {E} (c : counter) (n : Z) : st Shard E () :=
  modify (fun sh => set_counters (fun c' => if decide (c' = c) then counters sh c + n else counters sh c') sh).
Definition bump {E} (c : counter) : st Shard E () := add c 1.

Definition get_session {E} (k : Slab.Key) : st Shard E Session :=
  sh ← get; lift (Slab.get k (sessions sh)).
Definition get_track {E} (k : Slab.Key) : st Shard E Track.PublishedTrack :=
  sh ← get; lift (Slab.get k (tracks sh)).
Definition get_sub {E} (k : Slab.Key) : st Shard E Sub.Subscription :=
  sh ← get; lift (Slab.get k (subs sh)).

Definition on_session {E A} (k : Slab.Key) (m : st Session E A) : st Shard E A :=
  zoom sessions set_sessions (Slab.with_mut k m).
Definition on_track {E A} (k : Slab.Key) (m : st Track.PublishedTrack E A) : st Shard E A :=
  zoom tracks set_tracks (Slab.with_mut k m).
Definition on_sub {E A} (k : Slab.Key) (m : st Sub.Subscription E A) : st Shard E A :=
  zoom subs set_subs (Slab.with_mut k m).
Definition on_pool {E A} (m : st Pool.BufferPool E A) : st Shard E A := zoom pool set_pool m.

(** The bytes of a buffer, up to [len]. *)
Definition read_buf {E} (b : Pool.BufRef) (len : nat) : st Shard E (list Z) :=
  sh ← get; d ← lift (Pool.buf b (pool sh)); lift (slice 0 len d).

(** Code on a session's receive context and a buffer. *)
Definition with_inbound {E} (k : Slab.Key) (b : Pool.BufRef)
    (m : st (Inbound.SrtpInbound Unified.SrtpCipher * list Z) () nat) : st Shard E (option nat) :=
  session ← get_session k;
  ctx ← lift (expect (Session.srtp_in session));
  sh ← get;
  d ← lift (Pool.buf b (pool sh));
  let write_back ctx d :=
    on_session k (modify (Session.set_srtp_in (Some ctx)));; on_pool (Pool.buf_mut b (put d)) in
  match m (ctx, d) with
  | Ok (n, (ctx, d)) => write_back ctx d;; mret (Some n)
  | Err (_, (ctx, d)) => write_back ctx d;; mret None
  | Panic => fun _ => Panic
  end.

(** Code on a session's send context, if it has one, and a buffer. *)
Definition with_outbound {E} (k : Slab.Key) (b : Pool.BufRef)
    (m : st (Outbound.SrtpOutbound Unified.SrtpCipher * list Z) () nat) : st Shard E (option nat) :=
  session ← get_session k;
  ctx ← lift (expect (Session.srtp_out session));
  sh ← get;
  d ← lift (Pool.buf b (pool sh));
  let write_back ctx d :=
    on_session k (modify (Session.set_srtp_out (Some ctx)));; on_pool (Pool.buf_mut b (put d)) in
  match m (ctx, d) with
  | Ok (n, (ctx, d)) => write_back ctx d;; mret (Some n)
  | Err (_, (ctx, d)) => write_back ctx d;; mret None
  | Panic => fun _ => Panic
  end.

(** Whole seconds since the epoch. *)
Definition now_s (sh : Shard) (now : Instant) : Z :=
  Z.min (2 ^ 32 - 1) (as_secs (saturating_sub now (epoch sh))).

Definition commands_pending (sh : Shard) : bool := bool_decide (commands sh ≠ []).

Definition push_command (c : Command) : st Shard Command () :=
  sh ← get;
  if bool_decide (4096 ≤ Z.of_nat (length (commands sh))) then throw c
  else put (set_commands (commands sh ++ [c]) sh).

(** ** Sending *)

Definition flush {E} : st Shard E () :=
  sh ← get;
  if bool_decide (tx sh = []) then mret () else
  let queued := length (tx sh) in
  match Io.flush (io sh, tx sh, pool sh) with
  | Ok (sent, (io', tx', pool')) =>
    put (set_io io' (set_tx tx' (set_pool pool' sh)));;
    lift (assert_ (bool_decide (Io.sent_datagrams sent ≤ queued ∧ tx' = [])%nat));; (* debug_assert! *)
    add n_tx_datagrams (Z.of_nat (Io.sent_datagrams sent));;
    add n_tx_bytes (Z.of_nat (Io.sent_bytes sent));;
    add n_drop_send_failed (Z.of_nat (queued - Io.sent_datagrams sent)%nat)
  | _ => fun _ => Panic
  end.

Definition flush_if_full {E} : st Shard E () :=
  sh ← get;
  if Io.is_full Config.SEND_BATCH (tx sh) then bump n_tx_full_flushes;; flush else mret ().

Definition push_tx {E} (d : Io.Datagram) : st Shard E () := zoom tx set_tx (Io.push Config.SEND_BATCH d).

Definition send {E} (buf : Pool.BufRef) (len : nat) (addr : SocketAddr) : st Shard E () :=
  flush_if_full;; push_tx (Io.mkDatagram buf len addr).

(** ** Events *)

Definition event_session (e : Event) : option SessionId :=
  match e with
  | DtlsDatagram id _ | AddressSelected id _ _ | PeerSrtpVerified id | ConsentLost id => Some id
  | CommandRejected id _ => id
  end.

Definition consent_was_lost {E} (e : Event) : st Shard E bool :=
  sh ← get;
  match event_session e ≫= fun id => session_ids sh !! id with
  | Some idx => s ← get_session idx; mret (Session.consent_lost s)
  | None => mret false
  end.

Definition is_dtls (e : Event) : bool := match e with DtlsDatagram _ _ => true | _ => false end.

Definition try_send {E} (e : Event) : st Shard E refusal :=
  sh ← get;
  let '(r, s) := Model.try_send e (events sh) in
  put (set_events s sh);; mret r.

(** The retention queue, once the sink did not take the event. *)
Definition retain {E} (e : Event) : st Shard E bool :=
  sh ← get;
  if is_dtls e || bool_decide (length (pending sh) = EVENT_RETENTION)
  then bump n_drop_event_full;; mret false
  else put (set_pending (pending sh ++ [e]) sh);;
       lift (assert_ (bool_decide (length (pending sh) + 1 ≤ EVENT_RETENTION)%nat));; (* debug_assert! *)
       mret true.

Definition emit {E} (e : Event) : st Shard E bool :=
  lost ← consent_was_lost e;
  if (lost : bool) then bump n_drop_after_consent;; mret true else
  sh ← get;
  if bool_decide (pending sh = []) || is_dtls e then
    r ← try_send e;
    match r with
    | Delivered => mret true
    | Closed => bump n_drop_event_closed;; mret true
    | Full => retain e
    end
  else retain e.

(** Retries the retained events, oldest first, until one is refused. *)
Fixpoint push_retained {E} (l : list Event) : st Shard E () :=
  match l with
  | [] => modify (set_pending [])
  | e :: rest =>
    r ← try_send e;
    match r with
    | Delivered => push_retained rest
    | Full => modify (set_pending (e :: rest))
    | Closed => bump n_drop_event_closed;; push_retained rest
    end
  end.

Definition push_pending {E} : st Shard E () := sh ← get; push_retained (pending sh).

(** The latest time a parked shard must run again. *)
Definition park_deadline {E} (now : Instant) : st Shard E Instant :=
  sh ← get;
  let retry := bool_decide (pending sh ≠ []) || bool_decide (pending_switches sh ≠ []) in
  let deadline := if retry then Z.min (next_housekeeping sh) (now + PARK_RETRY_INTERVAL)
                  else next_housekeeping sh in
  lift (assert_ (deadline <=? Z.max now (next_housekeeping sh) + PARK_RETRY_INTERVAL));; (* debug_assert! *)
  mret deadline.

(** ** Construction *)

Definition new (config : Config.ShardConfig) (io : I) (events : S) (now : Instant)
  : outcome Config.ConfigError Shard :=
  Config.validate config;;
  pool ← Pool.new (Config.shard config) (Z.to_nat (Config.pool_buffers config));
  Ok (mkShard config now io events [] pool [] [] Slab.new Slab.new Slab.new ∅ ∅ ∅ ∅ ∅
        (Config.rng_seed config) (fun _ => 0) None [] [] (now + HOUSEKEEPING_INTERVAL)
        (Config.dtls_budget_per_sweep config) (0, now) 0).

Definition session_addr (id : SessionId) (sh : Shard) : option SocketAddr :=
  k ← session_ids sh !! id; s ← Slab.find (sessions sh) k; Session.addr s.

End shard.

Arguments Shard I S : clear implicits.
End Shard.
