(* ===== verification/ShardRtcp.v ===== *)
(** * Inbound RTCP of a shard

    [crates/nexus-dataplane/src/shard/rtcp.rs]: sender reports translated for
    the subscribers, keyframe requests sent to the publishers. *)

From S2P Require Import Prelude Replay RocIndex RtpHeader Direction Inbound Outbound Cipher CipherProofs Keys Slab Pool Model Rewrite RtcpWire Ice ShardIo Shard.

Module ShardRtcp.
Import Shard.

Definition PLI_THROTTLE : Z := millis 500.
Definition MAX_WANTED : nat := 32.
Definition MAX_SRS : nat := 16.

Record Requests := mkRequests { srs : list (Z * SrInfo); keyframes : list Z }.

(** One SR per SSRC: a later one replaces the earlier. *)
Definition note_sr (x : Z) (info : SrInfo) (r : Requests) : Requests :=
  match position (fun p => p.1 =? x) (srs r) with
  | Some i => mkRequests (<[i := (x, info)]> (srs r)) (keyframes r)
  | None => mkRequests (snd (fixed_push MAX_SRS (x, info) (srs r))) (keyframes r)
  end.

Definition note_keyframe (r : Requests) (x : Z) : Requests :=
  mkRequests (srs r) (snd (fixed_push MAX_WANTED x (keyframes r))).

(** The blocks of a compound; [Err] when one is malformed. *)
Fixpoint read_entries (l : list Rtcp.CompoundEntry) (r : Requests) (ignored : Z) : outcome () (Requests * Z) :=
  match l with
  | [] => Ok (r, ignored)
  | e :: l =>
    match Rtcp.packet_type (Rtcp.header e) with
    | Rtcp.SenderReport_ =>
      sr ← map_err (fun _ => ()) (Rtcp.parse_sr (Rtcp.data e));
      read_entries l (note_sr (Rtcp.sr_ssrc sr) (mkSrInfo (Rtcp.ntp_timestamp sr) (Rtcp.rtp_timestamp sr)) r) ignored
    | Rtcp.PayloadFeedback =>
      if Rtcp.rc (Rtcp.header e) =? Rtcp.FMT_PLI then
        pli ← map_err (fun _ => ()) (Rtcp.parse_pli (Rtcp.data e));
        read_entries l (note_keyframe r (Rtcp.media_ssrc pli)) ignored
      else if Rtcp.rc (Rtcp.header e) =? Rtcp.FMT_FIR then
        read_entries l (fold_left note_keyframe (Rtcp.fir_targets (Rtcp.data e)) r) ignored
      else read_entries l r (ignored + 1)
    | _ => read_entries l r (ignored + 1)
    end
  end.

(** The requests of the compound [data], and how many blocks were ignored. *)
Definition requests_of (data : list Z) : outcome () (Requests * Z) :=
  compound ← map_err (fun _ => ()) (Rtcp.demux_compound data);
  if bool_decide (sum_list (length ∘ Rtcp.data <$> compound) ≠ length data) then Err ()
  else read_entries compound (mkRequests [] []) 0.

Section rtcp.
Context {Cr : Crypto} {I S : Type} {Hio : Io.DatagramIo I} {Hsink : EventSink S}.
Abbreviation Sh := (Shard I S).

Definition read_compound {E} (buf : Pool.BufRef) (len : nat) : st Sh E (option Requests) :=
  data ← read_buf buf len;
  match requests_of data with
  | Ok (r, ignored) => add n_rtcp_ignored ignored;; mret (Some r)
  | Err _ => mret None
  | Panic => fun _ => Panic
  end.

(** Sends a PLI for the track to its publisher, at most once per
    [PLI_THROTTLE]. *)
Definition request_keyframe {E} (tidx : Slab.Key) (now : Instant) : st Sh E () :=
  flush_if_full;;
  track ← get_track tidx;
  if match Track.last_pli track with
     | Some last => saturating_sub now last <? PLI_THROTTLE
     | None => false
     end
  then bump n_keyframe_throttled else
  match Track.ssrc (Track.layer0 track) with
  | None => mret ()
  | Some media_ssrc =>
    session ← get_session (Track.session track);
    match Session.srtp_out session, Session.addr session with
    | Some _, Some addr =>
      o ← on_pool Pool.take;
      match o with
      | None => bump n_drop_pool_empty
      | Some out =>
        written ← on_pool (try_ (Pool.buf_mut (E:=()) out (Rtcp.write_pli (Session.out_ssrc_base session) media_ssrc)));
        protected ← match written with
                    | Some n => with_outbound (Track.session track) out (Outbound.protect_rtcp n)
                    | None => mret None
                    end;
        match protected with
        | None => bump n_drop_srtp_protect;; on_pool (Pool.put out)
        | Some n =>
          push_tx (Io.mkDatagram out n addr);;
          on_track tidx (modify (Track.set_last_pli (Some now)));;
          bump n_keyframe_requests
        end
      end
    | _, _ => mret ()
    end
  end.

(** The translated SR and SDES for one subscriber of the track. *)
Definition translate_for {E} (tidx : Slab.Key) (sr : SrInfo) (i : nat) : st Sh E () :=
  flush_if_full;;
  track ← get_track tidx;
  sidx ← lift (idx (Track.subscribers track) i);
  sub ← get_sub sidx;
  session ← get_session (Sub.session sub);
  match Session.srtp_out session, Session.addr session with
  | Some _, Some addr =>
    let rw := Sub.rewrite sub in
    if negb (Sub.started rw) || negb (Sub.layer rw =? 0) then mret () else
    o ← on_pool Pool.take;
    match o with
    | None => bump n_drop_pool_empty
    | Some out =>
      let translated := mkSrInfo (ntp sr) (wrapping_add 32 (sr_rtp sr) (Sub.ts_offset rw)) in
      written ← on_pool (try_ (Pool.buf_mut (E:=()) out
                  (Rtcp.write_report (Sub.out_ssrc rw) translated (Sub.sent_packets sub) (Sub.sent_octets sub)
                     (cname (Track.spec track)))));
      protected ← match written with
                  | Some n => with_outbound (Sub.session sub) out (Outbound.protect_rtcp n)
                  | None => mret None
                  end;
      match protected with
      | Some n => bump n_sr_translated;; push_tx (Io.mkDatagram out n addr)
      | None => bump n_drop_srtp_protect;; on_pool (Pool.put out)
      end
    end
  | _, _ => mret ()
  end.

(** [for i in a..a+n] *)
Fixpoint for_range {E} (n a : nat) (body : nat → st Sh E ()) : st Sh E () :=
  match n with
  | O => mret ()
  | Datatypes.S n => body a;; for_range n (Datatypes.S a) body
  end.

Definition translate_sr {E} (publisher : Slab.Key) (x : Z) (sr : SrInfo) : st Sh E () :=
  session ← get_session publisher;
  match Session.track_of_ssrc session x with
  | None => mret ()
  | Some tidx =>
    on_track tidx (modify (fun t => Track.set_layer0 (Track.mkLayer (Track.ssrc (Track.layer0 t)) (Some sr)) t));;
    track ← get_track tidx;
    for_range (length (Track.subscribers track)) 0 (translate_for tidx sr)
  end.

(** The session's subscription with this out SSRC, in list order. *)
Fixpoint find_sub {E} (l : list Slab.Key) (x : Z) : st Sh E (option Slab.Key) :=
  match l with
  | [] => mret None
  | k :: l => b ← get_sub k; if Sub.out_ssrc (Sub.rewrite b) =? x then mret (Some k) else find_sub l x
  end.

Definition keyframe_wanted {E} (subscriber : Slab.Key) (media_ssrc : Z) (now : Instant) : st Sh E () :=
  session ← get_session subscriber;
  found ← find_sub (Session.subs session) media_ssrc;
  match found with
  | Some sidx => sub ← get_sub sidx; request_keyframe (Sub.track sub) now
  | None => mret ()
  end.

(** [for x in l] *)
Fixpoint for_each {E A} (l : list A) (body : A → st Sh E ()) : st Sh E () :=
  match l with
  | [] => mret ()
  | x :: l => body x;; for_each l body
  end.

Definition handle_rtcp_compound {E} (idx : Slab.Key) (buf : Pool.BufRef) (len : nat) (now : Instant) : st Sh E () :=
  o ← read_compound buf len;
  match o with
  | None => bump n_drop_rtcp_malformed
  | Some r =>
    for_each (srs r) (fun p => translate_sr idx p.1 p.2);;
    for_each (keyframes r) (fun x => keyframe_wanted idx x now)
  end.

End rtcp.
End ShardRtcp.
