(* ===== verification/Commands.v ===== *)
(** * Commands of the control plane

    [crates/nexus-dataplane/src/shard/commands.rs]. A handler fails with the
    reason of the rejection; what it changed before failing stays changed. *)

From S2P Require Import Prelude Replay RocIndex RtpHeader Direction Inbound Outbound Cipher CipherProofs Keys Slab Pool Model Rewrite RtcpWire Ice ShardIo Shard ShardRtcp.

(** The AES block function of the key derivation, as [Keys.v] takes it. *)
Class KdfBlock := kdf_block : list Z → list Z → list Z.

Module Commands.
Import Shard ShardRtcp.

(** One-byte ids at most 14, none used twice. *)
Fixpoint ids_unused (used : list bool) (targets : list Z) : bool :=
  match targets with
  | [] => true
  | id :: targets =>
    if id =? 0 then ids_unused used targets
    else if (id >? 14) || default false (used !! Z.to_nat id) then false
    else ids_unused (<[Z.to_nat id := true]> used) targets
  end.

Definition ext_map_is_valid (m : ExtMap) : bool :=
  ids_unused (replicate 16 false) (ext_ids m ++ [map_mid m]) && bool_decide (ext_ids m !! 0%nat = Some 0).

Section commands.
Context {Cr : Crypto} {Kdf : KdfBlock} {I S : Type} {Hio : Io.DatagramIo I} {Hsink : EventSink S}.
Abbreviation Sh := (Shard I S).
Abbreviation handler := (st Sh RejectReason).

Definition session_idx (id : SessionId) : handler Slab.Key :=
  sh ← get; lift (of_option UnknownSession (session_ids sh !! id)).

Definition create_session (id : SessionId) (ice : IceParams) (base : Z) (now : Instant) : handler () :=
  sh ← get;
  if is_some (session_ids sh !! id) || is_some (by_ufrag sh !! local_ufrag ice) then throw DuplicateId else
  if Config.max_sessions (config sh) <=? Z.of_nat (Slab.len (sessions sh)) then throw SessionLimit else
  k ← zoom sessions set_sessions (Slab.insert (Session.new id ice base now));
  modify (fun sh => set_session_ids (<[id := k]> (session_ids sh)) sh);;
  modify (fun sh => set_by_ufrag (<[local_ufrag ice := k]> (by_ufrag sh)) sh).

Definition send_datagram (id : SessionId) (b : list Z) : handler () :=
  k ← session_idx id;
  session ← get_session k;
  match Session.addr session with
  | None => bump n_drop_send_datagram
  | Some addr =>
    if bool_decide (b = [] ∨ Pool.BUF_SIZE < length b)%nat then bump n_drop_send_datagram else
    o ← on_pool Pool.take;
    match o with
    | None => bump n_drop_pool_empty
    | Some buf =>
      on_pool (Pool.buf_mut buf (d ← get; d ← lift (copy_at 0 b d); put d));;
      send buf (length b) addr
    end
  end.

(** [register] and [pin] in a loop, each failure being [SrtpSetup]. *)
Definition register_or (x : Z) (o : Outbound.SrtpOutbound Unified.SrtpCipher)
  : outcome RejectReason (Outbound.SrtpOutbound Unified.SrtpCipher) :=
  match Outbound.register x o with
  | Ok (_, o) => Ok o
  | Err _ => Err SrtpSetup
  | Panic => Panic
  end.

Fixpoint register_subs (l : list Slab.Key) (subs : Slab.Slab Sub.Subscription)
    (o : Outbound.SrtpOutbound Unified.SrtpCipher)
  : outcome RejectReason (Outbound.SrtpOutbound Unified.SrtpCipher) :=
  match l with
  | [] => Ok o
  | k :: l =>
    b ← Slab.get k subs;
    o ← register_or (Sub.out_ssrc (Sub.rewrite b)) o;
    register_subs l subs o
  end.

Fixpoint pin_all (l : list Z) (i : Inbound.SrtpInbound Unified.SrtpCipher)
  : outcome RejectReason (Inbound.SrtpInbound Unified.SrtpCipher) :=
  match l with
  | [] => Ok i
  | x :: l =>
    match Inbound.pin x i with
    | Ok (_, i) => pin_all l i
    | Err _ => Err SrtpSetup
    | Panic => Panic
    end
  end.

Definition keyframe_of (k : Slab.Key) (now : Instant) (i : nat) : handler () :=
  session ← get_session k;
  sidx ← lift (idx (Session.subs session) i);
  sub ← get_sub sidx;
  request_keyframe (Sub.track sub) now.

Definition install_srtp (id : SessionId) (keys : SrtpInstall) (now : Instant) : handler () :=
  k ← session_idx id;
  session ← get_session k;
  if is_some (Session.srtp_in session) then throw SrtpAlreadyInstalled else
  lift (assert_ (negb (is_some (Session.srtp_out session))));;
  inbound ← lift (map_err (fun _ => SrtpSetup) (Keys.inbound_new kdf_block (remote_key keys)));
  outbound ← lift (map_err (fun _ => SrtpSetup) (Keys.outbound_new kdf_block (local_key keys) (Session.out_ssrc_base session)));
  sh ← get;
  outbound ← lift (register_or (Session.rtcp_ssrc session) outbound);
  outbound ← lift (register_subs (Session.subs session) (subs sh) outbound);
  inbound ← lift (pin_all (fst <$> Session.published session) inbound);
  on_session k (modify (Session.set_srtp_in (Some inbound)));;
  on_session k (modify (Session.set_srtp_out (Some outbound)));;
  session ← get_session k;
  for_range (length (Session.subs session)) 0 (keyframe_of k now).

(** [inbound.pin(ssrc).map_err(|_| SrtpSetup)?] on the session's context. *)
Definition pin_session (x : Z) : st (Session.Session Unified.SrtpCipher) RejectReason () :=
  session ← get;
  match Session.srtp_in session with
  | None => mret ()
  | Some inbound =>
    match Inbound.pin x inbound with
    | Ok (_, i) => modify (Session.set_srtp_in (Some i))
    | Err (_, i) => modify (Session.set_srtp_in (Some i));; throw SrtpSetup
    | Panic => fun _ => Panic
    end
  end.

Definition add_track (id : SessionId) (track : TrackId) (spec : TrackSpec) : handler () :=
  k ← session_idx id;
  sh ← get;
  if is_some (track_ids sh !! track) then throw DuplicateId else
  session ← get_session k;
  if bool_decide (Session.MAX_TRACKS_PER_SESSION ≤ Session.track_count session)%nat then throw TrackLimit else
  (match spec_ssrc spec with
   | Some x => if is_some (Session.track_of_ssrc session x) then throw SsrcInUse
               else on_session k (pin_session x)
   | None => mret ()
   end);;
  tidx ← zoom tracks set_tracks (Slab.insert (Track.new track k spec));
  added ← on_session k (
    session ← get;
    match spec_ssrc spec with
    | Some x => let '(ok, l) := fixed_push Session.MAX_TRACKS_PER_SESSION (x, tidx) (Session.published session) in
                put (Session.set_published l session);; mret ok
    | None => let '(ok, l) := fixed_push Session.MAX_TRACKS_PER_SESSION tidx (Session.unbound session) in
              put (Session.set_unbound l session);; mret ok
    end);
  lift (assert_ added);;
  modify (fun sh => set_track_ids (<[track := tidx]> (track_ids sh)) sh).

(** Removes a subscription; its out SSRC is retired and never sent again. *)
Definition remove_subscription {E} (sidx : Slab.Key) : st Sh E () :=
  sub ← zoom subs set_subs (Slab.remove sidx);
  on_session (Sub.session sub) (
    session ← get;
    (match Session.srtp_out session with
     | Some o => match Outbound.retire (Sub.out_ssrc (Sub.rewrite sub)) o with
                 | Ok o => modify (Session.set_srtp_out (Some o))
                 | _ => fun _ => Panic
                 end
     | None => mret ()
     end);;
    pos ← lift (expect (position (fun s => bool_decide (s = sidx)) (Session.subs session)));
    modify (fun s => Session.set_subs (delete pos (Session.subs s)) s));;
  on_track (Sub.track sub) (
    track ← get;
    pos ← lift (expect (position (fun s => bool_decide (s = sidx)) (Track.subscribers track)));
    put (Track.set_subscribers (swap_remove pos (Track.subscribers track)) track));;
  sh ← get;
  let removed := sub_ids sh !! Sub.id sub in
  put (set_sub_ids (delete (Sub.id sub) (sub_ids sh)) sh);;
  lift (assert_ (bool_decide (removed = Some sidx))).

(** The passes of [remove_track] and [close_session] that remove one entry
    each; [fuel] bounds them, and running out of it would be a panic. *)
Fixpoint remove_subscribers {E} (fuel : nat) (tidx : Slab.Key) : st Sh E () :=
  match fuel with
  | O => fun _ => Panic
  | Datatypes.S fuel =>
    track ← get_track tidx;
    match last (Track.subscribers track) with
    | None => mret ()
    | Some sub => remove_subscription sub;; remove_subscribers fuel tidx
    end
  end.

Definition remove_track {E} (tidx : Slab.Key) : st Sh E () :=
  track ← get_track tidx;
  remove_subscribers (Datatypes.S (length (Track.subscribers track))) tidx;;
  track ← zoom tracks set_tracks (Slab.remove tidx);
  on_session (Track.session track) (
    session ← get;
    let '(bound, p) := swap_remove_where (fun q => bool_decide (q.2 = tidx)) (Session.published session) in
    let '(unb, u) := swap_remove_where (fun t => bool_decide (t = tidx)) (Session.unbound session) in
    put (Session.set_unbound u (Session.set_published p session));;
    lift (assert_ (negb (eqb (is_some bound) (is_some unb))));;
    match bound, Session.srtp_in session with
    | Some (x, _), Some inbound => modify (Session.set_srtp_in (Some (Inbound.unpin x inbound)))
    | _, _ => mret ()
    end);;
  sh ← get;
  let removed := track_ids sh !! Track.id track in
  put (set_track_ids (delete (Track.id track) (track_ids sh)) sh);;
  lift (assert_ (bool_decide (removed = Some tidx))).

Definition remove_track_cmd (track : TrackId) : handler () :=
  sh ← get;
  tidx ← lift (of_option UnknownTrack (track_ids sh !! track));
  remove_track tidx.

Definition subscribe (id : SessionId) (sub : SubscriptionId) (track : TrackId) (spec : SubSpec) (now : Instant)
  : handler () :=
  k ← session_idx id;
  sh ← get;
  tidx ← lift (of_option UnknownTrack (track_ids sh !! track));
  if is_some (sub_ids sh !! sub) then throw DuplicateId else
  if negb (ref_shard (source spec) =? Config.shard (config sh)) || negb (ref_track (source spec) =? track)
  then throw WrongShard else
  if negb (ext_map_is_valid (spec_ext_map spec)) then throw InvalidSpec else
  session ← get_session k;
  if bool_decide (Session.MAX_SUBS_PER_SESSION ≤ length (Session.subs session))%nat then throw SubscriptionLimit else
  let offset := Session.out_ssrc_offset session (spec_out_ssrc spec) in
  if (offset <=? Session.last_out_ssrc_offset session) || (offset >? Session.MAX_OUT_SSRC_OFFSET)
  then throw OutSsrcNotMonotonic else
  on_session k (
    (match Session.srtp_out session with
     | Some o => match Outbound.register (spec_out_ssrc spec) o with
                 | Ok (_, o) => modify (Session.set_srtp_out (Some o))
                 | Err (_, o) => modify (Session.set_srtp_out (Some o));; throw SrtpSetup
                 | Panic => fun _ => Panic
                 end
     | None => mret ()
     end);;
    modify (Session.set_last_out_ssrc_offset offset));;
  t ← get_track tidx;
  sidx ← zoom subs set_subs (Slab.insert
           (Sub.mkSub sub k tidx (Sub.rewrite_new (spec_out_ssrc spec)) (spec_ext_map spec)
              (ext_mid (ext (Track.spec t))) (codec_clock_rate (codec (Track.spec t))) (spec_pt_map spec)
              (sub_spec_mid spec) 0 0));
  on_session k (modify (fun s => Session.set_subs (Session.subs s ++ [sidx]) s));;
  on_track tidx (modify (fun t => Track.set_subscribers (Track.subscribers t ++ [sidx]) t));;
  modify (fun sh => set_sub_ids (<[sub := sidx]> (sub_ids sh)) sh);;
  session ← get_session k;
  if is_some (Session.srtp_out session) then request_keyframe tidx now else mret ().

Definition unsubscribe (sub : SubscriptionId) : handler () :=
  sh ← get;
  sidx ← lift (of_option UnknownSubscription (sub_ids sh !! sub));
  remove_subscription sidx.

Fixpoint remove_tracks (fuel : nat) (k : Slab.Key) : handler () :=
  match fuel with
  | O => fun _ => Panic
  | Datatypes.S fuel =>
    session ← get_session k;
    match (snd <$> head (Session.published session)) with
    | Some tidx => remove_track tidx;; remove_tracks fuel k
    | None =>
      match head (Session.unbound session) with
      | Some tidx => remove_track tidx;; remove_tracks fuel k
      | None => mret ()
      end
    end
  end.

Fixpoint remove_subs (fuel : nat) (k : Slab.Key) : handler () :=
  match fuel with
  | O => fun _ => Panic
  | Datatypes.S fuel =>
    session ← get_session k;
    match last (Session.subs session) with
    | None => mret ()
    | Some sub => remove_subscription sub;; remove_subs fuel k
    end
  end.

(** Unmaps the address if it is the session's. *)
Definition unmap (k : Slab.Key) (o : option SocketAddr) (m : gmap SocketAddr Slab.Key) : gmap SocketAddr Slab.Key :=
  match o with
  | Some a => if bool_decide (m !! a = Some k) then delete a m else m
  | None => m
  end.

Definition close_session (id : SessionId) : handler () :=
  k ← session_idx id;
  session ← get_session k;
  remove_tracks (Datatypes.S (Session.track_count session)) k;;
  session ← get_session k;
  remove_subs (Datatypes.S (length (Session.subs session))) k;;
  modify (fun sh => set_pending_switches (filter (fun s => s ≠ k) (pending_switches sh)) sh);;
  session ← zoom sessions set_sessions (Slab.remove k);
  modify (fun sh => set_by_addr (unmap k (Session.prev_addr session) (unmap k (Session.addr session) (by_addr sh))) sh);;
  sh ← get;
  let ufrag := by_ufrag sh !! local_ufrag (Session.ice session) in
  put (set_by_ufrag (delete (local_ufrag (Session.ice session)) (by_ufrag sh)) sh);;
  lift (assert_ (bool_decide (ufrag = Some k)));;
  modify (fun sh => set_session_ids (delete id (session_ids sh)) sh).

(** The id maps and slabs agree. *)
Definition check_tables (sh : Sh) : bool :=
  bool_decide (size (session_ids sh) = Slab.len (sessions sh)) &&
  bool_decide (size (by_ufrag sh) = Slab.len (sessions sh)) &&
  bool_decide (size (track_ids sh) = Slab.len (tracks sh)) &&
  bool_decide (size (sub_ids sh) = Slab.len (subs sh)) &&
  bool_decide (size (by_addr sh) ≤ 2 * Slab.len (sessions sh))%nat.

Definition dispatch (c : Command) (now : Instant) : handler () :=
  match c with
  | CreateSession id ice base => create_session id ice base now
  | SendDatagram id b => send_datagram id b
  | InstallSrtp id keys => install_srtp id keys now
  | AddTrack id track spec => add_track id track spec
  | RemoveTrack track => remove_track_cmd track
  | Subscribe id sub track spec => subscribe id sub track spec now
  | Unsubscribe sub => unsubscribe sub
  | CloseSession id => close_session id
  end.

Definition command_session (c : Command) : option SessionId :=
  match c with
  | CreateSession id _ _ | SendDatagram id _ | InstallSrtp id _ | AddTrack id _ _
  | Subscribe id _ _ _ | CloseSession id => Some id
  | RemoveTrack _ | Unsubscribe _ => None
  end.

Definition handle_command {E} (c : Command) (now : Instant) : st Sh E () :=
  bump n_commands;;
  (fun sh =>
     match dispatch c now sh with
     | Ok (_, sh) => Ok ((), sh)
     | Err (reason, sh) =>
       (bump n_commands_rejected;; _ ← emit (CommandRejected (command_session c) reason); mret ()) sh
     | Panic => Panic
     end);;
  sh ← get;
  lift (assert_ (check_tables sh)).

(** At most [budget] queued commands; how many were handled. *)
Fixpoint drain_commands {E} (budget : nat) (now : Instant) : st Sh E nat :=
  match budget with
  | O => mret O
  | Datatypes.S budget =>
    sh ← get;
    match commands sh with
    | [] => mret O
    | c :: rest =>
      put (set_commands rest sh);;
      handle_command c now;;
      n ← drain_commands budget now;
      mret (Datatypes.S n)
    end
  end.

End commands.
End Commands.
