(* ===== verification/Ingress.v ===== *)
(** * The packet path

    [crates/nexus-dataplane/src/shard/ingress.rs]: classification, STUN and
    address selection, DTLS, SRTP and SRTCP, the fan-out to subscribers. *)

From S2P Require Import Prelude Replay RocIndex RtpHeader Direction Inbound Outbound Cipher CipherProofs Keys Slab Pool Model Rewrite RtcpWire Ice ShardIo Shard ShardRtcp.

Module Ingress.
Import Shard ShardRtcp.

Inductive Class := Stun | Dtls | Rtp | Rtcp | Other.

Definition between (lo hi b : Z) : bool := (lo <=? b) && (b <=? hi).

Definition classify (data : list Z) : Class :=
  match data with
  | [] => Other
  | b :: rest =>
    if between 0 3 b then Stun
    else if between 20 63 b then Dtls
    else if between 128 191 b then
      match rest with
      | b1 :: _ => if between 64 95 (Z.land b1 0x7F) then Rtcp else Rtp
      | [] => Other
      end
    else Other
  end.

Section ingress.
Context {Cr : Crypto} {St : StunCrypto} {I S : Type} {Hio : Io.DatagramIo I} {Hsink : EventSink S}.
Abbreviation Sh := (Shard I S).

(** ** Addresses *)

(** Emits [AddressSelected]; a refused event is retried by the sweep. *)
Definition report_switch {E} (k : Slab.Key) (reason : SelectReason) : st Sh E () :=
  session ← get_session k;
  match Session.addr session with
  | None => mret ()
  | Some addr =>
    delivered ← emit (AddressSelected (Session.id session) addr reason);
    on_session k (modify (Session.set_unreported_switch (if (delivered : bool) then None else Some reason)))
  end.

(** Another session authenticated from [addr]: the old owner loses it. *)
Definition forget_address {E} (k : Slab.Key) (a : SocketAddr) : st Sh E () :=
  on_session k (modify (fun s =>
    let s := if bool_decide (Session.addr s = Some a) then Session.set_addr None s else s in
    if bool_decide (Session.prev_addr s = Some a) then Session.set_prev_addr None s else s)).

(** Unmaps an address, if it is mapped to the session. *)
Definition unmap_stale {E} (k : Slab.Key) (o : option SocketAddr) : st Sh E () :=
  match o with
  | None => mret ()
  | Some stale =>
    modify (fun sh => if bool_decide (by_addr sh !! stale = Some k)
                      then set_by_addr (delete stale (by_addr sh)) sh else sh)
  end.

Definition switch_to {E} (k : Slab.Key) (from : SocketAddr) (reason : SelectReason) (now : Instant) : st Sh E () :=
  session ← get_session k;
  lift (assert_ (bool_decide (Session.addr session ≠ Some from)));; (* debug_assert! *)
  unmap_stale k (Session.prev_addr session);;
  on_session k (modify (fun s =>
    Session.set_last_switch (Some now) (Session.set_last_rx_selected now
      (Session.set_addr (Some from) (Session.set_prev_addr (Session.addr s) s)))));;
  sh ← get;
  let other := by_addr sh !! from in
  put (set_by_addr (<[from := k]> (by_addr sh)) sh);;
  (match other with
   | Some o => if bool_decide (o ≠ k) then forget_address o from else mret ()
   | None => mret ()
   end);;
  bump (match reason with Nominated => n_nominations | Rebound => n_rebinds end);;
  report_switch k reason.

(** Lists a deferred nomination, once per session. *)
Definition defer_switch {E} (k : Slab.Key) (from : SocketAddr) : st Sh E () :=
  on_session k (modify (Session.set_pending_nomination (Some from)));;
  session ← get_session k;
  if Session.switch_listed session then mret () else
  sh ← get;
  lift (assert_ (Z.of_nat (length (pending_switches sh)) <? Config.max_sessions (config sh)));;
  on_session k (modify (Session.set_switch_listed true));;
  modify (fun sh => set_pending_switches (pending_switches sh ++ [k]) sh).

Definition select_address {E} (k : Slab.Key) (from : SocketAddr) (nominated : bool) (now : Instant) : st Sh E () :=
  session ← get_session k;
  sh ← get;
  if bool_decide (Session.addr session = Some from) then
    on_session k (modify (fun s =>
      let s := Session.set_last_rx_selected now s in
      if nominated then Session.set_pending_nomination None s else s))
  else
    let silent := saturating_sub now (Session.last_rx_selected session) in
    let reason := if nominated then Some Nominated
                  else if is_some (Session.addr session) && (silent >=? Config.rebind_silence (config sh))
                  then Some Rebound else None in
    match reason with
    | None => mret ()
    | Some reason =>
      if match Session.last_switch session with
         | Some at_ => saturating_sub now at_ <? MIN_SWITCH_INTERVAL
         | None => false
         end
      then
        bump n_switch_throttled;;
        if nominated then defer_switch k from else mret ()
      else
        on_session k (modify (Session.set_pending_nomination None));;
        switch_to k from reason now
    end.

(** Applies deferred nominations whose interval passed; [fuel] bounds the
    passes, of which each skips or removes an entry. *)
Fixpoint apply_pending_from {E} (fuel i : nat) (now : Instant) : st Sh E () :=
  match fuel with
  | O => fun _ => Panic
  | Datatypes.S fuel =>
    sh ← get;
    match pending_switches sh !! i with
    | None => mret ()
    | Some k =>
      session ← get_session k;
      let due := match Session.last_switch session with
                 | Some at_ => saturating_sub now at_ >=? MIN_SWITCH_INTERVAL
                 | None => true
                 end in
      if is_some (Session.pending_nomination session) && negb due then apply_pending_from fuel (i + 1) now
      else
        put (set_pending_switches (swap_remove i (pending_switches sh)) sh);;
        on_session k (modify (Session.set_switch_listed false));;
        (match Session.pending_nomination session with
         | Some addr => on_session k (modify (Session.set_pending_nomination None));; switch_to k addr Nominated now
         | None => mret ()
         end);;
        apply_pending_from fuel i now
    end
  end.

Definition apply_pending_switches {E} (now : Instant) : st Sh E () :=
  sh ← get; apply_pending_from (Datatypes.S (length (pending_switches sh))) 0 now.

(** ** STUN and DTLS *)

Definition handle_stun {E} (d : Io.Datagram) (now : Instant) : st Sh E () :=
  data ← read_buf (Io.dbuf d) (Io.dlen d);
  match Ice.scan data with
  | Panic => fun _ => Panic
  | Err _ => bump n_drop_stun
  | Ok request =>
    sh ← get;
    match by_ufrag sh !! Ice.local_ufrag request with
    | None => bump n_drop_stun
    | Some k =>
      session ← get_session k;
      let password := local_pwd (Session.ice session) in
      verified ← lift (Ice.verify data request password);
      if negb verified then bump n_drop_stun_auth else
      o ← on_pool Pool.take;
      match o with
      | None => bump n_drop_pool_empty
      | Some out =>
        written ← on_pool (try_ (Pool.pair_mut (E:=()) (Io.dbuf d) out
                    (fun _ => Ice.write_success request (Io.daddr d) password)));
        (match written with
         | Some len => bump n_stun_answered;; send out len (Io.daddr d)
         | None => on_pool (Pool.put out)
         end);;
        replayed ← on_session k (Session.note_transaction (Ice.transaction_id request));
        if (replayed : bool) then bump n_stun_repeated
        else select_address k (Io.daddr d) (Ice.use_candidate request) now
      end
    end
  end.

Definition handle_dtls {E} (d : Io.Datagram) : st Sh E () :=
  sh ← get;
  match by_addr sh !! Io.daddr d with
  | None => bump n_drop_unknown_addr
  | Some k =>
    session ← get_session k;
    if bool_decide (Session.addr session ≠ Some (Io.daddr d)) then bump n_drop_dtls_unselected else
    if Session.srtp_verified session then bump n_drop_dtls_verified else
    if Session.dtls_budget session =? 0 then bump n_drop_dtls_budget else
    if dtls_budget sh =? 0 then bump n_drop_dtls_shard_budget else
    on_session k (modify (Session.set_dtls_budget (Session.dtls_budget session - 1)));;
    modify (fun sh => set_dtls_budget (dtls_budget sh - 1) sh);;
    b ← read_buf (Io.dbuf d) (Io.dlen d);
    _ ← emit (DtlsDatagram (Session.id session) b);
    mret ()
  end.

(** ** SRTP *)

Definition srtp_session {E} (d : Io.Datagram) : st Sh E (option Slab.Key) :=
  sh ← get;
  match by_addr sh !! Io.daddr d with
  | None => bump n_drop_unknown_addr;; mret None
  | Some k =>
    session ← get_session k;
    if is_some (Session.srtp_in session) then mret (Some k) else bump n_drop_no_srtp;; mret None
  end.

Definition authenticated {E} (k : Slab.Key) (from : SocketAddr) (now : Instant) : st Sh E () :=
  on_session k (modify (fun s =>
    if bool_decide (Session.addr s = Some from) then Session.set_last_rx_selected now s else s));;
  session ← get_session k;
  if Session.srtp_verified session then mret () else
  delivered ← emit (PeerSrtpVerified (Session.id session));
  if (delivered : bool) then on_session k (modify (Session.set_srtp_verified true)) else mret ().

(** The first unbound track whose mid the packet's mid element names. *)
Fixpoint find_unbound {E} (l : list Slab.Key) (packet : list Z) (header : RtpHeader.RtpHeader)
  : st Sh E (option Slab.Key) :=
  match l with
  | [] => mret None
  | t :: l =>
    track ← get_track t;
    found ← lift (Ext.find packet header (ext_mid (ext (Track.spec track))));
    if bool_decide (found = Some (track_mid (Track.spec track))) then mret (Some t)
    else find_unbound l packet header
  end.

Definition learn_ssrc {E} (k : Slab.Key) (buf : Pool.BufRef) (len : nat) (header : RtpHeader.RtpHeader)
  : st Sh E (option Slab.Key) :=
  session ← get_session k;
  packet ← read_buf buf len;
  o ← find_unbound (Session.unbound session) packet header;
  match o with
  | None => mret None
  | Some tidx =>
    let x := RtpHeader.ssrc header in
    on_session k (
      session ← get;
      let '(removed, u) := swap_remove_where (fun t => bool_decide (t = tidx)) (Session.unbound session) in
      let '(added, p) := fixed_push Session.MAX_TRACKS_PER_SESSION (x, tidx) (Session.published session) in
      put (Session.set_published p (Session.set_unbound u session));;
      lift (assert_ (is_some removed && added));; (* debug_assert! *)
      match Session.srtp_in session with
      | Some inbound =>
        match Inbound.pin x inbound with
        | Ok (_, i) => modify (Session.set_srtp_in (Some i))
        | _ => fun _ => Panic (* debug_assert! *)
        end
      | None => mret ()
      end);;
    on_track tidx (modify (fun t =>
      Track.set_layer0 (Track.mkLayer (Some x) (Track.last_sr (Track.layer0 t))) t));;
    bump n_ssrcs_learned;;
    mret (Some tidx)
  end.

(** The rewrite into the first [room] bytes of the send buffer; the random
    generator goes in and comes out. *)
Definition rewrite_into (src : list Z) (header : RtpHeader.RtpHeader) (sub : Sub.Subscription) (now rng : Z)
    (room : nat) : st (list Z) (Rewrite.RewriteError * Z) (nat * Rewrite.Advance * Z) :=
  on_range 0 room (fun dst =>
    match Rewrite.rewrite src header sub now (rng, dst) with
    | Ok (r, (rng, dst)) => Ok ((r, rng), dst)
    | Err (e, (rng, dst)) => Err ((e, rng), dst)
    | Panic => Panic
    end).

(** Rewrites, protects and queues the packet for one subscription. *)
Definition forward {E} (sidx : Slab.Key) (src : Pool.BufRef) (len : nat) (header : RtpHeader.RtpHeader) (now : Instant)
  : st Sh E () :=
  sh ← get;
  lift (assert_ (negb (Io.is_full Config.SEND_BATCH (tx sh))));; (* debug_assert! *)
  sub ← get_sub sidx;
  session ← get_session (Sub.session sub);
  match Session.srtp_out session, Session.addr session with
  | Some outbound, Some addr =>
    o ← on_pool Pool.take;
    match o with
    | None => bump n_drop_pool_empty
    | Some out =>
      let room := (Pool.BUF_SIZE - Unified.tag_len (Outbound.cipher outbound) - 4)%nat in
      sh ← get;
      (match Pool.pair_mut src out (fun input dst =>
               match slice 0 len input with
               | Ok input => rewrite_into input header sub now (rng sh) room dst
               | Err e => Err (e, dst)
               | Panic => Panic
               end) (pool sh) with
       | Panic => fun _ => Panic
       | Err ((error, rng'), p) =>
         put (set_rng rng' (set_pool p sh));;
         bump (match error with
               | Rewrite.UnmappedPt => n_drop_unmapped_pt
               | Rewrite.TooLarge => n_drop_too_large
               end);;
         on_pool (Pool.put out)
       | Ok ((rtp_len, advance, rng'), p) =>
         put (set_rng rng' (set_pool p sh));;
         protected ← with_outbound (Sub.session sub) out (Outbound.protect_rtp rtp_len);
         match protected with
         | None => bump n_drop_srtp_protect;; on_pool (Pool.put out)
         | Some n =>
           rw ← lift (Rewrite.commit (Sub.rewrite sub) advance now);
           add n_rebased (if Rewrite.rebased advance then 1 else 0);;
           on_sub sidx (modify (fun b =>
             Sub.set_sent_octets (wrapping_add 32 (Sub.sent_octets b) (wrap 32 (Z.of_nat (RtpHeader.payload_len header len))))
               (Sub.set_sent_packets (wrapping_add 32 (Sub.sent_packets b) 1) (Sub.set_rewrite rw b))));;
           push_tx (Io.mkDatagram out n addr)
         end
       end)
    end
  | _, _ => mret ()
  end.

Definition fan_out {E} (tidx : Slab.Key) (src : Pool.BufRef) (len : nat) (header : RtpHeader.RtpHeader) (now : Instant)
  : st Sh E () :=
  track ← get_track tidx;
  for_range (length (Track.subscribers track)) 0 (fun i =>
    flush_if_full;;
    track ← get_track tidx;
    sidx ← lift (idx (Track.subscribers track) i);
    forward sidx src len header now).

Definition handle_rtp {E} (d : Io.Datagram) (now : Instant) : st Sh E () :=
  o ← srtp_session d;
  match o with
  | None => mret ()
  | Some k =>
    sh ← get;
    opened ← with_inbound k (Io.dbuf d) (Inbound.unprotect_rtp (Io.dlen d) (now_s sh now));
    match opened with
    | None => bump n_drop_srtp_auth
    | Some len =>
      authenticated k (Io.daddr d) now;;
      data ← read_buf (Io.dbuf d) len;
      match RtpHeader.parse data with
      | Panic => fun _ => Panic
      | Err _ => bump n_drop_malformed
      | Ok header =>
        session ← get_session k;
        track ← match Session.track_of_ssrc session (RtpHeader.ssrc header) with
                | Some t => mret (Some t)
                | None => learn_ssrc k (Io.dbuf d) len header
                end;
        match track with
        | None => bump n_drop_no_route
        | Some t => fan_out t (Io.dbuf d) len header now
        end
      end
    end
  end.

Definition handle_rtcp {E} (d : Io.Datagram) (now : Instant) : st Sh E () :=
  o ← srtp_session d;
  match o with
  | None => mret ()
  | Some k =>
    sh ← get;
    opened ← with_inbound k (Io.dbuf d) (Inbound.unprotect_rtcp (Io.dlen d) (now_s sh now));
    match opened with
    | None => bump n_drop_srtp_auth
    | Some len =>
      authenticated k (Io.daddr d) now;;
      bump n_rtcp_received;;
      handle_rtcp_compound k (Io.dbuf d) len now
    end
  end.

(** Handles one received datagram. The caller returns its buffer. *)
Definition handle_datagram {E} (d : Io.Datagram) (now : Instant) : st Sh E () :=
  bump n_rx_datagrams;;
  add n_rx_bytes (Z.of_nat (Io.dlen d));;
  data ← read_buf (Io.dbuf d) (Io.dlen d);
  match classify data with
  | Stun => handle_stun d now
  | Dtls => handle_dtls d
  | Rtp => handle_rtp d now
  | Rtcp => handle_rtcp d now
  | Other => bump n_drop_unclassified
  end.

End ingress.
End Ingress.
