(* ===== verification/ShardLoop.v ===== *)
(** * The sweep and the loop of a shard

    [crates/nexus-dataplane/src/shard/housekeeping.rs] and [Shard::iterate]
    of [shard/mod.rs]. *)

From S2P Require Import Prelude Replay RocIndex RtpHeader Direction Inbound Outbound Cipher CipherProofs Keys Slab Pool Model Rewrite RtcpWire Ice ShardIo Shard ShardRtcp Commands Ingress.

Module ShardLoop.
Import Shard ShardRtcp Commands Ingress.

Section loop.
Context {Cr : Crypto} {St : StunCrypto} {Kdf : KdfBlock} {I S : Type} {Hio : Io.DatagramIo I} {Hsink : EventSink S}.
Abbreviation Sh := (Shard I S).

(** [ConsentLost] once the selected address was silent for the timeout; the
    flag is set only when the event was accepted. *)
Definition check_consent {E} (k : Slab.Key) (now : Instant) : st Sh E () :=
  session ← get_session k;
  sh ← get;
  let silent := saturating_sub now (Session.last_rx_selected session) in
  if Session.consent_lost session || (silent <? Config.consent_timeout (config sh)) then mret () else
  accepted ← emit (ConsentLost (Session.id session));
  if (accepted : bool)
  then on_session k (modify (Session.set_consent_lost true));; bump n_consent_lost
  else mret ().

Definition sweep_session {E} (k : Slab.Key) (now : Instant) : st Sh E () :=
  sh ← get;
  on_session k (modify (fun s =>
    let s := Session.set_dtls_budget Session.DTLS_BUDGET_PER_SWEEP s in
    match Session.srtp_in s with
    | Some i => Session.set_srtp_in (Some (snd (Inbound.evict_idle (now_s sh now) INBOUND_IDLE_EVICT_S i))) s
    | None => s
    end));;
  session ← get_session k;
  let grace_over := match Session.last_switch session with
                    | Some at_ => saturating_sub now at_ >=? PREV_ADDR_GRACE
                    | None => true
                    end in
  (if grace_over then
     on_session k (modify (Session.set_prev_addr None));; unmap_stale k (Session.prev_addr session)
   else mret ());;
  (match Session.unreported_switch session with
   | Some reason => report_switch k reason
   | None => mret ()
   end);;
  check_consent k now.

Definition gauges (sh : Sh) : Gauges :=
  mkGauges (Z.of_nat (Slab.len (sessions sh))) (Z.of_nat (Slab.len (tracks sh))) (Z.of_nat (Slab.len (subs sh)))
    (rx_pps sh).

Definition sweep_slot {E} (now : Instant) (i : nat) : st Sh E () :=
  sh ← get;
  match Slab.key_at (sessions sh) i with
  | Some k => sweep_session k now
  | None => mret ()
  end.

Definition housekeeping {E} (now : Instant) : st Sh E () :=
  modify (fun sh => set_dtls_budget (Config.dtls_budget_per_sweep (config sh)) sh);;
  sh ← get;
  let slots := Slab.slot_count (sessions sh) in
  lift (assert_ (Z.of_nat slots <=? Config.max_sessions (config sh)));;
  for_range slots 0 (sweep_slot now);;
  modify (fun sh =>
    let '(last_rx, last_at) := last_sweep sh in
    let elapsed_ms := as_millis (saturating_sub now last_at) in
    let received := counters sh n_rx_datagrams - last_rx in
    if elapsed_ms >? 0 then set_rx_pps (saturating_mul 64 received 1000 / elapsed_ms) sh else sh);;
  modify (fun sh => set_last_sweep (counters sh n_rx_datagrams, now) sh);;
  modify (fun sh => set_published_stats (Some (counters sh, gauges sh)) sh).

(** ** One iteration *)

Record IterationStats := mkIteration {
  it_received : nat;
  it_taken : nat;
  it_would_block : bool;
  it_commands : nat;
}.

(** Handles the [i]-th received datagram and returns its buffer. *)
Definition handle_received {E} (now : Instant) (i : nat) : st Sh E () :=
  sh ← get;
  d ← lift (idx (rx sh) i);
  handle_datagram d now;;
  on_pool (Pool.put (Io.dbuf d)).

Definition receive {E} : st Sh E Io.RecvResult :=
  sh ← get;
  match Io.recv_batch (io sh, rx sh, pool sh) with
  | Ok (r, (io', rx', pool')) => put (set_io io' (set_rx rx' (set_pool pool' sh)));; mret r
  | Err (_, (io', rx', pool')) =>
    put (set_io io' (set_rx rx' (set_pool pool' sh)));; bump n_rx_errors;; mret Io.no_recv
  | Panic => fun _ => Panic
  end.

Definition iterate {E} (now : Instant) : st Sh E IterationStats :=
  bump n_iterations;;
  r ← receive;
  sh ← get;
  lift (assert_ (bool_decide (Io.received r = length (rx sh))));; (* debug_assert! *)
  add n_rx_truncated (Z.of_nat (Io.truncated r));;
  add n_rx_unreadable (Z.of_nat (Io.unreadable r));;
  for_range (length (rx sh)) 0 (handle_received now);;
  modify (set_rx []);;
  sh ← get;
  (if bool_decide (pending_switches sh = []) then mret () else apply_pending_switches now);;
  flush;;
  n ← drain_commands COMMAND_BUDGET now;
  flush;;
  push_pending;;
  sh ← get;
  (if next_housekeeping sh <=? now
   then housekeeping now;; modify (set_next_housekeeping (now + HOUSEKEEPING_INTERVAL))
   else mret ());;
  sh ← get;
  lift (assert_ (bool_decide (tx sh = [])));; (* debug_assert! *)
  mret (mkIteration (Io.received r) (Io.taken r) (Io.would_block r) n).

End loop.
End ShardLoop.
