(* ===== verification/ShardInv.v ===== *)
(** * The invariant of a shard

    The tables of a shard are consistent ([Routed]) and their entries well
    formed; its send batch and its callers hold distinct buffers of the pool;
    its queues are within their limits. [Inv held sh] is the conjunction,
    [held] being the buffers the running code holds. [keeps] relates two
    states with the same routing, receive batch and command queue. *)

From S2P Require Import Prelude Wp Replay RocIndex RtpHeader Direction Inbound Outbound Cipher CipherProofs SrtpBytes Keys Slab Pool Model Maps Routes Rewrite RewriteProofs RtcpWire Ice IceProofs ShardIo Shard ShardRtcp Commands.

Module ShardInv.
Import Shard.

(** What the control plane guarantees of a command. *)
Definition command_ok (c : Command) : Prop :=
  match c with
  | CreateSession _ ice base => is_u32 base ∧ local_pwd ice ≠ [] ∧ (length (local_pwd ice) ≤ 256)%nat
  | SendDatagram _ b => bytes b
  | InstallSrtp _ keys => Keys.material_ok (local_key keys) ∧ Keys.material_ok (remote_key keys)
  | AddTrack _ _ spec => (length (cname spec) ≤ CNAME_CAPACITY)%nat ∧ bytes (cname spec)
  | Subscribe _ _ _ spec =>
      is_u32 (spec_out_ssrc spec) ∧ (1 ≤ length (sub_spec_mid spec) ≤ MID_CAPACITY)%nat ∧ bytes (sub_spec_mid spec) ∧
      Forall (fun p => 0 ≤ p.2 < 128) (spec_pt_map spec) ∧ bytes (ext_ids (spec_ext_map spec)) ∧
      is_u8 (map_mid (spec_ext_map spec))
  | RemoveTrack _ | Unsubscribe _ | CloseSession _ => True
  end.

(** ** Entries *)

Section entries.
Context {Cr : Crypto} {Claws : CryptoLaws}.

Definition slink (s : Session) : Routes.SLink :=
  Routes.mkS (Session.id s) (local_ufrag (Session.ice s)) (Session.addr s) (Session.prev_addr s)
    (Session.published s) (Session.unbound s) (Session.subs s) (Session.switch_listed s).
Definition tlink (t : Track.PublishedTrack) : Routes.TLink :=
  Routes.mkT (Track.id t) (Track.session t) (Track.subscribers t).
Definition blink (b : Sub.Subscription) : Routes.BLink :=
  Routes.mkB (Sub.id b) (Sub.session b) (Sub.track b).

(** The SRTP contexts: both or neither; what is pinned are the SSRCs of the
    session's tracks. *)
Definition srtp_ok (i : option (Inbound.SrtpInbound Unified.SrtpCipher))
    (o : option (Outbound.SrtpOutbound Unified.SrtpCipher)) (pub : list Z) : Prop :=
  match i, o with
  | None, None => True
  | Some i, Some o => Inbound.Inv i ∧ (∀ x, Inbound.is_pinned x i = true ↔ x ∈ pub) ∧ ∃ log, Outbound.Inv o log
  | _, _ => False
  end.

Record session_ok (s : Session) : Prop := {
  so_recent : length (Session.recent_transactions s) = Session.RECENT_TRANSACTIONS;
  so_len : (Session.recent_len s ≤ Session.RECENT_TRANSACTIONS)%nat;
  so_next : (Session.next_transaction s < Session.RECENT_TRANSACTIONS)%nat;
  so_pwd : local_pwd (Session.ice s) ≠ [] ∧ (length (local_pwd (Session.ice s)) ≤ 256)%nat;
  so_base : is_u32 (Session.out_ssrc_base s);
  so_nomination : ∀ a, Session.pending_nomination s = Some a → Session.addr s ≠ Some a;
  so_srtp : srtp_ok (Session.srtp_in s) (Session.srtp_out s) (Session.published s).*1;
}.

Definition track_ok (t : Track.PublishedTrack) : Prop :=
  (length (cname (Track.spec t)) ≤ CNAME_CAPACITY)%nat ∧ bytes (cname (Track.spec t)).

Definition sub_inv (b : Sub.Subscription) : Prop :=
  RewriteProofs.sub_ok b ∧ (Sub.started (Sub.rewrite b) = true → is_Some (Sub.last_out_at (Sub.rewrite b))).

Section tables.
Context (max : Z) (ss : Slab.Slab Session) (ts : Slab.Slab Track.PublishedTrack) (bs : Slab.Slab Sub.Subscription)
  (sids : gmap SessionId Slab.Key) (tids : gmap TrackId Slab.Key) (bids : gmap SubscriptionId Slab.Key)
  (addrs : gmap SocketAddr Slab.Key) (ufrags : gmap (list Z) Slab.Key) (sw : list Slab.Key).

Definition routes_of : Routes.Routes :=
  Routes.mkR (slink <$> Slab.to_map ss) (tlink <$> Slab.to_map ts) (blink <$> Slab.to_map bs)
    sids tids bids addrs ufrags sw.

Record Tables : Prop := {
  ta_wf_s : Slab.wf ss;
  ta_wf_t : Slab.wf ts;
  ta_wf_b : Slab.wf bs;
  ta_slots_s : Z.of_nat (Slab.slot_count ss) ≤ max;
  ta_slots_t : Z.of_nat (Slab.slot_count ts) ≤ 10 * max;
  ta_slots_b : Z.of_nat (Slab.slot_count bs) ≤ 31 * max;
  ta_session : ∀ k s, Slab.to_map ss !! k = Some s → session_ok s;
  ta_track : ∀ k t, Slab.to_map ts !! k = Some t → track_ok t;
  ta_sub : ∀ k b, Slab.to_map bs !! k = Some b → sub_inv b;
  ta_routed : Routes.Routed routes_of;
}.

End tables.
End entries.

(** ** The shard *)

Section inv.
Context {Cr : Crypto} {Claws : CryptoLaws} {I S : Type} {Hio : Io.DatagramIo I} {Hsink : EventSink S} {Hlaws : Io.DatagramIoLaws I}.
Context (cfg : Config.ShardConfig).
Abbreviation Sh := (Shard I S).

Definition routes (sh : Sh) : Routes.Routes :=
  routes_of (sessions sh) (tracks sh) (subs sh) (session_ids sh) (track_ids sh) (sub_ids sh) (by_addr sh)
    (by_ufrag sh) (pending_switches sh).

Definition tables_ok (sh : Sh) : Prop :=
  Tables (Config.max_sessions cfg) (sessions sh) (tracks sh) (subs sh) (session_ids sh) (track_ids sh) (sub_ids sh)
    (by_addr sh) (by_ufrag sh) (pending_switches sh).

Definition dgram_ok (d : Io.Datagram) : Prop :=
  (Io.dlen d ≤ Pool.BUF_SIZE)%nat ∧ Pool.shard (Io.dbuf d) = Config.shard cfg.

Definition bufs (l : list Io.Datagram) : list nat := Pool.index ∘ Io.dbuf <$> l.

Definition cap : nat := Z.to_nat (Config.pool_buffers cfg).

Record Buffers (held : list nat) (p : Pool.BufferPool) (tx : list Io.Datagram) : Prop := {
  bu_holds : Pool.holds cap (bufs tx ++ held) p;
  bu_shard : Pool.pool_shard p = Config.shard cfg;
  bu_tx : Forall dgram_ok tx;
  bu_len : (length tx ≤ Config.SEND_BATCH)%nat;
  bu_bytes : bytes (Pool.memory p);
}.

Record Queues (sh_cfg : Config.ShardConfig) (pending : list Event) (commands : list Command) (io : I) : Prop := {
  qu_config : sh_cfg = cfg;
  qu_pending : (length pending ≤ EVENT_RETENTION)%nat;
  qu_commands : Forall command_ok commands;
  qu_io : Io.io_ok io;
}.

Definition Inv (held : list nat) (sh : Sh) : Prop :=
  tables_ok sh ∧ Buffers held (pool sh) (tx sh) ∧ Queues (config sh) (pending sh) (commands sh) (io sh).

Definition keeps_queues (sh sh' : Sh) : Prop := rx sh' = rx sh ∧ commands sh' = commands sh.
Definition keeps (sh sh' : Sh) : Prop := routes sh' = routes sh ∧ keeps_queues sh sh'.

Lemma keeps_refl sh : keeps sh sh.
Proof. done. Qed.

Lemma keeps_trans sh1 sh2 sh3 : keeps sh1 sh2 → keeps sh2 sh3 → keeps sh1 sh3.
Proof. unfold keeps, keeps_queues. intuition congruence. Qed.

(** ** Buffers *)

Lemma held_lt held sh i : Inv held sh → i ∈ held → (i < cap)%nat.
Proof.
  intros (_ & HB & _) Hi. destruct (bu_holds _ _ _ HB) as [_ Ht _ Hu _].
  rewrite <- Ht. apply (lookup_lt_Some _ _ true), Hu. apply elem_of_app. auto.
Qed.

Lemma bytes_buf held sh i : Inv held sh → bytes (Pool.bytes_of (pool sh) i).
Proof. intros (_ & HB & _). apply bytes_sub_list, HB. Qed.

Lemma inv_perm held held' sh : held ≡ₚ held' → Inv held sh → Inv held' sh.
Proof.
  intros Hp (HT & HB & HQ). split; [done|]. split; [|done]. destruct HB. split; try done.
  eapply Pool.holds_permutation; [|done]. by rewrite Hp.
Qed.

(** The state with another pool, or send batch. *)
Lemma inv_buffers held held' sh sh' : Inv held sh → Buffers held' (pool sh') (tx sh') →
  tables_ok sh' = tables_ok sh → config sh' = config sh → pending sh' = pending sh → commands sh' = commands sh →
  Io.io_ok (io sh') → Inv held' sh'.
Proof. intros (? & ? & []) ? HT Hc Hp Hm Hi. unfold Inv. rewrite HT, Hc, Hp, Hm. done. Qed.

Lemma take_ok {E} held sh (Q : option Pool.BufRef → Sh → Prop) (X : E → Sh → Prop) : Inv held sh →
  Q None sh →
  (∀ b p, Pool.shard b = Config.shard cfg → Pool.index b ∉ held → Inv (Pool.index b :: held) (set_pool p sh) →
     Pool.memory p = Pool.memory (pool sh) → Q (Some b) (set_pool p sh)) →
  wp (on_pool Pool.take) sh Q X.
Proof.
  intros HI Hn Hs. pose proof HI as (HT & [Hh Hsh Htx Hlen Hb] & HQ). apply wp_zoom.
  destruct (Pool.take_spec (E:=E) _ _ _ Hh) as [(_ & _ & Heq)|(i & p & Heq & Hi & Hlt & Hh' & Hps & Hm)].
  - unfold run_to. rewrite Heq. replace (set_pool (pool sh) sh) with sh; [done|by destruct sh].
  - unfold run_to. rewrite Heq. apply Hs; [done|cbn; set_solver| |done]. apply (inv_buffers held _ sh); [done| |done..|apply HI].
    split; cbn; rewrite ?Hps, ?Hm; try done. eapply Pool.holds_permutation; [|done]. by rewrite Permutation_middle.
Qed.

Lemma put_ok {E} held sh b (Q : () → Sh → Prop) (X : E → Sh → Prop) : Inv (Pool.index b :: held) sh →
  Pool.shard b = Config.shard cfg → (∀ p, Inv held (set_pool p sh) → Pool.memory p = Pool.memory (pool sh) → Q () (set_pool p sh)) →
  wp (on_pool (Pool.put b)) sh Q X.
Proof.
  intros HI Hb Hs. pose proof HI as (HT & [Hh Hsh Htx Hlen Hby] & HQ). apply wp_zoom.
  rewrite <- Permutation_middle in Hh. destruct b as [x i]. cbn in *. subst x. rewrite <- Hsh.
  destruct (Pool.put_spec (E:=E) _ _ _ _ Hh) as (p & Heq & Hh' & Hps & Hm).
  unfold run_to. rewrite Heq. apply Hs; [|done]. apply (inv_buffers (i :: held) _ sh); [done| |done..|apply HI].
  split; cbn; rewrite ?Hps, ?Hm; done.
Qed.

(** The memory is made of its buffers. *)
Lemma memory_bytes c used p : Pool.holds c used p → (∀ j, (j < c)%nat → bytes (Pool.bytes_of p j)) →
  bytes (Pool.memory p).
Proof.
  intros Hh Hj. apply Forall_lookup. intros n x Hn. pose proof (Pool.holds_memory _ _ _ Hh) as Hm.
  pose proof Pool.BUF_SIZE_pos. assert (Hlt := lookup_lt_Some _ _ _ Hn). rewrite Hm in Hlt.
  assert (Hd : (n / Pool.BUF_SIZE < c)%nat) by (apply Nat.Div0.div_lt_upper_bound; lia).
  specialize (Hj _ Hd). rewrite Forall_lookup in Hj. apply (Hj (n mod Pool.BUF_SIZE)%nat).
  unfold Pool.bytes_of. rewrite lookup_sub_list. pose proof (Nat.mod_upper_bound n Pool.BUF_SIZE).
  rewrite decide_True by lia. rewrite <- Hn. f_equal. pose proof (Nat.div_mod_eq n Pool.BUF_SIZE). lia.
Qed.

(** Code that writes one buffer and keeps it a buffer. *)
Definition buffer (d : list Z) : Prop := length d = Pool.BUF_SIZE ∧ bytes d.

Lemma buffer_at held sh i : Inv held sh → i ∈ held → buffer (Pool.bytes_of (pool sh) i).
Proof.
  intros HI Hi. split; [|by eapply bytes_buf]. pose proof (held_lt _ _ _ HI Hi).
  destruct HI as (_ & HB & _). by eapply Pool.length_bytes_of; [apply HB|].
Qed.

Lemma written_buffers held sh i p : Inv held sh → i ∈ held → Pool.holds cap (bufs (tx sh) ++ held) p →
  buffer (Pool.bytes_of p i) → Pool.pool_shard p = Pool.pool_shard (pool sh) →
  (∀ j, (j < cap)%nat → j ≠ i → Pool.bytes_of p j = Pool.bytes_of (pool sh) j) → Inv held (set_pool p sh).
Proof.
  intros HI Hi Hh [_ Hb] Hps Hj. apply (inv_buffers held _ sh); [done| |done..|apply HI].
  pose proof HI as (_ & HB & _). split; cbn; try apply HB; [done|rewrite Hps; apply HB|].
  apply (memory_bytes _ _ _ Hh). intros j Hlt. destruct (decide (j = i)) as [->|]; [done|].
  rewrite Hj by done. by eapply bytes_buf.
Qed.

(** The held buffers other than [i] have the same bytes. *)
Definition keeps_other (i : nat) (held : list nat) (p p' : Pool.BufferPool) : Prop :=
  ∀ j, j ∈ held → j ≠ i → Pool.bytes_of p' j = Pool.bytes_of p j.

Lemma keeps_other_memory i held p p' : Pool.memory p' = Pool.memory p → keeps_other i held p p'.
Proof. intros Hm j _ _. unfold Pool.bytes_of. by rewrite Hm. Qed.

(** What running [m] on a buffer gives. *)
Definition on_buffer {E A} (m : st (list Z) E A) (d : list Z) (Q : A → Prop) (X : E → Prop) : Prop :=
  wp m d (fun a d' => buffer d' ∧ Q a) (fun e d' => buffer d' ∧ X e).

Lemma written_ok {E A} held sh i (r : outcome (E * list Z) (A * list Z)) out (Q : A → Prop) (X : E → Prop) :
  Inv held sh → i ∈ held → Pool.writes cap (bufs (tx sh) ++ held) (pool sh) i r out →
  match r with Ok (a, d) => buffer d ∧ Q a | Err (e, d) => buffer d ∧ X e | Panic => False end →
  match out with
  | Ok (a, p) => (Inv held (set_pool p sh) ∧ keeps_other i held (pool sh) p) ∧ Q a
  | Err (e, p) => (Inv held (set_pool p sh) ∧ keeps_other i held (pool sh) p) ∧ X e
  | Panic => False
  end.
Proof.
  intros HI Hi Hw Hr. destruct r as [[a d]|[e d]|]; [| |done];
    destruct Hr as [Hb Hq], Hw as (p & -> & Hh & Hd & Hps & _ & Hj); subst;
    (split; [split; [by eapply written_buffers|]|done]); intros j Hin Hne; (apply Hj; [by eapply held_lt|done]).
Qed.

Lemma on_buffer_keeps_len {E A} (m : st (list Z) E A) d Q X : length d = Pool.BUF_SIZE → on_buffer m d Q X →
  Pool.keeps_len d (m d).
Proof. unfold on_buffer, run_to, Pool.keeps_len, buffer. intros ->. destruct (m d) as [[]|[]|]; naive_solver. Qed.

Lemma buf_mut_pool {E A} held sh b (m : st (list Z) E A) (R : A → Prop) (Y : E → Prop)
    (Q : A → Pool.BufferPool → Prop) (X : E → Pool.BufferPool → Prop) :
  Inv held sh → Pool.index b ∈ held → (∀ d, buffer d → on_buffer m d R Y) →
  (∀ a p, R a → Inv held (set_pool p sh) → keeps_other (Pool.index b) held (pool sh) p → Q a p) →
  (∀ e p, Y e → Inv held (set_pool p sh) → keeps_other (Pool.index b) held (pool sh) p → X e p) →
  wp (Pool.buf_mut b m) (pool sh) Q X.
Proof.
  intros HI Hi Hm HQ HX. pose proof (buffer_at _ _ _ HI Hi) as Hbuf. specialize (Hm _ Hbuf).
  pose proof (Pool.buf_mut_spec m _ _ (pool sh) b (bu_holds _ _ _ (proj1 (proj2 HI))) (held_lt _ _ _ HI Hi)
                (on_buffer_keeps_len _ _ _ _ (proj1 Hbuf) Hm)) as Hw.
  pose proof (written_ok _ _ _ _ _ R Y HI Hi Hw) as Ho. unfold on_buffer, run_to in Hm.
  specialize (Ho Hm). unfold run_to. destruct (Pool.buf_mut b m (pool sh)) as [[]|[]|]; naive_solver.
Qed.

Lemma buf_mut_ok {E A} held sh b (m : st (list Z) E A) (R : A → Prop) (Y : E → Prop) (Q : A → Sh → Prop) X :
  Inv held sh → Pool.index b ∈ held → (∀ d, buffer d → on_buffer m d R Y) →
  (∀ a p, R a → Inv held (set_pool p sh) → keeps_other (Pool.index b) held (pool sh) p → Q a (set_pool p sh)) →
  (∀ e p, Y e → Inv held (set_pool p sh) → keeps_other (Pool.index b) held (pool sh) p → X e (set_pool p sh)) →
  wp (on_pool (Pool.buf_mut b m)) sh Q X.
Proof. intros. apply wp_zoom. by eapply (buf_mut_pool held sh). Qed.

(** [Pool.pair_mut] on a state: the read buffer is given to the code. *)
Lemma pair_mut_ok {E A} held sh r w (m : list Z → st (list Z) E A) (R : A → Prop) (Y : E → Prop)
    (Q : A → Pool.BufferPool → Prop) (X : E → Pool.BufferPool → Prop) :
  Inv held sh → Pool.index r ∈ held → Pool.index w ∈ held → Pool.index r ≠ Pool.index w →
  (∀ d, buffer d → on_buffer (m (Pool.bytes_of (pool sh) (Pool.index r))) d R Y) →
  (∀ a p, R a → Inv held (set_pool p sh) → keeps_other (Pool.index w) held (pool sh) p → Q a p) →
  (∀ e p, Y e → Inv held (set_pool p sh) → keeps_other (Pool.index w) held (pool sh) p → X e p) →
  wp (Pool.pair_mut r w m) (pool sh) Q X.
Proof.
  intros HI Hr Hi Hne Hm HQ HX. pose proof (buffer_at _ _ _ HI Hi) as Hbuf. specialize (Hm _ Hbuf).
  pose proof (Pool.pair_mut_spec m _ _ (pool sh) r w (bu_holds _ _ _ (proj1 (proj2 HI))) (held_lt _ _ _ HI Hr)
                (held_lt _ _ _ HI Hi) Hne (on_buffer_keeps_len _ _ _ _ (proj1 Hbuf) Hm)) as Hw.
  pose proof (written_ok _ _ _ _ _ R Y HI Hi Hw) as Ho. unfold on_buffer, run_to in Hm.
  specialize (Ho Hm). unfold run_to. destruct (Pool.pair_mut r w m (pool sh)) as [[]|[]|]; naive_solver.
Qed.

Lemma read_buf_ok {E} held sh b len (Q : list Z → Sh → Prop) (X : E → Sh → Prop) :
  Inv held sh → Pool.index b ∈ held → (len ≤ Pool.BUF_SIZE)%nat →
  (let d := firstn len (Pool.bytes_of (pool sh) (Pool.index b)) in length d = len → bytes d → Q d sh) →
  wp (read_buf b len) sh Q X.
Proof.
  intros HI Hi Hl HQ. unfold read_buf. wp. destruct (buffer_at _ _ _ HI Hi) as [Hlen Hb].
  eapply wp_lift_ok; [by eapply Pool.buf_spec; [apply (proj1 (proj2 HI))|eapply held_lt]|].
  eapply wp_lift_ok; [unfold slice; rewrite decide_True by lia; done|]. rewrite sub_list_0.
  apply HQ; [rewrite length_take; lia|by apply Forall_take].
Qed.

End inv.
End ShardInv.
