(* ===== verification/ShardSteps.v ===== *)
(** * The shard's own operations keep its invariant

    Access to the tables, counters, sending ([flush], [send]) and event
    delivery ([emit], [push_pending]). [safe held m sh]: from [sh] the code
    neither panics nor fails, keeps the invariant with the buffers [held],
    and leaves routing, receive batch and command queue as they are. *)

From S2P Require Import Prelude Wp Replay RocIndex RtpHeader Direction Inbound Outbound Cipher CipherProofs SrtpBytes Keys Slab Pool Model Maps Routes Rewrite RewriteProofs RtcpWire Ice IceProofs ShardIo Shard ShardRtcp Commands ShardInv.

Module ShardSteps.
Import Shard ShardRtcp ShardInv.

Section steps.
Context {Cr : Crypto} {Claws : CryptoLaws} {I S : Type} {Hio : Io.DatagramIo I} {Hsink : EventSink S} {Hlaws : Io.DatagramIoLaws I}.
Context (cfg : Config.ShardConfig).
Abbreviation Sh := (Shard I S).
Abbreviation Inv := (Inv cfg).
Implicit Types (sh : Sh).

Definition safe {E A} (held : list nat) (m : st Sh E A) (sh : Sh) : Prop :=
  wp m sh (fun _ sh' => Inv held sh' ∧ keeps sh sh') (fun _ _ => False).

Lemma safe_wp {E A} held (m : st Sh E A) sh (Q : A → Sh → Prop) X : safe held m sh →
  (∀ a sh', Inv held sh' → keeps sh sh' → Q a sh') → wp m sh Q X.
Proof. intros Hs HQ. eapply wp_conseq; [apply Hs| |]; [|done]. intros a sh' [? ?]. auto. Qed.

Lemma safe_bind {E A B} held (m : st Sh E A) (f : A → st Sh E B) sh : safe held m sh →
  (∀ a sh', Inv held sh' → keeps sh sh' → safe held (f a) sh') → safe held (m ≫= f) sh.
Proof.
  intros Hm Hf. apply wp_bind. eapply safe_wp; [done|]. intros a sh' HI Hk.
  eapply safe_wp; [by apply Hf|]. intros b sh'' HI' Hk'. split; [done|]. by eapply keeps_trans.
Qed.

Lemma safe_ret {E A} held (a : A) sh : Inv held sh → safe (E:=E) held (mret a) sh.
Proof. done. Qed.

(** Code after a step that kept the invariant. *)
Lemma safe_after {E A} held (m : st Sh E A) sh sh' : safe held m sh' → keeps sh sh' →
  wp m sh' (fun _ sh'' => Inv held sh'' ∧ keeps sh sh'') (fun _ _ => False).
Proof. intros Hs Hk. eapply safe_wp; [done|]. intros. split; [done|]. by eapply keeps_trans. Qed.

Lemma safe_add {E} held c n sh : Inv held sh → safe (E:=E) held (add c n) sh.
Proof. done. Qed.

Lemma safe_bump {E} held c sh : Inv held sh → safe (E:=E) held (bump c) sh.
Proof. done. Qed.

(** ** Tables *)

Lemma inv_tables held sh sh' : Inv held sh → tables_ok cfg sh' → pool sh' = pool sh → tx sh' = tx sh →
  config sh' = config sh → pending sh' = pending sh → commands sh' = commands sh → io sh' = io sh → Inv held sh'.
Proof. intros (? & ? & ?) ? Hp Ht Hc Hq Hm Hi. unfold ShardInv.Inv. by rewrite Hp, Ht, Hc, Hq, Hm, Hi. Qed.

(** Only sessions, their addresses and the deferred switches changed. *)
Lemma inv_sessions held sh sh' : Inv held sh → Slab.wf (sessions sh') →
  Slab.slot_count (sessions sh') = Slab.slot_count (sessions sh) →
  (∀ k s, Slab.to_map (sessions sh') !! k = Some s → session_ok s) → Routes.Routed (routes sh') →
  tracks sh' = tracks sh → subs sh' = subs sh → pool sh' = pool sh → tx sh' = tx sh →
  config sh' = config sh → pending sh' = pending sh → commands sh' = commands sh → io sh' = io sh → Inv held sh'.
Proof.
  intros HI Hwf Hsl Hok HR Ht Hb Hp Htx Hc Hq Hm Hi. apply (inv_tables held sh); try done.
  destruct HI as (HT & _). destruct HT. split; try done; rewrite ?Hsl, ?Ht, ?Hb; done.
Qed.

Lemma session_at held sh k l : Inv held sh → Routes.rs (routes sh) !! k = Some l →
  ∃ s, Slab.to_map (sessions sh) !! k = Some s ∧ slink s = l ∧ session_ok s.
Proof.
  intros (HT & _) Hk. cbn in Hk. rewrite lookup_fmap in Hk. apply fmap_Some in Hk as (s & Hs & ->).
  exists s. split; [done|]. split; [done|]. by eapply ta_session.
Qed.

Lemma track_at held sh k l : Inv held sh → Routes.rt (routes sh) !! k = Some l →
  ∃ t, Slab.to_map (tracks sh) !! k = Some t ∧ tlink t = l ∧ track_ok t.
Proof.
  intros (HT & _) Hk. cbn in Hk. rewrite lookup_fmap in Hk. apply fmap_Some in Hk as (s & Hs & ->).
  exists s. split; [done|]. split; [done|]. by eapply ta_track.
Qed.

Lemma sub_at held sh k l : Inv held sh → Routes.rb (routes sh) !! k = Some l →
  ∃ b, Slab.to_map (subs sh) !! k = Some b ∧ blink b = l ∧ sub_inv b.
Proof.
  intros (HT & _) Hk. cbn in Hk. rewrite lookup_fmap in Hk. apply fmap_Some in Hk as (s & Hs & ->).
  exists s. split; [done|]. split; [done|]. by eapply ta_sub.
Qed.

Lemma link_of {B L : Type} (f : B → L) (m : gmap Slab.Key B) k b : m !! k = Some b → (f <$> m) !! k = Some (f b).
Proof. intros Hk. by rewrite lookup_fmap, Hk. Qed.

Lemma get_session_ok {E} k sh s (Q : Session → Sh → Prop) (X : E → Sh → Prop) :
  Slab.to_map (sessions sh) !! k = Some s → Q s sh → wp (get_session k) sh Q X.
Proof. intros Hk HQ. unfold get_session. wp. by eapply wp_lift_ok; [apply Slab.get_to_map|]. Qed.

Lemma get_track_ok {E} k sh t (Q : Track.PublishedTrack → Sh → Prop) (X : E → Sh → Prop) :
  Slab.to_map (tracks sh) !! k = Some t → Q t sh → wp (get_track k) sh Q X.
Proof. intros Hk HQ. unfold get_track. wp. by eapply wp_lift_ok; [apply Slab.get_to_map|]. Qed.

Lemma get_sub_ok {E} k sh b (Q : Sub.Subscription → Sh → Prop) (X : E → Sh → Prop) :
  Slab.to_map (subs sh) !! k = Some b → Q b sh → wp (get_sub k) sh Q X.
Proof. intros Hk HQ. unfold get_sub. wp. by eapply wp_lift_ok; [apply Slab.get_to_map|]. Qed.

(** What the entries say of each other. *)
Lemma routed held sh : Inv held sh → Routes.Routed (routes sh).
Proof. intros (HT & _). apply HT. Qed.

Lemma session_of_track held sh k t : Inv held sh → Slab.to_map (tracks sh) !! k = Some t →
  ∃ s, Slab.to_map (sessions sh) !! Track.session t = Some s.
Proof.
  intros HI Hk. destruct (owns_live _ _ _ _ (Routes.rd_tracks _ (routed _ _ HI)) k _ (link_of tlink _ _ _ Hk)) as [l Hl].
  destruct (session_at _ _ _ _ HI Hl) as (s & Hs & _). eauto.
Qed.

Lemma session_of_sub held sh k b : Inv held sh → Slab.to_map (subs sh) !! k = Some b →
  ∃ s, Slab.to_map (sessions sh) !! Sub.session b = Some s ∧ k ∈ Session.subs s.
Proof.
  intros HI Hk. destruct (owns_elem _ _ _ _ k _ (Routes.rd_subs _ (routed _ _ HI)) (link_of blink _ _ _ Hk)) as (l & Hl & Hin).
  destruct (session_at _ _ _ _ HI Hl) as (s & Hs & <- & _). eauto.
Qed.

Lemma track_of_sub held sh k b : Inv held sh → Slab.to_map (subs sh) !! k = Some b →
  ∃ t, Slab.to_map (tracks sh) !! Sub.track b = Some t ∧ k ∈ Track.subscribers t.
Proof.
  intros HI Hk.
  destruct (owns_elem _ _ _ _ k _ (Routes.rd_subscribers _ (routed _ _ HI)) (link_of blink _ _ _ Hk)) as (l & Hl & Hin).
  destruct (track_at _ _ _ _ HI Hl) as (s & Hs & <- & _). eauto.
Qed.

Lemma subscriber_at held sh k t j : Inv held sh → Slab.to_map (tracks sh) !! k = Some t → j ∈ Track.subscribers t →
  ∃ b, Slab.to_map (subs sh) !! j = Some b ∧ Sub.track b = k ∧ sub_inv b.
Proof.
  intros HI Hk Hj.
  destruct (proj1 (owns_list _ _ _ _ (Routes.rd_subscribers _ (routed _ _ HI)) k _ j (link_of tlink _ _ _ Hk)) Hj) as (l & Hl & Ht).
  destruct (sub_at _ _ _ _ HI Hl) as (b & Hb & <- & Hok). eauto.
Qed.

Lemma subscription_at held sh k s j : Inv held sh → Slab.to_map (sessions sh) !! k = Some s → j ∈ Session.subs s →
  ∃ b, Slab.to_map (subs sh) !! j = Some b ∧ Sub.session b = k ∧ sub_inv b.
Proof.
  intros HI Hk Hj.
  destruct (proj1 (owns_list _ _ _ _ (Routes.rd_subs _ (routed _ _ HI)) k _ j (link_of slink _ _ _ Hk)) Hj) as (l & Hl & Ht).
  destruct (sub_at _ _ _ _ HI Hl) as (b & Hb & <- & Hok). eauto.
Qed.

Lemma own_track_at held sh k s j : Inv held sh → Slab.to_map (sessions sh) !! k = Some s →
  j ∈ (Session.published s).*2 ++ Session.unbound s →
  ∃ t, Slab.to_map (tracks sh) !! j = Some t ∧ Track.session t = k.
Proof.
  intros HI Hk Hj.
  destruct (proj1 (owns_list _ _ _ _ (Routes.rd_tracks _ (routed _ _ HI)) k _ j (link_of slink _ _ _ Hk)) Hj) as (l & Hl & Ht).
  destruct (track_at _ _ _ _ HI Hl) as (t & Htr & <- & Hok). eauto.
Qed.

(** The same routing has the same keys. *)
Lemma session_kept held sh sh' k s : Inv held sh' → keeps sh sh' → Slab.to_map (sessions sh) !! k = Some s →
  ∃ s', Slab.to_map (sessions sh') !! k = Some s' ∧ slink s' = slink s ∧ session_ok s'.
Proof. intros HI [Hr _] Hk. apply (session_at held); [done|]. rewrite Hr. by apply link_of. Qed.

Lemma track_kept held sh sh' k t : Inv held sh' → keeps sh sh' → Slab.to_map (tracks sh) !! k = Some t →
  ∃ t', Slab.to_map (tracks sh') !! k = Some t' ∧ tlink t' = tlink t ∧ track_ok t'.
Proof. intros HI [Hr _] Hk. apply (track_at held); [done|]. rewrite Hr. by apply link_of. Qed.

Lemma sub_kept held sh sh' k b : Inv held sh' → keeps sh sh' → Slab.to_map (subs sh) !! k = Some b →
  ∃ b', Slab.to_map (subs sh') !! k = Some b' ∧ blink b' = blink b ∧ sub_inv b'.
Proof. intros HI [Hr _] Hk. apply (sub_at held); [done|]. rewrite Hr. by apply link_of. Qed.

(** Code on one entry of a slab. *)
Lemma with_mut_ok {T E A} (m : st T E A) s k v (Q : A → Slab.Slab T → Prop) (X : E → Slab.Slab T → Prop) :
  Slab.wf s → Slab.to_map s !! k = Some v →
  wp m v (fun a v' => ∀ s', Slab.updated s k v' s' → Q a s') (fun e v' => ∀ s', Slab.updated s k v' s' → X e s') →
  wp (Slab.with_mut k m) s Q X.
Proof.
  intros Hwf Hk Hm. pose proof (Slab.with_mut_to_map m s k v Hwf Hk) as Hs. unfold run_to in *.
  destruct (m v) as [[a v']|[e v']|]; [| |done]; destruct Hs as (s' & -> & Hu); by apply Hm.
Qed.

Lemma on_session_wf {E A} (m : st Session E A) sh k s (Q : A → Sh → Prop) X :
  Slab.wf (sessions sh) → Slab.to_map (sessions sh) !! k = Some s →
  wp m s (fun a s' => ∀ sl, Slab.updated (sessions sh) k s' sl → Q a (set_sessions sl sh))
    (fun e s' => ∀ sl, Slab.updated (sessions sh) k s' sl → X e (set_sessions sl sh)) →
  wp (on_session k m) sh Q X.
Proof. intros Hwf Hk Hm. apply wp_zoom. by apply (with_mut_ok m _ k s). Qed.

Lemma on_session_run {E A} (m : st Session E A) held sh k s (Q : A → Sh → Prop) X :
  Inv held sh → Slab.to_map (sessions sh) !! k = Some s →
  wp m s (fun a s' => ∀ sl, Slab.updated (sessions sh) k s' sl → Q a (set_sessions sl sh))
    (fun e s' => ∀ sl, Slab.updated (sessions sh) k s' sl → X e (set_sessions sl sh)) →
  wp (on_session k m) sh Q X.
Proof. intros (HT & _) Hk Hm. apply (on_session_wf m _ _ s); [apply HT|done..]. Qed.

(** The routing of a shard whose session, track or subscription was written. *)
Lemma routes_session sh k s s' sl : Slab.to_map (sessions sh) !! k = Some s → Slab.updated (sessions sh) k s' sl →
  slink s' = slink s → routes (set_sessions sl sh) = routes sh.
Proof.
  intros Hk [_ Hm _] Hl. unfold routes, routes_of. cbn. rewrite Hm, fmap_insert, insert_id; [done|].
  by rewrite lookup_fmap, Hk, Hl.
Qed.

Lemma inv_session held sh k s s' sl : Inv held sh → Slab.to_map (sessions sh) !! k = Some s →
  Slab.updated (sessions sh) k s' sl → slink s' = slink s → session_ok s' →
  Inv held (set_sessions sl sh) ∧ keeps sh (set_sessions sl sh).
Proof.
  intros HI Hk Hu Hl Hok. pose proof (routes_session _ _ _ _ _ Hk Hu Hl) as Hr. split; [|done].
  apply (inv_tables held sh); try done. pose proof HI as (HT & _). destruct HT. split; cbn; try done; try apply Hu.
  - by rewrite (Slab.updated_slots _ _ _ _ Hu).
  - rewrite (Slab.updated_map _ _ _ _ Hu). intros j t [[<- <-]|[_ Ht]]%lookup_insert_Some; eauto.
  - change (Routes.Routed (routes (set_sessions sl sh))). by rewrite Hr.
Qed.

Lemma safe_on_session {E A} (m : st Session E A) held sh k s :
  Inv held sh → Slab.to_map (sessions sh) !! k = Some s →
  wp m s (fun _ s' => slink s' = slink s ∧ session_ok s') (fun _ _ => False) → safe held (on_session k m) sh.
Proof.
  intros HI Hk Hm. apply (on_session_run m held sh k s); [done..|].
  eapply wp_conseq; [apply Hm| |done]. cbn. intros a s' [Hl Hok] sl Hu. by eapply inv_session.
Qed.

Lemma inv_track held sh k t t' sl : Inv held sh → Slab.to_map (tracks sh) !! k = Some t →
  Slab.updated (tracks sh) k t' sl → tlink t' = tlink t → track_ok t' →
  Inv held (set_tracks sl sh) ∧ keeps sh (set_tracks sl sh).
Proof.
  intros HI Hk Hu Hl Hok. assert (Hr : routes (set_tracks sl sh) = routes sh).
  { unfold routes, routes_of. cbn. rewrite (Slab.updated_map _ _ _ _ Hu), fmap_insert, insert_id; [done|].
    by rewrite lookup_fmap, Hk, Hl. }
  split; [|done].
  apply (inv_tables held sh); try done. pose proof HI as (HT & _). destruct HT. split; cbn; try done; try apply Hu.
  - by rewrite (Slab.updated_slots _ _ _ _ Hu).
  - rewrite (Slab.updated_map _ _ _ _ Hu). intros j c [[<- <-]|[_ Hc]]%lookup_insert_Some; eauto.
  - change (Routes.Routed (routes (set_tracks sl sh))). by rewrite Hr.
Qed.

Lemma safe_on_track {E A} (m : st Track.PublishedTrack E A) held sh k t :
  Inv held sh → Slab.to_map (tracks sh) !! k = Some t →
  wp m t (fun _ t' => tlink t' = tlink t ∧ track_ok t') (fun _ _ => False) → safe held (on_track k m) sh.
Proof.
  intros HI Hk Hm. apply wp_zoom, (with_mut_ok m _ k t); [apply HI|done|].
  eapply wp_conseq; [apply Hm| |done]. cbn. intros a s' [Hl Hok] sl Hu. by eapply inv_track.
Qed.

Lemma inv_sub held sh k b b' sl : Inv held sh → Slab.to_map (subs sh) !! k = Some b →
  Slab.updated (subs sh) k b' sl → blink b' = blink b → sub_inv b' →
  Inv held (set_subs sl sh) ∧ keeps sh (set_subs sl sh).
Proof.
  intros HI Hk Hu Hl Hok. assert (Hr : routes (set_subs sl sh) = routes sh).
  { unfold routes, routes_of. cbn. rewrite (Slab.updated_map _ _ _ _ Hu), fmap_insert, insert_id; [done|].
    by rewrite lookup_fmap, Hk, Hl. }
  split; [|done].
  apply (inv_tables held sh); try done. pose proof HI as (HT & _). destruct HT. split; cbn; try done; try apply Hu.
  - by rewrite (Slab.updated_slots _ _ _ _ Hu).
  - rewrite (Slab.updated_map _ _ _ _ Hu). intros j c [[<- <-]|[_ Hc]]%lookup_insert_Some; eauto.
  - change (Routes.Routed (routes (set_subs sl sh))). by rewrite Hr.
Qed.

Lemma safe_on_sub {E A} (m : st Sub.Subscription E A) held sh k b :
  Inv held sh → Slab.to_map (subs sh) !! k = Some b →
  wp m b (fun _ b' => blink b' = blink b ∧ sub_inv b') (fun _ _ => False) → safe held (on_sub k m) sh.
Proof.
  intros HI Hk Hm. apply wp_zoom, (with_mut_ok m _ k b); [apply HI|done|].
  eapply wp_conseq; [apply Hm| |done]. cbn. intros a s' [Hl Hok] sl Hu. by eapply inv_sub.
Qed.

(** ** Sending *)

Lemma inv_emptied held sh io' pool' : Inv held sh → Pool.holds (cap cfg) held pool' →
  Pool.memory pool' = Pool.memory (pool sh) → Pool.pool_shard pool' = Pool.pool_shard (pool sh) → Io.io_ok io' →
  Inv held (set_io io' (set_tx [] (set_pool pool' sh))).
Proof.
  intros HI Hh Hm Hs Hi. apply (inv_buffers cfg held held sh); [done| |done..]. destruct HI as (_ & HB & _).
  split; cbn; rewrite ?Hm, ?Hs; try apply HB; try done; try constructor; lia.
Qed.

(** After a flush nothing is queued. *)
Lemma flush_ok {E} held sh (Q : () → Sh → Prop) (X : E → Sh → Prop) : Inv held sh →
  (∀ sh', Inv held sh' → keeps sh sh' → tx sh' = [] → Pool.memory (pool sh') = Pool.memory (pool sh) → Q () sh') →
  wp flush sh Q X.
Proof.
  intros HI HQ. unfold flush. wp. case_bool_decide as Htx; wp; [by apply HQ|].
  pose proof HI as (_ & HB & _).
  pose proof (Io.flush_law (cap cfg) held (io sh) (tx sh) (pool sh) (bu_holds _ _ _ _ HB)) as Hl.
  rewrite (bu_shard _ _ _ _ HB) in Hl. specialize (Hl (bu_tx _ _ _ _ HB) (qu_io _ _ _ _ _ (proj2 (proj2 HI)))).
  destruct (Io.flush _) as [[sent [[io' tx'] pool']]|e|]; [|done..].
  destruct Hl as (Hio' & -> & Hle & Hh & Hm & Hs). rewrite <- (bu_shard _ _ _ _ HB) in Hs.
  wp. apply wp_assert; [by apply bool_decide_eq_true|]. wp.
  apply HQ; [|done..]. exact (inv_emptied held sh io' pool' HI Hh Hm Hs Hio').
Qed.

Lemma safe_flush {E} held sh : Inv held sh → safe (E:=E) held flush sh.
Proof. intros HI. by apply (flush_ok held). Qed.

(** A batch that was flushed if full has room. *)
Lemma flush_if_full_ok {E} held sh (Q : () → Sh → Prop) (X : E → Sh → Prop) : Inv held sh →
  (∀ sh', Inv held sh' → keeps sh sh' → (length (tx sh') < Config.SEND_BATCH)%nat →
     Pool.memory (pool sh') = Pool.memory (pool sh) → Q () sh') →
  wp flush_if_full sh Q X.
Proof.
  intros HI HQ. unfold flush_if_full. wp. unfold Io.is_full. case_bool_decide as Hf; wp.
  - apply (flush_ok held); [done|]. intros sh' HI' Hk Htx Hm. apply HQ; [done..| |done]. rewrite Htx. unfold Config.SEND_BATCH. cbn. lia.
  - pose proof (bu_len _ _ _ _ (proj1 (proj2 HI))). apply HQ; [done..|lia|done].
Qed.

Lemma push_tx_ok {E} held sh d (Q : () → Sh → Prop) (X : E → Sh → Prop) : Inv (Pool.index (Io.dbuf d) :: held) sh →
  dgram_ok cfg d → (length (tx sh) < Config.SEND_BATCH)%nat →
  (∀ l, Inv held (set_tx l sh) → keeps sh (set_tx l sh) → Q () (set_tx l sh)) → wp (push_tx d) sh Q X.
Proof.
  intros HI Hd Hlt HQ. unfold push_tx, Io.push. apply wp_zoom. wp.
  apply wp_assert; [unfold Io.is_full; by rewrite bool_decide_eq_false_2 by lia|]. wp.
  apply wp_assert; [apply bool_decide_eq_true, Hd|]. wp. apply HQ; [|done].
  apply (inv_buffers cfg (Pool.index (Io.dbuf d) :: held) held sh); [done| |done..|apply HI].
  destruct HI as (_ & HB & _). destruct HB. split; cbn; try done.
  - unfold bufs in *. rewrite fmap_app, <- app_assoc. cbn. by rewrite <- Permutation_middle in *.
  - apply Forall_app. auto.
  - rewrite length_app. cbn. lia.
Qed.

Lemma safe_send {E} held sh b len addr : Inv (Pool.index b :: held) sh → Pool.shard b = Config.shard cfg →
  (len ≤ Pool.BUF_SIZE)%nat →
  wp (send (E:=E) b len addr) sh (fun _ sh' => Inv held sh' ∧ keeps sh sh') (fun _ _ => False).
Proof.
  intros HI Hb Hl. unfold send. wp. apply (flush_if_full_ok (Pool.index b :: held)); [done|]. intros sh' HI' Hk Hlt _.
  apply (push_tx_ok held); [done..|]. intros l HI'' Hk'. split; [done|]. by eapply keeps_trans.
Qed.

(** ** Events *)

Lemma inv_pending held sh l : Inv held sh → (length l ≤ EVENT_RETENTION)%nat → Inv held (set_pending l sh).
Proof. intros (HT & HB & HQ) Hl. split; [exact HT|]. split; [exact HB|]. by destruct HQ. Qed.

Lemma safe_retain {E} held e sh : Inv held sh → safe (E:=E) held (retain e) sh.
Proof.
  intros HI. unfold retain, safe. wp. destruct (_ || _) eqn:Hc; wp; [done|]. simplify_tests.
  pose proof (qu_pending _ _ _ _ _ (proj2 (proj2 HI))).
  apply wp_assert; [apply bool_decide_eq_true; lia|]. wp. split; [|done]. apply inv_pending; [done|].
  rewrite length_app. cbn. lia.
Qed.

Lemma sid_session held sh id k : Inv held sh → session_ids sh !! id = Some k →
  ∃ s, Slab.to_map (sessions sh) !! k = Some s ∧ session_ok s ∧ Session.id s = id.
Proof.
  intros HI Hid. pose proof HI as (HT & _).
  destruct (proj1 (Routes.rd_sid _ (ta_routed _ _ _ _ _ _ _ _ _ _ HT) id k) Hid) as (l & Hl & Hin).
  destruct (session_at _ _ _ _ HI Hl) as (s & Hs & <- & Hok). exists s. split; [done|]. split; [done|].
  cbn in Hin. by apply list_elem_of_singleton in Hin.
Qed.

Lemma safe_emit {E} held e sh : Inv held sh → safe (E:=E) held (emit e) sh.
Proof.
  intros HI. unfold emit. apply safe_bind.
  { unfold consent_was_lost, safe. wp. destruct (_ ≫= _) as [k|] eqn:Hk; [|done].
    apply bind_Some in Hk as (id & _ & Hid). destruct (sid_session _ _ _ _ HI Hid) as (s & Hs & _).
    wp. by eapply get_session_ok. }
  intros [] sh1 HI1 _; [done|]. unfold safe. wp. destruct (_ || _); [|by apply safe_retain].
  wp. unfold try_send. wp. destruct (Model.try_send _ _) as [r s]. wp. destruct r; [done| |done].
  apply safe_after; [|done]. by apply safe_retain.
Qed.

Lemma push_retained_ok {E} held l : ∀ sh, Inv held sh → (length l ≤ EVENT_RETENTION)%nat →
  safe (E:=E) held (push_retained l) sh.
Proof.
  induction l as [|e l IH]; intros sh HI Hl; cbn [push_retained]; unfold safe; wp.
  - split; [|done]. by apply inv_pending.
  - unfold try_send. wp. destruct (Model.try_send _ _) as [r s]. cbn in Hl. wp. destruct r; wp.
    + apply safe_after; [|done]. apply IH; [done|lia].
    + split; [|done]. by apply inv_pending.
    + apply safe_after; [|done]. apply IH; [done|lia].
Qed.

Lemma safe_push_pending {E} held sh : Inv held sh → safe (E:=E) held push_pending sh.
Proof. intros HI. unfold push_pending, safe. wp. apply push_retained_ok; [done|]. apply HI. Qed.

(** ** The SRTP contexts of a session *)

Lemma session_ok_srtp s i o : session_ok s → srtp_ok i o (Session.published s).*1 →
  session_ok (Session.set_srtp_out o (Session.set_srtp_in i s)).
Proof. intros [] ?. by split. Qed.

(** What sending code does to a context and a buffer. *)
Definition protects (m : st (Outbound.SrtpOutbound Unified.SrtpCipher * list Z) () nat) : Prop :=
  ∀ o log d, Outbound.Inv o log → buffer d →
    wp m (o, d) (fun n p => (buffer p.2 ∧ ∃ log', Outbound.Inv p.1 log') ∧ (n ≤ Pool.BUF_SIZE)%nat)
      (fun _ p => buffer p.2 ∧ ∃ log', Outbound.Inv p.1 log').

Definition unprotects (m : st (Inbound.SrtpInbound Unified.SrtpCipher * list Z) () nat) : Prop :=
  ∀ i d, Inbound.Inv i → buffer d →
    let ok (p : Inbound.SrtpInbound Unified.SrtpCipher * list Z) := buffer p.2 ∧ Inbound.Inv p.1 ∧
      ∀ y, Inbound.is_pinned y p.1 = true ↔ Inbound.is_pinned y i = true in
    wp m (i, d) (fun n p => ok p ∧ (n ≤ Pool.BUF_SIZE)%nat) (fun _ p => ok p).

Lemma protects_rtp {Cb : CryptoBytes} len : protects (Outbound.protect_rtp len).
Proof.
  intros o log d HI [Hl Hb]. pose proof (Outbound.protect_rtp_inv o log d len HI Hb) as Ha.
  pose proof (protect_rtp_frame len o d (Outbound.inv_cipher _ _ HI) Hb) as Hf. unfold run_to, Outbound.after in *.
  destruct (Outbound.protect_rtp len (o, d)) as [[n [o' d']]|[e [o' d']]|]; [| |done]; cbn in *;
    unfold out_frame, buf_kept, buffer in *; cbn in *; rewrite Hl in *; naive_solver.
Qed.

Lemma protects_rtcp {Cb : CryptoBytes} len : protects (Outbound.protect_rtcp len).
Proof.
  intros o log d HI [Hl Hb]. pose proof (Outbound.protect_rtcp_inv o log d len HI Hb) as Ha.
  pose proof (protect_rtcp_frame len o log d HI Hb) as Hf. unfold run_to, Outbound.after in *.
  destruct (Outbound.protect_rtcp len (o, d)) as [[n [o' d']]|[e [o' d']]|]; [| |done]; cbn in *;
    unfold out_frame, buf_kept, buffer in *; cbn in *; rewrite Hl in *; naive_solver.
Qed.

Lemma unprotects_rtp {Cb : CryptoBytes} len now : unprotects (Inbound.unprotect_rtp len now).
Proof.
  intros i d HI [Hl Hb]. pose proof (Pins.unprotect_ok i _ _ HI (Inbound.unprotect_rtp_result i d len now HI Hb)) as Ha.
  pose proof (unprotect_rtp_frame len now i d (Inbound.inv_cipher _ HI) Hb) as Hf. unfold run_to in *.
  destruct (Inbound.unprotect_rtp len now (i, d)) as [[n [o' d']]|[e [o' d']]|]; [| |done]; cbn in *;
    unfold in_frame, buf_kept, buffer in *; cbn in *; rewrite Hl in *; naive_solver.
Qed.

Lemma unprotects_rtcp {Cb : CryptoBytes} len now : unprotects (Inbound.unprotect_rtcp len now).
Proof.
  intros i d HI [Hl Hb]. pose proof (Pins.unprotect_ok i _ _ HI (Inbound.unprotect_rtcp_result i d len now HI Hb)) as Ha.
  pose proof (unprotect_rtcp_frame len now i d (Inbound.inv_cipher _ HI) Hb) as Hf. unfold run_to in *.
  destruct (Inbound.unprotect_rtcp len now (i, d)) as [[n [o' d']]|[e [o' d']]|]; [| |done]; cbn in *;
    unfold in_frame, buf_kept, buffer in *; cbn in *; rewrite Hl in *; naive_solver.
Qed.

(** Writes a context and a buffer back. *)
Lemma write_back_ok {E A} held sh k b s f d (a : A) (Q : A → Sh → Prop) (X : E → Sh → Prop) :
  Inv held sh → Pool.index b ∈ held → Slab.to_map (sessions sh) !! k = Some s →
  slink (f s) = slink s → session_ok (f s) → buffer d →
  (∀ sh', Inv held sh' → keeps sh sh' → tx sh' = tx sh →
     keeps_other (Pool.index b) held (pool sh) (pool sh') → Q a sh') →
  wp ((on_session k (modify f);; on_pool (Pool.buf_mut b (put d)));; mret a) sh Q X.
Proof.
  intros HI Hb Hk Hl Hok Hd HQ. wp. apply (on_session_run _ held sh k s); [done..|]. wp. intros sl Hu.
  destruct (inv_session _ _ _ _ _ _ HI Hk Hu Hl Hok) as [HI' Hk'].
  apply (buf_mut_ok cfg held _ b _ (fun _ => True) (fun _ => False)); [done..| | |done].
  - intros d' _. unfold on_buffer. by wp.
  - intros _ p _ HI'' Ho. wp. by apply HQ.
Qed.

Lemma with_outbound_ok {E} held sh k b m s (Q : option nat → Sh → Prop) (X : E → Sh → Prop) :
  Inv held sh → Pool.index b ∈ held → Slab.to_map (sessions sh) !! k = Some s →
  is_Some (Session.srtp_out s) → protects m →
  (∀ r sh', Inv held sh' → keeps sh sh' → tx sh' = tx sh →
     keeps_other (Pool.index b) held (pool sh) (pool sh') →
     match r with Some n => (n ≤ Pool.BUF_SIZE)%nat | None => True end → Q r sh') →
  wp (with_outbound k b m) sh Q X.
Proof.
  intros HI Hb Hk [o Ho] Hm HQ. unfold with_outbound. wp. eapply get_session_ok; [done|].
  wp. eapply wp_expect; [done|]. wp.
  eapply wp_lift_ok; [by eapply Pool.buf_spec; [apply (proj1 (proj2 HI))|eapply held_lt]|].
  pose proof (ta_session _ _ _ _ _ _ _ _ _ _ (proj1 HI) _ _ Hk) as Hok. pose proof (so_srtp _ Hok) as Hs.
  rewrite Ho in Hs. unfold srtp_ok in Hs. destruct (Session.srtp_in s) as [i|] eqn:Hi; [|done].
  destruct Hs as (HIi & Hpin & log & HIo).
  specialize (Hm o log _ HIo (buffer_at _ _ _ _ HI Hb)). cbv zeta. unfold run_to in Hm.
  destruct (m _) as [[n [o' d']]|[e [o' d']]|]; [| |done]; cbn in Hm.
  - destruct Hm as [[Hd' Hlog] Hn]. eapply write_back_ok; [done..| | |done|intros; by apply HQ]; [done|].
    destruct Hok. split; try done. cbn. by rewrite Hi.
  - destruct Hm as [Hd' Hlog]. eapply write_back_ok; [done..| | |done|intros; by apply HQ]; [done|].
    destruct Hok. split; try done. cbn. by rewrite Hi.
Qed.

Lemma with_inbound_ok {E} held sh k b m s (Q : option nat → Sh → Prop) (X : E → Sh → Prop) :
  Inv held sh → Pool.index b ∈ held → Slab.to_map (sessions sh) !! k = Some s →
  is_Some (Session.srtp_in s) → unprotects m →
  (∀ r sh', Inv held sh' → keeps sh sh' → tx sh' = tx sh →
     keeps_other (Pool.index b) held (pool sh) (pool sh') →
     match r with Some n => (n ≤ Pool.BUF_SIZE)%nat | None => True end → Q r sh') →
  wp (with_inbound k b m) sh Q X.
Proof.
  intros HI Hb Hk [i Hi] Hm HQ. unfold with_inbound. wp. eapply get_session_ok; [done|].
  wp. eapply wp_expect; [done|]. wp.
  eapply wp_lift_ok; [by eapply Pool.buf_spec; [apply (proj1 (proj2 HI))|eapply held_lt]|].
  pose proof (ta_session _ _ _ _ _ _ _ _ _ _ (proj1 HI) _ _ Hk) as Hok. pose proof (so_srtp _ Hok) as Hs.
  rewrite Hi in Hs. unfold srtp_ok in Hs. destruct (Session.srtp_out s) as [o|] eqn:Ho; [|done].
  destruct Hs as (HIi & Hpin & log & HIo).
  specialize (Hm i _ HIi (buffer_at _ _ _ _ HI Hb)). cbv zeta in *. unfold run_to in Hm.
  destruct (m _) as [[n [o' d']]|[e [o' d']]|]; [| |done]; cbn in Hm.
  - destruct Hm as [(Hd' & HI' & Hp') Hn]. eapply write_back_ok; [done..| | |done|intros; by apply HQ]; [done|].
    destruct Hok. split; try done. cbn. rewrite Ho. split; [done|]. split; [|eauto]. intros x. by rewrite Hp'.
  - destruct Hm as (Hd' & HI' & Hp'). eapply write_back_ok; [done..| | |done|intros; by apply HQ]; [done|].
    destruct Hok. split; try done. cbn. rewrite Ho. split; [done|]. split; [|eauto]. intros x. by rewrite Hp'.
Qed.

(** ** Loops *)

Lemma for_range_idx {E} (body : nat → st Sh E ()) (P : nat → Sh → Prop) n : ∀ a sh, P a sh →
  (∀ i sh', (a ≤ i < a + n)%nat → P i sh' → wp (body i) sh' (fun _ => P (Datatypes.S i)) (fun _ _ => False)) →
  wp (for_range n a body) sh (fun _ => P (a + n)%nat) (fun _ _ => False).
Proof.
  induction n as [|n IH]; intros a sh HP Hb; cbn [for_range]; wp; [by rewrite Nat.add_0_r|].
  eapply wp_mono; [apply Hb; [lia|done]|]. intros [] sh' HP'. rewrite Nat.add_succ_r. apply (IH (Datatypes.S a)); [done|].
  intros i sh'' Hi. apply Hb. lia.
Qed.

Lemma for_range_ok {E} (body : nat → st Sh E ()) (P : Sh → Prop) n a sh : P sh →
  (∀ i sh', (a ≤ i < a + n)%nat → P sh' → wp (body i) sh' (fun _ => P) (fun _ _ => False)) →
  wp (for_range n a body) sh (fun _ => P) (fun _ _ => False).
Proof. intros HP Hb. by apply (for_range_idx body (fun _ => P)). Qed.

Lemma safe_for_range {E} held (body : nat → st Sh E ()) (P : Sh → Prop) n a sh : Inv held sh → P sh →
  (∀ sh1 sh2, keeps sh1 sh2 → P sh1 → P sh2) →
  (∀ i sh', (a ≤ i < a + n)%nat → Inv held sh' → P sh' → safe held (body i) sh') →
  safe held (for_range n a body) sh.
Proof.
  intros HI HP Hk Hb.
  apply (for_range_ok body (fun sh' => Inv held sh' ∧ keeps sh sh')); [done|]. intros i sh' Hi [HI' Hk'].
  eapply safe_after; [|done]. apply Hb; [done..|]. by eapply Hk.
Qed.

Lemma safe_for_each {E A} held (body : A → st Sh E ()) (P : Sh → Prop) l : ∀ sh, Inv held sh → P sh →
  (∀ sh1 sh2, keeps sh1 sh2 → P sh1 → P sh2) →
  (∀ x sh', x ∈ l → Inv held sh' → P sh' → safe held (body x) sh') → safe held (for_each l body) sh.
Proof.
  induction l as [|x l IH]; intros sh HI HP Hk Hb; cbn [for_each]; [done|].
  apply safe_bind; [apply Hb; [left|done..]|]. intros [] sh' HI' Hk'.
  apply IH; [done|by eapply Hk|done|]. intros y sh'' Hy. apply Hb. by right.
Qed.

End steps.
End ShardSteps.
