(* ===== verification/RtcpSafe.v ===== *)
(** * The RTCP handling of a shard is safe

    Keyframe requests and translated reports never panic, keep the invariant
    of [ShardInv.v] and hand back every buffer they take. *)

From S2P Require Import Prelude Wp Replay RocIndex RtpHeader Direction Inbound Outbound Cipher CipherProofs SrtpBytes Keys Slab Pool Model Maps Routes Rewrite RewriteProofs RtcpWire Ice IceProofs ShardIo Shard ShardRtcp Commands Ingress ShardInv ShardSteps.

Module RtcpSafe.
Import Shard ShardRtcp ShardInv ShardSteps.

Lemma BUF_SIZE_eq : Pool.BUF_SIZE = Z.to_nat 2048.
Proof. with_strategy transparent [Pool.BUF_SIZE] reflexivity. Qed.

Lemma bytes_header c pt n : 0 ≤ c < 128 → is_u8 pt → bytes (Rtcp.header_bytes c pt n).
Proof.
  intros Hc Hp. unfold Rtcp.header_bytes. apply Forall_app. split; [|apply bytes_to_be].
  constructor; [|constructor; [done|constructor]]. apply range_lor; unfold in_range; lia.
Qed.

Lemma write_pli_buffer sender media d : buffer d →
  on_buffer (Rtcp.write_pli sender media) d (fun n => (n ≤ Pool.BUF_SIZE)%nat) (fun _ => False).
Proof.
  intros [Hl Hb]. unfold on_buffer, run_to. rewrite Rtcp.write_pli_run. rewrite Hl, BUF_SIZE_eq.
  unfold Rtcp.PLI_LEN. rewrite bool_decide_eq_false_2 by lia. split; [|lia]. unfold Rtcp.pli_bytes. split.
  - rewrite !length_app, length_drop, Rtcp.length_header_bytes, !length_to_be, Hl, BUF_SIZE_eq. lia.
  - apply Forall_app. split; [|by apply Forall_drop]. apply Forall_app. split; [by apply bytes_header|].
    apply Forall_app. split; apply bytes_to_be.
Qed.

Lemma write_report_buffer x sr p o name d : buffer d → (length name ≤ CNAME_CAPACITY)%nat → bytes name →
  on_buffer (Rtcp.write_report x sr p o name) d (fun n => (n ≤ Pool.BUF_SIZE)%nat) (fun _ => False).
Proof.
  intros [Hl Hb] Hn Hbn. unfold on_buffer, run_to. pose proof (Rtcp.sdes_len_bounds name) as [Hs _].
  unfold CNAME_CAPACITY in Hn. pose proof BUF_SIZE_eq as HB.
  rewrite Rtcp.write_report_run by (rewrite Hl, HB; lia). split; [|rewrite HB; lia]. split.
  - rewrite !length_app, length_drop, Rtcp.length_sr_bytes, Rtcp.length_sdes_bytes, Hl, HB. lia.
  - apply Forall_app. split; [|by apply Forall_drop]. unfold Rtcp.sr_bytes, Rtcp.sdes_bytes.
    repeat first [apply bytes_to_be | by apply bytes_header | apply Forall_replicate | apply Forall_app; split]; try done.
    + by repeat constructor.
    + constructor; [by apply wrap_range|constructor].
Qed.

Section rtcp.
Context {Cr : Crypto} {Claws : CryptoLaws} {Cb : CryptoBytes} {I S : Type} {Hio : Io.DatagramIo I}
  {Hsink : EventSink S} {Hlaws : Io.DatagramIoLaws I}.
Context (cfg : Config.ShardConfig).
Abbreviation Sh := (Shard I S).
Abbreviation Inv := (Inv cfg).
Implicit Types (sh : Sh).

(** The buffer of a packet that could not be protected goes back. *)
Lemma drop_ok {E} held sh0 sh out : Inv (Pool.index out :: held) sh → Pool.shard out = Config.shard cfg → keeps sh0 sh →
  wp (bump n_drop_srtp_protect;; on_pool (Pool.put out) : st Sh E ()) sh
    (fun _ sh' => Inv held sh' ∧ keeps sh0 sh') (fun _ _ => False).
Proof.
  intros HI Hs Hk. wp. apply (put_ok cfg held); [done..|]. intros p HI' _. split; [done|].
  eapply keeps_trans; [done|]. done.
Qed.

(** A packet written to a fresh buffer and protected for session [k]; [f] is
    the rest of the handler. *)
Lemma control_packet_ok {E} held sh k s out (w : st (list Z) () nat) (f : option nat → st Sh E ()) Q X :
  Inv (Pool.index out :: held) sh → Slab.to_map (sessions sh) !! k = Some s → is_Some (Session.srtp_out s) →
  (∀ d, buffer d → on_buffer w d (fun n => (n ≤ Pool.BUF_SIZE)%nat) (fun _ => False)) →
  (∀ r sh', Inv (Pool.index out :: held) sh' → keeps sh sh' → tx sh' = tx sh →
     match r with Some n => (n ≤ Pool.BUF_SIZE)%nat | None => True end → wp (f r) sh' Q X) →
  wp (written ← on_pool (try_ (Pool.buf_mut (E:=()) out w));
      protected ← match written with
                  | Some n => with_outbound k out (Outbound.protect_rtcp n)
                  | None => mret None
                  end;
      f protected) sh Q X.
Proof.
  intros HI Hk Ho Hw HQ. wp. apply wp_zoom, wp_try.
  apply (buf_mut_pool cfg (Pool.index out :: held) sh out w (fun n => (n ≤ Pool.BUF_SIZE)%nat) (fun _ => False));
    [done|left|done| |done].
  intros n p Hn HI' _. apply wp_bind.
  apply (with_outbound_ok cfg (Pool.index out :: held) (set_pool p sh) k out _ s); [done|left|done|done|apply protects_rtcp|].
  intros r sh' HI'' Hk' Htx _ Hr. apply HQ; done.
Qed.

Lemma safe_request_keyframe {E} held sh tidx t now : Inv held sh → Slab.to_map (tracks sh) !! tidx = Some t →
  safe (E:=E) cfg held (request_keyframe tidx now) sh.
Proof.
  intros HI Ht. unfold request_keyframe, ShardSteps.safe. wp. apply (flush_if_full_ok cfg held); [done|].
  intros sh1 HI1 Hk1 Hroom _. destruct (track_kept _ _ _ _ _ _ HI1 Hk1 Ht) as (t1 & Ht1 & _ & _). clear t Ht.
  wp. eapply get_track_ok; [done|]. destruct (match Track.last_pli _ with Some _ => _ | None => _ end).
  { eapply safe_after; [|done]. by apply safe_bump. }
  destruct (Track.ssrc _) as [x|]; [|by wp]. destruct (session_of_track _ _ _ _ _ HI1 Ht1) as (s & Hs).
  wp. eapply get_session_ok; [done|]. destruct (Session.srtp_out s) as [o|] eqn:Ho; [|by wp].
  destruct (Session.addr s) as [addr|]; [|by wp].
  wp. apply (take_ok cfg held); [done|by eapply safe_after; [apply safe_bump|]|].
  intros out p Hsh Hni HI2 _. eapply control_packet_ok; [done..| | |].
  { by rewrite Ho. }
  { intros d. by apply write_pli_buffer. }
  intros [n|] sh3 HI3 Hk3 Htx Hr.
  2: { apply drop_ok; [done..|]. eapply keeps_trans; [done|]. done. }
  wp. apply (push_tx_ok cfg held); [done|done|by rewrite Htx|]. intros l HI4 Hk4.
  assert (Hk04 : keeps sh1 (set_tx l sh3)) by done.
  destruct (track_kept _ _ _ _ _ _ HI4 Hk04 Ht1) as (t4 & Ht4 & _ & Hok4).
  wp. eapply safe_wp; [eapply (safe_on_track cfg); [done..|]; by wp|]. intros [] sh5 HI5 Hk5. wp.
  split; [done|]. eapply keeps_trans; [exact Hk1|]. by eapply keeps_trans.
Qed.

Lemma safe_translate_for {E} held sh tidx t sr i : Inv held sh → Slab.to_map (tracks sh) !! tidx = Some t →
  (i < length (Track.subscribers t))%nat → safe (E:=E) cfg held (translate_for tidx sr i) sh.
Proof.
  intros HI Ht Hi. unfold translate_for, ShardSteps.safe. wp. apply (flush_if_full_ok cfg held); [done|].
  intros sh1 HI1 Hk1 Hroom _. destruct (track_kept _ _ _ _ _ _ HI1 Hk1 Ht) as (t1 & Ht1 & Hl1 & Hok1).
  injection Hl1 as _ _ Hsubs. rewrite <- Hsubs in Hi. clear t Ht Hsubs.
  wp. eapply get_track_ok; [done|]. destruct (lookup_lt_is_Some_2 _ _ Hi) as [j Hj].
  wp. eapply wp_lift_ok; [unfold idx; by rewrite Hj|]. apply list_elem_of_lookup_2 in Hj.
  destruct (subscriber_at _ _ _ _ _ _ HI1 Ht1 Hj) as (b & Hb & _ & _).
  wp. eapply get_sub_ok; [done|]. destruct (session_of_sub _ _ _ _ _ HI1 Hb) as (s & Hs & _).
  wp. eapply get_session_ok; [done|]. destruct (Session.srtp_out s) as [o|] eqn:Ho; [|by wp].
  destruct (Session.addr s) as [addr|]; [|by wp]. wp. destruct (_ || _); [by wp|].
  wp. apply (take_ok cfg held); [done|by eapply safe_after; [apply safe_bump|]|].
  intros out p Hsh Hni HI2 _. cbv zeta. eapply control_packet_ok; [done..| | |].
  { by rewrite Ho. }
  { intros d Hd. apply write_report_buffer; [done|apply Hok1..]. }
  intros [n|] sh3 HI3 Hk3 Htx Hr.
  2: { apply drop_ok; [done..|]. eapply keeps_trans; [done|]. done. }
  wp. apply (push_tx_ok cfg held); [done|done|cbn; by rewrite Htx|]. intros l HI4 Hk4.
  split; [done|]. by eapply keeps_trans.
Qed.

(** The entry of a track, kept by code that keeps the routing. *)
Definition has_track tidx l sh : Prop := Routes.rt (routes sh) !! tidx = Some l.

Lemma has_track_kept tidx l sh1 sh2 : keeps sh1 sh2 → has_track tidx l sh1 → has_track tidx l sh2.
Proof. unfold has_track. by intros [-> _]. Qed.

Definition has_session k l sh : Prop := Routes.rs (routes sh) !! k = Some l.

Lemma has_session_kept k l sh1 sh2 : keeps sh1 sh2 → has_session k l sh1 → has_session k l sh2.
Proof. unfold has_session. by intros [-> _]. Qed.

Lemma safe_translate_sr {E} held sh k l x sr : Inv held sh → has_session k l sh →
  safe (E:=E) cfg held (translate_sr k x sr) sh.
Proof.
  intros HI Hl. destruct (session_at _ _ _ _ _ HI Hl) as (s & Hs & _ & _). unfold translate_sr, ShardSteps.safe. wp.
  eapply get_session_ok; [done|]. destruct (Session.track_of_ssrc s x) as [tidx|] eqn:Ht; [|by wp].
  assert (Hin : tidx ∈ (Session.published s).*2 ++ Session.unbound s).
  { unfold Session.track_of_ssrc in Ht. apply fmap_Some in Ht as (q & (i & _ & Hq)%bind_Some & ->).
    apply elem_of_app. left. apply list_elem_of_fmap. exists q. split; [done|]. by eapply list_elem_of_lookup_2. }
  destruct (own_track_at _ _ _ _ _ _ HI Hs Hin) as (t & Htr & _).
  pose proof (ta_track _ _ _ _ _ _ _ _ _ _ (proj1 HI) _ _ Htr) as Hok.
  wp. eapply safe_wp; [eapply (safe_on_track cfg); [done..|]; by wp|]. intros [] sh1 HI1 Hk1. wp.
  destruct (track_kept _ _ _ _ _ _ HI1 Hk1 Htr) as (t1 & Ht1 & Hl1 & _). eapply get_track_ok; [done|].
  eapply safe_after; [|done]. eapply (safe_for_range cfg held _ (has_track tidx (tlink t1))); [done|by apply link_of|
    by apply has_track_kept|].
  intros i sh2 Hi HI2 Ht2. destruct (track_at _ _ _ _ _ HI2 Ht2) as (t2 & Ht2' & Hl2 & _).
  injection Hl2 as _ _ Hsubs. eapply safe_translate_for; [done..|]. rewrite Hsubs. lia.
Qed.

Lemma safe_find_sub {E} held sh l x (Q : option Slab.Key → Sh → Prop) (X : E → Sh → Prop) : Inv held sh →
  (∀ k, k ∈ l → is_Some (Slab.to_map (subs sh) !! k)) →
  Q None sh → (∀ k b, Slab.to_map (subs sh) !! k = Some b → Q (Some k) sh) → wp (find_sub l x) sh Q X.
Proof.
  intros HI Hl HN HS. induction l as [|k l IH]; cbn [find_sub]; wp; [done|].
  destruct (Hl k) as [b Hb]; [left|]. eapply get_sub_ok; [done|]. case_match; wp; [by eapply HS|].
  apply IH. intros j Hj. apply Hl. by right.
Qed.

Lemma safe_keyframe_wanted {E} held sh k l x now : Inv held sh → has_session k l sh →
  safe (E:=E) cfg held (keyframe_wanted k x now) sh.
Proof.
  intros HI Hl. destruct (session_at _ _ _ _ _ HI Hl) as (s & Hs & _ & _). unfold keyframe_wanted, ShardSteps.safe. wp.
  eapply get_session_ok; [done|]. wp. eapply safe_find_sub; [done| |by wp|].
  - intros j Hj. destruct (subscription_at _ _ _ _ _ _ HI Hs Hj) as (b & Hb & _). eauto.
  - intros j b Hb. wp. eapply get_sub_ok; [done|]. destruct (track_of_sub _ _ _ _ _ HI Hb) as (t & Ht & _).
    by eapply safe_request_keyframe.
Qed.

Lemma parse_sr_no_panic d : no_panic (Rtcp.parse_sr d).
Proof. unfold Rtcp.parse_sr, Rtcp.SENDER_REPORT_MIN_SIZE_BYTES. np. Qed.

Lemma parse_pli_no_panic d : no_panic (Rtcp.parse_pli d).
Proof. unfold Rtcp.parse_pli. np. Qed.

Lemma read_entries_no_panic l : ∀ r n, no_panic (read_entries l r n).
Proof.
  induction l as [|e l IH]; intros r n; cbn [read_entries]; [done|]. destruct (Rtcp.packet_type _); try apply IH.
  - apply no_panic_bind; [|intros; apply IH]. pose proof (parse_sr_no_panic (Rtcp.data e)).
    unfold no_panic in *. by destruct (Rtcp.parse_sr _).
  - destruct (_ =? _); [|destruct (_ =? _); apply IH]. apply no_panic_bind; [|intros; apply IH].
    pose proof (parse_pli_no_panic (Rtcp.data e)). unfold no_panic in *. by destruct (Rtcp.parse_pli _).
Qed.

Lemma safe_handle_rtcp_compound {E} held sh k l buf len now : Inv held sh → has_session k l sh →
  Pool.index buf ∈ held → (len ≤ Pool.BUF_SIZE)%nat →
  safe (E:=E) cfg held (handle_rtcp_compound k buf len now) sh.
Proof.
  intros HI Hl Hb Hlen. unfold handle_rtcp_compound. apply safe_bind.
  - unfold read_compound, ShardSteps.safe. wp. eapply read_buf_ok; [done..|]. intros d _ _. destruct (requests_of d) as [[r n]|e|] eqn:Hr.
    + by wp.
    + by wp.
    + exfalso. revert Hr. unfold requests_of. apply no_panic_bind.
      * pose proof (Rtcp.demux_no_panic Rtcp.MAX_COMPOUND_PACKETS d 0) as Hd. unfold no_panic, Rtcp.demux_compound in *.
        by destruct (Rtcp.demux_from _ _ _).
      * intros c _. case_bool_decide; [done|]. apply read_entries_no_panic.
  - intros [r|] sh1 HI1 Hk1; [|by apply safe_bump]. eapply has_session_kept in Hl; [|done]. apply safe_bind.
    + apply (safe_for_each cfg held _ (has_session k l)); [done..|by apply has_session_kept|].
      intros q sh2 _ HI2 Hl2. by eapply safe_translate_sr.
    + intros [] sh2 HI2 Hk2. apply (safe_for_each cfg held _ (has_session k l)); [done|by eapply has_session_kept|
        by apply has_session_kept|].
      intros q sh3 _ HI3 Hl3. by eapply safe_keyframe_wanted.
Qed.

End rtcp.
End RtcpSafe.

(** * Address selection is safe

    Switches, deferred nominations and the address table: the handlers of
    [Ingress.v] that change which addresses lead to which session keep the
    routing consistent. *)


Module AddressSafe.
Import Shard ShardRtcp Ingress ShardInv ShardSteps.

Section addresses.
Context {Cr : Crypto} {Claws : CryptoLaws} {I S : Type} {Hio : Io.DatagramIo I}
  {Hsink : EventSink S} {Hlaws : Io.DatagramIoLaws I}.
Context (cfg : Config.ShardConfig).
Abbreviation Sh := (Shard I S).
Abbreviation Inv := (Inv cfg).
Implicit Types (sh : Sh).

(** Code that may change the routing. *)
Definition safe_q {E A} (held : list nat) (m : st Sh E A) sh : Prop :=
  wp m sh (fun _ sh' => Inv held sh' ∧ keeps_queues sh sh') (fun _ _ => False).

Lemma safe_safe_q {E A} held (m : st Sh E A) sh : safe cfg held m sh → safe_q held m sh.
Proof. intros Hs. eapply safe_wp; [done|]. by intros a sh' HI [_ Hk]. Qed.

Lemma keeps_queues_trans sh1 sh2 sh3 : keeps_queues sh1 sh2 → keeps_queues sh2 sh3 → keeps_queues sh1 sh3.
Proof. unfold keeps_queues. intuition congruence. Qed.

Lemma safe_q_wp {E A} held (m : st Sh E A) sh (Q : A → Sh → Prop) X : safe_q held m sh →
  (∀ a sh', Inv held sh' → keeps_queues sh sh' → Q a sh') → wp m sh Q X.
Proof. intros Hs HQ. eapply wp_conseq; [apply Hs| |]; [|done]. intros a sh' [? ?]. auto. Qed.

Lemma safe_q_bind {E A B} held (m : st Sh E A) (f : A → st Sh E B) sh : safe_q held m sh →
  (∀ a sh', Inv held sh' → keeps_queues sh sh' → safe_q held (f a) sh') → safe_q held (m ≫= f) sh.
Proof.
  intros Hm Hf. apply wp_bind. eapply safe_q_wp; [done|]. intros a sh' HI Hk.
  eapply safe_q_wp; [by apply Hf|]. intros b sh'' HI' Hk'. split; [done|]. by eapply keeps_queues_trans.
Qed.

Lemma safe_q_after {E A} held (m : st Sh E A) sh sh' : safe_q held m sh' → keeps_queues sh sh' →
  wp m sh' (fun _ sh'' => Inv held sh'' ∧ keeps_queues sh sh'') (fun _ _ => False).
Proof. intros Hs Hk. eapply safe_q_wp; [done|]. intros. split; [done|]. by eapply keeps_queues_trans. Qed.

Lemma safe_report_switch {E} held sh k s reason : Inv held sh → Slab.to_map (sessions sh) !! k = Some s →
  safe (E:=E) cfg held (report_switch k reason) sh.
Proof.
  intros HI Hs. unfold report_switch. apply wp_bind. eapply get_session_ok; [done|].
  destruct (Session.addr s) as [a|]; [|done]. apply safe_bind; [by apply safe_emit|]. intros r sh1 HI1 Hk1.
  destruct (session_kept _ _ _ _ _ _ HI1 Hk1 Hs) as (s1 & Hs1 & _ & Hok). eapply (safe_on_session cfg); [done..|].
  wp. split; [done|]. by destruct Hok.
Qed.

(** The session's previous address is unmapped: it was mapped to it. *)
Lemma unmap_prev_ok {E} held sh k s (Q : () → Sh → Prop) (X : E → Sh → Prop) :
  Inv held sh → Slab.to_map (sessions sh) !! k = Some s →
  Q () (set_by_addr (Routes.unprev (slink s) (by_addr sh)) sh) → wp (unmap_stale k (Session.prev_addr s)) sh Q X.
Proof.
  intros HI Hs HQ. unfold unmap_stale, Routes.unprev in *. cbn in HQ. destruct (Session.prev_addr s) as [p|] eqn:Hp; wp.
  - rewrite bool_decide_eq_true_2; [done|]. apply (Routes.rd_addr _ (routed _ _ _ HI)). exists (slink s).
    split; [by apply link_of|]. apply Routes.elem_addrs. by right.
  - by destruct sh.
Qed.

Lemma routes_set_sessions sh sl k s' : Slab.updated (sessions sh) k s' sl →
  routes (set_sessions sl sh) = Routes.put_s k (slink s') (routes sh).
Proof. intros [_ Hm _]. unfold routes, routes_of, Routes.put_s, Routes.set_rs. cbn. by rewrite Hm, fmap_insert. Qed.

Lemma lookup_updated {T} (sl sl' : Slab.Slab T) k v j w : Slab.updated sl k v sl' →
  Slab.to_map sl' !! j = Some w → (j = k ∧ w = v) ∨ (j ≠ k ∧ Slab.to_map sl !! j = Some w).
Proof. intros [_ -> _] [[-> ->]|[? ?]]%lookup_insert_Some; auto. Qed.

Lemma updated_eq {T} (sl sl' : Slab.Slab T) k v : Slab.updated sl k v sl' → Slab.to_map sl' !! k = Some v.
Proof. intros [_ -> _]. by rewrite lookup_insert_eq. Qed.

Lemma updated_ne {T} (sl sl' : Slab.Slab T) k v j : Slab.updated sl k v sl' → j ≠ k →
  Slab.to_map sl' !! j = Slab.to_map sl !! j.
Proof. intros [_ -> _] Hj. by rewrite lookup_insert_ne. Qed.

(** The address was free: nobody loses it. *)
Lemma switch_to_ok {E} held sh k s from reason now : Inv held sh → Slab.to_map (sessions sh) !! k = Some s →
  Session.addr s ≠ Some from → Session.pending_nomination s = None →
  wp (switch_to (E:=E) k from reason now) sh
    (fun _ sh' => Inv held sh' ∧ keeps_queues sh sh' ∧ pending_switches sh' = pending_switches sh) (fun _ _ => False).
Proof.
  intros HI Hs Hne Hnom. pose proof (ta_session _ _ _ _ _ _ _ _ _ _ (proj1 HI) _ _ Hs) as Hok.
  pose proof (Routes.routed_switch (routes sh) k (slink s) from (routed _ _ _ HI) (link_of _ _ _ _ Hs) Hne) as HR.
  cbn [Routes.r_addr routes routes_of] in HR.
  unfold switch_to. wp. eapply get_session_ok; [done|]. wp. apply wp_assert; [by apply bool_decide_eq_true|].
  wp. eapply unmap_prev_ok; [done..|]. set (idx := Routes.unprev (slink s) (by_addr sh)) in *.
  wp. apply (on_session_wf _ _ k s); [apply HI|done|]. wp. intros sl Hu.
  set (s1 := Session.set_last_switch _ _) in *. assert (Hok1 : session_ok s1).
  { destruct Hok. split; try done. unfold s1. cbn. rewrite Hnom. done. }
  wp. cbn [by_addr set_sessions set_by_addr]. destruct (idx !! from) as [o|] eqn:Ho.
  - destruct HR as (Hok' & so & Hso & HR). rewrite bool_decide_eq_true_2 by done.
    destruct (session_at _ _ _ _ _ HI Hso) as (s2 & Hs2 & <- & Hok2).
    unfold forget_address. apply (on_session_wf _ _ o s2); [apply Hu| |].
    { cbn. by rewrite (updated_ne _ _ _ _ _ Hu). }
    wp. intros sl2 Hu2. set (s3 := if bool_decide _ then _ else _) in *.
    assert (Hl3 : slink s3 = Routes.forget from (slink s2)).
    { unfold s3, Routes.forget. cbn. repeat case_bool_decide; try done. }
    assert (Hok3 : session_ok s3).
    { unfold s3. destruct Hok2. repeat case_bool_decide; split; try done. }
    set (sh2 := set_sessions sl2 _). assert (HI2 : Inv held sh2).
    { apply (inv_sessions cfg held sh); try done; cbn.
      - apply Hu2.
      - rewrite (Slab.updated_slots _ _ _ _ Hu2). apply (Slab.updated_slots _ _ _ _ Hu).
      - intros j w [[-> ->]|[_ [[-> ->]|[_ Hw]]%(lookup_updated _ _ _ _ _ _ Hu)]]%(lookup_updated _ _ _ _ _ _ Hu2);
          [done..|]. by eapply ta_session; [apply HI|].
      - unfold sh2. rewrite (routes_set_sessions _ _ _ _ Hu2). eapply (eq_ind _ Routes.Routed HR).
        unfold routes, routes_of, Routes.put_s, Routes.set_rs, Routes.set_addr_table. cbn.
        rewrite Hl3, (Slab.updated_map _ _ _ _ Hu), fmap_insert. done. }
    wp. apply wp_modify. eapply safe_wp; [eapply safe_report_switch; [exact HI2|]|].
    { cbn. rewrite (updated_ne _ _ _ _ _ Hu2) by done. apply (updated_eq _ _ _ _ Hu). }
    intros [] sh3 HI3 [Hr3 Hq3]. split; [done|]. split; [done|]. by apply (f_equal Routes.r_sw) in Hr3.
  - wp. set (sh2 := set_by_addr _ _). assert (HI2 : Inv held sh2).
    { apply (inv_sessions cfg held sh); try done; cbn.
      - apply Hu.
      - apply (Slab.updated_slots _ _ _ _ Hu).
      - intros j w [[-> ->]|[_ Hw]]%(lookup_updated _ _ _ _ _ _ Hu); [done..|]. by eapply ta_session; [apply HI|].
      - eapply (eq_ind _ Routes.Routed HR).
        unfold routes, routes_of, Routes.set_addr_table. cbn. rewrite (Slab.updated_map _ _ _ _ Hu), fmap_insert. done. }
    wp. apply wp_modify. eapply safe_wp; [eapply safe_report_switch; [exact HI2|]|].
    { apply (updated_eq _ _ _ _ Hu). }
    intros [] sh3 HI3 [Hr3 Hq3]. split; [done|]. split; [done|]. by apply (f_equal Routes.r_sw) in Hr3.
Qed.

(** The deferred switches are sessions, each listed once. *)
Lemma listed_length (m : gmap Slab.Key Session) l : NoDup l → (∀ k, k ∈ l → is_Some (m !! k)) → (length l ≤ size m)%nat.
Proof.
  intros Hnd Hl. rewrite <- length_map_to_list, <- (length_fmap fst).
  apply submseteq_length, NoDup_submseteq; [done|]. intros k [s Hs]%Hl. apply list_elem_of_fmap.
  exists (k, s). split; [done|]. by apply elem_of_map_to_list.
Qed.

Lemma len_slots {T} (s : Slab.Slab T) : Slab.wf s → (Slab.len s ≤ Slab.slot_count s)%nat.
Proof. intros Hwf. rewrite (Slab.wf_len _ Hwf). apply count_le. Qed.

Lemma listing_room held sh k s : Inv held sh → Slab.to_map (sessions sh) !! k = Some s →
  Session.switch_listed s = false → Z.of_nat (length (pending_switches sh)) < Config.max_sessions cfg.
Proof.
  intros HI Hs Hl. pose proof (routed _ _ _ HI) as HR. pose proof HI as (HT & _).
  assert (Hle : (length (k :: pending_switches sh) ≤ size (Slab.to_map (sessions sh)))%nat).
  { apply listed_length.
    - constructor; [|apply (Routes.rd_sw _ HR)]. intros (l & Hk & Hll)%(Routes.rd_listed _ HR).
      cbn in Hk. rewrite lookup_fmap, Hs in Hk. cbn in Hk. simplify_eq. cbn in Hll. congruence.
    - intros j [->|(l & Hj & _)%(Routes.rd_listed _ HR)]%elem_of_cons; [by rewrite Hs|].
      cbn in Hj. rewrite lookup_fmap in Hj. apply fmap_Some in Hj as (? & -> & _). done. }
  rewrite Slab.size_to_map in Hle by apply HT. pose proof (len_slots _ (ta_wf_s _ _ _ _ _ _ _ _ _ _ HT)).
  pose proof (ta_slots_s _ _ _ _ _ _ _ _ _ _ HT). cbn in Hle. lia.
Qed.

(** The state after a session was put on, or taken off, the list. *)
Lemma inv_listing held sh k s b sl l : Inv held sh → Slab.to_map (sessions sh) !! k = Some s →
  Slab.updated (sessions sh) k (Session.set_switch_listed b s) sl → NoDup l →
  (∀ j, j ∈ l ↔ if decide (j = k) then b = true else j ∈ pending_switches sh) →
  Inv held (set_pending_switches l (set_sessions sl sh)).
Proof.
  intros HI Hs Hu Hnd Hl. pose proof (ta_session _ _ _ _ _ _ _ _ _ _ (proj1 HI) _ _ Hs) as Hok.
  apply (inv_sessions cfg held sh); try done; cbn.
  - apply Hu.
  - apply (Slab.updated_slots _ _ _ _ Hu).
  - intros j w [[-> ->]|[_ Hw]]%(lookup_updated _ _ _ _ _ _ Hu); [by destruct Hok|by eapply ta_session; [apply HI|]].
  - pose proof (Routes.routed_listing (routes sh) k (slink s) b l (routed _ _ _ HI) (link_of _ _ _ _ Hs) Hnd Hl) as HR.
    eapply (eq_ind _ Routes.Routed HR). unfold routes, routes_of, Routes.set_listing. cbn.
    rewrite (Slab.updated_map _ _ _ _ Hu), fmap_insert. done.
Qed.

Lemma safe_defer_switch {E} held sh k s from : Inv held sh → Slab.to_map (sessions sh) !! k = Some s →
  Session.addr s ≠ Some from → safe_q (E:=E) held (defer_switch k from) sh.
Proof.
  intros HI Hs Hne. unfold defer_switch, safe_q. wp.
  pose proof (ta_session _ _ _ _ _ _ _ _ _ _ (proj1 HI) _ _ Hs) as Hok.
  apply (on_session_run cfg _ held sh k s); [done..|]. wp. intros sl Hu.
  set (s1 := Session.set_pending_nomination _ _) in *.
  destruct (inv_session cfg held sh k s s1 sl HI Hs Hu) as [HI1 Hk1]; [done|destruct Hok; split; try done; cbn; congruence|].
  pose proof (updated_eq _ _ _ _ Hu) as Hs1.
  wp. eapply get_session_ok; [exact Hs1|]. destruct (Session.switch_listed s1) eqn:Hl; wp; [done|].
  apply wp_assert. { rewrite Z.ltb_lt. cbn. rewrite (qu_config _ _ _ _ _ (proj2 (proj2 HI))). by eapply listing_room. }
  wp. apply (on_session_run cfg _ held _ k s1); [done..|]. wp. intros sl2 Hu2. split; [|done].
  eapply inv_listing; [exact HI1|done|done| |].
  - pose proof (routed _ _ _ HI) as HR. cbn. apply NoDup_app. split; [apply (Routes.rd_sw _ HR)|].
    split; [|apply NoDup_singleton]. intros j Hj ->%list_elem_of_singleton.
    apply (Routes.rd_listed _ HR) in Hj as (l & Hk & Hll). cbn in Hk. rewrite lookup_fmap, Hs in Hk. cbn in Hk.
    simplify_eq. unfold s1 in Hl. cbn in *. congruence.
  - intros j. cbn. rewrite elem_of_app, list_elem_of_singleton. case_decide; naive_solver.
Qed.

Lemma safe_select_address {E} held sh k s from nominated now : Inv held sh → Slab.to_map (sessions sh) !! k = Some s →
  safe_q (E:=E) held (select_address k from nominated now) sh.
Proof.
  intros HI Hs. pose proof (ta_session _ _ _ _ _ _ _ _ _ _ (proj1 HI) _ _ Hs) as Hok.
  unfold select_address, safe_q. wp. eapply get_session_ok; [done|]. wp. case_bool_decide as Ha.
  { apply safe_safe_q. eapply (safe_on_session cfg); [done..|]. wp. destruct Hok, nominated; split; try done. }
  wp. destruct (if nominated then Some Nominated else _) as [reason|]; [|by wp].
  destruct (match Session.last_switch s with Some _ => _ | None => _ end).
  - wp. apply wp_modify. set (sh1 := set_counters _ _). destruct nominated; wp; [|done].
    apply (safe_defer_switch held sh1 k s); done.
  - wp. apply (on_session_run cfg _ held sh k s); [done..|]. wp. intros sl Hu.
    destruct (inv_session cfg held sh k s _ sl HI Hs Hu) as [HI1 Hk1]; [done|by destruct Hok|].
    eapply wp_conseq; [eapply (switch_to_ok held); [exact HI1|exact (updated_eq _ _ _ _ Hu)|done..]| |done].
    intros _ sh' (HI' & Hq & _). done.
Qed.

(** Every pass skips an entry or removes one, so the fuel is enough. *)
Lemma safe_apply_pending_from {E} held now fuel : ∀ i sh, Inv held sh →
  (length (pending_switches sh) - i < fuel)%nat → safe_q (E:=E) held (apply_pending_from fuel i now) sh.
Proof.
  induction fuel as [|fuel IH]; intros i sh HI Hf; [lia|]. cbn [apply_pending_from]; unfold safe_q. wp.
  destruct (pending_switches sh !! i) as [k|] eqn:Hi; [|by wp].
  pose proof (lookup_lt_Some _ _ _ Hi) as Hlt. pose proof (routed _ _ _ HI) as HR.
  destruct (proj1 (Routes.rd_listed _ HR k) (list_elem_of_lookup_2 _ _ _ Hi)) as (l & Hl & _).
  destruct (session_at _ _ _ _ _ HI Hl) as (s & Hs & _ & Hok). wp. eapply get_session_ok; [done|]. cbv zeta.
  destruct (_ && _); [apply IH; [done|lia]|]. wp. apply (on_session_wf _ _ k s); [apply HI|done|]. wp. intros sl Hu.
  pose proof (swap_remove_perm _ _ _ Hi) as Hperm. set (l' := swap_remove i (pending_switches sh)) in *.
  pose proof (Routes.rd_sw _ HR) as Hnd. cbn in Hnd. rewrite Hperm in Hnd. apply NoDup_cons in Hnd as [Hni Hnd].
  assert (HI1 : Inv held (set_sessions sl (set_pending_switches l' sh))).
  { change (Inv held (set_pending_switches l' (set_sessions sl sh))). eapply inv_listing; [done..|].
    intros j. case_decide; [subst; naive_solver|]. rewrite Hperm, elem_of_cons. naive_solver. }
  assert (Hlen : (length l' - i < fuel)%nat).
  { apply Permutation_length in Hperm. cbn in Hperm. lia. }
  pose proof (updated_eq _ _ _ _ Hu) as Hs1. set (s1 := Session.set_switch_listed _ _) in *.
  wp. destruct (Session.pending_nomination s) as [a|] eqn:Hn.
  - wp. apply (on_session_run cfg _ held _ k s1); [done..|]. wp. intros sl2 Hu2.
    assert (Hok1 : session_ok s1) by (by destruct Hok).
    destruct (inv_session cfg held _ k s1 _ sl2 HI1 Hs1 Hu2) as [HI2 Hk2]; [done|by destruct Hok1|].
    eapply wp_conseq; [eapply (switch_to_ok held); [exact HI2|exact (updated_eq _ _ _ _ Hu2)| |done]| |done].
    + cbn. by apply (so_nomination _ Hok).
    + intros _ sh' (HI' & Hq & Hp). eapply safe_q_after; [apply IH; [done|]|done]. rewrite Hp. done.
  - wp. eapply safe_q_after; [by apply IH|done].
Qed.

Lemma safe_apply_pending_switches {E} held sh now : Inv held sh → safe_q (E:=E) held (apply_pending_switches now) sh.
Proof. intros HI. unfold apply_pending_switches, safe_q. wp. apply safe_apply_pending_from; [done|lia]. Qed.

End addresses.
End AddressSafe.
