(* ===== verification/ForwardSafe.v ===== *)
(** * Forwarding a packet is safe

    The rewrite leaves its buffer a string of bytes in every outcome, and the
    fan-out of a packet to the subscribers of its track keeps the invariant
    of the shard. *)

From S2P Require Import Prelude Wp Replay RocIndex RtpHeader Direction Inbound Outbound Cipher CipherProofs SrtpBytes Keys Slab Pool Model Maps Routes Rewrite RewriteProofs RtcpWire Ice IceProofs ShardIo Shard ShardRtcp Commands Ingress ShardInv ShardSteps RtcpSafe.

Module RewriteBytes.
Import Rewrite RewriteProofs.

(** Code on the output buffer that leaves bytes there, whatever the result. *)
Definition keeps_bytes {E A} (m : st (list Z) E A) : Prop :=
  ∀ d, bytes d → wlp m d (fun _ d' => bytes d') (fun _ d' => bytes d').

Lemma keeps_bytes_bind {E A B} (m : st (list Z) E A) (f : A → st (list Z) E B) :
  keeps_bytes m → (∀ a, keeps_bytes (f a)) → keeps_bytes (m ≫= f).
Proof. intros Hm Hf d Hd. apply wp_bind. eapply wp_conseq; [by apply Hm| |done]. intros a d' Hd'. by apply Hf. Qed.

Lemma keeps_bytes_ret {E A} (a : A) : keeps_bytes (E:=E) (mret a).
Proof. by intros d Hd. Qed.

Lemma write_at_bytes at_ src : bytes src → keeps_bytes (write_at at_ src).
Proof.
  intros Hs d Hd. unfold write_at. wp. apply wlp_lift; [intros d' [_ ->]%copy_at_ok; wp; by apply bytes_splice|by intros].
Qed.

Lemma element_byte to d : (1 <=? to) && (to <=? 14) && bool_decide (1 ≤ length d ∧ length d ≤ 16)%nat = true →
  is_u8 (Z.lor (wrap 8 (Z.shiftl to 4)) (wrap 8 (Z.of_nat (length (A:=Z) d)) - 1)).
Proof.
  intros [_ Hd%bool_decide_eq_true]%andb_true_iff. apply range_lor; [lia|by apply wrap_range|].
  rewrite wrap_small; unfold in_range; lia.
Qed.

Lemma write_element_bytes at_ to d : bytes d → keeps_bytes (write_element at_ to d).
Proof.
  intros Hd dst Hb. unfold write_element. wp. apply wlp_assert. intros Hok%element_byte. wp. case_bool_decide; wp; [done|].
  apply wlp_lift; [|by intros]. intros d1 [_ ->]%set_at_ok. wp. apply wlp_lift; [|by intros].
  intros d2 [_ ->]%copy_at_ok. wp. apply bytes_splice; [done|]. by apply Forall_insert.
Qed.

Lemma write_elements_bytes sub es : Forall (fun e => is_u8 (Ext.id e) ∧ bytes (Ext.data e)) es →
  ∀ at_, keeps_bytes (write_elements sub es at_).
Proof.
  induction es as [|e es IH]; intros Hes at_; cbn [write_elements]; [apply keeps_bytes_ret|].
  apply Forall_cons in Hes as [[_ He] Hes]. destruct (mapped_id sub e); [|by apply IH].
  apply keeps_bytes_bind; [by apply write_element_bytes|]. intros. by apply IH.
Qed.

Lemma fill_bytes a b : keeps_bytes (fill a b).
Proof.
  intros d Hd. unfold fill, run_to. destruct (slice _ _ _); [|done..]. apply bytes_splice; [|done].
  by apply Forall_replicate.
Qed.

Lemma finish_block_bytes at_ e : keeps_bytes (finish_block at_ e).
Proof.
  unfold finish_block. case_bool_decide; [apply keeps_bytes_ret|]. intros d Hd. wp. case_bool_decide; wp; [done|].
  eapply wp_conseq; [by apply fill_bytes| |done]. intros [] d1 Hd1. wp.
  eapply wp_conseq; [apply write_at_bytes; [apply bytes_to_be|done]| |done]. intros [] d2 Hd2. wp.
  eapply wp_conseq; [apply write_at_bytes; [apply bytes_to_be|done]| |done]. intros [] d3 Hd3. by wp.
Qed.

Lemma write_extensions_bytes src hdr sub at_ : bytes src → RtpHeader.parse src = Ok hdr → bytes (Sub.mid sub) →
  keeps_bytes (write_extensions src hdr sub at_).
Proof.
  intros Hb Hp Hm. destruct (elements_ok (E:=RewriteError) src hdr Hb Hp) as (es & Hes & Hesb).
  intros d Hd. unfold write_extensions. wp. apply wlp_lift; [|by intros]. intros es' Hes'.
  assert (es' = es) as -> by congruence. revert d Hd.
  apply (keeps_bytes_bind (write_elements sub es (at_ + 4))); [by apply write_elements_bytes|]. intros e.
  apply keeps_bytes_bind; [|apply finish_block_bytes].
  case_match; [apply keeps_bytes_ret|by apply write_element_bytes].
Qed.

Lemma on_dst_bytes {A} (m : st (list Z) RewriteError A) rng d : keeps_bytes m → bytes d →
  wlp (zoom snd (fun d s => (s.1, d)) m : st (Z * list Z) RewriteError A) (rng, d)
    (fun _ s => s.1 = rng ∧ bytes s.2) (fun _ s => bytes s.2).
Proof. intros Hm Hd. apply wp_zoom. cbn. eapply wp_conseq; [by apply Hm| |]; cbn; auto. Qed.

Lemma lor_bytes b0 b1 x n p : is_u8 b0 → is_u8 b1 → x = 0 ∨ x = 0x10 → 0 ≤ n < 16 → 0 ≤ p < 128 →
  is_u8 (Z.lor (Z.lor (Z.lor 0x80 (Z.land b0 0x20)) x) n) ∧ is_u8 (Z.lor (Z.land b1 0x80) p).
Proof.
  intros H0 H1 Hx Hn Hp.
  assert (Hl : ∀ a m, is_u8 a → is_u8 (Z.land a m)).
  { intros a m Ha. rewrite range_land_ones in * by lia. rewrite <- Z.land_assoc, (Z.land_comm m), Z.land_assoc. by rewrite Ha. }
  split; repeat apply range_lor; auto; try lia; unfold in_range; lia.
Qed.

Lemma rewrite_bytes src hdr sub now rng dst : bytes src → RtpHeader.parse src = Ok hdr → sub_ok sub → bytes dst →
  wlp (rewrite src hdr sub now) (rng, dst) (fun _ s => bytes s.2) (fun _ s => bytes s.2).
Proof.
  intros Hb Hp Hs Hd. pose proof (RtpHeader.parse_ok _ _ Hb Hp) as (_ & _ & _ & Hcc & _).
  unfold rewrite. wp. apply wlp_assert. intros _. wp.
  destruct (PtMap.lookup _ _) as [pt|] eqn:Hpt; [|done]. pose proof (lookup_pt_ok _ _ _ Hs Hpt) as Hptr.
  wp. case_bool_decide; wp; [done|]. apply wlp_lift; [|by intros]. intros cs [_ ->]%slice_ok.
  wp. eapply wp_conseq; [apply on_dst_bytes; [apply write_at_bytes; by apply bytes_sub_list|done]| |done].
  intros [] [rng1 d1] [_ Hd1]. cbn in Hd1. wp.
  eapply wp_conseq; [apply on_dst_bytes; [apply write_extensions_bytes; [done..|apply (ok_mid _ Hs)]|done]| |done].
  intros he [rng2 d2] [_ Hd2]. cbn in Hd2. wp. apply wlp_lift; [|by intros]. intros pl [_ ->]%slice_ok.
  wp. case_bool_decide; wp; [done|].
  eapply wp_conseq; [apply on_dst_bytes; [apply write_at_bytes; by apply bytes_sub_list|done]| |done].
  intros [] [rng3 d3] [_ Hd3]. cbn in Hd3. wp. destruct (offsets _ _ _ _ _) as [[[so to] rb] rng4]. wp.
  apply wlp_lift; [|by intros]. intros b0 Hb0%idx_ok. wp. apply wlp_lift; [|by intros]. intros b1 Hb1%idx_ok. wp.
  destruct (lor_bytes b0 b1 (if bool_decide (12 + 4 * Z.to_nat (RtpHeader.csrc_count hdr) < he)%nat then 0x10 else 0)
              (RtpHeader.csrc_count hdr) pt) as [Ho0 Ho1]; [exact (Forall_lookup_1 _ _ _ _ Hb Hb0)|exact (Forall_lookup_1 _ _ _ _ Hb Hb1)|case_bool_decide; auto|done|done|].
  apply wlp_lift; [|by intros]. intros d4 [_ ->]%set_at_ok. wp. apply wlp_lift; [|by intros]. intros d5 [_ ->]%set_at_ok.
  wp. eapply wp_conseq; [apply on_dst_bytes; [apply write_at_bytes, bytes_to_be|by repeat apply Forall_insert]| |done].
  intros [] [rng6 d6] [_ Hd6]. cbn in Hd6. wp.
  eapply wp_conseq; [apply on_dst_bytes; [apply write_at_bytes, bytes_to_be|done]| |done].
  intros [] [rng7 d7] [_ Hd7]. cbn in Hd7. wp.
  eapply wp_conseq; [apply on_dst_bytes; [apply write_at_bytes, bytes_to_be|done]| |done].
  intros [] [rng8 d8] [_ Hd8]. by wp.
Qed.

(** The rewrite ends, and keeps the length of the buffer. *)
Lemma rewrite_total src hdr sub now rng dst : bytes src → RtpHeader.parse src = Ok hdr → sub_ok sub →
  match rewrite src hdr sub now (rng, dst) with
  | Panic => False
  | Ok (_, (_, dst')) | Err (_, (_, dst')) => length dst' = length dst
  end.
Proof.
  intros Hb Hp Hs. pose proof (RtpHeader.parse_ok _ _ Hb Hp) as (Hn & _).
  destruct (elements_ok (E:=RewriteError) src hdr Hb Hp) as (es & Hes & Hesb).
  pose proof (out_elements_ok sub es Hs Hesb) as Hok.
  destruct (PtMap.lookup (Sub.pt_map sub) (RtpHeader.payload_type hdr)) as [pt|] eqn:Hpt.
  2: { unfold rewrite. run_st. rewrite bool_decide_eq_true_2 by lia. by rewrite Hpt. }
  pose proof (RtpHeader.parse_inv _ _ Hp) as (src0 & src1 & _ & _ & H0 & H1 & _).
  pose proof (rewrite_spec src hdr sub now rng dst es pt src0 src1 ltac:(unfold csrc_end; lia) H0 H1 Hes Hok Hpt) as Hr.
  cbv zeta in Hr. case_decide; [rewrite Hr, length_splice; lia|]. destruct Hr as (dst' & -> & Hl). done.
Qed.

Lemma commit_ok {E} state a now : (Sub.started state = true → is_Some (Sub.last_out_at state)) →
  ∃ state', commit (E:=E) state a now = Ok state' ∧ Sub.out_ssrc state' = Sub.out_ssrc state ∧
    is_Some (Sub.last_out_at state').
Proof.
  intros Hs. unfold commit. destruct (negb (Sub.started state) || rebased a || _) eqn:Hn; cbn; [eauto|].
  destruct (Sub.started state) eqn:Hst; [|done]. destruct (Hs eq_refl) as [t Ht]. rewrite Ht. cbn. eauto.
Qed.

End RewriteBytes.

Module ForwardSafe.
Import Shard ShardRtcp Ingress ShardInv ShardSteps RtcpSafe AddressSafe.

Section forward.
Context {Cr : Crypto} {Claws : CryptoLaws} {Cb : CryptoBytes} {I S : Type} {Hio : Io.DatagramIo I}
  {Hsink : EventSink S} {Hlaws : Io.DatagramIoLaws I}.
Context (cfg : Config.ShardConfig).
Abbreviation Sh := (Shard I S).
Abbreviation Inv := (Inv cfg).
Implicit Types (sh : Sh).

Lemma rewrite_into_buffer src header sub now rng room d : bytes src → RtpHeader.parse src = Ok header →
  RewriteProofs.sub_ok sub → buffer d → (room ≤ Pool.BUF_SIZE)%nat →
  on_buffer (rewrite_into src header sub now rng room) d (fun _ => True) (fun _ => True).
Proof.
  intros Hb Hp Hs [Hl Hd] Hroom. unfold on_buffer, rewrite_into, run_to. rewrite on_range_run by lia.
  set (w := sub_list 0 room d). assert (Hw : length w = room) by (unfold w; rewrite length_sub_list; lia).
  assert (Hwb : bytes w) by (by apply bytes_sub_list).
  pose proof (RewriteBytes.rewrite_bytes src header sub now rng w Hb Hp Hs Hwb) as Hby.
  pose proof BUF_SIZE_eq as HB.
  pose proof (RewriteBytes.rewrite_total src header sub now rng w Hb Hp Hs) as Hr.
  unfold run_to in Hby. destruct (Rewrite.rewrite src header sub now (rng, w)) as [[r [rng' d']]|[e [rng' d']]|]; [| |done].
  - split; [|done]. cbn in *. split; [rewrite length_splice; lia|by apply bytes_splice].
  - split; [|done]. cbn in *. split; [rewrite length_splice; lia|by apply bytes_splice].
Qed.

(** The packet in the buffer of [src] has this header. *)
Definition holds_packet (src : Pool.BufRef) (len : nat) (header : RtpHeader.RtpHeader) sh : Prop :=
  RtpHeader.parse (firstn len (Pool.bytes_of (pool sh) (Pool.index src))) = Ok header.

Lemma packet_kept src len header held sh sh' i : holds_packet src len header sh →
  keeps_other i held (pool sh) (pool sh') → Pool.index src ∈ held → Pool.index src ≠ i → holds_packet src len header sh'.
Proof. unfold holds_packet. intros Hp Ho Hin Hne. by rewrite (Ho _ Hin Hne). Qed.

Lemma sub_inv_committed b rw p o : sub_inv b → is_u32 (Sub.out_ssrc rw) → is_Some (Sub.last_out_at rw) →
  sub_inv (Sub.set_sent_octets o (Sub.set_sent_packets p (Sub.set_rewrite rw b))).
Proof. intros [[] _] Hs Hl. split; [|by intros _]. by split. Qed.

Definition fwd {E A} held src len header (m : st Sh E A) sh : Prop :=
  wp m sh (fun _ sh' => Inv held sh' ∧ keeps sh sh' ∧ holds_packet src len header sh') (fun _ _ => False).

Lemma fwd_drop {E} held src len header sh0 sh out c : Inv (Pool.index out :: held) sh →
  Pool.shard out = Config.shard cfg → keeps sh0 sh → holds_packet src len header sh →
  wp (bump c;; on_pool (Pool.put out) : st Sh E ()) sh
    (fun _ sh' => Inv held sh' ∧ keeps sh0 sh' ∧ holds_packet src len header sh') (fun _ _ => False).
Proof.
  intros HI Hs Hk Hp. wp. apply (put_ok cfg held); [done..|]. intros p HI' Hm. split; [done|].
  split; [by eapply keeps_trans|]. unfold holds_packet, Pool.bytes_of in *. cbn. by rewrite Hm.
Qed.

(** What [forward] does with the rewritten packet. *)
Definition send_rewritten {E} sidx (b : Sub.Subscription) out addr (rtp_len : nat) advance payload now : st Sh E () :=
  protected ← with_outbound (Sub.session b) out (Outbound.protect_rtp rtp_len);
  match protected with
  | None => bump n_drop_srtp_protect;; on_pool (Pool.put out)
  | Some n =>
    rw ← lift (Rewrite.commit (Sub.rewrite b) advance now);
    add n_rebased (if Rewrite.rebased advance then 1 else 0);;
    on_sub sidx (modify (fun b =>
      Sub.set_sent_octets (wrapping_add 32 (Sub.sent_octets b) payload)
        (Sub.set_sent_packets (wrapping_add 32 (Sub.sent_packets b) 1) (Sub.set_rewrite rw b))));;
    push_tx (Io.mkDatagram out n addr)
  end.

Lemma send_rewritten_ok {E} held sh sidx b s src len header out addr rtp_len advance payload now :
  Inv (Pool.index out :: held) sh → Slab.to_map (subs sh) !! sidx = Some b →
  Slab.to_map (sessions sh) !! Sub.session b = Some s → is_Some (Session.srtp_out s) → Pool.shard out = Config.shard cfg →
  holds_packet src len header sh → Pool.index src ∈ held → Pool.index out ∉ held → (length (tx sh) < Config.SEND_BATCH)%nat →
  fwd (E:=E) held src len header (send_rewritten sidx b out addr rtp_len advance payload now) sh.
Proof.
  intros HI Hb Hs Ho Hsh Hp Hsrc Hni Hroom. unfold send_rewritten, fwd. wp.
  assert (Hne : Pool.index src ≠ Pool.index out) by (intros Heq; by rewrite Heq in Hsrc).
  eapply (with_outbound_ok cfg); [exact HI|left|done|done|apply protects_rtp|].
  intros r sh1 HI1 Hk1 Htx Hoth Hr. assert (Hp1 : holds_packet src len header sh1).
  { eapply packet_kept; [done..|by right|done]. }
  destruct r as [n|]; [|by apply fwd_drop]. wp.
  destruct (ta_sub _ _ _ _ _ _ _ _ _ _ (proj1 HI) _ _ Hb) as [Hbok Hstart].
  destruct (RewriteBytes.commit_ok (E:=E) (Sub.rewrite b) advance now Hstart) as (rw & Hrw & Hx & Hlast).
  eapply wp_lift_ok; [exact Hrw|]. wp. destruct (sub_kept _ _ _ _ _ _ HI1 Hk1 Hb) as (b1 & Hb1 & _ & Hok1).
  apply wp_modify. set (sh2 := set_counters _ _). wp. apply wp_zoom.
  apply (with_mut_ok _ _ sidx b1); [apply HI1|done|]. wp. intros sl Hu.
  destruct (inv_sub cfg _ sh2 sidx b1 _ sl HI1 Hb1 Hu) as [HI3 Hk3]; [done| |].
  { apply sub_inv_committed; [done| |done]. rewrite Hx. apply Hbok. }
  eapply push_tx_ok; [exact HI3|done|cbn; by rewrite Htx|]. intros l HI4 Hk4. split; [done|].
  split; [|done]. do 2 (eapply keeps_trans; [done|]). done.
Qed.

Lemma forward_ok {E} held sh sidx b src len header now : Inv held sh → Slab.to_map (subs sh) !! sidx = Some b →
  Pool.index src ∈ held → (len ≤ Pool.BUF_SIZE)%nat → holds_packet src len header sh →
  (length (tx sh) < Config.SEND_BATCH)%nat → fwd (E:=E) held src len header (forward sidx src len header now) sh.
Proof.
  intros HI Hb Hsrc Hlen Hp Hroom. unfold forward, fwd. wp.
  apply wp_assert; [unfold Io.is_full; by rewrite bool_decide_eq_false_2 by lia|]. wp. eapply get_sub_ok; [done|].
  pose proof (ta_sub _ _ _ _ _ _ _ _ _ _ (proj1 HI) _ _ Hb) as [Hbok _].
  destruct (session_of_sub _ _ _ _ _ HI Hb) as (s & Hs & _). wp. eapply get_session_ok; [done|].
  destruct (Session.srtp_out s) as [o|] eqn:Ho; [|by wp]. destruct (Session.addr s) as [addr|]; [|by wp].
  wp. apply (take_ok cfg held); [done|by wp|]. intros out p Hsh Hni HI1 Hm. wp.
  assert (Hp1 : holds_packet src len header (set_pool p sh)) by (unfold holds_packet, Pool.bytes_of in *; cbn; by rewrite Hm).
  set (sh1 := set_pool p sh) in *.
  assert (Hin : Pool.index src ∈ Pool.index out :: held) by (by right).
  assert (Hne : Pool.index src ≠ Pool.index out) by (intros Heq; by rewrite Heq in Hsrc).
  destruct (buffer_at _ _ _ _ HI1 Hin) as [Hl1 Hb1].
  set (after p' := Inv (Pool.index out :: held) (set_pool p' sh1) ∧ holds_packet src len header (set_pool p' sh1)).
  match goal with |- context [Pool.pair_mut src out ?m] =>
    assert (Hw : wp (Pool.pair_mut src out m) (pool sh1) (fun _ => after) (fun _ => after)) end.
  { apply (pair_mut_ok cfg (Pool.index out :: held) sh1 _ _ _ (fun _ => True) (fun _ => True)); [done..|left|done| | |].
    - intros d Hd. unfold slice. rewrite decide_True by lia. rewrite sub_list_0.
      apply rewrite_into_buffer; [by apply Forall_take|done..|lia].
    - intros a p' _ HI2 Hoth. split; [done|]. by eapply packet_kept.
    - intros a p' _ HI2 Hoth. split; [done|]. by eapply packet_kept. }
  unfold run_to in Hw at 1. destruct (Pool.pair_mut _ _ _ (pool sh1)) as [[[[n a] rng'] p2]|[[e rng'] p2]|]; [| |done];
    destruct Hw as [HI2 Hp2]; apply wp_bind, wp_put.
  - change (fwd (E:=E) held src len header (send_rewritten sidx b out addr n a
      (wrap 32 (Z.of_nat (RtpHeader.payload_len header len))) now) (set_rng rng' (set_pool p2 sh1))).
    by eapply send_rewritten_ok.
  - by apply fwd_drop.
Qed.

Lemma safe_fan_out {E} held sh tidx t src len header now : Inv held sh → Slab.to_map (tracks sh) !! tidx = Some t →
  Pool.index src ∈ held → (len ≤ Pool.BUF_SIZE)%nat → holds_packet src len header sh →
  safe (E:=E) cfg held (fan_out tidx src len header now) sh.
Proof.
  intros HI Ht Hsrc Hlen Hp. unfold fan_out, safe. wp. eapply get_track_ok; [done|].
  eapply wp_mono; [apply (for_range_ok _ (fun sh' => Inv held sh' ∧ keeps sh sh' ∧ holds_packet src len header sh'))|].
  - done.
  - intros i sh1 Hi (HI1 & Hk1 & Hp1). wp. apply (flush_if_full_ok cfg held); [done|]. intros sh2 HI2 Hk2 Hroom Hm.
    assert (Hk02 : keeps sh sh2) by (by eapply keeps_trans).
    destruct (track_kept _ _ _ _ _ _ HI2 Hk02 Ht) as (t2 & Ht2 & Hl2 & _). wp. eapply get_track_ok; [done|].
    injection Hl2 as _ _ Hsubs. destruct (lookup_lt_is_Some_2 (Track.subscribers t2) i) as [j Hj]; [rewrite Hsubs; lia|].
    wp. eapply wp_lift_ok; [unfold idx; by rewrite Hj|]. apply list_elem_of_lookup_2 in Hj.
    destruct (subscriber_at _ _ _ _ _ _ HI2 Ht2 Hj) as (b & Hb & _ & _).
    eapply wp_mono; [eapply (forward_ok held); [done..| |done]|].
    + unfold holds_packet, Pool.bytes_of in *. by rewrite Hm.
    + intros [] sh3 (HI3 & Hk3 & Hp3). split; [done|]. split; [|done]. by eapply keeps_trans.
  - intros [] sh' (HI' & Hk' & _). done.
Qed.

End forward.
End ForwardSafe.
