(* ===== verification/IngressSafe.v ===== *)
(** * The packet path is safe

    Handling a received datagram never panics, whatever its bytes, and keeps
    the invariant of the shard; the datagram's buffer stays with the caller. *)

From S2P Require Import Prelude Wp Replay RocIndex RtpHeader Direction Inbound Outbound Cipher CipherProofs SrtpBytes Keys Slab Pool Model Maps Routes Rewrite RewriteProofs RtcpWire Ice IceProofs ShardIo Shard ShardRtcp Commands Ingress ShardInv ShardSteps RtcpSafe ForwardSafe.

Module IngressSafe.
Import Shard ShardRtcp Ingress ShardInv ShardSteps RtcpSafe AddressSafe ForwardSafe.

Section ingress.
Context {Cr : Crypto} {Claws : CryptoLaws} {Cb : CryptoBytes} {St : StunCrypto} {Sl : StunCryptoLaws}
  {I S : Type} {Hio : Io.DatagramIo I} {Hsink : EventSink S} {Hlaws : Io.DatagramIoLaws I}.
Context (cfg : Config.ShardConfig).
Abbreviation Sh := (Shard I S).
Abbreviation Inv := (Inv cfg).
Implicit Types (sh : Sh).

(** ** STUN *)

Lemma verify_ok {E} data r pwd : Ice.scan data = Ok r → pwd ≠ [] → (length pwd ≤ 256)%nat →
  ∃ b, Ice.verify (E:=E) data r pwd = Ok b.
Proof.
  intros Hs Hp Hp'. pose proof (IceProofs.scan_ok data) as Hok. rewrite Hs in Hok.
  destruct Hok as (Hn & Hmi & Hfp & Emi & Efp & _). unfold Ice.verify. rewrite bool_decide_eq_true_2 by done. run_st.
  rewrite IceProofs.verify_fingerprint_ok by lia. destruct (bool_decide _); [|eauto].
  rewrite IceProofs.verify_integrity_ok; [eauto|lia| |done..]. rewrite Emi, length_sub_list; lia.
Qed.

Lemma zip_lxor_bytes a b : bytes a → bytes b → bytes (zip_with Z.lxor a b).
Proof.
  intros Ha. revert b. induction Ha as [|x a Hx Ha IH]; intros b Hb; [constructor|]. destruct Hb as [|y b Hy Hb]; [constructor|].
  cbn. constructor; [by apply range_lxor|by apply IH].
Qed.

Lemma answer_bytes tid source key : bytes tid → bytes (IceProofs.answer tid source key).
Proof.
  intros Ht. assert (Hx : bytes (IceProofs.attr_bytes source tid)).
  { unfold IceProofs.attr_bytes, IceProofs.xor_value. destruct source;
      repeat first [apply bytes_to_be | apply zip_lxor_bytes | done | by repeat constructor | apply Forall_app; split]. }
  unfold IceProofs.answer.
  repeat first [apply bytes_to_be | done | apply stun_hmac_law | apply Forall_app; split].
Qed.

Lemma write_success_buffer r source key d : length (Ice.transaction_id r) = 12%nat → bytes (Ice.transaction_id r) →
  key ≠ [] → (length key ≤ 256)%nat → buffer d →
  on_buffer (Ice.write_success r source key) d (fun n => (n ≤ Pool.BUF_SIZE)%nat) (fun _ => False).
Proof.
  intros Ht Htb Hk Hk' [Hl Hb]. pose proof BUF_SIZE_eq as HB.
  pose proof (IceProofs.length_answer (Ice.transaction_id r) source key Ht) as Hla.
  rewrite IceProofs.length_attr_bytes in Hla by done.
  assert (length (IceProofs.answer (Ice.transaction_id r) source key) ≤ 100)%nat by (destruct source; lia).
  unfold on_buffer, run_to. rewrite IceProofs.write_success_run; [|done| |done..].
  2: { unfold Ice.RESPONSE_MAX_LEN, Ice.STUN_HEADER_SIZE. rewrite Hl, HB. lia. }
  split; [|lia]. split; [rewrite length_app, length_drop; lia|]. apply Forall_app. split; [by apply answer_bytes|].
  by apply Forall_drop.
Qed.

Lemma safe_note_transaction {E} t s : session_ok s →
  wp (Session.note_transaction t : st Session E bool) s (fun _ s' => slink s' = slink s ∧ session_ok s') (fun _ _ => False).
Proof.
  intros Hok. unfold Session.note_transaction. wp. pose proof Hok as [Hr Hlen Hnext _ _ _ _].
  eapply wp_lift_ok; [unfold slice; by rewrite decide_True by lia|]. case_bool_decide; wp; [done|].
  eapply wp_lift_ok; [unfold set_at; by rewrite decide_True by lia|]. wp. split; [done|].
  destruct Hok. split; try done; cbn -[Nat.modulo Nat.min Session.RECENT_TRANSACTIONS].
  - by rewrite length_insert.
  - lia.
  - apply Nat.mod_upper_bound. unfold Session.RECENT_TRANSACTIONS. lia.
Qed.

Lemma by_ufrag_session held sh u k : Inv held sh → by_ufrag sh !! u = Some k →
  ∃ s, Slab.to_map (sessions sh) !! k = Some s ∧ session_ok s.
Proof.
  intros HI Hu. destruct (proj1 (Routes.rd_ufrag _ (routed _ _ _ HI) u k) Hu) as (l & Hl & _).
  destruct (session_at _ _ _ _ _ HI Hl) as (s & Hs & _ & Hok). eauto.
Qed.

Lemma by_addr_session held sh a k : Inv held sh → by_addr sh !! a = Some k →
  ∃ s, Slab.to_map (sessions sh) !! k = Some s ∧ session_ok s.
Proof.
  intros HI Hu. destruct (proj1 (Routes.rd_addr _ (routed _ _ _ HI) a k) Hu) as (l & Hl & _).
  destruct (session_at _ _ _ _ _ HI Hl) as (s & Hs & _ & Hok). eauto.
Qed.

Lemma handle_stun_ok {E} held sh d now : Inv held sh → Pool.index (Io.dbuf d) ∈ held → (Io.dlen d ≤ Pool.BUF_SIZE)%nat →
  safe_q (E:=E) cfg held (handle_stun d now) sh.
Proof.
  intros HI Hd Hl. unfold handle_stun, safe_q. wp. eapply read_buf_ok; [done..|]. intros data Hdl Hdb.
  pose proof (IceProofs.scan_ok data) as Hscan. destruct (Ice.scan data) as [r|e|] eqn:Hs; [|by wp|done].
  destruct Hscan as (Hn & _ & _ & _ & _ & Htid & _). wp.
  destruct (by_ufrag sh !! _) as [k|] eqn:Hu; [|by wp]. destruct (by_ufrag_session _ _ _ _ HI Hu) as (s & Hss & Hok).
  wp. eapply get_session_ok; [done|]. wp. destruct (so_pwd _ Hok) as [Hp Hp'].
  destruct (verify_ok (E:=E) data r _ Hs Hp Hp') as (b & Hb). eapply wp_lift_ok; [done|]. destruct b; [|by wp]. cbn [negb].
  wp. apply (take_ok cfg held); [done|by wp|]. intros out p Hsh Hni HI1 _. wp. apply wp_zoom, wp_try.
  apply (pair_mut_ok cfg (Pool.index out :: held) (set_pool p sh) _ _ _ (fun n => (n ≤ Pool.BUF_SIZE)%nat) (fun _ => False));
    [done|by right|left|intros Heq; by rewrite Heq in Hd| | |done].
  { intros x Hx. apply write_success_buffer; [rewrite Htid, length_sub_list; lia|rewrite Htid; by apply bytes_sub_list|done..]. }
  intros n p2 Hnb HI2 _. wp. apply wp_modify. wp.
  eapply wp_conseq; [eapply (safe_send cfg held); [exact HI2|done..]| |done]. intros [] sh3 [HI3 Hk3].
  assert (Hk03 : keeps sh sh3) by done. destruct (session_kept _ _ _ _ _ _ HI3 Hk03 Hss) as (s3 & Hs3 & _ & Hok3). wp.
  eapply safe_wp; [eapply (safe_on_session cfg); [done..|]; by apply safe_note_transaction|].
  intros replayed sh4 HI4 Hk4. destruct (session_kept _ _ _ _ _ _ HI4 Hk4 Hs3) as (s4 & Hs4 & _ & _).
  assert (Hk04 : keeps_queues sh sh4) by (by eapply keeps_queues_trans; [apply Hk03|apply Hk4]).
  destruct replayed; [by wp|]. eapply safe_q_after; [|done]. by eapply safe_select_address.
Qed.

(** ** DTLS *)

Lemma safe_handle_dtls {E} held sh d : Inv held sh → Pool.index (Io.dbuf d) ∈ held → (Io.dlen d ≤ Pool.BUF_SIZE)%nat →
  safe (E:=E) cfg held (handle_dtls d) sh.
Proof.
  intros HI Hd Hl. unfold handle_dtls, safe. wp. destruct (by_addr sh !! _) as [k|] eqn:Ha; [|by wp].
  destruct (by_addr_session _ _ _ _ HI Ha) as (s & Hs & Hok). wp. eapply get_session_ok; [done|].
  case_bool_decide; [by wp|]. case_match; [by wp|]. case_match; [by wp|]. case_match; [by wp|]. wp.
  eapply safe_wp; [eapply (safe_on_session cfg); [done..|]; wp; split; [done|by destruct Hok]|].
  intros [] sh1 HI1 Hk1. wp. eapply read_buf_ok; [exact HI1|done..|]. intros b _ _. wp.
  eapply safe_wp; [eapply safe_emit; exact HI1|]. intros r sh2 HI2 Hk2. wp. split; [done|]. by eapply keeps_trans.
Qed.

(** ** SRTP *)

Lemma srtp_session_ok {E} held sh d (Q : option Slab.Key → Sh → Prop) (X : E → Sh → Prop) : Inv held sh →
  (∀ c, Inv held (set_counters c sh) → Q None (set_counters c sh)) →
  (∀ k s, Slab.to_map (sessions sh) !! k = Some s → is_Some (Session.srtp_in s) → Q (Some k) sh) →
  wp (srtp_session d) sh Q X.
Proof.
  intros HI HN HS. unfold srtp_session. wp. destruct (by_addr sh !! _) as [k|] eqn:Ha; [|wp; by apply wp_modify, HN].
  destruct (by_addr_session _ _ _ _ HI Ha) as (s & Hs & Hok). wp. eapply get_session_ok; [done|].
  destruct (Session.srtp_in s) eqn:Hi; cbn; wp; [|by apply wp_modify, HN]. eapply HS; [done|]. by rewrite Hi.
Qed.

Lemma safe_authenticated {E} held sh k s from now : Inv held sh → Slab.to_map (sessions sh) !! k = Some s →
  safe (E:=E) cfg held (authenticated k from now) sh.
Proof.
  intros HI Hs. pose proof (ta_session _ _ _ _ _ _ _ _ _ _ (proj1 HI) _ _ Hs) as Hok. unfold authenticated.
  apply safe_bind. { eapply (safe_on_session cfg); [done..|]. wp. case_bool_decide; [|done]. split; [done|by destruct Hok]. }
  intros [] sh1 HI1 Hk1. destruct (session_kept _ _ _ _ _ _ HI1 Hk1 Hs) as (s1 & Hs1 & _ & _). unfold safe. wp.
  eapply get_session_ok; [done|]. case_match; wp; [done|]. eapply safe_wp; [by apply safe_emit|].
  intros r sh2 HI2 Hk2. destruct (session_kept _ _ _ _ _ _ HI2 Hk2 Hs1) as (s2 & Hs2 & _ & Hok2).
  destruct r; [|done]. eapply safe_after; [|done]. eapply (safe_on_session cfg); [done..|]. wp. split; [done|by destruct Hok2].
Qed.

Lemma find_unbound_ok {E} held sh l packet header (Q : option Slab.Key → Sh → Prop) (X : E → Sh → Prop) :
  Inv held sh → bytes packet → RtpHeader.parse packet = Ok header →
  (∀ t, t ∈ l → is_Some (Slab.to_map (tracks sh) !! t)) →
  Q None sh → (∀ t, t ∈ l → Q (Some t) sh) → wp (find_unbound l packet header) sh Q X.
Proof.
  intros HI Hb Hp Hl HN HS. induction l as [|t l IH]; cbn [find_unbound]; wp; [done|].
  destruct (Hl t) as [tr Ht]; [left|]. eapply get_track_ok; [done|]. wp.
  assert (∃ f, Ext.find (E:=E) packet header (ext_mid (ext (Track.spec tr))) = Ok f) as [f Hf].
  { unfold Ext.find. case_match; [eauto|]. destruct (RewriteProofs.elements_ok (E:=E) _ _ Hb Hp) as (es & -> & _). cbn. eauto. }
  eapply wp_lift_ok; [done|]. case_bool_decide; wp; [apply HS; left|].
  apply IH; intros; [apply Hl|apply HS]; by right.
Qed.

(** Binding an SSRC to a track that had none. *)
Definition bind_ssrc {E} (x : Z) (tidx : Slab.Key) : st Session E () :=
  session ← get;
  let '(removed, u) := swap_remove_where (fun t => bool_decide (t = tidx)) (Session.unbound session) in
  let '(added, p) := fixed_push Session.MAX_TRACKS_PER_SESSION (x, tidx) (Session.published session) in
  put (Session.set_published p (Session.set_unbound u session));;
  lift (assert_ (is_some removed && added));;
  match Session.srtp_in session with
  | Some inbound =>
    match Inbound.pin x inbound with
    | Ok (_, i) => modify (Session.set_srtp_in (Some i))
    | _ => fun _ => Panic
    end
  | None => mret ()
  end.

Lemma pin_room s i : srtp_ok (Some i) (Session.srtp_out s) (Session.published s).*1 →
  (length (Session.published s) < Session.MAX_TRACKS_PER_SESSION)%nat →
  Inbound.Inv i ∧ (Inbound.pinned_count i < INBOUND_PINNED_MAX)%nat.
Proof.
  intros Hs Hl. unfold srtp_ok in Hs. destruct (Session.srtp_out s); [|done]. destruct Hs as (HI & Hp & _).
  split; [done|]. pose proof (Pins.pinned_count_le i _ HI (fun x => proj1 (Hp x))) as Hc.
  rewrite length_fmap in Hc. unfold Session.MAX_TRACKS_PER_SESSION, INBOUND_PINNED_MAX in *. lia.
Qed.

Lemma bind_ssrc_ok {E} s x tidx : session_ok s → tidx ∈ Session.unbound s →
  (length (Session.published s) + length (Session.unbound s) ≤ Session.MAX_TRACKS_PER_SESSION)%nat →
  wp (bind_ssrc (E:=E) x tidx) s (fun _ s' => session_ok s' ∧ ∃ u, Session.unbound s ≡ₚ tidx :: u ∧
       slink s' = Routes.set_tracks (Session.published s ++ [(x, tidx)]) u (slink s)) (fun _ _ => False).
Proof.
  intros Hok Hin Hle. unfold bind_ssrc. wp. destruct (swap_remove_where_eq tidx _ Hin) as (u & -> & Hu). cbv beta iota.
  assert (Hlt : (length (Session.published s) < Session.MAX_TRACKS_PER_SESSION)%nat).
  { apply Permutation_length in Hu. cbn in Hu. lia. }
  unfold fixed_push. rewrite bool_decide_eq_false_2 by lia. wp. apply wp_assert; [done|]. wp.
  pose proof (so_srtp _ Hok) as Hs. destruct (Session.srtp_in s) as [i|] eqn:Hi.
  - pose proof (pin_room s i Hs Hlt) as [HIi Hc].
    destruct (Pins.pin_ok x i HIi Hc) as (i' & -> & HIi' & _ & Hp'). wp. split; [|eauto].
    unfold srtp_ok in Hs. destruct (Session.srtp_out s) eqn:Ho; [|done]. destruct Hs as (_ & Hp & Hlog).
    destruct Hok. split; try done. cbn. rewrite Ho. split; [done|]. split; [|done].
    intros y. rewrite Hp', Hp, fmap_app, elem_of_app. cbn. rewrite list_elem_of_singleton. tauto.
  - wp. split; [|eauto]. destruct Hok. split; try done. cbn. rewrite Hi in *.
    unfold srtp_ok in *. by destruct (Session.srtp_out s).
Qed.

Lemma track_of_ssrc_none (s : Session) x : Session.track_of_ssrc s x = None → x ∉ (Session.published s).*1.
Proof.
  unfold Session.track_of_ssrc. intros Hn ([y t] & Hy & Hin)%list_elem_of_fmap. cbn in Hy. subst y.
  destruct (position (fun p : Z * Slab.Key => p.1 =? x) (Session.published s)) as [i|] eqn:Hp.
  - apply position_Some in Hp as [(q & Hq & _) _]. cbn in Hn. rewrite Hq in Hn. done.
  - apply list_elem_of_lookup in Hin as [i Hi]. rewrite position_None in Hp. specialize (Hp _ _ Hi). cbn in Hp.
    by rewrite Z.eqb_refl in Hp.
Qed.

Lemma track_of_ssrc_some (s : Session) x t : Session.track_of_ssrc s x = Some t →
  t ∈ (Session.published s).*2 ++ Session.unbound s.
Proof.
  unfold Session.track_of_ssrc. intros (q & (i & _ & Hq)%bind_Some & ->)%fmap_Some. apply elem_of_app. left.
  apply list_elem_of_fmap. exists q. split; [done|]. by eapply list_elem_of_lookup_2.
Qed.

(** The state after the track was bound. *)
Lemma inv_retrack held sh k s s' p u sl : Inv held sh → Slab.to_map (sessions sh) !! k = Some s →
  Slab.updated (sessions sh) k s' sl → session_ok s' → slink s' = Routes.set_tracks p u (slink s) →
  p.*2 ++ u ≡ₚ Routes.l_tracks (slink s) → NoDup p.*1 → Inv held (set_sessions sl sh).
Proof.
  intros HI Hs Hu Hok Hl Hp Hnd. apply (inv_sessions cfg held sh); try done; cbn.
  - apply Hu.
  - apply (Slab.updated_slots _ _ _ _ Hu).
  - intros j w [[-> ->]|[_ Hw]]%(lookup_updated _ _ _ _ _ _ Hu); [done|by eapply ta_session; [apply HI|]].
  - rewrite (routes_set_sessions _ _ _ _ Hu), Hl. by apply Routes.routed_retrack; [eapply routed|apply link_of|..].
Qed.

Lemma learn_ssrc_ok {E} held sh k s buf len header (Q : option Slab.Key → Sh → Prop) (X : E → Sh → Prop) :
  Inv held sh → Slab.to_map (sessions sh) !! k = Some s → Session.track_of_ssrc s (RtpHeader.ssrc header) = None →
  Pool.index buf ∈ held → (len ≤ Pool.BUF_SIZE)%nat → holds_packet buf len header sh →
  Q None sh →
  (∀ t tr sh', Inv held sh' → keeps_queues sh sh' → pool sh' = pool sh → Slab.to_map (tracks sh') !! t = Some tr →
     Q (Some t) sh') →
  wp (learn_ssrc k buf len header) sh Q X.
Proof.
  intros HI Hs Hx Hb Hlen Hp HN HS. pose proof (ta_session _ _ _ _ _ _ _ _ _ _ (proj1 HI) _ _ Hs) as Hok.
  pose proof (Routes.rd_slink _ (routed _ _ _ HI) _ _ (link_of slink _ _ _ Hs)) as Hsl.
  unfold learn_ssrc. wp. eapply get_session_ok; [done|]. wp. eapply read_buf_ok; [done..|]. intros d _ Hdb. wp.
  assert (Hin : ∀ t, t ∈ Session.unbound s → ∃ tr, Slab.to_map (tracks sh) !! t = Some tr).
  { intros t Ht. destruct (own_track_at _ _ _ _ _ t HI Hs) as (tr & Htr & _); [|eauto]. apply elem_of_app. by right. }
  eapply find_unbound_ok; [done..|intros t Ht; by apply Hin in Ht as [tr ->]|by wp|]. intros t Ht. wp.
  destruct (Hin t Ht) as [tr Htr].
  change (wp (on_session (E:=E) k (bind_ssrc (RtpHeader.ssrc header) t)) sh (fun _ s' => wp (
    on_track t (modify (fun t => Track.set_layer0 (Track.mkLayer (Some (RtpHeader.ssrc header)) (Track.last_sr (Track.layer0 t))) t));;
    bump n_ssrcs_learned;; mret (Some t)) s' Q X) X).
  apply (on_session_run cfg _ held sh k s); [done..|].
  eapply wp_conseq; [apply bind_ssrc_ok; [done|done|]| |done].
  { pose proof (Routes.so_count _ Hsl) as Hc. unfold Routes.l_tracks in Hc. rewrite length_app, length_fmap in Hc. done. }
  intros [] s1 (Hok1 & u & Hu & Hl1) sl Hupd.
  assert (HI1 : Inv held (set_sessions sl sh)).
  { eapply inv_retrack; [done..| |].
    - rewrite fmap_app, <- app_assoc. unfold Routes.l_tracks. cbn. by rewrite Hu.
    - rewrite fmap_app. apply NoDup_app. split; [apply (Routes.so_ssrcs _ Hsl)|]. split; [|apply NoDup_singleton].
      intros y Hy ->%list_elem_of_singleton. by apply (track_of_ssrc_none _ _ Hx). }
  wp. pose proof (ta_track _ _ _ _ _ _ _ _ _ _ (proj1 HI) _ _ Htr) as Htok. apply wp_zoom.
  apply (with_mut_ok _ _ t tr); [apply HI|done|]. wp. intros tl Htl.
  edestruct (inv_track cfg held (set_sessions sl sh) t tr _ tl HI1 Htr Htl) as [HI2 Hk2]; [done|done|].
  wp. apply wp_modify. eapply HS; [exact HI2|done|done|]. apply (updated_eq _ _ _ _ Htl).
Qed.

Lemma handle_rtp_ok {E} held sh d now : Inv held sh → Pool.index (Io.dbuf d) ∈ held → (Io.dlen d ≤ Pool.BUF_SIZE)%nat →
  safe_q (E:=E) cfg held (handle_rtp d now) sh.
Proof.
  intros HI Hd Hl. unfold handle_rtp, safe_q. wp. apply (srtp_session_ok held); [done|by intros; wp|]. intros k s Hs Hi. wp.
  eapply (with_inbound_ok cfg held); [done..|apply unprotects_rtp|]. intros [len|] sh1 HI1 Hk1 _ _ Hr; [|by wp; destruct Hk1].
  destruct (session_kept _ _ _ _ _ _ HI1 Hk1 Hs) as (s1 & Hs1 & _ & _). wp.
  eapply safe_wp; [by eapply safe_authenticated|]. intros [] sh2 HI2 Hk2.
  destruct (session_kept _ _ _ _ _ _ HI2 Hk2 Hs1) as (s2 & Hs2 & _ & _).
  assert (Hq2 : keeps_queues sh sh2) by (by eapply keeps_queues_trans; [apply Hk1|apply Hk2]).
  wp. eapply read_buf_ok; [done..|]. intros data Hdl Hdb. pose proof (RtpHeader.parse_never_panics data) as Hnp.
  destruct (RtpHeader.parse data) as [header|e|] eqn:Hp; [|by wp|done]. wp. eapply get_session_ok; [done|]. wp.
  destruct (Session.track_of_ssrc s2 _) as [t|] eqn:Ht.
  - wp. destruct (own_track_at _ _ _ _ _ t HI2 Hs2) as (tr & Htr & _); [by eapply track_of_ssrc_some|].
    eapply safe_q_after; [|done]. apply safe_safe_q. by eapply safe_fan_out.
  - eapply (learn_ssrc_ok held); [done..|by wp|]. intros t tr sh3 HI3 Hq3 Hpool Htr.
    eapply safe_q_after; [|by eapply keeps_queues_trans]. apply safe_safe_q. eapply safe_fan_out; [done..|].
    unfold holds_packet. by rewrite Hpool.
Qed.

Lemma safe_handle_rtcp {E} held sh d now : Inv held sh → Pool.index (Io.dbuf d) ∈ held → (Io.dlen d ≤ Pool.BUF_SIZE)%nat →
  safe (E:=E) cfg held (handle_rtcp d now) sh.
Proof.
  intros HI Hd Hl. unfold handle_rtcp, safe. wp. apply (srtp_session_ok held); [done|by intros; wp|]. intros k s Hs Hi. wp.
  eapply (with_inbound_ok cfg held); [done..|apply unprotects_rtcp|]. intros [len|] sh1 HI1 Hk1 _ _ Hr; [|by wp].
  destruct (session_kept _ _ _ _ _ _ HI1 Hk1 Hs) as (s1 & Hs1 & _ & _). wp.
  eapply safe_wp; [by eapply safe_authenticated|]. intros [] sh2 HI2 Hk2.
  destruct (session_kept _ _ _ _ _ _ HI2 Hk2 Hs1) as (s2 & Hs2 & _ & _). wp. apply wp_modify.
  eapply safe_after; [|by eapply keeps_trans]. eapply safe_handle_rtcp_compound; [done| |done..]. by apply link_of.
Qed.

(** A datagram, whatever it holds. *)
Lemma handle_datagram_ok {E} held sh d now : Inv held sh → Pool.index (Io.dbuf d) ∈ held → (Io.dlen d ≤ Pool.BUF_SIZE)%nat →
  safe_q (E:=E) cfg held (handle_datagram d now) sh.
Proof.
  intros HI Hd Hl. unfold handle_datagram, safe_q. wp. apply wp_modify. wp. apply wp_modify. wp.
  eapply read_buf_ok; [exact HI|done..|]. intros data _ _. set (sh1 := set_counters _ _).
  destruct (classify data).
  - eapply safe_q_after; [|done]. by apply handle_stun_ok.
  - eapply safe_q_after; [|done]. apply safe_safe_q. by apply safe_handle_dtls.
  - eapply safe_q_after; [|done]. by apply handle_rtp_ok.
  - eapply safe_q_after; [|done]. apply safe_safe_q. by apply safe_handle_rtcp.
  - by wp.
Qed.

End ingress.
End IngressSafe.
