(* ===== verification/CommandSafe.v ===== *)
(** * Commands are safe

    A command that is well formed ([ShardInv.command_ok]) is carried out or
    rejected without a panic; either way the invariant of the shard holds
    afterwards, so the tables agree. *)

From S2P Require Import Prelude Wp Replay RocIndex RtpHeader Direction Inbound Outbound Cipher CipherProofs SrtpBytes Keys Slab Pool Model Maps Routes Rewrite RewriteProofs RtcpWire Ice IceProofs ShardIo Shard ShardRtcp Commands Ingress ShardInv ShardSteps RtcpSafe IngressSafe.

Module CommandSafe.
Import Shard ShardRtcp Commands ShardInv ShardSteps RtcpSafe AddressSafe IngressSafe.

(** The settings of a shard: as many subscriptions as its sessions may have (31
    each) get an index of 32 bits in the slab. [ShardConfig::validate] does not
    check this; a larger [max_sessions] meets the [expect] of [Slab::insert]
    once the slab is that full. *)
Record settings_ok (cfg : Config.ShardConfig) : Prop := {
  st_nonneg : 0 ≤ Config.max_sessions cfg;
  st_max : 31 * Config.max_sessions cfg < 2 ^ 32;
}.

Class KdfBlockLaw `{KdfBlock} := kdf_block_len : ∀ k b, length (kdf_block k b) = 16%nat.

(** Keys of the right length are accepted. *)
Class KeysAccepted `{Crypto} := {
  ring_accepts k : length k = 16%nat → ring_key_ok k = true;
  hmac_accepts k : hmac_key_ok k = true;
}.

Section commands.
Context {Cr : Crypto} {Claws : CryptoLaws} {Cb : CryptoBytes} {Kdf : KdfBlock} {Kl : KdfBlockLaw} {Ka : KeysAccepted}
  {I S : Type} {Hio : Io.DatagramIo I} {Hsink : EventSink S} {Hlaws : Io.DatagramIoLaws I}.
Context (cfg : Config.ShardConfig) (Hcfg : settings_ok cfg).
Abbreviation Sh := (Shard I S).
Abbreviation Inv := (Inv cfg).
Implicit Types (sh : Sh).

Definition handled {E A} (held : list nat) (m : st Sh E A) sh : Prop :=
  wp m sh (fun _ sh' => Inv held sh' ∧ keeps_queues sh sh') (fun _ sh' => Inv held sh' ∧ keeps_queues sh sh').

Lemma safe_q_handled {E A} held (m : st Sh E A) sh : safe_q cfg held m sh → handled held m sh.
Proof. intros Hs. eapply wp_conseq; [exact Hs|done|done]. Qed.

Lemma handled_after {E A} held (m : st Sh E A) sh sh' : handled held m sh' → keeps_queues sh sh' →
  wp m sh' (fun _ sh'' => Inv held sh'' ∧ keeps_queues sh sh'') (fun _ sh'' => Inv held sh'' ∧ keeps_queues sh sh'').
Proof.
  intros Hs Hk. eapply wp_conseq; [exact Hs| |]; intros ? sh2 [? ?]; (split; [done|by eapply keeps_queues_trans]).
Qed.

Lemma session_idx_ok held sh id (Q : Slab.Key → Sh → Prop) (X : RejectReason → Sh → Prop) : Inv held sh →
  X UnknownSession sh →
  (∀ k s, session_ids sh !! id = Some k → Slab.to_map (sessions sh) !! k = Some s → session_ok s → Session.id s = id → Q k sh) →
  wp (session_idx id) sh Q X.
Proof.
  intros HI HX HQ. unfold session_idx. wp. destruct (session_ids sh !! id) as [k|] eqn:Hk; [|done].
  destruct (sid_session _ _ _ _ _ HI Hk) as (s & Hs & Hok & Hid). by eapply HQ.
Qed.

(** ** New sessions *)

Lemma slots_grow {T} (s s' : Slab.Slab T) (n : Z) : Slab.wf s' → Z.of_nat (Slab.slot_count s) ≤ n →
  Z.of_nat (Slab.len s') ≤ n → (Slab.slot_count s' = Slab.slot_count s ∨
    (Slab.slot_count s' = Datatypes.S (Slab.slot_count s) ∧ Slab.slot_count s = Slab.len s)) →
  Slab.len s' = Datatypes.S (Slab.len s) → Z.of_nat (Slab.slot_count s') ≤ n.
Proof. intros _ Hs Hl [->|[-> Heq]] Hlen; lia. Qed.

Lemma len_insert {T} (s s' : Slab.Slab T) k v : Slab.wf s → Slab.wf s' → Slab.to_map s !! k = None →
  Slab.to_map s' = <[k := v]> (Slab.to_map s) → Slab.len s' = Datatypes.S (Slab.len s).
Proof.
  intros Hwf Hwf' Hk Hm. rewrite <- (Slab.size_to_map s'), <- (Slab.size_to_map s), Hm by done.
  by rewrite map_size_insert_None.
Qed.

Lemma session_ok_new id ice base now : is_u32 base → local_pwd ice ≠ [] → (length (local_pwd ice) ≤ 256)%nat →
  session_ok (Session.new id ice base now).
Proof. intros Hb Hp Hl. split; cbn; try done; try lia. unfold Session.RECENT_TRANSACTIONS. lia. Qed.

Lemma create_session_ok held sh id ice base now : Inv held sh → command_ok (CreateSession id ice base) →
  handled held (create_session id ice base now) sh.
Proof.
  intros HI (Hb & Hp & Hl). unfold create_session, handled. wp. destruct (_ || _) eqn:Hdup; [by wp|].
  apply orb_false_iff in Hdup as [Hid Huf].
  destruct (session_ids sh !! id) eqn:Hid'; [done|]. destruct (by_ufrag sh !! _) eqn:Huf'; [done|].
  rewrite (qu_config _ _ _ _ _ (proj2 (proj2 HI))). destruct (Z.leb_spec (Config.max_sessions cfg) (Z.of_nat (Slab.len (sessions sh)))) as [|Hmax]; [by wp|].
  pose proof HI as (HT & HB & HQ). destruct HT as [Hws Hwt Hwb Hss Hst Hsb Hse Htr Hsu HR].
  destruct (Slab.insert_to_map (E:=RejectReason) (sessions sh) (Session.new id ice base now)) as (k & sl & Hins & Hwf & Hnk & Hm & Hgrow);
    [done|destruct Hcfg; lia|].
  pose proof (len_insert _ _ _ _ Hws Hwf Hnk Hm) as Hlen.
  wp. apply wp_zoom. eapply wp_ok; [exact Hins|]. wp. split; [|done].
  apply (inv_tables cfg held sh); try done. split; cbn; try done.
  - apply (slots_grow (sessions sh)); [done|done|lia|done..].
  - rewrite Hm. intros j s [[<- <-]|[_ Hs]]%lookup_insert_Some; [by apply session_ok_new|eauto].
  - pose proof (Routes.routed_create id (local_ufrag ice) k (routes sh) HR) as HR'.
    eapply (eq_ind _ Routes.Routed); [apply HR'; [|done..]; cbn; by rewrite lookup_fmap, Hnk|].
    unfold Routes.create, routes, routes_of. cbn. by rewrite Hm, fmap_insert.
Qed.

(** ** Datagrams of the control plane *)

Lemma send_datagram_ok held sh id b : Inv held sh → bytes b → handled held (send_datagram id b) sh.
Proof.
  intros HI Hb. unfold send_datagram, handled. wp. apply (session_idx_ok held); [done|by wp|]. intros k s _ Hs _ _. wp.
  eapply get_session_ok; [done|]. destruct (Session.addr s) as [addr|]; [|by wp]. case_bool_decide as Hl; [by wp|].
  wp. apply (take_ok cfg held); [done|by wp|]. intros out p Hsh Hni HI1 _. wp.
  apply (buf_mut_ok cfg (Pool.index out :: held) _ out _ (fun _ => True) (fun _ => False)); [done|left| | |done].
  - intros d [Hd Hdb]. unfold on_buffer. wp. eapply wp_lift_ok; [unfold copy_at; rewrite decide_True by lia; done|]. wp.
    split; [|done]. split; [rewrite length_splice; lia|by apply bytes_splice].
  - intros [] p2 _ HI2 _. eapply wp_conseq; [eapply (safe_send cfg held); [exact HI2|done|lia]| |done].
    intros [] sh3 [HI3 Hk3]. split; [done|]. apply Hk3.
Qed.

(** ** Keys *)

Lemma register_or_ok o log x : Outbound.Inv o log → is_u32 x →
  match register_or x o with Ok o' => ∃ log', Outbound.Inv o' log' | Err _ => True | Panic => False end.
Proof.
  intros HI Hx. pose proof (Outbound.register_inv o log x HI Hx) as Hr. unfold register_or.
  destruct (Outbound.register x o) as [[]|[]|]; [destruct Hr; eauto|done|done].
Qed.

Lemma register_subs_ok l (bs : Slab.Slab Sub.Subscription) : 
  (∀ k, k ∈ l → ∃ b, Slab.to_map bs !! k = Some b ∧ sub_inv b) → ∀ o log, Outbound.Inv o log →
  match register_subs l bs o with Ok o' => ∃ log', Outbound.Inv o' log' | Err _ => True | Panic => False end.
Proof.
  induction l as [|k l IH]; intros Hl o log HI; cbn [register_subs]; [eauto|].
  destruct (Hl k) as (b & Hb & [Hok _]); [left|]. rewrite (Slab.get_to_map _ _ _ Hb). cbn.
  pose proof (register_or_ok o log (Sub.out_ssrc (Sub.rewrite b)) HI (RewriteProofs.ok_ssrc _ Hok)) as Hr.
  destruct (register_or _ o) as [o'|e|]; [|done..]. destruct Hr as [log' HI']. cbn.
  apply (IH (fun j Hj => Hl j (list_elem_of_further _ _ _ Hj)) o' log' HI').
Qed.

Lemma pin_all_ok l : ∀ i, Inbound.Inv i →
  match pin_all l i with
  | Ok i' => Inbound.Inv i' ∧ ∀ y, Inbound.is_pinned y i' = true ↔ y ∈ l ∨ Inbound.is_pinned y i = true
  | Err _ => True
  | Panic => False
  end.
Proof.
  induction l as [|x l IH]; intros i HI; cbn [pin_all].
  { split; [done|]. intros y. split; [auto|]. intros [Hn|]; [by apply not_elem_of_nil in Hn|done]. }
  pose proof (Pins.pin_any x i HI) as Hp. unfold run_to in Hp. destruct (Inbound.pin x i) as [[[] i']|[e i']|]; [|done|done].
  destruct Hp as (HI' & _ & Hp). specialize (IH i' HI'). destruct (pin_all l i') as [i''|e|]; [|done|done].
  destruct IH as [HI'' Hp']. split; [done|]. intros y. rewrite Hp', Hp, elem_of_cons. tauto.
Qed.

Lemma none_pinned (c : Unified.SrtpCipher) y : Inbound.is_pinned y (Inbound.from_cipher c) = false.
Proof.
  destruct (Inbound.is_pinned y _) eqn:Hp; [|done]. apply Pins.is_pinned_iff in Hp as (i & s & Hs & _ & Hpin).
  change (replicate INBOUND_SSRC_SLOTS Inbound.EMPTY !! i = Some s) in Hs.
  by apply lookup_replicate in Hs as [-> _].
Qed.

Lemma safe_keyframe_of held sh k l now i : Inv held sh → has_session k l sh → (i < length (Routes.l_subs l))%nat →
  safe cfg held (keyframe_of k now i) sh.
Proof.
  intros HI Hl Hi. destruct (session_at _ _ _ _ _ HI Hl) as (s & Hs & <- & _). unfold keyframe_of, safe. wp.
  eapply get_session_ok; [done|]. destruct (lookup_lt_is_Some_2 _ _ Hi) as [j Hj]. wp.
  eapply wp_lift_ok; [unfold idx; cbn in Hj; by rewrite Hj|]. apply list_elem_of_lookup_2 in Hj.
  destruct (subscription_at _ _ _ _ _ _ HI Hs Hj) as (b & Hb & _ & _). wp. eapply get_sub_ok; [done|].
  destruct (track_of_sub _ _ _ _ _ HI Hb) as (t & Ht & _). by eapply safe_request_keyframe.
Qed.

(** A session's entry was written twice. *)
Lemma updated_twice {T} (s s1 s2 : Slab.Slab T) k v w : Slab.updated s k v s1 → Slab.updated s1 k w s2 → Slab.updated s k w s2.
Proof.
  intros [_ Hm Hs] [Hwf' Hm' Hs']. split; [done| |congruence]. by rewrite Hm', Hm, insert_insert_eq.
Qed.

Lemma install_srtp_ok held sh id keys now : Inv held sh → command_ok (InstallSrtp id keys) →
  handled held (install_srtp id keys now) sh.
Proof.
  intros HI [Hlk Hrk]. unfold install_srtp, handled. wp. apply (session_idx_ok held); [done|by wp|]. intros k s _ Hs Hok _.
  wp. eapply get_session_ok; [done|]. pose proof (so_srtp _ Hok) as Hsrtp.
  destruct (Session.srtp_in s) eqn:Hi; [by wp|]. unfold srtp_ok in Hsrtp. destruct (Session.srtp_out s) eqn:Ho; [done|].
  cbn [is_some negb]. wp. apply wp_assert; [done|]. wp.
  destruct (Keys.contexts_of_material kdf_block kdf_block_len (remote_key keys) 0 Hrk ring_accepts hmac_accepts)
    as (ci & Hin & _ & Hwi & _).
  destruct (Keys.contexts_of_material kdf_block kdf_block_len (local_key keys) (Session.out_ssrc_base s) Hlk ring_accepts hmac_accepts)
    as (co & _ & Hout & Hwo & _).
  eapply wp_lift_ok; [by rewrite Hin|]. wp. eapply wp_lift_ok; [by rewrite Hout|]. wp.
  pose proof (register_or_ok _ [] (Session.rtcp_ssrc s) (Outbound.outbound_inv_initial co (Session.out_ssrc_base s) Hwo) (so_base _ Hok)) as Hr.
  apply wp_lift. destruct (register_or _ _) as [o1|e|]; [|done..]. destruct Hr as [log1 HI1]. wp.
  pose proof (register_subs_ok (Session.subs s) (subs sh)) as Hrs. specialize (Hrs
    ltac:(intros j Hj; destruct (subscription_at _ _ _ _ _ _ HI Hs Hj) as (b & ? & _ & ?); eauto) o1 log1 HI1).
  apply wp_lift. destruct (register_subs _ _ _) as [o2|e|]; [|done..]. destruct Hrs as [log2 HI2]. wp.
  pose proof (pin_all_ok (fst <$> Session.published s) _ (Inbound.inbound_inv_initial ci Hwi)) as Hpin.
  apply wp_lift. destruct (pin_all _ _) as [i2|e|]; [|done..]. destruct Hpin as [HIi Hpin]. wp.
  apply (on_session_run cfg _ held sh k s); [done..|]. wp. intros sl Hu. wp.
  apply (on_session_wf _ _ k (Session.set_srtp_in (Some i2) s)); [apply Hu|apply (updated_eq _ _ _ _ Hu)|]. wp.
  intros sl2 Hu2. pose proof (updated_twice _ _ _ _ _ _ Hu Hu2) as Hu12.
  set (s2 := Session.set_srtp_out _ _) in *. assert (Hok2 : session_ok s2).
  { destruct Hok. split; try done. split; [done|]. split; [|by eexists]. intros x. rewrite Hpin, none_pinned. intuition done. }
  destruct (inv_session cfg held sh k s s2 sl2 HI Hs Hu12) as [HI3 [Hk3 Hq3]]; [done|done|]. wp.
  eapply get_session_ok; [apply (updated_eq _ _ _ _ Hu12)|]. eapply handled_after; [|exact Hq3].
  apply safe_q_handled, safe_safe_q.
  apply (safe_for_range cfg held _ (has_session k (slink s2))); [exact HI3| |by apply has_session_kept|].
  - apply link_of, (updated_eq _ _ _ _ Hu12).
  - intros i sh4 Hilt HI4 Hl4. eapply safe_keyframe_of; [done..|]. cbn in *. lia.
Qed.

(** ** New tracks *)

(** The SSRCs of the session once the track is added. *)
Definition with_ssrc (o : option Z) (l : list Z) : list Z := match o with Some x => l ++ [x] | None => l end.

(** A session whose context has the new track's SSRC pinned already. *)
Record pinned_for (o : option Z) (s s1 : Session) : Prop := {
  pf_link : slink s1 = slink s;
  pf_ok : ∀ s2, Session.srtp_in s2 = Session.srtp_in s1 → Session.srtp_out s2 = Session.srtp_out s1 →
    (Session.published s2).*1 = with_ssrc o (Session.published s).*1 →
    Session.recent_transactions s2 = Session.recent_transactions s1 → Session.recent_len s2 = Session.recent_len s1 →
    Session.next_transaction s2 = Session.next_transaction s1 → Session.ice s2 = Session.ice s1 →
    Session.out_ssrc_base s2 = Session.out_ssrc_base s1 →
    Session.pending_nomination s2 = Session.pending_nomination s1 → Session.addr s2 = Session.addr s1 → session_ok s2;
}.

Lemma pinned_for_of o s s1 : session_ok s → slink s1 = slink s →
  (∃ i, s1 = Session.set_srtp_in i s ∧ srtp_ok i (Session.srtp_out s) (with_ssrc o (Session.published s).*1)) →
  pinned_for o s s1.
Proof.
  intros Hok Hl (i & -> & Hs). split; [done|]. intros s2 Hi Ho Hp Hr Hrl Hn Hice Hb Hnom Ha. cbn in *. destruct Hok.
  split; rewrite ?Hr, ?Hrl, ?Hn, ?Hice, ?Hb, ?Hnom, ?Ha, ?Hi, ?Ho, ?Hp; done.
Qed.

Lemma updated_same {T} (s : Slab.Slab T) k v : Slab.wf s → Slab.to_map s !! k = Some v → Slab.updated s k v s.
Proof. intros Hwf Hk. split; [done| |done]. by rewrite insert_id. Qed.

Lemma pin_new_ok held sh k s o (Q : () → Sh → Prop) (X : RejectReason → Sh → Prop) : Inv held sh →
  Slab.to_map (sessions sh) !! k = Some s →
  (∀ e sh', Inv held sh' → keeps_queues sh sh' → X e sh') →
  (∀ sl s1, Slab.updated (sessions sh) k s1 sl → pinned_for o s s1 →
     (match o with Some x => x ∉ (Session.published s).*1 | None => True end) → Q () (set_sessions sl sh)) →
  wp (match o with
      | Some x => if is_some (Session.track_of_ssrc s x) then throw SsrcInUse else on_session k (pin_session x)
      | None => mret ()
      end) sh Q X.
Proof.
  intros HI Hs HX HQ. pose proof (ta_session _ _ _ _ _ _ _ _ _ _ (proj1 HI) _ _ Hs) as Hok.
  destruct o as [x|].
  2: { wp. replace sh with (set_sessions (sessions sh) sh) by (by destruct sh). eapply HQ; [by apply updated_same; [apply HI|]| |done].
       apply pinned_for_of; [done..|]. exists (Session.srtp_in s). split; [by destruct s|apply Hok]. }
  destruct (Session.track_of_ssrc s x) eqn:Ht; cbn [is_some]; [wp; by apply HX|].
  apply (on_session_run cfg _ held sh k s); [done..|]. unfold pin_session. wp.
  pose proof (so_srtp _ Hok) as Hsr. destruct (Session.srtp_in s) as [i|] eqn:Hi.
  - unfold srtp_ok in Hsr. destruct (Session.srtp_out s) as [out|] eqn:Ho; [|done]. destruct Hsr as (HIi & Hp & Hlog).
    pose proof (Pins.pin_any x i HIi) as Hpin. unfold run_to in Hpin. destruct (Inbound.pin x i) as [[[] i']|[e i']|]; [| |done].
    + destruct Hpin as (HI' & _ & Hp'). wp. intros sl Hu. eapply HQ; [done| |by apply track_of_ssrc_none].
      apply pinned_for_of; [done..|]. eexists. split; [done|]. rewrite Ho. split; [done|]. split; [|done].
      intros y. rewrite Hp', Hp. cbn. rewrite elem_of_app, list_elem_of_singleton. tauto.
    + subst i'. wp. intros sl Hu. edestruct (inv_session cfg held sh k s _ sl HI Hs Hu) as [HI1 Hk1]; [done| |by apply HX; [|apply Hk1]].
      destruct Hok. split; try done. cbn. by rewrite Ho.
  - wp. intros sl Hu. eapply HQ; [done| |by apply track_of_ssrc_none]. apply pinned_for_of; [done..|].
    exists None. split; [destruct s; cbn in *; by subst|]. unfold srtp_ok in *. by destruct (Session.srtp_out s).
Qed.

Lemma sessions_size held sh : Inv held sh → Z.of_nat (size (Routes.rs (routes sh))) ≤ Config.max_sessions cfg.
Proof.
  intros (HT & _). cbn. rewrite map_size_fmap, Slab.size_to_map by apply HT.
  pose proof (len_slots _ (ta_wf_s _ _ _ _ _ _ _ _ _ _ HT)). pose proof (ta_slots_s _ _ _ _ _ _ _ _ _ _ HT). lia.
Qed.

Lemma inv_add_track held sh k s s' t track spec p u sl tl : Inv held sh → Slab.to_map (sessions sh) !! k = Some s →
  Slab.updated (sessions sh) k s' sl → session_ok s' → slink s' = Routes.set_tracks p u (slink s) → track_ok (Track.new track k spec) →
  Slab.wf tl → Slab.to_map (tracks sh) !! t = None → Slab.to_map tl = <[t := Track.new track k spec]> (Slab.to_map (tracks sh)) →
  (Slab.slot_count tl = Slab.slot_count (tracks sh) ∨
     (Slab.slot_count tl = Datatypes.S (Slab.slot_count (tracks sh)) ∧ Slab.slot_count (tracks sh) = Slab.len (tracks sh))) →
  track_ids sh !! track = None → p.*2 ++ u ≡ₚ t :: Routes.l_tracks (slink s) → NoDup p.*1 →
  (length (Routes.l_tracks (slink s)) < Session.MAX_TRACKS_PER_SESSION)%nat →
  Inv held (set_track_ids (<[track := t]> (track_ids sh)) (set_sessions sl (set_tracks tl sh))).
Proof.
  intros HI Hs Hu Hok Hl Htok Hwf Hnt Hm Hgrow Hid Hp Hnd Hlt.
  set (sh' := set_track_ids _ _). pose proof HI as (HT & _).
  assert (HR : Routes.Routed (routes sh')).
  { eapply (eq_ind _ Routes.Routed).
    - eapply (Routes.routed_add_track (routes sh) k (slink s) t track p u (routed _ _ _ HI)); [by apply link_of| |done|done|done|].
      + cbn. by rewrite lookup_fmap, Hnt.
      + change (length (p.*2 ++ u) ≤ Session.MAX_TRACKS_PER_SESSION)%nat. apply Permutation_length in Hp. cbn [length] in Hp. lia.
    - unfold routes, routes_of, Routes.add_track, sh'. cbn. by rewrite Hm, (Slab.updated_map _ _ _ _ Hu), !fmap_insert, Hl. }
  assert (Hsz : Z.of_nat (Slab.len tl) ≤ 10 * Config.max_sessions cfg).
  { pose proof (owns_size _ _ _ _ Session.MAX_TRACKS_PER_SESSION (Routes.rd_tracks _ HR) (fun j l Hj => Routes.so_count _ (Routes.rd_slink _ HR _ _ Hj))) as Hsz.
    cbn in Hsz. rewrite !map_size_fmap, (Slab.size_to_map tl), (Slab.size_to_map sl) in Hsz by (done || apply Hu).
    pose proof (len_slots sl (Slab.updated_wf _ _ _ _ Hu)) as Hls. rewrite (Slab.updated_slots _ _ _ _ Hu) in Hls.
    pose proof (ta_slots_s _ _ _ _ _ _ _ _ _ _ HT). lia. }
  apply (inv_tables cfg held sh); try done. destruct HT. split; cbn; try done; try apply Hu.
  - by rewrite (Slab.updated_slots _ _ _ _ Hu).
  - apply (slots_grow (tracks sh)); [done..|]. by apply (len_insert _ _ t (Track.new track k spec)).
  - intros j w [[-> ->]|[_ Hw]]%(lookup_updated _ _ _ _ _ _ Hu); eauto.
  - rewrite Hm. intros j w [[<- <-]|[_ Hw]]%lookup_insert_Some; eauto.
Qed.

Lemma add_track_ok held sh id track spec : Inv held sh → command_ok (AddTrack id track spec) →
  handled held (add_track id track spec) sh.
Proof.
  intros HI Hc. unfold add_track, handled. wp. apply (session_idx_ok held); [done|by wp|]. intros k s _ Hs Hok _. wp.
  destruct (track_ids sh !! track) eqn:Hid; [by wp|]. cbn [is_some]. wp. eapply get_session_ok; [done|].
  case_bool_decide as Hcount; [by wp|]. wp. unfold Session.track_count in Hcount.
  assert (Hlt : (length (Routes.l_tracks (slink s)) < Session.MAX_TRACKS_PER_SESSION)%nat).
  { unfold Routes.l_tracks. rewrite length_app, length_fmap. cbn -[Session.MAX_TRACKS_PER_SESSION]. lia. }
  pose proof (Routes.so_ssrcs _ (Routes.rd_slink _ (routed _ _ _ HI) _ _ (link_of slink _ _ _ Hs))) as Hnd. cbn in Hnd.
  eapply (pin_new_ok held); [done..|]. intros sl s1 Hu [Hl1 Hpf] Hx. wp.
  pose proof HI as (HT & _).
  destruct (Slab.insert_to_map (E:=RejectReason) (tracks sh) (Track.new track k spec)) as (t & tl & Hins & Hwf & Hnt & Hm & Hgrow);
    [apply HT|pose proof (ta_slots_t _ _ _ _ _ _ _ _ _ _ HT); destruct Hcfg; lia|].
  apply wp_zoom. eapply wp_ok; [exact Hins|]. wp.
  apply (on_session_wf _ _ k s1); [apply Hu|apply (updated_eq _ _ _ _ Hu)|]. wp.
  injection Hl1 as Hi1 Hi2 Hi3 Hi4 Hi5 Hi6 Hi7 Hi8. unfold fixed_push.
  destruct (spec_ssrc spec) as [x|].
  - rewrite bool_decide_eq_false_2 by (rewrite Hi5; lia). wp. intros sl2 Hu2. wp. apply wp_assert; [done|]. wp. split; [|done].
    pose proof (updated_twice _ _ _ _ _ _ Hu Hu2) as Hu12. eapply (inv_add_track held sh k s _ t track spec); [done..| | |done|done|done|done|done|done| | |done].
    + apply Hpf; try done. cbn. by rewrite Hi5, fmap_app.
    + unfold Routes.set_tracks, slink. cbn. by rewrite Hi1, Hi2, Hi3, Hi4, Hi6, Hi7, Hi8.
    + rewrite Hi5, fmap_app, <- app_assoc. cbn. by rewrite <- Permutation_middle.
    + rewrite Hi5, fmap_app. apply NoDup_app. split; [done|]. split; [|apply NoDup_singleton].
      by intros y Hy ->%list_elem_of_singleton.
  - rewrite bool_decide_eq_false_2 by (rewrite Hi6; lia). wp. intros sl2 Hu2. wp. apply wp_assert; [done|]. wp. split; [|done].
    pose proof (updated_twice _ _ _ _ _ _ Hu Hu2) as Hu12. eapply (inv_add_track held sh k s _ t track spec); [done..| | |done|done|done|done|done|done| | |done].
    + apply Hpf; try done. cbn. by rewrite Hi5.
    + unfold Routes.set_tracks, slink. cbn. by rewrite Hi1, Hi2, Hi3, Hi4, Hi7, Hi8.
    + rewrite Hi5, Hi6, app_assoc. unfold Routes.l_tracks. cbn. by rewrite (Permutation_app_comm _ [t]).
    + by rewrite Hi5.
Qed.

(** ** New subscriptions *)

Lemma ids_unused_ok l : ∀ used, ids_unused used l = true → bytes l → Forall (fun i => 0 ≤ i ≤ 14) l.
Proof.
  induction l as [|x l IH]; intros used Hu Hb; [constructor|]. cbn in Hu. apply Forall_cons in Hb as [Hx Hb].
  unfold in_range in Hx. destruct (Z.eqb_spec x 0) as [->|]; [constructor; [lia|by eapply IH]|].
  destruct (_ || _) eqn:Hc; [done|]. simplify_tests. constructor; [lia|by eapply IH].
Qed.

Lemma new_sub_ok spec sub k t (tr : Track.PublishedTrack) : ext_map_is_valid (spec_ext_map spec) = true →
  is_u32 (spec_out_ssrc spec) → (1 ≤ length (sub_spec_mid spec) ≤ MID_CAPACITY)%nat → bytes (sub_spec_mid spec) →
  Forall (fun p => 0 ≤ p.2 < 128) (spec_pt_map spec) → bytes (ext_ids (spec_ext_map spec)) → is_u8 (map_mid (spec_ext_map spec)) →
  sub_inv (Sub.mkSub sub k t (Sub.rewrite_new (spec_out_ssrc spec)) (spec_ext_map spec) (ext_mid (ext (Track.spec tr)))
    (codec_clock_rate (codec (Track.spec tr))) (spec_pt_map spec) (sub_spec_mid spec) 0 0).
Proof.
  intros [Hv _]%andb_true_iff Hx Hmid Hmb Hpt He Hm. apply ids_unused_ok in Hv; [|apply Forall_app; auto].
  apply Forall_app in Hv as [Hv1 Hv2]. apply Forall_inv in Hv2. split; [|done]. by split.
Qed.

Lemma inv_add_sub held sh k s s' t tr tr' b id sub sl tl bl : Inv held sh →
  Slab.to_map (sessions sh) !! k = Some s → Slab.updated (sessions sh) k s' sl → session_ok s' →
  slink s' = Routes.set_subs (Session.subs s ++ [b]) (slink s) →
  Slab.to_map (tracks sh) !! t = Some tr → Slab.updated (tracks sh) t tr' tl → track_ok tr' →
  tlink tr' = Routes.mkT (Track.id tr) (Track.session tr) (Track.subscribers tr ++ [b]) →
  Slab.wf bl → Slab.to_map (subs sh) !! b = None → Slab.to_map bl = <[b := sub]> (Slab.to_map (subs sh)) →
  (Slab.slot_count bl = Slab.slot_count (subs sh) ∨
     (Slab.slot_count bl = Datatypes.S (Slab.slot_count (subs sh)) ∧ Slab.slot_count (subs sh) = Slab.len (subs sh))) →
  sub_inv sub → blink sub = Routes.mkB id k t → sub_ids sh !! id = None →
  (length (Session.subs s) < Session.MAX_SUBS_PER_SESSION)%nat →
  Inv held (set_sub_ids (<[id := b]> (sub_ids sh)) (set_tracks tl (set_sessions sl (set_subs bl sh)))).
Proof.
  intros HI Hs Hu Hok Hl Ht Hut Htok Htl Hwf Hnb Hm Hgrow Hbok Hbl Hid Hlt.
  set (sh' := set_sub_ids _ _). pose proof HI as (HT & _).
  assert (HR : Routes.Routed (routes sh')).
  { eapply (eq_ind _ Routes.Routed).
    - eapply (Routes.routed_add_sub (routes sh) k (slink s) t (tlink tr) b id (routed _ _ _ HI)); [by apply link_of|by apply link_of| |done|done].
      cbn. by rewrite lookup_fmap, Hnb.
    - unfold routes, routes_of, Routes.add_sub, sh'. cbn.
      by rewrite Hm, (Slab.updated_map _ _ _ _ Hu), (Slab.updated_map _ _ _ _ Hut), !fmap_insert, Hl, Htl, Hbl. }
  assert (Hsz : Z.of_nat (Slab.len bl) ≤ 31 * Config.max_sessions cfg).
  { pose proof (owns_size _ _ _ _ Session.MAX_SUBS_PER_SESSION (Routes.rd_subs _ HR) (fun j l Hj => Routes.so_nsubs _ (Routes.rd_slink _ HR _ _ Hj))) as Hsz.
    cbn in Hsz. rewrite !map_size_fmap, (Slab.size_to_map bl), (Slab.size_to_map sl) in Hsz by (done || apply Hu).
    pose proof (len_slots sl (Slab.updated_wf _ _ _ _ Hu)) as Hls. rewrite (Slab.updated_slots _ _ _ _ Hu) in Hls.
    pose proof (ta_slots_s _ _ _ _ _ _ _ _ _ _ HT). lia. }
  apply (inv_tables cfg held sh); try done. destruct HT. split; cbn; try done; try apply Hu; try apply Hut.
  - by rewrite (Slab.updated_slots _ _ _ _ Hu).
  - by rewrite (Slab.updated_slots _ _ _ _ Hut).
  - apply (slots_grow (subs sh)); [done..|]. by apply (len_insert _ _ b sub).
  - intros j w [[-> ->]|[_ Hw]]%(lookup_updated _ _ _ _ _ _ Hu); eauto.
  - intros j w [[-> ->]|[_ Hw]]%(lookup_updated _ _ _ _ _ _ Hut); eauto.
  - rewrite Hm. intros j w [[<- <-]|[_ Hw]]%lookup_insert_Some; eauto.
Qed.

Lemma tid_track held sh id t : Inv held sh → track_ids sh !! id = Some t →
  ∃ tr, Slab.to_map (tracks sh) !! t = Some tr ∧ track_ok tr ∧ Track.id tr = id.
Proof.
  intros HI Hid. destruct (proj1 (Routes.rd_tid _ (routed _ _ _ HI) id t) Hid) as (l & Hl & Hin).
  destruct (track_at _ _ _ _ _ HI Hl) as (tr & Ht & <- & Hok). exists tr. cbn in Hin. apply list_elem_of_singleton in Hin. done.
Qed.

(** The session part of [subscribe]: the out SSRC is registered. *)
Lemma register_session_ok s x offset : session_ok s → is_u32 x →
  wp ((match Session.srtp_out s with
       | Some o => match Outbound.register x o with
                   | Ok (_, o) => modify (Session.set_srtp_out (Some o))
                   | Err (_, o) => modify (Session.set_srtp_out (Some o));; throw SrtpSetup
                   | Panic => fun _ => Panic
                   end
       | None => mret ()
       end);;
      modify (Session.set_last_out_ssrc_offset offset)) s
    (fun _ s' => slink s' = slink s ∧ session_ok s') (fun _ s' => slink s' = slink s ∧ session_ok s').
Proof.
  intros Hok Hx. wp. pose proof (so_srtp _ Hok) as Hs. destruct (Session.srtp_out s) as [o|] eqn:Ho.
  - unfold srtp_ok in Hs. destruct (Session.srtp_in s) as [i|] eqn:Hi; [|done]. destruct Hs as (HIi & Hp & log & HIo).
    pose proof (Outbound.register_inv o log x HIo Hx) as Hr.
    destruct (Outbound.register x o) as [[[] o']|[e o']|]; [| |done]; destruct Hr as [_ Hr]; wp; (split; [done|]); destruct Hok; split; try done;
      cbn; rewrite Hi; (split; [done|]); eauto.
  - wp. split; [done|]. by destruct Hok.
Qed.

Lemma subscribe_ok held sh id sub track spec now : Inv held sh → command_ok (Subscribe id sub track spec) →
  handled held (subscribe id sub track spec now) sh.
Proof.
  intros HI (Hx & Hmid & Hmb & Hpt & He & Hmm). unfold subscribe, handled. wp.
  apply (session_idx_ok held); [done|by wp|]. intros k s _ Hs Hok _. wp.
  destruct (track_ids sh !! track) as [t|] eqn:Htid; [|done]. destruct (tid_track _ _ _ _ HI Htid) as (tr & Ht & Htok & _).
  destruct (sub_ids sh !! sub) eqn:Hsid; [by wp|]. cbn [is_some]. destruct (_ || _); [by wp|].
  destruct (ext_map_is_valid _) eqn:Hv; [|by wp]. cbn [negb]. wp. eapply get_session_ok; [done|].
  case_bool_decide as Hcount; [by wp|]. wp. destruct (_ || _); [by wp|]. wp.
  apply (on_session_run cfg _ held sh k s); [done..|].
  eapply wp_conseq; [by apply register_session_ok| |].
  2: { intros e s1 [Hl1 Hok1] sl Hu. destruct (inv_session cfg held sh k s s1 sl HI Hs Hu Hl1 Hok1) as [HI1 [_ Hk1]]. done. }
  intros [] s1 [Hl1 Hok1] sl Hu. destruct (inv_session cfg held sh k s s1 sl HI Hs Hu Hl1 Hok1) as [HI1 [_ Hk1]].
  wp. eapply get_track_ok; [exact Ht|]. wp.
  match goal with |- context [Slab.insert ?v] => set (b0 := v) end.
  destruct (Slab.insert_to_map (E:=RejectReason) (subs sh) b0) as (b & bl & Hins & Hwf & Hnb & Hm & Hgrow);
    [apply HI|pose proof (ta_slots_b _ _ _ _ _ _ _ _ _ _ (proj1 HI)); destruct Hcfg; lia|].
  apply wp_zoom. eapply wp_ok; [exact Hins|]. wp.
  apply (on_session_wf _ _ k s1); [apply Hu|apply (updated_eq _ _ _ _ Hu)|]. wp. intros sl2 Hu2. wp.
  apply wp_zoom, (with_mut_ok _ _ t tr); [apply HI|done|]. wp. intros tl Htl.
  assert (HI2 : Inv held (set_sub_ids (<[sub := b]> (sub_ids sh)) (set_tracks tl (set_sessions sl2 (set_subs bl (set_sessions sl sh)))))).
  { eapply (inv_add_sub held (set_sessions sl sh) k s1 _ t tr _ b sub b0); [exact HI1|apply (updated_eq _ _ _ _ Hu)|exact Hu2|by destruct Hok1|
      done|exact Ht|exact Htl|done|done|done|exact Hnb|exact Hm|exact Hgrow|by apply new_sub_ok|done|done|].
    injection Hl1 as _ _ _ _ _ _ Hsubs _. rewrite Hsubs. lia. }
  wp. eapply get_session_ok; [apply (updated_eq _ _ _ _ Hu2)|]. destruct (is_some _); [|by wp].
  eapply handled_after; [apply safe_q_handled, safe_safe_q; eapply safe_request_keyframe; [exact HI2|apply (updated_eq _ _ _ _ Htl)]|done].
Qed.

End commands.
End CommandSafe.
