(* ===== verification/RemoveSafe.v ===== *)
(** * Removals are safe

    Removing subscriptions, tracks and sessions: each removal finds the
    entries it expects in the tables, the loops end, and the tables agree
    after every command. *)

From S2P Require Import Prelude Wp Replay RocIndex RtpHeader Direction Inbound Outbound Cipher CipherProofs SrtpBytes Keys Slab Pool Model Maps Routes Rewrite RewriteProofs RtcpWire Ice IceProofs ShardIo Shard ShardRtcp Commands Ingress ShardInv ShardSteps RtcpSafe IngressSafe CommandSafe.

Module RemoveSafe.
Import Shard ShardRtcp Commands ShardInv ShardSteps RtcpSafe AddressSafe IngressSafe CommandSafe.

Section removals.
Context {Cr : Crypto} {Claws : CryptoLaws} {Cb : CryptoBytes} {Kdf : KdfBlock} {Kl : KdfBlockLaw} {Ka : KeysAccepted}
  {I S : Type} {Hio : Io.DatagramIo I} {Hsink : EventSink S} {Hlaws : Io.DatagramIoLaws I}.
Context (cfg : Config.ShardConfig) (Hcfg : settings_ok cfg).
Abbreviation Sh := (Shard I S).
Abbreviation Inv := (Inv cfg).
Implicit Types (sh : Sh).

Lemma position_remove `{EqDecision A} (x : A) l : x ∈ l →
  ∃ i, position (fun y => bool_decide (y = x)) l = Some i ∧ l ≡ₚ x :: delete i l ∧ l ≡ₚ x :: swap_remove i l.
Proof.
  intros Hx. destruct (position_elem x l Hx) as (i & Hp & Hi). exists i. split; [done|].
  split; [by apply delete_Permutation|by apply swap_remove_perm].
Qed.

(** Retiring an out SSRC keeps the session's contexts. *)
Lemma retire_session_ok {E} s x sidx : session_ok s → sidx ∈ Session.subs s →
  wp (session ← get;
      (match Session.srtp_out session with
       | Some o => match Outbound.retire x o with
                   | Ok o => modify (Session.set_srtp_out (Some o))
                   | _ => fun _ => Panic
                   end
       | None => mret ()
       end);;
      pos ← lift (expect (position (fun s => bool_decide (s = sidx)) (Session.subs session)));
      modify (fun s => Session.set_subs (delete pos (Session.subs s)) s) : st Session E ()) s
    (fun _ s' => session_ok s' ∧ ∃ l, Session.subs s ≡ₚ sidx :: l ∧ slink s' = Routes.set_subs l (slink s)) (fun _ _ => False).
Proof.
  intros Hok Hin. wp. destruct (position_remove sidx _ Hin) as (i & Hpos & Hperm & _).
  pose proof (so_srtp _ Hok) as Hs. destruct (Session.srtp_out s) as [o|] eqn:Ho.
  - unfold srtp_ok in Hs. destruct (Session.srtp_in s) as [ic|] eqn:Hi; [|done]. destruct Hs as (HIi & Hp & log & HIo).
    destruct (Outbound.retire_inv o log x HIo) as (o' & -> & _ & HIo'). wp. eapply wp_expect; [done|]. wp.
    split; [|eauto]. destruct Hok. split; try done. cbn. rewrite Hi. split_and!; [done|done|by eexists].
  - wp. eapply wp_expect; [done|]. wp. split; [|eauto]. by destruct Hok.
Qed.

Lemma bid_sub held sh b sub : Inv held sh → Slab.to_map (subs sh) !! b = Some sub → sub_ids sh !! Sub.id sub = Some b.
Proof. intros HI Hb. apply (Routes.rd_bid _ (routed _ _ _ HI)). exists (blink sub). split; [by apply link_of|left]. Qed.

(** Removal of a subscription: its session and its track no longer list it. *)
Lemma remove_subscription_ok {E} held sh b sub s t (Q : () → Sh → Prop) (X : E → Sh → Prop) :
  Inv held sh → Slab.to_map (subs sh) !! b = Some sub → Slab.to_map (sessions sh) !! Sub.session sub = Some s →
  Slab.to_map (tracks sh) !! Sub.track sub = Some t →
  (∀ sh' ls lt, Inv held sh' → keeps_queues sh sh' → Session.subs s ≡ₚ b :: ls → Track.subscribers t ≡ₚ b :: lt →
     routes sh' = Routes.del_sub (Sub.session sub) (Routes.set_subs ls (slink s)) (Sub.track sub)
                    (Routes.mkT (Track.id t) (Track.session t) lt) b (Sub.id sub) (routes sh) → Q () sh') →
  wp (remove_subscription b) sh Q X.
Proof.
  intros HI Hb Hs Ht HQ. pose proof HI as (HT & _). pose proof (bid_sub _ _ _ _ HI Hb) as Hid.
  pose proof (ta_session _ _ _ _ _ _ _ _ _ _ HT _ _ Hs) as Hok. pose proof (ta_track _ _ _ _ _ _ _ _ _ _ HT _ _ Ht) as Htok.
  destruct (session_of_sub _ _ _ _ _ HI Hb) as (s' & Hs' & Hin). rewrite Hs in Hs'. injection Hs' as <-.
  destruct (track_of_sub _ _ _ _ _ HI Hb) as (t' & Ht' & Hin'). rewrite Ht in Ht'. injection Ht' as <-.
  destruct (Slab.remove_to_map (E:=E) (subs sh) b sub) as (bl & Hrem & Hwf & Hm & Hsl); [apply HT|done|].
  unfold remove_subscription. wp. apply wp_zoom. eapply wp_ok; [exact Hrem|]. wp.
  apply (on_session_wf _ _ _ s); [apply HT|done|].
  eapply wp_conseq; [by apply retire_session_ok| |done]. intros [] s1 (Hok1 & ls & Hls & Hl1) sl Hu. wp.
  apply wp_zoom, (with_mut_ok _ _ _ t); [apply HT|done|]. wp.
  destruct (position_remove b _ Hin') as (i & Hpos & _ & Hlt). eapply wp_expect; [done|]. wp. intros tl Htl. wp.
  apply wp_assert; [cbn; by apply bool_decide_eq_true|].
  set (lt := swap_remove i (Track.subscribers t)) in *. set (sh' := set_sub_ids _ _).
  assert (Hr : routes sh' = Routes.del_sub (Sub.session sub) (Routes.set_subs ls (slink s)) (Sub.track sub)
                    (Routes.mkT (Track.id t) (Track.session t) lt) b (Sub.id sub) (routes sh)).
  { unfold routes, routes_of, Routes.del_sub, sh'. cbn.
    by rewrite Hm, (Slab.updated_map _ _ _ _ Hu), (Slab.updated_map _ _ _ _ Htl), !fmap_insert, fmap_delete, Hl1. }
  apply (HQ sh' ls lt); [|done|done|done|done].
  apply (inv_tables cfg held sh); try done. destruct HT. split; try done; try apply Hu; try apply Htl.
  - cbn. by rewrite (Slab.updated_slots _ _ _ _ Hu).
  - cbn. by rewrite (Slab.updated_slots _ _ _ _ Htl).
  - cbn. by rewrite Hsl.
  - intros j w [[-> ->]|[_ Hw]]%(lookup_updated _ _ _ _ _ _ Hu); eauto.
  - intros j w [[-> ->]|[_ Hw]]%(lookup_updated _ _ _ _ _ _ Htl); eauto.
  - cbn. rewrite Hm. intros j w [_ Hw]%lookup_delete_Some. eauto.
  - change (Routes.Routed (routes sh')). rewrite Hr. eapply (Routes.routed_del_sub (routes sh) _ (slink s) _ (tlink t) b (blink sub));
      [by apply (routed cfg held)|by apply link_of|done|done|by apply link_of|by apply link_of|done|done].
Qed.

(** Sessions whose subscriptions alone may have changed. *)
Definition subs_only (r r' : Routes.Routes) : Prop :=
  ∀ k s, Routes.rs r !! k = Some s → ∃ l, Routes.rs r' !! k = Some (Routes.set_subs l s).

Lemma subs_only_refl r : subs_only r r.
Proof. intros k s Hs. exists (Routes.l_subs s). by destruct s. Qed.

Lemma subs_only_trans r1 r2 r3 : subs_only r1 r2 → subs_only r2 r3 → subs_only r1 r3.
Proof. intros H12 H23 k s (l & Hl)%H12. destruct (H23 _ _ Hl) as (l' & Hl'). eauto. Qed.

Lemma subs_only_del r k s t tl b id l : Routes.rs r !! k = Some s → subs_only r (Routes.del_sub k (Routes.set_subs l s) t tl b id r).
Proof.
  intros Hk j s' Hs'. cbn. destruct (decide (j = k)) as [->|Hne].
  - rewrite lookup_insert_eq. simplify_eq. eauto.
  - rewrite lookup_insert_ne by done. exists (Routes.l_subs s'). rewrite Hs'. by destruct s'.
Qed.

Lemma remove_subscribers_ok {E} held tidx fuel : ∀ sh l (Q : () → Sh → Prop) (X : E → Sh → Prop), Inv held sh →
  has_track tidx l sh → (length (Routes.t_subs l) < fuel)%nat →
  (∀ sh', Inv held sh' → keeps_queues sh sh' → subs_only (routes sh) (routes sh') →
     has_track tidx (Routes.mkT (Routes.t_id l) (Routes.t_sess l) []) sh' → Q () sh') →
  wp (remove_subscribers fuel tidx) sh Q X.
Proof.
  induction fuel as [|fuel IH]; intros sh l Q X HI Hl Hf HQ; [lia|]. cbn [remove_subscribers]. wp.
  destruct (track_at _ _ _ _ _ HI Hl) as (t & Ht & <- & _). eapply get_track_ok; [done|].
  destruct (last (Track.subscribers t)) as [b|] eqn:Hlast.
  2: { apply last_None in Hlast. wp. apply HQ; [done|done|apply subs_only_refl|].
       unfold has_track in *. rewrite Hl. unfold tlink. by rewrite Hlast. }
  assert (Hin : b ∈ Track.subscribers t) by (apply last_Some in Hlast as [l' ->]; set_solver).
  destruct (subscriber_at _ _ _ _ _ _ HI Ht Hin) as (sub & Hb & Htr & _). rewrite <- Htr in Ht.
  destruct (session_of_sub _ _ _ _ _ HI Hb) as (s & Hs & _). wp.
  apply (remove_subscription_ok held sh b sub s t); [done..|]. intros sh1 ls lt HI1 Hq1 Hls Hlt Hr.
  eapply (IH sh1 (Routes.mkT (Track.id t) (Track.session t) lt)); [done| | |].
  - unfold has_track. rewrite Hr. cbn. rewrite Htr. by rewrite lookup_insert_eq.
  - cbn in *. apply Permutation_length in Hlt. cbn in Hlt. lia.
  - intros sh2 HI2 Hq2 Hsub Ht2. apply HQ; [done|by eapply keeps_queues_trans| |done].
    eapply subs_only_trans; [|done]. rewrite Hr. apply subs_only_del. by apply link_of.
Qed.

(** The session part of [remove_track]. *)
Definition drop_track {E} (tidx : Slab.Key) : st Session E () :=
  session ← get;
  let '(bound, p) := swap_remove_where (fun q => bool_decide (q.2 = tidx)) (Session.published session) in
  let '(unb, u) := swap_remove_where (fun t => bool_decide (t = tidx)) (Session.unbound session) in
  put (Session.set_unbound u (Session.set_published p session));;
  lift (assert_ (negb (eqb (is_some bound) (is_some unb))));;
  match bound, Session.srtp_in session with
  | Some (x, _), Some inbound => modify (Session.set_srtp_in (Some (Inbound.unpin x inbound)))
  | _, _ => mret ()
  end.

(** The track is in one of the two lists, and is removed from it. *)
Lemma removed_from s tidx : NoDup (Routes.l_tracks (slink s)) → tidx ∈ Routes.l_tracks (slink s) →
  let '(bound, p) := swap_remove_where (fun q : Z * Slab.Key => bool_decide (q.2 = tidx)) (Session.published s) in
  let '(unb, u) := swap_remove_where (fun t => bool_decide (t = tidx)) (Session.unbound s) in
  Routes.l_tracks (slink s) ≡ₚ tidx :: p.*2 ++ u ∧ negb (eqb (is_some bound) (is_some unb)) = true ∧
  match bound with Some (x, _) => (Session.published s).*1 ≡ₚ x :: p.*1 | None => p = Session.published s end.
Proof.
  unfold Routes.l_tracks. cbn [Routes.l_pub Routes.l_unb slink]. intros Hnd Hin.
  pose proof (swap_remove_where_spec (fun q : Z * Slab.Key => bool_decide (q.2 = tidx)) (Session.published s)) as Hp.
  pose proof (swap_remove_where_spec (fun t => bool_decide (t = tidx)) (Session.unbound s)) as Hu.
  destruct (swap_remove_where _ (Session.published s)) as [[[x y]|] p], (swap_remove_where _ (Session.unbound s)) as [[z|] u].
  - destruct Hp as [Hy%bool_decide_eq_true Hp], Hu as [Hz%bool_decide_eq_true Hu]. cbn in Hy. subst y z. exfalso.
    rewrite Hp, Hu in Hnd. cbn in Hnd. apply NoDup_cons in Hnd as [Hn _]. apply Hn. set_solver.
  - destruct Hp as [Hy%bool_decide_eq_true Hp], Hu as [-> _]. cbn in Hy. subst y.
    split; [by rewrite Hp|]. split; [done|]. by rewrite Hp.
  - destruct Hu as [Hz%bool_decide_eq_true Hu], Hp as [-> _]. subst z. split; [|done].
    by rewrite Hu, <- Permutation_middle.
  - destruct Hp as [_ Hp], Hu as [_ Hu]. exfalso. apply elem_of_app in Hin as [(q & Hq & Hin)%list_elem_of_fmap|Hin].
    + specialize (Hp _ Hin). rewrite bool_decide_eq_true_2 in Hp by done. done.
    + specialize (Hu _ Hin). rewrite bool_decide_eq_true_2 in Hu by done. done.
Qed.

Lemma drop_track_ok {E} s tidx : session_ok s → Routes.slink_ok (slink s) → tidx ∈ Routes.l_tracks (slink s) →
  wp (drop_track (E:=E) tidx) s (fun _ s' => session_ok s' ∧ ∃ p u, slink s' = Routes.set_tracks p u (slink s) ∧
       Routes.l_tracks (slink s) ≡ₚ tidx :: p.*2 ++ u ∧ NoDup p.*1) (fun _ _ => False).
Proof.
  intros Hok Hsl Hin. pose proof (removed_from s tidx (Routes.so_tracks _ Hsl) Hin) as Hr. unfold drop_track. wp.
  pose proof (Routes.so_ssrcs _ Hsl) as Hnd. cbn in Hnd.
  destruct (swap_remove_where _ (Session.published s)) as [bound p], (swap_remove_where _ (Session.unbound s)) as [unb u].
  destruct Hr as (Hperm & Hx & Hb). wp. apply wp_assert; [done|]. wp. pose proof (so_srtp _ Hok) as Hs.
  destruct bound as [[x y]|].
  - rewrite Hb in Hnd. apply NoDup_cons in Hnd as [Hnx Hnd]. destruct (Session.srtp_in s) as [i|] eqn:Hi; wp.
    + split; [|eauto 6]. unfold srtp_ok in Hs. destruct (Session.srtp_out s) eqn:Ho; [|done]. destruct Hs as (HIi & Hp & Hlog).
      destruct (Pins.unpin_ok x i HIi) as (HI' & _ & Hp'). destruct Hok. split; try done. cbn. rewrite Ho.
      split; [done|]. split; [|done]. intros w. rewrite Hp', Hp, Hb, elem_of_cons. split; [naive_solver|].
      intros Hw. split; [congruence|auto].
    + split; [|eauto 6]. destruct Hok. split; try done. cbn. rewrite Hi in *. unfold srtp_ok in *. by destruct (Session.srtp_out s).
  - subst p. wp. split; [|eauto 6]. by destruct Hok.
Qed.

Lemma remove_track_ok {E} held sh tidx t s (Q : () → Sh → Prop) (X : E → Sh → Prop) : Inv held sh →
  Slab.to_map (tracks sh) !! tidx = Some t → Slab.to_map (sessions sh) !! Track.session t = Some s →
  (∀ sh' p u l, Inv held sh' → keeps_queues sh sh' →
     has_session (Track.session t) (Routes.set_tracks p u (Routes.set_subs l (slink s))) sh' →
     Routes.l_tracks (slink s) ≡ₚ tidx :: p.*2 ++ u → Q () sh') →
  wp (remove_track tidx) sh Q X.
Proof.
  intros HI Ht Hs HQ. unfold remove_track. wp. eapply get_track_ok; [done|]. wp.
  eapply (remove_subscribers_ok held); [done|by apply link_of|cbn; lia|]. intros sh1 HI1 Hq1 Hsub Ht1.
  destruct (track_at _ _ _ _ _ HI1 Ht1) as (t1 & Htr1 & Hl1 & _). injection Hl1 as Hid1 Hse1 Hsu1. 
  destruct (Hsub _ _ (link_of slink _ _ _ Hs)) as (l & Hk1). destruct (session_at _ _ _ _ _ HI1 Hk1) as (s1 & Hs1 & Hls1 & Hok1).
  pose proof HI1 as (HT & _). pose proof (Routes.rd_slink _ (routed _ _ _ HI1) _ _ Hk1) as Hsl. rewrite <- Hls1 in Hsl.
  destruct (Slab.remove_to_map (E:=E) (tracks sh1) tidx t1) as (tl & Hrem & Hwf & Hm & Hslots); [apply HT|done|].
  wp. apply wp_zoom. eapply wp_ok; [exact Hrem|]. wp. rewrite Hse1.
  change (wp (on_session (E:=E) (Track.session t) (drop_track tidx)) (set_tracks tl sh1) (fun _ s' => wp (
    sh ← get; let removed := track_ids sh !! Track.id t1 in put (set_track_ids (delete (Track.id t1) (track_ids sh)) sh);;
    lift (assert_ (bool_decide (removed = Some tidx)))) s' Q X) X).
  apply (on_session_wf _ _ _ s1); [apply HT|done|].
  assert (Hin : tidx ∈ Routes.l_tracks (slink s1)).
  { destruct (owns_elem _ _ _ _ tidx _ (Routes.rd_tracks _ (routed _ _ _ HI1)) (link_of tlink _ _ _ Htr1)) as (l' & Hl' & Hin).
    cbn in Hl', Hin. rewrite Hse1, lookup_fmap, Hs1 in Hl'. cbn in Hl'. by simplify_eq. }
  eapply wp_conseq; [by apply drop_track_ok| |done]. intros [] s2 (Hok2 & p & u & Hl2 & Hperm & Hnd) sl Hu. wp.
  apply wp_assert.
  { cbn. apply bool_decide_eq_true. apply (Routes.rd_tid _ (routed _ _ _ HI1)). exists (tlink t1). split; [by apply link_of|left]. }
  set (sh' := set_track_ids _ _).
  assert (Hr : routes sh' = Routes.del_track (Track.session t) (Routes.set_tracks p u (slink s1)) tidx (Track.id t1) (routes sh1)).
  { unfold routes, routes_of, Routes.del_track, sh'. cbn. by rewrite Hm, (Slab.updated_map _ _ _ _ Hu), fmap_insert, fmap_delete, Hl2. }
  apply (HQ sh' p u l); [|done| |].
  - apply (inv_tables cfg held sh1); try done. destruct HT. split; try done; try apply Hu.
    + cbn. by rewrite (Slab.updated_slots _ _ _ _ Hu).
    + cbn. by rewrite Hslots.
    + intros j w [[-> ->]|[_ Hw]]%(lookup_updated _ _ _ _ _ _ Hu); eauto.
    + cbn. rewrite Hm. intros j w [_ Hw]%lookup_delete_Some. eauto.
    + change (Routes.Routed (routes sh')). rewrite Hr.
      eapply (Routes.routed_del_track (routes sh1) _ (slink s1) tidx (tlink t1));
        [by eapply routed|by apply link_of|by apply link_of|done|done|done|done].
  - unfold has_session. rewrite Hr. cbn. by rewrite lookup_insert_eq, Hls1.
  - rewrite Hls1 in Hperm. done.
Qed.

(** ** Closing a session *)

Lemma remove_tracks_ok held k fuel : ∀ sh l (Q : () → Sh → Prop) X, Inv held sh →
  has_session k l sh → (length (Routes.l_tracks l) < fuel)%nat →
  (∀ sh' ls, Inv held sh' → keeps_queues sh sh' →
     has_session k (Routes.set_tracks [] [] (Routes.set_subs ls l)) sh' → Q () sh') →
  wp (remove_tracks fuel k) sh Q X.
Proof.
  induction fuel as [|fuel IH]; intros sh l Q X HI Hl Hf HQ; [lia|]. cbn [remove_tracks]. wp.
  destruct (session_at _ _ _ _ _ HI Hl) as (s & Hs & <- & _). eapply get_session_ok; [done|].
  assert (Hstep : ∀ tidx, tidx ∈ Routes.l_tracks (slink s) → wp (remove_track tidx;; remove_tracks fuel k) sh Q X).
  { intros tidx Hin. destruct (own_track_at _ _ _ _ _ tidx HI Hs Hin) as (t & Ht & Hk). wp.
    rewrite <- Hk in Hs. apply (remove_track_ok held sh tidx t s); [done..|]. intros sh1 p u l' HI1 Hq1 Hk1 Hperm.
    rewrite Hk in Hk1. eapply IH; [done|exact Hk1| |].
    - apply Permutation_length in Hperm. cbn [length] in Hperm. unfold Routes.l_tracks at 1. cbn. lia.
    - intros sh2 ls HI2 Hq2 Hk2. eapply HQ; [done|by eapply keeps_queues_trans|exact Hk2]. }
  destruct (Session.published s) as [|[x t] pub] eqn:Hpub; cbn.
  - destruct (Session.unbound s) as [|t unb] eqn:Hunb; cbn.
    + wp. apply (HQ sh (Session.subs s)); [done..|]. unfold has_session in *. rewrite Hl. f_equal. unfold Routes.set_tracks, slink.
      cbn. by rewrite Hpub, Hunb.
    + apply Hstep. unfold Routes.l_tracks. cbn. rewrite Hpub, Hunb. left.
  - apply Hstep. unfold Routes.l_tracks. cbn. rewrite Hpub. left.
Qed.

Lemma remove_subs_ok held k fuel : ∀ sh l (Q : () → Sh → Prop) X, Inv held sh →
  has_session k l sh → (length (Routes.l_subs l) < fuel)%nat →
  (∀ sh', Inv held sh' → keeps_queues sh sh' → has_session k (Routes.set_subs [] l) sh' → Q () sh') →
  wp (remove_subs fuel k) sh Q X.
Proof.
  induction fuel as [|fuel IH]; intros sh l Q X HI Hl Hf HQ; [lia|]. cbn [remove_subs]. wp.
  destruct (session_at _ _ _ _ _ HI Hl) as (s & Hs & <- & _). eapply get_session_ok; [done|].
  destruct (last (Session.subs s)) as [b|] eqn:Hlast.
  2: { apply last_None in Hlast. wp. apply HQ; [done..|].
       unfold has_session in *. rewrite Hl. unfold Routes.set_subs, slink. cbn. by rewrite Hlast. }
  assert (Hin : b ∈ Session.subs s) by (apply last_Some in Hlast as [l' ->]; set_solver).
  destruct (subscription_at _ _ _ _ _ _ HI Hs Hin) as (sub & Hb & Hk & _). rewrite <- Hk in Hs.
  destruct (track_of_sub _ _ _ _ _ HI Hb) as (t & Ht & _). wp.
  apply (remove_subscription_ok held sh b sub s t); [done..|]. intros sh1 ls lt HI1 Hq1 Hls Hlt Hr.
  eapply (IH sh1 (Routes.set_subs ls (slink s))); [done| | |].
  - unfold has_session. rewrite Hr. cbn. rewrite Hk. by rewrite lookup_insert_eq.
  - cbn in *. apply Permutation_length in Hls. cbn in Hls. lia.
  - intros sh2 HI2 Hq2 Hk2. apply HQ; [done|by eapply keeps_queues_trans|done].
Qed.

Lemma unmap_both held sh k s : Inv held sh → Slab.to_map (sessions sh) !! k = Some s → ∀ a j,
  unmap k (Session.prev_addr s) (unmap k (Session.addr s) (by_addr sh)) !! a = Some j ↔
  a ∉ Routes.l_addrs (slink s) ∧ by_addr sh !! a = Some j.
Proof.
  intros HI Hs a j. pose proof (routed _ _ _ HI) as HR.
  pose proof (Routes.so_addr _ (Routes.rd_slink _ HR _ _ (link_of slink _ _ _ Hs))) as Hnd.
  assert (Hmap : ∀ b, b ∈ Routes.l_addrs (slink s) → by_addr sh !! b = Some k).
  { intros b Hb. apply (Routes.rd_addr _ HR). exists (slink s). split; [by apply link_of|done]. }
  rewrite Routes.elem_addrs. setoid_rewrite Routes.elem_addrs in Hmap. unfold Routes.l_addrs in Hnd. cbn in *.
  destruct (Session.addr s) as [b|], (Session.prev_addr s) as [c|]; cbn in *.
  - apply NoDup_cons in Hnd as [Hbc _]. assert (b ≠ c) by set_solver.
    rewrite (bool_decide_eq_true_2 (by_addr sh !! b = Some k)) by auto.
    rewrite bool_decide_eq_true_2 by (rewrite lookup_delete_ne by done; auto). rewrite !lookup_delete_Some. naive_solver.
  - rewrite bool_decide_eq_true_2 by auto. rewrite lookup_delete_Some. naive_solver.
  - rewrite bool_decide_eq_true_2 by auto. rewrite lookup_delete_Some. naive_solver.
  - naive_solver.
Qed.

(** The session's entry goes, and the tables agree without it. *)
Lemma close_session_run held sh id k : Inv held sh → session_ids sh !! id = Some k →
  wp (close_session id) sh
    (fun _ sh' => (Inv held sh' ∧ keeps_queues sh sh') ∧
       Routes.rs (routes sh') !! k = None ∧ session_ids sh' !! id = None) (fun _ _ => False).
Proof.
  intros HI Hsid. destruct (sid_session _ _ _ _ _ HI Hsid) as (s & Hs & _ & Hid).
  unfold close_session, session_idx. wp. rewrite Hsid. wp.
  eapply get_session_ok; [done|]. wp. eapply (remove_tracks_ok held); [done|by apply link_of| |].
  { unfold Routes.l_tracks, Session.track_count. rewrite length_app, length_fmap. cbn. lia. }
  intros sh1 ls HI1 Hq1 Hk1. destruct (session_at _ _ _ _ _ HI1 Hk1) as (s1 & Hs1 & Hl1 & _). wp.
  eapply get_session_ok; [done|]. wp. eapply (remove_subs_ok held); [done|exact Hk1| |].
  { rewrite <- Hl1. cbn. lia. }
  intros sh2 HI2 Hq2 Hk2. destruct (session_at _ _ _ _ _ HI2 Hk2) as (s2 & Hs2 & Hl2 & _). wp.
  pose proof HI2 as (HT & _). pose proof (routed _ _ _ HI2) as HR.
  destruct (Slab.remove_to_map (E:=RejectReason) (sessions sh2) k s2) as (sl & Hrem & Hwf & Hm & Hslots); [apply HT|done|].
  apply wp_zoom. eapply wp_ok; [exact Hrem|]. wp. apply wp_assert.
  { cbn. apply bool_decide_eq_true. apply (Routes.rd_ufrag _ HR). exists (slink s2). split; [by apply link_of|left]. }
  wp. set (sh' := set_session_ids _ _).
  assert (Hid2 : Session.id s2 = id) by (injection Hl2; congruence).
  assert (Hr : routes sh' = Routes.close k (slink s2)
     (unmap k (Session.prev_addr s2) (unmap k (Session.addr s2) (by_addr sh2))) (routes sh2)).
  { unfold routes, routes_of, Routes.close, sh'. cbn. by rewrite Hm, fmap_delete, Hid2. }
  split; [split; [|by eapply keeps_queues_trans]|split; [rewrite Hr|]; apply lookup_delete_eq].
  apply (inv_tables cfg held sh2); try done. destruct HT. split; try done.
  - cbn. by rewrite Hslots.
  - cbn. rewrite Hm. intros j w [_ Hw]%lookup_delete_Some. eauto.
  - change (Routes.Routed (routes sh')). rewrite Hr. apply Routes.routed_close; [done|by apply link_of| | |by eapply unmap_both].
    + by rewrite Hl2.
    + by rewrite Hl2.
Qed.

Lemma close_session_ok held sh id : Inv held sh → handled cfg held (close_session id) sh.
Proof.
  intros HI. destruct (session_ids sh !! id) as [k|] eqn:Hk.
  - eapply wp_conseq; [by apply (close_session_run held sh id k)| |done]. by intros [] sh' [? _].
  - unfold close_session, session_idx, handled. wp. rewrite Hk. by wp.
Qed.

(** ** Every command *)

Lemma unsubscribe_ok held sh sub : Inv held sh → handled cfg held (unsubscribe sub) sh.
Proof.
  intros HI. unfold unsubscribe, handled. wp. destruct (sub_ids sh !! sub) as [b|] eqn:Hb; [|done].
  destruct (proj1 (Routes.rd_bid _ (routed _ _ _ HI) sub b) Hb) as (l & Hl & _).
  destruct (sub_at _ _ _ _ _ HI Hl) as (x & Hx & _ & _). destruct (session_of_sub _ _ _ _ _ HI Hx) as (s & Hs & _).
  destruct (track_of_sub _ _ _ _ _ HI Hx) as (t & Ht & _). by apply (remove_subscription_ok held sh b x s t).
Qed.

Lemma remove_track_cmd_ok held sh track : Inv held sh → handled cfg held (remove_track_cmd track) sh.
Proof.
  intros HI. unfold remove_track_cmd, handled. wp. destruct (track_ids sh !! track) as [t|] eqn:Htid; [|done].
  destruct (tid_track _ _ _ _ _ HI Htid) as (tr & Ht & _). destruct (session_of_track _ _ _ _ _ HI Ht) as (s & Hs).
  by apply (remove_track_ok held sh t tr s).
Qed.

Lemma dispatch_ok held sh c now : Inv held sh → command_ok c → handled cfg held (dispatch c now) sh.
Proof.
  intros HI Hc. destruct c; cbn [dispatch].
  - by apply create_session_ok.
  - by apply send_datagram_ok.
  - by apply install_srtp_ok.
  - by apply add_track_ok.
  - by apply remove_track_cmd_ok.
  - by apply subscribe_ok.
  - by apply unsubscribe_ok.
  - by apply close_session_ok.
Qed.

(** The check at the end of every command holds. *)
Lemma check_tables_ok held sh : Inv held sh → check_tables sh = true.
Proof.
  intros HI. pose proof (routed _ _ _ HI) as HR. pose proof HI as (HT & _). unfold check_tables.
  pose proof (indexed_size _ _ _ (Routes.rd_sid _ HR)) as H1. pose proof (indexed_size _ _ _ (Routes.rd_ufrag _ HR)) as H2.
  pose proof (indexed_size _ _ _ (Routes.rd_tid _ HR)) as H3. pose proof (indexed_size _ _ _ (Routes.rd_bid _ HR)) as H4.
  assert (H5 : (size (by_addr sh) ≤ 2 * size (Routes.rs (routes sh)))%nat).
  { apply (indexed_size_le _ _ _ _ (Routes.rd_addr _ HR)). intros j l _. unfold Routes.l_addrs.
    rewrite length_app. destruct (Routes.l_addr l), (Routes.l_prev l); cbn; lia. }
  cbn in H1, H2, H3, H4, H5. rewrite !map_size_fmap, ?Slab.size_to_map in * by apply HT.
  repeat (apply andb_true_iff; split); by apply bool_decide_eq_true.
Qed.

Lemma handle_command_ok {E} held sh c now : Inv held sh → command_ok c → safe_q (E:=E) cfg held (handle_command c now) sh.
Proof.
  intros HI Hc. unfold handle_command, safe_q. wp. apply wp_modify. wp. set (sh1 := set_counters _ _).
  assert (HI1 : Inv held sh1) by exact HI. pose proof (dispatch_ok held sh1 c now HI1 Hc) as Hd. unfold handled, run_to in Hd.
  set (body := fun sh : Sh => _).
  assert (Hbody : safe_q (E:=E) cfg held body sh1).
  { unfold safe_q, run_to, body. destruct (dispatch c now sh1) as [[[] sh2]|[r sh2]|]; [done| |done].
    destruct Hd as [HI2 Hq2]. change (run_to False (bump n_commands_rejected;; _ ← emit (CommandRejected (command_session c) r); mret ()) sh2
      (fun _ sh' => Inv held sh' ∧ keeps_queues sh1 sh') (fun (_ : E) _ => False)).
    wp. apply wp_modify. wp. eapply safe_wp; [eapply safe_emit; exact HI2|]. intros r' sh3 HI3 [_ Hq3]. wp.
    split; [done|]. by eapply keeps_queues_trans. }
  eapply safe_q_wp; [exact Hbody|]. intros [] sh2 HI2 Hq2. wp. apply wp_assert; [by eapply check_tables_ok|]. done.
Qed.

(** Commands are handled in the order they were queued, at most [budget]. *)
Lemma drain_commands_ok {E} held now budget : ∀ sh (Q : nat → Sh → Prop) (X : E → Sh → Prop), Inv held sh →
  (∀ sh', Inv held sh' → rx sh' = rx sh → commands sh' = drop budget (commands sh) →
     Q (Nat.min budget (length (commands sh))) sh') →
  wp (drain_commands budget now) sh Q X.
Proof.
  induction budget as [|n IH]; intros sh Q X HI HQ; cbn [drain_commands]; wp; [by apply HQ|].
  destruct (commands sh) as [|c rest] eqn:Hcs; wp; [by apply HQ|].
  assert (Inv held (set_commands rest sh) ∧ command_ok c) as [HI1 Hc].
  { destruct HI as (HT & HB & [Hcf Hp Hco Hi]). rewrite Hcs in Hco. apply Forall_cons in Hco as [Hc Hco]. done. }
  eapply safe_q_wp; [by apply handle_command_ok|]. intros [] sh2 HI2 [Hrx2 Hc2]. wp. apply IH; [done|].
  intros sh3 HI3 Hrx3 Hc3. wp. rewrite Hc2. cbn. apply HQ; [done|rewrite Hrx3; done|]. rewrite Hc3, Hc2. done.
Qed.

(** ** What it means that commands are handled

    The oldest command is taken off the queue, counted and dispatched; one
    that is rejected is counted and reported with the reason. Then the next,
    in the order they were queued. *)
Inductive handles (now : Instant) : list Command → Sh → Sh → Prop :=
| handles_nil sh : handles now [] sh sh
| handles_done c cs sh sh0 sh1 sh' :
    head (commands sh) = Some c →
    bump (E:=()) n_commands (set_commands (tail (commands sh)) sh) = Ok ((), sh0) →
    dispatch c now sh0 = Ok ((), sh1) →
    handles now cs sh1 sh' → handles now (c :: cs) sh sh'
| handles_rejected c cs reason (accepted : bool) sh sh0 sh1 sh2 sh' :
    head (commands sh) = Some c →
    bump (E:=()) n_commands (set_commands (tail (commands sh)) sh) = Ok ((), sh0) →
    dispatch c now sh0 = Err (reason, sh1) →
    (bump (E:=()) n_commands_rejected;; emit (CommandRejected (command_session c) reason)) sh1 = Ok (accepted, sh2) →
    handles now cs sh2 sh' → handles now (c :: cs) sh sh'.

Lemma handle_command_handles now c cs sh sh1 sh' : head (commands sh) = Some c →
  handle_command (E:=()) c now (set_commands (tail (commands sh)) sh) = Ok ((), sh1) →
  handles now cs sh1 sh' → handles now (c :: cs) sh sh'.
Proof.
  intros Hc Hh Hrest. unfold handle_command, mbind, st_bind in Hh.
  destruct (bump n_commands (set_commands (tail (commands sh)) sh)) as [[[] sh0]|[]|] eqn:Hb; [|done..].
  destruct (dispatch c now sh0) as [[[] sh2]|[reason sh2]|] eqn:Hd; [| |done].
  - unfold get, lift in Hh. destruct (assert_ (check_tables sh2)) as [[]|[]|]; [|done..]. simplify_eq.
    by eapply handles_done.
  - destruct (bump n_commands_rejected sh2) as [[[] sh3]|[]|] eqn:Hj; [|done..].
    destruct (emit (CommandRejected (command_session c) reason) sh3) as [[b sh4]|[]|] eqn:He; [|done..].
    unfold mret, st_ret, get, lift in Hh. destruct (assert_ (check_tables sh4)) as [[]|[]|]; [|done..]. simplify_eq.
    eapply (handles_rejected now c cs reason b); [done|done|done| |done]. unfold mbind, st_bind. by rewrite Hj.
Qed.

(** A drain handles the first [budget] commands of the queue. *)
Lemma drain_handles held now budget : ∀ sh n sh', Inv held sh →
  drain_commands (E:=()) budget now sh = Ok (n, sh') → handles now (take budget (commands sh)) sh sh'.
Proof.
  induction budget as [|budget IH]; intros sh n sh' HI Hd; cbn [drain_commands] in Hd.
  { unfold mret, st_ret in Hd. simplify_eq. constructor. }
  unfold mbind, st_bind in Hd. unfold get in Hd.
  destruct (commands sh) as [|c rest] eqn:Hcs; [unfold mret, st_ret in Hd; simplify_eq; constructor|].
  unfold put in Hd. assert (Inv held (set_commands rest sh) ∧ command_ok c) as [HI1 Hc].
  { destruct HI as (HT & HB & [Hcf Hp Hco Hi]). rewrite Hcs in Hco. apply Forall_cons in Hco as [Hc Hco]. done. }
  pose proof (handle_command_ok (E:=()) held _ c now HI1 Hc) as Hok. unfold safe_q, run_to in Hok.
  destruct (handle_command c now (set_commands rest sh)) as [[[] sh2]|[]|] eqn:Hh; [|done..].
  destruct Hok as [HI2 [_ Hc2]]. cbn in Hc2.
  destruct (drain_commands budget now sh2) as [[m sh3]|[]|] eqn:Hr; [|done..].
  unfold mret, st_ret in Hd. simplify_eq. cbn [take]. apply handle_command_handles with sh2.
  - by rewrite Hcs.
  - by rewrite Hcs.
  - by apply (IH _ m).
Qed.

End removals.
End RemoveSafe.
