(* ===== verification/ShardSafe.v ===== *)
(** * The loop of a shard is safe

    An iteration of a shard, and so any run of it, ends without a panic and
    leaves every buffer of the pool free, whatever the datagrams it receives
    and the well-formed commands it is given. *)

From S2P Require Import Prelude Wp Replay RocIndex RtpHeader Direction Inbound Outbound Cipher CipherProofs SrtpBytes Keys Slab Pool Model Maps Routes Rewrite RewriteProofs RtcpWire Ice IceProofs ShardIo Shard ShardRtcp Commands Ingress ShardLoop ShardInv ShardSteps RtcpSafe ForwardSafe IngressSafe CommandSafe RemoveSafe.

Module ShardSafe.
Import Shard ShardRtcp Commands Ingress ShardLoop ShardInv ShardSteps RtcpSafe AddressSafe ForwardSafe IngressSafe CommandSafe RemoveSafe.

Section loop.
Context {Cr : Crypto} {Claws : CryptoLaws} {Cb : CryptoBytes} {St : StunCrypto} {Sl : StunCryptoLaws}
  {Kdf : KdfBlock} {Kl : KdfBlockLaw} {Ka : KeysAccepted}
  {I S : Type} {Hio : Io.DatagramIo I} {Hsink : EventSink S} {Hlaws : Io.DatagramIoLaws I}.
Context (cfg : Config.ShardConfig) (Hcfg : settings_ok cfg).
Abbreviation Sh := (Shard I S).
Abbreviation Inv := (Inv cfg).
Implicit Types (sh : Sh).

(** ** The sweep *)

Lemma safe_check_consent {E} held sh k s now : Inv held sh → Slab.to_map (sessions sh) !! k = Some s →
  safe (E:=E) cfg held (check_consent k now) sh.
Proof.
  intros HI Hs. unfold check_consent, safe. wp. eapply get_session_ok; [done|]. wp. destruct (_ || _); [by wp|]. wp.
  eapply safe_wp; [by apply safe_emit|]. intros r sh1 HI1 Hk1. destruct r; wp; [|done].
  destruct (session_kept _ _ _ _ _ _ HI1 Hk1 Hs) as (s1 & Hs1 & _ & Hok1).
  eapply safe_wp; [eapply (safe_on_session cfg); [done..|]; wp; split; [done|by destruct Hok1]|].
  intros [] sh2 HI2 Hk2. split; [exact HI2|]. by eapply keeps_trans.
Qed.

Lemma drop_prev_ok {E} held sh k s (Q : () → Sh → Prop) (X : E → Sh → Prop) : Inv held sh →
  Slab.to_map (sessions sh) !! k = Some s →
  (∀ sh' s', Inv held sh' → keeps_queues sh sh' → Slab.to_map (sessions sh') !! k = Some s' → Q () sh') →
  wp (on_session k (modify (Session.set_prev_addr None));; unmap_stale k (Session.prev_addr s)) sh Q X.
Proof.
  intros HI Hs HQ. pose proof (ta_session _ _ _ _ _ _ _ _ _ _ (proj1 HI) _ _ Hs) as Hok. wp.
  apply (on_session_run cfg _ held sh k s); [done..|]. wp. intros sl Hu.
  set (sh' := set_by_addr (Routes.unprev (slink s) (by_addr sh)) (set_sessions sl sh)).
  assert (HI' : Inv held sh').
  { apply (inv_sessions cfg held sh); try done; cbn.
    - apply Hu.
    - apply (Slab.updated_slots _ _ _ _ Hu).
    - intros j w [[-> ->]|[_ Hw]]%(lookup_updated _ _ _ _ _ _ Hu); [by destruct Hok|by eapply ta_session; [apply HI|]].
    - pose proof (Routes.routed_drop_prev (routes sh) k (slink s) (routed _ _ _ HI) (link_of _ _ _ _ Hs)) as HR.
      eapply (eq_ind _ Routes.Routed HR). unfold routes, routes_of, Routes.set_addr_table. cbn.
      rewrite (Slab.updated_map _ _ _ _ Hu), fmap_insert. done. }
  assert (Heq : wp (unmap_stale (E:=E) k (Session.prev_addr s)) (set_sessions sl sh) (fun _ sh'' => sh'' = sh') (fun _ _ => False)).
  { unfold unmap_stale, sh', Routes.unprev. cbn. destruct (Session.prev_addr s) as [p|] eqn:Hp; wp; [|by destruct sh].
    rewrite bool_decide_eq_true_2; [done|]. apply (Routes.rd_addr _ (routed _ _ _ HI)). exists (slink s).
    split; [by apply link_of|]. apply Routes.elem_addrs. by right. }
  eapply wp_conseq; [exact Heq| |done]. cbn. intros [] ? ->. eapply HQ; [done|done|apply (updated_eq _ _ _ _ Hu)].
Qed.

Lemma session_ok_swept s now : session_ok s →
  let s0 := Session.set_dtls_budget Session.DTLS_BUDGET_PER_SWEEP s in
  let s' := match Session.srtp_in s0 with
            | Some i => Session.set_srtp_in (Some (snd (Inbound.evict_idle now INBOUND_IDLE_EVICT_S i))) s0
            | None => s0
            end in
  slink s' = slink s ∧ session_ok s'.
Proof.
  intros Hok s0 s'. unfold s', s0. cbn. pose proof (so_srtp _ Hok) as Hs.
  destruct (Session.srtp_in s) as [i|] eqn:Hi; (split; [done|]); [|by destruct Hok].
  unfold srtp_ok in Hs. destruct (Session.srtp_out s) eqn:Ho; [|done]. destruct Hs as (HI & Hp & Hlog).
  destruct (Pins.evict_ok now INBOUND_IDLE_EVICT_S i HI) as (HI' & _ & Hp'). destruct Hok. split; try done.
  cbn -[Inbound.evict_idle]. rewrite Ho. split; [done|]. split; [|done]. intros x. rewrite <- Hp. apply Hp'.
Qed.

Lemma sweep_session_ok {E} held sh k s now : Inv held sh → Slab.to_map (sessions sh) !! k = Some s →
  safe_q (E:=E) cfg held (sweep_session k now) sh.
Proof.
  intros HI Hs. pose proof (ta_session _ _ _ _ _ _ _ _ _ _ (proj1 HI) _ _ Hs) as Hok.
  unfold sweep_session, safe_q. wp. eapply safe_wp; [eapply (safe_on_session cfg); [done..|]; wp; by apply session_ok_swept|].
  intros [] sh1 HI1 Hk1. destruct (session_kept _ _ _ _ _ _ HI1 Hk1 Hs) as (s1 & Hs1 & _ & _). wp.
  eapply get_session_ok; [done|]. wp. set (grace := match Session.last_switch s1 with Some _ => _ | None => _ end).
  assert (Hrest : ∀ sh2 s2, Inv held sh2 → keeps_queues sh sh2 → Slab.to_map (sessions sh2) !! k = Some s2 →
    wp ((match Session.unreported_switch s1 with Some reason => report_switch k reason | None => mret () end);; check_consent k now : st Sh E ()) sh2
      (fun _ sh' => Inv held sh' ∧ keeps_queues sh sh') (fun _ _ => False)).
  { intros sh2 s2 HI2 Hq2 Hs2. eapply safe_q_after; [|done]. apply safe_safe_q. apply safe_bind.
    - destruct (Session.unreported_switch s1); [by eapply safe_report_switch|done].
    - intros [] sh3 HI3 Hk3. destruct (session_kept _ _ _ _ _ _ HI3 Hk3 Hs2) as (s3 & Hs3 & _ & _). by eapply safe_check_consent. }
  destruct grace.
  - apply (drop_prev_ok held); [done..|]. intros sh2 s2 HI2 Hq2 Hs2. eapply Hrest; [done| |done].
    eapply keeps_queues_trans; [apply Hk1|done].
  - apply wp_ret. eapply Hrest; [done|apply Hk1|done].
Qed.

Lemma housekeeping_ok {E} held sh now : Inv held sh → safe_q (E:=E) cfg held (housekeeping now) sh.
Proof.
  intros HI. unfold housekeeping, safe_q. wp. set (sh1 := set_dtls_budget _ _). assert (HI1 : Inv held sh1) by exact HI.
  apply wp_assert.
  { rewrite Z.leb_le. rewrite (qu_config _ _ _ _ _ (proj2 (proj2 HI1))). apply HI1. }
  wp. eapply wp_mono; [apply (for_range_ok _ (fun sh' => Inv held sh' ∧ keeps_queues sh1 sh')); [done|]|].
  - intros i sh2 _ [HI2 Hq2]. unfold sweep_slot. wp. destruct (Slab.key_at _ i) as [k|] eqn:Hk; [|by wp].
    destruct (Slab.key_at_to_map _ _ _ Hk) as [s Hs]. eapply safe_q_after; [|done]. by eapply sweep_session_ok.
  - intros [] sh2 [HI2 Hq2]. wp. destruct (last_sweep sh2) as [lr la]. cbv zeta. case_match; done.
Qed.

(** ** Code that leaves the send batch alone *)

Definition keeps_tx {E A} (m : st Sh E A) : Prop :=
  ∀ sh, wlp m sh (fun _ sh' => tx sh' = tx sh) (fun _ sh' => tx sh' = tx sh).

Lemma keeps_tx_bind {E A B} (m : st Sh E A) (f : A → st Sh E B) :
  keeps_tx m → (∀ a, keeps_tx (f a)) → keeps_tx (m ≫= f).
Proof.
  intros Hm Hf sh. apply wp_bind. eapply wp_conseq; [apply Hm| |done]. intros a sh' <-.
  eapply wp_conseq; [apply Hf| |]; done.
Qed.

Lemma keeps_tx_get {E A} (f : Sh → st Sh E A) : (∀ sh, keeps_tx (f sh)) → keeps_tx (sh ← get; f sh).
Proof. intros Hf sh. apply Hf. Qed.

Lemma keeps_tx_modify {E} f : (∀ sh, tx (f sh) = tx sh) → keeps_tx (E:=E) (modify f).
Proof. intros Hf sh. apply Hf. Qed.

Lemma keeps_tx_ret {E A} (a : A) : keeps_tx (E:=E) (mret a).
Proof. by intros sh. Qed.

Lemma keeps_tx_lift {E A} (o : outcome E A) : keeps_tx (lift o).
Proof. intros sh. unfold run_to, lift. by destruct o. Qed.

Lemma keeps_tx_on_session {E A} k (m : st Session E A) : keeps_tx (on_session k m).
Proof. intros sh. unfold run_to, on_session, zoom. by destruct (Slab.with_mut k m _) as [[]|[]|]. Qed.

Lemma keeps_tx_get_session {E} k : keeps_tx (E:=E) (get_session k).
Proof. unfold get_session. apply keeps_tx_get. intros. apply keeps_tx_lift. Qed.

Lemma keeps_tx_put {E A} (f : Sh → Sh) (m : Sh → st Sh E A) : (∀ sh, tx (f sh) = tx sh) → (∀ sh, keeps_tx (m sh)) →
  keeps_tx (sh ← get; put (f sh);; m sh).
Proof. intros Hf Hm sh. wp. eapply wp_conseq; [apply Hm| |]; cbn; intros; by rewrite <- (Hf sh). Qed.

Ltac keeps_tx_step :=
  lazymatch goal with
  | |- keeps_tx (on_session _ _) => apply keeps_tx_on_session
  | |- keeps_tx (get_session _) => apply keeps_tx_get_session
  | |- keeps_tx (lift _) => apply keeps_tx_lift
  | |- keeps_tx (mret _) => apply keeps_tx_ret
  | |- keeps_tx (modify _) => apply keeps_tx_modify; done
  | |- keeps_tx (bump _) => apply keeps_tx_modify; done
  | |- keeps_tx (mbind _ get) => apply keeps_tx_get; intros
  | |- keeps_tx (mbind _ _) => apply keeps_tx_bind; [|intros]
  end.

Lemma keeps_tx_try_send {E} e : keeps_tx (E:=E) (try_send e).
Proof. intros sh. unfold try_send. wp. by destruct (Model.try_send _ _). Qed.

Lemma keeps_tx_retain {E} e : keeps_tx (E:=E) (retain e).
Proof.
  intros sh. unfold retain. wp. destruct (_ || _); wp; [done|]. apply wlp_assert. intros _. by wp.
Qed.

Lemma keeps_tx_emit {E} e : keeps_tx (E:=E) (emit e).
Proof.
  unfold emit. apply keeps_tx_bind.
  { unfold consent_was_lost. apply keeps_tx_get. intros sh. destruct (_ ≫= _); repeat keeps_tx_step. }
  intros lost. destruct lost; [repeat keeps_tx_step|]. apply keeps_tx_get. intros sh.
  destruct (_ || _); [|apply keeps_tx_retain]. apply keeps_tx_bind; [apply keeps_tx_try_send|].
  intros r. destruct r; [repeat keeps_tx_step|apply keeps_tx_retain|repeat keeps_tx_step].
Qed.

Lemma keeps_tx_push_pending {E} : keeps_tx (E:=E) push_pending.
Proof.
  unfold push_pending. apply keeps_tx_get. intros sh0. induction (pending sh0) as [|e l IH]; cbn [push_retained]; [by repeat keeps_tx_step|].
  apply keeps_tx_bind; [apply keeps_tx_try_send|]. intros r.
  destruct r; [done|by repeat keeps_tx_step|apply keeps_tx_bind; [by repeat keeps_tx_step|done]].
Qed.

Lemma keeps_tx_sweep {E} k now : keeps_tx (E:=E) (sweep_session k now).
Proof.
  unfold sweep_session. repeat keeps_tx_step.
  - match goal with |- keeps_tx (if ?b then _ else _) => destruct b end; [|apply keeps_tx_ret].
    apply keeps_tx_bind; [apply keeps_tx_on_session|]. intros _. unfold unmap_stale.
    destruct (Session.prev_addr _); [|apply keeps_tx_ret]. apply keeps_tx_modify. intros. by case_bool_decide.
  - destruct (Session.unreported_switch _); [|apply keeps_tx_ret]. unfold report_switch.
    apply keeps_tx_bind; [apply keeps_tx_get_session|]. intros s2. destruct (Session.addr s2); [|apply keeps_tx_ret].
    apply keeps_tx_bind; [apply keeps_tx_emit|intros]. apply keeps_tx_on_session.
  - unfold check_consent. repeat keeps_tx_step. cbv zeta. destruct (_ || _); [apply keeps_tx_ret|].
    apply keeps_tx_bind; [apply keeps_tx_emit|]. intros r. destruct r; repeat keeps_tx_step.
Qed.

Lemma keeps_tx_for_range {E} (body : nat → st Sh E ()) n : (∀ i, keeps_tx (body i)) → ∀ a, keeps_tx (for_range n a body).
Proof. intros Hb. induction n as [|n IH]; intros a; cbn [for_range]; [apply keeps_tx_ret|]. apply keeps_tx_bind; [done|by intros]. Qed.

Lemma keeps_tx_housekeeping {E} now : keeps_tx (E:=E) (housekeeping now).
Proof.
  unfold housekeeping. repeat keeps_tx_step.
  - apply keeps_tx_for_range. intros i. unfold sweep_slot. apply keeps_tx_get. intros sh1.
    case_match; [apply keeps_tx_sweep|apply keeps_tx_ret].
  - apply keeps_tx_modify. intros sh1. destruct (last_sweep sh1). cbv zeta. by case_match.
Qed.

Lemma quiet_ok {E} held sh (m : st Sh E ()) (Q : () → Sh → Prop) X : safe_q cfg held m sh → keeps_tx m →
  (∀ sh', Inv held sh' → keeps_queues sh sh' → tx sh' = tx sh → Q () sh') → wp m sh Q X.
Proof.
  intros Hs Ht HQ. eapply wp_conseq; [apply (wlp_and _ _ _ _ _ _ _ Hs (Ht sh))| |]; cbn; [|naive_solver].
  intros [] sh' [[HI Hk] Htx]. by apply HQ.
Qed.

(** ** One iteration *)

Lemma receive_ok {E} sh (Q : Io.RecvResult → Sh → Prop) (X : E → Sh → Prop) : Inv [] sh → rx sh = [] →
  (∀ r sh', Inv (bufs (rx sh')) sh' → Forall (dgram_ok cfg) (rx sh') → commands sh' = commands sh →
     Io.received r = length (rx sh') → Q r sh') → wp receive sh Q X.
Proof.
  intros HI Hrx HQ. pose proof HI as (HT & HB & HQu). unfold receive. wp. rewrite Hrx.
  pose proof (Io.recv_law (cap cfg) (bufs (tx sh)) (io sh) [] (pool sh)) as Hl. cbn [fmap list_fmap app] in Hl.
  pose proof (bu_holds _ _ _ _ HB) as Hh. rewrite app_nil_r in Hh. specialize (Hl Hh (Forall_nil_2 _)).
  specialize (Hl ltac:(cbn; lia) (bu_bytes _ _ _ _ HB) (qu_io _ _ _ _ _ HQu)).
  destruct (Io.recv_batch (io sh, [], pool sh)) as [[r [[io' rx'] pool']]|[e [[io' rx'] pool']]|]; [| |done].
  - destruct Hl as (Hio' & new & -> & Hr & _ & Hh' & Hall & Hsh & Hby). cbn [app] in *. rewrite (bu_shard _ _ _ _ HB) in Hall. wp. apply HQ; cbn; [|exact Hall|done|done].
    apply (inv_buffers cfg [] _ sh); [done| |done..]. split; cbn; [|by rewrite Hsh; apply HB|apply HB|apply HB|done].
    by rewrite Permutation_app_comm.
  - destruct Hl as (-> & -> & Hio'). wp. apply wp_modify. wp. apply HQ; cbn; [|constructor|done|done].
    by apply (inv_buffers cfg [] _ sh).
Qed.

Lemma handle_all_ok {E} sh now : Inv (bufs (rx sh)) sh → Forall (dgram_ok cfg) (rx sh) →
  wp (for_range (length (rx sh)) 0 (handle_received now) : st Sh E ()) sh
    (fun _ sh' => Inv [] sh' ∧ commands sh' = commands sh) (fun _ _ => False).
Proof.
  intros HI Hall. set (l := rx sh) in *.
  eapply wp_mono; [apply (for_range_idx _ (fun i sh' => Inv (bufs (drop i l)) sh' ∧ rx sh' = l ∧ commands sh' = commands sh))|].
  - done.
  - intros i sh1 Hi (HI1 & Hrx & Hc). unfold handle_received. wp. rewrite Hrx.
    destruct (lookup_lt_is_Some_2 l i) as [d Hd]; [lia|]. eapply wp_lift_ok; [unfold idx; by rewrite Hd|]. wp.
    rewrite (drop_S _ _ _ Hd) in HI1. destruct (Forall_lookup_1 _ _ _ _ Hall Hd) as [Hdl Hds].
    eapply safe_q_wp; [apply (handle_datagram_ok cfg); [exact HI1|left|done]|]. intros [] sh2 HI2 [Hrx2 Hc2].
    eapply put_ok; [exact HI2|done|]. intros p HI3 _. split; [done|]. cbn. split; congruence.
  - cbn. rewrite drop_all. intros [] sh' (HI' & _ & Hc). done.
Qed.

(** Nothing is received, queued or held between iterations. *)
Definition idle sh : Prop := Inv [] sh ∧ rx sh = [] ∧ tx sh = [].

(** An iteration up to its commands, and from there on. *)
Definition begin_iteration {E} (now : Instant) : st Sh E Io.RecvResult :=
  bump n_iterations;;
  r ← receive;
  sh ← get;
  lift (assert_ (bool_decide (Io.received r = length (rx sh))));;
  add n_rx_truncated (Z.of_nat (Io.truncated r));;
  add n_rx_unreadable (Z.of_nat (Io.unreadable r));;
  for_range (length (rx sh)) 0 (handle_received now);;
  modify (set_rx []);;
  sh ← get;
  (if bool_decide (pending_switches sh = []) then mret () else apply_pending_switches now);;
  flush;;
  mret r.

Definition end_iteration {E} (now : Instant) (r : Io.RecvResult) (n : nat) : st Sh E IterationStats :=
  flush;;
  push_pending;;
  sh ← get;
  (if next_housekeeping sh <=? now
   then housekeeping now;; modify (set_next_housekeeping (now + HOUSEKEEPING_INTERVAL))
   else mret ());;
  sh ← get;
  lift (assert_ (bool_decide (tx sh = [])));;
  mret (mkIteration (Io.received r) (Io.taken r) (Io.would_block r) n).

Lemma st_bind_assoc {E A B C} (m : st Sh E A) (f : A → st Sh E B) (g : B → st Sh E C) sh :
  ((m ≫= f) ≫= g) sh = (m ≫= fun a => f a ≫= g) sh.
Proof. unfold mbind, st_bind. by destruct (m sh) as [[]|[]|]. Qed.

Lemma st_bind_ext {E A B} (m : st Sh E A) (f g : A → st Sh E B) sh :
  (∀ a sh', f a sh' = g a sh') → (m ≫= f) sh = (m ≫= g) sh.
Proof. intros H. unfold mbind, st_bind. by destruct (m sh) as [[]|[]|]. Qed.

Lemma iterate_split {E} now sh : iterate (E:=E) now sh =
  (r ← begin_iteration now; n ← drain_commands COMMAND_BUDGET now; end_iteration now r n) sh.
Proof.
  unfold iterate, begin_iteration.
  do 11 (rewrite st_bind_assoc; apply st_bind_ext; intros ? ?). done.
Qed.

Lemma begin_iteration_ok {E} sh now : idle sh →
  wp (begin_iteration now : st Sh E Io.RecvResult) sh
    (fun _ sh' => Inv [] sh' ∧ rx sh' = [] ∧ commands sh' = commands sh) (fun _ _ => False).
Proof.
  intros (HI & Hrx & Htx). unfold begin_iteration. wp. apply wp_modify. wp. apply receive_ok; [exact HI|exact Hrx|].
  intros r sh1 HI1 Hall Hc1 Hr. wp. apply wp_assert; [by apply bool_decide_eq_true|]. wp. apply wp_modify. wp. apply wp_modify. wp.
  match goal with |- wp _ ?s _ _ => set (sh2 := s) end.
  eapply wp_conseq; [apply (handle_all_ok sh2 now); done| |done]. intros [] sh3 [HI3 Hc3]. wp.
  match goal with |- wp _ ?s _ _ => set (sh4 := s) end. assert (HI4 : Inv [] sh4) by exact HI3.
  apply (wp_mono _ _ (fun _ sh' => Inv [] sh' ∧ rx sh' = [] ∧ commands sh' = commands sh)).
  { change (commands sh3 = commands sh1) in Hc3. change (commands sh1 = commands sh) in Hc1.
    case_bool_decide; wp; [split; [done|]; split; [done|]; cbn; congruence|]. eapply safe_q_wp; [by apply (safe_apply_pending_switches cfg)|].
    intros [] sh5 HI5 [Hrx5 Hc5]. split; [done|]. split; [by rewrite Hrx5|]. rewrite Hc5. cbn. congruence. }
  intros [] sh5 (HI5 & Hrx5 & Hc5). wp. apply (flush_ok cfg []); [done|]. intros sh6 HI6 [_ [Hrx6 Hc6]] _ _. wp.
  split; [done|]. split; congruence.
Qed.

Lemma end_iteration_ok {E} sh now r n : Inv [] sh → rx sh = [] →
  wp (end_iteration now r n : st Sh E IterationStats) sh
    (fun r' sh' => idle sh' ∧ commands sh' = commands sh ∧ it_commands r' = n) (fun _ _ => False).
Proof.
  intros HI Hrx. unfold end_iteration. wp.
  apply (flush_ok cfg []); [done|]. intros sh8 HI8 [_ [Hrx8 Hc8]] Htx8 _. wp.
  apply (quiet_ok []); [by apply safe_safe_q, (safe_push_pending cfg)|apply keeps_tx_push_pending|].
  intros sh9 HI9 [Hrx9 Hc9] Htx9. wp.
  apply (wp_mono _ _ (fun _ sh' => Inv [] sh' ∧ keeps_queues sh9 sh' ∧ tx sh' = [])).
  { case_match; wp; [|by rewrite Htx9].
    apply (quiet_ok []); [by apply housekeeping_ok|apply keeps_tx_housekeeping|]. intros sh10 HI10 Hq10 Htx10. wp.
    split; [exact HI10|]. split; [exact Hq10|]. cbn. congruence. }
  intros [] sh10 (HI10 & [Hrx10 Hc10] & Htx10). wp. apply wp_assert; [by apply bool_decide_eq_true|]. wp.
  split; [split; [done|]; split; congruence|]. cbn [it_commands]. split; congruence.
Qed.

(** One iteration: what it received, its commands, and the rest. *)
Lemma iterate_ok sh now : idle sh →
  ∃ r sh1 sh2 stats sh', begin_iteration (E:=()) now sh = Ok (r, sh1) ∧
    handles now (take COMMAND_BUDGET (commands sh)) sh1 sh2 ∧
    end_iteration (E:=()) now r (length (take COMMAND_BUDGET (commands sh))) sh2 = Ok (stats, sh') ∧
    iterate (E:=()) now sh = Ok (stats, sh') ∧ idle sh' ∧
    commands sh' = drop COMMAND_BUDGET (commands sh).
Proof.
  intros Hid. rewrite iterate_split. unfold mbind, st_bind.
  pose proof (begin_iteration_ok (E:=()) sh now Hid) as Hb. unfold run_to in Hb.
  destruct (begin_iteration now sh) as [[r sh1]|[]|] eqn:Hbe; [|done..]. destruct Hb as (HI1 & Hrx1 & Hc1).
  assert (Hd : wp (drain_commands (E:=()) COMMAND_BUDGET now) sh1 (fun n sh' => Inv [] sh' ∧ rx sh' = [] ∧
    commands sh' = drop COMMAND_BUDGET (commands sh1) ∧ n = length (take COMMAND_BUDGET (commands sh1))) (fun _ _ => False)).
  { apply (drain_commands_ok cfg Hcfg []); [done|]. intros sh2 HI2 Hrx2 Hc2. rewrite length_take.
    split; [done|]. split; [congruence|done]. }
  unfold run_to in Hd. destruct (drain_commands COMMAND_BUDGET now sh1) as [[n sh2]|[]|] eqn:Hdr; [|done..].
  destruct Hd as (HI2 & Hrx2 & Hc2 & ->). pose proof (drain_handles cfg Hcfg [] now _ _ _ _ HI1 Hdr) as Hh.
  pose proof (end_iteration_ok (E:=()) sh2 now r (length (take COMMAND_BUDGET (commands sh1))) HI2 Hrx2) as He. unfold run_to in He.
  rewrite Hc1 in *. destruct (end_iteration now r _ sh2) as [[stats sh']|[]|] eqn:Hen; [|done..].
  destruct He as (Hid' & Hc' & _). exists r, sh1, sh2, stats, sh'. split_and!; try done. congruence.
Qed.

End loop.
End ShardSafe.
