(* ===== verification/ShardTheorems.v ===== *)
(** * Runs of a shard

    What holds of a shard from its construction on, whatever datagrams come
    in, however its commands and its iterations interleave and however its
    event queue is emptied. *)

From S2P Require Import Prelude Wp Replay RocIndex RtpHeader Direction Inbound Outbound Cipher CipherProofs SrtpBytes Keys SrtpWitness Slab Pool Model Maps Routes Rewrite RewriteProofs RtcpWire Ice IceProofs ShardIo Shard ShardRtcp Commands Ingress ShardLoop ShardInv ShardSteps RtcpSafe ForwardSafe IngressSafe CommandSafe RemoveSafe ShardSafe.

Module ShardTheorems.
Import Shard ShardRtcp Commands Ingress ShardLoop ShardInv ShardSteps CommandSafe RemoveSafe ShardSafe.

Section runs.
Context {Cr : Crypto} {Claws : CryptoLaws} {Cb : CryptoBytes} {St : StunCrypto} {Sl : StunCryptoLaws}
  {Kdf : KdfBlock} {Kl : KdfBlockLaw} {Ka : KeysAccepted}
  {I S : Type} {Hio : Io.DatagramIo I} {Hsink : EventSink S} {Hlaws : Io.DatagramIoLaws I}.
Abbreviation Sh := (Shard I S).
Implicit Types (sh : Sh).

(** What happens to a shard: its handle queues a command, its thread runs an
    iteration, or the world outside changes what the sockets and the event
    queue hold. *)
Inductive op :=
| Push (c : Command)
| Iterate (now : Instant)
| World (f : I → I) (g : S → S).

Definition step (o : op) sh : outcome () Sh :=
  match o with
  | Push c => match push_command c sh with Ok (_, sh') | Err (_, sh') => Ok sh' | Panic => Panic end
  | Iterate now => match iterate (E:=()) now sh with Ok (_, sh') => Ok sh' | _ => Panic end
  | World f g => Ok (set_io (f (io sh)) (set_events (g (events sh)) sh))
  end.

Fixpoint run (ops : list op) sh : outcome () Sh :=
  match ops with
  | [] => Ok sh
  | o :: ops => sh' ← step o sh; run ops sh'
  end.

Definition op_ok (o : op) : Prop :=
  match o with
  | Push c => command_ok c
  | Iterate _ => True
  | World f _ => ∀ i, Io.io_ok i → Io.io_ok (f i)
  end.

(** ** Construction *)

Lemma tables_new cfg : 0 ≤ Config.max_sessions cfg → Tables (Config.max_sessions cfg) Slab.new Slab.new Slab.new ∅ ∅ ∅ ∅ ∅ [].
Proof.
  intros Hm. split; try apply Slab.wf_new; cbn; try lia; try done.
  unfold routes_of. rewrite !Slab.to_map_new, !fmap_empty. apply Routes.routed_empty.
Qed.

Lemma validate_pool cfg : Config.validate cfg = Ok () → 320 ≤ Config.pool_buffers cfg.
Proof. unfold Config.validate. intros H. destruct (Z.ltb_spec (Config.pool_buffers cfg) (Z.of_nat (Config.RECV_BATCH + Config.SEND_BATCH))) as [|Hn]; [done|exact Hn]. Qed.

Lemma pool_new_bytes {E} x n p : Pool.new (E:=E) x n = Ok p → bytes (Pool.memory p).
Proof.
  unfold Pool.new. intros H. destruct (bool_decide (0 < n)%nat); [|done]. cbn [assert_ mbind outcome_bind] in H.
  case_bool_decide; [|done]. cbn in H. injection H as <-. cbn [Pool.memory]. by apply Forall_replicate.
Qed.

Lemma new_ok cfg i e now : settings_ok cfg → Config.validate cfg = Ok () → Io.io_ok i →
  ∃ sh, new cfg i e now = Ok sh ∧ idle cfg sh ∧ commands sh = [].
Proof.
  intros [Hn _] Hv Hi. unfold new. rewrite Hv. cbn [mbind outcome_bind].
  pose proof (validate_pool _ Hv). destruct (Pool.new_spec (E:=Config.ConfigError) (Config.shard cfg) (Z.to_nat (Config.pool_buffers cfg)))
    as (p & Hp & Hs & Hh); [lia|]. rewrite Hp. cbn [mbind outcome_bind]. eexists. split; [done|]. split; [|done]. split; [|done].
  split; [by apply tables_new|]. split; [|by split; cbn; [|unfold EVENT_RETENTION; lia|constructor|]].
  split; cbn; [done|done|constructor|lia|by eapply pool_new_bytes].
Qed.

(** ** Runs *)

(** The state between operations: idle, with a queue of its capacity. *)
Definition between cfg sh : Prop := idle cfg sh ∧ Z.of_nat (length (commands sh)) ≤ 4096.

Lemma iterate_between cfg sh now : settings_ok cfg → between cfg sh →
  ∃ r sh', iterate (E:=()) now sh = Ok (r, sh') ∧ between cfg sh' ∧
    commands sh' = drop COMMAND_BUDGET (commands sh).
Proof.
  intros Hcfg [Hid Hl]. destruct (iterate_ok cfg Hcfg sh now Hid) as (_ & _ & _ & r & sh' & _ & _ & _ & Hi & Hid' & Hc).
  exists r, sh'.
  split; [done|]. split; [|done]. split; [done|]. rewrite Hc, length_drop. lia.
Qed.

Lemma step_ok cfg o sh : settings_ok cfg → between cfg sh → op_ok o → ∃ sh', step o sh = Ok sh' ∧ between cfg sh'.
Proof.
  intros Hcfg Hb Ho. pose proof Hb as [((HT & HB & [Hcf Hp Hc Hi]) & Hrx & Htx) Hl]. destruct o as [c|now|f g]; cbn [step].
  - unfold push_command. run_st. case_bool_decide; eexists; (split; [done|]); [done|]. split; [|cbn; rewrite length_app; cbn; lia].
    split; [|done]. split; [done|]. split; [done|]. split; try done.
    apply Forall_app. split; [done|]. by repeat constructor.
  - destruct (iterate_between cfg sh now Hcfg Hb) as (r & sh' & -> & Hb' & _). eauto.
  - eexists. split; [done|]. split; [|done]. split; [|done]. split; [done|]. split; [done|]. split; try done. by apply Ho.
Qed.

Lemma run_ok cfg ops : settings_ok cfg → ∀ sh, between cfg sh → Forall op_ok ops →
  ∃ sh', run ops sh = Ok sh' ∧ between cfg sh'.
Proof.
  intros Hcfg. induction ops as [|o ops IH]; intros sh Hid Hops; cbn [run]; [eauto|].
  apply Forall_cons in Hops as [Ho Hops]. destruct (step_ok cfg o sh Hcfg Hid Ho) as (sh1 & -> & Hid1).
  cbn [mbind outcome_bind]. by apply IH.
Qed.

(** A shard built from [cfg] and what was done to it since. *)
Definition reached cfg (sh : Sh) : Prop :=
  ∃ i e now sh0 ops, Io.io_ok i ∧ Forall op_ok ops ∧ new cfg i e now = Ok sh0 ∧ run ops sh0 = Ok sh.

Lemma new_valid cfg i e now sh : new cfg i e now = Ok sh → Config.validate cfg = Ok ().
Proof. unfold new. by destruct (Config.validate cfg) as [[]| |]. Qed.

Lemma new_between cfg i e now : settings_ok cfg → Config.validate cfg = Ok () → Io.io_ok i →
  ∃ sh, new cfg i e now = Ok sh ∧ between cfg sh.
Proof.
  intros Hcfg Hv Hi. destruct (new_ok cfg i e now Hcfg Hv Hi) as (sh & Hn & Hid & Hc). exists sh. split; [done|].
  split; [done|]. rewrite Hc. cbn. lia.
Qed.

Lemma reached_between cfg sh : settings_ok cfg → reached cfg sh → between cfg sh.
Proof.
  intros Hcfg (i & e & now & sh0 & ops & Hi & Hops & Hnew & Hrun). pose proof (new_valid _ _ _ _ _ Hnew) as Hv.
  destruct (new_between cfg i e now Hcfg Hv Hi) as (sh0' & Hnew' & Hid). assert (sh0' = sh0) as -> by congruence.
  destruct (run_ok cfg ops Hcfg sh0 Hid Hops) as (sh' & Hrun' & Hid'). assert (sh' = sh) as -> by congruence. done.
Qed.

(** C1: A shard whose configuration is accepted never panics: from [new] on,
    whatever datagrams come in, whatever well-formed commands are queued and
    however iterations interleave with them, no assertion of the shard, its
    slabs, its pool, its ciphers or its RTP code fails and no index is out of
    bounds. Between iterations every buffer is back in the pool, both batches
    are empty, the tables agree, and at most [EVENT_RETENTION] events are
    retained. Beyond what [ShardConfig::validate] checks, the settings must
    keep 31 times [max_sessions] (the subscriptions a shard may hold) below
    2^32, so that the slabs' indices fit in 32 bits. *)
Theorem shard_never_panics cfg i e now ops : settings_ok cfg → Config.validate cfg = Ok () → Io.io_ok i →
  Forall op_ok ops →
  ∃ sh0 sh, new cfg i e now = Ok sh0 ∧ run ops sh0 = Ok sh ∧ check_tables sh = true ∧ rx sh = [] ∧ tx sh = [] ∧
    Pool.available (pool sh) = Z.to_nat (Config.pool_buffers cfg) ∧ (length (pending sh) ≤ EVENT_RETENTION)%nat.
Proof.
  intros Hcfg Hv Hi Hops. destruct (new_between cfg i e now Hcfg Hv Hi) as (sh0 & Hnew & Hid0).
  destruct (run_ok cfg ops Hcfg sh0 Hid0 Hops) as (sh & Hrun & (HI & Hrx & Htx) & _). exists sh0, sh.
  pose proof HI as (_ & HB & HQ). pose proof (Pool.holds_count _ _ _ (bu_holds _ _ _ _ HB)) as Hn.
  rewrite Htx in Hn. cbn in Hn. split_and!; try done; [by eapply check_tables_ok|apply HQ].
Qed.

(** ** Commands *)

(** Iterations at the times [nows] that lead from [sh] to [sh'] and between
    them handle the commands [cs]: each begins (receives, forwards, switches),
    handles its share of the commands one by one, at most [COMMAND_BUDGET], and
    ends (flushes, pushes events, sweeps). *)
Inductive serves : list Instant → list Command → Sh → Sh → Prop :=
| serves_none sh : serves [] [] sh sh
| serves_iteration now nows cs cs' r stats sh sh1 sh2 sh3 sh' :
    begin_iteration (E:=()) now sh = Ok (r, sh1) →
    handles now cs sh1 sh2 → (length cs ≤ COMMAND_BUDGET)%nat →
    end_iteration (E:=()) now r (length cs) sh2 = Ok (stats, sh3) →
    serves nows cs' sh3 sh' → serves (now :: nows) (cs ++ cs') sh sh'.

Lemma iterations_drain cfg nows : settings_ok cfg → ∀ sh, between cfg sh →
  ∃ sh', run (Iterate <$> nows) sh = Ok sh' ∧ commands sh' = drop (COMMAND_BUDGET * length nows) (commands sh) ∧
    serves nows (take (COMMAND_BUDGET * length nows) (commands sh)) sh sh'.
Proof.
  intros Hcfg. induction nows as [|now nows IH]; intros sh [Hid Hl]; cbn [fmap list_fmap run].
  - exists sh. rewrite Nat.mul_0_r. split; [done|]. split; [done|]. constructor.
  - cbn [step]. destruct (iterate_ok cfg Hcfg sh now Hid) as (r & sh1 & sh2 & stats & sh3 & Hb & Hh & He & -> & Hid3 & Hc3).
    cbn [mbind outcome_bind]. destruct (IH sh3) as (sh' & Hrun & Hc' & Hs').
    { split; [done|]. rewrite Hc3, length_drop. lia. }
    exists sh'. split; [done|]. cbn [length]. rewrite Nat.mul_succ_r, Nat.add_comm. split.
    + rewrite Hc', Hc3, drop_drop. done.
    + rewrite <- take_take_drop. rewrite Hc3 in Hs'. eapply serves_iteration; [done|done|rewrite length_take; lia|done|done].
Qed.

(** C4: Commands are handled. However many iterations run after one another,
    whatever they receive, none fails, and together they handle the commands
    that were queued, oldest first and at most [COMMAND_BUDGET] (64) per
    iteration: between its beginning and its end each iteration takes its share
    of the commands off the queue one by one, dispatches each of them to its
    operation and reports the ones that are rejected. What is left is the rest
    of the queue, and since that is bounded by 4096 nothing is left after 64
    iterations. The settings are those of [settings_ok] (31 times [max_sessions]
    below 2^32). *)
Theorem commands_handled cfg sh nows : settings_ok cfg → reached cfg sh →
  ∃ sh', run (Iterate <$> nows) sh = Ok sh' ∧
    serves nows (take (COMMAND_BUDGET * length nows) (commands sh)) sh sh' ∧
    commands sh' = drop (COMMAND_BUDGET * length nows) (commands sh) ∧
    ((64 ≤ length nows)%nat → commands sh' = [] ∧ serves nows (commands sh) sh sh').
Proof.
  intros Hcfg Hr. pose proof (reached_between _ _ Hcfg Hr) as Hb. destruct (iterations_drain cfg nows Hcfg sh Hb) as (sh' & Hrun & Hc & Hs).
  exists sh'. split; [done|]. split; [done|]. split; [done|]. intros Hl.
  assert (Hall : (length (commands sh) ≤ COMMAND_BUDGET * length nows)%nat) by (destruct Hb as [_ Hb]; unfold COMMAND_BUDGET; lia).
  rewrite firstn_all2 in Hs by done. split; [|done]. rewrite Hc. by apply drop_ge.
Qed.

(** ** Closing a session *)

Lemma routed_gone r k : Routes.Routed r → Routes.rs r !! k = None →
  (∀ a, Routes.r_addr r !! a ≠ Some k) ∧ (∀ u, Routes.r_ufrag r !! u ≠ Some k) ∧
  (∀ i, Routes.r_sid r !! i ≠ Some k) ∧
  (∀ j t, Routes.rt r !! j = Some t → Routes.t_sess t ≠ k) ∧
  (∀ j b, Routes.rb r !! j = Some b → Routes.b_sess b ≠ k) ∧ k ∉ Routes.r_sw r.
Proof.
  intros HR Hk. split_and!.
  - intros a (s & Hs & _)%(Routes.rd_addr _ HR). congruence.
  - intros u (s & Hs & _)%(Routes.rd_ufrag _ HR). congruence.
  - intros i (s & Hs & _)%(Routes.rd_sid _ HR). congruence.
  - intros j t Hj <-. destruct (owns_live _ _ _ _ (Routes.rd_tracks _ HR) _ _ Hj). congruence.
  - intros j b Hj <-. destruct (owns_live _ _ _ _ (Routes.rd_subs _ HR) _ _ Hj). congruence.
  - intros (s & Hs & _)%(Routes.rd_listed _ HR). congruence.
Qed.

(** C3: Closing a session leaves nothing of it: its id is unknown, no address
    or ufrag routes to its key, no track or subscription belongs to it, no
    subscription is left to a track that went with it, and no switch of
    address is pending for it. For the settings of [settings_ok] (31 times
    [max_sessions] below 2^32). *)
Theorem close_leaves_nothing cfg sh id k : settings_ok cfg → reached cfg sh → session_ids sh !! id = Some k →
  ∃ sh', close_session id sh = Ok ((), sh') ∧ session_ids sh' !! id = None ∧ Slab.find (sessions sh') k = None ∧
    (∀ a, by_addr sh' !! a ≠ Some k) ∧ (∀ u, by_ufrag sh' !! u ≠ Some k) ∧ k ∉ pending_switches sh' ∧
    (∀ j t, Slab.find (tracks sh') j = Some t → Track.session t ≠ k) ∧
    (∀ j b, Slab.find (subs sh') j = Some b → Sub.session b ≠ k ∧ is_Some (Slab.find (tracks sh') (Sub.track b))).
Proof.
  intros Hcfg Hr Hk. destruct (reached_between _ _ Hcfg Hr) as [(HI & _) _].
  pose proof (close_session_run cfg Hcfg [] sh id k HI Hk) as Hw. unfold run_to in Hw.
  destruct (close_session id sh) as [[[] sh']|[]|]; [|done..]. destruct Hw as ((HI' & _) & Hgone & Hid).
  pose proof (routed _ _ _ HI') as HR. destruct (routed_gone _ _ HR Hgone) as (Ha & Hu & _ & Ht & Hb & Hs).
  exists sh'. setoid_rewrite <- Slab.lookup_to_map. split_and!; try done.
  - cbn in Hgone. rewrite lookup_fmap in Hgone. by apply fmap_None in Hgone.
  - intros j t Hj. apply (Ht j (tlink t)), link_of, Hj.
  - intros j b Hj. pose proof (link_of blink _ _ _ Hj) as Hl. split; [by apply (Hb j (blink b))|].
    destruct (owns_live _ _ _ _ (Routes.rd_subscribers _ HR) _ _ Hl) as [t Htr]. cbn in Htr. rewrite lookup_fmap in Htr.
    apply fmap_Some in Htr as (x & -> & _). done.
Qed.

End runs.
End ShardTheorems.

(** * A shard at work

    A publisher and a subscriber on a shard with in-memory I/O: both are
    created, nominate their addresses with signed binding requests, get their
    SRTP keys, and a media packet of the one reaches the other. The theorems
    on runs of a shard are applied to this run. *)


Module ShardScenario.
Import Shard ShardTheorems.

#[local] Existing Instance IceProofs.toy_stun.
#[local] Existing Instance IceProofs.toy_stun_laws.
#[local] Instance toy_kdf : KdfBlock := toy_block.
#[local] Instance toy_kdf_law : CommandSafe.KdfBlockLaw := toy_block_len.
#[local] Instance toy_keys : CommandSafe.KeysAccepted.
Proof. by split. Qed.

Definition ufrag (c : Z) : list Z := replicate 16 c.
Definition password (c : Z) : list Z := replicate 22 c.

(** A binding request that nominates, signed with the password. *)
Definition binding (c p t : Z) : list Z :=
  match Ice.sign_message 48 (password p)
    (to_be 2 Ice.BINDING_REQUEST ++ [0; 0] ++ to_be 4 Ice.STUN_MAGIC_COOKIE ++ replicate 12 t ++
     to_be 2 Ice.ATTR_USERNAME ++ to_be 2 20 ++ ufrag c ++ [0x3A; 0x62; 0x62; 0x62] ++
     to_be 2 Ice.ATTR_USE_CANDIDATE ++ to_be 2 0 ++ replicate 32 0) with
  | Ok (_, d) => d
  | _ => []
  end.

Definition material (b : Z) : Keys.KeyMaterial :=
  Keys.mkMaterial (replicate 32 b) 16 (replicate 14 b) 14 Keys.Aes128CmHmacSha1_80.

Definition alice : SocketAddr := V4 0x0A000001 5000.
Definition bob : SocketAddr := V4 0x0A000002 6000.

Definition cfg : Config.ShardConfig :=
  Config.mkConfig 0 320 4 (secs 30) (secs 2) 1 64.

Definition video : TrackSpec :=
  mkTrackSpec Video [48] (Some 1000) (mkCodec 96 90000) (mkExtIds 0 0 0) [97; 98; 99].
Definition wanted : SubSpec :=
  mkSubSpec 5001 [49] [(96, 97)] (mkExtMap (replicate 15 0) 1) (mkTrackRef 0 100).

(** What Alice's own context makes of an RTP packet. *)
Definition media (seq : Z) : list Z :=
  let p := [0x80; 96] ++ to_be 2 seq ++ to_be 4 7777 ++ to_be 4 1000 ++ [1; 2; 3; 4] ++ replicate 24 0 in
  match Keys.outbound_new toy_block (material 1) 1000 with
  | Ok o =>
    match (Outbound.register 1000;; self ← get; mret self) o with
    | Ok (o, _) => match Outbound.protect_rtp 16 (o, p) with Ok (n, (_, b)) => take n b | _ => [] end
    | _ => []
    end
  | _ => []
  end.

Definition arrives (from : SocketAddr) (b : list Z) : op (I:=Io.MemIo) (S:=list Event) :=
  World (Io.push_inbound from b) id.

Definition script : list (op (I:=Io.MemIo) (S:=list Event)) :=
  [Push (CreateSession 1 (mkIce (ufrag 65) (password 66)) 1000);
   Push (CreateSession 2 (mkIce (ufrag 67) (password 68)) 5000);
   Iterate 1;
   arrives alice (binding 65 66 7); arrives bob (binding 67 68 8);
   Iterate 2;
   Push (InstallSrtp 1 (mkInstall (material 2) (material 1)));
   Push (InstallSrtp 2 (mkInstall (material 3) (material 4)));
   Push (AddTrack 1 100 video);
   Push (Subscribe 2 7 100 wanted);
   Iterate 3;
   arrives alice (media 10);
   Iterate 4].

Definition start : Shard Io.MemIo (list Event) :=
  match new cfg Io.mem_new [] 0 with Ok sh => sh | _ => mkShard cfg 0 Io.mem_new [] [] (Pool.mkPool 0 [] [] []) [] [] Slab.new Slab.new Slab.new ∅ ∅ ∅ ∅ ∅
        0 (fun _ => 0) None [] [] 0 0 (0, 0) 0 end.

Definition after (ops : list (op (I:=Io.MemIo) (S:=list Event))) : Shard Io.MemIo (list Event) :=
  match run ops start with Ok sh => sh | _ => start end.

Lemma cfg_settings : CommandSafe.settings_ok cfg.
Proof. by split. Qed.

Lemma cfg_valid : Config.validate cfg = Ok ().
Proof. by vm_compute. Qed.

Lemma arrives_ok from b : bytes b → op_ok (arrives from b).
Proof. intros Hb i [Hin Hout]. split; [|done]. apply Forall_app. split; [done|]. by repeat constructor. Qed.

Lemma material_ok b : Keys.material_ok (material b).
Proof. by split. Qed.

Lemma sent_bytes : bytes (binding 65 66 7) ∧ bytes (binding 67 68 8) ∧ bytes (media 10).
Proof. split_and!; apply (bool_decide_unpack _); by vm_compute. Qed.

Lemma script_ok : Forall op_ok script.
Proof.
  destruct sent_bytes as (Ha & Hb & Hm). unfold script. repeat (apply Forall_cons; split).
  4-5, 12: by apply arrives_ok.
  all: try apply Forall_nil; try exact I; cbn; try (split; apply material_ok).
  all: repeat (split || apply Forall_cons_2 || apply Forall_nil_2);
    unfold CNAME_CAPACITY, MID_CAPACITY, in_range; cbn; done || lia.
Qed.

(** What the peers get: the answers to their requests, a request for a key
    frame for the publisher, and the packet, rewritten, for the subscriber. *)
Example forwarded :
  let sh := after script in
  fst <$> Io.outbound (io sh) = [alice; bob; alice; bob] ∧
  events sh = [AddressSelected 1 alice Nominated; AddressSelected 2 bob Nominated; PeerSrtpVerified 1] ∧
  (take 2 ∘ snd <$> Io.outbound (io sh) !! 3%nat) = Some [0x90; 97] ∧
  (sub_list 8 24 ∘ snd <$> Io.outbound (io sh) !! 3%nat) = Some (to_be 4 5001 ++ [190; 222; 0; 1; 16; 49; 0; 0; 91; 88; 89; 94]).
Proof. vm_compute. done. Qed.

Lemma mem_new_ok : Io.io_ok Io.mem_new.
Proof. split; constructor. Qed.

Lemma ops_reached ops : Forall op_ok ops → reached cfg (after ops).
Proof.
  intros Hops. exists Io.mem_new, [], 0, start, ops. split; [apply mem_new_ok|]. split; [done|].
  destruct (new_between cfg Io.mem_new ([] : list Event) 0 cfg_settings cfg_valid mem_new_ok) as (sh0 & Hn & Hid).
  unfold after, start. rewrite Hn. split; [done|].
  destruct (run_ok cfg ops cfg_settings sh0 Hid Hops) as (sh & -> & _). done.
Qed.

Lemma shard_never_panics_witness :
  ∃ sh0 sh, new cfg Io.mem_new ([] : list Event) 0 = Ok sh0 ∧ run script sh0 = Ok sh ∧ Commands.check_tables sh = true ∧
    rx sh = [] ∧ tx sh = [] ∧ Pool.available (pool sh) = Z.to_nat 320 ∧ (length (pending sh) ≤ EVENT_RETENTION)%nat.
Proof.
  apply (shard_never_panics cfg Io.mem_new [] 0 script);
    [exact cfg_settings|exact cfg_valid|exact mem_new_ok|exact script_ok].
Defined.

(** With four commands in the queue. *)
Lemma commands_handled_witness :
  let sh := after (take 10 script) in
  length (commands sh) = 4%nat ∧ ∃ sh', run (Iterate <$> replicate 64 5) sh = Ok sh' ∧ commands sh' = [] ∧
    serves (replicate 64 5) (commands sh) sh sh'.
Proof.
  intros sh. split; [by vm_compute|].
  destruct (commands_handled cfg sh (replicate 64 5)) as (sh' & Hrun & _ & _ & Hc);
    [exact cfg_settings|exact (ops_reached _ (Forall_take _ _ _ script_ok))|].
  exists sh'. split; [exact Hrun|]. apply Hc. by vm_compute.
Defined.

Lemma close_leaves_nothing_witness :
  let sh := after script in let k := Slab.mkKey 0 0 in
  session_ids sh !! 1 = Some k ∧
  ∃ sh', Commands.close_session 1 sh = Ok ((), sh') ∧ session_ids sh' !! 1 = None ∧
    Slab.find (sessions sh') k = None ∧
    (∀ a, by_addr sh' !! a ≠ Some k) ∧ (∀ u, by_ufrag sh' !! u ≠ Some k) ∧ k ∉ pending_switches sh' ∧
    (∀ j t, Slab.find (tracks sh') j = Some t → Track.session t ≠ k) ∧
    (∀ j b, Slab.find (subs sh') j = Some b → Sub.session b ≠ k ∧ is_Some (Slab.find (tracks sh') (Sub.track b))).
Proof.
  intros sh k. assert (Hk : session_ids sh !! 1 = Some k) by (vm_compute; reflexivity). split; [exact Hk|].
  apply (close_leaves_nothing cfg sh 1 k); [exact cfg_settings|exact (ops_reached script script_ok)|exact Hk].
Defined.

End ShardScenario.
