(* ===== verification/Crdt.v ===== *)
(** * Dots, version vectors and what a merge promises

    [crates/nexus-state/src/types.rs] (dots and version vectors) and the CRDT
    errors of [error.rs]. What a merge promises is the class [MergeLaws];
    replicas that get the same states, in any order and any number of times,
    then agree ([converge]). The counter and the register that keep this
    promise are in [GCounter.v] and [LwwReg.v]. *)

From stdpp Require Import strings.
From S2P Require Import Prelude.

Inductive CrdtError :=
| CapacityExhausted (capacity : Z)
| InvalidActorId (actor_id : Z)
| InvalidTimestamp (timestamp : Z)
| MergeConflict (reason : string)
| TombstoneOverflow (count max : Z)
| ElementNotFound
| DuplicateElement
| InvalidDot (actor_id clock : Z)
| Overflow
| InvalidState (reason : string).

#[export] Instance CrdtError_eq_dec : EqDecision CrdtError.
Proof. solve_decision. Defined.

Definition MAX_ACTORS : Z := 256.

(** ** Dots *)
Module Dot.

Record Dot := mkDot { actor_id : Z; clock : Z }.

#[global] Instance Dot_eq_dec : EqDecision Dot.
Proof. solve_decision. Defined.

Definition new {E} (actor clk : Z) : outcome E Dot :=
  assert_ (actor <? MAX_ACTORS);; assert_ (clk >? 0);; Ok (mkDot actor clk).

Definition happened_before (a b : Dot) : bool :=
  if clock a <? clock b then true else if clock a =? clock b then actor_id a <? actor_id b else false.

Definition is_concurrent_with (a b : Dot) : bool := (clock a =? clock b) && negb (actor_id a =? actor_id b).

(** [Ord::cmp]: by clock, then by actor. *)
Definition cmp (a b : Dot) : comparison :=
  match clock a ?= clock b with Eq => actor_id a ?= actor_id b | c => c end.

(** [a >= b] *)
Definition geb (a b : Dot) : bool := match cmp a b with Lt => false | _ => true end.

Lemma cmp_eq a b : cmp a b = Eq ↔ a = b.
Proof.
  unfold cmp. destruct a as [x c], b as [y d]. cbn. destruct (Z.compare_spec c d); [|naive_solver lia..].
  destruct (Z.compare_spec x y); naive_solver lia.
Qed.

Lemma cmp_antisym a b : cmp b a = CompOpp (cmp a b).
Proof.
  unfold cmp. rewrite (Z.compare_antisym (clock a)), (Z.compare_antisym (actor_id a)). by destruct (clock a ?= clock b).
Qed.

Lemma cmp_lt a b : cmp a b = Lt ↔ clock a < clock b ∨ clock a = clock b ∧ actor_id a < actor_id b.
Proof.
  unfold cmp. destruct (Z.compare_spec (clock a) (clock b)), (Z.compare_spec (actor_id a) (actor_id b)); naive_solver lia.
Qed.

Lemma happened_before_cmp a b : happened_before a b = true ↔ cmp a b = Lt.
Proof.
  rewrite cmp_lt. unfold happened_before. destruct (Z.ltb_spec (clock a) (clock b)); [naive_solver|].
  destruct (Z.eqb_spec (clock a) (clock b)); [rewrite Z.ltb_lt|]; naive_solver lia.
Qed.

End Dot.
Export Dot (Dot, mkDot, actor_id, clock).

(** ** What a merge promises *)

Class MergeLaws {A : Type} (ok : A → Prop) (eqv : relation A) (merge : A → A → A) : Prop := {
  merge_equiv :: Equivalence eqv;
  merge_proper :: Proper (eqv ==> eqv ==> eqv) merge;
  merge_ok a b : ok a → ok b → ok (merge a b);
  merge_comm a b : ok a → ok b → eqv (merge a b) (merge b a);
  merge_assoc a b c : ok a → ok b → ok c → eqv (merge (merge a b) c) (merge a (merge b c));
  merge_idem a : ok a → eqv (merge a a) a;
}.

Section convergence.
Context {A : Type} (ok : A → Prop) (eqv : relation A) (merge : A → A → A) `{!MergeLaws ok eqv merge}.
Infix "≈" := eqv (at level 70).

(** [x] has been merged into [y]. *)
Definition below (x y : A) : Prop := merge y x ≈ y.

Lemma below_refl a : ok a → below a a.
Proof. apply merge_idem. Qed.

Lemma below_merge_l a b c : ok a → ok b → ok c → below c a → below c (merge a b).
Proof.
  intros Ha Hb Hc Hca. unfold below in *. rewrite merge_assoc by done. rewrite (merge_comm b c) by done.
  rewrite <- merge_assoc by done. by rewrite Hca.
Qed.

Lemma below_merge_r a b : ok a → ok b → below b (merge a b).
Proof. intros Ha Hb. unfold below. rewrite merge_assoc by done. by rewrite merge_idem by done. Qed.

Lemma below_lub a b u : ok a → ok b → ok u → below a u → below b u → below (merge a b) u.
Proof. intros Ha Hb Hu Hau Hbu. unfold below in *. rewrite <- merge_assoc by done. by rewrite Hau. Qed.

Lemma below_antisym a b : ok a → ok b → below a b → below b a → a ≈ b.
Proof. intros Ha Hb Hab Hba. unfold below in *. rewrite <- Hba, merge_comm by done. done. Qed.

Lemma fold_ok l : ∀ a, ok a → Forall ok l → ok (foldl merge a l).
Proof. induction l as [|x l IH]; intros a Ha Hl; cbn; [done|]. apply Forall_cons in Hl as [Hx Hl]. apply IH; [by apply merge_ok|done]. Qed.

(** The fold of the merges is the least upper bound of what was merged. *)
Lemma fold_above l : ∀ a c, ok a → ok c → Forall ok l → below c a → below c (foldl merge a l).
Proof.
  induction l as [|x l IH]; intros a c Ha Hc Hl Hb; cbn; [done|]. apply Forall_cons in Hl as [Hx Hl].
  apply IH; [by apply merge_ok|done..|]. by apply below_merge_l.
Qed.

Lemma fold_above_elem l : ∀ a x, ok a → Forall ok l → x ∈ l → below x (foldl merge a l).
Proof.
  induction l as [|y l IH]; intros a x Ha Hl Hx; [by apply not_elem_of_nil in Hx|].
  pose proof Hl as Hall. rewrite Forall_forall in Hall. apply Forall_cons in Hl as [Hy Hl]. cbn.
  apply elem_of_cons in Hx as [->|Hx]; [|by apply IH; [apply merge_ok|..]].
  apply fold_above; [by apply merge_ok|done..|]. by apply below_merge_r.
Qed.

Lemma fold_least l u : ok u → ∀ a, ok a → Forall ok l → below a u → (∀ x, x ∈ l → below x u) → below (foldl merge a l) u.
Proof.
  intros Hu. induction l as [|y l IH]; intros a Ha Hl Hau Hx; cbn; [done|]. apply Forall_cons in Hl as [Hy Hl].
  apply IH; [by apply merge_ok|done| |intros x ?; apply Hx; by right].
  apply below_lub; [done..|]. apply Hx. left.
Qed.

Lemma fold_same_elements a l1 l2 : ok a → Forall ok l1 → Forall ok l2 → (∀ x, x ∈ l1 → x ∈ l2) →
  below (foldl merge a l1) (foldl merge a l2).
Proof.
  intros Ha H1 H2 Hsub. apply fold_least; [by apply fold_ok|done..| |].
  - apply fold_above; [done..|]. by apply below_refl.
  - intros x Hx. apply fold_above_elem; auto.
Qed.

(** Replicas that merged the same states agree, whatever the order and the
    number of deliveries. *)
Lemma converge a l1 l2 : ok a → Forall ok l1 → Forall ok l2 → (∀ x, x ∈ l1 ↔ x ∈ l2) →
  foldl merge a l1 ≈ foldl merge a l2.
Proof.
  intros Ha H1 H2 Hsub. apply below_antisym; try by apply fold_ok.
  - apply fold_same_elements; naive_solver.
  - apply fold_same_elements; naive_solver.
Qed.

End convergence.

(** ** Version vectors *)
Module VersionVector.

Abbreviation t := (list Z).

Definition new : t := replicate 256 0.

Definition get {E} (actor : Z) (v : t) : outcome E Z :=
  assert_ (actor <? MAX_ACTORS);; idx v (Z.to_nat actor).

Definition set {E} (actor clk : Z) : st t E () :=
  lift (assert_ (actor <? MAX_ACTORS));;
  v ← Prelude.get; v ← lift (set_at (Z.to_nat actor) clk v); put v.

Definition increment {E} (actor : Z) : st t E Z :=
  lift (assert_ (actor <? MAX_ACTORS));;
  v ← Prelude.get;
  old ← lift (idx v (Z.to_nat actor));
  let new := old + 1 in
  lift (assert_ (new <? 2 ^ 64));; (* [checked_add(1).expect] *)
  v ← lift (set_at (Z.to_nat actor) new v);
  put v;;
  lift (assert_ (new >? old));; (* debug_assert! *)
  mret new.

Definition merge (self other : t) : t := zip_with (fun a b => if b >? a then b else a) self other.

Definition dominates (self other : t) : bool :=
  forallb (fun p => negb (p.1 <? p.2)) (zip self other) && existsb (fun p => p.1 >? p.2) (zip self other).

Definition contains_dot {E} (d : Dot) (v : t) : outcome E bool :=
  assert_ (actor_id d <? MAX_ACTORS);; c ← idx v (Z.to_nat (actor_id d)); Ok (c >=? clock d).

End VersionVector.

(** Arrays of 256 clocks or counters with the larger entries of both. *)
Section maxima.

Definition maxima (a b : list Z) : list Z := zip_with Z.max a b.
Definition actors (l : list Z) : Prop := length l = 256%nat ∧ Forall is_u64 l.

Lemma lookup_maxima a b i : maxima a b !! i = (x ← a !! i; y ← b !! i; Some (Z.max x y)).
Proof. apply lookup_zip_with. Qed.

Lemma actors_maxima a b : actors a → actors b → actors (maxima a b).
Proof.
  intros [Ha Hua] [Hb Hub]. split; [unfold maxima; rewrite length_zip_with; lia|].
  apply Forall_lookup. intros i x. rewrite lookup_maxima. destruct (a !! i) as [y|] eqn:Hy; [|done].
  destruct (b !! i) as [z|] eqn:Hz; [|done]. cbn. intros [= <-].
  pose proof (Forall_lookup_1 _ _ _ _ Hua Hy). pose proof (Forall_lookup_1 _ _ _ _ Hub Hz). unfold in_range in *. lia.
Qed.

#[export] Instance maxima_laws : MergeLaws actors (=) maxima.
Proof.
  split; try apply _.
  - apply actors_maxima.
  - intros a b _ _. apply list_eq. intros i. rewrite !lookup_maxima.
    destruct (a !! i), (b !! i); cbn; try done. by rewrite Z.max_comm.
  - intros a b c _ _ _. apply list_eq. intros i. rewrite !lookup_maxima.
    destruct (a !! i), (b !! i), (c !! i); cbn; try done. by rewrite Z.max_assoc.
  - intros a _. apply list_eq. intros i. rewrite lookup_maxima. destruct (a !! i); cbn; [by rewrite Z.max_id|done].
Qed.

End maxima.

Lemma version_merge_maxima a b : VersionVector.merge a b = maxima a b.
Proof.
  apply list_eq. intros i. unfold VersionVector.merge. rewrite lookup_zip_with, lookup_maxima.
  destruct (a !! i) as [x|], (b !! i) as [y|]; cbn; try done. rewrite Z.gtb_ltb.
  destruct (Z.ltb_spec x y); f_equal; lia.
Qed.
