(* ===== verification/GCounter.v ===== *)
(** * The grow-only counter

    [crates/nexus-state/src/crdt/gcounter.rs]: one 64-bit atomic cell per
    actor. The operations are first defined as they run alone; [Cell] then
    gives the atomic steps of [increment] and of the compare-and-swap loop of
    [merge] on a cell that several threads use at once. *)

From stdpp Require Import strings.
From S2P Require Import Prelude Crdt.

Module GCounter.

(** [counters] *)
Abbreviation GCounter := (list Z).

Definition new : GCounter := replicate 256 0.

Definition value (c : GCounter) : Z := fold_left (saturating_add 64) c 0.

(** [fetch_add] wraps; the addition of the result is checked. *)
Definition fetch_add {E} (i : nat) (delta : Z) : st GCounter E Z :=
  c ← get;
  old ← lift (idx c i);
  c ← lift (set_at i (wrapping_add 64 old delta) c);
  put c;;
  lift (assert_ (old + delta <? 2 ^ 64));;
  mret (old + delta).

Definition increment {E} (actor delta : Z) : st GCounter E Z :=
  lift (assert_ (delta >? 0));;
  lift (assert_ (actor <? MAX_ACTORS));;
  let i := Z.to_nat actor in
  c ← get;
  old_value ← lift (idx c i);
  new_value ← fetch_add i delta;
  lift (assert_ (new_value >=? old_value));; (* debug_assert! *)
  lift (assert_ (new_value =? wrapping_add 64 old_value delta));; (* debug_assert! *)
  mret new_value.

Definition try_increment (actor delta : Z) : st GCounter CrdtError Z :=
  if actor >=? MAX_ACTORS then throw (InvalidActorId actor) else
  if delta =? 0 then throw (InvalidState "delta must be positive") else
  let i := Z.to_nat actor in
  c ← get;
  old_value ← lift (idx c i);
  if old_value + delta >=? 2 ^ 64 then throw Overflow else
  fetch_add i delta.

Definition actor_value {E} (actor : Z) (c : GCounter) : outcome E Z :=
  assert_ (actor <? MAX_ACTORS);; idx c (Z.to_nat actor).

Definition merge_cell (self other : Z) : Z :=
  if other >? 0 then (if other <=? self then self else other) else self.

Definition merge (self other : GCounter) : GCounter := zip_with merge_cell self other.

Definition snapshot (c : GCounter) : list Z := c.
Definition is_empty (c : GCounter) : bool := forallb (fun v => v =? 0) c.

(** ** Sequential behaviour *)

Lemma merge_maxima a b : actors a → actors b → merge a b = maxima a b.
Proof.
  intros [_ Ha] [_ Hb]. apply list_eq. intros i. unfold merge. rewrite lookup_zip_with, lookup_maxima.
  destruct (a !! i) as [x|] eqn:Hx; [|done]. destruct (b !! i) as [y|] eqn:Hy; [|done]. cbn. f_equal.
  pose proof (Forall_lookup_1 _ _ _ _ Ha Hx). pose proof (Forall_lookup_1 _ _ _ _ Hb Hy). unfold in_range, merge_cell in *.
  rewrite Z.gtb_ltb. destruct (Z.ltb_spec 0 y); [destruct (Z.leb_spec y x)|]; lia.
Qed.

#[export] Instance merge_laws : MergeLaws actors (=) merge.
Proof.
  assert (Hok : ∀ a b, actors a → actors b → actors (merge a b)).
  { intros a b Ha Hb. rewrite merge_maxima by done. by apply (merge_ok (merge:=maxima) (eqv:=(=))). }
  split; try apply _; [done| | |].
  - intros a b Ha Hb. rewrite !merge_maxima by done. by apply (merge_comm (ok:=actors) (eqv:=(=))).
  - intros a b c Ha Hb Hc. rewrite (merge_maxima (merge a b)), (merge_maxima a (merge b c)), !merge_maxima by auto.
    by apply (merge_assoc (ok:=actors) (eqv:=(=))).
  - intros a Ha. rewrite merge_maxima by done. by apply (merge_idem (ok:=actors) (eqv:=(=))).
Qed.

(** Counters that merged the same states are equal. *)
Lemma counters_converge a l1 l2 : actors a → Forall actors l1 → Forall actors l2 → (∀ x, x ∈ l1 ↔ x ∈ l2) →
  foldl merge a l1 = foldl merge a l2.
Proof. apply (converge actors (=) merge). Qed.

Lemma fetch_add_ok {E} i delta c old : c !! i = Some old → old + delta < 2 ^ 64 → 0 ≤ old + delta →
  fetch_add (E:=E) i delta c = Ok (old + delta, <[i := old + delta]> c).
Proof.
  intros Hi Hlt Hge. unfold fetch_add. run_st. unfold idx, set_at. rewrite Hi. cbn [expect].
  rewrite decide_True by (by eapply lookup_lt_Some). run_st.
  unfold wrapping_add. rewrite wrap_small by (split; lia). by rewrite (proj2 (Z.ltb_lt _ _) Hlt).
Qed.

(** [try_increment] never panics; it adds exactly [delta] to the actor's cell
    or changes nothing and says why. *)
Lemma try_increment_spec c actor delta : actors c → is_u64 actor → is_u64 delta →
  match try_increment actor delta c with
  | Ok (v, c') => actor < MAX_ACTORS ∧ ∃ old, c !! Z.to_nat actor = Some old ∧ v = old + delta ∧ delta ≠ 0 ∧
                  c' = <[Z.to_nat actor := v]> c ∧ actors c'
  | Err (InvalidActorId _, c') => MAX_ACTORS ≤ actor ∧ c' = c
  | Err (InvalidState _, c') => delta = 0 ∧ c' = c
  | Err (Overflow, c') => c' = c ∧ ∃ old, c !! Z.to_nat actor = Some old ∧ 2 ^ 64 ≤ old + delta
  | _ => False
  end.
Proof.
  intros Hc Ha Hd. pose proof Hc as [Hlen Hall]. unfold in_range in *. unfold try_increment. rewrite Z.geb_leb. unfold MAX_ACTORS.
  destruct (Z.leb_spec 256 actor); [done|]. destruct (Z.eqb_spec delta 0); [done|]. run_st.
  destruct (lookup_lt_is_Some_2 c (Z.to_nat actor)) as [old Hold]; [lia|].
  pose proof (Forall_lookup_1 _ _ _ _ Hall Hold) as Ho. unfold in_range in Ho.
  unfold idx. rewrite Hold. cbn [expect]. rewrite Z.geb_leb. destruct (Z.leb_spec (2 ^ 64) (old + delta)); [by eauto|].
  rewrite (fetch_add_ok _ _ _ old) by (done || lia). split; [done|]. exists old.
  do 4 (split; [done|]). split; [by rewrite length_insert|]. apply Forall_insert; [done|]. split; lia.
Qed.

(** ** Threads on one cell *)
Module Cell.

(** What is left of a call, at its next access to the cell. *)
Inductive thread :=
| IncLoad (delta : Z)             (* load of [old_value] *)
| IncAdd (delta old : Z)          (* [fetch_add] and the checks after it *)
| MergeLoad (v : Z)               (* head of the loop of [merge] *)
| MergeCas (v current : Z)        (* [compare_exchange_weak] *)
| Done
| Panicked.

(** The next access of a thread; [weak] lets a compare-and-swap fail. *)
Definition step (weak : bool) (t : thread) (cell : Z) : thread * Z :=
  match t with
  | IncLoad delta => (IncAdd delta cell, cell)
  | IncAdd delta old =>
    let ok := (cell + delta <? 2 ^ 64) && (cell + delta >=? old) && (cell + delta =? wrapping_add 64 old delta) in
    (if ok then Done else Panicked, wrapping_add 64 cell delta)
  | MergeLoad v => (if v <=? cell then Done else MergeCas v cell, cell)
  | MergeCas v current => if (cell =? current) && negb weak then (Done, v) else (MergeLoad v, cell)
  | Done => (Done, cell)
  | Panicked => (Panicked, cell)
  end.

(** A schedule names the thread that makes each step. *)
Fixpoint run (schedule : list (nat * bool)) (ts : list thread) (cell : Z) : list thread * Z :=
  match schedule with
  | [] => (ts, cell)
  | (i, weak) :: schedule =>
    match ts !! i with
    | Some t => let '(t', cell') := step weak t cell in run schedule (<[i := t']> ts) cell'
    | None => run schedule ts cell
    end
  end.

(** The value a thread still wants to merge. *)
Definition merging (t : thread) (v : Z) : Prop := t = MergeLoad v ∨ ∃ current, t = MergeCas v current ∧ current < v.

(** What [vs] merges bring to a cell that had [c0]. *)
Record merged (c0 : Z) (vs : list Z) (ts : list thread) (cell : Z) : Prop := {
  merged_ge : c0 ≤ cell;
  merged_from : cell = c0 ∨ cell ∈ vs;
  merged_threads : Forall2 (fun v t => merging t v ∨ t = Done ∧ v ≤ cell) vs ts;
}.

Lemma step_merging weak v t cell : merging t v → v ≤ cell ∨ cell < v →
  let '(t', cell') := step weak t cell in
  (cell' = cell ∧ (merging t' v ∨ t' = Done ∧ v ≤ cell)) ∨ (cell' = v ∧ cell < v ∧ t' = Done).
Proof.
  intros [->|(cur & -> & Hlt)] _; cbn.
  - destruct (Z.leb_spec v cell); [naive_solver|]. left. split; [done|]. left. right. eauto.
  - destruct (Z.eqb_spec cell cur) as [->|]; cbn; [destruct weak; cbn|]; [|naive_solver|];
      left; (split; [done|]); left; by left.
Qed.

Lemma merged_step c0 vs ts cell i weak t : merged c0 vs ts cell → ts !! i = Some t →
  let '(t', cell') := step weak t cell in merged c0 vs (<[i := t']> ts) cell'.
Proof.
  intros [Hge Hfrom Hts] Hi. destruct (Forall2_lookup_r _ _ _ _ _ Hts Hi) as (v & Hv & Ht).
  destruct Ht as [Hm|[-> Hle]].
  2: { cbn. split; [done..|]. rewrite list_insert_id by done. done. }
  pose proof (step_merging weak v t cell Hm (Z.le_gt_cases v cell)) as Hs.
  destruct (step weak t cell) as [t' cell']. destruct Hs as [[-> Ht']|(-> & Hlt & ->)].
  - split; [done..|]. rewrite <- (list_insert_id vs i v Hv). by apply Forall2_insert.
  - split; [lia|right; by eapply list_elem_of_lookup_2|]. rewrite <- (list_insert_id vs i v Hv).
    apply Forall2_insert; [|right; split; [done|lia]]. eapply Forall2_impl; [exact Hts|]. cbn. intros x y [?|[-> ?]]; [by left|right; split; [done|lia]].
Qed.

Lemma merged_run schedule c0 vs : ∀ ts cell, merged c0 vs ts cell →
  merged c0 vs (run schedule ts cell).1 (run schedule ts cell).2.
Proof.
  induction schedule as [|[i weak] schedule IH]; intros ts cell Hm; cbn; [done|].
  destruct (ts !! i) as [t|] eqn:Hi; [|auto]. pose proof (merged_step _ _ _ _ i weak t Hm Hi) as Hs.
  destruct (step weak t cell) as [t' cell']. auto.
Qed.

Lemma fold_cells vs : ∀ c0, 0 ≤ c0 → let m := foldl merge_cell c0 vs in
  c0 ≤ m ∧ (m = c0 ∨ m ∈ vs) ∧ Forall (fun v => v ≤ m) vs.
Proof.
  induction vs as [|v vs IH]; intros c0 H0; cbn; [split; [lia|]; split; [by left|constructor]|]. set (c1 := merge_cell c0 v).
  assert (Hc : c0 ≤ c1 ∧ v ≤ c1 ∧ (c1 = c0 ∨ c1 = v)).
  { unfold c1, merge_cell. rewrite Z.gtb_ltb. destruct (Z.ltb_spec 0 v); [destruct (Z.leb_spec v c0)|]; lia. }
  destruct (IH c1 ltac:(lia)) as (Hle & Hin & Hall). split; [lia|]. split.
  - destruct Hin as [->|Hin]; [destruct Hc as (_ & _ & [->| ->]); [by left|right; left]|]. right. by right.
  - constructor; [lia|done].
Qed.

Lemma merged_done c0 vs ts cell : 0 ≤ c0 → merged c0 vs ts cell → Forall (fun t => t = Done) ts →
  cell = foldl merge_cell c0 vs.
Proof.
  intros H0 [Hge Hfrom Hts] Hd. destruct (fold_cells vs c0 H0) as (Hle & Hin & Hall).
  assert (Hvs : Forall (fun v => v ≤ cell) vs).
  { apply Forall_lookup. intros i v Hv. destruct (Forall2_lookup_l _ _ _ _ _ Hts Hv) as (t & Ht & Hm).
    pose proof (Forall_lookup_1 _ _ _ _ Hd Ht) as ->. destruct Hm as [[?|(? & ? & _)]|[_ ?]]; done. }
  rewrite Forall_forall in Hall, Hvs. destruct Hfrom as [->|Hc], Hin as [Hm|Hm]; rewrite ?Hm; try done.
  - specialize (Hvs _ Hm). lia.
  - specialize (Hall _ Hc). lia.
  - specialize (Hall _ Hc). specialize (Hvs _ Hm). lia.
Qed.

(** A thread left alone for three steps has finished its merge. *)
Lemma merge_finishes v t cell ts i : ts !! i = Some t → merging t v ∨ t = Done →
  (run (replicate 3 (i, false)) ts cell).1 !! i = Some Done.
Proof.
  intros Hi Ht. assert (Hlt : (i < length ts)%nat) by (by eapply lookup_lt_Some).
  assert (Hstep : ∀ n t c ts, ts !! i = Some t → run (replicate (S n) (i, false)) ts c =
     let '(t', c') := step false t c in run (replicate n (i, false)) (<[i := t']> ts) c') by (intros ???? H; cbn; by rewrite H).
  assert (Hdone : ∀ n c ts, ts !! i = Some Done → (run (replicate n (i, false)) ts c).1 !! i = Some Done).
  { induction n as [|n IH]; intros c ts' H; cbn; [done|]. rewrite H. cbn. apply IH. by rewrite list_insert_id. }
  assert (Hload : ∀ c ts, ts !! i = Some (MergeLoad v) → (run (replicate 2 (i, false)) ts c).1 !! i = Some Done).
  { intros c ts' H. pose proof (lookup_lt_Some _ _ _ H). rewrite (Hstep 1%nat _ c ts' H). cbn [step].
    destruct (v <=? c); [by apply Hdone; rewrite list_lookup_insert_eq|].
    rewrite (Hstep 0%nat (MergeCas v c)) by (by rewrite list_lookup_insert_eq). cbn [step]. rewrite Z.eqb_refl. cbn.
    by rewrite list_lookup_insert_eq by (by rewrite length_insert). }
  destruct Ht as [[->|(cur & -> & _)]| ->]; [| |by apply Hdone].
  - rewrite (Hstep 2%nat _ cell ts Hi). cbn [step]. destruct (v <=? cell); [by apply Hdone; rewrite list_lookup_insert_eq|].
    rewrite (Hstep 1%nat (MergeCas v cell)) by (by rewrite list_lookup_insert_eq). cbn [step]. rewrite Z.eqb_refl. cbn [negb andb].
    apply Hdone. by rewrite list_lookup_insert_eq by (by rewrite length_insert).
  - rewrite (Hstep 2%nat _ cell ts Hi). cbn [step]. destruct ((cell =? cur) && negb false).
    + apply Hdone. by rewrite list_lookup_insert_eq.
    + apply Hload. by rewrite list_lookup_insert_eq.
Qed.

(** C37: Any interleaving of concurrent merges into one cell, with weak
    compare-and-swaps that fail for no reason, only lets the cell grow, makes
    no thread panic, and once all threads have finished the cell is what
    merging the values one after the other gives; a thread that is left alone
    finishes in three steps. *)
Theorem concurrent_merges c0 vs schedule : 0 ≤ c0 →
  let '(ts, cell) := run schedule (MergeLoad <$> vs) c0 in
  c0 ≤ cell ∧ (∀ i, ts !! i ≠ Some Panicked) ∧
  (Forall (fun t => t = Done) ts → cell = foldl merge_cell c0 vs) ∧
  (∀ i, (i < length vs)%nat → (run (replicate 3 (i, false)) ts cell).1 !! i = Some Done).
Proof.
  intros H0. assert (Hm : merged c0 vs (MergeLoad <$> vs) c0).
  { split; [lia|by left|]. apply Forall2_fmap_r, Forall_Forall2_diag, Forall_true. intros v. left. by left. }
  apply (merged_run schedule) in Hm. destruct (run schedule _ c0) as [ts cell]. cbn [fst snd] in Hm.
  pose proof Hm as [Hge _ Hts]. split; [done|]. split_and!.
  - intros i Hi. destruct (Forall2_lookup_r _ _ _ _ _ Hts Hi) as (v & _ & [[?|(? & ? & _)]|[? _]]); done.
  - by apply merged_done.
  - intros i Hi. destruct (lookup_lt_is_Some_2 vs i Hi) as [v Hv].
    destruct (Forall2_lookup_l _ _ _ _ _ Hts Hv) as (t & Ht & Hmt). eapply (merge_finishes v); [done|naive_solver].
Qed.

Definition sample_schedule : list (nat * bool) :=
  [(0, false); (1, false); (1, false); (0, false); (0, true); (2, false); (0, false); (0, true); (0, false); (0, false)]%nat.

Lemma concurrent_merges_witness :
  run sample_schedule (MergeLoad <$> [9; 5; 3]) 1 = ([Done; Done; Done], 9) ∧
  let '(ts, cell) := run sample_schedule (MergeLoad <$> [9; 5; 3]) 1 in
  1 ≤ cell ∧ (∀ i, ts !! i ≠ Some Panicked) ∧
  (Forall (fun t => t = Done) ts → cell = foldl merge_cell 1 [9; 5; 3]) ∧
  (∀ i, (i < 3)%nat → (run (replicate 3 (i, false)) ts cell).1 !! i = Some Done).
Proof. split; [by vm_compute|]. apply (concurrent_merges 1 [9; 5; 3] sample_schedule). lia. Defined.

(** Two increments of the same cell: the check that follows [fetch_add]
    compares with a load made before it, so an increment between the two
    makes it fail in a build with debug assertions, although the cell gets
    both increments. *)
Theorem increments_race c0 d1 d2 : 0 ≤ c0 → 0 < d1 → 0 < d2 → c0 + d1 + d2 < 2 ^ 64 →
  run [(0, false); (1, false); (0, false); (1, false)]%nat [IncLoad d1; IncLoad d2] c0 =
    ([Done; Panicked], c0 + d1 + d2).
Proof.
  intros. cbn -[Z.pow Z.ltb Z.geb Z.eqb wrapping_add]. unfold wrapping_add. rewrite !wrap_small by (split; lia).
  rewrite !Z.geb_leb. rewrite (proj2 (Z.ltb_lt (c0 + d1) _)) by lia. rewrite (proj2 (Z.leb_le c0 (c0 + d1))) by lia.
  rewrite Z.eqb_refl. cbn [andb]. rewrite (proj2 (Z.ltb_lt _ _)) by lia. rewrite (proj2 (Z.leb_le c0 _)) by lia.
  by rewrite (proj2 (Z.eqb_neq _ _)) by lia.
Qed.

End Cell.
End GCounter.
