(* ===== verification/LwwReg.v ===== *)
(** * The last-writer-wins register

    [crates/nexus-state/src/crdt/lwwreg.rs]: a value with the timestamp and
    the actor of its last write; the later timestamp wins, then the larger
    actor. A register that was never written has timestamp 0. *)

From S2P Require Import Prelude Crdt.

Module LwwReg.

Section register.
Context {T : Type}.

Record LWWReg := mkReg { value : T; timestamp : Z; writer : Z }.

Definition new {E} (initial : T) (actor : Z) : outcome E LWWReg :=
  assert_ (actor <? MAX_ACTORS);; Ok (mkReg initial 0 actor).

Definition with_timestamp {E} (initial : T) (ts actor : Z) : outcome E LWWReg :=
  assert_ (actor <? MAX_ACTORS);; Ok (mkReg initial ts actor).

(** Whether the write was applied. *)
Definition set {E} (v : T) (ts actor : Z) : st LWWReg E bool :=
  lift (assert_ (ts >? 0));;
  lift (assert_ (actor <? MAX_ACTORS));;
  r ← get;
  let wins := match ts ?= timestamp r with
              | Gt => true
              | Eq => actor >? writer r
              | Lt => false
              end in
  if wins
  then put (mkReg v ts actor);; lift (assert_ (ts >=? timestamp r));; (* debug_assert! *) mret true
  else mret false.

Definition merge (self other : LWWReg) : LWWReg :=
  if timestamp other >? 0 then
    if (timestamp self =? 0) || (timestamp other >? timestamp self) then mkReg (value other) (timestamp other) (writer other)
    else if (timestamp other =? timestamp self) && (writer other >? writer self)
         then mkReg (value other) (timestamp self) (writer other)
         else self
  else self.

(** ** Registers as a lattice *)

(** Two writes never carry the same timestamp and actor with other values:
    [written] tells the value written with them. *)
Context (written : Z * Z → T).

Definition coherent (r : LWWReg) : Prop := 0 ≤ timestamp r ∧ (0 < timestamp r → value r = written (timestamp r, writer r)).

(** Equal, or neither was written. *)
Definition same (a b : LWWReg) : Prop := a = b ∨ timestamp a = 0 ∧ timestamp b = 0.

#[export] Instance same_equivalence : Equivalence same.
Proof.
  split; unfold same.
  - by left.
  - intros a b [->|[]]; auto.
  - intros a b c [->|[]] [->|[]]; auto.
Qed.

(** Order of the stamps. *)
Definition newer (a b : LWWReg) : bool :=
  (timestamp a >? timestamp b) || (timestamp a =? timestamp b) && (writer a >? writer b).

Lemma merge_newer a b : 0 ≤ timestamp a → 0 ≤ timestamp b →
  same (merge a b) (if newer b a then b else a).
Proof.
  intros Ha Hb. unfold merge, newer, same. rewrite !Z.gtb_ltb.
  destruct (Z.ltb_spec 0 (timestamp b)); destruct (Z.ltb_spec (timestamp a) (timestamp b)),
    (Z.eqb_spec (timestamp a) 0), (Z.eqb_spec (timestamp b) (timestamp a)), (Z.ltb_spec (writer a) (writer b));
    cbn; destruct b as [v t w]; cbn in *; try lia; try (by left); try (right; lia); left; congruence.
Qed.

Definition pick (a b : LWWReg) : LWWReg := if newer b a then b else a.

Lemma tie a b : coherent a → coherent b → newer a b = false → newer b a = false → same a b.
Proof.
  unfold newer. rewrite !Z.gtb_ltb. intros [Ha Hva] [Hb Hvb] Hab Hba.
  destruct (Z.ltb_spec (timestamp b) (timestamp a)), (Z.ltb_spec (timestamp a) (timestamp b)); try done.
  assert (Ht : timestamp a = timestamp b) by lia. rewrite !Ht, !Z.eqb_refl in *. cbn in *.
  apply Z.ltb_ge in Hab, Hba. assert (Hw : writer a = writer b) by lia.
  destruct (Z.eq_dec (timestamp b) 0) as [Hz|]; [right; lia|left].
  destruct a, b. cbn in *. subst. f_equal. rewrite Hva, Hvb by lia. done.
Qed.

Lemma newer_trans a b c : newer a b = false → newer b c = false → newer a c = false.
Proof.
  unfold newer. rewrite !Z.gtb_ltb. intros H1 H2.
  repeat match goal with H : context [?x <? ?y] |- _ => destruct (Z.ltb_spec x y)
         | |- context [?x <? ?y] => destruct (Z.ltb_spec x y)
         | H : context [?x =? ?y] |- _ => destruct (Z.eqb_spec x y)
         | |- context [?x =? ?y] => destruct (Z.eqb_spec x y) end; cbn in *; done || lia.
Qed.

Lemma newer_asym a b : newer a b = true → newer b a = false.
Proof.
  unfold newer. rewrite !Z.gtb_ltb. intros H1.
  repeat match goal with H : context [?x <? ?y] |- _ => destruct (Z.ltb_spec x y)
         | |- context [?x <? ?y] => destruct (Z.ltb_spec x y)
         | H : context [?x =? ?y] |- _ => destruct (Z.eqb_spec x y)
         | |- context [?x =? ?y] => destruct (Z.eqb_spec x y) end; cbn in *; done || lia.
Qed.

(** What is picked is not older than either, and is one of them. *)
Lemma pick_spec a b : (pick a b = a ∨ pick a b = b) ∧ newer a (pick a b) = false ∧ newer b (pick a b) = false.
Proof.
  unfold pick. destruct (newer b a) eqn:H.
  - split; [by right|]. split; [by apply newer_asym|]. destruct (newer b b) eqn:Hb; [|done]. by rewrite (newer_asym _ _ Hb) in Hb.
  - split; [by left|]. split; [|done]. destruct (newer a a) eqn:Ha; [|done]. by rewrite (newer_asym _ _ Ha) in Ha.
Qed.

(** Two registers neither of which is older than the other's sources agree. *)
Lemma pick_unique x y (l : list LWWReg) : Forall coherent l → x ∈ l → y ∈ l →
  Forall (fun r => newer r x = false) l → Forall (fun r => newer r y = false) l → same x y.
Proof.
  rewrite !Forall_forall. intros Hc Hx Hy Hnx Hny. apply tie; auto.
Qed.

Lemma pick_elem a b (l : list LWWReg) : a ∈ l → b ∈ l → pick a b ∈ l.
Proof. unfold pick. by destruct (newer b a). Qed.

Local Ltac member := repeat apply pick_elem; rewrite !elem_of_cons; auto.
Local Ltac each := repeat apply Forall_cons_2; try apply Forall_nil_2.

Lemma pick_comm a b : coherent a → coherent b → same (pick a b) (pick b a).
Proof.
  intros Ha Hb. destruct (pick_spec a b) as (H1 & H2 & H3), (pick_spec b a) as (H4 & H5 & H6).
  apply (pick_unique _ _ [a; b]); [each; done|member|member|each; done..].
Qed.

Lemma pick_assoc a b c : coherent a → coherent b → coherent c → same (pick (pick a b) c) (pick a (pick b c)).
Proof.
  intros Ha Hb Hc. destruct (pick_spec a b) as (H1 & H2 & H3), (pick_spec (pick a b) c) as (H4 & H5 & H6).
  destruct (pick_spec b c) as (G1 & G2 & G3), (pick_spec a (pick b c)) as (G4 & G5 & G6).
  apply (pick_unique _ _ [a; b; c]); [each; done|member|member|..]; each; eauto using newer_trans.
Qed.

Lemma same_stamp a b : same a b → timestamp a = timestamp b.
Proof. intros [->|[]]; [done|lia]. Qed.

#[export] Instance merge_same : Proper (same ==> same ==> same) merge.
Proof.
  assert (H0 : ∀ a b, timestamp b = 0 → merge a b = a) by (intros a b Hb; unfold merge; by rewrite Hb).
  assert (Hl : ∀ a b, timestamp a = 0 → 0 < timestamp b → merge a b = b).
  { intros a b Ha Hb. unfold merge. rewrite Z.gtb_ltb, (proj2 (Z.ltb_lt _ _)), Ha by done. by destruct b. }
  assert (Hneg : ∀ a b, ¬ 0 < timestamp b → merge a b = a).
  { intros a b Hb. unfold merge. rewrite Z.gtb_ltb. by rewrite (proj2 (Z.ltb_ge _ _)) by lia. }
  intros a a' [->|[Ha Ha']] b b' [->|[Hb Hb']]; [by left|rewrite !H0 by done; by left| |rewrite !H0 by done; by right].
  destruct (Z_lt_dec 0 (timestamp b')); [rewrite !Hl by done; by left|]. rewrite !Hneg by done. by right.
Qed.

Lemma coherent_pick a b : coherent a → coherent b → coherent (pick a b).
Proof. unfold pick. by destruct (newer b a). Qed.

Lemma coherent_merge a b : coherent a → coherent b → coherent (merge a b).
Proof.
  intros [Ha Hva] [Hb Hvb]. unfold merge. rewrite !Z.gtb_ltb. destruct (0 <? timestamp b); [|done].
  destruct (_ || _); [done|]. destruct (Z.eqb_spec (timestamp b) (timestamp a)) as [He|]; [|done].
  destruct (writer a <? writer b); cbn; [|done]. split; cbn; [done|]. intros. rewrite Hvb by lia. by rewrite He.
Qed.

#[export] Instance register_laws : MergeLaws coherent same merge.
Proof.
  assert (Hmp : ∀ a b, coherent a → coherent b → same (merge a b) (pick a b)) by (intros a b [? _] [? _]; by apply merge_newer).
  split; try apply _; [apply coherent_merge| | |].
  - intros a b Ha Hb. rewrite !Hmp by done. by apply pick_comm.
  - intros a b c Ha Hb Hc. rewrite (Hmp a b), (Hmp b c) by done. rewrite !Hmp by auto using coherent_pick. by apply pick_assoc.
  - intros a Ha. rewrite Hmp by done. unfold pick. by destruct (newer a a).
Qed.

(** Registers that were never written keep their initial values: a merge of
    two of them is not commutative. *)
Lemma unwritten_kept a b : timestamp a = 0 → timestamp b = 0 → merge a b = a ∧ merge b a = b.
Proof. intros Ha Hb. unfold merge. by rewrite Ha, Hb. Qed.

(** A write is a merge of a register written once. *)
Lemma set_merge {E} v ts actor r : 0 < ts → actor < MAX_ACTORS → 0 ≤ timestamp r →
  ∃ b, set (E:=E) v ts actor r = Ok (b, merge r (mkReg v ts actor)).
Proof.
  intros Hts Ha Hr. unfold set, merge. cbn [timestamp writer value]. run_st. rewrite !Z.gtb_ltb.
  rewrite (proj2 (Z.ltb_lt 0 ts) Hts), (proj2 (Z.ltb_lt actor _) Ha). rewrite Z.geb_leb.
  destruct (Z.compare_spec ts (timestamp r)) as [He|Hl|Hg].
  - subst ts. rewrite Z.ltb_irrefl, Z.eqb_refl, (proj2 (Z.eqb_neq (timestamp r) 0)) by lia. cbn.
    rewrite Z.gtb_ltb. destruct (writer r <? actor); [rewrite Z.leb_refl|]; by eexists.
  - rewrite (proj2 (Z.eqb_neq (timestamp r) 0)), (proj2 (Z.ltb_ge (timestamp r) ts)), (proj2 (Z.eqb_neq ts _)) by lia.
    by eexists.
  - rewrite (proj2 (Z.ltb_lt (timestamp r) ts)), (proj2 (Z.leb_le (timestamp r) ts)), orb_true_r by lia. by eexists.
Qed.

Lemma merge_timestamp a b : 0 ≤ timestamp a → 0 ≤ timestamp b → timestamp (merge a b) = Z.max (timestamp a) (timestamp b).
Proof.
  intros Ha Hb. rewrite (same_stamp _ _ (merge_newer a b Ha Hb)). unfold newer. rewrite !Z.gtb_ltb.
  destruct (Z.ltb_spec (timestamp a) (timestamp b)), (Z.eqb_spec (timestamp b) (timestamp a)); cbn; try lia;
    destruct (writer a <? writer b); cbn; lia.
Qed.

Lemma fold_timestamp l : ∀ r x, coherent r → Forall coherent l → x ∈ r :: l → timestamp x ≤ timestamp (foldl merge r l).
Proof.
  induction l as [|y l IH]; intros r x Hr Hl Hx; cbn.
  - apply list_elem_of_singleton in Hx as ->. lia.
  - apply Forall_cons in Hl as [Hy Hl]. pose proof (coherent_merge r y Hr Hy) as Hm.
    pose proof (merge_timestamp r y (proj1 Hr) (proj1 Hy)) as Ht.
    apply elem_of_cons in Hx as [->|Hx]; [|apply elem_of_cons in Hx as [->|Hx]]; [..|apply IH; [done..|by right]];
      (etransitivity; [|apply (IH (merge r y) (merge r y)); [done|done|left]]); lia.
Qed.

(** Replicas of a register agree: whatever the order in which a register
    merges the states of the others, and however often, it ends in the same
    state, and as soon as one of them was written in the same value,
    timestamp and writer; before that all are unwritten. Writes with the same
    timestamp and actor must carry the same value. *)
Theorem registers_converge r l1 l2 : coherent r → Forall coherent l1 → Forall coherent l2 → (∀ x, x ∈ l1 ↔ x ∈ l2) →
  same (foldl merge r l1) (foldl merge r l2) ∧
  (Exists (fun x => 0 < timestamp x) (r :: l1) → foldl merge r l1 = foldl merge r l2).
Proof.
  intros Hr H1 H2 Hin. pose proof (converge coherent same merge r l1 l2 Hr H1 H2 Hin) as Hs. split; [done|].
  intros (x & Hx & Hpos)%Exists_exists. destruct Hs as [Hs|[Ht _]]; [done|].
  pose proof (fold_timestamp l1 r x Hr H1 Hx). lia.
Qed.

End register.

Arguments LWWReg T : clear implicits.

Definition sample_written (p : Z * Z) : Z := 1000 * p.1 + p.2.
Definition sample_reg (ts actor : Z) : LWWReg Z := mkReg (sample_written (ts, actor)) ts actor.

Lemma registers_converge_witness :
  let l1 := [sample_reg 7 1; sample_reg 7 2; sample_reg 3 9] in
  let l2 := [sample_reg 3 9; sample_reg 7 2; sample_reg 3 9; sample_reg 7 1] in
  foldl merge (mkReg 0 0 5) l1 = sample_reg 7 2 ∧
  same (foldl merge (mkReg 0 0 5) l1) (foldl merge (mkReg 0 0 5) l2) ∧
  (Exists (fun x => 0 < timestamp x) (mkReg 0 0 5 :: l1) → foldl merge (mkReg 0 0 5) l1 = foldl merge (mkReg 0 0 5) l2).
Proof.
  intros l1 l2. split; [by vm_compute|].
  apply (registers_converge sample_written (mkReg 0 0 5) l1 l2).
  - by split.
  - repeat apply Forall_cons_2; try apply Forall_nil_2; by split.
  - repeat apply Forall_cons_2; try apply Forall_nil_2; by split.
  - intros x. unfold l1, l2. rewrite !elem_of_cons. naive_solver.
Defined.

End LwwReg.
