(* ===== verification/Orswot.v ===== *)
(** * The observed-remove set

    [crates/nexus-state/src/crdt/orswot.rs]: elements in reusable slots, each
    with the dot of its last add, and a ring of the dots of removed elements.
    A full ring forgets its oldest tombstone. *)

From S2P Require Import Prelude Crdt.

Module Orswot.

Definition MAX_ELEMENTS : nat := Z.to_nat 10000.
Definition MAX_TOMBSTONES : nat := Z.to_nat 5000.

Section orswot.
Context {T : Type} `{EqDecision T}.

Record Entry := mkEntry { element : option T; edot : Dot }.

Record Orswot := mkSet {
  entries : list Entry;
  max_elements : nat;
  set_count : Z;
  tombstones : list (option Dot);
  max_tombstones : nat;
  next_tombstone : nat;
  tombstone_count : Z;
}.

Definition set_entries l n s :=
  mkSet l (max_elements s) n (tombstones s) (max_tombstones s) (next_tombstone s) (tombstone_count s).
Definition set_tombstones l nx n s :=
  mkSet (entries s) (max_elements s) (set_count s) l (max_tombstones s) nx n.

Definition with_capacity {E} (max : nat) : outcome E Orswot :=
  assert_ (bool_decide (0 < max ≤ MAX_ELEMENTS)%nat);;
  Ok (mkSet [] max 0 [] (Nat.min (2 * max) MAX_TOMBSTONES) 0 0).

Definition new {E} : outcome E Orswot := with_capacity MAX_ELEMENTS.

Definition is_element (x : T) (e : Entry) : bool := bool_decide (element e = Some x).
Definition is_free (e : Entry) : bool := bool_decide (element e = None).

Definition contains (s : Orswot) (x : T) : bool := existsb (is_element x) (entries s).
Definition len (s : Orswot) : Z := set_count s.
Definition is_empty (s : Orswot) : bool := len s =? 0.
Definition elements (s : Orswot) : list T := omap element (entries s).

(** A tombstone of the same actor with a clock at least as large. *)
Definition is_tombstoned (s : Orswot) (d : Dot) : bool :=
  existsb (fun o => match o with
                    | Some t => (actor_id t =? actor_id d) && (clock t >=? clock d)
                    | None => false
                    end) (tombstones s).

Definition has_tombstone (s : Orswot) (d : Dot) : bool :=
  existsb (fun o => bool_decide (o = Some d)) (tombstones s).

(** The ring: once full, the oldest tombstone is overwritten. *)
Definition add_tombstone (d : Dot) : st Orswot CrdtError () :=
  s ← get;
  if has_tombstone s d then mret () else
  (if bool_decide (length (tombstones s) < max_tombstones s)%nat
   then put (set_tombstones (tombstones s ++ [Some d]) (next_tombstone s) (wrapping_add 32 (tombstone_count s) 1) s)
   else
     lift (assert_ (bool_decide (next_tombstone s < max_tombstones s)%nat));;
     l ← lift (set_at (next_tombstone s) (Some d) (tombstones s));
     put (set_tombstones l ((next_tombstone s + 1) mod max_tombstones s)%nat (tombstone_count s) s));;
  s ← get;
  lift (assert_ (bool_decide (length (tombstones s) ≤ max_tombstones s)%nat)). (* debug_assert! *)

Definition remove_by_dot {E} (d : Dot) : st Orswot E () :=
  s ← get;
  match position (fun e => negb (is_free e) && bool_decide (edot e = d)) (entries s) with
  | None => mret ()
  | Some i =>
    e ← lift (idx (entries s) i);
    put (set_entries (<[i := mkEntry None (edot e)]> (entries s)) (wrapping_sub 32 (set_count s) 1) s)
  end.

(** Whether the element was added or got a newer dot. *)
Definition add (x : T) (d : Dot) : st Orswot CrdtError bool :=
  if actor_id d >=? MAX_ACTORS then throw (InvalidDot (actor_id d) (clock d)) else
  if clock d =? 0 then throw (InvalidDot (actor_id d) 0) else
  s ← get;
  if is_tombstoned s d then mret false else
  match position (is_element x) (entries s) with
  | Some i =>
    e ← lift (idx (entries s) i);
    match Dot.cmp d (edot e) with
    | Gt => put (set_entries (<[i := mkEntry (element e) d]> (entries s)) (set_count s) s);; mret true
    | Eq | Lt => mret false
    end
  | None =>
    if set_count s >=? Z.of_nat (max_elements s) then throw (CapacityExhausted (Z.of_nat (max_elements s))) else
    let entry := mkEntry (Some x) d in
    l ← match position is_free (entries s) with
        | Some i => lift (set_at i entry (entries s))
        | None =>
          lift (assert_ (bool_decide (length (entries s) < max_elements s)%nat));;
          mret (entries s ++ [entry])
        end;
    put (set_entries l (wrapping_add 32 (set_count s) 1) s);;
    s ← get;
    lift (assert_ (contains s x));; (* debug_assert! *)
    mret true
  end.

Definition remove (x : T) (d : Dot) : st Orswot CrdtError bool :=
  if actor_id d >=? MAX_ACTORS then throw (InvalidDot (actor_id d) (clock d)) else
  s ← get;
  match position (is_element x) (entries s) with
  | None => mret false
  | Some i =>
    e ← lift (idx (entries s) i);
    if Dot.geb d (edot e) then
      add_tombstone (edot e);;
      s ← get;
      put (set_entries (<[i := mkEntry None (edot e)]> (entries s)) (wrapping_sub 32 (set_count s) 1) s);;
      s ← get;
      lift (assert_ (negb (contains s x)));; (* debug_assert! *)
      mret true
    else mret false
  end.

Fixpoint merge_tombstones (l : list (option Dot)) : st Orswot CrdtError () :=
  match l with
  | [] => mret ()
  | None :: l => merge_tombstones l
  | Some d :: l =>
    s ← get;
    (if has_tombstone s d then mret () else add_tombstone d);;
    remove_by_dot d;;
    merge_tombstones l
  end.

Fixpoint merge_entries (l : list Entry) : st Orswot CrdtError () :=
  match l with
  | [] => mret ()
  | e :: l =>
    match element e with
    | None => merge_entries l
    | Some x =>
      s ← get;
      if is_tombstoned s (edot e) then merge_entries l
      else add x (edot e);; merge_entries l
    end
  end.

Definition merge (other : Orswot) : st Orswot CrdtError () :=
  merge_tombstones (tombstones other);;
  merge_entries (entries other).

(** [snapshot], before it is sorted. *)
Definition pairs (s : Orswot) : list (T * Dot) :=
  omap (fun e => (fun x => (x, edot e)) <$> element e) (entries s).

(** [write_elements_to]: at most as many as the buffer takes. *)
Definition write_elements_to (s : Orswot) (buffer : nat) : list (T * Dot) :=
  take (Nat.min buffer (length (entries s))) (pairs s).

Definition write_tombstones_to (s : Orswot) (buffer : nat) : list Dot :=
  take (Nat.min buffer (length (tombstones s))) (omap id (tombstones s)).

End orswot.

Arguments Entry T : clear implicits.
Arguments Orswot T : clear implicits.
End Orswot.
