(* ===== verification/OrswotProofs.v ===== *)
(** * The observed-remove set: invariant and behaviour

    Every operation keeps the set well formed and says exactly what it did;
    no assertion of [orswot.rs] fails. A merge does not make replicas agree:
    a tombstone hides the older adds of its actor. *)

From S2P Require Import Prelude Wp Crdt Orswot.

Module OrswotProofs.
Import Orswot.

(** Replacing an entry of a list replaces what it maps to. *)
Lemma omap_insert {A B} (f : A → option B) l i a b : l !! i = Some a →
  ∃ rest, omap f l ≡ₚ option_list (f a) ++ rest ∧ omap f (<[i := b]> l) ≡ₚ option_list (f b) ++ rest.
Proof.
  intros Hi. assert (Hlt : (i < length l)%nat) by (by eapply lookup_lt_Some).
  exists (omap f (take i l) ++ omap f (drop (S i) l)).
  assert (Hcons : ∀ c, omap f (take i l ++ c :: drop (S i) l) ≡ₚ option_list (f c) ++ omap f (take i l) ++ omap f (drop (S i) l)).
  { intros c. rewrite omap_app. cbn [omap list_omap]. change (list_omap _ _ f) with (omap (M:=list) f).
    destruct (f c); cbn; [by rewrite <- Permutation_middle|done]. }
  split; [|rewrite (insert_take_drop l i b) by done; apply Hcons].
  rewrite <- (take_drop_middle l i a Hi) at 1. apply Hcons.
Qed.

Lemma NoDup_insert_new {A} (l : list A) i x : NoDup l → x ∉ l → NoDup (<[i := x]> l).
Proof.
  rewrite !NoDup_alt. intros Hn Hx j k y. rewrite !list_lookup_insert_Some.
  intros [(<- & <- & _)|[Hj Hy]] [(<- & ? & _)|[Hk Hy']]; subst; try done.
  - exfalso. apply Hx. by eapply list_elem_of_lookup_2.
  - exfalso. apply Hx. by eapply list_elem_of_lookup_2.
  - by eapply Hn.
Qed.

Section orswot.
Context {T : Type} `{EqDecision T}.
Implicit Types (s : Orswot T) (x y : T) (d : Dot).

Definition pair_of (e : Entry T) : option (T * Dot) := (fun x => (x, edot e)) <$> element e.

Record wf s : Prop := {
  wf_max : (0 < max_elements s ≤ MAX_ELEMENTS)%nat;
  wf_len : (length (entries s) ≤ max_elements s)%nat;
  wf_nodup : NoDup (pairs s).*1;
  wf_count : set_count s = Z.of_nat (length (pairs s));
  wf_tmax : max_tombstones s = Nat.min (2 * max_elements s) MAX_TOMBSTONES;
  wf_tlen : (length (tombstones s) ≤ max_tombstones s)%nat;
  wf_tnext : (next_tombstone s < max_tombstones s)%nat;
  wf_tcount : tombstone_count s = Z.of_nat (length (tombstones s));
  wf_tnodup : NoDup (tombstones s);
}.

Lemma wf_with_capacity {E} n s : with_capacity (E:=E) n = Ok s → wf s ∧ pairs s = [] ∧ tombstones s = [] ∧ max_elements s = n.
Proof.
  unfold with_capacity. case_bool_decide; [|done]. cbn. intros [= <-]. split; [|done].
  split; cbn; try done; try lia; try constructor. unfold MAX_TOMBSTONES. lia.
Qed.

Lemma max_bound s : wf s → Z.of_nat (max_elements s) < 2 ^ 32 ∧ Z.of_nat (max_tombstones s) < 2 ^ 32.
Proof. intros Hwf. rewrite (wf_tmax _ Hwf). pose proof (wf_max _ Hwf). unfold MAX_ELEMENTS, MAX_TOMBSTONES in *. lia. Qed.

Lemma pairs_length s : (length (pairs s) ≤ length (entries s))%nat.
Proof. unfold pairs. induction (entries s) as [|[[x|] d] l IH]; cbn; lia. Qed.

Lemma elements_pairs s : elements s = (pairs s).*1.
Proof.
  unfold elements, pairs. induction (entries s) as [|[[x|] d] l IH]; cbn; [done| |done]. by f_equal.
Qed.

(** ** Looking for an element *)

Lemma find_element s x :
  match position (is_element x) (entries s) with
  | Some i => ∃ d, entries s !! i = Some (mkEntry (Some x) d) ∧ (x, d) ∈ pairs s ∧ contains s x = true
  | None => x ∉ (pairs s).*1 ∧ contains s x = false
  end.
Proof.
  unfold contains, pairs. induction (entries s) as [|[o d] l IH]; cbn; [by split; [set_solver|]|].
  unfold is_element at 1 3 5. cbn. case_bool_decide as Ho; [subst o; cbn; eexists; split; [done|]; split; [left|done]|].
  destruct (position (is_element x) l) as [i|]; cbn.
  - destruct IH as (d' & Hi & Hin & Hc). exists d'. split; [done|]. split; [|done]. destruct o; cbn; [by right|done].
  - destruct IH as [Hn Hc]. split; [|done]. destruct o as [y|]; cbn; [|done]. rewrite not_elem_of_cons. split; [congruence|done].
Qed.

Lemma contains_pairs s x : contains s x = true ↔ x ∈ (pairs s).*1.
Proof.
  pose proof (find_element s x) as H. destruct (position _ _) as [i|].
  - destruct H as (d & _ & Hin & ->). split; [|done]. intros _. apply list_elem_of_fmap. by exists (x, d).
  - destruct H as [Hn ->]. done.
Qed.

Lemma free_slot s : wf s → position is_free (entries s) = None → length (pairs s) = length (entries s).
Proof.
  intros _. unfold pairs. induction (entries s) as [|[[x|] d] l IH]; cbn; [done| |done].
  destruct (position is_free l); [done|]. intros _. by rewrite IH.
Qed.

Lemma position_free s i : position is_free (entries s) = Some i → ∃ d, entries s !! i = Some (mkEntry None d).
Proof.
  intros Hp. apply position_Some in Hp as [(e & He & Hf) _]. exists (edot e). rewrite He. destruct e as [o d].
  unfold is_free in Hf. cbn in *. apply bool_decide_eq_true in Hf as ->. done.
Qed.

(** ** Replacing an entry *)

Lemma set_entries_wf s i e e' n : wf s → entries s !! i = Some e →
  NoDup (option_list (element e') ++ filter (fun y => Some y ≠ element e) (pairs s).*1) →
  n = set_count s - Z.of_nat (length (option_list (element e))) + Z.of_nat (length (option_list (element e'))) →
  wf (set_entries (<[i := e']> (entries s)) n s) ∧
  (∀ p, p ∈ pairs (set_entries (<[i := e']> (entries s)) n s) ↔
        pair_of e' = Some p ∨ p ∈ pairs s ∧ Some p.1 ≠ element e).
Proof.
  intros Hwf Hi Hnd Hn. destruct (omap_insert pair_of (entries s) i e e' Hi) as (rest & Hr & Hr').
  change (omap pair_of (entries s)) with (pairs s) in Hr.
  set (s' := set_entries _ _ _). change (pairs s' ≡ₚ option_list (pair_of e') ++ rest) in Hr'.
  assert (Hrest : ∀ p, p ∈ rest ↔ p ∈ pairs s ∧ Some p.1 ≠ element e).
  { pose proof (wf_nodup _ Hwf) as Hd. rewrite Hr, fmap_app, NoDup_app in Hd. destruct Hd as (_ & Hd & _).
    intros p. rewrite Hr, elem_of_app. unfold pair_of in *. destruct e as [[x|] d]; cbn in *; [|naive_solver set_solver].
    rewrite list_elem_of_singleton. specialize (Hd x ltac:(left)). split.
    - intros Hp. split; [by right|]. intros [= <-]. apply Hd. apply list_elem_of_fmap. eauto.
    - intros [[->|Hp] Hne]; done. }
  assert (Hfst : rest.*1 ≡ₚ filter (fun y => Some y ≠ element e) (pairs s).*1).
  { pose proof (wf_nodup _ Hwf) as Hd. pose proof Hd as Hd2. rewrite Hr, fmap_app, NoDup_app in Hd2.
    apply NoDup_Permutation; [apply Hd2|by apply NoDup_filter|]. intros y. rewrite list_elem_of_filter, !list_elem_of_fmap.
    setoid_rewrite Hrest. naive_solver. }
  split; [|intros p; rewrite Hr', elem_of_app, Hrest; destruct (pair_of e'); cbn; rewrite ?list_elem_of_singleton; naive_solver set_solver].
  destruct Hwf. split; try done.
  - cbn. by rewrite length_insert.
  - rewrite Hr', fmap_app, Hfst. unfold pair_of. by destruct (element e').
  - rewrite Hr', length_app. change (set_count s') with n. rewrite Hr, length_app in wf_count0. unfold pair_of in *.
    destruct (element e), (element e'); cbn in *; lia.
Qed.

(** ** Tombstones *)

Lemma has_tombstone_spec s d : has_tombstone s d = true ↔ Some d ∈ tombstones s.
Proof.
  unfold has_tombstone. rewrite existsb_exists. setoid_rewrite bool_decide_eq_true.
  setoid_rewrite <- list_elem_of_In. naive_solver.
Qed.

(** What [add_tombstone] leaves alone, and the ring after it. *)
Record buried d s s' : Prop := {
  buried_entries : entries s' = entries s;
  buried_count : set_count s' = set_count s;
  buried_max : max_elements s' = max_elements s;
  buried_new : Some d ∈ tombstones s';
  buried_old : ∀ o, o ∈ tombstones s' → o = Some d ∨ o ∈ tombstones s;
  buried_len : (length (tombstones s') ≤ S (length (tombstones s)))%nat;
  buried_room : (length (tombstones s) < max_tombstones s)%nat → ∀ o, o ∈ tombstones s → o ∈ tombstones s';
}.

Lemma add_tombstone_ok s d (Q : () → Orswot T → Prop) X : wf s → (∀ s', wf s' → buried d s s' → Q () s') →
  wp (add_tombstone d) s Q X.
Proof.
  intros Hwf HQ. pose proof (max_bound _ Hwf) as [_ Hb]. pose proof Hwf as [_ _ _ _ _ Htl Htn Htc Htd].
  unfold add_tombstone. wp. destruct (has_tombstone s d) eqn:Hh.
  { wp. apply HQ; [done|]. split; [done..|by apply has_tombstone_spec|auto|lia|auto]. }
  assert (Hn : Some d ∉ tombstones s) by (rewrite <- has_tombstone_spec, Hh; done). wp. case_bool_decide as Hr.
  - wp. apply wp_assert; [apply bool_decide_eq_true; cbn; rewrite length_app; cbn; lia|]. apply HQ.
    + destruct Hwf. split; try done; cbn; rewrite ?length_app; cbn.
      * lia.
      * rewrite Htc. unfold wrapping_add. rewrite wrap_small; [lia|split; lia].
      * apply NoDup_app. split; [done|]. split; [set_solver|apply NoDup_singleton].
    + split; cbn; try done; [set_solver|set_solver|rewrite length_app; cbn; lia|set_solver].
  - wp. apply wp_assert; [by apply bool_decide_eq_true|]. wp.
    eapply wp_lift_ok; [unfold set_at; by rewrite decide_True by lia|]. wp.
    apply wp_assert; [apply bool_decide_eq_true; cbn; rewrite length_insert; lia|]. apply HQ.
    + destruct Hwf. split; try done; cbn; rewrite ?length_insert; try done.
      * apply Nat.mod_upper_bound. lia.
      * by apply NoDup_insert_new.
    + split; cbn; try done.
      * eapply list_elem_of_lookup_2. apply list_lookup_insert_eq. lia.
      * intros o (j & Hj)%list_elem_of_lookup. apply list_lookup_insert_Some in Hj as [(_ & <- & _)|[_ Hj]]; [by left|].
        right. by eapply list_elem_of_lookup_2.
      * rewrite length_insert. lia.
Qed.

(** ** Adding *)

(** Exactly what [add] does, by its result. *)
Definition add_result x d s (r : bool) s' : Prop :=
  wf s' ∧ tombstones s' = tombstones s ∧ max_elements s' = max_elements s ∧
  if r then is_tombstoned s d = false ∧ (∀ e, (x, e) ∈ pairs s → Dot.cmp d e = Gt) ∧
            ∀ p, p ∈ pairs s' ↔ p = (x, d) ∨ p ∈ pairs s ∧ p.1 ≠ x
  else s' = s ∧ (is_tombstoned s d = true ∨ ∃ e, (x, e) ∈ pairs s ∧ Dot.cmp d e ≠ Gt).

Definition add_failure x d s (e : CrdtError) : Prop :=
  match e with
  | InvalidDot _ _ => MAX_ACTORS ≤ actor_id d ∨ clock d = 0
  | CapacityExhausted n => x ∉ (pairs s).*1 ∧ n = Z.of_nat (max_elements s) ∧ length (pairs s) = max_elements s
  | _ => False
  end.

Lemma pairs_unique s x d e : wf s → (x, d) ∈ pairs s → (x, e) ∈ pairs s → d = e.
Proof.
  intros Hwf Hd He. apply list_elem_of_lookup in Hd as [i Hi], He as [j Hj].
  assert (i = j) as ->.
  { pose proof (wf_nodup _ Hwf) as Hn. rewrite NoDup_alt in Hn. eapply Hn; rewrite list_lookup_fmap; [rewrite Hi|rewrite Hj]; done. }
  congruence.
Qed.

Lemma pushed_wf s x d : wf s → x ∉ (pairs s).*1 → (length (entries s) < max_elements s)%nat →
  let s' := set_entries (entries s ++ [mkEntry (Some x) d]) (set_count s + 1) s in
  wf s' ∧ ∀ p, p ∈ pairs s' ↔ p = (x, d) ∨ p ∈ pairs s ∧ p.1 ≠ x.
Proof.
  intros Hwf Hx Hl s'. assert (Hp : pairs s' = pairs s ++ [(x, d)]) by (unfold pairs; cbn; by rewrite omap_app).
  split.
  - destruct Hwf. split; try done; rewrite ?Hp; cbn.
    + rewrite length_app. cbn. lia.
    + rewrite fmap_app. apply NoDup_app. split; [done|]. cbn. split; [|apply NoDup_singleton].
      intros y Hy ->%list_elem_of_singleton. done.
    + rewrite length_app. cbn. lia.
  - intros p. rewrite Hp, elem_of_app, list_elem_of_singleton. split; [|naive_solver]. intros [Hin| ->]; [|by left].
    right. split; [done|]. intros <-. apply Hx. apply list_elem_of_fmap. eauto.
Qed.

Lemma pairs_count s : wf s → 0 ≤ set_count s ≤ Z.of_nat (max_elements s).
Proof. intros Hwf. rewrite (wf_count _ Hwf). pose proof (pairs_length s). pose proof (wf_len _ Hwf). lia. Qed.

Lemma fresh_filter (l : list T) x (P : T → Prop) `{!∀ y, Decision (P y)} : x ∉ l → NoDup l → NoDup (x :: filter P l).
Proof. intros Hx Hn. apply NoDup_cons. split; [|by apply NoDup_filter]. rewrite list_elem_of_filter. tauto. Qed.

Lemma add_new_ok s x d (Q : bool → Orswot T → Prop) (X : CrdtError → Orswot T → Prop) : wf s → x ∉ (pairs s).*1 →
  is_tombstoned s d = false → set_count s < Z.of_nat (max_elements s) →
  (∀ s', add_result x d s true s' → Q true s') →
  wp (l ← match position is_free (entries s) with
          | Some i => lift (set_at i (mkEntry (Some x) d) (entries s))
          | None => lift (assert_ (bool_decide (length (entries s) < max_elements s)%nat));; mret (entries s ++ [mkEntry (Some x) d])
          end;
      put (set_entries l (wrapping_add 32 (set_count s) 1) s);; s ← get; lift (assert_ (contains s x));; mret true) s Q X.
Proof.
  intros Hwf Hx Ht Hc HQ. pose proof (pairs_count s Hwf) as Hcnt. destruct (max_bound s Hwf) as [Hmax _].
  assert (Hw : wrapping_add 32 (set_count s) 1 = set_count s + 1) by (apply wrap_small; split; lia). rewrite Hw.
  assert (Hfin : ∀ l, (let s' := set_entries l (set_count s + 1) s in wf s' ∧ ∀ p, p ∈ pairs s' ↔ p = (x, d) ∨ p ∈ pairs s ∧ p.1 ≠ x) →
    wp (put (set_entries l (set_count s + 1) s);; s ← get; lift (assert_ (contains s x));; mret true) s Q X).
  { intros l [Hwf' Hp]. wp. apply wp_assert; [apply contains_pairs, list_elem_of_fmap; exists (x, d); split; [done|]; apply Hp; by left|].
    wp. apply HQ. split; [done|]. split; [done|]. split; [done|]. split; [done|]. split; [|done].
    intros e He. exfalso. apply Hx, list_elem_of_fmap. by exists (x, e). }
  apply wp_bind. destruct (position is_free (entries s)) as [i|] eqn:Hf.
  - destruct (position_free _ _ Hf) as (d' & Hi). eapply wp_lift_ok; [unfold set_at; rewrite decide_True by (by eapply lookup_lt_Some); done|].
    apply Hfin. destruct (set_entries_wf s i _ (mkEntry (Some x) d) (set_count s + 1) Hwf Hi) as [Hwf' Hp]; cbn; [|lia|].
    + apply fresh_filter; [done|apply Hwf].
    + split; [done|]. intros p. rewrite Hp. cbn. split; [intros [[= <-]|[Hin _]]; [by left|]|intros [->|[? _]]; [by left|by right]].
      right. split; [done|]. intros <-. apply Hx, list_elem_of_fmap. eauto.
  - assert (Hl : (length (entries s) < max_elements s)%nat).
    { rewrite <- (free_slot s Hwf Hf). rewrite (wf_count _ Hwf) in Hc. lia. }
    apply wp_bind, wp_assert; [by apply bool_decide_eq_true|]. apply wp_ret, Hfin. by apply pushed_wf.
Qed.

Lemma add_ok s x d : wf s → wp (add x d) s (fun r s' => add_result x d s r s') (fun e s' => s' = s ∧ add_failure x d s e).
Proof.
  intros Hwf. unfold add. rewrite Z.geb_leb. destruct (Z.leb_spec MAX_ACTORS (actor_id d)); [wp; split; [done|by left]|].
  destruct (Z.eqb_spec (clock d) 0); [wp; split; [done|by right]|]. wp.
  destruct (is_tombstoned s d) eqn:Ht; [wp; do 3 (split; [done|]); split; [done|by left]|].
  pose proof (find_element s x) as Hfind. destruct (position (is_element x) (entries s)) as [i|].
  - destruct Hfind as (e & Hi & Hin & _). wp. eapply wp_lift_ok; [unfold idx; by rewrite Hi|]. cbn [edot element].
    assert (Hno : Dot.cmp d e ≠ Gt → add_result x d s false s) by (do 3 (split; [done|]); split; [done|right; eauto]).
    destruct (Dot.cmp d e) eqn:Hc; wp; [by apply Hno..|].
    destruct (set_entries_wf s i _ (mkEntry (Some x) d) (set_count s) Hwf Hi) as [Hwf' Hp]; cbn.
    + apply NoDup_cons. split; [rewrite list_elem_of_filter; naive_solver|]. apply NoDup_filter, Hwf.
    + lia.
    + split; [done|]. split; [done|]. split; [done|]. split; [done|]. split; [intros e' He'; by rewrite <- (pairs_unique s x e e')|].
      intros p. rewrite Hp. cbn. split; (intros [Hl|[H1 H2]]; [left|right; split; [done|]]); congruence.
  - destruct Hfind as [Hn _]. rewrite Z.geb_leb. destruct (Z.leb_spec (Z.of_nat (max_elements s)) (set_count s)).
    + wp. split; [done|]. split; [done|]. split; [done|]. pose proof (pairs_count s Hwf). rewrite (wf_count _ Hwf) in *. lia.
    + by apply add_new_ok.
Qed.

(** ** Removing *)

Definition remove_result x d s (r : bool) s' : Prop :=
  wf s' ∧ max_elements s' = max_elements s ∧
  if r then ∃ e, (x, e) ∈ pairs s ∧ Dot.geb d e = true ∧ Some e ∈ tombstones s' ∧
            (∀ o, o ∈ tombstones s' → o = Some e ∨ o ∈ tombstones s) ∧
            ∀ p, p ∈ pairs s' ↔ p ∈ pairs s ∧ p.1 ≠ x
  else s' = s ∧ ∀ e, (x, e) ∈ pairs s → Dot.geb d e = false.

(** Freeing the slot of an element. *)
Lemma freed_wf s i x d : wf s → entries s !! i = Some (mkEntry (Some x) d) →
  let s' := set_entries (<[i := mkEntry None d]> (entries s)) (wrapping_sub 32 (set_count s) 1) s in
  wf s' ∧ ∀ p, p ∈ pairs s' ↔ p ∈ pairs s ∧ p.1 ≠ x.
Proof.
  intros Hwf Hi s'. destruct (max_bound s Hwf) as [Hmax _]. pose proof (pairs_count s Hwf) as Hcnt.
  assert (Hin : (x, d) ∈ pairs s).
  { apply list_elem_of_omap. exists (mkEntry (Some x) d). split; [by eapply list_elem_of_lookup_2|done]. }
  assert (Hpos : 1 ≤ set_count s).
  { rewrite (wf_count _ Hwf). destruct (pairs s); [by apply not_elem_of_nil in Hin|cbn; lia]. }
  assert (Hw : wrapping_sub 32 (set_count s) 1 = set_count s - 1) by (apply wrap_small; split; lia).
  destruct (set_entries_wf s i _ (mkEntry None d) (wrapping_sub 32 (set_count s) 1) Hwf Hi) as [Hwf' Hp]; cbn; [|lia|].
  - apply NoDup_filter, Hwf.
  - split; [done|]. intros p. unfold s'. rewrite Hp. cbn. naive_solver.
Qed.

Lemma remove_ok s x d : wf s → wp (remove x d) s (fun r s' => remove_result x d s r s')
  (fun e s' => s' = s ∧ e = InvalidDot (actor_id d) (clock d) ∧ MAX_ACTORS ≤ actor_id d).
Proof.
  intros Hwf. unfold remove. rewrite Z.geb_leb. destruct (Z.leb_spec MAX_ACTORS (actor_id d)); [by wp|]. wp.
  pose proof (find_element s x) as Hfind. destruct (position (is_element x) (entries s)) as [i|].
  2: { destruct Hfind as [Hn _]. wp. split; [done|]. split; [done|]. split; [done|]. intros e He. exfalso.
       apply Hn, list_elem_of_fmap. by exists (x, e). }
  destruct Hfind as (e & Hi & Hin & _). wp. eapply wp_lift_ok; [unfold idx; by rewrite Hi|]. cbn [edot].
  destruct (Dot.geb d e) eqn:Hg; wp.
  2: { split; [done|]. split; [done|]. split; [done|]. intros e' He'. by rewrite <- (pairs_unique s x e e'). }
  apply add_tombstone_ok; [done|]. intros s1 Hwf1 [He1 _ Hm1 Hnew Hold _ _]. wp.
  rewrite <- He1 in Hi. destruct (freed_wf s1 i x e Hwf1 Hi) as [Hwf2 Hp].
  apply wp_assert.
  { apply negb_true_iff, not_true_iff_false. rewrite contains_pairs. intros ([y e'] & -> & Hy)%list_elem_of_fmap.
    by apply Hp in Hy as [_ ?]. }
  wp. assert (Hps : pairs s1 = pairs s) by (unfold pairs; by rewrite He1).
  split; [exact Hwf2|]. split; [done|]. exists e. rewrite <- Hps. do 4 (split; [by rewrite ?Hps|]). exact Hp.
Qed.

Lemma remove_by_dot_ok {E} s d (Q : () → Orswot T → Prop) (X : E → Orswot T → Prop) : wf s →
  (∀ s', wf s' → tombstones s' = tombstones s → max_elements s' = max_elements s → max_tombstones s' = max_tombstones s →
     (∀ p, p ∈ pairs s' → p ∈ pairs s) → (∀ p, p ∈ pairs s → p.2 ≠ d → p ∈ pairs s') →
     (NoDup (pairs s).*2 → d ∉ (pairs s').*2) → Q () s') →
  wp (remove_by_dot d) s Q X.
Proof.
  intros Hwf HQ. unfold remove_by_dot. wp. destruct (position _ (entries s)) as [i|] eqn:Hp.
  - apply position_Some in Hp as [([o e] & Hi & Hb) _]. unfold is_free in Hb. cbn in Hb. wp.
    eapply wp_lift_ok; [unfold idx; by rewrite Hi|]. destruct o as [x|]; [|by rewrite bool_decide_eq_true_2 in Hb].
    apply andb_true_iff in Hb as [_ Hb%bool_decide_eq_true]. subst e.
    assert (Hin : (x, d) ∈ pairs s) by (apply list_elem_of_omap; eexists; split; [by eapply list_elem_of_lookup_2|done]).
    wp. destruct (freed_wf s i x d Hwf Hi) as [Hwf' Hps]. apply HQ; try done.
    + intros p Hpp. apply Hps in Hpp. tauto.
    + intros p Hpp Hne. apply Hps. split; [done|]. intros <-. apply Hne. destruct p as [y e]. by apply (pairs_unique s y e d).
    + intros Hnd ([y e] & -> & Hy)%list_elem_of_fmap. apply Hps in Hy as [Hy Hne]. cbn in *. apply Hne.
      apply list_elem_of_lookup in Hy as [j Hj], Hin as [k Hk]. rewrite NoDup_alt in Hnd.
      assert (j = k) as -> by (eapply (Hnd j k e); rewrite list_lookup_fmap; [rewrite Hj|rewrite Hk]; done). congruence.
  - wp. apply HQ; try done. intros _ ([x e] & -> & Hx)%list_elem_of_fmap. cbn in *.
    apply list_elem_of_omap in Hx as ([o e'] & He & Hpe). destruct o as [y|]; [|done]. cbn in Hpe. injection Hpe as -> ->.
    apply list_elem_of_lookup in He as [j Hj]. rewrite position_None in Hp. specialize (Hp _ _ Hj).
    unfold is_free in Hp. cbn in Hp. by rewrite bool_decide_eq_true_2 in Hp.
Qed.

(** ** Merging *)

(** Every dot tags one element. *)
Definition dots_unique s : Prop := NoDup (pairs s).*2.

Lemma dots_unique_sub s s' : wf s' → (∀ p, p ∈ pairs s' → p ∈ pairs s) → dots_unique s → dots_unique s'.
Proof.
  intros Hwf Hsub Hu. unfold dots_unique in *. rewrite NoDup_alt in *. intros i j d Hi Hj.
  rewrite list_lookup_fmap in Hi, Hj. apply fmap_Some in Hi as ([x d1] & Hi & ->), Hj as ([y d2] & Hj & Hd). cbn in Hd. subst d2.
  assert (x = y) as <-.
  { pose proof (Hsub _ (list_elem_of_lookup_2 _ _ _ Hi)) as Hx. pose proof (Hsub _ (list_elem_of_lookup_2 _ _ _ Hj)) as Hy.
    apply list_elem_of_lookup in Hx as [k Hk], Hy as [l Hl].
    assert (k = l) as -> by (eapply (Hu k l d1); rewrite list_lookup_fmap; [rewrite Hk|rewrite Hl]; done). congruence. }
  pose proof (wf_nodup _ Hwf) as Hn. rewrite NoDup_alt in Hn. eapply (Hn i j x); rewrite list_lookup_fmap; [rewrite Hi|rewrite Hj]; done.
Qed.

Lemma same_tmax s s' : wf s → wf s' → max_elements s' = max_elements s → max_tombstones s' = max_tombstones s.
Proof. intros Hwf Hwf' Hm. by rewrite (wf_tmax _ Hwf), (wf_tmax _ Hwf'), Hm. Qed.

(** The tombstones in [l] are in [s'] and no element of it has their dots. *)
Definition buried_all (l : list (option Dot)) s s' : Prop :=
  (length (tombstones s) + length l ≤ max_tombstones s)%nat → dots_unique s →
  (∀ o, o ∈ tombstones s → o ∈ tombstones s') ∧ (∀ d, Some d ∈ l → Some d ∈ tombstones s' ∧ d ∉ (pairs s').*2).

Lemma buried_all_cons d l s s1 s2 s' : wf s → wf s1 → buried d s s1 → wf s2 → tombstones s2 = tombstones s1 →
  max_elements s2 = max_elements s1 → (∀ p, p ∈ pairs s2 → p ∈ pairs s1) → (dots_unique s1 → d ∉ (pairs s2).*2) →
  (∀ p, p ∈ pairs s' → p ∈ pairs s2) → buried_all l s2 s' → buried_all (Some d :: l) s s'.
Proof.
  intros Hwf Hwf1 [He _ Hm Hnew _ Hlen Hroom] Hwf2 Ht Hm2 Hsub Hd Hsub' Hall Hr Hu. cbn in Hr.
  assert (Hps : pairs s1 = pairs s) by (unfold pairs; by rewrite He).
  pose proof (same_tmax _ _ Hwf Hwf1 Hm) as Htm1. pose proof (same_tmax _ _ Hwf1 Hwf2 Hm2) as Htm2.
  assert (Hu1 : dots_unique s1) by (unfold dots_unique; by rewrite Hps).
  destruct Hall as [Hkeep Hnew']; [rewrite Ht, Htm2, Htm1; lia|by eapply dots_unique_sub|]. rewrite Ht in Hkeep.
  split; [intros o Ho; apply Hkeep, Hroom; [lia|done]|]. intros e [[= ->]|He']%elem_of_cons; [|auto].
  split; [by apply Hkeep|]. intros Hin. apply (Hd Hu1). apply list_elem_of_fmap in Hin as (p & -> & Hp).
  apply list_elem_of_fmap. eauto.
Qed.

Lemma merge_tombstones_ok l : ∀ s (Q : () → Orswot T → Prop) X, wf s →
  (∀ s', wf s' → max_elements s' = max_elements s → (∀ p, p ∈ pairs s' → p ∈ pairs s) →
     (∀ o, o ∈ tombstones s' → o ∈ tombstones s ∨ o ∈ l) → buried_all l s s' → Q () s') →
  wp (merge_tombstones l) s Q X.
Proof.
  induction l as [|[d|] l IH]; intros s Q X Hwf HQ; cbn [merge_tombstones].
  - wp. apply HQ; try done; [by left|]. intros _ _. split; [done|]. by intros d ?%not_elem_of_nil.
  - apply wp_bind, wp_get, wp_bind. eapply (wp_mono _ _ (fun _ s1 => wf s1 ∧ buried d s s1)).
    { destruct (has_tombstone s d) eqn:Hh; [|by apply add_tombstone_ok].
      wp. split; [done|]. split; [done..|by apply has_tombstone_spec|auto|lia|auto]. }
    intros [] s1 [Hwf1 Hb]. wp. apply remove_by_dot_ok; [done|]. intros s2 Hwf2 Ht Hm2 _ Hsub _ Hd.
    apply IH; [done|]. intros s' Hwf' Hm' Hsub' Hold Hall. pose proof Hb as [He _ Hm1 _ Hb1 _ _].
    assert (Hps : pairs s1 = pairs s) by (unfold pairs; by rewrite He).
    apply HQ; [done|congruence|intros p Hp; rewrite <- Hps; auto| |].
    { intros o Ho. rewrite elem_of_cons. destruct (Hold o Ho) as [Ho1|]; [|auto]. rewrite Ht in Ho1. destruct (Hb1 o Ho1); auto. }
    by apply (buried_all_cons d l s s1 s2).
  - apply IH; [done|]. intros s' Hwf' Hm Hsub Hold Hall.
    apply HQ; try done; [intros o Ho; rewrite elem_of_cons; destruct (Hold o Ho); auto|]. intros Hr Hu. cbn in Hr.
    destruct Hall as [Hk Hn]; [lia|done|]. split; [done|]. intros d [?|?]%elem_of_cons; [done|auto].
Qed.

(** What merging entries adds. *)
Definition absorbed (l : list (Entry T)) s s' : Prop :=
  wf s' ∧ tombstones s' = tombstones s ∧ max_elements s' = max_elements s ∧
  ∀ p, p ∈ pairs s' → p ∈ pairs s ∨ p ∈ omap pair_of l ∧ is_tombstoned s p.2 = false.

Lemma is_tombstoned_ext s s' d : tombstones s' = tombstones s → is_tombstoned s' d = is_tombstoned s d.
Proof. unfold is_tombstoned. by intros ->. Qed.

Lemma absorbed_cons e l s s1 s' : absorbed [e] s s1 → absorbed l s1 s' → absorbed (e :: l) s s'.
Proof.
  intros (_ & Ht1 & Hm1 & Hp1) (Hwf & Ht & Hm & Hp). split; [done|]. split; [congruence|]. split; [congruence|].
  intros p Hin. change (e :: l) with ([e] ++ l). rewrite omap_app, elem_of_app.
  destruct (Hp p Hin) as [H1|[H1 H2]]; [destruct (Hp1 p H1) as [|[]]; auto|]. right. split; [by right|].
  by rewrite <- (is_tombstoned_ext _ _ _ Ht1).
Qed.

Lemma absorbed_refl e s : wf s → absorbed [e] s s.
Proof. intros Hwf. do 3 (split; [done|]). auto. Qed.

Lemma merge_entries_ok l : ∀ s, wf s →
  wp (merge_entries l) s (fun _ s' => absorbed l s s') (fun _ s' => absorbed l s s').
Proof.
  induction l as [|e l IH]; intros s Hwf; cbn [merge_entries]; [wp; do 3 (split; [done|]); auto|].
  assert (Hskip : wp (merge_entries l) s (fun _ s' => absorbed (e :: l) s s') (fun _ s' => absorbed (e :: l) s s')).
  { eapply wp_conseq; [by apply IH|..]; intros; (eapply absorbed_cons; [by apply absorbed_refl|done]). }
  destruct (element e) as [x|] eqn:He; [|done]. wp. destruct (is_tombstoned s (edot e)) eqn:Ht; [done|].
  wp. eapply wp_conseq; [by apply add_ok| |].
  - intros r s1 (Hwf1 & Ht1 & Hm1 & Hr). assert (Hone : absorbed [e] s s1).
    { split; [done|]. split; [done|]. split; [done|]. intros p Hp. destruct r; [|left; by destruct Hr as [-> _]].
      destruct Hr as (_ & _ & Hr). apply Hr in Hp as [->|[? _]]; [right|by left]. split; [|done].
      apply list_elem_of_omap. exists e. split; [left|]. unfold pair_of. by rewrite He. }
    eapply wp_conseq; [by apply IH|..]; intros; by eapply absorbed_cons.
  - intros err s1 [-> _]. do 3 (split; [done|]). auto.
Qed.

(** An element's dot has no tombstone. *)
Definition clean s : Prop := ∀ d, Some d ∈ tombstones s → d ∉ (pairs s).*2.

Lemma tombstoned_self s d : Some d ∈ tombstones s → is_tombstoned s d = true.
Proof.
  intros Hd. apply existsb_exists. exists (Some d). split; [by apply list_elem_of_In|].
  rewrite Z.eqb_refl, Z.geb_leb. apply Z.leb_refl.
Qed.

Lemma merge_ok s other : wf s →
  wp (merge other) s
    (fun _ s' => wf s' ∧ max_elements s' = max_elements s ∧ (∀ p, p ∈ pairs s' → p ∈ pairs s ∨ p ∈ pairs other) ∧
       ((length (tombstones s) + length (tombstones other) ≤ max_tombstones s)%nat → dots_unique s → clean s →
         ∀ d, Some d ∈ tombstones s ∨ Some d ∈ tombstones other → Some d ∈ tombstones s' ∧ d ∉ (pairs s').*2))
    (fun _ s' => wf s' ∧ max_elements s' = max_elements s).
Proof.
  intros Hwf. unfold merge. wp. apply merge_tombstones_ok; [done|]. intros s1 Hwf1 Hm1 Hsub1 _ Hb.
  eapply wp_conseq; [by apply merge_entries_ok| |]; [|intros _ s' (? & _ & ? & _); split; [done|congruence]].
  intros [] s' (Hwf' & Ht & Hm & Hp). split; [done|]. split; [congruence|]. split.
  - intros p Hin. destruct (Hp p Hin) as [?|[? _]]; auto.
  - intros Hr Hu Hc d Hd. destruct (Hb Hr Hu) as [Hk Hn].
    assert (Hd1 : Some d ∈ tombstones s1 ∧ d ∉ (pairs s1).*2).
    { destruct Hd as [Hd|Hd]; [|auto]. split; [by apply Hk|]. intros (p & -> & Hin)%list_elem_of_fmap.
      apply (Hc _ Hd), list_elem_of_fmap. eauto. }
    destruct Hd1 as [Hd1 Hn1]. rewrite Ht. split; [done|]. intros (p & -> & Hin)%list_elem_of_fmap.
    destruct (Hp p Hin) as [Hs|[_ Hnt]]; [apply Hn1, list_elem_of_fmap; eauto|].
    by rewrite (tombstoned_self _ _ Hd1) in Hnt.
Qed.

(** ** Runs *)

Inductive op := Add (x : T) (d : Dot) | Remove (x : T) (d : Dot) | Merge (other : Orswot T).

(** An operation that fails leaves what it changed before. *)
Definition apply_op (o : op) s : outcome () (Orswot T) :=
  let after {A} (r : outcome (CrdtError * Orswot T) (A * Orswot T)) :=
    match r with Ok (_, s') | Err (_, s') => Ok s' | Panic => Panic end in
  match o with
  | Add x d => after (add x d s)
  | Remove x d => after (remove x d s)
  | Merge other => after (merge other s)
  end.

Fixpoint run (ops : list op) s : outcome () (Orswot T) :=
  match ops with
  | [] => Ok s
  | o :: ops => s' ← apply_op o s; run ops s'
  end.

Lemma run_cons o ops s s' : apply_op o s = Ok s' → run (o :: ops) s = run ops s'.
Proof. intros H. cbn [run]. by rewrite H. Qed.

Lemma apply_op_ok o s : wf s → ∃ s', apply_op o s = Ok s' ∧ wf s' ∧ max_elements s' = max_elements s.
Proof.
  intros Hwf. destruct o as [x d|x d|other]; cbn.
  - pose proof (add_ok s x d Hwf) as H. unfold run_to in H. destruct (add x d s) as [[r s']|[e s']|]; [| |done]; eexists; (split; [done|]).
    + destruct H as (? & _ & ? & _). done.
    + destruct H as [-> _]. done.
  - pose proof (remove_ok s x d Hwf) as H. unfold run_to in H. destruct (remove x d s) as [[r s']|[e s']|]; [| |done]; eexists; (split; [done|]).
    + destruct H as (? & ? & _). done.
    + destruct H as [-> _]. done.
  - pose proof (merge_ok s other Hwf) as H. unfold run_to in H. destruct (merge other s) as [[r s']|[e s']|]; [| |done]; eexists; (split; [done|]).
    + destruct H as (? & ? & _). done.
    + done.
Qed.

Lemma op_run_ok ops : ∀ s, wf s → ∃ s', run ops s = Ok s' ∧ wf s' ∧ max_elements s' = max_elements s.
Proof.
  induction ops as [|o ops IH]; intros s Hwf; cbn [run]; [eauto|].
  destruct (apply_op_ok o s Hwf) as (s1 & -> & Hwf1 & Hm1). cbn [mbind outcome_bind].
  destruct (IH s1 Hwf1) as (s2 & -> & Hwf2 & Hm2). exists s2. split; [done|]. split; [done|congruence].
Qed.

Lemma capacity_ok {E} n : (0 < n ≤ MAX_ELEMENTS)%nat → ∃ s, with_capacity (E:=E) (T:=T) n = Ok s.
Proof. intros Hn. unfold with_capacity. rewrite bool_decide_eq_true_2 by done. by eexists. Qed.

(** C35: The set stays well formed through any sequence of adds, removes and
    merges with arbitrary sets, failing ones included: no assertion fails,
    every element is in one slot, the counter is the number of elements and
    never exceeds the capacity, and the ring of tombstones stays within its
    own. *)
Theorem set_stays_well_formed n ops : (0 < n ≤ MAX_ELEMENTS)%nat →
  ∃ s0 s, with_capacity (E:=()) n = Ok s0 ∧ run ops s0 = Ok s ∧
    NoDup (elements s) ∧ len s = Z.of_nat (length (elements s)) ∧ (length (elements s) ≤ n)%nat ∧
    (∀ x, contains s x = true ↔ x ∈ elements s) ∧
    (length (tombstones s) ≤ Nat.min (2 * n) MAX_TOMBSTONES)%nat ∧ tombstone_count s = Z.of_nat (length (tombstones s)).
Proof.
  intros Hn. destruct (capacity_ok (E:=()) n Hn) as (s0 & H0). destruct (wf_with_capacity n s0 H0) as (Hwf0 & _ & _ & Hm0).
  destruct (op_run_ok ops s0 Hwf0) as (s & Hr & Hwf & Hm). exists s0, s. rewrite elements_pairs, length_fmap.
  pose proof (pairs_length s). pose proof Hwf as [_ Hl Hnd Hc Htm Htl _ Htc _].
  split; [done|]. split; [done|]. split; [done|]. split; [done|]. split; [lia|].
  split; [intros x; apply contains_pairs|]. split; [|done]. rewrite Htm in Htl. congruence.
Qed.

(** Adding an element that is not there to a set without tombstones. *)
Lemma add_live x d s : wf s → tombstones s = [] → x ∉ (pairs s).*1 → actor_id d < MAX_ACTORS → clock d ≠ 0 →
  (length (pairs s) < max_elements s)%nat → ∃ s', apply_op (Add x d) s = Ok s' ∧ add_result x d s true s'.
Proof.
  intros Hwf Ht Hx Ha Hc Hl. pose proof (add_ok s x d Hwf) as H. unfold run_to in H. cbn.
  destruct (add x d s) as [[r s']|[e s']|]; [| |done].
  - destruct r; [eauto|]. destruct H as (_ & _ & _ & _ & [H|(e & He & _)]).
    + unfold is_tombstoned in H. by rewrite Ht in H.
    + exfalso. apply Hx, list_elem_of_fmap. by exists (x, e).
  - destruct H as [_ H]. destruct e; cbn in H; try done; [destruct H as (_ & _ & H); lia|lia].
Qed.

(** A set whose tombstones hide all that is left in it passes nothing on. *)
Lemma hidden_merge s other : wf s → pairs s = [] → (∀ o, o ∈ tombstones s → o ∈ tombstones other) →
  (length (tombstones s) + length (tombstones other) ≤ max_tombstones s)%nat →
  (∀ p, p ∈ pairs other → ∃ t, Some t ∈ tombstones other ∧ actor_id t = actor_id p.2 ∧ clock p.2 ≤ clock t) →
  ∃ s', apply_op (Merge other) s = Ok s' ∧ wf s' ∧ max_elements s' = max_elements s ∧ pairs s' = [] ∧
    (∀ o, o ∈ tombstones s' → o ∈ tombstones other).
Proof.
  intros Hwf Hp Ht Hl Hhid. cbn.
  set (G := fun s' => wf s' ∧ max_elements s' = max_elements s ∧ pairs s' = [] ∧ (∀ o, o ∈ tombstones s' → o ∈ tombstones other)).
  assert (Hw : wp (merge other) s (fun _ s' => G s') (fun _ s' => G s')).
  { unfold merge. wp. apply merge_tombstones_ok; [done|]. intros s1 Hwf1 Hm1 Hsub1 Hold Hb.
    destruct Hb as [_ Hb]; [done|unfold dots_unique; rewrite Hp; constructor|].
    assert (Hp1 : pairs s1 = []).
    { destruct (pairs s1) as [|p l] eqn:E; [done|]. specialize (Hsub1 p ltac:(left)). rewrite Hp in Hsub1. by apply not_elem_of_nil in Hsub1. }
    assert (Habs : ∀ s', absorbed (entries other) s1 s' → G s').
    { intros s' (Hwf' & Hts & Hm & Habs). split; [done|]. split; [congruence|]. split; [|rewrite Hts; naive_solver].
      destruct (pairs s') as [|p l] eqn:E; [done|]. exfalso.
      destruct (Habs p ltac:(left)) as [Hin|[Hin Hnt]]; [rewrite Hp1 in Hin; by apply not_elem_of_nil in Hin|].
      destruct (Hhid p Hin) as (t & Hto & Ha & Hc). destruct (Hb t Hto) as [Hts' _].
      apply not_true_iff_false in Hnt. apply Hnt, existsb_exists. exists (Some t). split; [by apply list_elem_of_In|].
      rewrite Ha, Z.eqb_refl, Z.geb_leb. by apply Z.leb_le. }
    eapply wp_conseq; [by apply merge_entries_ok|..]; auto. }
  unfold run_to in Hw. destruct (merge other s) as [[r s']|[e s']|]; [| |done]; exists s'; (split; [done|]); done.
Qed.

Lemma hidden_merges k other : (∀ p, p ∈ pairs other → ∃ t, Some t ∈ tombstones other ∧ actor_id t = actor_id p.2 ∧ clock p.2 ≤ clock t) →
  ∀ s, wf s → pairs s = [] → (∀ o, o ∈ tombstones s → o ∈ tombstones other) → (2 * length (tombstones other) ≤ max_tombstones s)%nat →
  ∃ s', run (replicate k (Merge other)) s = Ok s' ∧ pairs s' = [].
Proof.
  intros Hhid. induction k as [|k IH]; intros s Hwf Hp Ht Hl; cbn [replicate run]; [eauto|].
  assert (Hle : (length (tombstones s) ≤ length (tombstones other))%nat).
  { apply submseteq_length. apply NoDup_submseteq; [apply Hwf|done]. }
  destruct (hidden_merge s other Hwf Hp Ht ltac:(lia) Hhid) as (s1 & -> & Hwf1 & Hm1 & Hp1 & Ht1). cbn [mbind outcome_bind].
  apply IH; try done. by rewrite (same_tmax s s1).
Qed.

(** Removing an element with a dot that is not older. *)
Lemma remove_live x d e s : wf s → (x, e) ∈ pairs s → Dot.geb d e = true → actor_id d < MAX_ACTORS →
  ∃ s', apply_op (Remove x d) s = Ok s' ∧ wf s' ∧ max_elements s' = max_elements s ∧ Some e ∈ tombstones s' ∧
    (∀ o, o ∈ tombstones s' → o = Some e ∨ o ∈ tombstones s) ∧ ∀ p, p ∈ pairs s' ↔ p ∈ pairs s ∧ p.1 ≠ x.
Proof.
  intros Hwf Hin Hg Ha. pose proof (remove_ok s x d Hwf) as H. unfold run_to in H. cbn.
  destruct (remove x d s) as [[[] s']|[e' s']|]; [| | |done].
  - destruct H as (Hwf' & Hm & e' & Hin' & _ & H). rewrite (pairs_unique s x e e') by done. exists s'. split; [done|]. tauto.
  - destruct H as (_ & _ & _ & H). by rewrite (H e Hin) in Hg.
  - destruct H as (_ & _ & H). lia.
Qed.

(** C36: Merging does not make replicas agree, against what the type
    promises: a replica adds [x], then [y], and removes [y]; the tombstone of
    [y] has the actor and a later clock than the add of [x], so a replica
    that merges this set takes [x] for removed. It stays without [x] however
    often it merges, while the first one keeps it. *)
Theorem merge_hides_older_adds n x y a c1 c2 c3 k : (2 ≤ n ≤ MAX_ELEMENTS)%nat → x ≠ y →
  0 ≤ a < MAX_ACTORS → 0 < c1 < c2 → c2 ≤ c3 →
  ∃ s0 s r, with_capacity (E:=()) n = Ok s0 ∧
    run [Add x (mkDot a c1); Add y (mkDot a c2); Remove y (mkDot a c3)] s0 = Ok s ∧ contains s x = true ∧
    run (replicate k (Merge s)) s0 = Ok r ∧ contains r x = false.
Proof.
  intros Hn Hxy Ha Hc Hc3. destruct (capacity_ok (E:=()) n) as (s0 & H0); [lia|].
  destruct (wf_with_capacity n s0 H0) as (Hwf0 & Hp0 & Ht0 & Hm0).
  destruct (add_live x (mkDot a c1) s0) as (s1 & E1 & Hwf1 & Ht1 & Hm1 & _ & _ & Hp1); cbn; try done; try lia.
  { rewrite Hp0. cbn. set_solver. } { rewrite Hp0. cbn. lia. }
  assert (Hp1' : ∀ p, p ∈ pairs s1 ↔ p = (x, mkDot a c1)) by (intros p; rewrite Hp1, Hp0; naive_solver set_solver).
  assert (Hl1 : (length (pairs s1) ≤ 1)%nat).
  { apply (submseteq_length (pairs s1) [(x, mkDot a c1)]), NoDup_submseteq; [apply NoDup_fmap_1 with fst, Hwf1|].
    intros p. rewrite Hp1'. set_solver. }
  destruct (add_live y (mkDot a c2) s1) as (s2 & E2 & Hwf2 & Ht2 & Hm2 & _ & _ & Hp2); cbn; try done; try lia; try congruence.
  { rewrite list_elem_of_fmap. intros (p & -> & Hin). apply Hp1' in Hin. by subst p. }
  assert (Hcmp : Dot.geb (mkDot a c3) (mkDot a c2) = true).
  { unfold Dot.geb, Dot.cmp. cbn. rewrite Z.compare_refl. destruct (Z.compare_spec c3 c2); [done|lia|done]. }
  destruct (remove_live y (mkDot a c3) (mkDot a c2) s2) as (s & E3 & Hwf3 & Hm3 & Hnew & Hold & Hp3); cbn; try done; try lia.
  { apply Hp2. by left. }
  assert (Hp : ∀ p, p ∈ pairs s ↔ p = (x, mkDot a c1)).
  { intros p. rewrite Hp3, Hp2, Hp1'. split; [intros [[->|[-> _]] Hne]; done|]. intros ->. split; [by right|done]. }
  assert (Ht : ∀ o, o ∈ tombstones s ↔ o = Some (mkDot a c2)).
  { intros o. split; [|by intros ->]. intros [->|Ho]%Hold; [done|]. rewrite Ht2, Ht1, Ht0 in Ho. by apply not_elem_of_nil in Ho. }
  assert (Hl : (length (tombstones s) ≤ 1)%nat).
  { apply (submseteq_length (tombstones s) [Some (mkDot a c2)]), NoDup_submseteq; [apply Hwf3|].
    intros o. rewrite Ht. set_solver. }
  destruct (hidden_merges k s) with s0 as (r & Hr & Hpr); [|done|done| | |].
  - intros p ->%Hp. exists (mkDot a c2). split; [by apply Ht|]. cbn. lia.
  - rewrite Ht0. by intros o ?%not_elem_of_nil.
  - rewrite (wf_tmax _ Hwf0), Hm0. unfold MAX_TOMBSTONES. lia.
  - exists s0, s, r. split; [done|]. split; [|split; [|split; [done|]]].
    + transitivity (run [Add x (mkDot a c1); Add y (mkDot a c2); Remove y (mkDot a c3)] s0); [done|].
      by rewrite (run_cons _ _ _ _ E1), (run_cons _ _ _ _ E2), (run_cons _ _ _ _ E3).
    + apply contains_pairs, list_elem_of_fmap. exists (x, mkDot a c1). split; [done|]. by apply Hp.
    + apply not_true_iff_false. rewrite contains_pairs, Hpr. by apply not_elem_of_nil.
Qed.

End orswot.

Definition sample_ops : list (op (T:=Z)) :=
  [Add 7 (mkDot 1 5); Add 8 (mkDot 1 6); Add 9 (mkDot 2 1); Remove 7 (mkDot 1 9); Add 9 (mkDot 300 1); Add 7 (mkDot 1 5)].

Lemma set_stays_well_formed_witness :
  ∃ s0 s, with_capacity (E:=()) (T:=Z) 2 = Ok s0 ∧ run sample_ops s0 = Ok s ∧
    NoDup (elements s) ∧ len s = Z.of_nat (length (elements s)) ∧ (length (elements s) ≤ 2)%nat ∧
    (∀ x, contains s x = true ↔ x ∈ elements s) ∧
    (length (tombstones s) ≤ Nat.min 4 MAX_TOMBSTONES)%nat ∧ tombstone_count s = Z.of_nat (length (tombstones s)).
Proof. apply (set_stays_well_formed 2 sample_ops). unfold MAX_ELEMENTS. lia. Defined.

Lemma merge_hides_older_adds_witness :
  ∃ s0 s r, with_capacity (E:=()) 10 = Ok s0 ∧
    run [Add 70 (mkDot 1 1); Add 80 (mkDot 1 2); Remove 80 (mkDot 1 3)] s0 = Ok s ∧ contains s 70 = true ∧
    run [Merge s] s0 = Ok r ∧ contains r 70 = false.
Proof.
  apply (merge_hides_older_adds 10 70 80 1 1 2 3 1); unfold MAX_ELEMENTS, MAX_ACTORS; lia.
Defined.

Example sample_elements :
  (s0 ← with_capacity (E:=()) 2; s ← run sample_ops s0; Ok (elements s)) = Ok [8].
Proof. vm_compute. done. Qed.

End OrswotProofs.
