(* ===== verification/GossipWire.v ===== *)
(** * Gossip messages and their wire format

    [crates/nexus-state/src/gossip/types.rs]: peers, state updates and
    messages, their encoders and decoders. An encoder into a buffer panics
    where the source's slices and assertions do; a decoder returns [Err]
    where the source returns [None] or an error, and would panic at an index
    out of bounds. *)

From stdpp Require Import strings.
From S2P Require Import Prelude Model Crdt.

Module Gossip.

Definition MAX_PEERS : nat := 256.
Definition MAX_MESSAGE_SIZE : Z := 1400.
Definition MAX_PIGGYBACK_UPDATES : nat := 16.
Definition MAX_STATE_UPDATE_SIZE : nat := 64.
Definition MAX_ENCODED_UPDATE_LEN : nat := 43.
Definition SNAPSHOT_MEMBER_SIZE : nat := 17.
Definition MAX_SNAPSHOT_MEMBERS : nat :=
  ((Z.to_nat MAX_MESSAGE_SIZE - (1 + 8 + 8 + 2 + 2) - MAX_PIGGYBACK_UPDATES * (2 + MAX_ENCODED_UPDATE_LEN))
   / SNAPSHOT_MEMBER_SIZE)%nat.

(** ** Peers *)

Inductive PeerState := Alive | Suspect | Dead.

#[global] Instance PeerState_eq_dec : EqDecision PeerState.
Proof. solve_decision. Defined.

Definition is_active (s : PeerState) : bool := match s with Alive => true | _ => false end.
Definition is_reachable (s : PeerState) : bool := match s with Dead => false | _ => true end.

Definition as_u8 (s : PeerState) : Z := match s with Alive => 0 | Suspect => 1 | Dead => 2 end.
Definition from_u8 (v : Z) : option PeerState :=
  if v =? 0 then Some Alive else if v =? 1 then Some Suspect else if v =? 2 then Some Dead else None.

Record PeerInfo := mkPeer {
  peer_actor : Z;
  peer_addr : SocketAddr;
  peer_state : PeerState;
  incarnation : Z;
  last_seen_ns : Z;
}.

Definition peer_new {E} (actor : Z) (addr : SocketAddr) (inc seen : Z) : outcome E PeerInfo :=
  assert_ (actor <? MAX_ACTORS);; Ok (mkPeer actor addr Alive inc seen).

(** ** Addresses *)

Definition encode_socket_addr {E} (a : SocketAddr) : st (list Z) E nat :=
  b ← get;
  match a with
  | V4 ip port =>
    lift (assert_ (bool_decide (7 ≤ length b)%nat));;
    copy 0 [0];; copy 1 (to_be 4 ip);; copy 5 (to_be 2 port);; mret 7%nat
  | V6 ip port flow scope =>
    lift (assert_ (bool_decide (27 ≤ length b)%nat));;
    copy 0 [1];; copy 1 (to_be 16 ip);; copy 17 (to_be 2 port);; copy 19 (to_be 4 flow);; copy 23 (to_be 4 scope);;
    mret 27%nat
  end.

(** The flow label and the scope of an IPv6 address are dropped. *)
Definition decode_socket_addr (d : list Z) : outcome () (SocketAddr * nat) :=
  if bool_decide (d = []) then Err () else
  ty ← idx d 0;
  if ty =? 0 then
    fail_if (bool_decide (length d < 7)%nat) ();;
    ip ← read_be 4 1 d; port ← read_be 2 5 d; Ok (V4 ip port, 7%nat)
  else if ty =? 1 then
    fail_if (bool_decide (length d < 27)%nat) ();;
    ip ← read_be 16 1 d; port ← read_be 2 17 d; Ok (V6 ip port 0 0, 27%nat)
  else Err ().

(** Runs a writer on the rest of the buffer, from [n] on. *)
Definition from_offset {E A} (n : nat) (m : st (list Z) E A) : st (list Z) E A :=
  fun b => if bool_decide (n ≤ length b)%nat
           then zoom (drop n) (fun t b => take n b ++ t) m b
           else Panic.

Definition peer_encode {E} (p : PeerInfo) : st (list Z) E nat :=
  b ← get;
  lift (assert_ (bool_decide (24 ≤ length b)%nat));;
  copy 0 (to_be 8 (peer_actor p));; copy 8 (to_be 8 (incarnation p));; copy 16 [as_u8 (peer_state p)];;
  n ← from_offset 17 (encode_socket_addr (peer_addr p));
  mret (17 + n)%nat.

Definition peer_decode (d : list Z) (seen : Z) : outcome () (PeerInfo * nat) :=
  fail_if (bool_decide (length d < 18)%nat) ();;
  actor ← read_be 8 0 d;
  fail_if (actor >=? MAX_ACTORS) ();;
  inc ← read_be 8 8 d;
  b ← idx d 16;
  state ← of_option () (from_u8 b);
  rest ← slice 17 (length d) d;
  '(addr, n) ← decode_socket_addr rest;
  Ok (mkPeer actor addr state inc seen, (17 + n)%nat).

(** ** State updates *)

Record TrackInfo := mkTrack {
  track_type : Z;
  content_type : Z;
  info_codec : Z;
  bitrate_kbps : Z;
  owner_node : Z;
}.

Definition default_track : TrackInfo := mkTrack 0 0 0 0 0.

Definition track_encode {E} (t : TrackInfo) : st (list Z) E nat :=
  b ← get;
  lift (assert_ (bool_decide (18 ≤ length b)%nat));;
  copy 0 [track_type t];; copy 1 [content_type t];; copy 2 (to_be 4 (info_codec t));;
  copy 6 (to_be 4 (bitrate_kbps t));; copy 10 (to_be 8 (owner_node t));; mret 18%nat.

Definition track_decode (d : list Z) : outcome () (TrackInfo * nat) :=
  fail_if (bool_decide (length d < 18)%nat) ();;
  ty ← idx d 0; ct ← idx d 1; codec ← read_be 4 2 d; kbps ← read_be 4 6 d; owner ← read_be 8 10 d;
  Ok (mkTrack ty ct codec kbps owner, 18%nat).

Inductive StateUpdate :=
| ParticipantAdded (room participant : Z) (dot : Dot)
| ParticipantRemoved (room participant : Z) (dot : Dot)
| TrackUpdated (track : Z) (info : TrackInfo) (ts actor : Z)
| SubscriptionAdded (track participant : Z) (dot : Dot)
| SubscriptionRemoved (track participant : Z) (dot : Dot)
| RelaySubscribe (track requester : Z)
| RelayUnsubscribe (track requester : Z).

Definition encode_participant {E} (ty room participant : Z) (d : Dot) : st (list Z) E nat :=
  copy 0 [ty];; copy 1 (to_be 4 room);; copy 5 (to_be 8 participant);; copy 13 (to_be 8 (actor_id d));;
  copy 21 (to_be 8 (clock d));; mret 29%nat.

Definition encode_subscription {E} (ty track participant : Z) (d : Dot) : st (list Z) E nat :=
  copy 0 [ty];; copy 1 (to_be 8 track);; copy 9 (to_be 8 participant);; copy 17 (to_be 8 (actor_id d));;
  copy 25 (to_be 8 (clock d));; mret 33%nat.

Definition encode_relay {E} (ty track requester : Z) : st (list Z) E nat :=
  copy 0 [ty];; copy 1 (to_be 8 track);; copy 9 (to_be 8 requester);; mret 17%nat.

Definition update_encode {E} (u : StateUpdate) : st (list Z) E nat :=
  b ← get;
  lift (assert_ (bool_decide (MAX_STATE_UPDATE_SIZE ≤ length b)%nat));;
  match u with
  | ParticipantAdded room p d => encode_participant 0 room p d
  | ParticipantRemoved room p d => encode_participant 1 room p d
  | TrackUpdated track info ts actor =>
    copy 0 [2];; copy 1 (to_be 8 track);;
    n ← from_offset 9 (track_encode info);
    let offset := (9 + n)%nat in
    copy offset (to_be 8 ts);; copy (offset + 8) (to_be 8 actor);; mret (offset + 16)%nat
  | SubscriptionAdded track p d => encode_subscription 3 track p d
  | SubscriptionRemoved track p d => encode_subscription 4 track p d
  | RelaySubscribe track r => encode_relay 5 track r
  | RelayUnsubscribe track r => encode_relay 6 track r
  end.

(** [None] when the data is too short. *)
Definition read_u64_at (d : list Z) (offset : nat) : outcome () Z :=
  b ← of_option () (get_slice offset (offset + 8) d); Ok (of_be b).

Definition decode_dot_at (d : list Z) (offset : nat) : outcome () Dot :=
  actor ← read_u64_at d offset;
  clk ← read_u64_at d (offset + 8);
  fail_if (actor >=? MAX_ACTORS) ();;
  fail_if (clk =? 0) ();;
  assert_ ((actor <? MAX_ACTORS) && (clk >? 0));; (* debug_assert! *)
  Ok (mkDot actor clk).

Definition decode_participant_update (d : list Z) (is_add : bool) : outcome () (StateUpdate * nat) :=
  fail_if (bool_decide (length d < 29)%nat) ();;
  room ← read_be 4 1 d;
  participant ← read_be 8 5 d;
  dot ← decode_dot_at d 13;
  fail_if ((room =? 0) || (room >? (2 ^ 32 - 1) / 2) || (participant =? 0)) ();;
  Ok (if is_add then ParticipantAdded room participant dot else ParticipantRemoved room participant dot, 29%nat).

Definition decode_subscription_update (d : list Z) (is_add : bool) : outcome () (StateUpdate * nat) :=
  fail_if (bool_decide (length d < 33)%nat) ();;
  track ← read_u64_at d 1;
  participant ← read_u64_at d 9;
  dot ← decode_dot_at d 17;
  fail_if ((track =? 0) || (track >? (2 ^ 64 - 1) / 2) || (participant =? 0)) ();;
  Ok (if is_add then SubscriptionAdded track participant dot else SubscriptionRemoved track participant dot, 33%nat).

Definition decode_relay_update (d : list Z) (is_subscribe : bool) : outcome () (StateUpdate * nat) :=
  fail_if (bool_decide (length d < 17)%nat) ();;
  track ← read_be 8 1 d;
  requester ← read_be 8 9 d;
  fail_if ((track =? 0) || (requester =? 0)) ();;
  Ok (if is_subscribe then RelaySubscribe track requester else RelayUnsubscribe track requester, 17%nat).

Definition decode_track_update (d : list Z) : outcome () (StateUpdate * nat) :=
  fail_if (bool_decide (length d < 30)%nat) ();;
  track ← read_be 8 1 d;
  rest ← slice 9 (length d) d;
  '(info, n) ← track_decode rest;
  let offset := (9 + n)%nat in
  fail_if (bool_decide (length d < offset + 16)%nat) ();;
  ts ← read_be 8 offset d;
  actor ← read_be 8 (offset + 8) d;
  fail_if (actor >=? MAX_ACTORS) ();;
  fail_if ((track =? 0) || (track >? (2 ^ 64 - 1) / 2) || (ts =? 0)) ();;
  Ok (TrackUpdated track info ts actor, (offset + 16)%nat).

Definition update_decode (d : list Z) : outcome () (StateUpdate * nat) :=
  if bool_decide (d = []) then Err () else
  ty ← idx d 0;
  if ty =? 0 then decode_participant_update d true
  else if ty =? 1 then decode_participant_update d false
  else if ty =? 2 then decode_track_update d
  else if ty =? 3 then decode_subscription_update d true
  else if ty =? 4 then decode_subscription_update d false
  else if ty =? 5 then decode_relay_update d true
  else if ty =? 6 then decode_relay_update d false
  else Err ().

(** ** Messages *)

Inductive GossipMessage :=
| Ping (from inc : Z) (piggyback : list StateUpdate)
| Ack (from inc : Z) (piggyback : list StateUpdate)
| PingReq (from target : Z) (target_addr requester_addr : SocketAddr)
| SuspectMsg (actor inc : Z)
| AliveMsg (actor inc : Z)
| DeadMsg (actor : Z)
| ForwardedAck (target inc : Z)
| StateSnapshot (from inc : Z) (members : list (Z * Z * Z)) (updates : list StateUpdate).

(** The bytes a writer left at the front of its scratch buffer. *)
Definition written {E} (m : st (list Z) E nat) : st (list Z) E (list Z) :=
  n ← m; b ← get; lift (slice 0 n b).

(** Length-prefixed updates, each encoded in the same scratch buffer. *)
Fixpoint encode_all {E} (us : list StateUpdate) : st (list Z) E (list Z) :=
  match us with
  | [] => mret []
  | u :: us =>
    b ← written (update_encode u);
    rest ← encode_all us;
    mret (to_be 2 (wrap 16 (Z.of_nat (length b))) ++ b ++ rest)
  end.

(** The count and the first [MAX_PIGGYBACK_UPDATES] updates. *)
Definition encode_updates {E} (us : list StateUpdate) : st (list Z) E (list Z) :=
  let n := Nat.min (length us) MAX_PIGGYBACK_UPDATES in
  b ← encode_all (take MAX_PIGGYBACK_UPDATES us);
  mret (to_be 2 (wrap 16 (Z.of_nat n)) ++ b).

(** Code that uses a scratch buffer of [n] zeros. *)
Definition with_buffer {E A} (n : nat) (m : st (list Z) E A) : outcome E A :=
  match m (replicate n 0) with Ok (a, _) => Ok a | Err (e, _) => Err e | Panic => Panic end.

Definition encode_member (m : Z * Z * Z) : list Z := to_be 8 m.1.1 ++ to_be 8 m.1.2 ++ [m.2].

Definition encode {E} (m : GossipMessage) : outcome E (list Z) :=
  b ← match m with
      | Ping from inc us => b ← with_buffer MAX_STATE_UPDATE_SIZE (encode_updates us); Ok ([0] ++ to_be 8 from ++ to_be 8 inc ++ b)
      | Ack from inc us => b ← with_buffer MAX_STATE_UPDATE_SIZE (encode_updates us); Ok ([1] ++ to_be 8 from ++ to_be 8 inc ++ b)
      | PingReq from target ta ra =>
        addrs ← with_buffer 32 (t ← written (encode_socket_addr ta); r ← written (encode_socket_addr ra); mret (t ++ r));
        Ok ([2] ++ to_be 8 from ++ to_be 8 target ++ addrs)
      | SuspectMsg actor inc => Ok ([3] ++ to_be 8 actor ++ to_be 8 inc)
      | AliveMsg actor inc => Ok ([4] ++ to_be 8 actor ++ to_be 8 inc)
      | DeadMsg actor => Ok ([5] ++ to_be 8 actor)
      | ForwardedAck target inc => Ok ([6] ++ to_be 8 target ++ to_be 8 inc)
      | StateSnapshot from inc ms us =>
        let n := Nat.min (length ms) MAX_SNAPSHOT_MEMBERS in
        b ← with_buffer MAX_STATE_UPDATE_SIZE (encode_updates us);
        Ok ([7] ++ to_be 8 from ++ to_be 8 inc ++ to_be 2 (wrap 16 (Z.of_nat n)) ++
            concat (encode_member <$> take MAX_SNAPSHOT_MEMBERS ms) ++ b)
      end;
  assert_ (Z.of_nat (length b) <=? MAX_MESSAGE_SIZE);;
  Ok b.

(** ** Decoding messages *)

Abbreviation decoder := (outcome string).

(** An actor id, refused when out of range. *)
Definition read_actor (at_ : nat) (d : list Z) (bad : string) : decoder Z :=
  actor ← read_be 8 at_ d; fail_if (actor >=? MAX_ACTORS) bad;; Ok actor.

(** The length-prefixed updates: the framing is strict, an update that does
    not decode is skipped. The offset after them comes last. *)
Fixpoint decode_updates (count offset : nat) (d : list Z) (truncated short : string) : decoder (list StateUpdate * nat) :=
  match count with
  | O => Ok ([], offset)
  | S count =>
    fail_if (bool_decide (length d < offset + 2)%nat) truncated;;
    n ← read_be 2 offset d;
    let len := Z.to_nat n in
    let offset := (offset + 2)%nat in
    fail_if (bool_decide (length d < offset + len)%nat) short;;
    b ← slice offset (offset + len) d;
    u ← ok (update_decode b);
    '(us, rest) ← decode_updates count (offset + len) d truncated short;
    Ok (match u with Some (u, _) => u :: us | None => us end, rest)
  end.

Definition decode_probe (short bad : string) (make : Z → Z → list StateUpdate → GossipMessage) (d : list Z)
  : decoder GossipMessage :=
  fail_if (bool_decide (length d < 18)%nat) short;;
  from ← read_actor 0 d bad;
  inc ← read_be 8 8 d;
  n ← read_be 2 16 d;
  fail_if (n >? Z.of_nat MAX_PIGGYBACK_UPDATES) "too many piggyback updates"%string;;
  '(us, _) ← decode_updates (Z.to_nat n) 18 d "piggyback data truncated"%string "piggyback update truncated"%string;
  Ok (make from inc us).

Definition decode_ping : list Z → decoder GossipMessage :=
  decode_probe "ping message too short" "invalid actor_id in ping" Ping.
Definition decode_ack : list Z → decoder GossipMessage :=
  decode_probe "ack message too short" "invalid actor_id in ack" Ack.

Definition decode_ping_req (d : list Z) : decoder GossipMessage :=
  fail_if (bool_decide (length d < 17)%nat) "ping_req message too short"%string;;
  from ← read_actor 0 d "invalid from actor_id in ping_req";
  target ← read_actor 8 d "invalid target actor_id in ping_req";
  rest ← slice 16 (length d) d;
  '(ta, n) ← map_err (fun _ => "invalid target_addr in ping_req"%string) (decode_socket_addr rest);
  rest ← slice (16 + n) (length d) d;
  '(ra, _) ← map_err (fun _ => "invalid requester_addr in ping_req"%string) (decode_socket_addr rest);
  Ok (PingReq from target ta ra).

Definition decode_pair (short bad : string) (make : Z → Z → GossipMessage) (d : list Z) : decoder GossipMessage :=
  fail_if (bool_decide (length d < 16)%nat) short;;
  actor ← read_actor 0 d bad;
  inc ← read_be 8 8 d;
  Ok (make actor inc).

Definition decode_suspect : list Z → decoder GossipMessage :=
  decode_pair "suspect message too short" "invalid actor_id in suspect" SuspectMsg.
Definition decode_alive : list Z → decoder GossipMessage :=
  decode_pair "alive message too short" "invalid actor_id in alive" AliveMsg.
Definition decode_forwarded_ack : list Z → decoder GossipMessage :=
  decode_pair "forwarded_ack message too short" "invalid target in forwarded_ack" ForwardedAck.

Definition decode_dead (d : list Z) : decoder GossipMessage :=
  fail_if (bool_decide (length d < 8)%nat) "dead message too short"%string;;
  actor ← read_actor 0 d "invalid actor_id in dead";
  Ok (DeadMsg actor).

(** The members of a snapshot; out-of-range ones are skipped. *)
Fixpoint decode_members (count offset : nat) (d : list Z) : decoder (list (Z * Z * Z) * nat) :=
  match count with
  | O => Ok ([], offset)
  | S count =>
    fail_if (bool_decide (length d < offset + 17)%nat) "member data truncated"%string;;
    actor ← read_be 8 offset d;
    inc ← read_be 8 (offset + 8) d;
    state ← idx d (offset + 16);
    '(ms, rest) ← decode_members count (offset + 17) d;
    Ok (if (actor <? MAX_ACTORS) && (state <=? 2) then (actor, inc, state) :: ms else ms, rest)
  end.

Definition decode_state_snapshot (d : list Z) : decoder GossipMessage :=
  fail_if (bool_decide (length d < 18)%nat) "state_snapshot message too short"%string;;
  from ← read_actor 0 d "invalid from in state_snapshot";
  inc ← read_be 8 8 d;
  n ← read_be 2 16 d;
  fail_if (n >? Z.of_nat MAX_PEERS) "too many members in state_snapshot"%string;;
  '(ms, offset) ← decode_members (Z.to_nat n) 18 d;
  fail_if (bool_decide (length d < offset + 2)%nat) "update count truncated"%string;;
  n ← read_be 2 offset d;
  fail_if (n >? Z.of_nat MAX_PIGGYBACK_UPDATES) "too many updates in state_snapshot"%string;;
  '(us, _) ← decode_updates (Z.to_nat n) (offset + 2) d "update data truncated"%string "update truncated"%string;
  Ok (StateSnapshot from inc ms us).

Definition decode (d : list Z) : decoder GossipMessage :=
  if bool_decide (d = []) then Err "empty message"%string else
  ty ← idx d 0;
  rest ← slice 1 (length d) d;
  if ty =? 0 then decode_ping rest
  else if ty =? 1 then decode_ack rest
  else if ty =? 2 then decode_ping_req rest
  else if ty =? 3 then decode_suspect rest
  else if ty =? 4 then decode_alive rest
  else if ty =? 5 then decode_dead rest
  else if ty =? 6 then decode_forwarded_ack rest
  else if ty =? 7 then decode_state_snapshot rest
  else Err "invalid message type"%string.

End Gossip.
