(* ===== verification/GossipProofs.v ===== *)
(** * Gossip messages survive the wire

    What [GossipWire.v] encodes it decodes again, within the size of a
    datagram, and no datagram makes the decoder panic. *)

From stdpp Require Import strings.
From S2P Require Import Prelude Model Crdt GossipWire.

Module GossipProofs.
Import Gossip.

(** ** Decoding never panics *)

Lemma np_bind {E A B} (m : outcome E A) (f : A → outcome E B) : no_panic m → (∀ a, m = Ok a → no_panic (f a)) → no_panic (m ≫= f).
Proof. apply no_panic_bind. Qed.

Lemma np_fail {E A} b (e : E) (f : () → outcome E A) : (b = false → no_panic (f ())) → no_panic (fail_if b e ≫= f).
Proof. destruct b; cbn; [done|auto]. Qed.

Lemma np_read {E A} n a l (f : Z → outcome E A) : (a + n ≤ length l)%nat → (∀ x, no_panic (f x)) → no_panic (read_be n a l ≫= f).
Proof. intros Hl Hf. rewrite read_be_ok by done. apply Hf. Qed.

Lemma np_idx {E A} i (l : list Z) (f : Z → outcome E A) : (i < length l)%nat → (∀ x, no_panic (f x)) → no_panic (idx l i ≫= f).
Proof. intros Hl Hf. destruct (idx_lt (E:=E) l i Hl) as (x & -> & _). apply Hf. Qed.

Lemma np_slice {E A} a b (l : list Z) (f : list Z → outcome E A) : (a ≤ b ≤ length l)%nat →
  (∀ r, r = sub_list a b l → length r = (b - a)%nat → no_panic (f r)) → no_panic (slice a b l ≫= f).
Proof. intros Hl Hf. unfold slice. rewrite decide_True by lia. apply Hf; [done|]. apply length_sub_list. lia. Qed.

Lemma np_option {E A B} (e : E) (o : option A) (f : A → outcome E B) : (∀ a, no_panic (f a)) → no_panic (of_option e o ≫= f).
Proof. intros Hf. destruct o; cbn; [apply Hf|done]. Qed.

(** Walks through a decoder. *)
Ltac np_step :=
  match goal with
  | |- no_panic (Ok _) => done
  | |- no_panic (Err _) => done
  | |- no_panic (fail_if _ _ ≫= _) => apply np_fail; intros ?
  | |- no_panic (read_be _ _ _ ≫= _) => apply np_read; [cbn in *; lia|intros ?]
  | |- no_panic (idx _ _ ≫= _) => apply np_idx; [cbn in *; lia|intros ?]
  | |- no_panic (slice _ _ _ ≫= _) => apply np_slice; [cbn in *; lia|intros ? ? ?]
  | |- no_panic (of_option _ _ ≫= _) => apply np_option; intros ?
  | H : bool_decide _ = false |- _ => apply bool_decide_eq_false in H
  | |- no_panic (match ?p with (_, _) => _ end) => destruct p
  | |- no_panic (if ?b then _ else _) => destruct b eqn:?
  end.

Lemma read_u64_spec d o : bytes d → match read_u64_at d o with Ok x => is_u64 x | Err _ => True | Panic => False end.
Proof.
  intros Hd. unfold read_u64_at, get_slice. case_decide as Ho; cbn; [|done].
  pose proof (of_be_range (sub_list o (o + 8) d) (bytes_sub_list _ _ _ Hd)) as Hr. rewrite length_sub_list in Hr by lia.
  replace (o + 8 - o)%nat with 8%nat in Hr by lia. done.
Qed.

Lemma np_read_u64 {A} d o (f : Z → outcome () A) : bytes d → (∀ x, is_u64 x → no_panic (f x)) → no_panic (read_u64_at d o ≫= f).
Proof. intros Hd Hf. pose proof (read_u64_spec d o Hd). by destruct (read_u64_at d o); cbn; [apply Hf| |]. Qed.

Lemma decode_addr_np d : no_panic (decode_socket_addr d).
Proof.
  unfold decode_socket_addr. destruct d as [|x d]; [done|]. rewrite bool_decide_eq_false_2 by done. cbn [idx lookup list_lookup expect mbind outcome_bind].
  repeat np_step.
Qed.

Lemma decode_dot_np d o : bytes d → no_panic (decode_dot_at d o).
Proof.
  intros Hd. unfold decode_dot_at. apply np_read_u64; [done|]. intros actor _. apply np_read_u64; [done|]. intros clk Hr.
  apply np_fail. intros Ha. apply np_fail. intros Hc. rewrite Z.geb_leb in Ha. apply Z.leb_gt in Ha. apply Z.eqb_neq in Hc.
  unfold in_range in Hr. rewrite (proj2 (Z.ltb_lt _ _) Ha), Z.gtb_ltb. by rewrite (proj2 (Z.ltb_lt _ _)) by lia.
Qed.

Lemma update_decode_np d : bytes d → no_panic (update_decode d).
Proof.
  intros Hd. unfold update_decode. destruct d as [|ty d'] eqn:E; [done|]. rewrite bool_decide_eq_false_2 by done. rewrite <- E in *.
  assert (Hp : ∀ b, no_panic (decode_participant_update d b)).
  { intros b. unfold decode_participant_update. repeat np_step. apply np_bind; [by apply decode_dot_np|intros]. by repeat np_step. }
  assert (Hs : ∀ b, no_panic (decode_subscription_update d b)).
  { intros b. unfold decode_subscription_update. np_step. do 2 (apply np_read_u64; [done|intros]).
    apply np_bind; [by apply decode_dot_np|intros]. by repeat np_step. }
  assert (Hr : ∀ b, no_panic (decode_relay_update d b)) by (intros b; unfold decode_relay_update; by repeat np_step).
  assert (Ht : no_panic (decode_track_update d)).
  { unfold decode_track_update. do 4 np_step. apply np_bind; [unfold track_decode; by repeat np_step|].
    intros [info n] Hn. assert (n = 18%nat) as ->.
    { unfold track_decode in Hn. inv_ok. done. }
    by repeat np_step. }
  apply np_idx; [subst d; cbn; lia|]. intros x. repeat (case_match; [done|]). done.
Qed.

Lemma decode_updates_np n : ∀ o d t s, bytes d → no_panic (decode_updates n o d t s).
Proof.
  induction n as [|n IH]; intros o d t s Hd; cbn [decode_updates]; [done|].
  apply np_fail. intros H1%bool_decide_eq_false. apply np_read; [lia|]. intros x. cbv zeta. apply np_fail. intros H2%bool_decide_eq_false.
  apply np_slice; [lia|]. intros r -> _. pose proof (update_decode_np _ (bytes_sub_list (o + 2) (o + 2 + Z.to_nat x) d Hd)) as Hu.
  destruct (update_decode _) as [u|e|]; [| |done]; cbn [ok mbind outcome_bind]; (apply np_bind; [by apply IH|]); by intros [us rest] _.
Qed.

Lemma decode_members_np n : ∀ o d, no_panic (decode_members n o d).
Proof.
  induction n as [|n IH]; intros o d; cbn [decode_members]; [done|]. repeat np_step. apply np_bind; [apply IH|]. by intros [ms rest] _.
Qed.

Lemma np_actor {A} at_ d bad (f : Z → decoder A) : (at_ + 8 ≤ length d)%nat → (∀ x, no_panic (f x)) → no_panic (read_actor at_ d bad ≫= f).
Proof. intros Hl Hf. apply np_bind; [unfold read_actor; by repeat np_step|]. intros x _. apply Hf. Qed.

Lemma decode_addr_len d a n : decode_socket_addr d = Ok (a, n) → (n ≤ length d)%nat.
Proof.
  unfold decode_socket_addr. intros H. destruct (bool_decide (d = [])); [done|].
  apply bind_ok in H as (ty & _ & H). destruct (ty =? 0); [|destruct (ty =? 1); [|done]]; inv_ok; simplify_eq; case_bool_decide; try done; lia.
Qed.

Ltac np_msg :=
  repeat (np_step || (apply np_actor; [lia|intros ?])).

Lemma decode_probe_np t s m d : bytes d → no_panic (decode_probe t s m d).
Proof. intros Hd. unfold decode_probe. np_msg. apply np_bind; [by apply decode_updates_np|]. by intros [us rest] _. Qed.

Lemma decode_pair_np t s m d : no_panic (decode_pair t s m d).
Proof. unfold decode_pair. by np_msg. Qed.

Lemma decode_ping_req_np d : no_panic (decode_ping_req d).
Proof.
  unfold decode_ping_req. np_msg. rename select (_ = sub_list _ _ d) into Hr. rename select (length _ = _) into Hl.
  apply np_bind; [match goal with |- no_panic (map_err _ (decode_socket_addr ?x)) => pose proof (decode_addr_np x); by destruct (decode_socket_addr x) end|].
  intros [ta n] Hta. match type of Hta with map_err _ (decode_socket_addr ?x) = _ => destruct (decode_socket_addr x) as [[a k]| |] eqn:Hd; cbn in Hta; try done end.
  injection Hta as <- <-. apply decode_addr_len in Hd. np_step.
  apply np_bind; [match goal with |- no_panic (map_err _ (decode_socket_addr ?x)) => pose proof (decode_addr_np x); by destruct (decode_socket_addr x) end|].
  by intros [].
Qed.

Lemma decode_snapshot_np d : bytes d → no_panic (decode_state_snapshot d).
Proof.
  intros Hd. unfold decode_state_snapshot. np_msg. apply np_bind; [apply decode_members_np|]. intros [ms o] _. np_msg.
  apply np_bind; [by apply decode_updates_np|]. by intros [us rest] _.
Qed.

(** Every index and slice of the decoder is in bounds, whatever the bytes. *)
Lemma decode_np d : bytes d → no_panic (decode d).
Proof.
  intros Hd. unfold decode. destruct (bool_decide (d = [])) eqn:E; [done|]. apply bool_decide_eq_false in E.
  assert (Hl : (1 ≤ length d)%nat) by (destruct d; [done|cbn; lia]).
  apply np_idx; [lia|]. intros ty. apply np_slice; [lia|]. intros rest -> _. pose proof (bytes_sub_list 1 (length d) d Hd) as Hr.
  destruct (ty =? 0); [by apply decode_probe_np|]. destruct (ty =? 1); [by apply decode_probe_np|].
  destruct (ty =? 2); [apply decode_ping_req_np|]. destruct (ty =? 3); [apply decode_pair_np|].
  destruct (ty =? 4); [apply decode_pair_np|]. destruct (ty =? 5); [unfold decode_dead; by np_msg|].
  destruct (ty =? 6); [apply decode_pair_np|]. destruct (ty =? 7); [by apply decode_snapshot_np|done].
Qed.

(** ** Updates *)

Definition dot_bytes (d : Dot) : list Z := to_be 8 (actor_id d) ++ to_be 8 (clock d).

Definition track_bytes (t : TrackInfo) : list Z :=
  [track_type t] ++ [content_type t] ++ to_be 4 (info_codec t) ++ to_be 4 (bitrate_kbps t) ++ to_be 8 (owner_node t).

Definition update_bytes (u : StateUpdate) : list Z :=
  match u with
  | ParticipantAdded room p d => [0] ++ to_be 4 room ++ to_be 8 p ++ dot_bytes d
  | ParticipantRemoved room p d => [1] ++ to_be 4 room ++ to_be 8 p ++ dot_bytes d
  | TrackUpdated track info ts actor => [2] ++ to_be 8 track ++ track_bytes info ++ to_be 8 ts ++ to_be 8 actor
  | SubscriptionAdded track p d => [3] ++ to_be 8 track ++ to_be 8 p ++ dot_bytes d
  | SubscriptionRemoved track p d => [4] ++ to_be 8 track ++ to_be 8 p ++ dot_bytes d
  | RelaySubscribe track r => [5] ++ to_be 8 track ++ to_be 8 r
  | RelayUnsubscribe track r => [6] ++ to_be 8 track ++ to_be 8 r
  end.

Definition dot_ok (d : Dot) : Prop := 0 ≤ actor_id d < MAX_ACTORS ∧ 0 < clock d < 2 ^ 64.

(** The updates a peer can read. The room is below 2^31 and the track of a
    track or subscription update below 2^63, the bounds of the decoders
    ([gossip/types.rs]). The senders do not enforce them: [add_participant]
    and [add_track] only refuse id 0. The ids the node gives out count up from
    1; an update with a larger id is encoded and skipped by the receiver. *)
Definition update_ok (u : StateUpdate) : Prop :=
  match u with
  | ParticipantAdded room p d | ParticipantRemoved room p d => 0 < room < 2 ^ 31 ∧ 0 < p < 2 ^ 64 ∧ dot_ok d
  | TrackUpdated track info ts actor =>
      0 < track < 2 ^ 63 ∧ 0 < ts < 2 ^ 64 ∧ 0 ≤ actor < MAX_ACTORS ∧ is_u8 (track_type info) ∧ is_u8 (content_type info) ∧
      is_u32 (info_codec info) ∧ is_u32 (bitrate_kbps info) ∧ is_u64 (owner_node info)
  | SubscriptionAdded track p d | SubscriptionRemoved track p d => 0 < track < 2 ^ 63 ∧ 0 < p < 2 ^ 64 ∧ dot_ok d
  | RelaySubscribe track r | RelayUnsubscribe track r => 0 < track < 2 ^ 64 ∧ 0 < r < 2 ^ 64
  end.

Lemma update_length u : (17 ≤ length (update_bytes u) ≤ MAX_ENCODED_UPDATE_LEN)%nat.
Proof. unfold MAX_ENCODED_UPDATE_LEN. destruct u; cbn -[to_be]; rewrite ?length_app; cbn -[to_be]; rewrite ?length_app, ?length_to_be; cbn; lia. Qed.

(** Writing the next field behind what was written. *)
Lemma wrote {E A} n p x r (k : () → st (list Z) E A) : length p = n → (length x ≤ length r)%nat →
  (copy n x ≫= k) (p ++ r) = k () ((p ++ x) ++ drop (length x) r).
Proof. intros Hp Hx. change ((copy n x ≫= k) (p ++ r)) with (match copy (E:=E) n x (p ++ r) with Ok (a, s') => k a s' | Err (e, s') => Err (e, s') | Panic => Panic end). by rewrite copy_at_end. Qed.

Lemma checked {E A} (P : list Z → bool) b (k : st (list Z) E A) : P b = true →
  (b ← get; lift (assert_ (P b));; k) b = k b.
Proof. intros HP. unfold mbind, st_bind, get, lift. by rewrite HP. Qed.

Ltac writes :=
  repeat (rewrite wrote by (rewrite ?length_app, ?length_to_be, ?length_drop; cbn; lia)).

Ltac all_written := unfold mret, st_ret; do 2 f_equal; rewrite !drop_drop, <- !app_assoc, ?length_to_be; done.

Lemma encode_participant_run {E} ty room p d b : (29 ≤ length b)%nat →
  encode_participant (E:=E) ty room p d b = Ok (29%nat, ([ty] ++ to_be 4 room ++ to_be 8 p ++ dot_bytes d) ++ drop 29 b).
Proof.
  intros Hb. unfold encode_participant. change b with ([] ++ b) at 1. writes.
  unfold dot_bytes. all_written.
Qed.

Lemma encode_subscription_run {E} ty track p d b : (33 ≤ length b)%nat →
  encode_subscription (E:=E) ty track p d b = Ok (33%nat, ([ty] ++ to_be 8 track ++ to_be 8 p ++ dot_bytes d) ++ drop 33 b).
Proof. intros Hb. unfold encode_subscription. change b with ([] ++ b) at 1. writes. unfold dot_bytes. all_written. Qed.

Lemma encode_relay_run {E} ty track r b : (17 ≤ length b)%nat →
  encode_relay (E:=E) ty track r b = Ok (17%nat, ([ty] ++ to_be 8 track ++ to_be 8 r) ++ drop 17 b).
Proof. intros Hb. unfold encode_relay. change b with ([] ++ b) at 1. writes. all_written. Qed.

Lemma track_encode_run {E} t b : (18 ≤ length b)%nat → track_encode (E:=E) t b = Ok (18%nat, track_bytes t ++ drop 18 b).
Proof.
  intros Hb. unfold track_encode. rewrite (checked (fun b => bool_decide (18 ≤ length b)%nat)) by (by apply bool_decide_eq_true).
  change b with ([] ++ b) at 1. writes. unfold track_bytes. all_written.
Qed.

Lemma from_offset_run {E A B} n (m : st (list Z) E A) (k : A → st (list Z) E B) p r a r' : length p = n → m r = Ok (a, r') →
  (from_offset n m ≫= k) (p ++ r) = k a (p ++ r').
Proof.
  intros Hp Hm. unfold mbind, st_bind, from_offset, zoom. rewrite bool_decide_eq_true_2 by (rewrite length_app; lia).
  rewrite drop_app_length', take_app_length' by done. by rewrite Hm.
Qed.

Lemma update_encode_run {E} u b : (MAX_STATE_UPDATE_SIZE ≤ length b)%nat →
  update_encode (E:=E) u b = Ok (length (update_bytes u), update_bytes u ++ drop (length (update_bytes u)) b).
Proof.
  intros Hb. unfold update_encode.
  rewrite (checked (fun b => bool_decide (MAX_STATE_UPDATE_SIZE ≤ length b)%nat)) by (by apply bool_decide_eq_true). unfold MAX_STATE_UPDATE_SIZE in Hb.
  destruct u as [room p d|room p d|track info ts actor|track p d|track p d|track r|track r]; cbn [update_bytes];
    try (rewrite encode_participant_run by lia); try (rewrite encode_subscription_run by lia); try (rewrite encode_relay_run by lia); try done.
  assert (Ht : length (track_bytes info) = 18%nat) by (unfold track_bytes; by rewrite !length_app, !length_to_be).
  change b with ([] ++ b) at 1. writes.
  erewrite from_offset_run; [|by rewrite !length_app, length_to_be|apply track_encode_run; rewrite !length_drop, length_to_be; cbn; lia].
  cbv beta zeta. rewrite (app_assoc _ (track_bytes info)).
  do 2 (rewrite wrote by (rewrite ?length_app, ?Ht, ?length_to_be, ?length_drop, ?length_to_be; cbn; lia)).
  unfold mret, st_ret. rewrite !length_app, Ht, !length_to_be, !drop_drop. cbn [length Nat.add]. by rewrite <- !app_assoc.
Qed.

(** Reading a field of a concatenation. *)
Lemma read_field {E A} n a x (p r : list Z) (k : Z → outcome E A) : length p = a → in_range (8 * Z.of_nat n) x →
  (read_be n a (p ++ to_be n x ++ r) ≫= k) = k x.
Proof. intros Hp Hx. rewrite read_be_at by (rewrite ?length_to_be; done). cbn [mbind outcome_bind]. by rewrite of_be_to_be. Qed.

Lemma read_u64_field {A} a x (p r : list Z) (k : Z → outcome () A) : length p = a → is_u64 x →
  (read_u64_at (p ++ to_be 8 x ++ r) a ≫= k) = k x.
Proof.
  intros Hp Hx. unfold read_u64_at, get_slice. rewrite decide_True by (rewrite !length_app, length_to_be; lia).
  rewrite sub_list_middle by (rewrite ?length_to_be; lia). cbn [of_option mbind outcome_bind]. by rewrite of_be_to_be.
Qed.

Lemma idx_field {E A} a x (p r : list Z) (k : Z → outcome E A) : length p = a → (idx (p ++ [x] ++ r) a ≫= k) = k x.
Proof. intros <-. unfold idx. rewrite lookup_app_r, Nat.sub_diag by lia. done. Qed.

Lemma idx_first {E A} x (r : list Z) (k : Z → outcome E A) : (idx ([x] ++ r) 0 ≫= k) = k x.
Proof. done. Qed.

Lemma passes {E A} b (e : E) (k : () → outcome E A) : b = false → (fail_if b e ≫= k) = k ().
Proof. by intros ->. Qed.

Lemma assert_passes {E A} b (k : () → outcome E A) : b = true → (assert_ b ≫= k) = k ().
Proof. by intros ->. Qed.

Lemma decode_dot_field p d r n : length p = n → dot_ok d → decode_dot_at (p ++ dot_bytes d ++ r) n = Ok d.
Proof.
  intros Hp [Ha Hc]. unfold decode_dot_at, dot_bytes. rewrite <- app_assoc. rewrite read_u64_field by (done || (split; unfold MAX_ACTORS in *; lia)).
  rewrite (app_assoc p). rewrite read_u64_field by (rewrite ?length_app, ?length_to_be; (lia || (split; lia))).
  rewrite !passes by (rewrite ?Z.geb_leb; first [apply Z.leb_gt|apply Z.eqb_neq]; lia).
  rewrite assert_passes by (rewrite Z.gtb_ltb; apply andb_true_iff; split; apply Z.ltb_lt; lia). by destruct d.
Qed.

Lemma upper_half w x : 1 ≤ w → 0 < x < 2 ^ (w - 1) → x >? (2 ^ w - 1) / 2 = false.
Proof.
  intros Hw Hx. rewrite Z.gtb_ltb. apply Z.ltb_ge. apply Z.div_le_lower_bound; [lia|].
  replace (2 ^ w) with (2 * 2 ^ (w - 1)); [lia|]. rewrite <- Z.pow_succ_r by lia. f_equal. lia.
Qed.

Lemma decode_participant_bytes ty room p d is_add : 0 < room < 2 ^ 31 → 0 < p < 2 ^ 64 → dot_ok d →
  decode_participant_update ([ty] ++ to_be 4 room ++ to_be 8 p ++ dot_bytes d) is_add =
    Ok (if is_add then ParticipantAdded room p d else ParticipantRemoved room p d, 29%nat).
Proof.
  intros Hr Hp Hd. set (b := _ ++ _). assert (Hl : length b = 29%nat) by (unfold b, dot_bytes; by rewrite !length_app, !length_to_be).
  unfold decode_participant_update. rewrite passes by (apply bool_decide_eq_false; lia).
  unfold b. rewrite (read_field 4 1 room [ty]) by (done || (split; cbn -[Z.pow]; lia)).
  rewrite (app_assoc [ty]). rewrite (read_field 8 5 p) by (rewrite ?length_app, ?length_to_be; (done || (split; cbn -[Z.pow]; lia))).
  rewrite (app_assoc _ (to_be 8 p)), <- (app_nil_r (dot_bytes d)).
  rewrite decode_dot_field by (rewrite ?length_app, ?length_to_be; done). cbn [mbind outcome_bind].
  rewrite upper_half by lia. by rewrite !(proj2 (Z.eqb_neq _ _)) by lia.
Qed.

Lemma decode_subscription_bytes ty track p d is_add : 0 < track < 2 ^ 63 → 0 < p < 2 ^ 64 → dot_ok d →
  decode_subscription_update ([ty] ++ to_be 8 track ++ to_be 8 p ++ dot_bytes d) is_add =
    Ok (if is_add then SubscriptionAdded track p d else SubscriptionRemoved track p d, 33%nat).
Proof.
  intros Hr Hp Hd. set (b := _ ++ _). assert (Hl : length b = 33%nat) by (unfold b, dot_bytes; by rewrite !length_app, !length_to_be).
  unfold decode_subscription_update. rewrite passes by (apply bool_decide_eq_false; lia).
  unfold b. rewrite (read_u64_field 1 track [ty]) by (done || (split; lia)).
  rewrite (app_assoc [ty]). rewrite (read_u64_field 9 p) by (rewrite ?length_app, ?length_to_be; (done || (split; lia))).
  rewrite (app_assoc _ (to_be 8 p)), <- (app_nil_r (dot_bytes d)).
  rewrite decode_dot_field by (rewrite ?length_app, ?length_to_be; done). cbn [mbind outcome_bind].
  rewrite upper_half by lia. by rewrite !(proj2 (Z.eqb_neq _ _)) by lia.
Qed.

Lemma decode_relay_bytes ty track r is_sub : 0 < track < 2 ^ 64 → 0 < r < 2 ^ 64 →
  decode_relay_update ([ty] ++ to_be 8 track ++ to_be 8 r) is_sub =
    Ok (if is_sub then RelaySubscribe track r else RelayUnsubscribe track r, 17%nat).
Proof.
  intros Ht Hr. set (b := _ ++ _). assert (Hl : length b = 17%nat) by (unfold b; by rewrite !length_app, !length_to_be).
  unfold decode_relay_update. rewrite passes by (apply bool_decide_eq_false; lia).
  unfold b. rewrite (read_field 8 1 track [ty]) by (done || (split; cbn -[Z.pow]; lia)).
  rewrite (app_assoc [ty]), <- (app_nil_r (to_be 8 r)).
  rewrite (read_field 8 9 r) by (rewrite ?length_app, ?length_to_be; (done || (split; cbn -[Z.pow]; lia))).
  by rewrite !(proj2 (Z.eqb_neq _ _)) by lia.
Qed.

(** Splits a known prefix off: the next field is read behind it. *)
Ltac field_side := rewrite ?length_app, ?length_to_be; first [done | split; cbn -[Z.pow]; lia].

Lemma decode_track_bytes t r : update_ok (TrackUpdated 1 t 1 0) → track_decode (track_bytes t ++ r) = Ok (t, 18%nat).
Proof.
  intros (_ & _ & _ & H1 & H2 & H3 & H4 & H5). unfold track_decode.
  assert (Hl : length (track_bytes t) = 18%nat) by (unfold track_bytes; by rewrite !length_app, !length_to_be).
  rewrite passes by (apply bool_decide_eq_false; rewrite length_app; lia).
  unfold track_bytes. rewrite <- !app_assoc. rewrite idx_first. rewrite (idx_field 1 _ [_]) by done.
  rewrite (app_assoc [_]). rewrite read_field by field_side.
  rewrite (app_assoc _ (to_be 4 (info_codec t))). rewrite read_field by field_side.
  rewrite (app_assoc _ (to_be 4 (bitrate_kbps t))). rewrite read_field by field_side. by destruct t.
Qed.

Lemma decode_track_update_bytes track t ts actor : update_ok (TrackUpdated track t ts actor) →
  decode_track_update (update_bytes (TrackUpdated track t ts actor)) = Ok (TrackUpdated track t ts actor, 43%nat).
Proof.
  intros H. pose proof H as (Ht & Hts & Ha & Hi). cbn [update_bytes].
  assert (Hl : length (track_bytes t) = 18%nat) by (unfold track_bytes; by rewrite !length_app, !length_to_be).
  set (b := _ ++ _). assert (Hb : length b = 43%nat) by (unfold b; by rewrite !length_app, Hl, !length_to_be).
  unfold decode_track_update. rewrite passes by (apply bool_decide_eq_false; lia).
  assert (Hr : read_be 8 1 b = Ok (E:=()) track).
  { unfold b. by rewrite (read_be_at 8 1 [2]), of_be_to_be by field_side. }
  rewrite Hr. cbn [mbind outcome_bind].
  assert (Hs : slice 9 (length b) b = Ok (E:=()) (track_bytes t ++ to_be 8 ts ++ to_be 8 actor)).
  { unfold slice. rewrite decide_True by lia. unfold b. rewrite (app_assoc [2]). rewrite <- (app_nil_r (track_bytes t ++ _)) at 2.
    by rewrite sub_list_middle by (rewrite ?app_nil_r, ?length_app, ?Hl, ?length_to_be; done). }
  rewrite Hs. cbn [mbind outcome_bind]. rewrite decode_track_bytes by (split_and!; naive_solver lia). cbn [mbind outcome_bind].
  rewrite passes by (apply bool_decide_eq_false; lia). unfold b. rewrite (app_assoc [2]), (app_assoc _ (track_bytes t)).
  rewrite read_field by (rewrite ?length_app, ?Hl, ?length_to_be; first [done | split; cbn -[Z.pow]; lia]).
  rewrite (app_assoc _ (to_be 8 ts)), <- (app_nil_r (to_be 8 actor)).
  rewrite read_field by (rewrite ?length_app, ?Hl, ?length_to_be; first [done | unfold MAX_ACTORS in *; split; cbn -[Z.pow]; lia]).
  rewrite passes by (rewrite Z.geb_leb; apply Z.leb_gt; lia).
  rewrite upper_half by lia. by rewrite !(proj2 (Z.eqb_neq _ _)) by lia.
Qed.

(** An update a node may send is decoded from its bytes. *)
Lemma update_decode_bytes u : update_ok u → update_decode (update_bytes u) = Ok (u, length (update_bytes u)).
Proof.
  intros H. unfold update_decode. assert (Hne : update_bytes u ≠ []) by (by destruct u). rewrite bool_decide_eq_false_2 by done.
  destruct u as [room p d|room p d|track info ts actor|track p d|track p d|track r|track r];
    cbn [update_bytes]; rewrite idx_first; cbn [Z.eqb Pos.eqb];
    [by rewrite decode_participant_bytes by apply H|by rewrite decode_participant_bytes by apply H
    |etrans; [by apply decode_track_update_bytes|]|by rewrite decode_subscription_bytes by apply H
    |by rewrite decode_subscription_bytes by apply H|by rewrite decode_relay_bytes by apply H|by rewrite decode_relay_bytes by apply H].
  cbn [update_bytes]. unfold track_bytes. by rewrite !length_app, !length_to_be.
Qed.

End GossipProofs.

(** * A gossip message arrives as it was sent

    The bytes [encode] writes fit a datagram, and [decode] reads the message
    back: at most [MAX_PIGGYBACK_UPDATES] updates and
    [MAX_SNAPSHOT_MEMBERS] members of it, and no flow label or scope of an
    IPv6 address. *)


Module GossipRoundTrip.
Import Gossip GossipProofs.

(** ** Length-prefixed updates *)

Definition frame (u : StateUpdate) : list Z := to_be 2 (Z.of_nat (length (update_bytes u))) ++ update_bytes u.
Definition frames (us : list StateUpdate) : list Z := concat (frame <$> us).

Lemma length_frame u : (length (frame u) ≤ 2 + MAX_ENCODED_UPDATE_LEN)%nat.
Proof. unfold frame. rewrite length_app, length_to_be. pose proof (update_length u). lia. Qed.

Lemma length_frames us : (length (frames us) ≤ length us * (2 + MAX_ENCODED_UPDATE_LEN))%nat.
Proof.
  induction us as [|u us IH]; [done|]. unfold frames in *. rewrite fmap_cons. cbn [concat]. rewrite length_app. pose proof (length_frame u). cbn [length]. lia.
Qed.

Lemma written_run {E} (m : st (list Z) E nat) b x r : m b = Ok (length x, x ++ r) → written m b = Ok (x, x ++ r).
Proof.
  intros Hm. unfold written, mbind, st_bind, get, lift. rewrite Hm. cbn. unfold slice. rewrite decide_True by (rewrite length_app; lia).
  unfold sub_list. by rewrite drop_0, Nat.sub_0_r, take_app_length.
Qed.

Lemma encode_all_run {E} us : ∀ b, (MAX_STATE_UPDATE_SIZE ≤ length b)%nat →
  ∃ b', encode_all (E:=E) us b = Ok (frames us, b') ∧ length b' = length b.
Proof.
  induction us as [|u us IH]; intros b Hb; [by exists b|].
  pose proof (update_length u) as Hu. unfold MAX_STATE_UPDATE_SIZE, MAX_ENCODED_UPDATE_LEN in *.
  assert (Hl : length (update_bytes u ++ drop (length (update_bytes u)) b) = length b) by (rewrite length_app, length_drop; lia).
  destruct (IH (update_bytes u ++ drop (length (update_bytes u)) b)) as (b' & Hr & Hb'); [lia|].
  exists b'. split; [|lia]. cbn [encode_all]. unfold mbind, st_bind.
  erewrite written_run by (apply update_encode_run; unfold MAX_STATE_UPDATE_SIZE; lia).
  cbv beta iota. rewrite Hr. unfold mret, st_ret. do 2 f_equal. unfold frames, frame. rewrite fmap_cons. cbn [concat].
  rewrite wrap_small by (split; lia). by rewrite <- app_assoc.
Qed.

Lemma encode_updates_run {E} us : with_buffer (E:=E) MAX_STATE_UPDATE_SIZE (encode_updates us) =
  Ok (to_be 2 (Z.of_nat (length (take MAX_PIGGYBACK_UPDATES us))) ++ frames (take MAX_PIGGYBACK_UPDATES us)).
Proof.
  unfold with_buffer, encode_updates, mbind, st_bind.
  destruct (encode_all_run (E:=E) (take MAX_PIGGYBACK_UPDATES us) (replicate MAX_STATE_UPDATE_SIZE 0)) as (b' & -> & _).
  { by rewrite length_replicate. }
  cbn -[to_be take frames]. rewrite length_take, wrap_small by (unfold MAX_PIGGYBACK_UPDATES; split; lia). by rewrite Nat.min_comm.
Qed.

Lemma decode_updates_frames t s us : ∀ pre post n o, Forall update_ok us → n = length us → o = length pre →
  decode_updates n o (pre ++ frames us ++ post) t s = Ok (us, (o + length (frames us))%nat).
Proof.
  induction us as [|u us IH]; intros pre post n o Hok -> ->; [cbn; by rewrite Nat.add_0_r|].
  apply Forall_cons in Hok as [Hu Hus]. unfold frames. rewrite fmap_cons. cbn [concat length decode_updates]. fold (frames us).
  pose proof (update_length u) as Hl. unfold MAX_ENCODED_UPDATE_LEN in Hl. unfold frame. rewrite <- !app_assoc.
  rewrite passes by (apply bool_decide_eq_false; rewrite !length_app, length_to_be; lia).
  rewrite read_field by (first [done | split; cbn -[Z.pow]; lia]). cbv zeta. rewrite Nat2Z.id.
  rewrite (app_assoc pre). assert (Hp : length (pre ++ to_be 2 (Z.of_nat (length (update_bytes u)))) = (length pre + 2)%nat) by (by rewrite length_app, length_to_be).
  rewrite passes by (apply bool_decide_eq_false; rewrite !length_app, length_to_be; lia).
  assert (Hs : ∀ e l, slice (E:=e) (length pre + 2) (length pre + 2 + length (update_bytes u)) ((pre ++ to_be 2 (Z.of_nat (length (update_bytes u)))) ++ update_bytes u ++ l) = Ok (update_bytes u)).
  { intros e l. unfold slice. rewrite decide_True by (rewrite !length_app, length_to_be; lia). by rewrite sub_list_middle by (rewrite ?Hp; lia). }
  rewrite Hs. cbn [mbind outcome_bind]. rewrite update_decode_bytes by done. cbn [ok mbind outcome_bind].
  rewrite (app_assoc _ (update_bytes u)). erewrite IH; [|done|done|by rewrite length_app, Hp].
  cbn [mbind outcome_bind]. do 2 f_equal. rewrite !length_app, length_to_be. lia.
Qed.

(** ** Addresses *)

Definition addr_bytes (a : SocketAddr) : list Z :=
  match a with
  | V4 ip port => [0] ++ to_be 4 ip ++ to_be 2 port
  | V6 ip port flow scope => [1] ++ to_be 16 ip ++ to_be 2 port ++ to_be 4 flow ++ to_be 4 scope
  end.

Definition addr_ok (a : SocketAddr) : Prop :=
  match a with
  | V4 ip port => is_u32 ip ∧ is_u16 port
  | V6 ip port flow scope => in_range 128 ip ∧ is_u16 port ∧ is_u32 flow ∧ is_u32 scope
  end.

(** The part of an address the decoder returns. *)
Definition plain (a : SocketAddr) : SocketAddr :=
  match a with V4 ip port => V4 ip port | V6 ip port _ _ => V6 ip port 0 0 end.

Lemma length_addr_bytes a : length (addr_bytes a) = match a with V4 _ _ => 7%nat | V6 _ _ _ _ => 27%nat end.
Proof. destruct a; unfold addr_bytes; by rewrite !length_app, !length_to_be. Qed.

Lemma encode_addr_run {E} a b : (27 ≤ length b)%nat →
  encode_socket_addr (E:=E) a b = Ok (length (addr_bytes a), addr_bytes a ++ drop (length (addr_bytes a)) b).
Proof.
  intros Hb. rewrite length_addr_bytes. unfold encode_socket_addr. destruct a as [ip port|ip port flow scope].
  - rewrite (checked (fun b => bool_decide (7 ≤ length b)%nat)) by (apply bool_decide_eq_true; lia).
    change b with ([] ++ b) at 1. writes. unfold addr_bytes. all_written.
  - rewrite (checked (fun b => bool_decide (27 ≤ length b)%nat)) by (apply bool_decide_eq_true; lia).
    change b with ([] ++ b) at 1. writes. unfold addr_bytes. all_written.
Qed.

Lemma decode_addr_bytes a r : addr_ok a → decode_socket_addr (addr_bytes a ++ r) = Ok (plain a, length (addr_bytes a)).
Proof.
  intros Ha. rewrite length_addr_bytes. unfold decode_socket_addr. rewrite bool_decide_eq_false_2 by (by destruct a).
  pose proof (length_addr_bytes a) as Hl. destruct a as [ip port|ip port flow scope]; unfold addr_bytes in *.
  - destruct Ha as [H1 H2]. rewrite <- !app_assoc, idx_first. cbn [Z.eqb].
    rewrite passes by (apply bool_decide_eq_false; rewrite !app_assoc, length_app, <- !app_assoc, Hl; lia).
    rewrite read_field by field_side. rewrite (app_assoc [_]). by rewrite read_field by field_side.
  - destruct Ha as (H1 & H2 & H3 & H4). rewrite <- !app_assoc, idx_first. cbn [Z.eqb Pos.eqb].
    rewrite passes by (apply bool_decide_eq_false; rewrite !app_assoc, length_app, <- !app_assoc, Hl; lia).
    rewrite read_field by field_side. rewrite (app_assoc [_]). by rewrite read_field by field_side.
Qed.

(** ** Members of a snapshot *)

Definition member_ok (m : Z * Z * Z) : Prop := 0 ≤ m.1.1 < MAX_ACTORS ∧ is_u64 m.1.2 ∧ 0 ≤ m.2 ≤ 2.

Definition member_bytes (ms : list (Z * Z * Z)) : list Z := concat (encode_member <$> ms).

Lemma length_members ms : length (member_bytes ms) = (length ms * SNAPSHOT_MEMBER_SIZE)%nat.
Proof.
  induction ms as [|m ms IH]; [done|]. unfold member_bytes in *. rewrite fmap_cons. cbn [concat]. rewrite length_app, IH.
  unfold encode_member. by rewrite !length_app, !length_to_be.
Qed.

Lemma decode_members_bytes ms : ∀ pre post n o, Forall member_ok ms → n = length ms → o = length pre →
  decode_members n o (pre ++ member_bytes ms ++ post) = Ok (ms, (o + length (member_bytes ms))%nat).
Proof.
  induction ms as [|[[a i] x] ms IH]; intros pre post n o Hok -> ->; [cbn; by rewrite Nat.add_0_r|].
  apply Forall_cons in Hok as [(Ha & Hi & Hx) Hms]. cbn in Ha, Hi, Hx. unfold member_bytes. rewrite fmap_cons. cbn [concat length decode_members].
  fold (member_bytes ms). unfold encode_member. cbn [fst snd]. rewrite <- !app_assoc.
  rewrite passes by (apply bool_decide_eq_false; rewrite !length_app, !length_to_be; cbn [length]; lia).
  rewrite read_field by (first [done | unfold MAX_ACTORS in *; split; cbn -[Z.pow]; lia]).
  rewrite (app_assoc pre). rewrite read_field by (rewrite ?length_app, ?length_to_be; done).
  rewrite (app_assoc _ (to_be 8 i)). rewrite idx_field by (rewrite !length_app, !length_to_be; lia).
  rewrite (app_assoc _ [x]). erewrite IH; [|done|done|rewrite !length_app, !length_to_be; cbn [length]; lia].
  cbn [mbind outcome_bind]. rewrite (proj2 (Z.ltb_lt _ _)) by lia. rewrite (proj2 (Z.leb_le _ _)) by lia.
  cbn [andb]. do 2 f_equal. rewrite !length_app, !length_to_be. cbn [length]. lia.
Qed.

(** ** Messages *)

Definition actor_ok (a : Z) : Prop := 0 ≤ a < MAX_ACTORS.

Definition msg_ok (m : GossipMessage) : Prop :=
  match m with
  | Ping from inc us | Ack from inc us => actor_ok from ∧ is_u64 inc ∧ Forall update_ok us
  | PingReq from target ta ra => actor_ok from ∧ actor_ok target ∧ addr_ok ta ∧ addr_ok ra
  | SuspectMsg actor inc | AliveMsg actor inc | ForwardedAck actor inc => actor_ok actor ∧ is_u64 inc
  | DeadMsg actor => actor_ok actor
  | StateSnapshot from inc ms us => actor_ok from ∧ is_u64 inc ∧ Forall member_ok ms ∧ Forall update_ok us
  end.

(** The part of a message that travels. *)
Definition on_wire (m : GossipMessage) : GossipMessage :=
  match m with
  | Ping from inc us => Ping from inc (take MAX_PIGGYBACK_UPDATES us)
  | Ack from inc us => Ack from inc (take MAX_PIGGYBACK_UPDATES us)
  | PingReq from target ta ra => PingReq from target (plain ta) (plain ra)
  | StateSnapshot from inc ms us => StateSnapshot from inc (take MAX_SNAPSHOT_MEMBERS ms) (take MAX_PIGGYBACK_UPDATES us)
  | m => m
  end.

Definition updates_bytes (us : list StateUpdate) : list Z := to_be 2 (Z.of_nat (length us)) ++ frames us.
Definition pair_bytes (a b : Z) : list Z := to_be 8 a ++ to_be 8 b.

Definition body (m : GossipMessage) : list Z :=
  match m with
  | Ping from inc us | Ack from inc us => pair_bytes from inc ++ updates_bytes (take MAX_PIGGYBACK_UPDATES us)
  | PingReq from target ta ra => pair_bytes from target ++ addr_bytes ta ++ addr_bytes ra
  | SuspectMsg actor inc | AliveMsg actor inc | ForwardedAck actor inc => pair_bytes actor inc
  | DeadMsg actor => to_be 8 actor
  | StateSnapshot from inc ms us =>
      pair_bytes from inc ++ to_be 2 (Z.of_nat (length (take MAX_SNAPSHOT_MEMBERS ms))) ++
      member_bytes (take MAX_SNAPSHOT_MEMBERS ms) ++ updates_bytes (take MAX_PIGGYBACK_UPDATES us)
  end.

Definition tag (m : GossipMessage) : Z :=
  match m with
  | Ping _ _ _ => 0 | Ack _ _ _ => 1 | PingReq _ _ _ _ => 2 | SuspectMsg _ _ => 3 | AliveMsg _ _ => 4
  | DeadMsg _ => 5 | ForwardedAck _ _ => 6 | StateSnapshot _ _ _ _ => 7
  end.

Lemma length_updates us : (length us ≤ MAX_PIGGYBACK_UPDATES)%nat → (length (updates_bytes us) ≤ 722)%nat.
Proof.
  intros H. unfold updates_bytes. rewrite length_app, length_to_be. pose proof (length_frames us).
  unfold MAX_PIGGYBACK_UPDATES, MAX_ENCODED_UPDATE_LEN in *. lia.
Qed.

Lemma body_length m : Z.of_nat (length ([tag m] ++ body m)) ≤ MAX_MESSAGE_SIZE.
Proof.
  assert (Hu : ∀ us, (length (updates_bytes (take MAX_PIGGYBACK_UPDATES us)) ≤ 722)%nat) by (intros us; apply length_updates; rewrite length_take; lia).
  rewrite length_app. change (length [tag m]) with 1%nat. unfold MAX_MESSAGE_SIZE.
  destruct m as [f i us|f i us|f t ta ra| | | | |f i ms us]; cbn [body]; unfold pair_bytes;
    rewrite ?length_app, ?length_to_be, ?length_addr_bytes; try specialize (Hu us); try lia.
  - destruct ta, ra; lia.
  - rewrite length_members, length_take. change MAX_SNAPSHOT_MEMBERS with 38%nat. unfold SNAPSHOT_MEMBER_SIZE. lia.
Qed.

Lemma addrs_run {E} ta ra : with_buffer (E:=E) 32 (t ← written (encode_socket_addr ta); r ← written (encode_socket_addr ra); mret (t ++ r)) =
  Ok (addr_bytes ta ++ addr_bytes ra).
Proof.
  unfold with_buffer, mbind, st_bind. pose proof (length_addr_bytes ta) as Ht.
  erewrite written_run by (apply encode_addr_run; rewrite length_replicate; lia). cbv beta iota.
  erewrite written_run by (apply encode_addr_run; rewrite length_app, length_drop, length_replicate, Ht; destruct ta; lia). done.
Qed.

Lemma encode_run {E} m : encode (E:=E) m = Ok ([tag m] ++ body m).
Proof.
  pose proof (body_length m) as Hl. apply Z.leb_le in Hl. unfold encode.
  destruct m as [f i us|f i us|f t ta ra| | | | |f i ms us];
    rewrite ?encode_updates_run, ?addrs_run; cbn [mbind outcome_bind]; unfold body, tag, pair_bytes, updates_bytes, member_bytes in *;
    rewrite <- ?app_assoc in *; try by rewrite Hl.
  rewrite wrap_small by (change MAX_SNAPSHOT_MEMBERS with 38%nat; split; lia). rewrite Nat.min_comm, <- length_take. by rewrite Hl.
Qed.

(** ** Decoding the bytes *)

Lemma actor_field {A} at_ a (p r : list Z) bad (k : Z → decoder A) : length p = at_ → actor_ok a →
  (read_actor at_ (p ++ to_be 8 a ++ r) bad ≫= k) = k a.
Proof.
  intros Hp Ha. unfold actor_ok, MAX_ACTORS in *. unfold read_actor. rewrite read_field by (first [done | split; cbn -[Z.pow]; lia]).
  rewrite passes by (rewrite Z.geb_leb; apply Z.leb_gt; unfold MAX_ACTORS; lia). done.
Qed.

Lemma first_actor {A} a r bad (k : Z → decoder A) : actor_ok a → (read_actor 0 (to_be 8 a ++ r) bad ≫= k) = k a.
Proof. apply (actor_field 0 a [] r). done. Qed.

Lemma count_field {A} (xs : list A) n : (length xs ≤ n)%nat → Z.of_nat (length xs) >? Z.of_nat n = false.
Proof. intros. rewrite Z.gtb_ltb. apply Z.ltb_ge. lia. Qed.

Lemma updates_tail t s p us n : Forall update_ok us → length p = n → (length us ≤ MAX_PIGGYBACK_UPDATES)%nat →
  decode_updates (length us) (n + 2) (p ++ updates_bytes us) t s = Ok (us, (n + 2 + length (frames us))%nat).
Proof.
  intros Hu Hp Hl. unfold updates_bytes. rewrite app_assoc, <- (app_nil_r (frames us)).
  erewrite decode_updates_frames; [by rewrite app_nil_r|done|done|by rewrite length_app, length_to_be, Hp].
Qed.

Lemma take_prefix_ok {A} (P : A → Prop) n xs : Forall P xs → Forall P (take n xs) ∧ (length (take n xs) ≤ n)%nat.
Proof. intros H. split; [by apply Forall_take|rewrite length_take; lia]. Qed.

Lemma decode_probe_body short bad make from inc us : actor_ok from → is_u64 inc → Forall update_ok us →
  (length us ≤ MAX_PIGGYBACK_UPDATES)%nat →
  decode_probe short bad make (pair_bytes from inc ++ updates_bytes us) = Ok (make from inc us).
Proof.
  intros Hf Hi Hu Hl. pose proof (updates_tail "piggyback data truncated" "piggyback update truncated" (pair_bytes from inc) us 16 Hu) as Ht.
  unfold decode_probe. unfold pair_bytes in *. rewrite passes by (apply bool_decide_eq_false; unfold updates_bytes; rewrite !length_app, !length_to_be; lia).
  rewrite <- app_assoc in *. rewrite first_actor by done. rewrite read_field by (by rewrite ?length_to_be).
  assert (Hn : read_be (E:=string) 2 16 (to_be 8 from ++ to_be 8 inc ++ updates_bytes us) = Ok (Z.of_nat (length us))).
  { unfold updates_bytes. rewrite app_assoc. rewrite read_be_at by (rewrite ?length_app, ?length_to_be; done).
    rewrite of_be_to_be; [done|]. unfold MAX_PIGGYBACK_UPDATES in Hl. split; cbn -[Z.pow]; lia. }
  rewrite Hn. cbn [mbind outcome_bind]. rewrite passes by (by apply count_field). rewrite Nat2Z.id.
  change (16 + 2)%nat with 18%nat in Ht. by rewrite Ht by (done || by rewrite length_app, !length_to_be).
Qed.

Lemma decode_pair_body short bad make actor inc : actor_ok actor → is_u64 inc →
  decode_pair short bad make (pair_bytes actor inc) = Ok (make actor inc).
Proof.
  intros Ha Hi. unfold decode_pair, pair_bytes. rewrite passes by (apply bool_decide_eq_false; rewrite length_app, !length_to_be; lia).
  rewrite first_actor by done. rewrite <- (app_nil_r (to_be 8 inc)). by rewrite read_field by (by rewrite ?length_to_be).
Qed.

Lemma slice_rest {E} n (p r : list Z) : length p = n → slice (E:=E) n (length (p ++ r)) (p ++ r) = Ok r.
Proof.
  intros <-. unfold slice. rewrite decide_True by (rewrite length_app; lia). unfold sub_list.
  rewrite drop_app_length. f_equal. apply take_ge. rewrite length_app. lia.
Qed.

Lemma decode_ping_req_body from target ta ra : actor_ok from → actor_ok target → addr_ok ta → addr_ok ra →
  decode_ping_req (pair_bytes from target ++ addr_bytes ta ++ addr_bytes ra) = Ok (PingReq from target (plain ta) (plain ra)).
Proof.
  intros Hf Ht Hta Hra. pose proof (length_addr_bytes ta) as Hl.
  assert (Hp : length (pair_bytes from target) = 16%nat) by (unfold pair_bytes; by rewrite length_app, !length_to_be).
  pose proof (slice_rest (E:=string) 16 (pair_bytes from target) (addr_bytes ta ++ addr_bytes ra) Hp) as Hs1.
  pose proof (slice_rest (E:=string) (16 + length (addr_bytes ta)) (pair_bytes from target ++ addr_bytes ta) (addr_bytes ra)) as Hs2.
  rewrite <- app_assoc, length_app, Hp in Hs2. unfold decode_ping_req.
  rewrite passes by (apply bool_decide_eq_false; rewrite !length_app, Hp, Hl; destruct ta; lia).
  unfold pair_bytes in *. rewrite <- !app_assoc in *. rewrite first_actor by done. rewrite actor_field by (by rewrite ?length_to_be).
  rewrite Hs1. cbn [mbind outcome_bind]. rewrite decode_addr_bytes by done. cbn [map_err mbind outcome_bind].
  rewrite Hs2 by done. cbn [mbind outcome_bind]. rewrite <- (app_nil_r (addr_bytes ra)). by rewrite decode_addr_bytes.
Qed.

Lemma decode_snapshot_body from inc ms us : actor_ok from → is_u64 inc → Forall member_ok ms → Forall update_ok us →
  (length ms ≤ MAX_SNAPSHOT_MEMBERS)%nat → (length us ≤ MAX_PIGGYBACK_UPDATES)%nat →
  decode_state_snapshot (pair_bytes from inc ++ to_be 2 (Z.of_nat (length ms)) ++ member_bytes ms ++ updates_bytes us) =
    Ok (StateSnapshot from inc ms us).
Proof.
  intros Hf Hi Hm Hu Hml Hul. change MAX_SNAPSHOT_MEMBERS with 38%nat in Hml. unfold MAX_PIGGYBACK_UPDATES in Hul.
  set (d := pair_bytes from inc ++ _). unfold decode_state_snapshot.
  assert (Hd : length d = (18 + length (member_bytes ms) + 2 + length (frames us))%nat).
  { unfold d, pair_bytes, updates_bytes. rewrite !length_app, !length_to_be. lia. }
  assert (H1 : ∀ A bad (k : Z → decoder A), (read_actor 0 d bad ≫= k) = k from).
  { intros. unfold d, pair_bytes. rewrite <- app_assoc. by apply first_actor. }
  assert (H2 : read_be (E:=string) 8 8 d = Ok inc).
  { unfold d, pair_bytes. rewrite <- app_assoc. by rewrite read_be_at, of_be_to_be by (by rewrite ?length_to_be). }
  assert (H3 : read_be (E:=string) 2 16 d = Ok (Z.of_nat (length ms))).
  { unfold d, pair_bytes. rewrite read_be_at, of_be_to_be; [done| |by rewrite !length_app, !length_to_be|by rewrite length_to_be]. split; cbn -[Z.pow]; lia. }
  assert (H4 : decode_members (length ms) 18 d = Ok (ms, (18 + length (member_bytes ms))%nat)).
  { unfold d, pair_bytes. rewrite app_assoc. apply decode_members_bytes; [done|done|by rewrite !length_app, !length_to_be]. }
  assert (H5 : read_be (E:=string) 2 (18 + length (member_bytes ms)) d = Ok (Z.of_nat (length us))).
  { unfold d, pair_bytes, updates_bytes. rewrite app_assoc, (app_assoc _ (member_bytes ms)).
    rewrite read_be_at, of_be_to_be; [done| |by rewrite !length_app, !length_to_be|by rewrite length_to_be]. split; cbn -[Z.pow]; lia. }
  rewrite passes by (apply bool_decide_eq_false; lia). rewrite H1, H2. cbn [mbind outcome_bind]. rewrite H3. cbn [mbind outcome_bind].
  rewrite passes by (apply count_field; unfold MAX_PEERS; lia). rewrite Nat2Z.id, H4. cbn [mbind outcome_bind].
  rewrite passes by (apply bool_decide_eq_false; lia). rewrite H5. cbn [mbind outcome_bind].
  rewrite passes by (apply count_field; unfold MAX_PIGGYBACK_UPDATES; lia). rewrite Nat2Z.id.
  unfold d, pair_bytes. rewrite app_assoc, (app_assoc _ (member_bytes ms)).
  by rewrite updates_tail by (first [done|by rewrite !length_app, !length_to_be]).
Qed.

(** C38: A gossip message whose fields fit the protocol is encoded without a
    panic in at most [MAX_MESSAGE_SIZE] bytes, and a peer decodes from them
    the message itself, cut to the updates and members a datagram carries and
    without the flow label and scope of its IPv6 addresses. The fields fit
    when actors are below [MAX_ACTORS], ids are not 0, rooms are below 2^31
    and tracks below 2^63; the senders only refuse id 0, and an update with a
    larger room or track id is skipped by the decoder. *)
Theorem message_round_trip m : msg_ok m →
  ∃ b, encode (E:=string) m = Ok b ∧ Z.of_nat (length b) ≤ MAX_MESSAGE_SIZE ∧ decode b = Ok (on_wire m).
Proof.
  intros Hm. exists ([tag m] ++ body m). split; [apply encode_run|]. split; [apply body_length|].
  unfold decode. rewrite bool_decide_eq_false_2 by done. rewrite idx_first, slice_rest by done. cbn [mbind outcome_bind].
  destruct m as [f i us|f i us|f t ta ra|a i|a i|a|a i|f i ms us]; cbn [tag Z.eqb Pos.eqb body on_wire].
  - destruct Hm as (Ha & Hi & [Hu Hl]%(take_prefix_ok _ MAX_PIGGYBACK_UPDATES)). by apply decode_probe_body.
  - destruct Hm as (Ha & Hi & [Hu Hl]%(take_prefix_ok _ MAX_PIGGYBACK_UPDATES)). by apply decode_probe_body.
  - destruct Hm as (Hf & Ht & Hta & Hra). by apply decode_ping_req_body.
  - destruct Hm. by apply decode_pair_body.
  - destruct Hm. by apply decode_pair_body.
  - unfold decode_dead. rewrite passes by (by rewrite length_to_be). rewrite <- (app_nil_r (to_be 8 a)). by rewrite first_actor.
  - destruct Hm. by apply decode_pair_body.
  - destruct Hm as (Ha & Hi & [Hm Hml]%(take_prefix_ok _ MAX_SNAPSHOT_MEMBERS) & [Hu Hul]%(take_prefix_ok _ MAX_PIGGYBACK_UPDATES)).
    by apply decode_snapshot_body.
Qed.

(** A snapshot of forty members and seventeen updates: 38 and 16 arrive. *)
Definition sample : GossipMessage :=
  StateSnapshot 3 7 (replicate 40 (5, 9, 1)) (replicate 16 (ParticipantAdded 4 5 (mkDot 3 8)) ++ [RelaySubscribe 6 2]).

Lemma message_round_trip_witness :
  ∃ b, encode (E:=string) sample = Ok b ∧ Z.of_nat (length b) ≤ MAX_MESSAGE_SIZE ∧ decode b = Ok (on_wire sample).
Proof.
  apply message_round_trip. repeat split; try lia; cbn; repeat (constructor; [by vm_compute|]); constructor.
Defined.

End GossipRoundTrip.
