(* ===== verification/DistributedState.v ===== *)
(** * The replicated state of the cluster

    [crates/nexus-state/src/distributed_state.rs]: rooms and tracks as
    registers, participants and subscriptions as observed-remove sets, behind
    locks. An operation that writes first takes a value of the local clock
    under the clock's lock, gives the lock back, and then works under the
    locks of the collections: it is modelled as its checks and the tick, and
    as the critical section that gets the clock value. [dbg] says whether
    debug assertions are compiled in; [now] is the wall clock. *)

From stdpp Require Import strings.
From S2P Require Import Prelude Crdt LwwReg Orswot GossipWire.

Module DistributedState.
Import LwwReg.LwwReg (LWWReg, mkReg).
Import Orswot.Orswot (Orswot).
Import Gossip.

Abbreviation LwwSet := (Orswot.Orswot.Orswot).

Definition MAX_ROOMS : nat := Z.to_nat 10000.
Definition MAX_TRACKS : nat := Z.to_nat 100000.
Definition MAX_SUBSCRIPTIONS : nat := Z.to_nat 500000.
Definition MAX_PARTICIPANTS_PER_ROOM : Z := 2000.
Definition MAX_ROOM_NAME_LEN : nat := 256.

(** ** Configuration *)

Record DistributedStateConfig := mkConfig {
  cfg_actor : Z;
  max_rooms : nat;
  max_tracks : nat;
  max_subscriptions : nat;
}.

Definition config_new {E} (actor : Z) : outcome E DistributedStateConfig :=
  assert_ (actor <? MAX_ACTORS);; Ok (mkConfig actor MAX_ROOMS MAX_TRACKS MAX_SUBSCRIPTIONS).

Definition validate {E} (c : DistributedStateConfig) : outcome E () :=
  assert_ (cfg_actor c <? MAX_ACTORS);;
  assert_ (bool_decide (0 < max_rooms c)%nat);;
  assert_ (bool_decide (max_rooms c ≤ MAX_ROOMS)%nat);;
  assert_ (bool_decide (0 < max_tracks c)%nat);;
  assert_ (bool_decide (max_tracks c ≤ MAX_TRACKS)%nat);;
  assert_ (bool_decide (0 < max_subscriptions c)%nat);;
  assert_ (bool_decide (max_subscriptions c ≤ MAX_SUBSCRIPTIONS)%nat).

Definition with_limits {E} (actor : Z) (rooms tracks subs : nat) : outcome E DistributedStateConfig :=
  let config := mkConfig actor rooms tracks subs in
  validate config;; Ok config.

(** ** Rooms *)

Record RoomMetadata := mkRoom {
  room_id : Z;
  name : string;
  max_participants : Z;
  created_at_ns : Z;
}.

Definition default_room : RoomMetadata := mkRoom 0 "" 0 0.

Definition room_new {E} (id : Z) (name : string) (max created : Z) : outcome E RoomMetadata :=
  assert_ (negb (id =? 0));;
  assert_ (bool_decide (String.length name ≤ MAX_ROOM_NAME_LEN)%nat);;
  assert_ (max >? 0);;
  assert_ (max <=? MAX_PARTICIPANTS_PER_ROOM);;
  assert_ (created >? 0);;
  Ok (mkRoom id name max created).

(** [SystemTime::now()] in nanoseconds since the epoch, kept to 64 bits; a
    clock before the epoch panics. *)
Definition new_room_metadata {E} (now : Z) (id : Z) (name : string) (max : Z) : outcome E RoomMetadata :=
  assert_ (0 <=? now);; room_new id name max (wrap 64 now).

Definition check_room_input (name : string) (max : Z) : outcome CrdtError () :=
  fail_if (negb (bool_decide (String.length name ≤ MAX_ROOM_NAME_LEN)%nat)) (InvalidState "room name too long");;
  fail_if ((max =? 0) || (max >? MAX_PARTICIPANTS_PER_ROOM)) (InvalidState "max_participants out of range").

(** ** The state *)

Record State := mkState {
  local_actor : Z;
  version : VersionVector.t;
  rooms : gmap Z (LWWReg RoomMetadata);
  participants : gmap Z (LwwSet Z);
  tracks : gmap Z (LWWReg TrackInfo);
  subscriptions : LwwSet (Z * Z);
  config : DistributedStateConfig;
  broadcast_tx : option (list StateUpdate);
  next_room_id : Z;
}.

Definition set_version v s :=
  mkState (local_actor s) v (rooms s) (participants s) (tracks s) (subscriptions s) (config s) (broadcast_tx s) (next_room_id s).
Definition set_rooms r p s :=
  mkState (local_actor s) (version s) r p (tracks s) (subscriptions s) (config s) (broadcast_tx s) (next_room_id s).
Definition set_participants p s := set_rooms (rooms s) p s.
Definition set_tracks t s :=
  mkState (local_actor s) (version s) (rooms s) (participants s) t (subscriptions s) (config s) (broadcast_tx s) (next_room_id s).
Definition set_subscriptions x s :=
  mkState (local_actor s) (version s) (rooms s) (participants s) (tracks s) x (config s) (broadcast_tx s) (next_room_id s).
Definition set_broadcast b s :=
  mkState (local_actor s) (version s) (rooms s) (participants s) (tracks s) (subscriptions s) (config s) b (next_room_id s).
Definition set_next n s :=
  mkState (local_actor s) (version s) (rooms s) (participants s) (tracks s) (subscriptions s) (config s) (broadcast_tx s) n.

Definition new {E} (c : DistributedStateConfig) : outcome E State :=
  validate c;;
  subs ← Orswot.Orswot.new;
  Ok (mkState (cfg_actor c) VersionVector.new ∅ ∅ ∅ subs c None 1).

(** What was sent on a channel is kept in the order it was sent. *)
Definition set_broadcast_sender {E} : st State E () := modify (set_broadcast (Some [])).

Definition broadcast_update {E} (u : StateUpdate) : st State E () :=
  s ← get;
  match broadcast_tx s with
  | Some sent => put (set_broadcast (Some (sent ++ [u])) s)
  | None => mret ()
  end.

(** A new value of the local clock, under the clock's lock only. *)
Definition tick {E} : st State E Z :=
  s ← get; zoom version set_version (VersionVector.increment (local_actor s)).

(** [debug_assert!] *)
Definition debug_assert {E} (dbg b : bool) : st State E () := if dbg then lift (assert_ b) else mret ().

(** Code that mutates a local value. *)
Definition run_on {T E A} (m : st T E A) (x : T) : outcome E (A * T) :=
  match m x with Ok r => Ok r | Err (e, _) => Err e | Panic => Panic end.

(** Code that mutates the value a map holds at a key. *)
Definition at_key {V E A} (k : Z) (m : st V E A) : st (gmap Z V) E A :=
  fun s => match s !! k with None => Panic | Some v => zoom (fun _ => v) (fun v s => <[k := v]> s) m s end.

(** ** Input checks *)

Definition check_participant_ids (room participant : Z) : outcome CrdtError () :=
  fail_if (room =? 0) (InvalidState "room id 0");; fail_if (participant =? 0) (InvalidState "participant id 0").

Definition check_track_id (track : Z) : outcome CrdtError () := fail_if (track =? 0) (InvalidState "track id 0").

Definition check_subscription_ids (track participant : Z) : outcome CrdtError () :=
  check_track_id track;; fail_if (participant =? 0) (InvalidState "participant id 0").

Definition check_dot (d : Dot) : outcome CrdtError () :=
  fail_if ((actor_id d >=? MAX_ACTORS) || (clock d =? 0)) (InvalidDot (actor_id d) (clock d)).

Definition check_delta (u : StateUpdate) : outcome CrdtError () :=
  match u with
  | ParticipantAdded room p d | ParticipantRemoved room p d => check_participant_ids room p;; check_dot d
  | TrackUpdated track _ ts actor =>
    check_track_id track;;
    fail_if (ts =? 0) (InvalidTimestamp ts);;
    fail_if (actor >=? MAX_ACTORS) (InvalidActorId actor)
  | SubscriptionAdded track p d | SubscriptionRemoved track p d => check_subscription_ids track p;; check_dot d
  | RelaySubscribe _ _ | RelayUnsubscribe _ _ => Ok ()
  end.

(** ** Room operations *)

Definition room_limit (s : State) : CrdtError := CapacityExhausted (wrap 32 (Z.of_nat (max_rooms (config s)))).

Definition insert_room (dbg : bool) (m : RoomMetadata) (ts : Z) : st State CrdtError () :=
  s ← get;
  lift (assert_ (bool_decide (rooms s !! room_id m = None) && bool_decide (size (rooms s) < max_rooms (config s))%nat));;
  reg ← lift (LwwReg.new default_room (local_actor s));
  '(_, reg) ← lift (run_on (LwwReg.set m ts (local_actor s)) reg);
  set ← lift (Orswot.Orswot.with_capacity (Z.to_nat (max_participants m)));
  put (set_rooms (<[room_id m := reg]> (rooms s)) (<[room_id m := set]> (participants s)) s);;
  s ← get;
  debug_assert dbg (bool_decide (is_Some (rooms s !! room_id m)) && bool_decide (is_Some (participants s !! room_id m))).

Definition create_room_locked (dbg : bool) (m : RoomMetadata) (ts : Z) : st State CrdtError () :=
  s ← get;
  if bool_decide (is_Some (rooms s !! room_id m)) then throw DuplicateElement else
  if bool_decide (max_rooms (config s) ≤ size (rooms s))%nat then throw (room_limit s) else
  insert_room dbg m ts.

Definition create_room (dbg : bool) (now id : Z) (name : string) (max : Z) : st State CrdtError () :=
  lift (fail_if (id =? 0) (InvalidState "room id 0"));;
  lift (check_room_input name max);;
  m ← lift (new_room_metadata now id name max);
  ts ← tick;
  create_room_locked dbg m ts.

(** [for _ in 0..=max_rooms]: the next id that is not taken. *)
Fixpoint find_room_id (dbg : bool) (now : Z) (name : string) (max ts : Z) (fuel : nat) : st State CrdtError Z :=
  match fuel with
  | O => s ← get; throw (room_limit s)
  | S fuel =>
    s ← get;
    let id := next_room_id s in
    if id + 1 >=? 2 ^ 32 then throw Overflow else
    modify (set_next (id + 1));;
    lift (assert_ (negb (id =? 0)));;
    if bool_decide (rooms s !! id = None) then
      m ← lift (new_room_metadata now id name max);
      insert_room dbg m ts;;
      mret id
    else find_room_id dbg now name max ts fuel
  end.

Definition create_room_auto_locked (dbg : bool) (now : Z) (name : string) (max ts : Z) : st State CrdtError Z :=
  s ← get;
  if bool_decide (max_rooms (config s) ≤ size (rooms s))%nat then throw (room_limit s) else
  find_room_id dbg now name max ts (S (max_rooms (config s))).

Definition create_room_auto (dbg : bool) (now : Z) (name : string) (max : Z) : st State CrdtError Z :=
  lift (check_room_input name max);;
  ts ← tick;
  create_room_auto_locked dbg now name max ts.

Definition set_next_room_id {E} (id : Z) : st State E () :=
  lift (assert_ (negb (id =? 0)));; modify (set_next id).

Definition get_room (s : State) (id : Z) : option RoomMetadata := LwwReg.value <$> rooms s !! id.
Definition room_exists (s : State) (id : Z) : bool := bool_decide (is_Some (rooms s !! id)).
Definition room_count (s : State) : nat := size (rooms s).

Definition remove_room {E} (id : Z) : st State E bool :=
  s ← get;
  put (set_rooms (delete id (rooms s)) (delete id (participants s)) s);;
  mret (room_exists s id).

(** ** Participants *)

Definition add_participant_locked (dbg : bool) (room p : Z) (d : Dot) : st State CrdtError Dot :=
  s ← get;
  reg ← lift (of_option ElementNotFound (rooms s !! room));
  let max := max_participants (LwwReg.value reg) in
  set ← lift (of_option ElementNotFound (participants s !! room));
  if Orswot.len set >=? max then throw (CapacityExhausted max) else
  zoom participants set_participants (at_key room (Orswot.add p d));;
  s ← get;
  set ← lift (expect (participants s !! room));
  debug_assert dbg (Orswot.contains set p);;
  broadcast_update (ParticipantAdded room p d);;
  mret d.

Definition add_participant (dbg : bool) (room p : Z) : st State CrdtError Dot :=
  lift (check_participant_ids room p);;
  c ← tick; s ← get;
  d ← lift (Dot.new (local_actor s) c);
  add_participant_locked dbg room p d.

Definition remove_participant_locked (dbg : bool) (room p : Z) (d : Dot) : st State CrdtError Dot :=
  s ← get;
  lift (of_option ElementNotFound (participants s !! room));;
  zoom participants set_participants (at_key room (Orswot.remove p d));;
  broadcast_update (ParticipantRemoved room p d);;
  s ← get;
  set ← lift (expect (participants s !! room));
  debug_assert dbg (negb (Orswot.contains set p));;
  mret d.

Definition remove_participant (dbg : bool) (room p : Z) : st State CrdtError Dot :=
  lift (check_participant_ids room p);;
  c ← tick; s ← get;
  d ← lift (Dot.new (local_actor s) c);
  remove_participant_locked dbg room p d.

Definition get_participants (s : State) (room : Z) : list Z :=
  match participants s !! room with
  | Some set => take (Z.to_nat MAX_PARTICIPANTS_PER_ROOM) (Orswot.elements set)
  | None => []
  end.

Definition participant_count (s : State) (room : Z) : Z :=
  match participants s !! room with Some set => Orswot.len set | None => 0 end.

Definition participant_exists (s : State) (room p : Z) : bool :=
  match participants s !! room with Some set => Orswot.contains set p | None => false end.

(** ** Tracks *)

Definition track_limit (s : State) : CrdtError := CapacityExhausted (wrap 32 (Z.of_nat (max_tracks (config s)))).

(** [tracks.entry(track).or_insert_with(..)], then [reg.set(..)] *)
Definition write_track (track : Z) (info : TrackInfo) (ts actor : Z) : st State CrdtError () :=
  s ← get;
  reg ← match tracks s !! track with
        | Some reg => mret reg
        | None => lift (LwwReg.new default_track actor)
        end;
  '(_, reg) ← lift (run_on (LwwReg.set info ts actor) reg);
  put (set_tracks (<[track := reg]> (tracks s)) s).

Definition add_track_locked (track : Z) (info : TrackInfo) (ts : Z) : st State CrdtError Z :=
  s ← get;
  if bool_decide (max_tracks (config s) ≤ size (tracks s))%nat then throw (track_limit s) else
  write_track track info ts (local_actor s);;
  broadcast_update (TrackUpdated track info ts (local_actor s));;
  mret ts.

Definition add_track (track : Z) (info : TrackInfo) : st State CrdtError Z :=
  lift (check_track_id track);; ts ← tick; add_track_locked track info ts.

Definition update_track_locked (track : Z) (info : TrackInfo) (ts : Z) : st State CrdtError Z :=
  s ← get;
  reg ← lift (of_option ElementNotFound (tracks s !! track));
  '(_, reg) ← lift (run_on (LwwReg.set info ts (local_actor s)) reg);
  put (set_tracks (<[track := reg]> (tracks s)) s);;
  broadcast_update (TrackUpdated track info ts (local_actor s));;
  mret ts.

Definition update_track (track : Z) (info : TrackInfo) : st State CrdtError Z :=
  lift (check_track_id track);; ts ← tick; update_track_locked track info ts.

Definition get_track (s : State) (track : Z) : option TrackInfo := LwwReg.value <$> tracks s !! track.
Definition track_count (s : State) : nat := size (tracks s).

Definition remove_track {E} (track : Z) : st State E bool :=
  s ← get;
  put (set_tracks (delete track (tracks s)) s);;
  mret (bool_decide (is_Some (tracks s !! track))).

(** ** Subscriptions *)

Definition subscription_limit (s : State) : CrdtError :=
  CapacityExhausted (wrap 32 (Z.of_nat (max_subscriptions (config s)))).

Definition subscriptions_full (s : State) : bool :=
  bool_decide (max_subscriptions (config s) ≤ Z.to_nat (Orswot.len (subscriptions s)))%nat.

Definition add_subscription_locked (track p : Z) (d : Dot) : st State CrdtError Dot :=
  s ← get;
  if subscriptions_full s then throw (subscription_limit s) else
  zoom subscriptions set_subscriptions (Orswot.add (track, p) d);;
  broadcast_update (SubscriptionAdded track p d);;
  mret d.

Definition add_subscription (track p : Z) : st State CrdtError Dot :=
  lift (check_subscription_ids track p);;
  c ← tick; s ← get;
  d ← lift (Dot.new (local_actor s) c);
  add_subscription_locked track p d.

Definition remove_subscription_locked (track p : Z) (d : Dot) : st State CrdtError Dot :=
  zoom subscriptions set_subscriptions (Orswot.remove (track, p) d);;
  broadcast_update (SubscriptionRemoved track p d);;
  mret d.

Definition remove_subscription (track p : Z) : st State CrdtError Dot :=
  lift (check_subscription_ids track p);;
  c ← tick; s ← get;
  d ← lift (Dot.new (local_actor s) c);
  remove_subscription_locked track p d.

Definition get_subscriptions_for_track {E} (s : State) (track : Z) : outcome E (list Z) :=
  assert_ (negb (track =? 0));;
  Ok (omap (fun e : Z * Z => if e.1 =? track then Some e.2 else None)
        (take (max_subscriptions (config s)) (Orswot.elements (subscriptions s)))).

Definition get_subscriptions_for_participant {E} (s : State) (p : Z) : outcome E (list Z) :=
  assert_ (negb (p =? 0));;
  Ok (omap (fun e : Z * Z => if e.2 =? p then Some e.1 else None)
        (take (max_subscriptions (config s)) (Orswot.elements (subscriptions s)))).

Definition subscription_count (s : State) : Z := Orswot.len (subscriptions s).
Definition has_subscription (s : State) (track p : Z) : bool := Orswot.contains (subscriptions s) (track, p).

(** ** Deltas of other nodes *)

(** The result of a set operation, one of its errors tolerated. *)
Definition tolerate {S A} (e : CrdtError) (m : st S CrdtError A) : st S CrdtError () :=
  fun s => match m s with
           | Ok (_, s') => Ok ((), s')
           | Err (e', s') => if bool_decide (e' = e) then Ok ((), s') else Err (e', s')
           | Panic => Panic
           end.

Definition merge_participant (room : Z) (m : st (LwwSet Z) CrdtError ()) : st State CrdtError () :=
  s ← get;
  match participants s !! room with
  | Some _ => zoom participants set_participants (at_key room m)
  | None => mret ()
  end.

Definition merge_delta (u : StateUpdate) : st State CrdtError () :=
  lift (check_delta u);;
  match u with
  | ParticipantAdded room p d => merge_participant room (tolerate DuplicateElement (Orswot.add p d))
  | ParticipantRemoved room p d => merge_participant room (tolerate ElementNotFound (Orswot.remove p d))
  | TrackUpdated track info ts actor =>
    s ← get;
    if bool_decide (tracks s !! track = None) && bool_decide (max_tracks (config s) ≤ size (tracks s))%nat
    then throw (track_limit s)
    else write_track track info ts actor
  | SubscriptionAdded track p d =>
    s ← get;
    if subscriptions_full s && negb (Orswot.contains (subscriptions s) (track, p)) then throw (subscription_limit s)
    else zoom subscriptions set_subscriptions (tolerate DuplicateElement (Orswot.add (track, p) d))
  | SubscriptionRemoved track p d =>
    zoom subscriptions set_subscriptions (tolerate ElementNotFound (Orswot.remove (track, p) d))
  | RelaySubscribe _ _ | RelayUnsubscribe _ _ => mret ()
  end.

Definition merge_deltas (us : list StateUpdate) : st State CrdtError () :=
  if bool_decide (MAX_PIGGYBACK_UPDATES < length us)%nat then throw (CapacityExhausted (Z.of_nat MAX_PIGGYBACK_UPDATES)) else
  foldr (fun u rest => merge_delta u;; rest) (mret ()) us.

Definition process_gossip_updates (us : list StateUpdate) : st State CrdtError () := merge_deltas us.

(** [order]: the track ids as the hash map yields them. *)
Definition handle_node_failure {E} (order : list Z) (failed : Z) : st State E (nat * nat) :=
  lift (assert_ (failed <? MAX_ACTORS));;
  s ← get;
  let written_by id := match tracks s !! id with Some reg => LwwReg.writer reg =? failed | None => false end in
  let ids := take (max_tracks (config s)) (List.filter written_by order) in
  let removed := length (List.filter (fun id => bool_decide (is_Some (tracks s !! id))) ids) in
  put (set_tracks (foldr delete (tracks s) ids) s);;
  lift (assert_ (bool_decide (removed ≤ max_tracks (config s))%nat));;
  mret (removed, 0%nat).

Definition assert_crdt_invariants {E} (s : State) : outcome E () :=
  assert_ (bool_decide (size (rooms s) ≤ max_rooms (config s))%nat);;
  assert_ (bool_decide (size (tracks s) ≤ max_tracks (config s))%nat);;
  assert_ (bool_decide (Z.to_nat (Orswot.len (subscriptions s)) ≤ max_subscriptions (config s))%nat);;
  assert_ (forallb (fun p => negb (p.1 =? 0)) (map_to_list (rooms s)));;
  assert_ (forallb (fun p => negb (p.1 =? 0)) (map_to_list (tracks s)));;
  assert_ (forallb (fun p => bool_decide (is_Some (participants s !! p.1))) (map_to_list (rooms s))).

(** ** Threads

    What the threads of a node call, and the critical section that is left of
    a call once its inputs are checked and its clock value is taken. Between
    the two other threads may run. *)

Inductive op :=
| CreateRoom (now id : Z) (name : string) (max : Z)
| CreateRoomAuto (now : Z) (name : string) (max : Z)
| RemoveRoom (id : Z)
| AddParticipant (room p : Z)
| RemoveParticipant (room p : Z)
| AddTrack (track : Z) (info : TrackInfo)
| UpdateTrack (track : Z) (info : TrackInfo)
| RemoveTrack (track : Z)
| AddSubscription (track p : Z)
| RemoveSubscription (track p : Z)
| MergeDelta (u : StateUpdate)
| NodeFailed (order : list Z) (failed : Z)
| SetSender.

Inductive work :=
| WCreate (m : RoomMetadata) (ts : Z)
| WCreateAuto (now : Z) (name : string) (max ts : Z)
| WAddParticipant (room p : Z) (d : Dot)
| WRemoveParticipant (room p : Z) (d : Dot)
| WAddTrack (track : Z) (info : TrackInfo) (ts : Z)
| WUpdateTrack (track : Z) (info : TrackInfo) (ts : Z)
| WAddSubscription (track p : Z) (d : Dot)
| WRemoveSubscription (track p : Z) (d : Dot)
| WOther (o : op).

Inductive answer := Done | Room (id : Z) | Dotted (d : Dot) | Stamped (ts : Z) | Found (b : bool) | Removed (n m : nat).

Definition tick_dot {E} : st State E Dot := c ← tick; s ← get; lift (Dot.new (local_actor s) c).

Definition begin (o : op) : st State CrdtError work :=
  match o with
  | CreateRoom now id name max =>
    lift (fail_if (id =? 0) (InvalidState "room id 0"));; lift (check_room_input name max);;
    m ← lift (new_room_metadata now id name max); ts ← tick; mret (WCreate m ts)
  | CreateRoomAuto now name max => lift (check_room_input name max);; ts ← tick; mret (WCreateAuto now name max ts)
  | AddParticipant room p => lift (check_participant_ids room p);; d ← tick_dot; mret (WAddParticipant room p d)
  | RemoveParticipant room p => lift (check_participant_ids room p);; d ← tick_dot; mret (WRemoveParticipant room p d)
  | AddTrack track info => lift (check_track_id track);; ts ← tick; mret (WAddTrack track info ts)
  | UpdateTrack track info => lift (check_track_id track);; ts ← tick; mret (WUpdateTrack track info ts)
  | AddSubscription track p => lift (check_subscription_ids track p);; d ← tick_dot; mret (WAddSubscription track p d)
  | RemoveSubscription track p => lift (check_subscription_ids track p);; d ← tick_dot; mret (WRemoveSubscription track p d)
  | o => mret (WOther o)
  end.

(** A whole call, as one thread makes it. *)
Definition perform (dbg : bool) (o : op) : st State CrdtError answer :=
  match o with
  | CreateRoom now id name max => create_room dbg now id name max;; mret Done
  | CreateRoomAuto now name max => id ← create_room_auto dbg now name max; mret (Room id)
  | RemoveRoom id => b ← remove_room id; mret (Found b)
  | AddParticipant room p => d ← add_participant dbg room p; mret (Dotted d)
  | RemoveParticipant room p => d ← remove_participant dbg room p; mret (Dotted d)
  | AddTrack track info => ts ← add_track track info; mret (Stamped ts)
  | UpdateTrack track info => ts ← update_track track info; mret (Stamped ts)
  | RemoveTrack track => b ← remove_track track; mret (Found b)
  | AddSubscription track p => d ← add_subscription track p; mret (Dotted d)
  | RemoveSubscription track p => d ← remove_subscription track p; mret (Dotted d)
  | MergeDelta u => merge_delta u;; mret Done
  | NodeFailed order failed => '(n, m) ← handle_node_failure order failed; mret (Removed n m)
  | SetSender => set_broadcast_sender;; mret Done
  end.

Definition finish (dbg : bool) (w : work) : st State CrdtError answer :=
  match w with
  | WCreate m ts => create_room_locked dbg m ts;; mret Done
  | WCreateAuto now name max ts => id ← create_room_auto_locked dbg now name max ts; mret (Room id)
  | WAddParticipant room p d => d ← add_participant_locked dbg room p d; mret (Dotted d)
  | WRemoveParticipant room p d => d ← remove_participant_locked dbg room p d; mret (Dotted d)
  | WAddTrack track info ts => ts ← add_track_locked track info ts; mret (Stamped ts)
  | WUpdateTrack track info ts => ts ← update_track_locked track info ts; mret (Stamped ts)
  | WAddSubscription track p d => d ← add_subscription_locked track p d; mret (Dotted d)
  | WRemoveSubscription track p d => d ← remove_subscription_locked track p d; mret (Dotted d)
  | WOther o => perform dbg o
  end.

Lemma perform_split dbg o s : perform dbg o s = (w ← begin o; finish dbg w) s.
Proof.
  destruct o; cbn [perform begin]; try done;
    unfold create_room, create_room_auto, add_participant, remove_participant, add_track, update_track, add_subscription, remove_subscription, tick_dot;
    unfold mbind, st_bind, mret, st_ret, lift, get; repeat (case_match; simplify_eq; try done).
  all: cbn [finish]; unfold mbind, st_bind, mret, st_ret; by match goal with H : ?x = _ |- context [?x] => rewrite H end.
Qed.

(** A node: its state and the calls under way. *)
Record node := mkNode { state : State; pending : list work }.

Inductive event := Begin (o : op) | Finish (i : nat).

Definition step (dbg : bool) (e : event) (x : node) : outcome () node :=
  match e with
  | Begin o =>
    match begin o (state x) with
    | Ok (w, s) => Ok (mkNode s (pending x ++ [w]))
    | Err (_, s) => Ok (mkNode s (pending x))
    | Panic => Panic
    end
  | Finish i =>
    match pending x !! i with
    | None => Ok x
    | Some w =>
      match finish dbg w (state x) with
      | Ok (_, s) | Err (_, s) => Ok (mkNode s (delete i (pending x)))
      | Panic => Panic
      end
    end
  end.

Fixpoint run_events (dbg : bool) (es : list event) (x : node) : outcome () node :=
  match es with [] => Ok x | e :: es => x ← step dbg e x; run_events dbg es x end.

End DistributedState.
