(* ===== verification/DistributedProofs.v ===== *)
(** * The replicated state: invariant, capacity, room ids

    Whatever the threads of a node call, in whatever order their critical
    sections run, and whatever the deltas of other nodes contain, the state
    keeps the invariants of [assert_crdt_invariants] and no call of a release
    build panics. *)

From stdpp Require Import strings.
From S2P Require Import Prelude Wp Crdt LwwReg Orswot OrswotProofs GossipWire DistributedState.

Module DistributedProofs.
Import Gossip DistributedState.

Abbreviation set_wf := OrswotProofs.wf.
Abbreviation limit_of := Orswot.max_elements.

(** ** Sizes of the sets *)

Section sizes.
Context {T : Type} `{EqDecision T}.
Implicit Types (s : LwwSet T).

Lemma add_len x d s r s' : set_wf s → OrswotProofs.add_result x d s r s' →
  Orswot.len s' ≤ Orswot.len s + 1 ∧ (Orswot.contains s x = true → Orswot.len s' ≤ Orswot.len s).
Proof.
  intros Hwf (Hwf' & _ & _ & Hr). unfold Orswot.len. rewrite (OrswotProofs.wf_count _ Hwf), (OrswotProofs.wf_count _ Hwf').
  destruct r; [|destruct Hr as [-> _]; lia]. destruct Hr as (_ & _ & Hp).
  rewrite <- !(length_fmap fst). rewrite OrswotProofs.contains_pairs. split.
  - assert (Hsub : (Orswot.pairs s').*1 ⊆+ x :: (Orswot.pairs s).*1).
    { apply NoDup_submseteq; [apply Hwf'|]. intros y ([y' e] & -> & [[= -> ->]|[Hy _]]%Hp)%list_elem_of_fmap; cbn; [left|].
      right. apply list_elem_of_fmap. by exists (y', e). }
    apply submseteq_length in Hsub. cbn [length] in Hsub. lia.
  - intros Hx. apply inj_le, submseteq_length, NoDup_submseteq; [apply Hwf'|].
    intros y ([y' e] & -> & [[= -> ->]|[Hy _]]%Hp)%list_elem_of_fmap; cbn; [done|]. apply list_elem_of_fmap. by exists (y', e).
Qed.

Lemma remove_len x d s r s' : set_wf s → OrswotProofs.remove_result x d s r s' → Orswot.len s' ≤ Orswot.len s.
Proof.
  intros Hwf (Hwf' & _ & Hr). unfold Orswot.len. rewrite (OrswotProofs.wf_count _ Hwf), (OrswotProofs.wf_count _ Hwf').
  destruct r; [|destruct Hr as [-> _]; lia]. destruct Hr as (e & _ & _ & _ & _ & Hp).
  rewrite <- !(length_fmap fst). apply inj_le, submseteq_length, NoDup_submseteq; [apply Hwf'|].
  intros y ([y' e'] & -> & [Hy _]%Hp)%list_elem_of_fmap. apply list_elem_of_fmap. by exists (y', e').
Qed.

Lemma len_bound s : set_wf s → 0 ≤ Orswot.len s ≤ Z.of_nat (limit_of s).
Proof. apply OrswotProofs.pairs_count. Qed.

End sizes.

(** ** The invariant *)

Record config_ok (c : DistributedStateConfig) : Prop := {
  cfg_actor_ok : 0 ≤ cfg_actor c < MAX_ACTORS;
  cfg_rooms : (0 < max_rooms c ≤ MAX_ROOMS)%nat;
  cfg_tracks : (0 < max_tracks c ≤ MAX_TRACKS)%nat;
  cfg_subs : (0 < max_subscriptions c ≤ MAX_SUBSCRIPTIONS)%nat;
}.

(** A room's register and its participants. *)
Definition room_ok (id : Z) (reg : LwwReg.LWWReg RoomMetadata) (set : LwwSet Z) : Prop :=
  id ≠ 0 ∧ room_id (LwwReg.value reg) = id ∧ 0 < max_participants (LwwReg.value reg) ≤ MAX_PARTICIPANTS_PER_ROOM ∧
  set_wf set ∧ limit_of set = Z.to_nat (max_participants (LwwReg.value reg)).

Record inv (s : State) : Prop := {
  inv_config : config_ok (config s);
  inv_actor : local_actor s = cfg_actor (config s);
  inv_version : actors (version s);
  inv_count : (size (rooms s) ≤ max_rooms (config s))%nat;
  inv_rooms : map_relation (fun id reg set => room_ok id reg set) (fun _ _ => False) (fun _ _ => False) (rooms s) (participants s);
  inv_tracks : map_Forall (fun id reg => id ≠ 0 ∧ 0 ≤ LwwReg.timestamp reg) (tracks s);
  inv_track_count : (size (tracks s) ≤ max_tracks (config s))%nat;
  inv_subs : set_wf (subscriptions s);
  inv_sub_count : Orswot.len (subscriptions s) ≤ Z.of_nat (max_subscriptions (config s));
  inv_next : 0 < next_room_id s < 2 ^ 32;
}.

Lemma inv_lookup s id : inv s →
  match rooms s !! id, participants s !! id with
  | Some reg, Some set => room_ok id reg set
  | None, None => True
  | _, _ => False
  end.
Proof. intros Hi. pose proof (inv_rooms _ Hi id) as H. by destruct (rooms s !! id), (participants s !! id). Qed.

(** Everything the critical sections leave alone. *)
Record kept (s s' : State) : Prop := {
  kept_inv : inv s';
  kept_config : config s' = config s;
  kept_version : version s' = version s;
}.

Lemma kept_refl s : inv s → kept s s.
Proof. by split. Qed.

Lemma kept_trans s1 s2 s3 : kept s1 s2 → kept s2 s3 → kept s1 s3.
Proof. intros [] []. split; [done|congruence..]. Qed.

(** *** Updates of the parts of the state *)

Lemma kept_rooms s r p : inv s → (size r ≤ max_rooms (config s))%nat →
  map_relation (fun id reg set => room_ok id reg set) (fun _ _ => False) (fun _ _ => False) r p → kept s (set_rooms r p s).
Proof. intros [] ? ?. by (split; [split|..]). Qed.

Lemma kept_participants s id set : inv s →
  (∀ reg, rooms s !! id = Some reg → room_ok id reg set) → is_Some (rooms s !! id) → kept s (set_participants (<[id := set]> (participants s)) s).
Proof.
  intros Hi Hs [reg Hr]. apply kept_rooms; [done|apply Hi|]. intros k. pose proof (inv_rooms _ Hi k) as Hk.
  destruct (decide (k = id)) as [->|Hne]; [|by rewrite lookup_insert_ne]. rewrite lookup_insert_eq, Hr. by apply Hs.
Qed.

Lemma kept_tracks s t : inv s → map_Forall (fun id reg => id ≠ 0 ∧ 0 ≤ LwwReg.timestamp reg) t →
  (size t ≤ max_tracks (config s))%nat → kept s (set_tracks t s).
Proof. intros [] ? ?. by (split; [split|..]). Qed.

Lemma kept_subs s x : inv s → set_wf x → Orswot.len x ≤ Z.of_nat (max_subscriptions (config s)) → kept s (set_subscriptions x s).
Proof. intros [] ? ?. by (split; [split|..]). Qed.

Lemma kept_broadcast s b : inv s → kept s (set_broadcast b s).
Proof. intros []. by (split; [split|..]). Qed.

Lemma kept_next s n : inv s → 0 < n < 2 ^ 32 → kept s (set_next n s).
Proof. intros [] ?. by (split; [split|..]). Qed.

(** *** Calls on the parts of the state *)

Lemma wp_broadcast {E} u s (Q : () → State → Prop) (X : E → State → Prop) : inv s →
  (∀ b, kept s (set_broadcast b s) → Q () (set_broadcast b s)) → wp (broadcast_update u) s Q X.
Proof.
  intros Hi HQ. unfold broadcast_update. wp. destruct (broadcast_tx s) eqn:Hb; wp; [apply HQ, kept_broadcast, Hi|].
  assert (Hs : s = set_broadcast (broadcast_tx s) s) by (by destruct s). rewrite Hs. by apply HQ, kept_broadcast.
Qed.

Lemma wp_run_on {S T E A} (m : st T E A) x s (Q : A * T → S → Prop) (X : E → S → Prop) :
  wp m x (fun a x' => Q (a, x') s) (fun e _ => X e s) → wp (lift (run_on m x)) s Q X.
Proof. unfold run_to, lift, run_on. by destruct (m x) as [[]|[]|]. Qed.

Lemma wp_at_key {V E A} k v (m : st V E A) g (Q : A → gmap Z V → Prop) (X : E → gmap Z V → Prop) : g !! k = Some v →
  wp m v (fun a v' => Q a (<[k := v']> g)) (fun e v' => X e (<[k := v']> g)) → wp (at_key k m) g Q X.
Proof. intros Hk. unfold run_to, at_key, zoom. rewrite Hk. by destruct (m v) as [[]|[]|]. Qed.

(** *** The local clock *)

Definition clock_of (s : State) : Z := default 0 (version s !! Z.to_nat (local_actor s)).

Record ticked (c : Z) (s s' : State) : Prop := {
  ticked_inv : inv s';
  ticked_config : config s' = config s;
  ticked_clock : clock_of s' = clock_of s + 1;
  ticked_value : c = clock_of s + 1;
  ticked_rest : s' = set_version (version s') s;
}.

Lemma actor_cell s : inv s → version s !! Z.to_nat (local_actor s) = Some (clock_of s) ∧ 0 ≤ clock_of s < 2 ^ 64.
Proof.
  intros Hi. pose proof (cfg_actor_ok _ (inv_config _ Hi)) as Ha. rewrite <- (inv_actor _ Hi) in Ha. unfold MAX_ACTORS in Ha.
  destruct (inv_version _ Hi) as [Hl Hu]. unfold clock_of.
  destruct (version s !! Z.to_nat (local_actor s)) as [c|] eqn:Hc; [|apply lookup_ge_None in Hc; lia].
  split; [done|]. exact (Forall_lookup_1 _ _ _ _ Hu Hc).
Qed.

Lemma wp_tick {E} s (Q : Z → State → Prop) (X : E → State → Prop) : inv s → clock_of s + 1 < 2 ^ 64 →
  (∀ s', ticked (clock_of s + 1) s s' → Q (clock_of s + 1) s') → wp tick s Q X.
Proof.
  intros Hi Hc HQ. pose proof (actor_cell s Hi) as [Hcell Hr]. pose proof (lookup_lt_Some _ _ _ Hcell) as Hlt.
  pose proof (cfg_actor_ok _ (inv_config _ Hi)) as Ha. rewrite <- (inv_actor _ Hi) in Ha.
  unfold tick. apply wp_bind, wp_get, wp_zoom. unfold VersionVector.increment.
  apply wp_bind, wp_assert; [apply Z.ltb_lt; lia|]. apply wp_bind, wp_get, wp_bind.
  eapply wp_lift_ok; [unfold idx; by rewrite Hcell|]. cbv zeta. apply wp_bind, wp_assert; [by apply Z.ltb_lt|]. apply wp_bind.
  eapply wp_lift_ok; [unfold set_at; by rewrite decide_True|]. wp. apply wp_assert; [rewrite Z.gtb_ltb; apply Z.ltb_lt; lia|].
  wp. apply HQ. split; [|done| |done|by destruct s].
  - destruct Hi as [? ? [Hl Hu]]. split; try done. split; cbn [version set_version]; [by rewrite length_insert|]. apply Forall_insert; [done|]. split; lia.
  - unfold clock_of at 1. cbn [version local_actor set_version]. by rewrite list_lookup_insert_eq.
Qed.

(** A clock value a tick returned. *)
Definition stamp_ok (ts : Z) : Prop := 0 < ts < 2 ^ 64.

Definition local_dot (s : State) (d : Dot) : Prop := actor_id d = local_actor s ∧ 0 < clock d.

Lemma wp_tick_dot {E} s (Q : Dot → State → Prop) (X : E → State → Prop) : inv s → clock_of s + 1 < 2 ^ 64 →
  (∀ s', ticked (clock_of s + 1) s s' → Q (mkDot (local_actor s) (clock_of s + 1)) s') → wp tick_dot s Q X.
Proof.
  intros Hi Hc HQ. pose proof (actor_cell s Hi) as [_ Hr]. unfold tick_dot. apply wp_bind. apply wp_tick; [done..|].
  intros s' Ht. wp. pose proof (cfg_actor_ok _ (inv_config _ Hi)) as Ha. rewrite <- (inv_actor _ Hi) in Ha.
  assert (Hl : local_actor s' = local_actor s) by (rewrite (ticked_rest _ _ _ Ht); done). rewrite Hl.
  eapply wp_lift_ok; [|by apply HQ]. unfold Dot.new. rewrite (proj2 (Z.ltb_lt _ _)) by lia. rewrite Z.gtb_ltb.
  by rewrite (proj2 (Z.ltb_lt _ _)) by lia.
Qed.

(** ** Rooms *)

Definition meta_ok (m : RoomMetadata) : Prop := room_id m ≠ 0 ∧ 0 < max_participants m ≤ MAX_PARTICIPANTS_PER_ROOM.

Lemma wp_new_room {E} now id name max (s : State) (Q : RoomMetadata → State → Prop) (X : E → State → Prop) :
  0 ≤ now → 0 < wrap 64 now → id ≠ 0 → check_room_input name max = Ok () → 0 ≤ max →
  (meta_ok (mkRoom id name max (wrap 64 now)) → Q (mkRoom id name max (wrap 64 now)) s) →
  wp (lift (new_room_metadata now id name max)) s Q X.
Proof.
  intros Hn Hw Hid Hc Hm HQ. unfold check_room_input in Hc. case_bool_decide as Hl; [|done]. cbn [negb fail_if mbind outcome_bind] in Hc.
  destruct (Z.eqb_spec max 0); [done|]. rewrite Z.gtb_ltb in Hc. destruct (Z.ltb_spec MAX_PARTICIPANTS_PER_ROOM max); [done|].
  eapply wp_lift_ok; [|by apply HQ; split; [|cbn; lia]]. unfold new_room_metadata, room_new.
  rewrite (proj2 (Z.leb_le 0 now)) by lia. rewrite (proj2 (Z.eqb_neq id 0)) by done. rewrite bool_decide_eq_true_2 by done.
  rewrite !Z.gtb_ltb. rewrite (proj2 (Z.ltb_lt 0 max)) by lia. rewrite (proj2 (Z.leb_le max _)) by lia.
  by rewrite (proj2 (Z.ltb_lt 0 (wrap 64 now))).
Qed.

(** The register of a new room and its empty set of participants. *)
Definition room_entry (s : State) (m : RoomMetadata) (ts : Z) : LwwReg.LWWReg RoomMetadata := LwwReg.mkReg m ts (local_actor s).
Definition empty_set (max : nat) : LwwSet Z := Orswot.mkSet [] max 0 [] (Nat.min (2 * max) Orswot.MAX_TOMBSTONES) 0 0.

Definition with_room (s : State) (m : RoomMetadata) (ts : Z) : State :=
  set_rooms (<[room_id m := room_entry s m ts]> (rooms s))
            (<[room_id m := empty_set (Z.to_nat (max_participants m))]> (participants s)) s.

Lemma insert_room_run dbg m ts s : inv s → meta_ok m → stamp_ok ts → rooms s !! room_id m = None →
  (size (rooms s) < max_rooms (config s))%nat →
  insert_room dbg m ts s = Ok ((), with_room s m ts) ∧ kept s (with_room s m ts).
Proof.
  intros Hi [Hid Hmax] [Hts _] Hnone Hsize. pose proof (cfg_actor_ok _ (inv_config _ Hi)) as Ha. rewrite <- (inv_actor _ Hi) in Ha.
  unfold MAX_PARTICIPANTS_PER_ROOM in Hmax.
  assert (Hcap : ∀ e, Orswot.with_capacity (E:=e) (T:=Z) (Z.to_nat (max_participants m)) = Ok (empty_set (Z.to_nat (max_participants m)))).
  { intros e. unfold Orswot.with_capacity. rewrite bool_decide_eq_true_2 by (unfold Orswot.MAX_ELEMENTS; lia). done. }
  split.
  - unfold insert_room. unfold mbind, st_bind, get, lift. rewrite Hnone. rewrite !bool_decide_eq_true_2 by done. cbn [andb assert_].
    unfold LwwReg.new. rewrite (proj2 (Z.ltb_lt _ _)) by lia. cbn [assert_ mbind outcome_bind].
    destruct (LwwReg.set_merge (E:=CrdtError) m ts (local_actor s) (LwwReg.mkReg default_room 0 (local_actor s))) as (b & Hset); [lia|lia|done|].
    unfold run_on. rewrite Hset. assert (Hmerge : LwwReg.merge (LwwReg.mkReg default_room 0 (local_actor s)) (LwwReg.mkReg m ts (local_actor s)) = room_entry s m ts).
    { unfold LwwReg.merge. cbn. rewrite Z.gtb_ltb. by rewrite (proj2 (Z.ltb_lt 0 ts)). }
    rewrite Hmerge, Hcap. cbn [put rooms participants set_rooms]. unfold debug_assert. destruct dbg; [|done].
    unfold lift. rewrite !lookup_insert_eq. done.
  - apply kept_rooms; [done|rewrite map_size_insert_None by done; lia|]. intros k. pose proof (inv_rooms _ Hi k) as Hk.
    destruct (decide (k = room_id m)) as [->|Hne]; [|by rewrite !lookup_insert_ne by done].
    rewrite !lookup_insert_eq. split; [done|]. split; [done|]. split; [done|].
    split; [by apply (OrswotProofs.wf_with_capacity (E:=unit) _ _ (Hcap unit))|done].
Qed.

(** The ids from [a] to [b] are all taken. *)
Definition taken (s : State) (a b : Z) : Prop := ∀ k, a ≤ k < b → is_Some (rooms s !! k).

Lemma taken_bound s a b : a ≤ b → taken s a b → b - a ≤ Z.of_nat (size (rooms s)).
Proof.
  intros Hab Ht. rewrite <- (size_dom (D:=gset Z)).
  transitivity (Z.of_nat (length (seqZ a (b - a)))); [rewrite length_seqZ; lia|]. apply inj_le.
  rewrite <- (size_list_to_set (C:=gset Z)) by apply NoDup_seqZ. apply subseteq_size. intros k.
  rewrite elem_of_list_to_set, elem_of_seqZ, elem_of_dom. intros Hk. apply Ht. lia.
Qed.

(** What [create_room_auto] needs of its input and of the wall clock. *)
Definition wall_ok (now : Z) : Prop := 0 ≤ now ∧ 0 < wrap 64 now.

(** The state after the id [id] was given out. *)
Definition room_created (now : Z) (name : string) (max ts id : Z) (s : State) : State :=
  with_room (set_next (id + 1) s) (mkRoom id name max (wrap 64 now)) ts.

Lemma set_next_twice a b s : set_next a (set_next b s) = set_next a s.
Proof. done. Qed.

Lemma find_room_id_ok dbg now name max ts fuel : wall_ok now → check_room_input name max = Ok () → 0 ≤ max → stamp_ok ts →
  ∀ s, inv s → (size (rooms s) < max_rooms (config s))%nat →
  wp (find_room_id dbg now name max ts fuel) s
    (fun id s' => next_room_id s ≤ id < 2 ^ 32 - 1 ∧ taken s (next_room_id s) id ∧ rooms s !! id = None ∧
                  s' = room_created now name max ts id s ∧ kept s s')
    (fun e s' => ∃ n, next_room_id s ≤ n ∧ taken s (next_room_id s) n ∧ s' = set_next n s ∧ kept s s' ∧
                 (e = Overflow ∧ n = 2 ^ 32 - 1 ∨ e = room_limit s ∧ n = next_room_id s + Z.of_nat fuel)).
Proof.
  intros [Hw1 Hw2] Hin Hm Hts. induction fuel as [|fuel IH]; intros s Hi Hsize; cbn [find_room_id]; pose proof (inv_next _ Hi) as Hn.
  { wp. exists (next_room_id s). split; [lia|]. split; [intros k Hk; lia|]. split; [by destruct s|]. split; [by apply kept_refl|right]. split; [done|lia]. }
  wp. rewrite Z.geb_leb. destruct (Z.leb_spec (2 ^ 32) (next_room_id s + 1)).
  { wp. exists (next_room_id s). split; [lia|]. split; [intros k Hk; lia|]. split; [by destruct s|]. split; [by apply kept_refl|left]. split; [done|lia]. }
  wp. apply wp_assert; [apply negb_true_iff, Z.eqb_neq; lia|].
  assert (Hk1 : kept s (set_next (next_room_id s + 1) s)) by (apply kept_next; [done|lia]). case_bool_decide as Hfree.
  - apply wp_bind. apply wp_new_room; [done..|lia|done|done|]. intros Hmeta. apply wp_bind.
    destruct (insert_room_run dbg _ ts _ (kept_inv _ _ Hk1) Hmeta Hts Hfree Hsize) as [Hrun Hk2].
    eapply wp_ok; [exact Hrun|]. apply wp_ret. split; [lia|]. split; [intros k Hk; lia|]. split; [done|]. split; [done|].
    by eapply kept_trans.
  - eapply wp_conseq; [apply IH; [apply Hk1|done]|..].
    + intros id s' (Hge & Ht & Hnone & -> & Hk2). cbn [next_room_id set_next rooms] in *. split; [lia|].
      split; [|split; [done|split; [done|by eapply kept_trans]]]. intros k Hk.
      destruct (decide (k = next_room_id s)) as [->|]; [by apply not_eq_None_Some|apply Ht; lia].
    + intros e s' (n & Hge & Ht & -> & Hk2 & He). cbn [next_room_id set_next rooms] in *. exists n. split; [lia|].
      split; [|split; [done|split; [by eapply kept_trans|destruct He as [|[-> ->]]; [by left|right; split; [done|lia]]]]]. intros k Hk.
      destruct (decide (k = next_room_id s)) as [->|]; [by apply not_eq_None_Some|apply Ht; lia].
Qed.

(** C33: [create_room_auto] always ends: with room below the limit and the id
    space not used up, its loop finds a free id within the rounds the bound
    allows. The id is the first free one from the counter on, is never 0, and
    is never handed out again: the counter moves past it. The room is new and
    empty, and no other room changes. *)
Theorem create_room_auto_finds dbg now name max ts s :
  inv s → wall_ok now → check_room_input name max = Ok () → 0 ≤ max → stamp_ok ts →
  (size (rooms s) < max_rooms (config s))%nat → next_room_id s + Z.of_nat (size (rooms s)) < 2 ^ 32 - 1 →
  ∃ id, create_room_auto_locked dbg now name max ts s = Ok (id, room_created now name max ts id s) ∧
    next_room_id s ≤ id ≤ next_room_id s + Z.of_nat (size (rooms s)) ∧ id ≠ 0 ∧
    rooms s !! id = None ∧ taken s (next_room_id s) id ∧ inv (room_created now name max ts id s).
Proof.
  intros Hi Hw Hin Hm Hts Hsize Hspace. pose proof (inv_next _ Hi).
  pose proof (find_room_id_ok dbg now name max ts (S (max_rooms (config s))) Hw Hin Hm Hts s Hi Hsize) as Hrun.
  unfold create_room_auto_locked. unfold mbind at 1, st_bind at 1, get at 1. rewrite bool_decide_eq_false_2 by lia. unfold run_to in Hrun.
  destruct (find_room_id _ _ _ _ _ _ s) as [[id s']|[e s']|]; [| |done].
  - destruct Hrun as (Hid & Ht & Hnone & -> & Hk). pose proof (taken_bound s _ id (proj1 Hid) Ht). exists id.
    split; [done|]. split; [lia|]. split; [lia|]. split; [done|]. split; [done|apply Hk].
  - exfalso. destruct Hrun as (n & Hge & Ht & _ & _ & [[_ ->]|[_ ->]]); apply taken_bound in Ht; lia.
Qed.

(** ** Every critical section keeps the invariant *)

Abbreviation keeps s := (fun _ s' => kept s s').

Lemma create_room_safe dbg m ts s : inv s → meta_ok m → stamp_ok ts → wp (create_room_locked dbg m ts) s (keeps s) (keeps s).
Proof.
  intros Hi Hm Hts. unfold create_room_locked. wp. case_bool_decide as Hdup; [wp; by apply kept_refl|].
  case_bool_decide as Hfull; [wp; by apply kept_refl|].
  destruct (insert_room_run dbg m ts s Hi Hm Hts) as [Hrun Hk]; [by apply eq_None_not_Some|lia|]. by eapply wp_ok.
Qed.

Lemma create_room_auto_safe dbg now name max ts s : inv s → wall_ok now → check_room_input name max = Ok () → 0 ≤ max → stamp_ok ts →
  wp (create_room_auto_locked dbg now name max ts) s (keeps s) (keeps s).
Proof.
  intros Hi Hw Hin Hm Hts. unfold create_room_auto_locked. wp. case_bool_decide as Hfull; [wp; by apply kept_refl|].
  eapply wp_conseq; [apply find_room_id_ok; [done..|lia]|by intros ? ? (? & ? & ? & ? & ?)|by intros ? ? (? & ? & ? & ? & ? & ?)].
Qed.

Lemma remove_room_safe {E} id s : inv s → wp (remove_room id : st State E bool) s (keeps s) (keeps s).
Proof.
  intros Hi. unfold remove_room. wp. apply kept_rooms; [done| |].
  - pose proof (inv_count _ Hi). rewrite map_size_delete. destruct (rooms s !! id); [etrans; [apply Nat.le_pred_l|]|]; done.
  - intros k. pose proof (inv_rooms _ Hi k) as Hk. destruct (decide (k = id)) as [->|Hne]; [|by rewrite !lookup_delete_ne].
    by rewrite !lookup_delete_eq.
Qed.

(** *** Participants *)

Definition dot_valid (d : Dot) : Prop := 0 ≤ actor_id d < MAX_ACTORS ∧ 0 < clock d.

Lemma kept_set s room reg set set' : inv s → rooms s !! room = Some reg → participants s !! room = Some set →
  set_wf set' → limit_of set' = limit_of set → kept s (set_participants (<[room := set']> (participants s)) s).
Proof.
  intros Hi Hr Hp Hwf Hm. pose proof (inv_lookup s room Hi) as Hl. rewrite Hr, Hp in Hl. destruct Hl as (? & ? & ? & ? & Hlim).
  apply kept_participants; [done| |by eexists]. intros reg' Hr'. rewrite Hr in Hr'. injection Hr' as <-.
  split; [done|]. split; [done|]. split; [done|]. split; [done|congruence].
Qed.

(** A call on the participants of a room that keeps the set well formed. *)
Lemma wp_room_set {A} (m : st (LwwSet Z) CrdtError A) room s set (Q : A → State → Prop) X : inv s → participants s !! room = Some set →
  wp m set (fun a set' => set_wf set' ∧ limit_of set' = limit_of set ∧
      ∀ s', s' = set_participants (<[room := set']> (participants s)) s → kept s s' → Q a s')
    (fun e set' => set_wf set' ∧ limit_of set' = limit_of set ∧
      ∀ s', s' = set_participants (<[room := set']> (participants s)) s → kept s s' → X e s') →
  wp (zoom participants set_participants (at_key room m)) s Q X.
Proof.
  intros Hi Hp Hm. pose proof (inv_lookup s room Hi) as Hl. rewrite Hp in Hl. destruct (rooms s !! room) as [reg|] eqn:Hr; [|done].
  apply wp_zoom. eapply wp_at_key; [done|]. eapply wp_conseq; [exact Hm|..]; cbn beta; intros ? set' (Hwf & Hlim & HQ); (apply HQ; [done|]);
    by eapply kept_set.
Qed.

Lemma set_room_wf s room set : inv s → participants s !! room = Some set → set_wf set.
Proof. intros Hi Hp. pose proof (inv_lookup s room Hi) as Hl. rewrite Hp in Hl. destruct (rooms s !! room); [apply Hl|done]. Qed.

Lemma add_set_ok {T} `{EqDecision T} x d (s : LwwSet T) : set_wf s →
  wp (Orswot.add x d) s (fun r s' => set_wf s' ∧ limit_of s' = limit_of s ∧ OrswotProofs.add_result x d s r s')
    (fun _ s' => s' = s).
Proof. intros Hwf. eapply wp_conseq; [by apply OrswotProofs.add_ok|intros r s' H; pose proof H as (? & ? & ? & _); by split_and!|by intros e s' [-> _]]. Qed.

Lemma remove_set_ok {T} `{EqDecision T} x d (s : LwwSet T) : set_wf s →
  wp (Orswot.remove x d) s (fun r s' => set_wf s' ∧ limit_of s' = limit_of s ∧ OrswotProofs.remove_result x d s r s')
    (fun _ s' => s' = s).
Proof. intros Hwf. eapply wp_conseq; [by apply OrswotProofs.remove_ok|intros r s' H; pose proof H as (? & ? & _); by split_and!|by intros e s' [-> _]]. Qed.

Lemma wp_tolerate {S A} e (m : st S CrdtError A) s (Q : () → S → Prop) X :
  wp m s (fun _ s' => Q () s') (fun e' s' => if decide (e' = e) then Q () s' else X e' s') → wp (tolerate e m) s Q X.
Proof. unfold run_to, tolerate. destruct (m s) as [[]|[e' ?]|]; [done| |done]. case_bool_decide; by case_decide. Qed.

Lemma add_participant_safe room p d s : inv s → wp (add_participant_locked false room p d) s (keeps s) (keeps s).
Proof.
  intros Hi. unfold add_participant_locked. wp. destruct (rooms s !! room) as [reg|]; [|by apply kept_refl]. wp.
  destruct (participants s !! room) as [set|] eqn:Hp; [|by apply kept_refl]. wp.
  destruct (_ >=? _); [wp; by apply kept_refl|]. apply wp_bind. eapply wp_room_set; [done..|].
  pose proof (set_room_wf s room set Hi Hp) as Hwf. eapply wp_conseq; [by apply add_set_ok|..]; cbn beta.
  - intros r set' (Hwf' & Hlim & _). split; [done|]. split; [done|]. intros s' -> Hk. wp.
    eapply wp_lift_ok; [cbn; by rewrite lookup_insert_eq|]. wp. apply wp_ret. wp. apply wp_broadcast; [apply Hk|].
    intros b Hb. wp. by eapply kept_trans.
  - intros e set' ->. split; [done|]. split; [done|]. by intros s' _ Hk.
Qed.

Lemma remove_participant_safe room p d s : inv s → wp (remove_participant_locked false room p d) s (keeps s) (keeps s).
Proof.
  intros Hi. unfold remove_participant_locked. wp.
  destruct (participants s !! room) as [set|] eqn:Hp; [|by apply kept_refl]. wp. eapply wp_room_set; [done..|].
  pose proof (set_room_wf s room set Hi Hp) as Hwf. eapply wp_conseq; [by apply remove_set_ok|..]; cbn beta.
  - intros r set' (Hwf' & Hlim & _). split; [done|]. split; [done|]. intros s' -> Hk. wp. apply wp_broadcast; [apply Hk|]. intros b Hb. wp.
    eapply wp_lift_ok; [cbn; by rewrite lookup_insert_eq|]. wp. apply wp_ret. wp. by eapply kept_trans.
  - intros e set' ->. split; [done|]. split; [done|]. by intros s' _ Hk.
Qed.

(** *** Tracks *)

Lemma wp_reg_set {S T} v ts actor (r : LwwReg.LWWReg T) (s : S) (Q : bool * LwwReg.LWWReg T → S → Prop) (X : CrdtError → S → Prop) :
  0 < ts → actor < MAX_ACTORS → 0 ≤ LwwReg.timestamp r → (∀ b, Q (b, LwwReg.merge r (LwwReg.mkReg v ts actor)) s) →
  wp (lift (run_on (LwwReg.set v ts actor) r)) s Q X.
Proof.
  intros Hts Ha Hr HQ. destruct (LwwReg.set_merge (E:=CrdtError) v ts actor r Hts Ha Hr) as (b & Hb).
  apply wp_run_on. eapply wp_ok; [exact Hb|apply HQ].
Qed.

Lemma merge_reg_timestamp {T} (r : LwwReg.LWWReg T) v ts actor : 0 ≤ LwwReg.timestamp r → 0 < ts →
  0 ≤ LwwReg.timestamp (LwwReg.merge r (LwwReg.mkReg v ts actor)).
Proof. intros Hr Hts. rewrite LwwReg.merge_timestamp by (cbn; lia). cbn. lia. Qed.

Lemma kept_track s track reg : inv s → track ≠ 0 → 0 ≤ LwwReg.timestamp reg →
  (is_Some (tracks s !! track) ∨ (size (tracks s) < max_tracks (config s))%nat) → kept s (set_tracks (<[track := reg]> (tracks s)) s).
Proof.
  intros Hi Hid Hts Hroom. apply kept_tracks; [done|apply map_Forall_insert_2; [done|apply Hi]|].
  pose proof (inv_track_count _ Hi). rewrite map_size_insert. destruct (tracks s !! track); [done|]. destruct Hroom as [[? [=]]|]; lia.
Qed.

Lemma write_track_safe track info ts actor s (Q : () → State → Prop) X : inv s → track ≠ 0 → 0 < ts → 0 ≤ actor < MAX_ACTORS →
  (is_Some (tracks s !! track) ∨ (size (tracks s) < max_tracks (config s))%nat) →
  (∀ s', kept s s' → Q () s') → wp (write_track track info ts actor) s Q X.
Proof.
  intros Hi Hid Hts Ha Hroom HQ. unfold write_track. apply wp_bind, wp_get, wp_bind.
  set (reg := default (LwwReg.mkReg default_track 0 actor) (tracks s !! track)).
  assert (Hreg : 0 ≤ LwwReg.timestamp reg).
  { unfold reg. destruct (tracks s !! track) eqn:Ht; [|done]. apply (inv_tracks _ Hi _ _ Ht). }
  eapply (wp_ok _ _ reg s).
  { unfold reg. destruct (tracks s !! track); [done|]. unfold lift, LwwReg.new. by rewrite (proj2 (Z.ltb_lt _ _)) by lia. }
  apply wp_bind, wp_reg_set; [done|lia|done|]. intros b. wp. apply HQ, kept_track; [done..| |done]. by apply merge_reg_timestamp.
Qed.

Lemma add_track_safe track info ts s : inv s → track ≠ 0 → stamp_ok ts → wp (add_track_locked track info ts) s (keeps s) (keeps s).
Proof.
  intros Hi Hid [Hts _]. pose proof (cfg_actor_ok _ (inv_config _ Hi)) as Ha. rewrite <- (inv_actor _ Hi) in Ha.
  unfold add_track_locked. wp. case_bool_decide; [wp; by apply kept_refl|].
  apply wp_bind, write_track_safe; [done..|right; lia|]. intros s' Hk. wp. apply wp_broadcast; [apply Hk|]. intros b Hb. wp. by eapply kept_trans.
Qed.

Lemma update_track_safe track info ts s : inv s → track ≠ 0 → stamp_ok ts → wp (update_track_locked track info ts) s (keeps s) (keeps s).
Proof.
  intros Hi Hid [Hts _]. pose proof (cfg_actor_ok _ (inv_config _ Hi)) as Ha. rewrite <- (inv_actor _ Hi) in Ha.
  unfold update_track_locked. wp. destruct (tracks s !! track) as [reg|] eqn:Ht; [|by apply kept_refl].
  assert (Hreg : 0 ≤ LwwReg.timestamp reg) by apply (inv_tracks _ Hi _ _ Ht). wp.
  apply wp_reg_set; [done|lia|done|]. intros b. wp.
  assert (Hk : kept s (set_tracks (<[track := LwwReg.merge reg (LwwReg.mkReg info ts (local_actor s))]> (tracks s)) s)).
  { apply kept_track; [done..|by apply merge_reg_timestamp|left; by eexists]. }
  apply wp_broadcast; [apply Hk|]. intros bs Hb. wp. by eapply kept_trans.
Qed.

Lemma remove_track_safe {E} track s : inv s → wp (remove_track track : st State E bool) s (keeps s) (keeps s).
Proof.
  intros Hi. unfold remove_track. wp. apply kept_tracks; [done|apply map_Forall_delete, Hi|].
  pose proof (inv_track_count _ Hi). rewrite map_size_delete. destruct (tracks s !! track); [etrans; [apply Nat.le_pred_l|]|]; done.
Qed.

(** *** Subscriptions *)

Lemma subscriptions_room s : inv s → subscriptions_full s = false → Orswot.len (subscriptions s) < Z.of_nat (max_subscriptions (config s)).
Proof.
  intros Hi. unfold subscriptions_full. case_bool_decide as H; [done|]. intros _. pose proof (len_bound _ (inv_subs _ Hi)). lia.
Qed.

Lemma wp_add_sub track p d s (Q : bool → State → Prop) (X : CrdtError → State → Prop) : inv s →
  (subscriptions_full s = false ∨ Orswot.contains (subscriptions s) (track, p) = true) →
  (∀ b s', kept s s' → Q b s') → (∀ e s', kept s s' → X e s') →
  wp (zoom subscriptions set_subscriptions (Orswot.add (track, p) d)) s Q X.
Proof.
  intros Hi Hroom HQ HX. apply wp_zoom. eapply wp_conseq; [apply add_set_ok, Hi|..]; cbn beta.
  - intros r x (Hwf & _ & Hr). apply HQ, kept_subs; [done..|]. destruct (add_len _ _ _ _ _ (inv_subs _ Hi) Hr) as [H1 H2].
    pose proof (inv_sub_count _ Hi). destruct Hroom as [Hf|Hc]; [pose proof (subscriptions_room s Hi Hf)|specialize (H2 Hc)]; lia.
  - intros e x ->. apply HX, kept_subs; [done|apply Hi|apply Hi].
Qed.

Lemma wp_remove_sub track p d s (Q : bool → State → Prop) (X : CrdtError → State → Prop) : inv s →
  (∀ b s', kept s s' → Q b s') → (∀ e s', kept s s' → X e s') →
  wp (zoom subscriptions set_subscriptions (Orswot.remove (track, p) d)) s Q X.
Proof.
  intros Hi HQ HX. apply wp_zoom. eapply wp_conseq; [apply remove_set_ok, Hi|..]; cbn beta.
  - intros r x (Hwf & _ & Hr). apply HQ, kept_subs; [done..|]. pose proof (remove_len _ _ _ _ _ (inv_subs _ Hi) Hr).
    pose proof (inv_sub_count _ Hi). lia.
  - intros e x ->. apply HX, kept_subs; [done|apply Hi|apply Hi].
Qed.

Lemma add_subscription_safe track p d s : inv s → wp (add_subscription_locked track p d) s (keeps s) (keeps s).
Proof.
  intros Hi. unfold add_subscription_locked. wp. destruct (subscriptions_full s) eqn:Hf; [wp; by apply kept_refl|].
  apply wp_bind, wp_add_sub; [done|by left|intros _ s' Hk|done]. wp. apply wp_broadcast; [apply Hk|]. intros b Hb. wp. by eapply kept_trans.
Qed.

Lemma remove_subscription_safe track p d s : inv s → wp (remove_subscription_locked track p d) s (keeps s) (keeps s).
Proof.
  intros Hi. unfold remove_subscription_locked.
  apply wp_bind, wp_remove_sub; [done|intros _ s' Hk|done]. wp. apply wp_broadcast; [apply Hk|]. intros b Hb. wp. by eapply kept_trans.
Qed.

(** *** Deltas *)

(** Numbers of a delta as the decoder yields them. *)
Definition delta_typed (u : StateUpdate) : Prop :=
  match u with TrackUpdated _ _ ts actor => 0 ≤ ts ∧ 0 ≤ actor | _ => True end.

Lemma wp_zoom_tolerate {S T A} (f : S → T) g e (m : st T CrdtError A) s (Q : () → S → Prop) X :
  wp (zoom f g m) s (fun _ s' => Q () s') (fun e' s' => if decide (e' = e) then Q () s' else X e' s') →
  wp (zoom f g (tolerate e m)) s Q X.
Proof. unfold run_to, zoom, tolerate. destruct (m (f s)) as [[]|[e' ?]|]; [done| |done]. case_bool_decide; by case_decide. Qed.

Lemma merge_participant_safe {A} room e (m : st (LwwSet Z) CrdtError A) s : inv s →
  (∀ set, set_wf set → wp m set (fun _ set' => set_wf set' ∧ limit_of set' = limit_of set) (fun _ set' => set' = set)) →
  wp (merge_participant room (tolerate e m)) s (keeps s) (keeps s).
Proof.
  intros Hi Hm. unfold merge_participant. wp. destruct (participants s !! room) as [set|] eqn:Hp; [|wp; by apply kept_refl].
  eapply wp_room_set; [done..|]. pose proof (set_room_wf s room set Hi Hp) as Hwf. apply wp_tolerate.
  eapply wp_conseq; [by apply Hm|..]; cbn beta; [intros _ set' [Hwf' Hlim]; by split_and!|].
  intros e' set' ->. case_decide; by split_and!.
Qed.

Lemma check_delta_np u : check_delta u ≠ Panic.
Proof.
  destruct u; cbn [check_delta]; unfold check_participant_ids, check_subscription_ids, check_track_id, check_dot, fail_if, mbind, outcome_bind;
    repeat case_match; done.
Qed.

Lemma merge_delta_safe u s : inv s → delta_typed u → wp (merge_delta u) s (keeps s) (keeps s).
Proof.
  intros Hi Hu. unfold merge_delta. apply wp_bind.
  destruct (check_delta u) as [[]|e|] eqn:Hc; [|by apply kept_refl|by destruct (check_delta_np u)].
  eapply wp_lift_ok; [done|]. destruct u as [room p d|room p d|track info ts actor|track p d|track p d|track r|track r].
  - apply merge_participant_safe; [done|]. intros set Hwf. eapply wp_conseq; [by apply add_set_ok|by intros ? ? (? & ? & _)|done].
  - apply merge_participant_safe; [done|]. intros set Hwf. eapply wp_conseq; [by apply remove_set_ok|by intros ? ? (? & ? & _)|done].
  - cbn in Hc, Hu. unfold check_track_id in Hc. destruct (Z.eqb_spec track 0); [done|]. destruct (Z.eqb_spec ts 0); [done|].
    rewrite Z.geb_leb in Hc. destruct (Z.leb_spec MAX_ACTORS actor); [done|]. wp.
    destruct (bool_decide (tracks s !! track = None) && _) eqn:Hf; [wp; by apply kept_refl|].
    apply write_track_safe; [done|done|lia|lia| |done]. apply andb_false_iff in Hf as [Hf|Hf]; apply bool_decide_eq_false in Hf;
      [left; by apply not_eq_None_Some|right; lia].
  - wp. destruct (subscriptions_full s && _) eqn:Hf; [wp; by apply kept_refl|]. apply wp_zoom_tolerate, wp_add_sub; [done| |done|].
    + apply andb_false_iff in Hf as [|Hf]; [by left|right; by apply negb_false_iff].
    + intros e s' Hk. by case_decide.
  - apply wp_zoom_tolerate, wp_remove_sub; [done..|]. intros e s' Hk. by case_decide.
  - wp. by apply kept_refl.
  - wp. by apply kept_refl.
Qed.

Lemma size_foldr_delete {V} (m : gmap Z V) ids : (size (foldr delete m ids) ≤ size m)%nat.
Proof.
  induction ids as [|i ids IH]; [done|]. cbn. rewrite map_size_delete. destruct (_ !! i); [etrans; [apply Nat.le_pred_l|]|]; done.
Qed.

Lemma node_failure_runs {E} order failed s : inv s → failed < MAX_ACTORS →
  wp (handle_node_failure order failed : st State E _) s (keeps s) (fun _ _ => False).
Proof.
  intros Hi Hf. unfold handle_node_failure. apply wp_bind, wp_assert; [by apply Z.ltb_lt|]. wp.
  apply wp_assert; [apply bool_decide_eq_true; etrans; [apply List.filter_length_le|rewrite length_take; lia]|]. wp.
  apply kept_tracks; [done| |etrans; [apply size_foldr_delete|apply Hi]].
  set (ids := take _ _). clearbody ids. induction ids; cbn; [apply Hi|by apply map_Forall_delete].
Qed.

Lemma node_failure_safe {E} order failed s : inv s → failed < MAX_ACTORS →
  wp (handle_node_failure order failed : st State E _) s (keeps s) (keeps s).
Proof. intros Hi Hf. by eapply wp_conseq; [by apply node_failure_runs|..]. Qed.

(** ** Threads *)

(** What the callers pass: machine integers, a wall clock after the epoch
    ([RoomMetadata::new] asserts a creation time other than 0)
    and, for a failed node, an actor id below [MAX_ACTORS], which
    [handle_node_failure] asserts. Nothing is asked of room, participant or
    track ids, names, limits or deltas. *)
Definition op_ok (o : op) : Prop :=
  match o with
  | CreateRoom now _ _ max | CreateRoomAuto now _ max => wall_ok now ∧ 0 ≤ max
  | MergeDelta u => delta_typed u
  | NodeFailed _ failed => failed < MAX_ACTORS
  | _ => True
  end.

(** The calls that need no clock value. *)
Definition is_plain (o : op) : Prop :=
  match o with RemoveRoom _ | RemoveTrack _ | MergeDelta _ | NodeFailed _ _ | SetSender => True | _ => False end.

Definition work_ok (w : work) : Prop :=
  match w with
  | WCreate m ts => meta_ok m ∧ stamp_ok ts
  | WCreateAuto now name max ts => wall_ok now ∧ check_room_input name max = Ok () ∧ 0 ≤ max ∧ stamp_ok ts
  | WAddTrack track _ ts | WUpdateTrack track _ ts => track ≠ 0 ∧ stamp_ok ts
  | WOther o => op_ok o ∧ is_plain o
  | _ => True
  end.

Lemma wp_then {A B} (m : st State CrdtError A) (b : A → B) s : wp m s (keeps s) (keeps s) → wp (a ← m; mret (b a)) s (keeps s) (keeps s).
Proof. intros Hm. apply wp_bind. eapply wp_mono; [exact Hm|]. intros a s' Hk. by apply wp_ret. Qed.

Lemma perform_plain dbg o s : inv s → op_ok o → is_plain o → wp (perform dbg o) s (keeps s) (keeps s).
Proof.
  intros Hi Ho Hp. destruct o; try done; cbn [perform].
  - by apply wp_then, remove_room_safe.
  - by apply wp_then, remove_track_safe.
  - by apply (wp_then _ (fun _ => Done)), merge_delta_safe.
  - apply wp_bind. eapply wp_mono; [by apply node_failure_safe|]. intros [n m] s' Hk. by apply wp_ret.
  - apply (wp_then _ (fun _ => Done)). by apply kept_broadcast.
Qed.

Lemma finish_safe w s : inv s → work_ok w → wp (finish false w) s (keeps s) (keeps s).
Proof.
  intros Hi Hw. destruct w; cbn [finish].
  - destruct Hw. by apply (wp_then _ (fun _ => Done)), create_room_safe.
  - destruct Hw as (? & ? & ? & ?). by apply wp_then, create_room_auto_safe.
  - by apply wp_then, add_participant_safe.
  - by apply wp_then, remove_participant_safe.
  - destruct Hw. by apply wp_then, add_track_safe.
  - destruct Hw. by apply wp_then, update_track_safe.
  - by apply wp_then, add_subscription_safe.
  - by apply wp_then, remove_subscription_safe.
  - destruct Hw. by apply perform_plain.
Qed.

(** The checks and the tick of a call. *)
Definition began (s : State) (w : work) (s' : State) : Prop := inv s' ∧ config s' = config s ∧ work_ok w ∧ clock_of s' ≤ clock_of s + 1.

Lemma wp_check {A} (c : outcome CrdtError ()) (k : st State CrdtError A) s Q X : (c ≠ Panic) → (c = Ok () → wp k s Q X) → (∀ e, X e s) →
  wp (lift c;; k) s Q X.
Proof. intros Hp Hk HX. apply wp_bind. destruct c as [[]|e|]; [eapply wp_lift_ok; [done|]; auto|apply HX|done]. Qed.

Lemma began_tick s s' c w : ticked c s s' → work_ok w → began s w s'.
Proof. intros [Hi Hc Hclk _ _] Hw. split; [done|]. split; [done|]. split; [done|lia]. Qed.

Lemma check_room_np name max : check_room_input name max ≠ Panic.
Proof. unfold check_room_input, fail_if, mbind, outcome_bind. repeat case_match; done. Qed.

Lemma check_ids_np a b : check_participant_ids a b ≠ Panic ∧ check_subscription_ids a b ≠ Panic ∧ check_track_id a ≠ Panic.
Proof. unfold check_participant_ids, check_subscription_ids, check_track_id, fail_if, mbind, outcome_bind. split_and!; repeat case_match; done. Qed.

Lemma check_track_ok t : check_track_id t = Ok () → t ≠ 0.
Proof. unfold check_track_id. by destruct (Z.eqb_spec t 0). Qed.

Lemma begin_safe o s : inv s → op_ok o → clock_of s + 1 < 2 ^ 64 → wp (begin o) s (began s) (keeps s).
Proof.
  intros Hi Ho Hc. pose proof (actor_cell s Hi) as [_ Hr]. assert (Hst : stamp_ok (clock_of s + 1)) by (split; lia).
  pose proof (kept_refl s Hi) as Hself.
  assert (Hdot : ∀ (chk : outcome CrdtError ()) (w : Dot → work), chk ≠ Panic → (∀ d, work_ok (w d)) → wp (lift chk;; d ← tick_dot; mret (w d)) s (began s) (keeps s)).
  { intros chk w Hchk Hw. apply wp_check; [done|intros _|done]. apply wp_bind, wp_tick_dot; [done..|]. intros s' Ht. wp. by eapply began_tick. }
  assert (Hstamp : ∀ (chk : outcome CrdtError ()) (w : Z → work), chk ≠ Panic → (chk = Ok () → work_ok (w (clock_of s + 1))) →
    wp (lift chk;; ts ← tick; mret (w ts)) s (began s) (keeps s)).
  { intros chk w Hchk Hw. apply wp_check; [done|intros Hok|done]. apply wp_bind, wp_tick; [done..|]. intros s' Ht. wp. eapply began_tick; [done|by apply Hw]. }
  destruct o as [now id nm mx|now nm mx|id|room p|room p|track info|track info|track|track p|track p|u|order failed|];
    cbn [begin]; try (wp; split; [done|]; split; [done|]; split; [by split|lia]).
  - destruct Ho as [[Hw1 Hw2] Hm]. apply wp_check; [by destruct (id =? 0)|intros Hid|done].
    apply wp_check; [apply check_room_np|intros Hin|done]. apply wp_bind, wp_new_room; [done..|by destruct (Z.eqb_spec id 0)|done|done|].
    intros Hmeta. apply wp_bind, wp_tick; [done..|]. intros s' Ht. wp. by eapply began_tick.
  - destruct Ho. apply Hstamp; [apply check_room_np|done].
  - apply Hdot; [apply check_ids_np|done].
  - apply Hdot; [apply check_ids_np|done].
  - apply Hstamp; [apply (check_ids_np track 0)|]. intros ?%check_track_ok. done.
  - apply Hstamp; [apply (check_ids_np track 0)|]. intros ?%check_track_ok. done.
  - apply Hdot; [apply check_ids_np|done].
  - apply Hdot; [apply check_ids_np|done].
Qed.

(** *** Any interleaving *)

Definition event_ok (e : event) : Prop := match e with Begin o => op_ok o | Finish _ => True end.

Definition node_inv (n : Z) (x : node) : Prop := inv (state x) ∧ Forall work_ok (pending x) ∧ clock_of (state x) ≤ n.

Lemma kept_clock s s' : inv s → kept s s' → clock_of s' = clock_of s.
Proof. intros Hi [Hi' Hc Hv]. unfold clock_of. by rewrite Hv, (inv_actor _ Hi'), (inv_actor _ Hi), Hc. Qed.

Lemma step_safe e x n : node_inv n x → event_ok e → n + 1 < 2 ^ 64 →
  ∃ y, step false e x = Ok y ∧ node_inv (n + 1) y ∧ config (state y) = config (state x).
Proof.
  intros (Hi & Hw & Hn) He Hlim. destruct e as [o|i]; cbn [step].
  - pose proof (begin_safe o (state x) Hi He ltac:(lia)) as Hb. unfold run_to in Hb. destruct (begin o (state x)) as [[w s]|[e s]|]; [| |done].
    + destruct Hb as (Hi' & Hcfg & Hwork & Hclk). eexists. split; [done|]. split; [|done]. split; [done|]. cbn. split; [|lia].
      apply Forall_app. split; [done|]. by apply Forall_singleton.
    + eexists. split; [done|]. split; [|apply Hb]. split; [apply Hb|]. split; [done|]. cbn. rewrite (kept_clock _ _ Hi Hb). lia.
  - destruct (pending x !! i) as [w|] eqn:Hp; [|eexists; split; [done|]; split; [split; [done|split; [done|lia]]|done]].
    pose proof (finish_safe w (state x) Hi (Forall_lookup_1 _ _ _ _ Hw Hp)) as Hf. unfold run_to in Hf.
    assert (Hk : ∀ s, kept (state x) s → node_inv (n + 1) (mkNode s (delete i (pending x)))).
    { intros s Hk. split; [apply Hk|]. split; [by apply Forall_delete|]. cbn. rewrite (kept_clock _ _ Hi Hk). lia. }
    destruct (finish false w (state x)) as [[a s]|[e s]|]; [| |done]; (eexists; split; [done|]; split; [by apply Hk|apply Hf]).
Qed.

Lemma run_safe es : ∀ x n, node_inv n x → Forall event_ok es → n + Z.of_nat (length es) < 2 ^ 64 →
  ∃ y, run_events false es x = Ok y ∧ inv (state y) ∧ config (state y) = config (state x).
Proof.
  induction es as [|e es IH]; intros x n Hx He Hn; cbn [run_events]; [exists x; split; [done|]; split; [apply Hx|done]|].
  apply Forall_cons in He as [He Hes]. cbn [length] in Hn. destruct (step_safe e x n Hx He) as (y & Hs & Hy & Hc); [lia|].
  rewrite Hs. cbn [mbind outcome_bind]. destruct (IH y (n + 1)) as (z & Hr & Hz & Hcz); [done|done|lia|]. exists z. split; [done|].
  split; [done|congruence].
Qed.

End DistributedProofs.
