(* ===== verification/DistributedEffects.v ===== *)
(** * The replicated state: what the calls achieve

    The invariant over any interleaving of threads and deltas, exactly when
    adding and removing a participant take effect, and that a delta may
    arrive any number of times. *)

From stdpp Require Import strings.
From S2P Require Import Prelude Wp Crdt LwwReg Orswot OrswotProofs GossipWire DistributedState DistributedProofs.

Module DistributedEffects.
Import Gossip DistributedState DistributedProofs.

(** ** The invariant in every run *)

Lemma state_new_ok {E} c : config_ok c → ∃ s, new (E:=E) c = Ok s ∧ inv s ∧ config s = c ∧ clock_of s = 0.
Proof.
  intros Hc. pose proof Hc as [Ha Hr Ht Hs]. unfold new, validate. rewrite (proj2 (Z.ltb_lt _ _)) by lia.
  rewrite !bool_decide_eq_true_2 by lia. cbn [assert_ mbind outcome_bind]. unfold Orswot.new.
  destruct (OrswotProofs.capacity_ok (E:=E) (T:=Z * Z) Orswot.MAX_ELEMENTS) as (subs & Hsubs); [unfold Orswot.MAX_ELEMENTS; lia|].
  rewrite Hsubs. cbn [mbind outcome_bind]. eexists. split; [done|].
  destruct (OrswotProofs.wf_with_capacity _ _ Hsubs) as (Hwf & Hp & _).
  split; [|split; [done|]].
  - split; cbn [rooms participants tracks subscriptions config local_actor version next_room_id].
    + exact Hc.
    + reflexivity.
    + unfold VersionVector.new. split; [apply length_replicate|]. apply Forall_replicate. split; lia.
    + rewrite map_size_empty. lia.
    + intros k. by rewrite !lookup_empty.
    + apply map_Forall_empty.
    + rewrite map_size_empty. lia.
    + exact Hwf.
    + unfold Orswot.len. rewrite (OrswotProofs.wf_count _ Hwf), Hp. cbn [length]. lia.
    + lia.
  - unfold clock_of. cbn [version local_actor]. unfold MAX_ACTORS in Ha. unfold VersionVector.new. by rewrite lookup_replicate_2 by lia.
Qed.

Lemma forallb_map {V} (P : Z * V → bool) (m : gmap Z V) : (∀ k v, m !! k = Some v → P (k, v) = true) → forallb P (map_to_list m) = true.
Proof. intros H. apply forallb_forall. intros [k v] Hin. apply H, elem_of_map_to_list. by apply list_elem_of_In. Qed.

Lemma inv_asserted {E} s : inv s → assert_crdt_invariants (E:=E) s = Ok ().
Proof.
  intros Hi. unfold assert_crdt_invariants. pose proof (len_bound _ (inv_subs _ Hi)). pose proof (inv_sub_count _ Hi).
  rewrite (bool_decide_eq_true_2 _ (inv_count _ Hi)), (bool_decide_eq_true_2 _ (inv_track_count _ Hi)), bool_decide_eq_true_2 by lia.
  assert (Hrooms : ∀ k v, rooms s !! k = Some v → k ≠ 0 ∧ is_Some (participants s !! k)).
  { intros k v Hk. pose proof (inv_lookup s k Hi) as Hl. rewrite Hk in Hl. destruct (participants s !! k); [|done].
    split; [apply Hl|by eexists]. }
  rewrite !forallb_map; [done|intros k v Hk..].
  - apply negb_true_iff, Z.eqb_neq. apply (Hrooms _ _ Hk).
  - apply negb_true_iff, Z.eqb_neq. apply (inv_tracks _ Hi _ _ Hk).
  - apply bool_decide_eq_true, (Hrooms _ _ Hk).
Qed.

(** C32: The threads of a node and the deltas of other nodes never break the
    cluster state, however their critical sections interleave: no call of a
    release build panics, every invariant [assert_crdt_invariants] asserts
    holds afterwards, and no room holds more participants than its limit. The
    calls are those with a wall clock other than 0 and a failed node's actor
    id below [MAX_ACTORS], which the code asserts; fewer than 2^64 of them. *)
Theorem cluster_state_safe c es : config_ok c → Forall event_ok es → Z.of_nat (length es) < 2 ^ 64 →
  ∃ s0 y, new (E:=()) c = Ok s0 ∧ run_events false es (mkNode s0 []) = Ok y ∧
    assert_crdt_invariants (E:=()) (state y) = Ok () ∧
    ∀ room reg, rooms (state y) !! room = Some reg → participant_count (state y) room ≤ max_participants (LwwReg.value reg).
Proof.
  intros Hc He Hl. destruct (state_new_ok (E:=()) c Hc) as (s0 & Hnew & Hi & _ & Hclk).
  destruct (run_safe es (mkNode s0 []) 0) as (y & Hrun & Hy & _); [by split; [|split; [constructor|cbn; lia]]|done|lia|].
  exists s0, y. split; [done|]. split; [done|]. split; [by apply inv_asserted|]. intros room reg Hr. unfold participant_count.
  pose proof (inv_lookup _ room Hy) as Hroom. rewrite Hr in Hroom. destruct (participants (state y) !! room) as [set|]; [|done].
  destruct Hroom as (_ & _ & Hmax & Hwf & Hlim). pose proof (len_bound _ Hwf). lia.
Qed.

(** ** When a call on the participants of a room takes effect *)

Definition next_dot (s : State) : Dot := mkDot (local_actor s) (clock_of s + 1).

Lemma ticked_parts c s s' : ticked c s s' → participants s' = participants s ∧ rooms s' = rooms s ∧ local_actor s' = local_actor s.
Proof. intros Ht. by rewrite (ticked_rest _ _ _ Ht). Qed.

(** The state after a broadcast. *)
Definition sent (u : StateUpdate) (s : State) : State :=
  match broadcast_tx s with Some l => set_broadcast (Some (l ++ [u])) s | None => s end.

Lemma broadcast_run {E} u s : broadcast_update (E:=E) u s = Ok ((), sent u s).
Proof. unfold broadcast_update, sent, mbind, st_bind, get. by destruct (broadcast_tx s). Qed.

(** The state after the participants of a room changed. *)
Definition with_set (room : Z) (set : LwwSet Z) (s : State) : State := set_participants (<[room := set]> (participants s)) s.

Lemma with_set_lookup room set u s : participants (sent u (with_set room set s)) !! room = Some set.
Proof. unfold sent, with_set. cbn. destruct (broadcast_tx s); cbn; by rewrite lookup_insert_eq. Qed.

Lemma with_set_other room room' set u s : room' ≠ room →
  participants (sent u (with_set room set s)) !! room' = participants s !! room'.
Proof. intros Hr. unfold sent, with_set. cbn. destruct (broadcast_tx s); cbn; by rewrite lookup_insert_ne. Qed.

Lemma at_key_run {E A} room (m : st (LwwSet Z) E A) s set a set' : participants s !! room = Some set → m set = Ok (a, set') →
  zoom participants set_participants (at_key room m) s = Ok (a, with_set room set' s).
Proof. intros Hp Hm. unfold zoom, at_key, zoom. rewrite Hp, Hm. done. Qed.

Lemma debug_assert_run {E A} dbg b (k : st State E A) s : (debug_assert dbg b;; k) s = if dbg && negb b then Panic else k s.
Proof. unfold debug_assert, mbind, st_bind, lift. by destruct dbg, b. Qed.

(** The first call of a sequence, once its run is known. *)
Lemma bind_run {S E A B} (m : st S E A) (f : A → st S E B) s a s' : m s = Ok (a, s') → (m ≫= f) s = f a s'.
Proof. unfold mbind, st_bind. by intros ->. Qed.

Lemma get_run {S E B} (f : S → st S E B) s : (get ≫= f) s = f s s.
Proof. done. Qed.

Lemma lift_run {S E A B} (o : outcome E A) (f : A → st S E B) s a : o = Ok a → (lift o ≫= f) s = f a s.
Proof. by intros ->. Qed.

Lemma add_locked_run dbg room p d s reg set : inv s → dot_valid d → rooms s !! room = Some reg → participants s !! room = Some set →
  Orswot.len set < max_participants (LwwReg.value reg) →
  ∃ r set', OrswotProofs.add_result p d set r set' ∧
    add_participant_locked dbg room p d s =
      if dbg && negb (Orswot.contains set' p) then Panic else Ok (d, sent (ParticipantAdded room p d) (with_set room set' s)).
Proof.
  intros Hi [Ha Hc] Hr Hp Hlen. pose proof (inv_lookup s room Hi) as Hl. rewrite Hr, Hp in Hl. destruct Hl as (_ & _ & Hmax & Hwf & Hlim).
  pose proof (OrswotProofs.add_ok set p d Hwf) as Hadd. unfold run_to in Hadd.
  destruct (Orswot.add p d set) as [[r set']|[e set']|] eqn:E; [|exfalso|done].
  - exists r, set'. split; [done|]. unfold add_participant_locked. rewrite get_run, (lift_run _ _ _ reg) by (by rewrite Hr).
    cbv zeta. rewrite (lift_run _ _ _ set) by (by rewrite Hp). rewrite Z.geb_leb, (proj2 (Z.leb_gt _ _)) by lia.
    rewrite (bind_run _ _ _ _ _ (at_key_run _ _ _ _ _ _ Hp E)), get_run.
    rewrite (lift_run _ _ _ set') by (cbn; by rewrite lookup_insert_eq). rewrite debug_assert_run.
    by rewrite (bind_run _ _ _ _ _ (broadcast_run _ _)).
  - destruct Hadd as [-> He]. destruct e; cbn in He; try done; [|lia]. destruct He as (_ & _ & Hfull). rewrite (OrswotProofs.wf_count _ Hwf : Orswot.len set = _) in Hlen. lia.
Qed.

Lemma remove_locked_run dbg room p d s set : inv s → dot_valid d → participants s !! room = Some set →
  ∃ r set', OrswotProofs.remove_result p d set r set' ∧
    remove_participant_locked dbg room p d s =
      if dbg && Orswot.contains set' p then Panic else Ok (d, sent (ParticipantRemoved room p d) (with_set room set' s)).
Proof.
  intros Hi [Ha Hc] Hp. pose proof (set_room_wf s room set Hi Hp) as Hwf.
  pose proof (OrswotProofs.remove_ok set p d Hwf) as Hrem. unfold run_to in Hrem.
  destruct (Orswot.remove p d set) as [[r set']|[e set']|] eqn:E; [|exfalso; lia|done].
  exists r, set'. split; [done|]. unfold remove_participant_locked. rewrite get_run, (lift_run _ _ _ set) by (by rewrite Hp).
  rewrite (bind_run _ _ _ _ _ (at_key_run _ _ _ _ _ _ Hp E)), (bind_run _ _ _ _ _ (broadcast_run _ _)), get_run.
  rewrite (lift_run _ _ _ set') by (by rewrite with_set_lookup). rewrite debug_assert_run. by rewrite negb_involutive.
Qed.

(** A call whose checks pass takes the next dot. *)
Lemma call_run {A} chk (k : Dot → st State CrdtError A) s : inv s → clock_of s + 1 < 2 ^ 64 → chk = Ok () →
  ∃ s', ticked (clock_of s + 1) s s' ∧ dot_valid (next_dot s) ∧
    (lift chk;; c ← tick; s ← get; d ← lift (Dot.new (local_actor s) c); k d) s = k (next_dot s) s'.
Proof.
  intros Hi Hc ->. assert (Hd : dot_valid (next_dot s)).
  { pose proof (cfg_actor_ok _ (inv_config _ Hi)) as Ha. rewrite <- (inv_actor _ Hi) in Ha. pose proof (actor_cell s Hi). split; cbn; lia. }
  destruct (wp_run (tick_dot (E:=CrdtError)) s (fun d s' => d = next_dot s ∧ ticked (clock_of s + 1) s s') (fun _ _ => False))
    as (d & s' & Hrun & -> & Ht); [by apply wp_tick_dot|done|].
  exists s'. split; [done|]. split; [done|]. rewrite (lift_run _ _ _ ()) by done. revert Hrun. unfold tick_dot, mbind, st_bind, get, lift.
  destruct (tick s) as [[c s1]|[]|]; [|done..]. destruct (Dot.new (local_actor s1) c); [|done..]. by intros [= -> ->].
Qed.

(** What the set holds of a participant after [remove]: it stays exactly when
    its dot is newer, and the others are as they were. *)
Lemma removed_contains (p : Z) d (set : LwwSet Z) r set' : OrswotProofs.wf set → OrswotProofs.remove_result p d set r set' →
  (Orswot.contains set' p = true ↔ ∃ e, (p, e) ∈ Orswot.pairs set ∧ Dot.cmp d e = Lt) ∧
  ∀ q, q ≠ p → Orswot.contains set' q = Orswot.contains set q.
Proof.
  intros Hwf (_ & _ & Hx). split.
  - rewrite OrswotProofs.contains_pairs, list_elem_of_fmap. destruct r.
    + destruct Hx as (e & He & Hge & _ & _ & Hx). split; [intros ([y e'] & -> & Hy); cbn in *; by apply Hx in Hy as [_ ?]|].
      intros (e' & He' & Hlt). rewrite (OrswotProofs.pairs_unique set p e e' Hwf He He') in Hge.
      unfold Dot.geb in Hge. by rewrite Hlt in Hge.
    + destruct Hx as [-> Hx]. split.
      * intros ([y e] & -> & He). exists e. split; [done|]. specialize (Hx e He). unfold Dot.geb in Hx. by destruct (Dot.cmp _ _).
      * intros (e & He & _). by exists (p, e).
  - intros q Hq. destruct r; [|by destruct Hx as [-> _]]. destruct Hx as (_ & _ & _ & _ & _ & Hx).
    apply eq_true_iff_eq. rewrite !OrswotProofs.contains_pairs, !list_elem_of_fmap.
    split; intros (x & -> & Hy); exists x; (split; [done|]); [by apply Hx in Hy as [? _]|by apply Hx].
Qed.

(** The call once its ids are accepted: no room, or the removal in the set. *)
Lemma remove_participant_run dbg room p s : inv s → clock_of s + 1 < 2 ^ 64 → room ≠ 0 → p ≠ 0 →
  ∃ s1, ticked (clock_of s + 1) s s1 ∧
  match participants s !! room with
  | None => remove_participant dbg room p s = Err (ElementNotFound, s1)
  | Some set => ∃ r set', OrswotProofs.remove_result p (next_dot s) set r set' ∧
      remove_participant dbg room p s =
        if dbg && Orswot.contains set' p then Panic
        else Ok (next_dot s, sent (ParticipantRemoved room p (next_dot s)) (with_set room set' s1))
  end.
Proof.
  intros Hi Hc Hroom Hp.
  assert (Hchk : check_participant_ids room p = Ok ()) by (unfold check_participant_ids; by rewrite !(proj2 (Z.eqb_neq _ _))).
  destruct (call_run _ (remove_participant_locked dbg room p) s Hi Hc Hchk) as (s1 & Ht & Hd & Hrun).
  destruct (ticked_parts _ _ _ Ht) as (Hps & _). exists s1. split; [done|]. unfold remove_participant. rewrite Hrun.
  destruct (participants s !! room) as [set|] eqn:Hset.
  - apply remove_locked_run; [apply Ht|done|by rewrite Hps].
  - unfold remove_participant_locked. rewrite get_run. unfold mbind, st_bind, lift. by rewrite Hps, Hset.
Qed.

(** C34: what [remove_participant] does. A zero id is refused as invalid and
    nothing changes; for a room that is not there the answer is
    [ElementNotFound] and only the clock has moved. Otherwise the call returns
    the next dot of this node and the removal, with that dot, is put on the
    broadcast channel (when the node has one), but the participant is gone
    only if that dot is not older than the one it was added with: it stays,
    although the call succeeded and the removal was broadcast, exactly when
    its dot is newer. Other participants and rooms are untouched. A debug
    build panics in exactly the cases in which the participant stays. *)
Theorem remove_participant_effect room p s : inv s → clock_of s + 1 < 2 ^ 64 →
  match remove_participant false room p s with
  | Panic => False
  | Err (e, s') =>
      ((room = 0 ∨ p = 0) ∧ (∃ why, e = InvalidState why) ∧ s' = s) ∨
      (room ≠ 0 ∧ p ≠ 0 ∧ participants s !! room = None ∧ e = ElementNotFound ∧ s' = set_version (version s') s)
  | Ok (d, s') => room ≠ 0 ∧ p ≠ 0 ∧ d = next_dot s ∧
      ∃ set, participants s !! room = Some set ∧
        let newer := ∃ e, (p, e) ∈ Orswot.pairs set ∧ Dot.cmp d e = Lt in
        (participant_exists s' room p = true ↔ newer) ∧
        (∀ room' q, room' ≠ room ∨ q ≠ p → participant_exists s' room' q = participant_exists s room' q) ∧
        broadcast_tx s' = (fun l => l ++ [ParticipantRemoved room p d]) <$> broadcast_tx s ∧
        (remove_participant true room p s = Panic ↔ newer)
  end.
Proof.
  intros Hi Hc. destruct (decide (room = 0 ∨ p = 0)) as [Hz|Hz].
  { unfold remove_participant, check_participant_ids. unfold mbind at 1, st_bind at 1, lift at 1.
    destruct (Z.eqb_spec room 0); cbn; [left; eauto|]. destruct (Z.eqb_spec p 0); cbn; [left; eauto|]. naive_solver. }
  assert (Hroom : room ≠ 0) by naive_solver. assert (Hp : p ≠ 0) by naive_solver.
  destruct (remove_participant_run false room p s Hi Hc Hroom Hp) as (s1 & Ht & Hrun).
  destruct (remove_participant_run true room p s Hi Hc Hroom Hp) as (s2 & _ & Hrun2).
  pose proof (ticked_rest _ _ _ Ht) as Hrest. destruct (participants s !! room) as [set|] eqn:Hset.
  2: { rewrite Hrun. right. done. }
  pose proof (set_room_wf s room set Hi Hset) as Hwf.
  destruct Hrun as (r & set' & Hres & ->), Hrun2 as (r2 & set2 & Hres2 & ->). cbn [andb].
  destruct (removed_contains _ _ _ _ _ Hwf Hres) as [Hin Hother], (removed_contains _ _ _ _ _ Hwf Hres2) as [Hin2 _].
  destruct (ticked_parts _ _ _ Ht) as (Hps & _). split; [done|]. split; [done|]. split; [done|]. exists set. split; [done|]. cbv zeta.
  split; [unfold participant_exists; by rewrite with_set_lookup|]. split; [|split].
  - intros room' q Hne. unfold participant_exists. destruct (decide (room' = room)) as [->|Hr].
    + rewrite with_set_lookup, Hset. apply Hother. naive_solver.
    + by rewrite with_set_other, Hps.
  - assert (Hb : broadcast_tx s1 = broadcast_tx s) by (by rewrite Hrest). unfold sent.
    change (broadcast_tx (with_set room set' s1)) with (broadcast_tx s1). rewrite <- Hb. destruct (broadcast_tx s1) eqn:Hb1; [done|].
    exact Hb1.
  - rewrite <- Hin2. by destruct (Orswot.contains set2 p).
Qed.

(** [add_participant] to a room with space returns a dot in every case,
    but the participant is missing afterwards, although the call succeeded
    and was broadcast, exactly when it was not there before and a tombstone
    of this node covers the dot of the call. A debug build panics in exactly
    these cases. *)
Theorem add_participant_effect room p s reg set : inv s → clock_of s + 1 < 2 ^ 64 → room ≠ 0 → p ≠ 0 →
  rooms s !! room = Some reg → participants s !! room = Some set → Orswot.len set < max_participants (LwwReg.value reg) →
  let lost := Orswot.contains set p = false ∧ Orswot.is_tombstoned set (next_dot s) = true in
  ∃ s', add_participant false room p s = Ok (next_dot s, s') ∧
    (participant_exists s' room p = false ↔ lost) ∧ (add_participant true room p s = Panic ↔ lost).
Proof.
  intros Hi Hc Hroom Hp Hr Hset Hlen lost.
  assert (Hchk : check_participant_ids room p = Ok ()) by (unfold check_participant_ids; by rewrite !(proj2 (Z.eqb_neq _ _))).
  destruct (call_run _ (add_participant_locked false room p) s Hi Hc Hchk) as (s1 & Ht & Hd & Hrun).
  destruct (call_run _ (add_participant_locked true room p) s Hi Hc Hchk) as (s2 & Ht2 & _ & Hrun2).
  destruct (ticked_parts _ _ _ Ht) as (Hps & Hrs & _). destruct (ticked_parts _ _ _ Ht2) as (Hps2 & Hrs2 & _).
  destruct (add_locked_run false room p (next_dot s) s1 reg set (ticked_inv _ _ _ Ht) Hd) as (r & set' & Hres & Hl); [by rewrite Hrs|by rewrite Hps|done|].
  destruct (add_locked_run true room p (next_dot s) s2 reg set (ticked_inv _ _ _ Ht2) Hd) as (r2 & set2 & Hres2 & Hl2); [by rewrite Hrs2|by rewrite Hps2|done|].
  assert (Hlost : ∀ b x, OrswotProofs.add_result p (next_dot s) set b x → Orswot.contains x p = false ↔ lost).
  { intros b x (_ & _ & _ & Hx). unfold lost. destruct b.
    - destruct Hx as (Htomb & _ & Hx). rewrite Htomb. split; [|by intros []]. intros Hf. exfalso. apply not_true_iff_false in Hf. apply Hf.
      apply OrswotProofs.contains_pairs, list_elem_of_fmap. exists (p, next_dot s). split; [done|]. apply Hx. by left.
    - destruct Hx as [-> [Htomb|(e & He & _)]]; [by rewrite Htomb; naive_solver|].
      assert (Hin : Orswot.contains set p = true) by (apply OrswotProofs.contains_pairs, list_elem_of_fmap; by exists (p, e)).
      rewrite Hin. naive_solver. }
  eexists. split; [unfold add_participant; rewrite Hrun, Hl; done|]. unfold participant_exists. rewrite with_set_lookup. split; [by apply Hlost with r|].
  unfold add_participant. rewrite Hrun2, Hl2. rewrite <- (Hlost _ _ Hres2). by destruct (Orswot.contains set2 p).
Qed.

(** ** Deltas may arrive again *)

Section again.
Context {T : Type} `{EqDecision T}.
Implicit Types (s : LwwSet T).

Lemma add_again x d s r s' : set_wf s → Orswot.add x d s = Ok (r, s') → Orswot.add x d s' = Ok (false, s').
Proof.
  intros Hwf Hadd. pose proof (OrswotProofs.add_ok s x d Hwf) as H. unfold run_to in H. rewrite Hadd in H. destruct r.
  - destruct H as (Hwf' & _ & _ & _ & _ & Hp). assert (Hin : (x, d) ∈ Orswot.pairs s') by (apply Hp; by left).
    pose proof (OrswotProofs.add_ok s' x d Hwf') as H'. unfold run_to in H'.
    destruct (Orswot.add x d s') as [[[|] s'']|[e s'']|] eqn:E; [| | |done].
    + destruct H' as (_ & _ & _ & _ & Hgt & _). specialize (Hgt d Hin). by rewrite (proj2 (Dot.cmp_eq d d) eq_refl) in Hgt.
    + by destruct H' as (_ & _ & _ & -> & _).
    + destruct H' as [-> He]. exfalso. destruct e; cbn in He; try done.
      * destruct He as [Hn _]. apply Hn, list_elem_of_fmap. by exists (x, d).
      * clear -Hadd He. unfold Orswot.add in Hadd. rewrite Z.geb_leb in Hadd. destruct (Z.leb_spec MAX_ACTORS (Dot.actor_id d)); [done|].
        destruct (Z.eqb_spec (Dot.clock d) 0); [done|]. lia.
  - destruct H as (_ & _ & _ & -> & _). done.
Qed.

Lemma remove_again x d s r s' : set_wf s → Orswot.remove x d s = Ok (r, s') → Orswot.remove x d s' = Ok (false, s').
Proof.
  intros Hwf Hrem. pose proof (OrswotProofs.remove_ok s x d Hwf) as H. unfold run_to in H. rewrite Hrem in H. destruct r.
  - destruct H as (Hwf' & _ & e & _ & _ & _ & _ & Hp).
    pose proof (OrswotProofs.remove_ok s' x d Hwf') as H'. unfold run_to in H'.
    destruct (Orswot.remove x d s') as [[[|] s'']|[e' s'']|] eqn:E; [| | |done].
    + destruct H' as (_ & _ & e' & He' & _). by apply Hp in He' as [_ ?].
    + by destruct H' as (_ & _ & -> & _).
    + exfalso. destruct H' as (-> & _ & Ha). clear -Hrem Ha. unfold Orswot.remove in Hrem. rewrite Z.geb_leb in Hrem.
      destruct (Z.leb_spec MAX_ACTORS (Dot.actor_id d)); [done|lia].
  - destruct H as (_ & _ & -> & _). done.
Qed.

(** A tolerant set operation runs again without an effect. *)
Definition repeatable (m : st (LwwSet T) CrdtError ()) : Prop := ∀ s s', set_wf s → m s = Ok ((), s') → m s' = Ok ((), s').

Lemma add_repeatable e x d : repeatable (tolerate e (Orswot.add x d)).
Proof.
  intros s s' Hwf. unfold tolerate. pose proof (OrswotProofs.add_ok s x d Hwf) as H. unfold run_to in H.
  destruct (Orswot.add x d s) as [[r s1]|[e' s1]|] eqn:E; [| |done].
  - intros [= <-]. by rewrite (add_again x d s r s1 Hwf E).
  - destruct H as [-> _]. case_bool_decide; [|done]. intros [= <-]. rewrite E. by rewrite bool_decide_eq_true_2.
Qed.

Lemma remove_repeatable e x d : repeatable (tolerate e (Orswot.remove x d)).
Proof.
  intros s s' Hwf. unfold tolerate. pose proof (OrswotProofs.remove_ok s x d Hwf) as H. unfold run_to in H.
  destruct (Orswot.remove x d s) as [[r s1]|[e' s1]|] eqn:E; [| |done].
  - intros [= <-]. by rewrite (remove_again x d s r s1 Hwf E).
  - destruct H as [-> _]. case_bool_decide; [|done]. intros [= <-]. rewrite E. by rewrite bool_decide_eq_true_2.
Qed.

End again.

Lemma participants_again room m s s' : inv s → repeatable m →
  merge_participant room m s = Ok ((), s') → merge_participant room m s' = Ok ((), s').
Proof.
  intros Hi Hm. unfold merge_participant. rewrite !get_run. destruct (participants s !! room) as [set|] eqn:Hp.
  - destruct (m set) as [[[] set']|[e set']|] eqn:E; [|unfold zoom, at_key, zoom; by rewrite Hp, E..].
    rewrite (at_key_run _ _ _ _ _ _ Hp E). intros [= <-].
    assert (Hl : participants (with_set room set' s) !! room = Some set') by apply lookup_insert_eq. rewrite Hl.
    rewrite (at_key_run _ _ _ _ _ _ Hl (Hm set set' (set_room_wf s room set Hi Hp) E)).
    unfold with_set, set_participants, set_rooms. cbn. by rewrite insert_insert_eq.
  - intros [= <-]. by rewrite Hp.
Qed.

Lemma subs_again m s s' : inv s → repeatable m →
  zoom subscriptions set_subscriptions m s = Ok ((), s') → zoom subscriptions set_subscriptions m s' = Ok ((), s').
Proof.
  intros Hi Hm. unfold zoom. destruct (m (subscriptions s)) as [[[] x]|[]|] eqn:E; [|done..]. intros [= <-].
  cbn [subscriptions set_subscriptions]. by rewrite (Hm _ _ (inv_subs _ Hi) E).
Qed.

Lemma sub_added e x d s s' : inv s → zoom subscriptions set_subscriptions (tolerate e (Orswot.add x d)) s = Ok ((), s') →
  subscriptions s' = subscriptions s ∧ config s' = config s ∨ Orswot.contains (subscriptions s') x = true.
Proof.
  intros Hi. unfold zoom, tolerate. pose proof (OrswotProofs.add_ok (subscriptions s) x d (inv_subs _ Hi)) as H. unfold run_to in H.
  destruct (Orswot.add x d (subscriptions s)) as [[[|] y]|[e' y]|]; [| | |done].
  - intros [= <-]. right. destruct H as (_ & _ & _ & _ & _ & Hp). apply OrswotProofs.contains_pairs, list_elem_of_fmap.
    exists (x, d). split; [done|]. apply Hp. by left.
  - intros [= <-]. left. by destruct H as (_ & _ & _ & -> & _).
  - destruct H as [-> _]. case_bool_decide; [|done]. intros [= <-]. by left.
Qed.

Lemma reg_merge_again {T} (r w : LwwReg.LWWReg T) : 0 ≤ LwwReg.timestamp r → LwwReg.merge (LwwReg.merge r w) w = LwwReg.merge r w.
Proof.
  intros Hr. destruct r as [v t a], w as [v' t' a']. unfold LwwReg.merge. cbn in *. rewrite !Z.gtb_ltb.
  destruct (Z.ltb_spec 0 t'); cbn; [|done].
  destruct (Z.eqb_spec t 0), (Z.ltb_spec t t'), (Z.eqb_spec t' t), (Z.ltb_spec a a'); cbn;
    repeat match goal with |- context [?x <? ?y] => destruct (Z.ltb_spec x y) | |- context [?x =? ?y] => destruct (Z.eqb_spec x y) end;
    cbn; congruence || lia.
Qed.

Lemma write_track_run track info ts actor s : inv s → track ≠ 0 → 0 < ts → actor < MAX_ACTORS →
  write_track track info ts actor s = Ok ((), set_tracks (<[track := LwwReg.merge (default (LwwReg.mkReg default_track 0 actor) (tracks s !! track))
    (LwwReg.mkReg info ts actor)]> (tracks s)) s).
Proof.
  intros Hi Hid Hts Ha. unfold write_track. rewrite get_run. set (reg := default _ _).
  assert (Hreg : 0 ≤ LwwReg.timestamp reg).
  { unfold reg. destruct (tracks s !! track) eqn:Ht; [|done]. apply (inv_tracks _ Hi _ _ Ht). }
  rewrite (bind_run _ _ _ reg s).
  2: { unfold reg. destruct (tracks s !! track); [done|]. unfold lift, LwwReg.new. by rewrite (proj2 (Z.ltb_lt _ _)) by lia. }
  destruct (LwwReg.set_merge (E:=CrdtError) info ts actor reg Hts Ha Hreg) as (b & Hb).
  rewrite (lift_run _ _ _ (b, LwwReg.merge reg (LwwReg.mkReg info ts actor))) by (unfold run_on; by rewrite Hb). done.
Qed.

(** A delta may arrive any number of times: once it is merged, merging
    it again succeeds and changes nothing. *)
Theorem delta_idempotent u s s' : inv s → delta_typed u → merge_delta u s = Ok ((), s') → merge_delta u s' = Ok ((), s').
Proof.
  intros Hi Hu. unfold merge_delta. destruct (check_delta u) as [[]| |] eqn:Hc; [|done..]. rewrite !(lift_run _ _ _ ()) by done.
  destruct u as [room p d|room p d|track info ts actor|track p d|track p d|track r|track r].
  - apply participants_again; [done|]. apply add_repeatable.
  - apply participants_again; [done|]. apply remove_repeatable.
  - cbn in Hc, Hu. unfold check_track_id in Hc. destruct (Z.eqb_spec track 0); [done|]. destruct (Z.eqb_spec ts 0); [done|].
    rewrite Z.geb_leb in Hc. destruct (Z.leb_spec MAX_ACTORS actor); [done|]. rewrite !get_run.
    destruct (bool_decide (tracks s !! track = None) && _) eqn:Hf; [done|].
    assert (Hw : wp (write_track track info ts actor) s (fun _ s2 => kept s s2) (fun _ _ => False)).
    { apply write_track_safe; [done|done|lia|lia| |done]. apply andb_false_iff in Hf as [Hf|Hf]; apply bool_decide_eq_false in Hf;
        [left; by apply not_eq_None_Some|right; lia]. }
    unfold run_to in Hw. rewrite write_track_run in Hw by (done || lia). rewrite write_track_run by (done || lia). intros [= <-].
    cbn [tracks set_tracks config]. rewrite lookup_insert_eq. cbn [andb bool_decide]. rewrite bool_decide_eq_false_2 by done. cbn [andb].
    rewrite write_track_run by (try apply Hw; done || lia). cbn [tracks set_tracks]. rewrite lookup_insert_eq.
    match goal with |- context [default ?a (Some ?x)] => change (default a (Some x)) with x end. rewrite reg_merge_again; [by rewrite insert_insert_eq|]. destruct (tracks s !! track) eqn:Ht; [|done]. apply (inv_tracks _ Hi _ _ Ht).
  - rewrite !get_run. destruct (subscriptions_full s && _) eqn:Hf; [done|]. intros Hz.
    assert (Hin : subscriptions_full s' && negb (Orswot.contains (subscriptions s') (track, p)) = false).
    { destruct (sub_added _ _ _ _ _ Hi Hz) as [(He & Hcfg)|Hin]; [|rewrite Hin; by rewrite andb_comm].
      unfold subscriptions_full in *. by rewrite He, Hcfg. }
    rewrite Hin. revert Hz. apply subs_again; [done|]. apply add_repeatable.
  - apply subs_again; [done|]. apply remove_repeatable.
  - by intros [= <-].
  - by intros [= <-].
Qed.

(** ** Concrete runs *)

Definition sample_config : DistributedStateConfig := mkConfig 1 5 20 20.

Lemma sample_config_ok : config_ok sample_config.
Proof. split; cbn; unfold MAX_ACTORS, MAX_ROOMS, MAX_TRACKS, MAX_SUBSCRIPTIONS; lia. Qed.

(** Runs the events on a new node. *)
Definition run_new (dbg : bool) (es : list event) : outcome () node :=
  s ← new sample_config; run_events dbg es (mkNode s []).

Definition sample_node (es : list event) : State :=
  match run_new false es with
  | Ok y => state y
  | _ => mkState 1 [] ∅ ∅ ∅ (Orswot.mkSet [] 0 0 [] 0 0 0) sample_config None 0
  end.

Lemma sample_inv es y : Forall event_ok es → Z.of_nat (length es) < 2 ^ 64 → run_new false es = Ok y → inv (state y).
Proof.
  intros He Hl Hrun. unfold run_new in Hrun. destruct (state_new_ok (E:=()) _ sample_config_ok) as (s & Hnew & Hi & _ & Hclk).
  rewrite Hnew in Hrun. cbn [mbind outcome_bind] in Hrun.
  destruct (run_safe es (mkNode s []) 0) as (z & Hz & Hinv & _); [by split; [|split; [constructor|cbn; lia]]|done|lia|]. congruence.
Qed.

(** A delta brings a participant another node added at clock 50. *)
Definition behind : list event :=
  [Begin (CreateRoom 5 9 "standup" 10); Finish 0; Begin (MergeDelta (ParticipantAdded 9 70 (mkDot 2 50))); Finish 0].

Lemma behind_inv : inv (sample_node behind).
Proof.
  destruct (run_new false behind) as [y| |] eqn:E; [|by vm_compute in E..]. unfold sample_node. rewrite E.
  apply (sample_inv behind); [|cbn; lia|done]. repeat constructor; cbn; try lia.
Qed.

Definition behind_set : LwwSet Z := default (empty_set 0) (participants (sample_node behind) !! 9).

(** The same state with the gossip thread listening. *)
Definition listened : State := set_broadcast (Some []) (sample_node behind).

Lemma listened_inv : inv listened.
Proof. apply kept_broadcast, behind_inv. Qed.

Lemma remove_participant_effect_witness :
  match remove_participant false 9 70 listened with
  | Ok (d, s') => d = next_dot listened ∧ broadcast_tx s' = (fun l => l ++ [ParticipantRemoved 9 70 d]) <$> broadcast_tx listened ∧
      (participant_exists s' 9 70 = true ↔ ∃ e, (70, e) ∈ Orswot.pairs behind_set ∧ Dot.cmp d e = Lt)
  | _ => False
  end ∧ broadcast_tx listened = Some [].
Proof.
  split; [|reflexivity].
  pose proof (remove_participant_effect 9 70 listened listened_inv ltac:(by vm_compute)) as H.
  assert (Hset : participants listened !! 9 = Some behind_set) by by vm_compute.
  destruct (remove_participant false 9 70 listened) as [[d s']|[e s']|] eqn:E.
  - destruct H as (_ & _ & Hd & set & Hs & Hin & _ & Hb & _). rewrite Hset in Hs. apply (inj Some) in Hs. rewrite <- Hs in Hin.
    split; [exact Hd|]. split; [exact Hb|exact Hin].
  - destruct H as [([Hz|Hz] & _)|(_ & _ & Hs & _)]; [discriminate Hz|discriminate Hz|]. rewrite Hset in Hs. discriminate Hs.
  - done.
Defined.

(** In that state the removal is a success that changes nothing. *)
Example stale_remove :
  (y ← run_new false (behind ++ [Begin (RemoveParticipant 9 70); Finish 0]); Ok (get_participants (state y) 9)) = Ok [70].
Proof. by vm_compute. Qed.

(** Two threads join a room; the second one's call overtakes the first one's
    and its participant leaves again before the first one's call goes on. *)
Definition race : list event :=
  [Begin (CreateRoom 5 9 "standup" 10); Finish 0; Begin (AddParticipant 9 70); Begin (AddParticipant 9 80); Finish 1;
   Begin (RemoveParticipant 9 80); Finish 1].

(** The participant of the first call never joins, although the call
    succeeds; a debug build panics. *)
Theorem overtaken_add_is_lost :
  (y ← run_new false (race ++ [Finish 0]); Ok (get_participants (state y) 9)) = Ok [] ∧
  run_new true (race ++ [Finish 0]) = Panic ∧
  (y ← run_new false race; Ok (match finish false (WAddParticipant 9 70 (mkDot 1 2)) (state y) with
                               | Ok (Dotted d, _) => Some d | _ => None end)) = Ok (Some (mkDot 1 2)).
Proof. split_and!; by vm_compute. Qed.

(** A node that starts again under its actor id meets its own old dots. *)
Definition restarted : list event :=
  [Begin (CreateRoom 5 9 "standup" 10); Finish 0; Begin (MergeDelta (ParticipantAdded 9 70 (mkDot 1 50))); Finish 0;
   Begin (MergeDelta (ParticipantRemoved 9 70 (mkDot 1 51))); Finish 0].

Lemma restarted_inv : inv (sample_node restarted).
Proof.
  destruct (run_new false restarted) as [y| |] eqn:E; [|by vm_compute in E..]. unfold sample_node. rewrite E.
  apply (sample_inv restarted); [|cbn; lia|done]. repeat constructor; cbn; try lia.
Qed.

Definition restarted_reg : LwwReg.LWWReg RoomMetadata := default (LwwReg.mkReg default_room 0 0) (rooms (sample_node restarted) !! 9).
Definition restarted_set : LwwSet Z := default (empty_set 0) (participants (sample_node restarted) !! 9).

Lemma add_participant_effect_witness :
  let s := sample_node restarted in
  ∃ s', add_participant false 9 80 s = Ok (next_dot s, s') ∧
    (participant_exists s' 9 80 = false ↔
       Orswot.contains restarted_set 80 = false ∧ Orswot.is_tombstoned restarted_set (next_dot s) = true) ∧
    (add_participant true 9 80 s = Panic ↔
       Orswot.contains restarted_set 80 = false ∧ Orswot.is_tombstoned restarted_set (next_dot s) = true).
Proof.
  apply (add_participant_effect 9 80 (sample_node restarted) restarted_reg restarted_set);
    [apply restarted_inv|by vm_compute|done|done|by vm_compute..].
Defined.

Lemma delta_idempotent_witness :
  let s := sample_node behind in
  ∃ s', merge_delta (TrackUpdated 4 default_track 7 2) s = Ok ((), s') ∧ merge_delta (TrackUpdated 4 default_track 7 2) s' = Ok ((), s').
Proof.
  cbv zeta. destruct (merge_delta (TrackUpdated 4 default_track 7 2) (sample_node behind)) as [[[] s']| |] eqn:E; [|by vm_compute in E..].
  exists s'. split; [done|]. apply (delta_idempotent (TrackUpdated 4 default_track 7 2) (sample_node behind) s'); [apply behind_inv|cbn; lia|exact E].
Defined.

Lemma create_room_auto_finds_witness :
  let s := sample_node behind in
  ∃ id, create_room_auto_locked true 5 "retro" 10 2 s = Ok (id, room_created 5 "retro" 10 2 id s) ∧
    next_room_id s ≤ id ≤ next_room_id s + Z.of_nat (size (rooms s)) ∧ id ≠ 0 ∧
    rooms s !! id = None ∧ taken s (next_room_id s) id ∧ inv (room_created 5 "retro" 10 2 id s).
Proof.
  apply (create_room_auto_finds true 5 "retro" 10 2 (sample_node behind));
    [apply behind_inv|by split|by vm_compute|lia|split; lia|apply Nat.ltb_lt; by vm_compute|by vm_compute].
Defined.

Lemma cluster_state_safe_witness :
  ∃ s0 y, new (E:=()) sample_config = Ok s0 ∧ run_events false (race ++ [Finish 0]) (mkNode s0 []) = Ok y ∧
    assert_crdt_invariants (E:=()) (state y) = Ok () ∧
    ∀ room reg, rooms (state y) !! room = Some reg → participant_count (state y) room ≤ max_participants (LwwReg.value reg).
Proof.
  apply (cluster_state_safe sample_config (race ++ [Finish 0])); [apply sample_config_ok| |cbn; lia].
  repeat constructor; cbn; try lia.
Defined.

End DistributedEffects.
