(* ===== verification/Membership.v ===== *)
(** * The SWIM membership list

    [crates/nexus-state/src/gossip/membership.rs]: 256 slots for peers, each
    Alive, Suspect or Dead with an incarnation number, and the node's own
    incarnation. The wall clock and the random numbers a function reads are
    its arguments. *)

From stdpp Require Import strings.
From S2P Require Import Prelude Model Crdt GossipWire.

Inductive GossipError :=
| PeerCapacityExhausted (max : Z)
| InvalidStateTransition (from to : string)
| PeerNotFound (actor : Z)
| MessageTooLarge (size max : Z)
| InvalidMessage (reason : string)
| TransportError
| ConfigError (reason : string).

Module Membership.
Import Gossip.

Definition SUSPECT_TIMEOUT_MS : Z := 5000.

Definition as_str (s : PeerState) : string :=
  match s with Alive => "Alive" | Suspect => "Suspect" | Dead => "Dead" end.

Record MembershipList := mkList {
  ml_actor : Z;
  peers : list (option PeerInfo);
  peer_count : Z;
  own_incarnation : Z;
}.

Definition set_peers l n m := mkList (ml_actor m) l n (own_incarnation m).
Definition set_own i m := mkList (ml_actor m) (peers m) (peer_count m) i.

Definition new {E} (actor : Z) : outcome E MembershipList :=
  assert_ (actor <? MAX_ACTORS);; Ok (mkList actor (replicate MAX_PEERS None) 0 1).

(** [fetch_update] with a saturating increment; the new value. *)
Definition increment_incarnation {E} : st MembershipList E Z :=
  m ← get;
  let i := saturating_add 64 (own_incarnation m) 1 in
  put (set_own i m);; mret i.

Definition is_peer (actor : Z) (o : option PeerInfo) : bool :=
  match o with Some p => peer_actor p =? actor | None => false end.
Definition is_vacant (o : option PeerInfo) : bool := match o with None => true | Some _ => false end.

(** The first slot of a peer. *)
Definition find_peer (m : MembershipList) (actor : Z) : option PeerInfo :=
  i ← position (is_peer actor) (peers m); mjoin (peers m !! i).

(** A known peer whose address changed is created anew: it is Alive again. *)
Definition add_peer (now actor : Z) (addr : SocketAddr) : st MembershipList GossipError () :=
  lift (assert_ (actor <? MAX_ACTORS));;
  m ← get;
  lift (assert_ (negb (actor =? ml_actor m)));;
  match position (is_peer actor) (peers m) with
  | Some i =>
    p ← lift (expect (mjoin (peers m !! i)));
    if bool_decide (peer_addr p = addr) then mret () else
    p' ← lift (peer_new actor addr (incarnation p) (last_seen_ns p));
    put (set_peers (<[i := Some p']> (peers m)) (peer_count m) m)
  | None =>
    if peer_count m >=? Z.of_nat MAX_PEERS then throw (PeerCapacityExhausted (Z.of_nat MAX_PEERS)) else
    match position is_vacant (peers m) with
    | Some i =>
      p ← lift (peer_new actor addr 0 now);
      put (set_peers (<[i := Some p]> (peers m)) (wrapping_add 32 (peer_count m) 1) m);;
      m ← get;
      lift (assert_ (bool_decide (is_Some (find_peer m actor)))) (* debug_assert! *)
    | None => throw (PeerCapacityExhausted (Z.of_nat MAX_PEERS))
    end
  end.

Definition remove_peer (actor : Z) : st MembershipList GossipError () :=
  lift (assert_ (actor <? MAX_ACTORS));;
  m ← get;
  match position (is_peer actor) (peers m) with
  | Some i =>
    put (set_peers (<[i := None]> (peers m)) (wrapping_sub 32 (peer_count m) 1) m);;
    m ← get;
    lift (assert_ (bool_decide (find_peer m actor = None))) (* debug_assert! *)
  | None => throw (PeerNotFound actor)
  end.

Definition validate_transition (from to : PeerState) (from_inc to_inc : Z) : bool :=
  if bool_decide (from = to) then to_inc >=? from_inc else
  match from, to with
  | Alive, Suspect => to_inc >=? from_inc
  | Alive, Dead => true
  | Suspect, Alive => to_inc >? from_inc
  | Suspect, Dead => true
  | Dead, Alive => to_inc >? from_inc
  | _, _ => false
  end.

Definition update_state (now actor : Z) (to : PeerState) (inc : Z) : st MembershipList GossipError () :=
  lift (assert_ (actor <? MAX_ACTORS));;
  m ← get;
  match position (is_peer actor) (peers m) with
  | None => throw (PeerNotFound actor)
  | Some i =>
    p ← lift (expect (mjoin (peers m !! i)));
    if negb (validate_transition (peer_state p) to (incarnation p) inc)
    then throw (InvalidStateTransition (as_str (peer_state p)) (as_str to))
    else put (set_peers (<[i := Some (mkPeer (peer_actor p) (peer_addr p) to inc now)]> (peers m)) (peer_count m) m)
  end.

(** About itself a node takes the larger incarnation plus one: the
    compare-and-exchange loop without a competing writer. *)
Definition mark_alive (now actor inc : Z) : st MembershipList GossipError () :=
  lift (assert_ (actor <? MAX_ACTORS));;
  m ← get;
  if actor =? ml_actor m then
    if own_incarnation m >? inc then mret () else put (set_own (saturating_add 64 inc 1) m)
  else update_state now actor Alive inc.

(** The state a call that succeeded must leave. *)
Definition debug_state (actor : Z) (s : PeerState) : st MembershipList GossipError () :=
  m ← get;
  match find_peer m actor with
  | Some p => lift (assert_ (bool_decide (peer_state p = s)))
  | None => mret ()
  end.

Definition mark_suspect (now actor inc : Z) : st MembershipList GossipError () :=
  m ← get;
  lift (assert_ (negb (actor =? ml_actor m)));;
  lift (assert_ (actor <? MAX_ACTORS));;
  update_state now actor Suspect inc;;
  debug_state actor Suspect.

Definition mark_dead (now actor : Z) : st MembershipList GossipError () :=
  m ← get;
  lift (assert_ (negb (actor =? ml_actor m)));;
  lift (assert_ (actor <? MAX_ACTORS));;
  let inc := match find_peer m actor with Some p => incarnation p | None => 0 end in
  update_state now actor Dead inc;;
  debug_state actor Dead.

(** ** Queries *)

Definition get_all_peers (m : MembershipList) : list PeerInfo := omap id (peers m).
Definition is_alive (p : PeerInfo) : bool := bool_decide (peer_state p = Alive).
Definition get_alive_peers (m : MembershipList) : list PeerInfo := List.filter is_alive (get_all_peers m).

(** [random]: the value [getrandom] fills in, [None] when it fails; the code
    takes the value with [expect]. *)
Definition get_random_alive_peer {E} (random : option Z) (m : MembershipList) : outcome E (option PeerInfo) :=
  let alive := get_alive_peers m in
  if bool_decide (alive = []) then Ok None else
  r ← expect random;
  p ← idx alive (Z.to_nat (r mod Z.of_nat (length alive))); Ok (Some p).

(** [slice::swap] *)
Definition swap {A E} (i j : nat) (l : list A) : outcome E (list A) :=
  x ← idx l i; y ← idx l j; Ok (<[j := x]> (<[i := y]> l)).

(** The rounds [i, i - 1, .., 1] of the shuffle. *)
Fixpoint shuffle {A E} (random : nat → option Z) (i : nat) (l : list A) : outcome E (list A) :=
  match i with
  | O => Ok l
  | S i' => r ← expect (random i); l ← swap i (Z.to_nat (r mod (Z.of_nat i + 1))) l; shuffle random i' l
  end.

Definition get_random_alive_peers {E} (random : nat → option Z) (count : nat) (exclude : Z) (m : MembershipList)
  : outcome E (list PeerInfo) :=
  let alive := List.filter (fun p => is_alive p && negb (peer_actor p =? exclude)) (get_all_peers m) in
  l ← shuffle random (pred (length alive)) alive;
  Ok (take (Nat.min count MAX_PEERS) l).

(** ** Timeouts *)

Definition overdue (now : Z) (p : PeerInfo) : bool :=
  bool_decide (peer_state p = Suspect) && (saturating_sub now (last_seen_ns p) >? SUSPECT_TIMEOUT_MS * 1000000).

Definition expire (now : Z) (o : option PeerInfo) : option PeerInfo :=
  match o with
  | Some p => Some (if overdue now p then mkPeer (peer_actor p) (peer_addr p) Dead (incarnation p) now else p)
  | None => None
  end.

(** The peers that were suspected for too long are dead; their actors. *)
Definition check_timeouts {E} (now : Z) : st MembershipList E (list Z) :=
  m ← get;
  let dead := peer_actor <$> List.filter (overdue now) (get_all_peers m) in
  put (set_peers (expire now <$> peers m) (peer_count m) m);;
  m ← get;
  lift (assert_ (forallb (fun p => negb (overdue now p)) (get_all_peers m)));; (* debug_assert! *)
  mret dead.

Definition touch {E} (now actor : Z) : st MembershipList E () :=
  m ← get;
  match position (is_peer actor) (peers m) with
  | Some i =>
    p ← lift (expect (mjoin (peers m !! i)));
    put (set_peers (<[i := Some (mkPeer (peer_actor p) (peer_addr p) (peer_state p) (incarnation p) now)]> (peers m)) (peer_count m) m)
  | None => mret ()
  end.

End Membership.
