(* ===== verification/MembershipProofs.v ===== *)
(** * The SWIM membership list: what its operations do

    The list is a map from actors to peers: every operation is described by
    what [find_peer] returns before and after it. There is always room for
    another peer. *)

From stdpp Require Import strings.
From S2P Require Import Prelude Wp Model Crdt GossipWire Membership.

Module MembershipProofs.
Import Gossip Membership.
Implicit Types (m : MembershipList) (p q : PeerInfo).

Definition peer_ok (self : Z) (p : PeerInfo) : Prop :=
  0 ≤ peer_actor p < MAX_ACTORS ∧ peer_actor p ≠ self ∧ is_u64 (incarnation p).

Lemma peer_ok_same self p q : peer_ok self p → peer_actor q = peer_actor p → is_u64 (incarnation q) → peer_ok self q.
Proof. intros (Ha & Hs & _) He Hi. split; [by rewrite He|]. split; [by rewrite He|done]. Qed.

Record wf m : Prop := {
  wf_actor : 0 ≤ ml_actor m < MAX_ACTORS;
  wf_own : is_u64 (own_incarnation m);
  wf_len : length (peers m) = MAX_PEERS;
  wf_peers : ∀ i p, peers m !! i = Some (Some p) → peer_ok (ml_actor m) p;
  wf_unique : ∀ i j p q, peers m !! i = Some (Some p) → peers m !! j = Some (Some q) → peer_actor p = peer_actor q → i = j;
  wf_count : peer_count m = Z.of_nat (length (get_all_peers m));
}.

(** ** Looking peers up *)

Lemma find_slot m a : match position (is_peer a) (peers m) with
  | Some i => ∃ p, peers m !! i = Some (Some p) ∧ peer_actor p = a ∧ find_peer m a = Some p
  | None => find_peer m a = None ∧ ∀ i p, peers m !! i = Some (Some p) → peer_actor p ≠ a
  end.
Proof.
  unfold find_peer. destruct (position (is_peer a) (peers m)) as [i|] eqn:Hp; cbn.
  - apply position_Some in Hp as [(o & Ho & Hb) _]. destruct o as [p|]; [|done]. exists p. rewrite Ho. cbn in *.
    split; [done|]. split; [by apply Z.eqb_eq|done].
  - split; [done|]. intros i p Hi. rewrite position_None in Hp. specialize (Hp _ _ Hi). by apply Z.eqb_neq.
Qed.

Lemma find_peer_spec m a p : wf m → find_peer m a = Some p ↔ peer_actor p = a ∧ ∃ i, peers m !! i = Some (Some p).
Proof.
  intros Hwf. pose proof (find_slot m a) as H. destruct (position _ _) as [i|].
  - destruct H as (q & Hi & Ha & ->). split; [intros [= <-]; eauto|]. intros [Hp [j Hj]].
    assert (i = j) as -> by (eapply (wf_unique _ Hwf); eauto; congruence). congruence.
  - destruct H as [-> Hn]. split; [done|]. intros [Hp [i Hi]]. by destruct (Hn _ _ Hi).
Qed.

Lemma all_peers_spec m p : p ∈ get_all_peers m ↔ ∃ i, peers m !! i = Some (Some p).
Proof.
  unfold get_all_peers. rewrite list_elem_of_omap. split.
  - intros (o & Ho & He). cbn in He. subst o. by apply list_elem_of_lookup.
  - intros [i Hi]. exists (Some p). split; [by eapply list_elem_of_lookup_2|done].
Qed.

Lemma find_peer_elem m p : wf m → p ∈ get_all_peers m ↔ find_peer m (peer_actor p) = Some p.
Proof. intros Hwf. rewrite all_peers_spec, find_peer_spec by done. naive_solver. Qed.

Lemma find_peer_ok m a p : wf m → find_peer m a = Some p → peer_actor p = a ∧ peer_ok (ml_actor m) p.
Proof. intros Hwf (Ha & i & Hi)%find_peer_spec; [|done]. split; [done|]. by eapply wf_peers. Qed.

(** ** Writing a slot *)

Definition occupied (o : option PeerInfo) : Z := match o with Some _ => 1 | None => 0 end.

Lemma all_peers_length m i (o o' : option PeerInfo) n : peers m !! i = Some o →
  Z.of_nat (length (get_all_peers (set_peers (<[i := o']> (peers m)) n m))) =
  Z.of_nat (length (get_all_peers m)) - occupied o + occupied o'.
Proof.
  intros Hi. unfold get_all_peers. cbn [peers set_peers]. assert (Hlt : (i < length (peers m))%nat) by (by eapply lookup_lt_Some).
  rewrite (insert_take_drop (peers m) i o') by done. rewrite <- (take_drop_middle (peers m) i o Hi) at 3.
  rewrite !omap_app, !length_app. cbn. destruct o, o'; cbn; lia.
Qed.

(** A slot that is free or belongs to the peer gets a new record of it. *)
Lemma write_slot m i (o : option PeerInfo) p n : wf m → peers m !! i = Some o → peer_ok (ml_actor m) p →
  (match o with Some q => peer_actor q = peer_actor p | None => find_peer m (peer_actor p) = None end) →
  n = peer_count m + 1 - occupied o →
  let m' := set_peers (<[i := Some p]> (peers m)) n m in
  wf m' ∧ ∀ a, find_peer m' a = if decide (a = peer_actor p) then Some p else find_peer m a.
Proof.
  intros Hwf Hi Hok Ho Hn m'.
  assert (Hlt : (i < length (peers m))%nat) by (by eapply lookup_lt_Some).
  assert (Hself : ∀ j q, peers m !! j = Some (Some q) → peer_actor q = peer_actor p → j = i).
  { intros j q Hj Ha. destruct o as [r|]; [eapply (wf_unique _ Hwf); eauto; congruence|].
    pose proof (find_slot m (peer_actor p)) as H. destruct (position _ _); [naive_solver congruence|]. by destruct H as [_ H]; destruct (H _ _ Hj). }
  assert (Hlook : ∀ j q, peers m' !! j = Some (Some q) ↔ j = i ∧ q = p ∨ j ≠ i ∧ peers m !! j = Some (Some q)).
  { intros j q. cbn. destruct (decide (j = i)) as [->|Hne].
    - rewrite list_lookup_insert_eq by done. naive_solver.
    - rewrite list_lookup_insert_ne by done. naive_solver. }
  assert (Hwf' : wf m').
  { destruct Hwf as [Ha Hown Hl Hps Hu Hc]. split; cbn; [done|done|by rewrite length_insert| | |].
    - intros j q Hj. apply Hlook in Hj as [[-> ->]|[_ Hj]]; eauto.
    - intros j k q r Hj Hk Ha'. apply Hlook in Hj, Hk. destruct Hj as [[-> ->]|[Hj Hq]], Hk as [[-> ->]|[Hk Hr]]; [done| | |eauto].
      + symmetry. eapply Hself; [exact Hr|congruence].
      + by eapply Hself.
    - etrans; [|symmetry; apply (all_peers_length m i o (Some p) n Hi)]. rewrite Hn, Hc. cbn [occupied]. lia. }
  split; [done|]. intros a. apply option_eq. intros q. rewrite find_peer_spec by done. setoid_rewrite Hlook. case_decide as Hd.
  - subst a. split; [|intros [= <-]; eauto]. intros (Ha & j & [[-> ->]|[Hj Hq]]); [done|]. by destruct Hj; eapply Hself.
  - rewrite find_peer_spec by done. split; [naive_solver|]. intros (Ha & j & Hj). split; [done|]. exists j. right. split; [|done].
    intros ->. rewrite Hi in Hj. injection Hj as ->. congruence.
Qed.

(** ** Room for every peer *)

Lemma actors_nodup (l : list (option PeerInfo)) :
  (∀ i j p q, l !! i = Some (Some p) → l !! j = Some (Some q) → peer_actor p = peer_actor q → i = j) →
  NoDup (peer_actor <$> omap id l).
Proof.
  induction l as [|o l IH]; intros Hu; [constructor|].
  assert (Hl : NoDup (peer_actor <$> omap id l)).
  { apply IH. intros i j p q Hi Hj Ha. by injection (Hu (S i) (S j) p q Hi Hj Ha). }
  destruct o as [p|]; cbn; [|done]. apply NoDup_cons. split; [|done]. intros (q & Ha & Hq)%list_elem_of_fmap.
  apply list_elem_of_omap in Hq as (o & Ho & He). cbn in He. subst o. apply list_elem_of_lookup in Ho as [i Hi].
  by specialize (Hu 0%nat (S i) p q eq_refl Hi Ha).
Qed.

Lemma peers_bound m : wf m → (length (get_all_peers m) < MAX_PEERS)%nat.
Proof.
  intros Hwf. pose proof (wf_actor _ Hwf) as Ha.
  assert (Hn : NoDup (ml_actor m :: (peer_actor <$> get_all_peers m))).
  { apply NoDup_cons. split; [|apply actors_nodup, Hwf]. intros (p & He & [i Hi]%all_peers_spec)%list_elem_of_fmap.
    destruct (wf_peers _ Hwf _ _ Hi) as (_ & Hne & _). congruence. }
  assert (Hs : ml_actor m :: (peer_actor <$> get_all_peers m) ⊆ seqZ 0 256).
  { intros a [->|(p & -> & [i Hi]%all_peers_spec)%list_elem_of_fmap]%elem_of_cons; apply elem_of_seqZ; unfold MAX_ACTORS in *; [lia|].
    destruct (wf_peers _ Hwf _ _ Hi) as (Hp & _). unfold MAX_ACTORS in *. lia. }
  pose proof (submseteq_length _ _ (NoDup_submseteq _ _ Hn Hs)) as Hl. rewrite length_seqZ in Hl. cbn [length] in Hl. rewrite length_fmap in Hl.
  unfold MAX_PEERS. lia.
Qed.

Lemma vacancy m : wf m → ∃ i, position is_vacant (peers m) = Some i ∧ peers m !! i = Some None.
Proof.
  intros Hwf. destruct (position is_vacant (peers m)) as [i|] eqn:Hp.
  - exists i. split; [done|]. apply position_Some in Hp as [(o & Ho & Hv) _]. by destruct o.
  - exfalso. pose proof (peers_bound m Hwf) as Hb. rewrite <- (wf_len _ Hwf) in Hb. unfold get_all_peers in Hb.
    assert (Hall : ∀ l, position is_vacant l = None → length (omap id l) = length l).
    { clear. induction l as [|[p|] l IH]; cbn; [done| |done]. destruct (position is_vacant l); [done|]. intros _. by rewrite IH. }
    rewrite Hall in Hb by done. lia.
Qed.

(** ** Operations *)

(** [m'] is [m] but for what it says of [a]. *)
Record only (a : Z) (o : option PeerInfo) m m' : Prop := {
  only_wf : wf m';
  only_actor : ml_actor m' = ml_actor m;
  only_own : own_incarnation m' = own_incarnation m;
  only_find : ∀ b, find_peer m' b = if decide (b = a) then o else find_peer m b;
}.

Lemma only_refl m a : wf m → only a (find_peer m a) m m.
Proof. intros Hwf. split; [done..|]. intros b. by case_decide as Hb; [subst|]. Qed.

Lemma only_write m i (o : option PeerInfo) p n : wf m → peers m !! i = Some o → peer_ok (ml_actor m) p →
  (match o with Some q => peer_actor q = peer_actor p | None => find_peer m (peer_actor p) = None end) →
  n = peer_count m + 1 - occupied o → only (peer_actor p) (Some p) m (set_peers (<[i := Some p]> (peers m)) n m).
Proof. intros Hwf Hi Hok Ho Hn. destruct (write_slot m i o p n Hwf Hi Hok Ho Hn) as [Hwf' Hf]. by split. Qed.

Definition added (now a : Z) (addr : SocketAddr) (o : option PeerInfo) : PeerInfo :=
  match o with
  | Some p => if decide (peer_addr p = addr) then p else mkPeer a addr Alive (incarnation p) (last_seen_ns p)
  | None => mkPeer a addr Alive 0 now
  end.

Lemma peer_new_ok {E} a addr i t : a < MAX_ACTORS → peer_new (E:=E) a addr i t = Ok (mkPeer a addr Alive i t).
Proof. intros Ha. unfold peer_new. by rewrite (proj2 (Z.ltb_lt _ _)). Qed.

Lemma add_peer_ok now a addr m (Q : () → MembershipList → Prop) X : wf m → 0 ≤ a < MAX_ACTORS → a ≠ ml_actor m →
  (∀ m', only a (Some (added now a addr (find_peer m a))) m m' → Q () m') → wp (add_peer now a addr) m Q X.
Proof.
  intros Hwf Ha Hne HQ. unfold add_peer. apply wp_bind, wp_assert; [apply Z.ltb_lt; lia|]. apply wp_bind, wp_get.
  apply wp_bind, wp_assert; [by apply negb_true_iff, Z.eqb_neq|].
  pose proof (find_slot m a) as Hs. destruct (position (is_peer a) (peers m)) as [i|].
  - destruct Hs as (p & Hi & Hpa & Hf). apply wp_bind. apply (wp_lift_ok _ p); [by rewrite Hi|]. case_bool_decide as Hsame.
    + wp. apply HQ. rewrite Hf. cbn. rewrite decide_True by done. rewrite <- Hf. by apply only_refl.
    + apply wp_bind. rewrite peer_new_ok by lia. eapply wp_lift_ok; [done|]. wp. apply HQ. rewrite Hf. cbn. rewrite decide_False by done.
      apply (only_write m i (Some p) (mkPeer a addr Alive (incarnation p) (last_seen_ns p))); [done|done| |done|cbn; lia].
      pose proof (wf_peers _ Hwf _ _ Hi) as Hp. apply (peer_ok_same _ p); [done..|]. try done; apply Hp.
  - destruct Hs as [Hf _]. pose proof (peers_bound m Hwf) as Hb. pose proof (wf_count _ Hwf) as Hc.
    rewrite Z.geb_leb, (proj2 (Z.leb_gt _ _)) by lia. destruct (vacancy m Hwf) as (i & -> & Hi). apply wp_bind. rewrite peer_new_ok by lia.
    eapply wp_lift_ok; [done|]. wp.
    assert (Ho : only a (Some (mkPeer a addr Alive 0 now)) m (set_peers (<[i := Some (mkPeer a addr Alive 0 now)]> (peers m)) (wrapping_add 32 (peer_count m) 1) m)).
    { apply (only_write m i None (mkPeer a addr Alive 0 now)); [done|done| |done|].
      - split; [done|]. split; [done|]. cbn. split; lia.
      - unfold wrapping_add. rewrite wrap_small; [cbn; lia|]. unfold MAX_PEERS in Hb. split; lia. }
    apply wp_assert; [|by apply HQ; rewrite Hf]. apply bool_decide_eq_true. rewrite (only_find _ _ _ _ Ho). rewrite decide_True by done. by eexists.
Qed.

(** A transition the list accepts. *)
Definition moved (now : Z) (to : PeerState) (inc : Z) (p : PeerInfo) : PeerInfo := mkPeer (peer_actor p) (peer_addr p) to inc now.

Lemma update_state_ok now a to inc m (Q : () → MembershipList → Prop) (X : GossipError → MembershipList → Prop) :
  wf m → 0 ≤ a < MAX_ACTORS → is_u64 inc →
  (∀ p m', find_peer m a = Some p → validate_transition (peer_state p) to (incarnation p) inc = true →
     only a (Some (moved now to inc p)) m m' → Q () m') →
  (∀ e, (∀ p, find_peer m a = Some p → validate_transition (peer_state p) to (incarnation p) inc = false) → X e m) →
  wp (update_state now a to inc) m Q X.
Proof.
  intros Hwf Ha Hinc HQ HX. unfold update_state. apply wp_bind, wp_assert; [apply Z.ltb_lt; lia|]. apply wp_bind, wp_get.
  pose proof (find_slot m a) as Hs. destruct (position (is_peer a) (peers m)) as [i|].
  - destruct Hs as (p & Hi & Hpa & Hf). apply wp_bind. apply (wp_lift_ok _ p); [by rewrite Hi|].
    destruct (validate_transition _ _ _ _) eqn:Hv; cbn [negb]; wp; [|apply HX; rewrite Hf; by intros ? [= <-]].
    apply (HQ p); [done..|]. rewrite <- Hpa. apply (only_write m i (Some p) (moved now to inc p)); [done|done| |done|cbn; lia].
    pose proof (wf_peers _ Hwf _ _ Hi) as Hp. apply (peer_ok_same _ p); [done..|]. try done; apply Hp.
  - destruct Hs as [Hf _]. wp. apply HX. by rewrite Hf.
Qed.

Lemma debug_state_ok a p m (Q : () → MembershipList → Prop) X : find_peer m a = Some p → Q () m →
  wp (debug_state a (peer_state p)) m Q X.
Proof. intros Hf HQ. unfold debug_state. wp. rewrite Hf. apply wp_assert; [by apply bool_decide_eq_true|done]. Qed.

Lemma only_at a o m m' : only a o m m' → find_peer m' a = o.
Proof. intros Ho. rewrite (only_find _ _ _ _ Ho). by rewrite decide_True. Qed.

Lemma mark_suspect_ok now a inc m (Q : () → MembershipList → Prop) (X : GossipError → MembershipList → Prop) :
  wf m → 0 ≤ a < MAX_ACTORS → a ≠ ml_actor m → is_u64 inc →
  (∀ p m', find_peer m a = Some p → validate_transition (peer_state p) Suspect (incarnation p) inc = true →
     only a (Some (moved now Suspect inc p)) m m' → Q () m') →
  (∀ e, (∀ p, find_peer m a = Some p → validate_transition (peer_state p) Suspect (incarnation p) inc = false) → X e m) →
  wp (mark_suspect now a inc) m Q X.
Proof.
  intros Hwf Ha Hne Hinc HQ HX. unfold mark_suspect. apply wp_bind, wp_get. apply wp_bind, wp_assert; [by apply negb_true_iff, Z.eqb_neq|].
  apply wp_bind, wp_assert; [apply Z.ltb_lt; lia|]. apply wp_bind, update_state_ok; [done..| |auto].
  intros p m' Hf Hv Ho. apply (debug_state_ok a (moved now Suspect inc p)); [by eapply only_at|by eapply HQ].
Qed.

Lemma dead_always s i : validate_transition s Dead i i = true.
Proof. unfold validate_transition. case_bool_decide; [rewrite Z.geb_leb; apply Z.leb_refl|by destruct s]. Qed.

Lemma mark_dead_ok now a m (Q : () → MembershipList → Prop) (X : GossipError → MembershipList → Prop) :
  wf m → 0 ≤ a < MAX_ACTORS → a ≠ ml_actor m →
  (∀ p m', find_peer m a = Some p → only a (Some (moved now Dead (incarnation p) p)) m m' → Q () m') →
  (∀ e, find_peer m a = None → X e m) → wp (mark_dead now a) m Q X.
Proof.
  intros Hwf Ha Hne HQ HX. unfold mark_dead. apply wp_bind, wp_get. apply wp_bind, wp_assert; [by apply negb_true_iff, Z.eqb_neq|].
  apply wp_bind, wp_assert; [apply Z.ltb_lt; lia|]. cbv zeta. apply wp_bind. destruct (find_peer m a) as [p|] eqn:Hf.
  - destruct (find_peer_ok m a p Hwf Hf) as [_ (_ & _ & Hi)]. apply update_state_ok; [done..| |].
    + intros q m' Hq _ Ho. rewrite Hf in Hq. injection Hq as <-. apply (debug_state_ok a (moved now Dead (incarnation p) p)); [by eapply only_at|by eapply HQ].
    + intros e He. specialize (He p Hf). by rewrite dead_always in He.
  - apply update_state_ok; [done|done|split; lia|by rewrite Hf|auto].
Qed.

(** The node's own incarnation changes. *)
Record renewed m m' : Prop := {
  renewed_wf : wf m';
  renewed_actor : ml_actor m' = ml_actor m;
  renewed_own : own_incarnation m ≤ own_incarnation m';
  renewed_find : ∀ b, find_peer m' b = find_peer m b;
}.

Lemma set_own_renewed i m : wf m → is_u64 i → own_incarnation m ≤ i → renewed m (set_own i m).
Proof. intros [] Hi Hle. split; [by split|done..]. Qed.

Lemma saturating_u64 a : is_u64 a → is_u64 (saturating_add 64 a 1) ∧ a ≤ saturating_add 64 a 1.
Proof. unfold saturating_add, in_range. lia. Qed.

Lemma mark_alive_ok now a inc m (Q : () → MembershipList → Prop) (X : GossipError → MembershipList → Prop) :
  wf m → 0 ≤ a < MAX_ACTORS → is_u64 inc →
  (∀ m', a = ml_actor m → renewed m m' →
     own_incarnation m' = own_incarnation m ∨ own_incarnation m' = saturating_add 64 inc 1 → Q () m') →
  (∀ p m', a ≠ ml_actor m → find_peer m a = Some p → validate_transition (peer_state p) Alive (incarnation p) inc = true →
     only a (Some (moved now Alive inc p)) m m' → Q () m') →
  (∀ e, a ≠ ml_actor m → (∀ p, find_peer m a = Some p → validate_transition (peer_state p) Alive (incarnation p) inc = false) → X e m) →
  wp (mark_alive now a inc) m Q X.
Proof.
  intros Hwf Ha Hinc Hself HQ HX. unfold mark_alive. apply wp_bind, wp_assert; [apply Z.ltb_lt; lia|]. apply wp_bind, wp_get.
  destruct (Z.eqb_spec a (ml_actor m)) as [He|Hne].
  - rewrite Z.gtb_ltb. destruct (Z.ltb_spec inc (own_incarnation m)); wp.
    + apply Hself; [done| |by left]. split; [done..|lia|done].
    + destruct (saturating_u64 inc Hinc). apply Hself; [done|apply set_own_renewed; [done..|lia]|by right].
  - apply update_state_ok; [done..| |auto]. intros p m' Hf Hv Ho. by eapply HQ.
Qed.

Lemma touch_ok {E} now a m (Q : () → MembershipList → Prop) (X : E → MembershipList → Prop) : wf m →
  (∀ m', only a ((fun p => moved now (peer_state p) (incarnation p) p) <$> find_peer m a) m m' → Q () m') → wp (touch now a) m Q X.
Proof.
  intros Hwf HQ. unfold touch. apply wp_bind, wp_get.
  pose proof (find_slot m a) as Hs. destruct (position (is_peer a) (peers m)) as [i|].
  - destruct Hs as (p & Hi & Hpa & Hf). apply wp_bind. apply (wp_lift_ok _ p); [by rewrite Hi|]. wp. apply HQ. rewrite Hf. cbn [fmap option_fmap option_map].
    rewrite <- Hpa. apply (only_write m i (Some p) (moved now (peer_state p) (incarnation p) p)); [done|done| |done|cbn; lia].
    pose proof (wf_peers _ Hwf _ _ Hi) as Hp. apply (peer_ok_same _ p); [done..|]. try done; apply Hp.
  - destruct Hs as [Hf _]. wp. apply HQ. rewrite Hf. cbn. rewrite <- Hf. by apply only_refl.
Qed.

Lemma increment_ok {E} m (Q : Z → MembershipList → Prop) (X : E → MembershipList → Prop) : wf m →
  (∀ m', renewed m m' → own_incarnation m' = saturating_add 64 (own_incarnation m) 1 → Q (own_incarnation m') m') →
  wp increment_incarnation m Q X.
Proof.
  intros Hwf HQ. unfold increment_incarnation. wp. destruct (saturating_u64 _ (wf_own _ Hwf)).
  apply (HQ (set_own (saturating_add 64 (own_incarnation m) 1) m)); [by apply set_own_renewed|done].
Qed.

(** ** Timeouts *)

Definition expired (now : Z) (p : PeerInfo) : PeerInfo := if overdue now p then mkPeer (peer_actor p) (peer_addr p) Dead (incarnation p) now else p.

Lemma expired_actor now p : peer_actor (expired now p) = peer_actor p.
Proof. unfold expired. by destruct (overdue now p). Qed.

Lemma expired_not_overdue now p : overdue now (expired now p) = false.
Proof. unfold expired. destruct (overdue now p) eqn:H; [|done]. done. Qed.

Lemma expire_lookup now m i q : (expire now <$> peers m) !! i = Some (Some q) ↔ ∃ p, peers m !! i = Some (Some p) ∧ q = expired now p.
Proof.
  rewrite list_lookup_fmap, fmap_Some. split.
  - intros ([p|] & Hi & He); [|done]. cbn in He. injection He as ->. eauto.
  - intros (p & Hi & ->). exists (Some p). split; [done|]. done.
Qed.

Lemma expire_all now m n : get_all_peers (set_peers (expire now <$> peers m) n m) = expired now <$> get_all_peers m.
Proof. unfold get_all_peers. cbn [peers set_peers]. induction (peers m) as [|[p|] l IH]; cbn; [done| |done]. by f_equal. Qed.

Record timed_out (now : Z) (dead : list Z) m m' : Prop := {
  to_wf : wf m';
  to_actor : ml_actor m' = ml_actor m;
  to_own : own_incarnation m' = own_incarnation m;
  to_find : ∀ b, find_peer m' b = expired now <$> find_peer m b;
  to_dead : ∀ a, a ∈ dead ↔ ∃ p, find_peer m a = Some p ∧ overdue now p = true;
}.

Lemma check_timeouts_ok {E} now m (Q : list Z → MembershipList → Prop) (X : E → MembershipList → Prop) : wf m →
  (∀ dead m', timed_out now dead m m' → Q dead m') → wp (check_timeouts now) m Q X.
Proof.
  intros Hwf HQ. unfold check_timeouts. wp.
  apply wp_assert.
  { rewrite expire_all. apply forallb_forall. intros q Hq. apply list_elem_of_In in Hq. apply list_elem_of_fmap in Hq as (p & -> & _).
    by rewrite expired_not_overdue. }
  wp. apply HQ. set (m' := set_peers _ _ _).
  assert (Hwf' : wf m').
  { destruct Hwf as [Ha Hown Hl Hps Hu Hc]. split; [done|done|cbn; by rewrite length_fmap|cbn|cbn|].
    - intros i q (p & Hi & ->)%expire_lookup. apply (peer_ok_same _ p); [by eapply Hps|apply expired_actor|].
      destruct (Hps _ _ Hi) as (_ & _ & ?). unfold expired. by destruct (overdue now p).
    - intros i j q r (p & Hi & ->)%expire_lookup (p' & Hj & ->)%expire_lookup. rewrite !expired_actor. by apply Hu.
    - unfold m'. by rewrite expire_all, length_fmap. }
  split; [done..| |].
  - intros b. apply option_eq. intros q. rewrite fmap_Some, find_peer_spec by done. cbn. setoid_rewrite expire_lookup. setoid_rewrite (find_peer_spec m b); [|done].
    split; [intros (Hb & i & p & Hi & ->); exists p; rewrite expired_actor in Hb; eauto|].
    intros (p & (Hb & i & Hi) & ->). rewrite expired_actor. eauto.
  - intros a. rewrite list_elem_of_fmap. split.
    + intros (p & -> & Hp). apply list_elem_of_In, filter_In in Hp as [Hp Ho]. apply list_elem_of_In, find_peer_elem in Hp; [|done]. eauto.
    + intros (p & Hf & Ho). exists p. destruct (find_peer_ok m a p Hwf Hf) as [Ha _]. split; [done|].
      apply list_elem_of_In, filter_In. split; [|done]. apply list_elem_of_In, find_peer_elem; [done|]. by rewrite Ha.
Qed.

(** ** Picking peers *)

Lemma alive_spec m p : p ∈ get_alive_peers m ↔ p ∈ get_all_peers m ∧ peer_state p = Alive.
Proof.
  unfold get_alive_peers. rewrite list_elem_of_In, filter_In, <- list_elem_of_In. unfold is_alive. by rewrite bool_decide_eq_true.
Qed.

(** A peer is picked among the alive ones; the code panics when it needs a
    random number and there is none. *)
Lemma random_peer_ok {E} r m :
  match get_random_alive_peer (E:=E) r m with
  | Ok o => ∀ p, o = Some p → p ∈ get_alive_peers m
  | Err _ => False
  | Panic => r = None
  end.
Proof.
  unfold get_random_alive_peer. case_bool_decide as Hn; [done|]. destruct r as [r|]; [|done]. cbn [expect mbind outcome_bind].
  assert (Hl : (0 < length (get_alive_peers m))%nat) by (destruct (get_alive_peers m); [done|cbn; lia]).
  destruct (idx_lt (E:=E) (get_alive_peers m) (Z.to_nat (r mod Z.of_nat (length (get_alive_peers m))))) as (p & -> & Hp).
  { pose proof (Z.mod_pos_bound r (Z.of_nat (length (get_alive_peers m)))). lia. }
  intros ? [= <-]. by eapply list_elem_of_lookup_2.
Qed.

Lemma swap_ok {A E} i j (l : list A) : (i < length l)%nat → (j < length l)%nat → ∃ l', swap (E:=E) i j l = Ok l' ∧ l' ≡ₚ l.
Proof.
  intros Hi Hj. unfold swap. destruct (idx_lt (E:=E) l i Hi) as (x & -> & Hx), (idx_lt (E:=E) l j Hj) as (y & -> & Hy).
  cbn [mbind outcome_bind]. eexists. split; [done|]. destruct (decide (i = j)) as [->|Hne].
  - rewrite list_insert_insert_eq. rewrite Hx in Hy. injection Hy as ->. by rewrite list_insert_id.
  - apply Permutation_inj. rewrite !length_insert. split; [done|].
    exists (fun k => if decide (k = i) then j else if decide (k = j) then i else k). split.
    + intros a b. repeat case_decide; naive_solver.
    + intros k. rewrite !list_lookup_insert. repeat case_decide; rewrite ?length_insert in *; naive_solver lia.
Qed.

Lemma shuffle_ok {A E} r i : ∀ l : list A, (i < length l)%nat ∨ i = 0%nat →
  match shuffle (E:=E) r i l with Ok l' => l' ≡ₚ l | Err _ => False | Panic => ∃ k, r k = None end.
Proof.
  induction i as [|i IH]; intros l Hl; cbn [shuffle]; [done|].
  destruct (r (S i)) as [x|] eqn:Hx; cbn [expect mbind outcome_bind]; [|eauto].
  destruct (swap_ok (E:=E) (S i) (Z.to_nat (x mod (Z.of_nat (S i) + 1))) l) as (l1 & -> & H1); [lia| |].
  { pose proof (Z.mod_pos_bound x (Z.of_nat (S i) + 1)). lia. }
  cbn [mbind outcome_bind]. specialize (IH l1). destruct (shuffle r i l1) as [l2| |]; [|by apply IH; rewrite (Permutation_length H1); lia..].
  etrans; [|exact H1]. apply IH. rewrite (Permutation_length H1). lia.
Qed.

Lemma random_peers_ok {E} r n a m :
  match get_random_alive_peers (E:=E) r n a m with
  | Ok l => ∀ p, p ∈ l → p ∈ get_all_peers m ∧ peer_state p = Alive ∧ peer_actor p ≠ a
  | Err _ => False
  | Panic => ∃ k, r k = None
  end.
Proof.
  unfold get_random_alive_peers. set (l0 := List.filter _ _).
  pose proof (shuffle_ok (E:=E) r (pred (length l0)) l0 ltac:(destruct l0; cbn; lia)) as Hl.
  destruct (shuffle _ _ l0) as [l| |]; [|done..]. cbn [mbind outcome_bind].
  intros p Hp. assert (Hin : p ∈ l0) by (rewrite <- Hl; by eapply subseteq_take).
  apply list_elem_of_In, filter_In in Hin as [Hin [Ha Hne]%andb_true_iff]. split; [by apply list_elem_of_In|]. apply bool_decide_eq_true in Ha.
  split; [done|]. by apply negb_true_iff, Z.eqb_neq in Hne.
Qed.

End MembershipProofs.
