(* ===== verification/Swim.v ===== *)
(** * The SWIM protocol

    [crates/nexus-state/src/gossip/protocol.rs], [config.rs], the sending and
    receiving of [transport.rs], and the gossip loop of [src/node.rs]. What
    the operating system decides (the wall clock, random numbers, whether a
    datagram can be sent, the order of a hash map) is a parameter [World]:
    the [k]-th question gets the [k]-th answer. *)

From stdpp Require Import strings.
From S2P Require Import Prelude Model Crdt GossipWire DistributedState Membership.

Module Swim.
Import Gossip Membership.

Definition MAX_PENDING_INDIRECT : nat := MAX_PEERS.
Definition MAX_PENDING_PINGS : nat := MAX_PEERS.
Definition MAX_PIGGYBACK_QUEUE_SIZE : nat := MAX_PIGGYBACK_UPDATES * 10.
Definition DEFAULT_ANTI_ENTROPY_INTERVAL_MS : Z := 10000.
Definition MAX_SEED_PEERS : nat := 16.
Definition MAX_RELAY_EVENTS : nat := 1024.

(** ** Configuration *)

Record GossipConfig := mkGossipConfig {
  probe_interval_ms : Z;
  ping_timeout_ms : Z;
  suspect_timeout_ms : Z;
  fanout : nat;
  max_piggyback_updates : nat;
  seed_peers : list (Z * SocketAddr);
}.

Definition default_config : GossipConfig := mkGossipConfig 1000 1000 SUSPECT_TIMEOUT_MS 3 MAX_PIGGYBACK_UPDATES [].
Definition for_lan : GossipConfig := mkGossipConfig 500 200 1000 3 MAX_PIGGYBACK_UPDATES [].
Definition for_wan : GossipConfig := mkGossipConfig 2000 2000 10000 4 MAX_PIGGYBACK_UPDATES [].
Definition for_testing : GossipConfig := mkGossipConfig 50 25 100 2 8 [].

Definition validate (c : GossipConfig) : outcome GossipError () :=
  fail_if (probe_interval_ms c =? 0) (ConfigError "probe_interval_ms must be > 0");;
  fail_if (ping_timeout_ms c =? 0) (ConfigError "ping_timeout_ms must be > 0");;
  fail_if (suspect_timeout_ms c <=? ping_timeout_ms c) (ConfigError "suspect_timeout_ms must be > ping_timeout_ms");;
  fail_if (bool_decide (fanout c = 0%nat)) (ConfigError "fanout must be > 0");;
  fail_if (bool_decide (MAX_PEERS < fanout c)%nat) (ConfigError "fanout must be <= MAX_PEERS (256)");;
  fail_if (bool_decide (max_piggyback_updates c = 0%nat)) (ConfigError "max_piggyback_updates must be > 0");;
  fail_if (bool_decide (MAX_PIGGYBACK_UPDATES < max_piggyback_updates c)%nat)
    (ConfigError "max_piggyback_updates must be <= MAX_PIGGYBACK_UPDATES (16)");;
  fail_if (bool_decide (MAX_SEED_PEERS < length (seed_peers c))%nat)
    (ConfigError "seed_peers.len() must be <= MAX_SEED_PEERS (16)").

Definition seed_peer_new {E} (actor : Z) (addr : SocketAddr) : outcome E (Z * SocketAddr) :=
  assert_ (actor <? MAX_ACTORS);; Ok (actor, addr).

Section builders.
Context {E : Type}.
Implicit Types (c : GossipConfig).

Definition with_probe_interval ms c : outcome E GossipConfig :=
  assert_ (ms >? 0);; Ok (mkGossipConfig ms (ping_timeout_ms c) (suspect_timeout_ms c) (fanout c) (max_piggyback_updates c) (seed_peers c)).
Definition with_ping_timeout ms c : outcome E GossipConfig :=
  assert_ (ms >? 0);; Ok (mkGossipConfig (probe_interval_ms c) ms (suspect_timeout_ms c) (fanout c) (max_piggyback_updates c) (seed_peers c)).
Definition with_suspect_timeout ms c : outcome E GossipConfig :=
  assert_ (ms >? 0);; Ok (mkGossipConfig (probe_interval_ms c) (ping_timeout_ms c) ms (fanout c) (max_piggyback_updates c) (seed_peers c)).
Definition with_fanout (n : nat) c : outcome E GossipConfig :=
  assert_ (bool_decide (0 < n)%nat);; assert_ (bool_decide (n ≤ MAX_PEERS)%nat);;
  Ok (mkGossipConfig (probe_interval_ms c) (ping_timeout_ms c) (suspect_timeout_ms c) n (max_piggyback_updates c) (seed_peers c)).
Definition with_max_piggyback_updates (n : nat) c : outcome E GossipConfig :=
  assert_ (bool_decide (0 < n)%nat);; assert_ (bool_decide (n ≤ MAX_PIGGYBACK_UPDATES)%nat);;
  Ok (mkGossipConfig (probe_interval_ms c) (ping_timeout_ms c) (suspect_timeout_ms c) (fanout c) n (seed_peers c)).
Definition with_seed_peers l c : outcome E GossipConfig :=
  assert_ (bool_decide (length l ≤ MAX_SEED_PEERS)%nat);;
  Ok (mkGossipConfig (probe_interval_ms c) (ping_timeout_ms c) (suspect_timeout_ms c) (fanout c) (max_piggyback_updates c) l).
Definition with_seed_peer actor addr c : outcome E GossipConfig :=
  assert_ (bool_decide (length (seed_peers c) < MAX_SEED_PEERS)%nat);;
  x ← seed_peer_new actor addr;
  Ok (mkGossipConfig (probe_interval_ms c) (ping_timeout_ms c) (suspect_timeout_ms c) (fanout c) (max_piggyback_updates c) (seed_peers c ++ [x])).
End builders.

(** ** The world *)

(** [Delivered]: the socket took the datagram. [Blocked]: its buffer is full. *)
Inductive SendResult := Delivered | Blocked | Failed.

Record World := mkWorld {
  now : nat → Z;
  random : nat → option Z;
  net : nat → SendResult;
  hash_order : ∀ A : Type, nat → list A → list A;
}.

(** The random source of the operating system never fails. *)
Definition entropy (W : World) : Prop := ∀ k, is_Some (random W k).

(** ** The state *)

Record PendingPing := mkPing { pp_target : Z; pp_addr : SocketAddr; pp_sent : Z; pp_indirect : bool }.
Record PendingIndirect := mkIndirect { pi_target : Z; pi_requester : Z; pi_requester_addr : SocketAddr; pi_sent : Z }.

Record ProtocolStats := mkStats {
  pings_sent : Z;
  acks_received : Z;
  ping_timeouts : Z;
  suspicions_raised : Z;
  peers_marked_dead : Z;
  state_updates_sent : Z;
  state_updates_received : Z;
  messages_dropped : Z;
}.

Record TransportStats := mkTransportStats {
  messages_sent : Z;
  messages_received : Z;
  bytes_sent : Z;
  bytes_received : Z;
  send_errors : Z;
  recv_errors : Z;
}.

Inductive RelayEvent := Subscribe (track requester : Z) | Unsubscribe (track requester : Z).

(** [wire] is what the socket took, oldest first, [env] the number of
    questions asked to the world. *)
Record SwimProtocol := mkSwim {
  sw_actor : Z;
  membership : MembershipList;
  local_addr : SocketAddr;
  tstats : TransportStats;
  wire : list (GossipMessage * list Z * SocketAddr);
  config : GossipConfig;
  pending_pings : gmap Z PendingPing;
  pending_indirect : gmap Z PendingIndirect;
  last_probe_ns : Z;
  last_anti_entropy_ns : Z;
  anti_entropy_interval_ms : Z;
  piggyback_queue : list StateUpdate;
  stats : ProtocolStats;
  distributed_state : option DistributedState.State;
  relay_events : list RelayEvent;
  env : nat;
}.

Definition set_membership x s := mkSwim (sw_actor s) x (local_addr s) (tstats s) (wire s) (config s) (pending_pings s) (pending_indirect s) (last_probe_ns s) (last_anti_entropy_ns s) (anti_entropy_interval_ms s) (piggyback_queue s) (stats s) (distributed_state s) (relay_events s) (env s).
Definition set_transport t w s := mkSwim (sw_actor s) (membership s) (local_addr s) t w (config s) (pending_pings s) (pending_indirect s) (last_probe_ns s) (last_anti_entropy_ns s) (anti_entropy_interval_ms s) (piggyback_queue s) (stats s) (distributed_state s) (relay_events s) (env s).
Definition set_pings x s := mkSwim (sw_actor s) (membership s) (local_addr s) (tstats s) (wire s) (config s) x (pending_indirect s) (last_probe_ns s) (last_anti_entropy_ns s) (anti_entropy_interval_ms s) (piggyback_queue s) (stats s) (distributed_state s) (relay_events s) (env s).
Definition set_indirect x s := mkSwim (sw_actor s) (membership s) (local_addr s) (tstats s) (wire s) (config s) (pending_pings s) x (last_probe_ns s) (last_anti_entropy_ns s) (anti_entropy_interval_ms s) (piggyback_queue s) (stats s) (distributed_state s) (relay_events s) (env s).
Definition set_last_probe x s := mkSwim (sw_actor s) (membership s) (local_addr s) (tstats s) (wire s) (config s) (pending_pings s) (pending_indirect s) x (last_anti_entropy_ns s) (anti_entropy_interval_ms s) (piggyback_queue s) (stats s) (distributed_state s) (relay_events s) (env s).
Definition set_last_anti_entropy x s := mkSwim (sw_actor s) (membership s) (local_addr s) (tstats s) (wire s) (config s) (pending_pings s) (pending_indirect s) (last_probe_ns s) x (anti_entropy_interval_ms s) (piggyback_queue s) (stats s) (distributed_state s) (relay_events s) (env s).
Definition set_interval x s := mkSwim (sw_actor s) (membership s) (local_addr s) (tstats s) (wire s) (config s) (pending_pings s) (pending_indirect s) (last_probe_ns s) (last_anti_entropy_ns s) x (piggyback_queue s) (stats s) (distributed_state s) (relay_events s) (env s).
Definition set_queue x s := mkSwim (sw_actor s) (membership s) (local_addr s) (tstats s) (wire s) (config s) (pending_pings s) (pending_indirect s) (last_probe_ns s) (last_anti_entropy_ns s) (anti_entropy_interval_ms s) x (stats s) (distributed_state s) (relay_events s) (env s).
Definition set_stats x s := mkSwim (sw_actor s) (membership s) (local_addr s) (tstats s) (wire s) (config s) (pending_pings s) (pending_indirect s) (last_probe_ns s) (last_anti_entropy_ns s) (anti_entropy_interval_ms s) (piggyback_queue s) x (distributed_state s) (relay_events s) (env s).
Definition set_ds x s := mkSwim (sw_actor s) (membership s) (local_addr s) (tstats s) (wire s) (config s) (pending_pings s) (pending_indirect s) (last_probe_ns s) (last_anti_entropy_ns s) (anti_entropy_interval_ms s) (piggyback_queue s) (stats s) x (relay_events s) (env s).
Definition set_relay x s := mkSwim (sw_actor s) (membership s) (local_addr s) (tstats s) (wire s) (config s) (pending_pings s) (pending_indirect s) (last_probe_ns s) (last_anti_entropy_ns s) (anti_entropy_interval_ms s) (piggyback_queue s) (stats s) (distributed_state s) x (env s).
Definition set_env x s := mkSwim (sw_actor s) (membership s) (local_addr s) (tstats s) (wire s) (config s) (pending_pings s) (pending_indirect s) (last_probe_ns s) (last_anti_entropy_ns s) (anti_entropy_interval_ms s) (piggyback_queue s) (stats s) (distributed_state s) (relay_events s) x.

(** *** Counters: [fetch_add] wraps. *)

Definition up (x n : Z) : Z := wrapping_add 64 x n.

Definition count_ping c := mkStats (up (pings_sent c) 1) (acks_received c) (ping_timeouts c) (suspicions_raised c) (peers_marked_dead c) (state_updates_sent c) (state_updates_received c) (messages_dropped c).
Definition count_ack c := mkStats (pings_sent c) (up (acks_received c) 1) (ping_timeouts c) (suspicions_raised c) (peers_marked_dead c) (state_updates_sent c) (state_updates_received c) (messages_dropped c).
Definition count_timeout c := mkStats (pings_sent c) (acks_received c) (up (ping_timeouts c) 1) (suspicions_raised c) (peers_marked_dead c) (state_updates_sent c) (state_updates_received c) (messages_dropped c).
Definition count_suspicion c := mkStats (pings_sent c) (acks_received c) (ping_timeouts c) (up (suspicions_raised c) 1) (peers_marked_dead c) (state_updates_sent c) (state_updates_received c) (messages_dropped c).
Definition count_dead n c := mkStats (pings_sent c) (acks_received c) (ping_timeouts c) (suspicions_raised c) (up (peers_marked_dead c) n) (state_updates_sent c) (state_updates_received c) (messages_dropped c).
Definition count_sent n c := mkStats (pings_sent c) (acks_received c) (ping_timeouts c) (suspicions_raised c) (peers_marked_dead c) (up (state_updates_sent c) n) (state_updates_received c) (messages_dropped c).
Definition count_received n c := mkStats (pings_sent c) (acks_received c) (ping_timeouts c) (suspicions_raised c) (peers_marked_dead c) (state_updates_sent c) (up (state_updates_received c) n) (messages_dropped c).
Definition count_drop c := mkStats (pings_sent c) (acks_received c) (ping_timeouts c) (suspicions_raised c) (peers_marked_dead c) (state_updates_sent c) (state_updates_received c) (up (messages_dropped c) 1).

Definition record_send n t := mkTransportStats (up (messages_sent t) 1) (messages_received t) (up (bytes_sent t) n) (bytes_received t) (send_errors t) (recv_errors t).
Definition record_send_error t := mkTransportStats (messages_sent t) (messages_received t) (bytes_sent t) (bytes_received t) (up (send_errors t) 1) (recv_errors t).
Definition record_recv n t := mkTransportStats (messages_sent t) (up (messages_received t) 1) (bytes_sent t) (up (bytes_received t) n) (send_errors t) (recv_errors t).
Definition record_recv_error t := mkTransportStats (messages_sent t) (messages_received t) (bytes_sent t) (bytes_received t) (send_errors t) (up (recv_errors t) 1).

(** [sock]: the address the operating system bound, if it did. *)
Definition new (actor : Z) (sock : option SocketAddr) (c : GossipConfig) : outcome GossipError SwimProtocol :=
  assert_ (actor <? MAX_ACTORS);;
  validate c;;
  m ← Membership.new actor;
  addr ← of_option TransportError sock;
  Ok (mkSwim actor m addr (mkTransportStats 0 0 0 0 0 0) [] c ∅ ∅ 0 0 DEFAULT_ANTI_ENTROPY_INTERVAL_MS []
        (mkStats 0 0 0 0 0 0 0 0) None [] 0).

Definition set_anti_entropy_interval {E} (ms : Z) : st SwimProtocol E () :=
  lift (assert_ (ms >? 0));; modify (set_interval ms).

Definition set_distributed_state {E} (d : DistributedState.State) : st SwimProtocol E () :=
  s ← get; lift (assert_ (bool_decide (distributed_state s = None)));; put (set_ds (Some d) s).

Section protocol.
Context (W : World) (dbg : bool).

Abbreviation swim := (st SwimProtocol GossipError).

(** Multiplication of 64-bit numbers: a build with debug assertions panics
    on overflow, another one wraps. *)
Definition times {E} (a b : Z) : st SwimProtocol E Z :=
  lift (assert_ (negb dbg || (a * b <? 2 ^ 64)));; mret (wrapping_mul 64 a b).

Definition ms_ns {E} (ms : Z) : st SwimProtocol E Z := times ms 1000000.

(** A question to the world. *)
Definition ask {E A} (f : nat → A) : st SwimProtocol E A :=
  s ← get; put (set_env (S (env s)) s);; mret (f (env s)).

Definition current_time_ns {E} : st SwimProtocol E Z := ask (now W).

Definition on_members {E A} (m : st MembershipList E A) : st SwimProtocol E A := zoom membership set_membership m.
Definition count {E} (f : ProtocolStats → ProtocolStats) : st SwimProtocol E () := modify (fun s => set_stats (f (stats s)) s).
Definition count_transport {E} (f : TransportStats → TransportStats) : st SwimProtocol E () :=
  modify (fun s => set_transport (f (tstats s)) (wire s) s).

(** [let _ = ..] *)
Definition ignore {A} (m : swim A) : swim () := try_ m;; mret ().

(** ** Transport *)

Definition send (msg : GossipMessage) (dest : SocketAddr) : swim () :=
  b ← lift (encode msg);
  lift (assert_ (bool_decide (0 < length b)%nat));;
  lift (assert_ (Z.of_nat (length b) <=? MAX_MESSAGE_SIZE));;
  r ← ask (net W);
  match r with
  | Delivered =>
    modify (fun s => set_transport (record_send (Z.of_nat (length b)) (tstats s)) (wire s ++ [(msg, b, dest)]) s)
  | Blocked => count_transport record_send_error
  | Failed => count_transport record_send_error;; throw TransportError
  end.

(** ** Updates to pass on *)

Definition get_piggyback_updates {E} : st SwimProtocol E (list StateUpdate) :=
  s ← get;
  let n := Nat.min (length (piggyback_queue s)) (max_piggyback_updates (config s)) in
  put (set_queue (drop n (piggyback_queue s)) s);;
  count (count_sent (Z.of_nat (length (take n (piggyback_queue s)))));;
  mret (take n (piggyback_queue s)).

Definition broadcast_state_update {E} (u : StateUpdate) : st SwimProtocol E () :=
  modify (fun s =>
    let q := piggyback_queue s ++ [u] in
    set_queue (drop (length q - MAX_PIGGYBACK_QUEUE_SIZE) q) s);;
  s ← get;
  lift (assert_ (bool_decide (length (piggyback_queue s) ≤ MAX_PIGGYBACK_QUEUE_SIZE)%nat)).

Definition drain_relay_events {E} : st SwimProtocol E (list RelayEvent) :=
  s ← get; put (set_relay [] s);; mret (relay_events s).

(** An update of another node is applied as a call of this node: its dot or
    timestamp is dropped. *)
Definition apply_state_update (u : StateUpdate) : st DistributedState.State CrdtError () :=
  s ← get;
  lift (assert_ (DistributedState.local_actor s <? MAX_ACTORS));;
  match u with
  | ParticipantAdded room p _ => DistributedState.add_participant dbg room p;; mret ()
  | ParticipantRemoved room p _ => DistributedState.remove_participant dbg room p;; mret ()
  | TrackUpdated track info _ _ =>
    if bool_decide (is_Some (DistributedState.get_track s track))
    then DistributedState.update_track track info;; mret ()
    else DistributedState.add_track track info;; mret ()
  | SubscriptionAdded track p _ => DistributedState.add_subscription track p;; mret ()
  | SubscriptionRemoved track p _ => DistributedState.remove_subscription track p;; mret ()
  | RelaySubscribe _ _ | RelayUnsubscribe _ _ => mret ()
  end.

Definition apply_to_state {E} (u : StateUpdate) : st SwimProtocol E () :=
  s ← get;
  match distributed_state s with
  | None => mret ()
  | Some d => try_ (zoom (fun _ => d) (fun d s => set_ds (Some d) s) (apply_state_update u));; mret ()
  end.

Fixpoint apply_all {E} (us : list StateUpdate) : st SwimProtocol E () :=
  match us with [] => mret () | u :: us => apply_to_state u;; apply_all us end.

Definition note_relay (u : StateUpdate) (s : SwimProtocol) : SwimProtocol :=
  if bool_decide (length (relay_events s) < MAX_RELAY_EVENTS)%nat then
    match u with
    | RelaySubscribe track r => set_relay (relay_events s ++ [Subscribe track r]) s
    | RelayUnsubscribe track r => set_relay (relay_events s ++ [Unsubscribe track r]) s
    | _ => s
    end
  else s.

Definition requeue (u : StateUpdate) (s : SwimProtocol) : SwimProtocol :=
  if bool_decide (length (piggyback_queue s) < MAX_PIGGYBACK_QUEUE_SIZE)%nat then set_queue (piggyback_queue s ++ [u]) s else s.

Definition process_state_updates {E} (us : list StateUpdate) : st SwimProtocol E () :=
  let us := take MAX_PIGGYBACK_UPDATES us in
  lift (assert_ (bool_decide (length us ≤ MAX_PIGGYBACK_UPDATES)%nat));;
  count (count_received (Z.of_nat (length us)));;
  apply_all us;;
  modify (fun s => foldl (fun s u => requeue u (note_relay u s)) s us);;
  s ← get;
  lift (assert_ (bool_decide (length (piggyback_queue s) ≤ MAX_PIGGYBACK_QUEUE_SIZE)%nat)).

(** ** Sending to several peers *)

Fixpoint send_all (msg : GossipMessage) (ps : list PeerInfo) : swim () :=
  match ps with [] => mret () | p :: ps => ignore (send msg (peer_addr p));; send_all msg ps end.

Definition random_peers (exclude : Z) : swim (list PeerInfo) :=
  r ← ask (fun k i => random W (k + i));
  s ← get;
  lift (get_random_alive_peers r (fanout (config s)) exclude (membership s)).

Definition request_indirect_probes (target : Z) (addr : SocketAddr) : swim () :=
  helpers ← random_peers target;
  s ← get;
  send_all (PingReq (sw_actor s) target addr (local_addr s)) helpers.

Definition broadcast_alive (actor inc : Z) : swim () :=
  s ← get; send_all (AliveMsg actor inc) (get_alive_peers (membership s)).

Definition broadcast_suspect (actor inc : Z) : swim () :=
  ps ← random_peers actor; send_all (SuspectMsg actor inc) ps.

Definition broadcast_dead (actor : Z) : swim () :=
  ps ← random_peers actor; send_all (DeadMsg actor) ps.

Definition ping_message : swim GossipMessage :=
  s ← get;
  us ← get_piggyback_updates;
  mret (Ping (sw_actor s) (own_incarnation (membership s)) us).

(** ** Handlers *)

Definition drop_message {A} (reason : string) : swim A := count count_drop;; throw (InvalidMessage reason).

(** What a message from a peer says about its sender. *)
Definition heard_from (actor inc : Z) : swim () :=
  now ← current_time_ns;
  ignore (on_members (mark_alive now actor inc));;
  now ← current_time_ns;
  on_members (touch now actor).

Definition learn_peer (actor : Z) (addr : SocketAddr) : swim () :=
  now ← current_time_ns; ignore (on_members (add_peer now actor addr)).

Definition handle_ping (from inc : Z) (us : list StateUpdate) (source : SocketAddr) : swim () :=
  s ← get;
  (if from =? sw_actor s then mret () else learn_peer from source;; heard_from from inc);;
  process_state_updates us;;
  s ← get;
  let local := own_incarnation (membership s) in
  us ← get_piggyback_updates;
  send (Ack (sw_actor s) local us) source.

Definition handle_ack (from inc : Z) (us : list StateUpdate) : swim () :=
  modify (fun s => set_pings (delete from (pending_pings s)) s);;
  s ← get;
  (if from =? sw_actor s then mret () else heard_from from inc);;
  s ← get;
  match pending_indirect s !! from with
  | Some pending =>
    put (set_indirect (delete from (pending_indirect s)) s);;
    ignore (send (ForwardedAck from inc) (pi_requester_addr pending))
  | None => mret ()
  end;;
  process_state_updates us;;
  count count_ack.

Definition handle_ping_req (from target : Z) (target_addr requester_addr : SocketAddr) : swim () :=
  s ← get;
  if target =? sw_actor s then drop_message "ping-req targets the local actor" else
  msg ← ping_message;
  send msg target_addr;;
  count count_ping;;
  s ← get;
  if bool_decide (size (pending_indirect s) < MAX_PENDING_INDIRECT)%nat then
    now ← current_time_ns;
    modify (fun s => set_indirect (<[target := mkIndirect target from requester_addr now]> (pending_indirect s)) s)
  else mret ().

Definition handle_suspect (actor inc : Z) : swim () :=
  s ← get;
  if actor =? sw_actor s then
    i ← on_members increment_incarnation;
    broadcast_alive (sw_actor s) i
  else
    now ← current_time_ns;
    ignore (on_members (mark_suspect now actor inc));;
    count count_suspicion.

Definition handle_alive (actor inc : Z) : swim () :=
  now ← current_time_ns; ignore (on_members (mark_alive now actor inc)).

Definition handle_dead (actor : Z) : swim () :=
  s ← get;
  if actor =? sw_actor s then mret () else
  now ← current_time_ns;
  ignore (on_members (mark_dead now actor));;
  count (count_dead 1).

Definition handle_forwarded_ack (target inc : Z) : swim () :=
  modify (fun s => set_pings (delete target (pending_pings s)) s);;
  s ← get;
  (if target =? sw_actor s then mret () else heard_from target inc);;
  count count_ack.

Definition merge_member (m : Z * Z * Z) : swim () :=
  let '(actor, inc, state) := m in
  s ← get;
  if (actor =? sw_actor s) || (actor >=? MAX_ACTORS) then mret () else
  match from_u8 state with
  | None => mret ()
  | Some peer_state =>
    match find_peer (membership s) actor with
    | None => mret ()
    | Some _ =>
      now ← current_time_ns;
      ignore (on_members (match peer_state with
                          | Alive => mark_alive now actor inc
                          | Suspect => mark_suspect now actor inc
                          | Dead => mark_dead now actor
                          end))
    end
  end.

Fixpoint merge_members (ms : list (Z * Z * Z)) : swim () :=
  match ms with [] => mret () | m :: ms => merge_member m;; merge_members ms end.

Definition handle_state_snapshot (from inc : Z) (ms : list (Z * Z * Z)) (us : list StateUpdate) (source : SocketAddr) : swim () :=
  s ← get;
  (if from =? sw_actor s then mret () else learn_peer from source;; heard_from from inc);;
  merge_members (take MAX_PEERS ms);;
  process_state_updates us.

Definition actor_ids_in_range (msg : GossipMessage) : bool :=
  match msg with
  | Ping from _ _ | Ack from _ _ | StateSnapshot from _ _ _ => from <? MAX_ACTORS
  | PingReq from target _ _ => (from <? MAX_ACTORS) && (target <? MAX_ACTORS)
  | SuspectMsg actor _ | AliveMsg actor _ | DeadMsg actor => actor <? MAX_ACTORS
  | ForwardedAck target _ => target <? MAX_ACTORS
  end.

Definition handle_message (msg : GossipMessage) (source : SocketAddr) : swim () :=
  if negb (actor_ids_in_range msg) then drop_message "actor id out of range" else
  match msg with
  | Ping from inc us => handle_ping from inc us source
  | Ack from inc us => handle_ack from inc us
  | PingReq from target ta ra => handle_ping_req from target ta ra
  | SuspectMsg actor inc => handle_suspect actor inc
  | AliveMsg actor inc => handle_alive actor inc
  | DeadMsg actor => handle_dead actor
  | ForwardedAck target inc => handle_forwarded_ack target inc
  | StateSnapshot from inc ms us => handle_state_snapshot from inc ms us source
  end.

Definition handle_datagram (d : list Z) (source : SocketAddr) : swim () :=
  if Z.of_nat (length d) >? MAX_MESSAGE_SIZE then drop_message "datagram exceeds MAX_MESSAGE_SIZE" else
  match decode d with
  | Ok msg => handle_message msg source
  | Err reason => drop_message reason
  | Panic => lift Panic
  end.

(** What the socket has for [recv_from]: a datagram longer than the buffer is
    cut by the kernel. *)
Inductive Arrival := Nothing | RecvFailed | Datagram (d : list Z) (source : SocketAddr).

Definition recv_raw {E} (a : Arrival) : st SwimProtocol E (option (list Z * SocketAddr)) :=
  match a with
  | Nothing => mret None
  | RecvFailed => count_transport record_recv_error;; mret None
  | Datagram d source =>
    let d := take (Z.to_nat MAX_MESSAGE_SIZE) d in
    if bool_decide (d = []) then count_transport record_recv_error;; mret None
    else count_transport (record_recv (Z.of_nat (length d)));; mret (Some (d, source))
  end.

(** Dropped datagrams are not errors of the loop. *)
Definition drop_invalid (m : swim ()) : swim () := fun s =>
  match m s with Err (InvalidMessage _, s') => Ok ((), s') | r => r end.

Definition recv_loop_iteration (a : Arrival) : swim () :=
  o ← recv_raw a;
  match o with
  | None => mret ()
  | Some (d, source) =>
    lift (assert_ (bool_decide (0 < length d)%nat && (Z.of_nat (length d) <=? MAX_MESSAGE_SIZE)));;
    drop_invalid (handle_datagram d source)
  end.

(** ** Probing *)

Definition add_seed_peer (actor : Z) (addr : SocketAddr) : swim () :=
  now ← current_time_ns;
  on_members (add_peer now actor addr);;
  msg ← ping_message;
  send msg addr;;
  count count_ping;;
  now ← current_time_ns;
  modify (fun s => set_pings (<[actor := mkPing actor addr now false]> (pending_pings s)) s).

(** A ping that is already pending keeps its time. *)
Definition send_ping (target : PeerInfo) : swim () :=
  lift (assert_ (bool_decide (peer_state target = Alive)));;
  msg ← ping_message;
  send msg (peer_addr target);;
  count count_ping;;
  s ← get;
  match pending_pings s !! peer_actor target with
  | Some _ => mret ()
  | None =>
    now ← current_time_ns;
    modify (fun s => set_pings (<[peer_actor target := mkPing (peer_actor target) (peer_addr target) now false]> (pending_pings s)) s)
  end.

(** A ping that timed out: indirect probes first, then suspicion. *)
Definition ping_timed_out (now : Z) (actor : Z) (pending : PendingPing) : swim () :=
  if pp_indirect pending then
    modify (fun s => set_pings (delete actor (pending_pings s)) s);;
    s ← get;
    match find_peer (membership s) actor with
    | Some p =>
      t ← current_time_ns;
      ignore (on_members (mark_suspect t actor (incarnation p)));;
      count count_suspicion;;
      broadcast_suspect actor (incarnation p)
    | None => mret ()
    end;;
    count count_timeout
  else
    request_indirect_probes actor (pp_addr pending);;
    modify (fun s =>
      match pending_pings s !! actor with
      | Some p => set_pings (<[actor := mkPing (pp_target p) (pp_addr p) now true]> (pending_pings s)) s
      | None => s
      end).

Fixpoint pings_timed_out (now : Z) (l : list (Z * PendingPing)) : swim () :=
  match l with [] => mret () | (actor, p) :: l => ping_timed_out now actor p;; pings_timed_out now l end.

Definition check_ping_timeouts (now : Z) : swim () :=
  s ← get;
  timeout ← ms_ns (ping_timeout_ms (config s));
  indirect_timeout ← times timeout 2;
  put (set_indirect (filter (fun x => saturating_sub now (pi_sent x.2) <? indirect_timeout) (pending_indirect s)) s);;
  entries ← ask (fun k => hash_order W _ k (map_to_list (pending_pings s)));
  pings_timed_out now (take MAX_PENDING_PINGS (List.filter (fun x => saturating_sub now (pp_sent x.2) >? timeout) entries)).

Fixpoint broadcast_deaths (l : list Z) : swim () :=
  match l with [] => mret () | a :: l => broadcast_dead a;; broadcast_deaths l end.

(** Suspects that timed out are dead, and their death is broadcast. *)
Definition declare_dead (now : Z) : swim (list Z) :=
  dead ← on_members (check_timeouts now);
  broadcast_deaths dead;;
  count (count_dead (Z.of_nat (length dead)));;
  mret dead.

Definition snapshot_member (p : PeerInfo) : Z * Z * Z := (peer_actor p, incarnation p, as_u8 (peer_state p)).

Definition run_anti_entropy (now : Z) : swim () :=
  s ← get;
  interval ← ms_ns (anti_entropy_interval_ms s);
  if saturating_sub now (last_anti_entropy_ns s) <? interval then mret () else
  modify (set_last_anti_entropy now);;
  r ← ask (random W);
  s ← get;
  o ← lift (get_random_alive_peer r (membership s));
  match o with
  | None => mret ()
  | Some p =>
    let members := snapshot_member <$> take MAX_SNAPSHOT_MEMBERS (get_all_peers (membership s)) in
    us ← get_piggyback_updates;
    ignore (send (StateSnapshot (sw_actor s) (own_incarnation (membership s)) members us) (peer_addr p))
  end.

Definition run_probe_cycle : swim (list Z) :=
  now ← current_time_ns;
  s ← get;
  interval ← ms_ns (probe_interval_ms (config s));
  if saturating_sub now (last_probe_ns s) <? interval then
    check_ping_timeouts now;; declare_dead now
  else
    r ← ask (random W);
    o ← lift (get_random_alive_peer r (membership s));
    match o with Some p => send_ping p | None => mret () end;;
    modify (set_last_probe now);;
    check_ping_timeouts now;;
    dead ← declare_dead now;
    run_anti_entropy now;;
    mret dead.

(** ** The gossip thread of a node *)

Definition MAX_UPDATES_PER_ITERATION : nat := Z.to_nat 4096.

(** The updates the state sent on its channel, in order. *)
Fixpoint forward_updates {E} (us : list StateUpdate) : st SwimProtocol E () :=
  match us with [] => mret () | u :: us => broadcast_state_update u;; forward_updates us end.

Definition take_updates {E} : st SwimProtocol E (list StateUpdate) :=
  s ← get;
  match distributed_state s with
  | Some d =>
    match DistributedState.broadcast_tx d with
    | Some us =>
      put (set_ds (Some (DistributedState.set_broadcast (Some (drop MAX_UPDATES_PER_ITERATION us)) d)) s);;
      mret (take MAX_UPDATES_PER_ITERATION us)
    | None => mret []
    end
  | None => mret []
  end.

Fixpoint nodes_failed {E} (l : list Z) : st SwimProtocol E () :=
  match l with
  | [] => mret ()
  | a :: l =>
    s ← get;
    match distributed_state s with
    | Some d =>
      order ← ask (fun k => hash_order W _ k (map_to_list (DistributedState.tracks d)).*1);
      zoom (fun _ => d) (fun d s => set_ds (Some d) s) (DistributedState.handle_node_failure order a);; mret ()
    | None => mret ()
    end;;
    nodes_failed l
  end.

(** One round; [stop]: the node is being shut down. *)
Definition iteration (stop : bool) (a : Arrival) : st SwimProtocol () bool :=
  if stop then mret false else
  us ← take_updates;
  forward_updates us;;
  o ← try_ run_probe_cycle;
  match o with Some dead => nodes_failed dead | None => mret () end;;
  try_ (recv_loop_iteration a);;
  mret true.

(** ** Starting a node *)

Inductive NodeError := InvalidNodeId (node_id max : Z) | NodeGossip (e : option GossipError).

(** [hash]: the host name, the process and the time, hashed. *)
Definition node_actor_id (node_id hash : Z) : outcome NodeError Z :=
  assert_ (MAX_ACTORS >? 1);;
  id ← (if node_id >? 0 then fail_if (node_id >=? MAX_ACTORS) (InvalidNodeId node_id MAX_ACTORS);; Ok node_id
        else Ok (hash mod (MAX_ACTORS - 1) + 1));
  assert_ ((id >? 0) && (id <? MAX_ACTORS));;
  Ok id.

Definition is_unspecified (a : SocketAddr) : bool := match a with V4 ip _ | V6 ip _ _ _ => ip =? 0 end.

(** A seed that cannot be added is logged. *)
Fixpoint add_seeds {E} (l : list (Z * SocketAddr)) : st SwimProtocol E () :=
  match l with [] => mret () | (actor, addr) :: l => try_ (add_seed_peer actor addr);; add_seeds l end.

Definition build_swim (c : GossipConfig) (bind sock : option SocketAddr) (actor : Z) (d : DistributedState.State)
  : outcome NodeError SwimProtocol :=
  b ← of_option (NodeGossip None) bind;
  assert_ (negb (is_unspecified b));;
  s ← map_err (fun e => NodeGossip (Some e)) (new actor sock c);
  match (set_distributed_state d;; add_seeds (seed_peers c)) s with
  | Ok (_, s) => Ok s
  | Err (e, _) => Err e
  | Panic => Panic
  end.

(** The state of a node and, in a cluster, its gossip. *)
Definition start (gossip_enabled : bool) (node_id hash : Z) (c : GossipConfig) (bind sock : option SocketAddr)
  : outcome NodeError (DistributedState.State * option SwimProtocol) :=
  actor ← node_actor_id node_id hash;
  dc ← DistributedState.config_new actor;
  d ← DistributedState.new dc;
  if negb gossip_enabled then assert_ (DistributedState.local_actor d =? actor);; Ok (d, None) else
  let d := DistributedState.set_broadcast (Some []) d in
  s ← build_swim c bind sock actor d;
  assert_ (DistributedState.local_actor d =? actor);;
  Ok (d, Some s).

End protocol.

End Swim.
