(* ===== verification/SwimProofs.v ===== *)
(** * The SWIM protocol: what a node keeps, whatever it hears

    One pass over every handler and over the probe cycle shows what a step of
    the protocol keeps: the membership list stays well formed, a belief about
    a peer only moves forward, and the messages a node sends say only what it
    knows. What may be known is a parameter: [K a i], the incarnation [i] of
    [a]; [B a x], the address [x] of [a]; [R], whether a node may hear rumours
    about itself. *)

From stdpp Require Import strings.
From S2P Require Import Prelude Wp Model Crdt GossipWire GossipProofs DistributedState DistributedProofs Membership MembershipProofs Swim.

Module SwimProofs.
Import Gossip GossipRoundTrip Membership MembershipProofs Swim.
Implicit Types (m : MembershipList) (p q : PeerInfo) (s : SwimProtocol).

(** ** Beliefs *)

Definition rank (x : PeerState) : Z := match x with Alive => 0 | Suspect => 1 | Dead => 2 end.

(** The order of SWIM: a higher incarnation overrides, and at the same
    incarnation Dead overrides Suspect, which overrides Alive. *)
Definition later p q : Prop := incarnation p < incarnation q ∨ incarnation p = incarnation q ∧ rank (peer_state p) ≤ rank (peer_state q).

Lemma later_refl p : later p p.
Proof. right. lia. Qed.

Lemma later_trans p q r : later p q → later q r → later p r.
Proof. unfold later. lia. Qed.

Lemma transition_later now to inc p : validate_transition (peer_state p) to (incarnation p) inc = true →
  later p (moved now to inc p) ∨ to = Dead.
Proof.
  unfold validate_transition, later. cbn. case_bool_decide as He; [subst; rewrite Z.geb_leb, Z.leb_le; lia|].
  destruct (peer_state p), to; cbn; rewrite ?Z.geb_leb, ?Z.gtb_ltb, ?Z.leb_le, ?Z.ltb_lt; naive_solver lia.
Qed.

(** What a step does to the beliefs of a node; [src] is the sender whose
    address it sees. *)
Record grows (src : option (Z * SocketAddr)) m m' : Prop := {
  gr_actor : ml_actor m' = ml_actor m;
  gr_own : own_incarnation m ≤ own_incarnation m';
  gr_new : ∀ b p', find_peer m' b = Some p' → find_peer m b = None → src = Some (b, peer_addr p');
  gr_peer : ∀ b p, find_peer m b = Some p → ∃ p', find_peer m' b = Some p' ∧ incarnation p ≤ incarnation p' ∧
    (peer_addr p' = peer_addr p ∧ later p p' ∨ peer_addr p' ≠ peer_addr p ∧ src = Some (b, peer_addr p'));
}.

Lemma grows_refl src m : grows src m m.
Proof. split; [done|done|congruence|]. intros b p Hp. exists p. split; [done|]. split; [done|]. left. split; [done|apply later_refl]. Qed.

Lemma grows_trans src m1 m2 m3 : grows src m1 m2 → grows src m2 m3 → grows src m1 m3.
Proof.
  intros [A1 O1 N1 P1] [A2 O2 N2 P2]. split; [congruence|lia| |].
  - intros b p3 H3 H1. destruct (find_peer m2 b) as [p2|] eqn:H2; [|by apply N2].
    destruct (P2 b p2 H2) as (q & Hq & _ & [[He _]|[_ Hs]]); rewrite H3 in Hq; injection Hq as <-; [|done].
    rewrite He. by apply N1.
  - intros b p1 H1. destruct (P1 b p1 H1) as (p2 & H2 & I12 & D12). destruct (P2 b p2 H2) as (p3 & H3 & I23 & D23).
    exists p3. split; [done|]. split; [lia|]. destruct D12 as [[E12 L12]|[E12 S12]], D23 as [[E23 L23]|[E23 S23]].
    + left. split; [congruence|by eapply later_trans].
    + right. split; [congruence|done].
    + right. split; congruence.
    + rewrite S12 in S23. injection S23 as S23. congruence.
Qed.

Lemma grows_none src m m' : grows None m m' → grows src m m'.
Proof.
  intros [A O N P]. split; [done|done| |].
  - intros b p' H1 H2. by specialize (N b p' H1 H2).
  - intros b p Hp. destruct (P b p Hp) as (p' & Hp' & Hi & [Hl|[_ Hs]]); [|done]. eauto.
Qed.

(** A peer's record changes for the better. *)
Lemma only_grows a p p' m m' : find_peer m a = Some p → peer_addr p' = peer_addr p → later p p' →
  only a (Some p') m m' → grows None m m'.
Proof.
  intros Hp Ha Hl Ho. split; [apply Ho|by rewrite (only_own _ _ _ _ Ho)| |].
  - intros b q. rewrite (only_find _ _ _ _ Ho). case_decide; congruence.
  - intros b q Hq. rewrite (only_find _ _ _ _ Ho). case_decide as Hb; [subst b; rewrite Hp in Hq; injection Hq as <-|].
    + exists p'. split; [done|]. split; [unfold later in Hl; lia|by left].
    + exists q. split; [done|]. split; [done|]. left. split; [done|apply later_refl].
Qed.

Lemma renewed_grows m m' : renewed m m' → grows None m m'.
Proof.
  intros [Hwf Ha Ho Hf]. split; [done|done|congruence|]. intros b p Hp. exists p. rewrite Hf. split; [done|]. split; [done|].
  left. split; [done|apply later_refl].
Qed.

Lemma expired_later now p : later p (expired now p) ∧ peer_addr (expired now p) = peer_addr p ∧ incarnation (expired now p) = incarnation p.
Proof.
  unfold expired, overdue. case_bool_decide as Hs; cbn [andb]; [|split; [apply later_refl|done]].
  destruct (_ >? _); [|split; [apply later_refl|done]]. split; [|done]. right. cbn. rewrite Hs. cbn. lia.
Qed.

Lemma timed_out_grows now dead m m' : timed_out now dead m m' → grows None m m'.
Proof.
  intros Ht. split; [apply Ht|by rewrite (to_own _ _ _ _ Ht)| |].
  - intros b q. rewrite (to_find _ _ _ _ Ht). intros Hq Hn. by rewrite Hn in Hq.
  - intros b p Hp. rewrite (to_find _ _ _ _ Ht), Hp. destruct (expired_later now p) as (Hl & Ha & Hi). eexists. split; [done|].
    split; [lia|by left].
Qed.

(** ** What a node knows and says *)

Section node.
Context (W : World) (K : Z → Z → Prop) (B : Z → SocketAddr → Prop) (R : Prop).
(** The code may panic only if [bad]: never when the random source works. *)
Context (bad : Prop) (HE : bad ∨ entropy W).
Context (K_zero : ∀ a, K a 0) (K_next : R → ∀ a i, K a i → K a (saturating_add 64 i 1)).

Record knows m : Prop := {
  kn_own : K (ml_actor m) (own_incarnation m);
  kn_inc : ∀ b p, find_peer m b = Some p → K b (incarnation p);
  kn_addr : ∀ b p, find_peer m b = Some p → B b (peer_addr p);
}.

Definition claim_ok (a i : Z) : Prop := actor_ok a ∧ is_u64 i ∧ K a i.

(** Somebody else than [a] is told. *)
Definition told_others (a : Z) (dest : SocketAddr) : Prop := ∃ b, b ≠ a ∧ B b dest.

Definition says (self : Z) (msg : GossipMessage) (dest : SocketAddr) : Prop :=
  match msg with
  | Ping from inc _ | Ack from inc _ => from = self ∧ claim_ok from inc
  | PingReq from _ _ _ => from = self
  | SuspectMsg a inc => claim_ok a inc ∧ told_others a dest
  | AliveMsg a inc => R ∧ a = self ∧ claim_ok a inc
  | DeadMsg a => actor_ok a ∧ told_others a dest
  | ForwardedAck a inc => claim_ok a inc
  | StateSnapshot from inc ms _ => from = self ∧ claim_ok from inc ∧ Forall (fun x => claim_ok x.1.1 x.1.2 ∧ 0 ≤ x.2 ≤ 2) ms
  end.

Definition says_entry (self : Z) (x : GossipMessage * list Z * SocketAddr) : Prop :=
  x.1.2 = [tag x.1.1] ++ body x.1.1 ∧ says self x.1.1 x.2.

(** What a node may be told. *)
Definition hears (self : Z) (msg : GossipMessage) (source : SocketAddr) : Prop :=
  match msg with
  | Ping from inc _ => claim_ok from inc ∧ B from source
  | Ack from inc _ => claim_ok from inc
  | PingReq _ _ _ _ => True
  | SuspectMsg a inc | AliveMsg a inc => claim_ok a inc ∧ (a = self → R)
  | DeadMsg a => actor_ok a
  | ForwardedAck a inc => claim_ok a inc
  | StateSnapshot from inc ms _ => claim_ok from inc ∧ B from source ∧ Forall (fun x => claim_ok x.1.1 x.1.2) ms
  end.

Definition state_clock s : Z := match distributed_state s with Some d => DistributedProofs.clock_of d | None => 0 end.

Record inv s : Prop := {
  inv_wf : wf (membership s);
  inv_actor : ml_actor (membership s) = sw_actor s;
  inv_knows : knows (membership s);
  inv_queue : (length (piggyback_queue s) ≤ MAX_PIGGYBACK_QUEUE_SIZE)%nat;
  inv_pings : map_Forall (fun a _ => actor_ok a) (pending_pings s);
  inv_state : ∀ d, distributed_state s = Some d → DistributedProofs.inv d;
}.

(** A step of a node that heard from [src] and made [k] ticks of the clock of
    the replicated state. *)
Record adv (src : option (Z * SocketAddr)) (k : Z) s s' : Prop := {
  adv_inv : inv s';
  adv_actor : sw_actor s' = sw_actor s;
  adv_local : local_addr s' = local_addr s;
  adv_config : config s' = config s;
  adv_clock : state_clock s' ≤ state_clock s + k;
  adv_members : grows src (membership s) (membership s');
  adv_wire : ∃ l, wire s' = wire s ++ l ∧ Forall (says_entry (sw_actor s)) l;
}.

Lemma adv_refl src k s : inv s → 0 ≤ k → adv src k s s.
Proof. intros Hi Hk. split; [done..|lia|apply grows_refl|]. exists []. by rewrite app_nil_r. Qed.

Lemma adv_trans src k1 k2 k s1 s2 s3 : k1 + k2 ≤ k → adv src k1 s1 s2 → adv src k2 s2 s3 → adv src k s1 s3.
Proof.
  intros Hk [I1 A1 L1 C1 T1 M1 (l1 & W1 & F1)] [I2 A2 L2 C2 T2 M2 (l2 & W2 & F2)].
  split; [done|congruence..|lia|by eapply grows_trans|]. exists (l1 ++ l2). rewrite W2, W1, app_assoc. split; [done|].
  apply Forall_app. rewrite A1 in F2. by split.
Qed.

Lemma adv_weaken src k k' s s' : k ≤ k' → adv None k s s' → adv src k' s s'.
Proof. intros Hk []. split; try done; [lia|by apply grows_none]. Qed.

(** Fields the invariant does not speak of. *)
Lemma adv_frame s s' : inv s → membership s' = membership s → sw_actor s' = sw_actor s → local_addr s' = local_addr s →
  config s' = config s → piggyback_queue s' = piggyback_queue s → pending_pings s' = pending_pings s →
  distributed_state s' = distributed_state s → wire s' = wire s → adv None 0 s s'.
Proof.
  intros [] Hm Ha Hl Hc Hq Hp Hd Hw. split; [split; by rewrite ?Hm, ?Ha, ?Hq, ?Hp, ?Hd|done|done|done| |rewrite Hm; apply grows_refl|].
  - unfold state_clock. rewrite Hd. lia.
  - exists []. by rewrite app_nil_r.
Qed.

Lemma adv_pings x s : inv s → map_Forall (fun a _ => actor_ok a) x → adv None 0 s (set_pings x s).
Proof.
  intros [] Hx. split; try done; [unfold state_clock; cbn; lia|apply grows_refl|]. exists []. by rewrite app_nil_r.
Qed.

Lemma adv_forget a s : inv s → adv None 0 s (set_pings (delete a (pending_pings s)) s).
Proof. intros Hi. apply adv_pings; [done|]. by apply map_Forall_delete, (inv_pings _ Hi). Qed.

Lemma adv_remember a x s : inv s → actor_ok a → adv None 0 s (set_pings (<[a := x]> (pending_pings s)) s).
Proof. intros Hi Ha. apply adv_pings; [done|]. by apply map_Forall_insert_2, (inv_pings _ Hi). Qed.

(** *** Running code *)

Definition does {E A} (src : option (Z * SocketAddr)) (k : Z) (c : st SwimProtocol E A) s : Prop :=
  run_to bad c s (fun _ => adv src k s) (fun _ => adv src k s).

Lemma does_bind {E A C} src k1 k2 k (c : st SwimProtocol E A) (f : A → st SwimProtocol E C) s :
  k1 + k2 ≤ k → 0 ≤ k2 → does src k1 c s → (∀ a s', adv src k1 s s' → does src k2 (f a) s') → does src k (c ≫= f) s.
Proof.
  intros Hk H2 Hc Hf. apply wp_bind. eapply wp_conseq; [exact Hc|..]; cbn beta.
  - intros a s' H1. eapply wp_conseq; [by apply Hf|..]; intros ? s''; by apply (adv_trans src k1 k2).
  - intros e s' H1. eapply (adv_trans src k1 k2); [done|done|]. by apply adv_refl; [apply H1|].
Qed.

(** The common case: no ticks. *)
Lemma does_seq {E A C} src k (c : st SwimProtocol E A) (f : A → st SwimProtocol E C) s : 0 ≤ k →
  does src 0 c s → (∀ a s', adv src 0 s s' → does src k (f a) s') → does src k (c ≫= f) s.
Proof. intros Hk. apply (does_bind src 0 k); lia. Qed.

(** Code that cannot fail. *)
Definition runs {E A} (src : option (Z * SocketAddr)) (k : Z) (c : st SwimProtocol E A) s : Prop :=
  run_to bad c s (fun _ => adv src k s) (fun _ _ => False).

Lemma runs_bind {E A C} src k1 k2 k (c : st SwimProtocol E A) (f : A → st SwimProtocol E C) s : k1 + k2 ≤ k →
  runs src k1 c s → (∀ a s', adv src k1 s s' → runs src k2 (f a) s') → runs src k (c ≫= f) s.
Proof.
  intros Hk Hc Hf. apply wp_bind. eapply wp_mono; [exact Hc|]. intros a s' H1. eapply wp_mono; [by apply Hf|].
  intros b s''. by apply (adv_trans src k1 k2).
Qed.

Lemma runs_try {E F A} src k (c : st SwimProtocol F A) s : does src k c s → runs (E:=E) src k (try_ c) s.
Proof. intros Hc. by apply wp_try. Qed.

Lemma runs_weaken {E A} src k k' (c : st SwimProtocol E A) s : k ≤ k' → runs None k c s → runs src k' c s.
Proof. intros Hk Hc. eapply wp_mono; [exact Hc|]. intros ? ?. by apply adv_weaken. Qed.

(** A call whose result is used. *)
Lemma does_then {E A C} (P : A → SwimProtocol → Prop) src k (c : st SwimProtocol E A) (f : A → st SwimProtocol E C) s : 0 ≤ k →
  run_to bad c s (fun a s' => adv None 0 s s' ∧ P a s') (fun _ => adv None 0 s) →
  (∀ a s', adv None 0 s s' → P a s' → does src k (f a) s') → does src k (c ≫= f) s.
Proof.
  intros Hk Hc Hf. apply wp_bind. eapply wp_conseq; [exact Hc|..]; cbn beta.
  - intros a s' [Ha HP]. eapply wp_conseq; [by apply Hf|..]; intros ? s''; (apply (adv_trans src 0 k); [lia|by apply (adv_weaken src 0)]).
  - intros e s' Ha. by apply (adv_weaken src 0).
Qed.

Lemma does_ret {E A} src k (a : A) s : inv s → 0 ≤ k → does src k (mret a : st SwimProtocol E A) s.
Proof. intros. by apply adv_refl. Qed.

Lemma does_get {E A} src k (f : SwimProtocol → st SwimProtocol E A) s : does src k (f s) s → does src k (get ≫= f) s.
Proof. done. Qed.

Lemma does_weaken {E A} src k k' (c : st SwimProtocol E A) s : k ≤ k' → does None k c s → does src k' c s.
Proof. intros Hk Hc. eapply wp_conseq; [exact Hc|..]; intros ? ?; by apply adv_weaken. Qed.

Lemma does_modify {E} src k (f : SwimProtocol → SwimProtocol) s : adv None 0 s (f s) → 0 ≤ k → does src k (modify f : st SwimProtocol E ()) s.
Proof. intros H Hk. by apply (adv_weaken src 0). Qed.

Lemma does_put {E} src k s' s : adv None 0 s s' → 0 ≤ k → does src k (put s' : st SwimProtocol E ()) s.
Proof. intros H Hk. by apply (adv_weaken src 0). Qed.

Lemma does_ignore {A} src k (c : st SwimProtocol GossipError A) s : does src k c s → does src k (ignore c) s.
Proof. intros Hc. unfold ignore. apply wp_bind, wp_try. eapply wp_conseq; [exact Hc|..]; intros; by apply wp_ret. Qed.

Lemma does_ask {E A C} src k (f : nat → A) (g : A → st SwimProtocol E C) s : inv s → 0 ≤ k →
  (∀ a s', adv None 0 s s' → membership s' = membership s → does src k (g a) s') → does src k (ask f ≫= g) s.
Proof.
  intros Hi Hk Hg. assert (Ha : adv None 0 s (set_env (S (env s)) s)) by (by apply adv_frame).
  unfold ask. apply wp_bind. wp. eapply wp_conseq; [by apply Hg|..]; intros ? s';
    (apply (adv_trans src 0 k); [lia|by apply (adv_weaken src 0)]).
Qed.

(** A random number. *)
Lemma does_draw {E C} src k (g : option Z → st SwimProtocol E C) s : inv s → 0 ≤ k →
  (∀ n s', adv None 0 s s' → membership s' = membership s → does src k (g (random W n)) s') → does src k (ask (random W) ≫= g) s.
Proof.
  intros Hi Hk Hg. assert (Ha : adv None 0 s (set_env (S (env s)) s)) by (by apply adv_frame).
  unfold ask. apply wp_bind. wp. eapply wp_conseq; [by apply Hg|..]; intros ? s';
    (apply (adv_trans src 0 k); [lia|by apply (adv_weaken src 0)]).
Qed.

Lemma ask_does {E A} (f : nat → A) s : inv s → does (E:=E) None 0 (ask f) s.
Proof. intros Hi. by apply adv_frame. Qed.

Lemma does_count {E} src k f s : inv s → 0 ≤ k → does src k (Swim.count (E:=E) f) s.
Proof. intros. apply does_modify; [by apply adv_frame|done]. Qed.

(** *** Membership *)

Definition mem src m m' : Prop := wf m' ∧ grows src m m' ∧ knows m'.

Lemma does_members {E A} src k (c : st MembershipList E A) s : inv s → 0 ≤ k →
  wp c (membership s) (fun _ => mem src (membership s)) (fun _ => mem src (membership s)) → does src k (on_members c) s.
Proof.
  intros Hi Hk Hc. assert (H : ∀ m', mem src (membership s) m' → adv src k s (set_membership m' s)).
  { intros m' (Hwf & Hg & Hkn). destruct Hi as [? Ha ? ? ?]. split; try done.
    - split; [done| |done..]. cbn. by rewrite (gr_actor _ _ _ Hg).
    - change (state_clock (set_membership m' s)) with (state_clock s). lia.
    - exists []. by rewrite app_nil_r. }
  apply wp_zoom. eapply wp_conseq; [apply wp_any; exact Hc|..]; intros ? m' Hm; by apply H.
Qed.

Lemma mem_refl src m : wf m → knows m → mem src m m.
Proof. intros. split; [done|]. split; [apply grows_refl|done]. Qed.

Lemma mem_only a p p' m m' : knows m → find_peer m a = Some p → peer_addr p' = peer_addr p → later p p' → K a (incarnation p') →
  only a (Some p') m m' → mem None m m'.
Proof.
  intros [Ko Ki Ka] Hp Hpa Hl HK Ho. split; [apply Ho|]. split; [by eapply only_grows|]. split.
  - by rewrite (only_actor _ _ _ _ Ho), (only_own _ _ _ _ Ho).
  - intros b q. rewrite (only_find _ _ _ _ Ho). case_decide; [intros [= <-]; by subst|apply Ki].
  - intros b q. rewrite (only_find _ _ _ _ Ho). case_decide; [intros [= <-]; subst; rewrite Hpa; by apply Ka|apply Ka].
Qed.

Lemma mem_renewed m m' : knows m → renewed m m' → K (ml_actor m) (own_incarnation m') → mem None m m'.
Proof.
  intros [Ko Ki Ka] Hr HK. split; [apply Hr|]. split; [by apply renewed_grows|]. split.
  - by rewrite (renewed_actor _ _ Hr).
  - intros b p. rewrite (renewed_find _ _ Hr). apply Ki.
  - intros b p. rewrite (renewed_find _ _ Hr). apply Ka.
Qed.

Lemma mem_none src m m' : mem None m m' → mem src m m'.
Proof. intros (? & ? & ?). split; [done|]. split; [by apply grows_none|done]. Qed.

(** A change of state the list accepts is a later belief: a node about to be
    declared dead keeps its incarnation. *)
Lemma moved_later now to inc p : validate_transition (peer_state p) to (incarnation p) inc = true → to ≠ Dead →
  later p (moved now to inc p).
Proof. intros Hv Hd. by destruct (transition_later now to inc p Hv). Qed.

Lemma mark_alive_mem now a inc m : wf m → knows m → claim_ok a inc → (a = ml_actor m → R) →
  wp (mark_alive now a inc) m (fun _ => mem None m) (fun _ => mem None m).
Proof.
  intros Hwf Hk (Ha & Hi & HK) HR. apply mark_alive_ok; [done..| | |].
  - intros m' -> Hr Hown. apply mem_renewed; [done..|]. destruct Hown as [->| ->]; [apply Hk|]. by apply K_next; [apply HR|].
  - intros p m' _ Hf Hv Ho. apply (mem_only a p (moved now Alive inc p)); [done|done|done|by apply moved_later|done|done].
  - intros e _ _. by apply mem_refl.
Qed.

Lemma mark_suspect_mem now a inc m : wf m → knows m → claim_ok a inc → a ≠ ml_actor m →
  wp (mark_suspect now a inc) m (fun _ => mem None m) (fun _ => mem None m).
Proof.
  intros Hwf Hk (Ha & Hi & HK) Hne. apply mark_suspect_ok; [done..| |].
  - intros p m' Hf Hv Ho. apply (mem_only a p (moved now Suspect inc p)); [done|done|done|by apply moved_later|done|done].
  - intros e _. by apply mem_refl.
Qed.

Lemma mark_dead_mem now a m : wf m → knows m → actor_ok a → a ≠ ml_actor m →
  wp (mark_dead now a) m (fun _ => mem None m) (fun _ => mem None m).
Proof.
  intros Hwf Hk Ha Hne. apply mark_dead_ok; [done..| |].
  - intros p m' Hf Ho. apply (mem_only a p (moved now Dead (incarnation p) p)); [done|done|done| |exact (kn_inc m Hk a p Hf)|done]. right. cbn. destruct (peer_state p); cbn; lia.
  - intros e _. by apply mem_refl.
Qed.

Lemma touch_mem {E} now a m : wf m → knows m → wp (touch now a : st MembershipList E ()) m (fun _ => mem None m) (fun _ => mem None m).
Proof.
  intros Hwf Hk. apply touch_ok; [done|]. intros m' Ho. destruct (find_peer m a) as [p|] eqn:Hf; cbn in Ho.
  - apply (mem_only a p (moved now (peer_state p) (incarnation p) p)); [done|done|done| |exact (kn_inc m Hk a p Hf)|done]. right. cbn. lia.
  - split; [apply Ho|]. assert (Hfind : ∀ b, find_peer m' b = find_peer m b).
    { intros b. rewrite (only_find _ _ _ _ Ho). case_decide; congruence. }
    apply only_actor in Ho as Ha. apply only_own in Ho as Hown. destruct Hk as [Ko Ki Ka]. split.
    + split; [done|by rewrite Hown|intros b p; rewrite Hfind; congruence|]. intros b p Hp. exists p. rewrite Hfind. split; [done|].
      split; [done|]. left. split; [done|apply later_refl].
    + split; [by rewrite Ha, Hown|intros b p; rewrite Hfind; apply Ki|intros b p; rewrite Hfind; apply Ka].
Qed.

Lemma add_peer_mem now a addr m : wf m → knows m → actor_ok a → a ≠ ml_actor m → B a addr →
  wp (add_peer now a addr) m (fun _ => mem (Some (a, addr)) m) (fun _ => mem (Some (a, addr)) m).
Proof.
  intros Hwf Hk Ha Hne HB. apply add_peer_ok; [done..|]. intros m' Ho. split; [apply Ho|]. destruct Hk as [Ko Ki Ka].
  pose proof (only_find _ _ _ _ Ho) as Hf. pose proof (only_actor _ _ _ _ Ho) as Hm. pose proof (only_own _ _ _ _ Ho) as Hown.
  split; split; [done|by rewrite Hown| | |by rewrite Hm, Hown| |].
  - intros b q. rewrite Hf. case_decide as Hb; [|congruence]. subst b. intros [= <-] Hn. by rewrite Hn.
  - intros b p Hp. rewrite Hf. case_decide as Hb.
    + subst b. rewrite Hp. cbn. eexists. split; [done|]. case_decide as Hd; [by split; [|left; split; [|apply later_refl]]|].
      split; [done|]. right. by split.
    + exists p. split; [done|]. split; [done|]. left. split; [done|apply later_refl].
  - intros b q. rewrite Hf. case_decide as Hb; [|apply Ki]. subst b. intros [= <-]. destruct (find_peer m a) as [p|] eqn:Hp; cbn; [|apply K_zero].
    case_decide; exact (Ki a p Hp).
  - intros b q. rewrite Hf. case_decide as Hb; [|apply Ka]. subst b. intros [= <-]. destruct (find_peer m a) as [p|] eqn:Hp; cbn; [|done].
    case_decide; [exact (Ka a p Hp)|done].
Qed.

(** *** Sending *)

Lemma send_does msg dest s : inv s → says (sw_actor s) msg dest → does None 0 (send W msg dest) s.
Proof.
  intros Hi Hs. unfold send. apply wp_bind. rewrite encode_run. eapply wp_lift_ok; [done|]. pose proof (body_length msg) as Hl.
  apply wp_bind, wp_assert; [by apply bool_decide_eq_true; cbn; lia|]. apply wp_bind, wp_assert; [by apply Z.leb_le|].
  apply does_ask; [done..|]. intros [] s' Ha _.
  - apply does_modify; [|done]. destruct Ha as [Hi' Hact _ _ _ _ _]. destruct Hi' as []. split; try done; [unfold state_clock; cbn; lia|apply grows_refl|].
    eexists. split; [done|]. apply Forall_singleton. split; [done|]. cbn. by rewrite Hact.
  - apply does_modify; [|done]. apply adv_frame; [apply Ha|done..].
  - apply does_seq; [done| |]; [apply does_modify; [|done]; apply adv_frame; [apply Ha|done..]|].
    intros _ s'' Hb. apply wp_throw, adv_refl; [apply Hb|done].
Qed.

Lemma send_all_does msg ps : ∀ s, inv s → Forall (fun p => says (sw_actor s) msg (peer_addr p)) ps → does None 0 (send_all W msg ps) s.
Proof.
  induction ps as [|p ps IH]; intros s Hi Hps; [by apply does_ret|]. apply Forall_cons in Hps as [Hp Hps]. cbn [send_all].
  apply does_seq; [done|by apply does_ignore, send_does|]. intros _ s' Ha. apply IH; [apply Ha|]. by rewrite (adv_actor _ _ _ _ Ha).
Qed.

Lemma no_random k : random W k = None → bad.
Proof. intros Hk. destruct HE as [|He]; [done|]. destruct (He k). congruence. Qed.

(** A peer picked at random is an alive one. *)
Lemma random_peer_does r m s (Q : option PeerInfo → SwimProtocol → Prop) X : (∃ k, r = random W k) →
  (∀ o, (∀ p, o = Some p → p ∈ get_alive_peers m) → Q o s) → run_to bad (lift (E:=GossipError) (get_random_alive_peer r m)) s Q X.
Proof.
  intros [k Hr] HQ. pose proof (random_peer_ok (E:=GossipError) r m) as H. unfold run_to, lift.
  destruct (get_random_alive_peer r m) as [o| |]; [by apply HQ|done|]. apply (no_random k). congruence.
Qed.

Lemma random_peers_does exclude s : inv s →
  run_to bad (random_peers W exclude) s
    (fun ps s' => adv None 0 s s' ∧ membership s' = membership s ∧
       ∀ p, p ∈ ps → p ∈ get_all_peers (membership s) ∧ peer_actor p ≠ exclude) (fun _ => adv None 0 s).
Proof.
  intros Hi. unfold random_peers, ask. wp.
  pose proof (random_peers_ok (E:=GossipError) (fun i => random W (env s + i)) (fanout (config s)) exclude (membership s)) as H.
  unfold run_to, lift. destruct (get_random_alive_peers _ _ _ _) as [ps| |]; [|done|destruct H as [k Hk]; by eapply no_random].
  split; [by apply adv_frame|]. split; [done|]. intros p Hp. by destruct (H p Hp) as (? & ? & ?).
Qed.

Lemma own_claim s : inv s → claim_ok (sw_actor s) (own_incarnation (membership s)).
Proof. intros [Hwf <- [Hk _ _] _ _]. split; [apply Hwf|]. split; [apply Hwf|done]. Qed.

Lemma peer_claim s a p : inv s → find_peer (membership s) a = Some p → claim_ok a (incarnation p) ∧ a ≠ sw_actor s.
Proof.
  intros [Hwf Ha Hk _ _] Hf. destruct (find_peer_ok _ _ _ Hwf Hf) as [<- (Hr & Hne & Hi)].
  split; [|by rewrite <- Ha]. split; [done|]. split; [done|by apply (kn_inc _ Hk)].
Qed.

Lemma others_told s (ps : list PeerInfo) a : inv s → (∀ p, p ∈ ps → p ∈ get_all_peers (membership s) ∧ peer_actor p ≠ a) →
  Forall (fun p => told_others a (peer_addr p)) ps.
Proof.
  intros Hi Hps. apply Forall_forall. intros p Hp. destruct (Hps p Hp) as [Hin Hne]. exists (peer_actor p). split; [done|].
  apply (kn_addr _ (inv_knows _ Hi) (peer_actor p) p). apply find_peer_elem; [apply Hi|done].
Qed.

Lemma broadcast_suspect_does a inc s : inv s → claim_ok a inc → does None 0 (broadcast_suspect W a inc) s.
Proof.
  intros Hi Hc. eapply does_then; [done|by apply random_peers_does|]. intros ps s' Ha [Hm Hps]. apply send_all_does; [apply Ha|].
  eapply Forall_impl; [by eapply others_told|]. intros p Hp. by split.
Qed.

Lemma broadcast_dead_does a s : inv s → actor_ok a → does None 0 (broadcast_dead W a) s.
Proof.
  intros Hi Hc. eapply does_then; [done|by apply random_peers_does|]. intros ps s' Ha [Hm Hps]. apply send_all_does; [apply Ha|].
  eapply Forall_impl; [by eapply others_told|]. intros p Hp. by split.
Qed.

Lemma request_indirect_does target addr s : inv s → does None 0 (request_indirect_probes W target addr) s.
Proof.
  intros Hi. eapply does_then; [done|by apply random_peers_does|]. intros ps s' Ha _. apply does_get, send_all_does; [apply Ha|].
  apply Forall_forall. by intros p _.
Qed.

Lemma broadcast_alive_does inc s : inv s → R → claim_ok (sw_actor s) inc → does None 0 (broadcast_alive W (sw_actor s) inc) s.
Proof. intros Hi HR Hc. apply does_get, send_all_does; [done|]. apply Forall_forall. by intros p _. Qed.

(** *** Updates *)

Lemma adv_queue us s : inv s → (length us ≤ MAX_PIGGYBACK_QUEUE_SIZE)%nat → adv None 0 s (set_queue us s).
Proof.
  intros [] Hq. split; try done; [unfold state_clock; cbn; lia|apply grows_refl|]. exists []. by rewrite app_nil_r.
Qed.

Lemma adv_frame_queue us f s : inv s → (length us ≤ MAX_PIGGYBACK_QUEUE_SIZE)%nat → adv None 0 s (set_stats f (set_queue us s)).
Proof. intros Hi Hq. eapply (adv_trans _ 0 0); [done|by apply adv_queue|]. apply adv_frame; [|done..]. by apply adv_queue. Qed.

Lemma get_updates_does s : inv s →
  run_to bad (get_piggyback_updates (E:=GossipError)) s (fun _ s' => adv None 0 s s' ∧ membership s' = membership s) (fun _ => adv None 0 s).
Proof.
  intros Hi. unfold get_piggyback_updates, Swim.count. wp. split; [|done]. apply adv_frame_queue; [done|].
  rewrite length_drop. pose proof (inv_queue _ Hi). lia.
Qed.

Lemma ping_message_does s : inv s →
  run_to bad ping_message s (fun msg s' => adv None 0 s s' ∧ (membership s' = membership s ∧ ∀ dest, says (sw_actor s) msg dest)) (fun _ => adv None 0 s).
Proof.
  intros Hi. unfold ping_message. wp. eapply wp_mono; [by apply get_updates_does|]. intros us s' [Ha Hm]. wp. split; [done|]. split; [done|].
  intros dest. split; [done|by apply own_claim].
Qed.

Lemma broadcast_update_runs {E} u s : inv s → runs None 0 (broadcast_state_update (E:=E) u) s.
Proof.
  intros Hi. unfold broadcast_state_update. set (us := piggyback_queue s ++ [u]).
  assert (Hq : (length (drop (length us - MAX_PIGGYBACK_QUEUE_SIZE) us) ≤ MAX_PIGGYBACK_QUEUE_SIZE)%nat) by (rewrite length_drop; lia).
  unfold runs. wp. apply wp_assert; [by apply bool_decide_eq_true|]. by apply adv_queue.
Qed.

(** *** The replicated state *)

(** A call of the replicated state: one tick at most. *)
Definition ds_adv (d d' : DistributedState.State) : Prop := DistributedProofs.inv d' ∧ DistributedProofs.clock_of d' ≤ DistributedProofs.clock_of d + 1.

Lemma ds_kept d d' : DistributedProofs.inv d → DistributedProofs.kept d d' → ds_adv d d'.
Proof. intros Hi Hk. split; [apply Hk|]. rewrite (DistributedProofs.kept_clock _ _ Hi Hk). lia. Qed.

Lemma ds_ticked c d d1 d2 : DistributedProofs.ticked c d d1 → DistributedProofs.kept d1 d2 → ds_adv d d2.
Proof.
  intros Ht Hk. split; [apply Hk|]. rewrite (DistributedProofs.kept_clock d1 d2); [|apply Ht|done]. rewrite (DistributedProofs.ticked_clock _ _ _ Ht). lia.
Qed.

Lemma ds_dot_call {A} (chk : outcome CrdtError ()) (c : Dot → st DistributedState.State CrdtError A) d :
  chk ≠ Panic → DistributedProofs.inv d → DistributedProofs.clock_of d + 1 < 2 ^ 64 →
  (∀ x d1, DistributedProofs.inv d1 → wp (c x) d1 (fun _ => DistributedProofs.kept d1) (fun _ => DistributedProofs.kept d1)) →
  wp (lift chk;; n ← DistributedState.tick; s ← get; x ← lift (Dot.new (DistributedState.local_actor s) n); c x) d (fun _ => ds_adv d) (fun _ => ds_adv d).
Proof.
  intros Hchk Hi Hc Hk. apply DistributedProofs.wp_check; [done|intros _|intros e; by apply ds_kept, DistributedProofs.kept_refl].
  apply wp_bind, DistributedProofs.wp_tick; [done..|]. intros d1 Ht. wp. pose proof (DistributedProofs.ticked_inv _ _ _ Ht) as Hi1.
  pose proof (DistributedProofs.actor_cell d Hi) as [_ Hr].
  pose proof (DistributedProofs.cfg_actor_ok _ (DistributedProofs.inv_config _ Hi1)) as Hact. rewrite <- (DistributedProofs.inv_actor _ Hi1) in Hact.
  eapply wp_lift_ok.
  { unfold Dot.new. rewrite (proj2 (Z.ltb_lt _ _)) by lia. rewrite Z.gtb_ltb. by rewrite (proj2 (Z.ltb_lt _ _)) by lia. }
  eapply wp_conseq; [by apply Hk|..]; intros ? d2; by eapply (ds_ticked _ _ d1).
Qed.

Lemma ds_stamp_call {A} (chk : outcome CrdtError ()) (c : Z → st DistributedState.State CrdtError A) d :
  chk ≠ Panic → DistributedProofs.inv d → DistributedProofs.clock_of d + 1 < 2 ^ 64 →
  (∀ ts d1, chk = Ok () → DistributedProofs.inv d1 → DistributedProofs.stamp_ok ts →
     wp (c ts) d1 (fun _ => DistributedProofs.kept d1) (fun _ => DistributedProofs.kept d1)) →
  wp (lift chk;; ts ← DistributedState.tick; c ts) d (fun _ => ds_adv d) (fun _ => ds_adv d).
Proof.
  intros Hchk Hi Hc Hk. apply DistributedProofs.wp_check; [done|intros Hok|intros e; by apply ds_kept, DistributedProofs.kept_refl].
  apply wp_bind, DistributedProofs.wp_tick; [done..|]. intros d1 Ht. pose proof (DistributedProofs.actor_cell d Hi) as [_ Hr].
  eapply wp_conseq; [apply Hk; [done|apply Ht|split; lia]|..]; intros ? d2; by eapply (ds_ticked _ _ d1).
Qed.

Lemma ds_done {A} (c : st DistributedState.State CrdtError A) d : wp c d (fun _ => ds_adv d) (fun _ => ds_adv d) →
  wp (c;; mret ()) d (fun _ => ds_adv d) (fun _ => ds_adv d).
Proof. intros Hc. apply wp_bind. eapply wp_mono; [exact Hc|]. intros a d' Hd. by apply wp_ret. Qed.

Lemma apply_update_ok u d : DistributedProofs.inv d → DistributedProofs.clock_of d + 1 < 2 ^ 64 →
  wp (apply_state_update false u) d (fun _ => ds_adv d) (fun _ => ds_adv d).
Proof.
  intros Hi Hc. pose proof (DistributedProofs.cfg_actor_ok _ (DistributedProofs.inv_config _ Hi)) as Hact. rewrite <- (DistributedProofs.inv_actor _ Hi) in Hact.
  unfold apply_state_update. apply wp_bind, wp_get. apply wp_bind, wp_assert; [apply Z.ltb_lt; lia|].
  pose proof (DistributedProofs.check_ids_np) as Hnp. destruct u as [room p x|room p x|track info ts actor|track p x|track p x|track r|track r];
    [| | | | |wp; by apply ds_kept, DistributedProofs.kept_refl..].
  - apply ds_done, ds_dot_call; [apply Hnp|done..|]. intros; by apply DistributedProofs.add_participant_safe.
  - apply ds_done, ds_dot_call; [apply Hnp|done..|]. intros; by apply DistributedProofs.remove_participant_safe.
  - case_bool_decide; (apply ds_done, ds_stamp_call; [apply (Hnp track 0)|done..|]);
      intros ts' d1 Hok%DistributedProofs.check_track_ok ? ?; [by apply DistributedProofs.update_track_safe|by apply DistributedProofs.add_track_safe].
  - apply ds_done, ds_dot_call; [apply Hnp|done..|]. intros; by apply DistributedProofs.add_subscription_safe.
  - apply ds_done, ds_dot_call; [apply Hnp|done..|]. intros; by apply DistributedProofs.remove_subscription_safe.
Qed.

Lemma adv_state d' k s : inv s → DistributedProofs.inv d' → is_Some (distributed_state s) →
  DistributedProofs.clock_of d' ≤ state_clock s + k → adv None k s (set_ds (Some d') s).
Proof.
  intros [] Hd Hs Hc. split; try done; [split; try done; cbn; by intros ? [= <-]|apply grows_refl|]. exists []. by rewrite app_nil_r.
Qed.

Lemma apply_to_state_does {E} u s : inv s → state_clock s + 1 < 2 ^ 64 → does (E:=E) None 1 (apply_to_state false u) s.
Proof.
  intros Hi Hc. unfold apply_to_state. apply does_get. destruct (distributed_state s) as [d|] eqn:Hd; [|by apply does_ret].
  unfold state_clock in Hc. rewrite Hd in Hc. apply wp_bind, wp_try, wp_zoom.
  eapply wp_conseq; [apply wp_any, apply_update_ok; [by apply (inv_state s)|done]|..]; intros ? d' [Hi' Hc']; wp;
    (apply adv_state; [done..|by rewrite Hd|unfold state_clock; by rewrite Hd]).
Qed.

Lemma apply_all_does {E} us : ∀ s, inv s → state_clock s + Z.of_nat (length us) < 2 ^ 64 →
  does (E:=E) None (Z.of_nat (length us)) (apply_all false us) s.
Proof.
  induction us as [|u us IH]; intros s Hi Hc; [by apply does_ret|]. cbn [apply_all length] in *.
  apply (does_bind None 1 (Z.of_nat (length us))); [lia|lia|apply apply_to_state_does; [done|lia]|].
  intros _ s' Ha. apply IH; [apply Ha|]. pose proof (adv_clock _ _ _ _ Ha). lia.
Qed.

Lemma note_relay_frame u s : inv s → adv None 0 s (note_relay u s).
Proof. intros Hi. unfold note_relay. case_bool_decide; [destruct u|]; by (apply adv_frame || apply adv_refl). Qed.

Lemma requeue_adv us : ∀ s, inv s → adv None 0 s (foldl (fun s u => requeue u (note_relay u s)) s us).
Proof.
  induction us as [|u us IH]; intros s Hi; [by apply adv_refl|]. cbn [foldl].
  assert (H1 : adv None 0 s (note_relay u s)) by (by apply note_relay_frame).
  assert (H2 : adv None 0 (note_relay u s) (requeue u (note_relay u s))).
  { unfold requeue. case_bool_decide; [|by apply adv_refl; [apply H1|]]. apply adv_queue; [apply H1|]. rewrite length_app. cbn [length]. lia. }
  eapply (adv_trans _ 0 0); [done|exact H1|]. eapply (adv_trans _ 0 0); [done|exact H2|]. apply IH, H2.
Qed.

Definition UPDATES : Z := Z.of_nat MAX_PIGGYBACK_UPDATES.

Lemma process_updates_does {E} us s : inv s → state_clock s + UPDATES < 2 ^ 64 → does (E:=E) None UPDATES (process_state_updates false us) s.
Proof.
  intros Hi Hc. unfold process_state_updates. set (l := take MAX_PIGGYBACK_UPDATES us).
  assert (Hl : (length l ≤ MAX_PIGGYBACK_UPDATES)%nat) by (unfold l; rewrite length_take; lia). unfold UPDATES in *.
  apply wp_bind, wp_assert; [by apply bool_decide_eq_true|]. apply does_seq; [lia|by apply does_count|]. intros _ s1 H1.
  pose proof (adv_clock _ _ _ _ H1) as Hc1. apply (does_bind None (Z.of_nat (length l)) 0); [lia|done|apply apply_all_does; [apply H1|lia]|].
  intros _ s2 H2. apply does_seq; [done|apply does_modify; [apply requeue_adv, H2|done]|]. intros _ s3 H3. apply does_get.
  apply wp_assert; [apply bool_decide_eq_true, H3|]. apply adv_refl; [apply H3|done].
Qed.

(** *** Handlers *)

Lemma members_does {A} src k (c : Z → st MembershipList GossipError A) s : inv s → 0 ≤ k →
  (∀ now, wp (c now) (membership s) (fun _ => mem src (membership s)) (fun _ => mem src (membership s))) →
  does src k (now ← current_time_ns W; ignore (on_members (c now))) s.
Proof.
  intros Hi Hk Hc. apply does_ask; [done..|]. intros now s' Ha Hm. apply does_ignore, does_members; [apply Ha|done|]. rewrite Hm. apply Hc.
Qed.

Lemma heard_from_does a inc s : inv s → claim_ok a inc → a ≠ sw_actor s → does None 0 (heard_from W a inc) s.
Proof.
  intros Hi Hc Hne. unfold heard_from. apply does_ask; [done..|]. intros now s1 H1 Hm1. apply does_seq; [done| |].
  { apply does_ignore, does_members; [apply H1|done|]. rewrite Hm1. apply mark_alive_mem; [apply Hi|apply Hi|done|].
    rewrite (inv_actor _ Hi). naive_solver. }
  intros _ s2 H2. apply does_ask; [apply H2|done|]. intros t s3 H3 Hm3. apply does_members; [apply H3|done|].
  apply touch_mem; [apply H3|apply H3].
Qed.

Lemma learn_peer_does a addr s : inv s → actor_ok a → a ≠ sw_actor s → B a addr → does (Some (a, addr)) 0 (learn_peer W a addr) s.
Proof.
  intros Hi Ha Hne HB. apply members_does; [done..|]. intros now. apply add_peer_mem; [apply Hi|apply Hi|done|by rewrite (inv_actor _ Hi)|done].
Qed.

(** A message shows its sender alive. *)
Lemma sender_does a inc source s : inv s → claim_ok a inc → B a source →
  does (Some (a, source)) 0 (s ← get; if a =? sw_actor s then mret () else learn_peer W a source;; heard_from W a inc) s.
Proof.
  intros Hi Hc HB. apply does_get. destruct (Z.eqb_spec a (sw_actor s)) as [He|Hne]; [by apply does_ret|].
  apply does_seq; [done|apply learn_peer_does; [done|apply Hc|done..]|]. intros _ s1 H1. apply (does_weaken _ 0); [done|].
  apply heard_from_does; [apply H1|done|]. by rewrite (adv_actor _ _ _ _ H1).
Qed.

(** An answer shows its sender alive. *)
Lemma answer_does a inc s : inv s → claim_ok a inc → does None 0 (s ← get; if a =? sw_actor s then mret () else heard_from W a inc) s.
Proof. intros Hi Hc. apply does_get. destruct (Z.eqb_spec a (sw_actor s)); [by apply does_ret|by apply heard_from_does]. Qed.

(** Cuts the state read before a conditional step out of the sequence. *)
Lemma does_step {E A C} src k1 k2 k (c : SwimProtocol → st SwimProtocol E A) (f : A → st SwimProtocol E C) s : k1 + k2 ≤ k → 0 ≤ k2 →
  does src k1 (s ← get; c s) s → (∀ a s', adv src k1 s s' → does src k2 (f a) s') → does src k (s ← get; a ← c s; f a) s.
Proof. intros Hk H2 Hc Hf. apply does_get. by apply (does_bind src k1 k2). Qed.

Lemma handle_ping_does from inc us source s : inv s → claim_ok from inc → B from source → state_clock s + UPDATES < 2 ^ 64 →
  does (Some (from, source)) UPDATES (handle_ping W false from inc us source) s.
Proof.
  intros Hi Hc HB Hclk. unfold handle_ping. apply (does_step _ 0 UPDATES); [lia|done|by apply sender_does|]. intros _ s1 H1.
  pose proof (adv_clock _ _ _ _ H1) as T1. apply (does_bind _ UPDATES 0); [lia|done| |].
  { apply (does_weaken _ UPDATES); [done|]. apply process_updates_does; [apply H1|lia]. }
  intros _ s2 H2. apply (does_weaken _ 0); [done|]. apply does_get. cbv zeta.
  eapply does_then; [done|apply get_updates_does, H2|]. intros us' s3 H3 Hm. apply send_does; [apply H3|].
  rewrite (adv_actor _ _ _ _ H3). split; [done|]. apply own_claim, H2.
Qed.

Lemma handle_ack_does from inc us s : inv s → claim_ok from inc → state_clock s + UPDATES < 2 ^ 64 →
  does None UPDATES (handle_ack W false from inc us) s.
Proof.
  intros Hi Hc Hclk. unfold handle_ack. apply does_seq; [done|by apply does_modify; [apply adv_forget|]|]. intros _ s1 H1.
  pose proof (adv_clock _ _ _ _ H1) as T1. apply (does_step _ 0 UPDATES); [lia|done|apply answer_does; [apply H1|done]|]. intros _ s2 H2.
  pose proof (adv_clock _ _ _ _ H2) as T2. apply (does_step _ 0 UPDATES); [lia|done| |].
  { apply does_get. destruct (pending_indirect s2 !! from) as [q|]; [|apply does_ret; [apply H2|done]].
    apply does_seq; [done|apply does_put; [apply adv_frame; [apply H2|done..]|done]|]. intros _ s3 H3. apply does_ignore, send_does; [apply H3|done]. }
  intros _ s3 H3. pose proof (adv_clock _ _ _ _ H3) as T3. apply (does_bind _ UPDATES 0); [lia|done|apply process_updates_does; [apply H3|lia]|].
  intros _ s4 H4. apply does_count; [apply H4|done].
Qed.

Lemma drop_does {A} reason s : inv s → does None 0 (drop_message (A:=A) reason) s.
Proof. intros Hi. apply does_seq; [done|by apply does_count|]. intros _ s' Ha. apply wp_throw, adv_refl; [apply Ha|done]. Qed.

Lemma handle_ping_req_does from target ta ra s : inv s → does None 0 (handle_ping_req W from target ta ra) s.
Proof.
  intros Hi. unfold handle_ping_req. apply does_get. destruct (target =? sw_actor s); [by apply drop_does|].
  eapply does_then; [done|by apply ping_message_does|]. intros msg s1 H1 [Hm Hs].
  apply does_seq; [done|apply send_does; [apply H1|by rewrite (adv_actor _ _ _ _ H1)]|]. intros _ s2 H2.
  apply does_seq; [done|apply does_count; [apply H2|done]|]. intros _ s3 H3. apply does_get.
  case_bool_decide; [|apply does_ret; [apply H3|done]]. apply does_ask; [apply H3|done|]. intros now s4 H4 _.
  apply does_modify; [apply adv_frame; [apply H4|done..]|done].
Qed.

Lemma handle_suspect_does a inc s : inv s → claim_ok a inc → (a = sw_actor s → R) → does None 0 (handle_suspect W a inc) s.
Proof.
  intros Hi Hc HR. unfold handle_suspect. apply does_get. destruct (Z.eqb_spec a (sw_actor s)) as [->|Hne].
  - specialize (HR eq_refl). destruct (own_claim s Hi) as (Ha & Hu & HK).
    eapply (does_then (fun i s' => claim_ok (sw_actor s) i ∧ sw_actor s' = sw_actor s)); [done| |].
    + apply wp_zoom, wp_any, increment_ok; [apply Hi|]. intros m' Hr Ho. assert (Hclaim : claim_ok (sw_actor s) (own_incarnation m')).
      { split; [done|]. split; [apply (renewed_wf _ _ Hr)|]. rewrite Ho. by apply K_next. }
      split; [|done]. assert (Hmem : mem None (membership s) m').
      { apply mem_renewed; [apply Hi|done|]. rewrite (inv_actor _ Hi). apply Hclaim. }
      destruct (does_members (E:=GossipError) None 0 (put m') s Hi ltac:(done) Hmem). by split.
    + intros i s' Ha' [Hcl Hid]. rewrite <- Hid in *. apply broadcast_alive_does; [apply Ha'|done..].
  - apply does_ask; [done..|]. intros now s1 H1 Hm. apply does_seq; [done| |intros _ s2 H2; apply does_count; [apply H2|done]].
    apply does_ignore, does_members; [apply H1|done|]. rewrite Hm. apply mark_suspect_mem; [apply Hi|apply Hi|done|by rewrite (inv_actor _ Hi)].
Qed.

Lemma handle_alive_does a inc s : inv s → claim_ok a inc → (a = sw_actor s → R) → does None 0 (handle_alive W a inc) s.
Proof.
  intros Hi Hc HR. apply members_does; [done..|]. intros now. apply mark_alive_mem; [apply Hi|apply Hi|done|by rewrite (inv_actor _ Hi)].
Qed.

Lemma handle_dead_does a s : inv s → actor_ok a → does None 0 (handle_dead W a) s.
Proof.
  intros Hi Ha. apply does_get. destruct (Z.eqb_spec a (sw_actor s)) as [He|Hne]; [by apply does_ret|].
  apply does_ask; [done..|]. intros now s1 H1 Hm. apply does_seq; [done| |intros _ s2 H2; apply does_count; [apply H2|done]].
  apply does_ignore, does_members; [apply H1|done|]. rewrite Hm. apply mark_dead_mem; [apply Hi|apply Hi|done|by rewrite (inv_actor _ Hi)].
Qed.

Lemma handle_forwarded_does a inc s : inv s → claim_ok a inc → does None 0 (handle_forwarded_ack W a inc) s.
Proof.
  intros Hi Hc. unfold handle_forwarded_ack. apply does_seq; [done|by apply does_modify; [apply adv_forget|]|]. intros _ s1 H1.
  apply (does_step _ 0 0); [done|done|apply answer_does; [apply H1|done]|]. intros _ s2 H2. apply does_count; [apply H2|done].
Qed.

Lemma merge_member_does x s : inv s → claim_ok x.1.1 x.1.2 → does None 0 (merge_member W x) s.
Proof.
  destruct x as [[a inc] b]. cbn [fst snd]. intros Hi Hc. unfold merge_member. apply does_get.
  destruct (Z.eqb_spec a (sw_actor s)) as [He|Hne]; cbn [orb]; [by apply does_ret|]. destruct (a >=? MAX_ACTORS); [by apply does_ret|].
  assert (Hself : a ≠ ml_actor (membership s)) by (by rewrite (inv_actor _ Hi)).
  destruct (from_u8 b) as [st|]; [|by apply does_ret]. destruct (find_peer (membership s) a); [|by apply does_ret].
  apply members_does; [done..|]. intros now. destruct st.
  - apply mark_alive_mem; [apply Hi|apply Hi|done|naive_solver].
  - by apply mark_suspect_mem; [apply Hi|apply Hi|..].
  - apply mark_dead_mem; [apply Hi|apply Hi|apply Hc|done].
Qed.

Lemma merge_members_does l : ∀ s, inv s → Forall (fun x => claim_ok x.1.1 x.1.2) l → does None 0 (merge_members W l) s.
Proof.
  induction l as [|x l IH]; intros s Hi Hl; [by apply does_ret|]. apply Forall_cons in Hl as [Hx Hl].
  apply does_seq; [done|by apply merge_member_does|]. intros _ s' Ha. apply IH; [apply Ha|done].
Qed.

Lemma handle_snapshot_does from inc ms us source s : inv s → claim_ok from inc → B from source →
  Forall (fun x => claim_ok x.1.1 x.1.2) ms → state_clock s + UPDATES < 2 ^ 64 →
  does (Some (from, source)) UPDATES (handle_state_snapshot W false from inc ms us source) s.
Proof.
  intros Hi Hc HB Hms Hclk. unfold handle_state_snapshot. apply (does_step _ 0 UPDATES); [lia|done|by apply sender_does|]. intros _ s1 H1.
  pose proof (adv_clock _ _ _ _ H1). apply does_seq; [done| |].
  { apply (does_weaken _ 0); [done|]. apply merge_members_does; [apply H1|by apply Forall_take]. }
  intros _ s2 H2. pose proof (adv_clock _ _ _ _ H2). apply (does_weaken _ UPDATES); [done|]. apply process_updates_does; [apply H2|lia].
Qed.

(** The sender whose address a message shows. *)
Definition origin (msg : GossipMessage) (source : SocketAddr) : option (Z * SocketAddr) :=
  match msg with Ping from _ _ | StateSnapshot from _ _ _ => Some (from, source) | _ => None end.

Lemma handle_message_does msg source s : inv s → hears (sw_actor s) msg source → state_clock s + UPDATES < 2 ^ 64 →
  does (origin msg source) UPDATES (handle_message W false msg source) s.
Proof.
  intros Hi Hh Hclk. unfold handle_message. destruct (negb (actor_ids_in_range msg)); [by apply (does_weaken _ 0), drop_does|].
  destruct msg as [f i us|f i us|f t ta ra|a i|a i|a|a i|f i ms us]; cbn [origin hears] in *.
  - destruct Hh. by apply handle_ping_does.
  - by apply handle_ack_does.
  - by apply (does_weaken _ 0), handle_ping_req_does.
  - destruct Hh. by apply (does_weaken _ 0), handle_suspect_does.
  - destruct Hh. by apply (does_weaken _ 0), handle_alive_does.
  - by apply (does_weaken _ 0), handle_dead_does.
  - by apply (does_weaken _ 0), handle_forwarded_does.
  - destruct Hh as (? & ? & ?). by apply handle_snapshot_does.
Qed.

(** What the socket may hand over. *)
Definition arrives (self : Z) (a : Arrival) : Prop :=
  match a with
  | Datagram d source => bytes d ∧ ∀ msg, decode (take (Z.to_nat MAX_MESSAGE_SIZE) d) = Ok msg → hears self msg source
  | _ => True
  end.

Definition origin_of (a : Arrival) : option (Z * SocketAddr) :=
  match a with
  | Datagram d source => match decode (take (Z.to_nat MAX_MESSAGE_SIZE) d) with Ok msg => origin msg source | _ => None end
  | _ => None
  end.

Lemma handle_datagram_does d source s : inv s → bytes d → state_clock s + UPDATES < 2 ^ 64 →
  (∀ msg, decode d = Ok msg → hears (sw_actor s) msg source) →
  does (match decode d with Ok msg => origin msg source | _ => None end) UPDATES (handle_datagram W false d source) s.
Proof.
  intros Hi Hd Hclk Hh. unfold handle_datagram. destruct (_ >? _); [by apply (does_weaken _ 0), drop_does|].
  pose proof (GossipProofs.decode_np d Hd) as Hnp. destruct (decode d) as [msg|e|] eqn:E; [|by apply (does_weaken _ 0), drop_does|done].
  apply handle_message_does; [done|by apply Hh|done].
Qed.

Lemma recv_raw_does {E} a s : inv s → run_to bad (recv_raw (E:=E) a) s
  (fun o s' => adv None 0 s s' ∧ match o with
     | Some (d, source) => ∃ d0, a = Datagram d0 source ∧ d = take (Z.to_nat MAX_MESSAGE_SIZE) d0 ∧ d ≠ []
     | None => True
     end) (fun _ => adv None 0 s).
Proof.
  intros Hi. assert (H : ∀ f, adv None 0 s (set_transport f (wire s) s)) by (intros f; by apply adv_frame).
  unfold recv_raw, count_transport. destruct a as [| |d source]; [by split; [apply adv_refl|]|by wp|].
  case_bool_decide; wp; [done|]. split; [done|]. by eexists.
Qed.

Lemma drop_invalid_does src k c s : does src k c s → does src k (drop_invalid c) s.
Proof. unfold does, run_to, drop_invalid. destruct (c s) as [[]|[[] ?]|]; done. Qed.

(** The ticks an arrival may cost. *)
Definition ticks (a : Arrival) : Z := match a with Datagram _ _ => UPDATES | _ => 0 end.

Lemma ticks_bound a : 0 ≤ ticks a ≤ UPDATES.
Proof. destruct a; cbn; unfold UPDATES; lia. Qed.

Lemma recv_does a s : inv s → arrives (sw_actor s) a → state_clock s + ticks a < 2 ^ 64 →
  does (origin_of a) (ticks a) (recv_loop_iteration W false a) s.
Proof.
  intros Hi Ha Hclk. pose proof (ticks_bound a). eapply does_then; [lia|by apply recv_raw_does|]. intros [[d source]|] s' H1 Ho; [|apply does_ret; [apply H1|lia]].
  destruct Ho as (d0 & -> & -> & Hne). cbn [arrives origin_of ticks] in *. destruct Ha as [Hb Hh].
  assert (Hl : (0 < length (take (Z.to_nat MAX_MESSAGE_SIZE) d0))%nat) by (destruct (take _ d0); [done|cbn; lia]).
  apply wp_bind, wp_assert.
  { apply andb_true_iff. split; [by apply bool_decide_eq_true|]. apply Z.leb_le. rewrite length_take. unfold MAX_MESSAGE_SIZE. lia. }
  pose proof (adv_clock _ _ _ _ H1). apply drop_invalid_does, handle_datagram_does; [apply H1|by apply Forall_take|lia|].
  by rewrite (adv_actor _ _ _ _ H1).
Qed.

(** *** Probing *)

Lemma times_does {E A} a b src k (f : Z → st SwimProtocol E A) s : does src k (f (wrapping_mul 64 a b)) s → does src k (times false a b ≫= f) s.
Proof. done. Qed.

Lemma add_seed_peer_does a addr s : inv s → actor_ok a → a ≠ sw_actor s → B a addr → does (Some (a, addr)) 0 (add_seed_peer W a addr) s.
Proof.
  intros Hi Ha Hne HB. unfold add_seed_peer. apply does_ask; [done..|]. intros now s1 H1 Hm1. apply does_seq; [done| |].
  { apply does_members; [apply H1|done|]. rewrite Hm1. apply add_peer_mem; [apply Hi|apply Hi|done|by rewrite (inv_actor _ Hi)|done]. }
  intros _ s2 H2. apply (does_weaken _ 0); [done|]. eapply does_then; [done|apply ping_message_does, H2|]. intros msg s3 H3 [_ Hs].
  apply does_seq; [done|apply send_does; [apply H3|by rewrite (adv_actor _ _ _ _ H3)]|]. intros _ s4 H4.
  apply does_seq; [done|apply does_count; [apply H4|done]|]. intros _ s5 H5. apply does_ask; [apply H5|done|]. intros t s6 H6 _.
  apply does_modify; [apply adv_remember; [apply H6|done]|done].
Qed.

Lemma send_ping_does p s : inv s → peer_state p = Alive → actor_ok (peer_actor p) → does None 0 (send_ping W p) s.
Proof.
  intros Hi Hp Hact. unfold send_ping. apply wp_bind, wp_assert; [by apply bool_decide_eq_true|].
  eapply does_then; [done|by apply ping_message_does|]. intros msg s3 H3 [_ Hs].
  apply does_seq; [done|apply send_does; [apply H3|by rewrite (adv_actor _ _ _ _ H3)]|]. intros _ s4 H4.
  apply does_seq; [done|apply does_count; [apply H4|done]|]. intros _ s5 H5. apply does_get.
  destruct (pending_pings s5 !! peer_actor p); [apply does_ret; [apply H5|done]|]. apply does_ask; [apply H5|done|]. intros t s6 H6 _.
  apply does_modify; [apply adv_remember; [apply H6|done]|done].
Qed.

Lemma ping_timed_out_does now a x s : inv s → does None 0 (ping_timed_out W now a x) s.
Proof.
  intros Hi. unfold ping_timed_out. destruct (pp_indirect x).
  - apply does_seq; [done|by apply does_modify; [apply adv_forget|]|]. intros _ s1 H1. apply (does_step _ 0 0); [done|done| |].
    + apply does_get. destruct (find_peer (membership s1) a) as [p|] eqn:Hf; [|apply does_ret; [apply H1|done]].
      destruct (peer_claim s1 a p (adv_inv _ _ _ _ H1) Hf) as [Hc Hne].
      apply does_ask; [apply H1|done|]. intros t s2 H2 Hm2. apply does_seq; [done| |].
      { apply does_ignore, does_members; [apply H2|done|]. apply mark_suspect_mem; [apply H2|apply H2|done|].
        rewrite (inv_actor _ (adv_inv _ _ _ _ H2)), (adv_actor _ _ _ _ H2). done. }
      intros _ s3 H3. apply does_seq; [done|apply does_count; [apply H3|done]|]. intros _ s4 H4. apply broadcast_suspect_does; [apply H4|done].
    + intros _ s5 H5. apply does_count; [apply H5|done].
  - apply does_seq; [done|by apply request_indirect_does|]. intros _ s1 H1. apply does_modify; [|done].
    destruct (pending_pings s1 !! a) as [y|] eqn:Hy; [|apply adv_refl; [apply H1|done]].
    apply adv_remember; [apply H1|]. by apply (inv_pings _ (adv_inv _ _ _ _ H1) a y).
Qed.

Lemma pings_timed_out_does now l : ∀ s, inv s → does None 0 (pings_timed_out W now l) s.
Proof.
  induction l as [|[a x] l IH]; intros s Hi; [by apply does_ret|]. cbn [pings_timed_out].
  apply does_seq; [done|by apply ping_timed_out_does|]. intros _ s' Ha. apply IH, Ha.
Qed.

Lemma check_ping_timeouts_does now s : inv s → does None 0 (check_ping_timeouts W false now) s.
Proof.
  intros Hi. unfold check_ping_timeouts. apply does_get. do 2 apply times_does.
  apply does_seq; [done|by apply does_put; [apply adv_frame|]|]. intros _ s1 H1. apply does_ask; [apply H1|done|].
  intros l s2 H2 _. apply pings_timed_out_does, H2.
Qed.

Lemma broadcast_deaths_does l : ∀ s, inv s → Forall actor_ok l → does None 0 (broadcast_deaths W l) s.
Proof.
  induction l as [|a l IH]; intros s Hi Hl; [by apply does_ret|]. apply Forall_cons in Hl as [Ha Hl].
  apply does_seq; [done|by apply broadcast_dead_does|]. intros _ s' H'. apply IH; [apply H'|done].
Qed.

Lemma mem_timed_out now dead m m' : knows m → timed_out now dead m m' → mem None m m'.
Proof.
  intros [Ko Ki Ka] Ht. split; [apply Ht|]. split; [by eapply timed_out_grows|]. split.
  - by rewrite (to_actor _ _ _ _ Ht), (to_own _ _ _ _ Ht).
  - intros b q. rewrite (to_find _ _ _ _ Ht), fmap_Some. intros (p & Hp & ->). destruct (expired_later now p) as (_ & _ & ->). by apply Ki.
  - intros b q. rewrite (to_find _ _ _ _ Ht), fmap_Some. intros (p & Hp & ->). destruct (expired_later now p) as (_ & -> & _). by apply Ka.
Qed.

Lemma timeouts_does {E} now s : inv s → run_to bad (on_members (E:=E) (check_timeouts now)) s
  (fun dead s' => adv None 0 s s' ∧ Forall actor_ok dead) (fun _ => adv None 0 s).
Proof.
  intros Hi. apply wp_zoom, wp_any, check_timeouts_ok; [apply Hi|]. intros dead m' Ht. split.
  - apply (does_members (E:=E) None 0 (put m') s Hi ltac:(done)). by apply (mem_timed_out now dead); [apply Hi|].
  - apply Forall_forall. intros a (p & Hp & _)%(to_dead _ _ _ _ Ht). by destruct (peer_claim s a p Hi Hp) as [(? & _) _].
Qed.

(** The peers a cycle found dead are actors. *)
Definition finds (c : st SwimProtocol GossipError (list Z)) s : Prop :=
  run_to bad c s (fun dead s' => adv None 0 s s' ∧ Forall actor_ok dead) (fun _ => adv None 0 s).

Lemma finds_then {A} (c : st SwimProtocol GossipError A) (f : A → st SwimProtocol GossipError (list Z)) s :
  does None 0 c s → (∀ a s', adv None 0 s s' → finds (f a) s') → finds (c ≫= f) s.
Proof.
  intros Hc Hf. apply wp_bind. eapply wp_conseq; [exact Hc| |done]. intros a s' H1.
  eapply wp_conseq; [by apply Hf|..]; cbn beta; [intros dead s'' [H2 Hd]; split; [|done]|intros e s'' H2];
    (eapply (adv_trans _ 0 0); [done|exact H1|exact H2]).
Qed.

Lemma finds_draw (f : option Z → st SwimProtocol GossipError (list Z)) s : inv s →
  (∀ n s', adv None 0 s s' → finds (f (random W n)) s') → finds (ask (random W) ≫= f) s.
Proof.
  intros Hi Hf. assert (Ha : adv None 0 s (set_env (S (env s)) s)) by (by apply adv_frame).
  unfold ask. apply wp_bind. wp. eapply wp_conseq; [by apply Hf|..]; cbn beta; [intros dead s'' [H2 Hd]; split; [|done]|intros e s'' H2];
    (eapply (adv_trans _ 0 0); [done|exact Ha|exact H2]).
Qed.

Lemma declare_dead_does now s : inv s → finds (declare_dead W now) s.
Proof.
  intros Hi. unfold declare_dead. apply wp_bind. eapply wp_mono; [by apply timeouts_does|]. intros dead s1 [H1 Hd].
  apply wp_bind. eapply wp_conseq; [apply broadcast_deaths_does; [apply H1|done]|..]; cbn beta.
  - intros _ s2 H2. unfold Swim.count. wp. split; [|done]. eapply (adv_trans _ 0 0); [done|exact H1|]. eapply (adv_trans _ 0 0); [done|exact H2|].
    apply adv_frame; [apply H2|done..].
  - intros e s2 H2. eapply (adv_trans _ 0 0); [done|exact H1|exact H2].
Qed.

Lemma anti_entropy_does now s : inv s → does None 0 (run_anti_entropy W false now) s.
Proof.
  intros Hi. unfold run_anti_entropy. apply does_get, times_does. destruct (_ <? _); [by apply does_ret|].
  apply does_seq; [done|by apply does_modify; [apply adv_frame|]|]. intros _ s1 H1. apply does_draw; [apply H1|done|]. intros n s2 H2 Hm.
  apply does_get. apply wp_bind. apply random_peer_does; [by exists n|]. intros o _.
  destruct o as [p|]; [|apply does_ret; [apply H2|done]]. cbv zeta. eapply does_then; [done|apply get_updates_does, H2|].
  intros us s3 H3 _. apply does_ignore, send_does; [apply H3|]. rewrite (adv_actor _ _ _ _ H3). split; [done|]. split; [apply own_claim, H2|].
  apply Forall_fmap, Forall_forall. intros x Hx. apply subseteq_take in Hx. cbn.
  apply find_peer_elem in Hx; [|apply H2]. destruct (peer_claim _ _ _ (adv_inv _ _ _ _ H2) Hx) as [Hc _]. split; [done|]. destruct (peer_state x); cbn; lia.
Qed.

Lemma probe_cycle_does s : inv s → finds (run_probe_cycle W false) s.
Proof.
  intros Hi. unfold run_probe_cycle. apply finds_then; [by apply ask_does|].
  intros now s1 H1. apply wp_bind, wp_get. apply wp_bind. apply wp_ret. cbv beta. destruct (_ <? _).
  - apply finds_then; [apply check_ping_timeouts_does, H1|]. intros _ s2 H2. apply declare_dead_does, H2.
  - apply finds_draw; [apply H1|].
    intros n s2 H2. apply wp_bind. apply random_peer_does; [by exists n|]. intros o Hp.
    apply finds_then.
    { destruct o as [p|]; [|apply does_ret; [apply H2|done]]. specialize (Hp p eq_refl). apply alive_spec in Hp as [Hp Hal].
      apply find_peer_elem in Hp; [|apply H1]. destruct (peer_claim _ _ _ (adv_inv _ _ _ _ H1) Hp) as [[Hact _] _].
      by apply send_ping_does; [apply H2|..]. }
    intros _ s3 H3. apply finds_then; [apply does_modify; [apply adv_frame; [apply H3|done..]|done]|]. intros _ s4 H4.
    apply finds_then; [apply check_ping_timeouts_does, H4|]. intros _ s5 H5. apply wp_bind.
    eapply wp_mono; [apply declare_dead_does, H5|]. intros dead s6 [H6 Hd]. apply wp_bind.
    eapply wp_conseq; [apply anti_entropy_does, H6|..]; cbn beta; [intros _ s7 H7; wp; split; [|done]|intros e s7 H7];
      (eapply (adv_trans _ 0 0); [done|exact H6|exact H7]).
Qed.

(** *** The gossip thread *)

Lemma take_updates_runs {E} s : inv s → runs (E:=E) None 0 take_updates s.
Proof.
  intros Hi. unfold take_updates. apply wp_bind, wp_get. destruct (distributed_state s) as [d|] eqn:Hd; [|by apply wp_ret, adv_refl].
  destruct (DistributedState.broadcast_tx d) as [us|]; [|by apply wp_ret, adv_refl]. wp.
  pose proof (inv_state s Hi d Hd) as Hdi. apply adv_state; [done|by apply DistributedProofs.kept_broadcast|by rewrite Hd|].
  unfold state_clock. rewrite Hd. change (DistributedProofs.clock_of (DistributedState.set_broadcast _ d)) with (DistributedProofs.clock_of d). lia.
Qed.

Lemma forward_runs {E} us : ∀ s, inv s → runs (E:=E) None 0 (forward_updates us) s.
Proof.
  induction us as [|u us IH]; intros s Hi; [by apply wp_ret, adv_refl|]. apply (runs_bind _ 0 0); [done|by apply broadcast_update_runs|].
  intros _ s' Ha. apply IH, Ha.
Qed.

Lemma node_failed_runs {E} a s : inv s → actor_ok a → runs (E:=E) None 0
  (s ← get;
   match distributed_state s with
   | Some d =>
     order ← ask (fun k => hash_order W _ k (map_to_list (DistributedState.tracks d)).*1);
     zoom (fun _ => d) (fun d s => set_ds (Some d) s) (DistributedState.handle_node_failure order a);; mret ()
   | None => mret ()
   end) s.
Proof.
  intros Hi Ha. apply wp_bind, wp_get. destruct (distributed_state s) as [d|] eqn:Hd; [|by apply wp_ret, adv_refl].
  pose proof (inv_state s Hi d Hd) as Hdi. assert (H1 : adv None 0 s (set_env (S (env s)) s)) by (by apply adv_frame).
  assert (H2 : ∀ d', DistributedProofs.kept d d' → adv None 0 s (set_ds (Some d') (set_env (S (env s)) s))).
  { intros d' Hk. eapply (adv_trans _ 0 0); [done|exact H1|]. apply adv_state; [apply H1|apply Hk|by exists d|].
    unfold state_clock. cbn [distributed_state set_env]. rewrite Hd, (DistributedProofs.kept_clock _ _ Hdi Hk). lia. }
  unfold ask. wp. apply wp_zoom. eapply wp_conseq; [apply wp_any, DistributedProofs.node_failure_runs; [done|apply Ha]| |done].
  cbn beta. intros ? d' Hk. apply wp_ret. by apply H2.
Qed.

Lemma nodes_failed_runs {E} l : ∀ s, inv s → Forall actor_ok l → runs (E:=E) None 0 (nodes_failed W l) s.
Proof.
  induction l as [|a l IH]; intros s Hi Hl; [by apply wp_ret, adv_refl|]. apply Forall_cons in Hl as [Ha Hl].
  apply wp_bind, wp_get. apply (runs_bind _ 0 0); [done|by apply node_failed_runs|]. intros _ s' H'. apply IH; [apply H'|done].
Qed.

(** A round never fails, and keeps everything. *)
Lemma iteration_runs stop a s : inv s → arrives (sw_actor s) a → state_clock s + ticks a < 2 ^ 64 →
  runs (origin_of a) (ticks a) (iteration W false stop a) s.
Proof.
  intros Hi Ha Hclk. pose proof (ticks_bound a) as Hticks. unfold iteration. destruct stop; [apply wp_ret, adv_refl; [done|lia]|].
  apply (runs_bind _ 0 (ticks a)); [done|by apply (runs_weaken _ 0), take_updates_runs|]. intros us s1 H1.
  apply (runs_bind _ 0 (ticks a)); [done|apply (runs_weaken _ 0); [done|apply forward_runs, H1]|]. intros _ s2 H2.
  assert (Htail : ∀ o s3, adv None 0 s2 s3 → (∀ dead, o = Some dead → Forall actor_ok dead) →
    run_to bad (match o with Some dead => nodes_failed (E:=()) W dead | None => mret () end;; try_ (recv_loop_iteration W false a);; mret true) s3
      (fun _ => adv (origin_of a) (ticks a) s2) (fun _ _ => False)).
  { intros o s3 H3 Ho. eapply wp_mono; [|intros ? ?; apply (adv_trans _ 0 (ticks a)); [done|by apply (adv_weaken _ 0)]].
    apply (runs_bind _ 0 (ticks a)); [done| |].
    { apply (runs_weaken _ 0); [done|]. destruct o as [dead|]; [apply nodes_failed_runs; [apply H3|by apply Ho]|by apply wp_ret, adv_refl; [apply H3|]]. }
    intros _ s4 H4. pose proof (adv_clock _ _ _ _ H1) as T1. pose proof (adv_clock _ _ _ _ H2) as T2. pose proof (adv_clock _ _ _ _ H3) as T3.
    pose proof (adv_clock _ _ _ _ H4) as T4. apply (runs_bind _ (ticks a) 0); [lia| |intros _ s5 H5; by apply wp_ret, adv_refl; [apply H5|]].
    apply runs_try, recv_does; [apply H4| |lia].
    by rewrite (adv_actor _ _ _ _ H4), (adv_actor _ _ _ _ H3), (adv_actor _ _ _ _ H2), (adv_actor _ _ _ _ H1). }
  apply wp_bind, wp_try. eapply wp_conseq; [apply probe_cycle_does, H2|..]; cbn beta.
  - intros dead s3 [H3 Hd]. apply (Htail (Some dead)); [done|]. by intros ? [= <-].
  - intros _ s3 H3. by apply (Htail None).
Qed.

End node.

(** *** Starting *)

Section starting.
Context (W : World) (K : Z → Z → Prop) (B : Z → SocketAddr → Prop) (R : Prop).
Context (K_zero : ∀ a, K a 0).
Abbreviation inv := (inv K B).
Abbreviation adv := (adv K B R).
Abbreviation says_entry := (says_entry K B R).

Definition fresh (actor : Z) (addr : SocketAddr) (c : GossipConfig) : SwimProtocol :=
  mkSwim actor (mkList actor (replicate MAX_PEERS None) 0 1) addr (mkTransportStats 0 0 0 0 0 0) [] c ∅ ∅ 0 0 DEFAULT_ANTI_ENTROPY_INTERVAL_MS []
    (mkStats 0 0 0 0 0 0 0 0) None [] 0.

Lemma no_peers a o b : find_peer (mkList a (replicate MAX_PEERS None) 0 o) b = None.
Proof.
  destruct (find_peer _ b) as [p|] eqn:Hf; [|done]. pose proof (find_slot (mkList a (replicate MAX_PEERS None) 0 o) b) as H. rewrite Hf in H.
  destruct (position _ _) as [i|]; [|naive_solver]. destruct H as (q & Hi & _). cbn [peers] in Hi. by apply lookup_replicate in Hi as [? _].
Qed.

Lemma fresh_wf a : actor_ok a → wf (mkList a (replicate MAX_PEERS None) 0 1).
Proof.
  intros Ha. split; cbn [ml_actor own_incarnation peers peer_count]; [done|split; lia|apply length_replicate| | |].
  - intros i p Hi. by apply lookup_replicate in Hi as [? _].
  - intros i j p q Hi. by apply lookup_replicate in Hi as [? _].
  - done.
Qed.

Lemma fresh_inv a addr c : actor_ok a → K a 1 → inv (fresh a addr c).
Proof.
  intros Ha HK. split; cbn [membership fresh sw_actor piggyback_queue distributed_state]; [by apply fresh_wf|done| |cbn; lia|apply map_Forall_empty|done].
  split; cbn [ml_actor own_incarnation]; [done|intros b p; by rewrite no_peers|intros b p; by rewrite no_peers].
Qed.

(** What a node is when its gossip thread starts. *)
Record booted (a : Z) (addr : SocketAddr) s : Prop := {
  boot_inv : inv s;
  boot_actor : sw_actor s = a;
  boot_local : local_addr s = addr;
  boot_wire : Forall (says_entry a) (wire s);
}.

Lemma booted_adv a addr src k s s' : booted a addr s → adv src k s s' → booted a addr s'.
Proof.
  intros [Hi Ha Hl Hw] [Hi' Ha' Hl' _ _ _ (l & Hw' & Hs)]. split; [done|congruence..|]. rewrite Hw', Ha in *. apply Forall_app. by split.
Qed.

Definition seed_ok (a : Z) (x : Z * SocketAddr) : Prop := x.1 < MAX_ACTORS ∧ x.1 ≠ a.

#[export] Instance seed_ok_dec a x : Decision (seed_ok a x).
Proof. unfold seed_ok. apply _. Defined.

Lemma bad_seed_panics a addr s : inv s → ¬ seed_ok (sw_actor s) (a, addr) → add_seed_peer W a addr s = Panic.
Proof.
  intros Hi Hs. unfold add_seed_peer, current_time_ns, ask, on_members, zoom, add_peer, mbind, st_bind, get, put, mret, st_ret, lift.
  cbn [membership set_env]. destruct (Z.ltb_spec a MAX_ACTORS) as [Hlt|]; cbn [assert_]; [|done].
  rewrite (inv_actor _ _ _ Hi). destruct (Z.eqb_spec a (sw_actor s)); [done|]. by destruct Hs.
Qed.

(** The seeds are added, or the node panics at the first one that is itself
    or no actor. *)
Lemma add_seeds_ok {E} l a addr : ∀ s, booted a addr s → Forall (fun x => 0 ≤ x.1 ∧ (seed_ok a x → B x.1 x.2)) l →
  match add_seeds (E:=E) W l s with
  | Ok (_, s') => Forall (seed_ok a) l ∧ booted a addr s' ∧ state_clock s' ≤ state_clock s ∧ config s' = config s
  | Err _ => False
  | Panic => ¬ Forall (seed_ok a) l
  end.
Proof.
  induction l as [|[b x] l IH]; intros s Hb Hl; [by cbn|]. apply Forall_cons in Hl as [[Hb0 HB] Hl]. cbn [fst snd] in *. cbn [add_seeds].
  unfold mbind, st_bind, try_. pose proof (boot_actor _ _ _ Hb) as Hact. destruct (decide (seed_ok a (b, x))) as [Hok|Hbad].
  - destruct Hok as [Hlt Hne]. pose proof (add_seed_peer_does W K B R False K_zero b x s (boot_inv _ _ _ Hb) (conj Hb0 Hlt)) as Hd.
    rewrite Hact in Hd. specialize (Hd Hne (HB (conj Hlt Hne))). unfold does, run_to in Hd.
    assert (Hnext : ∀ s1, adv (Some (b, x)) 0 s s1 → match add_seeds (E:=E) W l s1 with
      | Ok (_, s') => Forall (seed_ok a) ((b, x) :: l) ∧ booted a addr s' ∧ state_clock s' ≤ state_clock s ∧ config s' = config s
      | Err _ => False | Panic => ¬ Forall (seed_ok a) ((b, x) :: l) end).
    { intros s1 H1. specialize (IH s1 (booted_adv _ _ _ _ _ _ Hb H1) Hl). pose proof (adv_clock _ _ _ _ _ _ _ H1) as Hc. pose proof (adv_config _ _ _ _ _ _ _ H1) as Hcfg.
      destruct (add_seeds W l s1) as [[u s2]|[]|]; [|done|by intros [_ ?]%Forall_cons].
      destruct IH as (Hf & Hb2 & Hc2 & Hcfg2). split; [by apply Forall_cons|]. split; [done|]. split; [lia|congruence]. }
    destruct (add_seed_peer W b x s) as [[[] s1]|[e s1]|]; [by apply Hnext..|done].
  - rewrite bad_seed_panics; [by intros [? _]%Forall_cons|apply Hb|by rewrite Hact].
Qed.

Lemma new_run a addr c : actor_ok a → validate c = Ok () → new a (Some addr) c = Ok (fresh a addr c).
Proof. intros Ha Hc. unfold new, Membership.new. rewrite (proj2 (Z.ltb_lt _ _)) by apply Ha. by rewrite Hc. Qed.

Lemma build_ok c bind addr a d : actor_ok a → K a 1 → validate c = Ok () → is_unspecified bind = false → DistributedProofs.inv d →
  Forall (fun x => 0 ≤ x.1 ∧ (seed_ok a x → B x.1 x.2)) (seed_peers c) →
  match build_swim W c (Some bind) (Some addr) a d with
  | Ok s => Forall (seed_ok a) (seed_peers c) ∧ booted a addr s ∧ state_clock s ≤ DistributedProofs.clock_of d ∧ config s = c
  | Err _ => False
  | Panic => ¬ Forall (seed_ok a) (seed_peers c)
  end.
Proof.
  intros Ha HK Hc Hb Hd Hseeds. unfold build_swim. cbn [of_option mbind outcome_bind].
  rewrite Hb, new_run by done. cbn [negb assert_ mbind outcome_bind map_err].
  unfold set_distributed_state, mbind, st_bind, get, put, lift. cbn [distributed_state fresh]. rewrite bool_decide_true by done. cbn [assert_].
  set (s := set_ds (Some d) (fresh a addr c)).
  assert (Hboot : booted a addr s).
  { pose proof (fresh_inv a addr c Ha HK) as [? ? ? ? ?]. split; [|done|done|by constructor]. split; try done. cbn. by intros ? [= <-]. }
  pose proof (add_seeds_ok (E:=NodeError) (seed_peers c) a addr s Hboot Hseeds) as H. by destruct (add_seeds W (seed_peers c) s) as [[[] s']|[]|].
Qed.

End starting.

End SwimProofs.
