(* ===== verification/SwimTheorems.v ===== *)
(** * The gossip thread of a node, whatever arrives

    The protocol of [SwimProofs] with nothing assumed of the network: every
    datagram is possible. *)

From stdpp Require Import strings.
From S2P Require Import Prelude Wp Model Crdt GossipWire GossipProofs DistributedState DistributedProofs DistributedEffects Membership MembershipProofs Swim SwimProofs.

Module SwimTheorems.
Import Gossip GossipRoundTrip Membership MembershipProofs Swim SwimProofs.
Implicit Types (s : SwimProtocol) (p : PeerInfo).

(** ** What the decoder yields *)

Definition any_claim (_ _ : Z) : Prop := True.
Definition any_addr (_ : Z) (_ : SocketAddr) : Prop := True.

Abbreviation typed_claim := (claim_ok any_claim).

Lemma read_be_typed {E} n a l x : bytes l → read_be (E:=E) n a l = Ok x → in_range (8 * Z.of_nat n) x.
Proof.
  intros Hl. unfold read_be, slice. case_decide as Hd; [|done]. cbn [mbind outcome_bind]. intros [= <-].
  pose proof (of_be_range (sub_list a (a + n) l) (bytes_sub_list _ _ _ Hl)) as Hr. rewrite length_sub_list in Hr by lia.
  by replace (a + n - a)%nat with n in Hr by lia.
Qed.

Lemma read_u64_typed {E} a l x : bytes l → read_be (E:=E) 8 a l = Ok x → is_u64 x.
Proof. apply read_be_typed. Qed.

Lemma actor_typed a l bad x : bytes l → read_actor a l bad = Ok x → actor_ok x.
Proof.
  intros Hl. unfold read_actor. intros H. inv_ok. rename select (read_be _ _ _ = Ok _) into Hr. apply read_u64_typed in Hr; [|done].
  rename select ((_ >=? _) = false) into Hge. rewrite Z.geb_leb, Z.leb_gt in Hge. split; [apply Hr|done].
Qed.

Lemma members_typed n : ∀ o d ms r, bytes d → decode_members n o d = Ok (ms, r) → Forall (fun x => typed_claim x.1.1 x.1.2) ms.
Proof.
  induction n as [|n IH]; intros o d ms r Hd H; cbn [decode_members] in H; [by injection H as <- <-|].
  apply bind_ok in H as ([] & _ & H). apply bind_ok in H as (a & Ha & H). apply bind_ok in H as (i & Hi & H). apply bind_ok in H as (st & _ & H).
  apply bind_ok in H as ([ms' r'] & Hms & [= <- <-]). destruct (_ && _) eqn:Hc; [|by eapply IH]. apply Forall_cons. split; [|by eapply IH].
  apply andb_true_iff in Hc as [Hc _]. apply Z.ltb_lt in Hc. apply read_u64_typed in Ha, Hi; [|done..]. split; [split; [apply Ha|done]|by split].
Qed.

Lemma pair_typed short bad make d msg : bytes d → decode_pair short bad make d = Ok msg → ∃ a i, msg = make a i ∧ typed_claim a i.
Proof.
  intros Hd H. unfold decode_pair in H. apply bind_ok in H as ([] & _ & H). apply bind_ok in H as (a & Ha & H). apply bind_ok in H as (i & Hi & [= <-]).
  apply actor_typed in Ha; [|done]. apply read_u64_typed in Hi; [|done]. exists a, i. split; [done|]. by split.
Qed.

Lemma probe_typed short bad make d msg : bytes d → decode_probe short bad make d = Ok msg → ∃ a i us, msg = make a i us ∧ typed_claim a i.
Proof.
  intros Hd H. unfold decode_probe in H. apply bind_ok in H as ([] & _ & H). apply bind_ok in H as (a & Ha & H). apply bind_ok in H as (i & Hi & H).
  apply bind_ok in H as (n & _ & H). apply bind_ok in H as ([] & _ & H). apply bind_ok in H as ([us r] & _ & [= <-]).
  apply actor_typed in Ha; [|done]. apply read_u64_typed in Hi; [|done]. exists a, i, us. split; [done|]. by split.
Qed.

Lemma snapshot_typed d msg : bytes d → decode_state_snapshot d = Ok msg →
  ∃ a i ms us, msg = StateSnapshot a i ms us ∧ typed_claim a i ∧ Forall (fun x => typed_claim x.1.1 x.1.2) ms.
Proof.
  intros Hd H. unfold decode_state_snapshot in H. apply bind_ok in H as ([] & _ & H). apply bind_ok in H as (a & Ha & H). apply bind_ok in H as (i & Hi & H).
  apply bind_ok in H as (n & _ & H). apply bind_ok in H as ([] & _ & H). apply bind_ok in H as ([ms r] & Hm & H). apply bind_ok in H as ([] & _ & H).
  apply bind_ok in H as (k & _ & H). apply bind_ok in H as ([] & _ & H). apply bind_ok in H as ([us r'] & _ & [= <-]).
  apply actor_typed in Ha; [|done]. apply read_u64_typed in Hi; [|done]. apply members_typed in Hm; [|done]. by exists a, i, ms, us.
Qed.

Lemma ping_req_typed d msg : decode_ping_req d = Ok msg → ∃ f t ta ra, msg = PingReq f t ta ra.
Proof.
  intros H. unfold decode_ping_req in H. apply bind_ok in H as ([] & _ & H). apply bind_ok in H as (a & _ & H). apply bind_ok in H as (t & _ & H).
  apply bind_ok in H as (x & _ & H). apply bind_ok in H as ([ta n] & _ & H). apply bind_ok in H as (y & _ & H). apply bind_ok in H as ([ra k] & _ & [= <-]).
  by exists a, t, ta, ra.
Qed.

Lemma dead_typed d msg : bytes d → decode_dead d = Ok msg → ∃ a, msg = DeadMsg a ∧ actor_ok a.
Proof.
  intros Hd H. unfold decode_dead in H. apply bind_ok in H as ([] & _ & H). apply bind_ok in H as (a & Ha & [= <-]).
  apply actor_typed in Ha; [|done]. by exists a.
Qed.

Lemma decode_typed self d msg source : bytes d → decode d = Ok msg → hears any_claim any_addr True self msg source.
Proof.
  intros Hd H. unfold decode in H. destruct (bool_decide (d = [])); [done|]. apply bind_ok in H as (ty & _ & H).
  apply bind_ok in H as (rest & Hr & H). assert (Hb : bytes rest).
  { unfold slice in Hr. case_decide; [|done]. injection Hr as <-. by apply bytes_sub_list. }
  destruct (ty =? 0); [by apply probe_typed in H as (a & i & us & -> & ?)|].
  destruct (ty =? 1); [by apply probe_typed in H as (a & i & us & -> & ?)|].
  destruct (ty =? 2); [by apply ping_req_typed in H as (f & t & ta & ra & ->)|].
  destruct (ty =? 3); [by apply pair_typed in H as (a & i & -> & ?)|].
  destruct (ty =? 4); [by apply pair_typed in H as (a & i & -> & ?)|].
  destruct (ty =? 5); [by apply dead_typed in H as (a & -> & ?)|].
  destruct (ty =? 6); [by apply pair_typed in H as (a & i & -> & ?)|].
  destruct (ty =? 7); [by apply snapshot_typed in H as (a & i & ms & us & -> & ? & ?)|done].
Qed.

(** ** A node and its surroundings *)

(** What a socket hands over: bytes. *)
Definition arrival_bytes (a : Arrival) : Prop := match a with Datagram d _ => bytes d | _ => True end.

Lemma arrives_any self a : arrival_bytes a → arrives any_claim any_addr True self a.
Proof. destruct a as [| |d source]; [done..|]. intros Hd. split; [done|]. intros msg. by apply decode_typed, Forall_take. Qed.

(** The states of a node: it starts, its gossip thread goes round, and the
    other threads work on the replicated state. The clock of that state is at
    most [n]. *)
Inductive reachable (W : World) : Z → SwimProtocol → Prop :=
| starts n c bind addr a d s :
    actor_ok a → DistributedProofs.inv d → DistributedProofs.clock_of d ≤ n → Forall (fun x => 0 ≤ x.1) (seed_peers c) →
    build_swim W c (Some bind) (Some addr) a d = Ok s → reachable W n s
| goes_round n s stop a go s' :
    reachable W n s → arrival_bytes a → n + UPDATES < 2 ^ 64 → iteration W false stop a s = Ok (go, s') → reachable W (n + UPDATES) s'
| others_work n n' s d :
    reachable W n s → n ≤ n' → DistributedProofs.inv d → DistributedProofs.clock_of d ≤ n' → is_Some (distributed_state s) →
    reachable W n' (set_ds (Some d) s).

Abbreviation node_inv := (inv any_claim any_addr).

Lemma any_next : True → ∀ a i, any_claim a i → any_claim a (saturating_add 64 i 1).
Proof. done. Qed.

Lemma build_parts W c bind sock a d s : build_swim W c bind sock a d = Ok s → ∃ b addr, bind = Some b ∧ is_unspecified b = false ∧
  sock = Some addr ∧ validate c = Ok ().
Proof.
  unfold build_swim, new. intros H. apply bind_ok in H as (b & Hb & H). apply bind_ok in H as ([] & Hu & H). apply bind_ok in H as (s0 & Hn & _).
  apply of_option_ok in Hb. apply assert_ok, negb_true_iff in Hu. destruct (a <? MAX_ACTORS); [|done]. cbn [assert_ mbind outcome_bind] in Hn.
  destruct (validate c) as [[]| |]; [|done..]. cbn [mbind outcome_bind] in Hn. destruct (Membership.new a); [|done..]. cbn [mbind outcome_bind] in Hn.
  destruct sock as [addr|]; [|done]. by exists b, addr.
Qed.

(** A round that ends keeps everything, whether the random source works or not. *)
Lemma iteration_kept W s stop a go s' : node_inv s → arrival_bytes a → state_clock s + ticks a < 2 ^ 64 →
  iteration W false stop a s = Ok (go, s') → adv any_claim any_addr True (origin_of a) (ticks a) s s'.
Proof.
  intros Hi Ha Hc Hrun. pose proof (iteration_runs W any_claim any_addr True True (or_introl I) (fun _ => I) any_next stop a s Hi (arrives_any _ _ Ha) Hc) as H.
  unfold runs, run_to in H. by rewrite Hrun in H.
Qed.

Lemma reachable_inv W n s : reachable W n s → node_inv s ∧ state_clock s ≤ n.
Proof.
  induction 1 as [n c bind addr a d s Ha Hd Hc Hs Hb|n s stop a go s' _ [Hi Hc] Ha Hn Hrun|n n' s d _ [Hi Hc] Hle Hd Hcd Hs].
  - destruct (build_parts _ _ _ _ _ _ _ Hb) as (b & x & [= <-] & Hu & _ & Hv).
    pose proof (build_ok W any_claim any_addr True (fun _ => I) c bind addr a d Ha I Hv Hu Hd) as H.
    rewrite Hb in H. destruct H as (_ & Hboot & Hclk & _); [|split; [apply Hboot|lia]]. eapply Forall_impl; [exact Hs|]. intros y Hy. by split.
  - pose proof (ticks_bound a). pose proof (iteration_kept W s stop a go s' Hi Ha ltac:(lia) Hrun) as Hadv. split; [apply Hadv|]. pose proof (adv_clock _ _ _ _ _ _ _ Hadv). lia.
  - split; [|done]. pose proof (adv_state any_claim any_addr True d (n' - state_clock s) s Hi Hd Hs) as Hadv. apply Hadv. lia.
Qed.

(** A round from a reachable state. *)
Lemma round_advances W n s stop a : entropy W → reachable W n s → arrival_bytes a → n + UPDATES < 2 ^ 64 →
  ∃ go s', iteration W false stop a s = Ok (go, s') ∧ adv any_claim any_addr True (origin_of a) (ticks a) s s'.
Proof.
  intros HE Hr Ha Hn. destruct (reachable_inv _ _ _ Hr) as [Hi Hc].
  pose proof (ticks_bound a). apply (wp_run _ _ (fun _ s' => adv any_claim any_addr True (origin_of a) (ticks a) s s') (fun _ _ => False)); [|done].
  apply iteration_runs; [by right|done|done|done|by apply arrives_any|lia].
Qed.

(** C28: As long as the operating system's random source answers, nothing makes
    the gossip thread panic: no datagram, no failed send or receive, no reading
    of the clock, no order of a hash map and nothing the other threads do to
    the replicated state. (A failing [getrandom] does: the peer selection takes
    its answer with [expect].) Every round ends, with a membership list that
    holds each peer once and never the node itself, at most 160 updates
    waiting, and the invariant of the replicated state kept. (Debug assertions off; the clock of the state,
    which a round moves by 16 at most, does not overflow.) *)
Theorem gossip_never_panics W n s stop a : entropy W → reachable W n s → arrival_bytes a → n + UPDATES < 2 ^ 64 →
  ∃ go s', iteration W false stop a s = Ok (go, s') ∧ wf (membership s') ∧ ml_actor (membership s') = sw_actor s ∧
    (length (piggyback_queue s') ≤ MAX_PIGGYBACK_QUEUE_SIZE)%nat ∧ ∀ d, distributed_state s' = Some d → DistributedProofs.inv d.
Proof.
  intros HE Hr Ha Hn. destruct (round_advances W n s stop a HE Hr Ha Hn) as (go & s' & Hrun & Hadv). exists go, s'. split; [done|].
  pose proof (adv_inv _ _ _ _ _ _ _ Hadv) as [Hwf Hact _ Hq _ Hd]. rewrite (adv_actor _ _ _ _ _ _ _ Hadv) in Hact. done.
Qed.

(** C29: What a node believes of a peer only moves forward: in a round of the
    gossip thread no peer is forgotten, no incarnation decreases, and at the
    same incarnation a peer goes from Alive to Suspect to Dead and never
    back, whatever arrives. The exception is a peer whose ping or snapshot
    comes from another address: its record starts again as Alive. *)
Theorem beliefs_move_forward W n s stop a go s' : reachable W n s → arrival_bytes a → n + UPDATES < 2 ^ 64 →
  iteration W false stop a s = Ok (go, s') →
  own_incarnation (membership s) ≤ own_incarnation (membership s') ∧
  ∀ b p, find_peer (membership s) b = Some p → ∃ p', find_peer (membership s') b = Some p' ∧ incarnation p ≤ incarnation p' ∧
    (peer_addr p' = peer_addr p ∧ later p p' ∨ peer_addr p' ≠ peer_addr p ∧ origin_of a = Some (b, peer_addr p')).
Proof.
  intros Hr Ha Hn Hrun. destruct (reachable_inv _ _ _ Hr) as [Hi Hc]. pose proof (ticks_bound a).
  pose proof (iteration_kept W s stop a go s' Hi Ha ltac:(lia) Hrun) as Hadv. pose proof (adv_members _ _ _ _ _ _ _ Hadv) as [_ Hown _ Hp]. done.
Qed.

(** A validated configuration starts a node exactly when no seed peer
    names the node itself or an id that is no actor; with such a seed the
    node panics while it starts, instead of reporting an error. *)
Theorem starts_unless_own_seed W c bind addr a d :
  actor_ok a → validate c = Ok () → is_unspecified bind = false → DistributedProofs.inv d → Forall (fun x => 0 ≤ x.1) (seed_peers c) →
  (Forall (seed_ok a) (seed_peers c) → ∃ s, build_swim W c (Some bind) (Some addr) a d = Ok s) ∧
  (¬ Forall (seed_ok a) (seed_peers c) → build_swim W c (Some bind) (Some addr) a d = Panic).
Proof.
  intros Ha Hv Hb Hd Hs. assert (Hseeds : Forall (fun x => 0 ≤ x.1 ∧ (seed_ok a x → any_addr x.1 x.2)) (seed_peers c)).
  { eapply Forall_impl; [exact Hs|]. intros y Hy. by split. }
  pose proof (build_ok W any_claim any_addr True (fun _ => I) c bind addr a d Ha I Hv Hb Hd Hseeds) as H.
  destruct (build_swim _ _ _ _ _ _) as [s| |]; [destruct H as [Hf _]; naive_solver|done|naive_solver].
Qed.

(** ** A concrete node *)

Definition at_port (port : Z) : SocketAddr := V4 3232235777 port.

(** The clock moves on by 700 ms with every look at it. *)
Definition sample_world : World :=
  mkWorld (fun k => 1700000000000000000 + Z.of_nat k * 700000000) (fun k => Some (Z.of_nat k)) (fun _ => Delivered) (fun _ _ l => l).

Lemma sample_entropy : entropy sample_world.
Proof. intros k. by eexists. Qed.

(** The same world without a random source. *)
Definition mute_world : World := mkWorld (now sample_world) (fun _ => None) (net sample_world) (hash_order sample_world).

Definition with_seeds (l : list (Z * SocketAddr)) : GossipConfig :=
  mkGossipConfig 1000 1000 SUSPECT_TIMEOUT_MS 3 MAX_PIGGYBACK_UPDATES l.

Definition sample_state : DistributedState.State := DistributedEffects.sample_node DistributedEffects.behind.

Lemma sample_state_inv : DistributedProofs.inv sample_state.
Proof. apply DistributedEffects.behind_inv. Qed.

Definition build (actor : Z) (l : list (Z * SocketAddr)) : outcome NodeError SwimProtocol :=
  build_swim sample_world (with_seeds l) (Some (at_port 0)) (Some (at_port (7000 + actor))) actor sample_state.

(** Runs are compared by their inputs, not unfolded. *)
Strategy 100 [build_swim iteration].

Definition node_of (o : outcome NodeError SwimProtocol) : SwimProtocol := match o with Ok s => s | _ => fresh 0 (at_port 0) default_config end.

Definition sample_node : SwimProtocol := node_of (build 1 [(2, at_port 7002)]).

Definition is_ok {E A} (o : outcome E A) : bool := match o with Ok _ => true | _ => false end.

Lemma is_ok_run {E A} (o : outcome E A) : is_ok o = true → ∃ a, o = Ok a.
Proof. destruct o; [by eexists|done..]. Qed.

Lemma sample_reachable : reachable sample_world 10 sample_node.
Proof.
  destruct (is_ok_run (build 1 [(2, at_port 7002)])) as [s E]; [by vm_compute|]. unfold sample_node. rewrite E. unfold build in E. cbn [node_of].
  apply (starts _ 10 (with_seeds [(2, at_port 7002)]) (at_port 0) (at_port (7000 + 1)) 1 sample_state s);
    [by vm_compute|apply sample_state_inv|by vm_compute|by repeat constructor|exact E].
Qed.

(** A ping of actor 3 with an update, and a datagram of noise. *)
Definition sample_ping : Arrival :=
  Datagram (match encode (E:=string) (Ping 3 5 [ParticipantAdded 9 77 (mkDot 3 4)]) with Ok b => b | _ => [] end) (at_port 7003).

Lemma sample_ping_bytes : arrival_bytes sample_ping.
Proof. unfold sample_ping, arrival_bytes. vm_compute. repeat constructor; by vm_compute. Qed.

Lemma gossip_never_panics_witness :
  ∃ go s', iteration sample_world false false sample_ping sample_node = Ok (go, s') ∧ wf (membership s') ∧
    ml_actor (membership s') = sw_actor sample_node ∧
    (length (piggyback_queue s') ≤ MAX_PIGGYBACK_QUEUE_SIZE)%nat ∧ ∀ d, distributed_state s' = Some d → DistributedProofs.inv d.
Proof. apply (gossip_never_panics sample_world 10); [apply sample_entropy|apply sample_reachable|apply sample_ping_bytes|by vm_compute]. Defined.

(** With a probe due and an alive peer, a failing random source is a panic. *)
Example no_random_panics : iteration mute_world false false Nothing sample_node = Panic.
Proof. vm_compute. reflexivity. Qed.

Definition after_ping : SwimProtocol := state_of sample_node (iteration sample_world false false sample_ping sample_node).

Lemma beliefs_move_forward_witness :
  own_incarnation (membership sample_node) ≤ own_incarnation (membership after_ping) ∧
  ∀ b p, find_peer (membership sample_node) b = Some p → ∃ p', find_peer (membership after_ping) b = Some p' ∧ incarnation p ≤ incarnation p' ∧
    (peer_addr p' = peer_addr p ∧ later p p' ∨ peer_addr p' ≠ peer_addr p ∧ origin_of sample_ping = Some (b, peer_addr p')).
Proof.
  destruct (is_ok_run (iteration sample_world false false sample_ping sample_node)) as [[go s'] E]; [by vm_compute|].
  unfold after_ping. rewrite E. cbn [state_of].
  apply (beliefs_move_forward sample_world 10 sample_node false sample_ping go s'); [apply sample_reachable|apply sample_ping_bytes|by vm_compute|exact E].
Defined.

Lemma starts_unless_own_seed_witness :
  (Forall (seed_ok 2) [(2, at_port 7002)] → ∃ s, build 2 [(2, at_port 7002)] = Ok s) ∧
  (¬ Forall (seed_ok 2) [(2, at_port 7002)] → build 2 [(2, at_port 7002)] = Panic).
Proof.
  apply (starts_unless_own_seed sample_world (with_seeds [(2, at_port 7002)]) (at_port 0) (at_port (7000 + 2)) 2 sample_state);
    [by vm_compute|by vm_compute|done|apply sample_state_inv|by repeat constructor].
Defined.

End SwimTheorems.
