(* ===== verification/SwimCluster.v ===== *)
(** * A cluster of gossiping nodes

    Nodes that hear only what nodes of the cluster sent, over a network that
    loses, repeats and reorders datagrams. No node is ever told that it is
    suspected, so none refutes: a suspicion is final. *)

From stdpp Require Import strings relations.
From S2P Require Import Prelude Wp Model Crdt GossipWire GossipProofs DistributedState DistributedProofs DistributedEffects Membership MembershipProofs Swim SwimProofs SwimTheorems.

Module SwimCluster.
Import Gossip GossipProofs GossipRoundTrip Membership MembershipProofs Swim SwimProofs.
Implicit Types (s : SwimProtocol) (p : PeerInfo).

(** ** What the receiver of a message reads

    Updates that do not decode are skipped; the rest arrives as it was. *)

Definition same_news (msg msg' : GossipMessage) : Prop :=
  match msg with
  | Ping f i _ => ∃ us, msg' = Ping f i us
  | Ack f i _ => ∃ us, msg' = Ack f i us
  | PingReq _ _ _ _ => ∃ f t ta ra, msg' = PingReq f t ta ra
  | StateSnapshot f i ms _ => ∃ us, msg' = StateSnapshot f i (take MAX_SNAPSHOT_MEMBERS ms) us
  | _ => msg' = msg
  end.

Lemma probe_head short bad make f i rest msg : actor_ok f → is_u64 i →
  decode_probe short bad make (pair_bytes f i ++ rest) = Ok msg → ∃ us, msg = make f i us.
Proof.
  intros Hf Hi. unfold decode_probe, pair_bytes. rewrite <- !app_assoc. intros H. apply bind_ok in H as ([] & _ & H).
  rewrite first_actor in H by done. rewrite read_field in H by (by rewrite ?length_to_be).
  apply bind_ok in H as (n & _ & H). apply bind_ok in H as ([] & _ & H). apply bind_ok in H as ([us r] & _ & [= <-]). by exists us.
Qed.

Lemma snapshot_head f i ms rest msg : actor_ok f → is_u64 i → Forall member_ok ms → (length ms ≤ MAX_SNAPSHOT_MEMBERS)%nat →
  decode_state_snapshot (pair_bytes f i ++ to_be 2 (Z.of_nat (length ms)) ++ member_bytes ms ++ rest) = Ok msg → ∃ us, msg = StateSnapshot f i ms us.
Proof.
  intros Hf Hi Hms Hl. change MAX_SNAPSHOT_MEMBERS with 38%nat in Hl. set (d := pair_bytes f i ++ _). unfold decode_state_snapshot. intros H.
  apply bind_ok in H as ([] & _ & H).
  assert (H1 : ∀ A bad (k : Z → decoder A), (read_actor 0 d bad ≫= k) = k f).
  { intros. unfold d, pair_bytes. rewrite <- app_assoc. by apply first_actor. }
  assert (H2 : read_be (E:=string) 8 8 d = Ok i).
  { unfold d, pair_bytes. rewrite <- app_assoc. by rewrite read_be_at, of_be_to_be by (by rewrite ?length_to_be). }
  assert (H3 : read_be (E:=string) 2 16 d = Ok (Z.of_nat (length ms))).
  { unfold d, pair_bytes. rewrite read_be_at, of_be_to_be; [done| |by rewrite !length_app, !length_to_be|by rewrite length_to_be]. split; cbn -[Z.pow]; lia. }
  assert (H4 : decode_members (length ms) 18 d = Ok (ms, (18 + length (member_bytes ms))%nat)).
  { unfold d, pair_bytes. rewrite app_assoc. apply decode_members_bytes; [done|done|by rewrite !length_app, !length_to_be]. }
  rewrite H1, H2 in H. cbn [mbind outcome_bind] in H. rewrite H3 in H. cbn [mbind outcome_bind] in H. apply bind_ok in H as ([] & _ & H).
  rewrite Nat2Z.id, H4 in H. cbn [mbind outcome_bind] in H. apply bind_ok in H as ([] & _ & H). apply bind_ok in H as (n & _ & H).
  apply bind_ok in H as ([] & _ & H). apply bind_ok in H as ([us r] & _ & [= <-]). by exists us.
Qed.

Lemma decode_sent K B R self msg dest msg' : says K B R self msg dest → decode ([tag msg] ++ body msg) = Ok msg' → same_news msg msg'.
Proof.
  intros Hs. unfold decode. rewrite bool_decide_eq_false_2 by done. rewrite idx_first, slice_rest by done. cbn [mbind outcome_bind].
  destruct msg as [f i us|f i us|f t ta ra|a i|a i|a|a i|f i ms us]; cbn [tag Z.eqb Pos.eqb body same_news says] in *.
  - destruct Hs as (_ & ? & ? & _). by apply probe_head.
  - destruct Hs as (_ & ? & ? & _). by apply probe_head.
  - apply SwimTheorems.ping_req_typed.
  - destruct Hs as ((? & ? & _) & _). unfold decode_suspect. rewrite decode_pair_body by done. by intros [= <-].
  - destruct Hs as (_ & _ & ? & ? & _). unfold decode_alive. rewrite decode_pair_body by done. by intros [= <-].
  - destruct Hs as (? & _). unfold decode_dead. rewrite passes by (by rewrite length_to_be). rewrite <- (app_nil_r (to_be 8 a)).
    rewrite first_actor by done. by intros [= <-].
  - destruct Hs as (? & ? & _). unfold decode_forwarded_ack. rewrite decode_pair_body by done. by intros [= <-].
  - destruct Hs as (_ & (? & ? & _) & Hms). apply snapshot_head; [done..| |rewrite length_take; lia]. apply Forall_take.
    eapply Forall_impl; [exact Hms|]. intros [[a k] x] ((? & ? & _) & ?). by split.
Qed.

(** ** The cluster *)

Section cluster.
Context (worlds : Z → World) (book : Z → SocketAddr).

Abbreviation cluster := (gmap Z SwimProtocol).

(** What node [x] may receive: what a node sent to its address. *)
Inductive delivery (c : cluster) (x : Z) : Arrival → Prop :=
| no_datagram : delivery c x Nothing
| bad_datagram : delivery c x RecvFailed
| datagram y s msg b : c !! y = Some s → (msg, b, book x) ∈ wire s → bytes b → delivery c x (Datagram b (book y)).

(** Every node starts at its address, with seeds at theirs. *)
Definition starting (c : cluster) : Prop := ∀ x s, c !! x = Some s → actor_ok x ∧ ∃ cfg bind d,
  DistributedProofs.inv d ∧ DistributedProofs.clock_of d ≤ 0 ∧ Forall (fun y => 0 ≤ y.1 ∧ y.2 = book y.1) (seed_peers cfg) ∧
  build_swim (worlds x) cfg (Some bind) (Some (book x)) x d = Ok s.

(** A round of one node, or work on its replicated state; the clocks of the
    states are below the number. *)
Inductive step : Z * cluster → Z * cluster → Prop :=
| node_round n c x s stop a go s' :
    c !! x = Some s → delivery c x a → n + UPDATES < 2 ^ 64 → iteration (worlds x) false stop a s = Ok (go, s') →
    step (n, c) (n + UPDATES, <[x := s']> c)
| node_work n n' c x s d :
    c !! x = Some s → n ≤ n' → DistributedProofs.inv d → DistributedProofs.clock_of d ≤ n' → is_Some (distributed_state s) →
    step (n, c) (n', <[x := set_ds (Some d) s]> c).

(** *** Nobody is told of its own suspicion *)

Definition first_life (_ i : Z) : Prop := i ≤ 1.
Definition listed (a : Z) (addr : SocketAddr) : Prop := addr = book a.

(** Runs that can be executed: the next round of [x], which receives nothing
    or the [k]-th datagram [y] sent. *)
Definition exec1 (c : cluster) (e : Z * option (Z * nat)) : option cluster :=
  s ← c !! e.1;
  a ← match e.2 with
      | None => Some Nothing
      | Some (y, k) =>
        sy ← c !! y; '(_, b, dest) ← wire sy !! k;
        if bool_decide (dest = book e.1) && bool_decide (bytes b) then Some (Datagram b (book y)) else None
      end;
  match iteration (worlds e.1) false false a s with Ok (_, s') => Some (<[e.1 := s']> c) | _ => None end.

Fixpoint exec (c : cluster) (l : list (Z * option (Z * nat))) : option cluster :=
  match l with [] => Some c | e :: l => c ← exec1 c e; exec c l end.

Lemma exec1_step n c e c' : exec1 c e = Some c' → n + UPDATES < 2 ^ 64 → step (n, c) (n + UPDATES, c').
Proof.
  destruct e as [x o]. unfold exec1. cbn [fst snd]. intros H Hn. apply bind_Some in H as (s & Hx & H). apply bind_Some in H as (a & Ha & H).
  destruct (iteration (worlds x) false false a s) as [[go s']| |] eqn:E; [|done..]. injection H as <-. eapply node_round; [exact Hx| |done|exact E].
  destruct o as [[y k]|]; [|injection Ha as <-; constructor]. apply bind_Some in Ha as (sy & Hy & Ha). apply bind_Some in Ha as ([[msg b] dest] & Hw & Ha).
  destruct (_ && _) eqn:Hb; [|done]. injection Ha as <-. apply andb_true_iff in Hb as [->%bool_decide_eq_true Hb%bool_decide_eq_true].
  by eapply datagram; [exact Hy|eapply list_elem_of_lookup_2|].
Qed.

Lemma exec_steps l : ∀ n c c', exec c l = Some c' → n + Z.of_nat (length l) * UPDATES < 2 ^ 64 →
  rtc step (n, c) (n + Z.of_nat (length l) * UPDATES, c').
Proof.
  induction l as [|e l IH]; intros n c c' H Hn; cbn [exec length] in *.
  - injection H as <-. rewrite Z.add_0_r. constructor.
  - apply bind_Some in H as (c1 & H1 & H). rewrite Nat2Z.inj_succ, Z.mul_succ_l in *.
    assert (0 ≤ Z.of_nat (length l) * UPDATES) by (unfold UPDATES; lia).
    specialize (IH (n + UPDATES) c1 c' H ltac:(lia)). eapply rtc_l; [eapply exec1_step; [exact H1|lia]|].
    by replace (n + (Z.of_nat (length l) * UPDATES + UPDATES)) with (n + UPDATES + Z.of_nat (length l) * UPDATES) by lia.
Qed.

Context (book_inj : ∀ a b, book a = book b → a = b).

Abbreviation node_ok := (booted first_life listed False).

Lemma no_next : False → ∀ a i, first_life a i → first_life a (saturating_add 64 i 1).
Proof. done. Qed.

Lemma life_zero a : first_life a 0.
Proof. unfold first_life. lia. Qed.

Definition cluster_ok (n : Z) (c : cluster) : Prop := ∀ x s, c !! x = Some s → node_ok x (book x) s ∧ state_clock s ≤ n.

(** What a node says to [x] may be heard by [x]. *)
Lemma news_heard y x msg msg' : says first_life listed False y msg (book x) → same_news msg msg' → hears first_life listed False x msg' (book y).
Proof.
  assert (Hself : ∀ a, told_others listed a (book x) → a = x → False).
  { intros a (b & Hne & Hb) ->. apply Hne. symmetry. by apply book_inj. }
  destruct msg as [f i us|f i us|f t ta ra|a i|a i|a|a i|f i ms us]; cbn [says same_news].
  - intros [-> Hc] [us' ->]. by split.
  - intros [-> Hc] [us' ->]. done.
  - intros _ (? & ? & ? & ? & ->). done.
  - intros [Hc Ht] ->. split; [done|]. by apply Hself.
  - by intros [[] _].
  - by intros [Hc _] ->.
  - by intros Hc ->.
  - intros (-> & Hc & Hms) [us' ->]. split; [done|]. split; [done|]. apply Forall_take. eapply Forall_impl; [exact Hms|]. by intros z [? _].
Qed.

Lemma delivery_heard n c x a : cluster_ok n c → delivery c x a → arrives first_life listed False x a.
Proof.
  intros Hc. destruct 1 as [| |y s msg b Hy Hin Hb]; [done..|]. split; [done|]. intros msg' Hd. destruct (Hc y s Hy) as [Hok _].
  pose proof (proj1 (Forall_forall _ _) (boot_wire _ _ _ _ _ _ Hok) _ Hin) as [He Hs]. cbn [fst snd] in He, Hs. subst b.
  rewrite take_ge in Hd; [|pose proof (body_length msg); lia]. apply (news_heard y x msg); [done|by eapply decode_sent].
Qed.

(** The beliefs of one node only move forward. *)
Definition onwards s s' : Prop := ∀ b p, find_peer (membership s) b = Some p → ∃ p', find_peer (membership s') b = Some p' ∧ later p p'.

Lemma adv_onwards src k s s' : inv first_life listed s → adv first_life listed False src k s s' → onwards s s'.
Proof.
  intros Hi Hadv b p Hp. destruct (gr_peer _ _ _ (adv_members _ _ _ _ _ _ _ Hadv) b p Hp) as (p' & Hp' & _ & [[_ Hl]|[Hne _]]); [by exists p'|].
  destruct Hne. rewrite (kn_addr _ _ _ (inv_knows _ _ _ Hi) b p Hp).
  by rewrite (kn_addr _ _ _ (inv_knows _ _ _ (adv_inv _ _ _ _ _ _ _ Hadv)) b p' Hp').
Qed.

Lemma onwards_refl s : onwards s s.
Proof. intros b p Hp. exists p. split; [done|apply later_refl]. Qed.

Lemma starting_ok c : starting c → cluster_ok 0 c.
Proof.
  intros Hs x s Hx. destruct (Hs x s Hx) as (Ha & cfg & bind & d & Hd & Hclk & Hseeds & Hb).
  destruct (SwimTheorems.build_parts _ _ _ _ _ _ _ Hb) as (b & y & [= <-] & Hu & _ & Hv).
  pose proof (build_ok (worlds x) first_life listed False life_zero cfg bind (book x) x d Ha) as H. rewrite Hb in H.
  destruct H as (_ & Hboot & Hc & _); [unfold first_life; lia|done..| |split; [done|lia]]. eapply Forall_impl; [exact Hseeds|].
  intros z [Hz Hl]. by split.
Qed.

Definition next_to (c c' : cluster) : Prop := ∀ x s, c !! x = Some s → ∃ s', c' !! x = Some s' ∧ onwards s s'.

Lemma cluster_step_ok n c n' c' : step (n, c) (n', c') → cluster_ok n c → cluster_ok n' c' ∧ next_to c c'.
Proof.
  intros Hstep Hok.
  assert (Hupd : ∀ x s s' src k, c !! x = Some s → adv first_life listed False src k s s' → n ≤ n' → state_clock s' ≤ n' →
            c' = <[x := s']> c → cluster_ok n' c' ∧ next_to c c').
  { intros x s s' src k Hx Hadv Hn Hclk ->. destruct (Hok x s Hx) as [Hboot _]. split.
    - intros y t. destruct (decide (x = y)) as [<-|Hne].
      + rewrite lookup_insert_eq. intros [= <-]. split; [by eapply booted_adv|done].
      + rewrite lookup_insert_ne by done. intros Hy. destruct (Hok y t Hy). split; [done|lia].
    - intros y t Hy. destruct (decide (x = y)) as [<-|Hne].
      + exists s'. rewrite lookup_insert_eq. split; [done|]. rewrite Hx in Hy. injection Hy as <-. eapply adv_onwards; [apply Hboot|done].
      + exists t. rewrite lookup_insert_ne by done. split; [done|apply onwards_refl]. }
  inversion Hstep as [n0 c0 x s stop a go s' Hx Hdel Hn Hrun|n0 n1 c0 x s d Hx Hn Hd Hclk Hs]; subst; destruct (Hok x s Hx) as [Hboot Hc].
  - pose proof (iteration_runs (worlds x) first_life listed False True (or_introl I) life_zero no_next stop a s (boot_inv _ _ _ _ _ _ Hboot)) as H.
    rewrite (boot_actor _ _ _ _ _ _ Hboot) in H. pose proof (ticks_bound a). specialize (H (delivery_heard n c x a Hok Hdel) ltac:(lia)). unfold runs, run_to in H.
    rewrite Hrun in H. pose proof (adv_clock _ _ _ _ _ _ _ H). eapply Hupd; [done|exact H|unfold UPDATES; lia|lia|done].
  - eapply (Hupd x s _ None (n' - state_clock s)); [done|apply adv_state; [apply Hboot|done|done|lia]|done|done|done].
Qed.

Lemma later_ok x y : rtc step x y → cluster_ok x.1 x.2 → cluster_ok y.1 y.2 ∧ next_to x.2 y.2.
Proof.
  induction 1 as [x|[n c] [n1 c1] y Hs _ IH]; intros Hok; [split; [done|]; intros z s Hz; exists s; split; [done|apply onwards_refl]|].
  destruct (cluster_step_ok n c n1 c1 Hs Hok) as [Hok1 Hn1]. destruct (IH Hok1) as [Hy Hn2]. split; [done|].
  intros z s Hz. destruct (Hn1 z s Hz) as (s1 & Hz1 & Hf1). destruct (Hn2 z s1 Hz1) as (s2 & Hz2 & Hf2). exists s2. split; [done|].
  intros b p Hp. destruct (Hf1 b p Hp) as (p1 & Hp1 & Hl1). destruct (Hf2 b p1 Hp1) as (p2 & Hp2 & Hl2). exists p2. split; [done|by eapply later_trans].
Qed.

(** C31: A suspicion is final. In a cluster whose nodes hear only one another,
    over a network that may lose, repeat, delay and reorder datagrams, a node
    that holds a peer it knows (incarnation 1) for Suspect or Dead never
    holds it for Alive again, however often it hears from it: suspicions are
    sent to everybody but the suspect, so no node ever refutes one. *)
Theorem suspicion_is_final c0 n c n' c' x s b p :
  starting c0 → rtc step (0, c0) (n, c) → rtc step (n, c) (n', c') →
  c !! x = Some s → find_peer (membership s) b = Some p → incarnation p = 1 → peer_state p ≠ Alive →
  ∃ s' p', c' !! x = Some s' ∧ find_peer (membership s') b = Some p' ∧ incarnation p' = 1 ∧ peer_state p' ≠ Alive.
Proof.
  intros H0 H1 H2 Hx Hp Hi Hna. destruct (later_ok _ _ H1 (starting_ok _ H0)) as [Hok _]. destruct (later_ok _ _ H2 Hok) as [Hok' Hnext].
  destruct (Hnext x s Hx) as (s' & Hx' & Hf). destruct (Hf b p Hp) as (p' & Hp' & Hl). exists s', p'. split; [done|]. split; [done|].
  destruct (Hok' x s' Hx') as [Hboot _]. pose proof (kn_inc _ _ _ (inv_knows _ _ _ (boot_inv _ _ _ _ _ _ Hboot)) b p' Hp') as Hlife.
  unfold first_life in Hlife. unfold later in Hl. split; [lia|]. intros Ha. rewrite Ha in Hl. destruct (peer_state p); cbn in Hl; [done|lia..].
Qed.

End cluster.

(** ** Two nodes

    Node 1 hears from node 2, then two answers are lost and node 1 suspects
    node 2; the pings node 2 goes on sending do not change that. *)

Definition port_of (a : Z) : SocketAddr := SwimTheorems.at_port (7000 + a).

Lemma port_inj a b : port_of a = port_of b → a = b.
Proof. unfold port_of, SwimTheorems.at_port. intros [= H]. lia. Qed.

Definition two_worlds (_ : Z) : World := SwimTheorems.sample_world.

Definition quiet_state : DistributedState.State := DistributedEffects.sample_node [].

Lemma quiet_state_ok : DistributedProofs.inv quiet_state ∧ DistributedProofs.clock_of quiet_state ≤ 0.
Proof.
  destruct (SwimTheorems.is_ok_run (DistributedEffects.run_new false [])) as [y E]; [by vm_compute|].
  split; [|by vm_compute]. unfold quiet_state, DistributedEffects.sample_node. rewrite E. by apply (DistributedEffects.sample_inv []).
Qed.

Definition boot (a b : Z) : outcome NodeError SwimProtocol :=
  build_swim (two_worlds a) (SwimTheorems.with_seeds [(b, port_of b)]) (Some (port_of a)) (Some (port_of a)) a quiet_state.

Definition two_nodes : gmap Z SwimProtocol := {[ 1 := SwimTheorems.node_of (boot 1 2); 2 := SwimTheorems.node_of (boot 2 1) ]}.

Lemma two_nodes_start : starting two_worlds port_of two_nodes.
Proof.
  assert (Hboot : ∀ a b, is_true (SwimTheorems.is_ok (boot a b)) → boot a b = Ok (SwimTheorems.node_of (boot a b))) by (intros a b; by destruct (boot a b)).
  destruct quiet_state_ok as [Hd Hc].
  intros x s. unfold two_nodes. rewrite lookup_insert_Some, lookup_singleton_Some. intros [[<- <-]|[_ [<- <-]]].
  - split; [by vm_compute|]. eexists _, _, _. split_and!; [exact Hd|exact Hc| |apply (Hboot 1 2); by vm_compute]. by repeat constructor.
  - split; [by vm_compute|]. eexists _, _, _. split_and!; [exact Hd|exact Hc| |apply (Hboot 2 1); by vm_compute]. by repeat constructor.
Qed.

Definition run_two (c : gmap Z SwimProtocol) (l : list (Z * option (Z * nat))) : gmap Z SwimProtocol := default ∅ (exec two_worlds port_of c l).

Lemma run_two_steps n c l : is_true (bool_decide (is_Some (exec two_worlds port_of c l))) → n + Z.of_nat (length l) * UPDATES < 2 ^ 64 →
  rtc (step two_worlds port_of) (n, c) (n + Z.of_nat (length l) * UPDATES, run_two c l).
Proof. intros [c' Hc]%bool_decide_eq_true Hn. unfold run_two. rewrite Hc. by apply exec_steps. Qed.

Definition to_suspicion : list (Z * option (Z * nat)) := [(2, Some (1, 0%nat)); (1, Some (2, 2%nat)); (1, None); (1, None); (1, None)].
Definition more_pings : list (Z * option (Z * nat)) := [(1, Some (2, 0%nat)); (2, None); (1, Some (2, 0%nat))].

Definition suspicious : gmap Z SwimProtocol := run_two two_nodes to_suspicion.
Definition afterwards : gmap Z SwimProtocol := run_two suspicious more_pings.
Definition node_at (x : Z) (c : gmap Z SwimProtocol) : SwimProtocol := default (fresh x (port_of x) default_config) (c !! x).
Definition peer_at (b : Z) (s : SwimProtocol) : PeerInfo := default (mkPeer b (port_of b) Alive 0 0) (find_peer (membership s) b).

Lemma default_lookup {A} (a : A) (o : option A) : is_true (bool_decide (is_Some o)) → o = Some (default a o).
Proof. intros [x ->]%bool_decide_eq_true. done. Qed.

Lemma suspicion_is_final_witness :
  ∃ s' p', afterwards !! 1 = Some s' ∧ find_peer (membership s') 2 = Some p' ∧ incarnation p' = 1 ∧ peer_state p' ≠ Alive.
Proof.
  apply (suspicion_is_final two_worlds port_of port_inj two_nodes 80 suspicious 128 afterwards 1 (node_at 1 suspicious) 2 (peer_at 2 (node_at 1 suspicious)));
    [apply two_nodes_start|apply (run_two_steps 0 two_nodes to_suspicion); by vm_compute|apply (run_two_steps 80 suspicious more_pings); by vm_compute
    |apply default_lookup; by vm_compute|apply default_lookup; by vm_compute|by vm_compute|by vm_compute].
Defined.

End SwimCluster.
