(* ===== verification/SwimEffects.v ===== *)
(** * The SWIM protocol: single calls in detail

    What becomes of a state update that arrives, and what a probe cycle does
    when its ping cannot be sent. *)

From stdpp Require Import strings.
From S2P Require Import Prelude Wp Model Crdt LwwReg Orswot GossipWire GossipProofs DistributedState DistributedProofs DistributedEffects Membership MembershipProofs Swim SwimProofs SwimTheorems.

Module SwimEffects.
Import Gossip GossipRoundTrip Membership MembershipProofs Swim SwimProofs SwimTheorems.
Import DistributedEffects (bind_run, get_run, lift_run, next_dot).
Implicit Types (s : SwimProtocol).

(** ** An update that arrives *)

Lemma apply_added_run {E} room p x s d reg set l : DistributedProofs.inv d → distributed_state s = Some d → DistributedProofs.clock_of d + 1 < 2 ^ 64 →
  room ≠ 0 → p ≠ 0 → DistributedState.rooms d !! room = Some reg → DistributedState.participants d !! room = Some set →
  Orswot.Orswot.len set < DistributedState.max_participants (LwwReg.LwwReg.value reg) → DistributedState.broadcast_tx d = Some l →
  ∃ d', apply_to_state (E:=E) false (ParticipantAdded room p x) s = Ok ((), set_ds (Some d') s) ∧
    DistributedState.broadcast_tx d' = Some (l ++ [ParticipantAdded room p (next_dot d)]).
Proof.
  intros Hi Hd Hc Hroom Hp Hr Hset Hlen Hl.
  assert (Hchk : DistributedState.check_participant_ids room p = Ok ()) by (unfold DistributedState.check_participant_ids; by rewrite !(proj2 (Z.eqb_neq _ _))).
  destruct (DistributedEffects.call_run _ (DistributedState.add_participant_locked false room p) d Hi Hc Hchk) as (d1 & Ht & Hdot & Hrun).
  destruct (DistributedEffects.ticked_parts _ _ _ Ht) as (Hps & Hrs & _).
  destruct (DistributedEffects.add_locked_run false room p (next_dot d) d1 reg set (DistributedProofs.ticked_inv _ _ _ Ht) Hdot)
    as (r & set' & _ & Hadd); [by rewrite Hrs|by rewrite Hps|done|]. cbn [andb] in Hadd.
  assert (Hl1 : DistributedState.broadcast_tx d1 = Some l) by (by rewrite (DistributedProofs.ticked_rest _ _ _ Ht)).
  pose proof (DistributedProofs.cfg_actor_ok _ (DistributedProofs.inv_config _ Hi)) as Hact. rewrite <- (DistributedProofs.inv_actor _ Hi) in Hact.
  assert (Happ : apply_state_update false (ParticipantAdded room p x) d =
            Ok ((), DistributedEffects.sent (ParticipantAdded room p (next_dot d)) (DistributedEffects.with_set room set' d1))).
  { unfold apply_state_update. rewrite get_run, (lift_run _ _ _ ()) by (by rewrite (proj2 (Z.ltb_lt _ _)) by lia).
    erewrite bind_run; [done|]. unfold DistributedState.add_participant. rewrite Hrun. exact Hadd. }
  eexists. split.
  - unfold apply_to_state. rewrite get_run, Hd. erewrite (bind_run _ _ _ (Some ())); [done|]. unfold try_, zoom. by rewrite Happ.
  - unfold DistributedEffects.sent. change (DistributedState.broadcast_tx (DistributedEffects.with_set room set' d1)) with (DistributedState.broadcast_tx d1).
    by rewrite Hl1.
Qed.

(** Updates multiply. A participant update that arrives at a node with
    the room and space in it is queued for the peers as it came, and applied
    as an operation of the node itself: the replicated state broadcasts it
    again under a dot of its own, even when the participant is there. After
    the next round of the gossip thread the queue holds two updates for the
    one that came, and each of them does the same at every peer. *)
Theorem updates_multiply room p x s d reg set :
  DistributedProofs.inv d → distributed_state s = Some d → DistributedProofs.clock_of d + 1 < 2 ^ 64 →
  room ≠ 0 → p ≠ 0 → DistributedState.rooms d !! room = Some reg → DistributedState.participants d !! room = Some set →
  Orswot.Orswot.len set < DistributedState.max_participants (LwwReg.LwwReg.value reg) → DistributedState.broadcast_tx d = Some [] →
  (length (piggyback_queue s) + 2 ≤ MAX_PIGGYBACK_QUEUE_SIZE)%nat →
  ∃ s', (process_state_updates (E:=GossipError) false [ParticipantAdded room p x];; us ← take_updates; forward_updates us) s = Ok ((), s') ∧
    piggyback_queue s' = piggyback_queue s ++ [ParticipantAdded room p x; ParticipantAdded room p (next_dot d)].
Proof.
  intros Hi Hd Hc Hroom Hp Hr Hset Hlen Hl Hq. set (u := ParticipantAdded room p x).
  set (s1 := set_stats (count_received 1 (stats s)) s).
  destruct (apply_added_run (E:=GossipError) room p x s1 d reg set [] Hi Hd Hc Hroom Hp Hr Hset Hlen Hl) as (d' & Happ & Hl').
  set (s2 := set_ds (Some d') s1) in *. set (s3 := set_queue (piggyback_queue s ++ [u]) s2).
  assert (Hproc : process_state_updates (E:=GossipError) false [u] s = Ok ((), s3)).
  { unfold process_state_updates. cbn [take MAX_PIGGYBACK_UPDATES]. cbv zeta.
    rewrite (lift_run _ _ _ ()) by done. rewrite (bind_run _ _ _ () s1) by done.
    rewrite (bind_run _ _ _ () s2) by (unfold apply_all; by rewrite (bind_run _ _ _ _ _ Happ)).
    rewrite (bind_run _ _ _ () s3).
    2: { assert (Hn : note_relay u s2 = s2) by (unfold note_relay; by case_bool_decide). unfold modify, foldl. rewrite Hn. unfold requeue.
         rewrite bool_decide_true; [done|]. change (piggyback_queue s2) with (piggyback_queue s). lia. }
    rewrite get_run. unfold lift. cbn [piggyback_queue s3 set_queue]. rewrite bool_decide_true; [done|]. rewrite length_app. cbn [length]. lia. }
  rewrite (bind_run _ _ _ _ _ Hproc). set (v := ParticipantAdded room p (next_dot d)) in *.
  set (s4 := set_ds (Some (DistributedState.set_broadcast (Some []) d')) s3).
  rewrite (bind_run _ _ _ [v] s4).
  2: { unfold take_updates. rewrite get_run. change (distributed_state s3) with (Some d'). cbv beta iota. by rewrite Hl'. }
  exists (set_queue (piggyback_queue s3 ++ [v]) s4). split; [|change (piggyback_queue s3) with (piggyback_queue s ++ [u]); cbn [piggyback_queue set_queue]; by rewrite <- app_assoc].
  assert (Hlen2 : (length (piggyback_queue s3 ++ [v]) ≤ MAX_PIGGYBACK_QUEUE_SIZE)%nat).
  { change (piggyback_queue s3) with (piggyback_queue s ++ [u]). rewrite !length_app. cbn [length]. lia. }
  cbn [forward_updates]. erewrite bind_run; [done|]. unfold broadcast_state_update. erewrite (bind_run _ _ _ ()); [|done]. cbv zeta.
  change (piggyback_queue s4) with (piggyback_queue s3). replace (length (piggyback_queue s3 ++ [v]) - MAX_PIGGYBACK_QUEUE_SIZE)%nat with 0%nat by lia.
  rewrite drop_0, get_run. unfold lift. cbn [piggyback_queue set_queue]. by rewrite bool_decide_true.
Qed.

Definition multiply_state : DistributedState.State := DistributedState.set_broadcast (Some []) sample_state.
Definition multiply_node : SwimProtocol := set_ds (Some multiply_state) sample_node.
Definition multiply_reg := default (LwwReg.LwwReg.mkReg DistributedState.default_room 0 0) (DistributedState.rooms multiply_state !! 9).
Definition multiply_set := default (DistributedProofs.empty_set 0) (DistributedState.participants multiply_state !! 9).

(** Participant 70 is in room 9 already. *)
Lemma updates_multiply_witness :
  ∃ s', (process_state_updates (E:=GossipError) false [ParticipantAdded 9 70 (mkDot 2 50)];; us ← take_updates; forward_updates us) multiply_node = Ok ((), s') ∧
    piggyback_queue s' = piggyback_queue multiply_node ++ [ParticipantAdded 9 70 (mkDot 2 50); ParticipantAdded 9 70 (next_dot multiply_state)].
Proof.
  apply (updates_multiply 9 70 (mkDot 2 50) multiply_node multiply_state multiply_reg multiply_set);
    [by apply DistributedProofs.kept_broadcast, sample_state_inv|done|by vm_compute|done|done|by vm_compute|by vm_compute|by vm_compute|done|
     apply Nat.leb_le; by vm_compute].
Defined.

(** ** A ping that cannot be sent *)

Definition taken_updates s : nat := Nat.min (length (piggyback_queue s)) (max_piggyback_updates (config s)).

Lemma ask_run {E A C} (f : nat → A) (g : A → st SwimProtocol E C) s : (ask f ≫= g) s = g (f (env s)) (set_env (S (env s)) s).
Proof. done. Qed.

Lemma send_failed W msg dest s : net W (env s) = Failed →
  send W msg dest s = Err (TransportError, set_transport (record_send_error (tstats s)) (wire s) (set_env (S (env s)) s)).
Proof.
  intros Hn. unfold send. rewrite (lift_run _ _ _ _ (encode_run msg)). pose proof (body_length msg) as Hl.
  rewrite (lift_run _ _ _ ()) by (rewrite bool_decide_true; [done|cbn; lia]). rewrite (lift_run _ _ _ ()) by (by rewrite (proj2 (Z.leb_le _ _))).
  rewrite ask_run, Hn. done.
Qed.

(** When the ping of a probe cycle cannot be sent, the cycle ends there:
    no ping times out, no suspect is declared dead, the next probe is not
    scheduled, and the updates taken from the queue for the ping are lost. *)
Theorem failed_ping_ends_cycle W s p :
  wrapping_mul 64 (probe_interval_ms (config s)) 1000000 ≤ saturating_sub (now W (env s)) (last_probe_ns s) →
  get_random_alive_peer (E:=GossipError) (random W (S (env s))) (membership s) = Ok (Some p) → net W (S (S (env s))) = Failed →
  ∃ s', run_probe_cycle W false s = Err (TransportError, s') ∧ membership s' = membership s ∧ pending_pings s' = pending_pings s ∧
    last_probe_ns s' = last_probe_ns s ∧ distributed_state s' = distributed_state s ∧ wire s' = wire s ∧
    piggyback_queue s' = drop (taken_updates s) (piggyback_queue s).
Proof.
  intros Hdue Hp Hn. assert (Hal : peer_state p = Alive).
  { pose proof (random_peer_ok (E:=GossipError) (random W (S (env s))) (membership s)) as Hin. rewrite Hp in Hin.
    by destruct (proj1 (alive_spec _ _) (Hin p eq_refl)). }
  unfold run_probe_cycle. unfold current_time_ns. rewrite ask_run, get_run. cbn [config last_probe_ns set_env].
  unfold ms_ns, times. rewrite (bind_run _ _ _ _ _ eq_refl). rewrite (proj2 (Z.ltb_ge _ _)) by done.
  rewrite ask_run. cbn [env set_env membership]. rewrite (lift_run _ _ _ _ Hp).
  set (s1 := set_env (S (S (env s))) s). change (set_env (S (S (env s))) (set_env (S (env s)) s)) with s1.
  assert (Hsend : ∃ s', send_ping W p s1 = Err (TransportError, s') ∧ membership s' = membership s ∧ pending_pings s' = pending_pings s ∧
    last_probe_ns s' = last_probe_ns s ∧ distributed_state s' = distributed_state s ∧ wire s' = wire s ∧
    piggyback_queue s' = drop (taken_updates s) (piggyback_queue s)).
  { unfold send_ping. rewrite (lift_run _ _ _ ()) by (by rewrite bool_decide_true). unfold ping_message, get_piggyback_updates, Swim.count.
    unfold mbind at 1, st_bind at 1. rewrite get_run.
    erewrite bind_run; [|reflexivity]. cbv beta iota zeta. unfold mret, st_ret. unfold mbind at 1, st_bind at 1.
    rewrite send_failed by exact Hn. eexists. split; [done|]. done. }
  destruct Hsend as (s' & Hs & Hrest). exists s'. split; [|done]. unfold mbind at 1, st_bind at 1. by rewrite Hs.
Qed.

(** The network is down. *)
Definition dead_world : World := mkWorld (now sample_world) (random sample_world) (fun _ => Failed) (hash_order sample_world).
Definition waiting_node : SwimProtocol := set_queue [RelaySubscribe 4 5] sample_node.
Definition probed_peer : PeerInfo :=
  match get_random_alive_peer (E:=GossipError) (random dead_world (S (env waiting_node))) (membership waiting_node) with
  | Ok (Some p) => p | _ => mkPeer 0 (at_port 0) Dead 0 0 end.

Lemma failed_ping_ends_cycle_witness :
  ∃ s', run_probe_cycle dead_world false waiting_node = Err (TransportError, s') ∧ membership s' = membership waiting_node ∧
    pending_pings s' = pending_pings waiting_node ∧ last_probe_ns s' = last_probe_ns waiting_node ∧
    distributed_state s' = distributed_state waiting_node ∧ wire s' = wire waiting_node ∧
    piggyback_queue s' = drop (taken_updates waiting_node) (piggyback_queue waiting_node).
Proof.
  apply (failed_ping_ends_cycle dead_world waiting_node probed_peer); [by vm_compute|by vm_compute|done].
Defined.

End SwimEffects.
