(* ===== verification/SwimDetect.v ===== *)
(** * Failure detection

    What silent rounds of the gossip thread do to one peer: the ping that
    waits times out, the indirect probes time out, the peer is suspected, and
    in the end it is declared dead. *)

From stdpp Require Import strings.
From S2P Require Import Prelude Wp Model Crdt GossipWire GossipProofs DistributedState DistributedProofs Membership MembershipProofs Swim SwimProofs SwimTheorems.

Module SwimDetect.
Import Gossip GossipRoundTrip Membership MembershipProofs Swim SwimProofs SwimTheorems.
Implicit Types (s : SwimProtocol) (p q : PeerInfo) (x : PendingPing).

Lemma wlp_of_wp {S E A} (c : st S E A) (s : S) Q X : wp c s Q X → wlp c s Q X.
Proof. unfold run_to. by destruct (c s) as [[]|[]|]. Qed.

Section detect.
Context (W : World) (b : Z).
Context (sends : ∀ k, net W k ≠ Failed) (hash_perm : ∀ A k (l : list A), hash_order W A k l ≡ₚ l).

(** What the node holds of the peer. *)
Definition view s : option PeerInfo * option PendingPing := (find_peer (membership s) b, pending_pings s !! b).

Definition good s : Prop := wf (membership s) ∧ map_Forall (fun a _ => actor_ok a) (pending_pings s).

Definition onward s s' : Prop := (env s ≤ env s')%nat ∧ config s' = config s.

Lemma onward_refl s : onward s s.
Proof. done. Qed.

Lemma onward_trans s1 s2 s3 : onward s1 s2 → onward s2 s3 → onward s1 s3.
Proof. intros [] []. split; [lia|congruence]. Qed.

(** The code ends with a view that satisfies [P]. *)
Definition sees {E A} (P : option PeerInfo * option PendingPing → Prop) (c : st SwimProtocol E A) s : Prop :=
  wlp c s (fun _ s' => good s' ∧ P (view s') ∧ onward s s') (fun _ _ => False).

Lemma sees_bind {E A C} P Q (c : st SwimProtocol E A) (f : A → st SwimProtocol E C) s :
  sees P c s → (∀ a s', good s' → P (view s') → onward s s' → sees Q (f a) s') → sees Q (c ≫= f) s.
Proof.
  intros Hc Hf. apply wp_bind. eapply wp_mono; [exact Hc|]. intros a s' (Hg & HP & Ho). eapply wp_mono; [by apply Hf|].
  intros c' s'' (Hg' & HQ & Ho'). split; [done|]. split; [done|]. by eapply onward_trans.
Qed.

(** Code that touches neither the membership list nor the pings. *)
Definition still {E A} (c : st SwimProtocol E A) s : Prop :=
  wlp c s (fun _ s' => membership s' = membership s ∧ pending_pings s' = pending_pings s ∧ onward s s') (fun _ _ => False).

Lemma still_bind {E A C} (c : st SwimProtocol E A) (f : A → st SwimProtocol E C) s :
  still c s → (∀ a s', membership s' = membership s → pending_pings s' = pending_pings s → onward s s' → still (f a) s') → still (c ≫= f) s.
Proof.
  intros Hc Hf. apply wp_bind. eapply wp_mono; [exact Hc|]. intros a s' (Hm & Hp & Ho). eapply wp_mono; [by apply Hf|].
  intros c' s'' (Hm' & Hp' & Ho'). split; [congruence|]. split; [congruence|]. by eapply onward_trans.
Qed.

Lemma still_sees {E A} (c : st SwimProtocol E A) s : good s → still c s → sees (fun v => v = view s) c s.
Proof.
  intros Hg Hc. eapply wp_mono; [exact Hc|]. intros a s' (Hm & Hp & Ho). unfold good, view in *. by rewrite Hm, Hp.
Qed.

Lemma sees_still {E A C} Q (c : st SwimProtocol E A) (f : A → st SwimProtocol E C) s : good s → still c s →
  (∀ a s', good s' → membership s' = membership s → view s' = view s → sees Q (f a) s') → sees Q (c ≫= f) s.
Proof.
  intros Hg Hc Hf. apply wp_bind. eapply wp_mono; [exact Hc|]. intros a s' (Hm & Hp & Ho). eapply wp_mono.
  { apply (Hf a s'); [by unfold good; rewrite Hm, Hp|done|by unfold view; rewrite Hm, Hp]. }
  intros c' s'' (Hg' & HQ & Ho'). split; [done|]. split; [done|]. by eapply onward_trans.
Qed.

Lemma sees_get {E A} Q (f : SwimProtocol → st SwimProtocol E A) s : sees Q (f s) s → sees Q (get ≫= f) s.
Proof. done. Qed.

Lemma sees_assert {E A} Q c (f : () → st SwimProtocol E A) s : (c = true → sees Q (f ()) s) → sees Q (lift (assert_ c) ≫= f) s.
Proof. intros Hf. apply wp_bind, wlp_assert, Hf. Qed.

Lemma sees_done {E A} (Q : _ → Prop) (a : A) s : good s → Q (view s) → sees Q (mret a : st SwimProtocol E A) s.
Proof. intros Hg HQ. by apply wp_ret. Qed.

Lemma sees_modify {E} (Q : _ → Prop) (f : SwimProtocol → SwimProtocol) s : good (f s) → Q (view (f s)) → onward s (f s) →
  sees Q (modify f : st SwimProtocol E ()) s.
Proof. intros. by apply wp_modify. Qed.

Lemma still_ret {E A} (a : A) s : still (mret a : st SwimProtocol E A) s.
Proof. apply wp_ret. by split. Qed.

Lemma still_ask {E A} (f : nat → A) s : still (E:=E) (ask f) s.
Proof. unfold still, ask. wp. split; [done|]. split; [done|]. split; [cbn; lia|done]. Qed.

Lemma still_count {E} f s : still (Swim.count (E:=E) f) s.
Proof. by split. Qed.

Lemma still_ignore {A} (c : st SwimProtocol GossipError A) s : still c s → still (ignore c) s.
Proof.
  intros Hc. unfold ignore. apply wp_bind, wp_try. eapply wp_conseq; [exact Hc|..]; [intros a s' Hs; by apply wp_ret|done].
Qed.

Lemma send_still msg dest s : still (send W msg dest) s.
Proof.
  unfold send. apply wp_bind, wlp_lift; [intros bs _|intros e He; by rewrite encode_run in He].
  apply wp_bind, wlp_assert. intros _. apply wp_bind, wlp_assert. intros _.
  unfold ask. wp. specialize (sends (env s)). assert (Ho : onward s (set_env (S (env s)) s)) by (split; [cbn; lia|done]).
  destruct (net W (env s)); [by wp|by wp|done].
Qed.

Lemma send_all_still msg ps : ∀ s, still (send_all W msg ps) s.
Proof.
  induction ps as [|p ps IH]; intros s; [apply still_ret|]. cbn [send_all]. apply still_bind; [apply still_ignore, send_still|]. intros; apply IH.
Qed.

Lemma random_peers_still a s : still (random_peers W a) s.
Proof.
  unfold random_peers. apply still_bind; [apply still_ask|]. intros r s' _ _ _. apply wp_bind, wp_get, wlp_lift; [by split|].
  intros e He. pose proof (random_peers_ok (E:=GossipError) r (fanout (config s')) a (membership s')) as H. by rewrite He in H.
Qed.

Lemma updates_still {E} s : still (get_piggyback_updates (E:=E)) s.
Proof. unfold still, get_piggyback_updates, Swim.count. wp. by split. Qed.

Lemma ping_message_still s : still ping_message s.
Proof. unfold ping_message. apply wp_bind, wp_get. apply still_bind; [apply updates_still|]. intros; apply still_ret. Qed.

Lemma broadcast_suspect_still a i s : still (broadcast_suspect W a i) s.
Proof. apply still_bind; [apply random_peers_still|]. intros; apply send_all_still. Qed.

Lemma broadcast_dead_still a s : still (broadcast_dead W a) s.
Proof. apply still_bind; [apply random_peers_still|]. intros; apply send_all_still. Qed.

Lemma request_indirect_still a addr s : still (request_indirect_probes W a addr) s.
Proof. apply still_bind; [apply random_peers_still|]. intros. apply wp_bind, wp_get, send_all_still. Qed.

Lemma broadcast_deaths_still l : ∀ s, still (broadcast_deaths W l) s.
Proof.
  induction l as [|a l IH]; intros s; [apply still_ret|]. apply still_bind; [apply broadcast_dead_still|]. intros; apply IH.
Qed.

(** ** The pings that wait *)

(** The peer is not probed again: its ping waits, or it is not alive. *)
Definition not_probed (v : option PeerInfo * option PendingPing) : Prop := is_Some v.2 ∨ ∀ q, v.1 = Some q → peer_state q ≠ Alive.

Lemma good_pings pings s : wf (membership s) → map_Forall (fun a _ => actor_ok a) pings → good (set_pings pings s).
Proof. done. Qed.

Lemma send_ping_sees p s : good s → p ∈ get_alive_peers (membership s) → not_probed (view s) → sees (fun v => v = view s) (send_ping W p) s.
Proof.
  intros [Hwf Hpings] Hp Hn. apply alive_spec in Hp as [Hin Hal]. apply find_peer_elem in Hin as Hf; [|done].
  destruct (find_peer_ok _ _ _ Hwf Hf) as [_ (Hact & _)]. unfold send_ping. apply sees_assert. intros _.
  apply sees_still; [done|apply ping_message_still|]. intros msg s1 Hg1 _ Hv1. apply sees_still; [done|apply send_still|]. intros _ s2 Hg2 _ Hv2.
  apply sees_still; [done|apply still_count|]. intros _ s3 Hg3 _ Hv3. rewrite Hv1 in Hv2. rewrite Hv2 in Hv3.
  apply sees_get. destruct (pending_pings s3 !! peer_actor p) eqn:Hpend; [by apply sees_done|].
  apply sees_still; [done|apply still_ask|]. intros t s4 [Hw4 Hp4] _ Hv4.
  assert (Hne : peer_actor p ≠ b).
  { intros He. destruct Hn as [[y Hy]|Hn]; [|destruct (Hn p); [cbn; by rewrite <- He|done]].
    rewrite <- Hv3 in Hy. cbn in Hy. rewrite He in Hpend. congruence. }
  apply sees_modify; [split; [done|by apply map_Forall_insert_2]| |done].
  rewrite <- Hv3, <- Hv4. unfold view. cbn [membership pending_pings set_pings]. by rewrite lookup_insert_ne.
Qed.

(** A peer is suspected. *)
Definition suspected (t : Z) p : PeerInfo := if decide (peer_state p = Dead) then p else moved t Suspect (incarnation p) p.

Lemma suspect_sees t a p s : good s → find_peer (membership s) a = Some p →
  sees (fun v => v = (if decide (a = b) then Some (suspected t p) else find_peer (membership s) b, pending_pings s !! b))
    (ignore (on_members (mark_suspect t a (incarnation p)))) s.
Proof.
  intros [Hwf Hp] Hf. destruct (find_peer_ok _ _ _ Hwf Hf) as [Ha (Hact & Hself & Hi)]. rewrite Ha in Hact, Hself.
  unfold ignore. apply wp_bind, wp_try, wp_zoom, wlp_of_wp, mark_suspect_ok; [done..| |].
  - intros q m' Hq Hv Ho. rewrite Hf in Hq. injection Hq as <-. wp. split; [split; [apply Ho|done]|]. split; [|done].
    unfold view. cbn [membership set_membership pending_pings]. rewrite (only_find _ _ _ _ Ho). unfold suspected.
    repeat case_decide; try done. rename select (peer_state p = Dead) into Hd. by rewrite Hd in Hv.
  - intros e He. specialize (He p Hf). wp. split; [done|]. split; [|done]. unfold view. cbn [membership set_membership pending_pings].
    unfold suspected. case_decide as Hb; [|done]. rewrite <- Hb, Hf. rewrite decide_True; [done|].
    destruct (peer_state p); [|exfalso..|done]; unfold validate_transition in He; cbn in He; rewrite Z.geb_leb in He; by apply Z.leb_gt in He; lia.
Qed.

(** A timed-out ping of another peer. *)
Lemma timed_out_other now a x s : good s → a ≠ b → sees (fun v => v = view s) (ping_timed_out W now a x) s.
Proof.
  intros [Hwf Hp] Hne. unfold ping_timed_out. destruct (pp_indirect x).
  - apply (sees_bind (fun v => v = view s)).
    { apply sees_modify; [split; [done|by apply map_Forall_delete]| |done]. unfold view. cbn. by rewrite lookup_delete_ne. }
    intros _ s1 Hg1 Hv1 _. apply sees_get. apply (sees_bind (fun v => v = view s)).
    + destruct (find_peer (membership s1) a) as [p|] eqn:Hf; [|by apply sees_done]. apply sees_still; [done|apply still_ask|].
      intros t s2 Hg2 Hm2 Hv2. apply (sees_bind (fun v => v = view s)).
      { pose proof (suspect_sees t a p s2 Hg2) as Hs. rewrite Hm2 in Hs. specialize (Hs Hf). rewrite decide_False in Hs by done.
        rewrite <- Hv1, <- Hv2. unfold view. by rewrite Hm2. }
      intros _ s3 Hg3 Hv3 _. apply sees_still; [done|apply still_count|]. intros _ s4 Hg4 _ Hv4. rewrite <- Hv3, <- Hv4.
      apply still_sees; [done|apply broadcast_suspect_still].
    + intros _ s5 Hg5 Hv5 _. rewrite <- Hv5. apply still_sees; [done|apply still_count].
  - apply sees_still; [done|apply request_indirect_still|]. intros _ s1 [Hw1 Hp1] _ Hv1. destruct (pending_pings s1 !! a) as [y|] eqn:Hy.
    + apply sees_modify; rewrite Hy; [split; [done|]|rewrite <- Hv1; unfold view; cbn; by rewrite lookup_insert_ne|done].
      apply map_Forall_insert_2; [by apply (Hp1 a y)|done].
    + apply sees_modify; rewrite Hy; done.
Qed.

(** The first time-out of the peer's ping: indirect probes. *)
Lemma timed_out_direct now o x s : good s → pp_indirect x = false → view s = (o, Some x) →
  sees (fun v => v = (o, Some (mkPing (pp_target x) (pp_addr x) now true))) (ping_timed_out W now b x) s.
Proof.
  intros Hg Hx Hv. unfold ping_timed_out. rewrite Hx. apply sees_still; [done|apply request_indirect_still|]. intros _ s1 [Hw1 Hp1] _ Hv1.
  rewrite Hv in Hv1. injection Hv1 as Hv1 Hv2. apply sees_modify; rewrite Hv2; [split; [done|]| |done].
  - apply map_Forall_insert_2; [by apply (Hp1 b x)|done].
  - unfold view. cbn. by rewrite lookup_insert_eq, Hv1.
Qed.

(** The second one: suspicion. *)
Lemma timed_out_indirect now p x s : good s → pp_indirect x = true → view s = (Some p, Some x) →
  sees (fun v => ∃ t, v = (Some (suspected t p), None)) (ping_timed_out W now b x) s.
Proof.
  intros [Hwf Hp] Hx [= Hv1 Hv2]. unfold ping_timed_out. rewrite Hx. apply (sees_bind (fun v => v = (Some p, None))).
  { apply sees_modify; [split; [done|by apply map_Forall_delete]| |done]. unfold view. cbn. by rewrite lookup_delete_eq, Hv1. }
  intros _ s1 Hg1 [= Hf1 Hp1] _. apply sees_get. rewrite Hf1. apply (sees_bind (fun v => ∃ t, v = (Some (suspected t p), None))).
  - apply sees_still; [done|apply still_ask|]. intros t s2 Hg2 Hm2 Hv2'. apply (sees_bind (fun v => v = (Some (suspected t p), None))).
    { pose proof (suspect_sees t b p s2 Hg2) as Hs. rewrite Hm2 in Hs. specialize (Hs Hf1). rewrite decide_True in Hs by done.
      unfold view in Hv2'. injection Hv2' as _ Hpend. by rewrite Hpend, Hp1 in Hs. }
    intros _ s3 Hg3 Hv3 _. apply sees_still; [done|apply still_count|]. intros _ s4 Hg4 _ Hv4. rewrite Hv3 in Hv4.
    eapply wp_mono; [apply still_sees; [done|apply broadcast_suspect_still]|]. cbn beta. intros _ s5 (? & -> & ?). split; [done|]. split; [by exists t|done].
  - intros _ s5 Hg5 [t Hv5] _. eapply wp_mono; [apply still_sees; [done|apply still_count]|]. cbn beta. intros _ s6 (? & -> & ?).
    split; [done|]. split; [by exists t|done].
Qed.

Lemma pings_others now l : ∀ s, good s → b ∉ l.*1 → sees (fun v => v = view s) (pings_timed_out W now l) s.
Proof.
  induction l as [|[a x] l IH]; intros s Hg Hb; [by apply sees_done|]. cbn [pings_timed_out]. rewrite fmap_cons, not_elem_of_cons in Hb. destruct Hb as [Hne Hb].
  apply (sees_bind (fun v => v = view s)); [by apply timed_out_other|]. intros _ s' Hg' Hv _. rewrite <- Hv. by apply IH.
Qed.

(** The pings that time out are handled one by one, each peer's once. *)
Lemma pings_self (P : _ → Prop) now l x : ∀ s, good s → NoDup l.*1 → (b, x) ∈ l →
  (∀ s', good s' → view s' = view s → sees P (ping_timed_out W now b x) s') → sees P (pings_timed_out W now l) s.
Proof.
  induction l as [|[a y] l IH]; intros s Hg Hnd Hin HP; [by apply elem_of_nil in Hin|]. cbn [pings_timed_out]. rewrite fmap_cons, NoDup_cons in Hnd.
  destruct Hnd as [Hn Hnd]. apply elem_of_cons in Hin as [[= <- <-]|Hin].
  - apply (sees_bind P); [by apply HP|]. intros _ s' Hg' HPv _. eapply wp_mono; [by apply pings_others|]. cbn beta. intros _ s'' (? & -> & ?). done.
  - assert (a ≠ b) by (intros ->; apply Hn, list_elem_of_fmap; by exists (b, x)).
    apply (sees_bind (fun v => v = view s)); [by apply timed_out_other|]. intros _ s' Hg' Hv _. apply IH; [done..|].
    intros s'' Hg'' Hv''. apply HP; [done|congruence].
Qed.

Lemma pings_size s : good s → (length (map_to_list (pending_pings s)) ≤ MAX_PENDING_PINGS)%nat.
Proof.
  intros [_ Hp]. assert (Hs : (map_to_list (pending_pings s)).*1 ⊆ seqZ 0 256).
  { intros a ([a' x] & -> & Hin)%list_elem_of_fmap. apply elem_of_map_to_list in Hin. apply elem_of_seqZ. specialize (Hp _ _ Hin). unfold actor_ok, MAX_ACTORS in Hp. cbn in *. lia. }
  pose proof (submseteq_length _ _ (NoDup_submseteq _ _ (NoDup_fst_map_to_list (pending_pings s)) Hs)) as Hl. rewrite length_fmap, length_seqZ in Hl.
  unfold MAX_PENDING_PINGS, MAX_PEERS. lia.
Qed.

Definition timeout s : Z := wrapping_mul 64 (ping_timeout_ms (config s)) 1000000.
Definition due (now : Z) x s : Prop := timeout s < saturating_sub now (pp_sent x).

#[local] Instance due_dec now x s : Decision (due now x s).
Proof. unfold due. apply _. Defined.

(** The pings that time out now. *)
Definition timed_list (now : Z) k s : list (Z * PendingPing) :=
  take MAX_PENDING_PINGS (List.filter (fun e => saturating_sub now (pp_sent e.2) >? timeout s) (hash_order W _ k (map_to_list (pending_pings s)))).

Lemma NoDup_fst_filter {V} (f : Z * V → bool) (l : list (Z * V)) : NoDup l.*1 → NoDup (List.filter f l).*1.
Proof.
  induction l as [|[a x] l IH]; [done|]. rewrite fmap_cons, NoDup_cons. intros [Hn Hl]. cbn [List.filter].
  destruct (f (a, x)); [|by apply IH]. rewrite fmap_cons, NoDup_cons. split; [|by apply IH]. intros (e & He & Hin)%list_elem_of_fmap. apply Hn, list_elem_of_fmap.
  exists e. split; [done|]. by apply list_elem_of_In, filter_In, proj1, list_elem_of_In in Hin.
Qed.

Lemma timed_list_spec now k s : good s → NoDup (timed_list now k s).*1 ∧ ∀ x, (b, x) ∈ timed_list now k s ↔ pending_pings s !! b = Some x ∧ due now x s.
Proof.
  intros Hg. pose proof (pings_size s Hg) as Hl. pose proof (hash_perm _ k (map_to_list (pending_pings s))) as Hperm. unfold timed_list.
  rewrite take_ge by (etrans; [apply List.filter_length_le|by rewrite Hperm]). split.
  - apply NoDup_fst_filter. rewrite Hperm. apply NoDup_fst_map_to_list.
  - intros x. rewrite list_elem_of_In, filter_In, <- list_elem_of_In, Hperm, elem_of_map_to_list. cbn [snd]. unfold due. rewrite Z.gtb_ltb, Z.ltb_lt. done.
Qed.

(** The peer's ping after the time-outs of a cycle. *)
Lemma check_pings_sees (P : _ → Prop) now s : good s →
  (∀ x s', pending_pings s !! b = Some x → due now x s → good s' → view s' = view s → sees P (ping_timed_out W now b x) s') →
  ((∀ x, pending_pings s !! b = Some x → ¬ due now x s) → P (view s)) → sees P (check_ping_timeouts W false now) s.
Proof.
  intros Hg Hdue Hnot. unfold check_ping_timeouts. apply sees_get. unfold ms_ns, times. apply wp_bind. apply (wp_ok _ _ (timeout s) s); [done|].
  apply wp_bind. eapply (wp_ok _ _ _ s); [done|]. apply wp_bind, wp_put. cbv beta. set (s1 := set_indirect _ s).
  apply wp_bind. unfold ask. wp. set (s2 := set_env _ s1). change (pings_timed_out W now _) with (pings_timed_out W now (timed_list now (env s1) s)).
  destruct (timed_list_spec now (env s1) s Hg) as [Hnd Hin]. assert (Hg2 : good s2) by done. assert (Hv2 : view s2 = view s) by done.
  eapply (wp_mono _ _ (fun _ s' => good s' ∧ P (view s') ∧ onward s2 s')); [|intros _ s' (? & ? & Ho); split; [done|]; split; [done|]; eapply onward_trans; [|exact Ho]; split; [cbn; lia|done]].
  assert (Hothers : (∀ x, pending_pings s !! b = Some x → ¬ due now x s) → sees P (pings_timed_out W now (timed_list now (env s1) s)) s2).
  { intros Hn. eapply wp_mono; [apply pings_others; [done|]|cbn beta; intros _ s' (? & -> & ?); rewrite Hv2; auto].
    intros ([a y] & He & Hy)%list_elem_of_fmap. cbn in He. rewrite <- He in Hy. apply Hin in Hy as [Hy Hd]. by apply (Hn y). }
  destruct (pending_pings s !! b) as [x|] eqn:Hx; [destruct (decide (due now x s)) as [Hd|Hd]|].
  - apply (pings_self P now _ x); [done|done|by apply Hin|]. intros s' Hg' Hv'. apply Hdue; [done|done|done|congruence].
  - apply Hothers. by intros ? [= <-].
  - by apply Hothers.
Qed.

(** ** A round *)

Lemma declare_dead_sees now s o : good s → (view s).2 = o → sees (fun v => v = (expired now <$> (view s).1, o)) (declare_dead W now) s.
Proof.
  intros [Hwf Hp] Ho. unfold declare_dead. apply wp_bind, wp_zoom, wlp_of_wp, check_timeouts_ok; [done|]. intros dead m' Ht.
  assert (Hv : view (set_membership m' s) = (expired now <$> (view s).1, o)).
  { unfold view. cbn [membership set_membership pending_pings]. rewrite (to_find _ _ _ _ Ht), <- Ho. done. }
  assert (Hg : good (set_membership m' s)) by (split; [apply Ht|done]).
  cut (sees (fun v => v = (expired now <$> (view s).1, o)) (broadcast_deaths W dead;; Swim.count (count_dead (Z.of_nat (length dead)));; mret dead) (set_membership m' s)).
  { intros H. unfold sees in H. unfold run_to in *. by destruct ((broadcast_deaths W dead;; _) _) as [[]|[]|]. }
  rewrite <- Hv. apply sees_still; [done|apply broadcast_deaths_still|]. intros _ s1 Hg1 _ Hv1. rewrite <- Hv1.
  apply sees_still; [done|apply still_count|]. intros _ s2 Hg2 _ Hv2. by apply sees_done.
Qed.

Lemma anti_entropy_still now s : still (run_anti_entropy W false now) s.
Proof.
  unfold run_anti_entropy. apply wp_bind, wp_get, wp_bind. eapply (wp_ok _ _ _ s); [done|]. destruct (_ <? _); [apply still_ret|].
  apply still_bind; [by split|]. intros _ s1 _ _ _. apply still_bind; [apply still_ask|]. intros r s2 _ _ _. apply wp_bind, wp_get.
  apply still_bind.
  { apply wlp_lift; [by split|]. intros e He. pose proof (random_peer_ok (E:=GossipError) r (membership s2)) as H. by rewrite He in H. }
  intros [p|] s3 _ _ _; [|apply still_ret]. apply still_bind; [apply updates_still|]. intros us s4 _ _ _. apply still_ignore, send_still.
Qed.

Definition passed s s' : Prop := config s' = config s ∧ (env s < env s')%nat.

(** A cycle: the time-outs of the pings, then those of the suspects. *)
Lemma cycle_sees (P Q : _ → Prop) s : good s → not_probed (view s) →
  (∀ s1, good s1 → view s1 = view s → config s1 = config s → sees P (check_ping_timeouts W false (now W (env s))) s1) →
  (∀ v, P v → Q (expired (now W (env s)) <$> v.1, v.2)) →
  wlp (run_probe_cycle W false) s (fun _ s' => good s' ∧ Q (view s') ∧ passed s s') (fun _ _ => False).
Proof.
  intros Hg Hn HP HQ. unfold run_probe_cycle, current_time_ns, ask. apply wp_bind, wp_bind, wp_get, wp_bind, wp_put, wp_ret. set (t := now W (env s)) in *. set (s1 := set_env (S (env s)) s).
  assert (Hpass : ∀ {A} (c : st SwimProtocol GossipError A), sees Q c s1 → wlp c s1 (fun _ s' => good s' ∧ Q (view s') ∧ passed s s') (fun _ _ => False)).
  { intros A c Hc. eapply wp_mono; [exact Hc|]. intros a s' (? & ? & [He Hcfg]). split; [done|]. split; [done|]. split; [done|]. cbn in He. lia. }
  assert (Htail : ∀ s2, good s2 → view s2 = view s → config s2 = config s → sees Q (check_ping_timeouts W false t;; declare_dead W t) s2).
  { intros s2 Hg2 Hv2 Hc2. apply (sees_bind P); [by apply HP|]. intros _ s3 Hg3 HPv _.
    eapply wp_mono; [by apply declare_dead_sees|]. cbn beta. intros dead s4 (? & -> & ?). split; [done|]. split; [by apply HQ|done]. }
  apply wp_bind, wp_get. cbv beta. unfold ms_ns, times. do 2 apply wp_bind. apply wlp_assert. intros _. apply wp_ret. cbv beta. destruct (_ <? _); [apply Hpass, Htail; done|].
  apply wp_bind, wp_bind, wp_get, wp_bind, wp_put, wp_ret. set (s2 := set_env (S (env s1)) s1). assert (Hpass2 : ∀ {A} (c : st SwimProtocol GossipError A), sees Q c s2 →
    wlp c s2 (fun _ s' => good s' ∧ Q (view s') ∧ passed s s') (fun _ _ => False)).
  { intros A c Hc. eapply wp_mono; [exact Hc|]. intros a s' (? & ? & [He Hcfg]). split; [done|]. split; [done|]. split; [done|]. cbn in He. lia. }
  pose proof (random_peer_ok (E:=GossipError) (random W (env s1)) (membership s1)) as Hin. apply wp_bind.
  apply wlp_lift; [intros o Ho|intros e He; by rewrite He in Hin]. rewrite Ho in Hin. apply Hpass2.
  apply (sees_bind (fun v => v = view s)).
  { destruct o as [p|]; [|by apply sees_done]. by apply (send_ping_sees p s2); [|apply Hin|]. }
  intros _ s3 Hg3 Hv3 [_ Hc3]. apply (sees_bind (fun v => v = view s)); [by apply sees_modify|]. intros _ s4 Hg4 Hv4 [_ Hc4].
  apply (sees_bind P); [apply HP; [done|done|by rewrite Hc4, Hc3]|]. intros _ s5 Hg5 HP5 _.
  apply (sees_bind Q); [eapply wp_mono; [by apply declare_dead_sees|]; cbn beta; intros dead s6 (? & -> & ?); split; [done|]; split; [by apply HQ|done]|].
  intros dead s6 Hg6 HQ6 _. apply sees_still; [done|apply anti_entropy_still|]. intros _ s7 Hg7 _ Hv7. apply sees_done; [done|by rewrite Hv7].
Qed.

(** What comes before the cycle: no look at the clock. *)
Definition idle {E A} (c : st SwimProtocol E A) s : Prop :=
  wlp c s (fun _ s' => membership s' = membership s ∧ pending_pings s' = pending_pings s ∧ env s' = env s ∧ config s' = config s) (fun _ _ => False).

Lemma take_updates_idle {E} s : idle (take_updates (E:=E)) s.
Proof. unfold idle, take_updates. wp. destruct (distributed_state s) as [d|]; [|by wp]. by destruct (DistributedState.broadcast_tx d); wp. Qed.

Lemma forward_idle {E} us : ∀ s, idle (forward_updates (E:=E) us) s.
Proof.
  induction us as [|u us IH]; intros s; [by apply wp_ret|]. cbn [forward_updates]. apply wp_bind. unfold broadcast_state_update. wp. apply wlp_assert. intros _.
  eapply wp_mono; [apply IH|]. cbn beta. by intros _ s' (-> & -> & -> & ->).
Qed.

Lemma nodes_failed_still {E} l : ∀ s, still (nodes_failed (E:=E) W l) s.
Proof.
  induction l as [|a l IH]; intros s; [apply still_ret|]. cbn [nodes_failed]. apply wp_bind, wp_get. apply still_bind; [|intros; apply IH].
  destruct (distributed_state s) as [d|]; [|apply still_ret]. apply still_bind; [apply still_ask|]. intros order s1 _ _ _.
  apply wp_bind, wp_zoom. unfold DistributedState.handle_node_failure. apply wp_bind, wlp_assert. intros _. wp. apply wlp_assert. intros _. wp. by split.
Qed.

(** A round in which nothing arrives. *)
Lemma round_sees (P Q : _ → Prop) s go s' : good s → not_probed (view s) →
  (∀ s1, good s1 → view s1 = view s → config s1 = config s → sees P (check_ping_timeouts W false (now W (env s))) s1) →
  (∀ v, P v → Q (expired (now W (env s)) <$> v.1, v.2)) →
  iteration W false false Nothing s = Ok (go, s') → good s' ∧ Q (view s') ∧ passed s s'.
Proof.
  intros Hg Hn HP HQ Hrun.
  assert (H : wlp (iteration W false false Nothing) s (fun _ s' => good s' ∧ Q (view s') ∧ passed s s') (fun _ _ => False)); [|by unfold run_to in H; rewrite Hrun in H].
  unfold iteration. apply wp_bind. eapply wp_mono; [apply take_updates_idle|]. cbn beta. intros us s1 (Hm1 & Hp1 & He1 & Hc1). apply wp_bind.
  eapply wp_mono; [apply forward_idle|]. cbn beta. intros _ s2 (Hm2 & Hp2 & He2 & Hc2). rewrite Hm1 in Hm2. rewrite Hp1 in Hp2. rewrite He1 in He2. rewrite Hc1 in Hc2.
  assert (Hg2 : good s2) by (unfold good; by rewrite Hm2, Hp2). assert (Hv2 : view s2 = view s) by (unfold view; by rewrite Hm2, Hp2).
  apply wp_bind, wp_try. eapply wp_conseq; [apply (cycle_sees P Q); [done|by rewrite Hv2|..]|..]; cbn beta.
  - rewrite He2. intros s3 Hg3 Hv3 Hc3. apply HP; [done|congruence..].
  - by rewrite He2.
  - intros dead s3 (Hg3 & HQ3 & [Hc3 He3]). apply wp_bind. eapply wp_mono; [apply nodes_failed_still|]. cbn beta. intros _ s4 (Hm4 & Hp4 & [He4 Hc4]).
    unfold recv_loop_iteration, recv_raw. apply wp_bind, wp_try, wp_bind, wp_ret, wp_ret, wp_ret. unfold good, view, passed in *. rewrite Hm4, Hp4. split; [done|]. split; [done|]. split; [congruence|lia].
  - done.
Qed.

(** ** From the ping to the death of the peer *)

Context (HE : entropy W) (clock_passes : ∀ t, ∃ k, ∀ j, (k ≤ j)%nat → t < now W j).

(** Rounds in which nothing arrives. *)
Fixpoint silent_rounds (n : nat) : st SwimProtocol () () :=
  match n with O => mret () | S n => iteration W false false Nothing;; silent_rounds n end.

Definition ok s : Prop := node_inv s ∧ state_clock s < 2 ^ 64.

Lemma ok_good s : ok s → good s.
Proof. intros [[] _]. done. Qed.

Lemma round_exists s : ok s → ∃ go s', iteration W false false Nothing s = Ok (go, s') ∧ ok s'.
Proof.
  intros [Hi Hc]. destruct (wp_run (iteration W false false Nothing) s (fun _ s' => adv any_claim any_addr True None 0 s s') (fun _ _ => False)) as (go & s' & Hrun & Hadv).
  - apply (iteration_runs W any_claim any_addr True False (or_intror HE) (fun _ => I) any_next false Nothing s Hi I). cbn. lia.
  - done.
  - exists go, s'. split; [done|]. split; [apply Hadv|]. pose proof (adv_clock _ _ _ _ _ _ _ Hadv). lia.
Qed.

Lemma silent_S n s go s' : iteration W false false Nothing s = Ok (go, s') → silent_rounds (S n) s = silent_rounds n s'.
Proof. intros Hrun. cbn [silent_rounds]. unfold mbind, st_bind. by rewrite Hrun. Qed.

(** A stage that ends once the clock has passed [t]. *)
Lemma stage_ends (Stage Next : SwimProtocol → Prop) t :
  (∀ s go s', ok s → Stage s → iteration W false false Nothing s = Ok (go, s') →
     (env s < env s')%nat ∧ (Stage s' ∨ Next s') ∧ (t < now W (env s) → Next s')) →
  ∀ s, ok s → Stage s → ∃ n s', silent_rounds n s = Ok ((), s') ∧ ok s' ∧ Next s'.
Proof.
  intros Hround. destruct (clock_passes t) as [k Hk].
  assert (Hind : ∀ m s, (k ≤ env s + m)%nat → ok s → Stage s → ∃ n s', silent_rounds n s = Ok ((), s') ∧ ok s' ∧ Next s').
  { induction m as [|m IH]; intros s Hm Hs HS; destruct (round_exists s Hs) as (go & s' & Hrun & Hs');
      destruct (Hround s go s' Hs HS Hrun) as (He & Hstage & Hdone).
    - exists 1%nat, s'. split; [by erewrite silent_S|]. split; [done|]. apply Hdone, Hk. lia.
    - destruct Hstage as [HS'|HN]; [|exists 1%nat, s'; split; [by erewrite silent_S|done]].
      destruct (IH s' ltac:(lia) Hs' HS') as (n & s'' & Hn & Hrest). exists (S n), s''. split; [by erewrite silent_S|done]. }
  intros s. apply (Hind k). lia.
Qed.

Lemma silent_app n1 n2 s s1 r : silent_rounds n1 s = Ok ((), s1) → silent_rounds n2 s1 = r → silent_rounds (n1 + n2) s = r.
Proof.
  revert s. induction n1 as [|n1 IH]; intros s; cbn [silent_rounds Nat.add]; [by intros [= ->]|]. unfold mbind, st_bind.
  destruct (iteration W false false Nothing s) as [[]|[]|]; [apply IH|done..].
Qed.

Lemma timeout_nonneg s : 0 ≤ timeout s.
Proof. unfold timeout, wrapping_mul. apply (wrap_range 64). lia. Qed.

Lemma alive_not_expired t p : peer_state p = Alive → expired t p = p.
Proof. intros Ha. unfold expired, overdue. by rewrite Ha. Qed.

(** The ping waits; it times out; the helpers' pings time out; the suspicion
    does. *)
Definition waiting p x c s : Prop := view s = (Some p, Some x) ∧ peer_state p = Alive ∧ config s = c.
Definition suspect p s : Prop := view s = (Some p, None) ∧ peer_state p ≠ Alive.
Definition declared s : Prop := ∃ p, find_peer (membership s) b = Some p ∧ peer_state p = Dead.

Lemma view_of s p x : view s = (Some p, Some x) → pending_pings s !! b = Some x.
Proof. by intros [= _ H]. Qed.

Lemma same_timeout s s' : config s' = config s → timeout s' = timeout s.
Proof. unfold timeout. by intros ->. Qed.

(** A round in the first two stages: either nothing changes, or the ping is
    overdue. *)
Lemma waiting_round (Next : _ → Prop) p x c s go s' : ok s → waiting p x c s → iteration W false false Nothing s = Ok (go, s') →
  (∀ s1, good s1 → view s1 = view s → sees Next (ping_timed_out W (now W (env s)) b x) s1) →
  (env s < env s')%nat ∧
  (waiting p x c s' ∨ ∃ v, Next v ∧ view s' = (expired (now W (env s)) <$> v.1, v.2) ∧ config s' = c) ∧
  (pp_sent x + timeout s < now W (env s) → ∃ v, Next v ∧ view s' = (expired (now W (env s)) <$> v.1, v.2) ∧ config s' = c).
Proof.
  intros Hs (Hv & Ha & Hc) Hrun HN. set (t := now W (env s)) in *. pose proof (view_of _ _ _ Hv) as Hx.
  destruct (decide (due t x s)) as [Hd|Hd].
  - destruct (round_sees Next (fun v => ∃ w, Next w ∧ v = (expired t <$> w.1, w.2)) s go s') as (Hg & (w & Hw & Hv') & Hcfg & He); [by apply ok_good|left; rewrite Hv; by eexists| |by eauto|done|].
    { intros s1 Hg1 Hv1 Hc1. apply check_pings_sees; [done| |].
      - intros y s2 Hy _ Hg2 Hv2. rewrite Hv in Hv1. rewrite (view_of _ _ _ Hv1) in Hy. injection Hy as <-. apply HN; [done|congruence].
      - intros Hno. destruct (Hno x); [rewrite Hv in Hv1; by eapply view_of|]. unfold due in *. by rewrite (same_timeout s s1). }
    assert (∃ v, Next v ∧ view s' = (expired t <$> v.1, v.2) ∧ config s' = c) by (exists w; split; [done|]; split; [done|congruence]). auto.
  - destruct (round_sees (fun v => v = view s) (fun v => v = view s) s go s') as (Hg & Hv' & Hcfg & He); [by apply ok_good|left; rewrite Hv; by eexists| | |done|].
    { intros s1 Hg1 Hv1 Hc1. apply check_pings_sees; [done| |done]. intros y s2 Hy Hdy _ _. rewrite Hv in Hv1. rewrite (view_of _ _ _ Hv1) in Hy. injection Hy as <-.
      destruct Hd. unfold due in *. by rewrite (same_timeout s s1) in Hdy. }
    { intros v ->. rewrite Hv. cbn. by rewrite alive_not_expired. }
    split; [done|]. split; [left; split; [congruence|]; split; [done|congruence]|]. intros Hlt. destruct Hd. unfold due, saturating_sub. pose proof (timeout_nonneg s). lia.
Qed.

Lemma direct_stage p x s : ok s → waiting p x (config s) s → pp_indirect x = false →
  ∃ n s', silent_rounds n s = Ok ((), s') ∧ ok s' ∧ ∃ x', pp_indirect x' = true ∧ waiting p x' (config s') s'.
Proof.
  intros Hs Hw Hx. eapply (stage_ends (waiting p x (config s)) _ (pp_sent x + timeout s)); [|done|done].
  intros s1 go s1' Hs1 Hw1 Hrun. destruct (waiting_round (fun v => ∃ x', pp_indirect x' = true ∧ v = (Some p, Some x')) p x (config s) s1 go s1') as (He & Hor & Hdone); [done..| |].
  { intros s2 Hg2 Hv2. destruct Hw1 as (Hv1 & _). eapply wp_mono; [apply (timed_out_direct _ (Some p)); [done|done|congruence]|].
    cbn beta. intros _ s3 (? & Hv3 & ?). split; [done|]. split; [|done]. eexists. by split; [|exact Hv3]. }
  assert (Hnext : (∃ v, (∃ x', pp_indirect x' = true ∧ v = (Some p, Some x')) ∧ view s1' = (expired (now W (env s1)) <$> v.1, v.2) ∧ config s1' = config s) →
            ∃ x', pp_indirect x' = true ∧ waiting p x' (config s1') s1').
  { intros (v & (x' & Hx' & ->) & Hv & Hc). exists x'. split; [done|]. destruct Hw1 as (_ & Ha & _). cbn in Hv. rewrite alive_not_expired in Hv by done. done. }
  split; [done|]. split; [tauto|]. destruct Hw1 as (_ & _ & Hc1). rewrite <- (same_timeout s s1 Hc1). by auto.
Qed.

Lemma indirect_stage p x s : ok s → waiting p x (config s) s → pp_indirect x = true →
  ∃ n s', silent_rounds n s = Ok ((), s') ∧ ok s' ∧ ∃ q, suspect q s'.
Proof.
  intros Hs Hw Hx. eapply (stage_ends (waiting p x (config s)) _ (pp_sent x + timeout s)); [|done|done].
  intros s1 go s1' Hs1 Hw1 Hrun. destruct (waiting_round (fun v => ∃ t, v = (Some (suspected t p), None)) p x (config s) s1 go s1') as (He & Hor & Hdone); [done..| |].
  { intros s2 Hg2 Hv2. destruct Hw1 as (Hv1 & _). apply timed_out_indirect; [done|done|congruence]. }
  assert (Hnext : (∃ v, (∃ t, v = (Some (suspected t p), None)) ∧ view s1' = (expired (now W (env s1)) <$> v.1, v.2) ∧ config s1' = config s) → ∃ q, suspect q s1').
  { intros (v & (t & ->) & Hv & Hc). destruct Hw1 as (_ & Ha & _). cbn in Hv. eexists. split; [exact Hv|].
    unfold expired, suspected. rewrite Ha. cbn. by destruct (overdue _ _). }
  split; [done|]. split; [tauto|]. destruct Hw1 as (_ & _ & Hc1). rewrite <- (same_timeout s s1 Hc1). by auto.
Qed.

Lemma suspect_stage q s : ok s → suspect q s → ∃ n s', silent_rounds n s = Ok ((), s') ∧ ok s' ∧ declared s'.
Proof.
  intros Hs Hq. destruct (decide (peer_state q = Dead)) as [Hd|Hd].
  { exists 0%nat, s. split; [done|]. split; [done|]. destruct Hq as [[= Hf _] _]. by exists q. }
  eapply (stage_ends (fun s => suspect q s) declared (last_seen_ns q + SUSPECT_TIMEOUT_MS * 1000000)); [|done|done].
  intros s1 go s1' Hs1 [Hv1 Hna] Hrun. set (t := now W (env s1)).
  destruct (round_sees (fun v => v = view s1) (fun v => v = (Some (expired t q), None)) s1 go s1') as (Hg & Hv' & Hcfg & He); [by apply ok_good| | | |done|].
  { right. rewrite Hv1. by intros ? [= <-]. }
  { intros s2 Hg2 Hv2 Hc2. apply check_pings_sees; [done| |done]. intros y s3 Hy. rewrite Hv1 in Hv2. injection Hv2 as _ Hn. congruence. }
  { intros v ->. by rewrite Hv1. }
  assert (Hsus : peer_state q = Suspect) by (by destruct (peer_state q)).
  split; [done|]. unfold expired in Hv'. destruct (overdue t q) eqn:Ho.
  - assert (declared s1') by (injection Hv' as Hf _; by eexists). auto.
  - split; [by left|]. intros Hlt. unfold overdue in Ho. rewrite Hsus in Ho. cbn [andb] in Ho. rewrite bool_decide_true in Ho by done. cbn [andb] in Ho.
    rewrite Z.gtb_ltb in Ho. apply Z.ltb_ge in Ho. unfold saturating_sub in Ho. unfold SUSPECT_TIMEOUT_MS in *. fold t in Hlt. lia.
Qed.

End detect.

(** C30: A peer that falls silent is declared dead. Once a ping to an alive
    peer waits for its answer, and nothing arrives any more, the node keeps
    going round without a panic and, after finitely many rounds, holds the
    peer for Dead: when no send fails, the random source answers, the clock
    goes on, and a hash map yields each of its entries. *)
Theorem silent_peer_dies W b s p x :
  entropy W → (∀ k, net W k ≠ Failed) → (∀ A k (l : list A), hash_order W A k l ≡ₚ l) → (∀ t, ∃ k, ∀ j, (k ≤ j)%nat → t < now W j) →
  node_inv s → state_clock s < 2 ^ 64 →
  find_peer (membership s) b = Some p → peer_state p = Alive → pending_pings s !! b = Some x →
  ∃ n s' p', silent_rounds W n s = Ok ((), s') ∧ find_peer (membership s') b = Some p' ∧ peer_state p' = Dead.
Proof.
  intros HE Hsend Hhash Hclock Hi Hc Hf Ha Hx. assert (Hs : ok s) by done. assert (Hw : waiting b p x (config s) s) by (unfold waiting, view; by rewrite Hf, Hx).
  assert (Hend : ∀ n1 s1 y, silent_rounds W n1 s = Ok ((), s1) → ok s1 → pp_indirect y = true → waiting b p y (config s1) s1 →
    ∃ n s' p', silent_rounds W n s = Ok ((), s') ∧ find_peer (membership s') b = Some p' ∧ peer_state p' = Dead).
  { intros n1 s1 y Hn1 Hs1 Hy Hw1. destruct (indirect_stage W b Hsend Hhash HE Hclock p y s1 Hs1 Hw1 Hy) as (n2 & s2 & Hn2 & Hs2 & q & Hq).
    destruct (suspect_stage W b Hsend Hhash HE Hclock q s2 Hs2 Hq) as (n3 & s3 & Hn3 & Hs3 & p' & Hp' & Hd).
    exists (n1 + (n2 + n3))%nat, s3, p'. split; [|done]. eapply silent_app; [exact Hn1|]. by eapply silent_app. }
  destruct (pp_indirect x) eqn:Hind; [by apply (Hend 0%nat s x)|].
  destruct (direct_stage W b Hsend Hhash HE Hclock p x s Hs Hw Hind) as (n1 & s1 & Hn1 & Hs1 & y & Hy & Hw1). by apply (Hend n1 s1 y).
Qed.

Definition sample_peer : PeerInfo := default (mkPeer 2 (at_port 0) Dead 0 0) (find_peer (membership sample_node) 2).
Definition sample_wait : PendingPing := default (mkPing 2 (at_port 0) 0 true) (pending_pings sample_node !! 2).

Lemma silent_peer_dies_witness :
  ∃ n s' p', silent_rounds sample_world n sample_node = Ok ((), s') ∧ find_peer (membership s') 2 = Some p' ∧ peer_state p' = Dead.
Proof.
  apply (silent_peer_dies sample_world 2 sample_node sample_peer sample_wait); [apply sample_entropy|done|done| |..].
  - intros t. exists (Z.to_nat t). intros j Hj. cbn [now sample_world]. lia.
  - apply (reachable_inv sample_world 10), sample_reachable.
  - by vm_compute.
  - by vm_compute.
  - by vm_compute.
  - by vm_compute.
Defined.

End SwimDetect.
