(* ===== verification/Handshake.v ===== *)
(** * The DTLS handshake of a session

    [src/orchestrator/dtls.rs]: one session's handshake on the control plane,
    with the key material of [crates/nexus-transport/src/dtls/srtp_keys.rs].
    The OpenSSL engine is the parameter [DtlsEngine]: each of its calls gives
    a result and the engine afterwards. *)

From stdpp Require Import strings.
From S2P Require Import Prelude Wp Keys Model.

Inductive DtlsRole := Client | Server.

#[export] Instance DtlsRole_eq_dec : EqDecision DtlsRole.
Proof. solve_decision. Defined.

Module Handshake.

(** ** Key material of the handshake *)

Inductive SrtpProfile := Aes128CmHmacSha1_80 | Aes128CmHmacSha1_32 | AeadAes128Gcm | AeadAes256Gcm.

Definition key_length (p : SrtpProfile) : nat := match p with AeadAes256Gcm => 32 | _ => 16 end.
Definition salt_length (p : SrtpProfile) : nat :=
  match p with Aes128CmHmacSha1_80 | Aes128CmHmacSha1_32 => 14 | _ => 12 end.

Definition protection_profile (p : SrtpProfile) : Keys.ProtectionProfile :=
  match p with
  | Aes128CmHmacSha1_80 => Keys.Aes128CmHmacSha1_80
  | Aes128CmHmacSha1_32 => Keys.Aes128CmHmacSha1_32
  | AeadAes128Gcm => Keys.AeadAes128Gcm
  | AeadAes256Gcm => Keys.AeadAes256Gcm
  end.

(** The keys are arrays of 32 bytes, the salts arrays of 14. *)
Record SrtpKeyMaterial := mkSrtpKeys {
  client_master_key : list Z;
  client_master_key_len : nat;
  server_master_key : list Z;
  server_master_key_len : nat;
  client_master_salt : list Z;
  client_master_salt_len : nat;
  server_master_salt : list Z;
  server_master_salt_len : nat;
  srtp_profile : SrtpProfile;
}.

Definition client_key {E} (k : SrtpKeyMaterial) : outcome E (list Z) := slice 0 (client_master_key_len k) (client_master_key k).
Definition server_key {E} (k : SrtpKeyMaterial) : outcome E (list Z) := slice 0 (server_master_key_len k) (server_master_key k).
Definition client_salt {E} (k : SrtpKeyMaterial) : outcome E (list Z) := slice 0 (client_master_salt_len k) (client_master_salt k).
Definition server_salt {E} (k : SrtpKeyMaterial) : outcome E (list Z) := slice 0 (server_master_salt_len k) (server_master_salt k).

End Handshake.

(** ** The engine *)

(** [OpenSslDtlsEngine] and [DtlsCertificate]. *)
Class DtlsEngine := {
  Certificate : Type;
  Engine : Type;
  DtlsError : Type;
  invalid_state : string → DtlsError;
  with_certificate : DtlsRole → Certificate → Engine;
  start_handshake : Engine → (DtlsError + list Z) * Engine;
  engine_process : list Z → Engine → (DtlsError + list Z) * Engine;
  engine_timeout : Engine → (DtlsError + list Z) * Engine;
  is_established : Engine → bool;
  peer_fingerprint : Engine → option (list Z);
  srtp_keys : Engine → option Handshake.SrtpKeyMaterial;
  cert_fingerprint : Certificate → list Z;
}.

Module Dtls.
Import Handshake.

Definition RECORD_HEADER_LEN : nat := 13.
Definition CONTENT_TYPE_HANDSHAKE : Z := 22.
Definition HANDSHAKE_CLIENT_HELLO : Z := 1.
Definition DTLS_MTU : nat := 1200.
Definition MAX_BIO_READ : nat := Z.to_nat 16384.

Record Progress := mkProgress { datagrams : list (list Z); completed : bool }.
Definition no_progress : Progress := mkProgress [] false.

(** Where the handshake is. *)
Inductive State := Running | Complete | Failed | Freed.

#[export] Instance State_eq_dec : EqDecision State.
Proof. solve_decision. Defined.

Section handshake.
Context `{DtlsEngine}.

Inductive HandshakeError :=
| InvalidDatagram (len : nat)
| RoleConflict (fixed answer : DtlsRole)
| ZeroFingerprint
| FingerprintMismatch
| EngineError (e : DtlsError)
| KeysUnavailable (why : string)
| AlreadyFailed.

Record DtlsHandshake := mkHandshake {
  certificate : Certificate;
  engine : option Engine;
  role : option DtlsRole;
  remote_fingerprint : option (list Z);
  address_selected : bool;
  hs_state : State;
}.

Definition set_engine (v : option Engine) (h : DtlsHandshake) : DtlsHandshake :=
  mkHandshake (certificate h) v (role h) (remote_fingerprint h) (address_selected h) (hs_state h).
Definition set_role (v : DtlsRole) (h : DtlsHandshake) : DtlsHandshake :=
  mkHandshake (certificate h) (engine h) (Some v) (remote_fingerprint h) (address_selected h) (hs_state h).
Definition set_remote_fingerprint (v : list Z) (h : DtlsHandshake) : DtlsHandshake :=
  mkHandshake (certificate h) (engine h) (role h) (Some v) (address_selected h) (hs_state h).
Definition set_address_selected (h : DtlsHandshake) : DtlsHandshake :=
  mkHandshake (certificate h) (engine h) (role h) (remote_fingerprint h) true (hs_state h).
Definition set_state (v : State) (h : DtlsHandshake) : DtlsHandshake :=
  mkHandshake (certificate h) (engine h) (role h) (remote_fingerprint h) (address_selected h) v.

Definition new (c : Certificate) : DtlsHandshake := mkHandshake c None None None false Running.

Definition is_complete (h : DtlsHandshake) : bool := match hs_state h with Complete | Freed => true | _ => false end.
Definition is_failed (h : DtlsHandshake) : bool := bool_decide (hs_state h = Failed).
Definition holds_ssl (h : DtlsHandshake) : bool := is_some (engine h).

(** ** Datagrams *)

Definition is_client_hello (d : list Z) : outcome HandshakeError bool :=
  if bool_decide (length d ≤ RECORD_HEADER_LEN)%nat then Ok false else
  b0 ← idx d 0;
  if negb (b0 =? CONTENT_TYPE_HANDSHAKE) then Ok false else
  b3 ← idx d 3;
  if negb (b3 =? 0) then Ok false else
  b4 ← idx d 4;
  if negb (b4 =? 0) then Ok false else
  m ← idx d RECORD_HEADER_LEN;
  Ok (m =? HANDSHAKE_CLIENT_HELLO).

(** A record goes into the last datagram if it fits, else into a new one. *)
Definition pack (record : list Z) (ds : list (list Z)) : list (list Z) :=
  match last ds with
  | Some l => if bool_decide (length l + length record ≤ DTLS_MTU)%nat then removelast ds ++ [l ++ record] else ds ++ [record]
  | None => ds ++ [record]
  end.

(** The loop over the records; [Panic] when the fuel runs out. *)
Fixpoint split_from (fuel : nat) (records : list Z) (ds : list (list Z)) : outcome HandshakeError (list (list Z)) :=
  if bool_decide (records = []) then Ok ds else
  match fuel with
  | O => Panic
  | S fuel =>
    fail_if (bool_decide (length records < RECORD_HEADER_LEN)%nat)
      (EngineError (invalid_state "truncated DTLS record header in engine output"));;
    b11 ← idx records 11;
    b12 ← idx records 12;
    let len := (RECORD_HEADER_LEN + Z.to_nat (of_be [b11; b12]))%nat in
    fail_if (bool_decide (length records < len)%nat)
      (EngineError (invalid_state "truncated DTLS record in engine output"));;
    record ← slice 0 len records;
    rest ← slice len (length records) records;
    split_from fuel rest (pack record ds)
  end.

(** Each pass takes a record: the length of the input is enough fuel. *)
Definition split_records (records : list Z) : outcome HandshakeError (list (list Z)) :=
  split_from (length records) records [].

(** ** The steps of the handshake *)

Definition step := st DtlsHandshake HandshakeError.

Definition check_usable : step () :=
  h ← get; if bool_decide (hs_state h = Failed) then throw AlreadyFailed else mret ().

(** An error fails the handshake for good. *)
Definition fail_on_error {A} (m : step A) : step A :=
  fun h => match m h with
           | Ok r => Ok r
           | Err (e, h') => Err (e, set_engine None (set_state Failed h'))
           | Panic => Panic
           end.

(** A call of the engine: its result, the engine it leaves. *)
Definition on_engine (f : Engine → (DtlsError + list Z) * Engine) (e : Engine) : step (list Z) :=
  let '(r, e') := f e in
  modify (set_engine (Some e'));;
  match r with inl x => throw (EngineError x) | inr out => mret out end.

Definition start_engine (r : DtlsRole) : step (list (list Z)) :=
  h ← get;
  lift (assert_ (negb (is_some (engine h))));;
  let '(res, e) := start_handshake (with_certificate r (certificate h)) in
  match res with
  | inl x => throw (EngineError x)
  | inr out => modify (set_engine (Some e));; lift (split_records out)
  end.

Definition check_completion : step bool :=
  h ← get;
  match engine h with
  | None => mret false
  | Some e =>
    if negb (bool_decide (hs_state h = Running)) || negb (is_established e) then mret false else
    match remote_fingerprint h with
    | None => mret false
    | Some pinned =>
      if bool_decide (peer_fingerprint e = Some pinned)
      then modify (set_state Complete);; mret true
      else throw FingerprintMismatch
    end
  end.

(** Once the role is known the engine starts: a server at once, a client when
    there is an address to send to. *)
Definition start_if_idle (r : DtlsRole) : step (list (list Z)) :=
  h ← get;
  if negb (bool_decide (hs_state h = Running) && negb (is_some (engine h))) then mret [] else
  if bool_decide (r = Server) then start_engine Server;; mret []
  else if address_selected h then start_engine Client
  else mret [].

Definition apply_answer (r : DtlsRole) (fingerprint : list Z) : step Progress :=
  if forallb (fun b => b =? 0) fingerprint then throw ZeroFingerprint else
  h ← get;
  match remote_fingerprint h with
  | Some pinned => if bool_decide (pinned = fingerprint) then modify (set_remote_fingerprint fingerprint) else throw FingerprintMismatch
  | None => modify (set_remote_fingerprint fingerprint)
  end;;
  match role h with
  | Some fixed => if bool_decide (fixed = r) then modify (set_role r) else throw (RoleConflict fixed r)
  | None => modify (set_role r)
  end;;
  ds ← start_if_idle r;
  c ← check_completion;
  mret (mkProgress ds c).

Definition on_answer (r : DtlsRole) (fingerprint : list Z) : step Progress :=
  check_usable;; fail_on_error (apply_answer r fingerprint).

Definition on_address_selected : step Progress :=
  check_usable;;
  modify set_address_selected;;
  h ← get;
  if bool_decide (hs_state h = Running) && negb (is_some (engine h)) && bool_decide (role h = Some Client)
  then ds ← fail_on_error (start_engine Client); mret (mkProgress ds false)
  else mret no_progress.

(** Without an engine only a ClientHello goes on, and starts it as a server. *)
Definition starts_here (d : list Z) : step bool :=
  h ← get;
  if is_some (engine h) then mret true else
  if bool_decide (role h = Some Client) then mret false else
  hello ← lift (is_client_hello d);
  if hello : bool then modify (set_role Server);; start_engine Server;; mret true else mret false.

Definition feed (d : list Z) : step Progress :=
  hello ← starts_here d;
  if negb hello then mret no_progress else
  h ← get;
  e ← lift (expect (engine h));
  output ← on_engine (engine_process d) e;
  ds ← lift (split_records output);
  c ← check_completion;
  mret (mkProgress ds c).

Definition process (d : list Z) : step Progress :=
  if bool_decide (d = []) || bool_decide (MAX_BIO_READ < length d)%nat then throw (InvalidDatagram (length d)) else
  check_usable;;
  h ← get;
  if bool_decide (hs_state h = Freed) then mret no_progress else
  fail_on_error (feed d).

Definition handle_timeout : step (list (list Z)) :=
  check_usable;;
  h ← get;
  match engine h with
  | None => mret []
  | Some e =>
    if negb (bool_decide (hs_state h = Running)) then mret [] else
    fail_on_error (output ← on_engine engine_timeout e; lift (split_records output))
  end.

(** Drops the engine of a handshake that is complete. *)
Definition free_ssl : step bool :=
  h ← get;
  if negb (bool_decide (hs_state h = Complete)) then mret false else
  modify (set_engine None);;
  modify (set_state Freed);;
  h ← get;
  lift (assert_ (negb (is_some (engine h)) && is_complete h));;
  mret true.

(** ** The keys *)

Definition direction_key (k : SrtpKeyMaterial) (key salt : list Z) : outcome HandshakeError Keys.KeyMaterial :=
  let p := srtp_profile k in
  fail_if (negb (bool_decide (length key = key_length p ∧ length salt = salt_length p)))
    (KeysUnavailable "key length does not match the profile");;
  fail_if (forallb (fun b => b =? 0) key || forallb (fun b => b =? 0) salt) (KeysUnavailable "all-zero key material");;
  m ← copy_at 0 key (replicate 46 0);
  m ← copy_at (length key) salt m;
  used ← slice 0 (length key + length salt) m;
  map_err (fun _ => KeysUnavailable "invalid key material") (Keys.from_dtls_export used (protection_profile p)).

Definition srtp_install (h : DtlsHandshake) : outcome HandshakeError SrtpInstall :=
  fail_if (negb (bool_decide (hs_state h = Complete))) (KeysUnavailable "handshake not complete");;
  e ← of_option (KeysUnavailable "no engine") (engine h);
  k ← of_option (KeysUnavailable "no key material") (srtp_keys e);
  r ← of_option (KeysUnavailable "no role") (role h);
  ck ← client_key k;
  cs ← client_salt k;
  client ← direction_key k ck cs;
  sk ← server_key k;
  ss ← server_salt k;
  server ← direction_key k sk ss;
  let install := match r with Server => mkInstall server client | Client => mkInstall client server end in
  same ← map_err (fun _ => KeysUnavailable "") (Keys.material_eq (local_key install) (remote_key install));
  assert_ (negb same);;
  Ok install.

End handshake.
End Dtls.
