(* ===== verification/Transports.v ===== *)
(** * Tables of the control plane

    [src/orchestrator/ids.rs], [transports.rs] and [tracks.rs]: identifiers,
    the outbound SSRCs of a session, the transports by session and by
    participant, and the published tracks. What the operating system gives
    (the clock, random numbers) is an argument. *)

From stdpp Require Import strings sorting.
From S2P Require Import Prelude Wp Keys Model Handshake.

(** The bytes of a string. *)
Definition as_bytes (s : string) : list Z := (fun c => Z.of_N (Ascii.N_of_ascii c)) <$> String.list_ascii_of_string s.

(** Ids in increasing order. *)
Definition sort_ids (l : list Z) : list Z := merge_sort Z.le l.

(** ** Identifiers *)

Module Ids.

Record IdAllocator := mkIds { next_session : Z; next_track : Z; next_subscription : Z }.

Definition new : IdAllocator := mkIds 1 1 1.

Definition bump {E} (counter : Z) : outcome E (Z * Z) :=
  assert_ (negb (counter =? 0));;
  next ← expect (if counter + 1 <? 2 ^ 64 then Some (counter + 1) else None);
  assert_ (next >? counter);;
  Ok (counter, next).

Definition session {E} : st IdAllocator E SessionId :=
  i ← get;
  '(v, n) ← lift (bump (next_session i));
  put (mkIds n (next_track i) (next_subscription i));;
  lift (id_new v).

Definition track {E} : st IdAllocator E TrackId :=
  i ← get;
  '(v, n) ← lift (bump (next_track i));
  put (mkIds (next_session i) n (next_subscription i));;
  lift (id_new v).

Definition subscription {E} : st IdAllocator E SubscriptionId :=
  i ← get;
  '(v, n) ← lift (bump (next_subscription i));
  put (mkIds (next_session i) (next_track i) n);;
  lift (id_new v).

End Ids.

(** ** Outbound SSRCs *)

Module Ssrcs.

Definition MAX_PEER_SSRCS : nat := 64.
Definition MAX_OUT_SSRC_OFFSET : Z := 2 ^ 31 - 1.
Definition ALLOCATE_TRIES : nat := MAX_PEER_SSRCS + 2.

Record SsrcAllocator := mkSsrcs {
  base : Z;
  next_offset : Z;
  high_water : Z;
  peer_ssrcs : list Z;
}.

Definition set_next (v : Z) (a : SsrcAllocator) : SsrcAllocator := mkSsrcs (base a) v (high_water a) (peer_ssrcs a).
Definition set_high_water (v : Z) (a : SsrcAllocator) : SsrcAllocator := mkSsrcs (base a) (next_offset a) v (peer_ssrcs a).
Definition set_peers (v : list Z) (a : SsrcAllocator) : SsrcAllocator := mkSsrcs (base a) (next_offset a) (high_water a) v.

Definition new {E} (b : Z) : outcome E SsrcAllocator :=
  assert_ (negb (b =? 0));; Ok (mkSsrcs b 1 0 []).

(** The first non-zero draw, of at most [tries] from the [k]-th on. *)
Fixpoint with_draw {E} (tries k : nat) (draw : nat → Z) : outcome E SsrcAllocator :=
  match tries with
  | O => new 1
  | S tries => let b := draw k in if negb (b =? 0) then new b else with_draw tries (S k) draw
  end.

Definition random {E} (draw : nat → Z) : outcome E SsrcAllocator := with_draw 16 0 (fun k => wrap 32 (draw k)).

Definition offset_of (a : SsrcAllocator) (ssrc : Z) : Z := wrapping_sub 32 ssrc (base a).

Definition note_peer_ssrc {E} (ssrc : Z) : st SsrcAllocator E bool :=
  a ← get;
  if offset_of a ssrc <? next_offset a then mret false else
  (if bool_decide (ssrc ∉ peer_ssrcs a) && bool_decide (length (peer_ssrcs a) < MAX_PEER_SSRCS)%nat
   then put (set_peers (peer_ssrcs a ++ [ssrc]) a) else mret ());;
  mret true.

Fixpoint allocate_from {E} (tries : nat) (offset : Z) : st SsrcAllocator E (option Z) :=
  match tries with
  | O => mret None
  | S tries =>
    if offset >? MAX_OUT_SSRC_OFFSET then mret None else
    a ← get;
    let ssrc := wrapping_add 32 (base a) offset in
    if negb (ssrc =? 0) && bool_decide (ssrc ∉ peer_ssrcs a) then
      lift (assert_ ((offset >=? next_offset a) && (offset >? high_water a)));;
      put (set_next (offset + 1) a);;
      mret (Some ssrc)
    else allocate_from tries (offset + 1)
  end.

Definition allocate {E} : st SsrcAllocator E (option Z) :=
  a ← get; allocate_from ALLOCATE_TRIES (next_offset a).

Definition mark_registered {E} (ssrc : Z) : st SsrcAllocator E () :=
  a ← get;
  let offset := offset_of a ssrc in
  lift (assert_ (offset >? high_water a));;
  lift (assert_ (offset <? next_offset a));;
  put (set_high_water offset a).

Definition is_stale (a : SsrcAllocator) (ssrc : Z) : bool := offset_of a ssrc <=? high_water a.

End Ssrcs.

(** ** Transports *)

Module Transports.

Definition ICE_CONNECT_TIMEOUT : Z := secs 30.
Definition DTLS_HANDSHAKE_TIMEOUT : Z := secs 10.
Definition MAX_TRANSPORTS : nat := Z.to_nat (2 ^ 20).

Definition ICE_CHARS : list Z :=
  as_bytes "ABCDEFGHIJKLMNOPQRSTUVWXYZabcdefghijklmnopqrstuvwxyz0123456789+/".

(** [gen_range]: an arbitrary number, reduced to the range. *)
Definition random_chars {E} (draw : nat → Z) (at_ n : nat) : outcome E (list Z) :=
  mapM (fun i => idx ICE_CHARS (Z.to_nat (draw i mod Z.of_nat (length ICE_CHARS)))) (seq at_ n).

Definition random_ice_params {E} (draw : nat → Z) : outcome E IceParams :=
  ufrag ← random_chars draw 0 16;
  pwd ← random_chars draw 16 32;
  assert_ (forallb (fun b => bool_decide (b ∈ ICE_CHARS)) ufrag);;
  Ok (mkIce ufrag pwd).

Inductive Expired := IceConnect | DtlsHandshakeExpired.

Section transports.
Context `{DtlsEngine}.

Record TransportEntry := mkTransport {
  participant : Z;
  shard : ShardId;
  ice : IceParams;
  dtls : Dtls.DtlsHandshake;
  ssrcs : Ssrcs.SsrcAllocator;
  created_at : Instant;
  address_selected_at : option Instant;
  srtp_installed : bool;
}.

Definition set_dtls (v : Dtls.DtlsHandshake) (e : TransportEntry) : TransportEntry :=
  mkTransport (participant e) (shard e) (ice e) v (ssrcs e) (created_at e) (address_selected_at e) (srtp_installed e).
Definition set_ssrcs (v : Ssrcs.SsrcAllocator) (e : TransportEntry) : TransportEntry :=
  mkTransport (participant e) (shard e) (ice e) (dtls e) v (created_at e) (address_selected_at e) (srtp_installed e).
Definition set_selected_at (v : option Instant) (e : TransportEntry) : TransportEntry :=
  mkTransport (participant e) (shard e) (ice e) (dtls e) (ssrcs e) (created_at e) v (srtp_installed e).
Definition set_srtp_installed (e : TransportEntry) : TransportEntry :=
  mkTransport (participant e) (shard e) (ice e) (dtls e) (ssrcs e) (created_at e) (address_selected_at e) true.

Definition entry_new {E} (p : Z) (sh : ShardId) (cert : Certificate) (now : Instant) (ice_draw ssrc_draw : nat → Z)
  : outcome E TransportEntry :=
  params ← random_ice_params ice_draw;
  ssrcs ← Ssrcs.random ssrc_draw;
  Ok (mkTransport p sh params (Dtls.new cert) ssrcs now None false).

Definition mark_address_selected {E} (now : Instant) : st TransportEntry E bool :=
  e ← get;
  let first := negb (is_some (address_selected_at e)) in
  (if first then put (set_selected_at (Some now) e) else mret ());;
  e ← get;
  lift (assert_ (is_some (address_selected_at e)));;
  mret first.

Definition expired (e : TransportEntry) (now : Instant) : option Expired :=
  match address_selected_at e with
  | None => if saturating_sub now (created_at e) >=? ICE_CONNECT_TIMEOUT then Some IceConnect else None
  | Some at_ =>
    if negb (Dtls.is_complete (dtls e)) && (saturating_sub now at_ >=? DTLS_HANDSHAKE_TIMEOUT)
    then Some DtlsHandshakeExpired else None
  end.

Record Transports := mkTransports {
  entries : gmap SessionId TransportEntry;
  by_participant : gmap Z SessionId;
}.

Definition new : Transports := mkTransports ∅ ∅.

Definition insert {E} (id : SessionId) (e : TransportEntry) : st Transports E bool :=
  t ← get;
  if bool_decide (is_Some (entries t !! id)) || bool_decide (is_Some (by_participant t !! participant e))
     || bool_decide (MAX_TRANSPORTS ≤ size (entries t))%nat
  then mret false else
  put (mkTransports (<[id := e]> (entries t)) (<[participant e := id]> (by_participant t)));;
  t ← get;
  lift (assert_ (bool_decide (size (entries t) = size (by_participant t))));;
  mret true.

Definition remove {E} (id : SessionId) : st Transports E (option TransportEntry) :=
  t ← get;
  match entries t !! id with
  | None => mret None
  | Some e =>
    put (mkTransports (delete id (entries t)) (delete (participant e) (by_participant t)));;
    t ← get;
    lift (assert_ (bool_decide (size (entries t) = size (by_participant t))));;
    mret (Some e)
  end.

Definition get_entry (t : Transports) (id : SessionId) : option TransportEntry := entries t !! id.
Definition session_of (t : Transports) (p : Z) : option SessionId := by_participant t !! p.
Definition participant_of (t : Transports) (id : SessionId) : option Z := participant <$> entries t !! id.
Definition len (t : Transports) : nat := size (entries t).

Definition is_handshaking (e : TransportEntry) : bool :=
  Dtls.holds_ssl (dtls e) && negb (Dtls.is_complete (dtls e)) && negb (Dtls.is_failed (dtls e)).

Definition handshaking (t : Transports) : list SessionId :=
  sort_ids (map_to_list (filter (fun x => is_handshaking x.2 = true) (entries t))).*1.

(** The expired sessions in id order. *)
Definition sweep (t : Transports) (now : Instant) : list (SessionId * Expired) :=
  omap (fun id => e ← entries t !! id; (fun w => (id, w)) <$> expired e now) (sort_ids (map_to_list (entries t)).*1).

End transports.
End Transports.

(** ** Published tracks *)

Module Tracks.

Definition MAX_TRACKS : nat := Z.to_nat (2 ^ 20).

Record TrackInfo := mkTrackInfo {
  publisher : Z;
  track_session : SessionId;
  track_shard : ShardId;
  room : Z;
  spec : TrackSpec;
  content_type : Z;
}.

Definition set_content_type (v : Z) (i : TrackInfo) : TrackInfo :=
  mkTrackInfo (publisher i) (track_session i) (track_shard i) (room i) (spec i) v.

Definition TrackRegistry := gmap TrackId TrackInfo.

Definition insert {E} (id : TrackId) (i : TrackInfo) : st TrackRegistry E bool :=
  t ← get;
  if bool_decide (is_Some (t !! id)) || bool_decide (MAX_TRACKS ≤ size t)%nat then mret false else
  put (<[id := i]> t);;
  t ← get;
  lift (assert_ (bool_decide (is_Some (t !! id))));;
  mret true.

Definition remove {E} (id : TrackId) : st TrackRegistry E (option TrackInfo) :=
  t ← get; put (delete id t);; mret (t !! id).

Definition by_publisher (t : TrackRegistry) (p : Z) : list TrackId :=
  sort_ids (map_to_list (filter (fun x => publisher x.2 = p) t)).*1.

Definition remove_publisher {E} (p : Z) : st TrackRegistry E (list TrackId) :=
  t ← get;
  let ids := by_publisher t p in
  put (foldl (fun t id => delete id t) t ids);;
  mret ids.

End Tracks.
