(* ===== verification/HandshakeProofs.v ===== *)
(** * The DTLS handshake: what it verifies before keys are installed

    The output of the engine reaches the peer whole, in records; whatever is
    called in whatever order, the handshake completes at most once, with an
    engine that is established and a peer whose certificate has the
    fingerprint every answer signalled. *)

From stdpp Require Import strings sorting.
From S2P Require Import Prelude Wp Keys Model Handshake Transports.

Module DtlsProofs.
Import Handshake Dtls.

Section proofs.
Context `{En : DtlsEngine}.

(** ** Records *)

Definition record_len (l : list Z) : nat := (RECORD_HEADER_LEN + Z.to_nat (of_be [default 0%Z (l !! 11); default 0%Z (l !! 12)]))%nat.

(** A DTLS record: a header and as many bytes as it says. *)
Definition is_record (l : list Z) : Prop := length l = record_len l.

(** What a datagram holds: whole records, more than one only if they fit. *)
Definition carries (d : list Z) : Prop :=
  ∃ recs, Forall is_record recs ∧ recs ≠ [] ∧ d = concat recs ∧ (length d ≤ DTLS_MTU ∨ length recs = 1)%nat.

Lemma record_len_app l l' : (RECORD_HEADER_LEN ≤ length l)%nat → record_len (l ++ l') = record_len l.
Proof. unfold record_len, RECORD_HEADER_LEN. intros. rewrite !lookup_app_l by lia. done. Qed.

Lemma is_record_min l : is_record l → (RECORD_HEADER_LEN ≤ length l)%nat.
Proof. unfold is_record, record_len. lia. Qed.

Lemma pack_carries r ds : is_record r → Forall carries ds → Forall carries (pack r ds).
Proof.
  intros Hr Hds.
  assert (Hsolo : carries r).
  { exists [r]. split; [by repeat constructor|]. split; [done|]. split; [by rewrite concat_cons, app_nil_r|]. by right. }
  unfold pack. destruct (last ds) as [l|] eqn:El; [|apply Forall_app; auto].
  case_bool_decide as Hfit; [|apply Forall_app; auto].
  apply last_Some in El as [ds' ->]. rewrite removelast_last. apply Forall_app in Hds as [Hds Hl].
  apply Forall_app. split; [done|]. apply Forall_singleton in Hl as (recs & Hrecs & Hne & -> & _). apply Forall_singleton.
  exists (recs ++ [r]). split; [apply Forall_app; auto|]. split; [by destruct recs|].
  split; [by rewrite concat_app, concat_cons, app_nil_r|]. left. rewrite length_app. lia.
Qed.

Lemma pack_concat r ds : concat (pack r ds) = concat ds ++ r.
Proof.
  unfold pack. destruct (last ds) as [l|] eqn:El; [case_bool_decide|];
    try by rewrite concat_app, concat_cons, app_nil_r.
  apply last_Some in El as [ds' ->]. rewrite removelast_last, !concat_app, !concat_cons, !app_nil_r. by rewrite app_assoc.
Qed.

Lemma concat_records_min recs r : Forall is_record recs → concat recs = r → r ≠ [] → ∃ x recs', recs = x :: recs' ∧ is_record x.
Proof. intros Hf <- Hne. destruct recs as [|x recs]; [done|]. apply Forall_cons in Hf as [? _]. eauto. Qed.

Lemma whole_header recs r : Forall is_record recs → concat recs = r → r ≠ [] →
  (RECORD_HEADER_LEN ≤ length r ∧ record_len r ≤ length r)%nat ∧ Forall is_record (tail recs) ∧ concat (tail recs) = drop (record_len r) r.
Proof.
  intros Hf Hc Hne. destruct (concat_records_min _ _ Hf Hc Hne) as (x & recs' & -> & Hx).
  pose proof (is_record_min _ Hx) as Hm. apply Forall_cons in Hf as [_ Hf]. rewrite concat_cons in Hc. subst r. cbn [tail].
  rewrite record_len_app by done. rewrite length_app. unfold is_record in Hx. repeat split; [lia|lia|done|].
  rewrite <- Hx. by rewrite drop_app_length.
Qed.

Lemma split_from_spec fuel : ∀ r ds, (length r ≤ fuel)%nat → Forall carries ds →
  match split_from fuel r ds with
  | Ok ds' => concat ds' = concat ds ++ r ∧ Forall carries ds'
  | Err _ => ¬ ∃ recs, Forall is_record recs ∧ concat recs = r
  | Panic => False
  end.
Proof.
  induction fuel as [|fuel IH]; intros r ds Hl Hds; cbn [split_from];
    (case_bool_decide as Hn; [subst r; by rewrite app_nil_r|]).
  { destruct r; [done|cbn in Hl; lia]. }
  case_bool_decide as Hhead; cbn [fail_if mbind outcome_bind].
  { intros (recs & Hf & Hc). destruct (whole_header _ _ Hf Hc Hn). lia. }
  unfold RECORD_HEADER_LEN in Hhead.
  destruct (lookup_lt_is_Some_2 r 11) as [b11 H11]; [lia|]. destruct (lookup_lt_is_Some_2 r 12) as [b12 H12]; [lia|].
  unfold idx. rewrite H11, H12. cbn [expect mbind outcome_bind].
  assert (Hrl : (RECORD_HEADER_LEN + Z.to_nat (of_be [b11; b12]))%nat = record_len r) by (unfold record_len; by rewrite H11, H12).
  rewrite Hrl. case_bool_decide as Hlen; cbn [fail_if mbind outcome_bind].
  { intros (recs & Hf & Hc). destruct (whole_header _ _ Hf Hc Hn). lia. }
  assert (Hpos : (0 < record_len r)%nat) by (unfold record_len, RECORD_HEADER_LEN; lia).
  unfold slice. rewrite !decide_True by lia. cbn [mbind outcome_bind]. rewrite sub_list_0.
  replace (sub_list (record_len r) (length r) r) with (drop (record_len r) r)
    by (unfold sub_list; rewrite take_ge; [done|rewrite length_drop; lia]).
  assert (Hrec : is_record (take (record_len r) r)).
  { unfold is_record. rewrite length_take_le by lia. rewrite <- (take_drop (record_len r) r) at 1. rewrite record_len_app; [done|].
    rewrite length_take_le; [|lia]. unfold record_len. lia. }
  specialize (IH (drop (record_len r) r) (pack (take (record_len r) r) ds)).
  rewrite length_drop in IH. specialize (IH ltac:(lia) (pack_carries _ _ Hrec Hds)).
  destruct (split_from _ _ _) as [ds'|e|]; [|intros (recs & Hf & Hc)|done].
  - destruct IH as [IH1 IH2]. split; [|done]. by rewrite IH1, pack_concat, <- app_assoc, take_drop.
  - destruct (whole_header _ _ Hf Hc Hn) as (_ & Hf' & Hc'). apply IH. eauto.
Qed.

(** Splitting the engine's output into datagrams never panics: the datagrams
    are the output cut between records, each at most [DTLS_MTU] bytes unless
    it is a single record, and an output that is not a sequence of whole
    records is refused. *)
Lemma split_records_spec r :
  match split_records r with
  | Ok ds => concat ds = r ∧ Forall carries ds
  | Err _ => ¬ ∃ recs, Forall is_record recs ∧ concat recs = r
  | Panic => False
  end.
Proof. apply (split_from_spec (length r) r []); [done|constructor]. Qed.

Lemma split_records_np r : split_records r ≠ Panic.
Proof. pose proof (split_records_spec r). by destruct (split_records r). Qed.

Lemma is_client_hello_np d : is_client_hello d ≠ Panic.
Proof.
  unfold is_client_hello, RECORD_HEADER_LEN. case_bool_decide as Hl; [done|].
  destruct (lookup_lt_is_Some_2 d 0) as [b0 H0]; [lia|]. destruct (lookup_lt_is_Some_2 d 3) as [b3 H3]; [lia|].
  destruct (lookup_lt_is_Some_2 d 4) as [b4 H4]; [lia|]. destruct (lookup_lt_is_Some_2 d 13) as [m Hm]; [lia|].
  unfold idx. rewrite H0, H3, H4, Hm. cbn [expect mbind outcome_bind]. by repeat case_match.
Qed.

(** ** Calls in any order *)

Inductive call := Answer (r : DtlsRole) (fp : list Z) | Selected | Datagram (d : list Z) | Timeout | Free.

(** Whether the call reports that the handshake completed. *)
Definition do_call (c : call) : step bool :=
  match c with
  | Answer r fp => p ← on_answer r fp; mret (completed p)
  | Selected => p ← on_address_selected; mret (completed p)
  | Datagram d => p ← process d; mret (completed p)
  | Timeout => handle_timeout;; mret false
  | Free => free_ssl;; mret false
  end.

(** A call that fails reports nothing; the next one finds the state it left. *)
Fixpoint run_calls (cs : list call) (h : DtlsHandshake) : outcome () (list bool * DtlsHandshake) :=
  match cs with
  | [] => Ok ([], h)
  | c :: cs =>
    '(b, h) ← match do_call c h with Ok r => Ok r | Err (_, h) => Ok (false, h) | Panic => Panic end;
    '(bs, h) ← run_calls cs h;
    Ok (b :: bs, h)
  end.

Record inv (cs : list call) (h : DtlsHandshake) : Prop := {
  inv_role : is_Some (engine h) → is_Some (role h);
  inv_failed : hs_state h = Failed → engine h = None;
  inv_freed : hs_state h = Freed → engine h = None;
  inv_complete : hs_state h = Complete → is_Some (engine h);
  inv_answers : hs_state h ≠ Failed → ∀ r fp, Answer r fp ∈ cs → remote_fingerprint h = Some fp ∧ role h = Some r;
  inv_pinned : ∀ fp, remote_fingerprint h = Some fp → ∃ r, Answer r fp ∈ cs;
}.

(** The engine is established with the peer the answers announced. *)
Definition verified (h : DtlsHandshake) : Prop :=
  ∃ e fp, engine h = Some e ∧ is_established e = true ∧ peer_fingerprint e = Some fp ∧ remote_fingerprint h = Some fp.

Lemma inv_failed_state cs h : (∀ fp, remote_fingerprint h = Some fp → ∃ r, Answer r fp ∈ cs) → inv cs (set_engine None (set_state Failed h)).
Proof. intros. split; cbn; try done. Qed.

(** What a call does: it keeps the invariant, it leaves [Running] for good,
    and it completes only from [Running], verified. *)
Definition moves (cs : list call) (h : DtlsHandshake) (b : bool) (h' : DtlsHandshake) : Prop :=
  inv cs h' ∧ (hs_state h ≠ Running → hs_state h' ≠ Running) ∧
  (b = true → hs_state h = Running ∧ hs_state h' = Complete ∧ verified h').

(** The fields a step of the engine leaves alone. *)
Definition same_signals (h h' : DtlsHandshake) : Prop :=
  role h' = role h ∧ remote_fingerprint h' = remote_fingerprint h ∧ hs_state h' = hs_state h.

Lemma wp_fail {A} (m : step A) h Q X : wp m h Q (fun _ h' => X (set_engine None (set_state Failed h'))) →
  wp (fail_on_error m) h Q (fun _ h' => X h').
Proof. unfold run_to, fail_on_error. by destruct (m h) as [[]|[]|]. Qed.

Lemma wp_usable h (Q : () → DtlsHandshake → Prop) X : (hs_state h ≠ Failed → Q () h) → X AlreadyFailed h → wp check_usable h Q X.
Proof. intros HQ HX. unfold check_usable. wp. case_bool_decide; wp; auto. Qed.

Lemma wp_split r h (Q : list (list Z) → DtlsHandshake → Prop) X : (∀ ds, split_records r = Ok ds → Q ds h) → (∀ e, X e h) → wp (lift (split_records r)) h Q X.
Proof. intros HQ HX. apply wp_lift. pose proof (split_records_np r). destruct (split_records r); auto. Qed.

Lemma wp_start r h (Q : list (list Z) → DtlsHandshake → Prop) X : engine h = None →
  (∀ ds e, Q ds (set_engine (Some e) h)) → (∀ e h', remote_fingerprint h' = remote_fingerprint h → X e h') → wp (start_engine r) h Q X.
Proof.
  intros He HQ HX. unfold start_engine. wp. apply wp_assert; [by rewrite He|].
  destruct (start_handshake _) as [[x|out] e]; wp; [by apply HX|].
  apply wp_split; [intros ds _; apply HQ|intros e'; by apply HX].
Qed.

Lemma wp_on_engine f e h (Q : list Z → DtlsHandshake → Prop) X :
  (∀ out e', Q out (set_engine (Some e') h)) → (∀ x e', X x (set_engine (Some e') h)) → wp (on_engine f e) h Q X.
Proof. intros HQ HX. unfold on_engine. destruct (f e) as [[x|out] e']; wp; auto. Qed.

Lemma wp_completion cs h (Q : bool → DtlsHandshake → Prop) (X : HandshakeError → DtlsHandshake → Prop) : inv cs h →
  Q false h → (hs_state h = Running → verified (set_state Complete h) → inv cs (set_state Complete h) → Q true (set_state Complete h)) →
  (∀ e, X e h) → wp check_completion h Q X.
Proof.
  intros Hi Hn Hy HX. unfold check_completion. wp. destruct (engine h) as [e|] eqn:Ee; wp; [|done].
  case_bool_decide as Hs; cbn [negb orb]; wp; [|done]. destruct (is_established e) eqn:Hest; cbn [negb]; wp; [|done].
  destruct (remote_fingerprint h) as [fp|] eqn:Ef; wp; [|done]. case_bool_decide as Hp; wp; [|done].
  apply Hy; [done| |].
  - exists e, fp. by repeat split.
  - destruct Hi as [Hr ? ? ? Ha Hpin]. split; cbn; try done. all: rewrite ?Ee; try done. intros _ r fp' Hin. rewrite Hs in Ha. by apply Ha.
Qed.

(** A call other than an answer only has to keep what was signalled. *)
Lemma inv_more cs c h : inv cs h → (∀ r fp, c ≠ Answer r fp) → inv (cs ++ [c]) h.
Proof.
  intros [? ? ? ? Ha Hp] Hc. split; try done.
  - intros Hs r fp [Hin|Heq]%elem_of_app; [by apply Ha|]. apply list_elem_of_singleton in Heq. by edestruct Hc.
  - intros fp Hfp. destruct (Hp fp Hfp) as [r ?]. exists r. apply elem_of_app. by left.
Qed.

Lemma inv_engine cs h e : inv cs h → is_Some (role h) → hs_state h ≠ Failed → hs_state h ≠ Freed → inv cs (set_engine (Some e) h).
Proof. intros [? ? ? ? Ha Hp] ? ? ?. split; cbn; try done; eauto. Qed.

Lemma moves_failed cs h h' b : inv cs (set_engine None (set_state Failed h')) → b = false → moves cs h b (set_engine None (set_state Failed h')).
Proof. intros ? ->. split; [done|]. split; [done|]. done. Qed.

Lemma pinned_more cs c h fp : inv cs h → remote_fingerprint h = Some fp → ∃ r, Answer r fp ∈ cs ++ [c].
Proof. intros Hi Hf. destruct (inv_pinned _ _ Hi fp Hf) as [r ?]. exists r. apply elem_of_app. by left. Qed.

Lemma moves_stay cs h h' : inv cs h' → hs_state h' = hs_state h → moves cs h false h'.
Proof. intros Hi Hs. split; [done|]. by rewrite Hs. Qed.

Lemma moves_completion cs h h0 ds : inv cs h → hs_state h = hs_state h0 → (∀ fp, remote_fingerprint h = Some fp → ∃ r, Answer r fp ∈ cs) →
  wp (c ← check_completion; mret (mkProgress ds c)) h (fun p h' => moves cs h0 (completed p) h')
     (fun _ h' => moves cs h0 false (set_engine None (set_state Failed h'))).
Proof.
  intros Hi Hs Hp. wp. apply (wp_completion cs); [done| | |intros _]; cbn [completed].
  - by apply moves_stay.
  - intros Hrun Hv Hi'. wp. cbn. split; [done|]. rewrite <- Hs, Hrun. done.
  - by apply moves_failed, eq_refl; apply inv_failed_state.
Qed.

Lemma failed_moves cs c h : inv cs h → hs_state h = Failed → moves (cs ++ [c]) h false h.
Proof.
  intros Hi Hs. apply moves_stay; [|done]. destruct Hi as [? ? ? ? ? Hp]. split; try done.
  intros fp Hfp. destruct (Hp fp Hfp) as [r ?]. exists r. apply elem_of_app. by left.
Qed.

Lemma usable_moves {A} cs c (k : step A) h Q : inv cs h →
  (hs_state h ≠ Failed → wp k h Q (fun _ h' => moves (cs ++ [c]) h false h')) →
  wp (check_usable;; k) h Q (fun _ h' => moves (cs ++ [c]) h false h').
Proof.
  intros Hi Hk. unfold check_usable. wp. case_bool_decide as Hs; wp; [by apply failed_moves|by apply Hk].
Qed.

Definition answered (r : DtlsRole) (fp : list Z) (h : DtlsHandshake) : DtlsHandshake := set_role r (set_remote_fingerprint fp h).

Lemma answered_inv cs r fp h : inv cs h → hs_state h ≠ Failed →
  (∀ p, remote_fingerprint h = Some p → p = fp) → (∀ x, role h = Some x → x = r) → inv (cs ++ [Answer r fp]) (answered r fp h).
Proof.
  intros [Hr ? ? ? Ha Hp] Hs Hfp Hrole. split; cbn; try done.
  - intros _ r' fp' [Hin|Heq]%elem_of_app; [|apply list_elem_of_singleton in Heq; by injection Heq as -> ->].
    destruct (Ha Hs _ _ Hin) as [H1 H2]. by rewrite (Hfp _ H1), (Hrole _ H2).
  - intros ? [= <-]. exists r. apply elem_of_app. right. by apply list_elem_of_singleton.
Qed.

Lemma wp_start_if_idle cs r h (Q : list (list Z) → DtlsHandshake → Prop) X : inv cs h → is_Some (role h) →
  (∀ ds h', inv cs h' → same_signals h h' → Q ds h') → (∀ e h', remote_fingerprint h' = remote_fingerprint h → X e h') →
  wp (start_if_idle r) h Q X.
Proof.
  intros Hi Hr HQ HX. unfold start_if_idle. wp. case_bool_decide as Hrun; cbn [andb negb]; [|wp; by apply HQ].
  destruct (engine h) eqn:Ee; cbn [is_some negb]; [wp; by apply HQ|].
  assert (Hs : ∀ ds e, Q ds (set_engine (Some e) h)).
  { intros ds e. apply HQ; [|done]. apply inv_engine; [done|done|by rewrite Hrun|by rewrite Hrun]. }
  case_bool_decide; [wp; by apply wp_start; [|intros; wp; apply Hs|]|].
  destruct (address_selected h); [by apply wp_start|wp; by apply HQ].
Qed.

Lemma answer_moves cs r fp h : inv cs h →
  wp (do_call (Answer r fp)) h (moves (cs ++ [Answer r fp]) h) (fun _ h' => moves (cs ++ [Answer r fp]) h false h').
Proof.
  intros Hi. cbn [do_call]. unfold on_answer. apply wp_bind, usable_moves; [done|]. intros Hs. apply wp_fail.
  unfold apply_answer.
  assert (Hbad : ∀ h', (remote_fingerprint h' = remote_fingerprint h ∨ remote_fingerprint h' = Some fp) →
    moves (cs ++ [Answer r fp]) h false (set_engine None (set_state Failed h'))).
  { intros h' Hf. apply moves_failed; [|done]. apply inv_failed_state. intros fp' Hfp'. destruct Hf as [Hf|Hf]; rewrite Hf in Hfp'.
    - by eapply pinned_more.
    - injection Hfp' as <-. exists r. apply elem_of_app. right. by apply list_elem_of_singleton. }
  assert (Hrest : (∀ p, remote_fingerprint h = Some p → p = fp) → (∀ x, role h = Some x → x = r) →
    wp (start_if_idle r) (answered r fp h) (fun ds h' => wp (c ← check_completion; mret (mkProgress ds c)) h'
        (fun p h' => moves (cs ++ [Answer r fp]) h (completed p) h') (fun _ h' => moves (cs ++ [Answer r fp]) h false (set_engine None (set_state Failed h'))))
      (fun _ h' => moves (cs ++ [Answer r fp]) h false (set_engine None (set_state Failed h')))).
  { intros H1 H2. pose proof (answered_inv _ _ _ _ Hi Hs H1 H2) as Hi'. apply (wp_start_if_idle _ _ _ _ _ Hi'); [by exists r| |].
    - intros ds h' Hi2 (_ & _ & Hs'). apply moves_completion; [done|done|apply Hi2].
    - intros _ h' Hf. apply Hbad. by right. }
  case_match; wp; [apply Hbad; by left|].
  destruct (remote_fingerprint h) as [p|] eqn:Ef; [case_bool_decide; wp; [|apply Hbad; by left]|wp].
  all: destruct (role h) as [x|] eqn:Er; [case_bool_decide; wp; [|apply Hbad; by right]|wp].
  all: eapply wp_conseq; [apply Hrest; naive_solver|by intros [] h'|done].
Qed.

Lemma failing_moves cs c h : inv cs h →
  ∀ (e : HandshakeError) h', remote_fingerprint h' = remote_fingerprint h → moves (cs ++ [c]) h false (set_engine None (set_state Failed h')).
Proof. intros Hi _ h' Hf. apply moves_failed; [|done]. apply inv_failed_state. rewrite Hf. intros. by eapply pinned_more. Qed.

Lemma selected_moves cs h : inv cs h → wp (do_call Selected) h (moves (cs ++ [Selected]) h) (fun _ h' => moves (cs ++ [Selected]) h false h').
Proof.
  intros Hi. cbn [do_call]. unfold on_address_selected. apply wp_bind, usable_moves; [done|]. intros Hs.
  assert (Hi' : inv (cs ++ [Selected]) (set_address_selected h)).
  { apply inv_more; [|done]. destruct Hi as [? ? ? ? Ha Hp]. by split. }
  wp. case_bool_decide as Hrun; cbn [andb]; [|wp; by apply moves_stay].
  destruct (engine _) eqn:Ee; cbn [is_some negb andb]; [wp; by apply moves_stay|].
  case_bool_decide as Hrole; [|wp; by apply moves_stay]. wp. apply wp_fail, wp_start; [done| |].
  - intros ds e. wp. apply moves_stay; [|done]. apply inv_engine; [done|by rewrite Hrole|by rewrite Hrun|by rewrite Hrun].
  - intros e h' Hf. by apply (failing_moves _ _ _ Hi e).
Qed.

Lemma wp_starts_here cs d h (Q : bool → DtlsHandshake → Prop) X : inv cs h → hs_state h ≠ Failed → hs_state h ≠ Freed →
  (∀ b h', inv cs h' → hs_state h' = hs_state h → (b = true → is_Some (engine h')) → Q b h') →
  (∀ e h', remote_fingerprint h' = remote_fingerprint h → X e h') → (∀ r fp, Answer r fp ∈ cs → r = Server ∨ engine h ≠ None ∨ role h = Some Client) →
  wp (starts_here d) h Q X.
Proof.
  intros Hi H1 H2 HQ HX Hans. unfold starts_here. wp. destruct (engine h) as [e|] eqn:Ee; cbn [is_some]; wp; [by apply HQ; rewrite ?Ee|].
  case_bool_decide as Hr; wp; [by apply HQ|]. apply wp_lift. pose proof (is_client_hello_np d). destruct (is_client_hello d) as [[]|e|]; [|by apply HQ|by apply HX|done].
  wp. apply wp_start; [done| |by intros e h' Hf; apply HX]. intros ds e. wp. apply HQ; [|done|by eexists].
  destruct Hi as [? ? ? ? Ha Hp]. split; cbn; try done. intros Hs r fp Hin. destruct (Ha Hs r fp Hin) as [? Hrole]. split; [done|].
  by destruct (Hans _ _ Hin) as [->|[?|?]].
Qed.

Lemma datagram_moves cs d h : inv cs h → wp (do_call (Datagram d)) h (moves (cs ++ [Datagram d]) h) (fun _ h' => moves (cs ++ [Datagram d]) h false h').
Proof.
  intros Hi. cbn [do_call]. unfold process.
  assert (Hi' : inv (cs ++ [Datagram d]) h) by by apply inv_more.
  assert (Hstay : moves (cs ++ [Datagram d]) h false h) by by apply moves_stay.
  wp. destruct (_ || _); [by wp|]. apply usable_moves; [done|]. intros Hs. wp. case_bool_decide as Hf; [by wp|].
  pose proof (failing_moves _ (Datagram d) _ Hi) as Hbad. apply wp_fail. unfold feed. wp. apply (wp_starts_here (cs ++ [Datagram d])); try done.
  - intros b h' Hi2 Hs2 He. destruct b; cbn [negb]; wp; [|by apply moves_stay].
    destruct (He eq_refl) as [e Ee]. eapply wp_expect; [done|]. wp. apply wp_on_engine.
    + intros out e'. wp. apply wp_split; [intros ds _|intros x].
      * eapply wp_mono; [apply moves_completion|by intros].
        -- apply inv_engine; [done|apply Hi2; by rewrite Ee|by rewrite Hs2|by rewrite Hs2].
        -- done.
        -- apply Hi2.
      * apply moves_failed; [|done]. apply inv_failed_state. apply Hi2.
    + intros x e'. apply moves_failed; [|done]. apply inv_failed_state. apply Hi2.
  - intros r fp Hin. destruct (inv_answers _ _ Hi' Hs _ _ Hin) as [_ Hr]. destruct r; auto.
Qed.

Lemma timeout_moves cs h : inv cs h → wp (do_call Timeout) h (moves (cs ++ [Timeout]) h) (fun _ h' => moves (cs ++ [Timeout]) h false h').
Proof.
  intros Hi. cbn [do_call]. unfold handle_timeout. apply wp_bind, usable_moves; [done|]. intros Hs.
  assert (Hi' : inv (cs ++ [Timeout]) h) by by apply inv_more.
  wp. destruct (engine h) as [e|] eqn:Ee; [|wp; by apply moves_stay].
  case_bool_decide as Hrun; cbn [negb]; [|wp; by apply moves_stay].
  pose proof (failing_moves _ Timeout _ Hi) as Hbad. apply wp_fail. wp. apply wp_on_engine; [|by intros; apply Hbad].
  intros out e'. apply wp_split; [intros ds _|intros x; by apply Hbad]. wp. apply moves_stay; [|done].
  apply inv_engine; [done|apply Hi; by rewrite Ee|by rewrite Hrun|by rewrite Hrun].
Qed.

Lemma free_moves cs h : inv cs h → wp (do_call Free) h (moves (cs ++ [Free]) h) (fun _ h' => moves (cs ++ [Free]) h false h').
Proof.
  intros Hi. cbn [do_call]. unfold free_ssl. wp.
  assert (Hi' : inv (cs ++ [Free]) h) by by apply inv_more.
  case_bool_decide as Hc; cbn [negb]; wp; [|by apply moves_stay]. apply wp_assert; [done|]. wp.
  destruct Hi' as [? ? ? ? Ha Hp]. split; [|done]. split; cbn; try done. intros _. apply Ha. by rewrite Hc.
Qed.

Lemma call_moves cs c h : inv cs h → wp (do_call c) h (moves (cs ++ [c]) h) (fun _ h' => moves (cs ++ [c]) h false h').
Proof. destruct c; [apply answer_moves|apply selected_moves|apply datagram_moves|apply timeout_moves|apply free_moves]. Qed.

Lemma new_inv c : inv [] (new c).
Proof.
  split; try done; [by intros [? ?]|]. intros _ r fp Hin. by apply elem_of_nil in Hin.
Qed.

(** ** Runs *)

Lemma no_true_count bs : (∀ i, bs !! i ≠ Some true) → count id bs = 0%nat.
Proof.
  intros Hn. unfold count. destruct (filter _ bs) as [|x l] eqn:Ef; [done|].
  assert (Hx : x ∈ filter (fun b => id b = true) bs) by (rewrite Ef; left).
  apply list_elem_of_filter in Hx as [Hx [i Hlk]%list_elem_of_lookup_1]. unfold id in Hx. subst x. by destruct (Hn i).
Qed.

Lemma run_calls_inv cs : ∀ cs0 h, inv cs0 h →
  ∃ bs h', run_calls cs h = Ok (bs, h') ∧ inv (cs0 ++ cs) h' ∧ (hs_state h ≠ Running → hs_state h' ≠ Running) ∧
    ((∃ i, bs !! i = Some true) → hs_state h = Running ∧ hs_state h' ≠ Running) ∧ (count id bs ≤ 1)%nat.
Proof.
  induction cs as [|c cs IH]; intros cs0 h Hi; cbn [run_calls].
  { exists [], h. rewrite app_nil_r. split; [done|]. split; [done|]. split; [done|]. split; [by intros [? ?]|unfold count; cbn; lia]. }
  assert (∃ b h1, match do_call c h with Ok r => Ok r | Err (_, h) => Ok (false, h) | Panic => Panic end = Ok (E:=()) (b, h1) ∧ moves (cs0 ++ [c]) h b h1)
    as (b & h1 & Hd & Hi1 & Hrun & Hdone).
  { pose proof (call_moves _ c _ Hi) as Hm. unfold run_to in Hm. destruct (do_call c h) as [[b h1]|[e h1]|]; [|exists false, h1; done|done]. by exists b, h1. }
  destruct (IH _ _ Hi1) as (bs & h' & Hr & Hi' & Hrun' & Htrue & Hcount). rewrite Hd. cbn [mbind outcome_bind]. rewrite Hr. cbn [mbind outcome_bind].
  exists (b :: bs), h'. rewrite <- app_assoc in Hi'. split; [done|]. split; [done|]. split; [auto|]. split.
  - intros [[|i] Hb].
    + injection Hb as ->. destruct (Hdone eq_refl) as (? & Hs1 & _). split; [done|]. apply Hrun'. by rewrite Hs1.
    + destruct Htrue as [Hs1 ?]; [by eexists|]. split; [|done]. destruct (decide (hs_state h = Running)); [done|]. by edestruct Hrun.
  - destruct b; [|done]. destruct (Hdone eq_refl) as (_ & Hs1 & _).
    assert (Hno : count id bs = 0%nat).
    { apply no_true_count. intros i Hlk. destruct Htrue as [Hr1 _]; [by eexists|]. by rewrite Hs1 in Hr1. }
    unfold count in *. rewrite filter_cons_True by done. cbn [length]. lia.
Qed.

Lemma no_true_running cs h bs h' : inv [] h → run_calls cs h = Ok (bs, h') → hs_state h' = Running → count id bs = 0%nat.
Proof.
  intros Hi Hr Hs. destruct (run_calls_inv cs [] h Hi) as (bs2 & h2 & Hr2 & _ & _ & Htrue & _). rewrite Hr in Hr2. injection Hr2 as <- <-.
  apply no_true_count. intros i Hlk. by destruct Htrue as [_ Hn]; [by eexists|].
Qed.

(** C39: A session's SRTP keys depend on a verified handshake. Whatever the
    answers, datagrams, timeouts and their order, no call panics and at most
    one reports completion; the one that does leaves an engine that is
    established with a peer whose certificate has the fingerprint of an
    answer, and every answer so far gave that fingerprint and the role in use. *)
Theorem completes_verified cert cs c :
  ∃ bs h, run_calls cs (new cert) = Ok (bs, h) ∧ (count id bs ≤ 1)%nat ∧ do_call c h ≠ Panic ∧
    ∀ h', do_call c h = Ok (true, h') → count id bs = 0%nat ∧ hs_state h' = Complete ∧
      ∃ e fp, engine h' = Some e ∧ is_established e = true ∧ peer_fingerprint e = Some fp ∧
        (∃ r, Answer r fp ∈ cs ++ [c]) ∧ ∀ r' fp', Answer r' fp' ∈ cs ++ [c] → fp' = fp ∧ role h' = Some r'.
Proof.
  destruct (run_calls_inv cs [] (new cert) (new_inv cert)) as (bs & h & Hr & Hi & _ & _ & Hc). exists bs, h. split; [done|]. split; [done|].
  pose proof (call_moves _ c _ Hi) as Hm. unfold run_to in Hm. split; [by destruct (do_call c h)|]. intros h' Hd. rewrite Hd in Hm.
  destruct Hm as (Hi' & _ & Hdone). destruct (Hdone eq_refl) as (Hrun & Hs & e & fp & He & Hest & Hp & Hfp).
  split; [by eapply no_true_running; [apply new_inv|..]|]. split; [done|]. exists e, fp. split; [done|]. split; [done|]. split; [done|]. split.
  - by apply (inv_pinned _ _ Hi').
  - intros r' fp' Hin. destruct (inv_answers _ _ Hi' ltac:(by rewrite Hs) _ _ Hin) as [Hf Hro]. split; [congruence|done].
Qed.

(** ** The keys *)

(** What the exporter of RFC 5764 gives: key material of the lengths of its
    profile, in the arrays, and different for the two directions. *)
Record exported (k : SrtpKeyMaterial) : Prop := {
  ex_ck : (client_master_key_len k ≤ length (client_master_key k))%nat;
  ex_sk : (server_master_key_len k ≤ length (server_master_key k))%nat;
  ex_cs : (client_master_salt_len k ≤ length (client_master_salt k))%nat;
  ex_ss : (server_master_salt_len k ≤ length (server_master_salt k))%nat;
  ex_differ : take (client_master_key_len k) (client_master_key k) ≠ take (server_master_key_len k) (server_master_key k);
}.

Lemma direction_key_ok k key salt :
  match direction_key k key salt with
  | Ok m => Keys.material_ok m ∧ Keys.profile m = protection_profile (srtp_profile k) ∧ Keys.key m = Ok key ∧ Keys.salt m = Ok salt ∧
      length key = key_length (srtp_profile k) ∧ length salt = salt_length (srtp_profile k)
  | Err _ => True
  | Panic => False
  end.
Proof.
  unfold direction_key. case_bool_decide as Hl; cbn [negb fail_if mbind outcome_bind]; [|done]. destruct Hl as [Hk Hs].
  destruct (_ || _); cbn [fail_if mbind outcome_bind]; [done|].
  assert (Hb : (length key ≤ 32 ∧ length salt ≤ 14)%nat) by (rewrite Hk, Hs; destruct (srtp_profile k); cbn; lia).
  assert (H1 : length (splice 0 key (replicate 46 0)) = 46%nat) by (rewrite length_splice; rewrite ?length_replicate; lia).
  assert (H2 : length (splice (length key) salt (splice 0 key (replicate 46 0))) = 46%nat) by (rewrite length_splice; rewrite H1; lia).
  unfold copy_at. rewrite decide_True by (rewrite length_replicate; lia). cbn [mbind outcome_bind].
  rewrite decide_True by (rewrite H1; lia). cbn [mbind outcome_bind].
  unfold slice. rewrite decide_True by (rewrite H2; lia). cbn [mbind outcome_bind].
  assert (Hu : sub_list 0 (length key + length salt) (splice (length key) salt (splice 0 key (replicate 46 0))) = key ++ salt).
  { rewrite sub_list_0. unfold splice. rewrite take_0, app_nil_l, take_app_length, <- length_app, app_assoc. apply take_app_length. }
  rewrite Hu. set (p := protection_profile (srtp_profile k)).
  assert (Hp : Keys.key_len p = length key ∧ Keys.salt_len p = length salt) by (rewrite Hk, Hs; subst p; by destruct (srtp_profile k)).
  destruct (Keys.from_dtls_export_ok (key ++ salt) p) as (m & Hm & Hpr & _ & _ & Hkey & Hsalt); [rewrite length_app; lia|].
  rewrite Hm. cbn [map_err]. split; [by apply (Keys.from_dtls_material _ _ _ Hm)|]. split; [done|]. split; [|split; [|done]].
  - rewrite Hkey. unfold Keys.export_key. rewrite (proj1 Hp). by rewrite take_app_length.
  - rewrite Hsalt. unfold Keys.export_salt. rewrite (proj1 Hp), (proj2 Hp). unfold sub_list. rewrite drop_app_length. f_equal. apply take_ge. lia.
Qed.

Lemma slice_prefix {E} n (l : list Z) : (n ≤ length l)%nat → slice (E:=E) 0 n l = Ok (take n l).
Proof. intros. unfold slice. rewrite decide_True by lia. by rewrite sub_list_0. Qed.

(** The two keys, if the handshake gives any. *)
Lemma srtp_install_keys h : (∀ e k, engine h = Some e → srtp_keys e = Some k → exported k) →
  match srtp_install h with
  | Ok i => hs_state h = Complete ∧ ∃ e k r client server, engine h = Some e ∧ srtp_keys e = Some k ∧ role h = Some r ∧
      direction_key k (take (client_master_key_len k) (client_master_key k)) (take (client_master_salt_len k) (client_master_salt k)) = Ok client ∧
      direction_key k (take (server_master_key_len k) (server_master_key k)) (take (server_master_salt_len k) (server_master_salt k)) = Ok server ∧
      i = match r with Server => mkInstall server client | Client => mkInstall client server end
  | Err _ => True
  | Panic => False
  end.
Proof.
  intros Hex. unfold srtp_install. case_bool_decide as Hs; cbn [negb fail_if mbind outcome_bind]; [|done].
  destruct (engine h) as [e|] eqn:Ee; cbn [of_option mbind outcome_bind]; [|done].
  destruct (srtp_keys e) as [k|] eqn:Ek; cbn [of_option mbind outcome_bind]; [|done].
  destruct (role h) as [r|] eqn:Er; cbn [of_option mbind outcome_bind]; [|done].
  destruct (Hex e k eq_refl Ek) as [H1 H2 H3 H4 Hd]. unfold client_key, client_salt, server_key, server_salt. rewrite !slice_prefix by done. cbn [mbind outcome_bind].
  pose proof (direction_key_ok k (take (client_master_key_len k) (client_master_key k)) (take (client_master_salt_len k) (client_master_salt k))) as Hc.
  destruct (direction_key k (take (client_master_key_len k) _) _) as [client|e1|] eqn:Ec; cbn [mbind outcome_bind]; [|done|done].
  pose proof (direction_key_ok k (take (server_master_key_len k) (server_master_key k)) (take (server_master_salt_len k) (server_master_salt k))) as Hv.
  destruct (direction_key k (take (server_master_key_len k) _) _) as [server|e1|] eqn:Ev; cbn [mbind outcome_bind]; [|done|done].
  destruct Hc as (_ & _ & Hck & Hcs & _). destruct Hv as (_ & _ & Hsk & Hss & _).
  assert (Hne : ∀ a b ka kb sa sb, Keys.key a = Ok ka → Keys.key b = Ok kb → Keys.salt a = Ok sa → Keys.salt b = Ok sb → ka ≠ kb →
    map_err (fun _ => KeysUnavailable "") (Keys.material_eq a b) = Ok false).
  { intros a b ka kb sa sb Ha Hb Hsa Hsb Hn. unfold Keys.material_eq. rewrite Ha, Hb, Hsa, Hsb. cbn. repeat case_match; try done.
    all: rewrite bool_decide_eq_false_2; naive_solver. }
  assert (Hcv := Hne _ _ _ _ _ _ Hck Hsk Hcs Hss Hd). assert (Hvc := Hne _ _ _ _ _ _ Hsk Hck Hss Hcs (not_eq_sym Hd)).
  destruct r; cbn [local_key remote_key]; rewrite ?Hcv, ?Hvc; cbn; (split; [done|]); by eexists _, _, _, _, _.
Qed.

Lemma srtp_install_ok h : (∀ e k, engine h = Some e → srtp_keys e = Some k → exported k) →
  match srtp_install h with Ok i => Keys.material_ok (local_key i) ∧ Keys.material_ok (remote_key i) | Err _ => True | Panic => False end.
Proof.
  intros Hex. pose proof (srtp_install_keys h Hex) as Hi. destruct (srtp_install h) as [i| |]; [|done|done].
  destruct Hi as (_ & e & k & r & client & server & _ & _ & _ & Hc & Hv & ->).
  pose proof (direction_key_ok k (take (client_master_key_len k) (client_master_key k)) (take (client_master_salt_len k) (client_master_salt k))) as Hc'.
  pose proof (direction_key_ok k (take (server_master_key_len k) (server_master_key k)) (take (server_master_salt_len k) (server_master_salt k))) as Hv'.
  rewrite Hc in Hc'. rewrite Hv in Hv'. destruct r; cbn; naive_solver.
Qed.

(** Client and server of one handshake protect with the key the other
    unprotects with. *)
Lemma directions_match hc hs ec es k ic is_ : exported k →
  engine hc = Some ec → role hc = Some Client → srtp_keys ec = Some k → srtp_install hc = Ok ic →
  engine hs = Some es → role hs = Some Server → srtp_keys es = Some k → srtp_install hs = Ok is_ →
  local_key ic = remote_key is_ ∧ remote_key ic = local_key is_.
Proof.
  intros Hex Hec Hrc Hkc Hic Hes Hrs Hks His.
  pose proof (srtp_install_keys hc) as Hc. rewrite Hic in Hc. destruct Hc as (_ & e1 & k1 & r1 & c1 & s1 & He1 & Hk1 & Hr1 & Hc1 & Hs1 & ->); [naive_solver|].
  pose proof (srtp_install_keys hs) as Hs. rewrite His in Hs. destruct Hs as (_ & e2 & k2 & r2 & c2 & s2 & He2 & Hk2 & Hr2 & Hc2 & Hs2 & ->); [naive_solver|].
  rewrite He1 in Hec. injection Hec as ->. rewrite Hk1 in Hkc. injection Hkc as ->. rewrite Hr1 in Hrc. injection Hrc as ->.
  rewrite He2 in Hes. injection Hes as ->. rewrite Hk2 in Hks. injection Hks as ->. rewrite Hr2 in Hrs. injection Hrs as ->.
  cbn. split; congruence.
Qed.

End proofs.
End DtlsProofs.

(** * The tables of the control plane: SSRCs and transports

    An outbound SSRC is handed out once, is never 0, the session's own or one
    the peer announced, and there is one as long as offsets are left. The
    table of transports is one-to-one. *)


Module SsrcProofs.
Import Ssrcs.

(** ** Invariant *)

Record ok (a : SsrcAllocator) : Prop := {
  ok_base : is_u32 (base a) ∧ base a ≠ 0;
  ok_next : 1 ≤ next_offset a ≤ 2 ^ 31;
  ok_high : 0 ≤ high_water a < next_offset a;
  ok_peers : (length (peer_ssrcs a) ≤ MAX_PEER_SSRCS)%nat;
}.

(** An SSRC handed out by the allocator. *)
Definition issued (a : SsrcAllocator) (x : Z) : Prop := (is_u32 x ∧ x ≠ 0) ∧ 1 ≤ offset_of a x < next_offset a.

Lemma offset_range a x : 0 ≤ offset_of a x < 2 ^ 32.
Proof. unfold offset_of, wrapping_sub, wrap. apply Z.mod_pos_bound. lia. Qed.

Lemma offset_add a o : is_u32 (base a) → 0 ≤ o < 2 ^ 32 → offset_of a (wrapping_add 32 (base a) o) = o.
Proof. unfold offset_of, wrapping_sub, wrapping_add, wrap, in_range. intros Hb Ho. rewrite Zminus_mod_idemp_l. replace (base a + o - base a) with o by lia. by apply Z.mod_small. Qed.

Lemma add_offset a x : is_u32 (base a) → is_u32 x → wrapping_add 32 (base a) (offset_of a x) = x.
Proof. unfold offset_of, wrapping_sub, wrapping_add, wrap, in_range. intros Hb Hx. rewrite Zplus_mod_idemp_r. replace (base a + (x - base a)) with x by lia. by apply Z.mod_small. Qed.

Lemma offset_inj a x y : is_u32 (base a) → is_u32 x → is_u32 y → offset_of a x = offset_of a y → x = y.
Proof. intros Hb Hx Hy He. rewrite <- (add_offset a x), <- (add_offset a y), He; done. Qed.

Lemma allocator_new_ok {E} b : is_u32 b → b ≠ 0 → new (E:=E) b = Ok (mkSsrcs b 1 0 []) ∧ ok (mkSsrcs b 1 0 []).
Proof. intros Hb Hn. split; [unfold new; by rewrite (proj2 (Z.eqb_neq b 0))|]. split; cbn; [done|lia|lia|unfold MAX_PEER_SSRCS; lia]. Qed.

Lemma with_draw_ok {E} d n : ∀ k, (∀ j, is_u32 (d j)) → ∃ a, with_draw (E:=E) n k d = Ok a ∧ ok a ∧ peer_ssrcs a = [] ∧ next_offset a = 1.
Proof.
  induction n as [|n IH]; intros k Hd; cbn [with_draw].
  - destruct (allocator_new_ok (E:=E) 1) as [-> Ho]; [by vm_compute|done|]. by eexists.
  - destruct (_ =? 0) eqn:Ez; [by apply IH|]. cbn [negb]. apply Z.eqb_neq in Ez.
    destruct (allocator_new_ok (E:=E) (d k)) as [-> Ho]; [apply Hd|done|]. by eexists.
Qed.

Lemma random_ok {E} d : ∃ a, random (E:=E) d = Ok a ∧ ok a ∧ peer_ssrcs a = [] ∧ next_offset a = 1.
Proof. apply with_draw_ok. intros j. by apply wrap_range. Qed.

(** ** Allocation *)

(** What is not handed out at an offset. *)
Definition blocked (a : SsrcAllocator) (o : Z) : Prop :=
  wrapping_add 32 (base a) o = 0 ∨ wrapping_add 32 (base a) o ∈ peer_ssrcs a.

Lemma allocate_from_spec {E} tries : ∀ o a, ok a → next_offset a ≤ o →
  wp (allocate_from tries o : st _ E _) a
    (fun r a' => match r with
       | Some x => ok a' ∧ x = wrapping_add 32 (base a) (next_offset a' - 1) ∧ o < next_offset a' ≤ 2 ^ 31 ∧
           a' = set_next (next_offset a') a ∧ ¬ blocked a (next_offset a' - 1)
       | None => a' = a ∧ (MAX_OUT_SSRC_OFFSET < o + Z.of_nat tries ∨ ∀ j, o ≤ j < o + Z.of_nat tries → blocked a j)
       end) (fun _ _ => False).
Proof.
  induction tries as [|tries IH]; intros o a Ha Ho; cbn [allocate_from].
  { wp. split; [done|]. right. lia. }
  destruct (o >? MAX_OUT_SSRC_OFFSET) eqn:Emax; wp.
  { split; [done|]. left. lia. }
  unfold MAX_OUT_SSRC_OFFSET in *. destruct (_ =? 0) eqn:Ez; cbn [negb andb].
  all: try (case_bool_decide as Hin; cbn [negb]).
  2: { wp. destruct Ha as [? ? ? ?]. apply wp_assert; [apply andb_true_iff; split; [apply Z.geb_le|apply Z.gtb_lt]; lia|]. wp. cbn [next_offset set_next]. replace (o + 1 - 1) with o by lia. split.
       - split; cbn; try done; lia.
       - split; [done|]. split; [lia|]. split; [done|]. intros [Hb|Hb]; [lia|done]. }
  all: eapply wp_mono; [apply IH; [done|lia]|]; intros [x|] a'; cbn beta iota.
  1,3: intros (? & ? & ? & ? & ?); split_and!; try done; lia.
  all: intros [-> [Hl|Hl]]; split; try done; [left; lia|right].
  all: intros j Hj; destruct (decide (j = o)) as [->|]; [|apply Hl; lia]; unfold blocked.
  - left. lia.
  - right. by destruct (decide (wrapping_add 32 (base a) o ∈ peer_ssrcs a)).
Qed.

(** At most 65 offsets are blocked, so 66 tries find one that is not. *)
Lemma not_all_blocked a o : is_u32 (base a) → (length (peer_ssrcs a) ≤ MAX_PEER_SSRCS)%nat → 0 ≤ o → o + Z.of_nat ALLOCATE_TRIES ≤ 2 ^ 32 →
  ¬ ∀ j, o ≤ j < o + Z.of_nat ALLOCATE_TRIES → blocked a j.
Proof.
  intros Hb Hp Ho Hmax Hall. set (l := (fun i => wrapping_add 32 (base a) (o + Z.of_nat i)) <$> seq 0 ALLOCATE_TRIES).
  assert (Hnd : NoDup l).
  { apply NoDup_fmap_2_strong; [|apply NoDup_seq]. intros i j Hi Hj He. apply elem_of_seq in Hi, Hj.
    apply (f_equal (offset_of a)) in He. rewrite !offset_add in He by (done || lia). lia. }
  assert (Hsub : l ⊆ 0 :: peer_ssrcs a).
  { intros x [i [-> Hi]]%list_elem_of_fmap. apply elem_of_seq in Hi. destruct (Hall (o + Z.of_nat i)) as [->|?]; [lia|by left|by right]. }
  assert (Hlen : (length l ≤ length (0%Z :: peer_ssrcs a))%nat).
  { apply submseteq_length, NoDup_submseteq; [done|]. apply Hsub. }
  unfold l in Hlen. rewrite length_fmap, length_seq in Hlen. unfold ALLOCATE_TRIES in Hlen. cbn [length] in Hlen. lia.
Qed.

Lemma allocate_spec {E} a : ok a →
  wp (allocate : st _ E _) a
    (fun r a' => match r with
       | Some x => ok a' ∧ a' = set_next (offset_of a x + 1) a ∧ is_u32 x ∧ x ≠ 0 ∧ x ∉ peer_ssrcs a ∧ next_offset a ≤ offset_of a x
       | None => a' = a ∧ MAX_OUT_SSRC_OFFSET < next_offset a + Z.of_nat ALLOCATE_TRIES
       end) (fun _ _ => False).
Proof.
  intros Ha. unfold allocate. wp. eapply wp_mono; [by apply allocate_from_spec|]. intros [x|] a'; cbn beta iota.
  - intros (Ha' & -> & Hn & Heq & Hb). destruct Ha as [[Hb1 _] Hnx _ _].
    assert (Ho : offset_of a (wrapping_add 32 (base a) (next_offset a' - 1)) = next_offset a' - 1) by (apply offset_add; [done|lia]).
    rewrite Ho. replace (next_offset a' - 1 + 1) with (next_offset a') by lia. split_and!; try done; [by apply wrap_range| | |lia]; intros ?; apply Hb; [by left|by right].
  - intros [-> [Hl|Hl]]; split; try done. destruct Ha as [[Hb1 _] Hnx _ Hp]. unfold MAX_OUT_SSRC_OFFSET.
    exfalso. apply (not_all_blocked a (next_offset a)); [done|done|lia| |done]. unfold ALLOCATE_TRIES, MAX_PEER_SSRCS. lia.
Qed.

Lemma note_spec {E} x a : ok a → is_u32 x →
  wp (note_peer_ssrc x : st _ E _) a
    (fun r a' => ok a' ∧ (if r : bool then next_offset a ≤ offset_of a x ∧ ∃ l, a' = set_peers l a ∧ peer_ssrcs a ⊆ l ∧ (length l ≤ S (length (peer_ssrcs a)))%nat ∧
        (x ∈ l ∨ length (peer_ssrcs a) = MAX_PEER_SSRCS)
      else a' = a ∧ offset_of a x < next_offset a)) (fun _ _ => False).
Proof.
  intros Ha Hx. unfold note_peer_ssrc. wp. destruct (_ <? _) eqn:El; wp; [split; [done|]; split; [done|lia]|].
  assert (Hsame : a = set_peers (peer_ssrcs a) a) by by destruct a.
  case_bool_decide as Hin; cbn [andb]; [case_bool_decide as Hroom|]; wp; cbn beta iota.
  - destruct Ha as [? ? ? ?]. split; [split; cbn; try done; rewrite length_app; cbn; lia|]. split; [lia|]. eexists. split; [done|]. split; [set_solver|].
    rewrite length_app. cbn [length]. split; [lia|]. left. set_solver.
  - split; [done|]. split; [lia|]. exists (peer_ssrcs a). split; [done|]. split; [done|]. split; [lia|]. right. destruct Ha. lia.
  - split; [done|]. split; [lia|]. exists (peer_ssrcs a). split; [done|]. split; [done|]. split; [lia|]. left.
    by destruct (decide (x ∈ peer_ssrcs a)).
Qed.

(** ** Any sequence of uses *)

Inductive use := Allocate | Note (x : Z).

Definition is_note (u : use) : bool := match u with Note _ => true | Allocate => false end.

(** The SSRCs handed out and the peer's SSRCs that were accepted. *)
Fixpoint run_uses {E} (us : list use) (out acc : list Z) : st SsrcAllocator E (list Z * list Z) :=
  match us with
  | [] => mret (out, acc)
  | Allocate :: us => r ← allocate; run_uses us (match r with Some x => out ++ [x] | None => out end) acc
  | Note x :: us => ok ← note_peer_ssrc x; run_uses us out (if ok : bool then acc ++ [x] else acc)
  end.

Record separated (a : SsrcAllocator) (out acc : list Z) : Prop := {
  sp_out : Forall (issued a) out;
  sp_nodup : NoDup out;
  sp_apart : ∀ x, x ∈ acc → x ∉ out;
  sp_acc : acc ⊆ peer_ssrcs a ∧ Forall is_u32 acc;
}.

Lemma issued_more a a' x : base a' = base a → next_offset a ≤ next_offset a' → issued a x → issued a' x.
Proof. unfold issued, offset_of. intros -> ? [? ?]. split; [done|lia]. Qed.

Lemma count_cons_true {A} (f : A → bool) x l : f x = true → count f (x :: l) = S (count f l).
Proof. intros. unfold count. by rewrite filter_cons_True. Qed.

Lemma count_cons_false {A} (f : A → bool) x l : f x = false → count f (x :: l) = count f l.
Proof. intros Hf. unfold count. rewrite filter_cons_False; [done|by rewrite Hf]. Qed.

Lemma run_uses_spec {E} us : ∀ out acc a, ok a → separated a out acc → Forall (fun u => match u with Note x => is_u32 x | _ => True end) us →
  (length (peer_ssrcs a) + count is_note us ≤ MAX_PEER_SSRCS)%nat →
  wp (run_uses us out acc : st _ E _) a (fun r a' => ok a' ∧ base a' = base a ∧ separated a' r.1 r.2) (fun _ _ => False).
Proof.
  induction us as [|u us IH]; intros out acc a Ha Hs Hu Hl; cbn [run_uses]; [by wp|].
  apply Forall_cons in Hu as [Hu0 Hu]. destruct Hs as [Ho Hn Hap [Hac Hau]].
  destruct u as [|x]; [rewrite count_cons_false in Hl by done|rewrite count_cons_true in Hl by done]; wp.
  - eapply wp_mono; [by apply allocate_spec|]. intros [x|] a1; cbn beta iota.
    + intros (Ha1 & He & Hx & Hz & Hp & Hoff). pose proof Ha as [[Hb _] [Hn1 _] _ _].
      assert (Hiss : issued a1 x) by (rewrite He; split; [done|]; unfold offset_of in *; cbn; lia).
      assert (Hnx : x ∉ out). { intros Hin. rewrite Forall_forall in Ho. destruct (Ho x Hin) as [_ ?]. lia. }
      eapply wp_mono; [apply IH; [done| |done|rewrite He; cbn; lia]|].
      * split; [|apply NoDup_app; split_and!; [done|set_solver|apply NoDup_singleton]| |by rewrite He].
        -- apply Forall_app. split; [|by apply Forall_singleton]. eapply Forall_impl; [done|]. intros y Hy.
           eapply issued_more; [| |done]; rewrite He; [done|cbn; lia].
        -- intros y Hy. apply not_elem_of_app. split; [by apply Hap|]. intros ->%list_elem_of_singleton. apply Hp. set_solver.
      * intros r a' (? & Hbb & ?). split_and!; try done. by rewrite Hbb, He.
    + intros [-> _]. apply IH; [done|done|done|lia].
  - eapply wp_mono; [by apply note_spec|]. intros [] a1; cbn beta iota.
    + intros (Ha1 & Hoff & l & He & Hsub & Hlen & Hin). pose proof Ha as [[Hb _] _ _ _].
      eapply wp_mono; [apply IH; [done| |done|rewrite He; cbn; lia]|].
      * split; [|done| |].
        -- eapply Forall_impl; [done|]. intros y Hy. eapply issued_more; [| |done]; by rewrite He.
        -- intros y [Hy| ->%list_elem_of_singleton]%elem_of_app; [by apply Hap|]. intros Hin'. rewrite Forall_forall in Ho. destruct (Ho x Hin') as [_ ?]. lia.
        -- rewrite He. cbn. split; [|apply Forall_app; split; [done|by apply Forall_singleton]].
           intros y [Hy| ->%list_elem_of_singleton]%elem_of_app; [set_solver|]. destruct Hin as [?|Hfull]; [done|lia].
      * intros r a' (? & Hbb & ?). split_and!; try done. by rewrite Hbb, He.
    + intros (_ & -> & _). apply IH; [done|done|done|lia].
Qed.

(** C40: The outbound SSRCs of a session. From any random base, in any
    sequence of allocations and of SSRCs announced by the peer of which at most
    64 are announced, no call panics; the SSRCs handed out are distinct, never
    0 and never the session's own, and none of them is an SSRC that was
    accepted from the peer, before or after it was handed out. *)
Theorem out_ssrcs_unique draw us :
  Forall (fun u => match u with Note x => is_u32 x | Allocate => True end) us → (count is_note us ≤ MAX_PEER_SSRCS)%nat →
  ∃ a0, random (E:=()) draw = Ok a0 ∧ ∃ out acc a, run_uses (E:=()) us [] [] a0 = Ok (out, acc, a) ∧
    NoDup out ∧ (∀ x, x ∈ out → is_u32 x ∧ x ≠ 0 ∧ x ≠ base a0) ∧ ∀ x, x ∈ acc → x ∉ out.
Proof.
  intros Hu Hc. destruct (random_ok (E:=()) draw) as (a0 & Hr & Ha & Hp & _). exists a0. split; [done|].
  pose proof (run_uses_spec (E:=()) us [] [] a0 Ha) as Hrun. unfold run_to in Hrun.
  destruct (run_uses us [] [] a0) as [[[out acc] a]|[]|]; [|exfalso|exfalso]; try apply Hrun; try done; try (by rewrite Hp).
  all: try (split; [done|constructor|set_solver|split; [set_solver|done]]).
  exists out, acc, a. split; [done|]. destruct Hrun as (Ha' & Hb & [Ho Hn Hap _]); [|done|by rewrite Hp|].
  { split; [done|constructor|set_solver|split; [set_solver|done]]. }
  split; [done|]. split; [|done]. intros x Hx. rewrite Forall_forall in Ho. destruct (Ho x Hx) as [[Hux Hz] Hoff]. split; [done|]. split; [done|].
  intros ->. unfold offset_of, wrapping_sub in Hoff. rewrite Hb, Z.sub_diag in Hoff. change (wrap 32 0) with 0 in Hoff. lia.
Qed.

(** From the base 4294967294, with the peer announcing the SSRC after it. *)
Lemma out_ssrcs_unique_witness :
  let us := [Note 4294967295; Allocate; Note 1; Note 4294967294; Allocate; Note 1] in
  run_uses (E:=()) us [] [] (mkSsrcs 4294967294 1 0 []) = Ok ([1; 2], [4294967295], mkSsrcs 4294967294 5 0 [4294967295]) ∧
  ∃ a0, random (E:=()) (fun _ => 4294967294) = Ok a0 ∧ ∃ out acc a, run_uses (E:=()) us [] [] a0 = Ok (out, acc, a) ∧
    NoDup out ∧ (∀ x, x ∈ out → is_u32 x ∧ x ≠ 0 ∧ x ≠ base a0) ∧ ∀ x, x ∈ acc → x ∉ out.
Proof.
  split; [by vm_compute|]. apply (out_ssrcs_unique (fun _ => 4294967294) [Note 4294967295; Allocate; Note 1; Note 4294967294; Allocate; Note 1]).
  - repeat constructor; by vm_compute.
  - vm_compute. lia.
Defined.

End SsrcProofs.
