(* ===== verification/SdpParams.v ===== *)
(** * Data-plane parameters from SDP answers

    [src/orchestrator/sdp_params.rs], with the extension table of
    [crates/nexus-media/src/rtp/extensions.rs] and the parts of a parsed
    answer it reads ([crates/nexus-webrtc/src/sdp/media.rs], [session.rs],
    [attributes.rs]). A text field of fixed size is the string its accessor
    returns; an array with a count is the list and the count. *)

From stdpp Require Import strings.
From S2P Require Import Prelude Model Transports.

#[export] Instance MediaKind_eq_dec : EqDecision MediaKind.
Proof. solve_decision. Defined.

Module Sdp.

Definition MAX_MEDIA_SECTIONS : nat := 32.
Definition MAX_SSRCS_PER_MEDIA : nat := 8.

Inductive MediaType := AudioMedia | VideoMedia | Application.
Inductive Direction := SendRecv | SendOnly | RecvOnly | Inactive.
Inductive DtlsSetup := Active | Passive | Actpass | Holdconn.
Inductive FingerprintAlgorithm := Sha256 | Sha384 | Sha512.

#[global] Instance FingerprintAlgorithm_eq_dec : EqDecision FingerprintAlgorithm.
Proof. solve_decision. Defined.

(** [value]: 64 bytes, of which the first [value_len] are used. *)
Record DtlsFingerprint := mkFingerprint { algorithm : FingerprintAlgorithm; fp_value : list Z; value_len : Z }.

Record RtpCodec := mkRtpCodec { payload_type : Z; name_str : string; clock_rate : Z }.
Record SdpExtMap := mkSdpExt { ext_id : Z; uri_str : string }.
Record SsrcGroup := mkGroup { semantics_str : string; ssrc_list : list Z }.

Record MediaDescription := mkMedia {
  media_type : MediaType;
  port : Z;
  media_fingerprint : option DtlsFingerprint;
  media_setup : option DtlsSetup;
  direction : Direction;
  mid : option string;
  codecs : list (option RtpCodec);
  codec_count : Z;
  extmaps : list (option SdpExtMap);
  extmap_count : Z;
  ssrc_groups : list (option SsrcGroup);
  ssrc_group_count : Z;
  ssrc_values : list Z;
  ssrc_values_count : Z;
}.

Record SessionDescription := mkSdp {
  fingerprint : option DtlsFingerprint;
  setup : option DtlsSetup;
  media : list MediaDescription;
}.

Definition get_ssrc_values {E} (m : MediaDescription) : outcome E (list Z) :=
  assert_ (ssrc_values_count m <=? Z.of_nat MAX_SSRCS_PER_MEDIA);;
  slice 0 (Z.to_nat (ssrc_values_count m)) (ssrc_values m).

(** [.iter().take(count).flatten()] *)
Definition used {A} (count : Z) (l : list (option A)) : list A := omap id (take (Z.to_nat count) l).

(** [eq_ignore_ascii_case] *)
Definition to_lower (c : Ascii.ascii) : Ascii.ascii :=
  let n := Ascii.N_of_ascii c in
  if ((65 <=? n) && (n <=? 90))%N then Ascii.ascii_of_N (n + 32) else c.
Definition eq_ignore_case (a b : string) : bool :=
  bool_decide (to_lower <$> String.list_ascii_of_string a = to_lower <$> String.list_ascii_of_string b).

End Sdp.

Module Extensions.

Definition MID : Z := 1.
Definition AUDIO_LEVEL : Z := 2.
Definition VIDEO_ORIENTATION : Z := 3.

Record Extension := mkExt { id : Z; uri : string; audio : bool; video : bool; offered : bool }.

Definition TABLE : list Extension := [
  mkExt MID "urn:ietf:params:rtp-hdrext:sdes:mid" true true true;
  mkExt AUDIO_LEVEL "urn:ietf:params:rtp-hdrext:ssrc-audio-level" true false true;
  mkExt VIDEO_ORIENTATION "urn:3gpp:video-orientation" false true true;
  mkExt 4 "http://www.ietf.org/id/draft-holmer-rmcat-transport-wide-cc-extensions-01" true true false;
  mkExt 5 "http://www.webrtc.org/experiments/rtp-hdrext/abs-send-time" false true false;
  mkExt 10 "urn:ietf:params:rtp-hdrext:sdes:rtp-stream-id" false true false;
  mkExt 11 "urn:ietf:params:rtp-hdrext:sdes:repaired-rtp-stream-id" false true false ].

Definition offered_for (k : MediaKind) : list Extension :=
  List.filter (fun e => offered e && match k with Audio => audio e | Video => video e end) TABLE.

End Extensions.

Module SdpParams.
Import Sdp.

Definition MAX_ONE_BYTE_EXT_ID : Z := 14.

Record CodecId := mkCodecId { codec_name : string; codec_rate : Z }.
Definition OPUS : CodecId := mkCodecId "opus" 48000.
Definition VP8 : CodecId := mkCodecId "VP8" 90000.
Definition v1_codec (k : MediaKind) : CodecId := match k with Audio => OPUS | Video => VP8 end.

Inductive ParamsError :=
| UnsupportedMedia
| MissingMid
| NoCommonCodec (name : string)
| ExtIdOutOfRange (uri : string) (id : Z)
| DuplicateExtId (id : Z)
| NoSsrcSource
| InvalidCname
| Simulcast
| KindMismatch.

Definition kind_of (m : MediaDescription) : outcome ParamsError MediaKind :=
  match media_type m with AudioMedia => Ok Audio | VideoMedia => Ok Video | Application => Err UnsupportedMedia end.

Definition mid_of (m : MediaDescription) : outcome ParamsError (list Z) :=
  s ← of_option MissingMid (mid m);
  of_option MissingMid (short_bytes_new MID_CAPACITY (as_bytes s)).

Definition find_pt (m : MediaDescription) (c : CodecId) : outcome ParamsError Z :=
  match List.find (fun x => eq_ignore_case (name_str x) (codec_name c) && (clock_rate x =? codec_rate c)) (used (codec_count m) (codecs m)) with
  | Some x => if payload_type x <=? 127 then Ok (payload_type x) else Err (NoCommonCodec (codec_name c))
  | None => Err (NoCommonCodec (codec_name c))
  end.

Definition extmap_id (m : MediaDescription) (uri : string) : option Z :=
  ext_id <$> List.find (fun e => bool_decide (uri_str e = uri)) (used (extmap_count m) (extmaps m)).

Definition set_ext_id (table_id id : Z) (ids : ExtIds) : ExtIds :=
  if table_id =? Extensions.MID then mkExtIds id (audio_level ids) (video_orientation ids)
  else if table_id =? Extensions.AUDIO_LEVEL then mkExtIds (ext_mid ids) id (video_orientation ids)
  else mkExtIds (ext_mid ids) (audio_level ids) id.

(** The loop over the wanted extensions. *)
Fixpoint read_ext_ids (m : MediaDescription) (wanted : list (Z * bool)) (ids : ExtIds) : outcome ParamsError ExtIds :=
  match wanted with
  | [] => Ok ids
  | (table_id, applies) :: wanted =>
    if negb applies then read_ext_ids m wanted ids else
    e ← expect (List.find (fun e => Extensions.id e =? table_id) Extensions.TABLE);
    match extmap_id m (Extensions.uri e) with
    | None => read_ext_ids m wanted ids
    | Some id =>
      fail_if (id >? MAX_ONE_BYTE_EXT_ID) (ExtIdOutOfRange (Extensions.uri e) id);;
      fail_if (bool_decide (id ∈ [ext_mid ids; audio_level ids; video_orientation ids])) (DuplicateExtId id);;
      read_ext_ids m wanted (set_ext_id table_id id ids)
    end
  end.

Definition ext_ids (m : MediaDescription) (k : MediaKind) : outcome ParamsError ExtIds :=
  let '(audio, video) := match k with Audio => (true, false) | Video => (false, true) end in
  read_ext_ids m [(Extensions.MID, true); (Extensions.AUDIO_LEVEL, audio); (Extensions.VIDEO_ORIENTATION, video)] (mkExtIds 0 0 0).

Definition groups (m : MediaDescription) : list SsrcGroup := used (ssrc_group_count m) (ssrc_groups m).

Definition has_simulcast_group (m : MediaDescription) : bool :=
  existsb (fun g => eq_ignore_case (semantics_str g) "SIM") (groups m).

Definition primary_ssrc (m : MediaDescription) : option Z :=
  let secondaries := concat ((fun g => drop 1 (ssrc_list g)) <$> groups m) in
  List.find (fun x => negb (x =? 0) && negb (bool_decide (x ∈ secondaries))) (take (Z.to_nat (ssrc_values_count m)) (ssrc_values m)).

Definition track_spec (m : MediaDescription) (cname : list Z) : outcome ParamsError (option TrackSpec) :=
  let sends := match direction m with SendOnly | SendRecv => true | _ => false end in
  if (port m =? 0) || negb sends then Ok None else
  kind ← kind_of m;
  fail_if (has_simulcast_group m) Simulcast;;
  let codec := v1_codec kind in
  pt ← find_pt m codec;
  ext ← ext_ids m kind;
  let ssrc := primary_ssrc m in
  fail_if (negb (is_some ssrc) && (ext_mid ext =? 0)) NoSsrcSource;;
  mid ← mid_of m;
  cn ← of_option InvalidCname (short_bytes_new CNAME_CAPACITY cname);
  assert_ (pt <=? 127);;
  Ok (Some (mkTrackSpec kind mid ssrc (mkCodec pt (codec_rate codec)) ext cn)).

(** The entries of the map for the two forwarded extensions. *)
Fixpoint map_exts (publisher_mid : Z) (pairs : list (Z * Z)) (map : list Z) : outcome ParamsError (list Z) :=
  match pairs with
  | [] => Ok map
  | (from, to) :: pairs =>
    map ← (if negb (from =? 0) && negb (from =? publisher_mid) then set_at (Z.to_nat from) to map else Ok map);
    map_exts publisher_mid pairs map
  end.

Definition ext_map (pub sub : ExtIds) : outcome ParamsError ExtMap :=
  map ← map_exts (ext_mid pub) [(audio_level pub, audio_level sub); (video_orientation pub, video_orientation sub)] (replicate 15 0);
  Ok (mkExtMap map (ext_mid sub)).

Definition sub_spec (m : MediaDescription) (track : TrackSpec) (out_ssrc : Z) (source : TrackRef)
  : outcome ParamsError (option SubSpec) :=
  let receives := match direction m with RecvOnly | SendRecv => true | _ => false end in
  if (port m =? 0) || negb receives then Ok None else
  k ← kind_of m;
  fail_if (negb (bool_decide (k = kind track))) KindMismatch;;
  let c := mkCodecId (codec_name (v1_codec (kind track))) (codec_clock_rate (codec track)) in
  sub_pt ← find_pt m c;
  pt_map ← expect (PtMap.new [(pt (codec track), sub_pt)]);
  sub ← ext_ids m (kind track);
  em ← ext_map (ext track) sub;
  mid ← mid_of m;
  assert_ (bool_decide (PtMap.lookup pt_map (pt (codec track)) = Some sub_pt));;
  Ok (Some (mkSubSpec out_ssrc mid pt_map em source)).

End SdpParams.
