(* ===== verification/SdpText.v ===== *)
(** * Text

    What the SDP code ([crates/nexus-webrtc/src/sdp]) uses of the standard
    library's strings. A [&str] is the list of its UTF-8 bytes: searching for
    an ASCII character, splitting and stripping work on bytes, slicing checks
    that the cut is between characters. *)

From stdpp Require Import strings.
From S2P Require Import Prelude Model Transports.

Module Text.

Abbreviation str := (list Z).

Definition lit (s : string) : str := as_bytes s.

(** ** UTF-8 *)

Definition is_cont (b : Z) : bool := (128 <=? b) && (b <? 192).

(** [str::from_utf8] succeeds: no overlong form, no surrogate, at most U+10FFFF. *)
Fixpoint utf8_valid (s : str) : bool :=
  match s with
  | [] => true
  | a :: s =>
    if a <? 128 then utf8_valid s
    else if (194 <=? a) && (a <? 224) then
      match s with b :: s => is_cont b && utf8_valid s | _ => false end
    else if (224 <=? a) && (a <? 240) then
      match s with
      | b :: c :: s => is_cont b && is_cont c && (if a =? 224 then 160 <=? b else if a =? 237 then b <? 160 else true) && utf8_valid s
      | _ => false
      end
    else if (240 <=? a) && (a <? 245) then
      match s with
      | b :: c :: d :: s => is_cont b && is_cont c && is_cont d && (if a =? 240 then 144 <=? b else if a =? 244 then b <? 144 else true) && utf8_valid s
      | _ => false
      end
    else false
  end.

(** [from_utf8(..).unwrap_or(d)] *)
Definition from_utf8_or (d : str) (s : str) : str := if utf8_valid s then s else d.

(** The length of the character the text starts with, if it is valid. *)
Definition char_len (s : str) : option nat :=
  match s with
  | [] => None
  | a :: s =>
    if a <? 128 then Some 1%nat
    else if (194 <=? a) && (a <? 224) then
      match s with b :: _ => if is_cont b then Some 2%nat else None | _ => None end
    else if (224 <=? a) && (a <? 240) then
      match s with
      | b :: c :: _ => if is_cont b && is_cont c && (if a =? 224 then 160 <=? b else if a =? 237 then b <? 160 else true) then Some 3%nat else None
      | _ => None
      end
    else if (240 <=? a) && (a <? 245) then
      match s with
      | b :: c :: d :: _ =>
        if is_cont b && is_cont c && is_cont d && (if a =? 240 then 144 <=? b else if a =? 244 then b <? 144 else true) then Some 4%nat else None
      | _ => None
      end
    else None
  end.

(** The bytes of an invalid start that one replacement character stands for:
    the longest beginning of a valid character, at least one byte. *)
Definition bad_len (s : str) : nat :=
  match s with
  | a :: b :: c :: _ =>
    let second := is_cont b && (if a =? 224 then 160 <=? b else if a =? 237 then b <? 160 else if a =? 240 then 144 <=? b else if a =? 244 then b <? 144 else true) in
    if (224 <=? a) && (a <? 240) && second then 2%nat
    else if (240 <=? a) && (a <? 245) && second then if is_cont c then 3%nat else 2%nat
    else 1%nat
  | [a; b] =>
    let second := is_cont b && (if a =? 224 then 160 <=? b else if a =? 237 then b <? 160 else if a =? 240 then 144 <=? b else if a =? 244 then b <? 144 else true) in
    if (224 <=? a) && (a <? 245) && second then 2%nat else 1%nat
  | _ => 1%nat
  end.

(** [String::from_utf8_lossy]; [copy] and [skip]: bytes left of a character
    that is copied or replaced. *)
Fixpoint lossy_from (copy skip : nat) (s : str) : str :=
  match s with
  | [] => []
  | b :: s' =>
    match copy, skip with
    | S copy, _ => b :: lossy_from copy 0 s'
    | O, S skip => lossy_from 0 skip s'
    | O, O => match char_len s with
              | Some n => b :: lossy_from (n - 1) 0 s'
              | None => [239; 191; 189] ++ lossy_from 0 (bad_len s - 1) s'
              end
    end
  end.
Definition from_utf8_lossy (s : str) : str := lossy_from 0 0 s.

(** The [String] with these bytes. *)
Definition text_of (s : str) : string := String.string_of_list_ascii ((fun b => Ascii.ascii_of_N (Z.to_N b)) <$> s).

(** [is_char_boundary] *)
Definition boundary (s : str) (i : nat) : bool :=
  bool_decide (i = 0%nat) || match s !! i with Some b => negb (is_cont b) | None => bool_decide (i = length s) end.

(** [&s[a..b]] *)
Definition str_slice {E} (a b : nat) (s : str) : outcome E str :=
  assert_ (boundary s a && boundary s b);; slice a b s.
Definition str_to {E} (b : nat) (s : str) : outcome E str := str_slice 0 b s.
Definition str_from {E} (a : nat) (s : str) : outcome E str := str_slice a (length s) s.

Definition is_ascii (s : str) : bool := forallb (fun b => b <? 128) s.

(** ** Searching and splitting *)

(** [find(c)] for an ASCII character *)
Definition find (c : Z) (s : str) : option nat := position (fun b => b =? c) s.

Definition strip_prefix (p s : str) : option str := if bool_decide (take (length p) s = p) then Some (drop (length p) s) else None.

(** [contains(p)] *)
Fixpoint contains (p s : str) : bool :=
  is_some (strip_prefix p s) || match s with [] => false | _ :: s => contains p s end.

(** [split(c)]; [splitn(n, c)] for [n = S k] *)
Fixpoint split (c : Z) (s : str) : list str :=
  match s with
  | [] => [[]]
  | b :: s => if b =? c then [] :: split c s else match split c s with t :: ts => (b :: t) :: ts | [] => [[b]] end
  end.

Fixpoint splitn (k : nat) (c : Z) (s : str) : list str :=
  match k with
  | O => [s]
  | S k => match find c s with Some i => take i s :: splitn k c (drop (S i) s) | None => [s] end
  end.

(** The length of the white-space character the text starts with, 0 if none
    ([char::is_whitespace]). *)
Definition ws_len (s : str) : nat :=
  match s with
  | [] => 0%nat
  | b :: s =>
    if ((9 <=? b) && (b <=? 13)) || (b =? 32) then 1%nat else
    if b =? 194 then match s with x :: _ => if (x =? 133) || (x =? 160) then 2%nat else 0%nat | _ => 0%nat end else
    if b =? 225 then match s with x :: y :: _ => if (x =? 154) && (y =? 128) then 3%nat else 0%nat | _ => 0%nat end else
    if b =? 226 then
      match s with
      | x :: y :: _ =>
        if (x =? 128) && (((128 <=? y) && (y <=? 138)) || (y =? 168) || (y =? 169) || (y =? 175)) || (x =? 129) && (y =? 159) then 3%nat else 0%nat
      | _ => 0%nat
      end else
    if b =? 227 then match s with x :: y :: _ => if (x =? 128) && (y =? 128) then 3%nat else 0%nat | _ => 0%nat end
    else 0%nat
  end.

(** [split_whitespace]; [skip]: bytes left of a white-space character. *)
Definition push_token (token : str) (ts : list str) : list str := if bool_decide (token = []) then ts else token :: ts.

Fixpoint split_ws_from (skip : nat) (token : str) (s : str) : list str :=
  match s with
  | [] => push_token token []
  | b :: s' =>
    match skip with
    | S skip => split_ws_from skip [] s'
    | O => match ws_len (b :: s') with
           | O => split_ws_from 0 (token ++ [b]) s'
           | S k => push_token token (split_ws_from k [] s')
           end
    end
  end.
Definition split_whitespace (s : str) : list str := split_ws_from 0 [] s.

Fixpoint trim_start (skip : nat) (s : str) : str :=
  match s with
  | [] => []
  | b :: s' =>
    match skip with
    | S skip => trim_start skip s'
    | O => match ws_len (b :: s') with O => b :: s' | S k => trim_start k s' end
    end
  end.

(** White space is dropped when nothing else follows. *)
Fixpoint trim_end (skip : nat) (s : str) : str :=
  match s with
  | [] => []
  | b :: s' =>
    let keep r := if bool_decide (r = []) then [] else b :: r in
    match skip with
    | S skip => keep (trim_end skip s')
    | O => match ws_len (b :: s') with O => b :: trim_end 0 s' | S k => keep (trim_end k s') end
    end
  end.
Definition trim (s : str) : str := trim_end 0 (trim_start 0 s).

(** [lines]: a line ends at [\n] or [\r\n]; nothing follows the last. *)
Definition strip_cr (s : str) : str := match last s with Some 13 => take (length s - 1) s | _ => s end.

Fixpoint lines_of (l : list str) : list str :=
  match l with
  | [] => []
  | [s] => if bool_decide (s = []) then [] else [s]
  | s :: l => strip_cr s :: lines_of l
  end.
Definition lines (s : str) : list str := lines_of (split 10 s).

(** ** Case *)

(** [to_lowercase] and [to_uppercase] compared with ASCII words. Of the other
    characters only U+212A, U+0130 and the like map to ASCII letters that no
    word compared with has, except the long s (U+017F), upper case S. *)
Definition lower (b : Z) : Z := if (65 <=? b) && (b <=? 90) then b + 32 else b.
Definition upper (b : Z) : Z := if (97 <=? b) && (b <=? 122) then b - 32 else b.
Definition to_lowercase (s : str) : str := lower <$> s.
Fixpoint to_uppercase (s : str) : str :=
  match s with
  | [] => []
  | b :: s => match b, s with 197, 191 :: s => 83 :: to_uppercase s | _, _ => upper b :: to_uppercase s end
  end.
Definition eq_ignore_ascii_case (a b : str) : bool := bool_decide (to_lowercase a = to_lowercase b).

(** ** Numbers *)

Definition digit_of (radix : Z) (b : Z) : option Z :=
  let d := if (48 <=? b) && (b <=? 57) then Some (b - 48)
           else if (97 <=? b) && (b <=? 122) then Some (b - 87)
           else if (65 <=? b) && (b <=? 90) then Some (b - 55) else None in
  match d with Some d => if d <? radix then Some d else None | None => None end.

Fixpoint digits (w radix acc : Z) (s : str) : option Z :=
  match s with
  | [] => Some acc
  | b :: s => match digit_of radix b with
              | Some d => if acc * radix + d <? 2 ^ w then digits w radix (acc * radix + d) s else None
              | None => None
              end
  end.

(** [from_str_radix] of an unsigned type: one plus sign is allowed. *)
Definition parse_radix (w radix : Z) (s : str) : option Z :=
  match s with
  | [] => None
  | 43 :: s => if bool_decide (s = []) then None else digits w radix 0 s
  | _ => digits w radix 0 s
  end.
Definition parse_uint (w : Z) (s : str) : option Z := parse_radix w 10 s.

(** [to_string] of an unsigned number, and [{:02X}] of a byte *)
Fixpoint dec_go (fuel : nat) (n : Z) (acc : str) : str :=
  match fuel with
  | O => acc
  | S fuel => let acc := (48 + n mod 10) :: acc in if n <? 10 then acc else dec_go fuel (n / 10) acc
  end.
Definition dec (n : Z) : str := dec_go 20 n [].

Definition hex_digit (d : Z) : Z := if d <? 10 then 48 + d else 55 + d.
Definition hex2 (b : Z) : str := [hex_digit (b / 16); hex_digit (b mod 16)].

(** [join] *)
Fixpoint join (sep : str) (l : list str) : str :=
  match l with [] => [] | [s] => s | s :: l => s ++ sep ++ join sep l end.

(** The first [cap] bytes: a copy into a fixed buffer. *)
Definition cut (cap : nat) (s : str) : str := take cap s.

(** ** Socket addresses

    [SocketAddr::from_str]: a reader takes a prefix of the text. *)

Definition reader (A : Type) := str → option (A * str).

Definition read_char (c : Z) : reader () := fun s => match s with b :: s => if b =? c then Some ((), s) else None | [] => None end.

Fixpoint read_digits (w radix : Z) (max : option nat) (count : nat) (acc : Z) (s : str) : option (Z * nat * str) :=
  match s with
  | [] => Some (acc, count, s)
  | b :: s' =>
    match digit_of radix b with
    | None => Some (acc, count, s)
    | Some d =>
      if negb (acc * radix + d <? 2 ^ w) then None else
      if match max with Some m => bool_decide (m < S count)%nat | None => false end then None else
      read_digits w radix max (S count) (acc * radix + d) s'
    end
  end.

Definition read_number (w radix : Z) (max : option nat) (zero_prefix : bool) : reader Z := fun s =>
  match read_digits w radix max 0 0 s with
  | Some (n, count, rest) =>
    if bool_decide (count = 0%nat) then None else
    if negb zero_prefix && bool_decide (1 < count)%nat && bool_decide (head s = Some 48) then None else Some (n, rest)
  | None => None
  end.

(** A separator before every element but the first. *)
Definition read_separator {A} (sep : Z) (index : nat) (r : reader A) : reader A := fun s =>
  match index with O => r s | S _ => match read_char sep s with Some (_, s) => r s | None => None end end.

Definition read_octet (i : nat) : reader Z := read_separator 46 i (read_number 8 10 (Some 3%nat) false).

Definition read_ipv4 : reader Z := fun s =>
  '(a, s) ← read_octet 0 s; '(b, s) ← read_octet 1 s; '(c, s) ← read_octet 2 s; '(d, s) ← read_octet 3 s;
  Some (a * 2 ^ 24 + b * 2 ^ 16 + c * 2 ^ 8 + d, s).

(** Up to [limit] groups, the last two possibly an IPv4 address. *)
Fixpoint read_groups (limit i : nat) (s : str) : list Z * bool * str :=
  match limit with
  | O => ([], false, s)
  | S limit =>
    match (if bool_decide (limit = 0%nat) then None else read_separator 58 i read_ipv4 s) with
    | Some (a, s) => ([a / 2 ^ 16; a mod 2 ^ 16], true, s)
    | None =>
      match read_separator 58 i (read_number 16 16 (Some 4%nat) true) s with
      | Some (g, s) => let '(gs, v4, s) := read_groups limit (S i) s in (g :: gs, v4, s)
      | None => ([], false, s)
      end
    end
  end.

Definition of_groups (gs : list Z) : Z := foldl (fun a g => a * 2 ^ 16 + g) 0 gs.

Definition read_ipv6 : reader Z := fun s =>
  let '(hd, v4, s) := read_groups 8 0 s in
  if bool_decide (length hd = 8%nat) then Some (of_groups hd, s) else
  if v4 then None else
  '(_, s) ← read_char 58 s; '(_, s) ← read_char 58 s;
  let '(tl, _, s) := read_groups (8 - (length hd + 1)) 0 s in
  Some (of_groups (hd ++ replicate (8 - length hd - length tl) 0 ++ tl), s).

Definition read_port : reader Z := fun s => '(_, s) ← read_char 58 s; read_number 16 10 None true s.

Definition read_scope : reader Z := fun s => '(_, s) ← read_char 37 s; read_number 32 10 None true s.

Definition read_addr_v4 : reader SocketAddr := fun s => '(a, s) ← read_ipv4 s; '(p, s) ← read_port s; Some (V4 a p, s).

Definition read_addr_v6 : reader SocketAddr := fun s =>
  '(_, s) ← read_char 91 s; '(a, s) ← read_ipv6 s;
  let '(scope, s) := match read_scope s with Some r => r | None => (0, s) end in
  '(_, s) ← read_char 93 s; '(p, s) ← read_port s; Some (V6 a p 0 scope, s).

Definition parse_addr (s : str) : option SocketAddr :=
  match (match read_addr_v4 s with Some r => Some r | None => read_addr_v6 s end) with
  | Some (a, []) => Some a
  | _ => None
  end.

End Text.
