(* ===== verification/SdpModel.v ===== *)
(** * Session descriptions

    [crates/nexus-webrtc/src/sdp]: the data of a description and its
    attributes ([attributes.rs], [media.rs], [session.rs]), reading and
    writing of each attribute, and the printer ([printer.rs]). A fixed array
    with its count is the list of its entries, a text buffer with its length
    the bytes in use; the capacities are checked where the code checks them.
    The variant of an error is kept, its explanatory text is not; debug
    assertions are left out. *)

From stdpp Require Import strings.
From S2P Require Import Prelude Model Transports SdpParams SdpText.

Module SdpTypes.
Import Text.

Definition MAX_MEDIA_SECTIONS : nat := 32.
Definition MAX_CODECS_PER_MEDIA : nat := 16.
Definition MAX_CANDIDATES_PER_MEDIA : nat := 32.
Definition MAX_SSRCS_PER_MEDIA : nat := 8.
Definition MAX_EXTMAPS_PER_MEDIA : nat := 16.
Definition MAX_SDP_SIZE : nat := Z.to_nat 131072.
Definition MAX_MID_LEN : nat := 16.
Definition MAX_BUNDLE_LEN : nat := MAX_MEDIA_SECTIONS * (MAX_MID_LEN + 1).
Definition MIN_ICE_UFRAG_LEN : nat := 4.
Definition MIN_ICE_PWD_LEN : nat := 22.
Definition MAX_ICE_UFRAG_LEN : nat := 256.
Definition MAX_ICE_PWD_LEN : nat := 256.
Definition MAX_RTCP_FB_PER_MEDIA : nat := 32.
Definition MAX_SSRC_GROUPS_PER_MEDIA : nat := 8.
Definition MAX_RIDS_PER_MEDIA : nat := 4.
Definition MAX_FORMATS : nat := 32.

Inductive SdpError :=
| InvalidFormat
| MissingField (field : string)
| InvalidVersion (version : Z)
| InvalidMediaType (media_type : str)
| InvalidTransport (transport : str)
| InvalidAttribute (name : string)
| TooManyMedia (count max : nat)
| TooManyCodecs (count max : nat)
| TooManyCandidates (count max : nat)
| InvalidCandidate (reason : string)
| InvalidFingerprint (reason : string)
| InvalidConnection
| ParseError (line : nat)
| TooLarge (size max : nat)
| Unsupported
| MissingIceCredentials
| MissingFingerprint
| InvalidIceCredentialLength (field : string) (actual min max : nat)
| UnsupportedFingerprintAlgorithm (algorithm : str)
| InvalidBundleGroup (mid : str)
| NoCommonCodec (media_type : str).

(** [is_recoverable] *)
Definition is_recoverable (e : SdpError) : bool :=
  match e with InvalidAttribute _ | InvalidCandidate _ => true | _ => false end.

Definition error_code (e : SdpError) : Z :=
  match e with
  | InvalidFormat => 1001 | MissingField _ => 1002 | InvalidVersion _ => 1003 | InvalidMediaType _ => 1004 | InvalidTransport _ => 1005
  | InvalidAttribute _ => 1006 | TooManyMedia _ _ => 1007 | TooManyCodecs _ _ => 1008 | TooManyCandidates _ _ => 1009 | InvalidCandidate _ => 1010
  | InvalidFingerprint _ => 1011 | InvalidConnection => 1012 | ParseError _ => 1013 | TooLarge _ _ => 1014 | Unsupported => 1015
  | MissingIceCredentials => 1016 | MissingFingerprint => 1017 | InvalidIceCredentialLength _ _ _ _ => 1018
  | UnsupportedFingerprintAlgorithm _ => 1019 | InvalidBundleGroup _ => 1020 | NoCommonCodec _ => 1021
  end.

(** A fallible step whose error is dropped. *)
Definition or_else {A} (d : A) (m : outcome SdpError A) : outcome SdpError A :=
  match m with Ok a => Ok a | Err _ => Ok d | Panic => Panic end.

End SdpTypes.

Module Attributes.
Import Text Sdp SdpTypes.

(** ** Candidates *)

Inductive CandidateTransport := Udp | Tcp.
Inductive CandidateType := Host | Srflx | Prflx | Relay.

Record IceCandidate := mkCandidate {
  foundation : str;
  component : Z;
  transport : CandidateTransport;
  priority : Z;
  address : SocketAddr;
  typ : CandidateType;
  related_addr : option SocketAddr;
}.

Definition parse_transport (s : str) : outcome SdpError CandidateTransport :=
  let s := to_lowercase s in
  if bool_decide (s = lit "udp") then Ok Udp else if bool_decide (s = lit "tcp") then Ok Tcp else Err (InvalidCandidate "unknown transport").

Definition parse_type (s : str) : outcome SdpError CandidateType :=
  if bool_decide (s = lit "host") then Ok Host else if bool_decide (s = lit "srflx") then Ok Srflx
  else if bool_decide (s = lit "prflx") then Ok Prflx else if bool_decide (s = lit "relay") then Ok Relay
  else Err (InvalidCandidate "unknown type").

(** [format!("{}:{}", addr, port)] *)
Definition host_port (addr : str) (port : Z) : str := addr ++ lit ":" ++ dec port.

Definition parse_candidate (value : str) : outcome SdpError IceCandidate :=
  let parts := split_whitespace value in
  fail_if (bool_decide (length parts < 8)%nat) (InvalidCandidate "too few fields");;
  p0 ← idx parts 0; p1 ← idx parts 1; p2 ← idx parts 2; p3 ← idx parts 3;
  component ← of_option (InvalidCandidate "invalid component") (parse_uint 8 p1);
  transport ← parse_transport p2;
  priority ← of_option (InvalidCandidate "invalid priority") (parse_uint 32 p3);
  p4 ← idx parts 4; p5 ← idx parts 5;
  port ← of_option (InvalidCandidate "invalid port") (parse_uint 16 p5);
  address ← of_option (InvalidCandidate "invalid address") (parse_addr (host_port p4 port));
  p6 ← idx parts 6;
  fail_if (negb (bool_decide (p6 = lit "typ"))) (InvalidCandidate "expected 'typ'");;
  p7 ← idx parts 7;
  typ ← parse_type p7;
  related ← (if bool_decide (12 ≤ length parts)%nat then
               p8 ← idx parts 8; p10 ← idx parts 10;
               if bool_decide (p8 = lit "raddr") && bool_decide (p10 = lit "rport") then
                 p9 ← idx parts 9; p11 ← idx parts 11;
                 Ok (rport ← parse_uint 16 p11; parse_addr (host_port p9 rport))
               else Ok None
             else Ok None);
  Ok (mkCandidate (cut 32 p0) component transport priority address typ related).

(** [Display] of an address: the longest run of two or more zero groups of an
    IPv6 address is left out. *)
Fixpoint hex_go (fuel : nat) (n : Z) (acc : str) : str :=
  match fuel with
  | O => acc
  | S fuel => let acc := lower (hex_digit (n mod 16)) :: acc in if n <? 16 then acc else hex_go fuel (n / 16) acc
  end.
Definition hex (n : Z) : str := hex_go 4 n [].

Definition ipv4_str (a : Z) : str :=
  join (lit ".") [dec (a / 2 ^ 24); dec (a / 2 ^ 16 mod 2 ^ 8); dec (a / 2 ^ 8 mod 2 ^ 8); dec (a mod 2 ^ 8)].

Definition groups_of (a : Z) : list Z := (fun k => a / 2 ^ (16 * Z.of_nat (7 - k)) mod 2 ^ 16) <$> seq 0 8.

Fixpoint zero_runs (i : nat) (cur best : nat * nat) (gs : list Z) : nat * nat :=
  match gs with
  | [] => best
  | g :: gs =>
    if g =? 0 then
      let cur := if bool_decide (cur.2 = 0%nat) then (i, 1%nat) else (cur.1, S cur.2) in
      zero_runs (S i) cur (if bool_decide (best.2 < cur.2)%nat then cur else best) gs
    else zero_runs (S i) (0, 0)%nat best gs
  end.

Definition ipv6_str (a : Z) : str :=
  if a / 2 ^ 32 =? 65535 then lit "::ffff:" ++ ipv4_str (a mod 2 ^ 32) else
  let gs := groups_of a in
  let '(start, len) := zero_runs 0 (0, 0)%nat (0, 0)%nat gs in
  if bool_decide (1 < len)%nat
  then join (lit ":") (hex <$> take start gs) ++ lit "::" ++ join (lit ":") (hex <$> drop (start + len) gs)
  else join (lit ":") (hex <$> gs).

Definition ip_str (a : SocketAddr) : str := match a with V4 ip _ => ipv4_str ip | V6 ip _ _ _ => ipv6_str ip end.
Definition port_of (a : SocketAddr) : Z := match a with V4 _ p => p | V6 _ p _ _ => p end.

Definition candidate_to_sdp (c : IceCandidate) : str :=
  let t := match transport c with Udp => lit "udp" | Tcp => lit "tcp" end in
  let k := match typ c with Host => lit "host" | Srflx => lit "srflx" | Prflx => lit "prflx" | Relay => lit "relay" end in
  join (lit " ") [from_utf8_or (lit "unknown") (foundation c); dec (component c); t; dec (priority c);
                  ip_str (address c); dec (port_of (address c)); lit "typ"; k] ++
  match related_addr c with
  | Some a => lit " raddr " ++ ip_str a ++ lit " rport " ++ dec (port_of a)
  | None => []
  end.

(** ** DTLS *)

Definition hash_len (a : FingerprintAlgorithm) : nat := match a with Sha256 => 32 | Sha384 => 48 | Sha512 => 64 end.

Definition parse_algorithm (s : str) : outcome SdpError FingerprintAlgorithm :=
  let s := to_lowercase s in
  if bool_decide (s = lit "sha-256") then Ok Sha256 else if bool_decide (s = lit "sha-384") then Ok Sha384
  else if bool_decide (s = lit "sha-512") then Ok Sha512 else Err (UnsupportedFingerprintAlgorithm s).

Definition parse_hex_bytes (hex_str : str) : outcome SdpError (list Z) :=
  fail_if (negb (is_ascii hex_str)) (InvalidFingerprint "non-ASCII hex string");;
  fail_if (negb (Nat.even (length hex_str))) (InvalidFingerprint "hex string has odd length");;
  mapM (fun k => p ← str_slice (2 * k) (2 * k + 2) hex_str; of_option (InvalidFingerprint "invalid hex") (parse_radix 8 16 p))
    (seq 0 (length hex_str / 2)).

Definition pad (n : nat) (l : list Z) : list Z := l ++ replicate (n - length l) 0.

Definition parse_fingerprint (value : str) : outcome SdpError DtlsFingerprint :=
  fail_if (bool_decide (value = [])) (InvalidFingerprint "empty fingerprint value");;
  let parts := split_whitespace value in
  fail_if (negb (bool_decide (length parts = 2%nat))) (InvalidFingerprint "expected algorithm and fingerprint");;
  p0 ← idx parts 0;
  algorithm ← parse_algorithm p0;
  p1 ← idx parts 1;
  bytes ← parse_hex_bytes (List.filter (fun b => negb (b =? 58)) p1);
  fail_if (negb (bool_decide (length bytes = hash_len algorithm))) (InvalidFingerprint "fingerprint length does not match algorithm");;
  Ok (mkFingerprint algorithm (pad 64 bytes) (Z.of_nat (length bytes))).

Definition validate_fingerprint (f : DtlsFingerprint) : outcome SdpError () :=
  fail_if (negb (value_len f =? Z.of_nat (hash_len (algorithm f)))) (InvalidFingerprint "fingerprint length does not match algorithm").

Definition algorithm_str (a : FingerprintAlgorithm) : str :=
  match a with Sha256 => lit "sha-256" | Sha384 => lit "sha-384" | Sha512 => lit "sha-512" end.

Definition fingerprint_to_sdp (f : DtlsFingerprint) : str :=
  algorithm_str (algorithm f) ++ lit " " ++ join (lit ":") (hex2 <$> take (Z.to_nat (value_len f)) (fp_value f)).

Definition parse_setup (s : str) : option DtlsSetup :=
  let s := to_lowercase s in
  if bool_decide (s = lit "active") then Some Active else if bool_decide (s = lit "passive") then Some Passive
  else if bool_decide (s = lit "actpass") then Some Actpass else if bool_decide (s = lit "holdconn") then Some Holdconn else None.

Definition setup_str (s : DtlsSetup) : str :=
  match s with Active => lit "active" | Passive => lit "passive" | Actpass => lit "actpass" | Holdconn => lit "holdconn" end.

(** ** Codecs and streams *)

Record RtpCodec := mkRtpCodec { payload_type : Z; codec_name : str; clock_rate : Z; channels : option Z }.

Definition parse_codec (pt : Z) (value : str) : outcome SdpError RtpCodec :=
  fail_if (127 <? pt) (InvalidAttribute "rtpmap");;
  let parts := split 47 value in
  fail_if (bool_decide (length parts < 2)%nat) (InvalidAttribute "rtpmap");;
  p0 ← idx parts 0; p1 ← idx parts 1;
  rate ← of_option (InvalidAttribute "rtpmap") (parse_uint 32 p1);
  Ok (mkRtpCodec pt (cut 32 p0) rate (parts !! 2%nat ≫= parse_uint 8)).

Definition codec_name_str (c : RtpCodec) : str := from_utf8_or (lit "unknown") (codec_name c).

Definition codec_to_sdp (c : RtpCodec) : str :=
  dec (payload_type c) ++ lit " " ++ codec_name_str c ++ lit "/" ++ dec (clock_rate c) ++
  match channels c with Some ch => lit "/" ++ dec ch | None => [] end.

Record RtcpFeedback := mkFeedback { fb_payload_type : option Z; fb_type : str; fb_params : str }.

Definition parse_feedback (value : str) : outcome SdpError RtcpFeedback :=
  let parts := splitn 2 32 value in
  fail_if (bool_decide (length parts < 2)%nat) (InvalidAttribute "rtcp-fb");;
  p0 ← idx parts 0;
  pt ← (if bool_decide (p0 = lit "*") then Ok None else pt ← of_option (InvalidAttribute "rtcp-fb") (parse_uint 8 p0); Ok (Some pt));
  p1 ← idx parts 1;
  Ok (mkFeedback pt (cut 32 p1) (match parts !! 2%nat with Some p => cut 64 p | None => [] end)).

Definition feedback_to_sdp (f : RtcpFeedback) : str :=
  match fb_payload_type f with Some pt => dec pt | None => lit "*" end ++ lit " " ++ from_utf8_or [] (fb_type f) ++
  (if bool_decide (fb_params f = []) then [] else lit " " ++ from_utf8_or [] (fb_params f)).

Record SsrcInfo := mkSsrcInfo { ssrc : Z; attribute : str; ssrc_value : str }.

(** The text before and after the first [c]. *)
Definition parse_ssrc (value : str) : outcome SdpError SsrcInfo :=
  space ← of_option (InvalidAttribute "ssrc") (find 32 value);
  n ← str_to space value;
  x ← of_option (InvalidAttribute "ssrc") (parse_uint 32 n);
  rest ← str_from (S space) value;
  '(attr, val) ← match find 58 rest with
                 | Some colon => a ← str_to colon rest; v ← str_from (S colon) rest; Ok (a, v)
                 | None => Ok (rest, [])
                 end;
  fail_if (bool_decide (32 < length attr)%nat || bool_decide (256 < length val)%nat) (InvalidAttribute "ssrc");;
  Ok (mkSsrcInfo x attr val).

Record ExtMap := mkExtMap { ext_map_id : Z; ext_direction : option Direction; uri : str }.

Definition parse_direction (s : str) : option Direction :=
  let s := to_lowercase s in
  if bool_decide (s = lit "sendrecv") then Some SendRecv else if bool_decide (s = lit "sendonly") then Some SendOnly
  else if bool_decide (s = lit "recvonly") then Some RecvOnly else if bool_decide (s = lit "inactive") then Some Inactive else None.

Definition direction_str (d : Direction) : str :=
  match d with SendRecv => lit "sendrecv" | SendOnly => lit "sendonly" | RecvOnly => lit "recvonly" | Inactive => lit "inactive" end.

Record Fmtp := mkFmtp { fmtp_payload_type : Z; params : str }.

Definition parse_fmtp (value : str) : outcome SdpError Fmtp :=
  space ← of_option (InvalidAttribute "fmtp") (find 32 value);
  n ← str_to space value;
  pt ← of_option (InvalidAttribute "fmtp") (parse_uint 8 n);
  rest ← str_from (S space) value;
  Ok (mkFmtp pt (cut 256 rest)).

End Attributes.

Module Media.
Import Text Sdp SdpTypes Attributes.

Definition parse_media_type (s : str) : option MediaType :=
  let s := to_lowercase s in
  if bool_decide (s = lit "audio") then Some AudioMedia else if bool_decide (s = lit "video") then Some VideoMedia
  else if bool_decide (s = lit "application") then Some Application else None.

Definition media_type_str (t : MediaType) : str :=
  match t with AudioMedia => lit "audio" | VideoMedia => lit "video" | Application => lit "application" end.

Inductive TransportProtocol := UdpTlsRtpSavpf | RtpSavpf | RtpAvp | DtlsSctp | UdpDtlsSctp.

Definition protocol_str (p : TransportProtocol) : str :=
  match p with
  | UdpTlsRtpSavpf => lit "UDP/TLS/RTP/SAVPF" | RtpSavpf => lit "RTP/SAVPF" | RtpAvp => lit "RTP/AVP"
  | DtlsSctp => lit "DTLS/SCTP" | UdpDtlsSctp => lit "UDP/DTLS/SCTP"
  end.

Definition parse_protocol (s : str) : option TransportProtocol :=
  let s := to_uppercase s in
  List.find (fun p => bool_decide (s = protocol_str p)) [UdpTlsRtpSavpf; RtpSavpf; RtpAvp; DtlsSctp; UdpDtlsSctp].

(** ** Credentials and names *)

Definition is_alnum (b : Z) : bool := ((48 <=? b) && (b <=? 57)) || ((65 <=? b) && (b <=? 90)) || ((97 <=? b) && (b <=? 122)).

Definition is_ice_chars (s : str) : bool := forallb (fun b => is_alnum b || (b =? 43) || (b =? 47)) s.

(** [IceUfrag::parse], [IcePwd::parse] *)
Definition parse_ice_value (name : string) (s : str) : outcome SdpError str :=
  fail_if (bool_decide (s = []) || bool_decide (256 < length s)%nat || negb (is_ice_chars s)) (InvalidAttribute name);;
  Ok s.

(** [IceUfrag::new], [IcePwd::new] *)
Definition ice_new (s : str) : str := cut 256 s.
Definition as_str (s : str) : str := from_utf8_or [] s.

Definition is_token_char (b : Z) : bool :=
  (b =? 33) || ((35 <=? b) && (b <=? 39)) || ((42 <=? b) && (b <=? 43)) || ((45 <=? b) && (b <=? 46)) || ((48 <=? b) && (b <=? 57)) ||
  ((65 <=? b) && (b <=? 90)) || ((94 <=? b) && (b <=? 126)).

Definition mid_new (s : str) : str := cut MAX_MID_LEN s.

Definition mid_parse (s : str) : outcome SdpError str :=
  fail_if (bool_decide (s = []) || bool_decide (MAX_MID_LEN < length s)%nat || negb (forallb is_token_char s)) (InvalidAttribute "mid");;
  Ok (mid_new s).

Record SsrcGroup := mkSsrcGroup { semantics : str; group_ssrcs : list Z }.
Record Rid := mkRid { rid_id : str; rid_direction : Direction }.
Record Msid := mkMsid { stream_id : str; track_id : str }.

Definition MAX_ID_LEN : nat := 128.

Definition msid_new (stream track : str) : outcome SdpError Msid :=
  fail_if (bool_decide (MAX_ID_LEN < length stream)%nat) (TooLarge (length stream) MAX_ID_LEN);;
  fail_if (bool_decide (MAX_ID_LEN < length track)%nat) (TooLarge (length track) MAX_ID_LEN);;
  Ok (mkMsid stream track).

(** ** The m-section *)

Record MediaDescription := mkMedia {
  media_type : MediaType;
  port : Z;
  num_ports : Z;
  protocol : TransportProtocol;
  formats : list Z;
  connection : option str;
  ice_ufrag : option str;
  ice_pwd : option str;
  trickle : bool;
  candidates : list IceCandidate;
  fingerprint : option DtlsFingerprint;
  setup : option DtlsSetup;
  direction : Direction;
  mid : option str;
  codecs : list RtpCodec;
  fmtps : list Fmtp;
  ssrcs : list SsrcInfo;
  ssrc_values : list Z;
  extmaps : list ExtMap;
  rtcp_fbs : list RtcpFeedback;
  ssrc_groups : list SsrcGroup;
  rids : list Rid;
  simulcast : option str;
  msid : option Msid;
  rtcp_mux : bool;
  rtcp_rsize : bool;
  rtcp_mux_only : bool;
  extmap_allow_mixed : bool;
  end_of_candidates : bool;
}.

Definition set_formats (v : list Z) (m : MediaDescription) : MediaDescription :=
  mkMedia (media_type m) (port m) (num_ports m) (protocol m) v (connection m) (ice_ufrag m) (ice_pwd m) (trickle m) (candidates m) (fingerprint m) (setup m) (direction m) (mid m) (codecs m) (fmtps m) (ssrcs m) (ssrc_values m) (extmaps m) (rtcp_fbs m) (ssrc_groups m) (rids m) (simulcast m) (msid m) (rtcp_mux m) (rtcp_rsize m) (rtcp_mux_only m) (extmap_allow_mixed m) (end_of_candidates m).
Definition set_ice_ufrag (v : option str) (m : MediaDescription) : MediaDescription :=
  mkMedia (media_type m) (port m) (num_ports m) (protocol m) (formats m) (connection m) v (ice_pwd m) (trickle m) (candidates m) (fingerprint m) (setup m) (direction m) (mid m) (codecs m) (fmtps m) (ssrcs m) (ssrc_values m) (extmaps m) (rtcp_fbs m) (ssrc_groups m) (rids m) (simulcast m) (msid m) (rtcp_mux m) (rtcp_rsize m) (rtcp_mux_only m) (extmap_allow_mixed m) (end_of_candidates m).
Definition set_ice_pwd (v : option str) (m : MediaDescription) : MediaDescription :=
  mkMedia (media_type m) (port m) (num_ports m) (protocol m) (formats m) (connection m) (ice_ufrag m) v (trickle m) (candidates m) (fingerprint m) (setup m) (direction m) (mid m) (codecs m) (fmtps m) (ssrcs m) (ssrc_values m) (extmaps m) (rtcp_fbs m) (ssrc_groups m) (rids m) (simulcast m) (msid m) (rtcp_mux m) (rtcp_rsize m) (rtcp_mux_only m) (extmap_allow_mixed m) (end_of_candidates m).
Definition set_trickle (v : bool) (m : MediaDescription) : MediaDescription :=
  mkMedia (media_type m) (port m) (num_ports m) (protocol m) (formats m) (connection m) (ice_ufrag m) (ice_pwd m) v (candidates m) (fingerprint m) (setup m) (direction m) (mid m) (codecs m) (fmtps m) (ssrcs m) (ssrc_values m) (extmaps m) (rtcp_fbs m) (ssrc_groups m) (rids m) (simulcast m) (msid m) (rtcp_mux m) (rtcp_rsize m) (rtcp_mux_only m) (extmap_allow_mixed m) (end_of_candidates m).
Definition set_candidates (v : list IceCandidate) (m : MediaDescription) : MediaDescription :=
  mkMedia (media_type m) (port m) (num_ports m) (protocol m) (formats m) (connection m) (ice_ufrag m) (ice_pwd m) (trickle m) v (fingerprint m) (setup m) (direction m) (mid m) (codecs m) (fmtps m) (ssrcs m) (ssrc_values m) (extmaps m) (rtcp_fbs m) (ssrc_groups m) (rids m) (simulcast m) (msid m) (rtcp_mux m) (rtcp_rsize m) (rtcp_mux_only m) (extmap_allow_mixed m) (end_of_candidates m).
Definition set_fingerprint (v : option DtlsFingerprint) (m : MediaDescription) : MediaDescription :=
  mkMedia (media_type m) (port m) (num_ports m) (protocol m) (formats m) (connection m) (ice_ufrag m) (ice_pwd m) (trickle m) (candidates m) v (setup m) (direction m) (mid m) (codecs m) (fmtps m) (ssrcs m) (ssrc_values m) (extmaps m) (rtcp_fbs m) (ssrc_groups m) (rids m) (simulcast m) (msid m) (rtcp_mux m) (rtcp_rsize m) (rtcp_mux_only m) (extmap_allow_mixed m) (end_of_candidates m).
Definition set_setup (v : option DtlsSetup) (m : MediaDescription) : MediaDescription :=
  mkMedia (media_type m) (port m) (num_ports m) (protocol m) (formats m) (connection m) (ice_ufrag m) (ice_pwd m) (trickle m) (candidates m) (fingerprint m) v (direction m) (mid m) (codecs m) (fmtps m) (ssrcs m) (ssrc_values m) (extmaps m) (rtcp_fbs m) (ssrc_groups m) (rids m) (simulcast m) (msid m) (rtcp_mux m) (rtcp_rsize m) (rtcp_mux_only m) (extmap_allow_mixed m) (end_of_candidates m).
Definition set_direction (v : Direction) (m : MediaDescription) : MediaDescription :=
  mkMedia (media_type m) (port m) (num_ports m) (protocol m) (formats m) (connection m) (ice_ufrag m) (ice_pwd m) (trickle m) (candidates m) (fingerprint m) (setup m) v (mid m) (codecs m) (fmtps m) (ssrcs m) (ssrc_values m) (extmaps m) (rtcp_fbs m) (ssrc_groups m) (rids m) (simulcast m) (msid m) (rtcp_mux m) (rtcp_rsize m) (rtcp_mux_only m) (extmap_allow_mixed m) (end_of_candidates m).
Definition set_mid (v : option str) (m : MediaDescription) : MediaDescription :=
  mkMedia (media_type m) (port m) (num_ports m) (protocol m) (formats m) (connection m) (ice_ufrag m) (ice_pwd m) (trickle m) (candidates m) (fingerprint m) (setup m) (direction m) v (codecs m) (fmtps m) (ssrcs m) (ssrc_values m) (extmaps m) (rtcp_fbs m) (ssrc_groups m) (rids m) (simulcast m) (msid m) (rtcp_mux m) (rtcp_rsize m) (rtcp_mux_only m) (extmap_allow_mixed m) (end_of_candidates m).
Definition set_codecs (v : list RtpCodec) (m : MediaDescription) : MediaDescription :=
  mkMedia (media_type m) (port m) (num_ports m) (protocol m) (formats m) (connection m) (ice_ufrag m) (ice_pwd m) (trickle m) (candidates m) (fingerprint m) (setup m) (direction m) (mid m) v (fmtps m) (ssrcs m) (ssrc_values m) (extmaps m) (rtcp_fbs m) (ssrc_groups m) (rids m) (simulcast m) (msid m) (rtcp_mux m) (rtcp_rsize m) (rtcp_mux_only m) (extmap_allow_mixed m) (end_of_candidates m).
Definition set_fmtps (v : list Fmtp) (m : MediaDescription) : MediaDescription :=
  mkMedia (media_type m) (port m) (num_ports m) (protocol m) (formats m) (connection m) (ice_ufrag m) (ice_pwd m) (trickle m) (candidates m) (fingerprint m) (setup m) (direction m) (mid m) (codecs m) v (ssrcs m) (ssrc_values m) (extmaps m) (rtcp_fbs m) (ssrc_groups m) (rids m) (simulcast m) (msid m) (rtcp_mux m) (rtcp_rsize m) (rtcp_mux_only m) (extmap_allow_mixed m) (end_of_candidates m).
Definition set_ssrcs (v : list SsrcInfo) (m : MediaDescription) : MediaDescription :=
  mkMedia (media_type m) (port m) (num_ports m) (protocol m) (formats m) (connection m) (ice_ufrag m) (ice_pwd m) (trickle m) (candidates m) (fingerprint m) (setup m) (direction m) (mid m) (codecs m) (fmtps m) v (ssrc_values m) (extmaps m) (rtcp_fbs m) (ssrc_groups m) (rids m) (simulcast m) (msid m) (rtcp_mux m) (rtcp_rsize m) (rtcp_mux_only m) (extmap_allow_mixed m) (end_of_candidates m).
Definition set_ssrc_values (v : list Z) (m : MediaDescription) : MediaDescription :=
  mkMedia (media_type m) (port m) (num_ports m) (protocol m) (formats m) (connection m) (ice_ufrag m) (ice_pwd m) (trickle m) (candidates m) (fingerprint m) (setup m) (direction m) (mid m) (codecs m) (fmtps m) (ssrcs m) v (extmaps m) (rtcp_fbs m) (ssrc_groups m) (rids m) (simulcast m) (msid m) (rtcp_mux m) (rtcp_rsize m) (rtcp_mux_only m) (extmap_allow_mixed m) (end_of_candidates m).
Definition set_extmaps (v : list ExtMap) (m : MediaDescription) : MediaDescription :=
  mkMedia (media_type m) (port m) (num_ports m) (protocol m) (formats m) (connection m) (ice_ufrag m) (ice_pwd m) (trickle m) (candidates m) (fingerprint m) (setup m) (direction m) (mid m) (codecs m) (fmtps m) (ssrcs m) (ssrc_values m) v (rtcp_fbs m) (ssrc_groups m) (rids m) (simulcast m) (msid m) (rtcp_mux m) (rtcp_rsize m) (rtcp_mux_only m) (extmap_allow_mixed m) (end_of_candidates m).
Definition set_rtcp_fbs (v : list RtcpFeedback) (m : MediaDescription) : MediaDescription :=
  mkMedia (media_type m) (port m) (num_ports m) (protocol m) (formats m) (connection m) (ice_ufrag m) (ice_pwd m) (trickle m) (candidates m) (fingerprint m) (setup m) (direction m) (mid m) (codecs m) (fmtps m) (ssrcs m) (ssrc_values m) (extmaps m) v (ssrc_groups m) (rids m) (simulcast m) (msid m) (rtcp_mux m) (rtcp_rsize m) (rtcp_mux_only m) (extmap_allow_mixed m) (end_of_candidates m).
Definition set_ssrc_groups (v : list SsrcGroup) (m : MediaDescription) : MediaDescription :=
  mkMedia (media_type m) (port m) (num_ports m) (protocol m) (formats m) (connection m) (ice_ufrag m) (ice_pwd m) (trickle m) (candidates m) (fingerprint m) (setup m) (direction m) (mid m) (codecs m) (fmtps m) (ssrcs m) (ssrc_values m) (extmaps m) (rtcp_fbs m) v (rids m) (simulcast m) (msid m) (rtcp_mux m) (rtcp_rsize m) (rtcp_mux_only m) (extmap_allow_mixed m) (end_of_candidates m).
Definition set_rids (v : list Rid) (m : MediaDescription) : MediaDescription :=
  mkMedia (media_type m) (port m) (num_ports m) (protocol m) (formats m) (connection m) (ice_ufrag m) (ice_pwd m) (trickle m) (candidates m) (fingerprint m) (setup m) (direction m) (mid m) (codecs m) (fmtps m) (ssrcs m) (ssrc_values m) (extmaps m) (rtcp_fbs m) (ssrc_groups m) v (simulcast m) (msid m) (rtcp_mux m) (rtcp_rsize m) (rtcp_mux_only m) (extmap_allow_mixed m) (end_of_candidates m).
Definition set_simulcast (v : option str) (m : MediaDescription) : MediaDescription :=
  mkMedia (media_type m) (port m) (num_ports m) (protocol m) (formats m) (connection m) (ice_ufrag m) (ice_pwd m) (trickle m) (candidates m) (fingerprint m) (setup m) (direction m) (mid m) (codecs m) (fmtps m) (ssrcs m) (ssrc_values m) (extmaps m) (rtcp_fbs m) (ssrc_groups m) (rids m) v (msid m) (rtcp_mux m) (rtcp_rsize m) (rtcp_mux_only m) (extmap_allow_mixed m) (end_of_candidates m).
Definition set_msid (v : option Msid) (m : MediaDescription) : MediaDescription :=
  mkMedia (media_type m) (port m) (num_ports m) (protocol m) (formats m) (connection m) (ice_ufrag m) (ice_pwd m) (trickle m) (candidates m) (fingerprint m) (setup m) (direction m) (mid m) (codecs m) (fmtps m) (ssrcs m) (ssrc_values m) (extmaps m) (rtcp_fbs m) (ssrc_groups m) (rids m) (simulcast m) v (rtcp_mux m) (rtcp_rsize m) (rtcp_mux_only m) (extmap_allow_mixed m) (end_of_candidates m).
Definition set_rtcp_mux (v : bool) (m : MediaDescription) : MediaDescription :=
  mkMedia (media_type m) (port m) (num_ports m) (protocol m) (formats m) (connection m) (ice_ufrag m) (ice_pwd m) (trickle m) (candidates m) (fingerprint m) (setup m) (direction m) (mid m) (codecs m) (fmtps m) (ssrcs m) (ssrc_values m) (extmaps m) (rtcp_fbs m) (ssrc_groups m) (rids m) (simulcast m) (msid m) v (rtcp_rsize m) (rtcp_mux_only m) (extmap_allow_mixed m) (end_of_candidates m).
Definition set_rtcp_rsize (v : bool) (m : MediaDescription) : MediaDescription :=
  mkMedia (media_type m) (port m) (num_ports m) (protocol m) (formats m) (connection m) (ice_ufrag m) (ice_pwd m) (trickle m) (candidates m) (fingerprint m) (setup m) (direction m) (mid m) (codecs m) (fmtps m) (ssrcs m) (ssrc_values m) (extmaps m) (rtcp_fbs m) (ssrc_groups m) (rids m) (simulcast m) (msid m) (rtcp_mux m) v (rtcp_mux_only m) (extmap_allow_mixed m) (end_of_candidates m).
Definition set_rtcp_mux_only (v : bool) (m : MediaDescription) : MediaDescription :=
  mkMedia (media_type m) (port m) (num_ports m) (protocol m) (formats m) (connection m) (ice_ufrag m) (ice_pwd m) (trickle m) (candidates m) (fingerprint m) (setup m) (direction m) (mid m) (codecs m) (fmtps m) (ssrcs m) (ssrc_values m) (extmaps m) (rtcp_fbs m) (ssrc_groups m) (rids m) (simulcast m) (msid m) (rtcp_mux m) (rtcp_rsize m) v (extmap_allow_mixed m) (end_of_candidates m).
Definition set_extmap_allow_mixed (v : bool) (m : MediaDescription) : MediaDescription :=
  mkMedia (media_type m) (port m) (num_ports m) (protocol m) (formats m) (connection m) (ice_ufrag m) (ice_pwd m) (trickle m) (candidates m) (fingerprint m) (setup m) (direction m) (mid m) (codecs m) (fmtps m) (ssrcs m) (ssrc_values m) (extmaps m) (rtcp_fbs m) (ssrc_groups m) (rids m) (simulcast m) (msid m) (rtcp_mux m) (rtcp_rsize m) (rtcp_mux_only m) v (end_of_candidates m).
Definition set_end_of_candidates (v : bool) (m : MediaDescription) : MediaDescription :=
  mkMedia (media_type m) (port m) (num_ports m) (protocol m) (formats m) (connection m) (ice_ufrag m) (ice_pwd m) (trickle m) (candidates m) (fingerprint m) (setup m) (direction m) (mid m) (codecs m) (fmtps m) (ssrcs m) (ssrc_values m) (extmaps m) (rtcp_fbs m) (ssrc_groups m) (rids m) (simulcast m) (msid m) (rtcp_mux m) (rtcp_rsize m) (rtcp_mux_only m) (extmap_allow_mixed m) v.

(** [Default], with the type, port and protocol of [new] *)
Definition media_new (t : MediaType) (port : Z) (p : TransportProtocol) : MediaDescription :=
  mkMedia t port 1 p [] None None None false [] None None SendRecv None [] [] [] [] [] [] [] [] None None true false false false false.

(** The payload type also goes into the format list. *)
Definition add_codec (c : RtpCodec) (m : MediaDescription) : outcome SdpError MediaDescription :=
  fail_if (bool_decide (MAX_CODECS_PER_MEDIA ≤ length (codecs m))%nat) (TooManyCodecs (length (codecs m) + 1) MAX_CODECS_PER_MEDIA);;
  let m := if bool_decide (length (formats m) < MAX_FORMATS)%nat then set_formats (formats m ++ [payload_type c]) m else m in
  Ok (set_codecs (codecs m ++ [c]) m).

Definition add_fmtp (f : Fmtp) (m : MediaDescription) : outcome SdpError MediaDescription :=
  fail_if (bool_decide (MAX_CODECS_PER_MEDIA ≤ length (fmtps m))%nat) (TooManyCodecs (length (fmtps m) + 1) MAX_CODECS_PER_MEDIA);;
  Ok (set_fmtps (fmtps m ++ [f]) m).

Definition add_candidate (c : IceCandidate) (m : MediaDescription) : outcome SdpError MediaDescription :=
  fail_if (bool_decide (MAX_CANDIDATES_PER_MEDIA ≤ length (candidates m))%nat)
    (TooManyCandidates (length (candidates m) + 1) MAX_CANDIDATES_PER_MEDIA);;
  Ok (set_candidates (candidates m ++ [c]) m).

Definition add_ssrc (s : SsrcInfo) (m : MediaDescription) : outcome SdpError MediaDescription :=
  fail_if (bool_decide (MAX_SSRCS_PER_MEDIA ≤ length (ssrcs m))%nat) (TooManyCodecs (length (ssrcs m) + 1) MAX_SSRCS_PER_MEDIA);;
  let m := if bool_decide (length (ssrc_values m) < MAX_SSRCS_PER_MEDIA)%nat && negb (bool_decide (ssrc s ∈ ssrc_values m))
           then set_ssrc_values (ssrc_values m ++ [ssrc s]) m else m in
  Ok (set_ssrcs (ssrcs m ++ [s]) m).

Definition get_ssrc_values (m : MediaDescription) : outcome SdpError (list Z) :=
  assert_ (bool_decide (length (ssrc_values m) ≤ MAX_SSRCS_PER_MEDIA)%nat);; Ok (ssrc_values m).

Definition set_ice_credentials (ufrag pwd : str) (m : MediaDescription) : MediaDescription :=
  set_ice_pwd (Some (ice_new pwd)) (set_ice_ufrag (Some (ice_new ufrag)) m).

Definition add_extmap (e : ExtMap) (m : MediaDescription) : outcome SdpError MediaDescription :=
  fail_if (bool_decide (MAX_EXTMAPS_PER_MEDIA ≤ length (extmaps m))%nat) (TooManyCodecs (length (extmaps m) + 1) MAX_EXTMAPS_PER_MEDIA);;
  Ok (set_extmaps (extmaps m ++ [e]) m).

(** Entries beyond the capacity of the next three are dropped. *)
Definition add_rtcp_fb (f : RtcpFeedback) (m : MediaDescription) : MediaDescription :=
  if bool_decide (MAX_RTCP_FB_PER_MEDIA ≤ length (rtcp_fbs m))%nat then m else set_rtcp_fbs (rtcp_fbs m ++ [f]) m.

Definition add_ssrc_group (g : SsrcGroup) (m : MediaDescription) : MediaDescription :=
  if bool_decide (MAX_SSRC_GROUPS_PER_MEDIA ≤ length (ssrc_groups m))%nat then m else set_ssrc_groups (ssrc_groups m ++ [g]) m.

Definition add_rid (r : Rid) (m : MediaDescription) : MediaDescription :=
  if bool_decide (MAX_RIDS_PER_MEDIA ≤ length (rids m))%nat then m else set_rids (rids m ++ [r]) m.

(** ** Common codecs *)

Definition codecs_match (a b : RtpCodec) : bool :=
  eq_ignore_ascii_case (from_utf8_or [] (codec_name a)) (from_utf8_or [] (codec_name b)) && (clock_rate a =? clock_rate b).

Definition find_matching_codec (m : MediaDescription) (offer : RtpCodec) : outcome SdpError (option RtpCodec) :=
  assert_ (bool_decide (length (codecs m) ≤ MAX_CODECS_PER_MEDIA)%nat);;
  Ok (List.find (fun c => codecs_match c offer) (codecs m)).

Fixpoint common_codecs (m : MediaDescription) (offers : list RtpCodec) (acc : list RtpCodec) : outcome SdpError (list RtpCodec) :=
  match offers with
  | [] => Ok acc
  | c :: offers =>
    found ← find_matching_codec m c;
    match found with
    | Some x => let acc := acc ++ [x] in if bool_decide (MAX_CODECS_PER_MEDIA ≤ length acc)%nat then Ok acc else common_codecs m offers acc
    | None => common_codecs m offers acc
    end
  end.

Definition negotiate_codecs (m offer : MediaDescription) : outcome SdpError (list RtpCodec) :=
  fail_if (bool_decide (codecs m = [])) (NoCommonCodec (media_type_str (media_type m)));;
  fail_if (bool_decide (codecs offer = [])) (NoCommonCodec (media_type_str (media_type offer)));;
  l ← common_codecs m (codecs offer) [];
  fail_if (bool_decide (l = [])) (NoCommonCodec (media_type_str (media_type m)));;
  assert_ (bool_decide (length l ≤ MAX_CODECS_PER_MEDIA)%nat);;
  Ok l.

(** ** Printing *)

(** [a=<name>:<value>] *)
Definition attr (name : string) (value : str) : str := lit "a=" ++ lit name ++ lit ":" ++ value.
Definition flag (name : string) : str := lit "a=" ++ lit name.
Definition opt_line {A} (f : A → str) (o : option A) : list str := match o with Some x => [f x] | None => [] end.
Definition bool_line (b : bool) (l : str) : list str := if b then [l] else [].

Definition m_line (m : MediaDescription) (fmts : list Z) : str :=
  lit "m=" ++ media_type_str (media_type m) ++ lit " " ++ dec (port m) ++ lit " " ++ protocol_str (protocol m) ++ lit " " ++
  join (lit " ") (dec <$> fmts).

Definition connection_line (m : MediaDescription) : str :=
  match connection m with Some a => lit "c=IN IP4 " ++ from_utf8_or [] a | None => lit "c=IN IP4 0.0.0.0" end.

Definition fmtp_line (f : Fmtp) : str := attr "fmtp" (dec (fmtp_payload_type f) ++ lit " " ++ from_utf8_or [] (params f)).

Definition ssrc_line (s : SsrcInfo) : str :=
  attr "ssrc" (dec (ssrc s) ++ lit " " ++ from_utf8_or [] (attribute s) ++ lit ":" ++ from_utf8_or [] (ssrc_value s)).

(** [to_sdp] of [media.rs] *)
Definition media_to_sdp (m : MediaDescription) : list str :=
  [m_line m (formats m); connection_line m] ++
  opt_line (fun u => attr "ice-ufrag" (as_str u)) (ice_ufrag m) ++ opt_line (fun p => attr "ice-pwd" (as_str p)) (ice_pwd m) ++
  bool_line (trickle m) (attr "ice-options" (lit "trickle")) ++
  opt_line (fun f => attr "fingerprint" (fingerprint_to_sdp f)) (fingerprint m) ++ opt_line (fun s => attr "setup" (setup_str s)) (setup m) ++
  [lit "a=" ++ direction_str (direction m)] ++ opt_line (fun x => attr "mid" (as_str x)) (mid m) ++
  bool_line (rtcp_mux m) (flag "rtcp-mux") ++ bool_line (rtcp_rsize m) (flag "rtcp-rsize") ++
  ((fun c => attr "rtpmap" (codec_to_sdp c)) <$> codecs m) ++ (fmtp_line <$> fmtps m) ++ (ssrc_line <$> ssrcs m) ++
  ((fun e => attr "extmap" (dec (ext_map_id e) ++ lit " " ++ from_utf8_or [] (uri e))) <$> extmaps m) ++
  ((fun c => attr "candidate" (candidate_to_sdp c)) <$> candidates m).

End Media.

Module Session.
Import Text Sdp SdpTypes Attributes Media.

Record Origin := mkOrigin { username : str; session_id : Z; session_version : Z; origin_address : str }.
Record Timing := mkTiming { start : Z; stop : Z }.

Definition origin_default : Origin := mkOrigin (lit "-") 0 0 (lit "0.0.0.0").
Definition origin_new (id : Z) : Origin := mkOrigin (lit "-") id 1 (lit "0.0.0.0").

(** The network and address types are never changed. *)
Definition origin_to_sdp (o : Origin) : str :=
  join (lit " ") [from_utf8_or (lit "-") (username o); dec (session_id o); dec (session_version o); lit "IN"; lit "IP4";
                  from_utf8_or (lit "0.0.0.0") (origin_address o)].

Definition timing_to_sdp (t : Timing) : str := dec (start t) ++ lit " " ++ dec (stop t).

Record SessionDescription := mkSession {
  version : Z;
  origin : Origin;
  session_name : str;
  timing : Timing;
  session_ufrag : option str;
  session_pwd : option str;
  ice_lite : bool;
  session_fingerprint : option DtlsFingerprint;
  session_setup : option DtlsSetup;
  bundle_group : str;
  media : list MediaDescription;
}.

Definition set_version (v : Z) (s : SessionDescription) : SessionDescription :=
  mkSession v (origin s) (session_name s) (timing s) (session_ufrag s) (session_pwd s) (ice_lite s) (session_fingerprint s) (session_setup s) (bundle_group s) (media s).
Definition set_origin (v : Origin) (s : SessionDescription) : SessionDescription :=
  mkSession (version s) v (session_name s) (timing s) (session_ufrag s) (session_pwd s) (ice_lite s) (session_fingerprint s) (session_setup s) (bundle_group s) (media s).
Definition set_session_name (v : str) (s : SessionDescription) : SessionDescription :=
  mkSession (version s) (origin s) v (timing s) (session_ufrag s) (session_pwd s) (ice_lite s) (session_fingerprint s) (session_setup s) (bundle_group s) (media s).
Definition set_timing (v : Timing) (s : SessionDescription) : SessionDescription :=
  mkSession (version s) (origin s) (session_name s) v (session_ufrag s) (session_pwd s) (ice_lite s) (session_fingerprint s) (session_setup s) (bundle_group s) (media s).
Definition set_session_ufrag (v : option str) (s : SessionDescription) : SessionDescription :=
  mkSession (version s) (origin s) (session_name s) (timing s) v (session_pwd s) (ice_lite s) (session_fingerprint s) (session_setup s) (bundle_group s) (media s).
Definition set_session_pwd (v : option str) (s : SessionDescription) : SessionDescription :=
  mkSession (version s) (origin s) (session_name s) (timing s) (session_ufrag s) v (ice_lite s) (session_fingerprint s) (session_setup s) (bundle_group s) (media s).
Definition set_ice_lite (v : bool) (s : SessionDescription) : SessionDescription :=
  mkSession (version s) (origin s) (session_name s) (timing s) (session_ufrag s) (session_pwd s) v (session_fingerprint s) (session_setup s) (bundle_group s) (media s).
Definition set_session_fingerprint (v : option DtlsFingerprint) (s : SessionDescription) : SessionDescription :=
  mkSession (version s) (origin s) (session_name s) (timing s) (session_ufrag s) (session_pwd s) (ice_lite s) v (session_setup s) (bundle_group s) (media s).
Definition set_session_setup (v : option DtlsSetup) (s : SessionDescription) : SessionDescription :=
  mkSession (version s) (origin s) (session_name s) (timing s) (session_ufrag s) (session_pwd s) (ice_lite s) (session_fingerprint s) v (bundle_group s) (media s).
Definition set_bundle_group (v : str) (s : SessionDescription) : SessionDescription :=
  mkSession (version s) (origin s) (session_name s) (timing s) (session_ufrag s) (session_pwd s) (ice_lite s) (session_fingerprint s) (session_setup s) v (media s).
Definition set_media (v : list MediaDescription) (s : SessionDescription) : SessionDescription :=
  mkSession (version s) (origin s) (session_name s) (timing s) (session_ufrag s) (session_pwd s) (ice_lite s) (session_fingerprint s) (session_setup s) (bundle_group s) v.

Definition session_default : SessionDescription :=
  mkSession 0 origin_default (lit "-") (mkTiming 0 0) None None false None None [] [].

Definition session_new (id : Z) : SessionDescription := set_origin (origin_new id) session_default.

Definition set_session_version (v : Z) (s : SessionDescription) : SessionDescription :=
  set_origin (mkOrigin (username (origin s)) (session_id (origin s)) v (origin_address (origin s))) s.

Definition set_name (name : str) (s : SessionDescription) : SessionDescription := set_session_name (cut 64 name) s.

Definition set_credentials (ufrag pwd : str) (s : SessionDescription) : SessionDescription :=
  set_session_pwd (Some (ice_new pwd)) (set_session_ufrag (Some (ice_new ufrag)) s).

Definition add_media (m : MediaDescription) (s : SessionDescription) : outcome SdpError SessionDescription :=
  fail_if (bool_decide (MAX_MEDIA_SECTIONS ≤ length (media s))%nat) (TooManyMedia (length (media s) + 1) MAX_MEDIA_SECTIONS);;
  Ok (set_media (media s ++ [m]) s).

Definition has_media_with_mid (s : SessionDescription) (target : str) : bool :=
  existsb (fun m => match mid m with Some x => bool_decide (as_str x = target) | None => false end) (media s).

Definition set_bundle_value (b : str) (s : SessionDescription) : outcome SdpError SessionDescription :=
  fail_if (bool_decide (MAX_BUNDLE_LEN < length b)%nat) (TooLarge (length b) MAX_BUNDLE_LEN);;
  Ok (set_bundle_group b s).

Definition bundle (s : SessionDescription) : str := from_utf8_or [] (bundle_group s).

Definition set_bundle (mids : list str) (s : SessionDescription) : outcome SdpError SessionDescription :=
  fail_if (bool_decide (mids = [])) InvalidFormat;;
  match List.find (fun x => negb (has_media_with_mid s x)) mids with
  | Some x => Err (InvalidBundleGroup x)
  | None => set_bundle_value (join (lit " ") mids) s
  end.

Definition CRLF : str := [13; 10].

(** The lines, each with its line ending, if they fit. *)
Definition document (lines : list str) : outcome SdpError str :=
  let result := join CRLF lines ++ CRLF in
  fail_if (bool_decide (MAX_SDP_SIZE < length result)%nat) (TooLarge (length result) MAX_SDP_SIZE);;
  Ok result.

Definition session_lines (s : SessionDescription) : list str :=
  [lit "v=" ++ dec (version s); lit "o=" ++ origin_to_sdp (origin s); lit "s=" ++ from_utf8_or (lit "-") (session_name s);
   lit "t=" ++ timing_to_sdp (timing s)] ++
  opt_line (fun u => attr "ice-ufrag" (as_str u)) (session_ufrag s) ++ opt_line (fun p => attr "ice-pwd" (as_str p)) (session_pwd s) ++
  bool_line (ice_lite s) (flag "ice-lite") ++
  opt_line (fun f => attr "fingerprint" (fingerprint_to_sdp f)) (session_fingerprint s) ++
  opt_line (fun x => attr "setup" (setup_str x)) (session_setup s) ++
  (if bool_decide (bundle_group s = []) then [] else [attr "group" (lit "BUNDLE " ++ bundle s)]).

(** [to_sdp] of [session.rs] *)
Definition session_to_sdp (s : SessionDescription) : outcome SdpError str :=
  fail_if (bool_decide (MAX_MEDIA_SECTIONS < length (media s))%nat) (TooManyMedia (length (media s)) MAX_MEDIA_SECTIONS);;
  document (session_lines s ++ concat (media_to_sdp <$> media s)).

(** ** Answers *)

Definition flip_direction (d : Direction) : Direction :=
  match d with SendOnly => RecvOnly | RecvOnly => SendOnly | SendRecv => SendRecv | Inactive => Inactive end.

Definition check_length (field : string) (min max : nat) (s : str) : outcome SdpError () :=
  fail_if (negb (bool_decide (min ≤ length s ≤ max)%nat)) (InvalidIceCredentialLength field (length s) min max).
Definition validate_ice_ufrag (s : str) : outcome SdpError () := check_length "ice-ufrag" MIN_ICE_UFRAG_LEN MAX_ICE_UFRAG_LEN s.
Definition validate_ice_pwd (s : str) : outcome SdpError () := check_length "ice-pwd" MIN_ICE_PWD_LEN MAX_ICE_PWD_LEN s.

(** [RFC 8842]: the answerer's role *)
Definition answer_setup (offer : option DtlsSetup) : DtlsSetup :=
  match offer with Some Active => Passive | Some Passive => Active | _ => Active end.

Fixpoint add_codecs (l : list RtpCodec) (m : MediaDescription) : outcome SdpError MediaDescription :=
  match l with [] => Ok m | c :: l => m ← add_codec c m; add_codecs l m end.

Definition add_fbs (l : list RtcpFeedback) (m : MediaDescription) : MediaDescription := foldl (fun m f => add_rtcp_fb f m) m l.

Fixpoint copy_extmaps (l : list ExtMap) (m : MediaDescription) : outcome SdpError MediaDescription :=
  match l with [] => Ok m | e :: l => m ← or_else m (add_extmap e m); copy_extmaps l m end.

(** What an answer's m-line starts from. *)
Definition answer_base (offer : MediaDescription) (ufrag pwd : str) (fp : DtlsFingerprint) (role : DtlsSetup) : MediaDescription :=
  set_setup (Some role) (set_fingerprint (Some fp) (set_ice_credentials ufrag pwd
    (set_direction (flip_direction (direction offer)) (set_mid (mid offer) (media_new (media_type offer) 9 (protocol offer)))))).

(** RTCP settings, feedback and extensions of the offer. *)
Definition answer_rest (offer m : MediaDescription) : outcome SdpError MediaDescription :=
  let m := set_rtcp_mux_only (rtcp_mux_only offer) (set_rtcp_rsize (rtcp_rsize offer) (set_rtcp_mux (rtcp_mux offer) m)) in
  m ← copy_extmaps (extmaps offer) (add_fbs (rtcp_fbs offer) m);
  Ok (set_extmap_allow_mixed (extmap_allow_mixed offer) m).

Definition create_answer_media (offer : MediaDescription) (ufrag pwd : str) (fp : DtlsFingerprint) (role : DtlsSetup)
  : outcome SdpError MediaDescription :=
  let m := answer_base offer ufrag pwd fp role in
  fail_if (bool_decide (codecs offer = [])) (NoCommonCodec (media_type_str (media_type offer)));;
  m ← add_codecs (take MAX_CODECS_PER_MEDIA (codecs offer)) m;
  answer_rest offer m.

Definition create_answer_media_with_capabilities (offer local : MediaDescription) (ufrag pwd : str) (fp : DtlsFingerprint) (role : DtlsSetup)
  : outcome SdpError MediaDescription :=
  let m := answer_base offer ufrag pwd fp role in
  l ← negotiate_codecs local offer;
  m ← add_codecs (take MAX_CODECS_PER_MEDIA l) m;
  answer_rest offer m.

Fixpoint answer_each (f : MediaDescription → outcome SdpError MediaDescription) (l : list MediaDescription) (s : SessionDescription)
  : outcome SdpError SessionDescription :=
  match l with [] => Ok s | m :: l => a ← f m; s ← add_media a s; answer_each f l s end.

Definition create_answer (offer : SessionDescription) (ufrag pwd : str) (fp : DtlsFingerprint) : outcome SdpError SessionDescription :=
  fail_if (bool_decide (media offer = [])) InvalidFormat;;
  validate_ice_ufrag (ice_new ufrag);;
  validate_ice_pwd (ice_new pwd);;
  validate_fingerprint fp;;
  let role := answer_setup (session_setup offer) in
  let a := set_session_setup (Some role) (set_session_fingerprint (Some fp) (set_credentials ufrag pwd
             (set_name (lit "Nexus SFU Answer") (session_new (session_id (origin offer)))))) in
  let a := if bool_decide (bundle_group offer = []) then a else set_bundle_group (bundle_group offer) a in
  a ← answer_each (fun m => create_answer_media m ufrag pwd fp role) (media offer) a;
  assert_ (bool_decide (length (media a) = length (media offer)));;
  Ok a.

End Session.

Module Printer.
Import Text Sdp SdpTypes Attributes Media Session.

Definition print_formats (m : MediaDescription) : list Z := if bool_decide (formats m = []) then payload_type <$> codecs m else formats m.

Definition print_extmap (e : ExtMap) : str :=
  attr "extmap" (dec (ext_map_id e) ++ match ext_direction e with Some d => lit "/" ++ direction_str d | None => [] end ++ lit " " ++ from_utf8_or [] (uri e)).

Definition print_ssrc_group (g : SsrcGroup) : str :=
  attr "ssrc-group" (from_utf8_or [] (semantics g) ++ lit " " ++ join (lit " ") (dec <$> group_ssrcs g)).

Definition print_rid (r : Rid) : str := attr "rid" (from_utf8_or [] (rid_id r) ++ lit " " ++ direction_str (rid_direction r)).

Definition print_msid (x : Msid) : str :=
  attr "msid" (from_utf8_or [] (stream_id x) ++ if bool_decide (track_id x = []) then [] else lit " " ++ from_utf8_or [] (track_id x)).

Definition print_media_section (m : MediaDescription) : outcome SdpError (list str) :=
  assert_ (bool_decide (length (codecs m) ≤ MAX_CODECS_PER_MEDIA)%nat);;
  Ok ([m_line m (print_formats m); connection_line m] ++
  opt_line (fun u => attr "ice-ufrag" (as_str u)) (ice_ufrag m) ++ opt_line (fun p => attr "ice-pwd" (as_str p)) (ice_pwd m) ++
  bool_line (trickle m) (attr "ice-options" (lit "trickle")) ++
  opt_line (fun f => attr "fingerprint" (fingerprint_to_sdp f)) (fingerprint m) ++ opt_line (fun s => attr "setup" (setup_str s)) (setup m) ++
  [lit "a=" ++ direction_str (direction m)] ++ opt_line (fun x => attr "mid" (as_str x)) (mid m) ++
  bool_line (rtcp_mux m) (flag "rtcp-mux") ++ bool_line (rtcp_mux_only m) (flag "rtcp-mux-only") ++ bool_line (rtcp_rsize m) (flag "rtcp-rsize") ++
  ((fun c => attr "rtpmap" (codec_to_sdp c)) <$> codecs m) ++ (fmtp_line <$> fmtps m) ++ (print_extmap <$> extmaps m) ++
  (ssrc_line <$> ssrcs m) ++ (print_ssrc_group <$> ssrc_groups m) ++ ((fun f => attr "rtcp-fb" (feedback_to_sdp f)) <$> rtcp_fbs m) ++
  (print_rid <$> rids m) ++ opt_line (fun v => attr "simulcast" (from_utf8_or [] v)) (simulcast m) ++ opt_line print_msid (msid m) ++
  bool_line (extmap_allow_mixed m) (flag "extmap-allow-mixed") ++ bool_line (end_of_candidates m) (flag "end-of-candidates") ++
  ((fun c => attr "candidate" (candidate_to_sdp c)) <$> candidates m)).

Definition print (s : SessionDescription) : outcome SdpError str :=
  fail_if (bool_decide (MAX_MEDIA_SECTIONS < length (media s))%nat) (TooManyMedia (length (media s)) MAX_MEDIA_SECTIONS);;
  sections ← mapM print_media_section (media s);
  document (session_lines s ++ concat sections).

End Printer.
