(* ===== verification/SdpParser.v ===== *)
(** * The SDP parser

    [crates/nexus-webrtc/src/sdp/parser.rs]. The description under
    construction, the m-section that is open and the two mandatory lines seen
    are the state of the loop over the lines. *)

From stdpp Require Import strings.
From S2P Require Import Prelude Model Transports SdpParams SdpText SdpModel.

Module SdpParser.
Import Text Sdp SdpTypes Attributes Media Session.

Record PState := mkPState {
  session : SessionDescription;
  current_media : option MediaDescription;
  has_version : bool;
  has_origin : bool;
}.

Definition set_session (v : SessionDescription) (p : PState) : PState := mkPState v (current_media p) (has_version p) (has_origin p).
Definition set_current (v : option MediaDescription) (p : PState) : PState := mkPState (session p) v (has_version p) (has_origin p).

(** ** Lines of the session *)

Definition parse_version (value : str) (line : nat) (p : PState) : outcome SdpError PState :=
  v ← of_option (ParseError line) (parse_uint 8 value);
  fail_if (negb (v =? 0)) (InvalidVersion v);;
  Ok (mkPState (set_version v (session p)) (current_media p) true (has_origin p)).

Definition parse_origin (value : str) (line : nat) : outcome SdpError Origin :=
  let parts := split_whitespace value in
  fail_if (bool_decide (length parts < 6)%nat) (ParseError line);;
  p0 ← idx parts 0; p1 ← idx parts 1; p2 ← idx parts 2; p5 ← idx parts 5;
  id ← of_option (ParseError line) (parse_uint 64 p1);
  version ← of_option (ParseError line) (parse_uint 64 p2);
  Ok (mkOrigin (cut 32 p0) id version (cut 64 p5)).

Definition parse_timing (value : str) (line : nat) : outcome SdpError Timing :=
  let parts := split_whitespace value in
  fail_if (bool_decide (length parts < 2)%nat) (ParseError line);;
  p0 ← idx parts 0; p1 ← idx parts 1;
  Ok (mkTiming (default 0 (parse_uint 64 p0)) (default 0 (parse_uint 64 p1))).

(** Payload types; other formats are skipped. *)
Fixpoint parse_formats (fmts : list str) (m : MediaDescription) : MediaDescription :=
  match fmts with
  | [] => m
  | f :: fmts =>
    if bool_decide (MAX_FORMATS ≤ length (formats m))%nat then m else
    match parse_uint 8 f with
    | Some pt => parse_formats fmts (if pt <=? 127 then set_formats (formats m ++ [pt]) m else m)
    | None => parse_formats fmts m
    end
  end.

Definition parse_media_line (value : str) (line : nat) : outcome SdpError MediaDescription :=
  let parts := split_whitespace value in
  fail_if (bool_decide (length parts < 4)%nat) (ParseError line);;
  p0 ← idx parts 0; p1 ← idx parts 1; p2 ← idx parts 2;
  t ← of_option (InvalidMediaType p0) (parse_media_type p0);
  port ← of_option (ParseError line) (parse_uint 16 p1);
  proto ← of_option (InvalidTransport p2) (parse_protocol p2);
  fmts ← slice 3 (length parts) parts;
  Ok (parse_formats fmts (media_new t port proto)).

Definition parse_media_section (value : str) (line : nat) (p : PState) : outcome SdpError PState :=
  s ← match current_media p with Some m => add_media m (session p) | None => Ok (session p) end;
  fail_if (bool_decide (MAX_MEDIA_SECTIONS ≤ length (media s))%nat) (TooManyMedia (length (media s) + 1) MAX_MEDIA_SECTIONS);;
  m ← parse_media_line value line;
  Ok (mkPState s (Some m) (has_version p) (has_origin p)).

(** ** Attributes *)

Definition keep_preferred_fingerprint (slot : option DtlsFingerprint) (f : DtlsFingerprint) : option DtlsFingerprint :=
  match slot with
  | None => Some f
  | Some kept => if negb (bool_decide (algorithm kept = Sha256)) && bool_decide (algorithm f = Sha256) then Some f else slot
  end.

Definition parse_extmap (id_str uri_str : str) (d : option Direction) : outcome SdpError ExtMap :=
  id ← of_option (InvalidAttribute "extmap") (parse_uint 8 id_str);
  fail_if (id =? 0) (InvalidAttribute "extmap");;
  fail_if (bool_decide (uri_str = []) || bool_decide (128 < length uri_str)%nat) (InvalidAttribute "extmap");;
  Ok (mkExtMap id d uri_str).

(** The open m-section, if there is one. *)
Definition on_media (f : MediaDescription → MediaDescription) (p : PState) : PState := set_current (f <$> current_media p) p.

Definition on_media_try (f : MediaDescription → outcome SdpError MediaDescription) (p : PState) : outcome SdpError PState :=
  match current_media p with Some m => m ← f m; Ok (set_current (Some m) p) | None => Ok p end.

(** The open m-section, else the session. *)
Definition on_level (fm : MediaDescription → MediaDescription) (fs : SessionDescription → SessionDescription) (p : PState) : PState :=
  match current_media p with Some m => set_current (Some (fm m)) p | None => set_session (fs (session p)) p end.

Definition attr_fingerprint (v : str) (p : PState) : outcome SdpError PState :=
  match parse_fingerprint v with
  | Ok f => Ok (on_level (fun m => set_fingerprint (keep_preferred_fingerprint (fingerprint m) f) m)
                  (fun s => set_session_fingerprint (keep_preferred_fingerprint (session_fingerprint s) f) s) p)
  | Err (UnsupportedFingerprintAlgorithm _) => Ok p
  | Err e => Err e
  | Panic => Panic
  end.

Definition attr_setup (v : str) (p : PState) : outcome SdpError PState :=
  s ← of_option (InvalidAttribute "setup") (parse_setup v);
  Ok (on_level (Media.set_setup (Some s)) (set_session_setup (Some s)) p).

Definition attr_group (v : str) (p : PState) : outcome SdpError PState :=
  match strip_prefix (lit "BUNDLE ") v with
  | Some b => s ← set_bundle_value b (session p); Ok (set_session s p)
  | None => Ok p
  end.

Definition attr_rtpmap (v : str) (m : MediaDescription) : outcome SdpError MediaDescription :=
  match find 32 v with
  | None => Ok m
  | Some space =>
    n ← str_to space v;
    match parse_uint 8 n with
    | None => Ok m
    | Some pt =>
      rest ← str_from (S space) v;
      match parse_codec pt rest with Ok c => or_else m (add_codec c m) | Err _ => Ok m | Panic => Panic end
    end
  end.

Definition attr_fmtp (v : str) (m : MediaDescription) : outcome SdpError MediaDescription :=
  match parse_fmtp v with
  | Ok f => Ok (if bool_decide (length (fmtps m) < MAX_CODECS_PER_MEDIA)%nat then set_fmtps (fmtps m ++ [f]) m else m)
  | Err _ => Ok m
  | Panic => Panic
  end.

Definition attr_ssrc (v : str) (m : MediaDescription) : outcome SdpError MediaDescription :=
  s ← parse_ssrc v; or_else m (add_ssrc s m).

Definition attr_extmap (v : str) (m : MediaDescription) : outcome SdpError MediaDescription :=
  let parts := splitn 2 32 v in
  if bool_decide (length parts < 2)%nat then Ok m else
  id_part ← idx parts 0;
  uri_str ← idx parts 1;
  '(id_str, d) ← match find 47 id_part with
                 | Some slash => r ← str_from (S slash) id_part; i ← str_to slash id_part; Ok (i, parse_direction r)
                 | None => Ok (id_part, None)
                 end;
  e ← parse_extmap id_str uri_str d;
  or_else m (add_extmap e m).

Definition attr_candidate (v : str) (m : MediaDescription) : outcome SdpError MediaDescription :=
  match parse_candidate v with Ok c => or_else m (add_candidate c m) | Err _ => Ok m | Panic => Panic end.

Definition attr_rtcp_fb (v : str) (m : MediaDescription) : outcome SdpError MediaDescription :=
  match parse_feedback v with Ok f => Ok (add_rtcp_fb f m) | Err _ => Ok m | Panic => Panic end.

(** At most eight SSRCs; what is not a number is skipped. *)
Fixpoint group_ssrcs_of (l : list str) (acc : list Z) : list Z :=
  match l with
  | [] => acc
  | p :: l =>
    if bool_decide (8 ≤ length acc)%nat then acc else
    group_ssrcs_of l (match parse_uint 32 p with Some x => acc ++ [x] | None => acc end)
  end.

Definition attr_ssrc_group (v : str) (m : MediaDescription) : outcome SdpError MediaDescription :=
  let parts := split_whitespace v in
  if bool_decide (length parts < 2)%nat then Ok m else
  sem ← idx parts 0;
  rest ← slice 1 (length parts) parts;
  Ok (add_ssrc_group (mkSsrcGroup (cut 16 sem) (group_ssrcs_of rest [])) m).

Definition attr_rid (v : str) (m : MediaDescription) : outcome SdpError MediaDescription :=
  let parts := splitn 2 32 v in
  if bool_decide (length parts < 2)%nat then Ok m else
  id ← idx parts 0;
  d ← idx parts 1;
  Ok (add_rid (mkRid (cut 32 id) (default SendRecv (parse_direction d))) m).

Definition attr_msid (v : str) (m : MediaDescription) : outcome SdpError MediaDescription :=
  '(stream, track) ← match find 32 v with
                     | Some i => a ← str_to i v; b ← str_from (S i) v; Ok (a, b)
                     | None => Ok (v, [])
                     end;
  x ← msid_new stream track;
  Ok (set_msid (Some x) m).

(** [name[:value]] *)
Definition split_attribute (value : str) : outcome SdpError (str * option str) :=
  match find 58 value with
  | Some colon => n ← str_to colon value; v ← str_from (S colon) value; Ok (n, Some v)
  | None => Ok (value, None)
  end.

Definition is_name (name : str) (s : string) : bool := bool_decide (name = lit s).

(** The attributes that need a value. *)
Definition valued_attribute (name v : str) (p : PState) : outcome SdpError PState :=
  if is_name name "ice-ufrag" then x ← parse_ice_value "ice-ufrag" v; Ok (on_level (set_ice_ufrag (Some x)) (set_session_ufrag (Some x)) p)
  else if is_name name "ice-pwd" then x ← parse_ice_value "ice-pwd" v; Ok (on_level (set_ice_pwd (Some x)) (set_session_pwd (Some x)) p)
  else if is_name name "ice-options" then Ok (on_media (set_trickle (contains (lit "trickle") v)) p)
  else if is_name name "fingerprint" then attr_fingerprint v p
  else if is_name name "setup" then attr_setup v p
  else if is_name name "mid" then on_media_try (fun m => x ← mid_parse v; Ok (set_mid (Some x) m)) p
  else if is_name name "group" then attr_group v p
  else if is_name name "rtpmap" then on_media_try (attr_rtpmap v) p
  else if is_name name "fmtp" then on_media_try (attr_fmtp v) p
  else if is_name name "ssrc" then on_media_try (attr_ssrc v) p
  else if is_name name "extmap" then on_media_try (attr_extmap v) p
  else if is_name name "candidate" then on_media_try (attr_candidate v) p
  else if is_name name "rtcp-fb" then on_media_try (attr_rtcp_fb v) p
  else if is_name name "ssrc-group" then on_media_try (attr_ssrc_group v) p
  else if is_name name "rid" then on_media_try (attr_rid v) p
  else if is_name name "simulcast" then Ok (on_media (set_simulcast (Some (cut 256 v))) p)
  else if is_name name "msid" then on_media_try (attr_msid v) p
  else Ok p.

Definition parse_attribute (value : str) (p : PState) : outcome SdpError PState :=
  '(name, v) ← split_attribute value;
  if is_name name "ice-lite" then Ok (set_session (set_ice_lite true (session p)) p)
  else if is_name name "sendrecv" then Ok (on_media (set_direction SendRecv) p)
  else if is_name name "sendonly" then Ok (on_media (set_direction SendOnly) p)
  else if is_name name "recvonly" then Ok (on_media (set_direction RecvOnly) p)
  else if is_name name "inactive" then Ok (on_media (set_direction Inactive) p)
  else if is_name name "rtcp-mux" then Ok (on_media (set_rtcp_mux true) p)
  else if is_name name "rtcp-rsize" then Ok (on_media (set_rtcp_rsize true) p)
  else if is_name name "rtcp-mux-only" then Ok (on_media (fun m => set_rtcp_mux true (set_rtcp_mux_only true m)) p)
  else if is_name name "extmap-allow-mixed" then Ok (on_media (set_extmap_allow_mixed true) p)
  else if is_name name "end-of-candidates" then Ok (on_media (set_end_of_candidates true) p)
  else match v with Some v => valued_attribute name v p | None => Ok p end.

(** ** The description *)

Definition parse_line (line : str) (num : nat) (p : PState) : outcome SdpError PState :=
  let line := trim line in
  if bool_decide (line = []) then Ok p else
  bad ← (if bool_decide (length line < 2)%nat then Ok true else
         a ← idx line 0; if negb (a <? 128) then Ok true else b ← idx line 1; Ok (negb (b =? 61)));
  fail_if bad (ParseError num);;
  c ← idx line 0;
  value ← str_from 2 line;
  if c =? 118 then parse_version value num p
  else if c =? 111 then o ← parse_origin value num; Ok (mkPState (set_origin o (session p)) (current_media p) (has_version p) true)
  else if c =? 115 then Ok (set_session (set_name value (session p)) p)
  else if c =? 116 then t ← parse_timing value num; Ok (set_session (set_timing t (session p)) p)
  else if c =? 109 then parse_media_section value num p
  else if c =? 97 then parse_attribute value p
  else Ok p.

(** More than 10000 lines are an error. *)
Fixpoint parse_lines (num : nat) (ls : list str) (p : PState) : outcome SdpError PState :=
  match ls with
  | [] => Ok p
  | l :: ls =>
    let num := S num in
    fail_if (10000 <? Z.of_nat num) (ParseError num);;
    p ← parse_line l num p;
    parse_lines num ls p
  end.

(** ** Validation *)

Definition validate_bundle_group (s : SessionDescription) : outcome SdpError () :=
  match List.find (fun x => negb (has_media_with_mid s x)) (split_whitespace (bundle s)) with
  | Some x => Err (InvalidBundleGroup x)
  | None => Ok ()
  end.

Definition opt_check {A} (f : A → outcome SdpError ()) (o : option A) : outcome SdpError () :=
  match o with Some x => f x | None => Ok () end.

Fixpoint for_media (f : MediaDescription → outcome SdpError ()) (l : list MediaDescription) : outcome SdpError () :=
  match l with [] => Ok () | m :: l => f m;; for_media f l end.

(** A mid that an earlier m-section has. *)
Fixpoint check_mids (seen : list MediaDescription) (l : list MediaDescription) : outcome SdpError () :=
  match l with
  | [] => Ok ()
  | m :: l =>
    (match mid m with
     | Some x => fail_if (existsb (fun e => match mid e with Some y => bool_decide (as_str y = as_str x) | None => false end) seen) (InvalidAttribute "mid")
     | None => Ok ()
     end);;
    check_mids (seen ++ [m]) l
  end.

Definition validate_session (s : SessionDescription) : outcome SdpError () :=
  (if is_some (session_ufrag s) && is_some (session_pwd s) then Ok ()
   else fail_if (existsb (fun m => negb (is_some (ice_ufrag m)) || negb (is_some (ice_pwd m))) (media s)) MissingIceCredentials);;
  opt_check validate_ice_ufrag (session_ufrag s);;
  opt_check validate_ice_pwd (session_pwd s);;
  for_media (fun m => opt_check validate_ice_ufrag (ice_ufrag m);; opt_check validate_ice_pwd (ice_pwd m)) (media s);;
  (if is_some (session_fingerprint s) then Ok ()
   else fail_if (existsb (fun m => negb (is_some (fingerprint m))) (media s)) MissingFingerprint);;
  opt_check validate_fingerprint (session_fingerprint s);;
  for_media (fun m => opt_check validate_fingerprint (fingerprint m)) (media s);;
  check_mids [] (media s);;
  validate_bundle_group s.

Definition parse (sdp : str) : outcome SdpError SessionDescription :=
  fail_if (bool_decide (sdp = [])) InvalidFormat;;
  fail_if (bool_decide (MAX_SDP_SIZE < length sdp)%nat) (TooLarge (length sdp) MAX_SDP_SIZE);;
  p ← parse_lines 0 (lines sdp) (mkPState session_default None false false);
  s ← match current_media p with Some m => add_media m (session p) | None => Ok (session p) end;
  fail_if (negb (has_version p)) (MissingField "v= (version)");;
  fail_if (negb (has_origin p)) (MissingField "o= (origin)");;
  validate_session s;;
  assert_ (bool_decide (length (media s) ≤ MAX_MEDIA_SECTIONS)%nat);;
  Ok s.

End SdpParser.

(** * The SDP negotiator

    [crates/nexus-webrtc/src/sdp/negotiator.rs]: answers to offers, and the
    offers of the SFU. *)


Module Negotiator.
Import Text Sdp SdpTypes Attributes Media Session.

(** ** Codecs *)

Inductive CodecType := Opus | Vp8 | Vp9 | H264 | Av1.

Definition name (c : CodecType) : str :=
  match c with Opus => lit "opus" | Vp8 => lit "VP8" | Vp9 => lit "VP9" | H264 => lit "H264" | Av1 => lit "AV1" end.
Definition type_rate (c : CodecType) : Z := match c with Opus => 48000 | _ => 90000 end.
Definition type_channels (c : CodecType) : option Z := match c with Opus => Some 2 | _ => None end.
Definition is_audio (c : CodecType) : bool := match c with Opus => true | _ => false end.
Definition is_video (c : CodecType) : bool := negb (is_audio c).

Definition from_name (s : str) : option CodecType :=
  List.find (fun c => bool_decide (to_lowercase s = to_lowercase (name c))) [Opus; Vp8; Vp9; H264; Av1].

Record CodecCapability := mkCapability { codec_type : CodecType; cap_payload_type : Z; cap_rate : Z; cap_channels : option Z; cap_fmtp : option str }.

Definition capability_new (c : CodecType) (pt : Z) : CodecCapability := mkCapability c pt (type_rate c) (type_channels c) None.
Definition with_fmtp (f : str) (c : CodecCapability) : CodecCapability :=
  mkCapability (codec_type c) (cap_payload_type c) (cap_rate c) (cap_channels c) (Some f).

Definition to_rtp_codec (c : CodecCapability) : outcome SdpError RtpCodec :=
  let s := name (codec_type c) ++ lit "/" ++ dec (cap_rate c) ++ match cap_channels c with Some n => lit "/" ++ dec n | None => [] end in
  match parse_codec (cap_payload_type c) s with Ok r => Ok r | _ => Panic end.

Definition default_supported_codecs : list CodecCapability :=
  [capability_new Opus 111; capability_new Vp8 96; capability_new Vp9 98; capability_new H264 102; capability_new Av1 35].

(** The extensions the data plane knows, as [(id, uri)]. *)
Definition offered_extmaps (media_kind : Z) : list (Z * str) :=
  (fun e => (Extensions.id e, lit (Extensions.uri e))) <$> Extensions.offered_for (if media_kind =? 0 then Audio else Video).

(** ** M-lines of an offer *)

Record RecycledMline := mkRecycled {
  r_mid : str;
  r_kind : Z;
  r_codecs : list RtpCodec;
  r_fmtps : list Fmtp;
  offer_pts : list Z;
  r_extmaps : list ExtMap;
  r_fbs : list (str * str);
  r_direction : Direction;
}.

Inductive OfferMline :=
| Recycled (r : RecycledMline)
| Track (ssrc media_kind : Z) (mid stream_id cname : str) (rtcp_fbs : list (str * str)) (keep_pt : bool).

Record SdpNegotiator := mkNegotiator {
  supported_codecs : list CodecCapability;
  our_ufrag : str;
  our_pwd : str;
  dtls_fingerprint : DtlsFingerprint;
  local_candidates : list IceCandidate;
  our_ice_lite : bool;
}.

Definition new (codecs : list CodecCapability) (ufrag pwd : str) (fp : DtlsFingerprint) : outcome SdpError SdpNegotiator :=
  assert_ (negb (bool_decide (codecs = [])));;
  assert_ (bool_decide (length codecs ≤ MAX_CODECS_PER_MEDIA)%nat);;
  validate_ice_ufrag ufrag;;
  validate_ice_pwd pwd;;
  validate_fingerprint fp;;
  Ok (mkNegotiator codecs ufrag pwd fp [] false).

Definition with_defaults (ufrag pwd : str) (fp : DtlsFingerprint) : outcome SdpError SdpNegotiator := new default_supported_codecs ufrag pwd fp.

Definition with_candidates (l : list IceCandidate) (n : SdpNegotiator) : SdpNegotiator :=
  mkNegotiator (supported_codecs n) (our_ufrag n) (our_pwd n) (dtls_fingerprint n) l (our_ice_lite n).
Definition with_ice_lite (b : bool) (n : SdpNegotiator) : SdpNegotiator :=
  mkNegotiator (supported_codecs n) (our_ufrag n) (our_pwd n) (dtls_fingerprint n) (local_candidates n) b.

Definition add_candidate (c : IceCandidate) (n : SdpNegotiator) : SdpNegotiator := with_candidates (local_candidates n ++ [c]) n.

(** ** Answers *)

Section negotiator.
Context (self : SdpNegotiator).

Definition find_capability (c : RtpCodec) (supported : list CodecCapability) : option CodecCapability :=
  List.find (fun x => bool_decide (to_lowercase (codec_name_str c) = to_lowercase (name (codec_type x))) && (clock_rate c =? cap_rate x)) supported.

Definition with_pt (pt : Z) (c : RtpCodec) : RtpCodec := mkRtpCodec pt (codec_name c) (clock_rate c) (channels c).

Fixpoint match_codecs (supported : list CodecCapability) (offers acc : list RtpCodec) : outcome SdpError (list RtpCodec) :=
  match offers with
  | [] => Ok acc
  | c :: offers =>
    match find_capability c supported with
    | Some x =>
      r ← to_rtp_codec x;
      let acc := acc ++ [with_pt (payload_type c) r] in
      if bool_decide (MAX_CODECS_PER_MEDIA ≤ length acc)%nat then Ok acc else match_codecs supported offers acc
    | None => match_codecs supported offers acc
    end
  end.

Definition negotiate_codecs (offer : MediaDescription) : outcome SdpError (list RtpCodec) :=
  assert_ (negb (bool_decide (supported_codecs self = [])));;
  let supported := List.filter (fun c => match media_type offer with
                                         | AudioMedia => is_audio (codec_type c)
                                         | VideoMedia => is_video (codec_type c)
                                         | Application => false
                                         end) (supported_codecs self) in
  l ← match_codecs supported (codecs offer) [];
  fail_if (bool_decide (l = [])) (NoCommonCodec (media_type_str (media_type offer)));;
  assert_ (bool_decide (length l ≤ MAX_CODECS_PER_MEDIA)%nat);;
  Ok l.

(** The first parameter [apt=<pt>]; the outer option: whether there is one. *)
Fixpoint find_apt (ps : list str) : option (option Z) :=
  match ps with
  | [] => None
  | p :: ps => match strip_prefix (lit "apt=") (trim p) with Some v => Some (parse_uint 8 (trim v)) | None => find_apt ps end
  end.

Fixpoint find_rtx_apt (l : list Fmtp) (rtx_pt : Z) : option Z :=
  match l with
  | [] => None
  | f :: l =>
    if fmtp_payload_type f =? rtx_pt then
      match find_apt (split 59 (from_utf8_or [] (params f))) with Some r => r | None => find_rtx_apt l rtx_pt end
    else find_rtx_apt l rtx_pt
  end.

(** RTX codecs of the offer for a negotiated payload type, with their fmtp line. *)
Fixpoint echo_rtx (offer : MediaDescription) (pts : list Z) (offers : list RtpCodec) (m : MediaDescription) : outcome SdpError MediaDescription :=
  match offers with
  | [] => Ok m
  | c :: offers =>
    m ← (if eq_ignore_ascii_case (codec_name_str c) (lit "rtx") then
           match find_rtx_apt (fmtps offer) (payload_type c) with
           | Some primary =>
             if bool_decide (primary ∈ pts) then
               m ← or_else m (add_codec c m);
               match List.find (fun f => fmtp_payload_type f =? payload_type c) (fmtps offer) with
               | Some f => or_else m (add_fmtp f m)
               | None => Ok m
               end
             else Ok m
           | None => Ok m
           end
         else Ok m);
    echo_rtx offer pts offers m
  end.

Fixpoint add_candidates (l : list IceCandidate) (m : MediaDescription) : outcome SdpError MediaDescription :=
  match l with
  | [] => Ok m
  | c :: l => if bool_decide (MAX_CANDIDATES_PER_MEDIA ≤ length (candidates m))%nat then Ok m else m ← or_else m (Media.add_candidate c m); add_candidates l m
  end.

Definition create_answer_media (offer : MediaDescription) (role : DtlsSetup) : outcome SdpError MediaDescription :=
  fail_if (bool_decide (codecs offer = []) && bool_decide (formats offer = [])) (NoCommonCodec (media_type_str (media_type offer)));;
  let m := set_trickle true (answer_base offer (our_ufrag self) (our_pwd self) (dtls_fingerprint self) role) in
  negotiated ← negotiate_codecs offer;
  m ← add_codecs negotiated m;
  m ← echo_rtx offer (payload_type <$> take 16 negotiated) (codecs offer) m;
  m ← answer_rest offer m;
  m ← add_candidates (local_candidates self) m;
  assert_ (negb (bool_decide (codecs m = [])));;
  Ok m.

Definition create_answer (offer : SessionDescription) : outcome SdpError SessionDescription :=
  fail_if (bool_decide (media offer = [])) InvalidFormat;;
  let role := answer_setup (session_setup offer) in
  let a := set_session_setup (Some role) (set_session_fingerprint (Some (dtls_fingerprint self)) (set_credentials (our_ufrag self) (our_pwd self)
             (set_name (lit "Nexus SFU") (session_new (session_id (origin offer)))))) in
  fail_if (existsb (fun m => negb (rtcp_mux m)) (media offer)) InvalidFormat;;
  let a := if bool_decide (bundle_group offer = []) then a else set_bundle_group (bundle_group offer) a in
  a ← answer_each (fun m => create_answer_media m role) (media offer) a;
  assert_ (bool_decide (length (media a) = length (media offer)));;
  Ok a.

Definition negotiate (offer_sdp : str) : outcome SdpError str :=
  fail_if (bool_decide (offer_sdp = [])) InvalidFormat;;
  offer ← SdpParser.parse offer_sdp;
  a ← create_answer offer;
  t ← Printer.print a;
  assert_ (negb (bool_decide (t = [])));;
  Ok t.

(** At most 128 candidates of the sections, in order. *)
Definition MAX_TOTAL_CANDIDATES : nat := 128.

Definition extract_candidates (s : SessionDescription) : outcome SdpError (list IceCandidate) :=
  assert_ (bool_decide (length (media s) ≤ MAX_MEDIA_SECTIONS)%nat);;
  let l := take MAX_TOTAL_CANDIDATES (concat ((fun m => take MAX_CANDIDATES_PER_MEDIA (candidates m)) <$> media s)) in
  assert_ (bool_decide (length l ≤ MAX_TOTAL_CANDIDATES)%nat);;
  Ok l.

(** ** Offers *)

(** Feedback lines for one payload type. *)
Fixpoint add_pt_fbs (pt : Z) (fbs : list (str * str)) (m : MediaDescription) : outcome SdpError MediaDescription :=
  match fbs with
  | [] => Ok m
  | (t, ps) :: fbs =>
    assert_ (negb (bool_decide (t = [])));;
    let value := if bool_decide (ps = []) then dec pt ++ lit " " ++ t else dec pt ++ lit " " ++ t ++ lit " " ++ ps in
    f ← parse_feedback value;
    add_pt_fbs pt fbs (add_rtcp_fb f m)
  end.

Fixpoint add_all_fbs (cs : list RtpCodec) (fbs : list (str * str)) (m : MediaDescription) : outcome SdpError MediaDescription :=
  match cs with [] => Ok m | c :: cs => m ← add_pt_fbs (payload_type c) fbs m; add_all_fbs cs fbs m end.

Definition add_rtcp_fbs (cs : list RtpCodec) (fbs : list (str * str)) (m : MediaDescription) : outcome SdpError MediaDescription :=
  fail_if (bool_decide (MAX_RTCP_FB_PER_MEDIA < length (rtcp_fbs m) + length cs * length fbs)%nat) InvalidFormat;;
  add_all_fbs cs fbs m.

Definition add_track_rtcp_fbs (fbs : list (str * str)) (m : MediaDescription) : outcome SdpError MediaDescription :=
  match head (codecs m) with
  | None => Ok m
  | Some c =>
    fail_if (bool_decide (MAX_RTCP_FB_PER_MEDIA < length (rtcp_fbs m) + length fbs)%nat) InvalidFormat;;
    add_pt_fbs (payload_type c) fbs m
  end.

(** Non-empty, no white space. *)
Fixpoint has_ws (s : str) : bool := match s with [] => false | b :: s' => negb (bool_decide (ws_len s = 0%nat)) || has_ws s' end.
Definition is_token (s : str) : bool := negb (bool_decide (s = [])) && negb (has_ws s).

Definition add_track_identity (ssrc : Z) (mid stream cname : str) (m : MediaDescription) : outcome SdpError MediaDescription :=
  assert_ (negb (ssrc =? 0));;
  fail_if (negb (is_token stream) || negb (is_token cname)) InvalidFormat;;
  let track := lit "nexus-track-" ++ mid in
  x ← msid_new stream track;
  let m := set_msid (Some x) m in
  s ← parse_ssrc (dec ssrc ++ lit " cname:" ++ cname);
  m ← add_ssrc s m;
  s ← parse_ssrc (dec ssrc ++ lit " msid:" ++ stream ++ lit " " ++ track);
  add_ssrc s m.

(** What an offered m-line starts from. *)
Definition offer_base (kind : Z) (mid : str) (d : Direction) : MediaDescription :=
  set_setup (Some Actpass) (set_fingerprint (Some (dtls_fingerprint self)) (set_trickle true (set_ice_credentials (our_ufrag self) (our_pwd self)
    (set_direction d (set_mid (Some (mid_new mid)) (media_new (if kind =? 0 then AudioMedia else VideoMedia) 9 UdpTlsRtpSavpf)))))).

Fixpoint copy_codecs (l : list RtpCodec) (m : MediaDescription) : outcome SdpError MediaDescription :=
  match l with [] => Ok m | c :: l => m ← or_else m (add_codec c m); copy_codecs l m end.
Fixpoint copy_fmtps (l : list Fmtp) (m : MediaDescription) : outcome SdpError MediaDescription :=
  match l with [] => Ok m | f :: l => m ← or_else m (add_fmtp f m); copy_fmtps l m end.

Definition MID_URI : str := lit "urn:ietf:params:rtp-hdrext:sdes:mid".

Definition recycled_media (mid_ext_id : Z) (r : RecycledMline) : outcome SdpError MediaDescription :=
  let m := set_rtcp_mux true (offer_base (r_kind r) (r_mid r) (r_direction r)) in
  m ← copy_codecs (r_codecs r) m;
  m ← copy_fmtps (r_fmtps r) m;
  m ← add_rtcp_fbs (r_codecs r) (r_fbs r) m;
  m ← copy_extmaps (r_extmaps r) m;
  if existsb (fun e => contains (lit "sdes:mid") (from_utf8_or [] (uri e))) (r_extmaps r) then Ok m
  else or_else m (add_extmap (mkExtMap mid_ext_id None MID_URI) m).

(** The payload types of the recycled m-lines. *)
Fixpoint mark_codecs (l : list RtpCodec) (used : list bool) : outcome SdpError (list bool) :=
  match l with
  | [] => Ok used
  | c :: l =>
    fail_if (127 <? payload_type c) (InvalidAttribute "rtpmap");;
    used ← set_at (Z.to_nat (payload_type c)) true used;
    mark_codecs l used
  end.

Fixpoint mark_pts (l : list Z) (used : list bool) : outcome SdpError (list bool) :=
  match l with
  | [] => Ok used
  | pt :: l => used ← (if pt <? 128 then set_at (Z.to_nat pt) true used else Ok used); mark_pts l used
  end.

Fixpoint mark_recycled (l : list OfferMline) (used : list bool) : outcome SdpError (list bool) :=
  match l with
  | [] => Ok used
  | Recycled r :: l => used ← mark_codecs (r_codecs r) used; used ← mark_pts (offer_pts r) used; mark_recycled l used
  | Track _ _ _ _ _ _ _ :: l => mark_recycled l used
  end.

(** A dynamic payload type (96 to 127) nobody uses. *)
Definition free_pt (used : list bool) : option Z :=
  List.find (fun pt => match used !! Z.to_nat pt with Some b => negb b | None => false end) (seqZ 96 32).

Record Defaults := mkDefaults {
  mid_ext_id : Z;
  video_extmaps : list (Z * str);
  audio_extmaps : list (Z * str);
  video_codec : option RtpCodec;
  audio_codec : option RtpCodec;
  video_fmtp : option Fmtp;
  audio_fmtp : option Fmtp;
}.

(** The codec of a track m-line and its payload type; [count]: of the m-lines. *)
Definition track_codec (d : Defaults) (kind : Z) (keep_pt : bool) (count : nat) (used : list bool) (m : MediaDescription)
  : outcome SdpError (MediaDescription * Z * list bool) :=
  match (if kind =? 0 then audio_codec d else video_codec d) with
  | Some c =>
    let original := payload_type c in
    fail_if (127 <? original) (InvalidAttribute "rtpmap");;
    taken ← idx used (Z.to_nat original);
    pt ← (if taken && negb keep_pt then of_option (TooManyMedia count 32) (free_pt used) else Ok original);
    used ← set_at (Z.to_nat pt) true used;
    m ← or_else m (add_codec (with_pt pt c) m);
    m ← match (if kind =? 0 then audio_fmtp d else video_fmtp d) with
        | Some f => or_else m (add_fmtp (mkFmtp (if fmtp_payload_type f =? original then pt else fmtp_payload_type f) (params f)) m)
        | None => Ok m
        end;
    Ok (m, pt, used)
  | None =>
    cs ← mapM to_rtp_codec (List.filter (fun c => eqb (is_audio (codec_type c)) (kind =? 0)) (supported_codecs self));
    m ← copy_codecs cs m;
    Ok (m, 0, used)
  end.

Definition track_media (d : Defaults) (count : nat) (ssrc kind : Z) (mid stream cname : str) (fbs : list (str * str)) (keep_pt : bool) (used : list bool)
  : outcome SdpError (MediaDescription * Z * list bool) :=
  assert_ (negb (ssrc =? 0));;
  '(m, pt, used) ← track_codec d kind keep_pt count used (offer_base kind mid SendOnly);
  let m := set_rtcp_rsize true (set_rtcp_mux true m) in
  m ← add_track_rtcp_fbs fbs m;
  m ← copy_extmaps ((fun e => mkExtMap e.1 None (cut 128 e.2)) <$> (if kind =? 0 then audio_extmaps d else video_extmaps d)) m;
  m ← add_track_identity ssrc mid stream cname m;
  m ← add_candidates (local_candidates self) m;
  assert_ (negb (bool_decide (codecs m = [])));;
  Ok (m, pt, used).

Fixpoint offer_each (d : Defaults) (count : nat) (l : list OfferMline) (s : SessionDescription) (mids : list str) (pts : list Z) (used : list bool)
  : outcome SdpError (SessionDescription * list str * list Z) :=
  match l with
  | [] => Ok (s, mids, pts)
  | Recycled r :: l =>
    m ← recycled_media (mid_ext_id d) r;
    s ← add_media m s;
    offer_each d count l s (mids ++ [r_mid r]) pts used
  | Track ssrc kind mid stream cname fbs keep :: l =>
    '(m, pt, used) ← track_media d count ssrc kind mid stream cname fbs keep used;
    s ← add_media m s;
    offer_each d count l s (mids ++ [mid]) (pts ++ [pt]) used
  end.

Definition create_ordered_offer (id version : Z) (mlines : list OfferMline) (d : Defaults) : outcome SdpError (str * list Z) :=
  assert_ (negb (bool_decide (mlines = [])));;
  fail_if (bool_decide (MAX_MEDIA_SECTIONS < length mlines)%nat) (TooManyMedia (length mlines) MAX_MEDIA_SECTIONS);;
  let s := set_ice_lite (our_ice_lite self) (set_session_setup (Some Actpass) (set_session_fingerprint (Some (dtls_fingerprint self))
             (set_credentials (our_ufrag self) (our_pwd self) (set_name (lit "Nexus SFU") (set_session_version version (session_new id)))))) in
  used ← mark_recycled mlines (replicate 128 false);
  '(s, mids, pts) ← offer_each d (length mlines) mlines s [] [] used;
  s ← (if bool_decide (mids = []) then Ok s else set_bundle mids s);
  t ← Printer.print s;
  assert_ (negb (bool_decide (t = [])));;
  Ok (t, pts).

Record TrackMline := mkTrackMline { t_ssrc : Z; t_kind : Z; t_mid : str; t_stream : str; t_cname : str; t_fbs : list (str * str) }.

Definition create_renegotiation_offer (id version : Z) (existing : list RecycledMline) (tracks : list TrackMline) (d : Defaults)
  : outcome SdpError (str * list Z) :=
  assert_ (negb (bool_decide (tracks = [])));;
  create_ordered_offer id version
    ((Recycled <$> existing) ++ ((fun t => Track (t_ssrc t) (t_kind t) (t_mid t) (t_stream t) (t_cname t) (t_fbs t) false) <$> tracks)) d.

End negotiator.
End Negotiator.
