(* ===== verification/SdpSafe.v ===== *)
(** * The parser is total

    Whatever text a peer sends, [SdpParser::parse] gives a description or an
    error and never panics: cuts are between characters, indices are within
    bounds. What it gives is within the capacities and the widths of the
    fields. *)

From stdpp Require Import strings.
From S2P Require Import Prelude Model Transports SdpParams SdpText SdpModel SdpParser.

(** ** Outcomes *)

(** No panic, and a result satisfies [Q]. *)
Definition total {E A} (m : outcome E A) (Q : A → Prop) : Prop := match m with Ok a => Q a | Err _ => True | Panic => False end.

Lemma total_bind {E A B} (m : outcome E A) (f : A → outcome E B) (Q : A → Prop) R : total m Q → (∀ a, Q a → total (f a) R) → total (m ≫= f) R.
Proof. intros Hm Hf. destruct m; cbn in *; auto. Qed.

Lemma total_spec {E A} (m : outcome E A) (Q : A → Prop) : total m Q ↔ no_panic m ∧ ∀ a, m = Ok a → Q a.
Proof. unfold no_panic. destruct m; cbn; naive_solver. Qed.

Lemma total_mono {E A} (m : outcome E A) (Q R : A → Prop) : total m Q → (∀ a, Q a → R a) → total m R.
Proof. destruct m; cbn; auto. Qed.

Lemma total_fail {E A} b (e : E) (f : () → outcome E A) R : (b = false → total (f ()) R) → total (fail_if b e ≫= f) R.
Proof. destruct b; cbn; auto. Qed.

Lemma total_opt {E A B} (e : E) (o : option A) (f : A → outcome E B) R : (∀ a, o = Some a → total (f a) R) → total (of_option e o ≫= f) R.
Proof. destruct o; cbn; auto. Qed.

Lemma total_idx {E A B} (l : list A) i (f : A → outcome E B) R : (i < length l)%nat → (∀ a, l !! i = Some a → total (f a) R) → total (idx l i ≫= f) R.
Proof. intros Hi Hf. destruct (lookup_lt_is_Some_2 l i Hi) as [a Ha]. unfold idx. rewrite Ha. by apply Hf. Qed.

Lemma total_assert {E A} b (f : () → outcome E A) R : b = true → total (f ()) R → total (assert_ b ≫= f) R.
Proof. by intros ->. Qed.

(** Walks through a function up to what needs an argument. *)
Ltac tot := repeat first
  [ progress cbv zeta
  | match goal with
    | |- total (mbind _ (fail_if _ _)) _ => apply total_fail; intros ?
    | |- total (mbind _ (of_option _ _)) _ => apply total_opt; intros ? ?
    | |- total (Ok _) _ => cbn [total]
    | |- total (Err _) _ => exact I
    end ].

Module TextProofs.
Import Text.

(** ** Cuts *)

(** A cut after an ASCII byte is between characters. *)
Definition synced (s : str) : Prop := ∀ i b, s !! i = Some b → b < 128 → boundary s (S i) = true.

Lemma boundary_spec s i : boundary s (S i) = true ↔ (∀ b, s !! S i = Some b → is_cont b = false) ∧ (S i ≤ length s)%nat.
Proof.
  unfold boundary. rewrite bool_decide_eq_false_2 by lia. cbn [orb]. destruct (s !! S i) as [b|] eqn:E.
  - apply lookup_lt_Some in E. rewrite negb_true_iff. split; [intros H; split; [by intros ? [= <-]|lia]|intros [H _]; by apply H].
  - apply lookup_ge_None in E. rewrite bool_decide_eq_true. split; [intros H; split; [done|lia]|intros [_ H]; lia].
Qed.

Lemma synced_infix a t b : synced (a ++ t ++ b) → synced t.
Proof.
  intros H i x Hi Hx. pose proof (lookup_lt_Some _ _ _ Hi) as Hlt.
  assert (Hl : (a ++ t ++ b) !! (length a + i)%nat = Some x) by (rewrite lookup_app_r by lia; replace (length a + i - length a)%nat with i by lia; by rewrite lookup_app_l).
  specialize (H _ _ Hl Hx). rewrite boundary_spec in *. destruct H as [Hc _]. split; [|lia]. intros y Hy. apply Hc.
  rewrite lookup_app_r by lia. replace (S (length a + i) - length a)%nat with (S i) by lia. rewrite lookup_app_l; [done|by eapply lookup_lt_Some].
Qed.

Lemma synced_drop k s : synced s → synced (drop k s).
Proof. intros H. apply (synced_infix (take k s) _ []). by rewrite app_nil_r, take_drop. Qed.

Lemma synced_take k s : synced s → synced (take k s).
Proof. intros H. apply (synced_infix [] _ (drop k s)). cbn. by rewrite take_drop. Qed.

Lemma head_not_cont s b : utf8_valid (b :: s) = true → is_cont b = false.
Proof.
  cbn. unfold is_cont. intros H. destruct (b <? 128) eqn:E1; [lia|]. destruct ((194 <=? b) && (b <? 224)) eqn:E2; [lia|].
  destruct ((224 <=? b) && (b <? 240)) eqn:E3; [lia|]. destruct ((240 <=? b) && (b <? 245)) eqn:E4; [lia|done].
Qed.

(** After an ASCII byte of a valid text comes a valid text. *)
Lemma utf8_after n : ∀ s i b, (length s ≤ n)%nat → utf8_valid s = true → s !! i = Some b → b < 128 → utf8_valid (drop (S i) s) = true.
Proof.
  induction n as [|n IH]; intros s i b Hn Hv Hi Hb; [destruct s; cbn in Hn; [done|lia]|]. destruct s as [|a s]; [done|]. cbn [length] in Hn. cbn in Hv.
  destruct (a <? 128) eqn:Ea.
  { destruct i as [|i]; [cbn; by rewrite drop_0|]. cbn in Hi |- *. apply (IH s i b); [lia|done..]. }
  destruct i as [|i]; cbn in Hi; [simplify_eq; lia|].
  assert (Hskip : ∀ c s', is_cont c = true → (c :: s') !! i = Some b → ∃ j, i = S j ∧ s' !! j = Some b).
  { intros c s' Hc Hl. destruct i as [|j]; cbn in Hl; [simplify_eq; unfold is_cont in Hc; lia|eauto]. }
  destruct ((194 <=? a) && (a <? 224)); [|destruct ((224 <=? a) && (a <? 240)); [|destruct ((240 <=? a) && (a <? 245)); [|done]]].
  - destruct s as [|c s]; [done|]. apply andb_true_iff in Hv as [Hc Hv]. destruct (Hskip c s Hc Hi) as (j & -> & Hj).
    cbn. apply (IH s j b); [cbn in Hn; lia|done..].
  - destruct s as [|c [|d s]]; [done..|]. apply andb_true_iff in Hv as [Hv Hr]. apply andb_true_iff in Hv as [Hv _]. apply andb_true_iff in Hv as [Hc Hd].
    destruct (Hskip c (d :: s) Hc Hi) as (j & -> & Hj). destruct j as [|j]; cbn in Hj; [simplify_eq; unfold is_cont in Hd; lia|].
    cbn. apply (IH s j b); [cbn in Hn; lia|done..].
  - destruct s as [|c [|d [|e s]]]; [done..|]. apply andb_true_iff in Hv as [Hv Hr]. apply andb_true_iff in Hv as [Hv _].
    apply andb_true_iff in Hv as [Hv He]. apply andb_true_iff in Hv as [Hc Hd].
    destruct (Hskip c (d :: e :: s) Hc Hi) as (j & -> & Hj). destruct j as [|[|j]]; cbn in Hj; [simplify_eq; unfold is_cont in Hd; lia|simplify_eq; unfold is_cont in He; lia|].
    cbn. apply (IH s j b); [cbn in Hn; lia|done..].
Qed.

Lemma utf8_synced s : utf8_valid s = true → synced s.
Proof.
  intros Hv i b Hi Hb. apply boundary_spec. pose proof (lookup_lt_Some _ _ _ Hi) as Hlt. split; [|lia]. intros c Hc.
  pose proof (utf8_after (length s) s i b (le_n _) Hv Hi Hb) as Hd. rewrite (drop_S _ _ _ Hc) in Hd. by eapply head_not_cont.
Qed.

(** ** Slices *)

Lemma str_to_eq {E} i s b : s !! i = Some b → b < 128 → str_to (E:=E) i s = Ok (take i s).
Proof.
  intros Hi Hb. pose proof (lookup_lt_Some _ _ _ Hi). unfold str_to, str_slice.
  assert (boundary s 0 && boundary s i = true) as ->.
  { unfold boundary. rewrite Hi. cbn. apply orb_true_iff. right. unfold is_cont. lia. }
  cbn. unfold slice. rewrite decide_True by lia. cbn. unfold sub_list. by rewrite drop_0, Nat.sub_0_r.
Qed.

Lemma str_from_eq {E} i s b : synced s → s !! i = Some b → b < 128 → str_from (E:=E) (S i) s = Ok (drop (S i) s).
Proof.
  intros Hs Hi Hb. pose proof (lookup_lt_Some _ _ _ Hi). unfold str_from, str_slice.
  assert (boundary s (S i) && boundary s (length s) = true) as ->.
  { rewrite (Hs i b Hi Hb). cbn. unfold boundary. rewrite lookup_ge_None_2 by lia. apply orb_true_iff. right. by apply bool_decide_eq_true. }
  cbn. unfold slice. rewrite decide_True by lia. cbn. unfold sub_list. by rewrite take_ge by (rewrite length_drop; lia).
Qed.

Lemma total_to {E A} i s b (f : str → outcome E A) R : synced s → s !! i = Some b → b < 128 → total (f (take i s)) R → total (str_to i s ≫= f) R.
Proof. intros _ Hi Hb. by rewrite (str_to_eq i s b). Qed.

Lemma total_from {E A} i s b (f : str → outcome E A) R : synced s → s !! i = Some b → b < 128 → total (f (drop (S i) s)) R → total (str_from (S i) s ≫= f) R.
Proof. intros Hs Hi Hb. by rewrite (str_from_eq i s b). Qed.

Lemma find_at c s i : find c s = Some i → s !! i = Some c.
Proof. intros H. apply position_Some in H as [(b & Hb & He) _]. apply Z.eqb_eq in He. congruence. Qed.

(** ** Pieces *)

Definition infix (t s : str) : Prop := ∃ a b, s = a ++ t ++ b.

Lemma infix_refl s : infix s s.
Proof. exists [], []. by rewrite app_nil_r. Qed.

Lemma infix_trans s t u : infix s t → infix t u → infix s u.
Proof. intros (a & b & ->) (c & d & ->). exists (c ++ a), (b ++ d). by rewrite <- !app_assoc. Qed.

Lemma infix_take k s : infix (take k s) s.
Proof. exists [], (drop k s). cbn. by rewrite take_drop. Qed.

Lemma infix_drop k s : infix (drop k s) s.
Proof. exists (take k s), []. by rewrite app_nil_r, take_drop. Qed.

Lemma infix_cons b t s : infix t s → infix t (b :: s).
Proof. intros (x & y & ->). by exists (b :: x), y. Qed.

Lemma synced_of t s : infix t s → synced s → synced t.
Proof. intros (a & b & ->). apply synced_infix. Qed.

Lemma split_infix c s : ∃ t ts, split c s = t :: ts ∧ t `prefix_of` s ∧ Forall (fun x => infix x s) ts.
Proof.
  induction s as [|b s (t & ts & Hs & [r Hr] & Hts)]; cbn [split]; [exists [], []; by split_and!|]. rewrite Hs. destruct (b =? c).
  - exists [], (t :: ts). split_and!; [done|apply prefix_nil|]. constructor; [exists [b], r; by rewrite Hr|]. eapply Forall_impl; [exact Hts|]. intros x. apply infix_cons.
  - exists (b :: t), ts. split_and!; [done|exists r; by rewrite Hr|]. eapply Forall_impl; [exact Hts|]. intros x. apply infix_cons.
Qed.

Lemma split_pieces c s : Forall (fun x => infix x s) (split c s).
Proof. destruct (split_infix c s) as (t & ts & -> & [r ->] & Hts). constructor; [by exists [], r|done]. Qed.

Lemma splitn_pieces k c : ∀ s, Forall (fun x => infix x s) (splitn k c s).
Proof.
  induction k as [|k IH]; intros s; cbn; [constructor; [apply infix_refl|constructor]|].
  destruct (find c s) as [i|]; [|constructor; [apply infix_refl|constructor]]. constructor; [apply infix_take|].
  eapply Forall_impl; [apply IH|]. intros x Hx. eapply infix_trans; [exact Hx|apply infix_drop].
Qed.

Lemma lines_pieces s : Forall (fun x => infix x s) (lines s).
Proof.
  unfold lines. generalize (split_pieces 10 s). generalize (split 10 s) as l. induction l as [|t [|u l] IH]; intros Hl; [done| |].
  - cbn. case_bool_decide; [done|exact Hl].
  - apply Forall_cons in Hl as [Ht Hl]. change (lines_of (t :: u :: l)) with (strip_cr t :: lines_of (u :: l)). constructor; [|by apply IH].
    unfold strip_cr. destruct (last t) as [z|]; [|done]. repeat case_match; first [exact Ht|eapply infix_trans; [apply infix_take|exact Ht]].
Qed.

Lemma trim_start_infix s : ∀ k, infix (trim_start k s) s.
Proof.
  induction s as [|b s IH]; intros k; [apply infix_refl|]. cbn [trim_start]. destruct k as [|k]; [|apply infix_cons, IH].
  destruct (ws_len (b :: s)); [apply infix_refl|apply infix_cons, IH].
Qed.

Lemma trim_end_prefix s : ∀ k, trim_end k s `prefix_of` s.
Proof.
  induction s as [|b s IH]; intros k; [done|]. cbn [trim_end].
  assert (Hk : ∀ j, (if bool_decide (trim_end j s = []) then [] else b :: trim_end j s) `prefix_of` b :: s) by (intros j; case_bool_decide; [apply prefix_nil|apply prefix_cons, IH]).
  destruct k; [|apply Hk]. destruct (ws_len (b :: s)); [apply prefix_cons, IH|apply Hk].
Qed.

Lemma trim_infix s : infix (trim s) s.
Proof. unfold trim. destruct (trim_end_prefix (trim_start 0 s) 0) as [r Hr]. eapply infix_trans; [|apply trim_start_infix]. exists [], r. exact Hr. Qed.

Lemma synced_lines s : synced s → Forall synced (lines s).
Proof. intros Hs. eapply Forall_impl; [apply lines_pieces|]. intros t Ht. exact (synced_of _ _ Ht Hs). Qed.

Lemma synced_trim s : synced s → synced (trim s).
Proof. apply synced_of, trim_infix. Qed.

Lemma synced_splitn k c s : synced s → Forall synced (splitn k c s).
Proof. intros Hs. eapply Forall_impl; [apply splitn_pieces|]. intros t Ht. exact (synced_of _ _ Ht Hs). Qed.

(** ** Numbers *)

Lemma digit_of_nonneg r b d : digit_of r b = Some d → 0 ≤ d.
Proof. unfold digit_of. intros H. repeat case_match; simplify_eq; lia. Qed.

Lemma digits_bound w r s : ∀ acc n, 0 ≤ r → 0 ≤ acc < 2 ^ w → digits w r acc s = Some n → 0 ≤ n < 2 ^ w.
Proof.
  induction s as [|b s IH]; cbn; intros acc n Hr Ha H; [by simplify_eq|]. destruct (digit_of r b) as [d|] eqn:Ed; [|done].
  apply digit_of_nonneg in Ed. destruct (Z.ltb_spec (acc * r + d) (2 ^ w)); [|done]. eapply IH; [done| |exact H]. nia.
Qed.

(** A number that was read is within its width. *)
Lemma parse_radix_bound w r s n : 0 ≤ w → 0 ≤ r → parse_radix w r s = Some n → 0 ≤ n < 2 ^ w.
Proof.
  intros Hw Hr. assert (0 < 2 ^ w) by (apply Z.pow_pos_nonneg; lia). unfold parse_radix. intros Hp.
  destruct s as [|b s]; [done|]. assert (Hd : digits w r 0 (b :: s) = Some n ∨ digits w r 0 s = Some n) by (repeat case_match; auto; done).
  destruct Hd as [Hd|Hd]; eapply digits_bound; [exact Hr| |exact Hd| exact Hr| |exact Hd]; lia.
Qed.

Lemma lossy_ascii s : Forall (fun b => 0 ≤ b < 128) s → from_utf8_lossy s = s.
Proof.
  unfold from_utf8_lossy. induction 1 as [|b s Hb Hs IH]; [done|]. cbn. rewrite (proj2 (Z.ltb_lt b 128)) by lia. cbn. by rewrite IH.
Qed.

Lemma lit_text_of s : bytes s → lit (text_of s) = s.
Proof.
  intros Hs. unfold lit, text_of, as_bytes. rewrite String.list_ascii_of_string_of_list_ascii, <- list_fmap_compose. induction Hs as [|b s Hb Hs IH]; [done|].
  cbn. rewrite IH. f_equal. unfold compose. rewrite Ascii.N_ascii_embedding; destruct Hb; lia.
Qed.

End TextProofs.

Module SdpSafe.
Import Text TextProofs Sdp SdpTypes Attributes Media Session.

(** ** What a description can hold *)

(** At most [n] entries, each satisfying [P]. *)
Definition bounded {A} (n : nat) (P : A → Prop) (l : list A) : Prop := (length l ≤ n)%nat ∧ Forall P l.

Definition some_is {A} (P : A → Prop) (o : option A) : Prop := match o with Some x => P x | None => True end.

Definition text_ok (min max : nat) (s : str) : Prop := (min ≤ length s ≤ max)%nat.

Definition ice_ok (s : str) : Prop := text_ok 1 256 s ∧ is_ice_chars s = true.
Definition mid_ok (s : str) : Prop := text_ok 1 MAX_MID_LEN s ∧ forallb is_token_char s = true.
Definition pt_ok (pt : Z) : Prop := 0 ≤ pt ≤ 127.

Definition fingerprint_ok (f : DtlsFingerprint) : Prop :=
  ∃ h, bytes h ∧ length h = hash_len (algorithm f) ∧ fp_value f = pad 64 h ∧ value_len f = Z.of_nat (length h).

Record candidate_ok (c : IceCandidate) : Prop := {
  cd_foundation : text_ok 0 32 (foundation c);
  cd_component : is_u8 (component c);
  cd_priority : is_u32 (priority c);
}.

Record codec_ok (c : RtpCodec) : Prop := {
  co_pt : pt_ok (payload_type c);
  co_name : text_ok 0 32 (codec_name c);
  co_rate : is_u32 (clock_rate c);
  co_channels : some_is is_u8 (channels c);
}.

Definition fmtp_ok (f : Fmtp) : Prop := is_u8 (fmtp_payload_type f) ∧ text_ok 0 256 (params f).
Definition ssrc_ok (s : SsrcInfo) : Prop := is_u32 (ssrc s) ∧ text_ok 0 32 (attribute s) ∧ text_ok 0 256 (ssrc_value s).
Definition extmap_ok (e : ExtMap) : Prop := 1 ≤ ext_map_id e < 2 ^ 8 ∧ text_ok 1 128 (uri e).
Definition feedback_ok (f : RtcpFeedback) : Prop := some_is is_u8 (fb_payload_type f) ∧ text_ok 0 32 (fb_type f) ∧ text_ok 0 64 (fb_params f).
Definition group_ok (g : SsrcGroup) : Prop := text_ok 0 16 (semantics g) ∧ bounded 8 is_u32 (group_ssrcs g).
Definition rid_ok (r : Rid) : Prop := text_ok 0 32 (rid_id r).
Definition msid_ok (x : Msid) : Prop := text_ok 0 MAX_ID_LEN (stream_id x) ∧ text_ok 0 MAX_ID_LEN (track_id x).

(** The distinct SSRCs are those of the [ssrc] lines. *)
Definition values_ok (infos : list SsrcInfo) (values : list Z) : Prop :=
  NoDup values ∧ (length values ≤ length infos)%nat ∧ ∀ x, x ∈ values ↔ x ∈ ssrc <$> infos.

Record media_ok (m : MediaDescription) : Prop := {
  mo_port : is_u16 (port m);
  mo_formats : bounded MAX_FORMATS pt_ok (formats m);
  mo_ufrag : some_is ice_ok (ice_ufrag m);
  mo_pwd : some_is ice_ok (ice_pwd m);
  mo_candidates : bounded MAX_CANDIDATES_PER_MEDIA candidate_ok (candidates m);
  mo_fingerprint : some_is fingerprint_ok (fingerprint m);
  mo_mid : some_is mid_ok (mid m);
  mo_codecs : bounded MAX_CODECS_PER_MEDIA codec_ok (codecs m);
  mo_fmtps : bounded MAX_CODECS_PER_MEDIA fmtp_ok (fmtps m);
  mo_ssrcs : bounded MAX_SSRCS_PER_MEDIA ssrc_ok (ssrcs m);
  mo_values : values_ok (ssrcs m) (ssrc_values m);
  mo_extmaps : bounded MAX_EXTMAPS_PER_MEDIA extmap_ok (extmaps m);
  mo_fbs : bounded MAX_RTCP_FB_PER_MEDIA feedback_ok (rtcp_fbs m);
  mo_groups : bounded MAX_SSRC_GROUPS_PER_MEDIA group_ok (ssrc_groups m);
  mo_rids : bounded MAX_RIDS_PER_MEDIA rid_ok (rids m);
  mo_simulcast : some_is (text_ok 0 256) (simulcast m);
  mo_msid : some_is msid_ok (msid m);
  mo_mux : rtcp_mux m = true;
}.

Definition origin_ok (o : Origin) : Prop :=
  text_ok 0 32 (username o) ∧ is_u64 (session_id o) ∧ is_u64 (session_version o) ∧ text_ok 0 64 (origin_address o).

Record session_ok (s : SessionDescription) : Prop := {
  so_version : version s = 0;
  so_origin : origin_ok (origin s);
  so_name : text_ok 0 64 (session_name s);
  so_timing : is_u64 (start (timing s)) ∧ is_u64 (stop (timing s));
  so_ufrag : some_is ice_ok (session_ufrag s);
  so_pwd : some_is ice_ok (session_pwd s);
  so_fingerprint : some_is fingerprint_ok (session_fingerprint s);
  so_bundle : text_ok 0 MAX_BUNDLE_LEN (bundle_group s);
  so_media : bounded MAX_MEDIA_SECTIONS media_ok (media s);
}.

Lemma bounded_snoc {A} n (P : A → Prop) l x : (length l < n)%nat → bounded n P l → P x → bounded n P (l ++ [x]).
Proof. intros Hl [_ Hf] Hx. split; [rewrite length_app; cbn; lia|]. apply Forall_app. auto. Qed.

Lemma bounded_nil {A} n (P : A → Prop) : bounded n P [].
Proof. split; [cbn; lia|done]. Qed.

Lemma cut_ok n s : text_ok 0 n (cut n s).
Proof. unfold text_ok, cut. rewrite length_take. lia. Qed.

Lemma uint_ok w s n : 0 ≤ w → parse_uint w s = Some n → in_range w n.
Proof. intros Hw. apply parse_radix_bound; lia. Qed.

(** ** Reading an attribute *)

Ltac tot_idx := repeat first [apply total_idx; [lia|intros ? ?]|progress tot].

Lemma total_transport s : total (parse_transport s) (fun _ => True).
Proof. unfold parse_transport. by repeat case_match. Qed.

Lemma total_type s : total (parse_type s) (fun _ => True).
Proof. unfold parse_type. by repeat case_match. Qed.

Lemma candidate_total v : total (parse_candidate v) candidate_ok.
Proof.
  unfold parse_candidate. cbv zeta. apply total_fail. intros Hl%bool_decide_eq_false. tot_idx. eapply total_bind; [apply total_transport|].
  intros t _. tot_idx. eapply total_bind; [apply total_type|]. intros k _. eapply (total_bind _ _ (fun _ => True)).
  - destruct (bool_decide (12 ≤ _)%nat) eqn:E12; [apply bool_decide_eq_true in E12|done]. tot_idx. destruct (_ && _); [|done]. by tot_idx.
  - intros r _. cbn. split; cbn; [apply cut_ok|eapply uint_ok; [|eassumption]; lia..].
Qed.

Lemma algorithm_total s : total (parse_algorithm s) (fun _ => True).
Proof. unfold parse_algorithm. by repeat case_match. Qed.

Lemma ascii_boundary s i : is_ascii s = true → (i ≤ length s)%nat → boundary s i = true.
Proof.
  intros Ha Hi. unfold boundary. apply orb_true_iff. right. destruct (s !! i) as [b|] eqn:E.
  - unfold is_ascii in Ha. rewrite forallb_forall in Ha. specialize (Ha b). unfold is_cont. assert ((b <? 128) = true) by (apply Ha, list_elem_of_In; by eapply list_elem_of_lookup_2). lia.
  - apply lookup_ge_None in E. apply bool_decide_eq_true. lia.
Qed.

Lemma ascii_slice {E A} a b s (f : str → outcome E A) R : is_ascii s = true → (a ≤ b ≤ length s)%nat → total (f (sub_list a b s)) R → total (str_slice a b s ≫= f) R.
Proof.
  intros Ha Hb Hf. unfold str_slice. rewrite !ascii_boundary by (done || lia). cbn. unfold slice. by rewrite decide_True by lia.
Qed.

Lemma total_mapM {E A B} (f : A → outcome E B) (Q : B → Prop) l : Forall (fun x => total (f x) Q) l → total (mapM f l) (fun r => Forall Q r ∧ length r = length l).
Proof.
  induction l as [|x l IH]; intros Hl; [done|]. apply Forall_cons in Hl as [Hx Hl]. cbn.
  eapply total_bind; [exact Hx|]. intros y Hy. eapply total_bind; [by apply IH|]. intros ys [Hys Hlen]. cbn. split; [by constructor|by rewrite Hlen].
Qed.

Lemma hex_total h : total (parse_hex_bytes h) (fun l => bytes l ∧ length l = (length h / 2)%nat).
Proof.
  unfold parse_hex_bytes. apply total_fail. intros Ha%negb_false_iff. apply total_fail. intros _.
  eapply total_mono; [apply (total_mapM _ is_u8)|]; cycle 1.
  { intros l [Hl Hlen]. by rewrite length_seq in Hlen. }
  apply Forall_forall. intros k Hk%elem_of_seq. pose proof (Nat.Div0.mul_div_le (length h) 2).
  apply ascii_slice; [done|lia|]. destruct (parse_radix _ _ _) as [n|] eqn:En; cbn; [|done]. by apply parse_radix_bound in En.
Qed.

Lemma fingerprint_total v : total (parse_fingerprint v) fingerprint_ok.
Proof.
  unfold parse_fingerprint. apply total_fail. intros _. cbv zeta. apply total_fail. intros Hl%negb_false_iff%bool_decide_eq_true.
  tot_idx. eapply total_bind; [apply algorithm_total|]. intros alg _. tot_idx. eapply total_bind; [apply hex_total|]. intros h [Hh _].
  apply total_fail. intros Hlen%negb_false_iff%bool_decide_eq_true. exists h. by split_and!.
Qed.

Lemma codec_total pt v : 0 ≤ pt → total (parse_codec pt v) codec_ok.
Proof.
  intros H0. unfold parse_codec. cbv zeta. apply total_fail. intros Hpt. apply total_fail. intros Hl%bool_decide_eq_false.
  tot_idx. split; cbn; [unfold pt_ok; lia|apply cut_ok|eapply uint_ok; [|eassumption]; lia|].
  destruct (split 47 v !! 2%nat); cbn; [|done]. destruct (parse_uint 8 _) eqn:E; cbn; [|done]. eapply uint_ok; [|eassumption]; lia.
Qed.

Lemma feedback_total v : total (parse_feedback v) feedback_ok.
Proof.
  unfold parse_feedback. cbv zeta. apply total_fail. intros Hl%bool_decide_eq_false. tot_idx.
  eapply (total_bind _ _ (some_is is_u8)).
  - case_match; [done|]. tot. cbn. eapply uint_ok; [|eassumption]; lia.
  - intros pt Hpt. tot_idx. split_and!; cbn; [done|apply cut_ok|]. case_match; [apply cut_ok|unfold text_ok; cbn; lia].
Qed.

Lemma ssrc_total v : synced v → total (parse_ssrc v) ssrc_ok.
Proof.
  intros Hs. unfold parse_ssrc. tot. pose proof (find_at _ _ _ H) as Hf. eapply total_to; [done|exact Hf|lia|]. tot.
  eapply total_from; [done|exact Hf|lia|]. set (rest := drop _ v). assert (Hr : synced rest) by by apply synced_drop.
  eapply (total_bind _ _ (fun _ => True)).
  - destruct (find 58 rest) as [c|] eqn:Ec; [|done]. apply find_at in Ec. eapply total_to; [done|exact Ec|lia|]. by eapply total_from; [done|exact Ec|lia|].
  - intros [at_ val] _. tot. apply orb_false_iff in H1 as [?%bool_decide_eq_false ?%bool_decide_eq_false]. split_and!; cbn; [eapply uint_ok; [|eassumption]; lia|split; lia..].
Qed.

Lemma fmtp_total v : synced v → total (parse_fmtp v) fmtp_ok.
Proof.
  intros Hs. unfold parse_fmtp. tot. pose proof (find_at _ _ _ H) as Hf. eapply total_to; [done|exact Hf|lia|]. tot.
  eapply total_from; [done|exact Hf|lia|]. split; cbn; [eapply uint_ok; [|eassumption]; lia|apply cut_ok].
Qed.

Lemma ice_total n v : total (parse_ice_value n v) ice_ok.
Proof.
  unfold parse_ice_value. apply total_fail. intros [[?%bool_decide_eq_false ?%bool_decide_eq_false]%orb_false_iff ?%negb_false_iff]%orb_false_iff.
  split; [|done]. destruct v; [done|]. unfold text_ok. cbn [length] in *. lia.
Qed.

Lemma mid_total v : total (mid_parse v) mid_ok.
Proof.
  unfold mid_parse. apply total_fail. intros [[?%bool_decide_eq_false Hl%bool_decide_eq_false]%orb_false_iff ?%negb_false_iff]%orb_false_iff.
  cbn [total]. unfold mid_new, cut. rewrite take_ge by lia. split; [|done]. destruct v; [done|]. unfold text_ok. cbn [length] in *. lia.
Qed.

Lemma msid_total a b : total (msid_new a b) msid_ok.
Proof. unfold msid_new. tot. apply bool_decide_eq_false in H, H0. split; unfold text_ok; cbn; lia. Qed.

(** ** The m-section *)

Ltac field H := destruct H; constructor; cbn; try assumption.

Lemma media_new_ok t p k : is_u16 p → media_ok (media_new t p k).
Proof. intros Hp. constructor; cbn; try apply bounded_nil; try done. split_and!; [constructor|done|set_solver]. Qed.

Lemma formats_snoc_ok m pt : media_ok m → pt_ok pt → (length (formats m) < MAX_FORMATS)%nat → media_ok (set_formats (formats m ++ [pt]) m).
Proof. intros Hm Hp Hl. field Hm. by apply bounded_snoc. Qed.

Lemma add_codec_total c m : media_ok m → codec_ok c → total (add_codec c m) media_ok.
Proof.
  intros Hm Hc. unfold add_codec. tot. apply bool_decide_eq_false in H. destruct Hc as [Hpt ? ? ?] eqn:Ec. clear Ec.
  case_bool_decide; field Hm; apply bounded_snoc; try done; lia.
Qed.

Lemma fmtps_snoc_ok m f : media_ok m → fmtp_ok f → (length (fmtps m) < MAX_CODECS_PER_MEDIA)%nat → media_ok (set_fmtps (fmtps m ++ [f]) m).
Proof. intros Hm Hf Hl. field Hm. by apply bounded_snoc. Qed.

Lemma add_fmtp_total f m : media_ok m → fmtp_ok f → total (add_fmtp f m) media_ok.
Proof. intros Hm Hf. unfold add_fmtp. tot. apply bool_decide_eq_false in H. apply fmtps_snoc_ok; [done..|lia]. Qed.

Lemma add_candidate_total c m : media_ok m → candidate_ok c → total (add_candidate c m) media_ok.
Proof. intros Hm Hc. unfold add_candidate. tot. apply bool_decide_eq_false in H. field Hm. apply bounded_snoc; [lia|done..]. Qed.

Lemma values_snoc s infos values : values_ok infos values → ssrc s ∉ values → values_ok (infos ++ [s]) (values ++ [ssrc s]).
Proof.
  intros (Hn & Hl & Hx) Hs. split_and!; [apply NoDup_app; split_and!; [done|set_solver|apply NoDup_singleton]|rewrite !length_app; cbn; lia|].
  intros x. rewrite fmap_app, !elem_of_app, Hx. done.
Qed.

Lemma values_same s infos values : values_ok infos values → ssrc s ∈ values → values_ok (infos ++ [s]) values.
Proof.
  intros (Hn & Hl & Hx) Hs. split_and!; [done|rewrite length_app; cbn; lia|].
  intros x. rewrite fmap_app, elem_of_app. cbn. rewrite list_elem_of_singleton, <- Hx. naive_solver.
Qed.

Lemma add_ssrc_total s m : media_ok m → ssrc_ok s → total (add_ssrc s m) media_ok.
Proof.
  intros Hm Hs. unfold add_ssrc. tot. apply bool_decide_eq_false in H. pose proof (mo_values _ Hm) as Hv. pose proof Hv as (_ & Hlen & _).
  rewrite bool_decide_eq_true_2 by lia. cbn [andb]. case_bool_decide as Hin; cbn [negb]; destruct Hm; constructor; cbn; try assumption;
    first [apply bounded_snoc; [lia|done..]|by apply values_same|by apply values_snoc].
Qed.

Lemma add_extmap_total e m : media_ok m → extmap_ok e → total (add_extmap e m) media_ok.
Proof. intros Hm He. unfold add_extmap. tot. apply bool_decide_eq_false in H. field Hm. apply bounded_snoc; [lia|done..]. Qed.

Lemma add_fb_ok f m : media_ok m → feedback_ok f → media_ok (add_rtcp_fb f m).
Proof. intros Hm Hf. unfold add_rtcp_fb. case_bool_decide; [done|]. field Hm. apply bounded_snoc; [lia|done..]. Qed.

Lemma add_group_ok g m : media_ok m → group_ok g → media_ok (add_ssrc_group g m).
Proof. intros Hm Hg. unfold add_ssrc_group. case_bool_decide; [done|]. field Hm. apply bounded_snoc; [lia|done..]. Qed.

Lemma add_rid_ok r m : media_ok m → rid_ok r → media_ok (add_rid r m).
Proof. intros Hm Hr. unfold add_rid. case_bool_decide; [done|]. field Hm. apply bounded_snoc; [lia|done..]. Qed.

Lemma or_else_total {A} (d : A) m (Q : A → Prop) : total m Q → Q d → total (or_else d m) Q.
Proof. destruct m; cbn; auto. Qed.

(** ** The parser's loop *)

Import SdpParser.

Record state_ok (p : PState) : Prop := {
  st_session : session_ok (session p);
  st_media : some_is media_ok (current_media p);
}.

Lemma add_media_total m s : session_ok s → media_ok m → total (add_media m s) session_ok.
Proof. intros Hs Hm. unfold add_media. tot. apply bool_decide_eq_false in H. field Hs. apply bounded_snoc; [lia|done..]. Qed.

(** Closing the open m-section. *)
Lemma close_total p : state_ok p → total (match current_media p with Some m => add_media m (session p) | None => Ok (session p) end) session_ok.
Proof. intros [Hs Hm]. destruct (current_media p); [by apply add_media_total|done]. Qed.

Lemma formats_ok l : ∀ m, media_ok m → media_ok (parse_formats l m).
Proof.
  induction l as [|f l IH]; intros m Hm; cbn [parse_formats]; [done|]. case_bool_decide; [done|].
  destruct (parse_uint 8 f) as [pt|] eqn:Ep; [|by apply IH]. apply IH. destruct (Z.leb_spec pt 127); [|done].
  apply formats_snoc_ok; [done| |lia]. apply uint_ok in Ep; [|lia]. unfold pt_ok, in_range in *. lia.
Qed.

Lemma slice_total {E A} (l : list A) a : (a ≤ length l)%nat → total (slice (E:=E) a (length l) l) (fun _ => True).
Proof. intros Ha. unfold slice. by rewrite decide_True by lia. Qed.

Lemma media_line_total v n : total (parse_media_line v n) media_ok.
Proof.
  unfold parse_media_line. cbv zeta. apply total_fail. intros Hl%bool_decide_eq_false. tot_idx.
  eapply total_bind; [apply slice_total; lia|]. intros fmts _. apply formats_ok, media_new_ok. eapply uint_ok; [|eassumption]; lia.
Qed.

Lemma media_section_total v n p : state_ok p → total (parse_media_section v n p) state_ok.
Proof.
  intros Hp. unfold parse_media_section. eapply total_bind; [by apply close_total|]. intros s Hs. tot.
  eapply total_bind; [apply media_line_total|]. intros m Hm. by split.
Qed.

Lemma origin_total v n : total (parse_origin v n) origin_ok.
Proof.
  unfold parse_origin. cbv zeta. apply total_fail. intros Hl%bool_decide_eq_false. tot_idx.
  split_and!; cbn; [apply cut_ok|eapply uint_ok; [|eassumption]; lia..|apply cut_ok].
Qed.

Lemma default_uint w s : 0 ≤ w → in_range w (default 0 (parse_uint w s)).
Proof.
  intros Hw. destruct (parse_uint w s) as [n|] eqn:E; cbn; [by eapply uint_ok|]. assert (0 < 2 ^ w) by (apply Z.pow_pos_nonneg; lia). split; lia.
Qed.

Lemma timing_total v n : total (parse_timing v n) (fun t => is_u64 (start t) ∧ is_u64 (stop t)).
Proof.
  unfold parse_timing. cbv zeta. apply total_fail. intros Hl%bool_decide_eq_false. tot_idx. split; cbn; apply default_uint; lia.
Qed.

Lemma on_media_ok f p : state_ok p → (∀ m, media_ok m → media_ok (f m)) → state_ok (on_media f p).
Proof. intros [Hs Hm] Hf. split; [done|]. cbn. destruct (current_media p); cbn in *; auto. Qed.

Lemma on_media_try_total f p : state_ok p → (∀ m, media_ok m → total (f m) media_ok) → total (on_media_try f p) state_ok.
Proof.
  intros [Hs Hm] Hf. unfold on_media_try. destruct (current_media p) as [m|] eqn:E; [|by split; [|rewrite E]].
  eapply total_bind; [by apply Hf|]. intros m' Hm'. by split.
Qed.

Lemma on_level_ok fm fs p : state_ok p → (∀ m, media_ok m → media_ok (fm m)) → (∀ s, session_ok s → session_ok (fs s)) → state_ok (on_level fm fs p).
Proof.
  intros [Hs Hm] Hfm Hfs. unfold on_level. destruct (current_media p) as [m|] eqn:E; split; cbn; auto. by rewrite E.
Qed.

Lemma keep_ok slot f : some_is fingerprint_ok slot → fingerprint_ok f → some_is fingerprint_ok (keep_preferred_fingerprint slot f).
Proof. intros Hs Hf. unfold keep_preferred_fingerprint. by repeat case_match. Qed.

Lemma attr_fingerprint_total v p : state_ok p → total (attr_fingerprint v p) state_ok.
Proof.
  intros Hp. unfold attr_fingerprint. pose proof (fingerprint_total v) as Hf. destruct (parse_fingerprint v) as [f|e|]; cbn in Hf; [|by destruct e|done].
  cbn. apply on_level_ok; [done|intros m Hm; field Hm; by apply keep_ok|intros s Hs; field Hs; by apply keep_ok].
Qed.

Lemma attr_setup_total v p : state_ok p → total (attr_setup v p) state_ok.
Proof. intros Hp. unfold attr_setup. tot. apply on_level_ok; [done|intros m Hm; by field Hm|intros s Hs; by field Hs]. Qed.

Lemma attr_group_total v p : state_ok p → total (attr_group v p) state_ok.
Proof.
  intros [Hs Hm]. unfold attr_group. destruct (strip_prefix _ v) as [b|]; [|by split]. unfold set_bundle_value.
  destruct (bool_decide _) eqn:E; cbn; [done|]. apply bool_decide_eq_false in E. split; [|done]. field Hs. change (text_ok 0 MAX_BUNDLE_LEN b). unfold text_ok. lia.
Qed.

Lemma attr_rtpmap_total v m : synced v → media_ok m → total (attr_rtpmap v m) media_ok.
Proof.
  intros Hs Hm. unfold attr_rtpmap. destruct (find 32 v) as [i|] eqn:Ef; [|done]. apply find_at in Ef. eapply total_to; [done|exact Ef|lia|].
  destruct (parse_uint 8 _) as [pt|] eqn:Ep; [|done]. eapply total_from; [done|exact Ef|lia|]. apply uint_ok in Ep; [|lia].
  pose proof (codec_total pt (drop (S i) v) (proj1 Ep)) as Hc. destruct (parse_codec _ _); [|done|done].
  apply or_else_total; [by apply add_codec_total|done].
Qed.

Lemma attr_fmtp_total v m : synced v → media_ok m → total (attr_fmtp v m) media_ok.
Proof.
  intros Hs Hm. unfold attr_fmtp. pose proof (fmtp_total v Hs) as Hf. destruct (parse_fmtp v); [|done|done]. cbn. case_bool_decide; [|done]. by apply fmtps_snoc_ok.
Qed.

Lemma attr_ssrc_total v m : synced v → media_ok m → total (attr_ssrc v m) media_ok.
Proof. intros Hs Hm. unfold attr_ssrc. eapply total_bind; [by apply ssrc_total|]. intros s Hok. apply or_else_total; [by apply add_ssrc_total|done]. Qed.

Lemma extmap_total i u d : total (parse_extmap i u d) extmap_ok.
Proof.
  unfold parse_extmap. tot. apply orb_false_iff in H1 as [?%bool_decide_eq_false ?%bool_decide_eq_false]. apply uint_ok in H; [|lia]. unfold in_range in H.
  split; cbn; [lia|]. destruct u; [done|]. unfold text_ok. cbn [length] in *. lia.
Qed.

Lemma attr_extmap_total v m : synced v → media_ok m → total (attr_extmap v m) media_ok.
Proof.
  intros Hs Hm. unfold attr_extmap. cbv zeta. destruct (bool_decide _) eqn:El; [done|]. apply bool_decide_eq_false in El. tot_idx.
  assert (Ha : synced a) by (pose proof (synced_splitn 2 32 v Hs) as Hf; rewrite Forall_forall in Hf; apply Hf; by eapply list_elem_of_lookup_2).
  eapply (total_bind _ _ (fun _ => True)).
  - destruct (find 47 a) as [j|] eqn:Ef; [|done]. apply find_at in Ef. eapply total_from; [done|exact Ef|lia|]. by eapply total_to; [done|exact Ef|lia|].
  - intros [i d] _. eapply total_bind; [apply extmap_total|]. intros e He. apply or_else_total; [by apply add_extmap_total|done].
Qed.

Lemma attr_candidate_total v m : media_ok m → total (attr_candidate v m) media_ok.
Proof.
  intros Hm. unfold attr_candidate. pose proof (candidate_total v) as Hc. destruct (parse_candidate v); [|done|done].
  apply or_else_total; [by apply add_candidate_total|done].
Qed.

Lemma attr_rtcp_fb_total v m : media_ok m → total (attr_rtcp_fb v m) media_ok.
Proof. intros Hm. unfold attr_rtcp_fb. pose proof (feedback_total v) as Hf. destruct (parse_feedback v); [|done|done]. by apply add_fb_ok. Qed.

Lemma group_ssrcs_ok l : ∀ acc, bounded 8 is_u32 acc → bounded 8 is_u32 (group_ssrcs_of l acc).
Proof.
  induction l as [|p l IH]; intros acc Ha; cbn [group_ssrcs_of]; [done|]. case_bool_decide; [done|]. apply IH.
  destruct (parse_uint 32 p) eqn:Ep; [|done]. apply bounded_snoc; [lia|done|]. eapply uint_ok; [|eassumption]; lia.
Qed.

Lemma attr_ssrc_group_total v m : media_ok m → total (attr_ssrc_group v m) media_ok.
Proof.
  intros Hm. unfold attr_ssrc_group. cbv zeta. destruct (bool_decide _) eqn:El; [done|]. apply bool_decide_eq_false in El. tot_idx.
  eapply total_bind; [apply slice_total; lia|]. intros r _. apply add_group_ok; [done|]. split; cbn; [apply cut_ok|apply group_ssrcs_ok, bounded_nil].
Qed.

Lemma attr_rid_total v m : media_ok m → total (attr_rid v m) media_ok.
Proof.
  intros Hm. unfold attr_rid. cbv zeta. destruct (bool_decide _) eqn:El; [done|]. apply bool_decide_eq_false in El. tot_idx.
  apply add_rid_ok; [done|]. apply cut_ok.
Qed.

Lemma attr_msid_total v m : synced v → media_ok m → total (attr_msid v m) media_ok.
Proof.
  intros Hs Hm. unfold attr_msid. eapply (total_bind _ _ (fun _ => True)).
  - destruct (find 32 v) as [i|] eqn:Ef; [|done]. apply find_at in Ef. eapply total_to; [done|exact Ef|lia|]. by eapply total_from; [done|exact Ef|lia|].
  - intros [a b] _. eapply total_bind; [apply msid_total|]. intros x Hx. cbn. by field Hm.
Qed.

Lemma ice_level_total n v p fm fs : state_ok p → (∀ x m, ice_ok x → media_ok m → media_ok (fm x m)) → (∀ x s, ice_ok x → session_ok s → session_ok (fs x s)) →
  total (x ← parse_ice_value n v; Ok (on_level (fm x) (fs x) p)) state_ok.
Proof. intros Hp Hm Hs. eapply total_bind; [apply ice_total|]. intros x Hx. apply on_level_ok; auto. Qed.

#[local] Create HintDb sdp.
#[local] Hint Resolve attr_fingerprint_total attr_setup_total attr_group_total attr_rtpmap_total attr_fmtp_total attr_ssrc_total attr_extmap_total
  attr_candidate_total attr_rtcp_fb_total attr_ssrc_group_total attr_rid_total attr_msid_total : sdp.

Lemma valued_attribute_total n v p : synced v → state_ok p → total (valued_attribute n v p) state_ok.
Proof.
  intros Hs Hp. unfold valued_attribute.
  destruct (is_name n "ice-ufrag"); [apply ice_level_total; [done|intros x m ? Hm; by field Hm|intros x s ? Hss; by field Hss]|].
  destruct (is_name n "ice-pwd"); [apply ice_level_total; [done|intros x m ? Hm; by field Hm|intros x s ? Hss; by field Hss]|].
  destruct (is_name n "ice-options"); [apply on_media_ok; [done|intros m Hm; by field Hm]|].
  destruct (is_name n "fingerprint"); [auto with sdp|]. destruct (is_name n "setup"); [auto with sdp|].
  destruct (is_name n "mid").
  { apply on_media_try_total; [done|]. intros m Hm. eapply total_bind; [apply mid_total|]. intros x Hx. by field Hm. }
  destruct (is_name n "group"); [auto with sdp|].
  do 8 (destruct (is_name n _); [apply on_media_try_total; auto with sdp|]).
  destruct (is_name n "simulcast"); [apply on_media_ok; [done|intros m Hm; field Hm; apply cut_ok]|].
  destruct (is_name n "msid"); [apply on_media_try_total; auto with sdp|done].
Qed.

Lemma split_attribute_total v : synced v → total (split_attribute v) (fun r => some_is synced r.2).
Proof.
  intros Hs. unfold split_attribute. destruct (find 58 v) as [i|] eqn:Ef; [|done]. apply find_at in Ef.
  eapply total_to; [done|exact Ef|lia|]. eapply total_from; [done|exact Ef|lia|]. cbn. by apply synced_drop.
Qed.

Lemma attribute_total v p : synced v → state_ok p → total (parse_attribute v p) state_ok.
Proof.
  intros Hs Hp. unfold parse_attribute. eapply total_bind; [by apply split_attribute_total|]. intros [n o] Ho. cbn in Ho.
  destruct (is_name n "ice-lite"); [destruct Hp as [Hps ?]; split; [by field Hps|done]|].
  do 9 (destruct (is_name n _); [apply on_media_ok; [done|intros m Hm; by field Hm]|]).
  destruct o as [w|]; [by apply valued_attribute_total|done].
Qed.

Lemma version_total v n p : state_ok p → total (parse_version v n p) state_ok.
Proof. intros [Hs Hm]. unfold parse_version. tot. apply negb_false_iff, Z.eqb_eq in H0. split; [|done]. by field Hs. Qed.

Lemma line_total l n p : synced l → state_ok p → total (parse_line l n p) state_ok.
Proof.
  intros Hs Hp. unfold parse_line. cbv zeta. apply synced_trim in Hs. revert Hs. generalize (trim l) as t. intros t Hs.
  case_bool_decide; [done|]. eapply (total_bind _ _ (fun bad => bad = false → (1 < length t)%nat ∧ t !! 1%nat = Some 61)).
  - case_bool_decide; [done|]. tot_idx. destruct (negb (_ <? 128)); [done|]. tot_idx. intros He%negb_false_iff%Z.eqb_eq. split; [lia|congruence].
  - intros bad Hbad. apply total_fail. intros ->. destruct (Hbad eq_refl) as [Hlen H61]. tot_idx. eapply total_from; [done|exact H61|lia|].
    apply (synced_drop 2) in Hs. pose proof Hp as [Hss Hm].
    destruct (a =? 118); [by apply version_total|].
    destruct (a =? 111); [eapply total_bind; [apply origin_total|]; intros o Ho; split; [by field Hss|done]|].
    destruct (a =? 115); [split; [field Hss; apply cut_ok|done]|].
    destruct (a =? 116); [eapply total_bind; [apply timing_total|]; intros o Ho; split; [by field Hss|done]|].
    destruct (a =? 109); [by apply media_section_total|]. destruct (a =? 97); [by apply attribute_total|done].
Qed.

Lemma lines_total ls : ∀ n p, Forall synced ls → state_ok p → total (parse_lines n ls p) state_ok.
Proof.
  induction ls as [|l ls IH]; intros n p Hl Hp; cbn [parse_lines]; [done|]. apply Forall_cons in Hl as [Hl Hls]. cbv zeta. apply total_fail. intros _.
  eapply total_bind; [by apply line_total|]. intros p' Hp'. by apply IH.
Qed.

Lemma default_ok : session_ok session_default.
Proof.
  constructor; cbn; try done; try apply bounded_nil; try (unfold text_ok; cbn; lia).
  unfold origin_ok, text_ok. cbn. split_and!; try lia; split; lia.
Qed.

(** ** Validation *)

(** What [validate_session] checks: credentials and a fingerprint for every
    m-section, from itself or from the session, each of an allowed length;
    distinct mids; a bundle of mids that exist. *)
Record accepted (s : SessionDescription) : Prop := {
  ac_credentials : is_Some (session_ufrag s) ∧ is_Some (session_pwd s) ∨ Forall (fun m => is_Some (ice_ufrag m) ∧ is_Some (ice_pwd m)) (media s);
  ac_ufrag : some_is (text_ok MIN_ICE_UFRAG_LEN MAX_ICE_UFRAG_LEN) (session_ufrag s) ∧ Forall (fun m => some_is (text_ok MIN_ICE_UFRAG_LEN MAX_ICE_UFRAG_LEN) (ice_ufrag m)) (media s);
  ac_pwd : some_is (text_ok MIN_ICE_PWD_LEN MAX_ICE_PWD_LEN) (session_pwd s) ∧ Forall (fun m => some_is (text_ok MIN_ICE_PWD_LEN MAX_ICE_PWD_LEN) (ice_pwd m)) (media s);
  ac_fingerprint : is_Some (session_fingerprint s) ∨ Forall (fun m => is_Some (fingerprint m)) (media s);
  ac_mids : NoDup (omap (fun m => as_str <$> mid m) (media s));
  ac_bundle : Forall (fun x => has_media_with_mid s x = true) (split_whitespace (bundle s));
}.

Lemma is_some_true {A} (o : option A) : is_some o = true ↔ is_Some o.
Proof. by destruct o. Qed.

Lemma check_length_total {A} f a b s (k : () → outcome SdpError A) R : (text_ok a b s → total (k ()) R) → total (check_length f a b s ≫= k) R.
Proof. intros Hk. unfold check_length. apply total_fail. intros H%negb_false_iff%bool_decide_eq_true. by apply Hk. Qed.

Lemma opt_check_total {A} (f : A → outcome SdpError ()) (P : A → Prop) o : (∀ x, total (f x) (fun _ => P x)) → total (opt_check f o) (fun _ => some_is P o).
Proof. intros Hf. destruct o as [x|]; [apply Hf|done]. Qed.

Lemma for_media_total f (P : MediaDescription → Prop) l : (∀ m, total (f m) (fun _ => P m)) → total (for_media f l) (fun _ => Forall P l).
Proof.
  intros Hf. induction l as [|m l IH]; cbn; [done|]. eapply total_bind; [apply Hf|]. intros ? Hm. eapply total_mono; [apply IH|]. intros ? Hl. by constructor.
Qed.

Lemma ufrag_total s : total (validate_ice_ufrag s) (fun _ => text_ok MIN_ICE_UFRAG_LEN MAX_ICE_UFRAG_LEN s).
Proof. unfold validate_ice_ufrag, check_length. case_bool_decide; cbn; done. Qed.

Lemma pwd_total s : total (validate_ice_pwd s) (fun _ => text_ok MIN_ICE_PWD_LEN MAX_ICE_PWD_LEN s).
Proof. unfold validate_ice_pwd, check_length. case_bool_decide; cbn; done. Qed.

Lemma validate_fingerprint_total f : total (validate_fingerprint f) (fun _ => True).
Proof. unfold validate_fingerprint. by destruct (negb _). Qed.

Lemma existsb_false {A} (f : A → bool) l : existsb f l = false → Forall (fun x => f x = false) l.
Proof. intros H. apply Forall_forall. intros x Hx. destruct (f x) eqn:E; [|done]. assert (existsb f l = true) by (apply existsb_exists; exists x; by rewrite <- list_elem_of_In). congruence. Qed.

Lemma check_mids_total l : ∀ seen, NoDup (omap (fun m => as_str <$> mid m) seen) → total (check_mids seen l) (fun _ => NoDup (omap (fun m => as_str <$> mid m) (seen ++ l))).
Proof.
  induction l as [|m l IH]; intros seen Hn; cbn [check_mids]; [by rewrite app_nil_r|].
  eapply (total_bind _ _ (fun _ => NoDup (omap (fun m => as_str <$> mid m) (seen ++ [m])))).
  - rewrite omap_app. cbn. destruct (mid m) as [x|]; cbn; [|by rewrite app_nil_r]. destruct (existsb _ seen) eqn:Ee; cbn; [done|].
    apply NoDup_app. split_and!; [done| |apply NoDup_singleton]. apply existsb_false in Ee. rewrite Forall_forall in Ee.
    intros y (e & He & Hy)%list_elem_of_omap ->%list_elem_of_singleton. specialize (Ee e He). cbn in Ee. destruct (mid e); simplify_option_eq.
  - intros ? H. eapply total_mono; [by apply IH|]. intros ? Hl. by rewrite <- app_assoc in Hl.
Qed.

Lemma bundle_total s : total (validate_bundle_group s) (fun _ => Forall (fun x => has_media_with_mid s x = true) (split_whitespace (bundle s))).
Proof.
  unfold validate_bundle_group. destruct (List.find _ _) eqn:Ef; [done|]. apply Forall_forall. intros x Hx%list_elem_of_In.
  pose proof (find_none _ _ Ef x Hx) as H. by apply negb_false_iff in H.
Qed.

Lemma validate_total s : total (validate_session s) (fun _ => accepted s).
Proof.
  unfold validate_session.
  eapply (total_bind _ _ (fun _ => is_Some (session_ufrag s) ∧ is_Some (session_pwd s) ∨ Forall (fun m => is_Some (ice_ufrag m) ∧ is_Some (ice_pwd m)) (media s))).
  { destruct (is_some (session_ufrag s) && is_some (session_pwd s)) eqn:E.
    - apply andb_true_iff in E as [?%is_some_true ?%is_some_true]. cbn. auto.
    - destruct (existsb _ _) eqn:Ex; cbn; [done|]. right. apply existsb_false in Ex. eapply Forall_impl; [exact Ex|].
      intros m [?%negb_false_iff ?%negb_false_iff]%orb_false_iff. by rewrite <- !is_some_true. }
  intros ? Hcred. eapply total_bind; [apply opt_check_total, ufrag_total|]. intros ? Hu. eapply total_bind; [apply opt_check_total, pwd_total|]. intros ? Hp.
  eapply total_bind; [apply (for_media_total _ (fun m => some_is (text_ok MIN_ICE_UFRAG_LEN MAX_ICE_UFRAG_LEN) (ice_ufrag m) ∧ some_is (text_ok MIN_ICE_PWD_LEN MAX_ICE_PWD_LEN) (ice_pwd m)))|].
  { intros m. eapply total_bind; [apply opt_check_total, ufrag_total|]. intros ? ?. eapply total_mono; [apply opt_check_total, pwd_total|]. auto. }
  intros ? [Hmu Hmp]%Forall_and. eapply (total_bind _ _ (fun _ => is_Some (session_fingerprint s) ∨ Forall (fun m => is_Some (fingerprint m)) (media s))).
  { destruct (is_some (session_fingerprint s)) eqn:E; [apply is_some_true in E; cbn; auto|]. destruct (existsb _ _) eqn:Ex; cbn; [done|]. right.
    apply existsb_false in Ex. eapply Forall_impl; [exact Ex|]. intros m ?%negb_false_iff. by rewrite <- is_some_true. }
  intros ? Hf. eapply total_bind; [apply opt_check_total, validate_fingerprint_total|]. intros ? ?.
  eapply total_bind; [apply for_media_total; intros m; apply opt_check_total, validate_fingerprint_total|]. intros ? ?.
  eapply total_bind; [apply (check_mids_total (media s) []); constructor|]. intros ? Hn. eapply total_mono; [apply bundle_total|]. intros ? Hb. by split.
Qed.

(** ** The parser *)

Lemma parse_total sdp : synced sdp → total (parse sdp) (fun s => session_ok s ∧ accepted s).
Proof.
  intros Hs. unfold parse. apply total_fail. intros _. apply total_fail. intros _. eapply total_bind; [apply lines_total; [by apply synced_lines|split; [apply default_ok|done]]|].
  intros p Hp. eapply total_bind; [by apply close_total|]. intros s Hss. apply total_fail. intros _. apply total_fail. intros _.
  eapply total_bind; [apply validate_total|]. intros ? Hv. apply total_assert; [apply bool_decide_eq_true; by destruct (so_media _ Hss)|]. by split.
Qed.

End SdpSafe.
