(* ===== verification/SdpRound.v ===== *)
(** * What is printed reads back

    Numbers, hexadecimal bytes, fingerprints, codecs and the other attributes
    that the printer writes are read by the parser as the values printed. *)

From stdpp Require Import strings.
From S2P Require Import Prelude Model Transports SdpParams SdpText SdpModel SdpParser SdpSafe.

Module TextRound.
Import Text TextProofs.

(** ** Splitting what was joined *)

Lemma find_app c a b : c ∉ a → find c (a ++ c :: b) = Some (length a).
Proof.
  intros Hc. unfold find. apply position_Some. split.
  - exists c. rewrite lookup_app_r, Nat.sub_diag by lia. split; [done|apply Z.eqb_refl].
  - intros j y Hj Hy. apply lookup_lt_Some in Hy as Hl. rewrite lookup_app_l in Hy by lia. apply list_elem_of_lookup_2 in Hy. apply Z.eqb_neq. set_solver.
Qed.

Lemma find_none c a : c ∉ a → find c a = None.
Proof.
  intros Hc. unfold find. destruct (position _ a) as [i|] eqn:E; [|done]. exfalso. apply position_Some in E as [(x & Hx & He%Z.eqb_eq) _]. subst x.
  apply list_elem_of_lookup_2 in Hx. done.
Qed.

Lemma split_app c a b : c ∉ a → split c (a ++ c :: b) = a :: split c b.
Proof.
  induction a as [|x a IH]; intros Hc; cbn [split app]; [by rewrite Z.eqb_refl|]. rewrite not_elem_of_cons in Hc. destruct Hc as [Hx Ha].
  rewrite (proj2 (Z.eqb_neq x c) (not_eq_sym Hx)). by rewrite IH.
Qed.

Lemma split_none c a : c ∉ a → split c a = [a].
Proof.
  induction a as [|x a IH]; intros Hc; cbn [split]; [done|]. rewrite not_elem_of_cons in Hc. destruct Hc as [Hx Ha].
  rewrite (proj2 (Z.eqb_neq x c) (not_eq_sym Hx)). by rewrite IH.
Qed.

(** ** Cutting at a character *)

Lemma str_to_app {E} a c b : c < 128 → str_to (E:=E) (length a) (a ++ c :: b) = Ok a.
Proof. intros Hc. rewrite (str_to_eq _ _ c); [by rewrite take_app_length| |done]. by rewrite lookup_app_r, Nat.sub_diag by lia. Qed.

Lemma str_from_app {E} a c b : synced (a ++ c :: b) → c < 128 → str_from (E:=E) (S (length a)) (a ++ c :: b) = Ok b.
Proof.
  intros Hs Hc. rewrite (str_from_eq _ _ c); [|done| |done]; [|by rewrite lookup_app_r, Nat.sub_diag by lia].
  f_equal. change (c :: b) with ([c] ++ b). rewrite app_assoc. replace (S (length a)) with (length (a ++ [c])) by (rewrite length_app; cbn; lia). by rewrite drop_app_length.
Qed.

(** ** Valid text *)

Lemma utf8_app a : ∀ n b, (length a ≤ n)%nat → utf8_valid a = true → utf8_valid b = true → utf8_valid (a ++ b) = true.
Proof.
  intros n. revert a. induction n as [|n IH]; intros a b Hn Ha Hb; [by destruct a; [|cbn in Hn; lia]|]. destruct a as [|x a]; [done|]. cbn [length] in Hn. cbn in Ha |- *.
  destruct (x <? 128); [apply IH; [lia|done..]|].
  destruct ((194 <=? x) && (x <? 224)).
  { destruct a as [|c a]; [done|]. cbn. apply andb_true_iff in Ha as [-> Ha]. apply IH; [cbn in Hn; lia|done..]. }
  destruct ((224 <=? x) && (x <? 240)).
  { destruct a as [|c [|d a]]; [done..|]. cbn. apply andb_true_iff in Ha as [-> Ha]. apply IH; [cbn in Hn; lia|done..]. }
  destruct ((240 <=? x) && (x <? 245)); [|done].
  destruct a as [|c [|d [|e a]]]; [done..|]. cbn. apply andb_true_iff in Ha as [-> Ha]. apply IH; [cbn in Hn; lia|done..].
Qed.

Lemma utf8_valid_app a b : utf8_valid a = true → utf8_valid b = true → utf8_valid (a ++ b) = true.
Proof. by eapply utf8_app. Qed.

Lemma utf8_ascii a : Forall (fun b => b < 128) a → utf8_valid a = true.
Proof. induction 1 as [|b a Hb Ha IH]; [done|]. cbn. by rewrite (proj2 (Z.ltb_lt _ _) Hb). Qed.

(** ** Numbers *)

Definition is_digit (b : Z) : Prop := 48 ≤ b ≤ 57.

Lemma digit_of_dec d : 0 ≤ d < 10 → digit_of 10 (48 + d) = Some d.
Proof.
  intros Hd. unfold digit_of. rewrite (proj2 (andb_true_iff _ _)) by lia. replace (48 + d - 48) with d by lia. by rewrite (proj2 (Z.ltb_lt _ _)) by lia.
Qed.

Lemma digits_dec w fuel : ∀ n s, 0 ≤ n < 10 ^ Z.of_nat (S fuel) → n < 2 ^ w → digits w 10 0 (dec_go (S fuel) n s) = digits w 10 n s.
Proof.
  induction fuel as [|fuel IH]; intros n s Hn Hw; cbn [dec_go]; cbv zeta; destruct (Z.ltb_spec n 10) as [Hlt|Hge].
  - rewrite Z.mod_small by lia. cbn [digits]. rewrite digit_of_dec by lia. cbn. by rewrite (proj2 (Z.ltb_lt _ _)) by lia.
  - change (10 ^ Z.of_nat 1) with 10 in Hn. lia.
  - rewrite Z.mod_small by lia. cbn [digits]. rewrite digit_of_dec by lia. cbn. by rewrite (proj2 (Z.ltb_lt _ _)) by lia.
  - change (digits w 10 0 (dec_go (S fuel) (n / 10) ((48 + n mod 10) :: s)) = digits w 10 n s).
    rewrite Nat2Z.inj_succ, Z.pow_succ_r in Hn by lia. pose proof (Z.div_mod n 10 ltac:(lia)) as Hdm. pose proof (Z.mod_pos_bound n 10 ltac:(lia)) as Hmod.
    rewrite IH by (split; [apply Z.div_pos; lia|apply Z.div_lt_upper_bound; lia] || (apply Z.le_lt_trans with n; [apply Z.div_le_upper_bound; lia|done])).
    cbn [digits]. rewrite digit_of_dec by done. replace (n / 10 * 10 + n mod 10) with n by lia. by rewrite (proj2 (Z.ltb_lt _ _)) by lia.
Qed.

Lemma dec_go_digits fuel : ∀ n s, Forall is_digit s → Forall is_digit (dec_go fuel n s).
Proof.
  induction fuel as [|fuel IH]; intros n s Hs; cbn [dec_go]; [done|]. cbv zeta. pose proof (Z.mod_pos_bound n 10 ltac:(lia)).
  assert (Forall is_digit ((48 + n mod 10) :: s)) by (constructor; [unfold is_digit; lia|done]). destruct (n <? 10); [done|by apply IH].
Qed.

Lemma dec_digits n : Forall is_digit (dec n).
Proof. by apply dec_go_digits. Qed.

Lemma dec_go_nonempty fuel : ∀ n s, s ≠ [] → dec_go fuel n s ≠ [].
Proof. induction fuel as [|fuel IH]; intros n s Hs; cbn [dec_go]; [done|]. cbv zeta. destruct (n <? 10); [done|]. by apply IH. Qed.

Lemma dec_nonempty n : dec n ≠ [].
Proof.
  unfold dec. generalize 19%nat. intros fuel. change (dec_go (S fuel) n []) with (if n <? 10 then [48 + n mod 10] else dec_go fuel (n / 10) [48 + n mod 10]).
  destruct (n <? 10); [done|]. by apply dec_go_nonempty.
Qed.

Lemma dec_no n c : (c < 48 ∨ 57 < c) → c ∉ dec n.
Proof. intros Hc Hin. pose proof (dec_digits n) as Hd. rewrite Forall_forall in Hd. specialize (Hd c Hin). unfold is_digit in Hd. lia. Qed.

Lemma dec_utf8 n : utf8_valid (dec n) = true.
Proof. apply utf8_ascii. eapply Forall_impl; [apply dec_digits|]. unfold is_digit. intros b Hb. lia. Qed.

(** A number within its width reads back. *)
Lemma digits_of_dec w n : 0 ≤ w ≤ 64 → in_range w n → digits w 10 0 (dec n) = Some n.
Proof.
  intros Hw Hn. unfold dec. rewrite digits_dec; [done| |apply Hn]. split; [apply Hn|]. eapply Z.lt_le_trans; [apply Hn|].
  transitivity (2 ^ 64); [apply Z.pow_le_mono_r; lia|vm_compute; discriminate].
Qed.

Lemma parse_dec w n : 0 ≤ w ≤ 64 → in_range w n → parse_uint w (dec n) = Some n.
Proof.
  intros Hw Hn. pose proof (digits_of_dec w n Hw Hn) as Hd.
  unfold parse_uint, parse_radix. pose proof (dec_nonempty n) as Hne. pose proof (dec_no n 43 ltac:(lia)) as Hp.
  destruct (dec n) as [|b t]; [done|]. assert (b ≠ 43) by set_solver. repeat case_match; try done; simplify_eq.
Qed.

(** ** Visible text *)

(** A byte of visible ASCII text; of a token: no space. *)
Definition visible (b : Z) : Prop := 32 ≤ b ≤ 126.
Definition graphic (b : Z) : Prop := 33 ≤ b ≤ 126.

(** A non-empty token; a text that trimming leaves alone. *)
Definition token (s : str) : Prop := s ≠ [] ∧ Forall graphic s.
Definition tidy (s : str) : Prop := Forall visible s ∧ last s ≠ Some 32.

Lemma graphic_visible s : Forall graphic s → Forall visible s.
Proof. intros H. eapply Forall_impl; [exact H|]. unfold graphic, visible. intros b Hb. lia. Qed.

Lemma graphic_tidy s : Forall graphic s → tidy s.
Proof.
  intros H. split; [by apply graphic_visible|]. intros Hl. apply last_Some in Hl as [l ->]. apply Forall_app in H as [_ H]. apply Forall_cons in H as [Hb _]. unfold graphic in Hb. lia.
Qed.

Lemma visible_utf8 s : Forall visible s → utf8_valid s = true.
Proof. intros H. apply utf8_ascii. eapply Forall_impl; [exact H|]. unfold visible. intros b Hb. lia. Qed.

Lemma tidy_utf8 s : tidy s → utf8_valid s = true.
Proof. intros [H _]. by apply visible_utf8. Qed.

Lemma from_utf8_visible d s : Forall visible s → from_utf8_or d s = s.
Proof. intros H. unfold from_utf8_or. by rewrite visible_utf8. Qed.

Lemma dec_graphic n : Forall graphic (dec n).
Proof. eapply Forall_impl; [apply dec_digits|]. unfold is_digit, graphic. intros b Hb. lia. Qed.

Lemma dec_token n : token (dec n).
Proof. split; [apply dec_nonempty|apply dec_graphic]. Qed.

Lemma visible_no s c : Forall visible s → ¬ visible c → c ∉ s.
Proof. intros H Hc Hin. rewrite Forall_forall in H. auto. Qed.

Lemma graphic_no_space s : Forall graphic s → 32 ∉ s.
Proof. intros H Hin. rewrite Forall_forall in H. specialize (H _ Hin). unfold graphic in H. lia. Qed.

Lemma tidy_app a b : Forall visible a → tidy b → b ≠ [] → tidy (a ++ b).
Proof. intros Ha [Hb Hl] Hn. split; [by apply Forall_app|]. rewrite last_app. destruct (last b) eqn:E; [done|]. by apply last_None in E. Qed.

Lemma tidy_graphic_app a b : Forall graphic a → tidy b → tidy (a ++ b).
Proof.
  intros Ha Hb. destruct b as [|x b]; [rewrite app_nil_r; by apply graphic_tidy|]. apply tidy_app; [by apply graphic_visible|done|done].
Qed.

(** ** Trimming *)

Lemma ws_graphic b s : graphic b → ws_len (b :: s) = 0%nat.
Proof. unfold graphic, ws_len. intros Hb. repeat case_match; try done; lia. Qed.

Lemma ws_space s : ws_len (32 :: s) = 1%nat.
Proof. done. Qed.

Lemma trim_end_tidy s : tidy s → trim_end 0 s = s.
Proof.
  induction s as [|b s IH]; intros [Hv Hl]; [done|]. apply Forall_cons in Hv as [Hb Hv]. cbn [trim_end]. destruct s as [|c s].
  - destruct (decide (b = 32)) as [->|]; [done|]. by rewrite ws_graphic by (unfold graphic, visible in *; lia).
  - assert (Ht : tidy (c :: s)) by (split; [done|exact Hl]). destruct (decide (b = 32)) as [->|].
    + by rewrite ws_space, IH.
    + rewrite ws_graphic by (unfold graphic, visible in *; lia). by rewrite IH.
Qed.

Lemma trim_end_space s : tidy s → s ≠ [] → trim_end 0 (s ++ [32]) = s.
Proof.
  induction s as [|b s IH]; intros [Hv Hl] Hn; [done|]. apply Forall_cons in Hv as [Hb Hv]. cbn [app trim_end]. destruct s as [|c s].
  - assert (Hg : graphic b) by (unfold graphic, visible in *; cbn in Hl; destruct (decide (b = 32)); [congruence|lia]). by rewrite ws_graphic.
  - assert (Ht : trim_end 0 ((c :: s) ++ [32]) = c :: s) by (by apply IH; [split|]).
    destruct (decide (b = 32)) as [->|]; [|by rewrite ws_graphic, Ht by (unfold graphic, visible in *; lia)]. cbn in Ht |- *. by rewrite Ht.
Qed.

Lemma trim_tidy b s : graphic b → tidy (b :: s) → trim (b :: s) = b :: s.
Proof. intros Hb Ht. unfold trim. cbn [trim_start]. rewrite ws_graphic by done. by apply trim_end_tidy. Qed.

(** ** Fields *)

Lemma split_ws_graphic a : ∀ acc s, Forall graphic a → split_ws_from 0 acc (a ++ s) = split_ws_from 0 (acc ++ a) s.
Proof.
  induction a as [|b a IH]; intros acc s Ha; [by rewrite app_nil_r|]. apply Forall_cons in Ha as [Hb Ha]. cbn [split_ws_from app]. rewrite ws_graphic by done.
  rewrite IH by done. by rewrite <- app_assoc.
Qed.

Lemma split_ws_token a s : token a → split_whitespace (a ++ 32 :: s) = a :: split_whitespace s.
Proof.
  intros [Hn Ha]. unfold split_whitespace. rewrite split_ws_graphic by done. cbn [app split_ws_from]. rewrite ws_space. unfold push_token. by rewrite bool_decide_eq_false_2 by done.
Qed.

Lemma split_ws_last a : token a → split_whitespace a = [a].
Proof.
  intros [Hn Ha]. unfold split_whitespace. rewrite <- (app_nil_r a) at 1. rewrite split_ws_graphic by done. cbn. unfold push_token. by rewrite bool_decide_eq_false_2 by done.
Qed.

(** Fields separated by single spaces. *)
Lemma split_ws_join l : Forall token l → l ≠ [] → split_whitespace (join (lit " ") l) = l.
Proof.
  induction l as [|a l IH]; intros Hl Hn; [done|]. apply Forall_cons in Hl as [Ha Hl]. destruct l as [|b l]; [by apply split_ws_last|].
  change (join (lit " ") (a :: b :: l)) with (a ++ 32 :: join (lit " ") (b :: l)). rewrite split_ws_token by done. by rewrite IH.
Qed.

Lemma join_ne sep a l : a ≠ [] → join sep (a :: l) ≠ [].
Proof. intros Ha. destruct l; [done|]. by destruct a. Qed.

Lemma join_tidy l : Forall token l → tidy (join (lit " ") l).
Proof.
  induction l as [|a l IH]; intros Hl; [split; [constructor|done]|]. apply Forall_cons in Hl as [[Hna Ha] Hl]. destruct l as [|b l]; [by apply graphic_tidy|].
  change (join (lit " ") (a :: b :: l)) with ((a ++ [32]) ++ join (lit " ") (b :: l)) || (change (join (lit " ") (a :: b :: l)) with (a ++ [32] ++ join (lit " ") (b :: l)); rewrite app_assoc).
  apply tidy_app; [apply Forall_app; split; [by apply graphic_visible|repeat constructor; unfold visible; lia]|by apply IH|].
  apply Forall_cons in Hl as [[Hnb _] _]. by apply join_ne.
Qed.

(** ** Lines *)

Lemma split_line l r : 10 ∉ l → split 10 (l ++ [13; 10] ++ r) = (l ++ [13]) :: split 10 r.
Proof. intros Hl. replace (l ++ [13; 10] ++ r) with ((l ++ [13]) ++ 10 :: r) by by rewrite <- app_assoc. apply split_app. set_solver. Qed.

Lemma strip_cr_line l : strip_cr (l ++ [13]) = l.
Proof. unfold strip_cr. rewrite last_snoc, length_app. cbn [length]. replace (length l + 1 - 1)%nat with (length l) by lia. apply take_app_length. Qed.

(** Lines, each with its line ending, are read as they were written. *)
Lemma lines_document ls : Forall (Forall visible) ls → ls ≠ [] → lines (join [13; 10] ls ++ [13; 10]) = ls.
Proof.
  unfold lines. induction ls as [|l ls IH]; intros Hv Hn; [done|]. apply Forall_cons in Hv as [Hl Hv].
  assert (H10 : 10 ∉ l) by (apply visible_no; [done|unfold visible; lia]). destruct ls as [|k ls].
  - cbn [join]. rewrite <- (app_nil_r [13; 10]), split_line by done. cbn. rewrite strip_cr_line. done.
  - change (join [13; 10] (l :: k :: ls)) with (l ++ [13; 10] ++ join [13; 10] (k :: ls)). rewrite <- !app_assoc, split_line by done.
    specialize (IH Hv ltac:(done)). destruct (split 10 _) as [|x xs] eqn:Ex; [done|]. change (lines_of ((l ++ [13]) :: x :: xs)) with (strip_cr (l ++ [13]) :: lines_of (x :: xs)). by rewrite strip_cr_line, IH.
Qed.

End TextRound.

Module SdpRound.
Import Text TextProofs TextRound Sdp SdpTypes Attributes Media Session SdpSafe.

#[local] Arguments parse_uint : simpl never.
#[local] Arguments dec : simpl never.
#[local] Arguments cut : simpl never.

(** ** Attributes *)

Lemma idx_eq {E A} (l : list A) i a : l !! i = Some a → idx (E:=E) l i = Ok a.
Proof. intros Hi. unfold idx. by rewrite Hi. Qed.

Ltac each := repeat first [apply Forall_nil_2|apply Forall_cons_2]; try done.

(** Reads the fields of a list that is known. *)
Ltac fields := repeat (erewrite idx_eq by reflexivity; cbn [mbind outcome_bind]).

Lemma ssrc_round x a v : is_u32 x → 58 ∉ a → utf8_valid a = true → utf8_valid v = true →
  parse_ssrc (dec x ++ 32 :: a ++ 58 :: v) =
  (fail_if (bool_decide (32 < length a)%nat || bool_decide (256 < length v)%nat) (InvalidAttribute "ssrc");; Ok (mkSsrcInfo x a v)).
Proof.
  intros Hx Ha Hva Hvv. assert (Hr : utf8_valid (a ++ 58 :: v) = true) by (apply utf8_valid_app; [done|exact Hvv]).
  unfold parse_ssrc. rewrite find_app by (apply dec_no; lia). cbn [of_option mbind outcome_bind]. rewrite str_to_app by lia. cbn [mbind outcome_bind].
  rewrite parse_dec by (done || lia). cbn [of_option mbind outcome_bind].
  rewrite str_from_app; [|apply utf8_synced, utf8_valid_app; [apply dec_utf8|exact Hr]|lia]. cbn [mbind outcome_bind]. rewrite find_app by done.
  rewrite str_to_app by lia. cbn [mbind outcome_bind]. by rewrite str_from_app by (lia || by apply utf8_synced).
Qed.

(** ** Fingerprints *)

Lemma hex2_round b : is_u8 b → parse_radix 8 16 (hex2 b) = Some b.
Proof. intros Hb. apply (byte_forall (fun b => bool_decide (parse_radix 8 16 (hex2 b) = Some b))) in Hb; [by apply bool_decide_eq_true in Hb|vm_compute; reflexivity]. Qed.

Lemma hex2_graphic b : is_u8 b → Forall graphic (hex2 b) ∧ 58 ∉ hex2 b.
Proof.
  intros Hb. assert (H : bool_decide (Forall graphic (hex2 b)) && bool_decide (58 ∉ hex2 b) = true).
  { apply (byte_forall (fun b => bool_decide (Forall graphic (hex2 b)) && bool_decide (58 ∉ hex2 b))) in Hb; [done|vm_compute; reflexivity]. }
  apply andb_true_iff in H as [?%bool_decide_eq_true ?%bool_decide_eq_true]. done.
Qed.

Lemma mapM_seq_ok {E A} (f : nat → outcome E A) h : ∀ i, (∀ k x, h !! k = Some x → f (i + k)%nat = Ok x) → mapM f (seq i (length h)) = Ok h.
Proof.
  induction h as [|x h IH]; intros i Hf; [done|]. cbn. rewrite <- (Nat.add_0_r i) at 1. rewrite (Hf 0%nat x) by done. cbn. rewrite IH; [done|].
  intros k y Hk. replace (S i + k)%nat with (i + S k)%nat by lia. by apply Hf.
Qed.

Lemma filter_none_b c s : c ∉ s → List.filter (fun b => negb (b =? c)) s = s.
Proof.
  induction s as [|b s IH]; intros Hc; [done|]. apply not_elem_of_cons in Hc as [Hb Hc]. cbn. rewrite (proj2 (Z.eqb_neq b c) (not_eq_sym Hb)). cbn. by rewrite IH.
Qed.

Lemma strip_colons h : bytes h → List.filter (fun b => negb (b =? 58)) (join (lit ":") (hex2 <$> h)) = concat (hex2 <$> h).
Proof.
  induction h as [|b h IH]; intros Hh; [done|]. apply Forall_cons in Hh as [Hb Hh]. destruct (hex2_graphic b Hb) as [_ Hc]. destruct h as [|c h].
  - cbn [fmap list_fmap join concat]. rewrite app_nil_r. by apply filter_none_b.
  - change (join (lit ":") (hex2 <$> b :: c :: h)) with (hex2 b ++ [58] ++ join (lit ":") (hex2 <$> c :: h)). rewrite !List.filter_app, filter_none_b by done.
    change (List.filter (fun b => negb (b =? 58)) [58]) with (@nil Z). cbn [app]. rewrite IH by done. done.
Qed.

Lemma hex_join_graphic h : bytes h → Forall graphic (join (lit ":") (hex2 <$> h)).
Proof.
  induction h as [|b h IH]; intros Hh; [constructor|]. apply Forall_cons in Hh as [Hb Hh]. destruct (hex2_graphic b Hb) as [Hg _]. destruct h as [|c h]; [done|].
  change (join (lit ":") (hex2 <$> b :: c :: h)) with (hex2 b ++ [58] ++ join (lit ":") (hex2 <$> c :: h)).
  apply Forall_app. split; [done|]. apply Forall_app. split; [repeat constructor; unfold graphic; lia|by apply IH].
Qed.

Lemma hex_slice h k b : h !! k = Some b → sub_list (2 * k) (2 * k + 2) (concat (hex2 <$> h)) = hex2 b.
Proof.
  revert k. induction h as [|a h IH]; intros k Hk; [done|]. destruct k as [|k]; cbn in Hk; [by simplify_eq|]. rewrite <- (IH k Hk). unfold sub_list.
  cbn [fmap list_fmap concat]. replace (2 * S k + 2 - 2 * S k)%nat with 2%nat by lia. replace (2 * k + 2 - 2 * k)%nat with 2%nat by lia.
  replace (2 * S k)%nat with (length (hex2 a) + 2 * k)%nat by (cbn; lia). by rewrite drop_app_add.
Qed.

Lemma hex_length h : length (concat (hex2 <$> h)) = (2 * length h)%nat.
Proof. induction h as [|a h IH]; [done|]. cbn [fmap list_fmap concat]. rewrite length_app, IH. cbn. lia. Qed.

Lemma hex_ascii h : bytes h → is_ascii (concat (hex2 <$> h)) = true.
Proof.
  intros Hh. unfold is_ascii. apply forallb_forall. intros b (x & Hx & Hb)%in_concat. apply list_elem_of_In in Hx, Hb.
  apply list_elem_of_fmap in Hx as (y & -> & Hy). rewrite Forall_forall in Hh. destruct (hex2_graphic y (Hh _ Hy)) as [Hg _]. rewrite Forall_forall in Hg. specialize (Hg _ Hb). unfold graphic in Hg. lia.
Qed.

Lemma hex_bytes_round h : bytes h → parse_hex_bytes (concat (hex2 <$> h)) = Ok h.
Proof.
  intros Hh. unfold parse_hex_bytes. rewrite hex_ascii by done. rewrite hex_length. assert (Nat.even (2 * length h) = true) as -> by (rewrite Nat.even_mul; done).
  cbn [negb fail_if mbind outcome_bind]. replace (2 * length h / 2)%nat with (length h) by (rewrite Nat.mul_comm, Nat.div_mul; lia). apply mapM_seq_ok. intros k b Hk.
  pose proof (lookup_lt_Some _ _ _ Hk) as Hlt. cbn [Nat.add]. unfold str_slice. rewrite !ascii_boundary by (by apply hex_ascii || (rewrite hex_length; lia)). cbn [andb assert_ mbind outcome_bind].
  unfold slice. rewrite decide_True by (rewrite hex_length; lia). cbn [mbind outcome_bind]. rewrite (hex_slice h k b Hk). rewrite Forall_forall in Hh.
  rewrite hex2_round by (apply Hh; by eapply list_elem_of_lookup_2). done.
Qed.

Lemma algorithm_round a : parse_algorithm (algorithm_str a) = Ok a ∧ token (algorithm_str a).
Proof. destruct a; (split; [vm_compute; reflexivity|split; [done|]]); apply (bool_decide_unpack _); vm_compute; done. Qed.

Lemma fingerprint_fields f : fingerprint_ok f → ∃ h, bytes h ∧ length h = hash_len (algorithm f) ∧ f = mkFingerprint (algorithm f) (pad 64 h) (Z.of_nat (length h)) ∧
  fingerprint_to_sdp f = join (lit " ") [algorithm_str (algorithm f); join (lit ":") (hex2 <$> h)] ∧ token (join (lit ":") (hex2 <$> h)).
Proof.
  intros (h & Hh & Hl & Hv & Hn). exists h. destruct f as [a v n]. cbn in *. subst v n. split_and!; try done; [|split; [|by apply hex_join_graphic]].
  - unfold fingerprint_to_sdp. cbn [value_len fp_value algorithm join]. rewrite Nat2Z.id. unfold pad. by rewrite take_app_length.
  - destruct h as [|x [|y h]]; [by destruct a|done|done].
Qed.

(** The fingerprint that was printed. *)
Lemma fingerprint_round f : fingerprint_ok f → parse_fingerprint (fingerprint_to_sdp f) = Ok f.
Proof.
  intros (h & Hh & Hl & Hf & Ht & Htok)%fingerprint_fields. destruct (algorithm_round (algorithm f)) as [Ha Hat]. unfold parse_fingerprint. rewrite Ht.
  rewrite (bool_decide_eq_false_2 (join _ _ = [])) by apply join_ne, Hat. cbn [fail_if mbind outcome_bind]. rewrite split_ws_join by (done || each).
  cbv zeta. cbn [length]. rewrite bool_decide_eq_true_2 by done. cbn [negb fail_if mbind outcome_bind]. fields. rewrite Ha. cbn [mbind outcome_bind]. fields.
  rewrite strip_colons, hex_bytes_round by done. cbn [mbind outcome_bind]. rewrite bool_decide_eq_true_2 by done. cbn [negb fail_if mbind outcome_bind]. by rewrite <- Hf.
Qed.

Lemma fingerprint_tidy f : fingerprint_ok f → tidy (fingerprint_to_sdp f) ∧ fingerprint_to_sdp f ≠ [].
Proof.
  intros (h & Hh & Hl & Hf & Ht & Htok)%fingerprint_fields. rewrite Ht. destruct (algorithm_round (algorithm f)) as [_ Hat].
  split; [apply join_tidy; each|]. apply join_ne, Hat.
Qed.

(** ** Addresses *)

Definition no_digit (s : str) : Prop := match s with [] => True | b :: _ => digit_of 10 b = None end.

Lemma read_digits_app w max ds : ∀ count acc n s, digits w 10 acc ds = Some n → (∀ m, max = Some m → (count + length ds ≤ m)%nat) →
  read_digits w 10 max count acc (ds ++ s) = read_digits w 10 max (count + length ds) n s.
Proof.
  induction ds as [|b ds IH]; intros count acc n s Hd Hm; cbn [app length]; [cbn in Hd; simplify_eq; by rewrite Nat.add_0_r|].
  cbn [digits read_digits] in *. destruct (digit_of 10 b) as [x|]; [|done]. destruct (acc * 10 + x <? 2 ^ w); [|done]. cbn [negb].
  assert (match max with Some m => bool_decide (m < S count)%nat | None => false end = false) as ->.
  { destruct max as [m|]; [|done]. apply bool_decide_eq_false. specialize (Hm m eq_refl). cbn in Hm. lia. }
  rewrite (IH _ _ n s) by (done || (intros m Hmm; specialize (Hm m Hmm); cbn in Hm; lia)). f_equal. lia.
Qed.

Lemma read_digits_end w max count n s : no_digit s → read_digits w 10 max count n s = Some (n, count, s).
Proof. destruct s as [|b s]; [done|]. cbn. by intros ->. Qed.

Lemma read_number_dec w max zp n s : 0 ≤ w ≤ 64 → in_range w n → no_digit s → (∀ m, max = Some m → (length (dec n) ≤ m)%nat) →
  (zp = true ∨ length (dec n) = 1%nat ∨ head (dec n) ≠ Some 48) → read_number w 10 max zp (dec n ++ s) = Some (n, s).
Proof.
  intros Hw Hn Hs Hm Hz. unfold read_number. rewrite (read_digits_app w max (dec n) 0 0 n s) by (by apply digits_of_dec || done). rewrite read_digits_end by done. cbn [Nat.add].
  pose proof (dec_nonempty n) as Hne. destruct (dec n) as [|b t] eqn:Ed; [done|]. rewrite bool_decide_eq_false_2 by done. cbn [app head] in *.
  destruct Hz as [->|[Hl|Hh]]; [done| |].
  - rewrite Hl. rewrite (bool_decide_eq_false_2 (1 < 1)%nat) by lia. by rewrite andb_false_r.
  - rewrite (bool_decide_eq_false_2 (Some b = Some 48)) by done. by rewrite andb_false_r.
Qed.

Lemma octet_dec n s : is_u8 n → no_digit s → read_number 8 10 (Some 3%nat) false (dec n ++ s) = Some (n, s).
Proof.
  intros Hn Hs. assert (H : bool_decide (length (dec n) ≤ 3)%nat && bool_decide (length (dec n) = 1%nat ∨ head (dec n) ≠ Some 48) = true).
  { apply (byte_forall (fun n => bool_decide (length (dec n) ≤ 3)%nat && bool_decide (length (dec n) = 1%nat ∨ head (dec n) ≠ Some 48))) in Hn; [done|vm_compute; reflexivity]. }
  apply andb_true_iff in H as [Hl%bool_decide_eq_true Hz%bool_decide_eq_true]. apply read_number_dec; [lia|done|done| |by right]. intros m [= <-]. done.
Qed.

Lemma ipv4_bytes a : is_u32 a → is_u8 (a / 2 ^ 24) ∧ is_u8 (a / 2 ^ 16 mod 2 ^ 8) ∧ is_u8 (a / 2 ^ 8 mod 2 ^ 8) ∧ is_u8 (a mod 2 ^ 8) ∧
  a / 2 ^ 24 * 2 ^ 24 + a / 2 ^ 16 mod 2 ^ 8 * 2 ^ 16 + a / 2 ^ 8 mod 2 ^ 8 * 2 ^ 8 + a mod 2 ^ 8 = a.
Proof. unfold in_range. cbn. intros Ha. Z.to_euclidean_division_equations. lia. Qed.

Lemma read_ipv4_str a s : is_u32 a → no_digit s → read_ipv4 (ipv4_str a ++ s) = Some (a, s).
Proof.
  intros Ha Hs. destruct (ipv4_bytes a Ha) as (H1 & H2 & H3 & H4 & Hsum). unfold ipv4_str. cbn [join]. change (lit ".") with [46]. rewrite <- !app_assoc. cbn [app].
  unfold read_ipv4, read_octet, read_separator. rewrite octet_dec by done. cbn -[dec read_number Z.pow Z.mul Z.add]. do 2 (rewrite octet_dec by done; cbn -[dec read_number Z.pow Z.mul Z.add]).
  rewrite octet_dec by done. cbn -[dec read_number Z.pow Z.mul Z.add]. by rewrite Hsum.
Qed.

(** An IPv4 address and its port read back. *)
Lemma addr_round a p : is_u32 a → is_u16 p → parse_addr (host_port (ipv4_str a) p) = Some (V4 a p).
Proof.
  intros Ha Hp. unfold parse_addr, host_port, read_addr_v4. change (lit ":" ++ dec p) with (58 :: dec p). rewrite read_ipv4_str by done. cbn -[dec read_ipv4 read_number].
  unfold read_port. cbn -[dec read_number]. rewrite <- (app_nil_r (dec p)), read_number_dec by (done || lia || by left). done.
Qed.

Lemma ipv4_graphic a : Forall graphic (ipv4_str a) ∧ ipv4_str a ≠ [].
Proof.
  unfold ipv4_str. cbn [join]. split; [|by apply (join_ne (lit ".") (dec (a / 2 ^ 24)) [_; _; _]), dec_nonempty].
  repeat (apply Forall_app; split); try apply dec_graphic; apply (bool_decide_unpack _); vm_compute; done.
Qed.

(** ** Entries of an m-section

    What an entry must satisfy to survive: its texts are visible ASCII
    without the separators of its line. *)

Definition v4_addr (a : SocketAddr) : Prop := match a with V4 ip p => is_u32 ip ∧ is_u16 p | V6 _ _ _ _ => False end.

Definition candidate_plain (c : IceCandidate) : Prop := candidate_ok c ∧ token (foundation c) ∧ v4_addr (address c) ∧ some_is v4_addr (related_addr c).

Definition transport_str (t : CandidateTransport) : str := match t with Udp => lit "udp" | Tcp => lit "tcp" end.
Definition type_str (t : CandidateType) : str := match t with Host => lit "host" | Srflx => lit "srflx" | Prflx => lit "prflx" | Relay => lit "relay" end.

(** The fields of a candidate. *)
Definition candidate_fields (c : IceCandidate) : list str :=
  [foundation c; dec (component c); transport_str (transport c); dec (priority c); ip_str (address c); dec (port_of (address c)); lit "typ"; type_str (typ c)] ++
  match related_addr c with Some a => [lit "raddr"; ip_str a; lit "rport"; dec (port_of a)] | None => [] end.

Ltac closed := apply (bool_decide_unpack _); vm_compute; done.

Lemma transport_token t : token (transport_str t) ∧ parse_transport (transport_str t) = Ok t.
Proof. destruct t; (split; [|vm_compute; reflexivity]); closed. Qed.

Lemma type_token t : token (type_str t) ∧ parse_type (type_str t) = Ok t.
Proof. destruct t; (split; [|vm_compute; reflexivity]); closed. Qed.

Lemma ip_token a : v4_addr a → token (ip_str a) ∧ parse_addr (host_port (ip_str a) (port_of a)) = Some a ∧ is_u16 (port_of a).
Proof. destruct a as [ip p|]; [|done]. intros [Hip Hp]. cbn [ip_str port_of]. destruct (ipv4_graphic ip). split; [by split|split; [by apply addr_round|done]]. Qed.

Lemma candidate_text c : candidate_plain c → candidate_to_sdp c = join (lit " ") (candidate_fields c) ∧ Forall token (candidate_fields c).
Proof.
  intros (_ & [Hfn Hf] & Ha & Hr). unfold candidate_to_sdp, candidate_fields. rewrite from_utf8_visible by by apply graphic_visible.
  fold (transport_str (transport c)) (type_str (typ c)). destruct (ip_token _ Ha) as (Hia & _). assert (Htyp : token (lit "typ")) by closed. assert (Hra : token (lit "raddr")) by closed. assert (Hrp : token (lit "rport")) by closed.
  destruct (related_addr c) as [r|].
  - destruct (ip_token _ Hr) as (Hir & _). split; [cbn [join app]; rewrite <- !app_assoc; done|].
    each; try apply dec_token; try apply transport_token; try apply type_token.
  - rewrite !app_nil_r. split; [done|]. each; try apply dec_token; try apply transport_token; try apply type_token.
Qed.

Lemma cut_id n s : text_ok 0 n s → cut n s = s.
Proof. intros [_ H]. unfold cut. by rewrite take_ge. Qed.

Lemma candidate_round c : candidate_plain c → parse_candidate (candidate_to_sdp c) = Ok c.
Proof.
  intros Hc. destruct (candidate_text c Hc) as [-> Htok]. destruct Hc as ([Hcf Hcc Hcp] & _ & Ha & Hr). unfold parse_candidate. rewrite split_ws_join by done. cbv zeta.
  destruct (ip_token _ Ha) as (_ & Haddr & Hport). destruct (transport_token (transport c)) as [_ Ht]. destruct (type_token (typ c)) as [_ Hty]. unfold candidate_fields in *.
  destruct (related_addr c) as [r|] eqn:Er; cbn [app length] in *.
  - destruct (ip_token _ Hr) as (_ & Hraddr & Hrport). rewrite (bool_decide_eq_false_2 (12 < 8)%nat) by lia. cbn [fail_if mbind outcome_bind]. fields.
    rewrite !parse_dec by (done || lia). cbn [of_option mbind outcome_bind]. rewrite Ht. cbn [mbind outcome_bind]. fields.
    rewrite Haddr. cbn [of_option mbind outcome_bind]. rewrite (bool_decide_eq_true_2 (lit "typ" = _)) by done. cbn [negb fail_if mbind outcome_bind]. rewrite Hty. cbn [mbind outcome_bind].
    rewrite (bool_decide_eq_true_2 (12 ≤ 12)%nat) by lia. rewrite !bool_decide_eq_true_2 by done. cbn [andb mbind option_bind outcome_bind].
    rewrite Hraddr, cut_id by done. destruct c; cbn in *. by subst.
  - rewrite (bool_decide_eq_false_2 (8 < 8)%nat), (bool_decide_eq_false_2 (12 ≤ 8)%nat) by lia. cbn [fail_if mbind outcome_bind]. fields.
    rewrite !parse_dec by (done || lia). cbn [of_option mbind outcome_bind]. rewrite Ht. cbn [mbind outcome_bind]. fields.
    rewrite Haddr. cbn [of_option mbind outcome_bind]. rewrite (bool_decide_eq_true_2 (lit "typ" = _)) by done. cbn [negb fail_if mbind outcome_bind]. rewrite Hty. cbn [mbind outcome_bind].
    rewrite cut_id by done. destruct c; cbn in *. by subst.
Qed.

Definition codec_plain (c : RtpCodec) : Prop := codec_ok c ∧ Forall graphic (codec_name c) ∧ 47 ∉ codec_name c.
Definition fmtp_plain (f : Fmtp) : Prop := fmtp_ok f ∧ tidy (params f) ∧ params f ≠ [].
Definition extmap_plain (e : ExtMap) : Prop := extmap_ok e ∧ Forall graphic (uri e).
Definition ssrc_plain (s : SsrcInfo) : Prop := ssrc_ok s ∧ Forall visible (attribute s) ∧ 58 ∉ attribute s ∧ tidy (ssrc_value s).
Definition group_plain (g : SsrcGroup) : Prop := group_ok g ∧ token (semantics g) ∧ group_ssrcs g ≠ [].
Definition feedback_plain (f : RtcpFeedback) : Prop := feedback_ok f ∧ token (fb_type f) ∧ tidy (fb_params f).
Definition rid_plain (r : Rid) : Prop := rid_ok r ∧ token (rid_id r).
Definition msid_plain (x : Msid) : Prop := msid_ok x ∧ token (stream_id x) ∧ tidy (track_id x).

Lemma space_visible : Forall visible (lit " ").
Proof. closed. Qed.

(** The value of an [rtpmap] line after the payload type. *)
Definition codec_value (c : RtpCodec) : str := codec_name c ++ 47 :: dec (clock_rate c) ++ match channels c with Some ch => 47 :: dec ch | None => [] end.

Lemma codec_value_graphic c : codec_plain c → Forall graphic (codec_value c).
Proof.
  intros (_ & Hn & _). unfold codec_value. apply Forall_app. split; [done|]. apply Forall_cons_2; [unfold graphic; lia|]. apply Forall_app. split; [apply dec_graphic|].
  destruct (channels c); [|constructor]. apply Forall_cons_2; [unfold graphic; lia|apply dec_graphic].
Qed.

Lemma codec_text c : codec_plain c → codec_to_sdp c = dec (payload_type c) ++ 32 :: codec_value c ∧ tidy (codec_to_sdp c).
Proof.
  intros Hc. assert (He : codec_to_sdp c = dec (payload_type c) ++ 32 :: codec_value c).
  { destruct Hc as (_ & Hn & _). unfold codec_to_sdp, codec_name_str, codec_value. rewrite from_utf8_visible by by apply graphic_visible. by destruct (channels c). }
  split; [done|]. rewrite He. change (32 :: codec_value c) with ([32] ++ codec_value c). rewrite app_assoc. apply tidy_app; [apply Forall_app; split; [apply graphic_visible, dec_graphic|apply space_visible]| |].
  - by apply graphic_tidy, codec_value_graphic.
  - unfold codec_value. by destruct (codec_name c).
Qed.

Lemma codec_round c : codec_plain c → parse_codec (payload_type c) (codec_value c) = Ok c.
Proof.
  intros ([Hpt Hl Hr Hch] & Hn & H47). unfold parse_codec, codec_value. unfold pt_ok in Hpt. rewrite (proj2 (Z.ltb_ge 127 _)) by lia. cbn [fail_if mbind outcome_bind]. cbv zeta.
  rewrite split_app by done. destruct (channels c) as [ch|] eqn:Ec.
  - rewrite split_app, split_none by (apply dec_no; lia). cbn [length]. rewrite bool_decide_eq_false_2 by lia. cbn [fail_if mbind outcome_bind]. fields. rewrite parse_dec by (done || lia).
    cbn [of_option mbind outcome_bind option_bind lookup list_lookup]. rewrite parse_dec by (done || lia). rewrite cut_id by done. destruct c; cbn in *. by subst.
  - rewrite app_nil_r, split_none by (apply dec_no; lia). cbn [length]. rewrite bool_decide_eq_false_2 by lia. cbn [fail_if mbind outcome_bind]. fields. rewrite parse_dec by (done || lia).
    cbn [of_option mbind outcome_bind option_bind lookup list_lookup]. rewrite cut_id by done. destruct c; cbn in *. by subst.
Qed.

Lemma dec_space_tidy n v : tidy v → v ≠ [] → tidy (dec n ++ 32 :: v).
Proof.
  intros Ht Hv. change (32 :: v) with ([32] ++ v). rewrite app_assoc. apply tidy_app; [|done..]. apply Forall_app. split; [apply graphic_visible, dec_graphic|apply space_visible].
Qed.

Definition fmtp_text (f : Fmtp) : str := dec (fmtp_payload_type f) ++ 32 :: params f.

Lemma fmtp_round f : fmtp_plain f → parse_fmtp (fmtp_text f) = Ok f ∧ tidy (fmtp_text f) ∧ fmtp_line f = attr "fmtp" (fmtp_text f).
Proof.
  intros ([Hpt Hl] & Ht & Hn). split_and!; [|by apply dec_space_tidy|unfold fmtp_line; by rewrite from_utf8_visible by apply Ht].
  unfold parse_fmtp, fmtp_text. rewrite find_app by (apply dec_no; lia). cbn [of_option mbind outcome_bind]. rewrite str_to_app by lia. cbn [mbind outcome_bind]. rewrite parse_dec by (done || lia).
  cbn [of_option mbind outcome_bind]. rewrite str_from_app; [|apply utf8_synced, utf8_valid_app; [apply dec_utf8|exact (tidy_utf8 _ Ht)]|lia]. cbn [mbind outcome_bind]. rewrite cut_id by done. by destruct f.
Qed.

Definition ssrc_text (s : SsrcInfo) : str := dec (ssrc s) ++ 32 :: attribute s ++ 58 :: ssrc_value s.

Lemma ssrc_line_round s : ssrc_plain s → parse_ssrc (ssrc_text s) = Ok s ∧ tidy (ssrc_text s) ∧ ssrc_line s = attr "ssrc" (ssrc_text s).
Proof.
  intros ((Hx & [_ Hla] & [_ Hlv]) & Hva & H58 & Ht). split_and!.
  - unfold ssrc_text. rewrite ssrc_round by first [done|by apply visible_utf8|by apply tidy_utf8]. rewrite !bool_decide_eq_false_2 by lia. cbn. by destruct s.
  - apply dec_space_tidy; [|by destruct (attribute s)]. change (58 :: ssrc_value s) with ([58] ++ ssrc_value s). destruct (ssrc_value s) as [|b v] eqn:Ev.
    + apply tidy_app; [done|split; [closed|done]|done].
    + rewrite app_assoc. apply tidy_app; [apply Forall_app; split; [done|closed]|done..].
  - unfold ssrc_line. by rewrite !from_utf8_visible by (done || apply Ht).
Qed.

Import SdpParser.

Lemma splitn_one k c a b : c ∉ a → splitn (S k) c (a ++ c :: b) = a :: splitn k c b.
Proof.
  intros Hc. cbn [splitn]. rewrite find_app, take_app_length by done. f_equal. f_equal. change (c :: b) with ([c] ++ b). rewrite app_assoc.
  replace (S (length a)) with (length (a ++ [c])) by (rewrite length_app; cbn; lia). by rewrite drop_app_length.
Qed.

Lemma splitn_none k c a : c ∉ a → splitn k c a = [a].
Proof. intros Hc. destruct k; [done|]. cbn. by rewrite find_none. Qed.

Lemma direction_token d : parse_direction (direction_str d) = Some d ∧ token (direction_str d) ∧ 32 ∉ direction_str d.
Proof. destruct d; (split; [vm_compute; reflexivity|split; closed]). Qed.

(** ** Header extensions *)

Definition ext_id_text (e : ExtMap) : str := dec (ext_map_id e) ++ match ext_direction e with Some d => 47 :: direction_str d | None => [] end.
Definition extmap_text (e : ExtMap) : str := ext_id_text e ++ 32 :: uri e.

Lemma ext_id_graphic e : Forall graphic (ext_id_text e).
Proof.
  unfold ext_id_text. apply Forall_app. split; [apply dec_graphic|]. destruct (ext_direction e) as [d|]; [|constructor]. destruct (direction_token d) as (_ & [_ Hg] & _).
  apply Forall_cons_2; [unfold graphic; lia|done].
Qed.

Lemma extmap_line_text e : extmap_plain e → Printer.print_extmap e = attr "extmap" (extmap_text e) ∧ tidy (extmap_text e).
Proof.
  intros ([_ [Hu _]] & Hg). split.
  - unfold Printer.print_extmap, extmap_text, ext_id_text. rewrite from_utf8_visible by by apply graphic_visible. rewrite <- app_assoc. by destruct (ext_direction e).
  - unfold extmap_text. change (32 :: uri e) with ([32] ++ uri e). rewrite app_assoc. apply tidy_app; [apply Forall_app; split; [apply graphic_visible, ext_id_graphic|apply space_visible]|by apply graphic_tidy|].
    by destruct (uri e); [cbn in Hu; lia|].
Qed.

Lemma extmap_round e m : extmap_plain e → (length (extmaps m) < MAX_EXTMAPS_PER_MEDIA)%nat → attr_extmap (extmap_text e) m = Ok (set_extmaps (extmaps m ++ [e]) m).
Proof.
  intros ([[Hid1 Hid2] [Hu1 Hu2]] & Hg) Hm. unfold attr_extmap, extmap_text. cbv zeta. rewrite splitn_one by apply graphic_no_space, ext_id_graphic.
  rewrite splitn_none by by apply graphic_no_space. cbn [length]. rewrite (bool_decide_eq_false_2 (2 < 2)%nat) by lia. fields.
  assert (Hfind : (match find 47 (ext_id_text e) with
                   | Some slash => r ← str_from (E:=SdpError) (S slash) (ext_id_text e); i ← str_to slash (ext_id_text e); Ok (i, parse_direction r)
                   | None => Ok (ext_id_text e, None)
                   end) = Ok (dec (ext_map_id e), ext_direction e)).
  { unfold ext_id_text. destruct (ext_direction e) as [d|].
    - destruct (direction_token d) as (Hd & [_ Hgd] & _). rewrite find_app by (apply dec_no; lia). rewrite str_from_app; [|apply utf8_synced, visible_utf8, Forall_app; split; [apply graphic_visible, dec_graphic|apply graphic_visible, Forall_cons_2; [unfold graphic; lia|done]]|lia].
      cbn [mbind outcome_bind]. rewrite str_to_app by lia. cbn [mbind outcome_bind]. by rewrite Hd.
    - rewrite app_nil_r, find_none by (apply dec_no; lia). done. }
  rewrite Hfind. cbn [mbind outcome_bind]. unfold parse_extmap. rewrite parse_dec by (lia || (split; [lia|exact Hid2])). cbn [of_option mbind outcome_bind].
  rewrite (proj2 (Z.eqb_neq _ 0)) by lia. rewrite (bool_decide_eq_false_2 (uri e = [])) by (intros Hnil; rewrite Hnil in Hu1; cbn in Hu1; lia). rewrite bool_decide_eq_false_2 by lia. cbn [orb fail_if mbind outcome_bind].
  unfold add_extmap. rewrite bool_decide_eq_false_2 by lia. cbn [fail_if mbind outcome_bind or_else]. by destruct e.
Qed.

(** ** SSRC groups *)

Definition group_text (g : SsrcGroup) : str := join (lit " ") (semantics g :: (dec <$> group_ssrcs g)).

Lemma group_line_text g : group_plain g → Printer.print_ssrc_group g = attr "ssrc-group" (group_text g) ∧ Forall token (semantics g :: (dec <$> group_ssrcs g)).
Proof.
  intros (_ & [Hn Hg] & Hne). split.
  - unfold Printer.print_ssrc_group, group_text. rewrite from_utf8_visible by by apply graphic_visible. by destruct (group_ssrcs g).
  - apply Forall_cons_2; [done|]. apply Forall_fmap, Forall_true. intros x. apply dec_token.
Qed.

Lemma group_ssrcs_round l : ∀ acc, Forall is_u32 l → (length acc + length l ≤ 8)%nat → group_ssrcs_of (dec <$> l) acc = acc ++ l.
Proof.
  induction l as [|x l IH]; intros acc Hl Hn; cbn [fmap list_fmap group_ssrcs_of]; [by rewrite app_nil_r|]. apply Forall_cons in Hl as [Hx Hl]. cbn [length] in Hn.
  rewrite bool_decide_eq_false_2 by lia. rewrite parse_dec by (done || lia). rewrite IH by (done || (rewrite length_app; cbn [length]; lia)). by rewrite <- app_assoc.
Qed.

Lemma group_round g m : group_plain g → (length (ssrc_groups m) < MAX_SSRC_GROUPS_PER_MEDIA)%nat → attr_ssrc_group (group_text g) m = Ok (set_ssrc_groups (ssrc_groups m ++ [g]) m).
Proof.
  intros Hg Hm. destruct (group_line_text g Hg) as [_ Htok]. destruct Hg as ([Hs [Hl Hx]] & _ & Hne). unfold attr_ssrc_group, group_text. rewrite split_ws_join by done. cbv zeta.
  assert (Hlen : (0 < length (group_ssrcs g))%nat) by (destruct (group_ssrcs g); [done|cbn; lia]). cbn [length]. rewrite length_fmap. rewrite bool_decide_eq_false_2 by lia. fields.
  unfold slice. rewrite decide_True by (cbn [length]; rewrite length_fmap; lia). cbn [mbind outcome_bind]. unfold sub_list. change (drop 1 (semantics g :: (dec <$> group_ssrcs g))) with (dec <$> group_ssrcs g). rewrite take_ge by (cbn [length]; rewrite length_fmap; lia).
  rewrite group_ssrcs_round by (done || (cbn [length]; lia)). unfold add_ssrc_group. rewrite bool_decide_eq_false_2 by lia. rewrite cut_id by done. by destruct g.
Qed.

(** ** Feedback *)

Definition pt_text (o : option Z) : str := match o with Some pt => dec pt | None => lit "*" end.

Lemma pt_text_graphic o : Forall graphic (pt_text o) ∧ pt_text o ≠ [].
Proof. destruct o; [split; [apply dec_graphic|apply dec_nonempty]|split; [closed|done]]. Qed.

Lemma feedback_text f : feedback_plain f →
  feedback_to_sdp f = pt_text (fb_payload_type f) ++ 32 :: fb_type f ++ (if bool_decide (fb_params f = []) then [] else 32 :: fb_params f) ∧ tidy (feedback_to_sdp f).
Proof.
  intros (_ & [Hn Hg] & Ht). assert (He : feedback_to_sdp f = pt_text (fb_payload_type f) ++ 32 :: fb_type f ++ (if bool_decide (fb_params f = []) then [] else 32 :: fb_params f)).
  { unfold feedback_to_sdp. rewrite !from_utf8_visible by (apply Ht || by apply graphic_visible). done. }
  split; [done|]. rewrite He. change (32 :: ?x) with ([32] ++ x). destruct (pt_text_graphic (fb_payload_type f)) as [Hpg _].
  case_bool_decide as Hp.
  - rewrite app_nil_r, app_assoc. apply tidy_app; [apply Forall_app; split; [by apply graphic_visible|apply space_visible]|by apply graphic_tidy|done].
  - change (32 :: fb_params f) with ([32] ++ fb_params f). rewrite !app_assoc. apply tidy_app; [|done|done]. repeat (apply Forall_app; split); first [by apply graphic_visible|apply space_visible].
Qed.

Lemma feedback_round f : feedback_plain f → parse_feedback (feedback_to_sdp f) = Ok f.
Proof.
  intros Hf. destruct (feedback_text f Hf) as [-> _]. destruct Hf as ((Hpt & Hlt & Hlp) & [Hn Hg] & Ht). destruct (pt_text_graphic (fb_payload_type f)) as [Hpg _].
  unfold parse_feedback. rewrite splitn_one by by apply graphic_no_space. cbv zeta.
  assert (Hpt' : (if bool_decide (pt_text (fb_payload_type f) = lit "*") then Ok None else pt ← of_option (InvalidAttribute "rtcp-fb") (parse_uint 8 (pt_text (fb_payload_type f))); Ok (Some pt)) = Ok (E:=SdpError) (fb_payload_type f)).
  { destruct (fb_payload_type f) as [pt|]; cbn [pt_text]; [|done]. rewrite bool_decide_eq_false_2; [by rewrite parse_dec by (done || lia)|]. intros He. pose proof (dec_digits pt) as Hd. rewrite He in Hd.
    apply Forall_cons in Hd as [Hd _]. unfold is_digit in Hd. cbn in Hd. lia. }
  destruct (decide (fb_params f = [])) as [Hp|Hp]; [rewrite (bool_decide_eq_true_2 _ Hp)|rewrite (bool_decide_eq_false_2 _ Hp)].
  - rewrite app_nil_r, splitn_none by by apply graphic_no_space. cbn [length]. rewrite (bool_decide_eq_false_2 (2 < 2)%nat) by lia. cbn [fail_if mbind outcome_bind]. fields. rewrite Hpt'. cbn [mbind outcome_bind]. fields.
    cbn [lookup list_lookup]. rewrite cut_id by done. destruct f; cbn in *. by subst.
  - rewrite splitn_one by by apply graphic_no_space. cbn [splitn length]. rewrite (bool_decide_eq_false_2 (3 < 2)%nat) by lia. cbn [fail_if mbind outcome_bind]. fields. rewrite Hpt'. cbn [mbind outcome_bind]. fields.
    cbn [lookup list_lookup]. rewrite !cut_id by done. by destruct f.
Qed.

(** ** Layers and streams *)

Definition rid_text (r : Rid) : str := rid_id r ++ 32 :: direction_str (rid_direction r).

Lemma rid_line_text r : rid_plain r → Printer.print_rid r = attr "rid" (rid_text r) ∧ tidy (rid_text r).
Proof.
  intros (_ & [Hn Hg]). destruct (direction_token (rid_direction r)) as (_ & [Hdn Hdg] & _). split.
  - unfold Printer.print_rid. by rewrite from_utf8_visible by by apply graphic_visible.
  - unfold rid_text. change (32 :: ?x) with ([32] ++ x). rewrite app_assoc. apply tidy_app; [apply Forall_app; split; [by apply graphic_visible|apply space_visible]|by apply graphic_tidy|done].
Qed.

Lemma rid_round r m : rid_plain r → (length (rids m) < MAX_RIDS_PER_MEDIA)%nat → attr_rid (rid_text r) m = Ok (set_rids (rids m ++ [r]) m).
Proof.
  intros [Hl [Hn Hg]] Hm. destruct (direction_token (rid_direction r)) as (Hd & _ & Hds). unfold attr_rid, rid_text. rewrite splitn_one by by apply graphic_no_space. rewrite splitn_none by done. cbv zeta.
  cbn [length]. rewrite (bool_decide_eq_false_2 (2 < 2)%nat) by lia. fields. rewrite Hd, cut_id by done. unfold add_rid. rewrite bool_decide_eq_false_2 by lia. by destruct r.
Qed.

Definition msid_text (x : Msid) : str := stream_id x ++ if bool_decide (track_id x = []) then [] else 32 :: track_id x.

Lemma msid_line_text x : msid_plain x → Printer.print_msid x = attr "msid" (msid_text x) ∧ tidy (msid_text x).
Proof.
  intros (_ & [Hn Hg] & Ht). split.
  - unfold Printer.print_msid. rewrite !from_utf8_visible by (apply Ht || by apply graphic_visible). done.
  - unfold msid_text. case_bool_decide as Hp; [rewrite app_nil_r; by apply graphic_tidy|]. change (32 :: ?x) with ([32] ++ x). rewrite app_assoc.
    apply tidy_app; [apply Forall_app; split; [by apply graphic_visible|apply space_visible]|done..].
Qed.

Lemma msid_round x m : msid_plain x → attr_msid (msid_text x) m = Ok (set_msid (Some x) m).
Proof.
  intros ([[_ Hs] [_ Ht]] & [Hn Hg] & Htt). unfold attr_msid, msid_text.
  assert (Hnew : msid_new (stream_id x) (track_id x) = Ok x) by (unfold msid_new; rewrite !bool_decide_eq_false_2 by lia; by destruct x).
  case_bool_decide as Hp; [rewrite app_nil_r, find_none by (by apply graphic_no_space)|rewrite find_app by (by apply graphic_no_space)].
  - rewrite Hp in Hnew. cbn [mbind outcome_bind]. by rewrite Hnew.
  - rewrite str_to_app by lia. cbn [mbind outcome_bind]. rewrite str_from_app; [|apply utf8_synced, utf8_valid_app; [by apply visible_utf8, graphic_visible|exact (tidy_utf8 _ Htt)]|lia]. cbn [mbind outcome_bind]. by rewrite Hnew.
Qed.

End SdpRound.
