(* ===== verification/SdpAnswers.v ===== *)
(** * Answers

    Answering never panics, whatever the offer says; an answer has an
    m-section for each of the offer's, in order, with the offer's mid, the
    opposite direction, codecs the offer has and the SFU supports, and the
    SFU's own credentials, fingerprint and candidates. *)

From stdpp Require Import strings.
From S2P Require Import Prelude Model Transports SdpParams SdpText SdpModel SdpParser SdpSafe SdpRound.

Module Answers.
Import Text TextProofs TextRound Sdp SdpTypes Attributes Media Session SdpSafe Negotiator.

#[local] Arguments parse_uint : simpl never.
#[local] Arguments dec : simpl never.
#[local] Arguments cut : simpl never.

(** ** The SFU's side *)

Definition capability_ok (c : CodecCapability) : Prop := pt_ok (cap_payload_type c) ∧ is_u32 (cap_rate c) ∧ some_is is_u8 (cap_channels c).

Record negotiator_ok (n : SdpNegotiator) : Prop := {
  ne_codecs : supported_codecs n ≠ [];
  ne_capable : bounded MAX_CODECS_PER_MEDIA capability_ok (supported_codecs n);
  ne_ufrag : ice_ok (our_ufrag n);
  ne_pwd : ice_ok (our_pwd n);
  ne_fingerprint : fingerprint_ok (dtls_fingerprint n);
  ne_candidates : Forall candidate_ok (local_candidates n);
}.

Lemma default_capable : bounded MAX_CODECS_PER_MEDIA capability_ok default_supported_codecs.
Proof.
  assert (Hc : ∀ t pt, pt_ok pt → capability_ok (capability_new t pt)) by (intros [] pt Hpt; (split_and!; [done|split; cbn; lia|try done; split; cbn; lia])).
  split; [vm_compute; lia|]. cbn. repeat (apply Forall_cons_2; [apply Hc; unfold pt_ok; lia|]). constructor.
Qed.

(** The codec a capability stands for. *)
Definition rtp_codec_of (c : CodecCapability) : RtpCodec := mkRtpCodec (cap_payload_type c) (name (codec_type c)) (cap_rate c) (cap_channels c).

Lemma name_plain c : 47 ∉ name c ∧ (length (name c) ≤ 32)%nat.
Proof. destruct c; (split; [rewrite <- (bool_decide_eq_false (47 ∈ _)); reflexivity|cbn; lia]). Qed.

(** What the code prints as an [rtpmap] value and parses again is the codec. *)
Lemma to_rtp_codec_eq c : capability_ok c → to_rtp_codec c = Ok (rtp_codec_of c).
Proof.
  intros (Hpt & Hr & Hc). unfold to_rtp_codec, parse_codec. destruct (name_plain (codec_type c)) as [Hn Hl]. pose proof (dec_no (cap_rate c) 47 ltac:(lia)) as Hd.
  unfold pt_ok in Hpt. rewrite (proj2 (Z.ltb_ge 127 _)) by lia. cbn [fail_if mbind outcome_bind]. cbv zeta. change (lit "/") with [47].
  cbn [app].
  destruct (cap_channels c) as [ch|] eqn:Ech; cbn in Hc.
  - rewrite split_app by done. change ([47] ++ dec ch) with (47 :: dec ch). rewrite split_app, split_none by (done || apply dec_no; lia).
    cbn. rewrite parse_dec by (done || lia). cbn. unfold rtp_codec_of. rewrite parse_dec, Ech by (done || lia). unfold cut. by rewrite take_ge by lia.
  - rewrite app_nil_r, split_app by done. rewrite split_none by done. cbn. rewrite parse_dec by (done || lia). cbn. unfold rtp_codec_of. rewrite Ech. unfold cut. by rewrite take_ge by lia.
Qed.

(** ** Codecs *)

Definition right_kind (t : MediaType) (c : CodecCapability) : bool :=
  match t with AudioMedia => is_audio (codec_type c) | VideoMedia => is_video (codec_type c) | Application => false end.

(** A codec of the offer that the SFU supports, with the offer's payload type. *)
Definition negotiated (n : SdpNegotiator) (o : MediaDescription) (c : RtpCodec) : Prop :=
  ∃ k oc, k ∈ supported_codecs n ∧ right_kind (media_type o) k = true ∧ oc ∈ codecs o ∧
    to_lowercase (codec_name_str oc) = to_lowercase (name (codec_type k)) ∧ clock_rate oc = cap_rate k ∧
    c = with_pt (payload_type oc) (rtp_codec_of k).

Lemma find_capability_spec c l k : find_capability c l = Some k →
  k ∈ l ∧ to_lowercase (codec_name_str c) = to_lowercase (name (codec_type k)) ∧ clock_rate c = cap_rate k.
Proof.
  unfold find_capability. intros [Hin [Hn%bool_decide_eq_true Hr%Z.eqb_eq]%andb_true_iff]%find_some. split; [by apply list_elem_of_In|done].
Qed.

Lemma match_codecs_total n o supported : (∀ k, k ∈ supported → k ∈ supported_codecs n ∧ right_kind (media_type o) k = true ∧ capability_ok k) →
  ∀ offers acc, (∀ c, c ∈ offers → c ∈ codecs o) → bounded MAX_CODECS_PER_MEDIA (negotiated n o) acc →
  (length acc < MAX_CODECS_PER_MEDIA)%nat → total (match_codecs supported offers acc) (bounded MAX_CODECS_PER_MEDIA (negotiated n o)).
Proof.
  intros Hk. induction offers as [|c offers IH]; intros acc Ho Ha Hl; cbn [match_codecs]; [done|].
  assert (Hrest : ∀ x, x ∈ offers → x ∈ codecs o) by set_solver. destruct (find_capability c supported) as [k|] eqn:Ef; [|by apply IH].
  apply find_capability_spec in Ef as (Hin & Hname & Hrate). destruct (Hk k Hin) as (Hs & Hr & Hok). rewrite to_rtp_codec_eq by done.
  cbn [mbind outcome_bind]. cbv zeta. assert (Hacc : bounded MAX_CODECS_PER_MEDIA (negotiated n o) (acc ++ [with_pt (payload_type c) (rtp_codec_of k)])).
  { apply bounded_snoc; [done..|]. exists k, c. split_and!; try done. set_solver. }
  destruct (bool_decide _) eqn:Eb; [done|]. apply bool_decide_eq_false in Eb. apply IH; [done..|lia].
Qed.

Lemma negotiate_codecs_total n o : negotiator_ok n → total (negotiate_codecs n o) (fun l => bounded MAX_CODECS_PER_MEDIA (negotiated n o) l ∧ l ≠ []).
Proof.
  intros Hn. unfold negotiate_codecs. apply total_assert; [by rewrite bool_decide_eq_false_2 by apply Hn|].
  eapply total_bind; [apply (match_codecs_total n o); [|done|apply bounded_nil|unfold MAX_CODECS_PER_MEDIA; cbn; lia]|].
  - intros k [Hin Hk]%list_elem_of_In%filter_In. apply list_elem_of_In in Hin. split_and!; [done|done|]. pose proof (proj2 (ne_capable _ Hn)) as Hf.
    rewrite Forall_forall in Hf. by apply Hf.
  - intros l Hl. apply total_fail. intros Hne%bool_decide_eq_false. apply total_assert; [apply bool_decide_eq_true; apply Hl|]. by split.
Qed.

Lemma negotiated_ok n o c : negotiator_ok n → media_ok o → negotiated n o c → codec_ok c.
Proof.
  intros Hn Ho (k & oc & Hk & _ & Hoc & _ & _ & ->). pose proof (proj2 (ne_capable _ Hn)) as Hf. rewrite Forall_forall in Hf. destruct (Hf _ Hk) as (_ & Hr & Hc).
  pose proof (proj2 (mo_codecs _ Ho)) as Hm. rewrite Forall_forall in Hm. destruct (Hm _ Hoc) as [Hpt _ _ _].
  split; cbn; [done|split; [lia|apply name_plain]|done..].
Qed.

(** ** Filling the m-section *)

(** Nothing but the codecs, their formats and parameters differs. *)
Definition keeps (m m' : MediaDescription) : Prop := m' = set_fmtps (fmtps m') (set_codecs (codecs m') (set_formats (formats m') m)).

Lemma keeps_self m : keeps m m.
Proof. by destruct m. Qed.

Lemma keeps_chain a b c : keeps a b → keeps b c → keeps a c.
Proof. unfold keeps. intros Hb Hc. rewrite Hc, Hb. done. Qed.

Lemma add_codec_keeps c m : media_ok m → codec_ok c → total (add_codec c m) (fun m' => media_ok m' ∧ keeps m m' ∧ codecs m' = codecs m ++ [c]).
Proof.
  intros Hm Hc. pose proof (add_codec_total c m Hm Hc) as Ht. unfold add_codec in *. destruct (bool_decide (_ ≤ _)%nat); [exact I|]. cbn in *.
  split; [done|]. case_bool_decide; split; by try destruct m.
Qed.

Lemma add_codecs_total l : ∀ m, media_ok m → Forall codec_ok l → total (add_codecs l m) (fun m' => media_ok m' ∧ keeps m m' ∧ codecs m' = codecs m ++ l).
Proof.
  induction l as [|c l IH]; intros m Hm Hl; cbn [add_codecs]; [split_and!; [done|apply keeps_self|by rewrite app_nil_r]|].
  apply Forall_cons in Hl as [Hc Hl]. eapply total_bind; [by apply add_codec_keeps|]. intros m' (Hm' & Hk & Hcs).
  eapply total_mono; [by apply IH|]. intros m'' (Hm'' & Hk' & Hcs'). split_and!; [done|by eapply keeps_chain|]. by rewrite Hcs', Hcs, <- app_assoc.
Qed.

Lemma add_fmtp_keeps f m : media_ok m → fmtp_ok f → total (add_fmtp f m) (fun m' => media_ok m' ∧ keeps m m' ∧ codecs m' = codecs m).
Proof.
  intros Hm Hf. pose proof (add_fmtp_total f m Hm Hf) as Ht. unfold add_fmtp in *. destruct (bool_decide _); [exact I|]. cbn in *. split; [done|]. by destruct m.
Qed.

(** A retransmission codec of the offer for a payload type of [pts]. *)
Definition retransmits (o : MediaDescription) (pts : list Z) (c : RtpCodec) : Prop :=
  c ∈ codecs o ∧ eq_ignore_ascii_case (codec_name_str c) (lit "rtx") = true ∧ ∃ primary, find_rtx_apt (fmtps o) (payload_type c) = Some primary ∧ primary ∈ pts.

Lemma echo_rtx_total o pts : media_ok o → ∀ offers m, (∀ c, c ∈ offers → c ∈ codecs o) → media_ok m →
  total (echo_rtx o pts offers m) (fun m' => media_ok m' ∧ keeps m m' ∧ ∃ r, codecs m' = codecs m ++ r ∧ Forall (retransmits o pts) r).
Proof.
  intros Ho. induction offers as [|c offers IH]; intros m Hin Hm; cbn [echo_rtx].
  { split_and!; [done|apply keeps_self|]. exists []. by rewrite app_nil_r. }
  eapply (total_bind _ _ (fun m' => media_ok m' ∧ keeps m m' ∧ ∃ r, codecs m' = codecs m ++ r ∧ Forall (retransmits o pts) r)).
  - assert (Hskip : total (E:=SdpError) (Ok m) (fun m' => media_ok m' ∧ keeps m m' ∧ ∃ r, codecs m' = codecs m ++ r ∧ Forall (retransmits o pts) r)).
    { split_and!; [done|apply keeps_self|]. exists []. by rewrite app_nil_r. }
    destruct (eq_ignore_ascii_case _ _) eqn:Er; [|exact Hskip]. destruct (find_rtx_apt _ _) as [pr|] eqn:Ea; [|exact Hskip].
    case_bool_decide as Hpr; [|exact Hskip]. assert (Hc : c ∈ codecs o) by set_solver.
    assert (Hcok : codec_ok c) by (pose proof (proj2 (mo_codecs _ Ho)) as Hf; rewrite Forall_forall in Hf; by apply Hf).
    eapply (total_bind _ _ (fun m' => media_ok m' ∧ keeps m m' ∧ ∃ r, codecs m' = codecs m ++ r ∧ Forall (retransmits o pts) r)).
    + apply or_else_total; [|exact Hskip]. eapply total_mono; [by apply add_codec_keeps|]. intros m' (? & ? & ?). split_and!; [done..|].
      exists [c]. split; [done|]. constructor; [|done]. split_and!; [done..|by exists pr].
    + intros m' (Hm' & Hk & r & Hr & Hf). assert (Hgo : media_ok m' ∧ keeps m m' ∧ ∃ r, codecs m' = codecs m ++ r ∧ Forall (retransmits o pts) r) by eauto 6.
      destruct (List.find _ _) as [f|] eqn:Ef; [|exact Hgo]. apply or_else_total; [|exact Hgo].
      assert (Hfok : fmtp_ok f) by (apply find_some in Ef as [Hfin%list_elem_of_In _]; pose proof (proj2 (mo_fmtps _ Ho)) as Hfs; rewrite Forall_forall in Hfs; by apply Hfs).
      eapply total_mono; [by apply add_fmtp_keeps|]. intros m'' (? & ? & Hcs). split_and!; [done|by eapply keeps_chain|]. exists r. by rewrite Hcs.
  - intros m' (Hm' & Hk & r & Hr & Hf). eapply total_mono; [apply IH; [set_solver|done]|]. intros m'' (Hm'' & Hk' & r' & Hr' & Hf').
    split_and!; [done|by eapply keeps_chain|]. exists (r ++ r'). rewrite Hr', Hr, app_assoc. split; [done|by apply Forall_app].
Qed.

Lemma add_fbs_eq l : ∀ m, (length (rtcp_fbs m) + length l ≤ MAX_RTCP_FB_PER_MEDIA)%nat → add_fbs l m = set_rtcp_fbs (rtcp_fbs m ++ l) m.
Proof.
  unfold add_fbs. induction l as [|f l IH]; intros m Hl; cbn [foldl]; [rewrite app_nil_r; by destruct m|]. cbn [length] in Hl.
  unfold add_rtcp_fb at 2. rewrite bool_decide_eq_false_2 by lia. rewrite IH by (cbn; rewrite length_app; cbn; lia). cbn. by rewrite <- app_assoc.
Qed.

Lemma copy_extmaps_eq l : ∀ m, (length (extmaps m) + length l ≤ MAX_EXTMAPS_PER_MEDIA)%nat → copy_extmaps l m = Ok (set_extmaps (extmaps m ++ l) m).
Proof.
  induction l as [|e l IH]; intros m Hl; cbn [copy_extmaps]; [rewrite app_nil_r; by destruct m|]. cbn [length] in Hl.
  unfold add_extmap. rewrite bool_decide_eq_false_2 by lia. cbn. rewrite IH by (cbn; rewrite length_app; cbn; lia). cbn. by rewrite <- app_assoc.
Qed.

Lemma add_candidates_eq l : ∀ m, (length (candidates m) ≤ MAX_CANDIDATES_PER_MEDIA)%nat →
  add_candidates l m = Ok (set_candidates (candidates m ++ take (MAX_CANDIDATES_PER_MEDIA - length (candidates m)) l) m).
Proof.
  induction l as [|c l IH]; intros m Hl; cbn [add_candidates]; [rewrite take_nil, app_nil_r; by destruct m|].
  case_bool_decide as Hf; [rewrite (proj2 (Nat.sub_0_le _ _)) by done; cbn; rewrite app_nil_r; by destruct m|].
  unfold Media.add_candidate. rewrite bool_decide_eq_false_2 by lia. cbn -[MAX_CANDIDATES_PER_MEDIA]. rewrite IH by (cbn -[MAX_CANDIDATES_PER_MEDIA]; rewrite length_app; cbn -[MAX_CANDIDATES_PER_MEDIA]; lia).
  cbn -[MAX_CANDIDATES_PER_MEDIA]. rewrite length_app. cbn -[MAX_CANDIDATES_PER_MEDIA]. rewrite <- app_assoc. cbn [app].
  replace (MAX_CANDIDATES_PER_MEDIA - length (candidates m))%nat with (S (MAX_CANDIDATES_PER_MEDIA - (length (candidates m) + 1))) by lia. done.
Qed.

(** ** One m-section *)

Record answers (n : SdpNegotiator) (role : DtlsSetup) (o a : MediaDescription) : Prop := {
  an_ok : media_ok a;
  an_line : media_type a = media_type o ∧ protocol a = protocol o ∧ mid a = mid o;
  an_direction : direction a = flip_direction (direction o);
  an_identity : ice_ufrag a = Some (our_ufrag n) ∧ ice_pwd a = Some (our_pwd n) ∧ fingerprint a = Some (dtls_fingerprint n) ∧ setup a = Some role;
  an_codecs : ∃ l r, codecs a = l ++ r ∧ l ≠ [] ∧ Forall (negotiated n o) l ∧ Forall (retransmits o (payload_type <$> l)) r;
  an_rtcp : rtcp_mux a = rtcp_mux o ∧ rtcp_rsize a = rtcp_rsize o ∧ rtcp_mux_only a = rtcp_mux_only o ∧ rtcp_fbs a = rtcp_fbs o;
  an_extmaps : extmaps a = extmaps o ∧ extmap_allow_mixed a = extmap_allow_mixed o;
  an_candidates : candidates a = take MAX_CANDIDATES_PER_MEDIA (local_candidates n);
}.

Lemma ice_new_ok s : ice_ok s → ice_new s = s.
Proof. intros [[_ Hl] _]. unfold ice_new, cut. by rewrite take_ge. Qed.

Lemma answer_base_ok o u p f role : media_ok o → ice_ok u → ice_ok p → fingerprint_ok f → media_ok (answer_base o u p f role).
Proof.
  intros Ho Hu Hp Hf. unfold answer_base, set_ice_credentials. rewrite !ice_new_ok by done.
  assert (Hnew : media_ok (media_new (media_type o) 9 (protocol o))) by (apply media_new_ok; split; lia).
  pose proof (mo_mid _ Ho) as Hmid. by field Hnew.
Qed.

(** The last steps, which cannot fail: the entries of the offer fit. *)
Lemma answer_rest_total o m : media_ok o → media_ok m → rtcp_fbs m = [] → extmaps m = [] →
  total (answer_rest o m) (fun m' => media_ok m' ∧
    (media_type m' = media_type m ∧ protocol m' = protocol m ∧ mid m' = mid m ∧ direction m' = direction m ∧ ice_ufrag m' = ice_ufrag m ∧ ice_pwd m' = ice_pwd m ∧
     fingerprint m' = fingerprint m ∧ setup m' = setup m ∧ codecs m' = codecs m ∧ candidates m' = candidates m) ∧
    (rtcp_mux m' = rtcp_mux o ∧ rtcp_rsize m' = rtcp_rsize o ∧ rtcp_mux_only m' = rtcp_mux_only o ∧ rtcp_fbs m' = rtcp_fbs o) ∧
    extmaps m' = extmaps o ∧ extmap_allow_mixed m' = extmap_allow_mixed o).
Proof.
  intros Ho Hm Hf He. unfold answer_rest. cbv zeta. rewrite add_fbs_eq by (cbn -[MAX_RTCP_FB_PER_MEDIA]; rewrite Hf; apply Ho).
  rewrite copy_extmaps_eq by (cbn -[MAX_EXTMAPS_PER_MEDIA]; rewrite He; apply Ho). cbn. rewrite Hf, He. cbn [app].
  split; [field Hm; apply Ho|by split_and!].
Qed.

Lemma keeps_fields b m : keeps b m →
  media_type m = media_type b ∧ protocol m = protocol b ∧ mid m = mid b ∧ direction m = direction b ∧ ice_ufrag m = ice_ufrag b ∧ ice_pwd m = ice_pwd b ∧
  fingerprint m = fingerprint b ∧ setup m = setup b ∧ rtcp_fbs m = rtcp_fbs b ∧ extmaps m = extmaps b ∧ candidates m = candidates b.
Proof. unfold keeps. intros ->. by split_and!. Qed.

Lemma answer_finish n o role l r m : negotiator_ok n → media_ok o → media_ok m →
  keeps (set_trickle true (answer_base o (our_ufrag n) (our_pwd n) (dtls_fingerprint n) role)) m →
  codecs m = l ++ r → l ≠ [] → Forall (negotiated n o) l → Forall (retransmits o (payload_type <$> l)) r →
  total (m ← answer_rest o m; m ← add_candidates (local_candidates n) m; assert_ (negb (bool_decide (codecs m = [])));; Ok m) (answers n role o).
Proof.
  intros Hn Ho Hm Hk Hc Hne Hl Hr. apply keeps_fields in Hk as (H1 & H2 & H3 & H4 & H5 & H6 & H7 & H8 & H9 & H10 & H11).
  cbn in H1, H2, H3, H4, H5, H6, H7, H8, H9, H10, H11. rewrite ice_new_ok in H5, H6 by apply Hn.
  eapply total_bind; [by apply answer_rest_total|]. clear H9 H10. intros m3 (Hm3 & (G1 & G2 & G3 & G4 & G5 & G6 & G7 & G8 & G9 & G10) & Hrtcp & Hext).
  rewrite H11 in G10. rewrite add_candidates_eq by (rewrite G10; cbn [length]; lia).
  rewrite G10. cbn [app length mbind outcome_bind]. rewrite Nat.sub_0_r. remember (take MAX_CANDIDATES_PER_MEDIA (local_candidates n)) as cds eqn:Hcds.
  assert (Hcd : bounded MAX_CANDIDATES_PER_MEDIA candidate_ok cds) by (subst cds; split; [rewrite length_take; lia|apply Forall_take, Hn]).
  apply total_assert; [cbn; rewrite G9, Hc; by destruct l|]. cbn [total].
  split; [by field Hm3|cbn; split_and!; congruence|cbn; congruence|cbn; split_and!; congruence| |exact Hrtcp|exact Hext|exact Hcds]. exists l, r. split_and!; [cbn; congruence|done..].
Qed.

Lemma answer_media_total n o role : negotiator_ok n → media_ok o → total (Negotiator.create_answer_media n o role) (answers n role o).
Proof.
  intros Hn Ho. unfold Negotiator.create_answer_media. apply total_fail. intros _. cbv zeta.
  pose proof (answer_base_ok o _ _ _ role Ho (ne_ufrag _ Hn) (ne_pwd _ Hn) (ne_fingerprint _ Hn)) as Hb.
  assert (Hb' : media_ok (set_trickle true (answer_base o (our_ufrag n) (our_pwd n) (dtls_fingerprint n) role))) by (by field Hb).
  eapply total_bind; [by apply negotiate_codecs_total|]. intros l [[Hll Hl] Hne].
  assert (Hlok : Forall codec_ok l) by (eapply Forall_impl; [exact Hl|]; intros c; by apply negotiated_ok).
  eapply total_bind; [by apply add_codecs_total|]. intros m1 (Hm1 & Hk1 & Hc1).
  eapply total_bind; [by apply echo_rtx_total|]. intros m2 (Hm2 & Hk2 & r & Hc2 & Hr).
  rewrite (take_ge l 16 Hll) in Hr. rewrite Hc1 in Hc2. apply (answer_finish n o role l r); try done. by eapply keeps_chain.
Qed.

(** ** The answer *)

Record answer_of (n : SdpNegotiator) (o a : SessionDescription) : Prop := {
  ao_media : Forall2 (answers n (answer_setup (session_setup o))) (media o) (media a);
  ao_identity : session_ufrag a = Some (our_ufrag n) ∧ session_pwd a = Some (our_pwd n) ∧ session_fingerprint a = Some (dtls_fingerprint n);
  ao_bundle : bundle_group a = bundle_group o;
  ao_origin : session_id (origin a) = session_id (origin o);
}.

Lemma answer_each_total n role l : ∀ s, negotiator_ok n → Forall media_ok l →
  total (answer_each (fun m => Negotiator.create_answer_media n m role) l s) (fun s' => ∃ k, s' = set_media (media s ++ k) s ∧ Forall2 (answers n role) l k).
Proof.
  induction l as [|m l IH]; intros s Hn Hl; cbn [answer_each]; [exists []; rewrite app_nil_r; by destruct s|].
  apply Forall_cons in Hl as [Hm Hl]. eapply total_bind; [by apply answer_media_total|]. intros a Ha. unfold add_media.
  destruct (bool_decide _); [exact I|]. cbn [fail_if mbind outcome_bind]. eapply total_mono; [by apply IH|]. intros s' (k & -> & Hk).
  exists (a :: k). split; [cbn; by rewrite <- app_assoc|by constructor].
Qed.

Lemma create_answer_total n o : negotiator_ok n → session_ok o → total (Negotiator.create_answer n o) (answer_of n o).
Proof.
  intros Hn Ho. unfold Negotiator.create_answer. apply total_fail. intros _. cbv zeta. apply total_fail. intros _.
  eapply total_bind; [apply answer_each_total; [done|apply (proj2 (so_media _ Ho))]|]. intros a (k & -> & Hk).
  pose proof (ice_new_ok _ (ne_ufrag _ Hn)) as Hu. pose proof (ice_new_ok _ (ne_pwd _ Hn)) as Hp.
  case_bool_decide as Hbd; (apply total_assert; [apply bool_decide_eq_true; cbn; by rewrite (Forall2_length _ _ _ Hk)|]; split; cbn; rewrite ?Hu, ?Hp; done).
Qed.

Lemma print_total s : Forall media_ok (media s) → total (Printer.print s) (fun t => t ≠ []).
Proof.
  intros Hm. unfold Printer.print. apply total_fail. intros _. eapply (total_bind _ _ (fun _ => True)).
  - eapply total_mono; [apply (total_mapM _ (fun _ => True))|done]. eapply Forall_impl; [exact Hm|]. intros m Hok. unfold Printer.print_media_section.
    apply total_assert; [apply bool_decide_eq_true, Hok|done].
  - intros l _. unfold document. cbv zeta. apply total_fail. intros _. cbn [total]. intros Hnil. by apply app_eq_nil in Hnil as [_ ?].
Qed.

Lemma negotiate_total n sdp : negotiator_ok n → synced sdp → total (negotiate n sdp) (fun _ => True).
Proof.
  intros Hn Hs. unfold negotiate. apply total_fail. intros _. eapply total_bind; [by apply parse_total|]. intros o [Ho _].
  eapply total_bind; [by apply create_answer_total|]. intros a [Ha _ _ _].
  eapply total_bind; [apply print_total|]. { apply Forall_forall. intros m Hm. apply list_elem_of_lookup in Hm as [i Hi].
    destruct (Forall2_lookup_r _ _ _ _ _ Ha Hi) as (x & _ & Hx). apply Hx. }
  intros t Ht. apply total_assert; [by rewrite bool_decide_eq_false_2|done].
Qed.

End Answers.

Module Offers.
Import Text TextProofs TextRound Sdp SdpTypes Attributes Media Session SdpSafe SdpRound Negotiator Answers.

(** ** What the orchestrator passes *)

Definition fbs_ok (l : list (str * str)) : Prop := Forall (fun f => f.1 ≠ []) l.

Record recycled_ok (r : RecycledMline) : Prop := {
  re_mid : mid_ok (r_mid r);
  re_codecs : Forall codec_ok (r_codecs r);
  re_fmtps : Forall fmtp_ok (r_fmtps r);
  re_pts : Forall (Z.le 0) (offer_pts r);
  re_extmaps : Forall extmap_ok (r_extmaps r);
  re_fbs : fbs_ok (r_fbs r);
}.

Definition mline_ok (l : OfferMline) : Prop :=
  match l with
  | Recycled r => recycled_ok r
  | Track x _ mid stream cname fbs _ => (is_u32 x ∧ x ≠ 0) ∧ mid_ok mid ∧ utf8_valid stream = true ∧ utf8_valid cname = true ∧ fbs_ok fbs
  end.

Record defaults_ok (d : Defaults) : Prop := {
  de_mid : 1 ≤ mid_ext_id d < 2 ^ 8;
  de_extmaps : Forall (fun e => 1 ≤ e.1 < 2 ^ 8 ∧ e.2 ≠ []) (video_extmaps d ++ audio_extmaps d);
  de_codecs : some_is codec_ok (video_codec d) ∧ some_is codec_ok (audio_codec d);
  de_fmtps : some_is fmtp_ok (video_fmtp d) ∧ some_is fmtp_ok (audio_fmtp d);
}.

(** Every kind of track has a codec. *)
Definition codec_for (n : SdpNegotiator) (d : Defaults) (kind : Z) : Prop :=
  is_Some (if kind =? 0 then audio_codec d else video_codec d) ∨ ∃ c, c ∈ supported_codecs n ∧ is_audio (codec_type c) = (kind =? 0).

Definition has_codec (n : SdpNegotiator) (d : Defaults) (l : OfferMline) : Prop :=
  match l with Recycled _ => True | Track _ kind _ _ _ _ _ => codec_for n d kind end.

(** ** Filling an offered m-section *)

Definition same_line (m m' : MediaDescription) : Prop :=
  mid m' = mid m ∧ direction m' = direction m ∧ setup m' = setup m ∧ fingerprint m' = fingerprint m ∧ ice_ufrag m' = ice_ufrag m ∧ ice_pwd m' = ice_pwd m.

Lemma same_refl m : same_line m m.
Proof. by split_and!. Qed.

Lemma same_trans a b c : same_line a b → same_line b c → same_line a c.
Proof. unfold same_line. intros (-> & -> & -> & -> & -> & ->) (-> & -> & -> & -> & -> & ->). by split_and!. Qed.

(** [m'] is well-formed, is the same line and has the same codecs and SSRCs. *)
Definition fills (m m' : MediaDescription) : Prop := media_ok m' ∧ same_line m m' ∧ codecs m' = codecs m ∧ ssrcs m' = ssrcs m ∧ msid m' = msid m.

Lemma fills_refl m : media_ok m → fills m m.
Proof. intros Hm. split_and!; try done. Qed.

Lemma fills_trans a b c : fills a b → fills b c → fills a c.
Proof. unfold fills. intros (? & ? & -> & -> & ->) (? & ? & -> & -> & ->). split_and!; try done. by eapply same_trans. Qed.

Lemma offer_base_ok n kind mid d : negotiator_ok n → mid_ok mid → media_ok (offer_base n kind mid d).
Proof.
  intros Hn Hmid. unfold offer_base, set_ice_credentials. rewrite !ice_new_ok by apply Hn.
  assert (Hnew : media_ok (media_new (if kind =? 0 then AudioMedia else VideoMedia) 9 UdpTlsRtpSavpf)) by (apply media_new_ok; split; lia).
  pose proof (ne_ufrag _ Hn). pose proof (ne_pwd _ Hn). pose proof (ne_fingerprint _ Hn). assert (mid_ok (mid_new mid)) by (destruct Hmid as [[? ?] ?]; unfold mid_new, cut; by rewrite take_ge).
  by field Hnew.
Qed.

Lemma copy_codecs_total l : ∀ m, media_ok m → Forall codec_ok l →
  total (copy_codecs l m) (fun m' => media_ok m' ∧ keeps m m' ∧ codecs m' = take MAX_CODECS_PER_MEDIA (codecs m ++ l)).
Proof.
  induction l as [|c l IH]; intros m Hm Hl; cbn [copy_codecs].
  { split_and!; [done|apply keeps_self|]. rewrite app_nil_r, take_ge; [done|apply Hm]. }
  apply Forall_cons in Hl as [Hc Hl]. eapply (total_bind _ _ (fun m' => media_ok m' ∧ keeps m m' ∧ codecs m' = take MAX_CODECS_PER_MEDIA (codecs m ++ [c]))).
  - pose proof (add_codec_keeps c m Hm Hc) as Ha. pose proof (proj1 (mo_codecs _ Hm)) as Hlen. unfold add_codec in *. destruct (bool_decide (_ ≤ _)%nat) eqn:Eb.
    + apply bool_decide_eq_true in Eb. cbn [fail_if mbind outcome_bind or_else total]. split_and!; [done|apply keeps_self|]. rewrite take_app_le by lia. by rewrite take_ge by lia.
    + apply bool_decide_eq_false in Eb. cbn [fail_if mbind outcome_bind or_else total] in *. destruct Ha as (? & ? & Hcs). split_and!; [done..|]. rewrite Hcs, take_ge; [done|rewrite length_app; cbn [length]; lia].
  - intros m' (Hm' & Hk & Hcs). eapply total_mono; [by apply IH|]. intros m'' (? & ? & Hcs'). split_and!; [done|by eapply keeps_chain|].
    rewrite Hcs', Hcs. replace (codecs m ++ c :: l) with ((codecs m ++ [c]) ++ l) by by rewrite <- app_assoc. pose proof (proj1 (mo_codecs _ Hm)) as Hlen.
    destruct (decide (length (codecs m) < MAX_CODECS_PER_MEDIA)%nat); [by rewrite (take_ge (codecs m ++ [c])) by (rewrite length_app; cbn [length]; lia)|].
    rewrite !take_app_le by (rewrite ?length_take, ?length_app; lia). by rewrite take_take, Nat.min_id.
Qed.

Lemma keeps_fills m m' : media_ok m' → keeps m m' → codecs m' = codecs m → fills m m'.
Proof. intros Hm Hk Hc. split_and!; try done; rewrite Hk; done. Qed.

Lemma keeps_same m m' : keeps m m' → same_line m m' ∧ ssrcs m' = ssrcs m ∧ msid m' = msid m.
Proof. intros ->. by split_and!. Qed.

Lemma copy_fmtps_total l : ∀ m, media_ok m → Forall fmtp_ok l → total (copy_fmtps l m) (fills m).
Proof.
  induction l as [|f l IH]; intros m Hm Hl; cbn [copy_fmtps]; [by apply fills_refl|]. apply Forall_cons in Hl as [Hf Hl].
  eapply (total_bind _ _ (fills m)).
  - apply or_else_total; [|by apply fills_refl]. eapply total_mono; [by apply add_fmtp_keeps|]. intros m' (? & ? & ?). by apply keeps_fills.
  - intros m' Hm'. eapply total_mono; [apply IH; [apply Hm'|done]|]. intros m''. by apply fills_trans.
Qed.

Lemma extmap_fills e m : media_ok m → extmap_ok e → total (add_extmap e m) (fills m).
Proof.
  intros Hm He. pose proof (add_extmap_total e m Hm He) as Ht. unfold add_extmap in *. destruct (bool_decide (_ ≤ _)%nat); [exact I|].
  cbn [fail_if mbind outcome_bind total] in *. by split_and!.
Qed.

Lemma copy_extmaps_total l : ∀ m, media_ok m → Forall extmap_ok l → total (copy_extmaps l m) (fills m).
Proof.
  induction l as [|e l IH]; intros m Hm Hl; cbn [copy_extmaps]; [by apply fills_refl|]. apply Forall_cons in Hl as [He Hl].
  eapply (total_bind _ _ (fills m)); [apply or_else_total; [by apply extmap_fills|by apply fills_refl]|].
  intros m' Hm'. eapply total_mono; [apply IH; [apply Hm'|done]|]. intros m''. by apply fills_trans.
Qed.

Lemma fb_fills f m : media_ok m → feedback_ok f → fills m (add_rtcp_fb f m).
Proof.
  intros Hm Hf. pose proof (add_fb_ok f m Hm Hf) as Ht. unfold add_rtcp_fb in *. destruct (bool_decide (_ ≤ _)%nat); [by apply fills_refl|]. by split_and!.
Qed.

Lemma pt_fbs_total pt l : ∀ m, media_ok m → fbs_ok l → total (add_pt_fbs pt l m) (fills m).
Proof.
  induction l as [|[t ps] l IH]; intros m Hm Hl; cbn [add_pt_fbs]; [by apply fills_refl|]. apply Forall_cons in Hl as [Ht Hl].
  apply total_assert; [by rewrite bool_decide_eq_false_2|]. cbv zeta. eapply total_bind; [apply feedback_total|]. intros f Hf.
  pose proof (fb_fills f m Hm Hf) as Hfill. eapply total_mono; [apply IH; [apply Hfill|done]|]. intros m''. by apply fills_trans.
Qed.

Lemma all_fbs_total cs l : ∀ m, media_ok m → fbs_ok l → total (add_all_fbs cs l m) (fills m).
Proof.
  induction cs as [|c cs IH]; intros m Hm Hl; cbn [add_all_fbs]; [by apply fills_refl|]. eapply total_bind; [by apply pt_fbs_total|].
  intros m' Hm'. eapply total_mono; [apply IH; [apply Hm'|done]|]. intros m''. by apply fills_trans.
Qed.

Lemma candidates_fills l m : media_ok m → Forall candidate_ok l → total (add_candidates l m) (fills m).
Proof.
  intros Hm Hl. rewrite add_candidates_eq by apply Hm. cbn [total].
  assert (Hb : bounded MAX_CANDIDATES_PER_MEDIA candidate_ok (candidates m ++ take (MAX_CANDIDATES_PER_MEDIA - length (candidates m)) l)).
  { destruct (mo_candidates _ Hm). split; [rewrite length_app, length_take; lia|]. apply Forall_app. split; [done|by apply Forall_take]. }
  split_and!; try done. by field Hm.
Qed.

Lemma mid_extmap_ok (x : Z) : 1 ≤ x < 2 ^ 8 → extmap_ok (mkExtMap x None MID_URI).
Proof. intros Hx. split; [done|]. split; cbn; lia. Qed.

(** ** Recycled m-lines *)

Definition line_of (n : SdpNegotiator) (x : str) (d : Direction) (m : MediaDescription) : Prop :=
  media_ok m ∧ mid m = Some x ∧ direction m = d ∧ setup m = Some Actpass ∧ fingerprint m = Some (dtls_fingerprint n) ∧
  ice_ufrag m = Some (our_ufrag n) ∧ ice_pwd m = Some (our_pwd n).

Lemma line_same n x d m m' : line_of n x d m → same_line m m' → media_ok m' → line_of n x d m'.
Proof. unfold line_of, same_line. intros (_ & <- & <- & <- & <- & <- & <-) (-> & -> & -> & -> & -> & ->) Hm. by split_and!. Qed.

Lemma offer_base_line n kind x d : negotiator_ok n → mid_ok x → line_of n x d (offer_base n kind x d).
Proof.
  intros Hn Hx. pose proof (offer_base_ok n kind x d Hn Hx) as Hm. split; [done|]. clear Hm. unfold offer_base, set_ice_credentials.
  rewrite !ice_new_ok by apply Hn. assert (mid_new x = x) as -> by (destruct Hx as [[? ?] ?]; unfold mid_new, cut; by rewrite take_ge). by split_and!.
Qed.

Lemma mux_line n x d m : line_of n x d m → line_of n x d (set_rtcp_mux true m).
Proof. intros Hl. eapply line_same; [exact Hl|by split_and!|]. pose proof (proj1 Hl) as Hm. by field Hm. Qed.

Lemma recycled_total n i r : negotiator_ok n → 1 ≤ i < 2 ^ 8 → recycled_ok r →
  total (recycled_media n i r) (fun m => line_of n (r_mid r) (r_direction r) m ∧ codecs m = take MAX_CODECS_PER_MEDIA (r_codecs r)).
Proof.
  intros Hn Hi Hr. unfold recycled_media. cbv zeta. pose proof (offer_base_line n (r_kind r) (r_mid r) (r_direction r) Hn (re_mid _ Hr)) as Hb.
  assert (Hcs : codecs (set_rtcp_mux true (offer_base n (r_kind r) (r_mid r) (r_direction r))) = []) by done.
  apply mux_line in Hb. revert Hb Hcs. generalize (set_rtcp_mux true (offer_base n (r_kind r) (r_mid r) (r_direction r))) as b. intros b Hb Hcs.
  eapply total_bind; [apply copy_codecs_total; [apply Hb|apply Hr]|]. intros m1 (Hm1 & Hk & Hc1). rewrite Hcs in Hc1. cbn [app] in Hc1. apply keeps_same in Hk as (Hs1 & _ & _).
  eapply total_bind; [apply copy_fmtps_total; [done|apply Hr]|]. intros m2 Hf2. unfold add_rtcp_fbs.
  eapply (total_bind _ _ (fills m2)); [apply total_fail; intros _; apply all_fbs_total; [apply Hf2|apply Hr]|]. intros m3 Hf3.
  eapply total_bind; [apply copy_extmaps_total; [apply Hf3|apply Hr]|]. intros m4 Hf4.
  pose proof (fills_trans _ _ _ (fills_trans _ _ _ Hf2 Hf3) Hf4) as Hf. clear Hf2 Hf3 Hf4.
  assert (Hend : ∀ m, fills m1 m → line_of n (r_mid r) (r_direction r) m ∧ codecs m = take MAX_CODECS_PER_MEDIA (r_codecs r)).
  { intros m (Hm & Hs & Hcm & _). split; [|by rewrite Hcm]. eapply line_same; [exact Hb| |done]. by eapply same_trans. }
  destruct (existsb _ _); [by apply Hend|]. apply or_else_total; [|by apply Hend].
  eapply total_mono; [apply extmap_fills; [apply Hf|by apply mid_extmap_ok]|]. intros m5 Hf5. apply Hend. by eapply fills_trans.
Qed.

(** ** Payload types in use *)

Definition marked (used : list bool) (x : Z) : Prop := used !! Z.to_nat x = Some true.

(** [x] is marked as well, and nothing is lost. *)
Definition marks (used used' : list bool) (l : list Z) : Prop := length used' = 128%nat ∧ (∀ x, marked used x → marked used' x) ∧ ∀ x, x ∈ l → marked used' x.

Lemma mark_total {E A} x used (f : list bool → outcome E A) R : length used = 128%nat → pt_ok x → (∀ used', marks used used' [x] → total (f used') R) →
  total (set_at (Z.to_nat x) true used ≫= f) R.
Proof.
  intros Hl Hx Hf. unfold set_at. unfold pt_ok in Hx. rewrite decide_True by lia. cbn. apply Hf. split_and!; [by rewrite length_insert| |].
  - intros y Hy. unfold marked in *. destruct (decide (Z.to_nat x = Z.to_nat y)) as [->|Hne]; [rewrite list_lookup_insert_eq by (by eapply lookup_lt_Some)|rewrite list_lookup_insert_ne by done]; done.
  - intros y ->%list_elem_of_singleton. unfold marked. by rewrite list_lookup_insert_eq by lia.
Qed.

Lemma marks_trans a b c k l : marks a b k → marks b c l → marks a c (k ++ l).
Proof. intros (? & H1 & H2) (? & H3 & H4). split_and!; [done|auto|]. intros x [?|?]%elem_of_app; auto. Qed.

Lemma mark_codecs_total l : ∀ used, length used = 128%nat → Forall codec_ok l → total (mark_codecs l used) (fun u => marks used u (payload_type <$> l)).
Proof.
  induction l as [|c l IH]; intros used Hu Hl; cbn [mark_codecs]; [by split_and!; [..|set_solver]|]. apply Forall_cons in Hl as [[Hpt _ _ _] Hl].
  apply total_fail. intros _. apply mark_total; [done..|]. intros u1 H1. eapply total_mono; [apply IH; [apply H1|done]|]. intros u2 H2. exact (marks_trans _ _ _ _ _ H1 H2).
Qed.

(** The payload types that a byte of the table stands for. *)
Definition table_pts (l : list Z) : list Z := List.filter (fun x => x <? 128) l.

Lemma mark_pts_total l : ∀ used, length used = 128%nat → Forall (Z.le 0) l → total (mark_pts l used) (fun u => marks used u (table_pts l)).
Proof.
  induction l as [|x l IH]; intros used Hu Hl; cbn [mark_pts]; [by split_and!; [..|set_solver]|]. apply Forall_cons in Hl as [Hx Hl]. unfold table_pts. cbn [List.filter].
  destruct (Z.ltb_spec x 128); [|by apply IH]. apply mark_total; [done|unfold pt_ok; lia|]. intros u1 H1. eapply total_mono; [apply IH; [apply H1|done]|]. intros u2 H2. exact (marks_trans _ _ _ _ _ H1 H2).
Qed.

(** The payload types of the recycled m-lines. *)
Definition recycled_pts (l : list OfferMline) : list Z :=
  concat ((fun x => match x with Recycled r => (payload_type <$> r_codecs r) ++ table_pts (offer_pts r) | Track _ _ _ _ _ _ _ => [] end) <$> l).

Lemma mark_recycled_total l : ∀ used, length used = 128%nat → Forall mline_ok l → total (mark_recycled l used) (fun u => marks used u (recycled_pts l)).
Proof.
  induction l as [|x l IH]; intros used Hu Hl; cbn [mark_recycled]; [by split_and!; [..|set_solver]|]. apply Forall_cons in Hl as [Hx Hl]. destruct x as [r|]; [|by apply IH].
  eapply total_bind; [apply mark_codecs_total; [done|apply Hx]|]. intros u1 H1. eapply total_bind; [apply mark_pts_total; [apply H1|apply Hx]|]. intros u2 H2.
  eapply total_mono; [apply IH; [apply H2|done]|]. intros u3 H3. exact (marks_trans _ _ _ _ _ (marks_trans _ _ _ _ _ H1 H2) H3).
Qed.

Lemma free_pt_spec used x : free_pt used = Some x → 96 ≤ x ≤ 127 ∧ ¬ marked used x.
Proof.
  intros [Hin Hf]%find_some. apply list_elem_of_In, elem_of_seqZ in Hin. split; [lia|]. unfold marked. intros Hm. by rewrite Hm in Hf.
Qed.

(** ** Tracks *)

Definition default_codec (d : Defaults) (kind : Z) : option RtpCodec := if kind =? 0 then audio_codec d else video_codec d.

(** A payload type that was not in use, unless it had to be kept. *)
Definition picks (used used' : list bool) (keep : bool) (pt : Z) : Prop := pt_ok pt ∧ marks used used' [pt] ∧ (keep = false → ¬ marked used pt).

Definition track_result (d : Defaults) (kind : Z) (keep : bool) (used : list bool) (m : MediaDescription) (r : MediaDescription * Z * list bool) : Prop :=
  let '(m', pt, used') := r in
  media_ok m' ∧ same_line m m' ∧ ssrcs m' = ssrcs m ∧ msid m' = msid m ∧ codecs m' ≠ [] ∧
  match default_codec d kind with Some c => codecs m' = [with_pt pt c] ∧ picks used used' keep pt | None => pt = 0 ∧ used' = used end.

Lemma with_pt_ok pt c : pt_ok pt → codec_ok c → codec_ok (with_pt pt c).
Proof. intros Hp [_ ? ? ?]. by split. Qed.

Lemma pick_total used orig keep count : length used = 128%nat → pt_ok orig →
  total (taken ← idx used (Z.to_nat orig); if taken && negb keep then of_option (TooManyMedia count 32) (free_pt used) else Ok orig)
    (fun pt => pt_ok pt ∧ (keep = false → ¬ marked used pt)).
Proof.
  intros Hu Ho. unfold pt_ok in Ho. apply total_idx; [lia|]. intros taken Ht. destruct (taken && negb keep) eqn:E.
  - destruct (free_pt used) as [x|] eqn:Ef; cbn; [|done]. apply free_pt_spec in Ef as [Hx Hm]. split; [unfold pt_ok; lia|done].
  - cbn. split; [done|]. intros ->. rewrite andb_true_r in E. subst taken. unfold marked. by rewrite Ht.
Qed.

Lemma track_codec_default n d kind keep count used m c : defaults_ok d → media_ok m → codecs m = [] → length used = 128%nat → default_codec d kind = Some c →
  total (track_codec n d kind keep count used m) (track_result d kind keep used m).
Proof.
  intros Hd Hm Hcs Hu Hc. unfold track_codec, track_result. unfold default_codec in *. rewrite Hc.
  assert (Hcok : codec_ok c) by (pose proof (de_codecs _ Hd) as [Hv Ha]; destruct (kind =? 0); [rewrite Hc in Ha|rewrite Hc in Hv]; done).
  cbv zeta. apply total_fail. intros _. pose proof (co_pt _ Hcok) as Hpt. pose proof (pick_total used (payload_type c) keep count Hu Hpt) as Hp. revert Hp.
  destruct (idx used (Z.to_nat (payload_type c))) as [taken|e|]; [|done..]. cbn [mbind outcome_bind]. intros Hp.
  eapply total_bind; [exact Hp|]. intros pt [Hptok Hfresh]. apply mark_total; [done..|]. intros u Hmarks.
  eapply (total_bind _ _ (fun m' => media_ok m' ∧ keeps m m' ∧ codecs m' = [with_pt pt c])).
  - pose proof (add_codec_keeps (with_pt pt c) m Hm (with_pt_ok _ _ Hptok Hcok)) as Ha. unfold add_codec in *. rewrite Hcs in *. cbn in *. exact Ha.
  - intros m1 (Hm1 & Hk1 & Hc1). eapply (total_bind _ _ (fun m' => media_ok m' ∧ keeps m m' ∧ codecs m' = [with_pt pt c])).
    + assert (Hf : some_is fmtp_ok (if kind =? 0 then audio_fmtp d else video_fmtp d)) by (pose proof (de_fmtps _ Hd) as [? ?]; by destruct (kind =? 0)).
      destruct (if kind =? 0 then audio_fmtp d else video_fmtp d) as [f|]; [|done]. destruct Hf as [Hf1 Hf2]. apply or_else_total; [|done].
      eapply total_mono; [apply add_fmtp_keeps; [done|]|].
      * split; cbn; [|done]. destruct (fmtp_payload_type f =? payload_type c); [unfold pt_ok in Hptok; split; cbn; lia|done].
      * intros m2 (? & ? & Hc2). split_and!; [done|by eapply keeps_chain|by rewrite Hc2].
    + intros m2 (Hm2 & Hk2 & Hc2). cbn [total]. apply keeps_same in Hk2 as (? & ? & ?). split_and!; try done. by rewrite Hc2.
Qed.

Lemma mapM_rtp l : Forall capability_ok l → mapM to_rtp_codec l = Ok (rtp_codec_of <$> l).
Proof. induction 1 as [|c l Hc Hl IH]; [done|]. cbn. rewrite to_rtp_codec_eq by done. cbn. rewrite IH. done. Qed.

Lemma rtp_codec_ok c : capability_ok c → codec_ok (rtp_codec_of c).
Proof. intros (? & ? & ?). split; cbn; try done. split; [lia|apply name_plain]. Qed.

Lemma track_codec_fallback n d kind keep count used m : negotiator_ok n → media_ok m → codecs m = [] → default_codec d kind = None → codec_for n d kind →
  total (track_codec n d kind keep count used m) (track_result d kind keep used m).
Proof.
  intros Hn Hm Hcs Hc Hfor. unfold track_codec, track_result, codec_for in *. unfold default_codec in *. rewrite Hc in *. destruct Hfor as [[? ?]|(k & Hk & Ha)]; [done|].
  set (l := List.filter _ _). assert (Hl : Forall capability_ok l).
  { apply Forall_forall. intros x [Hx _]%list_elem_of_In%filter_In. apply list_elem_of_In in Hx. pose proof (proj2 (ne_capable _ Hn)) as Hf. rewrite Forall_forall in Hf. auto. }
  rewrite mapM_rtp by done. cbn [mbind outcome_bind]. eapply total_bind; [apply copy_codecs_total; [done|]|].
  - apply Forall_fmap. eapply Forall_impl; [exact Hl|]. intros x. apply rtp_codec_ok.
  - intros m' (Hm' & Hkp & Hcs'). cbn [total]. apply keeps_same in Hkp as (? & ? & ?). split_and!; try done. rewrite Hcs', Hcs. cbn [app].
    assert (Hin : k ∈ l) by (apply list_elem_of_In, filter_In; split; [by apply list_elem_of_In|rewrite Ha; apply eqb_reflx]).
    destruct l; [by apply elem_of_nil in Hin|done].
Qed.

Lemma track_codec_total n d kind keep count used m : negotiator_ok n → defaults_ok d → media_ok m → codecs m = [] → length used = 128%nat → codec_for n d kind →
  total (track_codec n d kind keep count used m) (track_result d kind keep used m).
Proof.
  intros Hn Hd Hm Hcs Hu Hfor. destruct (default_codec d kind) as [c|] eqn:Ec; [by eapply track_codec_default|by apply track_codec_fallback].
Qed.

(** The [ssrc] lines of a track. *)
Definition track_id_of (mid : str) : str := lit "nexus-track-" ++ mid.
Definition track_ssrcs (x : Z) (mid stream cname : str) : list SsrcInfo :=
  [mkSsrcInfo x (lit "cname") cname; mkSsrcInfo x (lit "msid") (stream ++ lit " " ++ track_id_of mid)].

Lemma add_ssrc_spec s m : media_ok m → ssrc_ok s →
  total (add_ssrc s m) (fun m' => media_ok m' ∧ same_line m m' ∧ codecs m' = codecs m ∧ msid m' = msid m ∧ ssrcs m' = ssrcs m ++ [s]).
Proof.
  intros Hm Hs. pose proof (add_ssrc_total s m Hm Hs) as Ht. unfold add_ssrc in *. destruct (bool_decide (MAX_SSRCS_PER_MEDIA ≤ _)%nat); [exact I|].
  cbn [fail_if mbind outcome_bind total] in *. split; [done|]. clear Ht. destruct (_ && _); by split_and!.
Qed.

Lemma mid_utf8 x : mid_ok x → utf8_valid x = true.
Proof.
  intros [_ Hx]. apply utf8_ascii, Forall_forall. intros b Hb%list_elem_of_In. rewrite forallb_forall in Hx. specialize (Hx b Hb). unfold is_token_char in Hx. lia.
Qed.

Lemma ssrc_add_total x a v m : is_u32 x → 58 ∉ a → utf8_valid a = true → utf8_valid v = true → media_ok m →
  total (s ← parse_ssrc (dec x ++ 32 :: a ++ 58 :: v); add_ssrc s m)
    (fun m' => media_ok m' ∧ same_line m m' ∧ codecs m' = codecs m ∧ msid m' = msid m ∧ ssrcs m' = ssrcs m ++ [mkSsrcInfo x a v]).
Proof.
  intros Hx Ha Hva Hvv Hm. rewrite ssrc_round by done. destruct (_ || _) eqn:E; [exact I|]. cbn [fail_if mbind outcome_bind].
  apply orb_false_iff in E as [?%bool_decide_eq_false ?%bool_decide_eq_false]. apply add_ssrc_spec; [done|]. split_and!; cbn; [done|split; lia..].
Qed.

Lemma identity_total x mid stream cname m : is_u32 x → x ≠ 0 → mid_ok mid → utf8_valid stream = true → utf8_valid cname = true → media_ok m → ssrcs m = [] →
  total (add_track_identity x mid stream cname m) (fun m' => media_ok m' ∧ same_line m m' ∧ codecs m' = codecs m ∧
    msid m' = Some (mkMsid stream (track_id_of mid)) ∧ ssrcs m' = track_ssrcs x mid stream cname).
Proof.
  intros Hx H0 Hmid Hs Hc Hm Hnil. unfold add_track_identity. apply total_assert; [by rewrite (proj2 (Z.eqb_neq x 0) H0)|]. apply total_fail. intros _. cbv zeta.
  pose proof (msid_total stream (track_id_of mid)) as Hms. fold (track_id_of mid). unfold msid_new in *. destruct (bool_decide (_ < length stream)%nat); [exact I|].
  cbn [fail_if mbind outcome_bind] in *. destruct (bool_decide _); [exact I|]. cbn [fail_if mbind outcome_bind total] in *.
  set (m0 := set_msid _ m). assert (Hm0 : media_ok m0) by (by field Hm). assert (Hn0 : ssrcs m0 = []) by done. assert (Hs0 : same_line m m0 ∧ codecs m0 = codecs m ∧ msid m0 = Some (mkMsid stream (track_id_of mid))) by by split_and!.
  clearbody m0. destruct Hs0 as (Hs0 & Hc0 & Hi0).
  pose proof (ssrc_add_total x (lit "cname") cname m0 Hx ltac:(rewrite <- (bool_decide_eq_false (58 ∈ _)); reflexivity) eq_refl Hc Hm0) as H1.
  change (dec x ++ lit " cname:" ++ cname) with (dec x ++ 32 :: lit "cname" ++ 58 :: cname).
  destruct (parse_ssrc _) as [s1|e|]; [|exact I|done]. cbn [mbind outcome_bind] in H1 |- *. eapply total_bind; [exact H1|]. intros m1 (Hm1 & Hs1 & Hc1 & Hi1 & Hss1).
  rewrite Hn0 in Hss1. cbn [app] in Hss1. change (dec x ++ lit " msid:" ++ stream ++ lit " " ++ track_id_of mid) with (dec x ++ 32 :: lit "msid" ++ 58 :: (stream ++ lit " " ++ track_id_of mid)).
  eapply total_mono; [apply ssrc_add_total; [done| | | |done]|].
  - rewrite <- (bool_decide_eq_false (58 ∈ _)). reflexivity.
  - done.
  - apply utf8_valid_app; [done|]. apply utf8_valid_app; [done|]. apply utf8_valid_app; [done|by apply mid_utf8].
  - intros m2 (? & Hs2 & Hc2 & Hi2 & Hss2). split_and!; [done|by eapply same_trans, same_trans|congruence|congruence|by rewrite Hss2, Hss1].
Qed.

Lemma track_fbs_total fbs m : media_ok m → fbs_ok fbs → total (add_track_rtcp_fbs fbs m) (fills m).
Proof.
  intros Hm Hf. unfold add_track_rtcp_fbs. destruct (head (codecs m)); [|by apply fills_refl]. apply total_fail. intros _. by apply pt_fbs_total.
Qed.

Lemma defaults_extmaps d kind : defaults_ok d → Forall extmap_ok ((fun e => mkExtMap e.1 None (cut 128 e.2)) <$> (if kind =? 0 then audio_extmaps d else video_extmaps d)).
Proof.
  intros Hd. pose proof (de_extmaps _ Hd) as [Hv Ha]%Forall_app. apply Forall_fmap.
  assert (He : Forall (fun e => 1 ≤ e.1 < 2 ^ 8 ∧ e.2 ≠ []) (if kind =? 0 then audio_extmaps d else video_extmaps d)) by by destruct (kind =? 0).
  eapply Forall_impl; [exact He|]. intros [i u] [Hi Hu]. split; [done|]. cbn in *. unfold text_ok, cut. rewrite length_take. destruct u; [done|]. cbn [length]. lia.
Qed.

(** What the m-section of a track announces. *)
Definition announces (n : SdpNegotiator) (d : Defaults) (x kind : Z) (mid stream cname : str) (pt : Z) (m : MediaDescription) : Prop :=
  line_of n mid SendOnly m ∧ codecs m ≠ [] ∧ (∀ c, default_codec d kind = Some c → codecs m = [with_pt pt c]) ∧
  Media.msid m = Some (mkMsid stream (track_id_of mid)) ∧ ssrcs m = track_ssrcs x mid stream cname.

Definition picked (d : Defaults) (kind : Z) (used used' : list bool) (keep : bool) (pt : Z) : Prop :=
  match default_codec d kind with Some _ => picks used used' keep pt | None => pt = 0 ∧ used' = used end.

Lemma track_media_total n d count x kind mid stream cname fbs keep used : negotiator_ok n → defaults_ok d → mline_ok (Track x kind mid stream cname fbs keep) →
  codec_for n d kind → length used = 128%nat →
  total (track_media n d count x kind mid stream cname fbs keep used)
    (fun r => announces n d x kind mid stream cname r.1.2 r.1.1 ∧ picked d kind used r.2 keep r.1.2).
Proof.
  intros Hn Hd ([Hx H0] & Hmid & Hs & Hc & Hf) Hfor Hu. unfold track_media. apply total_assert; [by rewrite (proj2 (Z.eqb_neq x 0) H0)|].
  pose proof (offer_base_line n kind mid SendOnly Hn Hmid) as Hb. assert (Hnil : codecs (offer_base n kind mid SendOnly) = [] ∧ ssrcs (offer_base n kind mid SendOnly) = []) by done.
  revert Hb Hnil. generalize (offer_base n kind mid SendOnly) as b. intros b Hb [Hcb Hsb].
  eapply total_bind; [apply track_codec_total; [done|done|apply Hb|done..]|]. intros [[m1 pt] u] (Hm1 & Hs1 & Hss1 & _ & Hne & Hpick). rewrite Hsb in Hss1.
  cbv zeta. set (m2 := set_rtcp_rsize _ _). assert (Hm2 : media_ok m2) by (by field Hm1). assert (Hf2 : same_line m1 m2 ∧ codecs m2 = codecs m1 ∧ ssrcs m2 = ssrcs m1) by by split_and!.
  clearbody m2. destruct Hf2 as (Hs2 & Hc2 & Hss2). eapply total_bind; [by apply track_fbs_total|]. intros m3 Hf3.
  eapply total_bind; [apply copy_extmaps_total; [apply Hf3|by apply defaults_extmaps]|]. intros m4 Hf4. destruct (fills_trans _ _ _ Hf3 Hf4) as (Hm4 & Hs4 & Hc4 & Hss4 & _). clear Hf3 Hf4.
  eapply total_bind; [apply identity_total; [done..|congruence]|]. intros m5 (Hm5 & Hs5 & Hc5 & Hi5 & Hss5).
  eapply total_bind; [apply candidates_fills; [done|apply Hn]|]. intros m6 (Hm6 & Hs6 & Hc6 & Hss6 & Hi6).
  assert (Hcs : codecs m6 = codecs m1) by congruence. apply total_assert; [rewrite Hcs; by destruct (codecs m1)|]. cbn [total fst snd]. split.
  - split_and!; [|by rewrite Hcs| |congruence|congruence].
    + eapply line_same; [exact Hb| |done]. eapply same_trans; [exact Hs1|]. eapply same_trans; [exact Hs2|]. eapply same_trans; [exact Hs4|]. by eapply same_trans.
    + intros c Hdc. rewrite Hdc in Hpick. destruct Hpick. congruence.
  - unfold picked. by destruct (default_codec d kind); destruct Hpick.
Qed.

(** ** The m-lines of an offer

    [seen]: payload types in use before; [pts]: those given to the tracks. A
    track that need not keep its payload type gets one nobody used before. *)
Inductive offer_lines (n : SdpNegotiator) (d : Defaults) : list Z → list OfferMline → list MediaDescription → list Z → Prop :=
| ol_nil seen : offer_lines n d seen [] [] []
| ol_recycled seen r m l k pts :
    line_of n (r_mid r) (r_direction r) m → codecs m = take MAX_CODECS_PER_MEDIA (r_codecs r) →
    offer_lines n d seen l k pts → offer_lines n d seen (Recycled r :: l) (m :: k) pts
| ol_track seen x kind mid stream cname fbs keep m c l k pt pts :
    announces n d x kind mid stream cname pt m → default_codec d kind = Some c → pt_ok pt → (keep = false → pt ∉ seen) →
    offer_lines n d (pt :: seen) l k pts → offer_lines n d seen (Track x kind mid stream cname fbs keep :: l) (m :: k) (pt :: pts)
| ol_any seen x kind mid stream cname fbs keep m l k pts :
    announces n d x kind mid stream cname 0 m → default_codec d kind = None →
    offer_lines n d seen l k pts → offer_lines n d seen (Track x kind mid stream cname fbs keep :: l) (m :: k) (0 :: pts).

Definition mline_mid (l : OfferMline) : str := match l with Recycled r => r_mid r | Track _ _ mid _ _ _ _ => mid end.

Lemma offer_each_total n d count l : negotiator_ok n → defaults_ok d → ∀ s mids pts used seen, Forall mline_ok l → Forall (has_codec n d) l → length used = 128%nat →
  (∀ x, x ∈ seen → marked used x) → total (offer_each n d count l s mids pts used)
    (fun r => ∃ k ps, r = (set_media (media s ++ k) s, mids ++ (mline_mid <$> l), pts ++ ps) ∧ offer_lines n d seen l k ps).
Proof.
  intros Hn Hd. induction l as [|x l IH]; intros s mids pts used seen Hl Hh Hu Hseen; cbn [offer_each].
  { exists [], []. rewrite !app_nil_r. destruct s. split; [done|constructor]. }
  apply Forall_cons in Hl as [Hx Hl]. apply Forall_cons in Hh as [Hhx Hh]. destruct x as [r|x kind mid stream cname fbs keep].
  - eapply total_bind; [apply recycled_total; [done|apply Hd|done]|]. intros m [Hm Hc]. unfold add_media. destruct (bool_decide _); [exact I|]. cbn [fail_if mbind outcome_bind].
    eapply total_mono; [by apply (IH _ _ _ _ seen)|]. intros res (k & ps & -> & Hk). exists (m :: k), ps. cbn. rewrite <- !app_assoc. split; [done|by constructor].
  - eapply total_bind; [by apply track_media_total|]. intros [[m pt] u] [Ha Hp]. cbn [fst snd] in *. unfold add_media. destruct (bool_decide _); [exact I|]. cbn [fail_if mbind outcome_bind].
    unfold picked in Hp. destruct (default_codec d kind) as [c|] eqn:Ec.
    + destruct Hp as (Hpt & (Hlen & Hkeep & Hnew) & Hfresh). eapply total_mono; [apply (IH _ _ _ _ (pt :: seen)); [done..|]|].
      * intros y [->|Hy]%elem_of_cons; [apply Hnew; by apply list_elem_of_singleton|auto].
      * intros res (k & ps & -> & Hk). exists (m :: k), (pt :: ps). cbn. rewrite <- !app_assoc. split; [done|]. eapply ol_track; eauto.
        intros Hkf Hin. by apply Hfresh, Hseen.
    + destruct Hp as [-> ->]. eapply total_mono; [by apply (IH _ _ _ _ seen)|]. intros res (k & ps & -> & Hk). exists (m :: k), (0 :: ps). cbn. rewrite <- !app_assoc. split; [done|by apply ol_any].
Qed.

Lemma offer_lines_ok n d seen l k pts : offer_lines n d seen l k pts → Forall media_ok k.
Proof. induction 1 as [|????????? IH|?????????????? Ha ? ? ? ? IH|???????????? Ha ? ? IH]; constructor; try done; [by match goal with H : line_of _ _ _ _ |- _ => apply H end|apply Ha..]. Qed.

Lemma ordered_offer_total n d id v l : negotiator_ok n → defaults_ok d → l ≠ [] → Forall mline_ok l → Forall (has_codec n d) l →
  total (create_ordered_offer n id v l d) (fun r => ∃ s, Printer.print s = Ok r.1 ∧ offer_lines n d (recycled_pts l) l (media s) r.2 ∧
    bundle_group s = join (lit " ") (mline_mid <$> l) ∧ session_id (origin s) = id ∧ session_version (origin s) = v).
Proof.
  intros Hn Hd Hne Hl Hh. unfold create_ordered_offer. apply total_assert; [by rewrite bool_decide_eq_false_2|]. apply total_fail. intros _. cbv zeta.
  eapply total_bind; [by apply mark_recycled_total|]. intros used (Hu & _ & Hm). set (s0 := set_ice_lite _ _).
  assert (Hs0 : media s0 = [] ∧ session_id (origin s0) = id ∧ session_version (origin s0) = v) by done. clearbody s0. destruct Hs0 as (Hmd & Hid & Hv).
  eapply total_bind; [by apply (offer_each_total n d (length l) l Hn Hd s0 [] [] used (recycled_pts l))|]. intros r (k & ps & -> & Hk). cbn [app].
  rewrite bool_decide_eq_false_2 by by destruct l. unfold set_bundle. destruct (bool_decide _); [exact I|]. cbn [fail_if mbind outcome_bind].
  destruct (List.find _ _); [exact I|]. unfold set_bundle_value. destruct (bool_decide _); [exact I|]. cbn [fail_if mbind outcome_bind]. rewrite Hmd. cbn [app].
  set (s := set_bundle_group _ _). assert (Hs : media s = k ∧ bundle_group s = join (lit " ") (mline_mid <$> l) ∧ session_id (origin s) = id ∧ session_version (origin s) = v) by by split_and!.
  clearbody s. destruct Hs as (Hms & Hbs & His & Hvs). pose proof (print_total s) as Hp. rewrite Hms in Hp. specialize (Hp (offer_lines_ok _ _ _ _ _ _ Hk)).
  destruct (Printer.print s) as [t|e|] eqn:Et; [|exact I|done]. cbn [mbind outcome_bind]. cbn in Hp. rewrite bool_decide_eq_false_2 by done.
  exists s. rewrite Hms. by split_and!.
Qed.

End Offers.
