(* ===== verification/SdpDocument.v ===== *)
(** * Documents read back

    [SdpParser::parse] of what [SdpPrinter::print] wrote is the description
    that was printed, for every description the parser accepts whose texts
    are visible ASCII without the separators of their lines. *)

From stdpp Require Import strings.
From S2P Require Import Prelude Model Transports SdpParams SdpText SdpModel SdpParser SdpSafe SdpRound.

Module SdpDocument.
Import Text TextProofs TextRound Sdp SdpTypes Attributes Media Session SdpSafe SdpRound SdpParser.

#[local] Arguments parse_uint : simpl never.
#[local] Arguments dec : simpl never.
#[local] Arguments cut : simpl never.

(** ** One line *)

(** A line [c=v] of visible text. *)
Lemma line_value c v n p : graphic c → tidy v →
  parse_line (c :: 61 :: v) n p =
  (if c =? 118 then parse_version v n p
   else if c =? 111 then o ← parse_origin v n; Ok (mkPState (set_origin o (session p)) (current_media p) (has_version p) true)
   else if c =? 115 then Ok (set_session (set_name v (session p)) p)
   else if c =? 116 then t ← parse_timing v n; Ok (set_session (set_timing t (session p)) p)
   else if c =? 109 then parse_media_section v n p
   else if c =? 97 then parse_attribute v p
   else Ok p).
Proof.
  intros Hc Hv. unfold parse_line. assert (Ht : tidy (c :: 61 :: v)) by (apply (tidy_graphic_app [c; 61]); [each; unfold graphic; lia|done]). rewrite trim_tidy by done. cbv zeta.
  rewrite (bool_decide_eq_false_2 (_ = [])) by done. cbn [length]. rewrite bool_decide_eq_false_2 by lia. fields. unfold graphic in Hc. rewrite (proj2 (Z.ltb_lt c 128)) by lia. cbn [negb]. fields. cbn [Z.eqb Pos.eqb negb fail_if mbind outcome_bind]. fields.
  rewrite (str_from_eq 1 _ 61); [done|by apply utf8_synced, tidy_utf8|done|lia].
Qed.

(** The attributes that are complete without a value. *)
Definition flags : list string := ["ice-lite"; "sendrecv"; "sendonly"; "recvonly"; "inactive"; "rtcp-mux"; "rtcp-rsize"; "rtcp-mux-only"; "extmap-allow-mixed"; "end-of-candidates"].

Definition plain_name (s : string) : bool :=
  bool_decide (Forall graphic (lit s)) && bool_decide (58 ∉ lit s) && forallb (fun k => negb (is_name (lit s) k)) flags.

Lemma attr_line s v n p : plain_name s = true → tidy v → parse_line (attr s v) n p = valued_attribute (lit s) v p.
Proof.
  intros [[Hg%bool_decide_eq_true H58%bool_decide_eq_true]%andb_true_iff Hf]%andb_true_iff Hv. unfold attr. change (lit "a=" ++ lit s ++ lit ":" ++ v) with (97 :: 61 :: lit s ++ 58 :: v).
  rewrite line_value; [|unfold graphic; lia|apply tidy_graphic_app; [done|apply (tidy_graphic_app [58]); [each; unfold graphic; lia|done]]].
  cbn [Z.eqb Pos.eqb]. unfold parse_attribute, split_attribute. rewrite find_app by done. rewrite str_to_app by lia. cbn [mbind outcome_bind].
  rewrite str_from_app; [|apply utf8_synced, utf8_valid_app; [by apply visible_utf8, graphic_visible|exact (tidy_utf8 _ Hv)]|lia]. cbn [mbind outcome_bind].
  unfold flags in Hf. cbn [forallb] in Hf. repeat (apply andb_true_iff in Hf as [?%negb_true_iff Hf]).
  repeat match goal with H : is_name (lit s) _ = false |- _ => rewrite H; clear H end. done.
Qed.

Lemma attr_visible s v : plain_name s = true → tidy v → Forall visible (attr s v).
Proof.
  intros [[Hg%bool_decide_eq_true _]%andb_true_iff _]%andb_true_iff [Hv _]. unfold attr. repeat (apply Forall_app; split); [closed|by apply graphic_visible|closed|done].
Qed.

Lemma flag_visible s : bool_decide (Forall graphic (lit s)) && bool_decide (58 ∉ lit s) = true → Forall visible (flag s).
Proof. intros [Hg%bool_decide_eq_true _]%andb_true_iff. unfold flag. apply Forall_app. split; [closed|by apply graphic_visible]. Qed.

Lemma flag_line s n p : bool_decide (Forall graphic (lit s)) && bool_decide (58 ∉ lit s) = true → parse_line (flag s) n p = parse_attribute (lit s) p.
Proof.
  intros [Hg%bool_decide_eq_true _]%andb_true_iff. unfold flag. change (lit "a=" ++ lit s) with (97 :: 61 :: lit s). by rewrite line_value; [|unfold graphic; lia|apply graphic_tidy].
Qed.

(** ** Runs of lines *)

(** The lines are visible text, and reading them takes the open m-section from
    [m] to [m']. *)
Definition steps (ls : list str) (m m' : MediaDescription) : Prop := Forall (Forall visible) ls ∧
  ∀ n p, current_media p = Some m → (n + length ls ≤ Z.to_nat 10000)%nat → parse_lines n ls p = Ok (set_current (Some m') p).

Lemma steps_nil m : steps [] m m.
Proof. split; [constructor|]. intros n p Hp _. cbn. destruct p. cbn in *. by subst. Qed.

Lemma parse_lines_app n a b p : parse_lines n (a ++ b) p = p' ← parse_lines n a p; parse_lines (n + length a) b p'.
Proof.
  revert n p. induction a as [|l a IH]; intros n p; cbn [app parse_lines length]; [by rewrite Nat.add_0_r|]. cbv zeta.
  destruct (fail_if _ _) as [[]| |]; cbn [mbind outcome_bind]; [|done..]. destruct (parse_line l (S n) p) as [p'| |]; cbn [mbind outcome_bind]; [|done..]. rewrite IH. by rewrite Nat.add_succ_r.
Qed.

Lemma steps_app a b m m1 m2 : steps a m m1 → steps b m1 m2 → steps (a ++ b) m m2.
Proof.
  intros [Hva Ha] [Hvb Hb]. split; [by apply Forall_app|]. intros n p Hp Hn. rewrite length_app in Hn. rewrite parse_lines_app, Ha by (done || lia). cbn [mbind outcome_bind]. rewrite Hb by (done || lia). by destruct p.
Qed.

Lemma steps_one l m m' : Forall visible l → (∀ n p, current_media p = Some m → parse_line l n p = Ok (set_current (Some m') p)) → steps [l] m m'.
Proof.
  intros Hv Hl. split; [each|]. intros n p Hp Hn. cbn [parse_lines length] in *. cbv zeta. rewrite (proj2 (Z.ltb_ge 10000 _)) by lia. cbn [fail_if mbind outcome_bind]. by rewrite Hl.
Qed.

Lemma steps_cons l ls m m1 m2 : steps [l] m m1 → steps ls m1 m2 → steps (l :: ls) m m2.
Proof. apply (steps_app [l]). Qed.

Lemma steps_eq ls m m1 m2 : steps ls m m1 → m1 = m2 → steps ls m m2.
Proof. by intros ? <-. Qed.

(** One line per entry of a list. *)
Lemma steps_list {A} (line : A → str) (get : MediaDescription → list A) (put : list A → MediaDescription → MediaDescription) (P : A → Prop) (cap : nat) :
  (∀ x m, P x → (length (get m) < cap)%nat → steps [line x] m (put (get m ++ [x]) m)) → (∀ l m, get (put l m) = l) → (∀ l k m, put l (put k m) = put l m) → (∀ m, put (get m) m = m) →
  ∀ l m, Forall P l → (length (get m) + length l ≤ cap)%nat → steps (line <$> l) m (put (get m ++ l) m).
Proof.
  intros Hstep Hget Hput Hid. induction l as [|x l IH]; intros m Hl Hn; [rewrite app_nil_r, Hid; apply steps_nil|]. apply Forall_cons in Hl as [Hx Hl]. cbn [length] in Hn.
  eapply steps_cons; [apply Hstep; [done|lia]|]. assert (Hput' : put (get m ++ x :: l) m = put (get (put (get m ++ [x]) m) ++ l) (put (get m ++ [x]) m)) by (by rewrite Hget, Hput, <- app_assoc).
  rewrite Hput'. apply IH; [done|]. rewrite Hget, length_app. cbn [length]. lia.
Qed.

(** Resolves the choice of an attribute by its name. *)
Ltac named := repeat match goal with |- context [is_name (lit ?a) ?b] => let r := eval vm_compute in (is_name (lit a) b) in change (is_name (lit a) b) with r; cbv iota end.

Lemma step_valued s v m m' : plain_name s = true → tidy v →
  (∀ p, current_media p = Some m → valued_attribute (lit s) v p = Ok (set_current (Some m') p)) → steps [attr s v] m m'.
Proof. intros Hs Hv Hp. apply steps_one; [by apply attr_visible|]. intros n p Hc. rewrite attr_line by done. by apply Hp. Qed.

Lemma try_media f m m' p : current_media p = Some m → f m = Ok m' → on_media_try f p = Ok (set_current (Some m') p).
Proof. intros Hp Hf. unfold on_media_try. rewrite Hp, Hf. done. Qed.

Lemma on_some f m p : current_media p = Some m → on_media f p = set_current (Some (f m)) p.
Proof. intros Hp. unfold on_media. by rewrite Hp. Qed.

Lemma level_some fm fs m p : current_media p = Some m → on_level fm fs p = set_current (Some (fm m)) p.
Proof. intros Hp. unfold on_level. by rewrite Hp. Qed.

(** ** Entries *)

Ltac valued := apply step_valued; [vm_compute; reflexivity| |intros p Hp; unfold valued_attribute; named].

Lemma rtpmap_step c m : codec_plain c → (length (codecs m) < MAX_CODECS_PER_MEDIA)%nat →
  steps [attr "rtpmap" (codec_to_sdp c)] m (set_codecs (codecs m ++ [c]) (if bool_decide (length (formats m) < MAX_FORMATS)%nat then set_formats (formats m ++ [payload_type c]) m else m)).
Proof.
  intros Hc Hm. destruct (codec_text c Hc) as [He Ht]. valued; [done|]. apply try_media with m; [done|]. rewrite He. unfold attr_rtpmap. rewrite find_app by (apply dec_no; lia).
  rewrite str_to_app by lia. cbn [mbind outcome_bind]. pose proof Hc as ([Hpt _ _ _] & _ & _). unfold pt_ok in Hpt. rewrite parse_dec by (lia || (split; cbn; lia)).
  rewrite str_from_app; [|apply utf8_synced, utf8_valid_app; [apply dec_utf8|by apply (utf8_valid_app [32]), visible_utf8, graphic_visible, codec_value_graphic]|lia].
  cbn [mbind outcome_bind]. rewrite codec_round by done. unfold add_codec. rewrite (bool_decide_eq_false_2 (MAX_CODECS_PER_MEDIA ≤ _)%nat) by lia. cbn [fail_if mbind outcome_bind or_else]. by case_bool_decide.
Qed.

(** The codecs, whose payload types also go into the format list. *)
Lemma rtpmap_steps l : ∀ m, Forall codec_plain l → (length (codecs m) + length l ≤ MAX_CODECS_PER_MEDIA)%nat → (length (formats m) ≤ MAX_FORMATS)%nat →
  steps ((fun c => attr "rtpmap" (codec_to_sdp c)) <$> l) m (set_codecs (codecs m ++ l) (set_formats (take MAX_FORMATS (formats m ++ (payload_type <$> l))) m)).
Proof.
  induction l as [|c l IH]; intros m Hl Hn Hf; [rewrite !app_nil_r, take_ge by done; destruct m; apply steps_nil|]. apply Forall_cons in Hl as [Hc Hl]. cbn [length] in Hn.
  eapply steps_cons; [apply rtpmap_step; [done|lia]|]. case_bool_decide as Hb.
  - eapply steps_eq; [apply IH; [done|cbn [set_codecs set_formats codecs formats]; rewrite length_app; cbn [length]; lia..]|].
    cbn [set_codecs set_formats codecs formats fmap list_fmap]. rewrite <- !app_assoc. done.
  - eapply steps_eq; [apply IH; [done|cbn [set_codecs codecs]; rewrite length_app; cbn [length]; lia|done]|].
    cbn [set_codecs set_formats codecs formats]. rewrite <- !app_assoc. by rewrite !take_app_le by lia.
Qed.

Lemma fmtp_steps l m : Forall fmtp_plain l → (length (fmtps m) + length l ≤ MAX_CODECS_PER_MEDIA)%nat → steps (fmtp_line <$> l) m (set_fmtps (fmtps m ++ l) m).
Proof.
  apply (steps_list fmtp_line fmtps set_fmtps); [|done|done|by intros []]. intros f m' Hf Hn. destruct (fmtp_round f Hf) as (Hr & Ht & ->). valued; [done|]. apply try_media with m'; [done|].
  unfold attr_fmtp. rewrite Hr. by rewrite bool_decide_eq_true_2 by done.
Qed.

Lemma extmap_steps l m : Forall extmap_plain l → (length (extmaps m) + length l ≤ MAX_EXTMAPS_PER_MEDIA)%nat → steps (Printer.print_extmap <$> l) m (set_extmaps (extmaps m ++ l) m).
Proof.
  apply (steps_list Printer.print_extmap extmaps set_extmaps); [|done|done|by intros []]. intros e m' He Hn. destruct (extmap_line_text e He) as (-> & Ht). valued; [done|].
  apply try_media with m'; [done|]. by apply extmap_round.
Qed.

Lemma group_steps l m : Forall group_plain l → (length (ssrc_groups m) + length l ≤ MAX_SSRC_GROUPS_PER_MEDIA)%nat →
  steps (Printer.print_ssrc_group <$> l) m (set_ssrc_groups (ssrc_groups m ++ l) m).
Proof.
  apply (steps_list Printer.print_ssrc_group ssrc_groups set_ssrc_groups); [|done|done|by intros []]. intros g m' Hg Hn. destruct (group_line_text g Hg) as (-> & Ht). valued; [by apply join_tidy|].
  apply try_media with m'; [done|]. by apply group_round.
Qed.

Lemma feedback_steps l m : Forall feedback_plain l → (length (rtcp_fbs m) + length l ≤ MAX_RTCP_FB_PER_MEDIA)%nat →
  steps ((fun f => attr "rtcp-fb" (feedback_to_sdp f)) <$> l) m (set_rtcp_fbs (rtcp_fbs m ++ l) m).
Proof.
  apply (steps_list (fun f => attr "rtcp-fb" (feedback_to_sdp f)) rtcp_fbs set_rtcp_fbs); [|done|done|by intros []]. intros f m' Hf Hn. valued; [by apply feedback_text|].
  apply try_media with m'; [done|]. unfold attr_rtcp_fb. rewrite feedback_round by done. unfold add_rtcp_fb. by rewrite bool_decide_eq_false_2 by lia.
Qed.

Lemma rid_steps l m : Forall rid_plain l → (length (rids m) + length l ≤ MAX_RIDS_PER_MEDIA)%nat → steps (Printer.print_rid <$> l) m (set_rids (rids m ++ l) m).
Proof.
  apply (steps_list Printer.print_rid rids set_rids); [|done|done|by intros []]. intros r m' Hr Hn. destruct (rid_line_text r Hr) as (-> & Ht). valued; [done|]. apply try_media with m'; [done|]. by apply rid_round.
Qed.

Lemma candidate_steps l m : Forall candidate_plain l → (length (candidates m) + length l ≤ MAX_CANDIDATES_PER_MEDIA)%nat →
  steps ((fun c => attr "candidate" (candidate_to_sdp c)) <$> l) m (set_candidates (candidates m ++ l) m).
Proof.
  apply (steps_list (fun c => attr "candidate" (candidate_to_sdp c)) candidates set_candidates); [|done|done|by intros []]. intros c m' Hc Hn.
  valued; [destruct (candidate_text c Hc) as [-> Ht]; by apply join_tidy|]. apply try_media with m'; [done|].
  unfold attr_candidate. rewrite candidate_round by done. unfold add_candidate. rewrite bool_decide_eq_false_2 by lia. done.
Qed.

(** The SSRCs, without repetition, in the order of their lines. *)
Definition note_ssrc (values : list Z) (s : SsrcInfo) : list Z := if bool_decide (ssrc s ∈ values) then values else values ++ [ssrc s].

Lemma ssrc_step s m : ssrc_plain s → (length (ssrcs m) < MAX_SSRCS_PER_MEDIA)%nat → (length (ssrc_values m) ≤ length (ssrcs m))%nat →
  steps [ssrc_line s] m (set_ssrcs (ssrcs m ++ [s]) (set_ssrc_values (note_ssrc (ssrc_values m) s) m)).
Proof.
  intros Hs Hn Hv. destruct (ssrc_line_round s Hs) as (Hr & Ht & ->). valued; [done|]. apply try_media with m; [done|]. unfold attr_ssrc. rewrite Hr. cbn [mbind outcome_bind].
  unfold add_ssrc. rewrite (bool_decide_eq_false_2 (MAX_SSRCS_PER_MEDIA ≤ _)%nat) by lia. rewrite (bool_decide_eq_true_2 (_ < _)%nat) by lia. cbn [andb fail_if mbind outcome_bind or_else].
  unfold note_ssrc. case_bool_decide; cbn [negb]; by destruct m.
Qed.

Lemma ssrc_steps l : ∀ m, Forall ssrc_plain l → (length (ssrcs m) + length l ≤ MAX_SSRCS_PER_MEDIA)%nat → (length (ssrc_values m) ≤ length (ssrcs m))%nat →
  steps (ssrc_line <$> l) m (set_ssrcs (ssrcs m ++ l) (set_ssrc_values (foldl note_ssrc (ssrc_values m) l) m)).
Proof.
  induction l as [|s l IH]; intros m Hl Hn Hv; [rewrite app_nil_r; destruct m; apply steps_nil|]. apply Forall_cons in Hl as [Hs Hl]. cbn [length] in Hn.
  eapply steps_cons; [apply ssrc_step; [done|lia|lia]|].
  eapply steps_eq; [apply IH; [done|cbn [set_ssrcs set_ssrc_values ssrcs]; rewrite length_app; cbn [length]; lia|]|].
  - cbn [set_ssrcs set_ssrc_values ssrcs ssrc_values]. rewrite length_app. cbn [length]. unfold note_ssrc. case_bool_decide; [lia|]. rewrite length_app. cbn [length]. lia.
  - cbn [set_ssrcs set_ssrc_values ssrcs ssrc_values foldl]. by rewrite <- app_assoc.
Qed.

(** ** Lines that may be there *)

Lemma opt_steps {A} (line : A → str) (put : option A → MediaDescription → MediaDescription) o m :
  (∀ x, o = Some x → steps [line x] m (put (Some x) m)) → put None m = m → steps (opt_line line o) m (put o m).
Proof. intros Hs Hn. destruct o as [x|]; [by apply Hs|]. rewrite Hn. apply steps_nil. Qed.

Lemma bool_steps (line : str) (put : bool → MediaDescription → MediaDescription) b m :
  steps [line] m (put true m) → put false m = m → steps (bool_line b line) m (put b m).
Proof. intros Hs Hn. destruct b; [done|]. rewrite Hn. apply steps_nil. Qed.

Lemma ice_graphic s : ice_ok s → Forall graphic s.
Proof.
  intros [_ H]. apply Forall_forall. intros b Hb%list_elem_of_In. unfold is_ice_chars in H. rewrite forallb_forall in H. specialize (H b Hb). unfold is_alnum in H. unfold graphic. lia.
Qed.

Lemma mid_graphic s : mid_ok s → Forall graphic s.
Proof.
  intros [_ H]. apply Forall_forall. intros b Hb%list_elem_of_In. rewrite forallb_forall in H. specialize (H b Hb). unfold is_token_char in H. unfold graphic. lia.
Qed.

Lemma as_str_graphic s : Forall graphic s → as_str s = s.
Proof. intros H. unfold as_str. by apply from_utf8_visible, graphic_visible. Qed.

Lemma ice_round s n : ice_ok s → parse_ice_value n s = Ok s.
Proof.
  intros [[Hl1 Hl2] Hc]. unfold parse_ice_value. rewrite (bool_decide_eq_false_2 (s = [])) by (intros ->; cbn in Hl1; lia). rewrite bool_decide_eq_false_2 by lia. by rewrite Hc.
Qed.

Lemma mid_round s : mid_ok s → mid_parse s = Ok s.
Proof.
  intros [[Hl1 Hl2] Hc]. unfold mid_parse. rewrite (bool_decide_eq_false_2 (s = [])) by (intros ->; cbn in Hl1; lia). rewrite bool_decide_eq_false_2 by lia. rewrite Hc. cbn. unfold mid_new. by rewrite cut_id by (split; lia).
Qed.

Lemma ufrag_steps o m : some_is ice_ok o → ice_ufrag m = None → steps (opt_line (fun u => attr "ice-ufrag" (as_str u)) o) m (set_ice_ufrag o m).
Proof.
  intros Ho Hm. apply opt_steps; [|destruct m; cbn in *; by subst]. intros x ->. cbn in Ho. pose proof (ice_graphic x Ho). rewrite as_str_graphic by done.
  valued; [by apply graphic_tidy|]. rewrite ice_round by done. cbn [mbind outcome_bind]. by rewrite (level_some _ _ m).
Qed.

Lemma pwd_steps o m : some_is ice_ok o → ice_pwd m = None → steps (opt_line (fun u => attr "ice-pwd" (as_str u)) o) m (set_ice_pwd o m).
Proof.
  intros Ho Hm. apply opt_steps; [|destruct m; cbn in *; by subst]. intros x ->. cbn in Ho. pose proof (ice_graphic x Ho). rewrite as_str_graphic by done.
  valued; [by apply graphic_tidy|]. rewrite ice_round by done. cbn [mbind outcome_bind]. by rewrite (level_some _ _ m).
Qed.

Lemma trickle_steps b m : trickle m = false → steps (bool_line b (attr "ice-options" (lit "trickle"))) m (set_trickle b m).
Proof.
  intros Hm. apply bool_steps; [|destruct m; cbn in *; by subst]. valued; [apply graphic_tidy; closed|]. rewrite (on_some _ m) by done. done.
Qed.

Lemma fingerprint_steps o m : some_is fingerprint_ok o → fingerprint m = None → steps (opt_line (fun f => attr "fingerprint" (fingerprint_to_sdp f)) o) m (set_fingerprint o m).
Proof.
  intros Ho Hm. apply opt_steps; [|destruct m; cbn in *; by subst]. intros x ->. cbn in Ho. valued; [by apply fingerprint_tidy|]. unfold attr_fingerprint. rewrite fingerprint_round by done.
  rewrite (level_some _ _ m) by done. cbn [keep_preferred_fingerprint]. by rewrite Hm.
Qed.

Lemma setup_token x : parse_setup (setup_str x) = Some x ∧ Forall graphic (setup_str x).
Proof. destruct x; (split; [vm_compute; reflexivity|closed]). Qed.

Lemma setup_steps o m : setup m = None → steps (opt_line (fun s => attr "setup" (setup_str s)) o) m (set_setup o m).
Proof.
  intros Hm. apply opt_steps; [|destruct m; cbn in *; by subst]. intros x ->. destruct (setup_token x) as [Hx Hg]. valued; [by apply graphic_tidy|]. unfold attr_setup. rewrite Hx. cbn [of_option mbind outcome_bind].
  by rewrite (level_some _ _ m).
Qed.

Lemma mid_steps o m : some_is mid_ok o → mid m = None → steps (opt_line (fun x => attr "mid" (as_str x)) o) m (set_mid o m).
Proof.
  intros Ho Hm. apply opt_steps; [|destruct m; cbn in *; by subst]. intros x ->. cbn in Ho. pose proof (mid_graphic x Ho). rewrite as_str_graphic by done.
  valued; [by apply graphic_tidy|]. apply try_media with m; [done|]. by rewrite mid_round.
Qed.

Lemma simulcast_steps o m : some_is (fun v => text_ok 0 256 v ∧ tidy v) o → simulcast m = None →
  steps (opt_line (fun v => attr "simulcast" (from_utf8_or [] v)) o) m (set_simulcast o m).
Proof.
  intros Ho Hm. apply opt_steps; [|destruct m; cbn in *; by subst]. intros x ->. destruct Ho as [Hl Ht]. rewrite from_utf8_visible by apply Ht. valued; [done|]. rewrite (on_some _ m) by done. by rewrite cut_id.
Qed.

Lemma msid_steps o m : some_is msid_plain o → msid m = None → steps (opt_line Printer.print_msid o) m (set_msid o m).
Proof.
  intros Ho Hm. apply opt_steps; [|destruct m; cbn in *; by subst]. intros x ->. cbn in Ho. destruct (msid_line_text x Ho) as (-> & Ht). valued; [done|]. apply try_media with m; [done|]. by apply msid_round.
Qed.

(** ** Flags *)

Lemma flag_step s m m' : bool_decide (Forall graphic (lit s)) && bool_decide (58 ∉ lit s) = true →
  (∀ p, current_media p = Some m → parse_attribute (lit s) p = Ok (set_current (Some m') p)) → steps [flag s] m m'.
Proof. intros Hs Hp. apply steps_one; [by apply flag_visible|]. intros n p Hc. rewrite flag_line by done. by apply Hp. Qed.

Lemma no_colon s : bool_decide (58 ∉ s) = true → split_attribute s = Ok (s, None).
Proof. intros H%bool_decide_eq_true. unfold split_attribute. by rewrite find_none. Qed.

Ltac flagged m := apply flag_step; [vm_compute; reflexivity|intros p Hp; unfold parse_attribute; rewrite no_colon by (vm_compute; reflexivity); cbn [mbind outcome_bind]; named; by rewrite (on_some _ m)].

Lemma direction_step d m : steps [lit "a=" ++ direction_str d] m (set_direction d m).
Proof. destruct d; [change (lit "a=" ++ _) with (flag "sendrecv")|change (lit "a=" ++ _) with (flag "sendonly")|change (lit "a=" ++ _) with (flag "recvonly")|change (lit "a=" ++ _) with (flag "inactive")]; flagged m. Qed.

Lemma mux_steps b m : rtcp_mux m = true → steps (bool_line b (flag "rtcp-mux")) m m.
Proof.
  intros Hm. destruct b; [|apply steps_nil]. eapply steps_eq; [|instantiate (1 := set_rtcp_mux true m); destruct m; cbn in *; by subst]. flagged m.
Qed.

Lemma mux_only_steps b m : rtcp_mux m = true → rtcp_mux_only m = false → steps (bool_line b (flag "rtcp-mux-only")) m (set_rtcp_mux_only b m).
Proof.
  intros Hm Ho. apply bool_steps; [|destruct m; cbn in *; by subst]. eapply steps_eq; [|instantiate (1 := set_rtcp_mux true (set_rtcp_mux_only true m)); destruct m; cbn in *; by subst]. flagged m.
Qed.

Lemma rsize_steps b m : rtcp_rsize m = false → steps (bool_line b (flag "rtcp-rsize")) m (set_rtcp_rsize b m).
Proof. intros Hm. apply bool_steps; [|destruct m; cbn in *; by subst]. flagged m. Qed.

Lemma mixed_steps b m : extmap_allow_mixed m = false → steps (bool_line b (flag "extmap-allow-mixed")) m (set_extmap_allow_mixed b m).
Proof. intros Hm. apply bool_steps; [|destruct m; cbn in *; by subst]. flagged m. Qed.

Lemma end_steps b m : end_of_candidates m = false → steps (bool_line b (flag "end-of-candidates")) m (set_end_of_candidates b m).
Proof. intros Hm. apply bool_steps; [|destruct m; cbn in *; by subst]. flagged m. Qed.

(** The connection line is not read. *)
Lemma connection_steps k m : some_is token (connection k) → steps [connection_line k] m m.
Proof.
  intros Hk. unfold connection_line. assert (Hline : ∀ a, token a → steps [lit "c=IN IP4 " ++ a] m m).
  { intros a Ha. change (lit "c=IN IP4 " ++ a) with (99 :: 61 :: join (lit " ") [lit "IN"; lit "IP4"; a]).
    assert (Ht : tidy (join (lit " ") [lit "IN"; lit "IP4"; a])) by (apply join_tidy; each; closed).
    apply steps_one; [do 2 (apply Forall_cons_2; [unfold visible; lia|]); apply Ht|]. intros n p Hp.
    rewrite line_value; [|unfold graphic; lia|done]. cbn [Z.eqb Pos.eqb]. destruct p; cbn in *. by subst. }
  destruct (connection k) as [a|]; [|by apply (Hline (lit "0.0.0.0")); closed].
  cbn [some_is] in Hk. rewrite from_utf8_visible by apply graphic_visible, Hk. by apply Hline.
Qed.

(** ** The m-section *)

(** A section within the capacities ([media_ok], which includes [rtcp_mux])
    whose texts are visible ASCII without the separators of their lines, whose
    connection address, if any, is a word, whose SSRC list is that of its
    [ssrc] lines, and whose candidates have IPv4 addresses. *)
Record media_plain (m : MediaDescription) : Prop := {
  mp_ok : media_ok m;
  mp_connection : some_is token (connection m);
  mp_codecs : Forall codec_plain (codecs m);
  mp_fmtps : Forall fmtp_plain (fmtps m);
  mp_extmaps : Forall extmap_plain (extmaps m);
  mp_ssrcs : Forall ssrc_plain (ssrcs m);
  mp_values : ssrc_values m = foldl note_ssrc [] (ssrcs m);
  mp_groups : Forall group_plain (ssrc_groups m);
  mp_fbs : Forall feedback_plain (rtcp_fbs m);
  mp_rids : Forall rid_plain (rids m);
  mp_simulcast : some_is tidy (simulcast m);
  mp_msid : some_is msid_plain (msid m);
  mp_candidates : Forall candidate_plain (candidates m);
}.

(** A section without what the parser never reads: the connection address and
    the number of ports. *)
Definition forget (m : MediaDescription) : MediaDescription :=
  mkMedia (media_type m) (port m) 1 (protocol m) (formats m) None (ice_ufrag m) (ice_pwd m) (trickle m) (candidates m) (fingerprint m) (setup m)
    (direction m) (mid m) (codecs m) (fmtps m) (ssrcs m) (ssrc_values m) (extmaps m) (rtcp_fbs m) (ssrc_groups m) (rids m) (simulcast m) (msid m)
    (rtcp_mux m) (rtcp_rsize m) (rtcp_mux_only m) (extmap_allow_mixed m) (end_of_candidates m).

(** The formats of the m-line come first, the payload types of the [rtpmap]
    lines are appended. *)
Definition reread (m : MediaDescription) : MediaDescription :=
  set_formats (take MAX_FORMATS (Printer.print_formats m ++ (payload_type <$> codecs m))) (forget m).

(** The m-line names a format. *)
Definition has_formats (m : MediaDescription) : Prop := Printer.print_formats m ≠ [].

Lemma formats_round l : ∀ m, Forall pt_ok l → (length (formats m) + length l ≤ MAX_FORMATS)%nat → parse_formats (dec <$> l) m = set_formats (formats m ++ l) m.
Proof.
  induction l as [|x l IH]; intros m Hl Hn; cbn [fmap list_fmap parse_formats]; [rewrite app_nil_r; by destruct m|]. apply Forall_cons in Hl as [Hx Hl]. cbn [length] in Hn. unfold pt_ok in Hx.
  rewrite bool_decide_eq_false_2 by lia. rewrite parse_dec by (lia || (split; cbn; lia)). rewrite (proj2 (Z.leb_le x 127)) by lia. rewrite IH; [|done|cbn [set_formats formats]; rewrite length_app; cbn [length]; lia].
  cbn [set_formats formats]. by rewrite <- app_assoc.
Qed.

Lemma media_type_token t : parse_media_type (media_type_str t) = Some t ∧ token (media_type_str t).
Proof. destruct t; (split; [vm_compute; reflexivity|closed]). Qed.

Lemma protocol_token t : parse_protocol (protocol_str t) = Some t ∧ token (protocol_str t).
Proof. destruct t; (split; [vm_compute; reflexivity|closed]). Qed.

Lemma print_formats_ok m : media_ok m → bounded MAX_FORMATS pt_ok (Printer.print_formats m).
Proof.
  intros Hm. unfold Printer.print_formats. case_bool_decide; [|apply Hm]. destruct (mo_codecs _ Hm) as [Hl Hc]. split.
  - rewrite length_fmap. unfold MAX_CODECS_PER_MEDIA, MAX_FORMATS in *. lia.
  - apply Forall_fmap. eapply Forall_impl; [exact Hc|]. intros c Hk. apply Hk.
Qed.

Lemma dec_tokens l : Forall token (dec <$> l).
Proof. apply Forall_fmap, Forall_true. intros x. apply dec_token. Qed.

(** The m-line opens a section. *)
Lemma m_line_reads m n : media_plain m → has_formats m → ∃ v, m_line m (Printer.print_formats m) = 109 :: 61 :: v ∧ tidy v ∧
  parse_media_line v n = Ok (set_formats (Printer.print_formats m) (media_new (media_type m) (port m) (protocol m))).
Proof.
  intros Hp Hne. unfold has_formats in Hne. pose proof (mp_ok _ Hp) as Hm. pose proof (print_formats_ok m Hm) as [Hfl Hfo]. destruct (media_type_token (media_type m)) as [Ht Htt]. destruct (protocol_token (protocol m)) as [Hpr Hpt].
  set (fields := media_type_str (media_type m) :: dec (port m) :: protocol_str (protocol m) :: (dec <$> Printer.print_formats m)).
  assert (Htok : Forall token fields) by (repeat (apply Forall_cons_2; [first [done|apply dec_token]|]); apply dec_tokens).
  exists (join (lit " ") fields). split_and!; [|by apply join_tidy|].
  - unfold m_line, fields. by destruct (Printer.print_formats m).
  - unfold parse_media_line. rewrite split_ws_join by done. cbv zeta. assert (Hlen : (0 < length (Printer.print_formats m))%nat) by (destruct (Printer.print_formats m); [done|cbn; lia]).
    unfold fields. cbn [length]. rewrite length_fmap. rewrite bool_decide_eq_false_2 by lia. cbn [fail_if mbind outcome_bind]. fields. rewrite Ht. cbn [of_option mbind outcome_bind].
    rewrite parse_dec by (lia || apply Hm). cbn [of_option mbind outcome_bind]. rewrite Hpr. cbn [of_option mbind outcome_bind]. unfold slice. rewrite decide_True by (cbn [length]; rewrite length_fmap; lia).
    cbn [mbind outcome_bind]. unfold sub_list. change (drop 3 (?a :: ?b :: ?c :: ?l)) with l. rewrite take_ge by (cbn [length]; rewrite length_fmap; lia). by rewrite formats_round.
Qed.

(** Evaluates a field of a section that is written out. *)
Ltac norm := cbn [media_type port num_ports protocol formats connection ice_ufrag ice_pwd trickle candidates fingerprint setup direction mid codecs fmtps ssrcs ssrc_values extmaps rtcp_fbs ssrc_groups rids simulcast msid
  rtcp_mux rtcp_rsize rtcp_mux_only extmap_allow_mixed end_of_candidates set_formats set_ice_ufrag set_ice_pwd set_trickle set_candidates set_fingerprint set_setup set_direction set_mid set_codecs set_fmtps set_ssrcs
  set_ssrc_values set_extmaps set_rtcp_fbs set_ssrc_groups set_rids set_simulcast set_msid set_rtcp_mux set_rtcp_rsize set_rtcp_mux_only set_extmap_allow_mixed set_end_of_candidates media_new app length Nat.add].

(** Every other line of a section. *)
Lemma section_steps m ls : media_plain m → Printer.print_media_section m = Ok (m_line m (Printer.print_formats m) :: ls) →
  steps ls (set_formats (Printer.print_formats m) (media_new (media_type m) (port m) (protocol m))) (reread m).
Proof.
  intros Hp Hls. unfold Printer.print_media_section in Hls. rewrite bool_decide_eq_true_2 in Hls by apply Hp. cbn [assert_ mbind outcome_bind] in Hls. injection Hls as <-.
  unfold reread. pose proof (mp_ok _ Hp) as Hm. pose proof (print_formats_ok m Hm) as [Hfl _]. revert Hfl. generalize (Printer.print_formats m) as pf. intros pf Hfl.
  pose proof (mp_connection _ Hp) as Hcon. pose proof (mp_values _ Hp) as Hval. pose proof (mo_mux _ Hm) as Hmux.
  eapply steps_cons; [by apply connection_steps|]. norm.
  eapply steps_app; [apply ufrag_steps; [apply Hm|done]|]. norm.
  eapply steps_app; [apply pwd_steps; [apply Hm|done]|]. norm.
  eapply steps_app; [by apply trickle_steps|]. norm.
  eapply steps_app; [apply fingerprint_steps; [apply Hm|done]|]. norm.
  eapply steps_app; [by apply setup_steps|]. norm.
  eapply steps_cons; [apply direction_step|]. norm.
  eapply steps_app; [apply mid_steps; [apply Hm|done]|]. norm.
  eapply steps_app; [by apply mux_steps|]. norm.
  eapply steps_app; [by apply mux_only_steps|]. norm.
  eapply steps_app; [by apply rsize_steps|]. norm.
  eapply steps_app; [apply rtpmap_steps; norm; [apply Hp|apply Hm|done]|]. norm.
  eapply steps_app; [apply fmtp_steps; norm; [apply Hp|apply Hm]|]. norm.
  eapply steps_app; [apply extmap_steps; norm; [apply Hp|apply Hm]|]. norm.
  eapply steps_app; [apply ssrc_steps; norm; [apply Hp|apply Hm|done]|]. norm.
  eapply steps_app; [apply group_steps; norm; [apply Hp|apply Hm]|]. norm.
  eapply steps_app; [apply feedback_steps; norm; [apply Hp|apply Hm]|]. norm.
  eapply steps_app; [apply rid_steps; norm; [apply Hp|apply Hm]|]. norm.
  eapply steps_app; [apply simulcast_steps; [|done]|].
  { pose proof (mp_simulcast _ Hp) as Hs. pose proof (mo_simulcast _ Hm) as Hl. destruct (simulcast m); cbn in *; [by split|done]. }
  norm. eapply steps_app; [apply msid_steps; [apply Hp|done]|]. norm.
  eapply steps_app; [by apply mixed_steps|]. norm.
  eapply steps_app; [by apply end_steps|]. norm.
  eapply steps_eq; [apply candidate_steps; norm; [apply Hp|apply Hm]|]. norm. rewrite <- Hval. unfold forget. destruct m. norm. cbn in *. by subst.
Qed.

(** ** Sections *)

(** The description with the open m-section closed. *)
Definition close (p : PState) : outcome SdpError SessionDescription := match current_media p with Some m => add_media m (session p) | None => Ok (session p) end.

Lemma section_head m ls : Printer.print_media_section m = Ok ls → ∃ rest, ls = m_line m (Printer.print_formats m) :: rest.
Proof. unfold Printer.print_media_section. destruct (bool_decide _); [|done]. intros [= <-]. by eexists. Qed.

Lemma section_reads m ls n p s : media_plain m → has_formats m → Printer.print_media_section m = Ok ls → close p = Ok s → (length (media s) < MAX_MEDIA_SECTIONS)%nat →
  (n + length ls ≤ Z.to_nat 10000)%nat → parse_lines n ls p = Ok (mkPState s (Some (reread m)) (has_version p) (has_origin p)).
Proof.
  intros Hm Hf Hls Hs Hl Hn. destruct (section_head m ls Hls) as [rest ->]. cbn [length] in Hn. pose proof (section_steps m rest Hm Hls) as Hrest.
  destruct (m_line_reads m (S n) Hm Hf) as (v & Hv & Ht & Hp). cbn [parse_lines]. cbv zeta. rewrite (proj2 (Z.ltb_ge 10000 _)) by lia. cbn [fail_if mbind outcome_bind]. rewrite Hv, line_value by (done || (unfold graphic; lia)).
  cbn [Z.eqb Pos.eqb]. unfold parse_media_section. unfold close in Hs. rewrite Hs. cbn [mbind outcome_bind]. rewrite bool_decide_eq_false_2 by lia. cbn [fail_if mbind outcome_bind]. rewrite Hp. cbn [mbind outcome_bind].
  rewrite (proj2 Hrest (S n)) by (done || lia). done.
Qed.

Lemma sections_read l : ∀ lss n p s, Forall media_plain l → Forall has_formats l → mapM Printer.print_media_section l = Ok lss → close p = Ok s → (length (media s) + length l ≤ MAX_MEDIA_SECTIONS)%nat →
  (n + length (concat lss) ≤ Z.to_nat 10000)%nat →
  ∃ p', parse_lines n (concat lss) p = Ok p' ∧ close p' = Ok (set_media (media s ++ (reread <$> l)) s) ∧ has_version p' = has_version p ∧ has_origin p' = has_origin p.
Proof.
  induction l as [|m l IH]; intros lss n p s Hl Hf Hm Hs Hn Hlen.
  { injection Hm as <-. exists p. rewrite app_nil_r. split_and!; try done. by destruct s. }
  apply Forall_cons in Hl as [Hm1 Hl]. apply Forall_cons in Hf as [Hf1 Hf]. cbn [mapM] in Hm. apply bind_ok in Hm as (ls & Hls & Hm). apply bind_ok in Hm as (lss' & Hlss & Hm). injection Hm as <-. cbn [length] in Hn. cbn [concat] in *. rewrite length_app in Hlen.
  rewrite parse_lines_app, (section_reads m ls n p s) by (done || lia). cbn [mbind outcome_bind].
  destruct (IH lss' (n + length ls)%nat (mkPState s (Some (reread m)) (has_version p) (has_origin p)) (set_media (media s ++ [reread m]) s)) as (p' & Hp' & Hc & Hv & Ho); [done|done|done| | |lia|].
  - unfold close. cbn [current_media session]. unfold add_media. by rewrite bool_decide_eq_false_2 by lia.
  - cbn [set_media media]. rewrite length_app. cbn [length]. lia.
  - exists p'. split_and!; try done. rewrite Hc. cbn [set_media media fmap list_fmap]. by rewrite <- app_assoc.
Qed.

(** ** A section without formats *)

(** The m-line of a section without formats: three fields and a space. *)
Lemma m_line_bare m : Printer.print_formats m = [] →
  m_line m (Printer.print_formats m) = 109 :: 61 :: join (lit " ") [media_type_str (media_type m); dec (port m); protocol_str (protocol m)] ++ [32].
Proof. intros ->. unfold m_line. cbn [join fmap list_fmap]. rewrite app_nil_r, <- !app_assoc. done. Qed.

Lemma bare_tokens m : Forall token [media_type_str (media_type m); dec (port m); protocol_str (protocol m)].
Proof.
  repeat apply Forall_cons_2; [apply media_type_token|apply dec_token|apply protocol_token|constructor].
Qed.

Lemma m_line_visible m : Forall visible (m_line m (Printer.print_formats m)).
Proof.
  unfold m_line. assert (Ht : ∀ x, token x → Forall visible x) by (intros x [_ Hx]; by apply graphic_visible).
  apply Forall_app; split; [closed|]. apply Forall_app; split; [apply Ht, media_type_token|]. apply Forall_app; split; [closed|].
  apply Forall_app; split; [apply Ht, dec_token|]. apply Forall_app; split; [closed|]. apply Forall_app; split; [apply Ht, protocol_token|].
  apply Forall_app; split; [closed|]. apply join_tidy, dec_tokens.
Qed.

Lemma trim_space b s : graphic b → tidy (b :: s) → trim ((b :: s) ++ [32]) = b :: s.
Proof. intros Hb Ht. unfold trim. cbn [app trim_start]. rewrite ws_graphic by done. by apply (trim_end_space (b :: s)). Qed.

Lemma bare_fails m n p s : Printer.print_formats m = [] → close p = Ok s → (length (media s) < MAX_MEDIA_SECTIONS)%nat →
  parse_line (m_line m (Printer.print_formats m)) n p = Err (ParseError n).
Proof.
  intros Hf Hs Hl. rewrite m_line_bare by done. set (v := join _ _).
  assert (Hv : tidy v) by (apply join_tidy, bare_tokens).
  assert (Ht : tidy (109 :: 61 :: v)) by (apply (tidy_graphic_app [109; 61]); [each; unfold graphic; lia|done]).
  assert (Hline : parse_line (109 :: 61 :: v ++ [32]) n p = parse_line (109 :: 61 :: v) n p).
  { unfold parse_line. change (109 :: 61 :: v ++ [32]) with ((109 :: 61 :: v) ++ [32]).
    rewrite trim_space, trim_tidy by (done || (unfold graphic; lia)). done. }
  rewrite Hline, line_value by (done || (unfold graphic; lia)). cbn [Z.eqb Pos.eqb]. unfold parse_media_section.
  unfold close in Hs. rewrite Hs. cbn [mbind outcome_bind]. rewrite bool_decide_eq_false_2 by lia. cbn [fail_if mbind outcome_bind].
  unfold parse_media_line, v. rewrite split_ws_join by (done || apply bare_tokens). cbv zeta. cbn [length]. by rewrite bool_decide_eq_true_2 by lia.
Qed.

Lemma sections_fail l : ∀ lss n p s, Forall media_plain l → ¬ Forall has_formats l → mapM Printer.print_media_section l = Ok lss → close p = Ok s →
  (length (media s) + length l ≤ MAX_MEDIA_SECTIONS)%nat → (n + length (concat lss) ≤ Z.to_nat 10000)%nat →
  ∃ k, parse_lines n (concat lss) p = Err (ParseError k).
Proof.
  induction l as [|m l IH]; intros lss n p s Hl Hf Hm Hs Hn Hlen; [by destruct Hf|].
  apply Forall_cons in Hl as [Hm1 Hl]. cbn [mapM] in Hm. apply bind_ok in Hm as (ls & Hls & Hm). apply bind_ok in Hm as (lss' & Hlss & Hm). injection Hm as <-. cbn [length] in Hn. cbn [concat] in *. rewrite length_app in Hlen.
  destruct (decide (Printer.print_formats m = [])) as [Hbare|Hhas].
  - destruct (section_head m ls Hls) as [rest ->]. exists (S n). cbn [app parse_lines length] in *. cbv zeta. rewrite (proj2 (Z.ltb_ge 10000 _)) by lia.
    cbn [fail_if mbind outcome_bind]. rewrite (bare_fails m (S n) p s) by (done || lia). done.
  - rewrite parse_lines_app, (section_reads m ls n p s) by (done || lia). cbn [mbind outcome_bind].
    apply (IH lss' (n + length ls)%nat _ (set_media (media s ++ [reread m]) s)); [done| |done| | |lia].
    + intros Hall. apply Hf. by constructor.
    + unfold close. cbn [current_media session]. unfold add_media. by rewrite bool_decide_eq_false_2 by lia.
    + cbn [set_media media]. rewrite length_app. cbn [length]. lia.
Qed.

(** ** Lines of the session *)

Record session_plain (s : SessionDescription) : Prop := {
  sp_ok : session_ok s;
  sp_origin : token (username (origin s)) ∧ token (origin_address (origin s));
  sp_name : tidy (session_name s);
  sp_bundle : tidy (bundle_group s);
  sp_media : Forall media_plain (media s);
}.

Definition ssteps (ls : list str) (s s' : SessionDescription) : Prop := Forall (Forall visible) ls ∧
  ∀ n p, session p = s → current_media p = None → (n + length ls ≤ Z.to_nat 10000)%nat → parse_lines n ls p = Ok (set_session s' p).

Lemma ssteps_nil s : ssteps [] s s.
Proof. split; [constructor|]. intros n p Hp _ _. cbn. destruct p. cbn in *. by subst. Qed.

Lemma ssteps_app a b s s1 s2 : ssteps a s s1 → ssteps b s1 s2 → ssteps (a ++ b) s s2.
Proof.
  intros [Hva Ha] [Hvb Hb]. split; [by apply Forall_app|]. intros n p Hp Hc Hn. rewrite length_app in Hn. rewrite parse_lines_app, Ha by (done || lia). cbn [mbind outcome_bind]. rewrite Hb by (done || lia). by destruct p.
Qed.

Lemma ssteps_one l s s' : Forall visible l → (∀ n p, session p = s → current_media p = None → parse_line l n p = Ok (set_session s' p)) → ssteps [l] s s'.
Proof. intros Hv Hl. split; [each|]. intros n p Hp Hc Hn. cbn [parse_lines length] in *. cbv zeta. rewrite (proj2 (Z.ltb_ge 10000 _)) by lia. cbn [fail_if mbind outcome_bind]. by rewrite Hl. Qed.

Lemma ssteps_opt {A} (line : A → str) (put : option A → SessionDescription → SessionDescription) o s :
  (∀ x, o = Some x → ssteps [line x] s (put (Some x) s)) → put None s = s → ssteps (opt_line line o) s (put o s).
Proof. intros Hs Hn. destruct o as [x|]; [by apply Hs|]. rewrite Hn. apply ssteps_nil. Qed.

Lemma level_none fm fs p s : session p = s → current_media p = None → on_level fm fs p = set_session (fs s) p.
Proof. intros <- Hc. unfold on_level. by rewrite Hc. Qed.

Lemma sstep_valued x v s s' : plain_name x = true → tidy v →
  (∀ p, session p = s → current_media p = None → valued_attribute (lit x) v p = Ok (set_session s' p)) → ssteps [attr x v] s s'.
Proof. intros Hs Hv Hp. apply ssteps_one; [by apply attr_visible|]. intros n p Hc. rewrite attr_line by done. by apply Hp. Qed.

Ltac svalued := apply sstep_valued; [vm_compute; reflexivity| |intros p Hp Hc; unfold valued_attribute; named].

Lemma sufrag_steps o s : some_is ice_ok o → session_ufrag s = None → ssteps (opt_line (fun u => attr "ice-ufrag" (as_str u)) o) s (set_session_ufrag o s).
Proof.
  intros Ho Hs. apply ssteps_opt; [|destruct s; cbn in *; by subst]. intros x ->. cbn in Ho. pose proof (ice_graphic x Ho). rewrite as_str_graphic by done.
  svalued; [by apply graphic_tidy|]. rewrite ice_round by done. cbn [mbind outcome_bind]. by rewrite (level_none _ _ p s).
Qed.

Lemma spwd_steps o s : some_is ice_ok o → session_pwd s = None → ssteps (opt_line (fun u => attr "ice-pwd" (as_str u)) o) s (set_session_pwd o s).
Proof.
  intros Ho Hs. apply ssteps_opt; [|destruct s; cbn in *; by subst]. intros x ->. cbn in Ho. pose proof (ice_graphic x Ho). rewrite as_str_graphic by done.
  svalued; [by apply graphic_tidy|]. rewrite ice_round by done. cbn [mbind outcome_bind]. by rewrite (level_none _ _ p s).
Qed.

Lemma sfingerprint_steps o s : some_is fingerprint_ok o → session_fingerprint s = None → ssteps (opt_line (fun f => attr "fingerprint" (fingerprint_to_sdp f)) o) s (set_session_fingerprint o s).
Proof.
  intros Ho Hs. apply ssteps_opt; [|destruct s; cbn in *; by subst]. intros x ->. cbn in Ho. svalued; [by apply fingerprint_tidy|]. unfold attr_fingerprint. rewrite fingerprint_round by done.
  rewrite (level_none _ _ p s) by done. by rewrite Hs.
Qed.

Lemma ssetup_steps o s : session_setup s = None → ssteps (opt_line (fun x => attr "setup" (setup_str x)) o) s (set_session_setup o s).
Proof.
  intros Hs. apply ssteps_opt; [|destruct s; cbn in *; by subst]. intros x ->. destruct (setup_token x) as [Hx Hg]. svalued; [by apply graphic_tidy|]. unfold attr_setup. rewrite Hx. cbn [of_option mbind outcome_bind].
  by rewrite (level_none _ _ p s).
Qed.

Lemma lite_steps b s : Session.ice_lite s = false → ssteps (bool_line b (flag "ice-lite")) s (set_ice_lite b s).
Proof.
  intros Hs. destruct b; cbn [bool_line]; [|destruct s; cbn in *; subst; apply ssteps_nil]. apply ssteps_one; [closed|]. intros n p Hp Hc. rewrite flag_line by (vm_compute; reflexivity). unfold parse_attribute.
  rewrite no_colon by (vm_compute; reflexivity). cbn [mbind outcome_bind]. named. by rewrite Hp.
Qed.

Lemma bundle_steps b s : tidy b → (length b ≤ MAX_BUNDLE_LEN)%nat → bundle_group s = [] →
  ssteps (if bool_decide (b = []) then [] else [attr "group" (lit "BUNDLE " ++ from_utf8_or [] b)]) s (set_bundle_group b s).
Proof.
  intros Hb Hl Hs. case_bool_decide as Hn; [subst; destruct s; cbn in *; subst; apply ssteps_nil|]. rewrite from_utf8_visible by apply Hb. svalued; [apply tidy_app; [closed|done|done]|].
  unfold attr_group, strip_prefix. rewrite take_app_length, bool_decide_eq_true_2 by done. rewrite drop_app_length. unfold set_bundle_value. rewrite bool_decide_eq_false_2 by lia. cbn [fail_if mbind outcome_bind]. by rewrite Hp.
Qed.

(** The first four lines. *)
Definition head_lines (s : SessionDescription) : list str :=
  [lit "v=" ++ dec (version s); lit "o=" ++ origin_to_sdp (origin s); lit "s=" ++ from_utf8_or (lit "-") (session_name s); lit "t=" ++ timing_to_sdp (timing s)].

Definition head_session (s : SessionDescription) : SessionDescription :=
  mkSession 0 (origin s) (session_name s) (timing s) None None false None None [] [].

Lemma origin_text o : token (username o) → token (origin_address o) →
  origin_to_sdp o = join (lit " ") [username o; dec (session_id o); dec (session_version o); lit "IN"; lit "IP4"; origin_address o] ∧
  Forall token [username o; dec (session_id o); dec (session_version o); lit "IN"; lit "IP4"; origin_address o].
Proof.
  intros [Hu Hug] [Ha Hag]. unfold origin_to_sdp. rewrite !from_utf8_visible by by apply graphic_visible. split; [done|]. each; try apply dec_token; closed.
Qed.

Lemma origin_round o n : origin_ok o → token (username o) → token (origin_address o) → parse_origin (origin_to_sdp o) n = Ok o.
Proof.
  intros (Hu & Hi & Hv & Ha) Htu Hta. destruct (origin_text o Htu Hta) as [-> Htok]. unfold parse_origin. rewrite split_ws_join by done. cbv zeta. cbn [length]. rewrite bool_decide_eq_false_2 by lia.
  cbn [fail_if mbind outcome_bind]. fields. rewrite !parse_dec by (done || lia). cbn [of_option mbind outcome_bind]. rewrite !cut_id by done. by destruct o.
Qed.

Lemma timing_round t n : is_u64 (start t) → is_u64 (stop t) → parse_timing (timing_to_sdp t) n = Ok t.
Proof.
  intros Hs He. unfold parse_timing, timing_to_sdp. change (dec (start t) ++ lit " " ++ dec (stop t)) with (join (lit " ") [dec (start t); dec (stop t)]).
  rewrite split_ws_join by (done || (each; apply dec_token)). cbv zeta. cbn [length]. rewrite bool_decide_eq_false_2 by lia. cbn [fail_if mbind outcome_bind]. fields. rewrite !parse_dec by (done || lia). by destruct t.
Qed.

Lemma head_tidy s : session_plain s → tidy (dec (version s)) ∧ tidy (origin_to_sdp (origin s)) ∧ tidy (session_name s) ∧ tidy (timing_to_sdp (timing s)).
Proof.
  intros Hp. destruct (sp_origin _ Hp) as [Hu Ha]. destruct (origin_text _ Hu Ha) as [-> Htok]. split_and!; [apply graphic_tidy, dec_graphic|by apply join_tidy|apply Hp|].
  change (timing_to_sdp (timing s)) with (join (lit " ") [dec (start (timing s)); dec (stop (timing s))]). apply join_tidy. each; apply dec_token.
Qed.

Lemma head_reads s : session_plain s → Forall (Forall visible) (head_lines s) ∧
  parse_lines 0 (head_lines s) (mkPState session_default None false false) = Ok (mkPState (head_session s) None true true).
Proof.
  intros Hp. destruct (head_tidy s Hp) as (H1 & H2 & H3 & H4). pose proof (sp_ok _ Hp) as Hok. unfold head_lines. rewrite from_utf8_visible by apply H3. split.
  - do 4 (apply Forall_cons_2; [apply Forall_app; split; [closed|first [apply H1|apply H2|apply H3|apply H4]]|]). constructor.
  - rewrite (so_version _ Hok) in *. change (lit "v=" ++ ?x) with (118 :: 61 :: x). change (lit "o=" ++ ?x) with (111 :: 61 :: x). change (lit "s=" ++ ?x) with (115 :: 61 :: x). change (lit "t=" ++ ?x) with (116 :: 61 :: x).
    cbn [parse_lines]. cbv zeta. cbn [Z.of_nat Pos.of_succ_nat Pos.succ Z.ltb Z.compare Pos.compare Pos.compare_cont fail_if mbind outcome_bind].
    rewrite line_value by (done || (unfold graphic; lia)). cbn [Z.eqb Pos.eqb]. unfold parse_version. rewrite parse_dec by (lia || (split; cbn; lia)). cbn [of_option mbind outcome_bind negb Z.eqb fail_if session current_media has_version has_origin].
    rewrite line_value by (done || (unfold graphic; lia)). cbn [Z.eqb Pos.eqb]. rewrite origin_round by (apply Hok || apply Hp). cbn [mbind outcome_bind session current_media has_version has_origin].
    rewrite line_value by (done || (unfold graphic; lia)). cbn [Z.eqb Pos.eqb mbind outcome_bind]. unfold set_name. rewrite cut_id by apply Hok. cbn [mbind outcome_bind session current_media has_version has_origin set_session].
    rewrite line_value by (done || (unfold graphic; lia)). cbn [Z.eqb Pos.eqb]. rewrite timing_round by apply Hok. done.
Qed.

Lemma session_reads s : session_plain s → Forall (Forall visible) (session_lines s) ∧
  ((length (session_lines s) ≤ Z.to_nat 10000)%nat → parse_lines 0 (session_lines s) (mkPState session_default None false false) = Ok (mkPState (set_media [] s) None true true)).
Proof.
  intros Hp. pose proof (sp_ok _ Hp) as Hok. destruct (head_reads s Hp) as [Hv Hh].
  assert (Hs : ssteps (drop 4 (session_lines s)) (head_session s) (set_media [] s)).
  { unfold session_lines. change (drop 4 ([?a; ?b; ?c; ?d] ++ ?l)) with l. unfold head_session.
    eapply ssteps_app; [apply sufrag_steps; [apply Hok|done]|]. cbn [set_session_ufrag version origin session_name timing session_ufrag session_pwd ice_lite session_fingerprint session_setup bundle_group media].
    eapply ssteps_app; [apply spwd_steps; [apply Hok|done]|]. cbn [set_session_pwd version origin session_name timing session_ufrag session_pwd ice_lite session_fingerprint session_setup bundle_group media].
    eapply ssteps_app; [by apply lite_steps|]. cbn [set_ice_lite version origin session_name timing session_ufrag session_pwd ice_lite session_fingerprint session_setup bundle_group media].
    eapply ssteps_app; [apply sfingerprint_steps; [apply Hok|done]|]. cbn [set_session_fingerprint version origin session_name timing session_ufrag session_pwd ice_lite session_fingerprint session_setup bundle_group media].
    eapply ssteps_app; [by apply ssetup_steps|]. cbn [set_session_setup version origin session_name timing session_ufrag session_pwd ice_lite session_fingerprint session_setup bundle_group media].
    replace (set_media [] s) with (set_bundle_group (bundle_group s) (mkSession 0 (origin s) (session_name s) (timing s) (session_ufrag s) (session_pwd s) (Session.ice_lite s) (session_fingerprint s) (session_setup s) [] [])).
    - apply bundle_steps; [apply Hp|apply Hok|done].
    - pose proof (so_version _ Hok) as Hver. destruct s. cbn in *. by subst. }
  destruct Hs as [Hvs Hs]. assert (Heq : session_lines s = head_lines s ++ drop 4 (session_lines s)) by done. split; [rewrite Heq; by apply Forall_app|].
  intros Hlen. rewrite Heq in Hlen |- *. rewrite length_app in Hlen. rewrite parse_lines_app, Hh. cbn [mbind outcome_bind]. rewrite Hs by (done || lia). done.
Qed.

(** ** The number of lines *)

Lemma opt_len {A} (f : A → str) o : (length (opt_line f o) ≤ 1)%nat.
Proof. destruct o; cbn; lia. Qed.

Lemma bool_len b l : (length (bool_line b l) ≤ 1)%nat.
Proof. destruct b; cbn; lia. Qed.

Ltac count := repeat first [progress cbn [length app]|rewrite length_app|rewrite length_fmap]; repeat match goal with
  | |- context [length (opt_line ?f ?o)] => pose proof (opt_len f o); generalize dependent (length (opt_line f o)); intros
  | |- context [length (bool_line ?b ?l)] => pose proof (bool_len b l); generalize dependent (length (bool_line b l)); intros
  end; cbn [length].

Lemma section_length m ls : media_ok m → Printer.print_media_section m = Ok ls → (length ls ≤ 148)%nat.
Proof.
  intros [_ _ _ _ [Hc _] _ _ [Hk _] [Hf _] [Hs _] _ [He _] [Hb _] [Hg _] [Hr _] _ _ _]. unfold Printer.print_media_section. destruct (bool_decide _); [|done]. cbn [assert_ mbind outcome_bind]. intros Hls. injection Hls as <-.
  count. unfold MAX_CANDIDATES_PER_MEDIA, MAX_CODECS_PER_MEDIA, MAX_SSRCS_PER_MEDIA, MAX_EXTMAPS_PER_MEDIA, MAX_RTCP_FB_PER_MEDIA, MAX_SSRC_GROUPS_PER_MEDIA, MAX_RIDS_PER_MEDIA in *. lia.
Qed.

Lemma session_length s : (length (session_lines s) ≤ 10)%nat.
Proof. unfold session_lines. case_bool_decide; count; lia. Qed.

Lemma sections_length l : ∀ lss, Forall media_ok l → mapM Printer.print_media_section l = Ok lss → (length (concat lss) ≤ 148 * length l)%nat.
Proof.
  induction l as [|m l IH]; intros lss Hl Hm; [injection Hm as <-; cbn; lia|]. apply Forall_cons in Hl as [Hok Hl]. cbn [mapM] in Hm. apply bind_ok in Hm as (ls & Hls & Hm). apply bind_ok in Hm as (lss' & Hlss & Hm).
  injection Hm as <-. cbn [concat length]. rewrite length_app. pose proof (section_length m ls Hok Hls). specialize (IH lss' Hl Hlss). lia.
Qed.

Lemma sections_visible l : ∀ lss, Forall media_plain l → mapM Printer.print_media_section l = Ok lss → Forall (Forall visible) (concat lss).
Proof.
  induction l as [|m l IH]; intros lss Hl Hm; [injection Hm as <-; constructor|]. apply Forall_cons in Hl as [Hok Hl]. cbn [mapM] in Hm. apply bind_ok in Hm as (ls & Hls & Hm). apply bind_ok in Hm as (lss' & Hlss & Hm).
  injection Hm as <-. cbn [concat]. apply Forall_app. split; [|by apply IH]. destruct (section_head m ls Hls) as [rest ->]. apply Forall_cons_2; [|apply (section_steps m rest Hok Hls)].
  apply m_line_visible.
Qed.

(** ** Validation *)

Lemma existsb_reread (f : MediaDescription → bool) l : (∀ m, f (reread m) = f m) → existsb f (reread <$> l) = existsb f l.
Proof. intros Hf. induction l as [|m l IH]; [done|]. cbn [fmap list_fmap existsb]. rewrite Hf. f_equal. exact IH. Qed.

Lemma for_media_reread f l : (∀ m, f (reread m) = f m) → for_media f (reread <$> l) = for_media f l.
Proof. intros Hf. induction l as [|m l IH]; [done|]. cbn [fmap list_fmap for_media]. rewrite Hf. destruct (f m); cbn; try done. Qed.

Lemma check_mids_reread l : ∀ seen, check_mids (reread <$> seen) (reread <$> l) = check_mids seen l.
Proof.
  induction l as [|m l IH]; intros seen; [done|]. cbn [fmap list_fmap check_mids]. change (mid (reread m)) with (mid m).
  assert (Hs : (reread <$> seen) ++ [reread m] = reread <$> (seen ++ [m])) by by rewrite fmap_app. rewrite Hs. change (list_fmap _ _ reread l) with (reread <$> l). rewrite IH. destruct (mid m) as [x|]; [|done]. by rewrite existsb_reread.
Qed.

Definition reread_session (s : SessionDescription) : SessionDescription := set_media (reread <$> media s) s.

Lemma validate_reread s : validate_session (reread_session s) = validate_session s.
Proof.
  unfold validate_session, reread_session, validate_bundle_group, has_media_with_mid.
  cbn [set_media media session_ufrag session_pwd session_fingerprint]. change (bundle (set_media _ s)) with (bundle s).
  rewrite !existsb_reread, !for_media_reread by done. change (check_mids [] (reread <$> media s)) with (check_mids (reread <$> []) (reread <$> media s)). rewrite check_mids_reread.
  assert (Hf : ∀ l, List.find (fun x => negb (existsb (fun m => match mid m with Some y => bool_decide (as_str y = x) | None => false end) (reread <$> media s))) l =
                    List.find (fun x => negb (existsb (fun m => match mid m with Some y => bool_decide (as_str y = x) | None => false end) (media s))) l).
  { induction l as [|x l IH]; [done|]. cbn [List.find]. rewrite existsb_reread by done. by rewrite IH. }
  by rewrite Hf.
Qed.

(** ** The document *)

Lemma document_ok ls t : document ls = Ok t → t = join CRLF ls ++ CRLF ∧ (length t ≤ MAX_SDP_SIZE)%nat.
Proof.
  unfold document. cbv zeta. destruct (bool_decide _) eqn:E; [done|]. apply bool_decide_eq_false in E. cbn [fail_if mbind outcome_bind]. intros Ht.
  assert (Heq : t = join CRLF ls ++ CRLF) by congruence. subst t. split; [done|lia].
Qed.

Lemma parse_eq sdp : sdp ≠ [] → (length sdp ≤ MAX_SDP_SIZE)%nat →
  SdpParser.parse sdp = (p ← parse_lines 0 (lines sdp) (mkPState session_default None false false); s ← close p;
    fail_if (negb (has_version p)) (MissingField "v= (version)");; fail_if (negb (has_origin p)) (MissingField "o= (origin)");;
    validate_session s;; assert_ (bool_decide (length (media s) ≤ MAX_MEDIA_SECTIONS)%nat);; Ok s).
Proof. intros Hn Hl. unfold parse. rewrite (bool_decide_eq_false_2 _ Hn). rewrite bool_decide_eq_false_2 by lia. done. Qed.

Lemma print_parse s t : session_plain s → validate_session s = Ok () → Printer.print s = Ok t →
  (Forall has_formats (media s) → SdpParser.parse t = Ok (reread_session s)) ∧
  (¬ Forall has_formats (media s) → ∃ k, SdpParser.parse t = Err (ParseError k)).
Proof.
  intros Hp Hval Ht. pose proof (sp_ok _ Hp) as Hok. destruct (so_media _ Hok) as [Hmlen Hmok]. unfold Printer.print in Ht. rewrite bool_decide_eq_false_2 in Ht by lia. cbn [fail_if mbind outcome_bind] in Ht.
  apply bind_ok in Ht as (lss & Hlss & Ht). apply document_ok in Ht as [-> Hsz]. destruct (session_reads s Hp) as [Hv1 Hs1].
  pose proof (sections_visible _ _ (sp_media _ Hp) Hlss) as Hv2. pose proof (session_length s) as Hl1. pose proof (sections_length _ _ Hmok Hlss) as Hl2. unfold MAX_MEDIA_SECTIONS in Hmlen.
  rewrite parse_eq; [|by intros [_ ?]%app_eq_nil|done]. clear Hsz. rewrite lines_document by (done || by apply Forall_app). rewrite parse_lines_app, Hs1 by lia. cbn [mbind outcome_bind].
  assert (Hc0 : close (mkPState (set_media [] s) None true true) = Ok (set_media [] s)) by done. split; intros Hf.
  2: { destruct (sections_fail (media s) lss (0 + length (session_lines s)) _ _ (sp_media _ Hp) Hf Hlss Hc0) as [k Hk];
         [cbn [set_media media length]; unfold MAX_MEDIA_SECTIONS; lia|lia|]. exists k. by rewrite Hk. }
  destruct (sections_read (media s) lss (0 + length (session_lines s)) (mkPState (set_media [] s) None true true) (set_media [] s)) as (p' & -> & Hc & Hv & Ho); [apply Hp|done|done|done|cbn [set_media media length]; unfold MAX_MEDIA_SECTIONS; lia|lia|].
  cbn [mbind outcome_bind]. rewrite Hc. cbn [mbind outcome_bind set_media media app]. rewrite Hv, Ho. cbn [has_version has_origin negb fail_if mbind outcome_bind].
  change (set_media (reread <$> media s) (set_media [] s)) with (reread_session s). rewrite validate_reread, Hval. cbn [mbind outcome_bind]. rewrite bool_decide_eq_true_2; [done|]. cbn [reread_session set_media media]. rewrite length_fmap. unfold MAX_MEDIA_SECTIONS. lia.
Qed.

End SdpDocument.
