(* ===== verification/SdpTheorems.v ===== *)
(** * What the SDP code promises

    The theorems about the parser, the printer and the negotiator, each with a
    concrete description, offer or answer it applies to. *)

From stdpp Require Import strings.
From S2P Require Import Prelude Model Transports SdpParams SdpText SdpModel SdpParser SdpSafe SdpRound SdpAnswers SdpDocument.

Module SdpTheorems.
Import Text TextProofs TextRound Sdp SdpTypes Attributes Media Session SdpSafe SdpRound SdpDocument Answers Offers.

(** C10: whatever valid UTF-8 text a peer sends, [SdpParser::parse] returns an
    error or a description and never panics: no slice cuts a character, no
    index is out of range. A description that is returned is within every
    capacity of the fixed arrays and text buffers, its numbers are within
    their widths, every m-section has credentials and a fingerprint of the
    allowed lengths (its own or the session's), the mids are distinct and the
    bundle group names existing ones. *)
Theorem parse_safe sdp : utf8_valid sdp = true →
  no_panic (SdpParser.parse sdp) ∧ ∀ s, SdpParser.parse sdp = Ok s → session_ok s ∧ accepted s.
Proof. intros Hv. apply total_spec, parse_total, utf8_synced, Hv. Qed.


(** C12: answering an offer never panics, whatever valid UTF-8 text it is. An
    answer that is sent is the printed form of a description that has one
    m-section for each of the offer's, in order, with the offer's type,
    protocol and mid, the opposite direction, the SFU's credentials,
    fingerprint and candidates, at least one codec, only codecs that both
    sides have with the payload type of the offer or retransmission codecs
    for one of them, and the offer's header extensions and feedback. *)
Theorem answers_match_offers n sdp : negotiator_ok n → utf8_valid sdp = true →
  no_panic (Negotiator.negotiate n sdp) ∧
  ∀ t, Negotiator.negotiate n sdp = Ok t → ∃ o a, SdpParser.parse sdp = Ok o ∧ answer_of n o a ∧ Printer.print a = Ok t.
Proof.
  intros Hn Hv. pose proof (utf8_synced _ Hv) as Hs. split; [apply (total_spec _ (fun _ => True)), negotiate_total; done|].
  intros t Ht. unfold Negotiator.negotiate in Ht. inv_ok. match goal with H : SdpParser.parse sdp = Ok ?o, G : Negotiator.create_answer n ?o = Ok ?a |- _ => exists o, a end.
  split_and!; [done| |done]. pose proof (proj1 (total_spec _ _) (parse_total sdp Hs)) as [_ Hp]. specialize (Hp _ ltac:(eassumption)) as [Ho _].
  pose proof (proj1 (total_spec _ _) (create_answer_total n _ Hn Ho)) as [_ Ha]. by apply Ha.
Qed.

(** C13: building an offer never panics for m-lines as the orchestrator has
    them (at least one, SSRCs other than zero, a codec for every kind). The
    offer that is sent prints one m-section per m-line, in order: a recycled
    one with its mid, direction and codecs, a track's with its mid, its stream
    and its two [ssrc] lines. A track that need not keep its payload type gets
    one that no recycled m-line and no earlier track uses, and it is the one
    that is reported to the caller. *)
Theorem offers_keep_payload_types_apart n d id v l : negotiator_ok n → defaults_ok d → l ≠ [] → Forall mline_ok l → Forall (has_codec n d) l →
  no_panic (Negotiator.create_ordered_offer n id v l d) ∧
  ∀ t pts, Negotiator.create_ordered_offer n id v l d = Ok (t, pts) →
    ∃ s, Printer.print s = Ok t ∧ offer_lines n d (recycled_pts l) l (media s) pts ∧ bundle_group s = join (lit " ") (mline_mid <$> l).
Proof.
  intros Hn Hd Hne Hl Hh. pose proof (ordered_offer_total n d id v l Hn Hd Hne Hl Hh) as [Hp Hq]%total_spec. split; [done|].
  intros t pts Ht. destruct (Hq _ Ht) as (s & Hs & Ho & Hb & _). by exists s.
Qed.

End SdpTheorems.

Module SdpScenario.
Import Text TextProofs TextRound Sdp SdpTypes Attributes Media Session SdpSafe SdpRound SdpDocument Answers Offers SdpTheorems.

(** ** An offer of a browser *)

Definition crlf (l : list string) : str := concat ((fun s => lit s ++ CRLF) <$> l).

Definition offer_text : str := crlf
  ["v=0"; "o=- 4611 2 IN IP4 127.0.0.1"; "s=-"; "t=0 0"; "a=group:BUNDLE 0 1"; "a=ice-ufrag:9uyj"; "a=ice-pwd:Qm3SS1k0uTJ7Lv5J6n2LzQ+/";
   "a=fingerprint:sha-256 AB:AB:AB:AB:AB:AB:AB:AB:AB:AB:AB:AB:AB:AB:AB:AB:AB:AB:AB:AB:AB:AB:AB:AB:AB:AB:AB:AB:AB:AB:AB:AB"; "a=setup:actpass";
   "m=audio 9 UDP/TLS/RTP/SAVPF 111"; "c=IN IP4 0.0.0.0"; "a=mid:0"; "a=sendonly"; "a=rtcp-mux"; "a=rtpmap:111 opus/48000/2"; "a=fmtp:111 minptime=10";
   "a=extmap:1 urn:ietf:params:rtp-hdrext:sdes:mid"; "a=ssrc:1111 cname:browser"; "a=candidate:1 1 udp 2122260223 192.0.2.1 54400 typ host";
   "m=video 9 UDP/TLS/RTP/SAVPF 96 97"; "c=IN IP4 0.0.0.0"; "a=mid:1"; "a=sendrecv"; "a=rtcp-mux"; "a=rtcp-rsize"; "a=rtpmap:96 VP8/90000"; "a=rtpmap:97 rtx/90000";
   "a=fmtp:97 apt=96"; "a=rtcp-fb:96 nack pli"; "a=ssrc:2222 cname:browser"].

Definition read_offer : SessionDescription := Eval vm_compute in match SdpParser.parse offer_text with Ok s => s | _ => session_default end.

Lemma offer_read : SdpParser.parse offer_text = Ok read_offer.
Proof. vm_compute. reflexivity. Qed.

Lemma parse_safe_witness : utf8_valid offer_text = true ∧ SdpParser.parse offer_text = Ok read_offer ∧ session_ok read_offer ∧ accepted read_offer.
Proof.
  assert (Hv : utf8_valid offer_text = true) by (vm_compute; reflexivity). split; [exact Hv|]. split; [exact offer_read|].
  exact (proj2 (parse_safe offer_text Hv) read_offer offer_read).
Defined.












(** ** The SFU *)

Definition hash : list Z := seqZ 100 32.
Definition sfu_fingerprint : DtlsFingerprint := mkFingerprint Sha256 (pad 64 hash) 32.
Definition sfu : Negotiator.SdpNegotiator :=
  Negotiator.mkNegotiator Negotiator.default_supported_codecs (lit "nexusfrag") (lit "nexuspwdnexuspwdnexuspwd") sfu_fingerprint [] true.

Lemma hash_bytes : bytes hash.
Proof. unfold hash. apply Forall_forall. intros x Hx%elem_of_seqZ. split; cbn; lia. Qed.

Lemma sfu_fingerprint_ok : fingerprint_ok sfu_fingerprint.
Proof. exists hash. split; [apply hash_bytes|by split_and!]. Qed.

Lemma sfu_ok : negotiator_ok sfu.
Proof.
  split; [done|apply default_capable|split; [split; cbn; lia|done]|split; [split; cbn; lia|done]|apply sfu_fingerprint_ok|constructor].
Qed.

Definition answer_text : str := Eval vm_compute in match Negotiator.negotiate sfu offer_text with Ok t => t | _ => [] end.

Lemma answers_match_offers_witness : Negotiator.negotiate sfu offer_text = Ok answer_text ∧
  ∃ o a, SdpParser.parse offer_text = Ok o ∧ answer_of sfu o a ∧ Printer.print a = Ok answer_text.
Proof.
  assert (Ht : Negotiator.negotiate sfu offer_text = Ok answer_text) by (vm_compute; reflexivity). split; [exact Ht|].
  exact (proj2 (answers_match_offers sfu offer_text sfu_ok ltac:(vm_compute; reflexivity)) answer_text Ht).
Defined.

(** ** An offer of the SFU: a recycled m-line and two tracks *)

Definition vp8 : RtpCodec := mkRtpCodec 96 (lit "VP8") 90000 None.
Definition opus : RtpCodec := mkRtpCodec 111 (lit "opus") 48000 (Some 2).
Definition mid_extmap : ExtMap := mkExtMap 1 None Negotiator.MID_URI.

Definition sfu_defaults : Negotiator.Defaults := Negotiator.mkDefaults 1 (Negotiator.offered_extmaps 1) (Negotiator.offered_extmaps 0) (Some vp8) (Some opus) None None.

Definition sfu_mlines : list Negotiator.OfferMline :=
  [Negotiator.Recycled (Negotiator.mkRecycled (lit "0") 1 [vp8] [] [97] [mid_extmap] [(lit "nack", lit "pli")] RecvOnly);
   Negotiator.Track 4242 1 (lit "1") (lit "nexus-7") (lit "nexus-7") [(lit "nack", lit "pli")] false;
   Negotiator.Track 4243 0 (lit "2") (lit "nexus-7") (lit "nexus-7") [] false].

Definition sfu_offer : str := Eval vm_compute in match Negotiator.create_ordered_offer sfu 7 3 sfu_mlines sfu_defaults with Ok (t, _) => t | _ => [] end.

Lemma vp8_ok : codec_ok vp8.
Proof. split; cbn; try done; unfold pt_ok, text_ok; cbn; try lia; split; cbn; lia. Qed.

Lemma opus_ok : codec_ok opus.
Proof. split; cbn; try done; unfold pt_ok, text_ok; cbn; try lia; split; cbn; lia. Qed.

Lemma sfu_defaults_ok : defaults_ok sfu_defaults.
Proof.
  split; [cbn; lia| |split; [apply vp8_ok|apply opus_ok]|done]. closed.
Qed.

Lemma sfu_mlines_ok : Forall mline_ok sfu_mlines ∧ Forall (has_codec sfu sfu_defaults) sfu_mlines.
Proof.
  split; [|repeat (apply Forall_cons_2; [first [exact I|left; by eexists]|]); constructor].
  assert (Hmid : ∀ x, (1 ≤ length x ≤ 16)%nat → forallb is_token_char x = true → mid_ok x) by (intros x [? ?] ?; by split).
  assert (Hu : ∀ x, 0 ≤ x < 5000 → is_u32 x) by (intros x ?; split; cbn; lia). each.
  - split; cbn; [apply Hmid; [cbn; lia|done]|each; apply vp8_ok|constructor|each|each; apply mid_extmap_ok; lia|each].
  - split_and!; [apply Hu; lia|done|apply Hmid; [cbn; lia|done]|done|done|each].
  - split_and!; [apply Hu; lia|done|apply Hmid; [cbn; lia|done]|done|done|constructor].
Qed.

(** VP8 moves from 96, which the recycled m-line uses, to 98, since the
    browser's offer had 97. *)
Lemma offers_keep_payload_types_apart_witness : Negotiator.create_ordered_offer sfu 7 3 sfu_mlines sfu_defaults = Ok (sfu_offer, [98; 111]) ∧
  ∃ s, Printer.print s = Ok sfu_offer ∧ offer_lines sfu sfu_defaults [96; 97] sfu_mlines (media s) [98; 111] ∧ bundle_group s = lit "0 1 2".
Proof.
  assert (Ht : Negotiator.create_ordered_offer sfu 7 3 sfu_mlines sfu_defaults = Ok (sfu_offer, [98; 111])) by (vm_compute; reflexivity). split; [exact Ht|].
  exact (proj2 (offers_keep_payload_types_apart sfu sfu_defaults 7 3 sfu_mlines sfu_ok sfu_defaults_ok ltac:(discriminate) (proj1 sfu_mlines_ok) (proj2 sfu_mlines_ok)) sfu_offer [98; 111] Ht).
Defined.

End SdpScenario.
