(* ===== verification/ControlPlane.v ===== *)
(** * What the orchestrator's managers share

    [src/orchestrator/plane.rs] and [events.rs], with [SingleShard] of
    [crates/nexus-dataplane/src/placement.rs]. What the orchestrator cannot
    see is the parameter [World]: whether the queue of a shard takes a
    command, the clocks, random numbers, the order of a hash map, the value of
    [DefaultHasher] (for a type, an address and a transport), and what the
    other threads (the API, the gossip thread) do to the replicated state
    between two calls. The [k]-th question gets the [k]-th answer. Debug
    assertions are off. *)

From stdpp Require Import strings.
From S2P Require Import Prelude Model Crdt DistributedState Handshake Transports.

Record ShardLoad := mkLoad { load_sessions : Z; rx_pps : Z }.

Record World := mkWorld {
  others : nat → DistributedState.State → DistributedState.State;
  accepts : nat → bool;
  loads : nat → list ShardLoad;
  instant : nat → Instant;
  wall_secs : nat → Z;
  wall_ns : nat → Z;
  draw : nat → nat → Z;
  hash_order : ∀ A, nat → list A → list A;
  hasher : Z → list Z → Z → Z;
}.

(** The panics the model tells apart, since only using up a resource causes
    them: the clock of the replicated state has no value left (2^64 calls), an
    id counter has none (2^64 ids), the registry holds 2^20 tracks. *)
Inductive Exhausted := ClockExhausted | IdsExhausted | RegistryFull.

Module Plane.
Import Transports.

Inductive DisconnectReason := ConsentExpired | IceFailed | DtlsFailed | Overloaded | Internal.

Definition code (r : DisconnectReason) : string :=
  match r with
  | ConsentExpired => "CONSENT_EXPIRED"
  | IceFailed => "ICE_FAILED"
  | DtlsFailed => "DTLS_FAILED"
  | Overloaded => "OVERLOADED"
  | Internal => "INTERNAL_ERROR"
  end.

Definition MAX_CLOSING : nat := Z.to_nat 4096.
Definition MAX_ESTABLISHED_LOG : nat := Z.to_nat 1024.

Record Established := mkEstablished { est_participant : Z; est_role : DtlsRole; est_profile : Keys.Keys.ProtectionProfile }.

Section plane.
Context `{DtlsEngine} (W : World) (cert : Certificate) (shard_candidates : list (list SocketAddr)).

(** [sent]: the commands the queues took, in order; [cluster]: the replicated
    state; [asked]: the questions asked so far. *)
Record Plane := mkPlane {
  transports : Transports;
  tracks : Tracks.TrackRegistry;
  ids : Ids.IdAllocator;
  closing : list (Z * DisconnectReason);
  pending_close : list (ShardId * SessionId);
  established : list Established;
  sent : list (ShardId * Command);
  cluster : DistributedState.State;
  asked : nat;
}.

Definition set_transports (v : Transports) (p : Plane) : Plane :=
  mkPlane v (tracks p) (ids p) (closing p) (pending_close p) (established p) (sent p) (cluster p) (asked p).
Definition set_tracks (v : Tracks.TrackRegistry) (p : Plane) : Plane :=
  mkPlane (transports p) v (ids p) (closing p) (pending_close p) (established p) (sent p) (cluster p) (asked p).
Definition set_ids (v : Ids.IdAllocator) (p : Plane) : Plane :=
  mkPlane (transports p) (tracks p) v (closing p) (pending_close p) (established p) (sent p) (cluster p) (asked p).
Definition set_closing (v : list (Z * DisconnectReason)) (p : Plane) : Plane :=
  mkPlane (transports p) (tracks p) (ids p) v (pending_close p) (established p) (sent p) (cluster p) (asked p).
Definition set_pending_close (v : list (ShardId * SessionId)) (p : Plane) : Plane :=
  mkPlane (transports p) (tracks p) (ids p) (closing p) v (established p) (sent p) (cluster p) (asked p).
Definition set_established (v : list Established) (p : Plane) : Plane :=
  mkPlane (transports p) (tracks p) (ids p) (closing p) (pending_close p) v (sent p) (cluster p) (asked p).
Definition set_sent (v : list (ShardId * Command)) (p : Plane) : Plane :=
  mkPlane (transports p) (tracks p) (ids p) (closing p) (pending_close p) (established p) v (cluster p) (asked p).
Definition set_cluster (v : DistributedState.State) (p : Plane) : Plane :=
  mkPlane (transports p) (tracks p) (ids p) (closing p) (pending_close p) (established p) (sent p) v (asked p).
Definition set_asked (v : nat) (p : Plane) : Plane :=
  mkPlane (transports p) (tracks p) (ids p) (closing p) (pending_close p) (established p) (sent p) (cluster p) v.

Definition plane := st Plane Exhausted.

Definition ask {A} (f : nat → A) : plane A := p ← get; put (set_asked (S (asked p)) p);; mret (f (asked p)).

(** ** Calls of the replicated state *)

(** Other threads may run before any access. *)
Definition interfere : plane () := f ← ask (others W); modify (fun p => set_cluster (f (cluster p)) p).

Definition read {A} (f : DistributedState.State → A) : plane A := interfere;; gets (fun p => f (cluster p)).

Definition cluster_clock (s : DistributedState.State) : Z :=
  default 0 (DistributedState.version s !! Z.to_nat (DistributedState.local_actor s)).

Definition attempt {A} (m : st DistributedState.State CrdtError A) : plane (CrdtError + A) :=
  fun p => match m (cluster p) with
           | Ok (a, s) => Ok (inr a, set_cluster s p)
           | Err (e, s) => Ok (inl e, set_cluster s p)
           | Panic => Panic
           end.

(** The calls that take a value of the clock. *)
Definition takes_clock (o : DistributedState.op) : bool :=
  match o with
  | DistributedState.RemoveRoom _ | DistributedState.RemoveTrack _ | DistributedState.MergeDelta _
  | DistributedState.NodeFailed _ _ | DistributedState.SetSender => false
  | _ => true
  end.

(** A call: its checks and its clock value, then its critical section. *)
Definition call (o : DistributedState.op) : plane (CrdtError + DistributedState.answer) :=
  interfere;;
  p ← get;
  if takes_clock o && (cluster_clock (cluster p) + 1 >=? 2 ^ 64) then throw ClockExhausted else
  w ← attempt (DistributedState.begin o);
  match w with
  | inl e => mret (inl e)
  | inr w => interfere;; attempt (DistributedState.finish false w)
  end.

(** ** Closing *)

Definition close_participant (participant : Z) (reason : DisconnectReason) : plane () :=
  p ← get;
  if existsb (fun x => x.1 =? participant) (closing p) then mret () else
  if bool_decide (MAX_CLOSING ≤ length (closing p))%nat then mret () else
  put (set_closing (closing p ++ [(participant, reason)]) p).

Definition take_closing : plane (list (Z * DisconnectReason)) :=
  p ← get; put (set_closing [] p);; mret (closing p).

(** ** Commands *)

(** [CommandSink::send] *)
Definition send (sh : ShardId) (c : Command) : plane bool :=
  ok ← ask (accepts W);
  if ok : bool then modify (fun p => set_sent (sent p ++ [(sh, c)]) p);; mret true else mret false.

Definition push (sh : ShardId) (c : Command) (participant : Z) : plane bool :=
  ok ← send sh c;
  if ok : bool then mret true else close_participant participant Overloaded;; mret false.

(** [SingleShard] *)
Definition place (l : list ShardLoad) : outcome Exhausted ShardId :=
  assert_ (negb (bool_decide (l = [])));; shard_id_new 0.

Definition on_transports {A} (m : st Transports Exhausted A) : plane A := zoom transports set_transports m.

Definition ids_left (i : Ids.IdAllocator) : bool :=
  forallb (fun n => n + 1 <? 2 ^ 64) [Ids.next_session i; Ids.next_track i; Ids.next_subscription i].

Definition on_ids {A} (m : st Ids.IdAllocator Exhausted A) : plane A :=
  p ← get; if ids_left (ids p) then zoom ids set_ids m else throw IdsExhausted.

Definition on_tracks {A} (m : st Tracks.TrackRegistry Exhausted A) : plane A := zoom tracks set_tracks m.

(** [assert!(tracks.insert(..))]: refused means that the registry is full or
    the id not new. *)
Definition insert_track (t : TrackId) (i : Tracks.TrackInfo) : plane () :=
  p ← get;
  if bool_decide (Tracks.MAX_TRACKS ≤ size (tracks p))%nat then throw RegistryFull else
  inserted ← on_tracks (Tracks.insert t i);
  lift (assert_ inserted).

(** [transports.get_mut(id)] and what is done with the entry. *)
Definition with_entry {A} (id : SessionId) (m : st TransportEntry Exhausted A) : plane (option A) :=
  p ← get;
  match entries (transports p) !! id with
  | None => mret None
  | Some e =>
    a ← zoom (fun _ => e) (fun e p => set_transports (mkTransports (<[id := e]> (entries (transports p))) (by_participant (transports p))) p) m;
    mret (Some a)
  end.

Definition create_session (participant : Z) : plane (option SessionId) :=
  p ← get;
  if bool_decide (MAX_TRANSPORTS ≤ len (transports p))%nat then mret None else
  l ← ask (loads W);
  sh ← lift (place l);
  id ← on_ids Ids.session;
  now ← ask (instant W);
  ice_draw ← ask (draw W);
  ssrc_draw ← ask (draw W);
  entry ← lift (entry_new participant sh cert now ice_draw ssrc_draw);
  let command := CreateSession id (ice entry) (Ssrcs.base (ssrcs entry)) in
  inserted ← on_transports (insert id entry);
  if negb inserted then mret None else
  pushed ← push sh command participant;
  if negb pushed then on_transports (remove id);; mret None else
  p ← get;
  lift (assert_ (bool_decide (session_of (transports p) participant = Some id)));;
  mret (Some id).

Definition close_session (id : SessionId) : plane () :=
  e ← on_transports (remove id);
  match e with
  | None => mret ()
  | Some entry =>
    ok ← send (shard entry) (CloseSession id);
    if ok : bool then mret () else
    p ← get;
    if bool_decide (MAX_TRANSPORTS ≤ length (pending_close p))%nat then mret () else
    put (set_pending_close (pending_close p ++ [(shard entry, id)]) p)
  end.

Fixpoint retry_closes (l : list (ShardId * SessionId)) : plane () :=
  match l with
  | [] => mret ()
  | (sh, id) :: l =>
    ok ← send sh (CloseSession id);
    (if ok : bool then mret () else modify (fun p => set_pending_close (pending_close p ++ [(sh, id)]) p));;
    retry_closes l
  end.

Definition retry_pending_closes : plane () :=
  p ← get; put (set_pending_close [] p);; retry_closes (pending_close p).

(** ** DTLS *)

Fixpoint send_each (sh : ShardId) (id : SessionId) (participant : Z) (l : list (list Z)) : plane () :=
  match l with
  | [] => mret ()
  | b :: l => ok ← push sh (SendDatagram id b) participant; if ok : bool then send_each sh id participant l else mret ()
  end.

Definition send_datagrams (id : SessionId) (datagrams : list (list Z)) : plane () :=
  p ← get;
  match entries (transports p) !! id with
  | None => mret ()
  | Some e => send_each (shard e) id (participant e) datagrams
  end.

Definition record_established (x : Established) : plane () :=
  modify (fun p => set_established
    ((if bool_decide (MAX_ESTABLISHED_LOG ≤ length (established p))%nat then drop 1 (established p) else established p) ++ [x]) p).

Definition install_srtp (id : SessionId) : plane () :=
  p ← get;
  match entries (transports p) !! id with
  | None => mret ()
  | Some entry =>
    lift (assert_ (negb (srtp_installed entry)));;
    match Dtls.srtp_install (dtls entry) with
    | Ok keys =>
      with_entry id (modify set_srtp_installed);;
      pushed ← push (shard entry) (InstallSrtp id keys) (participant entry);
      match pushed : bool, Dtls.role (dtls entry) with
      | true, Some r => record_established (mkEstablished (participant entry) r (Keys.Keys.profile (local_key keys)))
      | _, _ => mret ()
      end
    | Err _ => close_participant (participant entry) DtlsFailed
    | Panic => lift Panic
    end
  end.

(** A call of the handshake of a session: its result or its error. *)
Definition on_dtls {A} (id : SessionId) (m : Dtls.step A) : plane (option (Dtls.HandshakeError + A)) :=
  with_entry id (fun e => match m (dtls e) with
                          | Ok (a, h) => Ok (inr a, set_dtls h e)
                          | Err (x, h) => Ok (inl x, set_dtls h e)
                          | Panic => Panic
                          end).

End plane.
End Plane.

(** * Connection lifecycle

    [src/orchestrator/connection.rs]: what the control plane does on the
    events of the shards and on its timers. *)


Module Connection.
Import Transports Plane.

Section connection.
Context `{DtlsEngine} (W : World).

(** Sends what a step of the handshake produced and installs the keys when it
    completed; a failed step closes the session. *)
Definition apply_progress (id : SessionId) (result : Dtls.HandshakeError + Dtls.Progress) : plane () :=
  p ← get;
  match participant_of (transports p) id with
  | None => mret ()
  | Some participant =>
    match result with
    | inr progress =>
      send_datagrams W id (Dtls.datagrams progress);;
      if Dtls.completed progress then install_srtp W id else mret ()
    | inl _ => close_participant participant DtlsFailed
    end
  end.

Definition on_dtls_datagram (id : SessionId) (b : list Z) : plane () :=
  r ← on_dtls id (Dtls.process b);
  match r with
  | None => mret ()
  | Some (inl (Dtls.InvalidDatagram _)) => mret ()
  | Some result => apply_progress id result
  end.

Definition on_address_selected (id : SessionId) : plane () :=
  now ← ask (instant W);
  first ← with_entry id (mark_address_selected now);
  match first with
  | Some true =>
    r ← on_dtls id Dtls.on_address_selected;
    match r with Some result => apply_progress id result | None => mret () end
  | _ => mret ()
  end.

Definition on_rejected (id : option SessionId) (reason : RejectReason) : plane () :=
  p ← get;
  let participant := i ← id; participant_of (transports p) i in
  let close := match reason with
               | UnknownSession | UnknownTrack | UnknownSubscription => None
               | SessionLimit | TrackLimit | SubscriptionLimit => Some Overloaded
               | _ => Some Internal
               end in
  match close, participant with
  | Some why, Some x => close_participant x why
  | _, _ => mret ()
  end.

Definition handle_event (ev : Event) : plane () :=
  match ev with
  | DtlsDatagram id b => on_dtls_datagram id b
  | AddressSelected id _ _ => on_address_selected id
  | PeerSrtpVerified id => on_dtls id Dtls.free_ssl;; mret ()
  | ConsentLost id =>
    p ← get;
    match participant_of (transports p) id with
    | Some x => close_participant x ConsentExpired
    | None => mret ()
    end
  | CommandRejected id reason => on_rejected id reason
  end.

Fixpoint poll_each (l : list SessionId) : plane () :=
  match l with
  | [] => mret ()
  | id :: l =>
    r ← on_dtls id (ds ← Dtls.handle_timeout; mret (Dtls.mkProgress ds false));
    match r with Some result => apply_progress id result | None => mret () end;;
    poll_each l
  end.

Definition poll_dtls : plane () := p ← get; poll_each (handshaking (transports p)).

Fixpoint close_expired (l : list (SessionId * Expired)) : plane () :=
  match l with
  | [] => mret ()
  | (id, why) :: l =>
    p ← get;
    match participant_of (transports p) id with
    | Some x => close_participant x (match why with IceConnect => IceFailed | DtlsHandshakeExpired => DtlsFailed end)
    | None => mret ()
    end;;
    close_expired l
  end.

Definition sweep (now : Instant) : plane () :=
  p ← get;
  close_expired (Transports.sweep (transports p) now);;
  retry_pending_closes W.

End connection.
End Connection.
