(* ===== verification/OrchestratorState.v ===== *)
(** * The state of the orchestrator

    The data of [src/orchestrator/mod.rs] and of its managers ([room.rs],
    [negotiation.rs], [subscription.rs]), the signaling messages of
    [crates/nexus-signal/src/protocol/messages.rs] and the room grants of
    [crates/nexus-api/src/auth.rs]. The explanatory text of an error message
    is left out; its code is kept. *)

From stdpp Require Import strings.
From S2P Require Import Prelude Model Crdt GossipWire DistributedState Handshake Transports SdpParams ControlPlane.

(** ** Grants *)

Inductive RoomGrant := Any | Names (names : list string).

(** No name and the empty name are an unnamed room. *)
Definition allows (g : RoomGrant) (name : option string) : bool :=
  match g, name with
  | Any, _ => true
  | Names _, None => false
  | Names ns, Some n => if bool_decide (n = EmptyString) then false else bool_decide (n ∈ ns)
  end.

(** ** Messages *)

Module Signal.

Record OfferTrack := mkOfferTrack { offer_track_id : Z; offer_mid : string }.
Record TrackListing := mkListing { listed_track : Z; listed_publisher : Z; listed_kind : string; listed_content : string }.

Inductive SignalMessage :=
| Create (room_name : option string)
| Created (room_id : Z) (room_name : option string)
| Join (room_id : Z) (participant_name : string)
| Joined (participant_id room_id : Z) (participants : list (Z * string)) (tracks : list TrackListing)
| Leave
| ParticipantJoined (participant_id : Z) (name : string)
| ParticipantLeft (participant_id : Z)
| Publish (kinds contents : list string)
| Unpublish (track_ids : list Z)
| Offer (sdp : string) (tracks : list OfferTrack)
| Answer (sdp : string)
| IceCandidate (candidate : string) (sdp_mid : option string) (sdp_mline_index : option Z)
| EndOfCandidates
| Subscribe (track_ids : list Z)
| Subscribed (track_ids : list Z)
| Unsubscribe (track_ids : list Z)
| Unsubscribed (track_ids : list Z)
| TrackPublished (publisher_id track_id : Z) (kind content : string)
| TrackUnpublished (track_id : Z)
| Published (track_id : Z) (mid kind : string)
| Viewport (visible pinned : list Z)
| ViewportUpdated (visible_count pinned_count : Z)
| SetContent (track_id : Z) (content : string)
| ContentSet (track_id : Z) (content : string)
| Ping
| Pong
| Stats (tracks_count packets_sent packets_received bytes_sent bytes_received : Z)
| Error (code : string)
| ServerShutdown (reason : string) (drain_seconds : Z).

(** [OrchestratorEvent] of the WebSocket server. *)
Inductive OrchestratorEvent :=
| Connected (participant_id : Z) (grant : RoomGrant)
| Message (participant_id : Z) (message : SignalMessage)
| Disconnected (participant_id : Z).

End Signal.

(** ** Negotiation *)

Module Mlines.

Record SubSlot := mkSubSlot { slot_track : Z; slot_sub : SubscriptionId; out_ssrc : Z; on_shard : bool }.

Inductive MlineRole := Publish | Subscribe (s : SubSlot) | Inactive.

#[export] Instance SubSlot_eq_dec : EqDecision SubSlot.
Proof. solve_decision. Defined.
#[export] Instance MlineRole_eq_dec : EqDecision MlineRole.
Proof. solve_decision. Defined.

Definition subscribed_track (r : MlineRole) : option Z := match r with Subscribe s => Some (slot_track s) | _ => None end.

(** [kind]: 0 for audio, 1 for video. *)
Record MlineSlot := mkSlot { mid : string; kind : Z; role : MlineRole }.

Definition set_role (v : MlineRole) (s : MlineSlot) : MlineSlot := mkSlot (mid s) (kind s) v.

Record NegotiationState := mkNeg {
  session : option SessionId;
  published_tracks : list Z;
  offer_pending : bool;
  renegotiation_needed : bool;
  next_mid_index : Z;
  mlines : list MlineSlot;
  unregistered_publish_mids : list string;
  pending_publish : option (list (string * string));
  last_subscribed_track_ids : list Z;
  candidates_sent : bool;
  invalid_answers : Z;
  session_id : Z;
  session_version : Z;
}.

Definition neg_new : NegotiationState := mkNeg None [] false false 0 [] [] None [] false 0 0 0.

Definition set_session (v : SessionId) (id version : Z) (s : NegotiationState) : NegotiationState :=
  mkNeg (Some v) (published_tracks s) (offer_pending s) (renegotiation_needed s) (next_mid_index s) (mlines s)
    (unregistered_publish_mids s) (pending_publish s) (last_subscribed_track_ids s) (candidates_sent s) (invalid_answers s) id version.
Definition set_published (v : list Z) (s : NegotiationState) : NegotiationState :=
  mkNeg (session s) v (offer_pending s) (renegotiation_needed s) (next_mid_index s) (mlines s)
    (unregistered_publish_mids s) (pending_publish s) (last_subscribed_track_ids s) (candidates_sent s) (invalid_answers s) (session_id s) (session_version s).
Definition set_offer_pending (v : bool) (s : NegotiationState) : NegotiationState :=
  mkNeg (session s) (published_tracks s) v (renegotiation_needed s) (next_mid_index s) (mlines s)
    (unregistered_publish_mids s) (pending_publish s) (last_subscribed_track_ids s) (candidates_sent s) (invalid_answers s) (session_id s) (session_version s).
Definition set_renegotiation (v : bool) (s : NegotiationState) : NegotiationState :=
  mkNeg (session s) (published_tracks s) (offer_pending s) v (next_mid_index s) (mlines s)
    (unregistered_publish_mids s) (pending_publish s) (last_subscribed_track_ids s) (candidates_sent s) (invalid_answers s) (session_id s) (session_version s).
Definition set_mlines (n : Z) (v : list MlineSlot) (s : NegotiationState) : NegotiationState :=
  mkNeg (session s) (published_tracks s) (offer_pending s) (renegotiation_needed s) n v
    (unregistered_publish_mids s) (pending_publish s) (last_subscribed_track_ids s) (candidates_sent s) (invalid_answers s) (session_id s) (session_version s).
Definition set_unregistered (v : list string) (s : NegotiationState) : NegotiationState :=
  mkNeg (session s) (published_tracks s) (offer_pending s) (renegotiation_needed s) (next_mid_index s) (mlines s)
    v (pending_publish s) (last_subscribed_track_ids s) (candidates_sent s) (invalid_answers s) (session_id s) (session_version s).
Definition set_pending_publish (v : option (list (string * string))) (s : NegotiationState) : NegotiationState :=
  mkNeg (session s) (published_tracks s) (offer_pending s) (renegotiation_needed s) (next_mid_index s) (mlines s)
    (unregistered_publish_mids s) v (last_subscribed_track_ids s) (candidates_sent s) (invalid_answers s) (session_id s) (session_version s).
Definition set_last_subscribed (v : list Z) (s : NegotiationState) : NegotiationState :=
  mkNeg (session s) (published_tracks s) (offer_pending s) (renegotiation_needed s) (next_mid_index s) (mlines s)
    (unregistered_publish_mids s) (pending_publish s) v (candidates_sent s) (invalid_answers s) (session_id s) (session_version s).
Definition set_candidates_sent (s : NegotiationState) : NegotiationState :=
  mkNeg (session s) (published_tracks s) (offer_pending s) (renegotiation_needed s) (next_mid_index s) (mlines s)
    (unregistered_publish_mids s) (pending_publish s) (last_subscribed_track_ids s) true (invalid_answers s) (session_id s) (session_version s).
Definition set_invalid_answers (v : Z) (s : NegotiationState) : NegotiationState :=
  mkNeg (session s) (published_tracks s) (offer_pending s) (renegotiation_needed s) (next_mid_index s) (mlines s)
    (unregistered_publish_mids s) (pending_publish s) (last_subscribed_track_ids s) (candidates_sent s) v (session_id s) (session_version s).
Definition set_version (v : Z) (s : NegotiationState) : NegotiationState :=
  mkNeg (session s) (published_tracks s) (offer_pending s) (renegotiation_needed s) (next_mid_index s) (mlines s)
    (unregistered_publish_mids s) (pending_publish s) (last_subscribed_track_ids s) (candidates_sent s) (invalid_answers s) (session_id s) v.

End Mlines.

(** ** The orchestrator *)

Inductive SubState := Negotiating | ActiveSub.

#[export] Instance SubState_eq_dec : EqDecision SubState.
Proof. solve_decision. Defined.

Module Orch.

(** The outbound channel of a participant is its part of [outbox]. *)
Record ParticipantHandle := mkHandle { grant : RoomGrant; room_id : option Z; handle_tracks : list Z }.

Record RoomManager := mkRooms { room_names : gmap string Z; created : gmap Z (list Z) }.

Section state.
Context `{DtlsEngine}.

(** [outbox]: the messages handed to the participants' channels. A channel
    may drop a message; nothing depends on it. *)
Record SessionOrchestrator := mkOrch {
  sessions : gmap Z ParticipantHandle;
  rooms : RoomManager;
  negotiation : gmap Z Mlines.NegotiationState;
  subscription : gmap Z (list (Z * SubState));
  plane_of : Plane.Plane;
  outbox : list (Z * Signal.SignalMessage);
}.

Definition set_sessions (v : gmap Z ParticipantHandle) (o : SessionOrchestrator) : SessionOrchestrator :=
  mkOrch v (rooms o) (negotiation o) (subscription o) (plane_of o) (outbox o).
Definition set_rooms (v : RoomManager) (o : SessionOrchestrator) : SessionOrchestrator :=
  mkOrch (sessions o) v (negotiation o) (subscription o) (plane_of o) (outbox o).
Definition set_negotiation (v : gmap Z Mlines.NegotiationState) (o : SessionOrchestrator) : SessionOrchestrator :=
  mkOrch (sessions o) (rooms o) v (subscription o) (plane_of o) (outbox o).
Definition set_subscription (v : gmap Z (list (Z * SubState))) (o : SessionOrchestrator) : SessionOrchestrator :=
  mkOrch (sessions o) (rooms o) (negotiation o) v (plane_of o) (outbox o).
Definition set_plane (v : Plane.Plane) (o : SessionOrchestrator) : SessionOrchestrator :=
  mkOrch (sessions o) (rooms o) (negotiation o) (subscription o) v (outbox o).
Definition set_outbox (v : list (Z * Signal.SignalMessage)) (o : SessionOrchestrator) : SessionOrchestrator :=
  mkOrch (sessions o) (rooms o) (negotiation o) (subscription o) (plane_of o) v.

Definition orch := st SessionOrchestrator Exhausted.

Definition on_plane {A} (m : Plane.plane A) : orch A := zoom plane_of set_plane m.

Definition send_to (participant : Z) (msg : Signal.SignalMessage) : orch () :=
  o ← get;
  match sessions o !! participant with
  | Some _ => put (set_outbox (outbox o ++ [(participant, msg)]) o)
  | None => mret ()
  end.

Definition send_error (participant : Z) (code : string) : orch () := send_to participant (Signal.Error code).

(** The participant's room. *)
Definition room_of (o : SessionOrchestrator) (participant : Z) : option Z := h ← sessions o !! participant; room_id h.

Fixpoint for_each {A} (l : list A) (f : A → orch ()) : orch () :=
  match l with [] => mret () | x :: l => f x;; for_each l f end.

End state.
End Orch.

(** * Rooms

    [src/orchestrator/room.rs]: creating, joining and leaving rooms. *)


Module Rooms.
Import Orch.

Definition MAX_ROOMS : nat := Z.to_nat 10000.
Definition MAX_PARTICIPANTS_PER_ROOM : Z := 1000.
Definition MAX_PARTICIPANT_NAME_LEN : nat := 256.
Definition MAX_ROOMS_PER_CREATOR : nat := 4.

Section rooms.
Context `{DtlsEngine} (W : World).

Definition read {A} (f : DistributedState.State → A) : orch A := on_plane (Plane.read W f).
Definition call (o : DistributedState.op) : orch (CrdtError + DistributedState.answer) := on_plane (Plane.call W o).

Definition granted (o : SessionOrchestrator) (participant : Z) (name : option string) : bool :=
  match sessions o !! participant with Some h => allows (grant h) name | None => false end.

Definition set_created (f : gmap Z (list Z) → gmap Z (list Z)) : orch () :=
  modify (fun o => set_rooms (mkRooms (room_names (rooms o)) (f (created (rooms o)))) o).
Definition set_names (f : gmap string Z → gmap string Z) : orch () :=
  modify (fun o => set_rooms (mkRooms (f (room_names (rooms o))) (created (rooms o))) o).

(** [retain] with [room_exists] *)
Fixpoint retain_existing (l : list Z) : orch (list Z) :=
  match l with
  | [] => mret []
  | r :: l =>
    e ← read (fun s => DistributedState.room_exists s r);
    l ← retain_existing l;
    mret (if e : bool then r :: l else l)
  end.

(** [create_room_auto] under the next free id. *)
Definition allocate_room (name : option string) : orch (option Z) :=
  now ← on_plane (Plane.ask (wall_ns W));
  r ← call (DistributedState.CreateRoomAuto now (default EmptyString name) MAX_PARTICIPANTS_PER_ROOM);
  match r with
  | inr (DistributedState.Room id) => lift (assert_ (negb (id =? 0)));; mret (Some id)
  | _ => mret None
  end.

Definition mine_of (o : SessionOrchestrator) (participant : Z) : list Z := default [] (created (rooms o) !! participant).

Definition new_room (participant : Z) (name : option string) : orch (option Z) :=
  if match name with Some n => bool_decide (DistributedState.MAX_ROOM_NAME_LEN < String.length n)%nat | None => false end
  then send_error participant "INVALID_INPUT";; mret None else
  n ← read DistributedState.room_count;
  if bool_decide (MAX_ROOMS ≤ n)%nat then send_error participant "ROOM_LIMIT";; mret None else
  o ← get;
  mine ← retain_existing (mine_of o participant);
  set_created (insert participant mine);;
  if bool_decide (MAX_ROOMS_PER_CREATOR ≤ length mine)%nat then send_error participant "ROOM_LIMIT";; mret None else
  r ← allocate_room name;
  match r with
  | None => send_error participant "ROOM_LIMIT";; mret None
  | Some id =>
    o ← get;
    let mine := mine_of o participant in
    lift (assert_ (bool_decide (length mine < MAX_ROOMS_PER_CREATOR)%nat));;
    set_created (insert participant (mine ++ [id]));;
    mret (Some id)
  end.

Definition handle_create (participant : Z) (name : option string) : orch () :=
  if participant =? 0 then mret () else
  o ← get;
  if negb (granted o participant name) then send_error participant "FORBIDDEN" else
  match n ← name; room_names (rooms o) !! n with
  | Some existing => send_to participant (Signal.Created existing name)
  | None =>
    r ← new_room participant name;
    match r with
    | None => mret ()
    | Some id =>
      (match name with Some n => set_names (insert n id) | None => mret () end);;
      send_to participant (Signal.Created id name)
    end
  end.

Definition room_granted (participant room : Z) : orch bool :=
  r ← read (fun s => DistributedState.get_room s room);
  match r with
  | None => send_error participant "ROOM_NOT_FOUND";; mret false
  | Some m =>
    lift (assert_ (DistributedState.room_id m =? room));;
    o ← get;
    if granted o participant (Some (DistributedState.name m)) then mret true
    else send_error participant "FORBIDDEN";; mret false
  end.

Definition kind_content (t : option Gossip.TrackInfo) : string * string :=
  match t with
  | Some t => ((if Gossip.track_type t =? 0 then "audio" else "video"),
               (if Gossip.content_type t =? 1 then "screen" else if Gossip.content_type t =? 2 then "audio" else "camera"))
  | None => ("video", "camera")
  end.

(** The tracks of one participant, while fewer than 64 are listed. *)
Fixpoint list_tracks (publisher : Z) (tids : list Z) (acc : list Signal.TrackListing) : orch (list Signal.TrackListing) :=
  match tids with
  | [] => mret acc
  | t :: tids =>
    if bool_decide (64 ≤ length acc)%nat then mret acc else
    info ← read (fun s => DistributedState.get_track s t);
    let '(k, c) := kind_content info in
    list_tracks publisher tids (acc ++ [Signal.mkListing t publisher k c])
  end.

Fixpoint list_all_tracks (self : Z) (pids : list Z) (acc : list Signal.TrackListing) : orch (list Signal.TrackListing) :=
  match pids with
  | [] => mret acc
  | pid :: pids =>
    if pid =? self then list_all_tracks self pids acc else
    o ← get;
    acc ← (match sessions o !! pid with Some h => list_tracks pid (handle_tracks h) acc | None => mret acc end);
    list_all_tracks self pids acc
  end.

(** A message to every participant of a list but one. *)
Definition notify (self : Z) (pids : list Z) (msg : Signal.SignalMessage) : orch () :=
  for_each (take (Z.to_nat MAX_PARTICIPANTS_PER_ROOM) pids) (fun pid => if pid =? self then mret () else send_to pid msg).

Definition set_room (participant room : Z) : orch () :=
  modify (fun o => match sessions o !! participant with
                   | Some h => set_sessions (<[participant := mkHandle (grant h) (Some room) (handle_tracks h)]> (sessions o)) o
                   | None => o
                   end).

Definition handle_join (participant room : Z) (name : string) : orch () :=
  if (participant =? 0) || (room =? 0) then send_error participant "INVALID_INPUT" else
  if bool_decide (MAX_PARTICIPANT_NAME_LEN < String.length name)%nat then send_error participant "INVALID_INPUT" else
  if negb (room <? 2 ^ 32) then send_error participant "ROOM_NOT_FOUND" else
  o ← get;
  if is_some (room_of o participant) then send_error participant "ALREADY_IN_ROOM" else
  g ← room_granted participant room;
  if negb g then mret () else
  n ← read (fun s => DistributedState.participant_count s room);
  if n >=? MAX_PARTICIPANTS_PER_ROOM then send_error participant "ROOM_FULL" else
  r ← call (DistributedState.AddParticipant room participant);
  match r with
  | inl _ => send_error participant "JOIN_FAILED"
  | inr _ =>
    set_room participant room;;
    pids ← read (fun s => DistributedState.get_participants s room);
    let infos := (fun pid => (pid, EmptyString)) <$> take 100 (List.filter (fun pid => negb (pid =? participant)) pids) in
    tracks ← list_all_tracks participant pids [];
    send_to participant (Signal.Joined participant room infos tracks);;
    notify participant pids (Signal.ParticipantJoined participant name)
  end.

(** The names of a room that is gone. *)
Definition forget_names (room : Z) : orch () := set_names (filter (fun x => x.2 ≠ room)).

Fixpoint release_rooms (l : list Z) : orch () :=
  match l with
  | [] => mret ()
  | room :: l =>
    e ← read (fun s => DistributedState.room_exists s room);
    n ← (if e : bool then read (fun s => DistributedState.participant_count s room) else mret 1);
    (if n =? 0 then call (DistributedState.RemoveRoom room);; forget_names room else mret ());;
    release_rooms l
  end.

Definition release_created_rooms (participant : Z) : orch () :=
  o ← get;
  match created (rooms o) !! participant with
  | None => mret ()
  | Some l =>
    set_created (delete participant);;
    lift (assert_ (bool_decide (length l ≤ MAX_ROOMS_PER_CREATOR)%nat));;
    release_rooms l
  end.

Definition cleanup_participant_room (participant : Z) : orch () :=
  o ← get;
  match room_of o participant with
  | None => mret ()
  | Some room =>
    call (DistributedState.RemoveParticipant room participant);;
    pids ← read (fun s => DistributedState.get_participants s room);
    notify participant pids (Signal.ParticipantLeft participant);;
    if bool_decide (pids = []) then call (DistributedState.RemoveRoom room);; forget_names room else mret ()
  end.

(** [handle_leave] and [handle_disconnected] *)
Definition handle_leave (participant : Z) : orch () :=
  if participant =? 0 then mret () else
  cleanup_participant_room participant;;
  release_created_rooms participant.

End rooms.
End Rooms.
