(* ===== verification/Negotiation.v ===== *)
(** * Negotiation

    [src/orchestrator/negotiation.rs]: the sessions, offers and answers of the
    participants and their m-lines. Answers are read by the parser and offers
    written by the negotiator of [SdpParser.v]; the candidates that are sent
    are those of [crates/nexus-transport/src/ice/candidate.rs]. *)

From stdpp Require Import strings sorting.
From S2P Require Import Prelude Model Crdt GossipWire DistributedState Handshake Transports SdpParams SdpText SdpModel SdpParser ControlPlane OrchestratorState.

(** ** Candidates of the host

    [crates/nexus-transport/src/ice/candidate.rs] *)

Module Candidates.
Import Text.

Inductive CandidateType := Host | ServerReflexive | PeerReflexive | Relay.
Inductive TransportProtocol := Udp | Tcp.
Inductive TcpType := Active | Passive | SimultaneousOpen.

Definition type_code (t : CandidateType) : Z := match t with Host => 0 | ServerReflexive => 1 | PeerReflexive => 2 | Relay => 3 end.
Definition type_preference (t : CandidateType) : Z := match t with Host => 126 | PeerReflexive => 110 | ServerReflexive => 100 | Relay => 0 end.
Definition type_str (t : CandidateType) : str :=
  match t with Host => lit "host" | ServerReflexive => lit "srflx" | PeerReflexive => lit "prflx" | Relay => lit "relay" end.
Definition protocol_code (t : TransportProtocol) : Z := match t with Udp => 0 | Tcp => 1 end.
Definition protocol_str (t : TransportProtocol) : str := match t with Udp => lit "UDP" | Tcp => lit "TCP" end.
Definition tcp_str (t : TcpType) : str := match t with Active => lit "active" | Passive => lit "passive" | SimultaneousOpen => lit "so" end.

Record Candidate := mkCandidate {
  foundation : Z;
  component : Z;
  transport : TransportProtocol;
  priority : Z;
  address : SocketAddr;
  candidate_type : CandidateType;
  related_address : option SocketAddr;
  tcp_type : option TcpType;
  interface_idx : Z;
  nominated : bool;
}.

Definition calculate_priority {E} (t : CandidateType) (local_pref component : Z) : outcome E Z :=
  assert_ (local_pref <=? 65535);;
  assert_ (1 <=? component);;
  Ok (Z.lor (Z.lor (Z.shiftl (type_preference t) 24) (Z.shiftl (Z.land local_pref 65535) 8)) (256 - component)).

(** [interface_idx] is a [u8]: the difference is not negative. *)
Definition local_preference (a : SocketAddr) (interface_idx : Z) : Z :=
  Z.min 65535 (match a with V6 _ _ _ _ => 65535 | V4 _ _ => 65534 - interface_idx * 256 end).

Definition octets (a : SocketAddr) : list Z := match a with V4 ip _ => to_be 4 ip | V6 ip _ _ _ => to_be 16 ip end.

Definition compute_foundation (W : World) (t : CandidateType) (base : SocketAddr) (p : TransportProtocol) : Z :=
  wrap 32 (hasher W (type_code t) (octets base) (protocol_code p)).

Definition new_host {E} (W : World) (a : SocketAddr) (component interface_idx : Z) : outcome E Candidate :=
  assert_ (1 <=? component);;
  p ← calculate_priority Host (local_preference a interface_idx) component;
  Ok (mkCandidate (compute_foundation W Host a Udp) component Udp p a Host None None interface_idx false).

Definition to_sdp_string (c : Candidate) : str :=
  lit "candidate:" ++ join (lit " ") [dec (foundation c); dec (component c); protocol_str (transport c); dec (priority c);
    Attributes.ip_str (address c); dec (Attributes.port_of (address c)); lit "typ"; type_str (candidate_type c)] ++
  match related_address c with
  | Some r => lit " raddr " ++ Attributes.ip_str r ++ lit " rport " ++ dec (Attributes.port_of r)
  | None => []
  end ++
  match tcp_type c with Some t => lit " tcptype " ++ tcp_str t | None => [] end.

End Candidates.

(** ** Descriptions

    What the orchestrator reads of a description the parser returns: texts as
    their accessors give them, arrays with their counts. *)

Module View.
Import Text SdpModel.

Definition codec_view (c : Attributes.RtpCodec) : Sdp.RtpCodec :=
  Sdp.mkRtpCodec (Attributes.payload_type c) (text_of (Attributes.codec_name_str c)) (Attributes.clock_rate c).
Definition extmap_view (e : Attributes.ExtMap) : Sdp.SdpExtMap := Sdp.mkSdpExt (Attributes.ext_map_id e) (text_of (from_utf8_or [] (Attributes.uri e))).
Definition group_view (g : Media.SsrcGroup) : Sdp.SsrcGroup := Sdp.mkGroup (text_of (from_utf8_or [] (Media.semantics g))) (Media.group_ssrcs g).

Definition media_view (m : Media.MediaDescription) : Sdp.MediaDescription :=
  Sdp.mkMedia (Media.media_type m) (Media.port m) (Media.fingerprint m) (Media.setup m) (Media.direction m) (text_of ∘ Media.as_str <$> Media.mid m)
    (Some ∘ codec_view <$> Media.codecs m) (Z.of_nat (length (Media.codecs m)))
    (Some ∘ extmap_view <$> Media.extmaps m) (Z.of_nat (length (Media.extmaps m)))
    (Some ∘ group_view <$> Media.ssrc_groups m) (Z.of_nat (length (Media.ssrc_groups m)))
    (Attributes.pad Sdp.MAX_SSRCS_PER_MEDIA (Media.ssrc_values m)) (Z.of_nat (length (Media.ssrc_values m))).

Definition view (s : Session.SessionDescription) : Sdp.SessionDescription :=
  Sdp.mkSdp (Session.session_fingerprint s) (Session.session_setup s) (media_view <$> Session.media s).

(** [SdpParser::parse] of the text of a message. A [String] is valid UTF-8:
    other texts do not reach the orchestrator. *)
Definition parse_sdp (sdp : string) : outcome SdpTypes.SdpError Sdp.SessionDescription :=
  fail_if (negb (utf8_valid (lit sdp))) SdpTypes.InvalidFormat;;
  s ← SdpParser.SdpParser.parse (lit sdp);
  Ok (view s).

End View.

Module Negotiation.
Import Orch Mlines.

Definition MAX_PARTICIPANTS_NOTIFIED : nat := Z.to_nat 1000.
Definition V1_VIDEO_FBS : list (string * string) := [("nack", "pli"); ("ccm", "fir")].
Definition V1_AUDIO_FBS : list (string * string) := [].
Definition MAX_REOFFERS : Z := 1.
Definition MAX_CANDIDATES : nat := 32.

Inductive Refused := NotExpected | Invalid.

(** [nexus-{publisher}] *)
Definition identity_of (publisher : Z) : string := Text.text_of (Text.lit "nexus-" ++ Text.dec publisher).

(** [sort_unstable] of the pending subscriptions. *)
Definition pair_le (a b : Z * nat) : Prop := a.1 < b.1 ∨ a.1 = b.1 ∧ (a.2 ≤ b.2)%nat.

#[export] Instance pair_le_dec : RelDecision pair_le.
Proof. unfold RelDecision, pair_le. intros a b. apply _. Defined.

Section negotiation.
Context `{DtlsEngine} (W : World) (cert : Certificate) (shard_candidates : list (list SocketAddr)).

Definition state_of (o : SessionOrchestrator) (participant : Z) : option NegotiationState := negotiation o !! participant.

Definition update (participant : Z) (f : NegotiationState → NegotiationState) : orch () :=
  modify (fun o => match negotiation o !! participant with
                   | Some s => set_negotiation (<[participant := f s]> (negotiation o)) o
                   | None => o
                   end).

Definition add_participant (participant : Z) : orch () :=
  modify (fun o => set_negotiation (<[participant := neg_new]> (negotiation o)) o).

(** ** Sessions *)

Definition ensure_session (participant : Z) : orch (option SessionId) :=
  o ← get;
  match state_of o participant with
  | None => mret None
  | Some s =>
    match session s with
    | Some id => mret (Some id)
    | None =>
      r ← on_plane (Plane.create_session W cert participant);
      match r with
      | None => send_error participant "SESSION_FAILED";; mret None
      | Some id =>
        now ← on_plane (Plane.ask (wall_secs W));
        update participant (set_session id now 0);;
        mret (Some id)
      end
    end
  end.

(** ** m-lines *)

Definition is_free (k : Z) (s : MlineSlot) : bool := bool_decide (role s = Inactive) && (kind s =? k).

Definition claim_mline {E} (k : Z) (r : MlineRole) (s : NegotiationState) : outcome E (string * NegotiationState) :=
  match position (is_free k) (mlines s) with
  | Some i =>
    slot ← expect (mlines s !! i);
    Ok (mid slot, set_mlines (next_mid_index s) (<[i := set_role r slot]> (mlines s)) s)
  | None =>
    assert_ (bool_decide (length (mlines s) < Sdp.MAX_MEDIA_SECTIONS)%nat);;
    let m := Text.text_of (Text.dec (next_mid_index s)) in
    Ok (m, set_mlines (wrapping_add 32 (next_mid_index s) 1) (mlines s ++ [mkSlot m k r]) s)
  end.

(** An m-line that carries [role] and satisfies [p] turns inactive. *)
Definition release_first (p : MlineSlot → bool) (s : NegotiationState) : NegotiationState :=
  match position p (mlines s) with
  | Some i => set_mlines (next_mid_index s) (alter (set_role Inactive) i (mlines s)) s
  | None => s
  end.

(** ** Offers *)

(** [DpTrackId::new] refuses 0. *)
Definition find_track (t : Z) : orch (option Tracks.TrackInfo) :=
  t ← lift (id_new t); gets (fun o => Plane.tracks (plane_of o) !! t).

Definition fbs_of (k : Z) : list (string * string) := if k =? 0 then V1_AUDIO_FBS else V1_VIDEO_FBS.

Definition slot_identity (s : MlineSlot) : orch (option string) :=
  match subscribed_track (role s) with
  | None => mret None
  | Some t => i ← find_track t; mret ((fun i => identity_of (Tracks.publisher i)) <$> i)
  end.

Fixpoint identities_of (l : list MlineSlot) : orch (list (option string)) :=
  match l with [] => mret [] | s :: l => i ← slot_identity s; r ← identities_of l; mret (i :: r) end.

(** The codecs, extensions and defaults of every offer. *)
Definition publish_codec (audio : bool) : outcome SdpTypes.SdpError Attributes.RtpCodec :=
  if audio then Attributes.parse_codec 111 (Text.lit "opus/48000/2") else Attributes.parse_codec 96 (Text.lit "VP8/90000").

Definition publish_extmaps (k : Z) : outcome SdpTypes.SdpError (list Attributes.ExtMap) :=
  mapM (fun e => fail_if (bool_decide (128 < length e.2)%nat) SdpTypes.InvalidFormat;; Ok (Attributes.mkExtMap e.1 None e.2)) (Negotiator.offered_extmaps k).

Record OfferTables := mkTables { offer_codecs : list Attributes.RtpCodec; offer_extmaps : list (list Attributes.ExtMap); offer_defaults : Negotiator.Defaults }.

Definition offer_tables : outcome SdpTypes.SdpError OfferTables :=
  audio ← publish_codec true;
  video ← publish_codec false;
  a ← publish_extmaps 0;
  v ← publish_extmaps 1;
  Ok (mkTables [audio; video] [a; v]
    (Negotiator.mkDefaults Extensions.MID (Negotiator.offered_extmaps 1) (Negotiator.offered_extmaps 0) (Some video) (Some audio) None None)).

(** The negotiator of a session. *)
Definition negotiator_for (ice : IceParams) : outcome SdpTypes.SdpError Negotiator.SdpNegotiator :=
  let fp := Sdp.mkFingerprint Sdp.Sha256 (Attributes.pad 64 (cert_fingerprint cert)) 32 in
  n ← Negotiator.with_defaults (Text.from_utf8_lossy (local_ufrag ice)) (Text.from_utf8_lossy (local_pwd ice)) fp;
  Ok (Negotiator.with_ice_lite true n).

Definition lits (l : list (string * string)) : list (list Z * list Z) := (fun x => (Text.lit x.1, Text.lit x.2)) <$> l.

Definition recycled {E} (t : OfferTables) (s : MlineSlot) (d : Sdp.Direction) (fbs : list (string * string)) : outcome E Negotiator.OfferMline :=
  c ← idx (offer_codecs t) (Z.to_nat (kind s));
  e ← idx (offer_extmaps t) (Z.to_nat (kind s));
  Ok (Negotiator.Recycled (Negotiator.mkRecycled (Text.lit (mid s)) (kind s) [c] [] [] e (lits fbs) d)).

Definition offer_mline {E} (t : OfferTables) (s : MlineSlot) (identity : option string) : outcome E Negotiator.OfferMline :=
  match role s, identity with
  | Publish, _ => recycled t s Sdp.RecvOnly (fbs_of (kind s))
  | Subscribe sub, Some name =>
    Ok (Negotiator.Track (out_ssrc sub) (kind s) (Text.lit (mid s)) (Text.lit name) (Text.lit name) (lits (fbs_of (kind s))) true)
  | _, _ => recycled t s Sdp.Inactive []
  end.

Definition offer_track (s : MlineSlot) (identity : option string) : option Signal.OfferTrack :=
  match role s, identity with
  | Subscribe sub, Some _ => Some (Signal.mkOfferTrack (slot_track sub) (mid s))
  | _, _ => None
  end.

(** [Err] ends the attempt. *)
Definition attempt {E A} (m : outcome E A) : orch (option A) :=
  match m with Ok a => mret (Some a) | Err _ => mret None | Panic => lift Panic end.

Definition build_offer (s : NegotiationState) (id : SessionId) (version : Z) : orch (option (string * list Signal.OfferTrack)) :=
  o ← get;
  match Transports.entries (Plane.transports (plane_of o)) !! id with
  | None => mret None
  | Some e =>
    r ← attempt (n ← negotiator_for (Transports.ice e); t ← offer_tables; Ok (n, t));
    match r with
    | None => mret None
    | Some (n, t) =>
      names ← identities_of (mlines s);
      let pairs := zip (mlines s) names in
      lines ← lift (mapM (fun x => offer_mline t x.1 x.2) pairs);
      r ← attempt (Negotiator.create_ordered_offer n (session_id s) version lines (offer_defaults t));
      mret ((fun x => (Text.text_of x.1, omap (fun x => offer_track x.1 x.2) pairs)) <$> r)
    end
  end.

Fixpoint trickle (participant : Z) (index : Z) (l : list SocketAddr) : orch () :=
  match l with
  | [] => send_to participant Signal.EndOfCandidates
  | a :: l =>
    c ← lift (Candidates.new_host W a 1 (wrap 8 index));
    send_to participant (Signal.IceCandidate (Text.text_of (Candidates.to_sdp_string c)) (Some "0") (Some 0));;
    trickle participant (index + 1) l
  end.

Definition trickle_candidates (participant : Z) (id : SessionId) : orch () :=
  o ← get;
  match Transports.entries (Plane.transports (plane_of o)) !! id with
  | None => mret ()
  | Some e =>
    l ← lift (idx shard_candidates (Z.to_nat (Transports.shard e)));
    trickle participant 0 (take MAX_CANDIDATES l)
  end.

(** A subscribe m-line whose SSRC can no longer be registered gets another. *)
Definition refresh_slot (id : SessionId) (s : MlineSlot) : orch MlineSlot :=
  match role s with
  | Subscribe sub =>
    o ← get;
    match Transports.entries (Plane.transports (plane_of o)) !! id with
    | None => mret s
    | Some e =>
      if on_shard sub || negb (Ssrcs.is_stale (Transports.ssrcs e) (out_ssrc sub)) then mret s else
      r ← on_plane (Plane.with_entry id (zoom Transports.ssrcs Transports.set_ssrcs Ssrcs.allocate));
      match mjoin r with
      | Some x => mret (set_role (Subscribe (mkSubSlot (slot_track sub) (slot_sub sub) x (on_shard sub))) s)
      | None => mret (set_role Inactive s)
      end
    end
  | _ => mret s
  end.

Fixpoint refresh_slots (id : SessionId) (l : list MlineSlot) : orch (list MlineSlot) :=
  match l with [] => mret [] | s :: l => s ← refresh_slot id s; l ← refresh_slots id l; mret (s :: l) end.

Definition refresh_stale_slots (participant : Z) (id : SessionId) (s : NegotiationState) : orch NegotiationState :=
  l ← refresh_slots id (mlines s);
  let s := set_mlines (next_mid_index s) l s in
  update participant (fun _ => s);;
  mret s.

Definition send_ordered_offer (participant : Z) : orch () :=
  o ← get;
  match state_of o participant with
  | None => mret ()
  | Some s =>
    match session s with
    | None => mret ()
    | Some id =>
      if bool_decide (mlines s = []) then mret () else
      lift (assert_ (bool_decide (length (mlines s) ≤ Sdp.MAX_MEDIA_SECTIONS)%nat));;
      s ← refresh_stale_slots participant id s;
      let version := wrapping_add 64 (session_version s) 1 in
      r ← build_offer s id version;
      match r with
      | None => send_error participant "OFFER_FAILED"
      | Some (sdp, tracks) =>
        send_to participant (Signal.Offer sdp tracks);;
        update participant (fun s => set_version version (set_renegotiation false (set_offer_pending true s)));;
        if candidates_sent s then mret () else
        update participant set_candidates_sent;;
        trickle_candidates participant id
      end
    end
  end.

(** ** Publish *)

Fixpoint claim_publish {E} (l : list (string * string)) (s : NegotiationState) : outcome E NegotiationState :=
  match l with
  | [] => Ok s
  | (k, _) :: l =>
    '(m, s) ← claim_mline (if bool_decide (k = "video") then 1 else 0) Publish s;
    claim_publish l (set_unregistered (unregistered_publish_mids s ++ [m]) s)
  end.

Definition handle_publish (participant : Z) (kinds contents : list string) : orch () :=
  if (participant =? 0) || negb (bool_decide (length kinds = length contents)) then mret () else
  o ← get;
  if negb (is_some (room_of o participant)) then send_error participant "NOT_IN_ROOM" else
  match state_of o participant with
  | None => mret ()
  | Some s =>
    let published := List.filter (fun x => bool_decide (x.1 = "audio") || bool_decide (x.1 = "video")) (zip kinds contents) in
    if bool_decide (published = []) then mret () else
    let queued := match pending_publish s with Some l => length l | None => 0%nat end in
    let n := (length (published_tracks s) + length (unregistered_publish_mids s) + queued)%nat in
    if bool_decide (Session.MAX_TRACKS_PER_SESSION < n + length published)%nat
       || bool_decide (Sdp.MAX_MEDIA_SECTIONS < length (mlines s) + length published)%nat
    then send_error participant "TOO_MANY_TRACKS" else
    if offer_pending s then
      update participant (fun s => set_pending_publish (Some (default [] (pending_publish s) ++ published)) s)
    else
    id ← ensure_session participant;
    match id with
    | None => mret ()
    | Some _ =>
      o ← get;
      s ← lift (expect (state_of o participant));
      s ← lift (claim_publish published s);
      update participant (fun _ => s);;
      send_ordered_offer participant
    end
  end.

(** ** Subscriptions *)

(** Subscribe m-lines whose track is not kept turn inactive. *)
Fixpoint drop_slots (sh : ShardId) (participant : Z) (keep : list Z) (l : list MlineSlot) : Plane.plane (list MlineSlot) :=
  match l with
  | [] => mret []
  | s :: l =>
    s ← match role s with
        | Subscribe sub =>
          if bool_decide (slot_track sub ∈ keep) then mret s else
          (if on_shard sub then Plane.push W sh (Unsubscribe (slot_sub sub)) participant;; mret () else mret ());;
          mret (set_role Inactive s)
        | _ => mret s
        end;
    l ← drop_slots sh participant keep l;
    mret (s :: l)
  end.

Definition drop_subscriptions_except (participant : Z) (keep : list Z) : orch () :=
  o ← get;
  match s ← state_of o participant; id ← session s; e ← Transports.entries (Plane.transports (plane_of o)) !! id; Some (s, e) with
  | None => mret ()
  | Some (s, e) =>
    l ← on_plane (drop_slots (Transports.shard e) participant keep (mlines s));
    update participant (fun s => set_mlines (next_mid_index s) l s)
  end.

Definition drop_subscriptions (participant : Z) (tracks : list Z) : orch () :=
  o ← get;
  let keep := match state_of o participant with
              | Some s => List.filter (fun t => negb (bool_decide (t ∈ tracks))) (omap (fun m => subscribed_track (role m)) (mlines s))
              | None => []
              end in
  drop_subscriptions_except participant keep.

Definition new_sub_slot (t : Z) (id : SessionId) : orch (option SubSlot) :=
  r ← on_plane (Plane.with_entry id (zoom Transports.ssrcs Transports.set_ssrcs Ssrcs.allocate));
  match mjoin r with
  | None => mret None
  | Some x => sub ← on_plane (Plane.on_ids Ids.subscription); mret (Some (mkSubSlot t sub x false))
  end.

(** The kinds of the tracks that exist. *)
Fixpoint kinds_of (l : list Z) : orch (list (Z * Z)) :=
  match l with
  | [] => mret []
  | t :: l =>
    i ← find_track t;
    r ← kinds_of l;
    mret (match i with Some i => (t, match Model.kind (Tracks.spec i) with Video => 1 | Audio => 0 end) :: r | None => r end)
  end.

(** A slot for every track that has none; stops when there is no room. *)
Fixpoint claim_subs (participant : Z) (id : SessionId) (l : list (Z * Z)) : orch () :=
  match l with
  | [] => mret ()
  | (t, k) :: l =>
    o ← get;
    s ← lift (expect (state_of o participant));
    if existsb (fun m => bool_decide (subscribed_track (role m) = Some t)) (mlines s) then claim_subs participant id l else
    let subscribed := List.filter (fun m => is_some (subscribed_track (role m))) (mlines s) in
    let has_mline := bool_decide (length (mlines s) < Sdp.MAX_MEDIA_SECTIONS)%nat || existsb (is_free k) (mlines s) in
    if bool_decide (Session.MAX_SUBS_PER_SESSION ≤ length subscribed)%nat || negb has_mline
    then send_error participant "TOO_MANY_TRACKS" else
    slot ← new_sub_slot t id;
    match slot with
    | None => send_error participant "SSRC_EXHAUSTED"
    | Some slot =>
      '(_, s) ← lift (claim_mline k (Subscribe slot) s);
      update participant (fun _ => s);;
      claim_subs participant id l
    end
  end.

Definition trigger_subscriber_renegotiation (participant : Z) (track_ids : list Z) : orch () :=
  o ← get;
  let has_session := match s ← state_of o participant; session s with Some _ => true | None => false end in
  if negb has_session && bool_decide (track_ids = []) then mret () else
  r ← ensure_session participant;
  match r with
  | None => mret ()
  | Some id =>
    drop_subscriptions_except participant track_ids;;
    kinds ← kinds_of track_ids;
    o ← get;
    lift (expect (state_of o participant));;
    update participant (set_last_subscribed track_ids);;
    claim_subs participant id kinds;;
    send_ordered_offer participant
  end.

Definition request_renegotiation (participant : Z) (track_ids : list Z) : orch () :=
  o ← get;
  match state_of o participant with
  | Some s =>
    if offer_pending s then update participant (fun s => set_last_subscribed track_ids (set_renegotiation true s))
    else trigger_subscriber_renegotiation participant track_ids
  | None => mret ()
  end.

(** ** Answers *)

Definition mids_match (answer : Sdp.SessionDescription) (l : list MlineSlot) : bool :=
  bool_decide (length (Sdp.media answer) = length l) &&
  forallb (fun x => bool_decide (Sdp.mid x.1 = Some (mid x.2))) (zip (Sdp.media answer) l).

Definition accept_answer (participant : Z) (sdp : string) : orch (Refused + SessionId * Sdp.SessionDescription) :=
  o ← get;
  match s ← state_of o participant; id ← session s; if offer_pending s then Some (s, id) else None with
  | None => mret (inl NotExpected)
  | Some (s, id) =>
    r ← attempt (View.parse_sdp sdp);
    match r with
    | Some answer =>
      if mids_match answer (mlines s) then mret (inr (id, answer)) else
      update participant (set_offer_pending false);; send_error participant "INVALID_ANSWER";; mret (inl Invalid)
    | None => update participant (set_offer_pending false);; send_error participant "INVALID_ANSWER";; mret (inl Invalid)
    end
  end.

Definition retry_unanswered (participant : Z) : orch () :=
  o ← get;
  match state_of o participant with
  | None => mret ()
  | Some s =>
    let unanswered_subs := existsb (fun m => match role m with Subscribe x => negb (on_shard x) | _ => false end) (mlines s) in
    if offer_pending s || bool_decide (unregistered_publish_mids s = []) && negb unanswered_subs then mret () else
    let n := Z.min 255 (invalid_answers s + 1) in
    update participant (set_invalid_answers n);;
    if n <=? MAX_REOFFERS then send_ordered_offer participant else
    update participant (fun s =>
      let mids := unregistered_publish_mids s in
      set_unregistered [] (set_mlines (next_mid_index s)
        ((fun m => if bool_decide (mid m ∈ mids) then set_role Inactive m else m) <$> mlines s) s))
  end.

Definition dtls_role_from_answer (a : Sdp.SessionDescription) : option DtlsRole :=
  let first := match Sdp.setup a with Some x => Some x | None => head (omap Sdp.media_setup (Sdp.media a)) end in
  match first with
  | None | Some Sdp.Active => Some Server
  | Some Sdp.Passive => Some Client
  | Some Sdp.Actpass | Some Sdp.Holdconn => None
  end.

Definition extract_fingerprint {E} (a : Sdp.SessionDescription) : outcome E (option (list Z)) :=
  let all := match Sdp.fingerprint a with Some f => [f] | None => [] end ++ omap Sdp.media_fingerprint (Sdp.media a) in
  match List.find (fun f => bool_decide (Sdp.algorithm f = Sdp.Sha256) && (Sdp.value_len f =? 32)) all with
  | None => Ok None
  | Some f => v ← slice 0 32 (Sdp.fp_value f); Ok (Some v)
  end.

(** Role and fingerprint of the answer into the handshake; [false] when the
    session is being closed. *)
Definition apply_dtls (participant : Z) (id : SessionId) (a : Sdp.SessionDescription) : orch bool :=
  let refuse := on_plane (Plane.close_participant participant Plane.DtlsFailed);; mret false in
  match dtls_role_from_answer a with
  | None => refuse
  | Some r =>
    fp ← lift (extract_fingerprint a);
    match fp with
    | None => refuse
    | Some fp =>
      result ← on_plane (Plane.on_dtls id (Dtls.on_answer r fp));
      match result with
      | None => mret false
      | Some (inr progress) =>
        on_plane (Plane.send_datagrams W id (Dtls.datagrams progress));;
        (if Dtls.completed progress then on_plane (Plane.install_srtp W id) else mret ());;
        mret true
      | Some (inl _) => refuse
      end
    end
  end.

(** ** Tracks *)

(** Whether none of the peer's SSRCs is one the session uses; stops at the
    first that is. *)
Fixpoint note_all {E} (l : list Z) : st Ssrcs.SsrcAllocator E bool :=
  match l with
  | [] => mret true
  | x :: l => ok ← Ssrcs.note_peer_ssrc x; if ok : bool then note_all l else mret false
  end.

Definition kind_name (k : MediaKind) : string := match k with Audio => "audio" | Video => "video" end.

Definition notify_track_published (publisher t : Z) (k : MediaKind) : orch () :=
  o ← get;
  match room_of o publisher with
  | None => mret ()
  | Some room =>
    pids ← Rooms.read W (fun s => DistributedState.get_participants s room);
    for_each (take MAX_PARTICIPANTS_NOTIFIED pids) (fun pid =>
      if pid =? publisher then mret () else
      send_to pid (Signal.TrackPublished publisher t (kind_name k) (match k with Audio => "audio" | Video => "camera" end)))
  end.

(** A track of the publisher already uses the SSRC. *)
Definition publishes_ssrc (p : Plane.Plane) (publisher : Z) (x : option Z) : bool :=
  is_some x && existsb (fun t => match Plane.tracks p !! t with
                                 | Some i => bool_decide (spec_ssrc (Tracks.spec i) = x)
                                 | None => false
                                 end) (Tracks.by_publisher (Plane.tracks p) publisher).

Definition register_publish (participant : Z) (id : SessionId) (m : Sdp.MediaDescription) : orch bool :=
  o ← get;
  match room_of o participant with
  | None => mret false
  | Some room =>
    let published := match state_of o participant with Some s => length (published_tracks s) | None => 0%nat end in
    if bool_decide (Session.MAX_TRACKS_PER_SESSION ≤ published)%nat then send_error participant "TOO_MANY_TRACKS";; mret false else
    match SdpParams.track_spec m (as_bytes (identity_of participant)) with
    | Panic => lift Panic
    | Err _ => send_error participant "INVALID_TRACK";; mret false
    | Ok None => mret false
    | Ok (Some spec) =>
      match Transports.entries (Plane.transports (plane_of o)) !! id with
      | None => mret false
      | Some entry =>
        peers ← lift (Sdp.get_ssrc_values m);
        ok ← on_plane (Plane.with_entry id (zoom Transports.ssrcs Transports.set_ssrcs (note_all peers)));
        if negb (default false ok) then send_error participant "SSRC_COLLISION";; mret false else
        o ← get;
        if publishes_ssrc (plane_of o) participant (spec_ssrc spec) then send_error participant "DUPLICATE_SSRC";; mret false else
        track ← on_plane (Plane.on_ids Ids.track);
        pushed ← on_plane (Plane.push W (Transports.shard entry) (AddTrack id track spec) participant);
        if negb pushed then mret false else
        let content := match Model.kind spec with Audio => 2 | Video => 0 end in
        on_plane (Plane.insert_track track (Tracks.mkTrackInfo participant id (Transports.shard entry) room spec content));;
        Rooms.call W (DistributedState.AddTrack track
          (Gossip.mkTrack (match Model.kind spec with Audio => 0 | Video => 1 end) content 0 0 0));;
        update participant (fun s => set_published (published_tracks s ++ [track]) s);;
        notify_track_published participant track (Model.kind spec);;
        send_to participant (Signal.Published track (default EmptyString (Sdp.mid m)) (kind_name (Model.kind spec)));;
        mret true
      end
    end
  end.

(** The subscribe m-lines the answer may put on the shard, by offset. *)
Definition pending_subs (ssrcs : Ssrcs.SsrcAllocator) (l : list MlineSlot) : list (Z * nat) :=
  merge_sort pair_le (omap (fun x : nat * MlineSlot =>
    match role x.2 with
    | Subscribe s => if negb (on_shard s) && negb (Ssrcs.is_stale ssrcs (out_ssrc s)) then Some (Ssrcs.offset_of ssrcs (out_ssrc s), x.1) else None
    | _ => None
    end) (zip (seq 0 (length l)) l)).

Definition set_slot (participant : Z) (i : nat) (r : MlineRole) : orch () :=
  update participant (fun s => set_mlines (next_mid_index s) (alter (set_role r) i (mlines s)) s).

Fixpoint subscribe_each (participant : Z) (id : SessionId) (sh : ShardId) (a : Sdp.SessionDescription) (l : list (Z * nat))
  : orch (list Z) :=
  match l with
  | [] => mret []
  | (_, index) :: l =>
    o ← get;
    s ← lift (expect (state_of o participant));
    m ← lift (idx (mlines s) index);
    match role m with
    | Subscribe slot =>
      info ← find_track (slot_track slot);
      match info with
      | None => subscribe_each participant id sh a l
      | Some info =>
        media ← lift (idx (Sdp.media a) index);
        match SdpParams.sub_spec media (Tracks.spec info) (out_ssrc slot) (mkTrackRef (Tracks.track_shard info) (slot_track slot)) with
        | Panic => lift Panic
        | Ok None => subscribe_each participant id sh a l
        | Err _ => send_error participant "SUBSCRIBE_FAILED";; subscribe_each participant id sh a l
        | Ok (Some spec) =>
          pushed ← on_plane (Plane.push W sh (Model.Subscribe id (slot_sub slot) (slot_track slot) spec) participant);
          if negb pushed then mret [] else
          on_plane (Plane.with_entry id (zoom Transports.ssrcs Transports.set_ssrcs (Ssrcs.mark_registered (out_ssrc slot))));;
          set_slot participant index (Subscribe (mkSubSlot (slot_track slot) (slot_sub slot) (out_ssrc slot) true));;
          r ← subscribe_each participant id sh a l;
          mret (slot_track slot :: r)
        end
      end
    | _ => subscribe_each participant id sh a l
    end
  end.

Definition register_subscriptions (participant : Z) (id : SessionId) (a : Sdp.SessionDescription) : orch (list Z) :=
  o ← get;
  match s ← state_of o participant; e ← Transports.entries (Plane.transports (plane_of o)) !! id; Some (s, e) with
  | None => mret []
  | Some (s, e) => subscribe_each participant id (Transports.shard e) a (pending_subs (Transports.ssrcs e) (mlines s))
  end.

Definition is_publish (s : MlineSlot) : bool := bool_decide (role s = Publish).

Definition release_unregistered_publish (participant : Z) (m : string) : orch () :=
  update participant (release_first (fun s => is_publish s && bool_decide (mid s = m))).

Definition release_publish (participant t : Z) (m : list Z) : orch () :=
  update participant (fun s => release_first (fun x => is_publish x && bool_decide (as_bytes (mid x) = m))
    (set_published (List.filter (fun x => negb (x =? t)) (published_tracks s)) s)).

Definition after_answer (participant : Z) : orch () :=
  o ← get;
  match state_of o participant with
  | None => mret ()
  | Some s =>
    update participant (fun s => set_pending_publish None (set_renegotiation false s));;
    (if renegotiation_needed s then trigger_subscriber_renegotiation participant (last_subscribed_track_ids s) else mret ());;
    match pending_publish s with
    | Some l => handle_publish participant l.*1 l.*2
    | None => mret ()
    end
  end.

(** The publish m-lines of the answer become tracks, or are released. *)
Fixpoint register_each (participant : Z) (id : SessionId) (mids : list string) (l : list Sdp.MediaDescription) : orch () :=
  match l with
  | [] => mret ()
  | m :: l =>
    (match Sdp.mid m with
     | Some x =>
       if bool_decide (x ∈ mids) then
         ok ← register_publish participant id m;
         if ok : bool then mret () else release_unregistered_publish participant x
       else mret ()
     | None => mret ()
     end);;
    register_each participant id mids l
  end.

(** The tracks whose subscriptions went onto the shard. *)
Definition handle_answer (participant : Z) (sdp : string) : orch (list Z) :=
  r ← accept_answer participant sdp;
  match r with
  | inl Invalid => after_answer participant;; retry_unanswered participant;; mret []
  | inl NotExpected => mret []
  | inr (id, answer) =>
    ok ← apply_dtls participant id answer;
    if negb ok then mret [] else
    o ← get;
    s ← lift (expect (state_of o participant));
    update participant (fun s => set_offer_pending false (set_unregistered [] (set_invalid_answers 0 s)));;
    register_each participant id (unregistered_publish_mids s) (Sdp.media answer);;
    activated ← register_subscriptions participant id answer;
    after_answer participant;;
    mret activated
  end.

(** ** Removed tracks *)

Definition forget_slot (tracks : list Z) (m : MlineSlot) : MlineSlot :=
  match subscribed_track (role m) with
  | Some t => if bool_decide (t ∈ tracks) then set_role Inactive m else m
  | None => m
  end.

Definition forwards (tracks : list Z) (s : NegotiationState) : bool :=
  existsb (fun m => match subscribed_track (role m) with Some t => bool_decide (t ∈ tracks) | None => false end) (mlines s).

(** The participants that had one of the tracks. *)
Definition forget_tracks (tracks : list Z) : orch (list Z) :=
  o ← get;
  put (set_negotiation ((fun s => set_mlines (next_mid_index s) (forget_slot tracks <$> mlines s) s) <$> negotiation o) o);;
  mret (sort_ids (map_to_list (filter (fun x => forwards tracks x.2 = true) (negotiation o))).*1).

Definition cleanup_participant (participant : Z) : orch (list Z) :=
  o ← get;
  let s := state_of o participant in
  put (set_negotiation (delete participant (negotiation o)) o);;
  removed ← on_plane (Plane.on_tracks (Tracks.remove_publisher participant));
  for_each removed (fun t => Rooms.call W (DistributedState.RemoveTrack t);; mret ());;
  (match s ≫= session with Some id => on_plane (Plane.close_session W id) | None => mret () end);;
  mret removed.

End negotiation.
End Negotiation.
