(* ===== verification/Orchestrator.v ===== *)
(** * The session orchestrator

    [src/orchestrator/mod.rs] (the dispatcher) and [subscription.rs]. A step
    of [SessionOrchestrator::run] is one signaling event, one event of a
    shard or one timer tick, followed by [settle]. *)

From stdpp Require Import strings.
From S2P Require Import Prelude Model Crdt DistributedState Handshake Transports SdpParams ControlPlane OrchestratorState Negotiation.

Module Subscriptions.
Import Orch.

Definition MAX_TRACKS_PER_REQUEST : nat := 10.

Section subscriptions.
Context `{DtlsEngine} (W : World) (cert : Certificate) (shard_candidates : list (list SocketAddr)).

Definition subs_of (o : SessionOrchestrator) (participant : Z) : option (list (Z * SubState)) := subscription o !! participant.

Definition set_subs (participant : Z) (v : list (Z * SubState)) : orch () :=
  modify (fun o => set_subscription (<[participant := v]> (subscription o)) o).

Definition track_ids (o : SessionOrchestrator) (participant : Z) : list Z := (default [] (subs_of o participant)).*1.

Definition in_room (o : SessionOrchestrator) (room t : Z) : bool :=
  negb (t =? 0) && match Plane.tracks (plane_of o) !! t with Some i => Tracks.room i =? room | None => false end.

(** Tracks of the room that are new to the participant, each once. *)
Definition accept_tracks (o : SessionOrchestrator) (room : Z) (have : list (Z * SubState)) (ids : list Z) : list Z :=
  foldl (fun acc t => if in_room o room t && negb (existsb (fun x => x.1 =? t) have) && negb (bool_decide (t ∈ acc)) then acc ++ [t] else acc) [] ids.

Definition handle_subscribe (participant : Z) (ids : list Z) : orch () :=
  o ← get;
  match subs_of o participant with
  | None => mret ()
  | Some have =>
    match room_of o participant with
    | None => send_error participant "NOT_IN_ROOM"
    | Some room =>
      if bool_decide (MAX_TRACKS_PER_REQUEST < length ids)%nat then send_error participant "TOO_MANY_TRACKS" else
      let accepted := accept_tracks o room have ids in
      if bool_decide (accepted = []) then mret () else
      if bool_decide (Session.MAX_SUBS_PER_SESSION < length have + length accepted)%nat then send_error participant "TOO_MANY_TRACKS" else
      let now := have ++ ((fun t => (t, Negotiating)) <$> accepted) in
      set_subs participant now;;
      send_to participant (Signal.Subscribed accepted);;
      Negotiation.request_renegotiation W cert shard_candidates participant now.*1
    end
  end.

(** The tracks of the request that were subscribed. *)
Fixpoint unsubscribe_each (participant : Z) (ids : list Z) : orch (list Z) :=
  match ids with
  | [] => mret []
  | t :: ids =>
    o ← get;
    let have := default [] (subs_of o participant) in
    match position (fun x => x.1 =? t) have with
    | None => unsubscribe_each participant ids
    | Some i =>
      x ← lift (expect (have !! i));
      set_subs participant (delete i have);;
      (if bool_decide (x.2 = ActiveSub) then Rooms.call W (DistributedState.RemoveSubscription t participant);; mret () else mret ());;
      r ← unsubscribe_each participant ids;
      mret (t :: r)
    end
  end.

Definition handle_unsubscribe (participant : Z) (ids : list Z) : orch () :=
  o ← get;
  match subs_of o participant with
  | None => mret ()
  | Some _ =>
    removed ← unsubscribe_each participant ids;
    if bool_decide (removed = []) then mret () else
    Negotiation.drop_subscriptions W participant removed;;
    send_to participant (Signal.Unsubscribed removed);;
    o ← get;
    Negotiation.request_renegotiation W cert shard_candidates participant (track_ids o participant)
  end.

(** The subscriptions that became active, in order. *)
Fixpoint activate_each (participant : Z) (tracks : list Z) (l : list (Z * SubState)) : orch (list (Z * SubState)) :=
  match l with
  | [] => mret []
  | (t, x) :: l =>
    x ← (if bool_decide (x = Negotiating) && bool_decide (t ∈ tracks)
         then Rooms.call W (DistributedState.AddSubscription t participant);; mret ActiveSub else mret x);
    l ← activate_each participant tracks l;
    mret ((t, x) :: l)
  end.

Definition activate (participant : Z) (tracks : list Z) : orch () :=
  o ← get;
  match subs_of o participant with
  | None => mret ()
  | Some l => l ← activate_each participant tracks l; set_subs participant l
  end.

(** What [retain] keeps of one participant's subscriptions. *)
Fixpoint retain_tracks (participant : Z) (tracks : list Z) (l : list (Z * SubState)) : orch (list (Z * SubState)) :=
  match l with
  | [] => mret []
  | (t, x) :: l =>
    let gone := bool_decide (t ∈ tracks) in
    (if gone && bool_decide (x = ActiveSub) then Rooms.call W (DistributedState.RemoveSubscription t participant);; mret () else mret ());;
    r ← retain_tracks participant tracks l;
    mret (if gone then r else (t, x) :: r)
  end.

(** The participants, in the order of the hash map, that lost a track. *)
Fixpoint forget_each (tracks : list Z) (pids : list Z) : orch (list Z) :=
  match pids with
  | [] => mret []
  | p :: pids =>
    o ← get;
    let l := default [] (subs_of o p) in
    l' ← retain_tracks p tracks l;
    set_subs p l';;
    r ← forget_each tracks pids;
    mret (if bool_decide (length l' = length l) then r else p :: r)
  end.

Definition forget_tracks (tracks : list Z) : orch (list Z) :=
  f ← on_plane (Plane.ask (fun k => hash_order W Z k));
  o ← get;
  r ← forget_each tracks (f (map_to_list (subscription o)).*1);
  mret (sort_ids r).

Definition handle_viewport (participant : Z) (visible pinned : list Z) : orch () :=
  o ← get;
  if is_some (subs_of o participant)
  then send_to participant (Signal.ViewportUpdated (wrap 32 (Z.of_nat (length visible))) (wrap 32 (Z.of_nat (length pinned))))
  else mret ().

Definition content_of (content : string) : option Z :=
  if bool_decide (content = "camera") then Some 0 else if bool_decide (content = "screen") then Some 1
  else if bool_decide (content = "audio") then Some 2 else None.

Definition handle_set_content (participant t : Z) (content : string) : orch () :=
  match content_of content with
  | None => send_error participant "INVALID_CONTENT"
  | Some c =>
    o ← get;
    match (if t =? 0 then None else Plane.tracks (plane_of o) !! t) with
    | Some i =>
      if Tracks.publisher i =? participant then
        on_plane (Plane.on_tracks (modify (insert t (Tracks.set_content_type c i))));;
        send_to participant (Signal.ContentSet t content)
      else send_error participant "NOT_OWNER"
    | None => send_error participant "NOT_OWNER"
    end
  end.

Definition cleanup_participant (participant : Z) : orch () :=
  o ← get;
  match subs_of o participant with
  | None => mret ()
  | Some l =>
    put (set_subscription (delete participant (subscription o)) o);;
    for_each l (fun x => Rooms.call W (DistributedState.RemoveSubscription x.1 participant);; mret ())
  end.

End subscriptions.
End Subscriptions.

Module Orchestrator.
Import Orch.

Definition MAX_ROOM_NOTIFY : nat := Z.to_nat 1000.
Definition EVENT_BATCH : nat := 256.

Section orchestrator.
Context `{DtlsEngine} (W : World) (cert : Certificate) (shard_candidates : list (list SocketAddr)).

Definition new {E} (state : DistributedState.State) (shard_count : nat) : outcome E SessionOrchestrator :=
  assert_ (bool_decide (length shard_candidates = shard_count));;
  assert_ (forallb (fun c => negb (bool_decide (c = []))) shard_candidates);;
  Ok (mkOrch ∅ (mkRooms ∅ ∅) ∅ ∅
    (Plane.mkPlane Transports.new ∅ Ids.new [] [] [] [] state 0) []).

Definition handle_connected (participant : Z) (g : RoomGrant) : orch () :=
  if participant =? 0 then mret () else
  modify (fun o => set_sessions (<[participant := mkHandle g None []]> (sessions o)) o);;
  Negotiation.add_participant participant;;
  Subscriptions.set_subs participant [].

Definition notify_unpublished (participant : Z) (tracks : list Z) : orch () :=
  o ← get;
  match room_of o participant with
  | None => mret ()
  | Some room =>
    pids ← Rooms.read W (fun s => DistributedState.get_participants s room);
    for_each tracks (fun t => for_each (take MAX_ROOM_NOTIFY pids) (fun pid =>
      if pid =? participant then mret () else send_to pid (Signal.TrackUnpublished t)))
  end.

(** [sort_unstable] and [dedup] *)
Fixpoint dedup (l : list Z) : list Z :=
  match l with
  | [] => []
  | x :: l => match l with y :: _ => if x =? y then dedup l else x :: dedup l | [] => [x] end
  end.

Definition on_tracks_removed (tracks : list Z) : orch () :=
  if bool_decide (tracks = []) then mret () else
  a ← Negotiation.forget_tracks tracks;
  b ← Subscriptions.forget_tracks W tracks;
  for_each (dedup (sort_ids (a ++ b))) (fun p =>
    o ← get;
    if is_some (sessions o !! p)
    then Negotiation.request_renegotiation W cert shard_candidates p (Subscriptions.track_ids o p)
    else mret ()).

Definition cleanup_participant (participant : Z) : orch () :=
  o ← get;
  notify_unpublished participant (match sessions o !! participant with Some h => handle_tracks h | None => [] end);;
  Subscriptions.cleanup_participant W participant;;
  removed ← Negotiation.cleanup_participant W participant;
  modify (fun o => set_sessions (delete participant (sessions o)) o);;
  on_tracks_removed removed.

Definition close_participant (participant : Z) (reason : Plane.DisconnectReason) : orch () :=
  o ← get;
  if negb (is_some (sessions o !! participant)) then mret () else
  send_error participant (Plane.code reason);;
  Rooms.handle_leave W participant;;
  cleanup_participant participant.

Definition set_handle_tracks (participant : Z) (f : list Z → list Z) : orch () :=
  modify (fun o => match sessions o !! participant with
                   | Some h => set_sessions (<[participant := mkHandle (grant h) (room_id h) (f (handle_tracks h))]> (sessions o)) o
                   | None => o
                   end).

Definition handle_answer (participant : Z) (sdp : string) : orch () :=
  if bool_decide (sdp = EmptyString) then mret () else
  activated ← Negotiation.handle_answer W cert shard_candidates participant sdp;
  Subscriptions.activate W participant activated;;
  o ← get;
  let tracks := match Negotiation.state_of o participant with Some s => Mlines.published_tracks s | None => [] end in
  set_handle_tracks participant (fun _ => tracks).

(** The tracks removed. *)
Fixpoint unpublish_each (participant : Z) (ids : list Z) : orch (list Z) :=
  match ids with
  | [] => mret []
  | t :: ids =>
    o ← get;
    match (if t =? 0 then None else Plane.tracks (plane_of o) !! t) with
    | None => unpublish_each participant ids
    | Some i =>
      if negb (Tracks.publisher i =? participant) then send_error participant "NOT_OWNER";; unpublish_each participant ids else
      pushed ← on_plane (Plane.push W (Tracks.track_shard i) (RemoveTrack t) participant);
      if negb pushed then mret [] else
      removed ← on_plane (Plane.on_tracks (Tracks.remove t));
      (match removed with Some i => Negotiation.release_publish participant t (track_mid (Tracks.spec i)) | None => mret () end);;
      Rooms.call W (DistributedState.RemoveTrack t);;
      r ← unpublish_each participant ids;
      mret (t :: r)
    end
  end.

Definition handle_unpublish (participant : Z) (ids : list Z) : orch () :=
  removed ← unpublish_each participant (take Sdp.MAX_MEDIA_SECTIONS ids);
  set_handle_tracks participant (List.filter (fun t => negb (bool_decide (t ∈ removed))));;
  notify_unpublished participant removed;;
  on_tracks_removed removed.

Definition handle_message (participant : Z) (msg : Signal.SignalMessage) : orch () :=
  o ← get;
  if (participant =? 0) || negb (is_some (sessions o !! participant)) then mret () else
  match msg with
  | Signal.Create name => Rooms.handle_create W participant name
  | Signal.Join room name => Rooms.handle_join W participant room name
  | Signal.Publish kinds contents => Negotiation.handle_publish W cert shard_candidates participant kinds contents
  | Signal.Answer sdp => handle_answer participant sdp
  | Signal.IceCandidate _ _ _ => mret ()
  | Signal.Subscribe ids => Subscriptions.handle_subscribe W cert shard_candidates participant ids
  | Signal.Unsubscribe ids => Subscriptions.handle_unsubscribe W cert shard_candidates participant ids
  | Signal.Viewport visible pinned => Subscriptions.handle_viewport participant visible pinned
  | Signal.SetContent t content => Subscriptions.handle_set_content participant t content
  | Signal.Leave => Rooms.handle_leave W participant;; cleanup_participant participant
  | Signal.Ping => send_to participant Signal.Pong
  | Signal.Unpublish ids => handle_unpublish participant ids
  | _ => mret ()
  end.

Definition handle_participant_disconnected (participant : Z) : orch () :=
  if participant =? 0 then mret () else
  Rooms.handle_leave W participant;;
  cleanup_participant participant.

Definition dispatch_event (ev : Signal.OrchestratorEvent) : orch () :=
  match ev with
  | Signal.Connected p g => handle_connected p g
  | Signal.Message p m => handle_message p m
  | Signal.Disconnected p => handle_participant_disconnected p
  end.

(** One more round than there are participants. *)
Fixpoint settle_rounds (rounds : nat) : orch () :=
  match rounds with
  | O => mret ()
  | S rounds =>
    closing ← on_plane Plane.take_closing;
    if bool_decide (closing = []) then mret () else
    for_each closing (fun x => close_participant x.1 x.2);;
    settle_rounds rounds
  end.

Definition settle : orch () := o ← get; settle_rounds (S (size (sessions o))).

(** ** The loop *)

Inductive wakeup :=
| Signaled (ev : Signal.OrchestratorEvent)
| Happened (evs : list Event)
| DtlsTick
| SweepTick.

(** The branch of [select!] that was taken; [Happened] is a batch of at most
    [EVENT_BATCH] events. *)
Definition wake (w : wakeup) : orch () :=
  match w with
  | Signaled ev => dispatch_event ev
  | Happened evs => for_each evs (fun ev => on_plane (Connection.handle_event W ev))
  | DtlsTick => on_plane (Connection.poll_dtls W)
  | SweepTick => on_plane (now ← Plane.ask (instant W); Connection.sweep W now)
  end.

(** One round of the loop of [run]. *)
Definition iteration (w : wakeup) : orch () := wake w;; settle.

Definition run (ws : list wakeup) : orch () := for_each ws iteration.

End orchestrator.
End Orchestrator.
