(* ===== verification/PlaneProofs.v ===== *)
(** * The control plane keeps its tables

    What the parameters of the orchestrator promise, the invariant of the
    plane and, for every operation, that it does not panic, keeps the
    invariant and sends only commands the shard's invariant admits. *)

From stdpp Require Import strings.
From S2P Require Import Prelude Wp Keys Model ShardInv Crdt DistributedState DistributedProofs Handshake Transports HandshakeProofs SdpParams ControlPlane.

(** ** What the parameters promise *)

(** OpenSSL: byte strings, and key material that fits its profile. *)
Class EngineLaws `{En : DtlsEngine} : Prop := {
  start_bytes : ∀ e out e', start_handshake e = (inr out, e') → bytes out;
  process_bytes : ∀ d e out e', engine_process d e = (inr out, e') → bytes out;
  timeout_bytes : ∀ e out e', engine_timeout e = (inr out, e') → bytes out;
  keys_exported : ∀ e k, srtp_keys e = Some k → DtlsProofs.exported k;
  fingerprint_typed : ∀ c, length (cert_fingerprint c) = 32%nat ∧ bytes (cert_fingerprint c);
}.

(** The other threads use the replicated state through its calls; there is a
    shard; the clock is past 1970 and before the year 2554; a hash map yields
    each of its keys once. *)
Record world_ok (W : World) : Prop := {
  others_ok : ∀ k s, DistributedProofs.inv s → DistributedProofs.inv (others W k s);
  loads_ok : ∀ k, loads W k ≠ [];
  wall_clock_ok : ∀ k, DistributedProofs.wall_ok (wall_ns W k);
  hash_order_ok : ∀ A k (l : list A), hash_order W A k l ≡ₚ l;
}.

Module HandshakeBytes.
Import Dtls.

Section bytes.
Context `{En : DtlsEngine} {Laws : EngineLaws}.

Lemma concat_bytes (l : list (list Z)) : bytes (concat l) → Forall bytes l.
Proof.
  induction l as [|x l IH]; [constructor|]. rewrite concat_cons. intros [? ?]%Forall_app. constructor; [done|by apply IH].
Qed.

Lemma split_bytes r ds : split_records r = Ok ds → bytes r → Forall bytes ds.
Proof.
  intros Hs Hr. pose proof (DtlsProofs.split_records_spec r) as H. rewrite Hs in H. destruct H as [Hc _]. apply concat_bytes. by rewrite Hc.
Qed.


(** The datagrams a step produces, whatever else it does. *)
Definition sends_bytes (m : step (list (list Z))) (h : DtlsHandshake) : Prop := wlp m h (fun ds _ => Forall bytes ds) (fun _ _ => True).
Definition progress_bytes (m : step Progress) (h : DtlsHandshake) : Prop := wlp m h (fun p _ => Forall bytes (datagrams p)) (fun _ _ => True).

Lemma split_sends out h : bytes out → sends_bytes (lift (split_records out)) h.
Proof. unfold sends_bytes. intros Ho. apply wlp_lift; [|done]. intros ds Hs. by eapply split_bytes. Qed.

Lemma start_sends r h : sends_bytes (start_engine r) h.
Proof. unfold sends_bytes.
  unfold start_engine. wp. apply wlp_assert. intros _. destruct (start_handshake _) as [[x|out] e] eqn:Es; wp; [done|].
  apply split_sends. by eapply start_bytes.
Qed.

Lemma wlp_true {A} (m : step A) h : wlp m h (fun _ _ => True) (fun _ _ => True).
Proof. unfold run_to. by destruct (m h) as [[]|[]|]. Qed.

Lemma wlp_fail {A} (m : step A) h (Q : A → DtlsHandshake → Prop) : wlp m h Q (fun _ _ => True) → wlp (fail_on_error m) h Q (fun _ _ => True).
Proof. unfold run_to, fail_on_error. by destruct (m h) as [[]|[]|]. Qed.

Lemma complete_bytes ds h : Forall bytes ds → progress_bytes (c ← check_completion; mret (mkProgress ds c)) h.
Proof. unfold progress_bytes. intros Hd. wp. eapply wp_mono; [apply wlp_true|]. intros c h' _. by wp. Qed.

Lemma idle_sends r h : sends_bytes (start_if_idle r) h.
Proof. unfold sends_bytes.
  unfold start_if_idle. wp. destruct (negb _); [by wp|]. case_bool_decide; [wp; eapply wp_mono; [apply wlp_true|]; intros; by wp|].
  destruct (address_selected h); [apply start_sends|by wp].
Qed.

Lemma answer_progress_bytes r fp h : progress_bytes (on_answer r fp) h.
Proof. unfold progress_bytes.
  unfold on_answer. wp. eapply wp_mono; [apply wlp_true|]. intros _ h1 _. apply wlp_fail. unfold apply_answer.
  destruct (forallb _ _); wp; [done|].
  assert (Hrest : ∀ h2, wlp (match role h1 with
      | Some fixed => if bool_decide (fixed = r) then modify (set_role r) else throw (RoleConflict fixed r)
      | None => modify (set_role r)
      end;; ds ← start_if_idle r; c ← check_completion; mret (mkProgress ds c)) h2 (fun p _ => Forall bytes (datagrams p)) (fun _ _ => True)).
  { intros h2. wp. eapply wp_mono; [apply wlp_true|]. intros _ h3 _. wp. eapply wp_mono; [apply idle_sends|]. intros ds h4 Hd. by apply complete_bytes. }
  eapply wp_mono; [apply wlp_true|]. intros _ h2 _. apply Hrest.
Qed.

Lemma selected_bytes h : progress_bytes on_address_selected h.
Proof. unfold progress_bytes.
  unfold on_address_selected. wp. eapply wp_mono; [apply wlp_true|]. intros _ h1 _. wp. destruct (_ && _); wp; [|by constructor].
  apply wlp_fail. eapply wp_mono; [apply start_sends|]. intros ds h2 Hd. by wp.
Qed.

Lemma datagram_bytes d h : progress_bytes (process d) h.
Proof. unfold progress_bytes.
  unfold process. destruct (_ || _); wp; [done|]. eapply wp_mono; [apply wlp_true|]. intros _ h1 _. wp. case_bool_decide; [wp; by constructor|].
  apply wlp_fail. unfold feed. wp. eapply wp_mono; [apply wlp_true|]. intros [] h2 _; cbn [negb]; wp; [|by constructor].
  apply wlp_lift; [|done]. intros e He. unfold on_engine. destruct (engine_process d e) as [[x|out] e'] eqn:Ep; wp; [done|].
  eapply wp_mono; [apply split_sends; by eapply process_bytes|]. intros ds h3 Hd. by apply complete_bytes.
Qed.

Lemma timeout_sends h : sends_bytes handle_timeout h.
Proof. unfold sends_bytes.
  unfold handle_timeout. wp. eapply wp_mono; [apply wlp_true|]. intros _ h1 _. wp. destruct (engine h1) as [e|]; [|wp; by constructor].
  destruct (negb _); [wp; by constructor|]. apply wlp_fail. wp. unfold on_engine. destruct (engine_timeout e) as [[x|out] e'] eqn:Ep; wp; [done|].
  apply split_sends. by eapply timeout_bytes.
Qed.

End bytes.
End HandshakeBytes.

Module PlaneProofs.
Import Transports Plane.

(** ** The invariant *)

Definition one_byte_id (x : Z) : Prop := 0 ≤ x ≤ 14.

Definition spec_ok (s : TrackSpec) : Prop :=
  0 ≤ pt (codec s) ≤ 127 ∧ one_byte_id (ext_mid (ext s)) ∧ one_byte_id (audio_level (ext s)) ∧ one_byte_id (video_orientation (ext s)).

(** A command other than [Subscribe] that the shard can take. *)
Definition plain (c : Command) : Prop := ShardInv.command_ok c ∧ match c with Model.Subscribe _ _ _ _ => False | _ => True end.

Section plane.
Context `{En : DtlsEngine} {Laws : EngineLaws}.
Implicit Types (p : Plane) (e : TransportEntry).

(** Credentials as they are drawn. *)
Definition ice_drawn (i : IceParams) : Prop :=
  (length (local_ufrag i) = 16%nat ∧ Forall (fun b => b ∈ ICE_CHARS) (local_ufrag i)) ∧
  (length (local_pwd i) = 32%nat ∧ Forall (fun b => b ∈ ICE_CHARS) (local_pwd i)).

Record entry_ok p (id : SessionId) e : Prop := {
  eo_id : 0 < id < Ids.next_session (ids p);
  eo_by : by_participant (transports p) !! participant e = Some id;
  eo_shard : shard e = 0;
  eo_ssrcs : SsrcProofs.ok (ssrcs e);
  eo_dtls : ∃ cs, DtlsProofs.inv cs (dtls e);
  eo_srtp : srtp_installed e = true → Dtls.hs_state (dtls e) ≠ Dtls.Running;
  eo_ice : ice_drawn (ice e);
}.

Record pok p : Prop := {
  po_entries : map_Forall (entry_ok p) (entries (transports p));
  po_by : ∀ q id, by_participant (transports p) !! q = Some id → ∃ e, entries (transports p) !! id = Some e ∧ participant e = q;
  po_size : size (entries (transports p)) = size (by_participant (transports p));
  po_tracks : map_Forall (fun t i => 0 < t < Ids.next_track (ids p) ∧ spec_ok (Tracks.spec i)) (tracks p);
  po_ids : 1 ≤ Ids.next_session (ids p) ∧ 1 ≤ Ids.next_track (ids p) ∧ 1 ≤ Ids.next_subscription (ids p);
  po_cluster : DistributedProofs.inv (cluster p);
}.

(** ** What a step may change *)

Definition ssrcs_grow (a a' : Ssrcs.SsrcAllocator) : Prop :=
  Ssrcs.base a' = Ssrcs.base a ∧ Ssrcs.next_offset a ≤ Ssrcs.next_offset a'.

Definition evolves e e' : Prop := participant e' = participant e ∧ ssrcs_grow (ssrcs e) (ssrcs e').

Definition sends (P : Command → Prop) p p' : Prop := ∃ l, sent p' = sent p ++ l ∧ Forall (fun x => P x.2) l.

(** The tables keep their keys; entries evolve, ids grow. *)
Record calm (P : Command → Prop) p p' : Prop := {
  ca_ids : Ids.next_session (ids p) ≤ Ids.next_session (ids p') ∧ Ids.next_track (ids p) ≤ Ids.next_track (ids p');
  ca_by : by_participant (transports p') = by_participant (transports p);
  ca_entries : map_relation (fun _ => evolves) (fun _ _ => False) (fun _ _ => False) (entries (transports p)) (entries (transports p'));
  ca_tracks : tracks p' = tracks p;
  ca_sent : sends P p p';
}.

Lemma sends_refl P p p' : sent p' = sent p → sends P p p'.
Proof. intros He. exists []. rewrite app_nil_r. split; [done|constructor]. Qed.

Lemma sends_trans P p1 p2 p3 : sends P p1 p2 → sends P p2 p3 → sends P p1 p3.
Proof.
  intros (l1 & H1 & F1) (l2 & H2 & F2). exists (l1 ++ l2). rewrite H2, H1, app_assoc. split; [done|]. by apply Forall_app.
Qed.

Lemma ssrcs_grow_refl a : ssrcs_grow a a.
Proof. split; [done|lia]. Qed.

Lemma ssrcs_grow_trans a b c : ssrcs_grow a b → ssrcs_grow b c → ssrcs_grow a c.
Proof. intros [? ?] [? ?]. split; [congruence|lia]. Qed.

Lemma evolves_refl e : evolves e e.
Proof. split; [done|apply ssrcs_grow_refl]. Qed.

Lemma evolves_trans e1 e2 e3 : evolves e1 e2 → evolves e2 e3 → evolves e1 e3.
Proof. intros [? ?] [? ?]. split; [congruence|by eapply ssrcs_grow_trans]. Qed.

Definition tables_same p p' : Prop := transports p' = transports p ∧ tracks p' = tracks p ∧ ids p' = ids p.

Lemma tables_same_refl p : tables_same p p.
Proof. done. Qed.

Lemma tables_same_trans p1 p2 p3 : tables_same p1 p2 → tables_same p2 p3 → tables_same p1 p3.
Proof. unfold tables_same. intuition congruence. Qed.

Lemma entries_refl (m : gmap SessionId TransportEntry) : map_relation (fun _ => evolves) (fun _ _ => False) (fun _ _ => False) m m.
Proof. intros i. destruct (m !! i); cbn; [apply evolves_refl|done]. Qed.

Lemma calm_same P p p' : tables_same p p' → sends P p p' → calm P p p'.
Proof. intros (Ht & Hk & Hi) Hs. split; rewrite ?Ht, ?Hk, ?Hi; try done; apply entries_refl. Qed.

Lemma calm_refl P p : calm P p p.
Proof. apply calm_same; [done|by apply sends_refl]. Qed.

Lemma calm_trans P p1 p2 p3 : calm P p1 p2 → calm P p2 p3 → calm P p1 p3.
Proof.
  intros [I1 B1 E1 T1 S1] [I2 B2 E2 T2 S2]. split; [lia|congruence| |congruence|by eapply sends_trans].
  intros i. specialize (E1 i). specialize (E2 i).
  destruct (entries (transports p1) !! i), (entries (transports p2) !! i), (entries (transports p3) !! i); cbn in *; try done.
  by eapply evolves_trans.
Qed.

Lemma calm_entry P p p' id e : calm P p p' → entries (transports p) !! id = Some e →
  ∃ e', entries (transports p') !! id = Some e' ∧ evolves e e'.
Proof. intros Hc He. pose proof (ca_entries _ _ _ Hc id) as H. rewrite He in H. destruct (entries (transports p') !! id); [by eexists|done]. Qed.

Lemma calm_entry_back P p p' id e' : calm P p p' → entries (transports p') !! id = Some e' →
  ∃ e, entries (transports p) !! id = Some e ∧ evolves e e'.
Proof. intros Hc He. pose proof (ca_entries _ _ _ Hc id) as H. rewrite He in H. destruct (entries (transports p) !! id); [by eexists|done]. Qed.

Lemma pok_same p p' : pok p → tables_same p p' → DistributedProofs.inv (cluster p') → pok p'.
Proof.
  intros [He Hb Hs Ht Hi Hc] (Et & Ek & Ei) Hc'. split; rewrite ?Et, ?Ek, ?Ei; try done.
  eapply map_Forall_impl; [exact He|]. intros id e [? ? ? ? ? ?]. by split; rewrite ?Et, ?Ei.
Qed.

Lemma entry_of p id e : pok p → entries (transports p) !! id = Some e → entry_ok p id e.
Proof. intros Hp He. exact (po_entries _ Hp id e He). Qed.

(** ** Triples *)

Context (P : Command → Prop) (HP : ∀ c, plain c → P c).

Definition ptriple {A} (m : plane A) p (Q : A → Plane → Prop) : Prop :=
  wp m p (fun a p' => pok p' ∧ calm P p p' ∧ Q a p') (fun _ p' => sends P p p').

Lemma pt_bind {A B} (m : plane A) (f : A → plane B) p Q R :
  ptriple m p Q → (∀ a p', pok p' → calm P p p' → Q a p' → ptriple (f a) p' R) → ptriple (m ≫= f) p R.
Proof.
  intros Hm Hf. apply wp_bind. eapply wp_mono; [exact Hm|]. intros a p' (Hp & Hc & Hq). eapply wp_conseq; [by apply Hf|..]; cbn beta.
  - intros b p2 (? & ? & ?). split_and!; try done. by eapply calm_trans.
  - intros _ p2 Hs. eapply sends_trans; [apply Hc|done].
Qed.

Lemma pt_mono {A} (m : plane A) p (Q R : A → Plane → Prop) :
  ptriple m p Q → (∀ a p', pok p' → calm P p p' → Q a p' → R a p') → ptriple m p R.
Proof. intros Hm Hi. eapply wp_mono; [exact Hm|]. intros a p' (? & ? & ?). auto. Qed.

Lemma pt_ret {A} (a : A) p (Q : A → Plane → Prop) : pok p → Q a p → ptriple (mret a) p Q.
Proof. intros Hp Hq. apply wp_ret. split_and!; [done|apply calm_refl|done]. Qed.

Lemma pt_get {A} (f : Plane → plane A) p Q : ptriple (f p) p Q → ptriple (get ≫= f) p Q.
Proof. intros Hf. apply wp_bind, wp_get, Hf. Qed.

(** A state change that only concerns the other fields. *)
Lemma pt_put (f : Plane → Plane) p (Q : () → Plane → Prop) : pok p → tables_same p (f p) → sent (f p) = sent p → cluster (f p) = cluster p →
  Q () (f p) → ptriple (modify f) p Q.
Proof.
  intros Hp Ht Hs Hc Hq. apply wp_modify. split_and!; [|by apply calm_same, sends_refl|done]. eapply pok_same; [done|done|]. rewrite Hc. apply Hp.
Qed.

Lemma pt_put_bind {A} (f : Plane → Plane) (k : () → plane A) p Q : pok p → tables_same p (f p) → sent (f p) = sent p → cluster (f p) = cluster p →
  (pok (f p) → ptriple (k ()) (f p) Q) → ptriple (put (f p) ≫= k) p Q.
Proof.
  intros Hp Ht Hs Hc Hk. assert (Hp' : pok (f p)) by (eapply pok_same; [done|done|rewrite Hc; apply Hp]).
  apply wp_bind, wp_put. eapply wp_conseq; [by apply Hk|..]; cbn beta.
  - intros b p2 (? & ? & ?). split_and!; try done. eapply calm_trans; [by apply calm_same, sends_refl|done].
  - intros _ p2 Hs2. eapply sends_trans; [by apply sends_refl|done].
Qed.

Lemma pt_ask {A B} (f : nat → A) (k : A → plane B) p Q : pok p →
  (∀ a p', pok p' → tables_same p p' → sent p' = sent p → (∃ n, a = f n) → closing p' = closing p → cluster p' = cluster p → ptriple (k a) p' Q) →
  ptriple (ask f ≫= k) p Q.
Proof.
  intros Hp Hk. set (p1 := set_asked (S (asked p)) p).
  assert (Hp1 : pok p1) by (apply (pok_same p p1 Hp); [done|apply (po_cluster _ Hp)]).
  apply wp_bind. unfold ask. wp. eapply wp_conseq; [apply Hk; [exact Hp1|done|done|by eexists|done|done]|..]; cbn beta.
  - intros b p2 (? & ? & ?). split_and!; try done. eapply calm_trans; [|done]. by apply calm_same, sends_refl.
  - intros _ p2 Hs. eapply sends_trans; [|done]. by apply sends_refl.
Qed.

Context (W : World) (HW : world_ok W).

(** The next statement, by its lemma. *)
Ltac pstep t := eapply pt_bind; [solve [t]|cbv beta].
Ltac pmono t := eapply pt_mono; [solve [t]|cbv beta].

(** ** Calls of the replicated state *)

(** Only the replicated state and the count of questions changed. *)
Definition cluster_only p p' : Prop := p' = set_asked (asked p') (set_cluster (cluster p') p).

Lemma cluster_only_same p p' : cluster_only p p' → tables_same p p' ∧ sent p' = sent p ∧ closing p' = closing p.
Proof. unfold cluster_only. intros ->. done. Qed.

Lemma cluster_only_trans p1 p2 p3 : cluster_only p1 p2 → cluster_only p2 p3 → cluster_only p1 p3.
Proof. unfold cluster_only. intros -> ->. done. Qed.

Lemma pt_cluster p p' : pok p → cluster_only p p' → DistributedProofs.inv (cluster p') → pok p' ∧ calm P p p'.
Proof.
  intros Hp Hc Hi. destruct (cluster_only_same _ _ Hc) as (Ht & Hs & _). split; [by eapply pok_same|]. by apply calm_same, sends_refl.
Qed.

Lemma wp_interfere p (Q : () → Plane → Prop) X : pok p → (∀ p', cluster_only p p' → DistributedProofs.inv (cluster p') → Q () p') → wp (interfere W) p Q X.
Proof. intros Hp HQ. unfold interfere, ask. wp. apply HQ; [by destruct p|]. cbn. apply (others_ok _ HW), Hp. Qed.

Lemma wp_attempt {A} (m : st DistributedState.State CrdtError A) p (Q : CrdtError + A → Plane → Prop) X (R : A → Prop) (S : DistributedState.State → Prop) :
  wp m (cluster p) (fun a s => R a ∧ S s) (fun _ s => S s) →
  (∀ a s, match a with inr a => R a | inl _ => True end → S s → Q a (set_cluster s p)) → wp (attempt m) p Q X.
Proof. unfold run_to, attempt. destruct (m (cluster p)) as [[a s]|[e s]|]; [|intros Hs HQ; by apply (HQ (inl e))|done]. intros [Ha Hs] HQ. by apply (HQ (inr a)). Qed.

Lemma read_ok {A} (f : DistributedState.State → A) p : pok p →
  ptriple (read W f) p (fun a p' => cluster_only p p' ∧ ∃ s, DistributedProofs.inv s ∧ a = f s).
Proof.
  intros Hp. unfold read, ptriple. wp. apply wp_interfere; [done|]. intros p' Hc Hi. unfold gets. wp.
  destruct (pt_cluster _ _ Hp Hc Hi). split_and!; try done. by eexists.
Qed.

(** A room that was created has an id. *)
Definition room_named (a : DistributedState.answer) : Prop := match a with DistributedState.Room id => id ≠ 0 | _ => True end.

Lemma begin_ok o s : DistributedProofs.inv s → DistributedProofs.op_ok o →
  (takes_clock o = true → cluster_clock s + 1 < 2 ^ 64) →
  wp (DistributedState.begin o) s (fun w s' => DistributedProofs.work_ok w ∧ DistributedProofs.inv s') (fun _ s' => DistributedProofs.inv s').
Proof.
  intros Hi Ho Hc. destruct (takes_clock o) eqn:Et.
  - eapply wp_conseq; [apply DistributedProofs.begin_safe; [done|done|by apply Hc]|..]; cbn beta.
    + by intros w s' (? & ? & ? & ?).
    + intros _ s' Hk. apply Hk.
  - destruct o; try done; cbn [DistributedState.begin]; wp; by split.
Qed.

Lemma finish_ok w s : DistributedProofs.inv s → DistributedProofs.work_ok w →
  wp (DistributedState.finish false w) s (fun a s' => room_named a ∧ DistributedProofs.inv s') (fun _ s' => DistributedProofs.inv s').
Proof.
  intros Hi Hw.
  assert (Hnamed : wlp (DistributedState.finish false w) s (fun a _ => room_named a) (fun _ _ => True)).
  { assert (Hany : ∀ A (m : st DistributedState.State CrdtError A) (f : A → DistributedState.answer) s, (∀ a, room_named (f a)) →
      wlp (a ← m; mret (f a)) s (fun a _ => room_named a) (fun _ _ => True)).
    { intros A m f s0 Hf. unfold run_to, mbind, st_bind. destruct (m s0) as [[]|[]|]; cbn; auto. }
    destruct w; cbn [DistributedState.finish]; try (apply Hany; done).
    - destruct Hw as (H1 & H2 & H3 & H4). unfold DistributedState.create_room_auto_locked. wp. case_bool_decide as Hfull; wp; [done|].
      pose proof (DistributedProofs.find_room_id_ok false now name max ts (S (DistributedState.max_rooms (DistributedState.config s))) H1 H2 H3 H4 s Hi ltac:(lia)) as Hf.
      unfold run_to in *. destruct (DistributedState.find_room_id _ _ _ _ _ _ s) as [[id s']|[e s']|]; cbn; try done.
      destruct Hf as (? & _). pose proof (DistributedProofs.inv_next _ Hi). lia.
    - destruct Hw as [_ Hp]. destruct o; try done; cbn [DistributedState.perform]; try (apply Hany; done).
      unfold run_to, mbind, st_bind. destruct (DistributedState.handle_node_failure _ _ s) as [[[] ?]|[]|]; cbn; auto. }
  eapply wp_conseq; [apply wlp_and; [by apply DistributedProofs.finish_safe|exact Hnamed]|..]; cbn beta.
  - intros a s' [Hk Hn]. split; [done|apply Hk].
  - intros _ s' [Hk _]. apply Hk.
Qed.

Lemma call_ok o p : pok p → DistributedProofs.op_ok o →
  ptriple (call W o) p (fun a p' => cluster_only p p' ∧ match a with inr a => room_named a | inl _ => True end).
Proof.
  intros Hp Ho. unfold call, ptriple. wp. apply wp_interfere; [done|]. intros p1 Hc1 Hi1. wp.
  destruct (pt_cluster _ _ Hp Hc1 Hi1) as [Hp1 Hk1]. destruct (_ && _) eqn:Eb; [wp; apply Hk1|]. wp.
  eapply (wp_attempt (DistributedState.begin o)); [apply begin_ok; [done|done|]|].
  { intros Ht. rewrite Ht in Eb. cbn [andb] in Eb. lia. }
  intros [e|w] s1 Hw Hs1; wp.
  - assert (Hc2 : cluster_only p (set_cluster s1 p1)) by (eapply cluster_only_trans; [exact Hc1|]; by destruct p1).
    destruct (pt_cluster _ _ Hp Hc2 Hs1). by split_and!.
  - assert (Hc2 : cluster_only p (set_cluster s1 p1)) by (eapply cluster_only_trans; [exact Hc1|]; by destruct p1).
    destruct (pt_cluster _ _ Hp Hc2 Hs1) as [Hp2 Hk2]. apply wp_interfere; [done|]. intros p3 Hc3 Hi3.
    eapply (wp_attempt (DistributedState.finish false w)); [by apply finish_ok|]. intros a s4 Ha Hs4.
    assert (Hc4 : cluster_only p (set_cluster s4 p3)).
    { eapply cluster_only_trans; [exact Hc2|]. eapply cluster_only_trans; [exact Hc3|]. by destruct p3. }
    destruct (pt_cluster _ _ Hp Hc4 Hs4). by split_and!.
Qed.

(** ** Closing and commands *)

Lemma pt_modify (f : Plane → Plane) p (Q : () → Plane → Prop) : pok p → tables_same p (f p) → sent (f p) = sent p → cluster (f p) = cluster p →
  Q () (f p) → ptriple (put (f p)) p Q.
Proof. exact (pt_put f p Q). Qed.

Lemma closing_recorded_ok x why p : pok p → ptriple (close_participant x why) p (fun _ p' => tables_same p p').
Proof.
  intros Hp. unfold close_participant. apply pt_get. destruct (existsb _ _); [by apply pt_ret|]. case_bool_decide; [by apply pt_ret|].
  by apply (pt_modify (fun p => set_closing (closing p ++ [(x, why)]) p)).
Qed.

Lemma send_ok sh c p : pok p → P c → ptriple (send W sh c) p (fun _ p' => tables_same p p').
Proof.
  intros Hp Hc. unfold send. apply pt_ask; [done|]. intros [] p1 Hp1 Ht Hs _ _ Hcl; [|by apply pt_ret].
  unfold ptriple. wp. split_and!; [by eapply pok_same; [exact Hp1|done|apply Hp1]| |by destruct Ht as (? & ? & ?)].
  apply calm_same; [done|]. exists [(sh, c)]. split; [done|]. by constructor.
Qed.

Lemma push_ok sh c x p : pok p → P c → ptriple (push W sh c x) p (fun _ p' => tables_same p p').
Proof.
  intros Hp Hc. unfold push. pstep ltac:(by apply send_ok). intros [] p1 Hp1 _ Ht; [by apply pt_ret|].
  pstep ltac:(by apply closing_recorded_ok). intros _ p2 Hp2 _ Ht2. apply pt_ret; [done|]. by eapply tables_same_trans.
Qed.

(** ** Entries *)

Definition put_entry (id : SessionId) e p : Plane :=
  set_transports (mkTransports (<[id := e]> (entries (transports p))) (by_participant (transports p))) p.

Lemma put_entry_ok id e e' p : pok p → entries (transports p) !! id = Some e → entry_ok p id e' → evolves e e' →
  pok (put_entry id e' p) ∧ calm P p (put_entry id e' p).
Proof.
  intros Hp He Hok Hev. destruct Hp as [Hent Hby Hsz Htr Hids Hcl].
  assert (Hsame : ∀ i x, entry_ok p i x → entry_ok (put_entry id e' p) i x) by (intros i x [? ? ? ? ? ? ?]; by split).
  split; split; try done; cbn [put_entry entries transports set_transports by_participant].
  - apply map_Forall_insert_2; [by apply Hsame|]. eapply map_Forall_impl; [exact Hent|]. auto.
  - intros q i Hq. destruct (Hby q i Hq) as (x & Hx & Hpart). destruct (decide (i = id)) as [->|Hne]; [|rewrite lookup_insert_ne by done; by exists x].
    rewrite lookup_insert_eq. exists e'. split; [done|]. rewrite He in Hx. injection Hx as <-. destruct Hev. congruence.
  - rewrite map_size_insert_Some by (by eexists). done.
  - intros i. destruct (decide (i = id)) as [->|Hne]; [rewrite lookup_insert_eq, He; done|]. rewrite lookup_insert_ne by done. apply entries_refl.
  - by apply sends_refl.
Qed.

Lemma with_entry_ok {A} id (m : st TransportEntry Exhausted A) p (R : TransportEntry → A → TransportEntry → Prop) : pok p →
  (∀ e, entries (transports p) !! id = Some e → entry_ok p id e →
     wp m e (fun a e' => entry_ok p id e' ∧ evolves e e' ∧ R e a e') (fun _ _ => False)) →
  ptriple (with_entry id m) p (fun r p' => match r with
    | None => entries (transports p) !! id = None ∧ p' = p
    | Some a => ∃ e e', entries (transports p) !! id = Some e ∧ entry_ok p id e' ∧ evolves e e' ∧ R e a e' ∧ p' = put_entry id e' p
    end).
Proof.
  intros Hp Hm. unfold with_entry. apply pt_get. destruct (entries (transports p) !! id) as [e|] eqn:He; [|by apply pt_ret].
  unfold ptriple. apply wp_bind, wp_zoom. eapply wp_conseq; [by apply Hm, entry_of|..]; cbn beta; [|done].
  intros a e' (Hok & Hev & HR). wp. fold (put_entry id e' p). destruct (put_entry_ok id e e' p) as [Hp' Hc']; [done..|].
  split_and!; try done. by exists e, e'.
Qed.

Lemma entry_ssrcs p id e a : entry_ok p id e → SsrcProofs.ok a → entry_ok p id (set_ssrcs a e).
Proof. intros [? ? ? ? ? ? ?] Ha. by split. Qed.

(** A call on the handshake of a session. *)
Definition handshake_call {A} (c : DtlsProofs.call) (m : Dtls.step A) (done : A → bool) : Prop :=
  ∀ cs h, DtlsProofs.inv cs h → wp m h (fun a h' => DtlsProofs.moves (cs ++ [c]) h (done a) h') (fun _ h' => DtlsProofs.moves (cs ++ [c]) h false h').

Lemma call_is {A} c (m : Dtls.step A) done : (∀ h, DtlsProofs.do_call c h = (a ← m; mret (done a)) h) → handshake_call c m done.
Proof.
  intros Hd cs h Hi. pose proof (DtlsProofs.call_moves cs c h Hi) as Hm. unfold run_to in *. rewrite Hd in Hm.
  unfold mbind, st_bind in Hm. by destruct (m h) as [[]|[]|].
Qed.

Lemma entry_moved p id e cs h done : entry_ok p id e → DtlsProofs.moves cs (dtls e) done h →
  entry_ok p id (set_dtls h e) ∧ (done = true → srtp_installed e = false ∧ Dtls.hs_state h = Dtls.Complete).
Proof.
  intros [? ? ? ? ? Hs ?] (Hi & Hrun & Hdone). split.
  - split; try done; cbn; [by eexists|]. intros Hin. by apply Hrun, Hs.
  - intros Hd. destruct (Hdone Hd) as (Hr & Hc & _). split; [|done]. destruct (srtp_installed e) eqn:Ei; [|done]. by destruct (Hs eq_refl).
Qed.

Lemma on_dtls_ok {A} id (m : Dtls.step A) c (done : A → bool) (B : A → Prop) p : pok p → handshake_call c m done →
  (∀ h, wlp m h (fun a _ => B a) (fun _ _ => True)) →
  ptriple (on_dtls id m) p (fun r p' => tracks p' = tracks p ∧ ids p' = ids p ∧ match r with
    | Some (inr a) => B a ∧ (done a = true → ∃ e, entries (transports p') !! id = Some e ∧ srtp_installed e = false ∧ Dtls.hs_state (dtls e) = Dtls.Complete)
    | _ => True
    end).
Proof.
  intros Hp Hc HB. unfold on_dtls. eapply pt_mono; [apply (with_entry_ok _ _ _ (fun e r e' =>
    match r with inr a => B a ∧ (done a = true → srtp_installed e' = false ∧ Dtls.hs_state (dtls e') = Dtls.Complete) | inl _ => True end)); [done|]|].
  - intros e He Hok. destruct (eo_dtls _ _ _ Hok) as [cs Hi]. specialize (Hc cs (dtls e) Hi). specialize (HB (dtls e)).
    unfold run_to in *. destruct (m (dtls e)) as [[a h]|[x h]|]; [| |done].
    + destruct (entry_moved _ _ _ _ _ _ Hok Hc) as [Hok' Hd]. by split_and!.
    + destruct (entry_moved _ _ _ _ _ _ Hok Hc) as [Hok' _]. by split_and!.
  - intros [[x|a]|] p' Hp' _; cbv beta iota; [by intros (e & e' & _ & _ & _ & _ & ->)| |by intros [_ ->]].
    intros (e & e' & He & Hok & Hev & [HBa Hd] & ->). split_and!; try done. intros Hda. exists e'. split; [|by apply Hd].
    cbn. by rewrite lookup_insert_eq.
Qed.

(** ** DTLS *)

Lemma send_each_ok sh id x l : ∀ p, pok p → Forall bytes l → ptriple (send_each W sh id x l) p (fun _ p' => tables_same p p').
Proof.
  induction l as [|b l IH]; intros p Hp Hl; cbn [send_each]; [by apply pt_ret|]. apply Forall_cons in Hl as [Hb Hl].
  pstep ltac:(by apply push_ok; [|apply HP; split]). intros [] p1 Hp1 _ Ht1; [|by apply pt_ret].
  pmono ltac:(by apply IH). intros _ p2 _ _ Ht2. by eapply tables_same_trans.
Qed.

Lemma send_datagrams_ok id l p : pok p → Forall bytes l → ptriple (send_datagrams W id l) p (fun _ p' => tables_same p p').
Proof.
  intros Hp Hl. unfold send_datagrams. apply pt_get. destruct (entries (transports p) !! id); [by apply send_each_ok|by apply pt_ret].
Qed.

Lemma srtp_installed_ok id p : pok p →
  (∀ e, entries (transports p) !! id = Some e → srtp_installed e = false ∧ Dtls.hs_state (dtls e) = Dtls.Complete) →
  ptriple (install_srtp W id) p (fun _ p' => tracks p' = tracks p ∧ ids p' = ids p).
Proof.
  intros Hp Hdone. unfold install_srtp. apply pt_get. destruct (entries (transports p) !! id) as [e|] eqn:He; [|by apply pt_ret].
  destruct (Hdone e eq_refl) as [Hni Hcomplete].
  assert (Hassert : ∀ (k : () → plane ()) Q, ptriple (k ()) p Q → ptriple (lift (assert_ (negb (srtp_installed e))) ≫= k) p Q).
  { intros k Q Hk. unfold ptriple. apply wp_bind, wp_assert; [by rewrite Hni|]. exact Hk. }
  apply Hassert. pose proof (DtlsProofs.srtp_install_ok (dtls e)) as Hkeys.
  destruct (Dtls.srtp_install (dtls e)) as [keys|x|]; [| |destruct Hkeys; intros; by eapply keys_exported].
  2: { pmono ltac:(by apply closing_recorded_ok). by intros _ p' _ _ (_ & ? & ?). }
  assert (Hk : Keys.material_ok (local_key keys) ∧ Keys.material_ok (remote_key keys)) by (apply Hkeys; intros; by eapply keys_exported).
  pstep ltac:(apply (with_entry_ok id (modify set_srtp_installed) p (fun _ _ _ => True)); [done|]; intros e0 He0 Hok; wp;
    rewrite He in He0; injection He0 as <-; (split_and!; [destruct Hok; split; try done; cbn; by rewrite Hcomplete|split; [done|split; [done|cbn; lia]]|done])).
  intros [[]|] p1 Hp1 _ H1; [destruct H1 as (e1 & e1' & _ & _ & _ & _ & ->)|destruct H1 as [H1 _]; congruence].
  pstep ltac:(apply push_ok; [done|apply HP; by split]). intros b p2 Hp2 _ (_ & Ht2 & Hi2).
  destruct b, (Dtls.role (dtls e)); try (by apply pt_ret). unfold record_established. by apply pt_put.
Qed.

(** ** Events and timers *)

Lemma apply_progress_ok id r p : pok p →
  (∀ progress, r = inr progress → Forall bytes (Dtls.datagrams progress) ∧
     (Dtls.completed progress = true → ∃ e, entries (transports p) !! id = Some e ∧ srtp_installed e = false ∧ Dtls.hs_state (dtls e) = Dtls.Complete)) →
  ptriple (Connection.apply_progress W id r) p (fun _ p' => tracks p' = tracks p ∧ ids p' = ids p).
Proof.
  intros Hp Hr. unfold Connection.apply_progress. apply pt_get. destruct (participant_of _ _) as [x|]; [|by apply pt_ret].
  destruct r as [err|progress].
  { pmono ltac:(by apply closing_recorded_ok). by intros _ p' _ _ (_ & ? & ?). }
  destruct (Hr progress eq_refl) as [Hb Hd]. pstep ltac:(by apply send_datagrams_ok). intros _ p1 Hp1 _ (Ht & Hk & Hi).
  destruct (Dtls.completed progress); [|by apply pt_ret]. destruct (Hd eq_refl) as (e & He & Hn & Hs).
  eapply pt_mono; [apply srtp_installed_ok; [done|]|]; cbv beta; [|by intros _ p' _ _ [-> ->]].
  intros e' He'. rewrite Ht, He in He'. by injection He' as <-.
Qed.

Abbreviation any := (fun _ _ => True).

Lemma ignore_ok {A} (m : plane A) p Q : ptriple m p Q → ptriple m p any.
Proof. intros Hm. by eapply pt_mono. Qed.

Lemma applied_ok id r p : pok p →
  match r with
  | inr a => Forall bytes (Dtls.datagrams a) ∧ (Dtls.completed a = true → ∃ e, entries (transports p) !! id = Some e ∧ srtp_installed e = false ∧ Dtls.hs_state (dtls e) = Dtls.Complete)
  | inl _ => True
  end → ptriple (Connection.apply_progress W id r) p any.
Proof. intros Hp Hr. eapply ignore_ok, apply_progress_ok; [done|]. intros progress ->. done. Qed.

Lemma progress_ok id c (m : Dtls.step Dtls.Progress) p : pok p → handshake_call c m Dtls.completed → (∀ h, HandshakeBytes.progress_bytes m h) →
  ptriple (on_dtls id m) p (fun r p' => ∀ x, r = Some x → match x with
    | inr a => Forall bytes (Dtls.datagrams a) ∧ (Dtls.completed a = true → ∃ e, entries (transports p') !! id = Some e ∧ srtp_installed e = false ∧ Dtls.hs_state (dtls e) = Dtls.Complete)
    | inl _ => True
    end).
Proof.
  intros Hp Hc Hb. eapply pt_mono; [by apply (on_dtls_ok _ _ c Dtls.completed (fun a => Forall bytes (Dtls.datagrams a)))|]. cbv beta.
  intros r p' _ _ (_ & _ & Hr) x ->. by destruct x.
Qed.

Lemma answer_call r fp : handshake_call (DtlsProofs.Answer r fp) (Dtls.on_answer r fp) Dtls.completed.
Proof. by apply call_is. Qed.
Lemma selected_call : handshake_call DtlsProofs.Selected Dtls.on_address_selected Dtls.completed.
Proof. by apply call_is. Qed.
Lemma datagram_call d : handshake_call (DtlsProofs.Datagram d) (Dtls.process d) Dtls.completed.
Proof. by apply call_is. Qed.

Definition timeout_step : Dtls.step Dtls.Progress := ds ← Dtls.handle_timeout; mret (Dtls.mkProgress ds false).

Lemma timeout_call : handshake_call DtlsProofs.Timeout timeout_step Dtls.completed.
Proof.
  apply call_is. intros h. cbn [DtlsProofs.do_call]. unfold timeout_step, mbind, st_bind. by destruct (Dtls.handle_timeout h) as [[]|[]|].
Qed.

Lemma timeout_progress h : HandshakeBytes.progress_bytes timeout_step h.
Proof.
  unfold HandshakeBytes.progress_bytes, timeout_step. wp. eapply wp_mono; [apply HandshakeBytes.timeout_sends|]. intros ds h' Hd. by wp.
Qed.

Lemma on_dtls_datagram_ok id b p : pok p → ptriple (Connection.on_dtls_datagram W id b) p any.
Proof.
  intros Hp. unfold Connection.on_dtls_datagram.
  pstep ltac:(eapply progress_ok; [done|apply datagram_call|intros h; apply HandshakeBytes.datagram_bytes]).
  intros r p1 Hp1 _ Hr. destruct r as [x|]; [|by apply pt_ret]. specialize (Hr x eq_refl).
  destruct x as [[]|a]; try (by apply pt_ret); by apply applied_ok.
Qed.

Lemma on_address_selected_ok id p : pok p → ptriple (Connection.on_address_selected W id) p any.
Proof.
  intros Hp. unfold Connection.on_address_selected. apply pt_ask; [done|]. intros now p1 Hp1 _ _ _ _ _.
  pstep ltac:(apply (with_entry_ok id (mark_address_selected now) p1 (fun _ _ _ => True)); [done|]; intros e He Hok; unfold mark_address_selected; wp;
    assert (Hsel : ∀ v, entry_ok p1 id (set_selected_at v e)) by (intros v; destruct Hok; by split);
    destruct (address_selected_at e) eqn:Ea; cbn [is_some negb]; wp;
    (apply wp_assert; [by rewrite ?Ea|]); wp; (split_and!; [done|apply evolves_refl || (split; [done|split; [done|cbn; lia]])|done])).
  intros [[]|] p2 Hp2 _ _; try (by apply pt_ret).
  pstep ltac:(eapply progress_ok; [done|apply selected_call|intros h; apply HandshakeBytes.selected_bytes]).
  intros [x|] p3 Hp3 _ Hr; [|by apply pt_ret]. by apply applied_ok, (Hr x).
Qed.

Lemma on_rejected_ok id why p : pok p → ptriple (Connection.on_rejected id why) p any.
Proof.
  intros Hp. unfold Connection.on_rejected. apply pt_get. cbv zeta.
  destruct why; destruct (i ← id; participant_of (transports p) i); try (by apply pt_ret); by eapply ignore_ok, closing_recorded_ok.
Qed.

Lemma free_call id p : pok p → ptriple (on_dtls id Dtls.free_ssl) p any.
Proof.
  intros Hp. eapply ignore_ok, (on_dtls_ok _ _ DtlsProofs.Free (fun _ => false) (fun _ => True)); [done| |].
  - apply call_is. intros h. done.
  - intros h. apply HandshakeBytes.wlp_true.
Qed.

Lemma handle_event_ok ev p : pok p → ptriple (Connection.handle_event W ev) p any.
Proof.
  intros Hp. destruct ev; cbn [Connection.handle_event].
  - by apply on_dtls_datagram_ok.
  - by apply on_address_selected_ok.
  - pstep ltac:(by apply free_call). intros _ p1 Hp1 _ _. by apply pt_ret.
  - apply pt_get. destruct (participant_of _ _); [by eapply ignore_ok, closing_recorded_ok|by apply pt_ret].
  - by apply on_rejected_ok.
Qed.

Lemma poll_each_ok l : ∀ p, pok p → ptriple (Connection.poll_each W l) p any.
Proof.
  induction l as [|id l IH]; intros p Hp; cbn [Connection.poll_each]; [by apply pt_ret|].
  pstep ltac:(eapply (progress_ok _ _ timeout_step); [done|apply timeout_call|apply timeout_progress]). intros r p1 Hp1 _ Hr.
  eapply (pt_bind _ _ _ any); [|intros _ p2 Hp2 _ _; by apply IH]. destruct r as [x|]; [by apply applied_ok, (Hr x)|by apply pt_ret].
Qed.

Lemma poll_dtls_ok p : pok p → ptriple (Connection.poll_dtls W) p any.
Proof. intros Hp. unfold Connection.poll_dtls. apply pt_get. by apply poll_each_ok. Qed.

Lemma close_expired_ok l : ∀ p, pok p → ptriple (Connection.close_expired l) p any.
Proof.
  induction l as [|[id why] l IH]; intros p Hp; cbn [Connection.close_expired]; [by apply pt_ret|]. apply pt_get.
  eapply (pt_bind _ _ _ any); [|intros _ p2 Hp2 _ _; by apply IH].
  destruct (participant_of _ _); [by eapply ignore_ok, closing_recorded_ok|by apply pt_ret].
Qed.

Lemma retry_closes_ok l : ∀ p, pok p → ptriple (retry_closes W l) p any.
Proof.
  induction l as [|[sh id] l IH]; intros p Hp; cbn [retry_closes]; [by apply pt_ret|].
  pstep ltac:(apply send_ok; [done|by apply HP]). intros b p1 Hp1 _ _.
  eapply (pt_bind _ _ _ any); [|intros _ p2 Hp2 _ _; by apply IH]. destruct b; [by apply pt_ret|]. by apply pt_put.
Qed.

Lemma sweep_ok now p : pok p → ptriple (Connection.sweep W now) p any.
Proof.
  intros Hp. unfold Connection.sweep. apply pt_get. pstep ltac:(by apply close_expired_ok). intros _ p1 Hp1 _ _.
  unfold retry_pending_closes. apply pt_get. apply (pt_put_bind (set_pending_close [])); try done. intros Hp2. by apply retry_closes_ok.
Qed.

(** ** Ids *)

Lemma bump_ok {E} n : 1 ≤ n → n + 1 < 2 ^ 64 → Ids.bump (E:=E) n = Ok (n, n + 1).
Proof.
  intros H1 H2. unfold Ids.bump. rewrite (proj2 (Z.eqb_neq n 0)) by lia. rewrite (proj2 (Z.ltb_lt _ _)) by lia. cbn [expect mbind outcome_bind].
  rewrite Z.gtb_ltb. by rewrite (proj2 (Z.ltb_lt _ _)) by lia.
Qed.

Lemma id_new_ok {E} n : n ≠ 0 → id_new (E:=E) n = Ok n.
Proof. intros. unfold id_new. by rewrite (proj2 (Z.eqb_neq n 0)). Qed.

Lemma wp_on_ids {A} (m : st Ids.IdAllocator Exhausted A) p (Q : A → Plane → Prop) (X : Exhausted → Plane → Prop) a i : pok p →
  ((∀ n, n ∈ [Ids.next_session (ids p); Ids.next_track (ids p); Ids.next_subscription (ids p)] → n + 1 < 2 ^ 64) → m (ids p) = Ok (a, i)) →
  Q a (set_ids i p) → X IdsExhausted p → wp (on_ids m) p Q X.
Proof.
  intros Hp Hm HQ HX. unfold on_ids. wp. destruct (ids_left (ids p)) eqn:El; [|by wp].
  apply wp_zoom. eapply wp_ok; [|exact HQ]. apply Hm. intros n Hn. unfold ids_left in El. rewrite forallb_forall in El.
  specialize (El n). apply list_elem_of_In in Hn. specialize (El Hn). lia.
Qed.

Lemma wp_session_id p (Q : SessionId → Plane → Prop) (X : Exhausted → Plane → Prop) : pok p →
  Q (Ids.next_session (ids p)) (set_ids (Ids.mkIds (Ids.next_session (ids p) + 1) (Ids.next_track (ids p)) (Ids.next_subscription (ids p))) p) →
  X IdsExhausted p → wp (on_ids Ids.session) p Q X.
Proof.
  intros Hp HQ HX. eapply wp_on_ids; [done| |exact HQ|done]. intros Hl. pose proof (po_ids _ Hp) as (? & ? & ?).
  unfold Ids.session, mbind, st_bind, get, lift, put. rewrite bump_ok; [|lia|apply Hl; rewrite !elem_of_cons; by auto]. by rewrite id_new_ok by lia.
Qed.

Lemma wp_track_id p (Q : TrackId → Plane → Prop) (X : Exhausted → Plane → Prop) : pok p →
  Q (Ids.next_track (ids p)) (set_ids (Ids.mkIds (Ids.next_session (ids p)) (Ids.next_track (ids p) + 1) (Ids.next_subscription (ids p))) p) →
  X IdsExhausted p → wp (on_ids Ids.track) p Q X.
Proof.
  intros Hp HQ HX. eapply wp_on_ids; [done| |exact HQ|done]. intros Hl. pose proof (po_ids _ Hp) as (? & ? & ?).
  unfold Ids.track, mbind, st_bind, get, lift, put. rewrite bump_ok; [|lia|apply Hl; rewrite !elem_of_cons; by auto]. by rewrite id_new_ok by lia.
Qed.

Lemma wp_subscription_id p (Q : SubscriptionId → Plane → Prop) (X : Exhausted → Plane → Prop) : pok p →
  Q (Ids.next_subscription (ids p)) (set_ids (Ids.mkIds (Ids.next_session (ids p)) (Ids.next_track (ids p)) (Ids.next_subscription (ids p) + 1)) p) →
  X IdsExhausted p → wp (on_ids Ids.subscription) p Q X.
Proof.
  intros Hp HQ HX. eapply wp_on_ids; [done| |exact HQ|done]. intros Hl. pose proof (po_ids _ Hp) as (? & ? & ?).
  unfold Ids.subscription, mbind, st_bind, get, lift, put. rewrite bump_ok; [|lia|apply Hl; rewrite !elem_of_cons; by auto]. by rewrite id_new_ok by lia.
Qed.

Lemma pok_ids i p : pok p → Ids.next_session (ids p) ≤ Ids.next_session i → Ids.next_track (ids p) ≤ Ids.next_track i →
  Ids.next_subscription (ids p) ≤ Ids.next_subscription i → pok (set_ids i p) ∧ calm P p (set_ids i p).
Proof.
  intros [He Hb Hs Ht Hi Hc] H1 H2 H3. split; [split; cbn; try done|].
  - eapply map_Forall_impl; [exact He|]. intros id e [? ? ? ? ? ?]. split; try done. cbn. lia.
  - eapply map_Forall_impl; [exact Ht|]. cbn. intros t x [? ?]. split; [lia|done].
  - lia.
  - split; cbn; try done; [apply entries_refl|by apply sends_refl].
Qed.

Lemma subscription_id_ok p : pok p → ptriple (on_ids Ids.subscription) p (fun _ p' => transports p' = transports p ∧ tracks p' = tracks p).
Proof.
  intros Hp. apply wp_subscription_id; [done| |by apply sends_refl].
  destruct (pok_ids (Ids.mkIds (Ids.next_session (ids p)) (Ids.next_track (ids p)) (Ids.next_subscription (ids p) + 1)) p Hp) as [Hp' Hc']; [cbn; lia..|].
  by split_and!.
Qed.

Lemma track_id_ok p : pok p → ptriple (on_ids Ids.track) p (fun t p' =>
  t = Ids.next_track (ids p) ∧ Ids.next_track (ids p') = t + 1 ∧ transports p' = transports p ∧ tracks p' = tracks p ∧ Ids.next_session (ids p') = Ids.next_session (ids p)).
Proof.
  intros Hp. apply wp_track_id; [done| |by apply sends_refl].
  destruct (pok_ids (Ids.mkIds (Ids.next_session (ids p)) (Ids.next_track (ids p) + 1) (Ids.next_subscription (ids p))) p Hp) as [Hp' Hc']; [cbn; lia..|].
  by split_and!.
Qed.

(** ** Sessions *)

Lemma random_chars_ok {E} d n : ∀ k, ∃ l, random_chars (E:=E) d k n = Ok l ∧ length l = n ∧ Forall (fun b => b ∈ ICE_CHARS) l.
Proof.
  unfold random_chars. induction n as [|n IH]; intros k; cbn [seq mapM]; [exists []; by split_and!|].
  assert (Hlt : (Z.to_nat (d k mod Z.of_nat (length ICE_CHARS)) < length ICE_CHARS)%nat).
  { assert (0 ≤ d k mod Z.of_nat (length ICE_CHARS) < Z.of_nat (length ICE_CHARS)) by (apply Z.mod_pos_bound; vm_compute; done). lia. }
  destruct (lookup_lt_is_Some_2 ICE_CHARS _ Hlt) as [b Hb]. 
  assert (Hidx : idx (E:=E) ICE_CHARS (Z.to_nat (d k mod Z.of_nat (length ICE_CHARS))) = Ok b) by (unfold idx; by rewrite Hb).
  rewrite Hidx. cbn [mbind outcome_bind]. destruct (IH (S k)) as (l & Hl & Hlen & Hf). rewrite Hl. cbn. exists (b :: l). split; [done|]. split; [cbn; lia|].
  constructor; [by eapply list_elem_of_lookup_2|done].
Qed.

Lemma entry_new_ok {E} x sh cert now d1 d2 : ∃ e, entry_new (E:=E) x sh cert now d1 d2 = Ok e ∧ participant e = x ∧ shard e = sh ∧
  SsrcProofs.ok (ssrcs e) ∧ dtls e = Dtls.new cert ∧ srtp_installed e = false ∧ ice_drawn (ice e).
Proof.
  unfold entry_new, random_ice_params. destruct (random_chars_ok (E:=E) d1 16 0) as (u & Hu & Hlu & Hfu). rewrite Hu. cbn [mbind outcome_bind].
  destruct (random_chars_ok (E:=E) d1 32 16) as (w & Hw & Hlw & Hfw). rewrite Hw. cbn [mbind outcome_bind].
  assert (Hall : forallb (fun b => bool_decide (b ∈ ICE_CHARS)) u = true).
  { apply forallb_forall. intros b Hb%list_elem_of_In. apply bool_decide_eq_true. rewrite Forall_forall in Hfu. auto. }
  rewrite Hall. cbn [assert_ mbind outcome_bind]. destruct (SsrcProofs.random_ok (E:=E) d2) as (a & Ha & Hok & _). rewrite Ha. cbn.
  eexists. by split_and!.
Qed.

(** A session of [x] was added. *)
Record session_added (x : Z) (id : SessionId) p p' : Prop := {
  cr_id : id = Ids.next_session (ids p) ∧ Ids.next_session (ids p') = id + 1;
  cr_tracks : tracks p' = tracks p ∧ Ids.next_track (ids p') = Ids.next_track (ids p);
  cr_entries : ∃ e, participant e = x ∧ entries (transports p') = <[id := e]> (entries (transports p)) ∧ entries (transports p) !! id = None;
  cr_by : by_participant (transports p) !! x = None ∧ by_participant (transports p') = <[x := id]> (by_participant (transports p));
  cr_sent : sends P p p';
}.

Lemma fresh_session p : pok p → entries (transports p) !! Ids.next_session (ids p) = None.
Proof. intros Hp. apply eq_None_not_Some. intros [e He]. pose proof (eo_id _ _ _ (entry_of _ _ _ Hp He)). lia. Qed.

Definition add_entry (id : SessionId) e p : Plane :=
  set_transports (mkTransports (<[id := e]> (entries (transports p))) (<[participant e := id]> (by_participant (transports p)))) p.

Lemma add_entry_ok id e p : pok p → entries (transports p) !! id = None → by_participant (transports p) !! participant e = None →
  0 < id < Ids.next_session (ids p) → shard e = 0 → SsrcProofs.ok (ssrcs e) → (∃ cs, DtlsProofs.inv cs (dtls e)) → srtp_installed e = false →
  ice_drawn (ice e) → pok (add_entry id e p).
Proof.
  intros [He Hby' Hs Ht Hi Hc] Hn Hb Hid Hsh Hss Hd Hin Hice. split; cbn; try done.
  - apply map_Forall_insert_2; [split; cbn; try done; [by rewrite lookup_insert_eq|by rewrite Hin]|].
    eapply map_Forall_impl; [exact He|]. intros id' e' [? Hby ? ? ? ? ?]. split; try done. cbn. rewrite lookup_insert_ne; [done|].
    intros Heq. rewrite Heq in Hb. congruence.
  - intros q i Hq. apply lookup_insert_Some in Hq as [[<- <-]|[Hne Hq]]; [rewrite lookup_insert_eq; by exists e|].
    destruct (Hby' q i Hq) as (x & Hx & Hpart). exists x. split; [|done]. rewrite lookup_insert_ne; [done|]. intros ->. congruence.
  - rewrite !map_size_insert_None by done. congruence.
Qed.

Definition drop_entry (id : SessionId) e p : Plane :=
  set_transports (mkTransports (delete id (entries (transports p))) (delete (participant e) (by_participant (transports p)))) p.

Lemma drop_entry_ok id e p : pok p → entries (transports p) !! id = Some e → pok (drop_entry id e p).
Proof.
  intros Hp Hl. pose proof (eo_by _ _ _ (entry_of _ _ _ Hp Hl)) as Hb. destruct Hp as [He Hby' Hs Ht Hi Hc]. split; cbn; try done.
  - intros id' e' Hl'. apply lookup_delete_Some in Hl' as [Hne Hl']. destruct (He id' e' Hl') as [? Hby ? ? ? ? ?]. split; try done. cbn.
    rewrite lookup_delete_ne; [done|]. intros Heq. rewrite Heq in Hb. congruence.
  - intros q i Hq. apply lookup_delete_Some in Hq as [Hne Hq]. destruct (Hby' q i Hq) as (x & Hx & Hpart). exists x. split; [|done].
    rewrite lookup_delete_ne; [done|]. intros ->. congruence.
  - rewrite !map_size_delete. rewrite Hl, Hb. congruence.
Qed.

Lemma wp_remove id e p (Q : option TransportEntry → Plane → Prop) X : pok p → entries (transports p) !! id = Some e →
  (pok (drop_entry id e p) → Q (Some e) (drop_entry id e p)) → wp (on_transports (remove id)) p Q X.
Proof.
  intros Hp Hl HQ. pose proof (drop_entry_ok _ _ _ Hp Hl) as Hd. apply wp_zoom. unfold remove. wp. rewrite Hl. wp. apply wp_assert; [|by wp; apply HQ].
  apply bool_decide_eq_true. apply (po_size _ Hd).
Qed.

Context (cert : Certificate).

(** Only the counts of ids and questions, commands and closings differ. *)
Lemma calm_after p p1 : transports p1 = transports p → tracks p1 = tracks p → Ids.next_session (ids p) ≤ Ids.next_session (ids p1) →
  Ids.next_track (ids p) ≤ Ids.next_track (ids p1) → sends P p p1 → calm P p p1.
Proof. intros Ht Hk H1 H2 Hs. split; rewrite ?Ht, ?Hk; try done. apply entries_refl. Qed.

Lemma wp_insert id e p (Q : bool → Plane → Prop) X : pok p → entries (transports p) !! id = None → 0 < id < Ids.next_session (ids p) → shard e = 0 →
  SsrcProofs.ok (ssrcs e) → (∃ cs, DtlsProofs.inv cs (dtls e)) → srtp_installed e = false → ice_drawn (ice e) →
  Q false p → (by_participant (transports p) !! participant e = None → pok (add_entry id e p) → Q true (add_entry id e p)) →
  wp (on_transports (insert id e)) p Q X.
Proof.
  intros Hp Hn Hid Hsh Hss Hd Hin Hice Hf Ht. apply wp_zoom. unfold insert. wp. rewrite (bool_decide_eq_false_2 (is_Some _)) by (by rewrite Hn; intros [? [=]]).
  case_bool_decide as Hb; cbn [orb]; [wp; by destruct p as [[] ? ? ? ? ? ? ? ?]|]. case_bool_decide; [wp; by destruct p as [[] ? ? ? ? ? ? ? ?]|].
  apply eq_None_not_Some in Hb. pose proof (add_entry_ok id e p Hp Hn Hb Hid Hsh Hss Hd Hin Hice) as Ha. wp.
  apply wp_assert; [apply bool_decide_eq_true, (po_size _ Ha)|]. wp. by apply Ht.
Qed.

Lemma session_created_ok x p : pok p →
  wp (create_session W cert x) p (fun r p' => pok p' ∧ match r with None => calm P p p' | Some id => session_added x id p p' end) (fun _ p' => sends P p p').
Proof.
  intros Hp. unfold create_session. wp. case_bool_decide as Hfull; [wp; split; [done|apply calm_refl]|]. unfold ask. wp.
  eapply (wp_lift_ok _ 0); [unfold place; by rewrite bool_decide_eq_false_2 by apply (loads_ok _ HW)|]. wp.
  set (p1 := set_asked (S (asked p)) p). assert (Hp1 : pok p1) by (apply (pok_same p p1 Hp); [done|apply (po_cluster _ Hp)]).
  apply (wp_session_id p1); [done| |by apply sends_refl]. change (ids p1) with (ids p). set (id := Ids.next_session (ids p)). wp.
  destruct (entry_new_ok (E:=Exhausted) x 0 cert (instant W (asked p1)) (draw W (S (asked p1))) (draw W (S (S (asked p1))))) as (e & He & Hx & Hsh & Hss & Hd & Hin & Hpwd).
  eapply (wp_lift_ok _ e); [exact He|]. wp.
  match goal with |- run_to _ _ ?s _ _ => set (p2 := s) end.
  assert (Hp2 : pok p2).
  { destruct (pok_ids (Ids.mkIds (id + 1) (Ids.next_track (ids p)) (Ids.next_subscription (ids p))) p1 Hp1) as [H2 _]; [cbn; subst id; lia..|].
    exact (pok_same _ p2 H2 (conj eq_refl (conj eq_refl eq_refl)) (po_cluster _ Hp)). }
  pose proof (po_ids _ Hp) as (Hpos & _ & _). pose proof (fresh_session p Hp) as Hfresh. fold id in Hfresh.
  assert (Hcalm : ∀ p3, transports p3 = transports p → tracks p3 = tracks p → ids p3 = ids p2 → sends P p p3 → calm P p p3).
  { intros p3 Ht Hk Hi Hs. apply calm_after; try done; rewrite Hi; cbn; subst id; lia. }
  apply (wp_insert id e p2); try done; [cbn; subst id; lia|rewrite Hd; eexists; apply DtlsProofs.new_inv| |].
  { cbn [negb]. wp. split; [done|]. apply Hcalm; try done. by apply sends_refl. }
  intros Hby Hp3. cbn [negb]. wp.
  eapply wp_conseq; [apply (push_ok 0 (CreateSession id (ice e) (Ssrcs.base (ssrcs e))) x); [done|apply HP; split; [|done]]|..]; cbn beta.
  { cbn. destruct Hss as [[? _] _ _ _]. split; [done|]. destruct Hpwd as [_ [Hpwd _]]. split; [intros Hz; by rewrite Hz in Hpwd|lia]. }
  2: { intros _ p4 Hs. eapply sends_trans; [by apply sends_refl|exact Hs]. }
  intros pushed p4 (Hp4 & Hc4 & Ht4 & Hk4 & Hi4).
  assert (Hs4 : sends P p p4) by (eapply sends_trans; [by apply sends_refl|apply Hc4]).
  assert (Hl4 : entries (transports p4) !! id = Some e) by (rewrite Ht4; cbn; by rewrite lookup_insert_eq).
  destruct pushed; cbn [negb]; wp.
  - apply wp_assert; [apply bool_decide_eq_true; unfold session_of; rewrite Ht4; cbn; by rewrite Hx, lookup_insert_eq|]. wp. split; [done|].
    rewrite Hx in Hby. split; rewrite ?Ht4, ?Hk4, ?Hi4; try done; [by exists e|cbn; by rewrite Hx].
  - apply (wp_remove id e); [done..|]. intros Hp5. wp. split; [done|]. apply Hcalm; [|done|done|done].
    cbn. rewrite Ht4. cbn. rewrite Hx in *. rewrite !delete_insert_id by done. by destruct (transports p).
Qed.

(** The session was removed and the shard told, or is told later. *)
Lemma session_closed_ok id p : pok p →
  wp (close_session W id) p (fun _ p' => pok p' ∧ sends P p p' ∧ tracks p' = tracks p ∧ ids p' = ids p ∧
    match entries (transports p) !! id with
    | None => p' = p
    | Some e => transports p' = transports (drop_entry id e p) ∧
        ((0, CloseSession id) ∈ sent p' ∨ (0, id) ∈ pending_close p' ∨ (MAX_TRANSPORTS ≤ length (pending_close p))%nat)
    end) (fun _ p' => sends P p p').
Proof.
  intros Hp. unfold close_session. wp. destruct (entries (transports p) !! id) as [e|] eqn:He.
  2: { apply wp_zoom. unfold remove. wp. rewrite He. wp.
       assert (set_transports (transports p) p = p) as -> by by destruct p. split_and!; try done. by apply sends_refl. }
  pose proof (eo_shard _ _ _ (entry_of _ _ _ Hp He)) as Hsh.
  apply (wp_remove id e); [done..|]. intros Hd. unfold send, ask. wp. rewrite Hsh.
  set (p1 := set_asked _ _).
  assert (Hp1 : pok p1) by (eapply (pok_same _ p1 Hd); [done|apply (po_cluster _ Hp)]).
  destruct (accepts W _); wp.
  - split_and!; try done; [eapply pok_same; [exact Hp1|done|apply (po_cluster _ Hp)]| |left; set_solver].
    exists [(0, CloseSession id)]. split; [done|]. constructor; [by apply HP|constructor].
  - case_bool_decide as Hfull; wp.
    + split_and!; try done; [by apply sends_refl|right; by right].
    + split_and!; try done; [eapply pok_same; [exact Hp1|done|apply (po_cluster _ Hp)]|by apply sends_refl|right; left; set_solver].
Qed.

(** ** Outbound SSRCs of a session *)

Definition allocate_for (id : SessionId) : plane (option (option Z)) := with_entry id (zoom ssrcs set_ssrcs Ssrcs.allocate).

Lemma zoom_ssrcs_ok {A} id (m : st Ssrcs.SsrcAllocator Exhausted A) p (R : Ssrcs.SsrcAllocator → A → Ssrcs.SsrcAllocator → Prop) : pok p →
  (∀ a, SsrcProofs.ok a → (∃ e, entries (transports p) !! id = Some e ∧ ssrcs e = a) →
     wp m a (fun r a' => SsrcProofs.ok a' ∧ ssrcs_grow a a' ∧ R a r a') (fun _ _ => False)) →
  ptriple (with_entry id (zoom ssrcs set_ssrcs m)) p (fun r p' => match r with
    | None => entries (transports p) !! id = None ∧ p' = p
    | Some x => ∃ e a', entries (transports p) !! id = Some e ∧ ssrcs_grow (ssrcs e) a' ∧ R (ssrcs e) x a' ∧ p' = put_entry id (set_ssrcs a' e) p
    end).
Proof.
  intros Hp Hm. eapply pt_mono; [apply (with_entry_ok id _ p (fun e r e' => ∃ a', ssrcs_grow (ssrcs e) a' ∧ R (ssrcs e) r a' ∧ e' = set_ssrcs a' e)); [done|]|]; cbv beta.
  - intros e He Hok. apply wp_zoom. eapply wp_conseq; [apply Hm; [apply Hok|by exists e]|..]; cbn beta; [|done].
    intros r a' (Ha & Hg & HR). split_and!; [by apply entry_ssrcs|by split|by exists a'].
  - intros [x|] p' _ _; [|done]. intros (e & e' & He & _ & _ & (a' & Hg & HR & ->) & ->). by exists e, a'.
Qed.

Lemma allocate_ok id p : pok p → ptriple (allocate_for id) p (fun r p' => match r with
    | None => entries (transports p) !! id = None ∧ p' = p
    | Some None => transports p' = transports p ∧ tracks p' = tracks p ∧ ids p' = ids p
    | Some (Some x) => ∃ e a', entries (transports p) !! id = Some e ∧ p' = put_entry id (set_ssrcs a' e) p ∧
        ssrcs_grow (ssrcs e) a' ∧ SsrcProofs.issued a' x ∧ Ssrcs.next_offset (ssrcs e) ≤ Ssrcs.offset_of (ssrcs e) x
    end).
Proof.
  intros Hp. eapply pt_mono; [apply (zoom_ssrcs_ok id _ p (fun a r a' => match r with
      | Some x => SsrcProofs.issued a' x ∧ Ssrcs.next_offset a ≤ Ssrcs.offset_of a x
      | None => a' = a end)); [done|]|]; cbv beta.
  - intros a Ha _. eapply wp_mono; [by apply SsrcProofs.allocate_spec|]. intros [x|] a'; cbv beta iota.
    + intros (Ha' & Heq & Hu & Hnz & _ & Ho). split_and!; try done.
      * rewrite Heq. split; [done|]. cbn. lia.
      * split; [done|]. rewrite Heq. unfold Ssrcs.offset_of. cbn. pose proof (SsrcProofs.ok_next _ Ha). unfold Ssrcs.offset_of in Ho. lia.
    + intros [-> _]. split_and!; [done|apply ssrcs_grow_refl|done].
  - intros [[x|]|] p' _ _; [| |done].
    + intros (e & a' & He & Hg & [Hi Ho] & ->). by exists e, a'.
    + intros (e & a' & He & _ & -> & ->). cbn. split_and!; try done. assert (set_ssrcs (ssrcs e) e = e) as -> by by destruct e.
      rewrite insert_id by done. by destruct (transports p).
Qed.

End plane.
End PlaneProofs.

(** * Parameters from answers are within the shard's bounds

    Whatever a well-typed answer says, reading it never panics, and the track
    and subscription parameters it gives are ones the shard can take. *)


Module SdpProofs.
Import Sdp SdpParams PlaneProofs.

(** What the types of a parsed description guarantee: the fields are unsigned,
    arrays have their length, counts are within them. *)
Record media_typed (m : MediaDescription) : Prop := {
  mt_codecs : Forall (fun c => ∀ x, c = Some x → 0 ≤ payload_type x) (codecs m);
  mt_extmaps : Forall (fun c => ∀ x, c = Some x → 0 ≤ ext_id x) (extmaps m);
  mt_ssrcs : length (ssrc_values m) = MAX_SSRCS_PER_MEDIA ∧ Forall is_u32 (ssrc_values m);
  mt_count : 0 ≤ ssrc_values_count m ≤ Z.of_nat MAX_SSRCS_PER_MEDIA;
  mt_fingerprint : ∀ f, media_fingerprint m = Some f → length (fp_value f) = 64%nat;
}.

Record answer_typed (a : SessionDescription) : Prop := {
  at_media : Forall media_typed (media a);
  at_fingerprint : ∀ f, fingerprint a = Some f → length (fp_value f) = 64%nat;
}.

Lemma as_bytes_bytes s : bytes (as_bytes s).
Proof.
  unfold as_bytes. apply Forall_fmap, Forall_forall. intros c _. cbn. pose proof (Ascii.N_ascii_bounded c). split; lia.
Qed.

Lemma used_elem {A} n (l : list (option A)) x : x ∈ used n l → Some x ∈ l.
Proof. unfold used. rewrite list_elem_of_omap. intros (y & Hy & [= ->]). by eapply elem_of_take_inv in Hy || (apply list_elem_of_lookup in Hy as (i & Hi); apply lookup_take_Some in Hi as [? _]; by eapply list_elem_of_lookup_2). Qed.

Lemma find_elem {A} (f : A → bool) l x : List.find f l = Some x → x ∈ l ∧ f x = true.
Proof. intros Hf. apply find_some in Hf as [? ?]. split; [by apply list_elem_of_In|done]. Qed.

Lemma find_pt_ok m c : media_typed m → match find_pt m c with Ok x => 0 ≤ x ≤ 127 | Err _ => True | Panic => False end.
Proof.
  intros Hm. unfold find_pt. destruct (List.find _ _) as [x|] eqn:Ef; [|done]. destruct (Z.leb_spec (payload_type x) 127); [|done].
  apply find_elem in Ef as [Hin%used_elem _]. pose proof (mt_codecs _ Hm) as Hc. rewrite Forall_forall in Hc. specialize (Hc _ Hin x eq_refl). lia.
Qed.

Lemma extmap_id_ok m uri x : media_typed m → extmap_id m uri = Some x → 0 ≤ x.
Proof.
  intros Hm. unfold extmap_id. destruct (List.find _ _) as [y|] eqn:Ef; [|done]. intros [= <-].
  apply find_elem in Ef as [Hin%used_elem _]. pose proof (mt_extmaps _ Hm) as Hc. rewrite Forall_forall in Hc. by apply (Hc _ Hin y).
Qed.

Definition ids_ok (i : ExtIds) : Prop := one_byte_id (ext_mid i) ∧ one_byte_id (audio_level i) ∧ one_byte_id (video_orientation i).

Lemma set_ext_id_ok t x i : ids_ok i → one_byte_id x → ids_ok (set_ext_id t x i).
Proof. intros (? & ? & ?) Hx. unfold set_ext_id. repeat case_match; by split_and!. Qed.

Lemma read_ext_ids_ok m wanted : ∀ i, media_typed m → ids_ok i → Forall (fun w => is_Some (List.find (fun e => Extensions.id e =? w.1) Extensions.TABLE)) wanted →
  match read_ext_ids m wanted i with Ok i' => ids_ok i' | Err _ => True | Panic => False end.
Proof.
  induction wanted as [|[t a] wanted IH]; intros i Hm Hi Hw; cbn [read_ext_ids]; [done|]. apply Forall_cons in Hw as [[x Hx] Hw].
  destruct a; cbn [negb]; [|by apply IH]. cbn [fst] in Hx. rewrite Hx. cbn [expect mbind outcome_bind].
  destruct (extmap_id m (Extensions.uri x)) as [y|] eqn:Ey; [|by apply IH]. rewrite Z.gtb_ltb.
  destruct (Z.ltb_spec MAX_ONE_BYTE_EXT_ID y) as [|Hy]; cbn [fail_if mbind outcome_bind]; [done|].
  case_bool_decide; cbn [fail_if mbind outcome_bind]; [done|]. apply IH; try done. apply set_ext_id_ok; [done|].
  pose proof (extmap_id_ok _ _ _ Hm Ey). unfold MAX_ONE_BYTE_EXT_ID in Hy. split; lia.
Qed.

Lemma ext_ids_ok m k : media_typed m → match SdpParams.ext_ids m k with Ok i => ids_ok i | Err _ => True | Panic => False end.
Proof.
  intros Hm. unfold SdpParams.ext_ids.
  assert (H0 : ids_ok (mkExtIds 0 0 0)) by (split_and!; split; cbn; lia).
  destruct k; apply read_ext_ids_ok; try done; repeat constructor; by eexists.
Qed.

Lemma mid_of_ok m : match mid_of m with Ok l => (1 ≤ length l ≤ MID_CAPACITY)%nat ∧ bytes l | Err _ => True | Panic => False end.
Proof.
  unfold mid_of. destruct (mid m) as [s|]; cbn [of_option mbind outcome_bind]; [|done]. unfold short_bytes_new. case_bool_decide as Hb; cbn; [done|].
  split; [|apply as_bytes_bytes]. destruct (as_bytes s); [naive_solver|]. cbn [length] in *. lia.
Qed.

Lemma kind_of_np m : kind_of m ≠ Panic.
Proof. unfold kind_of. by destruct (media_type m). Qed.

Lemma track_spec_ok m cn : media_typed m → bytes cn →
  match track_spec m cn with
  | Ok (Some s) => spec_ok s ∧ (length (cname s) ≤ CNAME_CAPACITY)%nat ∧ bytes (cname s)
  | Ok None | Err _ => True
  | Panic => False
  end.
Proof.
  intros Hm Hcn. unfold track_spec. destruct (_ || _); [done|]. pose proof (kind_of_np m). destruct (kind_of m) as [k| |]; cbn [mbind outcome_bind]; try done.
  destruct (has_simulcast_group m); cbn [fail_if mbind outcome_bind]; [done|]. pose proof (find_pt_ok m (v1_codec k) Hm) as Hpt.
  destruct (find_pt m (v1_codec k)) as [x| |]; cbn [mbind outcome_bind]; try done. pose proof (ext_ids_ok m k Hm) as Hext.
  destruct (SdpParams.ext_ids m k) as [i| |]; cbn [mbind outcome_bind]; try done.
  destruct (_ && _); cbn [fail_if mbind outcome_bind]; [done|]. pose proof (mid_of_ok m). destruct (mid_of m) as [l| |]; cbn [mbind outcome_bind]; try done.
  unfold short_bytes_new. case_bool_decide as Hc; cbn [of_option mbind outcome_bind]; [done|].
  rewrite (proj2 (Z.leb_le x 127)) by lia. cbn. destruct Hext as (? & ? & ?). split_and!; try done; lia.
Qed.

Lemma map_exts_ok {pm} pairs : ∀ l, length l = 15%nat → bytes l → Forall (fun x => one_byte_id x.1 ∧ one_byte_id x.2) pairs →
  match map_exts pm pairs l with Ok l' => length l' = 15%nat ∧ bytes l' | Err _ => False | Panic => False end.
Proof.
  induction pairs as [|[a b] pairs IH]; intros l Hl Hb Hp; cbn [map_exts]; [done|]. apply Forall_cons in Hp as [[[? ?] [? ?]] Hp]. cbn in *.
  destruct (_ && _); cbn [mbind outcome_bind]; [|by apply IH]. unfold set_at. rewrite decide_True by lia. cbn [mbind outcome_bind].
  apply IH; [by rewrite length_insert| |done]. apply Forall_insert; [done|]. split; lia.
Qed.

Lemma ext_map_ok a b : ids_ok a → ids_ok b →
  match ext_map a b with Ok m => bytes (Model.ext_ids m) ∧ is_u8 (map_mid m) | Err _ => False | Panic => False end.
Proof.
  intros (Hm & Ha & Hv) ([? ?] & Ha' & Hv'). unfold ext_map.
  pose proof (map_exts_ok (pm := ext_mid a) [(audio_level a, audio_level b); (video_orientation a, video_orientation b)] (replicate 15 0)) as Hx.
  assert (Hpairs : Forall (fun x => one_byte_id x.1 ∧ one_byte_id x.2) [(audio_level a, audio_level b); (video_orientation a, video_orientation b)]).
  { apply Forall_cons. split; [done|]. by apply Forall_singleton. }
  assert (Hz : bytes (replicate 15 0)) by (apply Forall_replicate; split; lia).
  specialize (Hx eq_refl Hz Hpairs). destruct (map_exts _ _ _) as [l| |]; cbn [mbind outcome_bind]; try done.
  cbn. destruct Hx as [_ ?]. split; [done|]. split; lia.
Qed.

Lemma sub_spec_ok m t out src : media_typed m → spec_ok t → is_u32 out →
  match sub_spec m t out src with
  | Ok (Some s) => (∀ id sub tr, ShardInv.command_ok (Subscribe id sub tr s)) ∧ spec_out_ssrc s = out
  | Ok None | Err _ => True
  | Panic => False
  end.
Proof.
  intros Hm (Hpt & Hext) Hout. unfold sub_spec. destruct (_ || _); [done|]. pose proof (kind_of_np m). destruct (kind_of m) as [k| |]; cbn [mbind outcome_bind]; try done.
  case_bool_decide; cbn [negb fail_if mbind outcome_bind]; [|done].
  match goal with |- context [find_pt m ?c] => pose proof (find_pt_ok m c Hm) as Hx; destruct (find_pt m c) as [x| |]; cbn [mbind outcome_bind]; try done end.
  assert (Hnew : PtMap.new [(pt (codec t), x)] = Some [(pt (codec t), x)]).
  { unfold PtMap.new. rewrite bool_decide_eq_false_2 by (cbn; unfold PtMap.CAPACITY; lia). cbn. rewrite !Z.gtb_ltb.
    rewrite (proj2 (Z.ltb_ge 127 (pt (codec t)))) by lia. by rewrite (proj2 (Z.ltb_ge 127 x)) by lia. }
  rewrite Hnew. cbn [expect mbind outcome_bind]. pose proof (ext_ids_ok m (kind t) Hm) as Hsub.
  destruct (SdpParams.ext_ids m (kind t)) as [i| |]; cbn [mbind outcome_bind]; try done.
  pose proof (ext_map_ok (ext t) i Hext Hsub) as Hem. destruct (ext_map (ext t) i) as [em| |]; cbn [mbind outcome_bind]; try done.
  pose proof (mid_of_ok m) as Hmid. destruct (mid_of m) as [l| |]; cbn [mbind outcome_bind]; try done.
  assert (Hlook : PtMap.lookup [(pt (codec t), x)] (pt (codec t)) = Some x) by (unfold PtMap.lookup; cbn; by rewrite Z.eqb_refl).
  rewrite bool_decide_eq_true_2 by done. cbn [assert_ mbind outcome_bind]. split; [|done]. intros. cbn. destruct Hmid, Hem. split_and!; try done; try lia.
  repeat constructor; cbn; lia.
Qed.

Lemma ssrc_values_ok {E} m : media_typed m → ∃ l, get_ssrc_values (E:=E) m = Ok l ∧ Forall is_u32 l.
Proof.
  intros Hm. destruct (mt_ssrcs _ Hm) as [Hl Hu]. pose proof (mt_count _ Hm). unfold get_ssrc_values.
  rewrite (proj2 (Z.leb_le _ _)) by lia. cbn [assert_ mbind outcome_bind]. unfold slice. rewrite decide_True by lia. eexists. split; [done|].
  unfold sub_list. by apply Forall_take, Forall_drop.
Qed.

End SdpProofs.
