(* ===== verification/OrchestratorInv.v ===== *)
(** * The invariant of the orchestrator

    [ok gone o]: the tables of [o] are consistent, [gone] being tracks that
    were removed and whose subscriptions are still to be dropped. [ext P o o']
    relates a state to a later one of the same handler; the commands sent in
    between satisfy [P]. [otriple] is the triple all operations are specified
    with: no panic, [ok] and [ext]. *)

From stdpp Require Import strings.
From S2P Require Import Prelude Wp Model Crdt GossipWire DistributedState DistributedProofs Handshake Transports HandshakeProofs SdpParams SdpText ControlPlane OrchestratorState PlaneProofs.

Module OrchInv.
Import Orch Mlines PlaneProofs.

Section inv.
Context `{En : DtlsEngine} {Laws : EngineLaws}.
Implicit Types (o : SessionOrchestrator) (s : NegotiationState) (pl : Plane.Plane) (gone : list Z).

(** ** Subscriptions *)

(** A track that is, or was, one of the participant's room. *)
Definition known pl (room : option Z) (t : Z) : Prop :=
  0 < t < Ids.next_track (Plane.ids pl) ∧ ∀ i, Plane.tracks pl !! t = Some i → room = Some (Tracks.room i).

Definition live gone pl (t : Z) : Prop := is_Some (Plane.tracks pl !! t) ∨ t ∈ gone.

Definition sub_slot_of (m : MlineSlot) : option SubSlot := match role m with Subscribe x => Some x | _ => None end.
Definition slots (l : list MlineSlot) : list SubSlot := omap sub_slot_of l.

(** Distinct outbound SSRCs of the session. *)
Definition slots_ok (a : Ssrcs.SsrcAllocator) (l : list SubSlot) : Prop :=
  Forall (fun x => SsrcProofs.issued a (out_ssrc x)) l ∧ NoDup (out_ssrc <$> l).

(** What an m-line keeps: its mid, which is a number, and its kind. *)
Definition shape (l : list MlineSlot) : list (string * Z) := (fun m => (mid m, kind m)) <$> l.
Definition line_ok (x : string * Z) : Prop := (∃ n, is_u32 n ∧ x.1 = Text.text_of (Text.dec n)) ∧ (x.2 = 0 ∨ x.2 = 1).

Definition lines_ok s : Prop := (length (mlines s) ≤ Sdp.MAX_MEDIA_SECTIONS)%nat ∧ is_u32 (next_mid_index s) ∧ Forall line_ok (shape (mlines s)).

Record neg_ok gone pl (room : option Z) (participant : Z) s : Prop := {
  no_lines : lines_ok s;
  no_slots : ∀ x, x ∈ slots (mlines s) → known pl room (slot_track x) ∧ live gone pl (slot_track x);
  no_last : ∀ t, t ∈ last_subscribed_track_ids s → known pl room t;
  no_session : ∀ id, session s = Some id → ∃ e, Transports.entries (Plane.transports pl) !! id = Some e ∧
     Transports.participant e = participant ∧ slots_ok (Transports.ssrcs e) (slots (mlines s));
  no_idle : session s = None → slots (mlines s) = [];
}.

Record ok gone o : Prop := {
  ok_plane : pok (plane_of o);
  ok_neg : ∀ p s, negotiation o !! p = Some s → neg_ok gone (plane_of o) (room_of o p) p s;
  ok_subs : ∀ p l t, subscription o !! p = Some l → t ∈ l.*1 → known (plane_of o) (room_of o p) t ∧ live gone (plane_of o) t;
  ok_dom : ∀ p, is_Some (negotiation o !! p) ∨ is_Some (subscription o !! p) → is_Some (sessions o !! p);
  ok_created : ∀ p l, created (rooms o) !! p = Some l → (length l ≤ 4)%nat;
  ok_owned : ∀ id e, Transports.entries (Plane.transports (plane_of o)) !! id = Some e →
     ∃ s, negotiation o !! Transports.participant e = Some s ∧ session s = Some id;
  ok_published : ∀ t i, Plane.tracks (plane_of o) !! t = Some i → is_Some (negotiation o !! Tracks.publisher i);
}.

(** ** Later states *)

Section ext.
Context (P : Command → Prop).

Record ext o o' : Prop := {
  ex_ids : Ids.next_track (Plane.ids (plane_of o)) ≤ Ids.next_track (Plane.ids (plane_of o'));
  ex_tracks : ∀ t i', Plane.tracks (plane_of o') !! t = Some i' →
     (∃ i, Plane.tracks (plane_of o) !! t = Some i ∧ Tracks.room i' = Tracks.room i ∧ Tracks.publisher i' = Tracks.publisher i) ∨
     Ids.next_track (Plane.ids (plane_of o)) ≤ t ∧ is_Some (negotiation o !! Tracks.publisher i');
  ex_neg : ∀ p, is_Some (negotiation o' !! p) → is_Some (negotiation o !! p);
  ex_subs : ∀ p, is_Some (subscription o' !! p) → is_Some (subscription o !! p);
  ex_sessions : ∀ p h', sessions o' !! p = Some h' → ∃ h, sessions o !! p = Some h ∧ (room_id h = None ∨ room_id h' = room_id h);
  ex_by : ∀ q id, Transports.by_participant (Plane.transports (plane_of o')) !! q = Some id →
     Transports.by_participant (Plane.transports (plane_of o)) !! q = Some id ∨ is_Some (negotiation o !! q);
  ex_sent : sends P (plane_of o) (plane_of o');
}.

Lemma ext_refl o : ext o o.
Proof. split; try done; eauto 10. by apply sends_refl. Qed.

Lemma ext_trans o1 o2 o3 : ext o1 o2 → ext o2 o3 → ext o1 o3.
Proof.
  intros [I1 T1 N1 U1 S1 B1 X1] [I2 T2 N2 U2 S2 B2 X2]. split; try (by auto); [lia| | | |by eapply sends_trans].
  - intros t i' Hi. destruct (T2 _ _ Hi) as [(i2 & H2 & -> & ->)|[Hge Hn]]; [by apply T1|]. right. split; [lia|by apply N1].
  - intros p h' Hh. destruct (S2 _ _ Hh) as (h2 & Hh2 & Hr2). destruct (S1 _ _ Hh2) as (h1 & Hh1 & Hr1). exists h1. split; [done|].
    destruct Hr1 as [|Hr1]; [by left|]. destruct Hr2 as [Hr2|Hr2]; [left; congruence|right; congruence].
  - intros q id Hq. destruct (B2 _ _ Hq) as [Hq2|Hq2]; [by apply B1|]. right. by apply N1.
Qed.

(** A participant stays in its room until it is gone. *)
Lemma ext_room o o' p r : ext o o' → room_of o p = Some r → is_Some (sessions o' !! p) → room_of o' p = Some r.
Proof.
  intros He Hr [h' Hh]. destruct (ex_sessions _ _ He _ _ Hh) as (h & Ho & Hrm). unfold room_of in *. rewrite Ho in Hr. rewrite Hh. cbn in *.
  destruct Hrm; congruence.
Qed.

Definition otriple {A} gone (m : orch A) o (Q : A → SessionOrchestrator → Prop) : Prop :=
  wp m o (fun a o' => ok gone o' ∧ ext o o' ∧ Q a o') (fun _ o' => sends P (plane_of o) (plane_of o')).

Lemma ot_bind {A B} gone (m : orch A) (f : A → orch B) o Q R :
  otriple gone m o Q → (∀ a o', ok gone o' → ext o o' → Q a o' → otriple gone (f a) o' R) → otriple gone (m ≫= f) o R.
Proof.
  intros Hm Hf. apply wp_bind. eapply wp_mono; [exact Hm|]. intros a o' (Hp & Hc & Hq). eapply wp_conseq; [by apply Hf|..]; cbn beta.
  - intros b o2 (? & ? & ?). split_and!; try done. by eapply ext_trans.
  - intros _ o2 Hs. eapply sends_trans; [apply Hc|done].
Qed.

Lemma ot_mono {A} gone (m : orch A) o (Q R : A → SessionOrchestrator → Prop) :
  otriple gone m o Q → (∀ a o', ok gone o' → ext o o' → Q a o' → R a o') → otriple gone m o R.
Proof. intros Hm Hi. eapply wp_mono; [exact Hm|]. intros a o' (? & ? & ?). auto. Qed.

Lemma ot_ret {A} gone (a : A) o (Q : A → SessionOrchestrator → Prop) : ok gone o → Q a o → otriple gone (mret a) o Q.
Proof. intros Ho Hq. apply wp_ret. split_and!; [done|apply ext_refl|done]. Qed.

Lemma ot_get {A} gone (f : SessionOrchestrator → orch A) o Q : otriple gone (f o) o Q → otriple gone (get ≫= f) o Q.
Proof. intros Hf. apply wp_bind, wp_get, Hf. Qed.

Lemma ot_lift {A B} gone (m : outcome Exhausted A) (f : A → orch B) a o Q : m = Ok a → otriple gone (f a) o Q → otriple gone (lift m ≫= f) o Q.
Proof. intros -> Hf. exact Hf. Qed.

Lemma ot_for_each {A} gone (f : A → orch ()) (I : SessionOrchestrator → Prop) l : ∀ o, ok gone o → I o →
  (∀ x o, x ∈ l → ok gone o → I o → otriple gone (f x) o (fun _ o' => I o')) → otriple gone (for_each l f) o (fun _ o' => I o').
Proof.
  induction l as [|x l IH]; intros o Ho HI Hf; cbn [for_each]; [by apply ot_ret|].
  eapply ot_bind; [apply Hf; [left|done|done]|]; cbv beta. intros _ o1 Ho1 _ HI1. apply IH; [done|done|]. intros y o2 Hy. apply Hf. by right.
Qed.

(** ** Frames *)

(** Only messages, commands, the replicated state and counts changed. *)
Definition still o o' : Prop :=
  sessions o' = sessions o ∧ rooms o' = rooms o ∧ negotiation o' = negotiation o ∧ subscription o' = subscription o ∧
  tables_same (plane_of o) (plane_of o').

Lemma still_refl o : still o o.
Proof. done. Qed.

Lemma still_trans o1 o2 o3 : still o1 o2 → still o2 o3 → still o1 o3.
Proof. unfold still, tables_same. intuition congruence. Qed.

Lemma neg_ok_calm gone Pc pl pl' room p s : calm Pc pl pl' → neg_ok gone pl room p s → neg_ok gone pl' room p s.
Proof.
  intros Hc [Hl Hs Hk Hsess Hi]. assert (Hkn : ∀ t, known pl room t → known pl' room t).
  { intros t [? Hr]. split; [pose proof (ca_ids _ _ _ Hc); lia|]. by rewrite (ca_tracks _ _ _ Hc). }
  split; try done.
  - intros x Hx. destruct (Hs x Hx) as [? Hlive]. split; [by apply Hkn|]. unfold live. by rewrite (ca_tracks _ _ _ Hc).
  - intros t Ht. by apply Hkn, Hk.
  - intros id Hid. destruct (Hsess id Hid) as (e & He & Hpart & Hok & Hnd). destruct (calm_entry _ _ _ _ _ Hc He) as (e' & He' & Hp' & Hb & Hg).
    exists e'. split; [done|]. split; [congruence|]. split; [|done]. eapply Forall_impl; [exact Hok|]. intros x. by apply SsrcProofs.issued_more.
Qed.

(** A calm step of the plane and changes of messages. *)
Lemma calm_ok gone o o' : ok gone o → sessions o' = sessions o → rooms o' = rooms o → negotiation o' = negotiation o → subscription o' = subscription o →
  pok (plane_of o') → calm P (plane_of o) (plane_of o') → ok gone o' ∧ ext o o'.
Proof.
  intros [Hp Hn Hs Hd Hcr Ho Hpb] Es Er En' Eu Hp' Hc. assert (Hroom : ∀ p, room_of o' p = room_of o p) by (intros; unfold room_of; by rewrite Es).
  split; split; try done; rewrite ?Es, ?Er, ?En', ?Eu; try done.
  - intros p s Hl. rewrite Hroom. eapply neg_ok_calm; [done|]. by apply Hn.
  - intros p l t Hl Ht. rewrite Hroom. destruct (Hs p l t Hl Ht) as [[Hb Hk] Hlive]. unfold known, live. rewrite (ca_tracks _ _ _ Hc).
    split; [split; [pose proof (ca_ids _ _ _ Hc); lia|done]|done].
  - intros id e' He'. destruct (calm_entry_back _ _ _ _ _ Hc He') as (e & He & Hpart & _). rewrite Hpart. by apply Ho.
  - intros t i. rewrite (ca_tracks _ _ _ Hc). apply Hpb.
  - apply Hc.
  - intros t i'. rewrite (ca_tracks _ _ _ Hc). eauto.
  - eauto.
  - intros q id. rewrite (ca_by _ _ _ Hc). auto.
  - apply Hc.
Qed.

Lemma still_ok gone o o' : ok gone o → still o o' → pok (plane_of o') → sends P (plane_of o) (plane_of o') → ok gone o' ∧ ext o o'.
Proof. intros Ho (H1 & H2 & H3 & H4 & Ht) Hp Hs. apply calm_ok; try done. by apply calm_same. Qed.

Lemma ot_plane {A} gone (m : Plane.plane A) o Q : ok gone o → ptriple P m (plane_of o) Q →
  otriple gone (on_plane m) o (fun a o' => ∃ p', o' = set_plane p' o ∧ Q a p').
Proof.
  intros Ho Hm. apply wp_zoom. eapply wp_conseq; [exact Hm|..]; cbn beta; [|done].
  intros a p' (Hp & Hc & Hq). destruct (calm_ok gone o (set_plane p' o) Ho) as [? ?]; try done. split_and!; try done. by exists p'.
Qed.

Lemma send_to_ok gone x msg o : ok gone o → otriple gone (send_to x msg) o (fun _ o' => still o o').
Proof.
  intros Ho. unfold send_to. apply ot_get. destruct (sessions o !! x); [|by apply ot_ret]. unfold otriple. wp.
  destruct (still_ok gone o (set_outbox (outbox o ++ [(x, msg)]) o) Ho) as [? ?]; [done|apply Ho|by apply sends_refl|by split_and!].
Qed.

Lemma send_error_ok gone x c o : ok gone o → otriple gone (send_error x c) o (fun _ o' => still o o').
Proof. apply send_to_ok. Qed.

(** The state of one participant's negotiation is replaced. *)
Lemma negotiation_replaced_ok gone p s s' o : ok gone o → negotiation o !! p = Some s → session s' = session s →
  neg_ok gone (plane_of o) (room_of o p) p s' →
  ok gone (set_negotiation (<[p := s']> (negotiation o)) o) ∧ ext o (set_negotiation (<[p := s']> (negotiation o)) o).
Proof.
  intros [Hp Hn Hs Hd Hcr Ho Hpb] Hl He Hok. split; split; try done; cbn.
  - intros q x Hx. apply lookup_insert_Some in Hx as [[-> ->]|[_ Hx]]; [done|by apply Hn].
  - intros q [[x Hx]|?]; [|by apply Hd; right]. apply lookup_insert_Some in Hx as [[-> ->]|[_ Hx]]; apply Hd; left; by eexists.
  - intros id e Hent. destruct (Ho id e Hent) as (x & Hx & Hsx). destruct (decide (Transports.participant e = p)) as [Heq|Hne].
    + rewrite Heq in *. rewrite lookup_insert_eq. eexists. split; [done|]. rewrite Hl in Hx. injection Hx as <-. congruence.
    + rewrite lookup_insert_ne by done. by exists x.
  - intros t i Hi. apply lookup_insert_is_Some'. right. by eapply Hpb.
  - eauto.
  - intros q [x Hx]. apply lookup_insert_Some in Hx as [[-> ->]|[_ Hx]]; by eexists.
  - eauto.
  - auto.
  - by apply sends_refl.
Qed.

End ext.
End inv.

(** The next statement, by its lemma. *)
Ltac ostep t := eapply ot_bind; [solve [t]|cbv beta].
Ltac omono t := eapply ot_mono; [solve [t]|cbv beta].

End OrchInv.

(** * Rooms keep the invariant

    Creating, joining and leaving rooms ([src/orchestrator/room.rs]). *)


Module RoomsProofs.
Import Orch PlaneProofs OrchInv.

Section rooms.
Context `{En : DtlsEngine} {Laws : EngineLaws} (W : World) (HW : world_ok W).
Context (P : Command → Prop) (HP : ∀ c, plain c → P c) (gone : list Z).
Implicit Types (o : SessionOrchestrator).

Abbreviation triple := (otriple P gone).
Abbreviation any := (fun _ _ => True).

Lemma any_ok {A} (m : orch A) o Q : triple m o Q → triple m o any.
Proof. intros Hm. by eapply ot_mono. Qed.

Lemma read_still {A} (f : DistributedState.State → A) o : ok gone o →
  triple (Rooms.read W f) o (fun a o' => still o o' ∧ ∃ s, DistributedProofs.inv s ∧ a = f s).
Proof.
  intros Ho. omono ltac:(apply ot_plane, read_ok; [done|done|apply Ho]). intros a o' _ _ (p' & -> & Hc & Hs).
  destruct (cluster_only_same _ _ Hc) as (Ht & _). by split.
Qed.

Lemma call_still op o : ok gone o → DistributedProofs.op_ok op →
  triple (Rooms.call W op) o (fun a o' => still o o' ∧ match a with inr a => room_named a | inl _ => True end).
Proof.
  intros Ho Hop. omono ltac:(apply ot_plane, call_ok; [done|done|apply Ho|done]). intros a o' _ _ (p' & -> & Hc & Hs).
  destruct (cluster_only_same _ _ Hc) as (Ht & _). by split.
Qed.

Lemma ask_still {A} (f : nat → A) o : ok gone o → triple (on_plane (Plane.ask f)) o (fun a o' => still o o' ∧ ∃ n, a = f n).
Proof.
  intros Ho. omono ltac:(apply (ot_plane P gone _ _ (fun a p' => tables_same (plane_of o) p' ∧ ∃ n, a = f n)); [done|]; unfold ptriple, Plane.ask; wp;
    (split_and!; [eapply pok_same; [apply Ho|done|apply (po_cluster _ (ok_plane _ _ Ho))]|by apply calm_same, sends_refl|done|by eexists])).
  intros a o' _ _ (p' & -> & Ht & Hn). by split.
Qed.

Lemma each_still {A} (f : A → orch ()) l o : ok gone o → (∀ x o, ok gone o → triple (f x) o (fun _ o' => still o o')) →
  triple (for_each l f) o (fun _ o' => still o o').
Proof.
  intros Ho Hf. apply (ot_for_each P gone f (still o)); [done|done|]. intros x o1 _ Ho1 Hs.
  omono ltac:(by apply Hf). intros _ o2 _ _ Hs2. by eapply still_trans.
Qed.

Lemma notify_still self pids msg o : ok gone o → triple (Rooms.notify self pids msg) o (fun _ o' => still o o').
Proof. intros Ho. apply each_still; [done|]. intros x o1 Ho1. case_match; [by apply ot_ret|by apply send_to_ok]. Qed.

Lemma error_none {A} x c o : ok gone o → triple (send_error x c;; mret (None : option A)) o (fun r o' => still o o' ∧ r = None).
Proof. intros Ho. ostep ltac:(by apply send_error_ok). intros _ o1 Ho1 _ Hs. by apply ot_ret. Qed.

(** ** Creating *)

Lemma set_rooms_ok names f o : ok gone o → (∀ p l, f (created (rooms o)) !! p = Some l → (length l ≤ 4)%nat) →
  ok gone (set_rooms (mkRooms names (f (created (rooms o)))) o) ∧ ext P o (set_rooms (mkRooms names (f (created (rooms o)))) o).
Proof. intros [Hp Hn Hs Hd Hc Ho Hpb] Hl. split; [by split|]. split; try done; eauto 10. by apply sends_refl. Qed.

Lemma set_created_ok f o : ok gone o → (∀ p l, f (created (rooms o)) !! p = Some l → (length l ≤ 4)%nat) →
  triple (Rooms.set_created f) o (fun _ o' => o' = set_rooms (mkRooms (room_names (rooms o)) (f (created (rooms o)))) o).
Proof. intros Ho Hl. unfold Rooms.set_created, otriple. wp. destruct (set_rooms_ok (room_names (rooms o)) f o Ho Hl). by split_and!. Qed.

Lemma set_names_ok f o : ok gone o → triple (Rooms.set_names f) o any.
Proof. intros Ho. unfold Rooms.set_names, otriple. wp. destruct (set_rooms_ok (f (room_names (rooms o))) id o Ho (ok_created _ _ Ho)). by split_and!. Qed.

Lemma retain_ok l : ∀ o, ok gone o → triple (Rooms.retain_existing W l) o (fun r o' => still o o' ∧ (length r ≤ length l)%nat).
Proof.
  induction l as [|r l IH]; intros o Ho; cbn [Rooms.retain_existing]; [by apply ot_ret|].
  ostep ltac:(by apply read_still). intros e o1 Ho1 _ [H1 _]. ostep ltac:(by apply IH). intros l' o2 Ho2 _ [H2 Hl].
  apply ot_ret; [done|]. split; [by eapply still_trans|]. destruct e; cbn; lia.
Qed.

Lemma allocate_room_ok name o : ok gone o → triple (Rooms.allocate_room W name) o (fun _ o' => still o o').
Proof.
  intros Ho. unfold Rooms.allocate_room. ostep ltac:(by apply ask_still). intros now o1 Ho1 _ [H1 [n ->]].
  ostep ltac:(apply call_still; [done|split; [apply (wall_clock_ok _ HW)|unfold Rooms.MAX_PARTICIPANTS_PER_ROOM; lia]]).
  intros r o2 Ho2 _ [H2 Hr]. assert (Hs : still o o2) by by eapply still_trans.
  destruct r as [e|[]]; try (by apply ot_ret). cbn in Hr. eapply ot_lift; [by rewrite (proj2 (Z.eqb_neq _ 0))|]. by apply ot_ret.
Qed.

Lemma insert_created (p : Z) (l : list Z) (m : gmap Z (list Z)) : (∀ q x, m !! q = Some x → (length x ≤ 4)%nat) → (length l ≤ 4)%nat →
  ∀ q x, <[p := l]> m !! q = Some x → (length x ≤ 4)%nat.
Proof. intros Hm Hl q x Hx. apply lookup_insert_Some in Hx as [[-> ->]|[_ Hx]]; [done|by eapply Hm]. Qed.

Lemma mine_length o p : ok gone o → (length (Rooms.mine_of o p) ≤ 4)%nat.
Proof. intros Ho. unfold Rooms.mine_of. destruct (created (rooms o) !! p) eqn:E; cbn; [by eapply ok_created|lia]. Qed.

Lemma new_room_ok p name o : ok gone o → triple (Rooms.new_room W p name) o any.
Proof.
  intros Ho. unfold Rooms.new_room. case_match; [by eapply any_ok, error_none|].
  ostep ltac:(by apply read_still). intros n o1 Ho1 _ _. case_bool_decide; [by eapply any_ok, error_none|]. apply ot_get.
  ostep ltac:(by apply retain_ok). intros mine o2 Ho2 _ [H2 Hlen]. pose proof (mine_length o1 p Ho1).
  ostep ltac:(apply set_created_ok; [done|]; apply insert_created; [by eapply ok_created|lia]). intros _ o3 Ho3 _ ->.
  case_bool_decide as Hmax; [by eapply any_ok, error_none|]. unfold Rooms.MAX_ROOMS_PER_CREATOR in Hmax.
  ostep ltac:(by apply allocate_room_ok). intros [id|] o4 Ho4 _ H4; [|by eapply any_ok, error_none]. apply ot_get. cbv zeta.
  assert (Hmine : Rooms.mine_of o4 p = mine).
  { unfold Rooms.mine_of. destruct H4 as (_ & -> & _). cbn. by rewrite lookup_insert_eq. }
  rewrite Hmine. eapply ot_lift; [by rewrite bool_decide_eq_true_2 by (unfold Rooms.MAX_ROOMS_PER_CREATOR; lia)|].
  ostep ltac:(apply set_created_ok; [done|]; apply insert_created; [by eapply ok_created|rewrite length_app; cbn; lia]).
  intros _ o5 Ho5 _ _. by apply ot_ret.
Qed.

Lemma handle_create_ok p name o : ok gone o → triple (Rooms.handle_create W p name) o any.
Proof.
  intros Ho. unfold Rooms.handle_create. case_match; [by apply ot_ret|]. apply ot_get. case_match; [by eapply any_ok, send_error_ok|].
  case_match; [by eapply any_ok, send_to_ok|]. ostep ltac:(by apply new_room_ok). intros [id|] o1 Ho1 _ _; [|by apply ot_ret].
  eapply (ot_bind _ _ _ _ _ any).
  - destruct name; [by apply set_names_ok|by apply ot_ret].
  - intros _ o2 Ho2 _ _. by eapply any_ok, send_to_ok.
Qed.

(** ** Joining *)

Lemma room_granted_ok p room o : ok gone o → triple (Rooms.room_granted W p room) o (fun _ o' => still o o').
Proof.
  intros Ho. unfold Rooms.room_granted. ostep ltac:(by apply read_still). intros r o1 Ho1 _ [H1 (s & Hs & ->)].
  unfold DistributedState.get_room. destruct (DistributedState.rooms s !! room) as [reg|] eqn:Er; cbn [fmap option_fmap option_map].
  - pose proof (DistributedProofs.inv_lookup s room Hs) as Hl. rewrite Er in Hl.
    assert (Hid : DistributedState.room_id (LwwReg.LwwReg.value reg) = room) by (destruct (DistributedState.participants s !! room); [apply Hl|done]).
    eapply ot_lift; [by rewrite Hid, Z.eqb_refl|]. apply ot_get. destruct (Rooms.granted _ _ _); [by apply ot_ret|].
    ostep ltac:(by apply send_error_ok). intros _ o2 Ho2 _ H2. apply ot_ret; [done|by eapply still_trans].
  - ostep ltac:(by apply send_error_ok). intros _ o2 Ho2 _ H2. apply ot_ret; [done|by eapply still_trans].
Qed.

Lemma list_tracks_ok p tids : ∀ acc o, ok gone o → triple (Rooms.list_tracks W p tids acc) o (fun _ o' => still o o').
Proof.
  induction tids as [|t tids IH]; intros acc o Ho; cbn [Rooms.list_tracks]; [by apply ot_ret|]. case_bool_decide; [by apply ot_ret|].
  ostep ltac:(by apply read_still). intros info o1 Ho1 _ [H1 _]. destruct (Rooms.kind_content info).
  omono ltac:(by apply IH). intros _ o2 _ _ H2. by eapply still_trans.
Qed.

Lemma list_all_tracks_ok self pids : ∀ acc o, ok gone o → triple (Rooms.list_all_tracks W self pids acc) o (fun _ o' => still o o').
Proof.
  induction pids as [|q pids IH]; intros acc o Ho; cbn [Rooms.list_all_tracks]; [by apply ot_ret|]. case_match; [by apply IH|]. apply ot_get.
  eapply (ot_bind _ _ _ _ _ (fun _ o' => still o o')).
  - destruct (sessions o !! q); [by apply list_tracks_ok|by apply ot_ret].
  - intros acc' o1 Ho1 _ H1. omono ltac:(by apply IH). intros _ o2 _ _ H2. by eapply still_trans.
Qed.

Lemma set_room_ok p room o : ok gone o → room_of o p = None → triple (Rooms.set_room p room) o any.
Proof.
  intros Ho Hr. unfold Rooms.set_room, otriple. wp. destruct (sessions o !! p) as [h|] eqn:Eh; [|by split_and!; [|apply ext_refl|]].
  assert (Hnone : room_id h = None) by (unfold room_of in Hr; by rewrite Eh in Hr).
  set (o' := set_sessions _ o).
  assert (Hroom : ∀ q, room_of o' q = room_of o q ∨ room_of o q = None).
  { intros q. unfold room_of. cbn. destruct (decide (q = p)) as [->|Hne]; [right; by rewrite Eh|left; by rewrite lookup_insert_ne]. }
  assert (Hk : ∀ q t, known (plane_of o) (room_of o q) t → known (plane_of o) (room_of o' q) t).
  { intros q t [Hb Hk]. split; [done|]. intros i Hi. specialize (Hk i Hi). destruct (Hroom q); congruence. }
  destruct Ho as [Hp Hn Hs Hd Hc Hown Hpb]. split_and!; [|split; try done; eauto|done].
  - split; try done.
    + intros q s Hl. destruct (Hn q s Hl) as [? Hsl Hla ? ?]. split; try done; [intros x Hx; destruct (Hsl x Hx); by auto|auto].
    + intros q l t Hl Ht. destruct (Hs q l t Hl Ht). by auto.
    + intros q Hq. cbn. destruct (decide (q = p)) as [->|Hne]; [by rewrite lookup_insert_eq|]. rewrite lookup_insert_ne by done. by apply Hd.
  - intros q h' Hh. cbn in Hh. apply lookup_insert_Some in Hh as [[-> <-]|[_ Hh]]; eauto.
  - by apply sends_refl.
Qed.

Lemma handle_join_ok p room name o : ok gone o → triple (Rooms.handle_join W p room name) o any.
Proof.
  intros Ho. unfold Rooms.handle_join. case_match; [by eapply any_ok, send_error_ok|]. case_bool_decide; [by eapply any_ok, send_error_ok|].
  case_match; [by eapply any_ok, send_error_ok|]. apply ot_get. destruct (room_of o p) eqn:Er; cbn [is_some]; [by eapply any_ok, send_error_ok|].
  ostep ltac:(by apply room_granted_ok). intros g o1 Ho1 _ K1. destruct g; cbn [negb]; [|by apply ot_ret].
  ostep ltac:(by apply read_still). intros n o2 Ho2 _ [K2 _]. case_match; [by eapply any_ok, send_error_ok|].
  ostep ltac:(by apply call_still). intros r o3 Ho3 _ [K3 _]. destruct r; [by eapply any_ok, send_error_ok|].
  assert (Hr : room_of o3 p = None).
  { unfold room_of. destruct K3 as (-> & _), K2 as (-> & _), K1 as (-> & _). exact Er. }
  ostep ltac:(by apply set_room_ok). intros _ o4 Ho4 _ _. ostep ltac:(by apply read_still). intros pids o5 Ho5 _ _. cbv zeta.
  ostep ltac:(by apply list_all_tracks_ok). intros tracks o6 Ho6 _ _. ostep ltac:(by apply send_to_ok). intros _ o7 Ho7 _ _.
  by eapply any_ok, notify_still.
Qed.

(** ** Leaving *)

Lemma release_rooms_ok l : ∀ o, ok gone o → triple (Rooms.release_rooms W l) o any.
Proof.
  induction l as [|r l IH]; intros o Ho; cbn [Rooms.release_rooms]; [by apply ot_ret|].
  ostep ltac:(by apply read_still). intros e o1 Ho1 _ _.
  eapply (ot_bind _ _ _ _ _ any); [destruct e; [by eapply any_ok, read_still|by apply ot_ret]|]. intros n o2 Ho2 _ _.
  eapply (ot_bind _ _ _ _ _ any); [|intros _ o3 Ho3 _ _; by apply IH]. case_match; [|by apply ot_ret].
  ostep ltac:(by apply call_still). intros _ o3 Ho3 _ _. by apply set_names_ok.
Qed.

Lemma release_created_ok p o : ok gone o → triple (Rooms.release_created_rooms W p) o any.
Proof.
  intros Ho. unfold Rooms.release_created_rooms. apply ot_get. destruct (created (rooms o) !! p) as [l|] eqn:El; [|by apply ot_ret].
  ostep ltac:(apply set_created_ok; [done|]; intros q x Hx; apply lookup_delete_Some in Hx as [_ Hx]; by eapply ok_created).
  intros _ o1 Ho1 _ _. eapply ot_lift; [rewrite bool_decide_eq_true_2; [done|exact (ok_created _ _ Ho _ _ El)]|].
  by apply release_rooms_ok.
Qed.

Lemma cleanup_room_ok p o : ok gone o → triple (Rooms.cleanup_participant_room W p) o any.
Proof.
  intros Ho. unfold Rooms.cleanup_participant_room. apply ot_get. destruct (room_of o p); [|by apply ot_ret].
  ostep ltac:(by apply call_still). intros _ o1 Ho1 _ _. ostep ltac:(by apply read_still). intros pids o2 Ho2 _ _.
  ostep ltac:(by apply notify_still). intros _ o3 Ho3 _ _. case_bool_decide; [|by apply ot_ret].
  ostep ltac:(by apply call_still). intros _ o4 Ho4 _ _. by apply set_names_ok.
Qed.

Lemma handle_leave_ok p o : ok gone o → triple (Rooms.handle_leave W p) o any.
Proof.
  intros Ho. unfold Rooms.handle_leave. case_match; [by apply ot_ret|]. ostep ltac:(by apply cleanup_room_ok). intros _ o1 Ho1 _ _.
  by apply release_created_ok.
Qed.

End rooms.
End RoomsProofs.
