(* ===== verification/NegotiationProofs.v ===== *)
(** * Offers and sessions keep the invariant

    [src/orchestrator/negotiation.rs], the part that sends offers: sessions,
    m-lines, publish and subscribe slots. *)

From stdpp Require Import strings sorting.
From S2P Require Import Prelude Wp Model Crdt GossipWire DistributedState DistributedProofs Handshake Transports HandshakeProofs SdpParams SdpText SdpModel SdpParser SdpSafe SdpRound SdpAnswers ControlPlane OrchestratorState Negotiation PlaneProofs OrchestratorInv.

Module SlotProofs.
Import Mlines OrchInv PlaneProofs.

(** ** Lists *)

Lemma NoDup_sub {A} (l k : list A) : l ⊆+ k → NoDup k → NoDup l.
Proof. intros (k' & Hk)%submseteq_Permutation Hn. rewrite Hk in Hn. by apply NoDup_app in Hn as (? & _). Qed.

Lemma alter_insert {A} (f : A → A) (i : nat) (l : list A) x : l !! i = Some x → alter f i l = <[i := f x]> l.
Proof.
  intros Hx. apply list_eq. intros j. rewrite list_lookup_alter. destruct (decide (i = j)) as [<-|Hne].
  - rewrite Hx, list_lookup_insert_eq; [done|by eapply lookup_lt_Some].
  - by rewrite list_lookup_insert_ne.
Qed.

(** ** Slots *)

Definition key (x : SubSlot) : Z * Z := (slot_track x, out_ssrc x).
Definition keys (l : list MlineSlot) : list (Z * Z) := key <$> slots l.

Lemma slots_app l l' : slots (l ++ l') = slots l ++ slots l'.
Proof. unfold slots. apply omap_app. Qed.

Lemma slots_cons m l : slots (m :: l) = option_list (sub_slot_of m) ++ slots l.
Proof. unfold slots. cbn. by destruct (sub_slot_of m). Qed.

Lemma slots_insert l i m m' : l !! i = Some m → slots (<[i := m']> l) ++ option_list (sub_slot_of m) ≡ₚ option_list (sub_slot_of m') ++ slots l.
Proof.
  intros Hi. rewrite insert_take_drop by (by eapply lookup_lt_Some). rewrite <- (take_drop_middle l i m Hi) at 3.
  rewrite !slots_app, !slots_cons. solve_Permutation.
Qed.

Lemma slots_set_free l i m r : l !! i = Some m → sub_slot_of m = None → slots (<[i := set_role r m]> l) ≡ₚ option_list (sub_slot_of (set_role r m)) ++ slots l.
Proof. intros Hi Hn. pose proof (slots_insert l i m (set_role r m) Hi) as H. rewrite Hn in H. cbn in H. by rewrite app_nil_r in H. Qed.

Lemma slots_alter_inactive l i : slots (alter (set_role Inactive) i l) ⊆+ slots l.
Proof.
  destruct (l !! i) as [m|] eqn:Hi.
  - rewrite (alter_insert _ _ _ _ Hi). pose proof (slots_insert l i m (set_role Inactive m) Hi) as H. cbn in H.
    rewrite <- H. apply submseteq_inserts_r. done.
  - assert (alter (set_role Inactive) i l = l) as ->; [|done]. apply list_eq. intros j. rewrite list_lookup_alter. destruct (decide (i = j)) as [<-|]; [by rewrite Hi|done].
Qed.

Lemma slots_map f l : (∀ m, sub_slot_of (f m) = None ∨ sub_slot_of (f m) = sub_slot_of m) → slots (f <$> l) ⊆+ slots l.
Proof.
  intros Hf. induction l as [|m l IH]; [done|]. cbn [fmap list_fmap]. change (f <$> l) with (f <$> l). rewrite !slots_cons.
  destruct (Hf m) as [-> | ->]; [cbn; by apply submseteq_inserts_l|]. by apply submseteq_app.
Qed.

(** ** What m-lines keep *)

Lemma shape_length l l' : shape l' = shape l → length l' = length l.
Proof. intros H%(f_equal length). unfold shape in H. by rewrite !length_fmap in H. Qed.

Lemma shape_map f l : (∀ m, mid (f m) = mid m ∧ kind (f m) = kind m) → shape (f <$> l) = shape l.
Proof. intros Hf. unfold shape. rewrite <- list_fmap_compose. apply list_fmap_ext. intros _ m _. cbn. by destruct (Hf m) as [-> ->]. Qed.

Lemma shape_alter f i l : (∀ m, mid (f m) = mid m ∧ kind (f m) = kind m) → shape (alter f i l) = shape l.
Proof.
  intros Hf. unfold shape. revert i. induction l as [|m l IH]; intros [|i]; cbn; try done; [by destruct (Hf m) as [-> ->]|]. f_equal. apply IH.
Qed.

Lemma lines_same s s' : shape (mlines s') = shape (mlines s) → next_mid_index s' = next_mid_index s → lines_ok s → lines_ok s'.
Proof. unfold lines_ok. intros Hs -> (Hl & Hn & Hf). rewrite (shape_length _ _ Hs), Hs. by split_and!. Qed.

(** ** The invariant and the slots *)

Section slots.
Context `{En : DtlsEngine}.

Lemma slots_ok_sub a l l' : key <$> l' ⊆+ key <$> l → slots_ok a l → slots_ok a l'.
Proof.
  intros Hs [Hf Hn]. assert (Hout : out_ssrc <$> l' ⊆+ out_ssrc <$> l).
  { assert (∀ k, out_ssrc <$> k = snd <$> (key <$> k)) as Heq by (intros k; by rewrite <- list_fmap_compose). rewrite !Heq. by apply fmap_submseteq. }
  split; [|by eapply NoDup_sub]. apply Forall_forall. intros x Hx.
  assert (Hin : out_ssrc x ∈ out_ssrc <$> l) by (eapply elem_of_submseteq; [|exact Hout]; by apply list_elem_of_fmap_2).
  apply list_elem_of_fmap in Hin as (y & -> & Hy). rewrite Forall_forall in Hf. by apply Hf.
Qed.

Lemma slots_ok_grow a a' l : slots_ok a l → ssrcs_grow a a' → slots_ok a' l.
Proof. intros [Hf Hn] [? ?]. split; [|done]. eapply Forall_impl; [exact Hf|]. intros x. by apply SsrcProofs.issued_more. Qed.

Lemma slots_ok_new a a' l x : slots_ok a l → ssrcs_grow a a' → SsrcProofs.issued a' (out_ssrc x) →
  Ssrcs.next_offset a ≤ Ssrcs.offset_of a (out_ssrc x) → slots_ok a' (x :: l).
Proof.
  intros Hl Hg Hi Ho. destruct (slots_ok_grow _ _ _ Hl Hg) as [Hf' Hn']. destruct Hl as [Hf Hn]. split; [by constructor|].
  cbn. constructor; [|done]. intros (y & Hy & Hin)%list_elem_of_fmap. rewrite Forall_forall in Hf. destruct (Hf y Hin) as [_ ?]. rewrite Hy in Ho. lia.
Qed.

Lemma neg_ok_sub gone pl room p s s' : neg_ok gone pl room p s → session s' = session s →
  last_subscribed_track_ids s' = last_subscribed_track_ids s → lines_ok s' →
  keys (mlines s') ⊆+ keys (mlines s) → neg_ok gone pl room p s'.
Proof.
  intros [Hl Hs Hla Hse Hi] He Hlast Hlen Hk. split; try done.
  - intros x Hx. assert (Hin : key x ∈ keys (mlines s)) by (eapply elem_of_submseteq; [|exact Hk]; by apply list_elem_of_fmap_2).
    apply list_elem_of_fmap in Hin as (y & Hy & Hin). injection Hy as Ht _. rewrite Ht. by apply Hs.
  - by rewrite Hlast.
  - rewrite He. intros id Hid. destruct (Hse id Hid) as (e & ? & ? & Hok). exists e. split_and!; try done. by eapply slots_ok_sub.
  - rewrite He. intros Hn. specialize (Hi Hn). unfold keys in Hk. rewrite Hi in Hk. cbn in Hk. apply submseteq_nil_r in Hk. by apply fmap_nil_inv in Hk.
Qed.

Lemma keys_slots l l' : slots l ⊆+ slots l' → keys l ⊆+ keys l'.
Proof. apply fmap_submseteq. Qed.

(** A setter that leaves m-lines and session alone. *)
Definition harmless (f : NegotiationState → NegotiationState) : Prop :=
  ∀ s, session (f s) = session s ∧ (mlines (f s) = mlines s ∧ next_mid_index (f s) = next_mid_index s) ∧ last_subscribed_track_ids (f s) = last_subscribed_track_ids s.

Lemma neg_ok_harmless gone pl room p f s : harmless f → neg_ok gone pl room p s → neg_ok gone pl room p (f s).
Proof.
  intros Hf Hn. destruct (Hf s) as (? & [Hm Hi] & ?). eapply neg_ok_sub; [done|done|done|eapply lines_same; [by rewrite Hm|done|apply Hn]|by rewrite Hm].
Qed.

(** ** Claiming m-lines *)

Definition role_slots (r : MlineRole) : list SubSlot := match r with Subscribe x => [x] | _ => [] end.

Lemma claim_mline_ok {E} k r s : (length (mlines s) < Sdp.MAX_MEDIA_SECTIONS)%nat ∨ existsb (Negotiation.is_free k) (mlines s) = true →
  lines_ok s → k = 0 ∨ k = 1 →
  ∃ m n l, Negotiation.claim_mline (E:=E) k r s = Ok (m, set_mlines n l s) ∧ slots l ≡ₚ role_slots r ++ slots (mlines s) ∧
    (length (mlines s) ≤ length l ≤ S (length (mlines s)))%nat ∧ lines_ok (set_mlines n l s).
Proof.
  intros Hroom (Hlen & Hmid & Hf) Hk. unfold Negotiation.claim_mline. destruct (position _ _) as [i|] eqn:Ep.
  - apply position_Some in Ep as [(m & Hm & Hfree) _]. rewrite Hm. cbn. eexists _, _, _. split; [done|]. rewrite length_insert.
    split; [|split; [lia|]].
    + unfold Negotiation.is_free in Hfree. apply andb_true_iff in Hfree as [Hr%bool_decide_eq_true _].
      rewrite (slots_set_free _ _ m) by (done || (unfold sub_slot_of; by rewrite Hr)). unfold sub_slot_of. cbn. by destruct r.
    + split_and!; cbn; [by rewrite length_insert|done|]. rewrite <- (alter_insert (set_role r) _ _ _ Hm), shape_alter by done. done.
  - assert (Hlt : (length (mlines s) < Sdp.MAX_MEDIA_SECTIONS)%nat).
    { destruct Hroom as [|Hex]; [done|]. apply existsb_exists in Hex as (m & Hin & Hfr). apply list_elem_of_In, list_elem_of_lookup in Hin as (i & Hi).
      rewrite position_None in Ep. by rewrite (Ep i m Hi) in Hfr. }
    rewrite bool_decide_eq_true_2 by done. cbn. eexists _, _, _. split; [done|]. rewrite length_app. cbn [length]. split; [|split; [lia|]].
    + rewrite slots_app. cbn. unfold sub_slot_of. cbn. destruct r; cbn; rewrite ?app_nil_r; try done. solve_Permutation.
    + split_and!; cbn; [rewrite length_app; cbn; lia|by apply wrap_range|]. unfold shape. rewrite fmap_app. apply Forall_app. split; [done|].
      apply Forall_singleton. split; [by exists (next_mid_index s)|done].
Qed.

Lemma claim_publish_ok {E} l : ∀ s, (length (mlines s) + length l ≤ Sdp.MAX_MEDIA_SECTIONS)%nat → lines_ok s →
  ∃ s', Negotiation.claim_publish (E:=E) l s = Ok s' ∧ session s' = session s ∧ last_subscribed_track_ids s' = last_subscribed_track_ids s ∧
    slots (mlines s') ≡ₚ slots (mlines s) ∧ lines_ok s'.
Proof.
  induction l as [|[k c] l IH]; intros s Hl Hs0; cbn [Negotiation.claim_publish length] in *.
  { exists s. by split_and!. }
  destruct (claim_mline_ok (E:=E) (if bool_decide (k = "video") then 1 else 0) Publish s) as (m & n & ml & Hc & Hs & Hlen & Hmax); [left; lia|done|case_bool_decide; auto|].
  rewrite Hc. cbn [mbind outcome_bind].
  destruct (IH (set_unregistered (unregistered_publish_mids (set_mlines n ml s) ++ [m]) (set_mlines n ml s))) as (s' & Hr & H1 & H2 & H3 & H4); [cbn; lia|done|].
  exists s'. split_and!; try done. by rewrite H3.
Qed.

End slots.
End SlotProofs.

(** ** Offers

    What the orchestrator hands to the negotiator is what the negotiator's
    theorems ask for. *)

Module OfferProofs.
Import Text TextProofs TextRound SdpTypes Attributes SdpSafe SdpRound Answers Offers Mlines PlaneProofs OrchInv.

Lemma dec_go_length fuel : ∀ k n acc, 0 ≤ n < 10 ^ Z.of_nat (S k) → (length (dec_go fuel n acc) ≤ S k + length acc)%nat.
Proof.
  induction fuel as [|fuel IH]; intros k n acc Hn; cbn [dec_go]; [lia|]. cbv zeta. destruct (Z.ltb_spec n 10); [cbn; lia|].
  destruct k as [|k]; [lia|]. etrans; [apply (IH k)|cbn; lia]. rewrite Nat2Z.inj_succ, Z.pow_succ_r in Hn by lia.
  split; [apply Z.div_pos; lia|apply Z.div_lt_upper_bound; lia].
Qed.

Lemma dec_bytes n : bytes (dec n).
Proof. eapply Forall_impl; [apply dec_digits|]. unfold is_digit. intros b Hb. split; cbn; lia. Qed.

Lemma mid_text_ok n : is_u32 n → mid_ok (lit (text_of (dec n))).
Proof.
  intros Hn. rewrite lit_text_of by apply dec_bytes. split.
  - split; [pose proof (dec_nonempty n); destruct (dec n); [done|cbn; lia]|].
    pose proof (dec_go_length 20 9 n []) as Hl. unfold dec, MAX_MID_LEN. cbn [length] in Hl. unfold in_range in Hn. lia.
  - apply forallb_forall. intros b Hb%list_elem_of_In. pose proof (dec_digits n) as Hd. rewrite Forall_forall in Hd. specialize (Hd b Hb). unfold is_digit in Hd.
    unfold Media.is_token_char. rewrite (proj2 (Z.leb_le 48 b)), (proj2 (Z.leb_le b 57)) by lia. cbn [andb]. rewrite !orb_true_r. done.
Qed.

Lemma identity_valid p : utf8_valid (lit (Negotiation.identity_of p)) = true.
Proof.
  unfold Negotiation.identity_of. assert (Hb : bytes (lit "nexus-")) by (each; split; cbn; lia).
  rewrite lit_text_of by (apply Forall_app; split; [done|apply dec_bytes]). apply utf8_ascii, Forall_app. split; [each; cbn; lia|].
  eapply Forall_impl; [apply dec_digits|]. unfold is_digit. intros b Hd. lia.
Qed.

Lemma ice_char b : b ∈ Transports.ICE_CHARS → (Media.is_alnum b || (b =? 43) || (b =? 47)) && (0 <=? b) && (b <? 128) = true.
Proof. intros Hb%list_elem_of_In. revert b Hb. by apply forallb_forall. Qed.

Lemma drawn_ok s n : length s = n → (1 ≤ n ≤ 256)%nat → Forall (fun b => b ∈ Transports.ICE_CHARS) s → from_utf8_lossy s = s ∧ ice_ok s.
Proof.
  intros Hl Hn Hs. assert (Hf : Forall (fun b => (Media.is_alnum b || (b =? 43) || (b =? 47)) && (0 <=? b) && (b <? 128) = true) s) by (eapply Forall_impl; [exact Hs|apply ice_char]).
  split; [apply lossy_ascii; eapply Forall_impl; [exact Hf|]; cbn; intros b [[_ ?]%andb_true_iff ?]%andb_true_iff; lia|].
  split; [unfold text_ok; lia|]. apply forallb_forall. intros b Hb%list_elem_of_In. rewrite Forall_forall in Hf. specialize (Hf b Hb).
  by apply andb_true_iff in Hf as [[? _]%andb_true_iff _].
Qed.

(** ** The tables of an offer *)

Record tables_ok (t : Negotiation.OfferTables) : Prop := {
  tb_codecs : ∀ k, k = 0 ∨ k = 1 → ∃ c, Negotiation.offer_codecs t !! Z.to_nat k = Some c ∧ codec_ok c;
  tb_extmaps : ∀ k, k = 0 ∨ k = 1 → ∃ e, Negotiation.offer_extmaps t !! Z.to_nat k = Some e ∧ Forall extmap_ok e;
  tb_defaults : defaults_ok (Negotiation.offer_defaults t);
  tb_chosen : is_Some (Negotiator.video_codec (Negotiation.offer_defaults t)) ∧ is_Some (Negotiator.audio_codec (Negotiation.offer_defaults t));
}.

Lemma codec_known pt n rate ch : pt_ok pt → (length n ≤ 32)%nat → is_u32 rate → some_is is_u8 ch → codec_ok (mkRtpCodec pt n rate ch).
Proof. intros. split; cbn; [done|unfold text_ok; lia|done|done]. Qed.

Lemma offer_tables_ok : ∃ t, Negotiation.offer_tables = Ok t ∧ tables_ok t.
Proof.
  set (opus := mkRtpCodec 111 (lit "opus") 48000 (Some 2)). set (vp8 := mkRtpCodec 96 (lit "VP8") 90000 None).
  assert (Ho : codec_ok opus) by (apply codec_known; [split; lia|cbn; lia|split; cbn; lia|split; cbn; lia]).
  assert (Hv : codec_ok vp8) by (apply codec_known; [split; lia|cbn; lia|split; cbn; lia|done]).
  eexists. split; [vm_compute; reflexivity|]. split.
  - intros k [-> | ->]; eexists; (split; [reflexivity|assumption]).
  - intros k [-> | ->]; eexists; (split; [reflexivity|]); each; (split; [cbn; lia|split; cbn; lia]).
  - split; [cbn; lia|closed|by split|done].
  - split; by eexists.
Qed.

Section offers.
Context `{En : DtlsEngine} {Laws : EngineLaws} (cert : Certificate).

Lemma negotiator_for_ok i : ice_drawn i → ∃ n, Negotiation.negotiator_for cert i = Ok n ∧ negotiator_ok n.
Proof.
  intros [[Hlu Hu] [Hlp Hp]]. destruct (drawn_ok _ 16 Hlu ltac:(lia) Hu) as [Eu Hou]. destruct (drawn_ok _ 32 Hlp ltac:(lia) Hp) as [Ep Hop].
  destruct (fingerprint_typed cert) as [Hlf Hbf]. unfold Negotiation.negotiator_for, Negotiator.with_defaults, Negotiator.new. rewrite Eu, Ep.
  unfold Session.validate_ice_ufrag, Session.validate_ice_pwd, Session.check_length. rewrite Hlu, Hlp. eexists. split; [vm_compute; reflexivity|].
  split; cbn; [done|apply default_capable|done|done| |constructor]. exists (cert_fingerprint cert). split; [done|]. cbn. rewrite Hlf. by split_and!.
Qed.

Lemma offer_mline_ok {E} n t m name : tables_ok t → line_ok (mid m, kind m) → (∀ x, sub_slot_of m = Some x → is_u32 (out_ssrc x) ∧ out_ssrc x ≠ 0) →
  some_is (fun s => utf8_valid (lit s) = true) name →
  ∃ l, Negotiation.offer_mline (E:=E) t m name = Ok l ∧ mline_ok l ∧ has_codec n (Negotiation.offer_defaults t) l.
Proof.
  intros Ht [(i & Hi & Hmid) Hk] Hx Hn. cbn [fst snd] in *. pose proof (mid_text_ok i Hi) as Hm. rewrite <- Hmid in Hm.
  assert (Hfbs : fbs_ok (Negotiation.lits (Negotiation.fbs_of (kind m)))) by (destruct Hk as [-> | ->]; closed).
  assert (Hrec : ∀ d fbs, fbs_ok (Negotiation.lits fbs) → ∃ l, Negotiation.recycled (E:=E) t m d fbs = Ok l ∧ mline_ok l ∧ has_codec n (Negotiation.offer_defaults t) l).
  { intros d fbs Hf. unfold Negotiation.recycled. destruct (tb_codecs _ Ht _ Hk) as (c & Hc & Hco), (tb_extmaps _ Ht _ Hk) as (e & He & Heo).
    rewrite (idx_eq _ _ _ Hc). cbn [mbind outcome_bind]. rewrite (idx_eq _ _ _ He). cbn [mbind outcome_bind]. eexists. split; [done|]. split; [|done].
    split; cbn; try done; by constructor. }
  unfold Negotiation.offer_mline. unfold sub_slot_of in Hx. destruct (role m) as [|x|]; [by apply Hrec| |by apply Hrec; constructor].
  destruct name as [s|]; [|by apply Hrec; constructor]. eexists. split; [done|]. cbn in Hn. split; [by split_and!; try done; apply Hx|].
  left. destruct (tb_chosen _ Ht). by destruct (kind m =? 0).
Qed.

Lemma offer_mlines_ok {E} n t l names : tables_ok t → Forall line_ok (shape l) → Forall (fun x => is_u32 (out_ssrc x) ∧ out_ssrc x ≠ 0) (slots l) →
  Forall (some_is (fun s => utf8_valid (lit s) = true)) names →
  ∃ ls, mapM (fun x => Negotiation.offer_mline (E:=E) t x.1 x.2) (zip l names) = Ok ls ∧ length ls = length (zip l names) ∧
    Forall mline_ok ls ∧ Forall (has_codec n (Negotiation.offer_defaults t)) ls.
Proof.
  intros Ht. revert names. induction l as [|m l IH]; intros [|name names] Hl Hs Hn; [by exists []..|].
  cbn [shape fmap list_fmap] in Hl. apply Forall_cons in Hl as [Hm Hl]. apply Forall_cons in Hn as [Hname Hn]. rewrite SlotProofs.slots_cons in Hs. apply Forall_app in Hs as [Hx Hs].
  destruct (offer_mline_ok (E:=E) n t m name Ht Hm) as (x & Ex & Hok & Hc); [by intros x Ex; rewrite Ex in Hx; apply Forall_cons in Hx as [? _]|done|].
  destruct (IH names Hl Hs Hn) as (ls & Els & Hlen & H1 & H2). exists (x :: ls). change (zip (m :: l) (name :: names)) with ((m, name) :: zip l names).
  cbn [mapM fst snd]. rewrite Ex. cbn [mbind outcome_bind]. rewrite Els. cbn [mbind outcome_bind length]. split_and!; [done|lia|by constructor..].
Qed.

End offers.
End OfferProofs.

Module NegProofs.
Import Orch Mlines PlaneProofs OrchInv RoomsProofs SlotProofs.

Section negotiation.
Context `{En : DtlsEngine} {Laws : EngineLaws} (W : World) (HW : world_ok W).
Context (cert : Certificate) (cands : list (list SocketAddr)) (Hcands : cands ≠ []).
Context (P : Command → Prop) (HP : ∀ c, plain c → P c) (gone : list Z).
Implicit Types (o : SessionOrchestrator) (s : NegotiationState).

Abbreviation triple := (otriple P gone).

(** ** Frames *)

(** Negotiations keep their participants and sessions. *)
Definition stays o o' : Prop := ∀ q s, negotiation o !! q = Some s → ∃ s', negotiation o' !! q = Some s' ∧ session s' = session s.

Lemma stays_refl o : stays o o.
Proof. intros q s Hs. eauto. Qed.

Lemma stays_trans o1 o2 o3 : stays o1 o2 → stays o2 o3 → stays o1 o3.
Proof. intros H1 H2 q s Hs. destruct (H1 q s Hs) as (s1 & Hs1 & He1). destruct (H2 q s1 Hs1) as (s2 & Hs2 & He2). exists s2. split; [done|congruence]. Qed.

Lemma stays_same o o' : negotiation o' = negotiation o → stays o o'.
Proof. intros He q s Hs. rewrite He. eauto. Qed.

Lemma still_stays o o' : still o o' → stays o o'.
Proof. intros (_ & _ & Hn & _). by apply stays_same. Qed.

Definition updated (p : Z) (f : NegotiationState → NegotiationState) o : SessionOrchestrator :=
  match negotiation o !! p with Some s => set_negotiation (<[p := f s]> (negotiation o)) o | None => o end.

Lemma updated_stays p f o : (∀ s, negotiation o !! p = Some s → session (f s) = session s) → stays o (updated p f o).
Proof.
  intros Hf q s Hs. unfold updated. destruct (negotiation o !! p) as [x|] eqn:Ex; [|eauto]. cbn.
  destruct (decide (q = p)) as [->|Hne]; [|rewrite lookup_insert_ne by done; eauto]. rewrite lookup_insert_eq. eexists. split; [done|].
  rewrite Ex in Hs. injection Hs as <-. by apply Hf.
Qed.

Lemma update_ok p f o : ok gone o →
  (∀ s, negotiation o !! p = Some s → session (f s) = session s ∧ neg_ok gone (plane_of o) (room_of o p) p (f s)) →
  triple (Negotiation.update p f) o (fun _ o' => o' = updated p f o ∧ stays o o').
Proof.
  intros Ho Hf. unfold Negotiation.update, otriple. wp. fold (updated p f o).
  assert (Hst : stays o (updated p f o)) by (apply updated_stays; intros s Hs; by apply Hf).
  destruct (negotiation o !! p) as [s|] eqn:Es; [|unfold updated in *; rewrite Es in *; split_and!; try done; apply ext_refl].
  destruct (Hf s eq_refl) as [He Hn]. destruct (negotiation_replaced_ok P gone p s (f s) o Ho Es He Hn) as [? ?].
  unfold updated in *. rewrite Es in *. by split_and!.
Qed.

Lemma update_harmless p f o : ok gone o → harmless f → triple (Negotiation.update p f) o (fun _ o' => o' = updated p f o ∧ stays o o').
Proof.
  intros Ho Hf. apply update_ok; [done|]. intros s Hs. split; [apply Hf|]. apply neg_ok_harmless; [done|]. by apply (ok_neg _ _ Ho).
Qed.

Lemma update_sub p f o : ok gone o →
  (∀ s, negotiation o !! p = Some s → session (f s) = session s ∧ last_subscribed_track_ids (f s) = last_subscribed_track_ids s ∧
     lines_ok (f s) ∧ keys (mlines (f s)) ⊆+ keys (mlines s)) →
  triple (Negotiation.update p f) o (fun _ o' => o' = updated p f o ∧ stays o o').
Proof.
  intros Ho Hf. apply update_ok; [done|]. intros s Hs. destruct (Hf s Hs) as (He & Hl & Hlen & Hk). split; [done|].
  eapply neg_ok_sub; [by apply (ok_neg _ _ Ho)|done..].
Qed.

(** What a participant knows, it knows later. *)
Lemma known_later o o' p t : ok gone o' → ext P o o' → is_Some (negotiation o' !! p) →
  known (plane_of o) (room_of o p) t → known (plane_of o') (room_of o' p) t.
Proof.
  intros Ho' He Hp [Hb Hk]. split; [pose proof (ex_ids _ _ _ He); lia|]. intros i' Hi'.
  destruct (ex_tracks _ _ _ He t i' Hi') as [(i & Hi & -> & _)|[? _]]; [|lia].
  eapply ext_room; [done|by apply Hk|]. apply (ok_dom _ _ Ho'). by left.
Qed.

(** ** Sessions *)

Lemma session_added_ok p s id now o pl : ok gone o → negotiation o !! p = Some s → session s = None → pok pl → session_added P p id (plane_of o) pl →
  let o' := set_negotiation (<[p := set_session id now 0 s]> (negotiation o)) (set_plane pl o) in
  ok gone o' ∧ ext P o o'.
Proof.
  intros Ho Hs Hnone Hpl [[Hid Hnext] [Htr Hnt] (e & Hpe & Hent & Hfresh) [Hby Hby'] Hsent] o'.
  destruct Ho as [Hp Hn Hsub Hd Hcr Hown Hpb].
  assert (Hk : ∀ room t, known (plane_of o) room t → known pl room t) by (intros room t; unfold known; by rewrite Htr, Hnt).
  assert (Hlv : ∀ t, live gone (plane_of o) t → live gone pl t) by (intros t; unfold live; by rewrite Htr).
  assert (Hold : ∀ i x, Transports.entries (Plane.transports (plane_of o)) !! i = Some x → Transports.entries (Plane.transports pl) !! i = Some x).
  { intros i x Hx. rewrite Hent, lookup_insert_ne; [done|]. intros ->. congruence. }
  assert (Hneg : ∀ q x, neg_ok gone (plane_of o) (room_of o q) q x → neg_ok gone pl (room_of o q) q x).
  { intros q x [? Hsl Hla Hse ?]. split; try done.
    - intros y Hy. destruct (Hsl y Hy). by auto.
    - auto.
    - intros i Hi. destruct (Hse i Hi) as (y & Hy & ?). exists y. by split; [apply Hold|]. }
  split; [split; try done|split; try done].
  - intros q x Hx. cbn in Hx. apply lookup_insert_Some in Hx as [[<- <-]|[_ Hx]]; [|apply Hneg, Hn, Hx].
    specialize (Hneg p s (Hn p s Hs)). destruct Hneg as [? Hsl Hla Hse Hidle]. split; try done. cbn. intros i [= <-]. exists e.
    rewrite Hent, lookup_insert_eq. split; [done|]. split; [done|]. change (omap sub_slot_of (mlines s)) with (slots (mlines s)). rewrite (Hidle Hnone). split; constructor.
  - intros q l t Hl Ht. destruct (Hsub q l t Hl Ht). split; [by apply Hk|by apply Hlv].
  - intros q [[x Hx]|?]; [|by apply Hd; right]. cbn in Hx. apply Hd. left. apply lookup_insert_Some in Hx as [[<- _]|[_ Hx]]; by eexists.
  - intros i x Hx. cbn in Hx |- *. rewrite Hent in Hx. apply lookup_insert_Some in Hx as [[<- <-]|[_ Hx]].
    + rewrite Hpe, lookup_insert_eq. by eexists.
    + destruct (Hown i x Hx) as (y & Hy & Hse). rewrite lookup_insert_ne; [by eexists|]. intros Heq. rewrite <- Heq in Hy. congruence.
  - cbn. rewrite Htr. intros t i Hi. apply lookup_insert_is_Some'. right. by eapply Hpb.
  - cbn. lia.
  - cbn. rewrite Htr. eauto.
  - cbn. intros q [x Hx]. apply lookup_insert_Some in Hx as [[<- _]|[_ Hx]]; by eexists.
  - cbn. eauto.
  - cbn. rewrite Hby'. intros q i Hq. apply lookup_insert_Some in Hq as [[<- _]|[_ Hq]]; [right; by eexists|by left].
Qed.

(** The participant's state with its session. *)
Definition has_session (p : Z) (id : SessionId) o o' : Prop :=
  ∃ s s', negotiation o !! p = Some s ∧ negotiation o' !! p = Some s' ∧ session s' = Some id ∧ mlines s' = mlines s ∧
    last_subscribed_track_ids s' = last_subscribed_track_ids s ∧ (∀ id', session s = Some id' → id' = id).

Lemma ensure_session_ok p o : ok gone o →
  triple (Negotiation.ensure_session W cert p) o (fun r o' => match r with Some id => has_session p id o o' | None => True end).
Proof.
  intros Ho. unfold Negotiation.ensure_session. apply ot_get. unfold Negotiation.state_of.
  destruct (negotiation o !! p) as [s|] eqn:Es; [|by apply ot_ret]. destruct (session s) as [id|] eqn:Ese.
  { apply ot_ret; [done|]. exists s, s. split_and!; try done. congruence. }
  unfold otriple. apply wp_bind, wp_zoom.
  eapply wp_conseq; [apply (session_created_ok P HP W HW cert p), Ho|..]; cbn beta; [|done].
  intros [id|] pl [Hpl Hres]; cycle 1.
  - destruct (calm_ok P gone o (set_plane pl o) Ho) as [Ho1 He1]; try done.
    eapply wp_conseq; [exact (error_none (A:=SessionId) P gone p "SESSION_FAILED" _ Ho1)|..]; cbn beta.
    + intros r o2 (? & ? & _ & ->). split_and!; [done|by eapply ext_trans|done].
    + intros _ o2 Hs. eapply sends_trans; [apply He1|done].
  - unfold Plane.ask, on_plane. apply wp_bind, wp_zoom. wp. unfold Negotiation.update. wp. cbn [negotiation set_plane].
    rewrite Es. set (pl' := Plane.set_asked (S (Plane.asked pl)) pl).
    assert (Hpl' : pok pl') by (apply (pok_same pl pl' Hpl); [done|apply (po_cluster _ Hpl)]).
    assert (Hadd : session_added P p id (plane_of o) pl') by (destruct Hres; by split).
    destruct (session_added_ok p s id (wall_secs W (Plane.asked pl)) o pl' Ho Es Ese Hpl' Hadd) as [? ?]. split_and!; try done.
    exists s, (set_session id (wall_secs W (Plane.asked pl)) 0 s). cbn. rewrite lookup_insert_eq. split_and!; try done. congruence.
Qed.

(** ** Offers *)

(** Code that reads the state. *)
Lemma ot_reads {A B} (m : orch A) (f : A → orch B) o Q : (∃ a, m o = Ok (a, o)) → (∀ a, m o = Ok (a, o) → triple (f a) o Q) → triple (m ≫= f) o Q.
Proof.
  intros [a Ha] Hf. specialize (Hf a Ha). unfold otriple, run_to in *. unfold mbind, st_bind. rewrite Ha. exact Hf.
Qed.

Lemma find_track_runs t o : t ≠ 0 → Negotiation.find_track t o = Ok (Plane.tracks (plane_of o) !! t, o).
Proof. intros Ht. unfold Negotiation.find_track, mbind, st_bind, lift. by rewrite id_new_ok. Qed.

Lemma identities_run l o : Forall (fun x => slot_track x ≠ 0) (slots l) →
  ∃ r, Negotiation.identities_of l o = Ok (r, o) ∧ length r = length l ∧ Forall (SdpSafe.some_is (fun name => Text.utf8_valid (Text.lit name) = true)) r.
Proof.
  induction l as [|m l IH]; intros Hl; cbn [Negotiation.identities_of]; [by exists []|]. rewrite slots_cons in Hl. apply Forall_app in Hl as [Hm Hl].
  destruct (IH Hl) as (r & Hr & Hlen & Hf). unfold mbind at 1, st_bind at 1.
  assert (∃ i, Negotiation.slot_identity m o = Ok (i, o) ∧ SdpSafe.some_is (fun name => Text.utf8_valid (Text.lit name) = true) i) as (i & Hi & Hv).
  { unfold Negotiation.slot_identity. destruct (role m) as [|x|] eqn:Er; cbn [subscribed_track]; try (by eexists).
    unfold sub_slot_of in Hm. rewrite Er in Hm. apply Forall_cons in Hm as [Hm _]. unfold mbind, st_bind.
    rewrite find_track_runs by done. eexists. split; [done|]. destruct (_ !! slot_track x); cbn; [apply OfferProofs.identity_valid|done]. }
  rewrite Hi. unfold mbind, st_bind. rewrite Hr. eexists. split; [done|]. split; [cbn; lia|by constructor].
Qed.

Lemma attempt_runs {E A} (m : outcome E A) o : no_panic m → ∃ r, Negotiation.attempt m o = Ok (r, o).
Proof. unfold no_panic, Negotiation.attempt. destruct m; [by eexists..|done]. Qed.

Lemma build_offer_runs s id v o : ok gone o → mlines s ≠ [] → Forall line_ok (shape (mlines s)) →
  Forall (fun x => slot_track x ≠ 0 ∧ is_u32 (out_ssrc x) ∧ out_ssrc x ≠ 0) (slots (mlines s)) → ∃ r, Negotiation.build_offer cert s id v o = Ok (r, o).
Proof.
  intros Ho Hne Hf Hs. unfold Negotiation.build_offer, mbind at 1, st_bind at 1, get. destruct (_ !! id) as [e|] eqn:He; [|by eexists].
  destruct (OfferProofs.negotiator_for_ok cert _ (eo_ice _ _ _ (entry_of _ _ _ (ok_plane _ _ Ho) He))) as (n & -> & Hn).
  destruct OfferProofs.offer_tables_ok as (t & -> & Ht). cbn [mbind outcome_bind]. unfold mbind, st_bind, Negotiation.attempt at 1. cbn [mret st_ret].
  apply Forall_and in Hs as [Hnz Hu]. destruct (identities_run (mlines s) o Hnz) as (names & -> & Hlen & Hv). cbv zeta.
  destruct (OfferProofs.offer_mlines_ok (E:=Exhausted) n t (mlines s) names Ht Hf Hu Hv) as (ls & Els & Hl & Hok & Hc). unfold lift. rewrite Els.
  assert (Hls : ls ≠ []). { intros ->. destruct (mlines s); [done|]. by destruct names. }
  pose proof (Offers.ordered_offer_total n _ (session_id s) v ls Hn (OfferProofs.tb_defaults _ Ht) Hls Hok Hc) as [Hp _]%total_spec.
  destruct (attempt_runs _ o Hp) as [r ->]. by eexists.
Qed.

Lemma new_host_runs {E} a i : 0 ≤ i < 256 → ∃ c, Candidates.new_host (E:=E) W a 1 i = Ok c.
Proof.
  intros Hi. unfold Candidates.new_host, Candidates.calculate_priority. change (1 <=? 1) with true.
  assert (Hle : Candidates.local_preference a i <=? 65535 = true) by (apply Z.leb_le; unfold Candidates.local_preference; lia).
  rewrite Hle. by eexists.
Qed.

Lemma trickle_still p l : ∀ i o, ok gone o → triple (Negotiation.trickle W p i l) o (fun _ o' => still o o').
Proof.
  induction l as [|a l IH]; intros i o Ho; cbn [Negotiation.trickle]; [by apply send_to_ok|].
  destruct (new_host_runs (E:=Exhausted) a (wrap 8 i)) as [c Hc]; [by apply wrap_range|]. eapply ot_lift; [exact Hc|].
  ostep ltac:(by apply send_to_ok). intros _ o1 Ho1 _ H1. omono ltac:(by apply IH). intros _ o2 _ _ H2. by eapply still_trans.
Qed.

Lemma trickle_candidates_ok p id o : ok gone o → triple (Negotiation.trickle_candidates W cands p id) o (fun _ o' => still o o').
Proof.
  intros Ho. unfold Negotiation.trickle_candidates. apply ot_get. destruct (_ !! id) as [e|] eqn:He; [|by apply ot_ret].
  pose proof (eo_shard _ _ _ (entry_of _ _ _ (ok_plane _ _ Ho) He)) as Hsh.
  destruct cands as [|c cs]; [done|]. eapply ot_lift; [by rewrite Hsh|]. by apply trickle_still.
Qed.

(** The handler changed only the plane. *)
Definition quiet o o' : Prop := sessions o' = sessions o ∧ rooms o' = rooms o ∧ negotiation o' = negotiation o ∧ subscription o' = subscription o.

Lemma quiet_trans o1 o2 o3 : quiet o1 o2 → quiet o2 o3 → quiet o1 o3.
Proof. unfold quiet. intuition congruence. Qed.

Definition entry_at o (id : SessionId) : option Transports.TransportEntry := Transports.entries (Plane.transports (plane_of o)) !! id.
Definition tracks_of o := Plane.tracks (plane_of o).

Lemma allocate_slot_ok id l o e : ok gone o → entry_at o id = Some e → slots_ok (Transports.ssrcs e) l →
  triple (on_plane (allocate_for id)) o (fun r o' => quiet o o' ∧ tracks_of o' = tracks_of o ∧
    ∃ e', entry_at o' id = Some e' ∧ match mjoin r with
      | Some x => ∀ t sub b, slots_ok (Transports.ssrcs e') (mkSubSlot t sub x b :: l)
      | None => slots_ok (Transports.ssrcs e') l
      end).
Proof.
  intros Ho He Hl. omono ltac:(apply ot_plane; [done|]; apply allocate_ok, Ho). intros r o' _ _ (p' & -> & Hr).
  split; [done|]. destruct r as [[x|]|]; cbn [mjoin option_join] in *.
  - destruct Hr as (e0 & a' & He0 & -> & Hg & Hi & Hoff). change (entry_at o id = Some e0) in He0. rewrite He in He0. injection He0 as <-. split; [done|].
    exists (Transports.set_ssrcs a' e). unfold entry_at. cbn. rewrite lookup_insert_eq. split; [done|]. intros t sub b. by eapply slots_ok_new.
  - destruct Hr as (Ht & Hk & _). split; [done|]. exists e. split; [|done]. unfold entry_at. cbn. by rewrite Ht.
  - destruct Hr as [Hn _]. unfold entry_at in He. congruence.
Qed.

Lemma slots_ok_perm a l l' : l ≡ₚ l' → slots_ok a l → slots_ok a l'.
Proof. intros Hp. apply slots_ok_sub. by rewrite Hp. Qed.

(** The slots of the m-lines still to do and of [acc] stay distinct. *)
Lemma refresh_slot_ok id m acc o e : ok gone o → entry_at o id = Some e → slots_ok (Transports.ssrcs e) (option_list (sub_slot_of m) ++ acc) →
  triple (Negotiation.refresh_slot id m) o (fun m' o' => quiet o o' ∧ (tracks_of o' = tracks_of o ∧ mid m' = mid m ∧ kind m' = kind m) ∧
    (∃ e', entry_at o' id = Some e' ∧ slots_ok (Transports.ssrcs e') (option_list (sub_slot_of m') ++ acc)) ∧
    ∀ x', sub_slot_of m' = Some x' → ∃ x, sub_slot_of m = Some x ∧ slot_track x' = slot_track x).
Proof.
  intros Ho He Hs. unfold Negotiation.refresh_slot. destruct (role m) as [|x|] eqn:Er; try (apply ot_ret; [done|]; split_and!; eauto; done).
  assert (Hslot : sub_slot_of m = Some x) by (unfold sub_slot_of; by rewrite Er).
  assert (Hsame : quiet o o ∧ (tracks_of o = tracks_of o ∧ mid m = mid m ∧ kind m = kind m) ∧ (∃ e', entry_at o id = Some e' ∧ slots_ok (Transports.ssrcs e') (option_list (sub_slot_of m) ++ acc)) ∧
    ∀ x', sub_slot_of m = Some x' → ∃ x, sub_slot_of m = Some x ∧ slot_track x' = slot_track x) by (split_and!; eauto; done).
  apply ot_get. change (Transports.entries _ !! id) with (entry_at o id). rewrite He. destruct (_ || _); [by apply ot_ret|].
  assert (Hacc : slots_ok (Transports.ssrcs e) acc).
  { eapply slots_ok_sub; [|exact Hs]. rewrite fmap_app. apply submseteq_inserts_l. done. }
  ostep ltac:(exact (allocate_slot_ok id acc o e Ho He Hacc)). intros r o1 Ho1 _ (Hq & Ht & e' & He' & Hr).
  destruct (mjoin r) as [y|]; apply ot_ret; try done; (split; [done|]); (split; [done|]).
  - split; [exists e'; split; [done|apply Hr]|]. cbn. intros x' [= <-]. by exists x.
  - split; [by exists e'|]. done.
Qed.

Lemma refresh_slots_ok id l : ∀ acc o e, ok gone o → entry_at o id = Some e → slots_ok (Transports.ssrcs e) (slots l ++ acc) →
  triple (Negotiation.refresh_slots id l) o (fun l' o' => quiet o o' ∧ tracks_of o' = tracks_of o ∧ shape l' = shape l ∧
    (∃ e', entry_at o' id = Some e' ∧ slots_ok (Transports.ssrcs e') (slots l' ++ acc)) ∧
    ∀ x', x' ∈ slots l' → ∃ x, x ∈ slots l ∧ slot_track x' = slot_track x).
Proof.
  induction l as [|m l IH]; intros acc o e Ho He Hs; cbn [Negotiation.refresh_slots].
  { apply ot_ret; [done|]. split_and!; try done; [by exists e|]. intros x' Hx. by apply elem_of_nil in Hx. }
  rewrite slots_cons, <- app_assoc in Hs. ostep ltac:(exact (refresh_slot_ok id m (slots l ++ acc) o e Ho He Hs)).
  intros m' o1 Ho1 _ (Q1 & (T1 & Hmid & Hkind) & (e1 & He1 & Hs1) & Hm).
  assert (Hs1' : slots_ok (Transports.ssrcs e1) (slots l ++ (option_list (sub_slot_of m') ++ acc))).
  { eapply slots_ok_perm; [|exact Hs1]. solve_Permutation. }
  ostep ltac:(exact (IH _ o1 e1 Ho1 He1 Hs1')). intros l' o2 Ho2 _ (Q2 & T2 & Hlen & (e2 & He2 & Hs2) & Hl).
  apply ot_ret; [done|]. split; [by eapply quiet_trans|]. split; [congruence|]. split; [unfold shape in *; cbn; by rewrite Hmid, Hkind, Hlen|]. split.
  - exists e2. split; [done|]. eapply slots_ok_perm; [|exact Hs2]. rewrite slots_cons. solve_Permutation.
  - intros x'. rewrite !slots_cons. intros [Hx|Hx]%elem_of_app.
    + destruct (sub_slot_of m') as [y|]; [|by apply elem_of_nil in Hx]. apply list_elem_of_singleton in Hx as ->.
      destruct (Hm y eq_refl) as (x & Hx & Heq). exists x. rewrite Hx. split; [apply elem_of_app; left; by apply list_elem_of_singleton|done].
    + destruct (Hl x' Hx) as (x & Hin & Heq). exists x. split; [apply elem_of_app; by right|done].
Qed.

Lemma refresh_stale_ok p id s o : ok gone o → negotiation o !! p = Some s → session s = Some id →
  triple (Negotiation.refresh_stale_slots p id s) o (fun s' o' => negotiation o' !! p = Some s' ∧ stays o o' ∧ length (mlines s') = length (mlines s) ∧ session s' = Some id).
Proof.
  intros Ho Hs Hid. unfold Negotiation.refresh_stale_slots. pose proof (ok_neg _ _ Ho p s Hs) as Hn.
  destruct (no_session _ _ _ _ _ Hn id Hid) as (e & He & Hpart & Hsl).
  ostep ltac:(apply (refresh_slots_ok id (mlines s) [] o e Ho He); by rewrite app_nil_r).
  intros l o1 Ho1 Hx1 (Q1 & T1 & Hlen & (e1 & He1 & Hs1) & Hl). rewrite app_nil_r in Hs1. cbv zeta.
  assert (Hs1' : negotiation o1 !! p = Some s) by (destruct Q1 as (_ & _ & -> & _); done).
  pose proof (ok_neg _ _ Ho1 p s Hs1') as Hn1. destruct (no_session _ _ _ _ _ Hn1 id Hid) as (e1' & He1' & Hpart1 & _).
  unfold entry_at in He1. rewrite He1 in He1'. injection He1' as <-.
  ostep ltac:(apply update_ok; [done|]; intros s0 Hs0; rewrite Hs1' in Hs0; injection Hs0 as <-; split; [done|];
    destruct Hn1 as [Hl1 Hk1 Hla1 Hse1 Hi1]; split; cbn;
    [by eapply (lines_same s)|intros x' Hx'; destruct (Hl x' Hx') as (x & Hx & ->); by apply Hk1|done|rewrite Hid; intros ? [= <-]; by exists e1|congruence]).
  intros _ o2 Ho2 _ [-> Hst]. apply ot_ret; [done|]. split.
  - unfold updated. rewrite Hs1'. cbn. by rewrite lookup_insert_eq.
  - split; [eapply stays_trans; [|exact Hst]; apply stays_same, Q1|]. split; [by apply shape_length|done].
Qed.

Lemma offer_runs p s id v o : ok gone o → negotiation o !! p = Some s → session s = Some id → mlines s ≠ [] → ∃ r, Negotiation.build_offer cert s id v o = Ok (r, o).
Proof.
  intros Ho Hs Hid Hne. destruct (ok_neg _ _ Ho p s Hs) as [(_ & _ & Hf) Hsl _ Hse _]. apply build_offer_runs; try done.
  destruct (Hse id Hid) as (e & _ & _ & [Hi _]). rewrite Forall_forall in Hi |- *. intros x Hx. destruct (Hsl x Hx) as [[? _] _]. destruct (Hi x Hx) as [? _]. split; [lia|done].
Qed.

Lemma send_ordered_offer_ok p o : ok gone o → triple (Negotiation.send_ordered_offer W cert cands p) o (fun _ o' => stays o o').
Proof.
  intros Ho. unfold Negotiation.send_ordered_offer. apply ot_get. unfold Negotiation.state_of. destruct (negotiation o !! p) as [s|] eqn:Es; [|by apply ot_ret, stays_refl].
  destruct (session s) as [id|] eqn:Ese; [|by apply ot_ret, stays_refl]. case_bool_decide as Hsome; [by apply ot_ret, stays_refl|].
  eapply ot_lift; [rewrite bool_decide_eq_true_2; [done|apply (no_lines _ _ _ _ _ (ok_neg _ _ Ho p s Es))]|].
  ostep ltac:(by apply refresh_stale_ok). intros s' o1 Ho1 _ (Hs' & Hst & Hlen & Hid'). cbv zeta.
  apply ot_reads; [eapply offer_runs; try done; by intros Hz; rewrite Hz in Hlen; destruct (mlines s)|]. intros r _. destruct r as [[sdp ts]|].
  - ostep ltac:(by apply send_to_ok). intros _ o2 Ho2 _ H2. ostep ltac:(by apply update_harmless). intros _ o3 Ho3 _ [_ H3].
    assert (H13 : stays o o3) by (eapply stays_trans; [exact Hst|]; eapply stays_trans; [by apply still_stays|done]).
    destruct (candidates_sent s'); [by apply ot_ret|]. ostep ltac:(by apply update_harmless). intros _ o4 Ho4 _ [_ H4].
    omono ltac:(by apply trickle_candidates_ok). intros _ o5 _ _ H5. eapply stays_trans; [exact H13|]. eapply stays_trans; [exact H4|]. by apply still_stays.
  - omono ltac:(by apply send_error_ok). intros _ o2 _ _ H2. eapply stays_trans; [exact Hst|]. by apply still_stays.
Qed.

(** ** Publishing *)

Lemma handle_publish_ok p kinds contents o : ok gone o → triple (Negotiation.handle_publish W cert cands p kinds contents) o (fun _ _ => True).
Proof.
  intros Ho. unfold Negotiation.handle_publish. destruct (_ || negb _); [by apply ot_ret|]. apply ot_get. destruct (negb _); [by eapply any_ok, send_error_ok|].
  unfold Negotiation.state_of at 1. destruct (negotiation o !! p) as [s|] eqn:Es; [|by apply ot_ret]. cbv zeta. set (published := List.filter _ _).
  case_bool_decide; [by apply ot_ret|]. destruct (_ || _) eqn:Efull; [by eapply any_ok, send_error_ok|].
  apply orb_false_iff in Efull as [_ Hroom%bool_decide_eq_false].
  destruct (offer_pending s); [by eapply any_ok, update_harmless|].
  ostep ltac:(by apply ensure_session_ok). intros [id|] o1 Ho1 _ Hs; [|by apply ot_ret]. destruct Hs as (s0 & s1 & Hs0 & Hs1 & _ & Hml & _).
  rewrite Es in Hs0. injection Hs0 as <-. apply ot_get. unfold Negotiation.state_of. eapply ot_lift; [by rewrite Hs1|].
  destruct (claim_publish_ok (E:=Exhausted) published s1) as (s2 & Hc & He2 & Hl2 & Hk2 & Hlen2);
    [rewrite Hml; lia|apply (no_lines _ _ _ _ _ (ok_neg _ _ Ho1 p s1 Hs1))|]. eapply ot_lift; [exact Hc|].
  ostep ltac:(apply update_sub; [done|]; intros x Hx; rewrite Hs1 in Hx; injection Hx as <-; split_and!; try done; apply keys_slots; by rewrite Hk2).
  intros _ o2 Ho2 _ _. by eapply any_ok, send_ordered_offer_ok.
Qed.

(** ** Dropping subscriptions *)

Lemma drop_slots_ok sh p keep l : ∀ pl, pok pl →
  ptriple P (Negotiation.drop_slots W sh p keep l) pl (fun l' pl' => tables_same pl pl' ∧ shape l' = shape l ∧ slots l' ⊆+ slots l).
Proof.
  induction l as [|m l IH]; intros pl Hp; cbn [Negotiation.drop_slots]; [by apply pt_ret|].
  eapply (pt_bind _ _ _ _ (fun m' pl' => (tables_same pl pl' ∧ mid m' = mid m ∧ kind m' = kind m) ∧ (sub_slot_of m' = None ∨ sub_slot_of m' = sub_slot_of m))).
  - destruct (role m) as [|x|]; try (by apply pt_ret; [|split; [|right]]). case_bool_decide; [by apply pt_ret; [|split; [|right]]|].
    eapply (pt_bind _ _ _ _ (fun _ pl' => tables_same pl pl')).
    + destruct (on_shard x); [|by apply pt_ret]. eapply pt_bind; [apply (push_ok P); [done|by apply HP]|]; cbv beta. intros _ p1 Hp1 _ H1. by apply pt_ret.
    + intros _ p1 Hp1 _ H1. apply pt_ret; [done|]. split; [done|by left].
  - intros m' p1 Hp1 _ [(H1 & Hmid & Hkind) Hm]. eapply pt_bind; [by apply IH|]; cbv beta. intros l' p2 Hp2 _ (H2 & Hlen & Hs).
    apply pt_ret; [done|]. split; [by eapply tables_same_trans|]. split; [unfold shape in *; cbn; by rewrite Hmid, Hkind, Hlen|]. rewrite !slots_cons.
    destruct Hm as [-> | ->]; [cbn; by apply submseteq_inserts_l|by apply submseteq_app].
Qed.

Lemma drop_except_ok p keep o : ok gone o → triple (Negotiation.drop_subscriptions_except W p keep) o (fun _ o' => stays o o' ∧ tracks_of o' = tracks_of o).
Proof.
  intros Ho. unfold Negotiation.drop_subscriptions_except. apply ot_get. unfold Negotiation.state_of.
  destruct (negotiation o !! p) as [s|] eqn:Es; cbn [mbind option_bind]; [|by apply ot_ret; [|split; [apply stays_refl|]]].
  destruct (session s) as [id|] eqn:Ese; cbn [mbind option_bind]; [|by apply ot_ret; [|split; [apply stays_refl|]]].
  destruct (_ !! id) as [e|]; cbn [mbind option_bind]; [|by apply ot_ret; [|split; [apply stays_refl|]]].
  ostep ltac:(apply ot_plane; [done|]; apply drop_slots_ok, Ho). intros l o1 Ho1 _ (pl & -> & Ht & Hlen & Hs).
  pose proof (no_lines _ _ _ _ _ (ok_neg _ _ Ho p s Es)) as Hlines.
  omono ltac:(apply update_sub; [done|]; intros x Hx; cbn in Hx; rewrite Es in Hx; injection Hx as <-; split_and!; try done; [by eapply (lines_same s)|by apply keys_slots]).
  intros _ o2 _ _ [-> Hst]. split; [exact Hst|]. unfold updated, tracks_of. cbn. rewrite Es. cbn. apply Ht.
Qed.

Lemma drop_subscriptions_ok p ts o : ok gone o → triple (Negotiation.drop_subscriptions W p ts) o (fun _ o' => stays o o').
Proof. intros Ho. unfold Negotiation.drop_subscriptions. apply ot_get. cbv zeta. omono ltac:(by apply drop_except_ok). by intros _ o' _ _ [? _]. Qed.

(** ** Subscribing *)

Lemma kinds_run l o : Forall (fun t => t ≠ 0) l → ∃ r, Negotiation.kinds_of l o = Ok (r, o) ∧ Forall (fun x => x.1 ∈ l ∧ is_Some (tracks_of o !! x.1) ∧ (x.2 = 0 ∨ x.2 = 1)) r.
Proof.
  induction l as [|t l IH]; intros Hl; cbn [Negotiation.kinds_of]; [eexists; split; [done|constructor]|]. apply Forall_cons in Hl as [Ht Hl].
  destruct (IH Hl) as (r & Hr & Hf). unfold mbind, st_bind. rewrite find_track_runs by done. rewrite Hr. eexists. split; [done|].
  assert (Hf' : Forall (fun x => x.1 ∈ t :: l ∧ is_Some (tracks_of o !! x.1) ∧ (x.2 = 0 ∨ x.2 = 1)) r).
  { eapply Forall_impl; [exact Hf|]. intros x [? ?]. split; [by right|done]. }
  change (Plane.tracks (plane_of o)) with (tracks_of o). destruct (tracks_of o !! t) eqn:Et; [|done]. constructor; [|done]. cbn. split; [by left|]. split; [by rewrite Et|]. case_match; auto.
Qed.

Lemma new_sub_slot_ok t id l o e : ok gone o → entry_at o id = Some e → slots_ok (Transports.ssrcs e) l →
  triple (Negotiation.new_sub_slot t id) o (fun r o' => quiet o o' ∧ tracks_of o' = tracks_of o ∧ match r with
    | Some x => slot_track x = t ∧ ∃ e', entry_at o' id = Some e' ∧ slots_ok (Transports.ssrcs e') (x :: l)
    | None => True
    end).
Proof.
  intros Ho He Hl. unfold Negotiation.new_sub_slot. ostep ltac:(exact (allocate_slot_ok id l o e Ho He Hl)).
  intros r o1 Ho1 _ (Q1 & T1 & e' & He' & Hr). destruct (mjoin r) as [x|]; [|by apply ot_ret].
  eapply ot_bind; [apply ot_plane; [done|]; apply subscription_id_ok, Ho1|cbv beta]. intros sub o2 Ho2 _ (pl & -> & Ht & Hk). apply ot_ret; [done|].
  split; [exact Q1|]. split; [unfold tracks_of; cbn; by rewrite Hk|]. split; [done|]. exists e'. split; [unfold entry_at; cbn; by rewrite Ht|]. apply Hr.
Qed.

Lemma claim_subs_ok p id l : ∀ o s, ok gone o → negotiation o !! p = Some s → session s = Some id →
  Forall (fun x => known (plane_of o) (room_of o p) x.1 ∧ is_Some (tracks_of o !! x.1) ∧ (x.2 = 0 ∨ x.2 = 1)) l →
  triple (Negotiation.claim_subs p id l) o (fun _ o' => stays o o').
Proof.
  induction l as [|[t k] l IH]; intros o s Ho Hs Hid Hl; cbn [Negotiation.claim_subs]; [by apply ot_ret, stays_refl|].
  apply Forall_cons in Hl as [(Hk & Ht & Hkind) Hl]. cbn [fst snd] in Hk, Ht, Hkind. apply ot_get. unfold Negotiation.state_of. eapply ot_lift; [by rewrite Hs|].
  destruct (existsb _ _); [by eapply IH|]. cbv zeta. destruct (_ || negb _) eqn:Eroom.
  { omono ltac:(by apply send_error_ok). intros _ o' _ _. apply still_stays. }
  apply orb_false_iff in Eroom as [_ Hhas%negb_false_iff]. pose proof (ok_neg _ _ Ho p s Hs) as Hn.
  destruct (no_session _ _ _ _ _ Hn id Hid) as (e & He & Hpart & Hsl).
  ostep ltac:(exact (new_sub_slot_ok t id (slots (mlines s)) o e Ho He Hsl)). intros r o1 Ho1 Hx1 (Q1 & T1 & Hr).
  destruct r as [x|]; [|omono ltac:(by apply send_error_ok); intros _ o' _ _ H'; eapply stays_trans; [apply stays_same, Q1|by apply still_stays]].
  destruct Hr as (Hxt & e1 & He1 & Hsl1).
  assert (Hs1 : negotiation o1 !! p = Some s) by (destruct Q1 as (_ & _ & -> & _); done). pose proof (ok_neg _ _ Ho1 p s Hs1) as Hn1.
  destruct (claim_mline_ok (E:=Exhausted) k (Subscribe x) s) as (m & n & ml & Hc & Hperm & _ & Hmax); [|apply Hn|done|].
  { apply orb_true_iff in Hhas as [Hlt%bool_decide_eq_true|?]; [by left|by right]. }
  eapply ot_lift; [exact Hc|]. cbn beta iota. cbn in Hperm.
  assert (Hroom1 : room_of o1 p = room_of o p) by (unfold room_of; by destruct Q1 as (-> & _)).
  assert (Hk1 : known (plane_of o1) (room_of o1 p) t) by (eapply known_later; [done|done|by eexists|done]).
  assert (Hkeep : neg_ok gone (plane_of o1) (room_of o1 p) p (set_mlines n ml s)).
  { destruct Hn1 as [? Hsl0 Hla Hse Hidle]. split; cbn; try done.
    - intros y Hy. change (omap sub_slot_of ml) with (slots ml) in Hy. rewrite Hperm in Hy. apply elem_of_cons in Hy as [->|Hy]; [|by apply Hsl0].
      rewrite Hxt. split; [done|]. left. by rewrite <- T1 in Ht.
    - rewrite Hid. intros id' [= <-]. exists e1. split; [done|]. destruct (Hse id Hid) as (e1' & He1' & Hp1 & _).
      unfold entry_at in He1. rewrite He1 in He1'. injection He1' as <-. split; [done|]. by eapply slots_ok_perm.
    - congruence. }
  ostep ltac:(apply update_ok; [done|]; intros y Hy; rewrite Hs1 in Hy; injection Hy as <-; by split).
  intros _ o2 Ho2 Hx2 [-> Hst2]. assert (Hs2 : negotiation (updated p (fun _ => set_mlines n ml s) o1) !! p = Some (set_mlines n ml s)).
  { unfold updated. rewrite Hs1. cbn. by rewrite lookup_insert_eq. }
  assert (Hpl : plane_of (updated p (fun _ => set_mlines n ml s) o1) = plane_of o1) by (unfold updated; by rewrite Hs1).
  eapply ot_mono; [eapply IH; [done|exact Hs2|done|]|]; cbv beta.
  - eapply Forall_impl; [exact Hl|]. cbn. intros y (Hy1 & Hy2 & Hy3). split; [|split; [unfold tracks_of in *; rewrite Hpl; by rewrite T1|done]].
    eapply known_later; [done|eapply ext_trans; [exact Hx1|exact Hx2]|by eexists|done].
  - intros _ o3 _ _ H3. eapply stays_trans; [apply stays_same, Q1|]. by eapply stays_trans.
Qed.

Lemma trigger_ok p ids o : ok gone o → (∀ t, t ∈ ids → known (plane_of o) (room_of o p) t) →
  triple (Negotiation.trigger_subscriber_renegotiation W cert cands p ids) o (fun _ _ => True).
Proof.
  intros Ho Hk. unfold Negotiation.trigger_subscriber_renegotiation. apply ot_get. cbv zeta. destruct (_ && _); [by apply ot_ret|].
  ostep ltac:(by apply ensure_session_ok). intros [id|] o1 Ho1 Hx1 Hs; [|by apply ot_ret]. destruct Hs as (s & s1 & Hs & Hs1 & Hid & _).
  ostep ltac:(by apply drop_except_ok). intros _ o2 Ho2 Hx2 [Hst2 _]. destruct (Hst2 p s1 Hs1) as (s2 & Hs2 & Hid2).
  assert (Hk2 : ∀ t, t ∈ ids → known (plane_of o2) (room_of o2 p) t).
  { intros t Ht. eapply known_later; [done|eapply ext_trans; [exact Hx1|exact Hx2]|by eexists|by apply Hk]. }
  destruct (kinds_run ids o2) as (kinds & Hkinds & Hf). { apply Forall_forall. intros t Ht. destruct (Hk2 t Ht) as [? _]. lia. }
  apply ot_reads; [by eexists|]. intros r Hr. rewrite Hkinds in Hr. injection Hr as <-. apply ot_get. unfold Negotiation.state_of.
  eapply ot_lift; [by rewrite Hs2|].
  ostep ltac:(apply update_ok; [done|]; intros x Hx; rewrite Hs2 in Hx; injection Hx as <-; split; [done|];
    destruct (ok_neg _ _ Ho2 p s2 Hs2) as [? ? ? ? ?]; split; try done; exact Hk2).
  intros _ o3 Ho3 Hx3 [-> Hst3]. set (o3 := updated _ _ _) in *.
  assert (Hs3 : negotiation o3 !! p = Some (set_last_subscribed ids s2)) by (unfold o3, updated; rewrite Hs2; cbn; by rewrite lookup_insert_eq).
  assert (Hpl : plane_of o3 = plane_of o2) by (unfold o3, updated; by rewrite Hs2).
  ostep ltac:(eapply claim_subs_ok; [done|exact Hs3|by rewrite <- Hid, <- Hid2|]; eapply Forall_impl; [exact Hf|]; intros x (Hin & Hsome & Hxk);
    (split; [eapply known_later; [done|exact Hx3|by eexists|by apply Hk2]|split; [unfold tracks_of in *; by rewrite Hpl|done]])).
  intros _ o4 Ho4 _ _. by eapply any_ok, send_ordered_offer_ok.
Qed.

Lemma request_renegotiation_ok p ids o : ok gone o → (∀ t, t ∈ ids → known (plane_of o) (room_of o p) t) →
  triple (Negotiation.request_renegotiation W cert cands p ids) o (fun _ _ => True).
Proof.
  intros Ho Hk. unfold Negotiation.request_renegotiation. apply ot_get. unfold Negotiation.state_of. destruct (negotiation o !! p) as [s|] eqn:Es; [|by apply ot_ret].
  destruct (offer_pending s); [|by apply trigger_ok]. eapply any_ok, update_ok; [done|]. intros x Hx. rewrite Es in Hx. injection Hx as <-. split; [done|].
  destruct (ok_neg _ _ Ho p s Es) as [? ? ? ? ?]. by split.
Qed.

End negotiation.
End NegProofs.
