(* ===== verification/AnswerProofs.v ===== *)
(** * Answers keep the invariant

    [src/orchestrator/negotiation.rs], the part that takes answers: the
    handshake's parameters, published tracks and subscriptions that go onto
    the shard. *)

From stdpp Require Import strings sorting.
From S2P Require Import Prelude Wp Model ShardInv Crdt GossipWire DistributedState DistributedProofs Handshake Transports HandshakeProofs SdpParams SdpText SdpModel SdpParser SdpSafe ControlPlane OrchestratorState Negotiation PlaneProofs OrchestratorInv NegotiationProofs.

(** ** What the parser returns is typed *)

Module ViewProofs.
Import SdpSafe Attributes.

Lemma fingerprint_view f : fingerprint_ok f → length (Sdp.fp_value f) = 64%nat.
Proof. intros (h & _ & Hl & -> & _). unfold pad. rewrite length_app, length_replicate. destruct (Sdp.algorithm f); cbn in Hl; lia. Qed.

Lemma media_view_typed m : media_ok m → SdpProofs.media_typed (View.media_view m).
Proof.
  intros Hm. pose proof (mo_values _ Hm) as (_ & Hlen & Hv). pose proof (mo_ssrcs _ Hm) as [Hn Hs]. unfold SdpTypes.MAX_SSRCS_PER_MEDIA in Hn.
  assert (Hu : Forall is_u32 (Media.ssrc_values m)).
  { apply Forall_forall. intros x (i & -> & Hi)%Hv%list_elem_of_fmap. rewrite Forall_forall in Hs. apply (Hs i Hi). }
  split; cbn.
  - apply Forall_fmap, Forall_forall. intros c Hc x [= <-]. pose proof (proj2 (mo_codecs _ Hm)) as Hf. rewrite Forall_forall in Hf. cbn. apply (co_pt _ (Hf c Hc)).
  - apply Forall_fmap, Forall_forall. intros e He x [= <-]. pose proof (proj2 (mo_extmaps _ Hm)) as Hf. rewrite Forall_forall in Hf. cbn. destruct (Hf e He) as [? _]. lia.
  - unfold pad, Sdp.MAX_SSRCS_PER_MEDIA. split; [rewrite length_app, length_replicate; lia|]. apply Forall_app. split; [done|]. apply Forall_replicate. split; cbn; lia.
  - unfold Sdp.MAX_SSRCS_PER_MEDIA. lia.
  - intros f Hf. pose proof (mo_fingerprint _ Hm) as H. rewrite Hf in H. by apply fingerprint_view.
Qed.

Lemma parse_sdp_typed sdp : total (View.parse_sdp sdp) SdpProofs.answer_typed.
Proof.
  unfold View.parse_sdp. apply total_fail. intros Hv%negb_false_iff. eapply total_bind; [by apply parse_total, TextProofs.utf8_synced|]. intros s [Hs _].
  split; cbn; [apply Forall_fmap; eapply Forall_impl; [apply (so_media _ Hs)|]; intros m; apply media_view_typed|].
  intros f Hf. pose proof (so_fingerprint _ Hs) as H. rewrite Hf in H. by apply fingerprint_view.
Qed.

End ViewProofs.

Module AnswerProofs.
Import Orch Mlines PlaneProofs OrchInv RoomsProofs SlotProofs NegProofs.

Section answers.
Context `{En : DtlsEngine} {Laws : EngineLaws} (W : World) (HW : world_ok W).
Context (cert : Certificate) (cands : list (list SocketAddr)) (Hcands : cands ≠ []).
Context (P : Command → Prop) (HP : ∀ c, plain c → P c) (gone : list Z).
Implicit Types (o : SessionOrchestrator) (s : NegotiationState).

Abbreviation triple := (otriple P gone).

(** ** Taking an answer *)

Lemma pending_state o p : match (s ← Negotiation.state_of o p; id ← session s; if offer_pending s then Some (s, id) else None) with
  | Some (s, id) => negotiation o !! p = Some s ∧ session s = Some id
  | None => True
  end.
Proof.
  unfold Negotiation.state_of. destruct (negotiation o !! p) as [s|] eqn:Es; cbn [mbind option_bind]; [|done].
  destruct (session s) as [id|] eqn:Ese; cbn [mbind option_bind]; [|done]. by destruct (offer_pending s).
Qed.

Lemma accept_answer_ok p sdp o : ok gone o →
  triple (Negotiation.accept_answer p sdp) o (fun r o' => match r with
    | inr (id, a) => o' = o ∧ SdpProofs.answer_typed a ∧ ∃ s, negotiation o !! p = Some s ∧ session s = Some id ∧ length (Sdp.media a) = length (mlines s)
    | inl _ => True
    end).
Proof.
  intros Ho. unfold Negotiation.accept_answer. apply ot_get. pose proof (pending_state o p) as Hp. destruct (_ ≫= _) as [[s id]|]; [|by apply ot_ret].
  destruct Hp as [Hs Hid].
  assert (Hbad : triple (Negotiation.update p (set_offer_pending false);; send_error p "INVALID_ANSWER";; mret (inl Negotiation.Invalid)) o
    (fun r o' => match r with inr (id, a) => o' = o ∧ SdpProofs.answer_typed a ∧ ∃ s, negotiation o !! p = Some s ∧ session s = Some id ∧ length (Sdp.media a) = length (mlines s) | inl _ => True end)).
  { ostep ltac:(by apply update_harmless). intros _ o1 Ho1 _ _. ostep ltac:(by apply send_error_ok). intros _ o2 Ho2 _ _. by apply ot_ret. }
  pose proof (proj1 (total_spec _ _) (ViewProofs.parse_sdp_typed sdp)) as [Hnp Hty].
  apply ot_reads; [by apply attempt_runs|]. intros r Hr. unfold Negotiation.attempt in Hr. destruct (View.parse_sdp sdp) as [a|e|] eqn:Ea; [|injection Hr as <-; exact Hbad|done].
  injection Hr as <-. destruct (Negotiation.mids_match a (mlines s)) eqn:Em; [|exact Hbad].
  apply ot_ret; [done|]. split; [done|]. split; [by apply Hty|]. exists s. split_and!; try done.
  unfold Negotiation.mids_match in Em. by apply andb_true_iff in Em as [?%bool_decide_eq_true _].
Qed.

Lemma retry_unanswered_ok p o : ok gone o → triple (Negotiation.retry_unanswered W cert cands p) o (fun _ _ => True).
Proof.
  intros Ho. unfold Negotiation.retry_unanswered. apply ot_get. unfold Negotiation.state_of. destruct (negotiation o !! p) as [s|] eqn:Es; [|by apply ot_ret].
  cbv zeta. destruct (_ || _); [by apply ot_ret|]. ostep ltac:(by apply update_harmless). intros _ o1 Ho1 _ _.
  case_match; [by eapply any_ok, send_ordered_offer_ok|]. eapply any_ok, update_sub; [done|]. intros x Hx. cbn. split_and!; try done.
  - eapply (lines_same x); [apply shape_map; intros m; by case_bool_decide|done|apply (ok_neg _ _ Ho1 p x Hx)].
  - apply keys_slots, slots_map. intros m. case_bool_decide; [by left|by right].
Qed.

Lemma extract_fingerprint_ok {E} a : SdpProofs.answer_typed a → ∃ r, Negotiation.extract_fingerprint (E:=E) a = Ok r.
Proof.
  intros [Hm Hf]. unfold Negotiation.extract_fingerprint. destruct (List.find _ _) as [f|] eqn:Ef; [|by eexists].
  apply SdpProofs.find_elem in Ef as [Hin _]. assert (Hlen : length (Sdp.fp_value f) = 64%nat).
  { apply elem_of_app in Hin as [Hin|Hin].
    - destruct (Sdp.fingerprint a) as [g|] eqn:Eg; [|by apply elem_of_nil in Hin]. apply list_elem_of_singleton in Hin as ->. by apply Hf.
    - apply list_elem_of_omap in Hin as (m & Hm' & Hfp). rewrite Forall_forall in Hm. by apply (SdpProofs.mt_fingerprint _ (Hm m Hm')). }
  unfold slice. rewrite decide_True by lia. by eexists.
Qed.

Lemma apply_dtls_ok p id a o : ok gone o → SdpProofs.answer_typed a →
  triple (Negotiation.apply_dtls W p id a) o (fun _ o' => quiet o o').
Proof.
  intros Ho Ha. unfold Negotiation.apply_dtls. cbv zeta.
  assert (Hrefuse : ∀ o1, ok gone o1 → quiet o o1 →
    triple (on_plane (Plane.close_participant p Plane.DtlsFailed);; mret false) o1 (fun _ o' => quiet o o')).
  { intros o1 Ho1 Hq. ostep ltac:(apply ot_plane; [done|]; apply closing_recorded_ok, Ho1). intros _ o2 Ho2 _ (pl & -> & _). by apply ot_ret. }
  destruct (Negotiation.dtls_role_from_answer a) as [r|]; [|by apply Hrefuse].
  destruct (extract_fingerprint_ok (E:=Exhausted) a Ha) as [[fp|] Hfp]; (eapply ot_lift; [exact Hfp|]); [|by apply Hrefuse].
  ostep ltac:(apply ot_plane; [done|]; eapply (progress_ok P); [apply Ho|apply answer_call|intros h; apply HandshakeBytes.answer_progress_bytes]).
  intros res o1 Ho1 _ (pl & -> & Hres). destruct res as [[err|progress]|]; [by apply Hrefuse| |by apply ot_ret].
  destruct (Hres _ eq_refl) as [Hb Hd].
  ostep ltac:(apply ot_plane; [done|]; apply (send_datagrams_ok P HP W); [apply Ho1|done]). intros _ o2 Ho2 _ (pl2 & -> & Ht & _).
  eapply (ot_bind _ _ _ _ _ (fun _ o' => quiet o o')); [|intros _ o3 Ho3 _ Hq; by apply ot_ret].
  destruct (Dtls.completed progress); [|by apply ot_ret]. destruct (Hd eq_refl) as (e & He & Hn & Hc).
  omono ltac:(apply ot_plane; [done|]; apply (srtp_installed_ok P HP W); [apply Ho2|]; intros e' He'; cbn in He', Ht; rewrite Ht, He in He'; by injection He' as <-).
  by intros _ o3 _ _ (pl3 & -> & _).
Qed.

(** ** Publishing *)

Lemma note_all_ok {E} l : ∀ a, SsrcProofs.ok a → Forall is_u32 l →
  wp (Negotiation.note_all l : st _ E _) a (fun _ a' => SsrcProofs.ok a' ∧ ssrcs_grow a a') (fun _ _ => False).
Proof.
  induction l as [|x l IH]; intros a Ha Hl; cbn [Negotiation.note_all]; [wp; split; [done|apply ssrcs_grow_refl]|].
  apply Forall_cons in Hl as [Hx Hl]. wp. eapply wp_mono; [by apply SsrcProofs.note_spec|]. intros b a1 [Ha1 Hb].
  assert (Hg : ssrcs_grow a a1).
  { destruct b; [destruct Hb as (_ & k & -> & _); split; [done|cbn; lia]|destruct Hb as [-> _]; apply ssrcs_grow_refl]. }
  destruct b; [|by wp]. eapply wp_mono; [by apply IH|]. intros _ a2 [? ?]. split; [done|by eapply ssrcs_grow_trans].
Qed.

(** Negotiations keep the number of their m-lines and gain no slot. *)
Definition settled o o' : Prop := ∀ q s, negotiation o !! q = Some s →
  ∃ s', negotiation o' !! q = Some s' ∧ session s' = session s ∧ length (mlines s') = length (mlines s) ∧ slots (mlines s') ⊆+ slots (mlines s).

Lemma settled_same o o' : negotiation o' = negotiation o → settled o o'.
Proof. intros He q s Hs. rewrite He. exists s. by split_and!. Qed.

Lemma settled_still o o' : still o o' → settled o o'.
Proof. intros (_ & _ & Hn & _). by apply settled_same. Qed.

Lemma settled_trans o1 o2 o3 : settled o1 o2 → settled o2 o3 → settled o1 o3.
Proof.
  intros H1 H2 q s Hs. destruct (H1 q s Hs) as (s1 & Hs1 & E1 & L1 & S1). destruct (H2 q s1 Hs1) as (s2 & Hs2 & E2 & L2 & S2).
  exists s2. split_and!; try done; try congruence. by etrans.
Qed.

Lemma updated_settled p f o : (∀ s, session (f s) = session s ∧ length (mlines (f s)) = length (mlines s) ∧ slots (mlines (f s)) ⊆+ slots (mlines s)) →
  settled o (updated p f o).
Proof.
  intros Hf q s Hs. unfold updated. destruct (negotiation o !! p) as [x|] eqn:Ex; [|by exists s]. cbn.
  destruct (decide (q = p)) as [->|Hne]; [|rewrite lookup_insert_ne by done; by exists s]. rewrite lookup_insert_eq. rewrite Ex in Hs. injection Hs as ->.
  eexists. split; [done|]. apply Hf.
Qed.

(** A track was added to the registry. *)
Lemma track_added_ok t i o pl : ok gone o → pok pl → is_Some (negotiation o !! Tracks.publisher i) → t = Ids.next_track (Plane.ids (plane_of o)) →
  Plane.tracks pl = <[t := i]> (Plane.tracks (plane_of o)) → Plane.transports pl = Plane.transports (plane_of o) →
  Ids.next_track (Plane.ids pl) = t + 1 → sends P (plane_of o) pl → ok gone (set_plane pl o) ∧ ext P o (set_plane pl o).
Proof.
  intros Ho Hpl Hpub Ht Htr Htp Hnt Hs. destruct Ho as [Hp Hn Hsub Hd Hcr Hown Hpb].
  assert (Hold : ∀ x, x < t → Plane.tracks pl !! x = Plane.tracks (plane_of o) !! x) by (intros x Hx; rewrite Htr; apply lookup_insert_ne; lia).
  assert (Hk : ∀ room x, known (plane_of o) room x → known pl room x).
  { intros room x [Hb Hk]. split; [lia|]. rewrite Hold by lia. done. }
  assert (Hl : ∀ room x, known (plane_of o) room x → live gone (plane_of o) x → live gone pl x).
  { intros room x [Hb _] [Hx|Hx]; [left; by rewrite Hold by lia|by right]. }
  split; split; try done; cbn.
  - intros q s Hq. destruct (Hn q s Hq) as [? Hsl Hla Hse ?]. split; try done.
    + intros x Hx. destruct (Hsl x Hx). split; [by apply Hk|by eapply Hl].
    + auto.
    + by rewrite Htp.
  - intros q l x Hq Hx. destruct (Hsub q l x Hq Hx). split; [by apply Hk|by eapply Hl].
  - by rewrite Htp.
  - intros x i'. rewrite Htr. intros [[<- <-]|[_ Hi]]%lookup_insert_Some; [done|by eapply Hpb].
  - lia.
  - intros x i'. rewrite Htr. intros [[<- <-]|[_ Hi]]%lookup_insert_Some; [right; split; [lia|done]|left; eauto].
  - eauto.
  - rewrite Htp. auto.
Qed.

Lemma insert_track_ok sh id p spec room content o : ok gone o → is_Some (negotiation o !! p) → spec_ok spec →
  (length (cname spec) ≤ CNAME_CAPACITY)%nat → bytes (cname spec) →
  ∀ {A} (k : bool → Z → orch A) Q,
  (∀ t o', ok gone o' → ext P o o' → quiet o o' → t ≠ 0 → triple (k true t) o' Q) →
  (∀ t o', ok gone o' → ext P o o' → quiet o o' → triple (k false t) o' Q) →
  triple (t ← on_plane (Plane.on_ids Ids.track);
          pushed ← on_plane (Plane.push W sh (AddTrack id t spec) p);
          if negb pushed then k false t else
          on_plane (Plane.insert_track t (Tracks.mkTrackInfo p id sh room spec content));; k true t) o Q.
Proof.
  intros Ho Hneg Hspec Hlen Hcn A k Q Hyes Hno. pose proof (ok_plane _ _ Ho) as Hp. pose proof (po_ids _ Hp) as (_ & Hpos & _).
  unfold otriple. apply wp_bind, wp_zoom. apply wp_track_id; [done| |by apply sends_refl].
  set (t := Ids.next_track (Plane.ids (plane_of o))). set (ids' := Ids.mkIds _ _ _).
  destruct (pok_ids P ids' (plane_of o) Hp) as [Hp1 Hc1]; [cbn; lia..|]. apply wp_bind, wp_zoom.
  eapply wp_conseq; [apply (push_ok P W sh (AddTrack id t spec) p); [exact Hp1|by apply HP]|..]; cbn beta.
  2: { intros _ p2 Hs2. eapply sends_trans; [by apply sends_refl|exact Hs2]. }
  intros pushed p2 (Hp2 & Hc2 & Ht2 & Hk2 & Hi2). assert (Hs2 : sends P (plane_of o) p2) by (eapply sends_trans; [by apply sends_refl|apply Hc2]).
  assert (Hfin : ∀ (m : orch A) o', ext P o o' → triple m o' Q → wp m o' (fun a o'' => ok gone o'' ∧ ext P o o'' ∧ Q a o'') (fun _ o'' => sends P (plane_of o) (plane_of o''))).
  { intros m o' Hx Hm. eapply wp_conseq; [exact Hm|..]; cbn beta; [intros a o'' (? & ? & ?); split_and!; try done; by eapply ext_trans|].
    intros _ o'' Hs. eapply sends_trans; [apply Hx|done]. }
  destruct pushed; cbn [negb].
  - apply wp_bind, wp_zoom. unfold Plane.insert_track. wp. case_bool_decide as Hfull; wp; [exact Hs2|]. apply wp_zoom. unfold Tracks.insert. wp.
    assert (Hfresh : Plane.tracks p2 !! t = None).
    { rewrite Hk2. apply eq_None_not_Some. intros [i Hi]. destruct (po_tracks _ Hp t i Hi). subst t. lia. }
    change (Plane.tracks (plane_of (set_plane p2 _))) with (Plane.tracks p2). rewrite Hfresh.
    rewrite bool_decide_eq_false_2 by (by intros [? [=]]). rewrite bool_decide_eq_false_2 by done. cbn [orb]. wp.
    apply wp_assert; [apply bool_decide_eq_true; eexists; apply lookup_insert_eq|]. wp. apply wp_assert; [done|].
    set (info := Tracks.mkTrackInfo _ _ _ _ _ _). set (p3 := Plane.set_tracks (<[t := info]> (Plane.tracks p2)) p2).
    assert (Hp3 : pok p3).
    { destruct Hp2 as [He2 Hb2 Hsz2 Htr2 Hid2 Hcl2]. split; try done.
      - intros i e He. destruct (He2 i e He). by split.
      - cbn. rewrite Hi2. apply map_Forall_insert_2; [cbn; split; [lia|done]|]. rewrite Hi2 in Htr2. exact Htr2. }
    destruct (track_added_ok t info o p3 Ho Hp3 Hneg eq_refl) as [Ho3 Hx3]; [cbn; by rewrite Hk2|cbn; by rewrite Ht2|cbn; by rewrite Hi2|exact Hs2|].
    apply (Hfin _ (set_plane p3 o) Hx3). apply Hyes; try done. subst t. lia.
  - assert (Hc : calm P (plane_of o) p2) by (eapply calm_trans; [exact Hc1|exact Hc2]).
    destruct (calm_ok P gone o (set_plane p2 o) Ho) as [Ho3 Hx3]; try done. apply (Hfin _ (set_plane p2 o) Hx3). by apply Hno.
Qed.

Lemma notify_published_still p t k o : ok gone o → triple (Negotiation.notify_track_published W p t k) o (fun _ o' => still o o').
Proof.
  intros Ho. unfold Negotiation.notify_track_published. apply ot_get. destruct (room_of o p); [|by apply ot_ret].
  ostep ltac:(by apply read_still). intros pids o1 Ho1 _ [H1 _].
  omono ltac:(apply each_still; [done|]; intros x o2 Ho2; case_match; [by apply ot_ret|by apply send_to_ok]).
  intros _ o2 _ _ H2. by eapply still_trans.
Qed.

Lemma refused_ok {A} (a : A) x c o o0 : ok gone o → settled o0 o → triple (send_error x c;; mret a) o (fun _ o' => settled o0 o').
Proof.
  intros Ho Hs. ostep ltac:(by apply send_error_ok). intros _ o1 Ho1 _ H1. apply ot_ret; [done|]. eapply settled_trans; [done|by apply settled_still].
Qed.

Lemma register_publish_ok p id m o : ok gone o → SdpProofs.media_typed m → is_Some (negotiation o !! p) →
  triple (Negotiation.register_publish W p id m) o (fun _ o' => settled o o').
Proof.
  intros Ho Hm Hp. unfold Negotiation.register_publish. apply ot_get. assert (Hself : settled o o) by by apply settled_same.
  destruct (room_of o p) as [room|]; [|by apply ot_ret]. cbv zeta. case_bool_decide; [by apply refused_ok|].
  pose proof (SdpProofs.track_spec_ok m _ Hm (SdpProofs.as_bytes_bytes (Negotiation.identity_of p))) as Hspec.
  destruct (SdpParams.track_spec _ _) as [[spec|]|x|]; [|by apply ot_ret|by apply refused_ok|done]. destruct Hspec as (Hspec & Hlen & Hcn).
  destruct (_ !! id) as [e|]; [|by apply ot_ret]. destruct (SdpProofs.ssrc_values_ok (E:=Exhausted) m Hm) as (peers & Hpeers & Hu).
  eapply ot_lift; [exact Hpeers|].
  ostep ltac:(apply ot_plane; [done|]; apply (zoom_ssrcs_ok P id _ _ (fun _ _ _ => True)); [apply Ho|]; intros a Ha _;
    eapply wp_mono; [by apply note_all_ok|]; by intros r a' [? ?]).
  intros r o1 Ho1 _ (pl & -> & _). assert (H1 : settled o (set_plane pl o)) by by apply settled_same.
  destruct (negb _); [by apply refused_ok|]. apply ot_get. destruct (Negotiation.publishes_ssrc _ _ _); [by apply refused_ok|].
  eapply (insert_track_ok (Transports.shard e) id p spec room _ _ Ho1 Hp Hspec Hlen Hcn (fun pushed t => if pushed then
      Rooms.call W (DistributedState.AddTrack t (Gossip.mkTrack (match Model.kind spec with Audio => 0 | Video => 1 end)
        (match Model.kind spec with Audio => 2 | Video => 0 end) 0 0 0));;
      Negotiation.update p (fun s => set_published (published_tracks s ++ [t]) s);;
      Negotiation.notify_track_published W p t (Model.kind spec);;
      send_to p (Signal.Published t (default EmptyString (Sdp.mid m)) (Negotiation.kind_name (Model.kind spec)));;
      mret true
    else mret false)); [|intros t o2 Ho2 _ Hq2; apply ot_ret; [done|]; apply settled_same, Hq2].
  intros t o2 Ho2 _ (_ & _ & Hq2 & _) Ht. ostep ltac:(by apply call_still). intros _ o3 Ho3 _ [H3 _].
  ostep ltac:(by apply update_harmless). intros _ o4 Ho4 _ [-> _]. ostep ltac:(by apply notify_published_still). intros _ o5 Ho5 _ H5.
  ostep ltac:(by apply send_to_ok). intros _ o6 Ho6 _ H6. apply ot_ret; [done|].
  eapply settled_trans; [by apply settled_same|]. eapply settled_trans; [by apply settled_still|].
  eapply settled_trans; [by apply (updated_settled p (fun s => set_published (published_tracks s ++ [t]) s))|].
  eapply settled_trans; by apply settled_still.
Qed.

Lemma release_first_sub f s : session (Negotiation.release_first f s) = session s ∧ last_subscribed_track_ids (Negotiation.release_first f s) = last_subscribed_track_ids s ∧
  (lines_ok s → lines_ok (Negotiation.release_first f s)) ∧ length (mlines (Negotiation.release_first f s)) = length (mlines s) ∧ slots (mlines (Negotiation.release_first f s)) ⊆+ slots (mlines s).
Proof.
  unfold Negotiation.release_first. destruct (position _ _); [|done]. split_and!; try done; [|cbn; by rewrite length_alter|apply slots_alter_inactive]. apply lines_same; [by apply shape_alter|done].
Qed.

Lemma release_unregistered_ok p m o : ok gone o → triple (Negotiation.release_unregistered_publish p m) o (fun _ o' => settled o o').
Proof.
  intros Ho. unfold Negotiation.release_unregistered_publish. set (f := Negotiation.release_first _).
  assert (Hf : ∀ s, session (f s) = session s ∧ last_subscribed_track_ids (f s) = last_subscribed_track_ids s ∧ (lines_ok s → lines_ok (f s)) ∧ length (mlines (f s)) = length (mlines s) ∧
    slots (mlines (f s)) ⊆+ slots (mlines s)) by (intros s; apply release_first_sub).
  omono ltac:(apply update_sub; [done|]; intros s Hs; destruct (Hf s) as (? & ? & Hl & _ & Hk); split_and!; try done; [apply Hl, (ok_neg _ _ Ho p s Hs)|by apply keys_slots]).
  intros _ o1 _ _ [-> _]. apply updated_settled. intros s. destruct (Hf s) as (? & _ & _ & ? & ?). by split_and!.
Qed.

Lemma register_each_ok p id mids l : ∀ o, ok gone o → Forall SdpProofs.media_typed l → is_Some (negotiation o !! p) →
  triple (Negotiation.register_each W p id mids l) o (fun _ o' => settled o o').
Proof.
  induction l as [|m l IH]; intros o Ho Hl Hp; cbn [Negotiation.register_each]; [by apply ot_ret, settled_same|]. apply Forall_cons in Hl as [Hm Hl].
  eapply (ot_bind _ _ _ _ _ (fun _ o' => settled o o')).
  - destruct (Sdp.mid m); [|by apply ot_ret, settled_same]. case_bool_decide; [|by apply ot_ret, settled_same].
    ostep ltac:(by apply register_publish_ok). intros [] o1 Ho1 _ H1; [by apply ot_ret|].
    omono ltac:(by apply release_unregistered_ok). intros _ o2 _ _ H2. by eapply settled_trans.
  - intros _ o1 Ho1 _ H1. destruct Hp as [s Hs]. destruct (H1 p s Hs) as (s1 & Hs1 & _).
    omono ltac:(apply IH; [done|done|by eexists]). intros _ o2 _ _ H2. by eapply settled_trans.
Qed.

(** ** Subscriptions onto the shard *)

(** The slots still to register: above the high-water mark, in the order of
    their offsets. *)
Record pending (a : Ssrcs.SsrcAllocator) (mls : list MlineSlot) (l : list (Z * nat)) : Prop := {
  pe_sorted : StronglySorted (fun x y => x.1 < y.1) l;
  pe_slots : ∀ off i, (off, i) ∈ l → ∃ m x, mls !! i = Some m ∧ role m = Subscribe x ∧
     Ssrcs.offset_of a (out_ssrc x) = off ∧ Ssrcs.high_water a < off;
}.

Definition pending_at (a : Ssrcs.SsrcAllocator) (x : nat * MlineSlot) : option (Z * nat) :=
  match role x.2 with
  | Subscribe s => if negb (on_shard s) && negb (Ssrcs.is_stale a (out_ssrc s)) then Some (Ssrcs.offset_of a (out_ssrc s), x.1) else None
  | _ => None
  end.

Lemma pending_offsets a l : ∀ k, (omap (pending_at a) (zip (seq k (length l)) l)).*1 ⊆+ Ssrcs.offset_of a <$> (out_ssrc <$> slots l).
Proof.
  induction l as [|m l IH]; intros k; [done|]. cbn [length seq zip zip_with omap list_omap]. rewrite slots_cons. specialize (IH (S k)).
  unfold pending_at at 1, sub_slot_of. cbn. destruct (role m) as [|x|]; cbn; try done. destruct (_ && _); cbn; [by apply submseteq_skip|by apply submseteq_cons].
Qed.

Lemma offsets_nodup a l : SsrcProofs.ok a → slots_ok a l → NoDup (Ssrcs.offset_of a <$> (out_ssrc <$> l)).
Proof.
  intros Ha [Hf Hn]. apply NoDup_fmap_2_strong; [|done]. intros x y Hx Hy He.
  assert (Hu : ∀ z, z ∈ out_ssrc <$> l → is_u32 z).
  { intros z (w & -> & Hw)%list_elem_of_fmap. rewrite Forall_forall in Hf. by destruct (Hf w Hw) as [[? _] _]. }
  eapply SsrcProofs.offset_inj; [apply (SsrcProofs.ok_base _ Ha)|by apply Hu|by apply Hu|done].
Qed.

Lemma strictly_sorted (l : list (Z * nat)) : StronglySorted Negotiation.pair_le l → NoDup l.*1 → StronglySorted (fun x y => x.1 < y.1) l.
Proof.
  induction 1 as [|x l Hl IH Hx]; intros Hn; [constructor|]. cbn in Hn. apply NoDup_cons in Hn as [Hni Hn]. constructor; [by apply IH|].
  apply Forall_forall. intros y Hy. rewrite Forall_forall in Hx. destruct (Hx y Hy) as [|[He _]]; [done|]. exfalso. apply Hni. rewrite He. by apply list_elem_of_fmap_2.
Qed.

#[local] Instance pair_le_trans : Transitive Negotiation.pair_le.
Proof. unfold Negotiation.pair_le. intros x y z. lia. Qed.
#[local] Instance pair_le_total : Total Negotiation.pair_le.
Proof. unfold Negotiation.pair_le. intros x y. lia. Qed.

Lemma pending_subs_ok a l : SsrcProofs.ok a → slots_ok a (slots l) → pending a l (Negotiation.pending_subs a l).
Proof.
  intros Ha Hs. unfold Negotiation.pending_subs. fold (pending_at a).
  set (ps := omap (pending_at a) (zip (seq 0 (length l)) l)). assert (Hperm : merge_sort Negotiation.pair_le ps ≡ₚ ps) by apply merge_sort_Permutation. split.
  - apply strictly_sorted; [by apply StronglySorted_merge_sort; apply _|]. rewrite Hperm. eapply NoDup_sub; [apply pending_offsets|by apply offsets_nodup].
  - intros off i Hin. rewrite Hperm in Hin. apply list_elem_of_omap in Hin as ([j m] & Hz & Hp).
    apply list_elem_of_lookup in Hz as (n & Hz). apply lookup_zip_Some in Hz as [Hseq Hm]. apply lookup_seq in Hseq as [-> _]. cbn in Hp, Hm.
    unfold pending_at in Hp. cbn in Hp. destruct (role m) as [|x|] eqn:Er; try done. destruct (on_shard x); cbn in Hp; [done|].
    destruct (Ssrcs.is_stale a (out_ssrc x)) eqn:Est; cbn in Hp; [done|]. injection Hp as <- <-. exists m, x. split_and!; try done.
    unfold Ssrcs.is_stale in Est. lia.
Qed.

Lemma keys_set_slot l i m x x' : l !! i = Some m → role m = Subscribe x → key x' = key x → keys (alter (set_role (Subscribe x')) i l) ≡ₚ keys l.
Proof.
  intros Hi Hr Hk. rewrite (alter_insert _ _ _ _ Hi). pose proof (slots_insert l i m (set_role (Subscribe x') m) Hi) as H.
  unfold sub_slot_of in H. cbn in H. rewrite Hr in H. cbn in H. apply (fmap_Permutation key) in H. rewrite fmap_app in H. cbn in H. rewrite Hk in H.
  unfold keys. apply (Permutation_app_inv_r [key x]). rewrite H. solve_Permutation.
Qed.

Lemma mark_registered_ok id x o e : ok gone o → entry_at o id = Some e → Ssrcs.high_water (Transports.ssrcs e) < Ssrcs.offset_of (Transports.ssrcs e) x →
  SsrcProofs.issued (Transports.ssrcs e) x →
  triple (on_plane (Plane.with_entry id (zoom Transports.ssrcs Transports.set_ssrcs (Ssrcs.mark_registered x)))) o (fun _ o' => quiet o o' ∧ tracks_of o' = tracks_of o ∧
    entry_at o' id = Some (Transports.set_ssrcs (Ssrcs.set_high_water (Ssrcs.offset_of (Transports.ssrcs e) x) (Transports.ssrcs e)) e)).
Proof.
  intros Ho He Hhw [Hu Hi]. omono ltac:(apply ot_plane; [done|]; apply (zoom_ssrcs_ok P id _ _ (fun a _ a' => a' = Ssrcs.set_high_water (Ssrcs.offset_of a x) a)); [apply Ho|];
    intros a Ha (e' & He' & Hae); unfold entry_at in He; rewrite He in He'; injection He' as <-; rewrite <- Hae in *; unfold Ssrcs.mark_registered; wp;
    (apply wp_assert; [rewrite Z.gtb_ltb; by apply Z.ltb_lt|]); wp; (apply wp_assert; [apply Z.ltb_lt; lia|]); wp;
    destruct Ha; (split_and!; [split; cbn; try done; lia|by split; [done|cbn; lia]|done])).
  intros r o' _ _ (pl & -> & Hr). split; [done|]. destruct r as [[]|]; [|destruct Hr as [Hn _]; unfold entry_at in He; congruence].
  destruct Hr as (e0 & a' & He0 & _ & -> & ->). unfold entry_at in He. rewrite He in He0. injection He0 as <-. split; [done|].
  unfold entry_at. cbn. by rewrite lookup_insert_eq.
Qed.

Lemma subscribe_each_ok p id sh a (Good : Z → Prop) l :
  (∀ t sub spec, ShardInv.command_ok (Model.Subscribe id sub t spec) → Good t → P (Model.Subscribe id sub t spec)) → Forall SdpProofs.media_typed (Sdp.media a) →
  ∀ o s e, ok gone o → negotiation o !! p = Some s → session s = Some id → entry_at o id = Some e → pending (Transports.ssrcs e) (mlines s) l →
  length (Sdp.media a) = length (mlines s) → (∀ x, x ∈ slots (mlines s) → is_Some (tracks_of o !! slot_track x) → Good (slot_track x)) →
  triple (Negotiation.subscribe_each W p id sh a l) o (fun _ _ => True).
Proof.
  intros HS Hmt. induction l as [|[off index] l IH]; intros o s e Ho Hs Hid He Hpe Hlen HG; cbn [Negotiation.subscribe_each]; [by apply ot_ret|].
  destruct Hpe as [[Hsort Hlt]%StronglySorted_inv Hsl]. rewrite Forall_forall in Hlt.
  assert (Hrest : pending (Transports.ssrcs e) (mlines s) l) by (split; [done|]; intros f j Hj; apply Hsl; by right).
  destruct (Hsl off index) as (m & x & Hm & Hr & Hoff & Hhw); [by left|].
  apply ot_get. unfold Negotiation.state_of. eapply ot_lift; [by rewrite Hs|]. eapply ot_lift; [unfold idx; by rewrite Hm|]. rewrite Hr.
  assert (Hx : x ∈ slots (mlines s)).
  { apply list_elem_of_omap. exists m. split; [by eapply list_elem_of_lookup_2|]. unfold sub_slot_of. by rewrite Hr. }
  pose proof (ok_neg _ _ Ho p s Hs) as Hn. destruct (no_slots _ _ _ _ _ Hn x Hx) as [[Hb _] _].
  destruct (no_session _ _ _ _ _ Hn id Hid) as (e0 & He0 & _ & [Hiss _]). unfold entry_at in He. rewrite He in He0. injection He0 as <-.
  rewrite Forall_forall in Hiss. specialize (Hiss x Hx).
  apply ot_reads; [eexists; apply find_track_runs; lia|]. intros info Hinfo. rewrite find_track_runs in Hinfo by lia. injection Hinfo as <-.
  change (Plane.tracks (plane_of o)) with (tracks_of o). destruct (tracks_of o !! slot_track x) as [info|] eqn:Ei; [|by eapply IH].
  destruct (lookup_lt_is_Some_2 (Sdp.media a) index) as [media Hmedia]; [rewrite Hlen; by eapply lookup_lt_Some|].
  eapply ot_lift; [unfold idx; by rewrite Hmedia|].
  assert (Htyped : SdpProofs.media_typed media) by (rewrite Forall_forall in Hmt; apply Hmt; by eapply list_elem_of_lookup_2).
  destruct (po_tracks _ (ok_plane _ _ Ho) _ _ Ei) as [_ Hspec].
  pose proof (SdpProofs.sub_spec_ok media (Tracks.spec info) (out_ssrc x) (mkTrackRef (Tracks.track_shard info) (slot_track x)) Htyped Hspec (proj1 (proj1 Hiss))) as Hsub.
  destruct (SdpParams.sub_spec _ _ _ _) as [[spec|]|err|]; [|by eapply IH| |done].
  2: { ostep ltac:(by apply send_error_ok). intros _ o1 Ho1 _ (_ & _ & Hn1 & _ & Ht1 & Hk1 & _).
       eapply (IH o1 s e); try done; [by rewrite Hn1|unfold entry_at; by rewrite Ht1|]. intros y Hy. unfold tracks_of. rewrite Hk1. by apply HG. }
  destruct Hsub as [Hcmd _].
  ostep ltac:(apply ot_plane; [done|]; apply (push_ok P); [apply Ho|]; apply HS; [apply Hcmd|]; apply HG; [done|by rewrite Ei]).
  intros pushed o1 Ho1 _ (pl & -> & Ht1 & Hk1 & _). destruct pushed; cbn [negb]; [|by apply ot_ret].
  assert (He1 : entry_at (set_plane pl o) id = Some e) by (unfold entry_at; cbn; by rewrite Ht1).
  ostep ltac:(apply (mark_registered_ok id (out_ssrc x) _ e Ho1 He1); [by rewrite Hoff|exact Hiss]).
  intros _ o2 Ho2 _ ((_ & _ & Hn2 & _) & Hk2 & He2). rewrite Hoff in He2. set (e2 := Transports.set_ssrcs _ e) in He2.
  set (x' := mkSubSlot _ _ _ true). assert (Hkey : key x' = key x) by done.
  assert (Hs2 : negotiation o2 !! p = Some s) by by rewrite Hn2.
  pose proof (keys_set_slot (mlines s) index m x x' Hm Hr Hkey) as Hkeys.
  unfold Negotiation.set_slot. set (f := fun s => set_mlines _ _ s).
  ostep ltac:(apply update_sub; [done|]; intros y Hy; rewrite Hs2 in Hy; injection Hy as <-; unfold f; split_and!; try done; [by eapply (lines_same s); [apply shape_alter|..|apply Hn]|cbn; by rewrite Hkeys]).
  intros _ o3 Ho3 _ [-> _]. assert (Hs3 : negotiation (updated p f o2) !! p = Some (f s)) by (unfold updated; rewrite Hs2; cbn; by rewrite lookup_insert_eq).
  assert (Hpl3 : plane_of (updated p f o2) = plane_of o2) by (unfold updated; by rewrite Hs2).
  assert (Hpend : pending (Transports.ssrcs e2) (mlines (f s)) l).
  { split; [done|]. intros g j Hj. destruct (Hsl g j) as (m' & y & Hm' & Hr' & Hg & _); [by right|]. specialize (Hlt (g, j) Hj). cbn in Hlt.
    exists m', y. split_and!; try done. cbn. rewrite list_lookup_alter_ne; [done|]. intros <-. congruence || (rewrite Hm in Hm'; injection Hm' as <-; rewrite Hr in Hr'; injection Hr' as <-; lia). }
  assert (HG3 : ∀ y, y ∈ slots (mlines (f s)) → is_Some (tracks_of (updated p f o2) !! slot_track y) → Good (slot_track y)).
  { intros y Hy. unfold tracks_of. rewrite Hpl3. change (Plane.tracks (plane_of o2)) with (tracks_of o2). rewrite Hk2. unfold tracks_of at 1. cbn. rewrite Hk1.
    assert (Hin : key y ∈ keys (mlines s)) by (rewrite <- Hkeys; by apply list_elem_of_fmap_2). apply list_elem_of_fmap in Hin as (z & Hz & Hin).
    injection Hz as Hz _. rewrite Hz. by apply HG. }
  eapply ot_bind; [eapply (IH _ (f s) e2); [done|exact Hs3|done|unfold entry_at in *; by rewrite Hpl3|done|unfold f; cbn; by rewrite length_alter|done]|]; cbv beta.
  intros r o4 Ho4 _ _. by apply ot_ret.
Qed.

Lemma register_subscriptions_ok p id a (Good : Z → Prop) o s :
  (∀ t sub spec, ShardInv.command_ok (Model.Subscribe id sub t spec) → Good t → P (Model.Subscribe id sub t spec)) → Forall SdpProofs.media_typed (Sdp.media a) →
  ok gone o → negotiation o !! p = Some s → session s = Some id → length (Sdp.media a) = length (mlines s) →
  (∀ x, x ∈ slots (mlines s) → is_Some (tracks_of o !! slot_track x) → Good (slot_track x)) →
  triple (Negotiation.register_subscriptions W p id a) o (fun _ _ => True).
Proof.
  intros HS Ha Ho Hs Hid Hlen HG. unfold Negotiation.register_subscriptions. apply ot_get. unfold Negotiation.state_of. rewrite Hs. cbn [mbind option_bind].
  destruct (no_session _ _ _ _ _ (ok_neg _ _ Ho p s Hs) id Hid) as (e & He & _ & Hsl). rewrite He. cbn [mbind option_bind].
  eapply subscribe_each_ok; try done. apply pending_subs_ok; [|done]. apply (eo_ssrcs _ _ _ (entry_of _ _ _ (ok_plane _ _ Ho) He)).
Qed.

Lemma after_answer_ok p o : ok gone o → triple (Negotiation.after_answer W cert cands p) o (fun _ _ => True).
Proof.
  intros Ho. unfold Negotiation.after_answer. apply ot_get. unfold Negotiation.state_of. destruct (negotiation o !! p) as [s|] eqn:Es; [|by apply ot_ret].
  ostep ltac:(by apply update_harmless). intros _ o1 Ho1 Hx1 [_ Hst1]. destruct (Hst1 p s Es) as (s1 & Hs1 & _).
  eapply (ot_bind _ _ _ _ _ (fun _ _ => True)).
  - destruct (renegotiation_needed s); [|by apply ot_ret]. apply trigger_ok; try done. intros t Ht. eapply known_later; [done|exact Hx1|by eexists|].
    by apply (ok_neg _ _ Ho p s Es).
  - intros _ o2 Ho2 _ _. destruct (pending_publish s); [by apply handle_publish_ok|by apply ot_ret].
Qed.

(** The tracks of the participant's room. *)
Definition in_own_room o p t : Prop := ∃ i, tracks_of o !! t = Some i ∧ room_of o p = Some (Tracks.room i).

Lemma handle_answer_ok p sdp o : ok gone o →
  (∀ id t sub spec, ShardInv.command_ok (Model.Subscribe id sub t spec) → Transports.session_of (Plane.transports (plane_of o)) p = Some id →
     in_own_room o p t → P (Model.Subscribe id sub t spec)) →
  triple (Negotiation.handle_answer W cert cands p sdp) o (fun _ _ => True).
Proof.
  intros Ho HS. unfold Negotiation.handle_answer. ostep ltac:(by apply accept_answer_ok). intros [[]|[id a]] o1 Ho1 _ Hr.
  { by apply ot_ret. }
  { ostep ltac:(by apply after_answer_ok). intros _ o2 Ho2 _ _. ostep ltac:(by apply retry_unanswered_ok). intros _ o3 Ho3 _ _. by apply ot_ret. }
  destruct Hr as (-> & [Hmedia Hfp] & s & Hs & Hid & Hlen). ostep ltac:(by apply apply_dtls_ok). intros b o2 Ho2 Hx2 (_ & _ & Hn2 & _).
  destruct b; cbn [negb]; [|by apply ot_ret]. apply ot_get. unfold Negotiation.state_of. assert (Hs2 : negotiation o2 !! p = Some s) by by rewrite Hn2.
  eapply ot_lift; [by rewrite Hs2|]. ostep ltac:(by apply update_harmless). intros _ o3 Ho3 Hx3 [-> _]. set (f := fun s => set_offer_pending _ _) in *.
  assert (Hset3 : settled o2 (updated p f o2)) by by apply updated_settled. destruct (Hset3 p s Hs2) as (s3 & Hs3 & _).
  ostep ltac:(apply register_each_ok; [done|done|by eexists]). intros _ o4 Ho4 Hx4 Hset4.
  destruct (settled_trans _ _ _ Hset3 Hset4 p s Hs2) as (s4 & Hs4 & Hid4 & Hlen4 & Hsl4).
  assert (Hx : ext P o o4) by (eapply ext_trans; [exact Hx2|]; eapply ext_trans; [exact Hx3|exact Hx4]).
  pose proof (ok_neg _ _ Ho p s Hs) as Hn. destruct (no_session _ _ _ _ _ Hn id Hid) as (e & He & Hpart & _).
  pose proof (eo_by _ _ _ (entry_of _ _ _ (ok_plane _ _ Ho) He)) as Hby. rewrite Hpart in Hby.
  ostep ltac:(eapply (register_subscriptions_ok p id a (in_own_room o p) o4 s4); [intros t sub spec Hc Hg; by apply HS|done|done|done|congruence|congruence|];
    intros x Hx4' [i' Hi']; assert (Hin : x ∈ slots (mlines s)) by (eapply elem_of_submseteq; [exact Hx4'|exact Hsl4]);
    destruct (no_slots _ _ _ _ _ Hn x Hin) as [[Hb Hroom] _]; destruct (ex_tracks _ _ _ Hx _ _ Hi') as [(i & Hi & _)|[? _]]; [|lia]; exists i; split; [done|by apply Hroom]).
  intros act o5 Ho5 _ _. ostep ltac:(by apply after_answer_ok). intros _ o6 Ho6 _ _. by apply ot_ret.
Qed.

End answers.
End AnswerProofs.
