(* ===== verification/OrchestratorProofs.v ===== *)
(** * The orchestrator keeps the invariant

    [src/orchestrator/subscription.rs] and [mod.rs]: subscriptions, removed
    tracks, clean-up, the dispatcher and the closing of participants. *)

From stdpp Require Import strings sorting.
From S2P Require Import Prelude Wp Model ShardInv Crdt DistributedState DistributedProofs Handshake Transports HandshakeProofs SdpParams ControlPlane OrchestratorState Negotiation Orchestrator PlaneProofs OrchestratorInv NegotiationProofs AnswerProofs.

Module OrchProofs.
Import Orch Mlines PlaneProofs OrchInv RoomsProofs SlotProofs NegProofs AnswerProofs.

Section orchestrator.
Context `{En : DtlsEngine} {Laws : EngineLaws} (W : World) (HW : world_ok W).
Context (cert : Certificate) (cands : list (list SocketAddr)) (Hcands : cands ≠ []).
Context (P : Command → Prop) (HP : ∀ c, plain c → P c).
Implicit Types (o : SessionOrchestrator) (s : NegotiationState) (gone : list Z).

(** A handler that changes which tracks are being removed. *)
Definition otrans {A} (after : A → list Z) (m : orch A) o (Q : A → SessionOrchestrator → Prop) : Prop :=
  wp m o (fun a o' => ok (after a) o' ∧ ext P o o' ∧ Q a o') (fun _ o' => sends P (plane_of o) (plane_of o')).

Lemma oc_bind {A B} g1 g2 (m : orch A) (f : A → orch B) o Q R : otrans g1 m o Q →
  (∀ a o', ok (g1 a) o' → ext P o o' → Q a o' → otrans g2 (f a) o' R) → otrans g2 (m ≫= f) o R.
Proof.
  intros Hm Hf. apply wp_bind. eapply wp_mono; [exact Hm|]. intros a o' (Hp & Hc & Hq). eapply wp_conseq; [by apply Hf|..]; cbn beta.
  - intros b o2 (? & ? & ?). split_and!; try done. by eapply ext_trans.
  - intros _ o2 Hs. eapply sends_trans; [apply Hc|done].
Qed.

Lemma oc_same {A} gone (m : orch A) o Q : otriple P gone m o Q → otrans (fun _ => gone) m o Q.
Proof. done. Qed.

Lemma ok_mono gone gone' o : ok gone o → gone ⊆ gone' → ok gone' o.
Proof.
  intros [Hp Hn Hs Hd Hc Ho Hpb] Hsub. assert (Hl : ∀ t, live gone (plane_of o) t → live gone' (plane_of o) t) by (intros t [?|?]; [by left|right; by apply Hsub]).
  split; try done.
  - intros q s Hq. destruct (Hn q s Hq) as [? Hsl ? ? ?]. split; try done. intros x Hx. destruct (Hsl x Hx). by auto.
  - intros q l t Hq Ht. destruct (Hs q l t Hq Ht). by auto.
Qed.

(** ** Removed tracks *)

Lemma forget_slot_of ts m : sub_slot_of (Negotiation.forget_slot ts m) = None ∨ sub_slot_of (Negotiation.forget_slot ts m) = sub_slot_of m.
Proof. unfold Negotiation.forget_slot. destruct (subscribed_track _); [|by right]. case_bool_decide; [by left|by right]. Qed.

Lemma forget_slot_clean ts m x : sub_slot_of (Negotiation.forget_slot ts m) = Some x → slot_track x ∉ ts.
Proof.
  unfold Negotiation.forget_slot, sub_slot_of. destruct (role m) as [|y|] eqn:Er; cbn [subscribed_track]; try (by rewrite Er).
  case_bool_decide as Hin; cbn; [done|]. rewrite Er. by intros [= <-].
Qed.

Lemma forget_negotiation_ok gone ts o : ok gone o →
  otriple P gone (Negotiation.forget_tracks ts) o (fun _ o' => tracks_of o' = tracks_of o ∧
    ∀ q s x, negotiation o' !! q = Some s → x ∈ slots (mlines s) → slot_track x ∉ ts).
Proof.
  intros Ho. unfold Negotiation.forget_tracks, otriple. wp. set (f := fun s => set_mlines _ _ s).
  assert (Hlk : ∀ q x, (f <$> negotiation o) !! q = Some x → ∃ s, negotiation o !! q = Some s ∧ x = f s).
  { intros q x. rewrite lookup_fmap. destruct (negotiation o !! q) as [s|]; [|done]. intros [= <-]. eauto. }
  destruct Ho as [Hp Hn Hs Hd Hc Hown Hpb]. split_and!; [| |done|].
  - split; try done; cbn.
    + intros q x (s & Hq & ->)%Hlk. eapply neg_ok_sub; [by apply Hn|done|done|eapply (lines_same s); [apply shape_map; intros m; unfold Negotiation.forget_slot; repeat case_match; done|done|apply (Hn q s Hq)]|].
      apply keys_slots, slots_map. intros m. apply forget_slot_of.
    + intros q [[x (s & Hq & _)%Hlk]|?]; apply Hd; [left; by eexists|by right].
    + intros id e He. destruct (Hown id e He) as (s & Hq & Hse). exists (f s). rewrite lookup_fmap, Hq. done.
    + intros t i Hi. rewrite lookup_fmap. destruct (Hpb t i Hi) as [s ->]. by eexists.
  - split; try done; cbn; eauto; [|by apply sends_refl]. intros q [x (s & Hq & _)%Hlk]. by eexists.
  - intros q x y (s & Hq & ->)%Hlk Hy. apply list_elem_of_omap in Hy as (m' & Hm' & Hy). cbn in Hm'. apply list_elem_of_fmap in Hm' as (m & -> & _).
    by eapply forget_slot_clean.
Qed.

(** *** The subscriptions of the participants *)

Lemma retain_tracks_ok gone p ts l : ∀ o, ok gone o →
  otriple P gone (Subscriptions.retain_tracks W p ts l) o (fun r o' => still o o' ∧ r.*1 ⊆ l.*1 ∧ ∀ t, t ∈ r.*1 → t ∉ ts).
Proof.
  induction l as [|[t x] l IH]; intros o Ho; cbn [Subscriptions.retain_tracks]; [apply ot_ret; [done|]; split_and!; try done; intros t Ht; by apply elem_of_nil in Ht|].
  cbv zeta. eapply (ot_bind _ _ _ _ _ (fun _ o' => still o o')).
  - destruct (_ && _); [|by apply ot_ret]. ostep ltac:(by apply call_still). intros _ o1 Ho1 _ [H1 _]. by apply ot_ret.
  - intros _ o1 Ho1 _ H1. ostep ltac:(by apply IH). intros r o2 Ho2 _ (H2 & Hsub & Hcl). apply ot_ret; [done|]. split; [by eapply still_trans|].
    case_bool_decide as Hin; cbn; [split; [set_solver|done]|]. split; [set_solver|]. intros y [->|Hy]%elem_of_cons; [done|by apply Hcl].
Qed.


Lemma set_subs_ok gone p l o : ok gone o → is_Some (subscription o !! p) → (∀ t, t ∈ l.*1 → known (plane_of o) (room_of o p) t ∧ live gone (plane_of o) t) →
  otriple P gone (Subscriptions.set_subs p l) o (fun _ o' => o' = set_subscription (<[p := l]> (subscription o)) o).
Proof.
  intros Ho Hp Hl. unfold Subscriptions.set_subs, otriple. wp. destruct Ho as [Hpl Hn Hs Hd Hc Hown Hpb].
  assert (Hdom : ∀ q, is_Some (<[p := l]> (subscription o) !! q) → is_Some (subscription o !! q)).
  { intros q [x Hx]. apply lookup_insert_Some in Hx as [[<- _]|[_ Hx]]; [done|by eexists]. }
  split_and!; [| |done].
  - split; try done; cbn.
    + intros q x t Hq Ht. apply lookup_insert_Some in Hq as [[<- <-]|[_ Hq]]; [by apply Hl|by eapply Hs].
    + intros q [?|?]; apply Hd; [by left|right; by apply Hdom].
  - split; try done; cbn; eauto. by apply sends_refl.
Qed.

(** No subscription of the participant is to one of the tracks. *)
Definition clean (ts : list Z) o q : Prop := ∀ l t, subscription o !! q = Some l → t ∈ l.*1 → t ∉ ts.

Lemma forget_each_ok gone ts pids : ∀ o, ok gone o → (∀ q, q ∈ pids → is_Some (subscription o !! q)) →
  otriple P gone (Subscriptions.forget_each W ts pids) o (fun _ o' => negotiation o' = negotiation o ∧ tracks_of o' = tracks_of o ∧
    (∀ q, clean ts o q ∨ q ∈ pids → clean ts o' q) ∧ ∀ q, is_Some (subscription o' !! q) → is_Some (subscription o !! q)).
Proof.
  induction pids as [|p pids IH]; intros o Ho Hp; cbn [Subscriptions.forget_each].
  { apply ot_ret; [done|]. split_and!; try done. intros q [?|Hq]; [done|]. by apply elem_of_nil in Hq. }
  apply ot_get. cbv zeta. destruct (Hp p) as [l Hl]; [by left|]. unfold Subscriptions.subs_of. rewrite Hl. cbn [default].
  ostep ltac:(by apply retain_tracks_ok). intros r o1 Ho1 _ ((Hs1 & _ & Hn1 & Hu1 & Ht1 & Hk1 & Hi1) & Hsub & Hcl).
  ostep ltac:(apply set_subs_ok; [done|by rewrite Hu1, Hl|]; intros t Ht; eapply (ok_subs _ _ Ho1 p l); [by rewrite Hu1|by apply Hsub]).
  intros _ o2 Ho2 _ ->. set (o2 := set_subscription _ _) in *.
  assert (Hlook : ∀ q, q ≠ p → subscription o2 !! q = subscription o !! q) by (intros q Hq; cbn; rewrite lookup_insert_ne by done; by rewrite Hu1).
  ostep ltac:(apply IH; [done|]; intros q Hq; destruct (decide (q = p)) as [->|Hne]; [cbn; by rewrite lookup_insert_eq|rewrite Hlook by done; apply Hp; by right]).
  intros r' o3 Ho3 _ (Hn3 & Ht3 & Hc3 & Hd3). apply ot_ret; [done|]. split; [rewrite Hn3; by rewrite <- Hn1|]. split; [rewrite Ht3; unfold tracks_of; by rewrite <- Hk1|]. split.
  - intros q Hq. apply Hc3. destruct (decide (q = p)) as [->|Hne].
    + left. intros l' t Hl'. cbn in Hl'. rewrite lookup_insert_eq in Hl'. injection Hl' as <-. apply Hcl.
    + destruct Hq as [Hq|[?|?]%elem_of_cons]; [|done|by right]. left. intros l' t. rewrite Hlook by done. apply Hq.
  - intros q Hq. apply Hd3 in Hq. destruct (decide (q = p)) as [->|Hne]; [by rewrite Hl|by rewrite <- Hlook].
Qed.

Lemma forget_subscriptions_ok gone ts o : ok gone o →
  otriple P gone (Subscriptions.forget_tracks W ts) o (fun _ o' => negotiation o' = negotiation o ∧ tracks_of o' = tracks_of o ∧ ∀ q, clean ts o' q).
Proof.
  intros Ho. unfold Subscriptions.forget_tracks. ostep ltac:(by apply (ask_still P gone (fun k => hash_order W Z k))).
  intros f o1 Ho1 _ [(_ & _ & Hn1 & Hu1 & _ & Hk1 & _) [n ->]]. apply ot_get.
  assert (Hin : ∀ q, q ∈ hash_order W Z n (map_to_list (subscription o1)).*1 ↔ is_Some (subscription o1 !! q)).
  { intros q. rewrite (hash_order_ok _ HW). rewrite list_elem_of_fmap. split.
    - intros ([q' l] & -> & Hq%elem_of_map_to_list). by eexists.
    - intros [l Hl]. exists (q, l). split; [done|]. by apply elem_of_map_to_list. }
  ostep ltac:(apply forget_each_ok; [done|]; intros q Hq; by apply Hin). intros r o2 Ho2 _ (Hn2 & Ht2 & Hc2 & Hd2). apply ot_ret; [done|].
  split; [congruence|]. split; [rewrite Ht2; unfold tracks_of; by rewrite Hk1|]. intros q. destruct (decide (is_Some (subscription o1 !! q))) as [Hs|Hs].
  - apply Hc2. right. by apply Hin.
  - intros l t Hl. exfalso. apply Hs, Hd2. by eexists.
Qed.

Lemma on_tracks_removed_ok ts o : ok ts o → otrans (fun _ => []) (Orchestrator.on_tracks_removed W cert cands ts) o (fun _ _ => True).
Proof.
  intros Ho. unfold Orchestrator.on_tracks_removed. case_bool_decide as Hnil; [subst ts; exact (ot_ret P [] () o (fun _ _ => True) Ho I)|].
  eapply oc_bind; [apply oc_same; by apply (forget_negotiation_ok ts ts)|]; cbv beta. intros a o1 Ho1 _ [_ Hcl1].
  eapply oc_bind; [apply oc_same; by apply (forget_subscriptions_ok ts ts)|]; cbv beta. intros b o2 Ho2 _ (Hn2 & _ & Hcl2).
  assert (Hok : ok [] o2).
  { destruct Ho2 as [Hp Hn Hs Hd Hc Hown Hpb]. split; try done.
    - intros q s Hq. destruct (Hn q s Hq) as [? Hsl ? ? ?]. split; try done. intros x Hx. destruct (Hsl x Hx) as [Hk [Hl|Hl]]; [by split; [|left]|].
      exfalso. rewrite Hn2 in Hq. by eapply Hcl1.
    - intros q l t Hq Ht. destruct (Hs q l t Hq Ht) as [Hk [Hl|Hl]]; [by split; [|left]|]. exfalso. by eapply Hcl2. }
  apply oc_same. apply (ot_for_each P [] _ (fun _ => True)); [done|done|]. intros p o3 _ Ho3 _. apply ot_get. destruct (is_some _); [|by apply ot_ret].
  apply request_renegotiation_ok; try done. intros t Ht. unfold Subscriptions.track_ids, Subscriptions.subs_of in Ht.
  destruct (subscription o3 !! p) as [l|] eqn:El; [|by apply elem_of_nil in Ht]. by apply (ok_subs _ _ Ho3 p l).
Qed.

(** ** Subscribing and unsubscribing *)

Lemma accept_tracks_in o room have ids t : t ∈ Subscriptions.accept_tracks o room have ids → Subscriptions.in_room o room t = true.
Proof.
  unfold Subscriptions.accept_tracks. assert (Hgen : ∀ acc, (∀ t, t ∈ acc → Subscriptions.in_room o room t = true) →
    ∀ t, t ∈ foldl (fun acc t => if Subscriptions.in_room o room t && negb (existsb (fun x => x.1 =? t) have) && negb (bool_decide (t ∈ acc)) then acc ++ [t] else acc) acc ids →
    Subscriptions.in_room o room t = true).
  { induction ids as [|x ids IH]; intros acc Hacc; cbn [foldl]; [done|]. apply IH. intros y Hy.
    destruct (Subscriptions.in_room o room x) eqn:Ex; cbn [andb] in Hy; [|by apply Hacc]. destruct (_ && _); [|by apply Hacc].
    apply elem_of_app in Hy as [Hy|Hy]; [by apply Hacc|]. by apply list_elem_of_singleton in Hy as ->. }
  apply Hgen. intros y Hy. by apply elem_of_nil in Hy.
Qed.

Lemma in_room_known o p room t gone : ok gone o → room_of o p = Some room → Subscriptions.in_room o room t = true →
  known (plane_of o) (room_of o p) t ∧ live gone (plane_of o) t.
Proof.
  intros Ho Hr Hin. unfold Subscriptions.in_room in Hin. apply andb_true_iff in Hin as [_ Hin].
  destruct (Plane.tracks (plane_of o) !! t) as [i|] eqn:Ei; [|done]. destruct (po_tracks _ (ok_plane _ _ Ho) t i Ei) as [Hb _]. split.
  - split; [done|]. intros i' Hi'. rewrite Ei in Hi'. injection Hi' as <-. apply Z.eqb_eq in Hin. by rewrite Hr, Hin.
  - left. by eexists.
Qed.

Lemma handle_subscribe_ok gone p ids o : ok gone o → otriple P gone (Subscriptions.handle_subscribe W cert cands p ids) o (fun _ _ => True).
Proof.
  intros Ho. unfold Subscriptions.handle_subscribe. apply ot_get. unfold Subscriptions.subs_of. destruct (subscription o !! p) as [have|] eqn:Eh; [|by apply ot_ret].
  destruct (room_of o p) as [room|] eqn:Er; [|by eapply any_ok, send_error_ok]. case_bool_decide; [by eapply any_ok, send_error_ok|]. cbv zeta.
  case_bool_decide; [by apply ot_ret|]. case_bool_decide; [by eapply any_ok, send_error_ok|].
  set (acc := Subscriptions.accept_tracks o room have ids). set (now := have ++ _).
  assert (Hnow : ∀ t, t ∈ now.*1 → known (plane_of o) (room_of o p) t ∧ live gone (plane_of o) t).
  { intros t Ht. unfold now in Ht. rewrite fmap_app in Ht. apply elem_of_app in Ht as [Ht|Ht]; [by eapply ok_subs|].
    rewrite <- list_fmap_compose in Ht. apply list_elem_of_fmap in Ht as (t' & -> & Ht). eapply in_room_known; [done|exact Er|]. by eapply accept_tracks_in. }
  ostep ltac:(by apply set_subs_ok; [|rewrite Eh|]). intros _ o1 Ho1 _ ->. ostep ltac:(by apply send_to_ok).
  intros _ o2 Ho2 _ (Hs2 & _ & _ & Hu2 & Ht2 & Hk2 & Hi2). apply request_renegotiation_ok; try done. intros t Ht. destruct (Hnow t Ht) as [[Hb Hk] _].
  unfold known, room_of. rewrite Hk2, Hi2, Hs2. done.
Qed.

Lemma unsubscribe_each_ok gone p ids : ∀ o, ok gone o → otriple P gone (Subscriptions.unsubscribe_each W p ids) o (fun _ _ => True).
Proof.
  induction ids as [|t ids IH]; intros o Ho; cbn [Subscriptions.unsubscribe_each]; [by apply ot_ret|]. apply ot_get. cbv zeta. unfold Subscriptions.subs_of.
  destruct (subscription o !! p) as [have|] eqn:Eh; cbn [default]; [|by apply IH].
  destruct (position _ _) as [i|] eqn:Ep; [|by apply IH]. apply position_Some in Ep as [(x & Hx & _) _]. eapply ot_lift; [by rewrite Hx|].
  ostep ltac:(apply set_subs_ok; [done|by rewrite Eh|]; intros y Hy; eapply (ok_subs _ _ Ho p have); [done|]; rewrite delete_take_drop, fmap_app in Hy;
    apply elem_of_app in Hy as [Hy|Hy]; apply list_elem_of_fmap in Hy as (z & -> & Hz); apply list_elem_of_fmap_2; [by eapply elem_of_take_inv in Hz || (apply list_elem_of_lookup in Hz as (j & Hj); apply lookup_take_Some in Hj as [? _]; by eapply list_elem_of_lookup_2)|apply list_elem_of_lookup in Hz as (j & Hj); rewrite lookup_drop in Hj; by eapply list_elem_of_lookup_2]).
  intros _ o1 Ho1 _ _. eapply (ot_bind _ _ _ _ _ (fun _ _ => True)).
  - case_bool_decide; [|by apply ot_ret]. ostep ltac:(by apply call_still). intros _ o2 Ho2 _ _. by apply ot_ret.
  - intros _ o2 Ho2 _ _. ostep ltac:(by apply IH). intros r o3 Ho3 _ _. by apply ot_ret.
Qed.

Lemma track_ids_known gone o p t : ok gone o → t ∈ Subscriptions.track_ids o p → known (plane_of o) (room_of o p) t.
Proof.
  intros Ho Ht. unfold Subscriptions.track_ids, Subscriptions.subs_of in Ht. destruct (subscription o !! p) as [l|] eqn:El; [|by apply elem_of_nil in Ht].
  by apply (ok_subs _ _ Ho p l).
Qed.

Lemma handle_unsubscribe_ok gone p ids o : ok gone o → otriple P gone (Subscriptions.handle_unsubscribe W cert cands p ids) o (fun _ _ => True).
Proof.
  intros Ho. unfold Subscriptions.handle_unsubscribe. apply ot_get. destruct (Subscriptions.subs_of o p); [|by apply ot_ret].
  ostep ltac:(by apply unsubscribe_each_ok). intros r o1 Ho1 _ _. case_bool_decide; [by apply ot_ret|].
  ostep ltac:(by apply drop_subscriptions_ok). intros _ o2 Ho2 _ _. ostep ltac:(by apply send_to_ok). intros _ o3 Ho3 _ _. apply ot_get.
  apply request_renegotiation_ok; try done. intros t Ht. by eapply track_ids_known.
Qed.

Lemma activate_each_ok gone p ts l : ∀ o, ok gone o → otriple P gone (Subscriptions.activate_each W p ts l) o (fun r o' => still o o' ∧ r.*1 = l.*1).
Proof.
  induction l as [|[t x] l IH]; intros o Ho; cbn [Subscriptions.activate_each]; [by apply ot_ret|].
  eapply (ot_bind _ _ _ _ _ (fun _ o' => still o o')).
  - destruct (_ && _); [|by apply ot_ret]. ostep ltac:(by apply call_still). intros _ o1 Ho1 _ [H1 _]. by apply ot_ret.
  - intros y o1 Ho1 _ H1. ostep ltac:(by apply IH). intros r o2 Ho2 _ [H2 Hr]. apply ot_ret; [done|]. split; [by eapply still_trans|]. cbn. congruence.
Qed.

Lemma activate_ok gone p ts o : ok gone o → otriple P gone (Subscriptions.activate W p ts) o (fun _ _ => True).
Proof.
  intros Ho. unfold Subscriptions.activate. apply ot_get. unfold Subscriptions.subs_of. destruct (subscription o !! p) as [l|] eqn:El; [|by apply ot_ret].
  ostep ltac:(by apply activate_each_ok). intros r o1 Ho1 _ [(_ & _ & _ & Hu & _) Hr].
  eapply any_ok, set_subs_ok; [done|by rewrite Hu, El|]. intros t Ht. rewrite Hr in Ht. eapply ok_subs; [done| |exact Ht]. by rewrite Hu.
Qed.

Lemma set_content_ok gone p t c o : ok gone o → otriple P gone (Subscriptions.handle_set_content p t c) o (fun _ _ => True).
Proof.
  intros Ho. unfold Subscriptions.handle_set_content. destruct (Subscriptions.content_of c) as [v|]; [|by eapply any_ok, send_error_ok]. apply ot_get.
  destruct (if t =? 0 then None else _) as [i|] eqn:Ei; [|by eapply any_ok, send_error_ok].
  assert (Hi : Plane.tracks (plane_of o) !! t = Some i) by by destruct (t =? 0). destruct (Tracks.publisher i =? p) eqn:Epub; [|by eapply any_ok, send_error_ok].
  eapply (ot_bind _ _ _ _ _ (fun _ _ => True)); [|intros _ o1 Ho1 _ _; by eapply any_ok, send_to_ok].
  unfold otriple. apply wp_zoom, wp_zoom. wp. set (pl := Plane.set_tracks _ _).
  assert (Hlk : ∀ x i', Plane.tracks pl !! x = Some i' → ∃ i0, Plane.tracks (plane_of o) !! x = Some i0 ∧ Tracks.room i' = Tracks.room i0 ∧ Tracks.publisher i' = Tracks.publisher i0 ∧ Tracks.spec i' = Tracks.spec i0).
  { intros x i' Hx. cbn in Hx. apply lookup_insert_Some in Hx as [[<- <-]|[_ Hx]]; eauto. }
  assert (Hdom : ∀ x, is_Some (Plane.tracks (plane_of o) !! x) → is_Some (Plane.tracks pl !! x)).
  { intros x Hx. apply lookup_insert_is_Some. destruct (decide (t = x)); [by left|by right]. }
  assert (Hk : ∀ room x, known (plane_of o) room x → known pl room x).
  { intros room x [Hb Hk]. split; [done|]. intros i' Hx. destruct (Hlk x i' Hx) as (i0 & H0 & -> & _). by apply Hk. }
  assert (Hl : ∀ x, live gone (plane_of o) x → live gone pl x) by (intros x [?|?]; [left; by apply Hdom|by right]).
  destruct Ho as [Hp Hn Hs Hd Hc Hown Hpb]. split_and!; [| |done].
  - split; try done; cbn.
    + destruct Hp as [He Hby Hsz Htr Hids Hcl]. split; try done; [intros id e Hent; destruct (He id e Hent); by split|].
      intros x i' Hx. destruct (Hlk x i' Hx) as (i0 & H0 & _ & _ & ->). by apply (Htr x i0 H0).
    + intros q s Hq. destruct (Hn q s Hq) as [? Hsl ? ? ?]. split; try done; [intros x Hx; destruct (Hsl x Hx); by auto|auto].
    + intros q l x Hq Hx. destruct (Hs q l x Hq Hx). by auto.
    + intros x i' Hx. destruct (Hlk x i' Hx) as (i0 & H0 & _ & -> & _). by eapply Hpb.
  - split; try done; cbn; eauto; [|by apply sends_refl]. intros x i' Hx. left. destruct (Hlk x i' Hx) as (i0 & ? & ? & ? & _). eauto.
Qed.

End orchestrator.
End OrchProofs.

(** * Removed tracks and participants

    [src/orchestrator/mod.rs], [negotiation.rs] and [subscription.rs]: what
    [Unpublish], [Leave], a lost connection and a closed session leave
    behind. [absent p o]: no table of [o] names the participant. *)


Module CleanupProofs.
Import Orch Mlines PlaneProofs OrchInv RoomsProofs SlotProofs NegProofs AnswerProofs OrchProofs.

Section cleanup.
Context `{En : DtlsEngine} {Laws : EngineLaws} (W : World) (HW : world_ok W).
Context (cert : Certificate) (cands : list (list SocketAddr)) (Hcands : cands ≠ []).
Context (P : Command → Prop) (HP : ∀ c, plain c → P c).
Implicit Types (o : SessionOrchestrator) (s : NegotiationState) (pl : Plane.Plane) (gone : list Z).

(** ** Tracks leave the registry *)

Lemma fewer_tracks_ok gone gone' (m : Tracks.TrackRegistry) o : ok gone o → gone ⊆ gone' →
  (∀ t i, m !! t = Some i → tracks_of o !! t = Some i) → (∀ t, is_Some (tracks_of o !! t) → is_Some (m !! t) ∨ t ∈ gone') →
  ok gone' (set_plane (Plane.set_tracks m (plane_of o)) o) ∧ ext P o (set_plane (Plane.set_tracks m (plane_of o)) o).
Proof.
  intros [Hp Hn Hs Hd Hc Hown Hpb] Hg Hsub Hall.
  assert (Hk : ∀ room t, known (plane_of o) room t → known (Plane.set_tracks m (plane_of o)) room t).
  { intros room t [Hb Hk]. split; [done|]. intros i Hi. by apply Hk, Hsub. }
  assert (Hl : ∀ t, live gone (plane_of o) t → live gone' (Plane.set_tracks m (plane_of o)) t).
  { intros t [Ht|Ht]; [|right; by apply Hg]. destruct (Hall t Ht); [by left|by right]. }
  split; split; try done; cbn; eauto.
  - destruct Hp as [He Hby Hsz Htr Hids Hcl]. split; try done; [intros id e Hent; destruct (He id e Hent); by split|]. intros t i Hi. by apply Htr, Hsub.
  - intros q s Hq. destruct (Hn q s Hq) as [? Hsl ? ? ?]. split; try done; [intros x Hx; destruct (Hsl x Hx); by auto|auto].
  - intros q l t Hq Ht. destruct (Hs q l t Hq Ht). by auto.
  - intros t i Hi. left. eauto.
  - by apply sends_refl.
Qed.

(** ** Unpublishing *)

Lemma release_publish_ok gone p t m o : ok gone o → otriple P gone (Negotiation.release_publish p t m) o (fun _ o' => tracks_of o' = tracks_of o).
Proof.
  intros Ho. unfold Negotiation.release_publish. omono ltac:(apply update_sub; [done|]; intros s Hs; set (s1 := set_published _ s);
    set (f := fun x => _); destruct (release_first_sub f s1) as (? & ? & Hl & _ & Hk); split_and!; try done; [apply Hl, (ok_neg _ _ Ho p s Hs)|by apply keys_slots]).
  intros _ o' _ _ [-> _]. unfold updated. by destruct (negotiation o !! p).
Qed.

Lemma unpublish_each_ok p ids : ∀ gone o, ok gone o → otrans P (fun r => r ++ gone) (Orchestrator.unpublish_each W p ids) o (fun _ _ => True).
Proof.
  assert (Hret : ∀ gone o, ok gone o → otrans P (fun r => r ++ gone) (mret []) o (fun _ _ => True)).
  { intros gone o Ho. exact (ot_ret P gone ([] : list Z) o (fun _ _ => True) Ho I). }
  induction ids as [|t ids IH]; intros gone o Ho; cbn [Orchestrator.unpublish_each]; [by apply Hret|].
  apply wp_bind, wp_get. destruct (if t =? 0 then None else _) as [i|] eqn:Ei; [|by apply IH].
  assert (Hi : tracks_of o !! t = Some i) by by destruct (t =? 0). destruct (negb _).
  { eapply oc_bind; [apply oc_same; by apply send_error_ok|]; cbv beta. intros _ o1 Ho1 _ _. by apply IH. }
  eapply oc_bind; [apply oc_same; apply ot_plane; [done|]; apply push_ok; try done; [apply Ho|by apply HP]|]; cbv beta.
  intros b o1 Ho1 _ (p1 & -> & Ht1). destruct b; cbn [negb]; [|by apply Hret].
  set (o1 := set_plane p1 o) in *. set (o2 := set_plane (Plane.set_tracks (delete t (Plane.tracks p1)) p1) o1).
  destruct (fewer_tracks_ok gone (t :: gone) (delete t (Plane.tracks p1)) o1) as [Ho2 Hx2]; [done|set_solver|..].
  { intros x j Hx. by apply lookup_delete_Some in Hx as [_ ?]. }
  { intros x Hx. destruct (decide (x = t)) as [->|Hne]; [right; left|left]. apply lookup_delete_is_Some. split; [congruence|exact Hx]. }
  eapply (oc_bind _ (fun _ => t :: gone) _ _ _ _ (fun _ o' => o' = o2)); [unfold otrans; apply wp_zoom, wp_zoom; unfold Tracks.remove; wp; by split_and!|]; cbv beta.
  intros r o2' _ _ ->. eapply (oc_bind _ (fun _ => t :: gone) _ _ _ _ (fun _ _ => True)).
  { apply oc_same. destruct r; [by eapply any_ok, release_publish_ok|by apply ot_ret]. }
  intros _ o3 Ho3 _ _. eapply oc_bind; [apply oc_same; by apply call_still|]; cbv beta. intros _ o4 Ho4 _ _.
  eapply oc_bind; [by apply IH|]; cbv beta. intros r' o5 Ho5 _ _. unfold otrans. wp. split_and!; [|apply ext_refl|done].
  eapply ok_mono; [exact Ho5|]. set_solver.
Qed.

Lemma notify_unpublished_ok gone p ts o : ok gone o → otriple P gone (Orchestrator.notify_unpublished W p ts) o (fun _ o' => still o o').
Proof.
  intros Ho. unfold Orchestrator.notify_unpublished. apply ot_get. destruct (room_of o p); [|by apply ot_ret].
  ostep ltac:(by apply read_still). intros pids o1 Ho1 _ [H1 _]. omono ltac:(apply each_still; [done|]; intros t o2 Ho2; apply each_still; [done|]; intros q o3 Ho3;
    destruct (q =? p); [by apply ot_ret|by apply send_to_ok]). intros _ o2 _ _ H2. by eapply still_trans.
Qed.

(** ** A participant leaves *)

Definition absent p o : Prop :=
  sessions o !! p = None ∧ negotiation o !! p = None ∧ subscription o !! p = None ∧
  Transports.by_participant (Plane.transports (plane_of o)) !! p = None ∧ ∀ t i, tracks_of o !! t = Some i → Tracks.publisher i ≠ p.

Lemma none_later {A B} (x : option A) (y : option B) : (is_Some y → is_Some x) → x = None → y = None.
Proof. intros Hxy ->. apply eq_None_not_Some. intros Hy. by destruct (Hxy Hy). Qed.

Lemma gone_later p o o' : ext P o o' → sessions o !! p = None → sessions o' !! p = None.
Proof. intros Hx. apply none_later. intros [h Hh]. destruct (ex_sessions _ _ _ Hx _ _ Hh) as (? & ? & _). by eexists. Qed.

(** Who has no handle is in no table. *)
Lemma absent_without_handle gone p o : ok gone o → sessions o !! p = None → absent p o.
Proof.
  intros Ho Hp. assert (Hn : negotiation o !! p = None) by (eapply none_later; [intros H; apply (ok_dom _ _ Ho); by left|done]).
  split_and!; [done|done|eapply none_later; [intros H; apply (ok_dom _ _ Ho); by right|done]|..].
  - apply eq_None_not_Some. intros [id Hid]. destruct (po_by _ (ok_plane _ _ Ho) _ _ Hid) as (e & He & Hpart). destruct (ok_owned _ _ Ho _ _ He) as (s & Hs & _). congruence.
  - intros t i Hi Hpub. destruct (ok_published _ _ Ho t i Hi) as [s Hs]. congruence.
Qed.

(** *** Its tracks *)

Lemma foldl_delete (ids : list Z) : ∀ (m : gmap Z Tracks.TrackInfo) t i,
  foldl (fun m id => delete id m) m ids !! t = Some i ↔ m !! t = Some i ∧ t ∉ ids.
Proof.
  induction ids as [|x ids IH]; intros m t i; cbn [foldl]; [set_solver|]. rewrite IH, lookup_delete_Some. set_solver.
Qed.

Lemma by_publisher_spec (m : gmap Z Tracks.TrackInfo) p t : t ∈ Tracks.by_publisher m p ↔ ∃ i, m !! t = Some i ∧ Tracks.publisher i = p.
Proof.
  unfold Tracks.by_publisher, sort_ids. rewrite merge_sort_Permutation, list_elem_of_fmap. split.
  - intros ([t' i] & -> & Hi). apply elem_of_map_to_list, map_lookup_filter_Some in Hi. naive_solver.
  - intros (i & Hi & Hp). exists (t, i). split; [done|]. by apply elem_of_map_to_list, map_lookup_filter_Some.
Qed.

(** *** Its session *)

(** The transports without the participant's session, if it has one. *)
Definition closed_session (sid : option SessionId) pl pl' : Prop :=
  match sid with
  | Some id => ∀ e, Transports.entries (Plane.transports pl) !! id = Some e → Plane.transports pl' = Plane.transports (drop_entry id e pl)
  | None => Plane.transports pl' = Plane.transports pl
  end.

Lemma closed_entries gone p pl' o (sid := negotiation o !! p ≫= session) : ok gone o → closed_session sid (plane_of o) pl' →
  (∀ id e, Transports.entries (Plane.transports pl') !! id = Some e ↔ Transports.entries (Plane.transports (plane_of o)) !! id = Some e ∧ sid ≠ Some id) ∧
  ∀ q id, Transports.by_participant (Plane.transports pl') !! q = Some id →
    Transports.by_participant (Plane.transports (plane_of o)) !! q = Some id ∧ (is_Some sid → q ≠ p).
Proof.
  intros Ho Hc. unfold closed_session in Hc. destruct sid as [id0|] eqn:Es; subst sid.
  - apply bind_Some in Es as (s & Hs & Hid). destruct (no_session _ _ _ _ _ (ok_neg _ _ Ho p s Hs) _ Hid) as (e0 & He0 & Hp0 & _). rewrite (Hc e0 He0). cbn. split.
    + intros id e. rewrite lookup_delete_Some. naive_solver.
    + intros q id Hq. apply lookup_delete_Some in Hq as [Hne Hq]. split; [done|]. congruence.
  - rewrite Hc. split; [naive_solver|]. intros q id Hq. split; [done|]. by intros [].
Qed.

Lemma forgotten_ok gone p pl' o : ok gone o → (∀ t i, tracks_of o !! t = Some i → Tracks.publisher i ≠ p) → subscription o !! p = None → pok pl' → sends P (plane_of o) pl' →
  Plane.tracks pl' = tracks_of o → Plane.ids pl' = Plane.ids (plane_of o) → closed_session (negotiation o !! p ≫= session) (plane_of o) pl' →
  let o' := set_plane pl' (set_negotiation (delete p (negotiation o)) o) in
  ok gone o' ∧ ext P o o'.
Proof.
  intros Ho Hno Hu Hp' Hsent Htr Hids Hcl o'. destruct (closed_entries gone p pl' o Ho Hcl) as [Hent Hby].
  destruct Ho as [Hp Hn Hsub Hd Hc Hown Hpb]. unfold tracks_of in Htr. split.
  - split; try done; cbn.
    + intros q s' Hq. apply lookup_delete_Some in Hq as [Hne Hq]. destruct (Hn q s' Hq) as [Hl Hsl Hla Hse Hi]. unfold known, live in *.
      split; unfold known, live; rewrite ?Htr, ?Hids; try done. intros id Hid. destruct (Hse id Hid) as (e & He & Hpart & Hss). exists e. split_and!; try done.
      apply Hent. split; [done|]. intros (s & Hs & Heq)%bind_Some. destruct (no_session _ _ _ _ _ (Hn p s Hs) _ Heq) as (e1 & He1 & Hp1 & _). congruence.
    + unfold known, live. rewrite Htr, Hids. exact Hsub.
    + intros q [[x Hx]|Hx]; apply Hd; [|by right]. apply lookup_delete_Some in Hx as [_ Hx]. left. by eexists.
    + intros id e He. apply Hent in He as [He Hne]. destruct (Hown id e He) as (s' & Hs' & Hid). exists s'. split; [|done].
      apply lookup_delete_Some. split; [|done]. intros Heq. apply Hne. by rewrite Heq, Hs'.
    + rewrite Htr. intros t i Hi. destruct (Hpb t i Hi) as [x Hx]. exists x. apply lookup_delete_Some. split; [|done]. intros Heq. by apply (Hno t i Hi).
  - split; try done; cbn; [by rewrite Hids|rewrite Htr; by eauto| |by eauto|].
    + intros q [x Hx]. apply lookup_delete_Some in Hx as [_ Hx]. by eexists.
    + intros q id Hq. left. by apply Hby.
Qed.

(** Calls to the cluster, from any state. *)
Lemma calls_ok (f : Z → DistributedState.op) (l : list Z) : (∀ t, DistributedProofs.op_ok (f t)) → ∀ o, pok (plane_of o) →
  wp (for_each l (fun t => Rooms.call W (f t);; mret ())) o
    (fun _ o' => ∃ pl', o' = set_plane pl' o ∧ pok pl' ∧ tables_same (plane_of o) pl' ∧ sends P (plane_of o) pl')
    (fun _ o' => sends P (plane_of o) (plane_of o')).
Proof.
  intros Hf. induction l as [|t l IH]; intros o Hp; cbn [for_each]; wp.
  { exists (plane_of o). split_and!; [by destruct o|done|done|by apply sends_refl]. }
  unfold Rooms.call, on_plane. apply wp_zoom. eapply wp_conseq; [by apply (call_ok P W HW (f t))|..]; cbv beta; [|done].
  intros a p1 (Hp1 & Hk1 & Hc1 & _). destruct (cluster_only_same _ _ Hc1) as (Ht1 & _). wp.
  eapply wp_conseq; [by apply IH|..]; cbv beta.
  - intros _ o2 (p2 & -> & Hp2 & Ht2 & Hs2). exists p2. split_and!; [done|done|by eapply tables_same_trans|]. eapply sends_trans; [apply Hk1|exact Hs2].
  - intros _ o2 Hs2. eapply sends_trans; [apply Hk1|exact Hs2].
Qed.

Lemma cleanup_negotiation_ok gone p o : ok gone o → subscription o !! p = None →
  otrans P (fun r => r ++ gone) (Negotiation.cleanup_participant W p) o (fun _ o' => sessions o' = sessions o ∧ negotiation o' !! p = None ∧
    subscription o' !! p = None).
Proof.
  intros Ho Hu. unfold Negotiation.cleanup_participant, otrans. wp. cbv zeta. wp. unfold Negotiation.state_of.
  unfold on_plane, Plane.on_tracks. apply wp_zoom, wp_zoom. unfold Tracks.remove_publisher. wp. cbv zeta. wp. change (plane_of (set_negotiation _ o)) with (plane_of o).
  set (ids := Tracks.by_publisher (Plane.tracks (plane_of o)) p). set (m := foldl _ _ _).
  assert (Hm : ∀ t i, m !! t = Some i ↔ tracks_of o !! t = Some i ∧ t ∉ ids) by (intros; apply foldl_delete).
  destruct (fewer_tracks_ok gone (ids ++ gone) m o) as [Ho1 Hx1]; [done|set_solver|intros t i Hi; by apply Hm|..].
  { intros t [i Hi]. destruct (decide (t ∈ ids)) as [Hin|Hin]; [right; set_solver|left]. exists i. by apply Hm. }
  set (o1 := set_plane _ o) in *. eapply wp_conseq; [apply calls_ok; [done|exact (ok_plane _ _ Ho1)]|..]; cbv beta; [|done].
  intros _ o2 (pl2 & -> & Hp2 & Ht2 & Hs2). destruct (still_ok P (ids ++ gone) o1 (set_plane pl2 o1) Ho1) as [Ho2 Hx2]; [by split_and!|done|done|].
  assert (Hgoal : ∀ pl3, pok pl3 → sends P pl2 pl3 → Plane.tracks pl3 = Plane.tracks pl2 → Plane.ids pl3 = Plane.ids pl2 → closed_session (negotiation o !! p ≫= session) pl2 pl3 →
    let o3 := set_plane pl3 (set_negotiation (delete p (negotiation o)) o) in
    ok (ids ++ gone) o3 ∧ ext P o o3 ∧ sessions o3 = sessions o ∧ negotiation o3 !! p = None ∧ subscription o3 !! p = None).
  { assert (Hno : ∀ t i, Plane.tracks pl2 !! t = Some i → Tracks.publisher i ≠ p).
    { intros t i Hi Hpub. destruct Ht2 as (_ & Htr2 & _). rewrite Htr2 in Hi. apply Hm in Hi as [Hi Hnot]. apply Hnot, by_publisher_spec. eauto. }
    intros pl3 Hp3 Hs3 Ht3 Hi3 Hc3. destruct (forgotten_ok (ids ++ gone) p pl3 (set_plane pl2 o1)) as (Ho3 & Hx3); try done.
    split_and!; try done; [eapply ext_trans; [exact Hx1|]; by eapply ext_trans|by apply lookup_delete_eq]. }
  assert (Hsent : sends P (plane_of o) pl2) by exact Hs2.
  destruct (negotiation o !! p ≫= session) as [id|] eqn:Es; wp; [|apply Hgoal; try done; by apply sends_refl].
  apply wp_zoom. eapply wp_conseq; [by apply (session_closed_ok P HP W HW id)|..]; cbv beta; [|intros _ pl3 Hs3; by eapply sends_trans].
  intros _ pl3 (Hp3 & Hs3 & Ht3 & Hi3 & Hm3). wp. apply Hgoal; try done. intros e He.
  cbn in Hm3. rewrite He in Hm3. apply Hm3.
Qed.

Lemma cleanup_subscriptions_ok gone p o : ok gone o → otriple P gone (Subscriptions.cleanup_participant W p) o (fun _ o' => subscription o' !! p = None).
Proof.
  intros Ho. unfold Subscriptions.cleanup_participant. apply ot_get. unfold Subscriptions.subs_of. destruct (subscription o !! p) as [l|] eqn:El; [|by apply ot_ret].
  set (o1 := set_subscription _ o). assert (Hlk : ∀ q x, subscription o1 !! q = Some x → subscription o !! q = Some x) by (intros q x Hx; cbn in Hx; by apply lookup_delete_Some in Hx as [_ ?]).
  eapply (ot_bind _ _ _ _ _ (fun _ o' => o' = o1)).
  - unfold otriple. wp. destruct Ho as [Hp Hn Hs Hd Hc Hown Hpb]. split_and!; [| |done].
    + split; try done; [intros q x t Hx; by eapply Hs, Hlk|]. intros q [?|[x Hx]]; apply Hd; [by left|right; exists x; by apply Hlk].
    + split; try done; cbn; eauto; [|by apply sends_refl]. intros q [x Hx]. exists x. by apply Hlk.
  - intros _ o' Ho1 _ ->. omono ltac:(apply each_still; [done|]; intros x o2 Ho2; ostep ltac:(by apply call_still); intros _ o3 Ho3 _ [Hs _]; by apply ot_ret).
    intros _ o2 _ _ (_ & _ & _ & Hu & _). rewrite Hu. by apply lookup_delete_eq.
Qed.

Lemma forget_session_ok gone p o : ok gone o → negotiation o !! p = None → subscription o !! p = None →
  ok gone (set_sessions (delete p (sessions o)) o) ∧ ext P o (set_sessions (delete p (sessions o)) o).
Proof.
  intros [Hp Hn Hs Hd Hc Hown Hpb] Hneg Hsub.
  assert (Hroom : ∀ q, q ≠ p → room_of (set_sessions (delete p (sessions o)) o) q = room_of o q) by (intros q Hq; unfold room_of; cbn; by rewrite lookup_delete_ne).
  split; split; try done; cbn; eauto.
  - intros q s Hq. rewrite Hroom by congruence. by apply Hn.
  - intros q l t Hq. rewrite Hroom by congruence. by apply Hs.
  - intros q Hq. rewrite lookup_delete_ne; [by apply Hd|]. intros <-. rewrite Hneg, Hsub in Hq. by destruct Hq as [[]|[]].
  - intros q h Hh. apply lookup_delete_Some in Hh as [_ Hh]. eauto.
  - by apply sends_refl.
Qed.

Lemma cleanup_participant_ok p o : ok [] o → otrans P (fun _ => []) (Orchestrator.cleanup_participant W cert cands p) o (fun _ o' => sessions o' !! p = None).
Proof.
  intros Ho. unfold Orchestrator.cleanup_participant. apply wp_bind, wp_get. eapply oc_bind; [apply oc_same; by apply notify_unpublished_ok|]; cbv beta.
  intros _ o1 Ho1 _ _. eapply oc_bind; [apply oc_same; by apply (cleanup_subscriptions_ok [] p)|]; cbv beta. intros _ o2 Ho2 _ Hu2.
  eapply oc_bind; [by apply (cleanup_negotiation_ok [] p)|]; cbv beta. intros r o3 Ho3 _ (Hs3 & Hn3 & Hu3). rewrite app_nil_r in Ho3.
  destruct (forget_session_ok r p o3) as [Ho4 Hx4]; try done. set (o4 := set_sessions _ o3) in *.
  assert (Ha4 : sessions o4 !! p = None) by by apply lookup_delete_eq.
  eapply (oc_bind _ (fun _ => r) _ _ _ _ (fun _ o' => o' = o4)); [unfold otrans; wp; by split_and!|]; cbv beta. intros _ o' _ _ ->.
  eapply wp_conseq; [by apply (on_tracks_removed_ok W HW cert cands Hcands P HP r)|..]; cbv beta; [|done].
  intros _ o5 (Ho5 & Hx5 & _). split_and!; try done. by eapply gone_later.
Qed.

Lemma close_participant_ok p why o : ok [] o → is_Some (sessions o !! p) →
  otriple P [] (Orchestrator.close_participant W cert cands p why) o (fun _ o' => sessions o' !! p = None).
Proof.
  intros Ho [h Hh]. unfold Orchestrator.close_participant. apply ot_get. rewrite Hh. cbn [is_some negb].
  ostep ltac:(by apply send_error_ok). intros _ o1 Ho1 _ _. ostep ltac:(by apply handle_leave_ok). intros _ o2 Ho2 _ _. by apply cleanup_participant_ok.
Qed.

Lemma close_absent p why o : sessions o !! p = None → Orchestrator.close_participant W cert cands p why o = Ok ((), o).
Proof. intros Hp. unfold Orchestrator.close_participant, mbind, st_bind, get. by rewrite Hp. Qed.

End cleanup.
End CleanupProofs.

(** * The dispatcher and the loop

    [src/orchestrator/mod.rs]: one wake-up of [run] keeps the invariant and
    closes every participant that was to be closed. *)


Module DispatchProofs.
Import Orch Mlines PlaneProofs OrchInv RoomsProofs SlotProofs NegProofs AnswerProofs OrchProofs CleanupProofs.

Section dispatch.
Context `{En : DtlsEngine} {Laws : EngineLaws} (W : World) (HW : world_ok W).
Context (cert : Certificate) (cands : list (list SocketAddr)) (Hcands : cands ≠ []).
Context (P : Command → Prop) (HP : ∀ c, plain c → P c).
Implicit Types (o : SessionOrchestrator) (s : NegotiationState) (pl : Plane.Plane) (gone : list Z).

(** ** Messages *)

Lemma set_handle_tracks_ok gone p f o : ok gone o → otriple P gone (Orchestrator.set_handle_tracks p f) o (fun _ _ => True).
Proof.
  intros Ho. unfold Orchestrator.set_handle_tracks, otriple. wp. destruct (sessions o !! p) as [h|] eqn:Eh; [|split_and!; [done|apply ext_refl|done]].
  set (o' := set_sessions _ o). assert (Hlk : ∀ q h', sessions o' !! q = Some h' → ∃ h0, sessions o !! q = Some h0 ∧ room_id h' = room_id h0).
  { intros q h' Hq. cbn in Hq. apply lookup_insert_Some in Hq as [[<- <-]|[_ Hq]]; eauto. }
  assert (Hroom : ∀ q, room_of o' q = room_of o q).
  { intros q. unfold room_of. cbn. destruct (decide (q = p)) as [->|Hne]; [by rewrite lookup_insert_eq, Eh|by rewrite lookup_insert_ne]. }
  destruct Ho as [Hp Hn Hs Hd Hc Hown Hpb]. split_and!; [| |done].
  - split; try done; [intros q s; rewrite Hroom; apply Hn|intros q l t; rewrite Hroom; apply Hs|]. intros q Hq. cbn. apply lookup_insert_is_Some.
    destruct (decide (p = q)); [by left|right; split; [done|by apply Hd]].
  - split; try done; cbn; eauto; [|by apply sends_refl]. intros q h' Hq. destruct (Hlk q h' Hq) as (h0 & ? & ?). eauto.
Qed.

(** The commands a message may cause. *)
Definition allowed o : Prop := ∀ p id t sub spec, ShardInv.command_ok (Model.Subscribe id sub t spec) →
  Transports.session_of (Plane.transports (plane_of o)) p = Some id → in_own_room o p t → P (Model.Subscribe id sub t spec).

Lemma handle_answer_kept p sdp o : ok [] o → allowed o → otriple P [] (Orchestrator.handle_answer W cert cands p sdp) o (fun _ _ => True).
Proof.
  intros Ho Hal. unfold Orchestrator.handle_answer. case_bool_decide; [by apply ot_ret|].
  ostep ltac:(apply handle_answer_ok; try done; intros; by eapply Hal). intros ts o1 Ho1 _ _. ostep ltac:(by apply activate_ok). intros _ o2 Ho2 _ _.
  apply ot_get. by apply set_handle_tracks_ok.
Qed.

Lemma handle_unpublish_ok p ids o : ok [] o → otriple P [] (Orchestrator.handle_unpublish W cert cands p ids) o (fun _ _ => True).
Proof.
  intros Ho. unfold Orchestrator.handle_unpublish. eapply oc_bind; [by eapply unpublish_each_ok with (gone := [])|]; cbv beta. intros r o1 Ho1 _ _.
  rewrite app_nil_r in Ho1. eapply oc_bind; [apply oc_same; by apply (set_handle_tracks_ok r)|]; cbv beta. intros _ o2 Ho2 _ _.
  eapply oc_bind; [apply oc_same; by eapply notify_unpublished_ok with (gone := r)|]; cbv beta. intros _ o3 Ho3 _ _. by apply on_tracks_removed_ok.
Qed.

Lemma leave_ok p o : ok [] o → otriple P [] (Rooms.handle_leave W p;; Orchestrator.cleanup_participant W cert cands p) o (fun _ o' => sessions o' !! p = None).
Proof. intros Ho. ostep ltac:(by apply handle_leave_ok). intros _ o1 Ho1 _ _. by apply cleanup_participant_ok. Qed.

Lemma handle_message_ok p m o : ok [] o → allowed o → otriple P [] (Orchestrator.handle_message W cert cands p m) o (fun _ _ => True).
Proof.
  intros Ho Hal. unfold Orchestrator.handle_message. apply ot_get. destruct (_ || _); [by apply ot_ret|].
  destruct m; try by apply ot_ret.
  - by apply handle_create_ok.
  - by apply handle_join_ok.
  - by eapply any_ok, leave_ok.
  - by apply handle_publish_ok.
  - by apply handle_unpublish_ok.
  - by apply handle_answer_kept.
  - by apply handle_subscribe_ok.
  - by apply handle_unsubscribe_ok.
  - unfold Subscriptions.handle_viewport. apply ot_get. destruct (is_some _); [by eapply any_ok, send_to_ok|by apply ot_ret].
  - by apply set_content_ok.
  - by eapply any_ok, send_to_ok.
Qed.

(** ** Connecting *)

Lemma neg_new_ok pl room p gone : neg_ok gone pl room p neg_new.
Proof. split; cbn; try done; [split_and!; cbn; [lia|split; cbn; lia|constructor]|intros x Hx; by apply elem_of_nil in Hx|intros x Hx; by apply elem_of_nil in Hx]. Qed.

(** A new participant has no room. *)
Lemma handle_connected_ok p g o : ok [] o → (p ≠ 0 → sessions o !! p = None) →
  wp (Orchestrator.handle_connected p g) o
    (fun _ o' => ok [] o' ∧ plane_of o' = plane_of o ∧ ∀ q, is_Some (sessions o' !! q) → is_Some (sessions o !! q) ∨ q = p ∧ p ≠ 0) (fun _ _ => False).
Proof.
  intros Ho Hfresh. unfold Orchestrator.handle_connected. destruct (Z.eqb_spec p 0) as [->|Hp0]; wp; [by auto|]. specialize (Hfresh Hp0).
  unfold Negotiation.add_participant, Subscriptions.set_subs. wp. set (o' := set_subscription _ _).
  assert (Hroom : ∀ q, room_of o' q = room_of o q).
  { intros q. unfold room_of. cbn. destruct (decide (q = p)) as [->|Hne]; [by rewrite lookup_insert_eq, Hfresh|by rewrite lookup_insert_ne]. }
  destruct Ho as [Hp Hn Hs Hd Hc Hown Hpb].
  assert (Hneg : negotiation o !! p = None).
  { apply eq_None_not_Some. intros Hx. destruct (Hd p (or_introl Hx)) as [h Hh]. congruence. }
  split_and!; [|done|].
  - split; try done.
    + intros q s Hq. rewrite Hroom. cbn in Hq. apply lookup_insert_Some in Hq as [[<- <-]|[_ Hq]]; [apply neg_new_ok|by apply Hn].
    + intros q l t Hq Ht. rewrite Hroom. cbn in Hq. apply lookup_insert_Some in Hq as [[<- <-]|[_ Hq]]; [by apply elem_of_nil in Ht|by eapply Hs].
    + intros q Hq. cbn in Hq |- *. apply lookup_insert_is_Some. destruct (decide (p = q)) as [|Hne]; [by left|right]. split; [done|]. apply Hd.
      by rewrite !lookup_insert_ne in Hq.
    + intros id e He. destruct (Hown id e He) as (s & Hs' & Hid). exists s. split; [|done]. cbn. rewrite lookup_insert_ne; [done|congruence].
    + intros t i Hi. apply lookup_insert_is_Some'. right. by eapply Hpb.
  - intros q Hq. cbn in Hq. apply lookup_insert_is_Some in Hq as [<-|[_ Hq]]; [by right|by left].
Qed.

(** ** Closing *)

Definition closing_of o := Plane.closing (plane_of o).

(** Closed participants are gone; a round that closes nobody changes nothing. *)
Lemma dom_smaller {A} (m m' : gmap Z A) p : (∀ q, is_Some (m' !! q) → is_Some (m !! q)) → is_Some (m !! p) → m' !! p = None → (size m' < size m)%nat.
Proof.
  intros Hsub Hp Hn. rewrite <- !size_dom. apply subset_size. split.
  - intros q. rewrite !elem_of_dom. apply Hsub.
  - intros Hc. apply elem_of_dom, Hc, elem_of_dom in Hp. rewrite Hn in Hp. by destruct Hp.
Qed.

Lemma sessions_back o o' q : ext P o o' → is_Some (sessions o' !! q) → is_Some (sessions o !! q).
Proof. intros Hx [h Hh]. destruct (ex_sessions _ _ _ Hx _ _ Hh) as (? & ? & _). by eexists. Qed.

Definition closed_all (l : list (Z * Plane.DisconnectReason)) o : Prop := ∀ x, x ∈ l → sessions o !! x.1 = None.

Lemma close_each_ok l : ∀ o, ok [] o →
  otriple P [] (for_each l (fun x => Orchestrator.close_participant W cert cands x.1 x.2)) o
    (fun _ o' => closed_all l o' ∧ (o' = o ∨ (size (sessions o') < size (sessions o))%nat)).
Proof.
  induction l as [|[p why] l IH]; intros o Ho; cbn [for_each fst snd].
  { apply ot_ret; [done|]. split; [|by left]. intros x Hx. by apply elem_of_nil in Hx. }
  destruct (sessions o !! p) as [h|] eqn:Eh.
  - ostep ltac:(by apply close_participant_ok). intros _ o1 Ho1 Hx1 Ha1. omono ltac:(by apply IH). intros _ o2 _ Hx2 [Hc2 Hsz2].
    assert (Hlt : (size (sessions o1) < size (sessions o))%nat) by (eapply dom_smaller; [intros q; by apply sessions_back|by eexists|exact Ha1]).
    split; [|right; destruct Hsz2 as [->|?]; lia]. intros x [->|Hx]%elem_of_cons; cbn [fst]; [by eapply gone_later|by apply Hc2].
  - unfold otriple. apply wp_bind. eapply wp_ok; [by apply close_absent|]. omono ltac:(by apply IH). intros _ o2 _ Hx2 [Hc2 Hsz2]. split; [|done].
    intros x [->|Hx]%elem_of_cons; cbn [fst]; [by eapply gone_later|by apply Hc2].
Qed.

Lemma settle_idle n o : closing_of o = [] → ok [] o → otriple P [] (Orchestrator.settle_rounds W cert cands n) o (fun _ o' => closing_of o' = []).
Proof.
  intros Hc Ho. destruct n as [|n]; cbn [Orchestrator.settle_rounds]; [by apply ot_ret|]. unfold otriple, Plane.take_closing, on_plane. apply wp_bind, wp_zoom. wp.
  change (Plane.closing (plane_of o)) with (closing_of o). rewrite Hc. cbn. unfold closing_of in Hc.
  assert (set_plane (Plane.set_closing [] (plane_of o)) o = o) as ->; [|split_and!; [done|apply ext_refl|done]].
  destruct o as [? ? ? ? pl ?]. destruct pl. cbn in *. by rewrite Hc.
Qed.

(** One round more than there are participants is enough. *)
Lemma settle_rounds_ok n : ∀ o, ok [] o → (size (sessions o) < n)%nat →
  otriple P [] (Orchestrator.settle_rounds W cert cands n) o (fun _ o' => closing_of o' = [] ∧ closed_all (closing_of o) o').
Proof.
  induction n as [|n IH]; intros o Ho Hn; [lia|]. cbn [Orchestrator.settle_rounds]. set (o1 := set_plane (Plane.set_closing [] (plane_of o)) o).
  assert (Hs1 : still o o1) by done. destruct (still_ok P [] o o1 Ho Hs1) as [Ho1 Hx1].
  { eapply pok_same; [apply Ho|done|apply (po_cluster _ (ok_plane _ _ Ho))]. } { by apply sends_refl. }
  eapply (ot_bind _ _ _ _ _ (fun l o' => l = closing_of o ∧ o' = o1)).
  { unfold otriple, Plane.take_closing, on_plane. apply wp_zoom. wp. by split_and!. }
  intros l o' _ _ [-> ->]. case_bool_decide as Hnil.
  { apply ot_ret; [done|]. split; [done|]. rewrite Hnil. intros x Hx. by apply elem_of_nil in Hx. }
  ostep ltac:(by apply close_each_ok). intros _ o2 Ho2 _ [Hc2 [->|Hsz]].
  - omono ltac:(by apply settle_idle). intros _ o3 _ Hx3 Hc3. split; [done|]. intros x Hx. eapply gone_later; [exact Hx3|by apply Hc2].
  - omono ltac:(apply IH; [done|change (sessions o1) with (sessions o) in Hsz; lia]). intros _ o3 _ Hx3 [Hc3 _]. split; [done|].
    intros x Hx. eapply gone_later; [exact Hx3|by apply Hc2].
Qed.

Lemma settle_ok o : ok [] o → otriple P [] (Orchestrator.settle W cert cands) o (fun _ o' => closing_of o' = [] ∧ closed_all (closing_of o) o').
Proof. intros Ho. apply ot_get. apply settle_rounds_ok; [done|lia]. Qed.

(** ** A wake-up *)

(** A connection brings an id that is not in use. *)
Definition fresh o (w : Orchestrator.wakeup) : Prop :=
  match w with Orchestrator.Signaled (Signal.Connected p _) => p ≠ 0 → sessions o !! p = None | _ => True end.

Definition joins (w : Orchestrator.wakeup) : list Z :=
  match w with Orchestrator.Signaled (Signal.Connected p _) => if p =? 0 then [] else [p] | _ => [] end.

Definition leaves (w : Orchestrator.wakeup) : list Z :=
  match w with
  | Orchestrator.Signaled (Signal.Disconnected p) => if p =? 0 then [] else [p]
  | Orchestrator.Signaled (Signal.Message p Signal.Leave) => if p =? 0 then [] else [p]
  | _ => []
  end.

Record woken w o o' : Prop := {
  wk_ok : ok [] o';
  wk_sends : sends P (plane_of o) (plane_of o');
  wk_left : ∀ p, p ∈ leaves w → sessions o' !! p = None;
  wk_sessions : ∀ p, is_Some (sessions o' !! p) → is_Some (sessions o !! p) ∨ p ∈ joins w;
}.

Lemma woken_ext w o o' : ok [] o' → ext P o o' → (∀ p, p ∈ leaves w → sessions o' !! p = None) → woken w o o'.
Proof. intros Ho Hx Hl. split; try done; [apply Hx|]. intros p Hp. left. by eapply sessions_back. Qed.

Lemma plane_each_ok (l : list Event) o : ok [] o → otriple P [] (for_each l (fun ev => on_plane (Connection.handle_event W ev))) o (fun _ _ => True).
Proof.
  intros Ho. apply (ot_for_each P [] _ (fun _ => True)); [done|done|]. intros ev o1 _ Ho1 _. eapply any_ok. apply ot_plane; [done|]. apply handle_event_ok; try done. apply Ho1.
Qed.

Lemma wake_ok w o : ok [] o → fresh o w → allowed o →
  wp (Orchestrator.wake W cert cands w) o (fun _ o' => woken w o o') (fun _ o' => sends P (plane_of o) (plane_of o')).
Proof.
  intros Ho Hf Hal. assert (Hlift : ∀ m : orch (), leaves w = [] → otriple P [] m o (fun _ _ => True) → wp m o (fun _ o' => woken w o o') (fun _ o' => sends P (plane_of o) (plane_of o'))).
  { intros m Hno Hm. eapply wp_mono; [exact Hm|]; cbv beta. intros _ o' (Ho' & Hx & _). apply woken_ext; try done. rewrite Hno. intros p Hp. by apply elem_of_nil in Hp. }
  assert (Hleave : ∀ m p, otriple P [] m o (fun _ o' => sessions o' !! p = None) → (∀ q, q ∈ leaves w → q = p) →
    wp (m : orch ()) o (fun _ o' => woken w o o') (fun _ o' => sends P (plane_of o) (plane_of o'))).
  { intros m p Hm Hl. eapply wp_mono; [exact Hm|]; cbv beta. intros _ o' (Ho' & Hx & Hg). apply woken_ext; try done. by intros q ->%Hl. }
  assert (Hplane : ∀ (m : Plane.plane ()) Q, leaves w = [] → ptriple P m (plane_of o) Q → wp (on_plane m) o (fun _ o' => woken w o o') (fun _ o' => sends P (plane_of o) (plane_of o'))).
  { intros m Q Hno Hm. apply Hlift; [done|]. eapply any_ok. by apply ot_plane. }
  destruct w as [[p g|p m|p]|evs| |]; cbn [Orchestrator.wake Orchestrator.dispatch_event].
  - eapply wp_conseq; [by apply handle_connected_ok|..]; cbv beta; [|done]. intros _ o' (Ho' & Hp & Hs). split; try done.
    + rewrite Hp. by apply sends_refl.
    + intros q Hq. by apply elem_of_nil in Hq.
    + intros q Hq. destruct (Hs q Hq) as [?|[-> Hp0]]; [by left|right]. cbn. apply Z.eqb_neq in Hp0. rewrite Hp0. by left.
  - destruct m; try (apply Hlift; [done|by apply handle_message_ok]). destruct (p =? 0) eqn:Ep; [apply Hlift; [cbn; by rewrite Ep|by apply handle_message_ok]|].
    apply (Hleave _ p); [|cbn; rewrite Ep; intros q Hq; by apply list_elem_of_singleton in Hq]. unfold Orchestrator.handle_message. apply ot_get. rewrite Ep. cbn [orb].
    destruct (sessions o !! p) eqn:Es; cbn [is_some negb]; [by apply leave_ok|by apply ot_ret].
  - unfold Orchestrator.handle_participant_disconnected. cbn in *. destruct (p =? 0); [apply Hlift; [done|by apply ot_ret]|].
    apply (Hleave _ p); [by apply leave_ok|]. intros q Hq. by apply list_elem_of_singleton in Hq.
  - apply Hlift; [done|by apply plane_each_ok].
  - eapply Hplane; [done|]. apply poll_dtls_ok; try done. apply Ho.
  - eapply Hplane; [done|]. apply pt_ask; [apply Ho|]. intros. by apply sweep_ok.
Qed.

Lemma iteration_ok w o : ok [] o → fresh o w → allowed o →
  wp (Orchestrator.iteration W cert cands w) o (fun _ o' => woken w o o' ∧ closing_of o' = []) (fun _ o' => sends P (plane_of o) (plane_of o')).
Proof.
  intros Ho Hf Hal. unfold Orchestrator.iteration. apply wp_bind. eapply wp_mono; [by apply wake_ok|]; cbv beta. intros _ o1 [Ho1 Hs1 Hl1 Hj1].
  eapply wp_conseq; [by apply settle_ok|..]; cbv beta; [|intros _ o2 Hs2; by eapply sends_trans].
  intros _ o2 (Ho2 & Hx2 & Hc2 & _). split; [|done]. split; try done.
  - eapply sends_trans; [exact Hs1|apply Hx2].
  - intros p Hp. eapply gone_later; [exact Hx2|by apply Hl1].
  - intros p Hp. apply Hj1. by eapply sessions_back.
Qed.

End dispatch.
End DispatchProofs.
