(* ===== verification/OrchestratorTheorems.v ===== *)
(** * What the orchestrator guarantees

    From start-up, over any sequence of wake-ups in which connections bring
    new ids: no panic, no command a shard cannot take, no subscription across
    rooms, and nothing left of a participant that is gone. *)

From stdpp Require Import strings.
From S2P Require Import Prelude Wp Model ShardInv Crdt DistributedState DistributedProofs Handshake Transports HandshakeProofs SdpParams ControlPlane OrchestratorState Negotiation Orchestrator PlaneProofs OrchestratorInv NegotiationProofs AnswerProofs OrchestratorProofs.

Module OrchTheorems.
Import Orch Mlines PlaneProofs OrchInv NegProofs AnswerProofs CleanupProofs DispatchProofs.

(** The parameters, and a sequence of wake-ups from start-up. *)
Record setup `{En : DtlsEngine} (W : World) (cands : list (list SocketAddr)) (state : DistributedState.State) (n : nat) (ws : list Orchestrator.wakeup) : Prop := {
  su_world : world_ok W;
  su_state : DistributedProofs.inv state;
  su_shards : (0 < n)%nat;
  su_cands : length cands = n ∧ Forall (fun c => c ≠ []) cands;
  su_ids : NoDup (ws ≫= joins);
}.

Section theorems.
Context `{En : DtlsEngine} {Laws : EngineLaws} (W : World) (cert : Certificate) (cands : list (list SocketAddr)).
Context (state : DistributedState.State) (n : nat).
Implicit Types (o : SessionOrchestrator) (ws : list Orchestrator.wakeup).

(** ** From start-up *)

Lemma start_ok ws : setup W cands state n ws → ∃ o, Orchestrator.new (E:=()) cands state n = Ok o ∧ ok [] o ∧ sessions o = ∅ ∧ closing_of o = [] ∧ Plane.sent (plane_of o) = [].
Proof.
  intros [_ Hs _ [Hl Hc] _]. unfold Orchestrator.new. rewrite bool_decide_eq_true_2 by done. cbn [assert_ mbind outcome_bind].
  assert (forallb (fun c => negb (bool_decide (c = []))) cands = true) as ->.
  { apply forallb_forall. intros c Hin. rewrite Forall_forall in Hc. rewrite bool_decide_eq_false_2; [done|]. apply Hc. by apply list_elem_of_In. }
  eexists. split; [done|]. split_and!; try done. split; cbn [sessions negotiation subscription plane_of rooms created]; try (by intros *; rewrite lookup_empty).
  - split; try done; apply map_Forall_empty.
  - intros p. rewrite !lookup_empty. by intros [[]|[]].
Qed.

Lemma cands_some ws : setup W cands state n ws → cands ≠ [].
Proof. intros [_ _ Hn [Hl _] _] ->. cbn in Hl. lia. Qed.

(** The commands of a wake-up from [o]. *)
Definition expected o (c : Command) : Prop :=
  ShardInv.command_ok c ∧ match c with Model.Subscribe id _ t _ => ∃ p, Transports.session_of (Plane.transports (plane_of o)) p = Some id ∧ in_own_room o p t | _ => True end.

Lemma plain_expected o c : plain c → expected o c.
Proof. intros [Hc Hk]. split; [done|]. by destruct c. Qed.

Lemma expected_allowed o : allowed (expected o) o.
Proof. intros p id t sub spec Hc Hs Hr. split; [done|]. eauto. Qed.

Lemma run_app {A} (l k : list A) (f : A → orch ()) o : for_each (l ++ k) f o = (for_each l f;; for_each k f) o.
Proof.
  revert o. induction l as [|x l IH]; intros o; [done|]. cbn [for_each app]. unfold mbind, st_bind in *. destruct (f x o) as [[[] o1]|[]|]; [|done|done]. apply IH.
Qed.

Lemma rounds_ok ws : world_ok W → cands ≠ [] → ∀ o, ok [] o → NoDup (ws ≫= joins) → (∀ p, is_Some (sessions o !! p) → p ∉ ws ≫= joins) → closing_of o = [] →
  wp (Orchestrator.run W cert cands ws) o (fun _ o' => ok [] o' ∧ sends ShardInv.command_ok (plane_of o) (plane_of o') ∧ closing_of o' = [] ∧
    ∀ p, is_Some (sessions o' !! p) → is_Some (sessions o !! p) ∨ p ∈ ws ≫= joins)
    (fun _ o' => sends ShardInv.command_ok (plane_of o) (plane_of o')).
Proof.
  intros HW Hc. induction ws as [|w ws IH]; intros o Ho Hnd Hdis Hcl; unfold Orchestrator.run in *; cbn [for_each].
  { wp. split_and!; [done|by apply sends_refl|done|by left]. }
  cbn [mbind list_bind] in *. apply NoDup_app in Hnd as (Hnd & Hdj & Hnd').
  assert (Hf : fresh o w).
  { destruct w as [[p g|p m|p]|evs| |]; try done. intros Hp0. apply eq_None_not_Some. intros Hs. apply (Hdis p Hs). apply elem_of_app. left. cbn.
    apply Z.eqb_neq in Hp0. rewrite Hp0. by left. }
  apply wp_bind. eapply wp_conseq; [apply (iteration_ok W HW cert cands Hc ShardInv.command_ok); [by intros c [? _]|done|done|by intros p id t sub spec]|..]; cbv beta; [|done].
  intros _ o1 [[Ho1 Hs1 _ Hj1] Hc1]. eapply wp_conseq; [apply IH; [done|done| |done]|..]; cbv beta.
  - intros p Hp Hin. destruct (Hj1 p Hp) as [Hold|Hnew]; [|by eapply Hdj]. apply (Hdis p Hold). apply elem_of_app. by right.
  - intros _ o2 (Ho2 & Hs2 & Hc2 & Hj2). split_and!; [done|by eapply sends_trans|done|]. intros p Hp. rewrite elem_of_app.
    destruct (Hj2 p Hp) as [Hp1|]; [|by auto]. destruct (Hj1 p Hp1); auto.
  - intros _ o2 Hs2. by eapply sends_trans.
Qed.

Lemma reached ws o : setup W cands state n ws → Orchestrator.new (E:=()) cands state n = Ok o →
  wp (Orchestrator.run W cert cands ws) o (fun _ o' => ok [] o' ∧ closing_of o' = [] ∧ Forall (fun x => ShardInv.command_ok x.2) (Plane.sent (plane_of o')) ∧
    ∀ p, is_Some (sessions o' !! p) → p ∈ ws ≫= joins)
    (fun _ o' => Forall (fun x => ShardInv.command_ok x.2) (Plane.sent (plane_of o'))).
Proof.
  intros Hset Hnew. destruct (start_ok ws Hset) as (o0 & Hn & Ho & Hs & Hc & Hsent). rewrite Hnew in Hn. injection Hn as <-.
  eapply wp_conseq; [apply (rounds_ok ws (su_world _ _ _ _ _ Hset) (cands_some ws Hset) o); [done|apply Hset| |done]|..]; cbv beta.
  - intros p. rewrite Hs, lookup_empty. by intros [].
  - intros _ o' (Ho' & (l & -> & Hl) & Hc' & Hj). rewrite Hsent. split_and!; try done. intros p Hp. destruct (Hj p Hp) as [Hp'|]; [|done].
    rewrite Hs, lookup_empty in Hp'. by destruct Hp'.
  - intros _ o' (l & -> & Hl). by rewrite Hsent.
Qed.

Lemma setup_prefix ws ws' : setup W cands state n (ws ++ ws') → setup W cands state n ws.
Proof. intros [? ? ? ? Hnd]. split; try done. rewrite bind_app in Hnd. by apply NoDup_app in Hnd as (? & _). Qed.

Lemma reached_fresh ws w o : setup W cands state n (ws ++ [w]) → Orchestrator.new (E:=()) cands state n = Ok o →
  wp (Orchestrator.run W cert cands ws) o (fun _ o' => ok [] o' ∧ fresh o' w) (fun _ _ => True).
Proof.
  intros Hset Hnew. pose proof (setup_prefix _ _ Hset) as Hpre. eapply wp_conseq; [by apply (reached ws)|..]; cbv beta; [|done].
  intros _ o' (Ho & _ & _ & Hj). split; [done|]. destruct w as [[p g|p m|p]|evs| |]; try done. intros Hp0. apply eq_None_not_Some. intros Hp.
  pose proof (su_ids _ _ _ _ _ Hset) as Hnd. rewrite bind_app in Hnd. apply NoDup_app in Hnd as (_ & Hdj & _). apply (Hdj p (Hj p Hp)). cbn.
  apply Z.eqb_neq in Hp0. rewrite Hp0. by left.
Qed.

(** ** The theorems *)


(** C6: media never crosses rooms: a [Subscribe] command sent in any round of the loop names the session of a participant who is, when the round starts, in the room of the track. *)
Theorem rooms_isolated ws w o : setup W cands state n (ws ++ [w]) → Orchestrator.new (E:=()) cands state n = Ok o →
  match Orchestrator.run W cert cands ws o with
  | Ok (_, o1) => match Orchestrator.iteration W cert cands w o1 with
      | Ok (_, o2) | Err (_, o2) => ∃ l, Plane.sent (plane_of o2) = Plane.sent (plane_of o1) ++ l ∧
          ∀ sh id sub t spec, (sh, Model.Subscribe id sub t spec) ∈ l → ∃ p i, Transports.session_of (Plane.transports (plane_of o1)) p = Some id ∧
            Plane.tracks (plane_of o1) !! t = Some i ∧ room_of o1 p = Some (Tracks.room i)
      | Panic => False
      end
  | Err _ => True
  | Panic => False
  end.
Proof.
  intros Hset Hnew. pose proof (reached_fresh ws w o Hset Hnew) as Hr. unfold run_to in Hr. destruct (Orchestrator.run W cert cands ws o) as [[[] o1]|[]|]; try done.
  destruct Hr as [Ho1 Hf]. pose proof (iteration_ok W (su_world _ _ _ _ _ Hset) cert cands (cands_some _ Hset) (expected o1) (plain_expected o1) w o1 Ho1 Hf (expected_allowed o1)) as Hi.
  assert (Hgoal : ∀ o2, sends (expected o1) (plane_of o1) (plane_of o2) → ∃ l, Plane.sent (plane_of o2) = Plane.sent (plane_of o1) ++ l ∧
    ∀ sh id sub t spec, (sh, Model.Subscribe id sub t spec) ∈ l → ∃ p i, Transports.session_of (Plane.transports (plane_of o1)) p = Some id ∧
      Plane.tracks (plane_of o1) !! t = Some i ∧ room_of o1 p = Some (Tracks.room i)).
  { intros o2 (l & Hl & Hall). exists l. split; [done|]. intros sh id sub t spec Hin. rewrite Forall_forall in Hall. destruct (Hall _ Hin) as [_ (p & Hs & i & ? & ?)]. eauto. }
  unfold run_to in Hi. destruct (Orchestrator.iteration W cert cands w o1) as [[[] o2]|[]|]; [|by apply Hgoal|done]. apply Hgoal, Hi.
Qed.

(** C7: after any run, whoever forwards or is subscribed to a track is in its room, the track is registered and its publisher connected; the outbound SSRCs of a session are distinct; every transport belongs to a connected participant. *)
Theorem tables_consistent ws o : setup W cands state n ws → Orchestrator.new (E:=()) cands state n = Ok o →
  match Orchestrator.run W cert cands ws o with
  | Ok (_, o') =>
    (∀ q s, negotiation o' !! q = Some s → NoDup (out_ssrc <$> slots (mlines s)) ∧
       ∀ t, t ∈ slot_track <$> slots (mlines s) → ∃ i, Plane.tracks (plane_of o') !! t = Some i ∧ room_of o' q = Some (Tracks.room i) ∧ is_Some (sessions o' !! Tracks.publisher i)) ∧
    (∀ q l t, subscription o' !! q = Some l → t ∈ l.*1 → ∃ i, Plane.tracks (plane_of o') !! t = Some i ∧ room_of o' q = Some (Tracks.room i) ∧ is_Some (sessions o' !! Tracks.publisher i)) ∧
    ∀ id e, Transports.entries (Plane.transports (plane_of o')) !! id = Some e → is_Some (sessions o' !! Transports.participant e)
  | Err _ => True
  | Panic => False
  end.
Proof.
  intros Hset Hnew. pose proof (reached ws o Hset Hnew) as Hr. unfold run_to in Hr. destruct (Orchestrator.run W cert cands ws o) as [[[] o']|[]|]; try done.
  destruct Hr as (Ho & _). assert (Hlive : ∀ room t, known (plane_of o') room t ∧ live [] (plane_of o') t →
    ∃ i, Plane.tracks (plane_of o') !! t = Some i ∧ room = Some (Tracks.room i) ∧ is_Some (sessions o' !! Tracks.publisher i)).
  { intros room t [[_ Hk] [[i Hi]|Hin]]; [|by apply elem_of_nil in Hin]. exists i. split_and!; [done|by apply Hk|]. apply (ok_dom _ _ Ho). left. by eapply ok_published. }
  split_and!.
  - intros q s Hq. destruct (ok_neg _ _ Ho q s Hq) as [_ Hsl _ Hse Hidle]. split.
    + destruct (session s) as [id|]; [by destruct (Hse id eq_refl) as (e & _ & _ & _ & ?)|rewrite (Hidle eq_refl); constructor].
    + intros t Ht. apply list_elem_of_fmap in Ht as (x & -> & Hx). by apply Hlive, Hsl.
  - intros q l t Hq Ht. by apply Hlive, (ok_subs _ _ Ho q l).
  - intros id e He. destruct (ok_owned _ _ Ho id e He) as (s & Hs & _). apply (ok_dom _ _ Ho). left. by eexists.
Qed.

(** C8: when a participant leaves or its connection is lost, nothing is left of it: no handle, no negotiation, no subscription, no transport, and no track it published. *)
Theorem departure_complete ws w p o : setup W cands state n (ws ++ [w]) → Orchestrator.new (E:=()) cands state n = Ok o → p ∈ leaves w →
  match Orchestrator.run W cert cands (ws ++ [w]) o with
  | Ok (_, o') => sessions o' !! p = None ∧ negotiation o' !! p = None ∧ subscription o' !! p = None ∧
      Transports.by_participant (Plane.transports (plane_of o')) !! p = None ∧ ∀ t i, Plane.tracks (plane_of o') !! t = Some i → Tracks.publisher i ≠ p
  | Err _ => True
  | Panic => False
  end.
Proof.
  intros Hset Hnew Hp. pose proof (reached_fresh ws w o Hset Hnew) as Hr. unfold Orchestrator.run. rewrite run_app. cbn [for_each]. unfold mbind, st_bind.
  unfold Orchestrator.run, run_to in Hr. destruct (for_each ws _ o) as [[[] o1]|[]|]; try done. destruct Hr as [Ho1 Hf].
  pose proof (iteration_ok W (su_world _ _ _ _ _ Hset) cert cands (cands_some _ Hset) (expected o1) (plain_expected o1) w o1 Ho1 Hf (expected_allowed o1)) as Hi.
  unfold run_to in Hi. destruct (Orchestrator.iteration W cert cands w o1) as [[[] o2]|[]|]; [|done|done]. destruct Hi as [[Ho2 _ Hl _] _].
  cbn. by apply (absent_without_handle [] p o2 Ho2), Hl.
Qed.

(** C9: [settle] is done within its bound: closing a participant can make others to be closed, but one round more than there are participants is enough, so that in the end nobody is left to be closed and everyone who was to be closed is in no table. *)
Theorem settle_closes_everyone ws w o : setup W cands state n (ws ++ [w]) → Orchestrator.new (E:=()) cands state n = Ok o →
  match (Orchestrator.run W cert cands ws;; Orchestrator.wake W cert cands w) o with
  | Ok (_, o1) => match Orchestrator.settle W cert cands o1 with
      | Ok (_, o2) => Plane.closing (plane_of o2) = [] ∧ ∀ x, x ∈ Plane.closing (plane_of o1) → absent x.1 o2
      | Err _ => True
      | Panic => False
      end
  | Err _ => True
  | Panic => False
  end.
Proof.
  intros Hset Hnew. pose proof (reached_fresh ws w o Hset Hnew) as Hr. unfold mbind, st_bind. unfold run_to in Hr.
  destruct (Orchestrator.run W cert cands ws o) as [[[] o0]|[]|]; try done. destruct Hr as [Ho0 Hf].
  pose proof (wake_ok W (su_world _ _ _ _ _ Hset) cert cands (cands_some _ Hset) (expected o0) (plain_expected o0) w o0 Ho0 Hf (expected_allowed o0)) as Hi.
  unfold run_to in Hi. destruct (Orchestrator.wake W cert cands w o0) as [[[] o1]|[]|]; try done. destruct Hi as [Ho1 _ _ _].
  pose proof (settle_ok W (su_world _ _ _ _ _ Hset) cert cands (cands_some _ Hset) (expected o1) (plain_expected o1) o1 Ho1) as Hs.
  unfold otriple, run_to in Hs. destruct (Orchestrator.settle W cert cands o1) as [[[] o2]|[]|]; try done. destruct Hs as (Ho2 & _ & Hc & Hall).
  split; [done|]. intros x Hx. by eapply absent_without_handle, Hall.
Qed.

End theorems.
End OrchTheorems.
