(* ===== verification/OrchestratorScenario.v ===== *)
(** * A call, end to end

    Concrete parameters and a call of two participants: a room is created and
    joined, a video track published, subscribed to and taken away when its
    publisher's connection is lost. The theorems about the orchestrator apply
    to it. *)

From stdpp Require Import strings.
From S2P Require Import Prelude Wp Model ShardInv Crdt GossipWire DistributedState DistributedProofs DistributedEffects Handshake Transports HandshakeProofs SdpParams SdpText SdpModel SdpParser ControlPlane OrchestratorState Negotiation Orchestrator PlaneProofs OrchestratorInv NegotiationProofs OrchestratorProofs OrchestratorTheorems.

Module Call.
Import Orch Mlines.

(** ** The parameters *)

(** An engine that waits for the peer. *)
#[local] Instance engine : DtlsEngine := {|
  Certificate := ();
  Engine := ();
  DtlsError := ();
  invalid_state := fun _ => ();
  with_certificate := fun _ _ => ();
  start_handshake := fun e => (inr [], e);
  engine_process := fun _ e => (inr [], e);
  engine_timeout := fun e => (inr [], e);
  is_established := fun _ => false;
  peer_fingerprint := fun _ => None;
  srtp_keys := fun _ => None;
  cert_fingerprint := fun _ => replicate 32 7;
|}.

#[local] Instance engine_laws : EngineLaws.
Proof.
  split; intros; simplify_eq/=; try constructor; [done|]. apply (Forall_replicate is_u8 32 7). split; cbn; lia.
Qed.

(** The answer of a browser to an offer of one video m-line. *)
Definition answer (lines : list string) : string := Text.text_of (concat ((fun s => Text.lit s ++ Session.CRLF) <$>
  ["v=0"; "o=- 4611 2 IN IP4 127.0.0.1"; "s=-"; "t=0 0"; "a=group:BUNDLE 0"; "a=ice-ufrag:9uyj"; "a=ice-pwd:Qm3SS1k0uTJ7Lv5J6n2LzQ+/";
   "a=fingerprint:sha-256 AB:AB:AB:AB:AB:AB:AB:AB:AB:AB:AB:AB:AB:AB:AB:AB:AB:AB:AB:AB:AB:AB:AB:AB:AB:AB:AB:AB:AB:AB:AB:AB"; "a=setup:active";
   "m=video 9 UDP/TLS/RTP/SAVPF 96"; "c=IN IP4 0.0.0.0"; "a=mid:0"; "a=rtcp-mux"; "a=rtpmap:96 VP8/90000";
   "a=extmap:1 urn:ietf:params:rtp-hdrext:sdes:mid"] ++ lines)).

(** Nobody else uses the state, the shard takes every command. *)
Definition world : World :=
  mkWorld (fun _ s => s) (fun _ => true) (fun _ => [mkLoad 0 0]) (fun _ => 0) (fun _ => 0) (fun _ => 1) (fun _ k => Z.of_nat k) (fun _ _ l => l) (fun _ _ _ => 1).

Lemma world_is_ok : world_ok world.
Proof. by split. Qed.

Definition cert : Certificate := ().

Definition cands : list (list SocketAddr) := [[V4 2130706433 4000]].

Definition state : DistributedState.State := DistributedEffects.sample_node [].

Lemma state_is_ok : DistributedProofs.inv state.
Proof.
  unfold state, DistributedEffects.sample_node. destruct (DistributedEffects.run_new false []) as [y| |] eqn:E; [|by vm_compute in E..].
  by apply (DistributedEffects.sample_inv []).
Qed.

(** ** The call *)

Definition alice : Z := 7.
Definition bob : Z := 8.

Definition says (p : Z) (m : Signal.SignalMessage) : Orchestrator.wakeup := Orchestrator.Signaled (Signal.Message p m).

Definition call : list Orchestrator.wakeup :=
  [Orchestrator.Signaled (Signal.Connected alice Any); Orchestrator.Signaled (Signal.Connected bob Any);
   says alice (Signal.Create (Some "standup")); says alice (Signal.Join 1 "Alice"); says bob (Signal.Join 1 "Bob");
   says alice (Signal.Publish ["video"] ["camera"]); says alice (Signal.Answer (answer ["a=sendonly"; "a=ssrc:1111 cname:alice"])); says bob (Signal.Subscribe [1])].

Definition bob_answers : Orchestrator.wakeup := says bob (Signal.Answer (answer ["a=recvonly"])).
Definition alice_lost : Orchestrator.wakeup := Orchestrator.Signaled (Signal.Disconnected alice).

Definition first : SessionOrchestrator :=
  match Orchestrator.new (E:=()) cands state 1 with Ok o => o | _ => mkOrch ∅ (mkRooms ∅ ∅) ∅ ∅ (Plane.mkPlane Transports.new ∅ Ids.new [] [] [] [] state 0) [] end.

Definition after (ws : list Orchestrator.wakeup) : option SessionOrchestrator :=
  match Orchestrator.run world cert cands ws first with Ok (_, o) => Some o | _ => None end.

Definition sent_by (o : SessionOrchestrator) : list Command := (Plane.sent (plane_of o)).*2.

Definition is_subscribe (c : Command) : bool := match c with Model.Subscribe _ _ _ _ => true | _ => false end.

Lemma call_setup ws : NoDup (ws ≫= DispatchProofs.joins) → OrchTheorems.setup world cands state 1 ws.
Proof. intros Hnd. split; [apply world_is_ok|apply state_is_ok|lia|by split; [|repeat constructor]|done]. Qed.

Lemma call_ids w : DispatchProofs.joins w = [] → NoDup ((call ++ [w]) ≫= DispatchProofs.joins).
Proof. intros Hw. rewrite bind_app. cbn. rewrite Hw. apply (bool_decide_unpack _). by vm_compute. Qed.

(** The call goes through: the subscription reaches the shard; when the
    publisher is lost its track is gone and the subscriber is sent an offer. *)
Lemma call_connects : option_map (fun o => length (List.filter is_subscribe (sent_by o))) (after (call ++ [bob_answers])) = Some 1%nat.
Proof. by vm_compute. Qed.

Lemma call_ends : option_map (fun o => (map_to_list (Plane.tracks (plane_of o)), (map_to_list (sessions o)).*1, subscription o !! bob))
  (after (call ++ [bob_answers; alice_lost])) = Some ([], [bob], Some []).
Proof. by vm_compute. Qed.

(** Every offer that was sent is one the parser takes. *)
Lemma offers_parse : option_map (fun o => (fun x => match View.parse_sdp x with Ok a => length (Sdp.media a) | _ => 0%nat end) <$>
    omap (fun x => match x.2 with Signal.Offer sdp _ => Some sdp | _ => None end) (outbox o))
  (after (call ++ [bob_answers; alice_lost])) = Some [1; 1; 1]%nat.
Proof. by vm_compute. Qed.

(** ** The theorems apply *)


Lemma rooms_isolated_witness : ∃ o1 o2 l, Orchestrator.run world cert cands call first = Ok ((), o1) ∧
  Orchestrator.iteration world cert cands bob_answers o1 = Ok ((), o2) ∧ Plane.sent (plane_of o2) = Plane.sent (plane_of o1) ++ l ∧
  ∀ sh id sub t spec, (sh, Model.Subscribe id sub t spec) ∈ l → ∃ p i, Transports.session_of (Plane.transports (plane_of o1)) p = Some id ∧
    Plane.tracks (plane_of o1) !! t = Some i ∧ room_of o1 p = Some (Tracks.room i).
Proof.
  pose proof (OrchTheorems.rooms_isolated world cert cands state 1 call bob_answers first (call_setup _ (call_ids bob_answers eq_refl)) eq_refl) as H.
  destruct (Orchestrator.run world cert cands call first) as [[[] o1]|[]|] eqn:E; [|vm_compute in E; discriminate E|destruct H].
  assert (E2 : is_some (after (call ++ [bob_answers])) = true) by by vm_compute.
  unfold after, Orchestrator.run in E2. unfold Orchestrator.run in E. rewrite OrchTheorems.run_app in E2. unfold mbind, st_bind in E2. rewrite E in E2. cbn [for_each] in E2. unfold mbind, st_bind in E2.
  destruct (Orchestrator.iteration world cert cands bob_answers o1) as [[[] o2]|[]|] eqn:E3; [|discriminate E2|discriminate E2]. destruct H as (l & Hl & Hall). exists o1, o2, l. split; [reflexivity|]. split; [exact E3|]. split; [exact Hl|exact Hall].
Defined.

Lemma tables_consistent_witness : ∃ o, Orchestrator.run world cert cands (call ++ [bob_answers]) first = Ok ((), o) ∧
  ∀ q l t, subscription o !! q = Some l → t ∈ l.*1 →
    ∃ i, Plane.tracks (plane_of o) !! t = Some i ∧ room_of o q = Some (Tracks.room i) ∧ is_Some (sessions o !! Tracks.publisher i).
Proof.
  pose proof (OrchTheorems.tables_consistent world cert cands state 1 (call ++ [bob_answers]) first (call_setup _ (call_ids bob_answers eq_refl)) eq_refl) as H.
  destruct (Orchestrator.run world cert cands (call ++ [bob_answers]) first) as [[[] o]|[]|] eqn:E; [|vm_compute in E; discriminate E|destruct H].
  destruct H as (_ & H & _). exists o. split; [reflexivity|exact H].
Defined.

Lemma departure_witness : ∃ o, Orchestrator.run world cert cands (call ++ [alice_lost]) first = Ok ((), o) ∧ sessions o !! alice = None ∧
  ∀ t i, Plane.tracks (plane_of o) !! t = Some i → Tracks.publisher i ≠ alice.
Proof.
  pose proof (OrchTheorems.departure_complete world cert cands state 1 call alice_lost alice first (call_setup _ (call_ids alice_lost eq_refl)) eq_refl) as H.
  destruct (Orchestrator.run world cert cands (call ++ [alice_lost]) first) as [[[] o]|[]|] eqn:E; [|vm_compute in E; discriminate E|destruct H; left].
  destruct H as (Hs & _ & _ & _ & Ht); [by left|]. exists o. split; [reflexivity|]. split; [exact Hs|exact Ht].
Defined.

(** The publisher no longer answers consent checks. *)
Definition consent_lost : Orchestrator.wakeup := Orchestrator.Happened [ConsentLost 1].

Lemma settle_witness : ∃ o1 o2, (Orchestrator.run world cert cands call;; Orchestrator.wake world cert cands consent_lost) first = Ok ((), o1) ∧
  Orchestrator.settle world cert cands o1 = Ok ((), o2) ∧ (Plane.closing (plane_of o1)).*1 = [alice] ∧ Plane.closing (plane_of o2) = [].
Proof.
  pose proof (OrchTheorems.settle_closes_everyone world cert cands state 1 call consent_lost first (call_setup _ (call_ids consent_lost eq_refl)) eq_refl) as H.
  destruct ((Orchestrator.run world cert cands call;; Orchestrator.wake world cert cands consent_lost) first) as [[[] o1]|[]|] eqn:E; [|vm_compute in E; discriminate E|destruct H].
  assert (E1 : option_map (fun o => (Plane.closing (plane_of o)).*1)
    (match (Orchestrator.run world cert cands call;; Orchestrator.wake world cert cands consent_lost) first with Ok (_, o) => Some o | _ => None end) = Some [alice]) by by vm_compute.
  rewrite E in E1. injection E1 as E1. assert (E2 : is_some (after (call ++ [consent_lost])) = true) by by vm_compute.
  unfold after, Orchestrator.run in E2. rewrite OrchTheorems.run_app in E2. unfold Orchestrator.run, mbind, st_bind in E, E2. cbn [for_each] in E2.
  destruct (for_each call _ first) as [[[] o0]|[]|]; [|discriminate E|discriminate E]. unfold Orchestrator.iteration, mbind, st_bind in E2. rewrite E in E2.
  destruct (Orchestrator.settle world cert cands o1) as [[[] o2]|[]|] eqn:E3; [|discriminate E2|discriminate E2]. destruct H as [H _]. exists o1, o2. split; [reflexivity|]. split; [exact E3|]. split; [exact E1|exact H].
Defined.
End Call.
